(* ===== verification/_CoqProject ===== *)
-Q . S2P
Prelude.v
GoStrings.v
Sha256.v
Json.v
GoNum.v
JsonStruct.v
Kube.v
GoTime.v
GoUrl.v
GoText.v
Core.v
Api.v
KubeStatus.v
Effects.v
Controller.v
Constants.v
BuildRun.v
EnvStore.v
BuildRunFacts.v
AppBuild.v
AppBuildFacts.v
Bindings.v
Authz.v
EnvResolver.v
EnvReconcile.v
SSETokens.v
VarGen.v
Compose.v
Auth.v
BuildTracker.v
BuildRunReconcile.v
BuildRunLogs.v
Activity.v
Nsrbac.v
LoginLimit.v
ProjectReconcile.v
ApiServer.v
GitTokens.v
AppAnnotations.v
AppGc.v
Workloads.v
AppPods.v
AppWorkloads.v
AppWorkloadsFacts.v
AppWorkloadsSettle.v
AppLifecycle.v
AppLifecycleFacts.v
ProjectFacts.v
ProjectConverges.v
BuildRunFlow.v
BuildRunSystem.v
BuildRunEnds.v
Cluster.v
ProjectRuns.v
AppWorkloadsRuns.v
AppLifecycleRuns.v
BuildRunRuns.v
ApiMembers.v
ApiUsers.v
ApiUsersFacts.v
ApiUsersRuns.v
ApiDomains.v
ApiApps.v
ApiAppsFacts.v
ApiAppsRuns.v
ApiEnv.v
ApiEnvHandlers.v
ApiProjectEnvs.v
ProjectEnvsSpec.v
ProjectEnvsRuns.v
WebhookEvents.v
Webhook.v
PreviewReconcile.v
PreviewFacts.v
PreviewConverges.v
PreviewRuns.v
