(* ===== verification/Prelude.v ===== *)
(** * Mortise: a verification library

    Mortise is a self-hosted platform on Kubernetes, written in Go.  Its state is the
    set of custom resources under [api/v1alpha1] and the Secrets and ConfigMaps beside
    them.  Three kinds of writers share that state without locks: the REST API, the
    webhook receiver and the controllers.  This library models the parts of the program
    that decide what is written, who may write it and what survives when several write
    at once, and proves what each of these parts is meant to guarantee.  File names
    below are relative to [src/].

    ** The parts and how they interact

    - A request is authenticated ([internal/auth], [internal/api/middleware.go]: a session
      token, or one of the single-use tokens of [sse_tokens.go] on event streams) and
      authorized ([internal/authz]) from the user's role and project memberships.  The
      handlers of [internal/api] then read and write custom resources and Secrets.
    - The environment variables of an app are edited out of band through
      [internal/envstore] and merged with the spec, the shared variables and the
      bindings ([internal/bindings]) by the app controller ([reconcileEnvSecret] in
      [internal/controller/app_controller.go]), for each environment the resolver
      ([app_env_resolver.go]) finds.  Both write the same Secret.
    - A push or pull request at a forge reaches [internal/webhook], which verifies the
      signature ([internal/git]) and patches apps or maintains preview environments.
    - The app controller asks for a build by creating a BuildRun; the build run controller
      ([buildrun_controller.go]) executes it in a goroutine that reports through a tracker
      in memory ([build_tracker.go]) and writes the outcome into the run and the app.  The
      API streams the log from the tracker.
    - Who did what is recorded in [internal/activity], a bounded buffer per project.
    - Namespaces and object names are computed, never stored ([internal/constants]).

    ** The files

    What the program uses of Go and its libraries:
    - [Prelude]: automation (the hint databases and rewriting base [go], the tactics),
      lemmas on lists, options and maps, and [MapRange]: the order in which Go ranges
      over a map is a parameter, of which [MapRangeOk] says only that it is a
      permutation of the entries.
    - [GoStrings], [GoText], [GoNum], [GoTime], [GoUrl]: [strings], [fmt],
      [strconv], [float64], [time], [net/url].  A Go string is a byte string; an [int64] is
      a [Z] with its wrap-around written out; a [float64] is a binary64 value of [SpecFloat].
    - [Sha256]: SHA-256, HMAC and hexadecimal, computed.  [Json], [JsonStruct]:
      [encoding/json], as a printer, a parser and decoders of structs.

    The cluster:
    - [Kube]: object metadata, Go errors, and the client library as type classes over a
      world [W].  [KubeClientOk] is what the program relies on: a resource version names
      one content of an object, an update succeeds only against the version it carries,
      a create only where there is nothing, a read may be stale.  Other writers may act
      inside every call ([khist]); [kquiet] is a world where none does and no call
      fails.  [KubeRetryOk] is [RetryOnConflict], [KubeListOk] lists, [KubeDeleteOk]
      deletion at once, [KubeDeleteAsks] deletion that may leave the object marked, [KubeSnapshot] a reader without a cache.  [Sim] implements all of them: an
      append-only log with scheduled foreign writes and faults, on which the witnesses run.
    - [KubeStatus]: the status subresource and conditions.  [Cluster]: a server of several
      kinds, made of one [Sim] per kind, with operations on one kind leaving others alone,
      and the relation of worlds that keep an object of somebody else.
    - [Effects]: functions that may return an error, and relations they stay within on
      every path ([keeps], [within]).
    - [Core] and [Api]: Secrets, ConfigMaps, Namespaces, role bindings and the structs of
      [api/v1alpha1], field by field, each with its zero value and field assignments.

    The stores and the policy, one file each, with the Go names kept:
    - [Constants]: [internal/constants/constants.go].
    - [EnvStore]: [internal/envstore].  A Secret, its annotations and [Env] lists;
      [Apply], [Merge], [Delete], [Get] and the shared-variable operations on the world.
    - [Bindings]: [internal/bindings/resolver.go].
    - [Authz]: [internal/authz] and the roles of [internal/auth/provider.go].
    - [Auth]: [native.go] and [jwt.go] of [internal/auth].  The state is the user
      Secrets and the key Secret; the abstract state is a map of accounts.
    - [SSETokens]: the token store, a record of the map and the clock; its methods hold
      a mutex, so they are steps of a transition relation ([run]).
    - [LoginLimit]: [loginlimit.go], a token bucket with a lockout per key; likewise.
    - [Activity]: the event buffer in its ConfigMap, with its JSON.
    - [Nsrbac]: [internal/nsrbac], the role binding of every namespace.

    The controllers:
    - [EnvResolver], [EnvReconcile]: the environments of an app and the Secret of each;
      the drift reports of [app_env_drift.go].
    - [BuildRun], [AppBuild]: names, hashes and helpers of build runs
      ([buildrun_support.go]), and the half of [app_controller.go] that asks for builds.
      [BuildRunFacts] and [AppBuildFacts] hold what they promise, [BuildRunRuns] runs.
    - [BuildTracker]: the tracker store, a heap of trackers because a build keeps a
      reference after its key is gone, and the stream that polls it.
    - [BuildRunReconcile]: the build run controller with its runner, logs and history.
      [BuildRunFlow] bounds what one reconciliation writes in any world,
      [BuildRunSystem] is the step relation of reconciliations, build goroutines and
      restarts of the process, [BuildRunEnds] says that runs end and which
      are kept, [BuildRunLogs] what logs are stored; [BuildRunRuns] holds the runs.
    - [Controller]: the result of a reconciliation, the scan of owner references,
      finalizers, and refused writes in young namespaces ([forbidden.go]).
    - [ProjectReconcile]: the project controller ([project_controller.go]): namespaces,
      role bindings, the record of the owner, the activity, status and teardown.
      [ProjectFacts] bounds what it touches, [ProjectConverges] says what it comes to
      when nobody interferes; [ProjectRuns] holds the runs.
    - [GitTokens]: [internal/git/tokens.go].  [PreviewReconcile]: the preview environment
      controller ([previewenvironment_controller.go]) and its convergence with the open
      pull requests; [PreviewFacts] and [PreviewConverges] hold what they promise,
      [PreviewRuns] runs.
    - [AppAnnotations], [Workloads], [AppPods], [AppWorkloads]: the objects of an app in an
      environment ([reconcileDeployment] to [reconcileCredentialsSecret] in
      [app_controller.go], [internal/ingress], [platformconfig_types.go]): the merge of
      annotations, the kinds, what a pod is made of, and one function per kind.
      [AppWorkloadsFacts] bounds what they touch, [AppWorkloadsSettle] says what they come
      to, [AppWorkloadsRuns] holds the runs.
    - [AppGc]: [app_env_gc.go], for a kind as a parameter; [AppLifecycleRuns] runs it on eight servers.
    - [AppLifecycle]: finalizers, bindings to apps that go or are missing, the pass over a
      deleted app and what a failed pass comes to ([app_controller.go]); [AppLifecycleFacts]
      says what they promise, [AppLifecycleRuns] holds the runs.

    The webhook receiver:
    - [WebhookEvents], [Webhook]: the pure half of the receiver and the half that acts,
      against the interface [K8sReader], which [k8s.go] implements with client calls.

    The REST API:
    - [ApiServer]: requests and replies, the monad of handlers [H], the mapping of errors
      to status codes, authorization, lookups, recording of activity; [gated] and [reads]
      are the relations of the theorems on access.
    - [ApiUsers]: [users.go], [auth.go], [middleware.go], with [ApiUsersFacts] and
      [ApiUsersRuns].  [ApiMembers]: [members.go].  [ApiDomains]: [domains.go].
    - [ApiApps]: [apps.go], [tokens.go], [deploy.go], with [ApiAppsFacts], [ApiAppsRuns].
    - [ApiEnv]: [env.go], with [ApiEnvHandlers].  [ApiProjectEnvs]: [project_envs.go],
      with [ProjectEnvsSpec] and [ProjectEnvsRuns].
    - [VarGen], [Compose]: [vargen.go] and [compose.go], and the depth-first sort
      they share.

    ** What is proved

    Concurrent writers.  [EnvStore.Apply_no_lost_update] and
    [Activity.Append_no_lost_event]: a successful write applied the caller's change to
    the very version it replaced, whatever others did in between.
    [ProjectEnvsSpec.env_ops_atomic]: the same for the environments of a project.
    [SSETokens.Redeem_single_use]: in every interleaving a token is redeemed at most
    once, by the principal it was issued to.

    Builds.  [BuildRunSystem.one_live_build]: in every interleaving of reconciliations,
    goroutines and restarts a run has at most one live build.
    [BuildRunFlow.Reconcile_moves]: every write is a legal step in the life of the run.
    [BuildRunEnds.interrupted_run_ends] and [outcome_not_lost]: a run whose builds are lost
    has failed after at most ten rounds, and an outcome is kept until it is stored.
    [AppBuildFacts.build_started_once], [rebuild_request_served] and
    [preview_build_isolated]: what a pass of the app controller asks for.
    [BuildRunEnds.gc_spec], [BuildRunLogs.persisted_log_stable],
    [BuildRunFacts.buildRunMatchesAppSpec_spec].

    Projects.  [ProjectFacts.reconcile_touches_own]: whatever others do, only namespaces
    of the project are written, and one is deleted only if the live project does not want
    it.  [ProjectConverges.project_converges]: a reconciliation that is done has come to
    one of four outcomes; the namespaces of a project that goes may still be terminating.  [ProjectConverges.create_recorded_once]: the activity of the
    creation is added to a buffer that did not have it.

    Workloads.  [AppWorkloadsFacts.workloads_touch_own]: whatever others do, only what the
    platform made is changed, under the names of the app.
    [AppWorkloadsSettle.workloads_settle]: after two passes the objects are as the app asks
    for, but for what is set at creation only, and a third writes nothing.  [AppAnnotations.annotations_three_way]: annotations of
    others stay, and those the platform no longer wants go.

    Garbage.  [AppGc.gc_deletes_own]: whatever others do, only what carries the labels of
    the app is deleted; [gc_complete]: without other writers nothing of it stays.
    [AppLifecycleFacts.app_deletion_ends]: the pass over a deleted app ends with its
    finalizer gone, after its objects and the bindings to it.
    [AppLifecycleFacts.failures_reported]: which condition a failed pass leaves, and when it
    is tried again; [dangling_bindings_pruned]: bindings to apps that are missing go.

    Previews.  [PreviewFacts.preview_touches_own]: a reconciliation changes the one
    environment of its preview.  [PreviewConverges.convergence_spec]: which previews a
    convergence deletes and creates.  [PreviewFacts.overrides_settle]: previews that share
    an environment do not overwrite each other.  [GitTokens.ResolveGitTokenForApp_spec].

    Access.  [Authz.Authorize_implements_policy] (a table of rules),
    [ApiAppsFacts.deploys_authorized], [ApiEnvHandlers.env_edits_authorized] and
    [values_need_update_right], [Webhook.unverified_changes_nothing]: nothing is written
    or shown before the policy, a token or a signature allows it.

    Accounts and sessions.  [Auth.accounts_refine], [ApiUsersFacts.users_refine] (a map of
    accounts, with an admin left when nobody else writes), [setup_once], [login_spec], [sessions_revalidated],
    [Auth.password_change_ends_sessions], [LoginLimit.lockout_enforced] and
    [table_bounded], [ApiMembers.owners_remain], [ApiAppsFacts.tokens_refine].

    Other refinements.  [Bindings.Resolve_spec], [EnvResolver.resolveEnvs_spec],
    [Webhook.preview_follows_pr] (the preview is at the last event, while only its
    controller writes besides),
    [ApiAppsFacts.deploy_effect], [ApiEnvHandlers.PutEnv_replaces],
    [ApiDomains.domains_stay_apart] (for the handlers of domains; those of apps do not look).
    The environment Secret.  [EnvReconcile.override_preserved] (a value changed out of
    band is kept), [spec_change_applied], [removed_from_spec] and
    [spec_edit_propagates] (an edited spec arrives), [EnvStore.Merge_Get] and
    [EnvStore.Delete_Get] (what is written is read back),
    [EnvStore.EnvHash_container_env] (equal hashes mean equal container environments,
    for the hash function being injective on the two inputs).

    Round trips, bounds and totality.  [EnvStore.SecretToEnvs_buildSecret],
    [ApiEnv.put_env_roundtrip], [Activity.append_event_invariant], [Activity.ListPage_walk]
    (paging visits every event once), [BuildTracker.log_buffer_bounded],
    [BuildTracker.stream_complete], [Compose.composeToAppSpecs_spec] and
    [VarGen.resolveVarSpecs_succeeds] (the sorts end and order what depends on what);
    beside them the lemmas [Json.parse_print], [GoTime.parse_format] and
    [GoNum.ParseInt64_itoa] on which they stand.

    Each theorem with hypotheses has a witness in a [...Runs] module, which applies it to a
    run on [Sim], on a cluster or to a concrete input; the same modules hold, as examples,
    the runs that show where the code falls short of what it says.

    ** Parameters, bounds and fuel

    Parameters: the API server; bcrypt ([BcryptOk]: a hash matches its password and,
    up to 72 bytes, nothing else); signing and parsing of JWTs; the random source; the
    clock; the SDK clients of the forges, BuildKit and the registry; YAML; the map order;
    the quantities of Kubernetes ([Quantities]: equal to themselves); the table of JSON
    fields of an app specification.  Loops with a bound of the code
    keep it: five steps of [RetryOnConflict], the attempts of [Append].  Fuel is the
    input's length where each round consumes some of it ([Json.parse_value],
    [Activity.trim_bytes], the sort of [VarGen]), and [ListPage_walk] shows that one page more than there
    are events is enough.  [Auth.signingKey] recurses without a bound in the code, so
    its fuel is an argument and running out is [None].

    ** What is simplified

    Case folding and white space are those of ASCII (in [strings] and in the matching of
    JSON field names).  A time is its instant, printed in UTC; that the API server stores
    times by the second is not modelled, nor that it moves [StringData] into [Data] or sets
    defaults; workloads have the fields the program sets or compares.  A nil
    map and an empty one are the same map, as no modelled code tells them apart but through
    JSON, where the encoders say so.  An object in an answer is as it was sent.  Namespaces and previews
    that are deleted may stay, marked ([KubeDeleteAsks]); other objects are gone at once where
    a theorem speaks of a quiet world ([KubeDeleteOk]), so that a volume claim or an app
    that a finalizer holds is there longer than [AppGc.gc_complete] and
    [AppLifecycleFacts.app_deletion_ends] say.  The body of
    a request is given as read or as a failure to read; the middleware that limits its size
    is not modelled.  The goroutines of builds act between reconciliations.  Log and audit
    lines are left out.

    ** What is not modelled

    The order of the parts in [Reconcile], the status of apps, certificates and host names
    in [app_controller.go]; the platform and provider controllers; the remaining REST handlers; the observer
    and the command line client.
    Clients of BuildKit, registries and forges, generated deep copies, the web interface
    and the charts have no logic of the program's own to verify. *)

From Stdlib Require Ascii String.
From stdpp Require Export base strings gmap sorting list fin_maps pretty.
From Stdlib Require Export ZArith Lia.

(** Bytes: the type and the notation of its literals. *)
Abbreviation ascii := Ascii.ascii.
Export Ascii.AsciiSyntax.
Delimit Scope char_scope with char.
#[global] Arguments String.append : simpl nomatch.
#[global] Arguments String.length : simpl nomatch.

(** ** Automation *)

Create HintDb go discriminated.
Create Rewrite HintDb go.

(** Case analysis on the scrutinee of every [match] and [if] of the goal or of a
    hypothesis, closing the contradictory branches. *)
Ltac split_match :=
  repeat (case_match || case_decide); simplify_eq/=; try done.

(** ** Booleans, options and lists *)

Lemma existsb_elem {A} (f : A → bool) l :
  existsb f l = true ↔ ∃ x, x ∈ l ∧ f x = true.
Proof.
  rewrite existsb_exists. setoid_rewrite list_elem_of_In. done.
Qed.

Lemma forallb_elem {A} (f : A → bool) l :
  forallb f l = true ↔ ∀ x, x ∈ l → f x = true.
Proof.
  rewrite forallb_forall. setoid_rewrite list_elem_of_In. done.
Qed.

Lemma NoDup_fmap_filter_bool {A B} (f : A → bool) (g : A → B) l :
  NoDup (g <$> l) → NoDup (g <$> List.filter f l).
Proof.
  induction l as [|x l IH]; [done|]. rewrite fmap_cons, NoDup_cons. intros [Hx Hl]. simpl.
  destruct (f x); [|by apply IH]. rewrite fmap_cons, NoDup_cons. split; [|by apply IH].
  intros (y & Hy & Hin)%list_elem_of_fmap. apply Hx, list_elem_of_fmap. exists y. split; [done|].
  by apply list_elem_of_In, filter_In in Hin as [?%list_elem_of_In _].
Qed.

Lemma list_filter_bool_all {A} (f : A → bool) (l : list A) :
  (∀ x, x ∈ l → f x = true) → List.filter f l = l.
Proof.
  induction l as [|a l IH]; simpl; intros H; [done|].
  rewrite (H a) by left. f_equal. apply IH. intros. apply H. by right.
Qed.

(** A property of the first [k] numbers is decided by enumeration. *)
Lemma N_below_cases (P : N → bool) (k : nat) :
  forallb P (N.of_nat <$> seq 0 k) = true → ∀ n, (n < N.of_nat k)%N → P n = true.
Proof.
  intros H n Hn. rewrite forallb_elem in H. apply H, list_elem_of_fmap.
  exists (N.to_nat n). rewrite elem_of_seq. lia.
Qed.

(** Sorting of strings, as Go's [sort.Strings]: the result is the one sorted
    permutation, because the bytewise order is total and antisymmetric. *)
Definition sort_strings (l : list string) : list string := merge_sort String.le l.

Lemma sort_strings_perm l : sort_strings l ≡ₚ l.
Proof. apply merge_sort_Permutation. Qed.

Lemma sort_strings_unique l1 l2 : l1 ≡ₚ l2 → sort_strings l1 = sort_strings l2.
Proof.
  intros Hp. apply (StronglySorted_unique String.le).
  - apply StronglySorted_merge_sort; apply _.
  - apply StronglySorted_merge_sort; apply _.
  - by rewrite !sort_strings_perm.
Qed.

Lemma elem_of_sort_strings x l : x ∈ sort_strings l ↔ x ∈ l.
Proof. by rewrite sort_strings_perm. Qed.

Lemma sort_strings_nil l : sort_strings l = [] ↔ l = [].
Proof.
  split; intros H; [|by subst].
  apply Permutation_nil_r. by rewrite <- (sort_strings_perm l), H.
Qed.

(** Sorting by a string key, as [sort.Slice] with a comparison of names; the keys
    are pairwise distinct wherever the code uses it. *)
Section sort_by.
Context {A : Type} (key : A → string).

Definition key_le (x y : A) : Prop := String.le (key x) (key y).

#[global] Instance key_le_dec : RelDecision key_le.
Proof. intros x y. unfold key_le. apply _. Defined.

#[local] Instance key_le_total : Total key_le.
Proof. intros x y. unfold key_le. apply total. apply _. Qed.

#[local] Instance key_le_trans : Transitive key_le.
Proof. intros x y z. unfold key_le. by intros ->. Qed.

Definition sort_by (l : list A) : list A := merge_sort key_le l.

Lemma sort_by_perm l : sort_by l ≡ₚ l.
Proof. apply merge_sort_Permutation. Qed.

Lemma sort_by_sorted l : StronglySorted key_le (sort_by l).
Proof. apply StronglySorted_merge_sort; apply _. Qed.

(** With distinct keys the sorted order does not depend on the input order. *)
Lemma sort_by_unique l1 l2 :
  NoDup (key <$> l1) → l1 ≡ₚ l2 → sort_by l1 = sort_by l2.
Proof.
  intros Hnd Hp.
  apply (StronglySorted_unique_strong key_le); try apply sort_by_sorted.
  - intros x1 x2 H1 H2 Hle1 Hle2.
    rewrite sort_by_perm in H1. rewrite sort_by_perm, <- Hp in H2.
    assert (key x1 = key x2) as Hk.
    { unfold key_le in *. apply (anti_symm String.le); done. }
    apply list_elem_of_lookup in H1 as [i Hi].
    apply list_elem_of_lookup in H2 as [j Hj].
    assert (i = j) as ->; [|congruence].
    apply (NoDup_lookup _ _ _ (key x1) Hnd);
      rewrite list_lookup_fmap; [by rewrite Hi | by rewrite Hj, Hk].
  - by rewrite !sort_by_perm.
Qed.

(** A sorted list with distinct keys is determined by its elements. *)
Lemma key_sorted_ext l1 l2 :
  StronglySorted key_le l1 → StronglySorted key_le l2 →
  NoDup (key <$> l1) → NoDup (key <$> l2) → (∀ x, x ∈ l1 ↔ x ∈ l2) → l1 = l2.
Proof.
  intros Hs1 Hs2 Hn1 Hn2 Hin.
  assert (l1 ≡ₚ l2) as Hp
    by (apply NoDup_Permutation; [by eapply NoDup_fmap_1..|done]).
  apply (StronglySorted_unique_strong key_le); [|done..].
  intros x1 x2 H1 H2 Hle1 Hle2. apply Hin in H2.
  assert (key x1 = key x2) as Hk by (unfold key_le in *; by apply (anti_symm String.le)).
  apply list_elem_of_lookup in H1 as [i Hi]. apply list_elem_of_lookup in H2 as [j Hj].
  assert (i = j) as ->; [|congruence].
  apply (NoDup_lookup _ _ _ (key x1) Hn1);
    rewrite list_lookup_fmap; [by rewrite Hi | by rewrite Hj, Hk].
Qed.

Lemma filter_key_sorted (f : A → bool) l :
  StronglySorted key_le l → StronglySorted key_le (List.filter f l).
Proof.
  induction 1 as [|x l Hl IH Hx]; simpl; [constructor|].
  destruct (f x); [|done]. constructor; [done|].
  rewrite Forall_forall in *. intros y. rewrite list_elem_of_In, filter_In, <- list_elem_of_In.
  intros [Hy _]. by apply Hx.
Qed.

Lemma filter_key_nodup (f : A → bool) l :
  NoDup (key <$> l) → NoDup (key <$> List.filter f l).
Proof. apply NoDup_fmap_filter_bool. Qed.
End sort_by.

Lemma elem_of_filter_bool {A} (f : A → bool) l x :
  x ∈ List.filter f l ↔ x ∈ l ∧ f x = true.
Proof. by rewrite !list_elem_of_In, filter_In. Qed.

(** Replacing an element by one that is not in the list. *)
Lemma NoDup_list_insert {A} (l : list A) i x y :
  l !! i = Some y → NoDup l → x = y ∨ x ∉ l → NoDup (<[i:=x]> l).
Proof.
  intros Hi Hnd [->|Hx]; [by rewrite list_insert_id|]. apply NoDup_alt. intros j k n.
  assert (x ∈ l → False) as Hno by done.
  rewrite !list_lookup_insert_Some. intros [(<- & <- & _)|[Hj Hln]] [(<- & Hn & _)|[Hk Hkn]]; [done| | |].
  - by apply list_elem_of_lookup_2 in Hkn.
  - subst. by apply list_elem_of_lookup_2 in Hln.
  - by eapply NoDup_lookup.
Qed.

(** [sort.SliceStable] by an integer key: an element goes before the first one whose key
    is not smaller. *)
Section stable.
Context {A : Type} (key : A → Z).

Fixpoint insert_stable (x : A) (l : list A) : list A :=
  match l with
  | [] => [x]
  | y :: l' => if (key x <=? key y)%Z then x :: l else y :: insert_stable x l'
  end.

Definition stable_sort (l : list A) : list A := foldr insert_stable [] l.

Lemma insert_stable_perm x l : insert_stable x l ≡ₚ x :: l.
Proof.
  induction l as [|y l IH]; simpl; [done|]. destruct (_ <=? _)%Z; [done|]. rewrite IH. constructor.
Qed.
Lemma stable_sort_perm l : stable_sort l ≡ₚ l.
Proof. induction l as [|x l IH]; simpl; [done|]. by rewrite insert_stable_perm, IH. Qed.

Lemma stable_sort_sorted l : StronglySorted (λ x y, key x ≤ key y)%Z (stable_sort l).
Proof.
  induction l as [|x l IH]; simpl; [constructor|].
  induction IH as [|y l' Hs IH' Hy]; simpl; [by repeat constructor|].
  destruct (Z.leb_spec (key x) (key y)).
  - constructor; [by constructor|]. constructor; [done|].
    eapply Forall_impl; [exact Hy|]. intros z ?. simpl in *. lia.
  - constructor; [done|]. rewrite insert_stable_perm. constructor; [lia|done].
Qed.

(** Elements with the same key stay in order. *)
Lemma stable_sort_stable k l :
  List.filter (λ x, (key x =? k)%Z) (stable_sort l) = List.filter (λ x, (key x =? k)%Z) l.
Proof.
  induction l as [|x l IH]; simpl; [done|]. rewrite <-IH. clear IH.
  pose proof (stable_sort_sorted l) as Hs. induction Hs as [|y l' Hs IH Hy]; simpl; [done|].
  destruct (Z.leb_spec (key x) (key y)); simpl; [done|]. rewrite IH.
  destruct (Z.eqb_spec (key x) k); [|done]. destruct (Z.eqb_spec (key y) k); [lia|done].
Qed.
End stable.

(** ** Iteration over Go maps

    A Go [for k, v := range m] visits every entry once, in an order the language
    leaves open. [MapRange] is that order; the theorems hold for each choice. *)
Class MapRange := range : ∀ {A}, gmap string A → list (string * A).

Class MapRangeOk (R : MapRange) : Prop :=
  range_perm : ∀ {A} (m : gmap string A), range m ≡ₚ map_to_list m.

Definition range_sorted_order : MapRange := λ A m, map_to_list m.

#[global] Instance range_sorted_order_ok : MapRangeOk range_sorted_order.
Proof. intros A m. done. Qed.

Section range_lemmas.
Context {R : MapRange} {HR : MapRangeOk R}.

Lemma elem_of_range {A} (m : gmap string A) k v :
  (k, v) ∈ range m ↔ m !! k = Some v.
Proof. by rewrite range_perm, elem_of_map_to_list. Qed.

Lemma range_keys_nodup {A} (m : gmap string A) : NoDup (range m).*1.
Proof. rewrite range_perm. apply NoDup_fst_map_to_list. Qed.

Lemma list_to_map_range {A} (m : gmap string A) :
  list_to_map (range m) = m.
Proof.
  rewrite <- (list_to_map_to_list m) at 2.
  apply list_to_map_proper; [apply range_keys_nodup | apply range_perm].
Qed.
End range_lemmas.

(** A [for k, v := range src { dst[k] = v }] loop copies [src] over [dst]. *)
Definition map_copy {A} (R : MapRange) (dst src : gmap string A) : gmap string A :=
  fold_left (λ m '(k, v), <[k:=v]> m) (range src) dst.

Lemma fold_left_insert_lookup {A} (l : list (string * A)) (m : gmap string A) k :
  NoDup l.*1 →
  fold_left (λ m '(k, v), <[k:=v]> m) l m !! k =
  match (list_to_map l : gmap string A) !! k with Some v => Some v | None => m !! k end.
Proof.
  revert m. induction l as [|[k' v'] l IH]; intros m Hnd; simpl.
  { by rewrite lookup_empty. }
  apply NoDup_cons in Hnd as [Hnin Hnd]. rewrite IH by done.
  destruct (decide (k = k')) as [->|Hne].
  - rewrite not_elem_of_list_to_map_1 by done. by rewrite !lookup_insert_eq.
  - by rewrite !lookup_insert_ne by done.
Qed.

Lemma map_copy_union {A} (R : MapRange) (HR : MapRangeOk R) (dst src : gmap string A) :
  map_copy R dst src = src ∪ dst.
Proof.
  apply map_eq. intros k. unfold map_copy.
  rewrite fold_left_insert_lookup by apply range_keys_nodup.
  rewrite list_to_map_range, lookup_union.
  destruct (src !! k), (dst !! k); done.
Qed.
