(* ===== verification/GoStrings.v ===== *)
(** * Go strings

    What the program uses of Go's [strings], [strconv], [encoding/hex] and [regexp]
    packages, on byte strings.  A Go string is a [string] of bytes.  The case
    conversions and the white-space tests of the Unicode-aware functions are those
    of the ASCII range; a byte of 128 or more is left as it is. *)

From S2P Require Import Prelude.

(** ** Character classes *)

Definition code (c : ascii) : nat := Ascii.nat_of_ascii c.

Definition between (lo hi c : ascii) : bool :=
  (code lo <=? code c)%nat && (code c <=? code hi)%nat.

Definition is_digit : ascii → bool := between "0"%char "9"%char.
Definition is_lower : ascii → bool := between "a"%char "z"%char.
Definition is_upper : ascii → bool := between "A"%char "Z"%char.

(** Any byte outside the ASCII range. *)
Definition is_high (c : ascii) : bool := (128 <=? code c)%nat.

(** [unicode.IsSpace] on ASCII: tab, newline, vertical tab, form feed, carriage
    return and space. *)
Definition is_space (c : ascii) : bool :=
  ((9 <=? code c)%nat && (code c <=? 13)%nat) || (code c =? 32)%nat.

Definition lower_char (c : ascii) : ascii :=
  if is_upper c then Ascii.ascii_of_nat (code c + 32) else c.
Definition upper_char (c : ascii) : ascii :=
  if is_lower c then Ascii.ascii_of_nat (code c - 32) else c.

(** A property of all 256 bytes is decided by evaluation. *)
Definition all_ascii : list ascii := Ascii.ascii_of_nat <$> seq 0 256.

Lemma ascii_cases (P : ascii → bool) :
  forallb P all_ascii = true → ∀ c, P c = true.
Proof.
  intros H c. apply forallb_elem with (x := c) in H; [done|].
  unfold all_ascii. apply list_elem_of_fmap. exists (code c). split.
  - unfold code. by rewrite Ascii.ascii_nat_embedding.
  - apply elem_of_seq. pose proof (Ascii.nat_ascii_bounded c). unfold code. lia.
Qed.

Lemma ascii_imp (P Q : ascii → bool) :
  forallb (λ c, implb (P c) (Q c)) all_ascii = true → ∀ c, P c = true → Q c = true.
Proof.
  intros H c Hc. pose proof (ascii_cases _ H c) as Hi. simpl in Hi. by rewrite Hc in Hi.
Qed.

(** ** Strings as sequences of bytes *)

Fixpoint smap (f : ascii → ascii) (s : string) : string :=
  match s with
  | EmptyString => EmptyString
  | String c s' => String (f c) (smap f s')
  end.

Fixpoint sall (p : ascii → bool) (s : string) : bool :=
  match s with
  | EmptyString => true
  | String c s' => p c && sall p s'
  end.

Fixpoint str_take (n : nat) (s : string) : string :=
  match n, s with
  | S n', String c s' => String c (str_take n' s')
  | _, _ => EmptyString
  end.

Fixpoint str_drop (n : nat) (s : string) : string :=
  match n, s with
  | S n', String _ s' => str_drop n' s'
  | _, _ => s
  end.

(** [strings.HasPrefix], [HasSuffix], [TrimPrefix], [TrimSuffix]. *)
Definition has_prefix (p s : string) : bool := String.prefix p s.
Definition has_suffix (p s : string) : bool :=
  (String.length p <=? String.length s)%nat &&
  String.eqb (str_drop (String.length s - String.length p) s) p.
Definition trim_prefix (p s : string) : string :=
  if has_prefix p s then str_drop (String.length p) s else s.
Definition trim_suffix (p s : string) : string :=
  if has_suffix p s then str_take (String.length s - String.length p) s else s.

(** [strings.Contains] with a non-empty substring. *)
Fixpoint contains (p s : string) : bool :=
  has_prefix p s ||
  match s with
  | EmptyString => false
  | String _ s' => contains p s'
  end.

(** [strings.Index(s, c)] and [strings.LastIndex(s, c)] for a single byte. *)
Fixpoint index_char (c : ascii) (s : string) : option nat :=
  match s with
  | EmptyString => None
  | String a s' => if Ascii.eqb a c then Some 0 else S <$> index_char c s'
  end.

Fixpoint last_index_char (c : ascii) (s : string) : option nat :=
  match s with
  | EmptyString => None
  | String a s' =>
    match last_index_char c s' with
    | Some n => Some (S n)
    | None => if Ascii.eqb a c then Some 0 else None
    end
  end.

(** [strings.TrimLeftFunc] and [strings.TrimRightFunc]. *)
Fixpoint trim_left (p : ascii → bool) (s : string) : string :=
  match s with
  | EmptyString => EmptyString
  | String c s' => if p c then trim_left p s' else s
  end.

Fixpoint trim_right (p : ascii → bool) (s : string) : string :=
  match s with
  | EmptyString => EmptyString
  | String c s' =>
    match trim_right p s' with
    | EmptyString => if p c then EmptyString else String c EmptyString
    | r => String c r
    end
  end.

(** [strings.Trim(s, cutset)] with the cutset as a predicate, and [TrimSpace]. *)
Definition trim (p : ascii → bool) (s : string) : string := trim_right p (trim_left p s).
Definition trim_space : string → string := trim is_space.

Definition to_lower : string → string := smap lower_char.
Definition to_upper : string → string := smap upper_char.

(** [strings.EqualFold] on ASCII. *)
Definition equal_fold (s t : string) : bool := String.eqb (to_lower s) (to_lower t).

(** [strings.Split(s, sep)] for a one-byte separator, and [strings.Join]. *)
Fixpoint split (sep : ascii) (s : string) : list string :=
  match s with
  | EmptyString => [EmptyString]
  | String c s' =>
    if Ascii.eqb c sep then EmptyString :: split sep s'
    else match split sep s' with
         | [] => [String c EmptyString]
         | w :: ws => String c w :: ws
         end
  end.

Definition join (sep : string) (l : list string) : string := String.concat sep l.

(** [fmt.Sprintf("%d", n)] and [strconv.FormatInt(n, 10)]. *)
Definition itoa (n : Z) : string := pretty n.

(** ** Facts *)

Lemma str_app_assoc (a b c : string) : (a +:+ b) +:+ c = a +:+ (b +:+ c).
Proof. induction a as [|x a IH]; simpl; [done|]. by rewrite IH. Qed.

Lemma str_app_nil_r (a : string) : a +:+ "" = a.
Proof. induction a as [|x a IH]; simpl; [done|]. by rewrite IH. Qed.

Lemma str_app_length (a b : string) :
  String.length (a +:+ b) = String.length a + String.length b.
Proof. induction a; simpl; [done|]. by f_equal. Qed.

Lemma str_app_inv_head (a b c : string) : a +:+ b = a +:+ c → b = c.
Proof. induction a; simpl; [done|]. intros [=]. auto. Qed.

Lemma sall_app p a b : sall p (a +:+ b) = sall p a && sall p b.
Proof. induction a; simpl; [done|]. rewrite IHa. by rewrite andb_assoc. Qed.

Lemma sall_mono p q s : (∀ c, p c = true → q c = true) → sall p s = true → sall q s = true.
Proof.
  intros Hpq. induction s; simpl; [done|]. rewrite !andb_true_iff. intros [??]; auto.
Qed.

Lemma sall_smap p f s : sall p (smap f s) = sall (λ c, p (f c)) s.
Proof. induction s; simpl; [done|]. by f_equal. Qed.

Lemma sall_true s : sall (λ _, true) s = true.
Proof. by induction s. Qed.

Lemma smap_length f s : String.length (smap f s) = String.length s.
Proof. induction s; simpl; [done|]. by f_equal. Qed.

Lemma str_take_length n s : String.length (str_take n s) = Nat.min n (String.length s).
Proof. revert s. induction n; intros [|c s]; simpl; try done. by rewrite IHn. Qed.

Lemma sall_take p n s : sall p s = true → sall p (str_take n s) = true.
Proof.
  revert s. induction n; intros [|c s]; simpl; try done.
  rewrite !andb_true_iff. intros [??]; auto.
Qed.

Lemma sall_drop p n s : sall p s = true → sall p (str_drop n s) = true.
Proof.
  revert s. induction n; intros [|c s]; simpl; try done.
  rewrite !andb_true_iff. intros [??]; auto.
Qed.

Lemma str_drop_length n s : String.length (str_drop n s) = String.length s - n.
Proof. revert s. induction n; intros [|c s]; simpl; try done. Qed.

Lemma str_drop_app a b : str_drop (String.length a) (a +:+ b) = b.
Proof. by induction a. Qed.

Lemma prefix_app a b : String.prefix a (a +:+ b) = true.
Proof.
  induction a as [|c a IH]; simpl; [by destruct b|].
  by destruct (Ascii.ascii_dec c c).
Qed.

Lemma has_prefix_spec p s : has_prefix p s = true ↔ ∃ r, s = p +:+ r.
Proof.
  unfold has_prefix. split; [|by intros [r ->]; apply prefix_app].
  revert s. induction p as [|c p IH]; intros s; simpl; [by eexists|].
  destruct s as [|d s]; simpl; [done|].
  destruct (Ascii.ascii_dec c d) as [->|]; [|done].
  intros [r ->]%IH. by exists r.
Qed.

Lemma trim_prefix_app p s : trim_prefix p (p +:+ s) = s.
Proof. unfold trim_prefix, has_prefix. rewrite prefix_app. apply str_drop_app. Qed.

(** The first and the last byte of a string, when it has one. *)
Definition first_ok (p : ascii → bool) (s : string) : bool :=
  match s with EmptyString => true | String c _ => p c end.

Fixpoint last_ok (p : ascii → bool) (s : string) : bool :=
  match s with
  | EmptyString => true
  | String c EmptyString => p c
  | String _ s' => last_ok p s'
  end.

Lemma first_ok_app p a b : a ≠ EmptyString → first_ok p (a +:+ b) = first_ok p a.
Proof. by destruct a. Qed.

Lemma last_ok_app p a b : b ≠ EmptyString → last_ok p (a +:+ b) = last_ok p b.
Proof.
  intros Hb. induction a as [|c a IH]; simpl; [done|].
  destruct (a +:+ b) eqn:E; [|done].
  destruct a; simpl in E; [done|]. done.
Qed.

Lemma str_take_app a b : str_take (String.length a) (a +:+ b) = a.
Proof. induction a; simpl; [done|]. by f_equal. Qed.

Lemma str_take_drop n s : str_take n s +:+ str_drop n s = s.
Proof. revert s. induction n; intros [|c s]; simpl; try done. by rewrite IHn. Qed.

Lemma trim_suffix_app p s : trim_suffix p (s +:+ p) = s.
Proof.
  unfold trim_suffix, has_suffix. rewrite str_app_length.
  replace (String.length s + String.length p - String.length p)
    with (String.length s) by lia.
  rewrite str_drop_app, String.eqb_refl, str_take_app.
  by rewrite (proj2 (Nat.leb_le _ _)) by lia.
Qed.

Lemma has_suffix_spec p s : has_suffix p s = true ↔ ∃ r, s = r +:+ p.
Proof.
  unfold has_suffix. rewrite andb_true_iff, Nat.leb_le, String.eqb_eq. split.
  - intros [_ <-]. eexists. symmetry. apply str_take_drop.
  - intros [r ->]. rewrite str_app_length. split; [lia|].
    replace (String.length r + String.length p - String.length p)
      with (String.length r) by lia. apply str_drop_app.
Qed.

(** A string whose last byte differs from the suffix's last byte keeps it. *)
Lemma trim_suffix_last (c : ascii) p s :
  last_ok (λ a, negb (Ascii.eqb a c)) s = true → s ≠ EmptyString →
  trim_suffix (p +:+ String c EmptyString) s = s.
Proof.
  intros Hl Hne. unfold trim_suffix. destruct (has_suffix _ s) eqn:E; [|done].
  apply has_suffix_spec in E as [r ->]. exfalso.
  rewrite <- str_app_assoc, last_ok_app in Hl by done.
  simpl in Hl. by rewrite Ascii.eqb_refl in Hl.
Qed.

Lemma sall_trim_left p q s : sall p s = true → sall p (trim_left q s) = true.
Proof.
  induction s; simpl; [done|]. rewrite andb_true_iff. intros [??].
  destruct (q a); simpl; [auto|]. by rewrite andb_true_iff.
Qed.

Lemma sall_trim_right p q s : sall p s = true → sall p (trim_right q s) = true.
Proof.
  induction s as [|c s IH]; simpl; [done|]. rewrite andb_true_iff. intros [Hc Hs].
  specialize (IH Hs). destruct (trim_right q s); simpl in *.
  - destruct (q c); simpl; [done|]. by rewrite Hc.
  - by rewrite Hc.
Qed.

Lemma sall_trim p q s : sall p s = true → sall p (trim q s) = true.
Proof. intros. by apply sall_trim_right, sall_trim_left. Qed.

Lemma trim_left_length q s : String.length (trim_left q s) ≤ String.length s.
Proof. induction s; simpl; [lia|]. destruct (q a); simpl; lia. Qed.

Lemma trim_right_length q s : String.length (trim_right q s) ≤ String.length s.
Proof.
  induction s as [|c s IH]; simpl; [lia|].
  destruct (trim_right q s); simpl in *; [destruct (q c)|]; simpl; lia.
Qed.

Lemma trim_length q s : String.length (trim q s) ≤ String.length s.
Proof.
  unfold trim. pose proof (trim_right_length q (trim_left q s)).
  pose proof (trim_left_length q s). lia.
Qed.

Lemma first_ok_trim_left p s : first_ok (λ c, negb (p c)) (trim_left p s) = true.
Proof. induction s; simpl; [done|]. destruct (p a) eqn:E; simpl; [done|]. by rewrite E. Qed.

Lemma first_ok_trim_right q p s :
  first_ok q s = true → first_ok q (trim_right p s) = true.
Proof.
  destruct s as [|c s]; simpl; [done|]. intros Hq.
  destruct (trim_right p s); [destruct (p c)|]; done.
Qed.

Lemma last_ok_trim_right p s : last_ok (λ c, negb (p c)) (trim_right p s) = true.
Proof.
  induction s as [|c s IH]; simpl; [done|].
  destruct (trim_right p s) as [|d r]; [|done].
  destruct (p c) eqn:E; simpl; [done|]. by rewrite E.
Qed.

Lemma first_ok_trim p s : first_ok (λ c, negb (p c)) (trim p s) = true.
Proof. apply first_ok_trim_right, first_ok_trim_left. Qed.

Lemma last_ok_trim p s : last_ok (λ c, negb (p c)) (trim p s) = true.
Proof. apply last_ok_trim_right. Qed.

Lemma first_ok_mono p q s :
  (∀ c, p c = true → q c = true) → first_ok p s = true → first_ok q s = true.
Proof. destruct s; simpl; auto. Qed.

(** [first_ok] and [last_ok] follow from a property of all bytes. *)
Lemma sall_first_ok p s : sall p s = true → first_ok p s = true.
Proof. destruct s; simpl; [done|]. by rewrite andb_true_iff; intros []. Qed.

Lemma sall_last_ok p s : sall p s = true → last_ok p s = true.
Proof.
  induction s as [|c s IH]; simpl; [done|]. rewrite andb_true_iff. intros [? ?].
  destruct s; auto.
Qed.

Lemma first_ok_and p q s :
  first_ok p s = true → first_ok q s = true → first_ok (λ c, p c && q c) s = true.
Proof. destruct s; simpl; [done|]. by intros -> ->. Qed.

Lemma last_ok_and p q s :
  last_ok p s = true → last_ok q s = true → last_ok (λ c, p c && q c) s = true.
Proof.
  induction s as [|c s IH]; simpl; [done|].
  destruct s; [by intros -> ->|]. auto.
Qed.

Lemma last_ok_mono p q s :
  (∀ c, p c = true → q c = true) → last_ok p s = true → last_ok q s = true.
Proof. intros H. induction s as [|c s IH]; simpl; [done|]. destruct s; auto. Qed.

(** *** Decimal numbers *)

Lemma pretty_N_go_digits (k : nat) (x : N) (s : string) :
  (x < 10 ^ N.of_nat k)%N →
  (String.length (pretty_N_go x s) ≤ k + String.length s)%nat ∧
  (sall is_digit s = true → sall is_digit (pretty_N_go x s) = true).
Proof.
  revert x s. induction k as [|k IH]; intros x s Hx.
  - simpl in Hx. assert (x = 0)%N as -> by lia. rewrite pretty_N_go_0. split; [lia|done].
  - destruct (decide (x = 0)%N) as [->|Hnz]; [rewrite pretty_N_go_0; split; [lia|done]|].
    rewrite pretty_N_go_step by lia.
    destruct (IH (x `div` 10)%N (String (pretty_N_char (x `mod` 10)) s)) as [Hl Hd].
    { apply N.Div0.div_lt_upper_bound. rewrite Nat2N.inj_succ, N.pow_succ_r' in Hx. lia. }
    split; [simpl in Hl; lia|]. intros Hs. apply Hd. simpl. rewrite Hs, andb_true_r.
    apply (N_below_cases (λ d, is_digit (pretty_N_char d)) 10); [done|].
    by apply N.mod_lt.
Qed.

Lemma itoa_length (k : nat) (n : Z) :
  (0 < k)%nat → (0 ≤ n < 10 ^ Z.of_nat k)%Z → String.length (itoa n) ≤ k.
Proof.
  intros Hk Hn. unfold itoa. destruct n as [|p|p]; [simpl; lia| |lia].
  change (pretty (Z.pos p)) with (pretty_N_go (N.pos p) "").
  destruct (pretty_N_go_digits k (N.pos p) "") as [Hl _]; [|simpl in Hl; lia].
  apply N2Z.inj_lt. rewrite N2Z.inj_pow, nat_N_Z. simpl. lia.
Qed.

Lemma itoa_digits (n : Z) : (0 ≤ n)%Z → sall is_digit (itoa n) = true.
Proof.
  intros Hn. unfold itoa. destruct n as [|p|p]; [done| |lia].
  change (pretty (Z.pos p)) with (pretty_N_go (N.pos p) "").
  destruct (pretty_N_go_digits (N.to_nat (N.pos p)) (N.pos p) "") as [_ Hd];
    [|by apply Hd].
  rewrite N2Nat.id. apply N.pow_gt_lin_r. lia.
Qed.

Lemma itoa_nonempty (n : Z) : itoa n ≠ EmptyString.
Proof.
  intros H. destruct n as [|p|p]; [done| |done].
  change (itoa (Z.pos p)) with (pretty_N_go (N.pos p) "") in H.
  rewrite pretty_N_go_step in H by lia.
  assert (∀ x s, s ≠ EmptyString → pretty_N_go x s ≠ EmptyString) as Hgo; [|by apply Hgo in H].
  intros x. induction (N.lt_wf_0 x) as [x _ IH]; intros s Hs.
  destruct (decide (x = 0)%N) as [->|]; [by rewrite pretty_N_go_0|].
  rewrite pretty_N_go_step by lia. apply IH; [|done].
  apply N.div_lt; lia.
Qed.

Lemma itoa_inj (m n : Z) : itoa m = itoa n → m = n.
Proof. apply (inj pretty). Qed.

(** *** Splitting and joining *)

Definition no_char (c : ascii) : string → bool := sall (λ a, negb (Ascii.eqb a c)).

Lemma split_no_char c s : no_char c s = true → split c s = [s].
Proof.
  induction s as [|a s IH]; simpl; [done|].
  unfold no_char in *. simpl. rewrite andb_true_iff, negb_true_iff.
  intros [-> H]. by rewrite IH.
Qed.

Lemma split_app_char c w s :
  no_char c w = true → split c (w +:+ String c s) = w :: split c s.
Proof.
  induction w as [|a w IH]; unfold no_char; simpl.
  - by rewrite Ascii.eqb_refl.
  - rewrite andb_true_iff, negb_true_iff. intros [-> H]. by rewrite IH.
Qed.

Lemma split_join c l :
  l ≠ [] → (∀ w, w ∈ l → no_char c w = true) → split c (join (String c "") l) = l.
Proof.
  unfold join. induction l as [|w l IH]; intros Hne Hno; [done|].
  destruct l as [|w' l].
  - simpl. apply split_no_char, Hno. by left.
  - change (String.concat (String c "") (w :: w' :: l))
      with (w +:+ String c (String.concat (String c "") (w' :: l))).
    rewrite split_app_char by (apply Hno; by left).
    f_equal. apply IH; [done|]. intros. apply Hno. by right.
Qed.

Lemma trim_left_id p s : sall (λ c, negb (p c)) s = true → trim_left p s = s.
Proof. destruct s; simpl; [done|]. rewrite andb_true_iff, negb_true_iff. by intros [-> _]. Qed.

Lemma trim_right_id p s : sall (λ c, negb (p c)) s = true → trim_right p s = s.
Proof.
  induction s as [|c s IH]; simpl; [done|].
  rewrite andb_true_iff, negb_true_iff. intros [E Hs]. rewrite IH by done.
  destruct s; [by rewrite E|done].
Qed.

Lemma trim_id p s : sall (λ c, negb (p c)) s = true → trim p s = s.
Proof. intros H. unfold trim. rewrite trim_left_id by done. by apply trim_right_id. Qed.

#[export] Hint Rewrite str_app_assoc str_app_nil_r str_app_length sall_app smap_length
  str_take_length str_drop_length : go.
#[export] Hint Resolve sall_trim sall_take sall_drop first_ok_trim last_ok_trim : go.

(** *** Substrings *)

Lemma contains_no_char c p s : no_char c s = true → contains (String c p) s = false.
Proof.
  unfold no_char. induction s as [|a s IH]; [done|]. cbn [sall contains].
  rewrite andb_true_iff, negb_true_iff. intros [Ha Hs]. rewrite IH by done. rewrite orb_false_r.
  destruct (has_prefix _ _) eqn:E; [|done].
  apply has_prefix_spec in E as [r [= -> _]]. by rewrite Ascii.eqb_refl in Ha.
Qed.

Lemma contains_prefix p s : has_prefix p s = true → contains p s = true.
Proof. destruct s; cbn [contains]; by intros ->. Qed.

Lemma contains_app p a b : contains p (a +:+ p +:+ b) = true.
Proof.
  induction a as [|c a IH].
  - apply contains_prefix, (prefix_app p b).
  - change (has_prefix p (String c (a +:+ p +:+ b)) || contains p (a +:+ p +:+ b) = true).
    rewrite IH. apply orb_true_r.
Qed.

Lemma contains_app_no_char c p a s :
  no_char c a = true → contains (String c p) (a +:+ s) = contains (String c p) s.
Proof.
  unfold no_char. induction a as [|x a IH]; [done|].
  cbn [sall]. rewrite andb_true_iff, negb_true_iff. intros [Hx Ha].
  change (String x a +:+ s) with (String x (a +:+ s)). cbn [contains].
  rewrite IH by done. destruct (has_prefix _ _) eqn:E; [|done].
  apply has_prefix_spec in E as [r [= -> _]]. by rewrite Ascii.eqb_refl in Hx.
Qed.

(** Of two decompositions of a string, the shorter tail is a tail of the longer. *)
Lemma str_app_eq_suffix a b c d :
  a +:+ b = c +:+ d → String.length b ≤ String.length d → ∃ m, d = m +:+ b.
Proof.
  revert c. induction a as [|x a IH]; intros c Heq Hlen.
  - assert (c = EmptyString) as ->; [|by exists EmptyString; simpl in *].
    simpl in Heq. subst b. rewrite str_app_length in Hlen.
    destruct c; [done|simpl in Hlen; lia].
  - destruct c as [|y c]; [by exists (String x a)|].
    injection Heq as _ Heq. by apply (IH c).
Qed.

Lemma str_drop_S_app c a b : str_drop (S (String.length a)) (a +:+ String c b) = b.
Proof. by induction a. Qed.
