(* ===== verification/Sha256.v ===== *)
(** * SHA-256 and hexadecimal encoding

    [crypto/sha256.Sum256] and [encoding/hex.EncodeToString], which the program uses
    for object names, the environment hash and the spec digests.  Words are 32-bit
    values in [N]; the digest is the big-endian byte sequence of eight words. *)

From S2P Require Import Prelude GoStrings.

Module Sha256.

Definition mask : N := 4294967295.
Definition add32 (a b : N) : N := N.land (a + b) mask.
Definition rotr (n x : N) : N :=
  N.land (N.lor (N.shiftr x n) (N.shiftl x (32 - n))) mask.
Definition not32 (x : N) : N := N.lxor x mask.

Definition ch (x y z : N) : N := N.lxor (N.land x y) (N.land (not32 x) z).
Definition maj (x y z : N) : N :=
  N.lxor (N.lxor (N.land x y) (N.land x z)) (N.land y z).
Definition bsig0 (x : N) : N := N.lxor (N.lxor (rotr 2 x) (rotr 13 x)) (rotr 22 x).
Definition bsig1 (x : N) : N := N.lxor (N.lxor (rotr 6 x) (rotr 11 x)) (rotr 25 x).
Definition ssig0 (x : N) : N := N.lxor (N.lxor (rotr 7 x) (rotr 18 x)) (N.shiftr x 3).
Definition ssig1 (x : N) : N := N.lxor (N.lxor (rotr 17 x) (rotr 19 x)) (N.shiftr x 10).

Definition round_constants : list N :=
  [1116352408; 1899447441; 3049323471; 3921009573; 961987163; 1508970993; 2453635748;
   2870763221; 3624381080; 310598401; 607225278; 1426881987; 1925078388; 2162078206;
   2614888103; 3248222580; 3835390401; 4022224774; 264347078; 604807628; 770255983;
   1249150122; 1555081692; 1996064986; 2554220882; 2821834349; 2952996808; 3210313671;
   3336571891; 3584528711; 113926993; 338241895; 666307205; 773529912; 1294757372;
   1396182291; 1695183700; 1986661051; 2177026350; 2456956037; 2730485921; 2820302411;
   3259730800; 3345764771; 3516065817; 3600352804; 4094571909; 275423344; 430227734;
   506948616; 659060556; 883997877; 958139571; 1322822218; 1537002063; 1747873779;
   1955562222; 2024104815; 2227730452; 2361852424; 2428436474; 2756734187; 3204031479;
   3329325298]%N.

(** The chaining value: the eight working words. *)
Record state := State { sa : N; sb : N; sc : N; sd : N; se : N; sf : N; sg : N; sh : N }.

Definition initial : state :=
  State 1779033703 3144134277 1013904242 2773480762
        1359893119 2600822924 528734635 1541459225.

Definition step (s : state) (kw : N * N) : state :=
  let t1 := add32 (add32 (add32 (add32 (sh s) (bsig1 (se s))) (ch (se s) (sf s) (sg s)))
                         (fst kw)) (snd kw) in
  let t2 := add32 (bsig0 (sa s)) (maj (sa s) (sb s) (sc s)) in
  State (add32 t1 t2) (sa s) (sb s) (sc s) (add32 (sd s) t1) (se s) (sf s) (sg s).

(** The message schedule, built backwards: the head of [ws] is the latest word. *)
Fixpoint schedule (n : nat) (ws : list N) : list N :=
  match n with
  | 0 => ws
  | S n' =>
    let w i := nth i ws 0%N in
    schedule n' (add32 (add32 (ssig1 (w 1)) (w 6)) (add32 (ssig0 (w 14)) (w 15)) :: ws)
  end.

Definition compress (s : state) (block : list N) : state :=
  let ws := rev (schedule 48 (rev block)) in
  let s' := fold_left step (zip round_constants ws) s in
  State (add32 (sa s) (sa s')) (add32 (sb s) (sb s')) (add32 (sc s) (sc s'))
        (add32 (sd s) (sd s')) (add32 (se s) (se s')) (add32 (sf s) (sf s'))
        (add32 (sg s) (sg s')) (add32 (sh s) (sh s')).

Definition bytes_of (s : string) : list N := Ascii.N_of_ascii <$> String.list_ascii_of_string s.

(** Big-endian bytes of a [n]-byte word. *)
Fixpoint be_bytes (n : nat) (x : N) : list N :=
  match n with
  | 0 => []
  | S n' => N.land (N.shiftr x (8 * N.of_nat n')) 255 :: be_bytes n' x
  end.

Fixpoint words (l : list N) : list N :=
  match l with
  | a :: b :: c :: d :: l' =>
    (N.shiftl a 24 + N.shiftl b 16 + N.shiftl c 8 + d)%N :: words l'
  | _ => []
  end.

Fixpoint blocks (fuel : nat) (ws : list N) : list (list N) :=
  match fuel, ws with
  | S fuel', _ :: _ => take 16 ws :: blocks fuel' (drop 16 ws)
  | _, _ => []
  end.

(** Padding: a one bit, zeros to 56 modulo 64 bytes, then the bit length. *)
Definition pad (m : list N) : list N :=
  let len := length m in
  m ++ [128%N] ++ replicate ((119 - len mod 64) mod 64) 0%N
    ++ be_bytes 8 (8 * N.of_nat len).

Definition digest (m : list N) : list N :=
  let ws := words (pad m) in
  let s := fold_left compress (blocks (length ws) ws) initial in
  flat_map (be_bytes 4) [sa s; sb s; sc s; sd s; se s; sf s; sg s; sh s].

(** [sha256.Sum256([]byte(s))], as the list of its 32 bytes. *)
Definition sum256 (s : string) : list N := digest (bytes_of s).

Lemma be_bytes_length n x : length (be_bytes n x) = n.
Proof. induction n; simpl; auto. Qed.

Lemma sum256_length s : length (sum256 s) = 32.
Proof. reflexivity. Qed.

Lemma be_bytes_bound n x : Forall (λ b, (b < 256)%N) (be_bytes n x).
Proof.
  induction n; simpl; constructor; [|done].
  change 255%N with (N.ones 8). rewrite N.land_ones. by apply N.mod_lt.
Qed.

Lemma sum256_bound s : Forall (λ b, (b < 256)%N) (sum256 s).
Proof. apply Forall_flat_map, Forall_forall. intros. apply be_bytes_bound. Qed.

(** [hex.EncodeToString]: two lower-case digits per byte. *)
Definition hex_digit (n : N) : ascii :=
  Ascii.ascii_of_N (if (n <? 10)%N then 48 + n else 87 + n).

Fixpoint hex_encode (l : list N) : string :=
  match l with
  | [] => EmptyString
  | b :: l' => String (hex_digit (N.shiftr b 4)) (String (hex_digit (N.land b 15)) (hex_encode l'))
  end.

Definition is_hex (c : ascii) : bool := is_digit c || between "a"%char "f"%char c.

Lemma hex_encode_length l : String.length (hex_encode l) = 2 * length l.
Proof. induction l; simpl; lia. Qed.

(** Every hex digit is the encoding of one of sixteen values; distinct values have
    distinct digits.  Both are decided by enumeration. *)
Lemma hex_digit_is_hex n : (n < 16)%N → is_hex (hex_digit n) = true.
Proof. apply (N_below_cases (λ n, is_hex (hex_digit n)) 16). reflexivity. Qed.

(** The value of a hex digit, inverse of [hex_digit]. *)
Definition hex_value (c : ascii) : N :=
  if is_digit c then Ascii.N_of_ascii c - 48 else Ascii.N_of_ascii c - 87.

Lemma hex_value_digit n : (n < 16)%N → hex_value (hex_digit n) = n.
Proof.
  intros H. apply N.eqb_eq.
  apply (N_below_cases (λ n, (hex_value (hex_digit n) =? n)%N) 16); done.
Qed.

Lemma shiftr4_bound b : (b < 256)%N → (N.shiftr b 4 < 16)%N.
Proof. intros. rewrite N.shiftr_div_pow2. apply N.Div0.div_lt_upper_bound. simpl. lia. Qed.

Lemma land15_bound b : (N.land b 15 < 16)%N.
Proof. change 15%N with (N.ones 4). rewrite N.land_ones. by apply N.mod_lt. Qed.

Lemma nibbles b : b = (16 * N.shiftr b 4 + N.land b 15)%N.
Proof.
  change 15%N with (N.ones 4). rewrite N.land_ones, N.shiftr_div_pow2.
  apply (N.div_mod b 16). done.
Qed.

Lemma hex_encode_sall l :
  Forall (λ b, (b < 256)%N) l → sall is_hex (hex_encode l) = true.
Proof.
  induction 1; simpl; [done|].
  rewrite !hex_digit_is_hex by auto using shiftr4_bound, land15_bound. done.
Qed.

Lemma hex_encode_inj l1 l2 :
  Forall (λ b, (b < 256)%N) l1 → Forall (λ b, (b < 256)%N) l2 →
  hex_encode l1 = hex_encode l2 → l1 = l2.
Proof.
  intros H. revert l2. induction H as [|b1 l1 Hb1 _ IH]; intros [|b2 l2] H2;
    simpl; try done.
  apply Forall_cons in H2 as [Hb2 H2].
  intros [= Hhi Hlo Hrest]. f_equal; [|by apply IH].
  apply (f_equal hex_value) in Hhi, Hlo.
  rewrite !hex_value_digit in Hhi by auto using shiftr4_bound.
  rewrite !hex_value_digit in Hlo by auto using land15_bound.
  by rewrite (nibbles b1), (nibbles b2), Hhi, Hlo.
Qed.

Lemma bytes_of_length s : length (bytes_of s) = String.length s.
Proof.
  unfold bytes_of. rewrite length_fmap.
  induction s; simpl; auto.
Qed.

Lemma bytes_of_bound s : Forall (λ b, (b < 256)%N) (bytes_of s).
Proof.
  unfold bytes_of. apply Forall_fmap, Forall_forall. intros c _. simpl.
  apply Ascii.N_ascii_bounded.
Qed.

#[local] Instance N_of_ascii_inj : Inj (=) (=) Ascii.N_of_ascii.
Proof.
  intros a b Hab.
  by rewrite <- (Ascii.ascii_N_embedding a), Hab, Ascii.ascii_N_embedding.
Qed.

Lemma bytes_of_inj s1 s2 : bytes_of s1 = bytes_of s2 → s1 = s2.
Proof.
  unfold bytes_of. intros H. apply (list_fmap_eq_inj Ascii.N_of_ascii _) in H.
  by rewrite <- (String.string_of_list_ascii_of_string s1), H,
    String.string_of_list_ascii_of_string.
Qed.

End Sha256.

(** [hex.EncodeToString(sum[:])] with [sum := sha256.Sum256([]byte(s))]. *)
Definition sha256_hex (s : string) : string := Sha256.hex_encode (Sha256.sum256 s).

#[global] Arguments sha256_hex : simpl never.

(** Two different texts with one hash. *)
Definition collision (x y : string) : Prop := x ≠ y ∧ sha256_hex x = sha256_hex y.

Lemma sha256_hex_length s : String.length (sha256_hex s) = 64.
Proof. unfold sha256_hex. by rewrite Sha256.hex_encode_length, Sha256.sum256_length. Qed.

Lemma sha256_hex_is_hex s : sall Sha256.is_hex (sha256_hex s) = true.
Proof. apply Sha256.hex_encode_sall, Sha256.sum256_bound. Qed.

(** The standard's test vector for "abc". *)
Example sha256_abc :
  sha256_hex "abc" = "ba7816bf8f01cfea414140de5dae2223b00361a396177a9cb410ff61f20015ad".
Proof. vm_compute. reflexivity. Qed.

Example sha256_empty :
  sha256_hex "" = "e3b0c44298fc1c149afbf4c8996fb92427ae41e4649b934ca495991b7852b855".
Proof. vm_compute. reflexivity. Qed.

Example sha256_two_blocks :
  sha256_hex "abcdbcdecdefdefgefghfghighijhijkijkljklmklmnlmnomnopnopq"
  = "248d6a61d20638b8e5c026930c3e6039a33ce45964ff2167f6ecedd419db06c1".
Proof. vm_compute. reflexivity. Qed.

(** ** HMAC *)

Definition string_of_bytes (l : list N) : string :=
  String.string_of_list_ascii (Ascii.ascii_of_N <$> l).

(** The key of [hmac.New(sha256.New, key)], extended to the block of 64 bytes. *)
Definition hmac_key (key : string) : list N :=
  let k := if (64 <? String.length key)%nat then Sha256.sum256 key else Sha256.bytes_of key in
  k ++ repeat 0%N (64 - length k).

Definition hmac_sha256 (key msg : string) : list N :=
  let k := hmac_key key in
  let inner := Sha256.sum256 (string_of_bytes (N.lxor 54 <$> k) +:+ msg) in
  Sha256.sum256 (string_of_bytes (N.lxor 92 <$> k) +:+ string_of_bytes inner).

(** [hex.EncodeToString(mac.Sum(nil))] *)
Definition hmac_sha256_hex (key msg : string) : string := Sha256.hex_encode (hmac_sha256 key msg).

#[global] Arguments hmac_sha256_hex : simpl never.

Lemma hmac_sha256_hex_length key msg : String.length (hmac_sha256_hex key msg) = 64.
Proof.
  unfold hmac_sha256_hex, hmac_sha256. by rewrite Sha256.hex_encode_length, Sha256.sum256_length.
Qed.

(** Test case 2 of RFC 4231. *)
Example hmac_rfc4231 :
  hmac_sha256_hex "Jefe" "what do ya want for nothing?" =
  "5bdcc146bf60754e6a042426089575c75a003f089d2739839dec58b964ec3843".
Proof. vm_compute. reflexivity. Qed.
