(* ===== verification/Json.v ===== *)
(** * JSON: what the program uses of [encoding/json]

    Values, the compact printer with the escaping of [json.Marshal], and the parser
    behind [json.Unmarshal].  Strings are UTF-8; a number keeps its text.  Printing a
    value and parsing it gives the value back ([parse_print]). *)

From S2P Require Import Prelude GoStrings.

Inductive json :=
  | JNull
  | JBool (b : bool)
  | JNum (text : string)
  | JStr (s : string)
  | JArr (l : list json)
  | JObj (l : list (string * json)).

(** ** Characters *)

Definition chr (n : nat) : ascii := Ascii.ascii_of_nat n.
Definition dquote : ascii := chr 34.
Definition backslash : ascii := chr 92.

Definition hex_char (n : nat) : ascii := chr (if (n <? 10)%nat then 48 + n else 87 + n).
Definition hex_val (c : ascii) : option N :=
  if is_digit c then Some (N.of_nat (code c - 48))
  else if between "a"%char "f"%char c then Some (N.of_nat (code c - 87))
  else if between "A"%char "F"%char c then Some (N.of_nat (code c - 55))
  else None.

(** Four hexadecimal digits. *)
Definition hex4 (a b c d : ascii) : option N :=
  match hex_val a, hex_val b, hex_val c, hex_val d with
  | Some x, Some y, Some z, Some t => Some (x * 4096 + y * 256 + z * 16 + t)%N
  | _, _, _, _ => None
  end.

(** The UTF-8 encoding of a code point. *)
Definition utf8 (r : N) : string :=
  let b n := Ascii.ascii_of_N n in
  (if r <? 128 then String (b r) ""
   else if r <? 2048 then String (b (192 + r / 64)) (String (b (128 + r mod 64)) "")
   else if r <? 65536 then
     String (b (224 + r / 4096)) (String (b (128 + (r / 64) mod 64)) (String (b (128 + r mod 64)) ""))
   else
     String (b (240 + r / 262144)) (String (b (128 + (r / 4096) mod 64))
       (String (b (128 + (r / 64) mod 64)) (String (b (128 + r mod 64)) ""))))%N.

Definition replacement : string := utf8 65533.

(** ** Printing *)

(** The escape of one byte: quotes, backslashes, control characters and, for HTML,
    [<], [>] and [&]. *)
Definition esc_u00 (n : nat) : string :=
  String backslash ("u00" +:+ String (hex_char (n / 16)) (String (hex_char (n mod 16)) "")).

Definition esc (c : ascii) : string :=
  let n := code c in
  if (n =? 34)%nat || (n =? 92)%nat then String backslash (String c "")
  else if (n =? 8)%nat then String backslash "b"
  else if (n =? 12)%nat then String backslash "f"
  else if (n =? 10)%nat then String backslash "n"
  else if (n =? 13)%nat then String backslash "r"
  else if (n =? 9)%nat then String backslash "t"
  else if (n <? 32)%nat || (n =? 60)%nat || (n =? 62)%nat || (n =? 38)%nat then esc_u00 n
  else String c "".

(** U+2028 and U+2029 are the byte sequences E2 80 A8 and E2 80 A9. *)
Fixpoint quote_body (s : string) : string :=
  match s with
  | EmptyString => EmptyString
  | String a (String b (String c rest) as s') =>
    if (code a =? 226)%nat && (code b =? 128)%nat && ((code c =? 168)%nat || (code c =? 169)%nat)
    then String backslash ("u202" +:+ String (chr (code c - 112)) (quote_body rest))
    else esc a +:+ quote_body s'
  | String a s' => esc a +:+ quote_body s'
  end.

Definition quote (s : string) : string :=
  String dquote (quote_body s +:+ String dquote "").

Section print.
#[local] Definition comma (l : list string) : string := join "," l.
Fixpoint print (v : json) : string :=
  match v with
  | JNull => "null"
  | JBool true => "true"
  | JBool false => "false"
  | JNum t => t
  | JStr s => quote s
  | JArr l => "[" +:+ comma (map print l) +:+ "]"
  | JObj l => "{" +:+ comma (map (λ '(k, x), quote k +:+ ":" +:+ print x) l) +:+ "}"
  end.
End print.

(** ** Parsing *)

Definition is_ws (c : ascii) : bool :=
  (code c =? 32)%nat || (code c =? 9)%nat || (code c =? 10)%nat || (code c =? 13)%nat.

Definition skip_ws : string → string := trim_left is_ws.

Definition high_surrogate (r : N) : bool := (55296 <=? r)%N && (r <? 56320)%N.
Definition low_surrogate (r : N) : bool := (56320 <=? r)%N && (r <? 57344)%N.

(** One-letter escapes. *)
Definition unesc (c : ascii) : option ascii :=
  if Ascii.eqb c dquote || Ascii.eqb c backslash || Ascii.eqb c "/"%char then Some c
  else if Ascii.eqb c "b"%char then Some (chr 8)
  else if Ascii.eqb c "f"%char then Some (chr 12)
  else if Ascii.eqb c "n"%char then Some (chr 10)
  else if Ascii.eqb c "r"%char then Some (chr 13)
  else if Ascii.eqb c "t"%char then Some (chr 9)
  else None.

Definition prepend (p : string) (r : option (string * string)) : option (string * string) :=
  match r with Some (s, rest) => Some (p +:+ s, rest) | None => None end.

(** The rest of a string literal after its opening quote: its value and what follows
    the closing quote.  An unpaired surrogate becomes U+FFFD. *)
Fixpoint unquote_body (s : string) : option (string * string) :=
  match s with
  | EmptyString => None
  | String c s1 =>
    if Ascii.eqb c dquote then Some ("", s1)
    else if (code c <? 32)%nat then None
    else if negb (Ascii.eqb c backslash) then prepend (String c "") (unquote_body s1)
    else
      match s1 with
      | String e s2 =>
        if negb (Ascii.eqb e "u"%char) then
          match unesc e with
          | Some x => prepend (String x "") (unquote_body s2)
          | None => None
          end
        else
          match s2 with
          | String h1 (String h2 (String h3 (String h4 s3))) =>
            match hex4 h1 h2 h3 h4 with
            | None => None
            | Some r =>
              if high_surrogate r then
                match s3 with
                | String b1 (String b2 (String l1 (String l2 (String l3 (String l4 s4))))) =>
                  match (if Ascii.eqb b1 backslash && Ascii.eqb b2 "u"%char
                         then hex4 l1 l2 l3 l4 else None) with
                  | Some r2 =>
                    if low_surrogate r2
                    then prepend (utf8 (65536 + (r - 55296) * 1024 + (r2 - 56320))) (unquote_body s4)
                    else prepend replacement (unquote_body s3)
                  | None => prepend replacement (unquote_body s3)
                  end
                | _ => prepend replacement (unquote_body s3)
                end
              else if low_surrogate r then prepend replacement (unquote_body s3)
              else prepend (utf8 r) (unquote_body s3)
            end
          | _ => None
          end
      | EmptyString => None
      end
  end.

(** The longest prefix of characters with a property. *)
Fixpoint span (p : ascii → bool) (s : string) : string * string :=
  match s with
  | EmptyString => ("", "")
  | String c s' => if p c then let '(a, b) := span p s' in (String c a, b) else ("", s)
  end.

Definition digits1 (s : string) : option (string * string) :=
  match span is_digit s with ("", _) => None | r => Some r end.

(** [-? (0 | [1-9][0-9]* ) (. [0-9]+)? ([eE] [+-]? [0-9]+)?] *)
Definition scan_number (s : string) : option (string * string) :=
  let '(sign, s) := match s with String "-" s' => ("-", s') | _ => ("", s) end in
  match (match s with
         | String "0" s' => Some ("0", s')
         | _ => digits1 s
         end) with
  | None => None
  | Some (int, s) =>
    match (match s with
           | String "." s' =>
             match digits1 s' with Some (d, r) => Some ("." +:+ d, r) | None => None end
           | _ => Some ("", s)
           end) with
    | None => None
    | Some (frac, s) =>
      match (match s with
             | String e s' =>
               if Ascii.eqb e "e"%char || Ascii.eqb e "E"%char then
                 let '(sg, s') :=
                   match s' with
                   | String "+" r => ("+", r) | String "-" r => ("-", r) | _ => ("", s')
                   end in
                 match digits1 s' with
                 | Some (d, r) => Some (String e (sg +:+ d), r)
                 | None => None
                 end
               else Some ("", s)
             | _ => Some ("", s)
             end) with
      | None => None
      | Some (exp, s) => Some (sign +:+ int +:+ frac +:+ exp, s)
      end
    end
  end.

Definition literal (word : string) (v : json) (s : string) : option (json * string) :=
  if has_prefix word s then Some (v, str_drop (String.length word) s) else None.

Section parse.
(** The elements of an array or the members of an object, the first of which is at
    the start of the input; [item] parses one. *)
Context {A : Type} (item : string → option (A * string)) (close : ascii).
Fixpoint parse_items (fuel : nat) (s : string) : option (list A * string) :=
  match fuel with
  | O => None
  | S fuel =>
    match item (skip_ws s) with
    | None => None
    | Some (x, s) =>
      match skip_ws s with
      | String c s' =>
        if Ascii.eqb c close then Some ([x], s')
        else if Ascii.eqb c ","%char then
          match parse_items fuel s' with
          | Some (xs, s) => Some (x :: xs, s)
          | None => None
          end
        else None
      | EmptyString => None
      end
    end
  end.

(** The possibly empty list after the opening bracket. *)
Definition parse_list (fuel : nat) (s : string) : option (list A * string) :=
  match skip_ws s with
  | String c s' => if Ascii.eqb c close then Some ([], s') else parse_items fuel s
  | EmptyString => None
  end.
End parse.

Definition parse_member (value : string → option (json * string)) (s : string)
    : option ((string * json) * string) :=
  match s with
  | String q s =>
    if negb (Ascii.eqb q dquote) then None
    else match unquote_body s with
         | None => None
         | Some (k, s) =>
           match skip_ws s with
           | String ":" s =>
             match value (skip_ws s) with Some (v, s) => Some ((k, v), s) | None => None end
           | _ => None
           end
         end
  | EmptyString => None
  end.

(** A value at the start of the input; [fuel] bounds the nesting and the lengths. *)
Fixpoint parse_value (fuel : nat) (s : string) : option (json * string) :=
  match fuel with
  | O => None
  | S fuel =>
    match s with
    | EmptyString => None
    | String c s' =>
      if Ascii.eqb c dquote then
        match unquote_body s' with Some (v, r) => Some (JStr v, r) | None => None end
      else if Ascii.eqb c "["%char then
        match parse_list (parse_value fuel) "]"%char fuel s' with
        | Some (l, r) => Some (JArr l, r)
        | None => None
        end
      else if Ascii.eqb c "{"%char then
        match parse_list (parse_member (parse_value fuel)) "}"%char fuel s' with
        | Some (l, r) => Some (JObj l, r)
        | None => None
        end
      else if Ascii.eqb c "t"%char then literal "true" (JBool true) s
      else if Ascii.eqb c "f"%char then literal "false" (JBool false) s
      else if Ascii.eqb c "n"%char then literal "null" JNull s
      else match scan_number s with Some (t, r) => Some (JNum t, r) | None => None end
    end
  end.

(** A whole document.  Every nested value takes a byte, so the length is fuel enough. *)
Definition parse (s : string) : option json :=
  match parse_value (S (String.length s)) (skip_ws s) with
  | Some (v, rest) => if String.eqb (skip_ws rest) "" then Some v else None
  | None => None
  end.

(** ** [map[string]string] *)

(** [json.Marshal] of a non-nil map: the keys in order. *)
Definition marshal_string_map (m : gmap string string) : string :=
  print (JObj ((λ '(k, v), (k, JStr v)) <$> sort_by fst (map_to_list m))).

(** The members of an object as a string map; a later member replaces an earlier one,
    [null] is the zero value, and another type is an error. *)
Fixpoint string_members (l : list (string * json)) (m : gmap string string)
    : option (gmap string string) :=
  match l with
  | [] => Some m
  | (k, JStr v) :: l' => string_members l' (<[k := v]> m)
  | (k, JNull) :: l' => string_members l' (<[k := ""]> m)
  | _ => None
  end.

(** [json.Unmarshal] into a nil map; [None] is an error. *)
Definition unmarshal_string_map (raw : string) : option (gmap string string) :=
  match parse raw with
  | Some JNull => Some ∅
  | Some (JObj l) => string_members l ∅
  | _ => None
  end.

(** ** Round trip *)

Lemma prepend_app a b r : prepend (a +:+ b) r = prepend a (prepend b r).
Proof. destruct r as [[s t]|]; simpl; [|done]. by rewrite str_app_assoc. Qed.

Lemma unquote_esc c t : unquote_body (esc c +:+ t) = prepend (String c "") (unquote_body t).
Proof. destruct c as [[] [] [] [] [] [] [] []]; reflexivity. Qed.

Lemma code_inj c n : code c = n → c = chr n.
Proof. intros <-. symmetry. apply Ascii.ascii_nat_embedding. Qed.

Lemma unquote_2028 t :
  unquote_body (String backslash ("u202" +:+ String "8" t)) =
  prepend (String (chr 226) (String (chr 128) (String (chr 168) ""))) (unquote_body t).
Proof. reflexivity. Qed.
Lemma unquote_2029 t :
  unquote_body (String backslash ("u202" +:+ String "9" t)) =
  prepend (String (chr 226) (String (chr 128) (String (chr 169) ""))) (unquote_body t).
Proof. reflexivity. Qed.

Lemma quote_body_step a s rest :
  unquote_body (quote_body s +:+ String dquote rest) = Some (s, rest) →
  unquote_body ((esc a +:+ quote_body s) +:+ String dquote rest) = Some (String a s, rest).
Proof. intros H. by rewrite str_app_assoc, unquote_esc, H. Qed.

Lemma quote_body_3 a b c s :
  quote_body (String a (String b (String c s))) =
  if (code a =? 226)%nat && (code b =? 128)%nat && ((code c =? 168)%nat || (code c =? 169)%nat)
  then String backslash ("u202" +:+ String (chr (code c - 112)) (quote_body s))
  else esc a +:+ quote_body (String b (String c s)).
Proof. reflexivity. Qed.

Lemma unquote_quote s rest :
  unquote_body (quote_body s +:+ String dquote rest) = Some (s, rest).
Proof.
  remember (String.length s) as n eqn:Hn. revert s Hn.
  induction n as [n IH] using lt_wf_ind. intros s ->.
  assert (∀ t, (String.length t < String.length s)%nat →
    unquote_body (quote_body t +:+ String dquote rest) = Some (t, rest)) as IH'
    by (intros t Ht; by apply (IH _ Ht)).
  clear IH. destruct s as [|a [|b [|c s]]].
  - reflexivity.
  - apply (quote_body_step a ""), IH'. simpl. lia.
  - apply (quote_body_step a (String b "")), IH'. simpl. lia.
  - rewrite quote_body_3. destruct (_ && _) eqn:E; [|apply quote_body_step, IH'; simpl; lia].
    apply andb_true_iff in E as [[Ea Eb]%andb_true_iff Ec].
    apply Nat.eqb_eq, code_inj in Ea, Eb. apply orb_true_iff in Ec. subst a b.
    assert (unquote_body (quote_body s +:+ String dquote rest) = Some (s, rest)) as Hs
      by (apply IH'; simpl; lia).
    destruct Ec as [Ec|Ec]; apply Nat.eqb_eq, code_inj in Ec; subst c.
    + transitivity (prepend (String (chr 226) (String (chr 128) (String (chr 168) "")))
        (unquote_body (quote_body s +:+ String dquote rest))); [apply unquote_2028|by rewrite Hs].
    + transitivity (prepend (String (chr 226) (String (chr 128) (String (chr 169) "")))
        (unquote_body (quote_body s +:+ String dquote rest))); [apply unquote_2029|by rewrite Hs].
Qed.

(** What may follow a printed value. *)
Definition stops (rest : string) : Prop :=
  match rest with
  | EmptyString => True
  | String c _ => c = ","%char ∨ c = "]"%char ∨ c = "}"%char
  end.

(** A number that is read back as printed. *)
Definition number_ok (t : string) : Prop :=
  first_ok (λ c, is_digit c || Ascii.eqb c "-"%char) t = true ∧ t ≠ "" ∧
  ∀ rest, stops rest → scan_number (t +:+ rest) = Some (t, rest).

Inductive printable : json → Prop :=
  | p_null : printable JNull
  | p_bool b : printable (JBool b)
  | p_num t : number_ok t → printable (JNum t)
  | p_str s : printable (JStr s)
  | p_arr l : (∀ v, v ∈ l → printable v) → printable (JArr l)
  | p_obj l : (∀ k v, (k, v) ∈ l → printable v) → printable (JObj l).

(** The first byte of a printed value is not white space. *)
Lemma print_first v rest :
  printable v → skip_ws (print v +:+ rest) = print v +:+ rest ∧ print v ≠ "".
Proof.
  destruct 1 as [|[]|t (Hf & Hne & _)| | |]; try (split; reflexivity || done).
  split; [|done]. destruct t as [|c t]; [done|]. simpl in *.
  assert (is_ws c = false) as H; [|unfold skip_ws; simpl; by rewrite H].
  apply negb_true_iff.
  apply (ascii_imp (λ c, is_digit c || Ascii.eqb c "-"%char) (λ c, negb (is_ws c))); [by vm_compute|done].
Qed.

Section items.
Context {A : Type} (item : string → option (A * string)) (close : ascii) (pr : A → string).
Context (Hclose : close = "]"%char ∨ close = "}"%char).

Lemma parse_items_print xs fuel rest :
  (length xs ≤ fuel)%nat → xs ≠ [] →
  (∀ x r, x ∈ xs → stops r → skip_ws (pr x +:+ r) = pr x +:+ r ∧
     item (pr x +:+ r) = Some (x, r)) →
  parse_items item close fuel (join "," (map pr xs) +:+ String close rest) = Some (xs, rest).
Proof.
  revert xs. induction fuel as [|fuel IH]; intros xs Hlen Hne Hitem.
  { destruct xs; simpl in Hlen; [done|lia]. }
  destruct xs as [|x xs]; [done|]. destruct xs as [|y xs].
  - cbn [map join String.concat parse_items].
    destruct (Hitem x (String close rest)) as [-> ->]; [by left|by destruct Hclose; simpl; auto|].
    assert (skip_ws (String close rest) = String close rest) as ->
      by (destruct Hclose as [->| ->]; reflexivity).
    by rewrite Ascii.eqb_refl.
  - change (join "," (map pr (x :: y :: xs))) with (pr x +:+ String "," (join "," (map pr (y :: xs)))).
    rewrite str_app_assoc. cbn [parse_items].
    destruct (Hitem x (String "," (join "," (map pr (y :: xs)) +:+ String close rest)))
      as [Hs Hi]; [by left|simpl; auto|].
    change (String "," (join "," (map pr (y :: xs))) +:+ String close rest) with
      (String "," (join "," (map pr (y :: xs)) +:+ String close rest)).
    rewrite Hs, Hi.
    assert (∀ t, skip_ws (String "," t) = String "," t) as -> by reflexivity.
    assert (Ascii.eqb ","%char close = false) as -> by (destruct Hclose as [->| ->]; reflexivity).
    simpl Ascii.eqb. cbv iota. rewrite IH; [done|simpl in *; lia|done|].
    intros z r Hz. apply Hitem. by right.
Qed.
End items.

Lemma join_cons x y (l : list string) : join "," (x :: y :: l) = x +:+ "," +:+ join "," (y :: l).
Proof. reflexivity. Qed.

Lemma join_length {A} (pr : A → string) (l : list A) :
  (∀ x, x ∈ l → pr x ≠ "") →
  (∀ x, x ∈ l → String.length (pr x) ≤ String.length (join "," (map pr l)))%nat ∧
  (length l ≤ S (String.length (join "," (map pr l))))%nat.
Proof.
  induction l as [|x [|y l] IH]; intros Hne.
  - split; [by intros ? ?%elem_of_nil|simpl; lia].
  - split; [|simpl; lia]. intros z ->%list_elem_of_singleton. simpl. lia.
  - change (map pr (x :: y :: l)) with (pr x :: pr y :: map pr l). rewrite join_cons.
    change (pr y :: map pr l) with (map pr (y :: l)). rewrite !str_app_length.
    destruct IH as [IH1 IH2]; [intros z Hz; apply Hne; by right|].
    assert (String.length (pr x) ≠ 0)%nat.
    { intros H. apply (Hne x); [by left|]. by destruct (pr x). }
    split; [|simpl in *; lia]. intros z [->|Hz]%elem_of_cons; [lia|]. specialize (IH1 z Hz). lia.
Qed.

(** A member of an object as printed. *)
Definition print_member (kv : string * json) : string :=
  quote kv.1 +:+ ":" +:+ print kv.2.

Lemma print_arr l : print (JArr l) = "[" +:+ join "," (map print l) +:+ "]".
Proof. reflexivity. Qed.
Lemma print_obj l : print (JObj l) = "{" +:+ join "," (map print_member l) +:+ "}".
Proof.
  cbn [print]. unfold comma. do 3 f_equal. apply map_ext. by intros [k v].
Qed.

Lemma quote_first k r : skip_ws (quote k +:+ r) = quote k +:+ r.
Proof. reflexivity. Qed.

(** Lists of printed items, for the two kinds of brackets. *)
Lemma parse_list_print {A} item close (pr : A → string) xs fuel rest :
  close = "]"%char ∨ close = "}"%char →
  (length xs ≤ fuel)%nat → (∀ x, x ∈ xs → pr x ≠ "") →
  (∀ x r, x ∈ xs → stops r → skip_ws (pr x +:+ r) = pr x +:+ r ∧
     first_ok (λ c, negb (Ascii.eqb c close)) (pr x +:+ r) = true ∧
     item (pr x +:+ r) = Some (x, r)) →
  parse_list item close fuel (join "," (map pr xs) +:+ String close rest) = Some (xs, rest).
Proof.
  intros Hc Hlen Hne Hitem. unfold parse_list. destruct xs as [|x xs].
  { assert (skip_ws (join "," (map pr []) +:+ String close rest) = String close rest) as ->
      by (destruct Hc as [->| ->]; reflexivity). by rewrite Ascii.eqb_refl. }
  set (s := join "," (map pr (x :: xs)) +:+ String close rest).
  assert (∃ r, s = pr x +:+ r ∧ stops r) as (r & Hs & Hr).
  { unfold s. destruct xs as [|y xs].
    - exists (String close rest). split; [done|]. destruct Hc as [->| ->]; simpl; auto.
    - exists ("," +:+ join "," (map pr (y :: xs)) +:+ String close rest).
      change (map pr (x :: y :: xs)) with (pr x :: pr y :: map pr xs).
      rewrite join_cons, !str_app_assoc. split; [done|simpl; auto]. }
  destruct (Hitem x r) as (Hskip & Hfirst & _); [by left|done|].
  assert (pr x ≠ "") as Hx by (apply Hne; by left).
  rewrite Hs, Hskip. destruct (pr x +:+ r) as [|c t] eqn:E; [by destruct (pr x)|].
  simpl in Hfirst. rewrite negb_true_iff in Hfirst. rewrite Hfirst, <- Hs. unfold s.
  apply parse_items_print; [done|done|done|].
  intros z r' Hz Hr'. destruct (Hitem z r' Hz Hr') as (? & _ & ?). done.
Qed.

(** The first byte of a printed value distinguishes it from a closing bracket. *)
Lemma print_not_close v r close :
  close = "]"%char ∨ close = "}"%char → printable v →
  first_ok (λ c, negb (Ascii.eqb c close)) (print v +:+ r) = true.
Proof.
  intros Hc. destruct 1 as [|[]|t (Hf & Hne & _)| | |]; try by destruct Hc as [->| ->].
  simpl. rewrite first_ok_app by done. eapply first_ok_mono; [|exact Hf].
  intros c. revert c. destruct Hc as [->| ->]; by apply ascii_imp.
Qed.

Lemma parse_number fuel t rest :
  number_ok t → stops rest → parse_value (S fuel) (t +:+ rest) = Some (JNum t, rest).
Proof.
  intros (Hf & Hne & Hscan) Hr. specialize (Hscan rest Hr).
  destruct t as [|c t]; [done|]. cbn [parse_value]. change (String c t +:+ rest) with (String c (t +:+ rest)) in *.
  cbv iota beta. simpl in Hf.
  assert (∀ d, negb (is_digit d || Ascii.eqb d "-"%char) = true → Ascii.eqb c d = false) as Hd.
  { intros d Hd. destruct (Ascii.eqb_spec c d) as [->|]; [|done]. by rewrite Hf in Hd. }
  rewrite !Hd by reflexivity. by rewrite Hscan.
Qed.

Lemma literal_app word v rest : literal word v (word +:+ rest) = Some (v, rest).
Proof. unfold literal, has_prefix. by rewrite prefix_app, str_drop_app. Qed.

Lemma parse_value_print v fuel rest :
  printable v → stops rest → (String.length (print v) < fuel)%nat →
  parse_value fuel (print v +:+ rest) = Some (v, rest).
Proof.
  remember (String.length (print v)) as n eqn:Hn. revert v fuel rest Hn.
  induction n as [n IH] using lt_wf_ind. intros v fuel rest -> Hv Hr Hfuel.
  destruct fuel as [|fuel]; [lia|].
  destruct Hv as [|[]|t Ht|s|l Hl|l Hl].
  - apply (literal_app "null").
  - apply (literal_app "true").
  - apply (literal_app "false").
  - by apply parse_number.
  - change (print (JStr s) +:+ rest) with (String dquote ((quote_body s +:+ String dquote "") +:+ rest)).
    cbn [parse_value]. rewrite Ascii.eqb_refl, str_app_assoc. simpl (String dquote "" +:+ rest).
    by rewrite unquote_quote.
  - rewrite print_arr in *. rewrite !str_app_length in *. simpl in Hfuel.
    destruct (join_length print l) as [Hle Hlen]; [intros x Hx; by apply (print_first x ""), Hl|].
    assert (parse_list (parse_value fuel) "]"%char fuel
      (join "," (map print l) +:+ String "]" rest) = Some (l, rest)) as Hp.
    { apply parse_list_print; [by left|lia|intros x Hx; by apply (print_first x ""), Hl|].
      intros x r Hx Hrr. specialize (Hle x Hx). split; [by apply print_first, Hl|].
      split; [apply print_not_close; auto|].
      apply (IH (String.length (print x))); auto; simpl; lia. }
    rewrite !str_app_assoc.
    change (parse_value (S fuel) (String "[" (join "," (map print l) +:+ String "]" rest)) =
      Some (JArr l, rest)).
    cbn [parse_value]. simpl Ascii.eqb. cbv iota. by rewrite Hp.
  - rewrite print_obj in *. rewrite !str_app_length in *. simpl in Hfuel.
    destruct (join_length print_member l) as [Hle Hlen]; [intros [k x] Hx; done|].
    assert (parse_list (parse_member (parse_value fuel)) "}"%char fuel
      (join "," (map print_member l) +:+ String "}" rest) = Some (l, rest)) as Hp.
    { apply parse_list_print; [by right|lia|intros [k x] Hx; done|].
      intros [k x] r Hx Hrr. specialize (Hle _ Hx). split; [done|]. split; [done|].
      assert (printable x) as Hpx by (by eapply Hl).
      unfold print_member in *. cbn [fst snd] in *. rewrite !str_app_length in Hle.
      change ((quote k +:+ ":" +:+ print x) +:+ r) with
        (String dquote (((quote_body k +:+ String dquote "") +:+ ":" +:+ print x) +:+ r)).
      cbn [parse_member]. rewrite Ascii.eqb_refl, !str_app_assoc.
      change (String dquote "" +:+ ":" +:+ print x +:+ r) with
        (String dquote (":" +:+ print x +:+ r)).
      simpl negb. cbv iota. rewrite unquote_quote.
      change (skip_ws (":" +:+ print x +:+ r)) with (String ":" (print x +:+ r)).
      destruct (print_first x r Hpx) as [-> _].
      rewrite (IH (String.length (print x))); auto; simpl in *; lia. }
    rewrite !str_app_assoc.
    change (parse_value (S fuel) (String "{" (join "," (map print_member l) +:+ String "}" rest)) =
      Some (JObj l, rest)).
    cbn [parse_value]. simpl Ascii.eqb. cbv iota. by rewrite Hp.
Qed.

Lemma parse_print v : printable v → parse (print v) = Some v.
Proof.
  intros Hv. unfold parse. destruct (print_first v "" Hv) as [Hs _].
  rewrite str_app_nil_r in Hs. rewrite Hs. rewrite <- (str_app_nil_r (print v)) at 2.
  by rewrite parse_value_print; [|done|done|lia].
Qed.

(** ** Maps *)

Lemma string_members_strings (l : list (string * string)) m :
  string_members ((λ '(k, v), (k, JStr v)) <$> l) m =
  Some (fold_left (λ m '(k, v), <[k := v]> m) l m).
Proof. revert m. induction l as [|[k v] l IH]; intros m; simpl; [done|]. apply IH. Qed.

Lemma unmarshal_marshal_string_map m : unmarshal_string_map (marshal_string_map m) = Some m.
Proof.
  unfold unmarshal_string_map, marshal_string_map. rewrite parse_print.
  - rewrite string_members_strings. f_equal. apply map_eq. intros k.
    rewrite fold_left_insert_lookup.
    + rewrite (list_to_map_proper _ (map_to_list m)), list_to_map_to_list, lookup_empty.
      * by destruct (m !! k).
      * rewrite sort_by_perm. apply NoDup_fst_map_to_list.
      * apply sort_by_perm.
    + rewrite sort_by_perm. apply NoDup_fst_map_to_list.
  - constructor. intros k v ([k' v'] & [= -> ->] & _)%list_elem_of_fmap. constructor.
Qed.

(** Literals are read as Go reads them. *)
Example parse_escapes :
  parse (String dquote ("a" +:+ String backslash "u00e9" +:+ String backslash "ud83d" +:+
         String backslash "ude00" +:+ String dquote "")) =
  Some (JStr (String "a" (String (chr 195) (String (chr 169)
    (String (chr 240) (String (chr 159) (String (chr 152) (String (chr 128) "")))))))).
Proof. vm_compute. reflexivity. Qed.
