(* ===== verification/GoNum.v ===== *)
(** * Numbers: machine integers, [strconv] and JSON numbers

    Go's [int64] arithmetic with its wrap-around, [strconv.FormatInt]/[ParseInt] in
    base ten with their round trip, and integers as JSON numbers. *)

From S2P Require Import Prelude GoStrings Json.
From Stdlib Require Import Floats.SpecFloat.

(** ** [int64] *)

Definition min_int64 : Z := (- 2 ^ 63)%Z.
Definition max_int64 : Z := (2 ^ 63 - 1)%Z.
Definition in_int64 (n : Z) : bool := (min_int64 <=? n)%Z && (n <=? max_int64)%Z.

(** The value an [int64] operation yields. *)
Definition wrap64 (n : Z) : Z := ((n + 2 ^ 63) mod 2 ^ 64 - 2 ^ 63)%Z.

Lemma in_int64_spec n : in_int64 n = true ↔ (- 2 ^ 63 ≤ n < 2 ^ 63)%Z.
Proof. unfold in_int64, min_int64, max_int64. lia. Qed.

Lemma wrap64_id n : in_int64 n = true → wrap64 n = n.
Proof. rewrite in_int64_spec. intros H. unfold wrap64. rewrite Z.mod_small; lia. Qed.

(** ** Decimal text *)

Definition digit_val (c : ascii) : Z := (Z.of_nat (code c) - 48)%Z.

(** The number written by digits, after [acc]. *)
Fixpoint digits_val (s : string) (acc : Z) : Z :=
  match s with
  | EmptyString => acc
  | String c s' => digits_val s' (acc * 10 + digit_val c)%Z
  end.

(** An optional sign and at least one digit. *)
Definition atoi (s : string) : option Z :=
  let '(neg, digits) :=
    match s with
    | String "-" r => (true, r)
    | String "+" r => (false, r)
    | _ => (false, s)
    end in
  if String.eqb digits "" || negb (sall is_digit digits) then None
  else Some (if neg then - digits_val digits 0 else digits_val digits 0)%Z.

(** [strconv.ParseInt(s, 10, 64)]; [None] is an error. *)
Definition ParseInt64 (s : string) : option Z :=
  match atoi s with Some n => if in_int64 n then Some n else None | None => None end.

Lemma pretty_digit (d : N) :
  (d < 10)%N → is_digit (pretty_N_char d) = true ∧ digit_val (pretty_N_char d) = Z.of_N d ∧
  (d ≠ 0%N → Ascii.eqb (pretty_N_char d) "0" = false).
Proof.
  intros Hd.
  assert (is_digit (pretty_N_char d) && (digit_val (pretty_N_char d) =? Z.of_N d)%Z &&
    ((d =? 0)%N || negb (Ascii.eqb (pretty_N_char d) "0"))) as H.
  { apply Is_true_true.
    by apply (N_below_cases (λ d, is_digit (pretty_N_char d) &&
      (digit_val (pretty_N_char d) =? Z.of_N d)%Z &&
      ((d =? 0)%N || negb (Ascii.eqb (pretty_N_char d) "0"))) 10). }
  apply Is_true_true in H. rewrite !andb_true_iff, orb_true_iff, negb_true_iff in H.
  destruct H as [[H1 H2] H3]. split; [done|]. split; [by apply Z.eqb_eq|].
  intros Hnz. destruct H3 as [H3|H3]; [by apply N.eqb_eq in H3|done].
Qed.

Lemma digits_val_pretty (x : N) s : digits_val (pretty_N_go x s) 0 = digits_val s (Z.of_N x).
Proof.
  revert s. induction (N.lt_wf_0 x) as [x _ IH]; intros s.
  destruct (decide (x = 0)%N) as [->|Hnz]; [by rewrite pretty_N_go_0|].
  rewrite pretty_N_go_step, IH by (try apply N.div_lt; lia). simpl.
  destruct (pretty_digit (x mod 10)) as (_ & -> & _); [by apply N.mod_lt|].
  f_equal. rewrite N2Z.inj_mod, N2Z.inj_div. pose proof (Z.div_mod (Z.of_N x) 10). lia.
Qed.

(** The first digit of a positive number is not zero. *)
Lemma pretty_first (x : N) s :
  (0 < x)%N → ∃ c r, pretty_N_go x s = String c r ∧ is_digit c = true ∧ Ascii.eqb c "0" = false.
Proof.
  revert s. induction (N.lt_wf_0 x) as [x _ IH]; intros s Hx.
  rewrite pretty_N_go_step by lia. destruct (decide (x < 10)%N) as [Hlt|Hge].
  - rewrite N.div_small, pretty_N_go_0, N.mod_small by lia.
    destruct (pretty_digit x) as (? & _ & ?); [lia|]. eexists _, _. split; [done|]. auto with lia.
  - apply IH; [apply N.div_lt; lia|]. apply N.div_str_pos. lia.
Qed.

Lemma itoa_pos p : ∃ c r,
  itoa (Z.pos p) = String c r ∧ is_digit c = true ∧ Ascii.eqb c "0" = false ∧
  sall is_digit r = true ∧ digits_val (String c r) 0 = Z.pos p.
Proof.
  pose proof (itoa_digits (Z.pos p) ltac:(lia)) as Hd.
  pose proof (digits_val_pretty (N.pos p) "") as Hv.
  change (itoa (Z.pos p)) with (pretty_N_go (N.pos p) "") in *.
  destruct (pretty_first (N.pos p) "") as (c & r & E & Hc & Hz); [lia|].
  rewrite E in *. exists c, r. simpl in Hd. rewrite andb_true_iff in Hd. by destruct Hd.
Qed.

Lemma digit_not_sign c : is_digit c = true → c ≠ "-"%char ∧ c ≠ "+"%char.
Proof. intros H. by split; intros ->. Qed.

Lemma atoi_itoa n : atoi (itoa n) = Some n.
Proof.
  destruct n as [|p|p]; [done| |].
  - destruct (itoa_pos p) as (c & r & -> & Hc & _ & Hr & Hv). unfold atoi.
    assert ((match String c r with
       | String "-" r => (true, r) | String "+" r => (false, r) | _ => (false, String c r)
       end) = (false, String c r)) as ->.
    { destruct (digit_not_sign c Hc). by repeat case_match; simplify_eq. }
    simpl String.eqb. simpl sall. rewrite Hc, Hr. by rewrite <- Hv.
  - change (itoa (Z.neg p)) with (String "-" (itoa (Z.pos p))).
    destruct (itoa_pos p) as (c & r & -> & Hc & _ & Hr & Hv). unfold atoi.
    simpl String.eqb. simpl sall. rewrite Hc, Hr. cbn [andb negb orb]. by rewrite Hv.
Qed.

Lemma ParseInt64_itoa n : in_int64 n = true → ParseInt64 (itoa n) = Some n.
Proof. unfold ParseInt64. intros H. by rewrite atoi_itoa, H. Qed.

(** ** JSON integers *)

Lemma span_app p a rest :
  sall p a = true → match rest with String c _ => p c = false | _ => True end →
  span p (a +:+ rest) = (a, rest).
Proof.
  intros Ha Hr. induction a as [|c a IH]; simpl in *.
  - destruct rest; simpl; [done|]. by rewrite Hr.
  - rewrite andb_true_iff in Ha. destruct Ha as [-> Ha]. by rewrite IH.
Qed.

(** After an integer nothing continues the number. *)
Lemma stops_no_digit rest :
  stops rest → match rest with String c _ => is_digit c = false | _ => True end.
Proof. destruct rest; [done|]. by intros [->|[->| ->]]. Qed.

Lemma scan_digits sign c r rest :
  stops rest → sign = "" ∨ sign = "-" → is_digit c = true →
  (Ascii.eqb c "0" = false ∨ r = "") → sall is_digit r = true →
  scan_number (sign +:+ String c r +:+ rest) = Some (sign +:+ String c r, rest).
Proof.
  intros Hrest Hsign Hc Hz Hr. unfold scan_number.
  assert ((match sign +:+ String c r +:+ rest with
     | String "-" s' => ("-", s') | _ => ("", sign +:+ String c r +:+ rest) end) =
     (sign, String c r +:+ rest)) as ->.
  { destruct Hsign as [-> | ->]; simpl; [|done].
    destruct (digit_not_sign c Hc). by repeat case_match; simplify_eq. }
  assert ((match String c r +:+ rest with
     | String "0" s' => Some ("0", s') | _ => digits1 (String c r +:+ rest) end) =
     Some (String c r, rest)) as ->.
  { unfold digits1. rewrite (span_app is_digit (String c r) rest).
    - destruct (Ascii.eqb_spec c "0") as [->|Hne].
      + destruct Hz as [?| ->]; [done|]. done.
      + by simpl; repeat case_match; simplify_eq.
    - simpl. by rewrite Hc.
    - by apply stops_no_digit. }
  destruct rest as [|a rest]; simpl; [by rewrite !str_app_nil_r|].
  destruct Hrest as [->|[->| ->]]; simpl; by rewrite !str_app_nil_r.
Qed.

Lemma number_ok_itoa n : number_ok (itoa n).
Proof.
  split; [|split; [apply itoa_nonempty|]].
  - destruct n as [|p|p]; [done| |done].
    destruct (itoa_pos p) as (c & r & -> & Hc & _). simpl. by rewrite Hc.
  - intros rest Hrest. destruct n as [|p|p].
    + by apply (scan_digits "" "0"%char "" rest); auto.
    + destruct (itoa_pos p) as (c & r & E & Hc & Hz & Hr & _). rewrite E.
      apply (scan_digits "" c r rest); auto.
    + change (itoa (Z.neg p)) with ("-" +:+ itoa (Z.pos p)).
      destruct (itoa_pos p) as (c & r & -> & Hc & Hz & Hr & _).
      rewrite str_app_assoc. apply (scan_digits "-" c r rest); auto.
Qed.

(** ** [fmt.Sscanf(s, "%d", &n)] *)

Definition is_blank (c : ascii) : bool := is_space c && negb (code c =? 10)%nat.

(** Blanks, a sign and digits; what follows is ignored.  [None] leaves the variable. *)
Definition sscan_int (s : string) : option Z :=
  let s := trim_left is_blank s in
  let '(neg, s) :=
    match s with
    | String "-" r => (true, r)
    | String "+" r => (false, r)
    | _ => (false, s)
    end in
  let digits := (span is_digit s).1 in
  if String.eqb digits "" then None
  else
    let n := (if neg then - digits_val digits 0 else digits_val digits 0)%Z in
    if in_int64 n then Some n else None.

Lemma digit_not_blank c : is_digit c = true → is_blank c = false.
Proof.
  intros H. apply negb_true_iff. revert H. revert c. by apply ascii_imp.
Qed.

Lemma sscan_int_itoa n : in_int64 n = true → sscan_int (itoa n) = Some n.
Proof.
  intros Hn. unfold sscan_int. destruct n as [|p|p]; [done| |].
  - destruct (itoa_pos p) as (c & r & -> & Hc & _ & Hr & Hv).
    cbn [trim_left]. rewrite digit_not_blank by done.
    assert ((match String c r with
       | String "-" r => (true, r) | String "+" r => (false, r) | _ => (false, String c r)
       end) = (false, String c r)) as ->.
    { destruct (digit_not_sign c Hc). by repeat case_match; simplify_eq. }
    rewrite <- (str_app_nil_r (String c r)), span_app by (done || by simpl; rewrite Hc).
    cbn [fst String.eqb]. by rewrite Hv, Hn.
  - change (itoa (Z.neg p)) with (String "-" (itoa (Z.pos p))).
    destruct (itoa_pos p) as (c & r & -> & Hc & _ & Hr & Hv).
    cbn [trim_left]. change (is_blank "-"%char) with false. cbv iota.
    rewrite <- (str_app_nil_r (String c r)), span_app by (done || by simpl; rewrite Hc).
    cbn [fst String.eqb]. rewrite Hv. change (- Z.pos p)%Z with (Z.neg p). by rewrite Hn.
Qed.

(** * Floating point: [float64] and [strconv.ParseFloat]

    A [float64] is an IEEE 754 binary64 value of the Standard Library's [SpecFloat], whose
    operations round to nearest even.  Text is parsed into an exact decimal or
    hexadecimal number and rounded once. *)

Definition float64 : Type := spec_float.
Definition prec : Z := 53.
Definition emax : Z := 1024.

Definition fmul : float64 → float64 → float64 := SFmul prec emax.
Definition fadd : float64 → float64 → float64 := SFadd prec emax.
Definition fsub : float64 → float64 → float64 := SFsub prec emax.
Definition fdiv : float64 → float64 → float64 := SFdiv prec emax.

(** [float64(n)] *)
Definition float_of_int (n : Z) : float64 := binary_normalize prec emax n 0 false.

(** The binary64 value nearest to [m * 2^e2 / d]. *)
Definition round_quotient (neg : bool) (m : Z) (e2 : Z) (d : positive) : float64 :=
  match m with
  | Zpos m =>
    let '(mz, ez, lz) := SFdiv_core_binary prec emax (Zpos m) e2 (Zpos d) 0 in
    binary_round_aux prec emax neg mz ez lz
  | _ => S754_zero neg
  end.

(** ** [strconv.ParseFloat] *)

Definition is_hex_char (c : ascii) : bool := is_digit c || between "a"%char "f"%char (lower_char c).
Definition hex_val (c : ascii) : Z :=
  if is_digit c then digit_val c else (Z.of_nat (code (lower_char c)) - 87)%Z.

(** Digits with an optional point, underscores skipped: the number the digits write, how
    many of them follow the point, whether there was one, and the rest. *)
Fixpoint scan_mantissa (hex : bool) (s : string) (acc frac : Z) (seen_point seen_digit : bool)
    : Z * Z * bool * string :=
  match s with
  | EmptyString => (acc, frac, seen_digit, s)
  | String c s' =>
    if Ascii.eqb c "_"%char then scan_mantissa hex s' acc frac seen_point seen_digit
    else if Ascii.eqb c "."%char then
      if seen_point then (acc, frac, seen_digit, s)
      else scan_mantissa hex s' acc frac true seen_digit
    else if (if hex then is_hex_char c else is_digit c) then
      scan_mantissa hex s' (if hex then acc * 16 + hex_val c else acc * 10 + digit_val c)%Z
        (if seen_point then frac + 1 else frac)%Z seen_point true
    else (acc, frac, seen_digit, s)
  end.

(** The digits of an exponent, which stops growing at 10000. *)
Fixpoint scan_exponent (s : string) (e : Z) : Z * string :=
  match s with
  | EmptyString => (e, s)
  | String c s' =>
    if Ascii.eqb c "_"%char then scan_exponent s' e
    else if is_digit c then scan_exponent s' (if e <? 10000 then e * 10 + digit_val c else e)%Z
    else (e, s)
  end.

(** A sign. *)
Definition scan_sign (s : string) : bool * string :=
  match s with
  | String "-" s' => (true, s')
  | String "+" s' => (false, s')
  | _ => (false, s)
  end.

(** Underscores must separate digits; a base prefix counts as one. *)
Fixpoint underscores_ok (hex : bool) (prev_digit prev_underscore : bool) (s : string) : bool :=
  match s with
  | EmptyString => negb prev_underscore
  | String c s' =>
    if (if hex then is_hex_char c else is_digit c) then underscores_ok hex true false s'
    else if Ascii.eqb c "_"%char then prev_digit && underscores_ok hex false true s'
    else negb prev_underscore && underscores_ok hex false false s'
  end.

Definition strip_base (s : string) : bool * string :=
  match s with
  | String "0" (String x s') => if Ascii.eqb (lower_char x) "x"%char then (true, s') else (false, s)
  | _ => (false, s)
  end.

(** The exponent part of [s] after a mantissa; [None] is a syntax error. *)
Definition parse_exponent (hex : bool) (s : string) : option Z :=
  match s with
  | EmptyString => if hex then None else Some 0%Z
  | String c s' =>
    if Ascii.eqb (lower_char c) (if hex then "p"%char else "e"%char) then
      let '(neg, digits) := scan_sign s' in
      match digits with
      | String d _ =>
        if is_digit d then
          match scan_exponent digits 0 with
          | (e, EmptyString) => Some (if neg then - e else e)%Z
          | _ => None
          end
        else None
      | EmptyString => None
      end
    else None
  end.

Definition is_infinite (f : float64) : bool :=
  match f with S754_infinity _ => true | _ => false end.

(** A number: [None] is a syntax error, or a value out of range. *)
Definition parse_number (neg : bool) (s : string) : option float64 :=
  let '(hex, body) := strip_base s in
  if negb (underscores_ok hex hex false body) then None
  else
    let '(m, frac, seen_digit, rest) := scan_mantissa hex body 0 0 false false in
    if negb seen_digit then None
    else match parse_exponent hex rest with
         | None => None
         | Some e =>
           let f :=
             if hex then round_quotient neg m (e - 4 * frac) 1
             else if (0 <=? e - frac)%Z then round_quotient neg (m * 10 ^ (e - frac)) 0 1
             else round_quotient neg m 0 (Z.to_pos (10 ^ (frac - e))) in
           if is_infinite f then None else Some f
         end.

(** [strconv.ParseFloat(s, 64)]; [None] is an error. *)
Definition ParseFloat (s : string) : option float64 :=
  let '(neg, body) := scan_sign s in
  let word := to_lower body in
  if String.eqb word "inf" || String.eqb word "infinity" then Some (S754_infinity neg)
  else if String.eqb (to_lower s) "nan" then Some S754_nan
  else parse_number neg body.

(** The integer part; [None] for an infinity or no number. *)
Definition truncate (f : float64) : option Z :=
  match f with
  | S754_zero _ => Some 0%Z
  | S754_finite neg m e =>
    let n := (if 0 <=? e then Zpos m * 2 ^ e else Zpos m / 2 ^ (- e))%Z in
    Some (if neg then - n else n)%Z
  | _ => None
  end.

(** [int(f)]: what is out of range depends on the machine. *)
Definition int_of_float (machine : float64 → Z) (f : float64) : Z :=
  match truncate f with
  | Some n => if in_int64 n then n else machine f
  | None => machine f
  end.

Example half : ParseFloat "0.5" = Some (S754_finite false 4503599627370496 (-53)).
Proof. vm_compute. reflexivity. Qed.
Example same_number : ParseFloat "1_5.0e-1" = ParseFloat "0x1.8p0" ∧ ParseFloat "+1.5" = ParseFloat "15e-1".
Proof. split; vm_compute; reflexivity. Qed.
Example not_numbers : ParseFloat "" = None ∧ ParseFloat "." = None ∧ ParseFloat "1e" = None ∧
  ParseFloat "0x1" = None ∧ ParseFloat "1__0" = None ∧ ParseFloat "1e309" = None ∧ ParseFloat "+nan" = None.
Proof. repeat split; vm_compute; reflexivity. Qed.
Example tenth : fmul (default S754_nan (ParseFloat "0.1")) (float_of_int 3) =
  default S754_nan (ParseFloat "0.30000000000000004").
Proof. vm_compute. reflexivity. Qed.
Example milli : int_of_float (λ _, 0%Z) (fmul (default S754_nan (ParseFloat "0.29")) (float_of_int 100)) = 28%Z.
Proof. vm_compute. reflexivity. Qed.
