(* ===== verification/JsonStruct.v ===== *)
(** * Decoding JSON into structs: [json.Unmarshal]

    A struct type is a table of its fields' JSON names and decoders.  The members of an
    object are assigned in turn to the fields whose names match without regard to ASCII
    case; members without a field are ignored, [null] leaves a field alone, and a value
    of another type is an error ([None]).  The caller starts from the zero value. *)

From S2P Require Import Prelude GoStrings Json GoNum.

(** Assigns a JSON value to a part of [A]. *)
Definition decoder (A : Type) : Type := json → A → option A.

Section decode.
Context {A : Type}.

Definition field_named (fields : list (string * decoder A)) (k : string) : option (decoder A) :=
  snd <$> List.find (λ '(name, _), equal_fold k name) fields.

Fixpoint decode_members (fields : list (string * decoder A)) (l : list (string * json)) (a : A)
    : option A :=
  match l with
  | [] => Some a
  | (k, v) :: l' =>
    match field_named fields k with
    | Some dec => a ← dec v a; decode_members fields l' a
    | None => decode_members fields l' a
    end
  end.

Definition struct (fields : list (string * decoder A)) : decoder A := λ v a,
  match v with
  | JNull => Some a
  | JObj l => decode_members fields l a
  | _ => None
  end.

Definition string_field (set : string → A → A) : decoder A := λ v a,
  match v with JNull => Some a | JStr s => Some (set s a) | _ => None end.

(** An [int] of 64 bits. *)
Definition int_field (set : Z → A → A) : decoder A := λ v a,
  match v with JNull => Some a | JNum t => n ← ParseInt64 t; Some (set n a) | _ => None end.

Definition bool_field (set : bool → A → A) : decoder A := λ v a,
  match v with JNull => Some a | JBool b => Some (set b a) | _ => None end.

(** A field of pointer type: [null] makes it nil. *)
Definition pointer_field {B} (zero : B) (dec : decoder B) (set : option B → A → A) : decoder A := λ v a,
  match v with JNull => Some (set None a) | _ => b ← dec v zero; Some (set (Some b) a) end.

(** A field of struct type. *)
Definition sub_field {B} (get : A → B) (set : B → A → A) (dec : decoder B) : decoder A := λ v a,
  b ← dec v (get a); Some (set b a).

(** A slice, [None] being nil. *)
Definition slice_field {B} (zero : B) (dec : decoder B) (set : option (list B) → A → A)
    : decoder A := λ v a,
  match v with
  | JNull => Some (set None a)
  | JArr l => bs ← mapM (λ x, dec x zero) l; Some (set (Some bs) a)
  | _ => None
  end.
End decode.

(** An element of a [[]string]. *)
Definition string_elem : decoder string := string_field (λ s _, s).
Definition int_elem : decoder Z := int_field (λ n _, n).
Definition bool_elem : decoder bool := bool_field (λ b _, b).

(** [json.Unmarshal([]byte(body), &v)] for a zero [v]. *)
Definition unmarshal {A} (dec : decoder A) (zero : A) (body : string) : option A :=
  v ← parse body; dec v zero.

(** [map[string]json.RawMessage]: the keys are exact and a later member wins; the parsed
    value stands for its text. *)
Definition raw_members (v : json) : option (list (string * json)) :=
  match v with JNull => Some [] | JObj l => Some l | _ => None end.

Definition raw_get (l : list (string * json)) (k : string) : option json :=
  snd <$> last (List.filter (λ '(k', _), String.eqb k' k) l).
