(* ===== verification/Kube.v ===== *)
(** * The Kubernetes API server as the program sees it

    Object metadata, Go errors with the API server's reasons, and the interface of
    the client library: [Get], [Create], [Update] on one kind of object, and
    [retry.RetryOnConflict].  The client is a parameter of every component.  Its
    documented behaviour (optimistic concurrency by resource version, reads that may
    come from a cache) is [KubeClientOk]; other writers act inside every call.

    [Sim] is a concrete server, an append-only log of writes with scheduled external
    writes and faults, on which the components are evaluated. *)

From S2P Require Import Prelude GoStrings.

(** ** Go errors *)

(** [metav1.StatusReason], as far as the program distinguishes reasons. *)
Inductive kube_reason :=
  NotFound | AlreadyExists | Conflict | Forbidden | Invalid | OtherReason.

#[export] Instance kube_reason_eq_dec : EqDecision kube_reason.
Proof. solve_decision. Defined.

(** An error: an API status error, a package-level sentinel ([errors.New]), or a
    [fmt.Errorf] value, which keeps its format, its arguments and the error it wraps
    with [%w], if any; or a value of an error type of the program, which [errors.As]
    recognises. *)
Inductive error :=
  | KubeError (reason : kube_reason) (msg : string)
  | Sentinel (name : string)
  | Errorf (fmt : string) (args : list string)
  | Wrapf (fmt : string) (args : list string) (cause : error)
  | Typed (type : string) (msg : string).

#[export] Instance error_eq_dec : EqDecision error.
Proof. solve_decision. Defined.

(** [apierrors.ReasonForError] follows the wrapping chain. *)
Fixpoint reason_of (e : error) : option kube_reason :=
  match e with
  | KubeError r _ => Some r
  | Wrapf _ _ c => reason_of c
  | _ => None
  end.

Definition is_reason (r : kube_reason) (e : error) : bool :=
  bool_decide (reason_of e = Some r).
Definition IsNotFound : error → bool := is_reason NotFound.
Definition IsAlreadyExists : error → bool := is_reason AlreadyExists.
Definition IsConflict : error → bool := is_reason Conflict.
Definition IsForbidden : error → bool := is_reason Forbidden.
Definition IsInvalid : error → bool := is_reason Invalid.

(** [errors.Is(err, sentinel)]. *)
Fixpoint errors_Is (name : string) (e : error) : bool :=
  match e with
  | Sentinel n => String.eqb n name
  | Wrapf _ _ c => errors_Is name c
  | _ => false
  end.

(** [errors.As(err, &e)] for an error type of the program: the message of [e]. *)
Fixpoint errors_As (type : string) (e : error) : option string :=
  match e with
  | Typed t msg => if String.eqb t type then Some msg else None
  | Wrapf _ _ c => errors_As type c
  | _ => None
  end.

Lemma errors_As_plain type e msg :
  errors_As type e = Some msg → reason_of e = None ∧ ∀ name, errors_Is name e = false.
Proof. by induction e. Qed.

(** ** Object metadata *)

Abbreviation NamespacedName := (string * string)%type.

(** [metav1.Time], in nanoseconds since the epoch. *)
Abbreviation Time := Z (only parsing).

(** [metav1.OwnerReference] *)
Record OwnerReference := {
  owner_APIVersion : string;
  owner_Kind : string;
  owner_Name : string;
  owner_UID : string;
  owner_Controller : option bool;
  owner_BlockOwnerDeletion : option bool;
}.

#[export] Instance OwnerReference_eq_dec : EqDecision OwnerReference.
Proof. solve_decision. Defined.

(** [metav1.ObjectMeta], the fields the program uses.  A nil Go map and an empty one
    are the same [gmap]. *)
Record ObjectMeta := {
  meta_Name : string;
  meta_Namespace : string;
  meta_Labels : gmap string string;
  meta_Annotations : gmap string string;
  meta_UID : string;
  meta_OwnerReferences : list OwnerReference;
  meta_ResourceVersion : string;
  meta_Generation : Z;
  meta_CreationTimestamp : Time;
  meta_DeletionTimestamp : option Time;
  meta_Finalizers : list string;
}.

Definition ObjectMeta_zero : ObjectMeta :=
  {| meta_Name := ""; meta_Namespace := ""; meta_Labels := ∅; meta_Annotations := ∅;
     meta_UID := ""; meta_OwnerReferences := []; meta_ResourceVersion := ""; meta_Generation := 0; meta_CreationTimestamp := 0;
     meta_DeletionTimestamp := None; meta_Finalizers := [] |}.

#[export] Instance ObjectMeta_eq_dec : EqDecision ObjectMeta.
Proof. solve_decision. Defined.

(** Assignments to one field. *)
Definition with_rv (rv : string) (m : ObjectMeta) : ObjectMeta :=
  {| meta_Name := meta_Name m; meta_Namespace := meta_Namespace m;
     meta_Labels := meta_Labels m; meta_Annotations := meta_Annotations m;
     meta_UID := meta_UID m; meta_OwnerReferences := meta_OwnerReferences m;
     meta_ResourceVersion := rv; meta_Generation := meta_Generation m;
     meta_CreationTimestamp := meta_CreationTimestamp m;
     meta_DeletionTimestamp := meta_DeletionTimestamp m;
     meta_Finalizers := meta_Finalizers m |}.

Definition with_name (n : string) (m : ObjectMeta) : ObjectMeta :=
  {| meta_Name := n; meta_Namespace := meta_Namespace m;
     meta_Labels := meta_Labels m; meta_Annotations := meta_Annotations m;
     meta_UID := meta_UID m; meta_OwnerReferences := meta_OwnerReferences m;
     meta_ResourceVersion := meta_ResourceVersion m;
     meta_Generation := meta_Generation m;
     meta_CreationTimestamp := meta_CreationTimestamp m;
     meta_DeletionTimestamp := meta_DeletionTimestamp m;
     meta_Finalizers := meta_Finalizers m |}.

Definition with_namespace (ns : string) (m : ObjectMeta) : ObjectMeta :=
  {| meta_Name := meta_Name m; meta_Namespace := ns; meta_Labels := meta_Labels m;
     meta_Annotations := meta_Annotations m;
     meta_UID := meta_UID m; meta_OwnerReferences := meta_OwnerReferences m;
     meta_ResourceVersion := meta_ResourceVersion m;
     meta_Generation := meta_Generation m;
     meta_CreationTimestamp := meta_CreationTimestamp m;
     meta_DeletionTimestamp := meta_DeletionTimestamp m;
     meta_Finalizers := meta_Finalizers m |}.

Definition with_labels (l : gmap string string) (m : ObjectMeta) : ObjectMeta :=
  {| meta_Name := meta_Name m; meta_Namespace := meta_Namespace m; meta_Labels := l;
     meta_Annotations := meta_Annotations m;
     meta_UID := meta_UID m; meta_OwnerReferences := meta_OwnerReferences m;
     meta_ResourceVersion := meta_ResourceVersion m;
     meta_Generation := meta_Generation m;
     meta_CreationTimestamp := meta_CreationTimestamp m;
     meta_DeletionTimestamp := meta_DeletionTimestamp m;
     meta_Finalizers := meta_Finalizers m |}.

Definition with_annotations (a : gmap string string) (m : ObjectMeta) : ObjectMeta :=
  {| meta_Name := meta_Name m; meta_Namespace := meta_Namespace m;
     meta_Labels := meta_Labels m; meta_Annotations := a;
     meta_UID := meta_UID m; meta_OwnerReferences := meta_OwnerReferences m;
     meta_ResourceVersion := meta_ResourceVersion m;
     meta_Generation := meta_Generation m;
     meta_CreationTimestamp := meta_CreationTimestamp m;
     meta_DeletionTimestamp := meta_DeletionTimestamp m;
     meta_Finalizers := meta_Finalizers m |}.

Definition with_finalizers (fs : list string) (m : ObjectMeta) : ObjectMeta :=
  {| meta_Name := meta_Name m; meta_Namespace := meta_Namespace m;
     meta_Labels := meta_Labels m; meta_Annotations := meta_Annotations m;
     meta_UID := meta_UID m; meta_OwnerReferences := meta_OwnerReferences m;
     meta_ResourceVersion := meta_ResourceVersion m;
     meta_Generation := meta_Generation m;
     meta_CreationTimestamp := meta_CreationTimestamp m;
     meta_DeletionTimestamp := meta_DeletionTimestamp m; meta_Finalizers := fs |}.

Definition with_owners (l : list OwnerReference) (m : ObjectMeta) : ObjectMeta :=
  {| meta_Name := meta_Name m; meta_Namespace := meta_Namespace m;
     meta_Labels := meta_Labels m; meta_Annotations := meta_Annotations m;
     meta_UID := meta_UID m; meta_OwnerReferences := l;
     meta_ResourceVersion := meta_ResourceVersion m;
     meta_Generation := meta_Generation m;
     meta_CreationTimestamp := meta_CreationTimestamp m;
     meta_DeletionTimestamp := meta_DeletionTimestamp m;
     meta_Finalizers := meta_Finalizers m |}.

Definition with_deletion (t : Time) (m : ObjectMeta) : ObjectMeta :=
  {| meta_Name := meta_Name m; meta_Namespace := meta_Namespace m;
     meta_Labels := meta_Labels m; meta_Annotations := meta_Annotations m;
     meta_UID := meta_UID m; meta_OwnerReferences := meta_OwnerReferences m;
     meta_ResourceVersion := meta_ResourceVersion m;
     meta_Generation := meta_Generation m;
     meta_CreationTimestamp := meta_CreationTimestamp m;
     meta_DeletionTimestamp := Some t; meta_Finalizers := meta_Finalizers m |}.

(** [m[k]] on a Go map of strings: the zero value when the key is absent. *)
Definition map_get (m : gmap string string) (k : string) : string := default "" (m !! k).

(** Objects the client reads and writes. *)
Class KubeObject (Obj : Type) := {
  obj_meta : Obj → ObjectMeta;
  set_meta : ObjectMeta → Obj → Obj;
}.

Class KubeObjectOk (Obj : Type) {O : KubeObject Obj} : Prop := {
  obj_meta_set m o : obj_meta (set_meta m o) = m;
  set_meta_meta m m' o : set_meta m (set_meta m' o) = set_meta m o;
  set_meta_id o : set_meta (obj_meta o) o = o;
}.

Section objects.
Context {Obj} {O : KubeObject Obj}.
Definition obj_key (o : Obj) : NamespacedName :=
  (meta_Namespace (obj_meta o), meta_Name (obj_meta o)).
Definition obj_rv (o : Obj) : string := meta_ResourceVersion (obj_meta o).
Definition obj_with_rv (rv : string) (o : Obj) : Obj :=
  set_meta (with_rv rv (obj_meta o)) o.

Context {OK : KubeObjectOk Obj}.
Lemma obj_key_with_rv rv o : obj_key (obj_with_rv rv o) = obj_key o.
Proof. unfold obj_key, obj_with_rv. by rewrite obj_meta_set. Qed.
Lemma obj_rv_with_rv rv o : obj_rv (obj_with_rv rv o) = rv.
Proof. unfold obj_rv, obj_with_rv. by rewrite obj_meta_set. Qed.
End objects.

(** ** The client *)

(** Client calls on one kind of object.  [W] is the state of the world: the API
    server with every other writer. *)
Class KubeClient (W Obj : Type) := {
  kget : NamespacedName → W → W * (error + Obj);
  kcreate : Obj → W → W * option error;
  kupdate : Obj → W → W * option error;
}.

(** The other calls: listing every namespace, deleting, a JSON merge patch, and the
    update of the status subresource. *)
Class KubeList (W Obj : Type) := klist : W → W * (error + list Obj).
Class KubeDelete (W Obj : Type) := kdelete : NamespacedName → W → W * option error.
Class KubePatch (W Obj : Type) := kmerge_patch : NamespacedName → string → W → W * option error.
Class KubeStatus (W Obj : Type) := kstatus_update : Obj → W → W * option error.
(** [List] with [InNamespace], [""] being every namespace, and [MatchingLabels]. *)
Class KubeListIn (W Obj : Type) :=
  klist_in : string → gmap string string → W → W * (error + list Obj).
#[global] Arguments kdelete {_} _ {_}.
#[global] Arguments kmerge_patch {_} _ {_}.

(** [retry.RetryOnConflict(retry.DefaultRetry, fn)]. *)
Class KubeRetry (W : Type) :=
  RetryOnConflict : (W → W * option error) → W → W * option error.

(** The documented behaviour of [RetryOnConflict]: the function is called again while
    it returns a conflict, at most [DefaultRetry.Steps] times in all; the last error
    is returned. *)
Fixpoint retry_loop {W} (steps : nat) (fn : W → W * option error) (w : W)
    : W * option error :=
  match fn w with
  | (w', None) => (w', None)
  | (w', Some e) =>
    if IsConflict e then
      match steps with
      | S (S _ as steps') => retry_loop steps' fn w'
      | _ => (w', Some e)
      end
    else (w', Some e)
  end.

Definition default_retry_steps : nat := 5.

Class KubeRetryOk (W : Type) {R : KubeRetry W} : Prop :=
  retry_on_conflict_spec (fn : W → W * option error) (w : W) :
    RetryOnConflict fn w = retry_loop default_retry_steps fn w.

(** What the program relies on.  [kstore w] is the stored objects, [khist w w'] says
    that the server can go from [w] to [w'], [kquiet w] that no other writer acts and
    no call fails for an outside reason. *)
Class KubeClientOk (W Obj : Type) {O : KubeObject Obj} {C : KubeClient W Obj} := {
  kstore : W → gmap NamespacedName Obj;
  khist : W → W → Prop;
  kquiet : W → Prop;
  khist_preorder :: PreOrder khist;
  (** An object is stored under its own namespace and name. *)
  kstore_key w k o : kstore w !! k = Some o → obj_key o = k;
  (** A resource version names one content of an object, for the whole history. *)
  krv_unique w1 w2 k o1 o2 :
    khist w1 w2 → kstore w1 !! k = Some o1 → kstore w2 !! k = Some o2 →
    obj_rv o1 = obj_rv o2 → o1 = o2;
  (** A read returns an object of the present or, from a cache, of the past. *)
  kget_spec k w w' r :
    kget k w = (w', r) →
    khist w w' ∧ ∀ o, r = inr o → ∃ w0, khist w0 w' ∧ kstore w0 !! k = Some o;
  (** A create that succeeds added the object where there was none. *)
  kcreate_spec o w w' r :
    kcreate o w = (w', r) →
    khist w w' ∧
    (r = None → ∃ w1 rv, khist w w1 ∧ khist w1 w' ∧ kstore w1 !! obj_key o = None ∧
       kstore w' = <[obj_key o := obj_with_rv rv o]> (kstore w1));
  (** An update that succeeds replaced the version the caller had read. *)
  kupdate_spec o w w' r :
    kupdate o w = (w', r) →
    khist w w' ∧
    (r = None → ∃ w1 rv cur, khist w w1 ∧ khist w1 w' ∧
       kstore w1 !! obj_key o = Some cur ∧ obj_rv cur = obj_rv o ∧
       kstore w' = <[obj_key o := obj_with_rv rv o]> (kstore w1));
  (** Without other writers and faults the calls do what they are asked to. *)
  kget_quiet k w :
    kquiet w → ∃ w', kquiet w' ∧ kstore w' = kstore w ∧
      match kstore w !! k with
      | Some o => kget k w = (w', inr o)
      | None => ∃ e, kget k w = (w', inl e) ∧ IsNotFound e = true
      end;
  kcreate_quiet o w :
    kquiet w → kstore w !! obj_key o = None →
    ∃ w' rv, kquiet w' ∧ kcreate o w = (w', None) ∧
      kstore w' = <[obj_key o := obj_with_rv rv o]> (kstore w);
  kcreate_exists o w cur :
    kquiet w → kstore w !! obj_key o = Some cur →
    ∃ w' e, kquiet w' ∧ kcreate o w = (w', Some e) ∧ IsAlreadyExists e = true ∧
      kstore w' = kstore w;
  kupdate_quiet o w cur :
    kquiet w → kstore w !! obj_key o = Some cur → obj_rv cur = obj_rv o →
    ∃ w' rv, kquiet w' ∧ kupdate o w = (w', None) ∧
      kstore w' = <[obj_key o := obj_with_rv rv o]> (kstore w);
}.

(** A delete in quiet removes the object, or answers that there is none. *)
Class KubeDeleteOk (W Obj : Type) {O : KubeObject Obj} {C : KubeClient W Obj}
    {OK : KubeClientOk W Obj} {D : KubeDelete W Obj} : Prop :=
  kdelete_quiet k w :
    kquiet w → ∃ w', kquiet w' ∧ kstore w' = delete k (kstore w) ∧
      match kstore w !! k with
      | Some _ => kdelete Obj k w = (w', None)
      | None => ∃ e, kdelete Obj k w = (w', Some e) ∧ IsNotFound e = true
      end.

(** What a deletion leaves of an object: nothing, or, as long as a finalizer holds it, the
    object with a deletion timestamp. *)
Definition marked {Obj} {O : KubeObject Obj} (o o' : Obj) : Prop :=
  ∃ rv t, o' = set_meta (with_rv rv (with_deletion t (obj_meta o))) o.
Definition asked_to_go {Obj} {O : KubeObject Obj} (o o' : option Obj) : Prop :=
  match o, o' with
  | None, None | Some _, None => True
  | Some o, Some o' => marked o o'
  | None, Some _ => False
  end.

#[export] Instance asked_to_go_trans {Obj} {O : KubeObject Obj} {OOK : KubeObjectOk Obj} : Transitive (asked_to_go (Obj := Obj)).
Proof.
  intros [o1|] [o2|] [o3|]; simpl; try done. intros (rv1 & t1 & ->) (rv2 & t2 & ->). exists rv2, t2.
  by rewrite obj_meta_set, set_meta_meta.
Qed.

(** A delete in quiet takes the object away or marks it, or answers that there is none. *)
Class KubeDeleteAsks (W Obj : Type) {O : KubeObject Obj} {C : KubeClient W Obj}
    {OK : KubeClientOk W Obj} {D : KubeDelete W Obj} : Prop :=
  kdelete_asks k w :
    kquiet w → ∃ w' o', kquiet w' ∧ kstore w' = partial_alter (λ _, o') k (kstore w) ∧
      asked_to_go (kstore w !! k) o' ∧
      match kstore w !! k with
      | Some _ => kdelete Obj k w = (w', None)
      | None => ∃ e, kdelete Obj k w = (w', Some e) ∧ IsNotFound e = true
      end.

#[export] Instance delete_ok_asks {W Obj} {O : KubeObject Obj} {C : KubeClient W Obj} {OK : KubeClientOk W Obj}
    {D : KubeDelete W Obj} {DO : KubeDeleteOk W Obj} : KubeDeleteAsks W Obj.
Proof.
  intros k w Hq. destruct (kdelete_quiet k w Hq) as (w' & Hq' & Hs & Hd). exists w', None.
  split; [done|]. split; [done|]. split; [|done]. by destruct (kstore w !! k).
Qed.

(** What a list selects. *)
Definition selected {Obj} {O : KubeObject Obj} (ns : string) (labels : gmap string string) (o : Obj) : bool :=
  (String.eqb ns "" || String.eqb (meta_Namespace (obj_meta o)) ns) &&
  bool_decide (labels ⊆ meta_Labels (obj_meta o)).

(** A list in quiet holds the selected objects, each once. *)
Class KubeListOk (W Obj : Type) {O : KubeObject Obj} {C : KubeClient W Obj}
    {OK : KubeClientOk W Obj} {L : KubeListIn W Obj} : Prop :=
  klist_quiet ns labels w :
    kquiet w → ∃ w' l, kquiet w' ∧ kstore w' = kstore w ∧ klist_in ns labels w = (w', inr l) ∧
      NoDup (obj_key <$> l) ∧
      ∀ o, o ∈ l ↔ selected ns labels o = true ∧ kstore w !! obj_key o = Some o.

(** ** Functions that return an error

    [func (...) (A, error)]: the state is threaded and the first error ends the sequence. *)

Definition E (W A : Type) : Type := W → W * (error + A).
#[export] Instance E_ret W : MRet (E W) := λ A a w, (w, inr a).
#[export] Instance E_bind W : MBind (E W) := λ A B k m w,
  match m w with
  | (w, inl err) => (w, inl err)
  | (w, inr a) => k a w
  end.

Section error_monad.
Context {W : Type}.
(** [return nil, err] *)
Definition throw {A} (err : error) : E W A := λ w, (w, inl err).
(** [if err := f(); err != nil { return err }] *)
Definition run (f : W → W * option error) : E W unit := λ w,
  match f w with (w, Some err) => (w, inl err) | (w, None) => (w, inr tt) end.
(** The error of a function without a result. *)
Definition err_of (m : E W unit) (w : W) : W * option error :=
  match m w with (w, inl err) => (w, Some err) | (w, inr _) => (w, None) end.
(** [fmt.Errorf(fmt, args, err)] around the error. *)
Definition wrapping {A} (fmt : string) (args : list string) (m : E W A) : E W A := λ w,
  match m w with (w, inl err) => (w, inl (Wrapf fmt args err)) | r => r end.
(** [for _, x := range l { if err := f(x); err != nil { return err } }] *)
Fixpoint for_each {A} (f : A → E W unit) (l : list A) : E W unit :=
  match l with
  | [] => mret tt
  | x :: l => _ ← f x; for_each f l
  end.
End error_monad.

(** ** Retry loops *)

Section retry.
Context {W : Type}.
Implicit Types (fn : W → W * option error) (R : W → W → Prop).

(** A successful loop ends with a successful attempt, in a state the earlier
    attempts lead to. *)
Lemma retry_loop_success R `{!PreOrder R} steps fn w w' :
  (∀ w1 w2 r, fn w1 = (w2, r) → R w1 w2) →
  retry_loop steps fn w = (w', None) →
  ∃ w1, R w w1 ∧ fn w1 = (w', None).
Proof.
  intros Hfn. revert w. induction steps as [steps IH] using lt_wf_ind. intros w.
  destruct steps as [|steps]; simpl;
    destruct (fn w) as [w1 [e|]] eqn:Ew; try (intros [= ->]; by exists w).
  - by destruct (IsConflict e).
  - destruct (IsConflict e); [|done].
    destruct steps as [|steps]; [done|].
    intros (w2 & Hw2 & Hsucc)%IH; [|lia].
    exists w2. split; [|done]. etrans; [by eapply Hfn|done].
Qed.

Lemma retry_loop_hist R `{!PreOrder R} steps fn w w' r :
  (∀ w1 w2 r, fn w1 = (w2, r) → R w1 w2) →
  retry_loop steps fn w = (w', r) → R w w'.
Proof.
  intros Hfn. revert w. induction steps as [steps IH] using lt_wf_ind. intros w.
  destruct steps as [|steps]; simpl;
    destruct (fn w) as [w1 [e|]] eqn:Ew; try destruct (IsConflict e);
    try (intros [= <- <-]; by eapply Hfn).
  destruct steps as [|steps]; [intros [= <- <-]; by eapply Hfn|].
  intros Hr%IH; [|lia]. etrans; [by eapply Hfn|done].
Qed.

Lemma retry_loop_ext steps fn fn' w : (∀ w, fn w = fn' w) → retry_loop steps fn w = retry_loop steps fn' w.
Proof.
  intros Hfn. revert w. induction steps as [steps IH] using lt_wf_ind. intros w.
  destruct steps as [|[|steps]]; simpl; rewrite Hfn; destruct (fn' w) as [w1 [e|]]; try done.
  destruct (IsConflict e); [|done]. apply (IH (S steps)). lia.
Qed.

(** An attempt that does not conflict ends the loop. *)
Lemma retry_loop_once steps fn w w' r :
  fn w = (w', r) → (∀ e, r = Some e → IsConflict e = false) →
  retry_loop steps fn w = (w', r).
Proof.
  intros Hf Hr. destruct steps; simpl; rewrite Hf; destruct r as [e|]; try done;
    by rewrite (Hr e).
Qed.
End retry.

(** ** Read-modify-write *)

Section rmw.
Context {W Obj} {O : KubeObject Obj} {C : KubeClient W Obj} {OK : KubeClientOk W Obj}.

Lemma kget_hist k w w' r : kget k w = (w', r) → khist w w'.
Proof. intros H. by apply kget_spec in H as [? _]. Qed.

Lemma kcreate_hist o w w' r : kcreate o w = (w', r) → khist w w'.
Proof. intros H. by apply kcreate_spec in H as [? _]. Qed.

Lemma kupdate_hist o w w' r : kupdate o w = (w', r) → khist w w'.
Proof. intros H. by apply kupdate_spec in H as [? _]. Qed.

(** What is known of a successful read: the object is one of the present or the past. *)
Definition read_ok (k : NamespacedName) (o : Obj) (w : W) : Prop :=
  ∃ w0, khist w0 w ∧ kstore w0 !! k = Some o.

(** An object that was read, changed and written back without touching its resource
    version replaced exactly the version that was read, whatever other writers did
    between the read and the write and however stale the read was. *)
Lemma rmw_read k o o' w1 w2 :
  read_ok k o w1 → kupdate o' w1 = (w2, None) → obj_key o' = obj_key o → obj_rv o' = obj_rv o →
  ∃ wu rv, khist w1 wu ∧ khist wu w2 ∧ kstore wu !! k = Some o ∧
    kstore w2 = <[k := obj_with_rv rv o']> (kstore wu).
Proof.
  intros (w0 & Hw01 & Hw0) Hupd Hkey Hrv.
  pose proof (kstore_key _ _ _ Hw0) as Hk. rewrite <- Hkey in Hk. subst k.
  apply kupdate_spec in Hupd as [_ Hupd].
  destruct (Hupd eq_refl) as (wu & rv & cur & Hw1u & Hu2 & Hcur & Hcurrv & Hstore).
  assert (o = cur) as ->.
  { eapply (krv_unique w0 wu); [|done|done|congruence]. by etrans. }
  by exists wu, rv.
Qed.

Lemma rmw_atomic k o o' w w1 w2 :
  kget k w = (w1, inr o) → kupdate o' w1 = (w2, None) →
  obj_key o' = obj_key o → obj_rv o' = obj_rv o →
  ∃ wu rv, khist w wu ∧ khist wu w2 ∧ kstore wu !! k = Some o ∧
    kstore w2 = <[k := obj_with_rv rv o']> (kstore wu).
Proof.
  intros Hget Hupd Hkey Hrv. apply kget_spec in Hget as [Hw1 Hread].
  destruct (rmw_read k o o' w1 w2) as (wu & rv & H1 & H); [by apply Hread|done..|].
  exists wu, rv. split; [by etrans|done].
Qed.

(** A reader that may bypass the cache. *)
Definition reader_ok (read : NamespacedName → W → W * (error + Obj)) : Prop :=
  ∀ k w w' r, read k w = (w', r) → khist w w' ∧ ∀ o, r = inr o → read_ok k o w'.

Lemma kget_reader_ok : reader_ok kget.
Proof. intros k w w' r H. by apply kget_spec in H. Qed.
End rmw.

#[export] Hint Resolve kget_hist kcreate_hist kupdate_hist : go.

(** ** Frames

    [I] relates the worlds before and after a read, and before and after any call. *)

Class KubeReads (W Obj : Type) {C : KubeClient W Obj} (I : relation W) : Prop :=
  kget_reads k w : I w (kget k w).1.

Class KubeWithin (W Obj : Type) {C : KubeClient W Obj} (I : relation W) : Prop := {
  kget_within k w : I w (kget k w).1;
  kcreate_within o w : I w (kcreate o w).1;
  kupdate_within o w : I w (kupdate o w).1;
}.

#[export] Instance khist_within {W Obj} `{OK : KubeClientOk W Obj} : KubeWithin W Obj khist.
Proof.
  split; intros x w; match goal with |- khist w ?f.1 => destruct f as [w' r] eqn:E end; eauto with go.
Qed.

(** The stored objects of a kind are the same, and quiet is kept. *)
Definition unaffected (Obj : Type) {W} {O : KubeObject Obj} {C : KubeClient W Obj}
    {OK : KubeClientOk W Obj} (w w' : W) : Prop :=
  kstore (Obj := Obj) w' = kstore (Obj := Obj) w ∧
  (kquiet (Obj := Obj) w → kquiet (Obj := Obj) w').

#[export] Instance unaffected_preorder {W} Obj `{OK : KubeClientOk W Obj} :
  PreOrder (unaffected Obj (W := W)).
Proof.
  split; [by intros w|]. intros w1 w2 w3 [H1 Q1] [H2 Q2]. split; [congruence|auto].
Qed.

Definition both {W} (I J : relation W) : relation W := λ w w', I w w' ∧ J w w'.
#[export] Instance both_preorder {W} (I J : relation W) `{!PreOrder I, !PreOrder J} : PreOrder (both I J).
Proof. split; [by intros w|]. intros w1 w2 w3 [] []. split; by etrans. Qed.
#[export] Instance both_within {W Obj} {C : KubeClient W Obj} (I J : relation W)
    `{!KubeWithin W Obj I, !KubeWithin W Obj J} : KubeWithin W Obj (both I J).
Proof. split; split; (apply kget_within || apply kcreate_within || apply kupdate_within). Qed.

(** Calls on objects of the kind [A] leave those of the kind [B] alone. *)
Abbreviation KubeApart W A B := (KubeWithin W A (unaffected B)).

(** ** Reading a snapshot

    A client whose reads are those of one snapshot of the objects: nobody writes while
    the reader runs. *)

Class KubeSnapshot (W Obj : Type) {C : KubeClient W Obj}
    (view : NamespacedName → error + Obj) : Prop :=
  kget_snapshot k w : kget k w = (w, view k).

(** The view of a finite set of stored objects. *)
Definition map_view {Obj} (m : gmap NamespacedName Obj) (k : NamespacedName) : error + Obj :=
  match m !! k with Some o => inr o | None => inl (KubeError NotFound k.2) end.

Definition read_only {W Obj} (view : NamespacedName → error + Obj) : KubeClient W Obj :=
  {| kget k w := (w, view k);
     kcreate _ w := (w, Some (KubeError Forbidden "read only"));
     kupdate _ w := (w, Some (KubeError Forbidden "read only")) |}.

Lemma read_only_snapshot {W Obj} (view : NamespacedName → error + Obj) :
  KubeSnapshot (C := read_only view) W Obj view.
Proof. by intros k w. Qed.

(** ** A concrete server *)

Module Sim.
Section sim.
Context {Obj : Type} {O : KubeObject Obj}.

Inductive write := Put (o : Obj) | Del (k : NamespacedName).

(** What happens before the next call: nothing, a write of somebody else, or a
    failure of the call. *)
Inductive event := Calm | External (x : write) | Fault (e : error).

Record world := World { log : list write; pending : list event }.

Definition rv_of (l : list write) : string := itoa (Z.of_nat (length l)).

Fixpoint store (l : list write) : gmap NamespacedName Obj :=
  match l with
  | [] => ∅
  | Put o :: l' => <[obj_key o := obj_with_rv (rv_of l') o]> (store l')
  | Del k :: l' => delete k (store l')
  end.

Definition objects (w : world) : gmap NamespacedName Obj := store (log w).

(** The effect of the next scheduled event. *)
Definition tick (w : world) : world * option error :=
  match pending w with
  | [] => (w, None)
  | Calm :: p => (World (log w) p, None)
  | External x :: p => (World (x :: log w) p, None)
  | Fault e :: p => (World (log w) p, Some e)
  end.

Definition get (k : NamespacedName) (w : world) : world * (error + Obj) :=
  match tick w with
  | (w', Some e) => (w', inl e)
  | (w', None) =>
    match objects w' !! k with
    | Some o => (w', inr o)
    | None => (w', inl (KubeError NotFound k.2))
    end
  end.

Definition create (o : Obj) (w : world) : world * option error :=
  match tick w with
  | (w', Some e) => (w', Some e)
  | (w', None) =>
    match objects w' !! obj_key o with
    | Some _ => (w', Some (KubeError AlreadyExists (obj_key o).2))
    | None => (World (Put o :: log w') (pending w'), None)
    end
  end.

Definition update (o : Obj) (w : world) : world * option error :=
  match tick w with
  | (w', Some e) => (w', Some e)
  | (w', None) =>
    match objects w' !! obj_key o with
    | None => (w', Some (KubeError NotFound (obj_key o).2))
    | Some cur =>
      if String.eqb (obj_rv cur) (obj_rv o)
      then (World (Put o :: log w') (pending w'), None)
      else (w', Some (KubeError Conflict (obj_key o).2))
    end
  end.

Definition remove (k : NamespacedName) (w : world) : world * option error :=
  match tick w with
  | (w', Some e) => (w', Some e)
  | (w', None) =>
    match objects w' !! k with
    | None => (w', Some (KubeError NotFound k.2))
    | Some _ => (World (Del k :: log w') (pending w'), None)
    end
  end.

#[export] Instance deleter : KubeDelete world Obj := remove.

(** Deletion at time [t] of a kind whose objects are held by finalizers as [held] says. *)
Definition mark (held : Obj → bool) (t : Time) (k : NamespacedName) (w : world) : world * option error :=
  match tick w with
  | (w', Some e) => (w', Some e)
  | (w', None) =>
    match objects w' !! k with
    | None => (w', Some (KubeError NotFound k.2))
    | Some o =>
      if held o
      then match meta_DeletionTimestamp (obj_meta o) with
           | Some _ => (w', None)
           | None => (World (Put (set_meta (with_deletion t (obj_meta o)) o) :: log w') (pending w'), None)
           end
      else (World (Del k :: log w') (pending w'), None)
    end
  end.

Definition list_in (ns : string) (labels : gmap string string) (w : world)
    : world * (error + list Obj) :=
  match tick w with
  | (w', Some e) => (w', inl e)
  | (w', None) => (w', inr (List.filter (selected ns labels) (map_to_list (objects w')).*2))
  end.

#[export] Instance lister : KubeListIn world Obj := list_in.

#[export] Instance client : KubeClient world Obj :=
  {| kget := get; kcreate := create; kupdate := update |}.

#[export] Instance retry : KubeRetry world := retry_loop default_retry_steps.

#[export] Instance retry_ok : KubeRetryOk world.
Proof. intros fn w. reflexivity. Qed.

(** The history of a world is its log, which only grows. *)
Definition hist (w1 w2 : world) : Prop := ∃ l, log w2 = l ++ log w1.

#[export] Instance hist_preorder : PreOrder hist.
Proof.
  split.
  - intros w. by exists [].
  - intros w1 w2 w3 [l1 H1] [l2 H2]. exists (l2 ++ l1).
    by rewrite H2, H1, app_assoc.
Qed.

Definition quiet (w : world) : Prop := pending w = [].

Lemma tick_hist w w' r : tick w = (w', r) → hist w w'.
Proof.
  unfold tick, hist. destruct (pending w) as [|[|x|e] p]; intros [= <- <-]; simpl.
  - by exists [].
  - by exists [].
  - by exists [x].
  - by exists [].
Qed.

Lemma tick_quiet w : quiet w → tick w = (w, None).
Proof. unfold quiet, tick. by intros ->. Qed.

Context {OK : KubeObjectOk Obj}.

Lemma rv_of_inj l1 l2 : rv_of l1 = rv_of l2 → length l1 = length l2.
Proof. unfold rv_of, itoa. intros ?%(inj pretty). lia. Qed.

(** The version of a stored object is a position of the log. *)
Lemma store_rv l k o :
  store l !! k = Some o → ∃ l1 l2, l = l1 ++ l2 ∧ l1 ≠ [] ∧ obj_rv o = rv_of l2.
Proof.
  induction l as [|x l IH]; simpl; [by rewrite lookup_empty|].
  assert (store l !! k = Some o →
          ∃ l1 l2, x :: l = l1 ++ l2 ∧ l1 ≠ [] ∧ obj_rv o = rv_of l2) as IH'.
  { intros (l1 & l2 & -> & _ & ?)%IH. by exists (x :: l1), l2. }
  destruct x as [o'|k'].
  - rewrite lookup_insert. case_decide; [|done].
    intros [= <-]. exists [Put o'], l. by rewrite obj_rv_with_rv.
  - rewrite lookup_delete. by case_decide.
Qed.

Lemma store_rv_unique l l0 k o1 o2 :
  store l0 !! k = Some o1 → store (l ++ l0) !! k = Some o2 →
  obj_rv o1 = obj_rv o2 → o1 = o2.
Proof.
  intros H1. induction l as [|x l IH]; simpl; [congruence|].
  destruct x as [o|k'].
  - rewrite lookup_insert. case_decide; [|done].
    intros [= <-] Hrv. exfalso.
    destruct (store_rv _ _ _ H1) as (l1 & l2 & -> & Hne & Hrv1).
    rewrite obj_rv_with_rv, Hrv1 in Hrv. apply rv_of_inj in Hrv.
    rewrite !length_app in Hrv. destruct l1; simpl in *; [done|lia].
  - rewrite lookup_delete. by case_decide.
Qed.

Lemma store_key l k o : store l !! k = Some o → obj_key o = k.
Proof.
  induction l as [|[o'|k'] l IH]; simpl; [by rewrite lookup_empty| |].
  - rewrite lookup_insert. case_decide; [|done].
    intros [= <-]. by rewrite obj_key_with_rv.
  - rewrite lookup_delete. by case_decide.
Qed.

Lemma get_spec k w w' r :
  get k w = (w', r) →
  hist w w' ∧ ∀ o, r = inr o → ∃ w0, hist w0 w' ∧ objects w0 !! k = Some o.
Proof.
  unfold get. destruct (tick w) as [w1 f] eqn:Et.
  pose proof (tick_hist _ _ _ Et) as Hh.
  destruct f; [by intros [= <- <-]|].
  destruct (objects w1 !! k) eqn:E; intros [= <- <-]; split; try done.
  intros ? [= <-]. exists w1. by split.
Qed.

Lemma create_spec o w w' r :
  create o w = (w', r) →
  hist w w' ∧
  (r = None → ∃ w1 rv, hist w w1 ∧ hist w1 w' ∧ objects w1 !! obj_key o = None ∧
     objects w' = <[obj_key o := obj_with_rv rv o]> (objects w1)).
Proof.
  unfold create. destruct (tick w) as [w1 f] eqn:Et.
  pose proof (tick_hist _ _ _ Et) as Hh.
  destruct f; [by intros [= <- <-]|].
  destruct (objects w1 !! obj_key o) eqn:E; intros [= <- <-]; [by split|].
  assert (hist w1 (World (Put o :: log w1) (pending w1))) by (by exists [Put o]).
  split; [by etrans|]. intros _. exists w1. by eexists.
Qed.

Lemma update_spec o w w' r :
  update o w = (w', r) →
  hist w w' ∧
  (r = None → ∃ w1 rv cur, hist w w1 ∧ hist w1 w' ∧
     objects w1 !! obj_key o = Some cur ∧ obj_rv cur = obj_rv o ∧
     objects w' = <[obj_key o := obj_with_rv rv o]> (objects w1)).
Proof.
  unfold update. destruct (tick w) as [w1 f] eqn:Et.
  pose proof (tick_hist _ _ _ Et) as Hh.
  destruct f; [by intros [= <- <-]|].
  destruct (objects w1 !! obj_key o) as [cur|] eqn:E; [|by intros [= <- <-]].
  destruct (String.eqb_spec (obj_rv cur) (obj_rv o)) as [Hrv|];
    [|by intros [= <- <-]].
  intros [= <- <-].
  assert (hist w1 (World (Put o :: log w1) (pending w1))) by (by exists [Put o]).
  split; [by etrans|]. intros _. exists w1. eexists _, cur. done.
Qed.

#[export] Program Instance client_ok : KubeClientOk world Obj :=
  {| kstore := objects; khist := hist; kquiet := quiet |}.
Next Obligation. intros w k o. apply store_key. Qed.
Next Obligation.
  intros w1 w2 k o1 o2 [l Hl] H1 H2 Hrv. unfold objects in *. rewrite Hl in H2.
  by eapply store_rv_unique.
Qed.
Next Obligation. exact get_spec. Qed.
Next Obligation. exact create_spec. Qed.
Next Obligation. exact update_spec. Qed.
Next Obligation.
  intros k w Hq. exists w. split; [done|]. split; [done|].
  simpl. unfold get. rewrite tick_quiet by done.
  destruct (objects w !! k) eqn:E.
  - done.
  - by eexists.
Qed.
Next Obligation.
  intros o w Hq Hnone. eexists (World (Put o :: log w) (pending w)), _.
  split; [done|]. simpl. unfold create. by rewrite tick_quiet, Hnone.
Qed.
Next Obligation.
  intros o w cur Hq Hcur. exists w. eexists. split; [done|]. simpl. unfold create.
  by rewrite tick_quiet, Hcur.
Qed.
Next Obligation.
  intros o w cur Hq Hcur Hrv. eexists (World (Put o :: log w) (pending w)), _.
  split; [done|]. simpl. unfold update. rewrite tick_quiet, Hcur by done.
  by rewrite Hrv, String.eqb_refl.
Qed.

#[export] Instance deleter_ok : KubeDeleteOk world Obj.
Proof.
  intros k w Hq. unfold kdelete, deleter, remove. rewrite tick_quiet by done. simpl kstore.
  destruct (objects w !! k) as [o|] eqn:E.
  - exists (World (Del k :: log w) (pending w)). done.
  - exists w. split; [done|]. split; [by rewrite delete_id|]. by eexists.
Qed.

Lemma mark_asks held t : KubeDeleteAsks (D := mark held t) world Obj.
Proof.
  intros k w Hq. unfold kdelete, mark. rewrite tick_quiet by done. simpl kstore.
  destruct (objects w !! k) as [o|] eqn:E.
  - assert (∃ w' o', quiet w' ∧ objects w' = partial_alter (λ _, o') k (objects w) ∧ asked_to_go (Some o) o' ∧
      (if held o then match meta_DeletionTimestamp (obj_meta o) with
           | Some _ => (w, None)
           | None => (World (Put (set_meta (with_deletion t (obj_meta o)) o) :: log w) (pending w), None) end
       else (World (Del k :: log w) (pending w), None)) = (w', None : option error)) as (w' & o' & H); [|by exists w', o'].
    destruct (held o); [|by exists (World (Del k :: log w) (pending w)), None].
    destruct (meta_DeletionTimestamp (obj_meta o)) as [t0|] eqn:Et.
    + exists w, (Some o). split; [done|]. split; [symmetry; by apply partial_alter_id|]. split; [|done].
      exists (obj_rv o), t0. unfold obj_rv. rewrite <-(set_meta_id o) at 1. f_equal.
      destruct (obj_meta o). unfold with_rv, with_deletion. simpl in *. by subst.
    + eexists (World (Put (set_meta (with_deletion t (obj_meta o)) o) :: log w) (pending w)), (Some _).
      split; [done|]. split; [|split; [|done]].
      * unfold objects. simpl. unfold obj_key. rewrite obj_meta_set.
        change (meta_Namespace (with_deletion t (obj_meta o)), meta_Name (with_deletion t (obj_meta o))) with (obj_key o).
        by rewrite (store_key _ _ _ E).
      * eexists _, t. unfold obj_with_rv. by rewrite set_meta_meta, obj_meta_set.
  - exists w, None. split; [done|]. split; [symmetry; by apply partial_alter_id|]. split; [done|]. by eexists.
Qed.

#[export] Instance lister_ok : KubeListOk world Obj.
Proof.
  intros ns labels w Hq. unfold klist_in, lister, list_in. rewrite tick_quiet by done.
  eexists w, _. split; [done|]. split; [done|]. split; [done|]. simpl kstore.
  assert (∀ k o, (k, o) ∈ map_to_list (objects w) → k = obj_key o) as Hkey.
  { intros k o Hk%elem_of_map_to_list. symmetry. by eapply store_key. }
  split.
  - apply NoDup_fmap_filter_bool.
    assert (obj_key <$> (map_to_list (objects w)).*2 = (map_to_list (objects w)).*1) as ->.
    { rewrite <-list_fmap_compose. apply list_fmap_ext. intros i [k o] Hk.
      simpl. symmetry. apply Hkey. by eapply list_elem_of_lookup_2. }
    apply NoDup_fst_map_to_list.
  - intros o. rewrite elem_of_filter_bool, list_elem_of_fmap. split.
    + intros [([k o'] & -> & Hk) Hs]. split; [done|]. simpl.
      pose proof (Hkey _ _ Hk) as <-. by apply elem_of_map_to_list in Hk.
    + intros [Hs Hk]. split; [|done]. exists (obj_key o, o). split; [done|].
      by apply elem_of_map_to_list.
Qed.
End sim.
#[global] Arguments write : clear implicits.
#[global] Arguments event : clear implicits.
#[global] Arguments world : clear implicits.
End Sim.
