(* ===== verification/GoTime.v ===== *)
(** * Times: what the program uses of [time]

    An instant is a number of nanoseconds since the Unix epoch ([Kube.Time]).  Civil
    dates of the proleptic Gregorian calendar, and the text of RFC 3339 with
    nanoseconds, which is the JSON form of a [time.Time].  The text is that of UTC; the
    parser takes any zone.  What is written is read back ([parse_format]). *)

From S2P Require Import Prelude GoStrings Json GoNum Kube.

Definition Nanosecond : Z := 1.
Definition Millisecond : Z := 1000000.
Definition Second : Z := 1000000000.
Definition Minute : Z := 60 * Second.
Definition Hour : Z := 60 * Minute.

(** [t.Sub(u)] saturates. *)
Definition time_sub (t u : Time) : Z := Z.max min_int64 (Z.min max_int64 (t - u)).

(** ** Civil dates *)

Definition leap (y : Z) : bool :=
  (y mod 4 =? 0)%Z && (negb (y mod 100 =? 0)%Z || (y mod 400 =? 0)%Z).

Definition days_in (y m : Z) : Z :=
  if (m =? 2)%Z then (if leap y then 29 else 28)%Z
  else if (m =? 4)%Z || (m =? 6)%Z || (m =? 9)%Z || (m =? 11)%Z then 30%Z else 31%Z.

(** Days count from the first of March: the years of a 400-year era, which end with
    February, and the months of a year. *)
Definition year_start (yoe : Z) : Z := (yoe * 365 + yoe / 4 - yoe / 100)%Z.

Definition era_year (doe : Z) : Z :=
  let y := Z.min 399 (doe / 365) in
  if (year_start y <=? doe)%Z then y else (y - 1)%Z.

Definition month_day (doy : Z) : Z * Z :=
  let mp := ((5 * doy + 2) / 153)%Z in
  (if (mp <? 10)%Z then (mp + 3)%Z else (mp - 9)%Z, (doy - (153 * mp + 2) / 5 + 1)%Z).

Definition year_day (m d : Z) : Z :=
  let mp := if (2 <? m)%Z then (m - 3)%Z else (m + 9)%Z in
  ((153 * mp + 2) / 5 + d - 1)%Z.

(** Days are counted from the epoch. *)
Definition civil_from_days (n : Z) : Z * Z * Z :=
  let z := (n + 719468)%Z in
  let doe := (z mod 146097)%Z in
  let yoe := era_year doe in
  let '(m, d) := month_day (doe - year_start yoe) in
  ((yoe + z / 146097 * 400 + (if (m <=? 2)%Z then 1 else 0))%Z, m, d).

Definition days_from_civil (y m d : Z) : Z :=
  let y := (if (m <=? 2)%Z then y - 1 else y)%Z in
  (y / 400 * 146097 + year_start (y mod 400) + year_day m d - 719468)%Z.

(** ** RFC 3339 *)

Definition digit_char (d : Z) : ascii := Ascii.ascii_of_nat (Z.to_nat (48 + d)).

(** [k] digits. *)
Fixpoint pad (k : nat) (n : Z) : string :=
  match k with
  | O => ""
  | S k' => pad k' (n / 10) +:+ String (digit_char (n mod 10)) ""
  end.

Fixpoint take_digits (k : nat) (s : string) : option (string * string) :=
  match k, s with
  | O, _ => Some ("", s)
  | S k', String c s' =>
    if is_digit c
    then match take_digits k' s' with Some (a, r) => Some (String c a, r) | None => None end
    else None
  | S _, EmptyString => None
  end.

(** A number of [k] digits between [lo] and [hi]. *)
Definition read_num (k : nat) (lo hi : Z) (s : string) : option (Z * string) :=
  match take_digits k s with
  | Some (a, r) =>
    let n := digits_val a 0 in
    if (lo <=? n)%Z && (n <=? hi)%Z then Some (n, r) else None
  | None => None
  end.

Definition read_char (c : ascii) (s : string) : option string :=
  match s with String a r => if Ascii.eqb a c then Some r else None | _ => None end.

Fixpoint zeros (k : nat) : string := match k with O => "" | S k' => String "0" (zeros k') end.

Definition is_zero (c : ascii) : bool := Ascii.eqb c "0"%char.

(** The fraction [.999999999]: nothing for a whole second, else the digits without
    their final zeros. *)
Definition format_frac (ns : Z) : string :=
  match trim_right is_zero (pad 9 ns) with
  | EmptyString => ""
  | digits => "." +:+ digits
  end.

Definition read_frac (s : string) : option (Z * string) :=
  match s with
  | String "." r =>
    match span is_digit r with
    | (EmptyString, _) => None
    | (digits, r) =>
      let kept := str_take 9 digits in
      Some (digits_val (kept +:+ zeros (9 - String.length kept)) 0, r)
    end
  | _ => Some (0%Z, s)
  end.

(** [t.UTC().Format(time.RFC3339Nano)] with the range check of [time.Time.MarshalJSON];
    [None] is its error. *)
Definition format_time (t : Time) : option string :=
  let secs := (t / Second)%Z in
  let '(y, m, d) := civil_from_days (secs / 86400) in
  let s := (secs mod 86400)%Z in
  if (0 <=? y)%Z && (y <=? 9999)%Z
  then Some (pad 4 y +:+ "-" +:+ pad 2 m +:+ "-" +:+ pad 2 d +:+ "T" +:+
             pad 2 (s / 3600) +:+ ":" +:+ pad 2 (s / 60 mod 60) +:+ ":" +:+ pad 2 (s mod 60) +:+
             format_frac (t mod Second) +:+ "Z")
  else None.

(** [t.UTC().Format(time.RFC3339)], for the years of four digits. *)
Definition format_rfc3339 (t : Time) : string :=
  let secs := (t / Second)%Z in
  let '(y, m, d) := civil_from_days (secs / 86400) in
  let s := (secs mod 86400)%Z in
  pad 4 y +:+ "-" +:+ pad 2 m +:+ "-" +:+ pad 2 d +:+ "T" +:+
  pad 2 (s / 3600) +:+ ":" +:+ pad 2 (s / 60 mod 60) +:+ ":" +:+ pad 2 (s mod 60) +:+ "Z".

(** The offset of the zone in seconds. *)
Definition read_zone (s : string) : option Z :=
  match s with
  | String c r =>
    if Ascii.eqb c "Z"%char then (if String.eqb r "" then Some 0%Z else None)
    else if Ascii.eqb c "+"%char || Ascii.eqb c "-"%char then
      '(h, r) ← read_num 2 0 23 r; r ← read_char ":"%char r; '(m, r) ← read_num 2 0 59 r;
      if String.eqb r "" then Some ((if Ascii.eqb c "+"%char then 1 else -1) * (h * 3600 + m * 60))%Z
      else None
    else None
  | EmptyString => None
  end.

(** [time.Time.UnmarshalJSON] on the text between the quotes. *)
Definition parse_time (s : string) : option Time :=
  '(y, s) ← read_num 4 0 9999 s; s ← read_char "-"%char s;
  '(m, s) ← read_num 2 1 12 s; s ← read_char "-"%char s;
  '(d, s) ← read_num 2 1 (days_in y m) s; s ← read_char "T"%char s;
  '(hh, s) ← read_num 2 0 23 s; s ← read_char ":"%char s;
  '(mm, s) ← read_num 2 0 59 s; s ← read_char ":"%char s;
  '(ss, s) ← read_num 2 0 59 s;
  '(ns, s) ← read_frac s;
  off ← read_zone s;
  Some ((days_from_civil y m d * 86400 + hh * 3600 + mm * 60 + ss - off) * Second + ns)%Z.

(** ** Calendar *)

(** The day after the last of a year of the era. *)
Definition year_end (yoe : Z) : Z := if (yoe =? 399)%Z then 146097%Z else year_start (yoe + 1).

Lemma era_year_ok doe :
  (0 ≤ doe < 146097)%Z →
  (0 ≤ era_year doe < 400)%Z ∧ (year_start (era_year doe) ≤ doe < year_end (era_year doe))%Z.
Proof.
  intros H. unfold era_year, year_end, year_start.
  set (q := (doe / 365)%Z). pose proof (Z.div_mod doe 365 ltac:(done)).
  pose proof (Z.mod_pos_bound doe 365 ltac:(done)). fold q in H0.
  destruct (Z.le_gt_cases 399 q); [rewrite Z.min_l by lia|rewrite Z.min_r by lia];
    repeat match goal with |- context [if ?b then _ else _] => destruct b eqn:? end;
    Z.to_euclidean_division_equations; lia.
Qed.

Definition month_day_ok (doy : Z) : bool :=
  let '(m, d) := month_day doy in
  (1 <=? m)%Z && (m <=? 12)%Z && (1 <=? d)%Z &&
  (d <=? (if (m =? 2)%Z then (if (365 <=? doy)%Z then 29 else 28) else days_in 0 m))%Z &&
  (year_day m d =? doy)%Z && Bool.eqb (m <=? 2)%Z (306 <=? doy)%Z.

Lemma month_day_spec doy : (0 ≤ doy < 366)%Z → month_day_ok doy = true.
Proof.
  intros H. rewrite <- (Z2N.id doy) by lia.
  apply (N_below_cases (λ n, month_day_ok (Z.of_N n)) 366); [vm_compute; reflexivity|lia].
Qed.

Lemma leap_year_end yoe :
  (0 ≤ yoe < 400)%Z → (year_start yoe + 365 < year_end yoe)%Z → leap (yoe + 1) = true.
Proof.
  intros H. rewrite <- (Z2N.id yoe) by lia.
  assert (negb (year_start (Z.of_N (Z.to_N yoe)) + 365 <? year_end (Z.of_N (Z.to_N yoe)))%Z ||
    leap (Z.of_N (Z.to_N yoe) + 1) = true) as Hy.
  { apply (N_below_cases (λ n, negb (year_start (Z.of_N n) + 365 <? year_end (Z.of_N n))%Z ||
      leap (Z.of_N n + 1)) 400); [vm_compute; reflexivity|lia]. }
  intros Hlt%Z.ltb_lt. by rewrite Hlt in Hy.
Qed.

Lemma year_length yoe : (0 ≤ yoe < 400)%Z → (year_end yoe ≤ year_start yoe + 366)%Z.
Proof.
  intros H. unfold year_end, year_start.
  destruct (Z.eqb_spec yoe 399) as [->|]; [done|].
  Z.to_euclidean_division_equations; lia.
Qed.

Lemma days_in_period y e m : days_in (y + e * 400) m = days_in y m.
Proof.
  unfold days_in, leap.
  replace ((y + e * 400) mod 4)%Z with (y mod 4)%Z by
    (replace (y + e * 400)%Z with (y + e * 100 * 4)%Z by lia; by rewrite Z.mod_add).
  replace ((y + e * 400) mod 100)%Z with (y mod 100)%Z by
    (replace (y + e * 400)%Z with (y + e * 4 * 100)%Z by lia; by rewrite Z.mod_add).
  by rewrite Z.mod_add.
Qed.

Lemma civil_ok n : let '(y, m, d) := civil_from_days n in
  (1 ≤ m ≤ 12)%Z ∧ (1 ≤ d ≤ days_in y m)%Z ∧ days_from_civil y m d = n.
Proof.
  unfold civil_from_days. set (z := (n + 719468)%Z).
  pose proof (era_year_ok (z mod 146097) (Z.mod_pos_bound z 146097 ltac:(done))) as [Hy Hs].
  set (yoe := era_year (z mod 146097)) in *. pose proof (year_length yoe Hy).
  set (doy := (z mod 146097 - year_start yoe)%Z) in *.
  pose proof (month_day_spec doy ltac:(lia)) as H0. unfold month_day_ok in H0.
  destruct (month_day doy) as [m d].
  rewrite !andb_true_iff in H0. destruct H0 as [[[[[H1 H2] H3] H4] H5] H6].
  apply Bool.eqb_prop in H6. apply Z.eqb_eq in H5.
  set (b := (if (m <=? 2)%Z then 1 else 0)%Z).
  assert (days_in (yoe + z / 146097 * 400 + b) m = days_in (yoe + b) m) as Hd.
  { rewrite <- (days_in_period (yoe + b) (z / 146097)). f_equal. lia. }
  rewrite Hd. split; [lia|]. split.
  - split; [lia|]. unfold days_in in *. subst b. destruct (Z.eqb_spec m 2) as [->|]; [|lia].
    destruct (Z.leb_spec 365 doy); [|destruct (leap _); lia].
    change (2 <=? 2)%Z with true. cbv iota. rewrite leap_year_end by lia. lia.
  - unfold days_from_civil.
    replace (if (m <=? 2)%Z then _ else _) with (yoe + z / 146097 * 400)%Z
      by (subst b; destruct (m <=? 2)%Z; lia).
    rewrite Z.div_add, Z.mod_add, Z.div_small, Z.mod_small by lia.
    rewrite H5. pose proof (Z.div_mod z 146097 ltac:(done)). subst doy. lia.
Qed.

(** ** Text *)

Lemma digit_char_ok d : (0 ≤ d < 10)%Z → is_digit (digit_char d) = true ∧ digit_val (digit_char d) = d.
Proof.
  intros H. rewrite <- (Z2N.id d) by lia.
  assert (is_digit (digit_char (Z.of_N (Z.to_N d))) &&
    (digit_val (digit_char (Z.of_N (Z.to_N d))) =? Z.of_N (Z.to_N d))%Z = true) as Hd.
  { apply (N_below_cases (λ d, is_digit (digit_char (Z.of_N d)) &&
      (digit_val (digit_char (Z.of_N d)) =? Z.of_N d)%Z) 10); [done|lia]. }
  rewrite andb_true_iff, Z.eqb_eq in Hd. done.
Qed.

Lemma pad_length k n : String.length (pad k n) = k.
Proof. revert n. induction k; intros n; simpl; [done|]. rewrite str_app_length, IHk. simpl. lia. Qed.

Lemma digits_val_app a b acc : digits_val (a +:+ b) acc = digits_val b (digits_val a acc).
Proof. revert acc. induction a; intros acc; simpl; [done|]. apply IHa. Qed.

Lemma pad_digits k n : sall is_digit (pad k n) = true.
Proof.
  revert n. induction k as [|k IH]; intros n; simpl; [done|]. rewrite sall_app, IH. simpl.
  destruct (digit_char_ok (n mod 10)) as [-> _]; [by apply Z.mod_pos_bound|done].
Qed.

Lemma pad_val k n : (0 ≤ n < 10 ^ Z.of_nat k)%Z → digits_val (pad k n) 0 = n.
Proof.
  revert n. induction k as [|k IH]; intros n Hn; [simpl in *; lia|].
  rewrite Nat2Z.inj_succ, Z.pow_succ_r in Hn by lia.
  cbn [pad]. rewrite digits_val_app, IH.
  - simpl. destruct (digit_char_ok (n mod 10)) as [_ ->]; [by apply Z.mod_pos_bound|].
    pose proof (Z.div_mod n 10). lia.
  - split; [apply Z.div_pos; lia|apply Z.div_lt_upper_bound; lia].
Qed.

Lemma take_digits_app a r :
  sall is_digit a = true → take_digits (String.length a) (a +:+ r) = Some (a, r).
Proof.
  induction a as [|c a IH]; simpl; [done|]. rewrite andb_true_iff. intros [-> Ha].
  by rewrite IH.
Qed.

Lemma read_num_pad k lo hi n r :
  (0 ≤ n < 10 ^ Z.of_nat k)%Z → (lo ≤ n ≤ hi)%Z →
  read_num k lo hi (pad k n +:+ r) = Some (n, r).
Proof.
  intros Hn Hr. unfold read_num. rewrite <- (pad_length k n) at 1.
  rewrite take_digits_app by apply pad_digits. rewrite pad_val by done.
  destruct (Z.leb_spec lo n), (Z.leb_spec n hi); [done|lia..].
Qed.

Lemma trim_zeros s :
  trim_right is_zero s +:+ zeros (String.length s - String.length (trim_right is_zero s)) = s.
Proof.
  induction s as [|c s IH]; simpl; [done|].
  destruct (trim_right is_zero s) as [|a t] eqn:E.
  - simpl in IH. rewrite Nat.sub_0_r in IH.
    destruct (is_zero c) eqn:Ez; simpl.
    + apply Ascii.eqb_eq in Ez as ->. by rewrite IH.
    + by rewrite Nat.sub_0_r, IH.
  - simpl in *. by rewrite IH.
Qed.

Lemma read_format_frac ns :
  (0 ≤ ns < 10 ^ 9)%Z → read_frac (format_frac ns +:+ "Z") = Some (ns, "Z").
Proof.
  intros Hns. unfold format_frac.
  pose proof (trim_zeros (pad 9 ns)) as Ht. rewrite pad_length in Ht.
  pose proof (trim_right_length is_zero (pad 9 ns)) as Hl. rewrite pad_length in Hl.
  pose proof (sall_trim_right is_digit is_zero _ (pad_digits 9 ns)) as Hd.
  destruct (trim_right is_zero (pad 9 ns)) as [|c t] eqn:E.
  - simpl. rewrite <- (pad_val 9 ns) by done. rewrite <- Ht. done.
  - change (("." +:+ String c t) +:+ "Z") with (String "." (String c t +:+ "Z")).
    unfold read_frac. rewrite span_app by done.
    assert (str_take 9 (String c t) = String c t) as ->.
    { rewrite <- (str_take_drop 9 (String c t)) at 2.
      assert (str_drop 9 (String c t) = "") as ->; [|by rewrite str_app_nil_r].
      pose proof (str_drop_length 9 (String c t)).
      destruct (str_drop 9 (String c t)); [done|simpl in *; lia]. }
    by rewrite Ht, pad_val.
Qed.

Lemma read_char_sep c r : read_char c (String c "" +:+ r) = Some r.
Proof. simpl. by rewrite Ascii.eqb_refl. Qed.

(** Reads one number and the separator after it. *)
Ltac read_field :=
  rewrite read_num_pad by lia; cbn [mbind option_bind];
  rewrite ?read_char_sep; cbn [mbind option_bind].

#[global] Arguments pad : simpl never.
#[global] Arguments format_frac : simpl never.

Lemma parse_format t s : format_time t = Some s → parse_time s = Some t.
Proof.
  unfold format_time. set (secs := (t / Second)%Z).
  pose proof (civil_ok (secs / 86400)) as Hc.
  destruct (civil_from_days (secs / 86400)) as [[y m] d]. destruct Hc as (Hm & Hd & Hdays).
  set (sod := (secs mod 86400)%Z).
  assert (0 ≤ sod < 86400)%Z as Hsod by (by apply Z.mod_pos_bound).
  destruct ((0 <=? y)%Z && (y <=? 9999)%Z) eqn:Hy; [|done].
  rewrite andb_true_iff in Hy. intros Hs%(inj Some). rewrite <- Hs. clear s Hs.
  assert (days_in y m ≤ 31)%Z by (unfold days_in; repeat case_match; lia).
  unfold parse_time.
  read_field.
  read_field.
  read_field.
  assert (0 ≤ sod / 3600 ≤ 23)%Z by (split; [apply Z.div_pos; lia|];
    assert (sod / 3600 < 24)%Z by (apply Z.div_lt_upper_bound; lia); lia).
  pose proof (Z.mod_pos_bound (sod / 60) 60 ltac:(done)).
  pose proof (Z.mod_pos_bound sod 60 ltac:(done)).
  read_field.
  read_field.
  read_field.
  rewrite read_format_frac by (by apply Z.mod_pos_bound). simpl. f_equal.
  rewrite Hdays. subst sod.
  pose proof (Z.div_mod t Second ltac:(done)). fold secs in H3.
  pose proof (Z.div_mod secs 86400 ltac:(done)).
  set (q := (secs mod 86400)%Z) in *.
  pose proof (Z.div_mod q 60 ltac:(done)). pose proof (Z.div_mod (q / 60) 60 ltac:(done)).
  rewrite (Z.div_div q 60 60) in H6 by done. change (60 * 60)%Z with 3600%Z in H6.
  unfold Second in *. lia.
Qed.

(** A moment is written as Go writes it. *)
Example format_example :
  format_time (1770000000 * Second + 120000000)%Z = Some "2026-02-02T02:40:00.12Z".
Proof. vm_compute. reflexivity. Qed.

Example parse_zone :
  parse_time "2026-02-02T04:40:00.12+02:00" = Some (1770000000 * Second + 120000000)%Z.
Proof. vm_compute. reflexivity. Qed.
