(* ===== verification/GoUrl.v ===== *)
(** * Go URLs

    [net/url.Parse], as far as the program uses it: whether the string parses, and the
    decoded path.  A bracketed host with a zone is not distinguished from one without. *)

From S2P Require Import Prelude GoStrings.

(** [strings.Cut(s, sep)]: what is before and after the first [sep], and whether there
    is one. *)
Definition cut (c : ascii) (s : string) : string * string * bool :=
  match index_char c s with
  | Some i => (str_take i s, str_drop (S i) s, true)
  | None => (s, EmptyString, false)
  end.

Definition is_letter (c : ascii) : bool := is_lower c || is_upper c.
Definition is_alnum (c : ascii) : bool := is_letter c || is_digit c.
Definition one_of (cs : string) (c : ascii) : bool :=
  match index_char c cs with Some _ => true | None => false end.

Definition is_hex_digit (c : ascii) : bool :=
  is_digit c || between "a"%char "f"%char c || between "A"%char "F"%char c.
Definition unhex (c : ascii) : nat :=
  if is_digit c then code c - 48
  else if between "a"%char "f"%char c then code c - 87 else code c - 55.

(** A control byte anywhere makes the parse fail. *)
Definition is_ctl (c : ascii) : bool := (code c <? 32)%nat || (code c =? 127)%nat.

(** [unescape]; [host] selects the stricter host rules. *)
Definition host_char (c : ascii) : bool :=
  is_alnum c || is_high c || one_of "-_.~!$&'()*+,;=:[]<>" c || (code c =? 34)%nat.

Fixpoint unescape (host : bool) (s : string) : option string :=
  match s with
  | EmptyString => Some EmptyString
  | String c s1 =>
    if Ascii.eqb c "%"%char then
      match s1 with
      | String a (String b s2) =>
        if is_hex_digit a && is_hex_digit b &&
           negb (host && (unhex a <? 8)%nat &&
                 negb (Ascii.eqb a "2"%char && Ascii.eqb b "5"%char))
        then String (Ascii.ascii_of_nat (16 * unhex a + unhex b)) <$> unescape host s2
        else None
      | _ => None
      end
    else if host && negb (host_char c) then None
    else String c <$> unescape host s1
  end.

(** [getScheme]: the scheme (empty when there is none) and the rest. *)
Fixpoint get_scheme_go (seen : string) (whole s : string) : option (string * string) :=
  match s with
  | EmptyString => Some (EmptyString, whole)
  | String c s' =>
    if is_letter c then get_scheme_go (seen +:+ String c EmptyString) whole s'
    else if is_digit c || one_of "+-." c then
      match seen with
      | EmptyString => Some (EmptyString, whole)
      | _ => get_scheme_go (seen +:+ String c EmptyString) whole s'
      end
    else if Ascii.eqb c ":"%char then
      match seen with
      | EmptyString => None
      | _ => Some (seen, s')
      end
    else Some (EmptyString, whole)
  end.
Definition get_scheme (s : string) : option (string * string) := get_scheme_go "" s s.

Definition valid_optional_port (s : string) : bool :=
  match s with
  | EmptyString => true
  | String c s' => Ascii.eqb c ":"%char && sall is_digit s'
  end.

Definition is_some {A} (o : option A) : bool :=
  match o with Some _ => true | None => false end.

Definition parse_host (h : string) : bool :=
  is_some (unescape true h) &&
  if has_prefix "[" h then
    match last_index_char "]"%char h with
    | Some i => valid_optional_port (str_drop (S i) h)
    | None => false
    end
  else
    match last_index_char ":"%char h with
    | Some i => valid_optional_port (str_drop i h)
    | None => true
    end.

Definition valid_userinfo (s : string) : bool :=
  sall (λ c, is_alnum c || one_of "-._:~!$&'()*+,;=%@" c) s.

Definition parse_authority (a : string) : bool :=
  match last_index_char "@"%char a with
  | None => parse_host a
  | Some i =>
    parse_host (str_drop (S i) a) && valid_userinfo (str_take i a) &&
    is_some (unescape false (str_take i a))
  end.

(** [u.Path] of [u, err := url.Parse(s)]; [None] when [err] is not nil. *)
Definition url_path (s : string) : option string :=
  let '(u, frag, _) := cut "#"%char s in
  if sall (λ c, negb (is_ctl c)) u then
    match unescape false frag, get_scheme u with
    | Some _, Some (scheme, rest) =>
      let '(rest, _, _) := cut "?"%char rest in
      if negb (has_prefix "/" rest) && negb (String.eqb scheme "") then Some EmptyString
      else if negb (has_prefix "/" rest) && contains ":" ((cut "/"%char rest).1.1)
      then None
      else if (negb (String.eqb scheme "") || negb (has_prefix "///" rest))
              && has_prefix "//" rest then
        let after := str_drop 2 rest in
        let '(authority, path) :=
          match index_char "/"%char after with
          | Some i => (str_take i after, str_drop i after)
          | None => (after, EmptyString)
          end in
        if parse_authority authority then unescape false path else None
      else unescape false rest
    | _, _ => None
    end
  else None.

Example url_https :
  url_path "https://git.example.com:8443/acme/My-App.git?x=1#top" = Some "/acme/My-App.git".
Proof. reflexivity. Qed.
Example url_bad_port : url_path "ssh://git@host:acme/app" = None.
Proof. reflexivity. Qed.
Example url_escape : url_path "https://h/a%20b/c" = Some "/a b/c".
Proof. reflexivity. Qed.

(** ** Plain strings *)

(** Bytes that no parsing step treats specially. *)
Definition plain (c : ascii) : bool := is_alnum c || one_of "-_." c.

Lemma index_char_none c s : no_char c s = true → index_char c s = None.
Proof.
  unfold no_char. induction s as [|a s IH]; simpl; [done|].
  rewrite andb_true_iff, negb_true_iff. intros [-> ?]. by rewrite IH.
Qed.

Lemma index_char_app c a b :
  no_char c a = true → index_char c (a +:+ String c b) = Some (String.length a).
Proof.
  unfold no_char. induction a as [|x a IH]; simpl; [by rewrite Ascii.eqb_refl|].
  rewrite andb_true_iff, negb_true_iff. intros [-> ?]. by rewrite IH.
Qed.

Lemma last_index_char_none c s : no_char c s = true → last_index_char c s = None.
Proof.
  unfold no_char. induction s as [|a s IH]; simpl; [done|].
  rewrite andb_true_iff, negb_true_iff. intros [-> ?]. by rewrite IH.
Qed.

Lemma last_index_char_app c a b :
  no_char c b = true → last_index_char c (a +:+ String c b) = Some (String.length a).
Proof.
  intros Hb. induction a as [|x a IH]; simpl.
  - by rewrite last_index_char_none, Ascii.eqb_refl.
  - by rewrite IH.
Qed.

Lemma plain_not (c : ascii) :
  plain c = false → ∀ s, sall plain s = true → no_char c s = true.
Proof.
  intros Hc s. apply sall_mono. intros a Ha.
  destruct (Ascii.eqb_spec a c); [congruence|done].
Qed.

Lemma unescape_no_percent s : no_char "%"%char s = true → unescape false s = Some s.
Proof.
  unfold no_char. induction s as [|c s IH]; simpl; [done|].
  rewrite andb_true_iff, negb_true_iff. intros [-> ?]. by rewrite IH.
Qed.

Lemma unescape_plain host s : sall plain s = true → unescape host s = Some s.
Proof.
  induction s as [|c s IH]; simpl; [done|]. rewrite andb_true_iff. intros [Hc Hs].
  assert (negb (Ascii.eqb c "%"%char) && host_char c = true) as Hp.
  { apply (ascii_imp plain (λ c, negb (Ascii.eqb c "%"%char) && host_char c));
      [reflexivity|done]. }
  apply andb_true_iff in Hp as [->%negb_true_iff ->]. rewrite andb_false_r.
  by rewrite IH.
Qed.

Lemma parse_host_plain h : sall plain h = true → parse_host h = true.
Proof.
  intros Hh. unfold parse_host. rewrite unescape_plain by done.
  change (is_some (Some h)) with true. rewrite andb_true_l.
  rewrite !last_index_char_none by (by apply plain_not).
  destruct (has_prefix "[" h) eqn:E; [|done].
  apply has_prefix_spec in E as [r ->]. discriminate Hh.
Qed.

Lemma get_scheme_go_letters seen whole s rest :
  sall is_letter s = true → seen +:+ s ≠ EmptyString →
  get_scheme_go seen whole (s +:+ String ":"%char rest) = Some (seen +:+ s, rest).
Proof.
  revert seen. induction s as [|c s IH]; intros seen Hs Hne; simpl.
  - rewrite str_app_nil_r in *. by destruct seen.
  - simpl in Hs. apply andb_true_iff in Hs as [-> Hs]. rewrite IH, str_app_assoc; try done.
    rewrite str_app_assoc. by destruct seen.
Qed.

Lemma cut_none c s : no_char c s = true → cut c s = (s, EmptyString, false).
Proof. intros. unfold cut. by rewrite index_char_none. Qed.

(** Bytes of an ordinary address. *)
Definition path_char (c : ascii) : bool := plain c || Ascii.eqb c "/"%char.
Definition url_char (c : ascii) : bool := path_char c || Ascii.eqb c ":"%char.

Lemma url_char_not (c : ascii) s :
  url_char c = false → sall url_char s = true → no_char c s = true.
Proof.
  intros Hc. apply sall_mono. intros a Ha.
  destruct (Ascii.eqb_spec a c); [congruence|done].
Qed.

Lemma letter_url c : is_letter c = true → url_char c = true.
Proof. apply (ascii_imp is_letter url_char). reflexivity. Qed.

Lemma plain_url c : plain c = true → url_char c = true.
Proof. unfold url_char, path_char. by intros ->. Qed.

Lemma path_url c : path_char c = true → url_char c = true.
Proof. unfold url_char. by intros ->. Qed.

Lemma url_not_ctl c : url_char c = true → negb (is_ctl c) = true.
Proof. apply (ascii_imp url_char (λ c, negb (is_ctl c))). reflexivity. Qed.

(** The path of an ordinary [scheme://host/path] address. *)
Lemma url_path_plain scheme host path :
  sall is_letter scheme = true → scheme ≠ EmptyString → sall plain host = true →
  sall path_char path = true →
  url_path (scheme +:+ "://" +:+ host +:+ "/" +:+ path) = Some ("/" +:+ path).
Proof.
  intros Hs Hne Hh Hp.
  assert (sall url_char (host +:+ "/" +:+ path) = true) as Hrest.
  { rewrite sall_app, (sall_mono plain url_char host) by auto using plain_url.
    by apply (sall_mono path_char url_char path path_url). }
  assert (sall url_char (scheme +:+ "://" +:+ host +:+ "/" +:+ path) = true) as Hall.
  { rewrite sall_app, (sall_mono is_letter url_char scheme) by auto using letter_url.
    done. }
  unfold url_path. rewrite cut_none by (by apply url_char_not).
  rewrite (sall_mono url_char) by (done || apply url_not_ctl).
  set (rest := "//" +:+ host +:+ "/" +:+ path).
  assert (get_scheme (scheme +:+ "://" +:+ host +:+ "/" +:+ path) = Some (scheme, rest))
    as ->.
  { apply (get_scheme_go_letters "" _ scheme rest); by destruct scheme. }
  change (unescape false "") with (Some ""). cbv iota beta zeta.
  rewrite (cut_none _ rest) by (by apply (url_char_not _ ("//" +:+ host +:+ "/" +:+ path))).
  destruct (String.eqb_spec scheme ""); [done|].
  change (has_prefix "/" rest) with true.
  rewrite (prefix_app "//" (host +:+ "/" +:+ path) : has_prefix "//" rest = true).
  change (str_drop 2 rest) with (host +:+ String "/" path). simpl.
  rewrite index_char_app by (by apply plain_not).
  rewrite str_take_app, str_drop_app. unfold parse_authority.
  rewrite last_index_char_none, parse_host_plain by (done || by apply plain_not).
  apply (unescape_no_percent (String "/" path)). unfold no_char. simpl.
  apply (sall_mono path_char); [|done].
  apply (ascii_imp path_char (λ c, negb (Ascii.eqb c "%"%char))). reflexivity.
Qed.
