(* ===== verification/GoText.v ===== *)
(** * Text: searching, replacing and formatting

    [strings.Index], [strings.ReplaceAll] and relatives for a non-empty substring,
    [fmt.Sprintf] with the verbs the program uses, and the text of an error.  A string
    argument of [%q] is quoted as [strconv.Quote] does; bytes of 128 or more are taken to
    be printable. *)

From S2P Require Import Prelude GoStrings Sha256 Json Kube.

(** [strings.Index] *)
Fixpoint index_str (p s : string) : option nat :=
  if has_prefix p s then Some 0
  else match s with
       | EmptyString => None
       | String _ s' => S <$> index_str p s'
       end.

(** [strings.IndexAny] for a predicate on bytes. *)
Fixpoint index_any (f : ascii → bool) (s : string) : option nat :=
  match s with
  | EmptyString => None
  | String c s' => if f c then Some 0 else S <$> index_any f s'
  end.

(** Occurrences are replaced from the left and do not overlap; [skip] bytes of the last
    one remain. *)
Fixpoint replace_from (skip : nat) (old new s : string) : string :=
  match s with
  | EmptyString => EmptyString
  | String c s' =>
    match skip with
    | S skip => replace_from skip old new s'
    | O => if has_prefix old s then new +:+ replace_from (String.length old - 1) old new s'
           else String c (replace_from 0 old new s')
    end
  end.

(** [strings.ReplaceAll(s, old, new)] *)
Definition replace_all (s old new : string) : string := replace_from 0 old new s.

(** ** Formatting *)

(** The escape of one byte in [strconv.Quote]. *)
Definition go_escape (c : ascii) : string :=
  let n := code c in
  if (n =? 34)%nat then String (chr 92) (String c "")
  else if (n =? 92)%nat then String c (String c "")
  else if (n =? 7)%nat then String (chr 92) "a"
  else if (n =? 8)%nat then String (chr 92) "b"
  else if (n =? 12)%nat then String (chr 92) "f"
  else if (n =? 10)%nat then String (chr 92) "n"
  else if (n =? 13)%nat then String (chr 92) "r"
  else if (n =? 9)%nat then String (chr 92) "t"
  else if (n =? 11)%nat then String (chr 92) "v"
  else if (n <? 32)%nat || (n =? 127)%nat
  then String (chr 92) (String "x" (Sha256.hex_encode [N.of_nat n]))
  else String c "".

Fixpoint go_quote_body (s : string) : string :=
  match s with
  | EmptyString => EmptyString
  | String c s' => go_escape c +:+ go_quote_body s'
  end.

(** [strconv.Quote] *)
Definition go_quote (s : string) : string :=
  String (chr 34) (go_quote_body s +:+ String (chr 34) "").

(** [fmt.Sprintf] on arguments given as text: [%q] quotes, the other verbs insert. *)
Fixpoint sprintf (fmt : string) (args : list string) : string :=
  match fmt with
  | String "%" (String v fmt') =>
    match args with
    | a :: args' => (if Ascii.eqb v "q"%char then go_quote a else a) +:+ sprintf fmt' args'
    | [] => String "%" (String v (sprintf fmt' args))
    end
  | String c fmt' => String c (sprintf fmt' args)
  | EmptyString => EmptyString
  end.

(** [err.Error()]; the wrapped error is the last argument. *)
Fixpoint error_text (e : error) : string :=
  match e with
  | KubeError _ msg => msg
  | Sentinel name => name
  | Errorf fmt args => sprintf fmt args
  | Wrapf fmt args cause => sprintf fmt (args ++ [error_text cause])
  | Typed _ msg => msg
  end.

Example replaced : replace_all "a${x}b${x}c" "${x}" "1" = "a1b1c".
Proof. reflexivity. Qed.
Example formatted : sprintf "project %q has %d apps" ["shop"; "2"] =
  "project " +:+ go_quote "shop" +:+ " has 2 apps".
Proof. reflexivity. Qed.

(** ** Facts *)

Lemma has_prefix_app p s : has_prefix p (p +:+ s) = true.
Proof. apply prefix_app. Qed.

Lemma has_prefix_split p s : has_prefix p s = true → s = p +:+ str_drop (String.length p) s.
Proof. intros [r ->]%has_prefix_spec. by rewrite str_drop_app. Qed.

Lemma index_str_split p s n :
  index_str p s = Some n →
  s = str_take n s +:+ p +:+ str_drop (n + String.length p) s.
Proof.
  revert n. induction s as [|c s IH]; intros n.
  - destruct p; [by intros [= <-]|done].
  - cbn [index_str]. destruct (has_prefix p (String c s)) eqn:E.
    + intros [= <-]. by apply has_prefix_split in E.
    + destruct (index_str p s) as [m|] eqn:Em; [|done]. intros [= <-]. simpl.
      f_equal. by apply IH.
Qed.

Lemma index_str_none p s a b : index_str p s = None → s ≠ a +:+ p +:+ b.
Proof.
  revert a. induction s as [|c s IH]; intros a.
  - destruct p; [done|]. intros _ H. by destruct a.
  - cbn [index_str]. destruct (has_prefix p (String c s)) eqn:E; [done|].
    destruct (index_str p s) eqn:Em; [done|]. intros _ H.
    destruct a as [|d a]; simpl in H.
    + rewrite H, has_prefix_app in E. done.
    + simplify_eq. by apply (IH a).
Qed.

(** Counting a byte. *)
Fixpoint count_char (c : ascii) (s : string) : nat :=
  match s with
  | EmptyString => 0
  | String a s' => (if Ascii.eqb a c then 1 else 0) + count_char c s'
  end.

Lemma count_char_app c a b : count_char c (a +:+ b) = count_char c a + count_char c b.
Proof. induction a as [|x a IH]; simpl; [done|]. rewrite IH. lia. Qed.

Lemma count_char_length c s : (count_char c s ≤ String.length s)%nat.
Proof. induction s as [|x s IH]; simpl; [done|]. destruct (Ascii.eqb x c); lia. Qed.

Lemma replace_from_skip old new a b :
  replace_from (String.length a) old new (a +:+ b) = replace_from 0 old new b.
Proof. induction a as [|c a IH]; simpl; [done|]. apply IH. Qed.

Lemma replace_from_prefix old new s :
  old ≠ "" → replace_from 0 old new (old +:+ s) = new +:+ replace_from 0 old new s.
Proof.
  destruct old as [|c old]; [done|]. intros _.
  change (String c old +:+ s) with (String c (old +:+ s)). cbn [replace_from].
  assert (has_prefix (String c old) (String c (old +:+ s)) = true) as ->
    by apply (has_prefix_app (String c old)).
  f_equal. replace (String.length (String c old) - 1) with (String.length old) by (simpl; lia).
  apply replace_from_skip.
Qed.

(** Replacing something by something without a byte it contains removes that byte. *)
Lemma replace_from_count c old new s :
  old ≠ "" → count_char c new = 0 →
  (count_char c (replace_from 0 old new s) ≤ count_char c s)%nat ∧
  (∀ a b, s = a +:+ old +:+ b →
     (count_char c (replace_from 0 old new s) + count_char c old ≤ count_char c s)%nat).
Proof.
  intros Hold Hnew. remember (String.length s) as n eqn:Hn. revert s Hn.
  induction n as [n IH] using lt_wf_ind. intros s ->.
  destruct s as [|x s].
  { split; [done|]. intros a b H. destruct a; [|done]. by destruct old. }
  destruct (has_prefix old (String x s)) eqn:E.
  - apply has_prefix_split in E. set (t := str_drop (String.length old) (String x s)) in E.
    rewrite E, replace_from_prefix, !count_char_app, Hnew by done.
    assert (count_char c (replace_from 0 old new t) ≤ count_char c t)%nat.
    { apply (IH (String.length t)); [|done]. rewrite E, str_app_length.
      destruct old; simpl; [done|lia]. }
    split; [lia|]. intros. lia.
  - cbn [replace_from]. rewrite E. cbn [count_char].
    destruct (IH (String.length s) ltac:(simpl; lia) s eq_refl) as [H1 H2].
    split; [lia|]. intros a b H. destruct a as [|y a]; simpl in H.
    + rewrite H, has_prefix_app in E. done.
    + simplify_eq. specialize (H2 a b eq_refl). lia.
Qed.
