(* ===== verification/Core.v ===== *)
(** * Core objects

    The two core/v1 kinds whose contents the program reads and writes: Secrets and
    ConfigMaps.  A [[]byte] value is a byte string. *)

From S2P Require Import Prelude GoStrings Kube.

Record Secret := { sec_meta : ObjectMeta; sec_Type : string; sec_Data : gmap string string }.
Record ConfigMap := { cm_meta : ObjectMeta; cm_Data : gmap string string }.

#[export] Instance Secret_eq_dec : EqDecision Secret.
Proof. solve_decision. Defined.

#[export] Instance Secret_object : KubeObject Secret :=
  {| obj_meta := sec_meta; set_meta m s := {| sec_meta := m; sec_Type := sec_Type s; sec_Data := sec_Data s |} |}.
#[export] Instance Secret_object_ok : KubeObjectOk Secret.
Proof. by split; try intros ? ? []; try intros []. Qed.

#[export] Instance ConfigMap_object : KubeObject ConfigMap :=
  {| obj_meta := cm_meta; set_meta m c := {| cm_meta := m; cm_Data := cm_Data c |} |}.
#[export] Instance ConfigMap_object_ok : KubeObjectOk ConfigMap.
Proof. by split; try intros ? ? []; try intros []. Qed.

(** Field updates of a Secret. *)
Definition with_data (d : gmap string string) (s : Secret) : Secret :=
  {| sec_meta := sec_meta s; sec_Type := sec_Type s; sec_Data := d |}.

Definition sec_Labels (s : Secret) : gmap string string := meta_Labels (sec_meta s).
Definition sec_Annotations (s : Secret) : gmap string string :=
  meta_Annotations (sec_meta s).

Definition sec_with_labels (l : gmap string string) (s : Secret) : Secret :=
  set_meta (with_labels l (sec_meta s)) s.
Definition sec_with_annotations (a : gmap string string) (s : Secret) : Secret :=
  set_meta (with_annotations a (sec_meta s)) s.

Lemma sec_Data_with_rv rv (s : Secret) : sec_Data (obj_with_rv rv s) = sec_Data s.
Proof. done. Qed.
Lemma sec_Annotations_with_rv rv (s : Secret) :
  sec_Annotations (obj_with_rv rv s) = sec_Annotations s.
Proof. done. Qed.

(** A Namespace: only its metadata is used. *)
Record Namespace := { ns_meta : ObjectMeta }.
#[export] Instance Namespace_object : KubeObject Namespace :=
  {| obj_meta := ns_meta; set_meta m _ := {| ns_meta := m |} |}.
#[export] Instance Namespace_object_ok : KubeObjectOk Namespace.
Proof. by split; try intros ? ? []; try intros []. Qed.

(** An RBAC role binding. *)
Record RoleRef := { rr_APIGroup : string; rr_Kind : string; rr_Name : string }.
Record Subject := { sub_Kind : string; sub_APIGroup : string; sub_Name : string; sub_Namespace : string }.
#[export] Instance RoleRef_eq_dec : EqDecision RoleRef.
Proof. solve_decision. Defined.
#[export] Instance Subject_eq_dec : EqDecision Subject.
Proof. solve_decision. Defined.
Record RoleBinding := { rb_meta : ObjectMeta; rb_RoleRef : RoleRef; rb_Subjects : list Subject }.
#[export] Instance RoleBinding_object : KubeObject RoleBinding :=
  {| obj_meta := rb_meta;
     set_meta m b := {| rb_meta := m; rb_RoleRef := rb_RoleRef b; rb_Subjects := rb_Subjects b |} |}.
#[export] Instance RoleBinding_object_ok : KubeObjectOk RoleBinding.
Proof. by split; try intros ? ? []; try intros []. Qed.
