(* ===== verification/Api.v ===== *)
(** * The custom resources: [api/v1alpha1]

    The Go structs of the Mortise API, field by field.  A struct [T] is a record whose
    field [F] is the projection [T_F]; [T_zero] is its zero value and [with_T_F] the
    assignment to one field.  A pointer is an [option], a slice a [list], a map a
    [gmap], a quantity its text and a named string type an abbreviation of [string], as
    the Go code compares such values as strings.  [TypeMeta] is omitted: the kind of an
    object is its type. *)

From S2P Require Import Prelude GoStrings Kube.

(** [metav1.Condition]. *)
Record Condition := {
  Condition_Type : string;
  Condition_Status : string;
  Condition_ObservedGeneration : Z;
  Condition_LastTransitionTime : Time;
  Condition_Reason : string;
  Condition_Message : string;
}.
#[export] Instance Condition_eq_dec : EqDecision Condition.
Proof. solve_decision. Defined.
Definition Condition_zero : Condition :=
  {| Condition_Type := ""; Condition_Status := ""; Condition_ObservedGeneration := 0;
     Condition_LastTransitionTime := 0; Condition_Reason := ""; Condition_Message := "" |}.

Abbreviation BuildRunPhase := string (only parsing).
Definition BuildRunPhasePending : BuildRunPhase := "Pending".
Definition BuildRunPhaseRunning : BuildRunPhase := "Running".
Definition BuildRunPhaseSucceeded : BuildRunPhase := "Succeeded".
Definition BuildRunPhaseFailed : BuildRunPhase := "Failed".
Definition BuildRunTargetAppEnvironment : string := "AppEnvironment".

Record BuildRunReference := {
  BuildRunReference_Name : string;
  BuildRunReference_Phase : BuildRunPhase;
}.
#[export] Instance BuildRunReference_eq_dec : EqDecision BuildRunReference.
Proof. solve_decision. Defined.
Definition BuildRunReference_zero : BuildRunReference :=
  {|
    BuildRunReference_Name := ""; BuildRunReference_Phase := ""
  |}.

Abbreviation SourceType := string (only parsing).
Definition SourceTypeGit : SourceType := "git".
Definition SourceTypeImage : SourceType := "image".
Definition SourceTypeExternal : SourceType := "external".

Abbreviation AppKind := string (only parsing).
Definition AppKindService : AppKind := "service".
Definition AppKindCron : AppKind := "cron".

Abbreviation ConcurrencyPolicy := string (only parsing).
Definition ConcurrencyPolicyAllow : ConcurrencyPolicy := "Allow".
Definition ConcurrencyPolicyForbid : ConcurrencyPolicy := "Forbid".
Definition ConcurrencyPolicyReplace : ConcurrencyPolicy := "Replace".

Abbreviation BuildMode := string (only parsing).
Definition BuildModeAuto : BuildMode := "auto".
Definition BuildModeDockerfile : BuildMode := "dockerfile".
Definition BuildModeRailpack : BuildMode := "railpack".

Abbreviation BuildContext := string (only parsing).
Definition BuildContextRoot : BuildContext := "root".
Definition BuildContextSubdir : BuildContext := "subdir".

Record ExternalSource := {
  ExternalSource_Host : string;
  ExternalSource_Port : Z;
}.
#[export] Instance ExternalSource_eq_dec : EqDecision ExternalSource.
Proof. solve_decision. Defined.
Definition ExternalSource_zero : ExternalSource :=
  {|
    ExternalSource_Host := ""; ExternalSource_Port := 0
  |}.

Record Build := {
  Build_Mode : BuildMode;
  Build_DockerfilePath : string;
  Build_Context : BuildContext;
  Build_Cache : option bool;
  Build_Args : gmap string string;
}.
#[export] Instance Build_eq_dec : EqDecision Build.
Proof. solve_decision. Defined.
Definition Build_zero : Build :=
  {|
    Build_Mode := ""; Build_DockerfilePath := ""; Build_Context := "";
    Build_Cache := None; Build_Args := ∅
  |}.

Record AppSource := {
  AppSource_Type : SourceType;
  AppSource_Repo : string;
  AppSource_Branch : string;
  AppSource_Path : string;
  AppSource_WatchPaths : list string;
  AppSource_Build : option Build;
  AppSource_ProviderRef : string;
  AppSource_Image : string;
  AppSource_PullSecretRef : string;
  AppSource_External : option ExternalSource;
}.
#[export] Instance AppSource_eq_dec : EqDecision AppSource.
Proof. solve_decision. Defined.
Definition AppSource_zero : AppSource :=
  {|
    AppSource_Type := ""; AppSource_Repo := ""; AppSource_Branch := "";
    AppSource_Path := ""; AppSource_WatchPaths := []; AppSource_Build := None;
    AppSource_ProviderRef := ""; AppSource_Image := ""; AppSource_PullSecretRef := "";
    AppSource_External := None
  |}.
Definition with_AppSource_Image (v : string) (x : AppSource) : AppSource :=
  {|
    AppSource_Type := AppSource_Type x; AppSource_Repo := AppSource_Repo x;
    AppSource_Branch := AppSource_Branch x; AppSource_Path := AppSource_Path x;
    AppSource_WatchPaths := AppSource_WatchPaths x; AppSource_Build := AppSource_Build x;
    AppSource_ProviderRef := AppSource_ProviderRef x; AppSource_Image := v;
    AppSource_PullSecretRef := AppSource_PullSecretRef x;
    AppSource_External := AppSource_External x
  |}.
Definition with_AppSource_Repo (v : string) (x : AppSource) : AppSource :=
  {|
    AppSource_Type := AppSource_Type x; AppSource_Repo := v;
    AppSource_Branch := AppSource_Branch x; AppSource_Path := AppSource_Path x;
    AppSource_WatchPaths := AppSource_WatchPaths x; AppSource_Build := AppSource_Build x;
    AppSource_ProviderRef := AppSource_ProviderRef x; AppSource_Image := AppSource_Image x;
    AppSource_PullSecretRef := AppSource_PullSecretRef x;
    AppSource_External := AppSource_External x
  |}.
Definition with_AppSource_Type (v : SourceType) (x : AppSource) : AppSource :=
  {|
    AppSource_Type := v; AppSource_Repo := AppSource_Repo x;
    AppSource_Branch := AppSource_Branch x; AppSource_Path := AppSource_Path x;
    AppSource_WatchPaths := AppSource_WatchPaths x; AppSource_Build := AppSource_Build x;
    AppSource_ProviderRef := AppSource_ProviderRef x; AppSource_Image := AppSource_Image x;
    AppSource_PullSecretRef := AppSource_PullSecretRef x;
    AppSource_External := AppSource_External x
  |}.
Definition with_AppSource_Branch (v : string) (x : AppSource) : AppSource :=
  {|
    AppSource_Type := AppSource_Type x; AppSource_Repo := AppSource_Repo x;
    AppSource_Branch := v; AppSource_Path := AppSource_Path x;
    AppSource_WatchPaths := AppSource_WatchPaths x;
    AppSource_Build := AppSource_Build x;
    AppSource_ProviderRef := AppSource_ProviderRef x;
    AppSource_Image := AppSource_Image x;
    AppSource_PullSecretRef := AppSource_PullSecretRef x;
    AppSource_External := AppSource_External x
  |}.

Record NetworkConfig := {
  NetworkConfig_Public : bool;
  NetworkConfig_Port : Z;
}.
#[export] Instance NetworkConfig_eq_dec : EqDecision NetworkConfig.
Proof. solve_decision. Defined.
Definition NetworkConfig_zero : NetworkConfig :=
  {|
    NetworkConfig_Public := false; NetworkConfig_Port := 0
  |}.

Record VolumeSpec := {
  VolumeSpec_Name : string;
  VolumeSpec_MountPath : string;
  VolumeSpec_Size : string;
  VolumeSpec_StorageClass : string;
  VolumeSpec_AccessMode : string;
}.
#[export] Instance VolumeSpec_eq_dec : EqDecision VolumeSpec.
Proof. solve_decision. Defined.
Definition VolumeSpec_zero : VolumeSpec :=
  {|
    VolumeSpec_Name := ""; VolumeSpec_MountPath := ""; VolumeSpec_Size := "";
    VolumeSpec_StorageClass := ""; VolumeSpec_AccessMode := ""
  |}.
Definition with_VolumeSpec_Size (v : string) (x : VolumeSpec) : VolumeSpec :=
  {|
    VolumeSpec_Name := VolumeSpec_Name x; VolumeSpec_MountPath := VolumeSpec_MountPath x;
    VolumeSpec_Size := v; VolumeSpec_StorageClass := VolumeSpec_StorageClass x;
    VolumeSpec_AccessMode := VolumeSpec_AccessMode x
  |}.
Definition with_VolumeSpec_MountPath (v : string) (x : VolumeSpec) : VolumeSpec :=
  {|
    VolumeSpec_Name := VolumeSpec_Name x; VolumeSpec_MountPath := v;
    VolumeSpec_Size := VolumeSpec_Size x;
    VolumeSpec_StorageClass := VolumeSpec_StorageClass x;
    VolumeSpec_AccessMode := VolumeSpec_AccessMode x
  |}.
Definition with_VolumeSpec_Name (v : string) (x : VolumeSpec) : VolumeSpec :=
  {|
    VolumeSpec_Name := v; VolumeSpec_MountPath := VolumeSpec_MountPath x;
    VolumeSpec_Size := VolumeSpec_Size x;
    VolumeSpec_StorageClass := VolumeSpec_StorageClass x;
    VolumeSpec_AccessMode := VolumeSpec_AccessMode x
  |}.

Record ConfigFile := {
  ConfigFile_Path : string;
  ConfigFile_Content : string;
}.
#[export] Instance ConfigFile_eq_dec : EqDecision ConfigFile.
Proof. solve_decision. Defined.
Definition ConfigFile_zero : ConfigFile :=
  {|
    ConfigFile_Path := ""; ConfigFile_Content := ""
  |}.

Abbreviation SecurityProfile := string (only parsing).
Definition SecurityProfileRestricted : SecurityProfile := "restricted".

Record BindingVarSource := {
  BindingVarSource_Ref : string;
  BindingVarSource_Key : string;
}.
#[export] Instance BindingVarSource_eq_dec : EqDecision BindingVarSource.
Proof. solve_decision. Defined.
Definition BindingVarSource_zero : BindingVarSource :=
  {|
    BindingVarSource_Ref := ""; BindingVarSource_Key := ""
  |}.

Record EnvVarSource := {
  EnvVarSource_SecretRef : string;
  EnvVarSource_FromBinding : option BindingVarSource;
}.
#[export] Instance EnvVarSource_eq_dec : EqDecision EnvVarSource.
Proof. solve_decision. Defined.
Definition EnvVarSource_zero : EnvVarSource :=
  {|
    EnvVarSource_SecretRef := ""; EnvVarSource_FromBinding := None
  |}.

Record EnvVar := {
  EnvVar_Name : string;
  EnvVar_Value : string;
  EnvVar_ValueFrom : option EnvVarSource;
}.
#[export] Instance EnvVar_eq_dec : EqDecision EnvVar.
Proof. solve_decision. Defined.
Definition EnvVar_zero : EnvVar :=
  {|
    EnvVar_Name := ""; EnvVar_Value := ""; EnvVar_ValueFrom := None
  |}.

Record SecretKeyRef := {
  SecretKeyRef_Name : string;
  SecretKeyRef_Key : string;
}.
#[export] Instance SecretKeyRef_eq_dec : EqDecision SecretKeyRef.
Proof. solve_decision. Defined.
Definition SecretKeyRef_zero : SecretKeyRef :=
  {|
    SecretKeyRef_Name := ""; SecretKeyRef_Key := ""
  |}.

Record CredentialSource := {
  CredentialSource_SecretRef : option SecretKeyRef;
}.
#[export] Instance CredentialSource_eq_dec : EqDecision CredentialSource.
Proof. solve_decision. Defined.
Definition CredentialSource_zero : CredentialSource :=
  {|
    CredentialSource_SecretRef := None
  |}.

Record Credential := {
  Credential_Name : string;
  Credential_Value : string;
  Credential_ValueFrom : option CredentialSource;
}.
#[export] Instance Credential_eq_dec : EqDecision Credential.
Proof. solve_decision. Defined.
Definition Credential_zero : Credential :=
  {|
    Credential_Name := ""; Credential_Value := ""; Credential_ValueFrom := None
  |}.

Record Binding := {
  Binding_Ref : string;
}.
#[export] Instance Binding_eq_dec : EqDecision Binding.
Proof. solve_decision. Defined.
Definition Binding_zero : Binding :=
  {|
    Binding_Ref := ""
  |}.

Record ResourceRequirements := {
  ResourceRequirements_CPU : string;
  ResourceRequirements_Memory : string;
  ResourceRequirements_CPULimit : string;
  ResourceRequirements_MemoryLimit : string;
}.
#[export] Instance ResourceRequirements_eq_dec : EqDecision ResourceRequirements.
Proof. solve_decision. Defined.
Definition ResourceRequirements_zero : ResourceRequirements :=
  {|
    ResourceRequirements_CPU := ""; ResourceRequirements_Memory := "";
    ResourceRequirements_CPULimit := ""; ResourceRequirements_MemoryLimit := ""
  |}.
Definition with_ResourceRequirements_Memory (v : string) (x : ResourceRequirements) : ResourceRequirements :=
  {|
    ResourceRequirements_CPU := ResourceRequirements_CPU x;
    ResourceRequirements_Memory := v;
    ResourceRequirements_CPULimit := ResourceRequirements_CPULimit x;
    ResourceRequirements_MemoryLimit := ResourceRequirements_MemoryLimit x
  |}.
Definition with_ResourceRequirements_CPU (v : string) (x : ResourceRequirements) : ResourceRequirements :=
  {|
    ResourceRequirements_CPU := v;
    ResourceRequirements_Memory := ResourceRequirements_Memory x;
    ResourceRequirements_CPULimit := ResourceRequirements_CPULimit x;
    ResourceRequirements_MemoryLimit := ResourceRequirements_MemoryLimit x
  |}.

Record ProbeConfig := {
  ProbeConfig_Enabled : option bool;
  ProbeConfig_Path : string;
  ProbeConfig_Port : Z;
  ProbeConfig_InitialDelaySeconds : Z;
  ProbeConfig_PeriodSeconds : Z;
  ProbeConfig_TimeoutSeconds : Z;
  ProbeConfig_FailureThreshold : Z;
}.
#[export] Instance ProbeConfig_eq_dec : EqDecision ProbeConfig.
Proof. solve_decision. Defined.
Definition ProbeConfig_zero : ProbeConfig :=
  {|
    ProbeConfig_Enabled := None; ProbeConfig_Path := ""; ProbeConfig_Port := 0;
    ProbeConfig_InitialDelaySeconds := 0; ProbeConfig_PeriodSeconds := 0;
    ProbeConfig_TimeoutSeconds := 0; ProbeConfig_FailureThreshold := 0
  |}.
Definition with_ProbeConfig_Path (v : string) (x : ProbeConfig) : ProbeConfig :=
  {|
    ProbeConfig_Enabled := ProbeConfig_Enabled x; ProbeConfig_Path := v;
    ProbeConfig_Port := ProbeConfig_Port x;
    ProbeConfig_InitialDelaySeconds := ProbeConfig_InitialDelaySeconds x;
    ProbeConfig_PeriodSeconds := ProbeConfig_PeriodSeconds x;
    ProbeConfig_TimeoutSeconds := ProbeConfig_TimeoutSeconds x;
    ProbeConfig_FailureThreshold := ProbeConfig_FailureThreshold x
  |}.

Record KeyToPath := {
  KeyToPath_Key : string;
  KeyToPath_Path : string;
  KeyToPath_Mode : option Z;
}.
#[export] Instance KeyToPath_eq_dec : EqDecision KeyToPath.
Proof. solve_decision. Defined.
Definition KeyToPath_zero : KeyToPath :=
  {|
    KeyToPath_Key := ""; KeyToPath_Path := ""; KeyToPath_Mode := None
  |}.

Record SecretMount := {
  SecretMount_Name : string;
  SecretMount_Secret : string;
  SecretMount_Path : string;
  SecretMount_Items : list KeyToPath;
  SecretMount_ReadOnly : option bool;
}.
#[export] Instance SecretMount_eq_dec : EqDecision SecretMount.
Proof. solve_decision. Defined.
Definition SecretMount_zero : SecretMount :=
  {|
    SecretMount_Name := ""; SecretMount_Secret := ""; SecretMount_Path := "";
    SecretMount_Items := []; SecretMount_ReadOnly := None
  |}.

Record EnvTLSConfig := {
  EnvTLSConfig_SecretName : string;
  EnvTLSConfig_ClusterIssuer : string;
}.
#[export] Instance EnvTLSConfig_eq_dec : EqDecision EnvTLSConfig.
Proof. solve_decision. Defined.
Definition EnvTLSConfig_zero : EnvTLSConfig :=
  {|
    EnvTLSConfig_SecretName := ""; EnvTLSConfig_ClusterIssuer := ""
  |}.

Record Environment := {
  Environment_Name : string;
  Environment_Enabled : option bool;
  Environment_Branch : string;
  Environment_Replicas : option Z;
  Environment_Resources : ResourceRequirements;
  Environment_LivenessProbe : option ProbeConfig;
  Environment_ReadinessProbe : option ProbeConfig;
  Environment_StartupProbe : option ProbeConfig;
  Environment_Env : list EnvVar;
  Environment_Bindings : list Binding;
  Environment_Domain : string;
  Environment_CustomDomains : list string;
  Environment_Schedule : string;
  Environment_ConcurrencyPolicy : ConcurrencyPolicy;
  Environment_SecretMounts : list SecretMount;
  Environment_Annotations : gmap string string;
  Environment_TLS : option EnvTLSConfig;
  Environment_BuildArgs : gmap string string;
  Environment_Image : string;
}.
#[export] Instance Environment_eq_dec : EqDecision Environment.
Proof. solve_decision. Defined.
Definition Environment_zero : Environment :=
  {|
    Environment_Name := ""; Environment_Enabled := None; Environment_Branch := "";
    Environment_Replicas := None; Environment_Resources := ResourceRequirements_zero;
    Environment_LivenessProbe := None; Environment_ReadinessProbe := None;
    Environment_StartupProbe := None; Environment_Env := [];
    Environment_Bindings := []; Environment_Domain := "";
    Environment_CustomDomains := []; Environment_Schedule := "";
    Environment_ConcurrencyPolicy := ""; Environment_SecretMounts := [];
    Environment_Annotations := ∅; Environment_TLS := None; Environment_BuildArgs := ∅;
    Environment_Image := ""
  |}.
Definition with_Environment_BuildArgs (v : gmap string string) (x : Environment) : Environment :=
  {|
    Environment_Name := Environment_Name x; Environment_Enabled := Environment_Enabled x;
    Environment_Branch := Environment_Branch x;
    Environment_Replicas := Environment_Replicas x;
    Environment_Resources := Environment_Resources x;
    Environment_LivenessProbe := Environment_LivenessProbe x;
    Environment_ReadinessProbe := Environment_ReadinessProbe x;
    Environment_StartupProbe := Environment_StartupProbe x;
    Environment_Env := Environment_Env x; Environment_Bindings := Environment_Bindings x;
    Environment_Domain := Environment_Domain x;
    Environment_CustomDomains := Environment_CustomDomains x;
    Environment_Schedule := Environment_Schedule x;
    Environment_ConcurrencyPolicy := Environment_ConcurrencyPolicy x;
    Environment_SecretMounts := Environment_SecretMounts x;
    Environment_Annotations := Environment_Annotations x;
    Environment_TLS := Environment_TLS x; Environment_BuildArgs := v;
    Environment_Image := Environment_Image x
  |}.
Definition with_Environment_Annotations (v : gmap string string) (x : Environment) : Environment :=
  {|
    Environment_Name := Environment_Name x; Environment_Enabled := Environment_Enabled x;
    Environment_Branch := Environment_Branch x;
    Environment_Replicas := Environment_Replicas x;
    Environment_Resources := Environment_Resources x;
    Environment_LivenessProbe := Environment_LivenessProbe x;
    Environment_ReadinessProbe := Environment_ReadinessProbe x;
    Environment_StartupProbe := Environment_StartupProbe x;
    Environment_Env := Environment_Env x; Environment_Bindings := Environment_Bindings x;
    Environment_Domain := Environment_Domain x;
    Environment_CustomDomains := Environment_CustomDomains x;
    Environment_Schedule := Environment_Schedule x;
    Environment_ConcurrencyPolicy := Environment_ConcurrencyPolicy x;
    Environment_SecretMounts := Environment_SecretMounts x; Environment_Annotations := v;
    Environment_TLS := Environment_TLS x; Environment_BuildArgs := Environment_BuildArgs x;
    Environment_Image := Environment_Image x
  |}.
Definition with_Environment_ConcurrencyPolicy (v : ConcurrencyPolicy) (x : Environment) : Environment :=
  {|
    Environment_Name := Environment_Name x; Environment_Enabled := Environment_Enabled x;
    Environment_Branch := Environment_Branch x;
    Environment_Replicas := Environment_Replicas x;
    Environment_Resources := Environment_Resources x;
    Environment_LivenessProbe := Environment_LivenessProbe x;
    Environment_ReadinessProbe := Environment_ReadinessProbe x;
    Environment_StartupProbe := Environment_StartupProbe x;
    Environment_Env := Environment_Env x; Environment_Bindings := Environment_Bindings x;
    Environment_Domain := Environment_Domain x;
    Environment_CustomDomains := Environment_CustomDomains x;
    Environment_Schedule := Environment_Schedule x; Environment_ConcurrencyPolicy := v;
    Environment_SecretMounts := Environment_SecretMounts x;
    Environment_Annotations := Environment_Annotations x;
    Environment_TLS := Environment_TLS x; Environment_BuildArgs := Environment_BuildArgs x;
    Environment_Image := Environment_Image x
  |}.
Definition with_Environment_Schedule (v : string) (x : Environment) : Environment :=
  {|
    Environment_Name := Environment_Name x; Environment_Enabled := Environment_Enabled x;
    Environment_Branch := Environment_Branch x;
    Environment_Replicas := Environment_Replicas x;
    Environment_Resources := Environment_Resources x;
    Environment_LivenessProbe := Environment_LivenessProbe x;
    Environment_ReadinessProbe := Environment_ReadinessProbe x;
    Environment_StartupProbe := Environment_StartupProbe x;
    Environment_Env := Environment_Env x; Environment_Bindings := Environment_Bindings x;
    Environment_Domain := Environment_Domain x;
    Environment_CustomDomains := Environment_CustomDomains x; Environment_Schedule := v;
    Environment_ConcurrencyPolicy := Environment_ConcurrencyPolicy x;
    Environment_SecretMounts := Environment_SecretMounts x;
    Environment_Annotations := Environment_Annotations x;
    Environment_TLS := Environment_TLS x; Environment_BuildArgs := Environment_BuildArgs x;
    Environment_Image := Environment_Image x
  |}.
Definition with_Environment_StartupProbe (v : option ProbeConfig) (x : Environment) : Environment :=
  {|
    Environment_Name := Environment_Name x; Environment_Enabled := Environment_Enabled x;
    Environment_Branch := Environment_Branch x;
    Environment_Replicas := Environment_Replicas x;
    Environment_Resources := Environment_Resources x;
    Environment_LivenessProbe := Environment_LivenessProbe x;
    Environment_ReadinessProbe := Environment_ReadinessProbe x;
    Environment_StartupProbe := v; Environment_Env := Environment_Env x;
    Environment_Bindings := Environment_Bindings x;
    Environment_Domain := Environment_Domain x;
    Environment_CustomDomains := Environment_CustomDomains x;
    Environment_Schedule := Environment_Schedule x;
    Environment_ConcurrencyPolicy := Environment_ConcurrencyPolicy x;
    Environment_SecretMounts := Environment_SecretMounts x;
    Environment_Annotations := Environment_Annotations x;
    Environment_TLS := Environment_TLS x; Environment_BuildArgs := Environment_BuildArgs x;
    Environment_Image := Environment_Image x
  |}.
Definition with_Environment_LivenessProbe (v : option ProbeConfig) (x : Environment) : Environment :=
  {|
    Environment_Name := Environment_Name x; Environment_Enabled := Environment_Enabled x;
    Environment_Branch := Environment_Branch x;
    Environment_Replicas := Environment_Replicas x;
    Environment_Resources := Environment_Resources x; Environment_LivenessProbe := v;
    Environment_ReadinessProbe := Environment_ReadinessProbe x;
    Environment_StartupProbe := Environment_StartupProbe x;
    Environment_Env := Environment_Env x; Environment_Bindings := Environment_Bindings x;
    Environment_Domain := Environment_Domain x;
    Environment_CustomDomains := Environment_CustomDomains x;
    Environment_Schedule := Environment_Schedule x;
    Environment_ConcurrencyPolicy := Environment_ConcurrencyPolicy x;
    Environment_SecretMounts := Environment_SecretMounts x;
    Environment_Annotations := Environment_Annotations x;
    Environment_TLS := Environment_TLS x; Environment_BuildArgs := Environment_BuildArgs x;
    Environment_Image := Environment_Image x
  |}.
Definition with_Environment_ReadinessProbe (v : option ProbeConfig) (x : Environment) : Environment :=
  {|
    Environment_Name := Environment_Name x; Environment_Enabled := Environment_Enabled x;
    Environment_Branch := Environment_Branch x;
    Environment_Replicas := Environment_Replicas x;
    Environment_Resources := Environment_Resources x;
    Environment_LivenessProbe := Environment_LivenessProbe x;
    Environment_ReadinessProbe := v;
    Environment_StartupProbe := Environment_StartupProbe x;
    Environment_Env := Environment_Env x; Environment_Bindings := Environment_Bindings x;
    Environment_Domain := Environment_Domain x;
    Environment_CustomDomains := Environment_CustomDomains x;
    Environment_Schedule := Environment_Schedule x;
    Environment_ConcurrencyPolicy := Environment_ConcurrencyPolicy x;
    Environment_SecretMounts := Environment_SecretMounts x;
    Environment_Annotations := Environment_Annotations x;
    Environment_TLS := Environment_TLS x; Environment_BuildArgs := Environment_BuildArgs x;
    Environment_Image := Environment_Image x
  |}.
Definition with_Environment_Resources (v : ResourceRequirements) (x : Environment) : Environment :=
  {|
    Environment_Name := Environment_Name x; Environment_Enabled := Environment_Enabled x;
    Environment_Branch := Environment_Branch x;
    Environment_Replicas := Environment_Replicas x; Environment_Resources := v;
    Environment_LivenessProbe := Environment_LivenessProbe x;
    Environment_ReadinessProbe := Environment_ReadinessProbe x;
    Environment_StartupProbe := Environment_StartupProbe x;
    Environment_Env := Environment_Env x; Environment_Bindings := Environment_Bindings x;
    Environment_Domain := Environment_Domain x;
    Environment_CustomDomains := Environment_CustomDomains x;
    Environment_Schedule := Environment_Schedule x;
    Environment_ConcurrencyPolicy := Environment_ConcurrencyPolicy x;
    Environment_SecretMounts := Environment_SecretMounts x;
    Environment_Annotations := Environment_Annotations x;
    Environment_TLS := Environment_TLS x; Environment_BuildArgs := Environment_BuildArgs x;
    Environment_Image := Environment_Image x
  |}.
Definition with_Environment_Name (v : string) (x : Environment) : Environment :=
  {|
    Environment_Name := v; Environment_Enabled := Environment_Enabled x;
    Environment_Branch := Environment_Branch x;
    Environment_Replicas := Environment_Replicas x;
    Environment_Resources := Environment_Resources x;
    Environment_LivenessProbe := Environment_LivenessProbe x;
    Environment_ReadinessProbe := Environment_ReadinessProbe x;
    Environment_StartupProbe := Environment_StartupProbe x;
    Environment_Env := Environment_Env x;
    Environment_Bindings := Environment_Bindings x;
    Environment_Domain := Environment_Domain x;
    Environment_CustomDomains := Environment_CustomDomains x;
    Environment_Schedule := Environment_Schedule x;
    Environment_ConcurrencyPolicy := Environment_ConcurrencyPolicy x;
    Environment_SecretMounts := Environment_SecretMounts x;
    Environment_Annotations := Environment_Annotations x;
    Environment_TLS := Environment_TLS x;
    Environment_BuildArgs := Environment_BuildArgs x;
    Environment_Image := Environment_Image x
  |}.
Definition with_Environment_Enabled (v : option bool) (x : Environment) : Environment :=
  {|
    Environment_Name := Environment_Name x; Environment_Enabled := v;
    Environment_Branch := Environment_Branch x;
    Environment_Replicas := Environment_Replicas x;
    Environment_Resources := Environment_Resources x;
    Environment_LivenessProbe := Environment_LivenessProbe x;
    Environment_ReadinessProbe := Environment_ReadinessProbe x;
    Environment_StartupProbe := Environment_StartupProbe x;
    Environment_Env := Environment_Env x;
    Environment_Bindings := Environment_Bindings x;
    Environment_Domain := Environment_Domain x;
    Environment_CustomDomains := Environment_CustomDomains x;
    Environment_Schedule := Environment_Schedule x;
    Environment_ConcurrencyPolicy := Environment_ConcurrencyPolicy x;
    Environment_SecretMounts := Environment_SecretMounts x;
    Environment_Annotations := Environment_Annotations x;
    Environment_TLS := Environment_TLS x;
    Environment_BuildArgs := Environment_BuildArgs x;
    Environment_Image := Environment_Image x
  |}.
Definition with_Environment_Branch (v : string) (x : Environment) : Environment :=
  {|
    Environment_Name := Environment_Name x;
    Environment_Enabled := Environment_Enabled x; Environment_Branch := v;
    Environment_Replicas := Environment_Replicas x;
    Environment_Resources := Environment_Resources x;
    Environment_LivenessProbe := Environment_LivenessProbe x;
    Environment_ReadinessProbe := Environment_ReadinessProbe x;
    Environment_StartupProbe := Environment_StartupProbe x;
    Environment_Env := Environment_Env x;
    Environment_Bindings := Environment_Bindings x;
    Environment_Domain := Environment_Domain x;
    Environment_CustomDomains := Environment_CustomDomains x;
    Environment_Schedule := Environment_Schedule x;
    Environment_ConcurrencyPolicy := Environment_ConcurrencyPolicy x;
    Environment_SecretMounts := Environment_SecretMounts x;
    Environment_Annotations := Environment_Annotations x;
    Environment_TLS := Environment_TLS x;
    Environment_BuildArgs := Environment_BuildArgs x;
    Environment_Image := Environment_Image x
  |}.
Definition with_Environment_Domain (v : string) (x : Environment) : Environment :=
  {|
    Environment_Name := Environment_Name x;
    Environment_Enabled := Environment_Enabled x;
    Environment_Branch := Environment_Branch x;
    Environment_Replicas := Environment_Replicas x;
    Environment_Resources := Environment_Resources x;
    Environment_LivenessProbe := Environment_LivenessProbe x;
    Environment_ReadinessProbe := Environment_ReadinessProbe x;
    Environment_StartupProbe := Environment_StartupProbe x;
    Environment_Env := Environment_Env x;
    Environment_Bindings := Environment_Bindings x; Environment_Domain := v;
    Environment_CustomDomains := Environment_CustomDomains x;
    Environment_Schedule := Environment_Schedule x;
    Environment_ConcurrencyPolicy := Environment_ConcurrencyPolicy x;
    Environment_SecretMounts := Environment_SecretMounts x;
    Environment_Annotations := Environment_Annotations x;
    Environment_TLS := Environment_TLS x;
    Environment_BuildArgs := Environment_BuildArgs x;
    Environment_Image := Environment_Image x
  |}.
Definition with_Environment_CustomDomains (v : list string) (x : Environment) : Environment :=
  {|
    Environment_Name := Environment_Name x;
    Environment_Enabled := Environment_Enabled x;
    Environment_Branch := Environment_Branch x;
    Environment_Replicas := Environment_Replicas x;
    Environment_Resources := Environment_Resources x;
    Environment_LivenessProbe := Environment_LivenessProbe x;
    Environment_ReadinessProbe := Environment_ReadinessProbe x;
    Environment_StartupProbe := Environment_StartupProbe x;
    Environment_Env := Environment_Env x;
    Environment_Bindings := Environment_Bindings x;
    Environment_Domain := Environment_Domain x; Environment_CustomDomains := v;
    Environment_Schedule := Environment_Schedule x;
    Environment_ConcurrencyPolicy := Environment_ConcurrencyPolicy x;
    Environment_SecretMounts := Environment_SecretMounts x;
    Environment_Annotations := Environment_Annotations x;
    Environment_TLS := Environment_TLS x;
    Environment_BuildArgs := Environment_BuildArgs x;
    Environment_Image := Environment_Image x
  |}.
Definition with_Environment_Env (v : list EnvVar) (x : Environment) : Environment :=
  {|
    Environment_Name := Environment_Name x;
    Environment_Enabled := Environment_Enabled x;
    Environment_Branch := Environment_Branch x;
    Environment_Replicas := Environment_Replicas x;
    Environment_Resources := Environment_Resources x;
    Environment_LivenessProbe := Environment_LivenessProbe x;
    Environment_ReadinessProbe := Environment_ReadinessProbe x;
    Environment_StartupProbe := Environment_StartupProbe x; Environment_Env := v;
    Environment_Bindings := Environment_Bindings x;
    Environment_Domain := Environment_Domain x;
    Environment_CustomDomains := Environment_CustomDomains x;
    Environment_Schedule := Environment_Schedule x;
    Environment_ConcurrencyPolicy := Environment_ConcurrencyPolicy x;
    Environment_SecretMounts := Environment_SecretMounts x;
    Environment_Annotations := Environment_Annotations x;
    Environment_TLS := Environment_TLS x;
    Environment_BuildArgs := Environment_BuildArgs x;
    Environment_Image := Environment_Image x
  |}.
Definition with_Environment_Bindings (v : list Binding) (x : Environment) : Environment :=
  {|
    Environment_Name := Environment_Name x;
    Environment_Enabled := Environment_Enabled x;
    Environment_Branch := Environment_Branch x;
    Environment_Replicas := Environment_Replicas x;
    Environment_Resources := Environment_Resources x;
    Environment_LivenessProbe := Environment_LivenessProbe x;
    Environment_ReadinessProbe := Environment_ReadinessProbe x;
    Environment_StartupProbe := Environment_StartupProbe x;
    Environment_Env := Environment_Env x; Environment_Bindings := v;
    Environment_Domain := Environment_Domain x;
    Environment_CustomDomains := Environment_CustomDomains x;
    Environment_Schedule := Environment_Schedule x;
    Environment_ConcurrencyPolicy := Environment_ConcurrencyPolicy x;
    Environment_SecretMounts := Environment_SecretMounts x;
    Environment_Annotations := Environment_Annotations x;
    Environment_TLS := Environment_TLS x;
    Environment_BuildArgs := Environment_BuildArgs x;
    Environment_Image := Environment_Image x
  |}.
Definition with_Environment_Image (v : string) (x : Environment) : Environment :=
  {|
    Environment_Name := Environment_Name x;
    Environment_Enabled := Environment_Enabled x;
    Environment_Branch := Environment_Branch x;
    Environment_Replicas := Environment_Replicas x;
    Environment_Resources := Environment_Resources x;
    Environment_LivenessProbe := Environment_LivenessProbe x;
    Environment_ReadinessProbe := Environment_ReadinessProbe x;
    Environment_StartupProbe := Environment_StartupProbe x;
    Environment_Env := Environment_Env x;
    Environment_Bindings := Environment_Bindings x;
    Environment_Domain := Environment_Domain x;
    Environment_CustomDomains := Environment_CustomDomains x;
    Environment_Schedule := Environment_Schedule x;
    Environment_ConcurrencyPolicy := Environment_ConcurrencyPolicy x;
    Environment_SecretMounts := Environment_SecretMounts x;
    Environment_Annotations := Environment_Annotations x;
    Environment_TLS := Environment_TLS x;
    Environment_BuildArgs := Environment_BuildArgs x; Environment_Image := v
  |}.
Definition with_Environment_Replicas (v : option Z) (x : Environment) : Environment :=
  {|
    Environment_Name := Environment_Name x;
    Environment_Enabled := Environment_Enabled x;
    Environment_Branch := Environment_Branch x; Environment_Replicas := v;
    Environment_Resources := Environment_Resources x;
    Environment_LivenessProbe := Environment_LivenessProbe x;
    Environment_ReadinessProbe := Environment_ReadinessProbe x;
    Environment_StartupProbe := Environment_StartupProbe x;
    Environment_Env := Environment_Env x;
    Environment_Bindings := Environment_Bindings x;
    Environment_Domain := Environment_Domain x;
    Environment_CustomDomains := Environment_CustomDomains x;
    Environment_Schedule := Environment_Schedule x;
    Environment_ConcurrencyPolicy := Environment_ConcurrencyPolicy x;
    Environment_SecretMounts := Environment_SecretMounts x;
    Environment_Annotations := Environment_Annotations x;
    Environment_TLS := Environment_TLS x;
    Environment_BuildArgs := Environment_BuildArgs x;
    Environment_Image := Environment_Image x
  |}.

Record AppSpec := {
  AppSpec_Kind : AppKind;
  AppSpec_Source : AppSource;
  AppSpec_Network : NetworkConfig;
  AppSpec_Storage : list VolumeSpec;
  AppSpec_SecurityProfile : SecurityProfile;
  AppSpec_ConfigFiles : list ConfigFile;
  AppSpec_Credentials : list Credential;
  AppSpec_SharedVars : list EnvVar;
  AppSpec_Environments : list Environment;
}.
#[export] Instance AppSpec_eq_dec : EqDecision AppSpec.
Proof. solve_decision. Defined.
Definition AppSpec_zero : AppSpec :=
  {|
    AppSpec_Kind := ""; AppSpec_Source := AppSource_zero;
    AppSpec_Network := NetworkConfig_zero; AppSpec_Storage := [];
    AppSpec_SecurityProfile := ""; AppSpec_ConfigFiles := [];
    AppSpec_Credentials := []; AppSpec_SharedVars := []; AppSpec_Environments := []
  |}.
Definition with_AppSpec_SharedVars (v : list EnvVar) (x : AppSpec) : AppSpec :=
  {|
    AppSpec_Kind := AppSpec_Kind x; AppSpec_Source := AppSpec_Source x;
    AppSpec_Network := AppSpec_Network x; AppSpec_Storage := AppSpec_Storage x;
    AppSpec_SecurityProfile := AppSpec_SecurityProfile x;
    AppSpec_ConfigFiles := AppSpec_ConfigFiles x;
    AppSpec_Credentials := AppSpec_Credentials x; AppSpec_SharedVars := v;
    AppSpec_Environments := AppSpec_Environments x
  |}.
Definition with_AppSpec_ConfigFiles (v : list ConfigFile) (x : AppSpec) : AppSpec :=
  {|
    AppSpec_Kind := AppSpec_Kind x; AppSpec_Source := AppSpec_Source x;
    AppSpec_Network := AppSpec_Network x; AppSpec_Storage := AppSpec_Storage x;
    AppSpec_SecurityProfile := AppSpec_SecurityProfile x; AppSpec_ConfigFiles := v;
    AppSpec_Credentials := AppSpec_Credentials x;
    AppSpec_SharedVars := AppSpec_SharedVars x;
    AppSpec_Environments := AppSpec_Environments x
  |}.
Definition with_AppSpec_Storage (v : list VolumeSpec) (x : AppSpec) : AppSpec :=
  {|
    AppSpec_Kind := AppSpec_Kind x; AppSpec_Source := AppSpec_Source x;
    AppSpec_Network := AppSpec_Network x; AppSpec_Storage := v;
    AppSpec_SecurityProfile := AppSpec_SecurityProfile x;
    AppSpec_ConfigFiles := AppSpec_ConfigFiles x;
    AppSpec_Credentials := AppSpec_Credentials x;
    AppSpec_SharedVars := AppSpec_SharedVars x;
    AppSpec_Environments := AppSpec_Environments x
  |}.
Definition with_AppSpec_Network (v : NetworkConfig) (x : AppSpec) : AppSpec :=
  {|
    AppSpec_Kind := AppSpec_Kind x; AppSpec_Source := AppSpec_Source x;
    AppSpec_Network := v; AppSpec_Storage := AppSpec_Storage x;
    AppSpec_SecurityProfile := AppSpec_SecurityProfile x;
    AppSpec_ConfigFiles := AppSpec_ConfigFiles x;
    AppSpec_Credentials := AppSpec_Credentials x;
    AppSpec_SharedVars := AppSpec_SharedVars x;
    AppSpec_Environments := AppSpec_Environments x
  |}.
Definition with_AppSpec_Source (v : AppSource) (x : AppSpec) : AppSpec :=
  {|
    AppSpec_Kind := AppSpec_Kind x; AppSpec_Source := v;
    AppSpec_Network := AppSpec_Network x; AppSpec_Storage := AppSpec_Storage x;
    AppSpec_SecurityProfile := AppSpec_SecurityProfile x;
    AppSpec_ConfigFiles := AppSpec_ConfigFiles x;
    AppSpec_Credentials := AppSpec_Credentials x;
    AppSpec_SharedVars := AppSpec_SharedVars x;
    AppSpec_Environments := AppSpec_Environments x
  |}.
Definition with_AppSpec_Environments (v : list Environment) (x : AppSpec) : AppSpec :=
  {|
    AppSpec_Kind := AppSpec_Kind x; AppSpec_Source := AppSpec_Source x;
    AppSpec_Network := AppSpec_Network x; AppSpec_Storage := AppSpec_Storage x;
    AppSpec_SecurityProfile := AppSpec_SecurityProfile x;
    AppSpec_ConfigFiles := AppSpec_ConfigFiles x;
    AppSpec_Credentials := AppSpec_Credentials x;
    AppSpec_SharedVars := AppSpec_SharedVars x; AppSpec_Environments := v
  |}.

Record DeployRecord := {
  DeployRecord_Image : string;
  DeployRecord_Digest : string;
  DeployRecord_GitSHA : string;
  DeployRecord_EnvHash : string;
  DeployRecord_Timestamp : Time;
  DeployRecord_Confirmed : bool;
}.
#[export] Instance DeployRecord_eq_dec : EqDecision DeployRecord.
Proof. solve_decision. Defined.
Definition DeployRecord_zero : DeployRecord :=
  {|
    DeployRecord_Image := ""; DeployRecord_Digest := ""; DeployRecord_GitSHA := "";
    DeployRecord_EnvHash := ""; DeployRecord_Timestamp := 0;
    DeployRecord_Confirmed := false
  |}.

Abbreviation AppPhase := string (only parsing).
Definition AppPhasePending : AppPhase := "Pending".
Definition AppPhaseBuilding : AppPhase := "Building".
Definition AppPhaseDeploying : AppPhase := "Deploying".
Definition AppPhaseReady : AppPhase := "Ready".
Definition AppPhaseDegraded : AppPhase := "Degraded".
Definition AppPhaseCrashLooping : AppPhase := "CrashLooping".
Definition AppPhaseFailed : AppPhase := "Failed".

Record EnvironmentStatus := {
  EnvironmentStatus_Name : string;
  EnvironmentStatus_JoinedAt : option Time;
  EnvironmentStatus_Phase : AppPhase;
  EnvironmentStatus_Message : string;
  EnvironmentStatus_ReadyReplicas : Z;
  EnvironmentStatus_CurrentImage : string;
  EnvironmentStatus_CurrentDigest : string;
  EnvironmentStatus_DeployHistory : list DeployRecord;
  EnvironmentStatus_Domain : string;
  EnvironmentStatus_AutoDomain : string;
  EnvironmentStatus_LastProcessedRestartedAt : string;
  EnvironmentStatus_LastBuiltSHA : string;
  EnvironmentStatus_LastBuiltImage : string;
  EnvironmentStatus_CurrentBuildRunRef : option BuildRunReference;
  EnvironmentStatus_LastSuccessfulBuildRunRef : option BuildRunReference;
  EnvironmentStatus_PendingEnvHash : string;
  EnvironmentStatus_DeployedEnvHash : string;
  EnvironmentStatus_UnresolvedEnvKeys : list string;
  EnvironmentStatus_OverriddenEnvKeys : list string;
  EnvironmentStatus_RetainedEnvKeys : list string;
  EnvironmentStatus_CertificateStatus : string;
  EnvironmentStatus_CertificateMessage : string;
}.
#[export] Instance EnvironmentStatus_eq_dec : EqDecision EnvironmentStatus.
Proof. solve_decision. Defined.
Definition EnvironmentStatus_zero : EnvironmentStatus :=
  {|
    EnvironmentStatus_Name := ""; EnvironmentStatus_JoinedAt := None;
    EnvironmentStatus_Phase := ""; EnvironmentStatus_Message := "";
    EnvironmentStatus_ReadyReplicas := 0; EnvironmentStatus_CurrentImage := "";
    EnvironmentStatus_CurrentDigest := ""; EnvironmentStatus_DeployHistory := [];
    EnvironmentStatus_Domain := ""; EnvironmentStatus_AutoDomain := "";
    EnvironmentStatus_LastProcessedRestartedAt := "";
    EnvironmentStatus_LastBuiltSHA := ""; EnvironmentStatus_LastBuiltImage := "";
    EnvironmentStatus_CurrentBuildRunRef := None;
    EnvironmentStatus_LastSuccessfulBuildRunRef := None;
    EnvironmentStatus_PendingEnvHash := ""; EnvironmentStatus_DeployedEnvHash := "";
    EnvironmentStatus_UnresolvedEnvKeys := [];
    EnvironmentStatus_OverriddenEnvKeys := []; EnvironmentStatus_RetainedEnvKeys := [];
    EnvironmentStatus_CertificateStatus := "";
    EnvironmentStatus_CertificateMessage := ""
  |}.
Definition with_EnvironmentStatus_LastBuiltImage (v : string) (x : EnvironmentStatus) : EnvironmentStatus :=
  {|
    EnvironmentStatus_Name := EnvironmentStatus_Name x;
    EnvironmentStatus_JoinedAt := EnvironmentStatus_JoinedAt x;
    EnvironmentStatus_Phase := EnvironmentStatus_Phase x;
    EnvironmentStatus_Message := EnvironmentStatus_Message x;
    EnvironmentStatus_ReadyReplicas := EnvironmentStatus_ReadyReplicas x;
    EnvironmentStatus_CurrentImage := EnvironmentStatus_CurrentImage x;
    EnvironmentStatus_CurrentDigest := EnvironmentStatus_CurrentDigest x;
    EnvironmentStatus_DeployHistory := EnvironmentStatus_DeployHistory x;
    EnvironmentStatus_Domain := EnvironmentStatus_Domain x;
    EnvironmentStatus_AutoDomain := EnvironmentStatus_AutoDomain x;
    EnvironmentStatus_LastProcessedRestartedAt := EnvironmentStatus_LastProcessedRestartedAt x;
    EnvironmentStatus_LastBuiltSHA := EnvironmentStatus_LastBuiltSHA x;
    EnvironmentStatus_LastBuiltImage := v;
    EnvironmentStatus_CurrentBuildRunRef := EnvironmentStatus_CurrentBuildRunRef x;
    EnvironmentStatus_LastSuccessfulBuildRunRef := EnvironmentStatus_LastSuccessfulBuildRunRef x;
    EnvironmentStatus_PendingEnvHash := EnvironmentStatus_PendingEnvHash x;
    EnvironmentStatus_DeployedEnvHash := EnvironmentStatus_DeployedEnvHash x;
    EnvironmentStatus_UnresolvedEnvKeys := EnvironmentStatus_UnresolvedEnvKeys x;
    EnvironmentStatus_OverriddenEnvKeys := EnvironmentStatus_OverriddenEnvKeys x;
    EnvironmentStatus_RetainedEnvKeys := EnvironmentStatus_RetainedEnvKeys x;
    EnvironmentStatus_CertificateStatus := EnvironmentStatus_CertificateStatus x;
    EnvironmentStatus_CertificateMessage := EnvironmentStatus_CertificateMessage x
  |}.
Definition with_EnvironmentStatus_LastBuiltSHA (v : string) (x : EnvironmentStatus) : EnvironmentStatus :=
  {|
    EnvironmentStatus_Name := EnvironmentStatus_Name x;
    EnvironmentStatus_JoinedAt := EnvironmentStatus_JoinedAt x;
    EnvironmentStatus_Phase := EnvironmentStatus_Phase x;
    EnvironmentStatus_Message := EnvironmentStatus_Message x;
    EnvironmentStatus_ReadyReplicas := EnvironmentStatus_ReadyReplicas x;
    EnvironmentStatus_CurrentImage := EnvironmentStatus_CurrentImage x;
    EnvironmentStatus_CurrentDigest := EnvironmentStatus_CurrentDigest x;
    EnvironmentStatus_DeployHistory := EnvironmentStatus_DeployHistory x;
    EnvironmentStatus_Domain := EnvironmentStatus_Domain x;
    EnvironmentStatus_AutoDomain := EnvironmentStatus_AutoDomain x;
    EnvironmentStatus_LastProcessedRestartedAt := EnvironmentStatus_LastProcessedRestartedAt x;
    EnvironmentStatus_LastBuiltSHA := v;
    EnvironmentStatus_LastBuiltImage := EnvironmentStatus_LastBuiltImage x;
    EnvironmentStatus_CurrentBuildRunRef := EnvironmentStatus_CurrentBuildRunRef x;
    EnvironmentStatus_LastSuccessfulBuildRunRef := EnvironmentStatus_LastSuccessfulBuildRunRef x;
    EnvironmentStatus_PendingEnvHash := EnvironmentStatus_PendingEnvHash x;
    EnvironmentStatus_DeployedEnvHash := EnvironmentStatus_DeployedEnvHash x;
    EnvironmentStatus_UnresolvedEnvKeys := EnvironmentStatus_UnresolvedEnvKeys x;
    EnvironmentStatus_OverriddenEnvKeys := EnvironmentStatus_OverriddenEnvKeys x;
    EnvironmentStatus_RetainedEnvKeys := EnvironmentStatus_RetainedEnvKeys x;
    EnvironmentStatus_CertificateStatus := EnvironmentStatus_CertificateStatus x;
    EnvironmentStatus_CertificateMessage := EnvironmentStatus_CertificateMessage x
  |}.
Definition with_EnvironmentStatus_Message (v : string) (x : EnvironmentStatus) : EnvironmentStatus :=
  {|
    EnvironmentStatus_Name := EnvironmentStatus_Name x;
    EnvironmentStatus_JoinedAt := EnvironmentStatus_JoinedAt x;
    EnvironmentStatus_Phase := EnvironmentStatus_Phase x; EnvironmentStatus_Message := v;
    EnvironmentStatus_ReadyReplicas := EnvironmentStatus_ReadyReplicas x;
    EnvironmentStatus_CurrentImage := EnvironmentStatus_CurrentImage x;
    EnvironmentStatus_CurrentDigest := EnvironmentStatus_CurrentDigest x;
    EnvironmentStatus_DeployHistory := EnvironmentStatus_DeployHistory x;
    EnvironmentStatus_Domain := EnvironmentStatus_Domain x;
    EnvironmentStatus_AutoDomain := EnvironmentStatus_AutoDomain x;
    EnvironmentStatus_LastProcessedRestartedAt := EnvironmentStatus_LastProcessedRestartedAt x;
    EnvironmentStatus_LastBuiltSHA := EnvironmentStatus_LastBuiltSHA x;
    EnvironmentStatus_LastBuiltImage := EnvironmentStatus_LastBuiltImage x;
    EnvironmentStatus_CurrentBuildRunRef := EnvironmentStatus_CurrentBuildRunRef x;
    EnvironmentStatus_LastSuccessfulBuildRunRef := EnvironmentStatus_LastSuccessfulBuildRunRef x;
    EnvironmentStatus_PendingEnvHash := EnvironmentStatus_PendingEnvHash x;
    EnvironmentStatus_DeployedEnvHash := EnvironmentStatus_DeployedEnvHash x;
    EnvironmentStatus_UnresolvedEnvKeys := EnvironmentStatus_UnresolvedEnvKeys x;
    EnvironmentStatus_OverriddenEnvKeys := EnvironmentStatus_OverriddenEnvKeys x;
    EnvironmentStatus_RetainedEnvKeys := EnvironmentStatus_RetainedEnvKeys x;
    EnvironmentStatus_CertificateStatus := EnvironmentStatus_CertificateStatus x;
    EnvironmentStatus_CertificateMessage := EnvironmentStatus_CertificateMessage x
  |}.
Definition with_EnvironmentStatus_Phase (v : AppPhase) (x : EnvironmentStatus) : EnvironmentStatus :=
  {|
    EnvironmentStatus_Name := EnvironmentStatus_Name x;
    EnvironmentStatus_JoinedAt := EnvironmentStatus_JoinedAt x;
    EnvironmentStatus_Phase := v; EnvironmentStatus_Message := EnvironmentStatus_Message x;
    EnvironmentStatus_ReadyReplicas := EnvironmentStatus_ReadyReplicas x;
    EnvironmentStatus_CurrentImage := EnvironmentStatus_CurrentImage x;
    EnvironmentStatus_CurrentDigest := EnvironmentStatus_CurrentDigest x;
    EnvironmentStatus_DeployHistory := EnvironmentStatus_DeployHistory x;
    EnvironmentStatus_Domain := EnvironmentStatus_Domain x;
    EnvironmentStatus_AutoDomain := EnvironmentStatus_AutoDomain x;
    EnvironmentStatus_LastProcessedRestartedAt := EnvironmentStatus_LastProcessedRestartedAt x;
    EnvironmentStatus_LastBuiltSHA := EnvironmentStatus_LastBuiltSHA x;
    EnvironmentStatus_LastBuiltImage := EnvironmentStatus_LastBuiltImage x;
    EnvironmentStatus_CurrentBuildRunRef := EnvironmentStatus_CurrentBuildRunRef x;
    EnvironmentStatus_LastSuccessfulBuildRunRef := EnvironmentStatus_LastSuccessfulBuildRunRef x;
    EnvironmentStatus_PendingEnvHash := EnvironmentStatus_PendingEnvHash x;
    EnvironmentStatus_DeployedEnvHash := EnvironmentStatus_DeployedEnvHash x;
    EnvironmentStatus_UnresolvedEnvKeys := EnvironmentStatus_UnresolvedEnvKeys x;
    EnvironmentStatus_OverriddenEnvKeys := EnvironmentStatus_OverriddenEnvKeys x;
    EnvironmentStatus_RetainedEnvKeys := EnvironmentStatus_RetainedEnvKeys x;
    EnvironmentStatus_CertificateStatus := EnvironmentStatus_CertificateStatus x;
    EnvironmentStatus_CertificateMessage := EnvironmentStatus_CertificateMessage x
  |}.
Definition with_EnvironmentStatus_LastSuccessfulBuildRunRef (v : option BuildRunReference) (x : EnvironmentStatus) : EnvironmentStatus :=
  {|
    EnvironmentStatus_Name := EnvironmentStatus_Name x;
    EnvironmentStatus_JoinedAt := EnvironmentStatus_JoinedAt x;
    EnvironmentStatus_Phase := EnvironmentStatus_Phase x;
    EnvironmentStatus_Message := EnvironmentStatus_Message x;
    EnvironmentStatus_ReadyReplicas := EnvironmentStatus_ReadyReplicas x;
    EnvironmentStatus_CurrentImage := EnvironmentStatus_CurrentImage x;
    EnvironmentStatus_CurrentDigest := EnvironmentStatus_CurrentDigest x;
    EnvironmentStatus_DeployHistory := EnvironmentStatus_DeployHistory x;
    EnvironmentStatus_Domain := EnvironmentStatus_Domain x;
    EnvironmentStatus_AutoDomain := EnvironmentStatus_AutoDomain x;
    EnvironmentStatus_LastProcessedRestartedAt := EnvironmentStatus_LastProcessedRestartedAt x;
    EnvironmentStatus_LastBuiltSHA := EnvironmentStatus_LastBuiltSHA x;
    EnvironmentStatus_LastBuiltImage := EnvironmentStatus_LastBuiltImage x;
    EnvironmentStatus_CurrentBuildRunRef := EnvironmentStatus_CurrentBuildRunRef x;
    EnvironmentStatus_LastSuccessfulBuildRunRef := v;
    EnvironmentStatus_PendingEnvHash := EnvironmentStatus_PendingEnvHash x;
    EnvironmentStatus_DeployedEnvHash := EnvironmentStatus_DeployedEnvHash x;
    EnvironmentStatus_UnresolvedEnvKeys := EnvironmentStatus_UnresolvedEnvKeys x;
    EnvironmentStatus_OverriddenEnvKeys := EnvironmentStatus_OverriddenEnvKeys x;
    EnvironmentStatus_RetainedEnvKeys := EnvironmentStatus_RetainedEnvKeys x;
    EnvironmentStatus_CertificateStatus := EnvironmentStatus_CertificateStatus x;
    EnvironmentStatus_CertificateMessage := EnvironmentStatus_CertificateMessage x
  |}.
Definition with_EnvironmentStatus_CurrentBuildRunRef (v : option BuildRunReference) (x : EnvironmentStatus) : EnvironmentStatus :=
  {|
    EnvironmentStatus_Name := EnvironmentStatus_Name x;
    EnvironmentStatus_JoinedAt := EnvironmentStatus_JoinedAt x;
    EnvironmentStatus_Phase := EnvironmentStatus_Phase x;
    EnvironmentStatus_Message := EnvironmentStatus_Message x;
    EnvironmentStatus_ReadyReplicas := EnvironmentStatus_ReadyReplicas x;
    EnvironmentStatus_CurrentImage := EnvironmentStatus_CurrentImage x;
    EnvironmentStatus_CurrentDigest := EnvironmentStatus_CurrentDigest x;
    EnvironmentStatus_DeployHistory := EnvironmentStatus_DeployHistory x;
    EnvironmentStatus_Domain := EnvironmentStatus_Domain x;
    EnvironmentStatus_AutoDomain := EnvironmentStatus_AutoDomain x;
    EnvironmentStatus_LastProcessedRestartedAt := EnvironmentStatus_LastProcessedRestartedAt x;
    EnvironmentStatus_LastBuiltSHA := EnvironmentStatus_LastBuiltSHA x;
    EnvironmentStatus_LastBuiltImage := EnvironmentStatus_LastBuiltImage x;
    EnvironmentStatus_CurrentBuildRunRef := v;
    EnvironmentStatus_LastSuccessfulBuildRunRef := EnvironmentStatus_LastSuccessfulBuildRunRef x;
    EnvironmentStatus_PendingEnvHash := EnvironmentStatus_PendingEnvHash x;
    EnvironmentStatus_DeployedEnvHash := EnvironmentStatus_DeployedEnvHash x;
    EnvironmentStatus_UnresolvedEnvKeys := EnvironmentStatus_UnresolvedEnvKeys x;
    EnvironmentStatus_OverriddenEnvKeys := EnvironmentStatus_OverriddenEnvKeys x;
    EnvironmentStatus_RetainedEnvKeys := EnvironmentStatus_RetainedEnvKeys x;
    EnvironmentStatus_CertificateStatus := EnvironmentStatus_CertificateStatus x;
    EnvironmentStatus_CertificateMessage := EnvironmentStatus_CertificateMessage x
  |}.
Definition with_EnvironmentStatus_Name (v : string) (x : EnvironmentStatus) : EnvironmentStatus :=
  {|
    EnvironmentStatus_Name := v;
    EnvironmentStatus_JoinedAt := EnvironmentStatus_JoinedAt x;
    EnvironmentStatus_Phase := EnvironmentStatus_Phase x;
    EnvironmentStatus_Message := EnvironmentStatus_Message x;
    EnvironmentStatus_ReadyReplicas := EnvironmentStatus_ReadyReplicas x;
    EnvironmentStatus_CurrentImage := EnvironmentStatus_CurrentImage x;
    EnvironmentStatus_CurrentDigest := EnvironmentStatus_CurrentDigest x;
    EnvironmentStatus_DeployHistory := EnvironmentStatus_DeployHistory x;
    EnvironmentStatus_Domain := EnvironmentStatus_Domain x;
    EnvironmentStatus_AutoDomain := EnvironmentStatus_AutoDomain x;
    EnvironmentStatus_LastProcessedRestartedAt := EnvironmentStatus_LastProcessedRestartedAt x;
    EnvironmentStatus_LastBuiltSHA := EnvironmentStatus_LastBuiltSHA x;
    EnvironmentStatus_LastBuiltImage := EnvironmentStatus_LastBuiltImage x;
    EnvironmentStatus_CurrentBuildRunRef := EnvironmentStatus_CurrentBuildRunRef x;
    EnvironmentStatus_LastSuccessfulBuildRunRef := EnvironmentStatus_LastSuccessfulBuildRunRef x;
    EnvironmentStatus_PendingEnvHash := EnvironmentStatus_PendingEnvHash x;
    EnvironmentStatus_DeployedEnvHash := EnvironmentStatus_DeployedEnvHash x;
    EnvironmentStatus_UnresolvedEnvKeys := EnvironmentStatus_UnresolvedEnvKeys x;
    EnvironmentStatus_OverriddenEnvKeys := EnvironmentStatus_OverriddenEnvKeys x;
    EnvironmentStatus_RetainedEnvKeys := EnvironmentStatus_RetainedEnvKeys x;
    EnvironmentStatus_CertificateStatus := EnvironmentStatus_CertificateStatus x;
    EnvironmentStatus_CertificateMessage := EnvironmentStatus_CertificateMessage x
  |}.
Definition with_EnvironmentStatus_UnresolvedEnvKeys (v : list string) (x : EnvironmentStatus) : EnvironmentStatus :=
  {|
    EnvironmentStatus_Name := EnvironmentStatus_Name x;
    EnvironmentStatus_JoinedAt := EnvironmentStatus_JoinedAt x;
    EnvironmentStatus_Phase := EnvironmentStatus_Phase x;
    EnvironmentStatus_Message := EnvironmentStatus_Message x;
    EnvironmentStatus_ReadyReplicas := EnvironmentStatus_ReadyReplicas x;
    EnvironmentStatus_CurrentImage := EnvironmentStatus_CurrentImage x;
    EnvironmentStatus_CurrentDigest := EnvironmentStatus_CurrentDigest x;
    EnvironmentStatus_DeployHistory := EnvironmentStatus_DeployHistory x;
    EnvironmentStatus_Domain := EnvironmentStatus_Domain x;
    EnvironmentStatus_AutoDomain := EnvironmentStatus_AutoDomain x;
    EnvironmentStatus_LastProcessedRestartedAt := EnvironmentStatus_LastProcessedRestartedAt x;
    EnvironmentStatus_LastBuiltSHA := EnvironmentStatus_LastBuiltSHA x;
    EnvironmentStatus_LastBuiltImage := EnvironmentStatus_LastBuiltImage x;
    EnvironmentStatus_CurrentBuildRunRef := EnvironmentStatus_CurrentBuildRunRef x;
    EnvironmentStatus_LastSuccessfulBuildRunRef := EnvironmentStatus_LastSuccessfulBuildRunRef x;
    EnvironmentStatus_PendingEnvHash := EnvironmentStatus_PendingEnvHash x;
    EnvironmentStatus_DeployedEnvHash := EnvironmentStatus_DeployedEnvHash x;
    EnvironmentStatus_UnresolvedEnvKeys := v;
    EnvironmentStatus_OverriddenEnvKeys := EnvironmentStatus_OverriddenEnvKeys x;
    EnvironmentStatus_RetainedEnvKeys := EnvironmentStatus_RetainedEnvKeys x;
    EnvironmentStatus_CertificateStatus := EnvironmentStatus_CertificateStatus x;
    EnvironmentStatus_CertificateMessage := EnvironmentStatus_CertificateMessage x
  |}.
Definition with_EnvironmentStatus_OverriddenEnvKeys (v : list string) (x : EnvironmentStatus) : EnvironmentStatus :=
  {|
    EnvironmentStatus_Name := EnvironmentStatus_Name x;
    EnvironmentStatus_JoinedAt := EnvironmentStatus_JoinedAt x;
    EnvironmentStatus_Phase := EnvironmentStatus_Phase x;
    EnvironmentStatus_Message := EnvironmentStatus_Message x;
    EnvironmentStatus_ReadyReplicas := EnvironmentStatus_ReadyReplicas x;
    EnvironmentStatus_CurrentImage := EnvironmentStatus_CurrentImage x;
    EnvironmentStatus_CurrentDigest := EnvironmentStatus_CurrentDigest x;
    EnvironmentStatus_DeployHistory := EnvironmentStatus_DeployHistory x;
    EnvironmentStatus_Domain := EnvironmentStatus_Domain x;
    EnvironmentStatus_AutoDomain := EnvironmentStatus_AutoDomain x;
    EnvironmentStatus_LastProcessedRestartedAt := EnvironmentStatus_LastProcessedRestartedAt x;
    EnvironmentStatus_LastBuiltSHA := EnvironmentStatus_LastBuiltSHA x;
    EnvironmentStatus_LastBuiltImage := EnvironmentStatus_LastBuiltImage x;
    EnvironmentStatus_CurrentBuildRunRef := EnvironmentStatus_CurrentBuildRunRef x;
    EnvironmentStatus_LastSuccessfulBuildRunRef := EnvironmentStatus_LastSuccessfulBuildRunRef x;
    EnvironmentStatus_PendingEnvHash := EnvironmentStatus_PendingEnvHash x;
    EnvironmentStatus_DeployedEnvHash := EnvironmentStatus_DeployedEnvHash x;
    EnvironmentStatus_UnresolvedEnvKeys := EnvironmentStatus_UnresolvedEnvKeys x;
    EnvironmentStatus_OverriddenEnvKeys := v;
    EnvironmentStatus_RetainedEnvKeys := EnvironmentStatus_RetainedEnvKeys x;
    EnvironmentStatus_CertificateStatus := EnvironmentStatus_CertificateStatus x;
    EnvironmentStatus_CertificateMessage := EnvironmentStatus_CertificateMessage x
  |}.

Record AppStatus := {
  AppStatus_Phase : AppPhase;
  AppStatus_Environments : list EnvironmentStatus;
  AppStatus_CurrentBuildRunName : string;
  AppStatus_LastBuildRunName : string;
  AppStatus_LastBuiltSHA : string;
  AppStatus_LastBuiltImage : string;
  AppStatus_DetectedPort : Z;
  AppStatus_DetectedPortImage : string;
  AppStatus_Conditions : list Condition;
}.
#[export] Instance AppStatus_eq_dec : EqDecision AppStatus.
Proof. solve_decision. Defined.
Definition AppStatus_zero : AppStatus :=
  {|
    AppStatus_Phase := ""; AppStatus_Environments := [];
    AppStatus_CurrentBuildRunName := ""; AppStatus_LastBuildRunName := "";
    AppStatus_LastBuiltSHA := ""; AppStatus_LastBuiltImage := "";
    AppStatus_DetectedPort := 0; AppStatus_DetectedPortImage := "";
    AppStatus_Conditions := []
  |}.
Definition with_AppStatus_DetectedPort (v : Z) (x : AppStatus) : AppStatus :=
  {|
    AppStatus_Phase := AppStatus_Phase x;
    AppStatus_Environments := AppStatus_Environments x;
    AppStatus_CurrentBuildRunName := AppStatus_CurrentBuildRunName x;
    AppStatus_LastBuildRunName := AppStatus_LastBuildRunName x;
    AppStatus_LastBuiltSHA := AppStatus_LastBuiltSHA x;
    AppStatus_LastBuiltImage := AppStatus_LastBuiltImage x; AppStatus_DetectedPort := v;
    AppStatus_DetectedPortImage := AppStatus_DetectedPortImage x;
    AppStatus_Conditions := AppStatus_Conditions x
  |}.
Definition with_AppStatus_LastBuiltImage (v : string) (x : AppStatus) : AppStatus :=
  {|
    AppStatus_Phase := AppStatus_Phase x;
    AppStatus_Environments := AppStatus_Environments x;
    AppStatus_CurrentBuildRunName := AppStatus_CurrentBuildRunName x;
    AppStatus_LastBuildRunName := AppStatus_LastBuildRunName x;
    AppStatus_LastBuiltSHA := AppStatus_LastBuiltSHA x; AppStatus_LastBuiltImage := v;
    AppStatus_DetectedPort := AppStatus_DetectedPort x;
    AppStatus_DetectedPortImage := AppStatus_DetectedPortImage x;
    AppStatus_Conditions := AppStatus_Conditions x
  |}.
Definition with_AppStatus_LastBuiltSHA (v : string) (x : AppStatus) : AppStatus :=
  {|
    AppStatus_Phase := AppStatus_Phase x;
    AppStatus_Environments := AppStatus_Environments x;
    AppStatus_CurrentBuildRunName := AppStatus_CurrentBuildRunName x;
    AppStatus_LastBuildRunName := AppStatus_LastBuildRunName x;
    AppStatus_LastBuiltSHA := v; AppStatus_LastBuiltImage := AppStatus_LastBuiltImage x;
    AppStatus_DetectedPort := AppStatus_DetectedPort x;
    AppStatus_DetectedPortImage := AppStatus_DetectedPortImage x;
    AppStatus_Conditions := AppStatus_Conditions x
  |}.
Definition with_AppStatus_Phase (v : AppPhase) (x : AppStatus) : AppStatus :=
  {|
    AppStatus_Phase := v; AppStatus_Environments := AppStatus_Environments x;
    AppStatus_CurrentBuildRunName := AppStatus_CurrentBuildRunName x;
    AppStatus_LastBuildRunName := AppStatus_LastBuildRunName x;
    AppStatus_LastBuiltSHA := AppStatus_LastBuiltSHA x;
    AppStatus_LastBuiltImage := AppStatus_LastBuiltImage x;
    AppStatus_DetectedPort := AppStatus_DetectedPort x;
    AppStatus_DetectedPortImage := AppStatus_DetectedPortImage x;
    AppStatus_Conditions := AppStatus_Conditions x
  |}.
Definition with_AppStatus_LastBuildRunName (v : string) (x : AppStatus) : AppStatus :=
  {|
    AppStatus_Phase := AppStatus_Phase x;
    AppStatus_Environments := AppStatus_Environments x;
    AppStatus_CurrentBuildRunName := AppStatus_CurrentBuildRunName x;
    AppStatus_LastBuildRunName := v; AppStatus_LastBuiltSHA := AppStatus_LastBuiltSHA x;
    AppStatus_LastBuiltImage := AppStatus_LastBuiltImage x;
    AppStatus_DetectedPort := AppStatus_DetectedPort x;
    AppStatus_DetectedPortImage := AppStatus_DetectedPortImage x;
    AppStatus_Conditions := AppStatus_Conditions x
  |}.
Definition with_AppStatus_CurrentBuildRunName (v : string) (x : AppStatus) : AppStatus :=
  {|
    AppStatus_Phase := AppStatus_Phase x;
    AppStatus_Environments := AppStatus_Environments x; AppStatus_CurrentBuildRunName := v;
    AppStatus_LastBuildRunName := AppStatus_LastBuildRunName x;
    AppStatus_LastBuiltSHA := AppStatus_LastBuiltSHA x;
    AppStatus_LastBuiltImage := AppStatus_LastBuiltImage x;
    AppStatus_DetectedPort := AppStatus_DetectedPort x;
    AppStatus_DetectedPortImage := AppStatus_DetectedPortImage x;
    AppStatus_Conditions := AppStatus_Conditions x
  |}.
Definition with_AppStatus_Environments (v : list EnvironmentStatus) (x : AppStatus) : AppStatus :=
  {|
    AppStatus_Phase := AppStatus_Phase x; AppStatus_Environments := v;
    AppStatus_CurrentBuildRunName := AppStatus_CurrentBuildRunName x;
    AppStatus_LastBuildRunName := AppStatus_LastBuildRunName x;
    AppStatus_LastBuiltSHA := AppStatus_LastBuiltSHA x;
    AppStatus_LastBuiltImage := AppStatus_LastBuiltImage x;
    AppStatus_DetectedPort := AppStatus_DetectedPort x;
    AppStatus_DetectedPortImage := AppStatus_DetectedPortImage x;
    AppStatus_Conditions := AppStatus_Conditions x
  |}.
Definition with_AppStatus_Conditions (v : list Condition) (x : AppStatus) : AppStatus :=
  {|
    AppStatus_Phase := AppStatus_Phase x;
    AppStatus_Environments := AppStatus_Environments x;
    AppStatus_CurrentBuildRunName := AppStatus_CurrentBuildRunName x;
    AppStatus_LastBuildRunName := AppStatus_LastBuildRunName x;
    AppStatus_LastBuiltSHA := AppStatus_LastBuiltSHA x;
    AppStatus_LastBuiltImage := AppStatus_LastBuiltImage x;
    AppStatus_DetectedPort := AppStatus_DetectedPort x;
    AppStatus_DetectedPortImage := AppStatus_DetectedPortImage x;
    AppStatus_Conditions := v
  |}.

Record App := {
  App_ObjectMeta : ObjectMeta;
  App_Spec : AppSpec;
  App_Status : AppStatus;
}.
#[export] Instance App_eq_dec : EqDecision App.
Proof. solve_decision. Defined.
Definition App_zero : App :=
  {|
    App_ObjectMeta := ObjectMeta_zero; App_Spec := AppSpec_zero;
    App_Status := AppStatus_zero
  |}.
Definition with_App_ObjectMeta (v : ObjectMeta) (x : App) : App :=
  {|
    App_ObjectMeta := v; App_Spec := App_Spec x; App_Status := App_Status x
  |}.
Definition with_App_Spec (v : AppSpec) (x : App) : App :=
  {|
    App_ObjectMeta := App_ObjectMeta x; App_Spec := v; App_Status := App_Status x
  |}.
Definition with_App_Status (v : AppStatus) (x : App) : App :=
  {|
    App_ObjectMeta := App_ObjectMeta x; App_Spec := App_Spec x; App_Status := v
  |}.

Record PreviewConfig := {
  PreviewConfig_Enabled : bool;
  PreviewConfig_SourceEnvironment : string;
  PreviewConfig_BotPR : option bool;
}.
#[export] Instance PreviewConfig_eq_dec : EqDecision PreviewConfig.
Proof. solve_decision. Defined.
Definition PreviewConfig_zero : PreviewConfig :=
  {|
    PreviewConfig_Enabled := false; PreviewConfig_SourceEnvironment := "";
    PreviewConfig_BotPR := None
  |}.
Definition with_PreviewConfig_SourceEnvironment (v : string) (x : PreviewConfig) : PreviewConfig :=
  {|
    PreviewConfig_Enabled := PreviewConfig_Enabled x; PreviewConfig_SourceEnvironment := v;
    PreviewConfig_BotPR := PreviewConfig_BotPR x
  |}.
Definition with_PreviewConfig_Enabled (v : bool) (x : PreviewConfig) : PreviewConfig :=
  {|
    PreviewConfig_Enabled := v;
    PreviewConfig_SourceEnvironment := PreviewConfig_SourceEnvironment x;
    PreviewConfig_BotPR := PreviewConfig_BotPR x
  |}.

Record ProjectEnvironment := {
  ProjectEnvironment_Name : string;
  ProjectEnvironment_DisplayOrder : Z;
  ProjectEnvironment_Restricted : bool;
  ProjectEnvironment_Preview : bool;
}.
#[export] Instance ProjectEnvironment_eq_dec : EqDecision ProjectEnvironment.
Proof. solve_decision. Defined.
Definition ProjectEnvironment_zero : ProjectEnvironment :=
  {|
    ProjectEnvironment_Name := ""; ProjectEnvironment_DisplayOrder := 0;
    ProjectEnvironment_Restricted := false; ProjectEnvironment_Preview := false
  |}.
Definition with_ProjectEnvironment_Restricted (v : bool) (x : ProjectEnvironment) : ProjectEnvironment :=
  {|
    ProjectEnvironment_Name := ProjectEnvironment_Name x;
    ProjectEnvironment_DisplayOrder := ProjectEnvironment_DisplayOrder x;
    ProjectEnvironment_Restricted := v;
    ProjectEnvironment_Preview := ProjectEnvironment_Preview x
  |}.
Definition with_ProjectEnvironment_DisplayOrder (v : Z) (x : ProjectEnvironment) : ProjectEnvironment :=
  {|
    ProjectEnvironment_Name := ProjectEnvironment_Name x;
    ProjectEnvironment_DisplayOrder := v;
    ProjectEnvironment_Restricted := ProjectEnvironment_Restricted x;
    ProjectEnvironment_Preview := ProjectEnvironment_Preview x
  |}.
Definition with_ProjectEnvironment_Name (v : string) (x : ProjectEnvironment) : ProjectEnvironment :=
  {|
    ProjectEnvironment_Name := v;
    ProjectEnvironment_DisplayOrder := ProjectEnvironment_DisplayOrder x;
    ProjectEnvironment_Restricted := ProjectEnvironment_Restricted x;
    ProjectEnvironment_Preview := ProjectEnvironment_Preview x
  |}.

Record ProjectSpec := {
  ProjectSpec_Description : string;
  ProjectSpec_Environments : list ProjectEnvironment;
  ProjectSpec_Preview : option PreviewConfig;
  ProjectSpec_AutoRedeploy : bool;
}.
#[export] Instance ProjectSpec_eq_dec : EqDecision ProjectSpec.
Proof. solve_decision. Defined.
Definition ProjectSpec_zero : ProjectSpec :=
  {|
    ProjectSpec_Description := ""; ProjectSpec_Environments := [];
    ProjectSpec_Preview := None; ProjectSpec_AutoRedeploy := false
  |}.
Definition with_ProjectSpec_Preview (v : option PreviewConfig) (x : ProjectSpec) : ProjectSpec :=
  {|
    ProjectSpec_Description := ProjectSpec_Description x;
    ProjectSpec_Environments := ProjectSpec_Environments x; ProjectSpec_Preview := v;
    ProjectSpec_AutoRedeploy := ProjectSpec_AutoRedeploy x
  |}.
Definition with_ProjectSpec_AutoRedeploy (v : bool) (x : ProjectSpec) : ProjectSpec :=
  {|
    ProjectSpec_Description := ProjectSpec_Description x;
    ProjectSpec_Environments := ProjectSpec_Environments x;
    ProjectSpec_Preview := ProjectSpec_Preview x; ProjectSpec_AutoRedeploy := v
  |}.
Definition with_ProjectSpec_Description (v : string) (x : ProjectSpec) : ProjectSpec :=
  {|
    ProjectSpec_Description := v; ProjectSpec_Environments := ProjectSpec_Environments x;
    ProjectSpec_Preview := ProjectSpec_Preview x;
    ProjectSpec_AutoRedeploy := ProjectSpec_AutoRedeploy x
  |}.
Definition with_ProjectSpec_Environments (v : list ProjectEnvironment) (x : ProjectSpec) : ProjectSpec :=
  {|
    ProjectSpec_Description := ProjectSpec_Description x;
    ProjectSpec_Environments := v; ProjectSpec_Preview := ProjectSpec_Preview x;
    ProjectSpec_AutoRedeploy := ProjectSpec_AutoRedeploy x
  |}.

Abbreviation ProjectPhase := string (only parsing).
Definition ProjectPhasePending : ProjectPhase := "Pending".
Definition ProjectPhaseReady : ProjectPhase := "Ready".
Definition ProjectPhaseTerminating : ProjectPhase := "Terminating".
Definition ProjectPhaseFailed : ProjectPhase := "Failed".

Record ProjectStatus := {
  ProjectStatus_Phase : ProjectPhase;
  ProjectStatus_Namespace : string;
  ProjectStatus_EnvNamespaces : gmap string string;
  ProjectStatus_AppCount : Z;
  ProjectStatus_Environments : list string;
  ProjectStatus_Conditions : list Condition;
}.
#[export] Instance ProjectStatus_eq_dec : EqDecision ProjectStatus.
Proof. solve_decision. Defined.
Definition ProjectStatus_zero : ProjectStatus :=
  {|
    ProjectStatus_Phase := ""; ProjectStatus_Namespace := "";
    ProjectStatus_EnvNamespaces := ∅; ProjectStatus_AppCount := 0;
    ProjectStatus_Environments := []; ProjectStatus_Conditions := []
  |}.
Definition with_ProjectStatus_Phase (v : ProjectPhase) (x : ProjectStatus) : ProjectStatus :=
  {|
    ProjectStatus_Phase := v; ProjectStatus_Namespace := ProjectStatus_Namespace x;
    ProjectStatus_EnvNamespaces := ProjectStatus_EnvNamespaces x;
    ProjectStatus_AppCount := ProjectStatus_AppCount x;
    ProjectStatus_Environments := ProjectStatus_Environments x;
    ProjectStatus_Conditions := ProjectStatus_Conditions x
  |}.
Definition with_ProjectStatus_Namespace (v : string) (x : ProjectStatus) : ProjectStatus :=
  {|
    ProjectStatus_Phase := ProjectStatus_Phase x; ProjectStatus_Namespace := v;
    ProjectStatus_EnvNamespaces := ProjectStatus_EnvNamespaces x;
    ProjectStatus_AppCount := ProjectStatus_AppCount x;
    ProjectStatus_Environments := ProjectStatus_Environments x;
    ProjectStatus_Conditions := ProjectStatus_Conditions x
  |}.
Definition with_ProjectStatus_EnvNamespaces (v : gmap string string) (x : ProjectStatus) : ProjectStatus :=
  {|
    ProjectStatus_Phase := ProjectStatus_Phase x;
    ProjectStatus_Namespace := ProjectStatus_Namespace x;
    ProjectStatus_EnvNamespaces := v;
    ProjectStatus_AppCount := ProjectStatus_AppCount x;
    ProjectStatus_Environments := ProjectStatus_Environments x;
    ProjectStatus_Conditions := ProjectStatus_Conditions x
  |}.
Definition with_ProjectStatus_AppCount (v : Z) (x : ProjectStatus) : ProjectStatus :=
  {|
    ProjectStatus_Phase := ProjectStatus_Phase x;
    ProjectStatus_Namespace := ProjectStatus_Namespace x;
    ProjectStatus_EnvNamespaces := ProjectStatus_EnvNamespaces x;
    ProjectStatus_AppCount := v;
    ProjectStatus_Environments := ProjectStatus_Environments x;
    ProjectStatus_Conditions := ProjectStatus_Conditions x
  |}.
Definition with_ProjectStatus_Environments (v : list string) (x : ProjectStatus) : ProjectStatus :=
  {|
    ProjectStatus_Phase := ProjectStatus_Phase x;
    ProjectStatus_Namespace := ProjectStatus_Namespace x;
    ProjectStatus_EnvNamespaces := ProjectStatus_EnvNamespaces x;
    ProjectStatus_AppCount := ProjectStatus_AppCount x;
    ProjectStatus_Environments := v;
    ProjectStatus_Conditions := ProjectStatus_Conditions x
  |}.
Definition with_ProjectStatus_Conditions (v : list Condition) (x : ProjectStatus) : ProjectStatus :=
  {|
    ProjectStatus_Phase := ProjectStatus_Phase x;
    ProjectStatus_Namespace := ProjectStatus_Namespace x;
    ProjectStatus_EnvNamespaces := ProjectStatus_EnvNamespaces x;
    ProjectStatus_AppCount := ProjectStatus_AppCount x;
    ProjectStatus_Environments := ProjectStatus_Environments x;
    ProjectStatus_Conditions := v
  |}.

Record Project := {
  Project_ObjectMeta : ObjectMeta;
  Project_Spec : ProjectSpec;
  Project_Status : ProjectStatus;
}.
#[export] Instance Project_eq_dec : EqDecision Project.
Proof. solve_decision. Defined.
Definition Project_zero : Project :=
  {|
    Project_ObjectMeta := ObjectMeta_zero; Project_Spec := ProjectSpec_zero;
    Project_Status := ProjectStatus_zero
  |}.
Definition with_Project_ObjectMeta (v : ObjectMeta) (x : Project) : Project :=
  {|
    Project_ObjectMeta := v; Project_Spec := Project_Spec x;
    Project_Status := Project_Status x
  |}.
Definition with_Project_Spec (v : ProjectSpec) (x : Project) : Project :=
  {|
    Project_ObjectMeta := Project_ObjectMeta x; Project_Spec := v;
    Project_Status := Project_Status x
  |}.
Definition with_Project_Status (v : ProjectStatus) (x : Project) : Project :=
  {|
    Project_ObjectMeta := Project_ObjectMeta x; Project_Spec := Project_Spec x;
    Project_Status := v
  |}.

Abbreviation ProjectRole := string (only parsing).
Definition ProjectRoleOwner : ProjectRole := "owner".
Definition ProjectRoleDeveloper : ProjectRole := "developer".
Definition ProjectRoleViewer : ProjectRole := "viewer".

Record ProjectMemberSpec := {
  ProjectMemberSpec_Email : string;
  ProjectMemberSpec_Project : string;
  ProjectMemberSpec_Role : ProjectRole;
}.
#[export] Instance ProjectMemberSpec_eq_dec : EqDecision ProjectMemberSpec.
Proof. solve_decision. Defined.
Definition ProjectMemberSpec_zero : ProjectMemberSpec :=
  {|
    ProjectMemberSpec_Email := ""; ProjectMemberSpec_Project := "";
    ProjectMemberSpec_Role := ""
  |}.
Definition with_ProjectMemberSpec_Role (v : ProjectRole) (x : ProjectMemberSpec) : ProjectMemberSpec :=
  {|
    ProjectMemberSpec_Email := ProjectMemberSpec_Email x;
    ProjectMemberSpec_Project := ProjectMemberSpec_Project x; ProjectMemberSpec_Role := v
  |}.

Record ProjectMemberStatus := {
  ProjectMemberStatus_AddedAt : string;
  ProjectMemberStatus_AddedBy : string;
}.
#[export] Instance ProjectMemberStatus_eq_dec : EqDecision ProjectMemberStatus.
Proof. solve_decision. Defined.
Definition ProjectMemberStatus_zero : ProjectMemberStatus :=
  {|
    ProjectMemberStatus_AddedAt := ""; ProjectMemberStatus_AddedBy := ""
  |}.
Definition with_ProjectMemberStatus_AddedBy (v : string) (x : ProjectMemberStatus) : ProjectMemberStatus :=
  {|
    ProjectMemberStatus_AddedAt := ProjectMemberStatus_AddedAt x;
    ProjectMemberStatus_AddedBy := v
  |}.
Definition with_ProjectMemberStatus_AddedAt (v : string) (x : ProjectMemberStatus) : ProjectMemberStatus :=
  {|
    ProjectMemberStatus_AddedAt := v;
    ProjectMemberStatus_AddedBy := ProjectMemberStatus_AddedBy x
  |}.

Record ProjectMember := {
  ProjectMember_ObjectMeta : ObjectMeta;
  ProjectMember_Spec : ProjectMemberSpec;
  ProjectMember_Status : ProjectMemberStatus;
}.
#[export] Instance ProjectMember_eq_dec : EqDecision ProjectMember.
Proof. solve_decision. Defined.
Definition ProjectMember_zero : ProjectMember :=
  {|
    ProjectMember_ObjectMeta := ObjectMeta_zero;
    ProjectMember_Spec := ProjectMemberSpec_zero;
    ProjectMember_Status := ProjectMemberStatus_zero
  |}.
Definition with_ProjectMember_Status (v : ProjectMemberStatus) (x : ProjectMember) : ProjectMember :=
  {|
    ProjectMember_ObjectMeta := ProjectMember_ObjectMeta x;
    ProjectMember_Spec := ProjectMember_Spec x; ProjectMember_Status := v
  |}.
Definition with_ProjectMember_Spec (v : ProjectMemberSpec) (x : ProjectMember) : ProjectMember :=
  {|
    ProjectMember_ObjectMeta := ProjectMember_ObjectMeta x; ProjectMember_Spec := v;
    ProjectMember_Status := ProjectMember_Status x
  |}.
Definition with_ProjectMember_ObjectMeta (v : ObjectMeta) (x : ProjectMember) : ProjectMember :=
  {|
    ProjectMember_ObjectMeta := v; ProjectMember_Spec := ProjectMember_Spec x;
    ProjectMember_Status := ProjectMember_Status x
  |}.

Abbreviation PreviewPhase := string (only parsing).
Definition PreviewPhasePending : PreviewPhase := "Pending".
Definition PreviewPhaseReady : PreviewPhase := "Ready".
Definition PreviewPhaseFailed : PreviewPhase := "Failed".

Record PullRequestRef := {
  PullRequestRef_Number : Z;
  PullRequestRef_Branch : string;
  PullRequestRef_SHA : string;
  PullRequestRef_Repo : string;
}.
#[export] Instance PullRequestRef_eq_dec : EqDecision PullRequestRef.
Proof. solve_decision. Defined.
Definition PullRequestRef_zero : PullRequestRef :=
  {|
    PullRequestRef_Number := 0; PullRequestRef_Branch := ""; PullRequestRef_SHA := "";
    PullRequestRef_Repo := ""
  |}.

Record PreviewEnvironmentSpec := {
  PreviewEnvironmentSpec_ProjectRef : string;
  PreviewEnvironmentSpec_SourceEnv : string;
  PreviewEnvironmentSpec_PullRequest : PullRequestRef;
}.
#[export] Instance PreviewEnvironmentSpec_eq_dec : EqDecision PreviewEnvironmentSpec.
Proof. solve_decision. Defined.
Definition PreviewEnvironmentSpec_zero : PreviewEnvironmentSpec :=
  {|
    PreviewEnvironmentSpec_ProjectRef := ""; PreviewEnvironmentSpec_SourceEnv := "";
    PreviewEnvironmentSpec_PullRequest := PullRequestRef_zero
  |}.
Definition with_PreviewEnvironmentSpec_PullRequest (v : PullRequestRef) (x : PreviewEnvironmentSpec) : PreviewEnvironmentSpec :=
  {|
    PreviewEnvironmentSpec_ProjectRef := PreviewEnvironmentSpec_ProjectRef x;
    PreviewEnvironmentSpec_SourceEnv := PreviewEnvironmentSpec_SourceEnv x;
    PreviewEnvironmentSpec_PullRequest := v
  |}.

Record PreviewEnvironmentStatus := {
  PreviewEnvironmentStatus_Phase : PreviewPhase;
  PreviewEnvironmentStatus_EnvironmentName : string;
  PreviewEnvironmentStatus_Conditions : list Condition;
}.
#[export] Instance PreviewEnvironmentStatus_eq_dec : EqDecision PreviewEnvironmentStatus.
Proof. solve_decision. Defined.
Definition PreviewEnvironmentStatus_zero : PreviewEnvironmentStatus :=
  {|
    PreviewEnvironmentStatus_Phase := "";
    PreviewEnvironmentStatus_EnvironmentName := "";
    PreviewEnvironmentStatus_Conditions := []
  |}.
Definition with_PreviewEnvironmentStatus_Phase (v : PreviewPhase) (x : PreviewEnvironmentStatus) : PreviewEnvironmentStatus :=
  {|
    PreviewEnvironmentStatus_Phase := v;
    PreviewEnvironmentStatus_EnvironmentName := PreviewEnvironmentStatus_EnvironmentName x;
    PreviewEnvironmentStatus_Conditions := PreviewEnvironmentStatus_Conditions x
  |}.
Definition with_PreviewEnvironmentStatus_EnvironmentName (v : string) (x : PreviewEnvironmentStatus) : PreviewEnvironmentStatus :=
  {|
    PreviewEnvironmentStatus_Phase := PreviewEnvironmentStatus_Phase x;
    PreviewEnvironmentStatus_EnvironmentName := v;
    PreviewEnvironmentStatus_Conditions := PreviewEnvironmentStatus_Conditions x
  |}.
Definition with_PreviewEnvironmentStatus_Conditions (v : list Condition) (x : PreviewEnvironmentStatus) : PreviewEnvironmentStatus :=
  {|
    PreviewEnvironmentStatus_Phase := PreviewEnvironmentStatus_Phase x;
    PreviewEnvironmentStatus_EnvironmentName := PreviewEnvironmentStatus_EnvironmentName x;
    PreviewEnvironmentStatus_Conditions := v
  |}.

Record PreviewEnvironment := {
  PreviewEnvironment_ObjectMeta : ObjectMeta;
  PreviewEnvironment_Spec : PreviewEnvironmentSpec;
  PreviewEnvironment_Status : PreviewEnvironmentStatus;
}.
#[export] Instance PreviewEnvironment_eq_dec : EqDecision PreviewEnvironment.
Proof. solve_decision. Defined.
Definition PreviewEnvironment_zero : PreviewEnvironment :=
  {|
    PreviewEnvironment_ObjectMeta := ObjectMeta_zero;
    PreviewEnvironment_Spec := PreviewEnvironmentSpec_zero;
    PreviewEnvironment_Status := PreviewEnvironmentStatus_zero
  |}.
Definition with_PreviewEnvironment_ObjectMeta (v : ObjectMeta) (x : PreviewEnvironment) : PreviewEnvironment :=
  {|
    PreviewEnvironment_ObjectMeta := v;
    PreviewEnvironment_Spec := PreviewEnvironment_Spec x;
    PreviewEnvironment_Status := PreviewEnvironment_Status x
  |}.
Definition with_PreviewEnvironment_Spec (v : PreviewEnvironmentSpec) (x : PreviewEnvironment) : PreviewEnvironment :=
  {|
    PreviewEnvironment_ObjectMeta := PreviewEnvironment_ObjectMeta x;
    PreviewEnvironment_Spec := v;
    PreviewEnvironment_Status := PreviewEnvironment_Status x
  |}.
Definition with_PreviewEnvironment_Status (v : PreviewEnvironmentStatus) (x : PreviewEnvironment) : PreviewEnvironment :=
  {|
    PreviewEnvironment_ObjectMeta := PreviewEnvironment_ObjectMeta x;
    PreviewEnvironment_Spec := PreviewEnvironment_Spec x;
    PreviewEnvironment_Status := v
  |}.

Abbreviation GitProviderType := string (only parsing).
Definition GitProviderTypeGitHub : GitProviderType := "github".
Definition GitProviderTypeGitLab : GitProviderType := "gitlab".
Definition GitProviderTypeGitea : GitProviderType := "gitea".

Abbreviation GitProviderPhase := string (only parsing).
Definition GitProviderPhasePending : GitProviderPhase := "Pending".
Definition GitProviderPhaseReady : GitProviderPhase := "Ready".
Definition GitProviderPhaseFailed : GitProviderPhase := "Failed".

Record SecretRef := {
  SecretRef_Namespace : string;
  SecretRef_Name : string;
  SecretRef_Key : string;
}.
#[export] Instance SecretRef_eq_dec : EqDecision SecretRef.
Proof. solve_decision. Defined.
Definition SecretRef_zero : SecretRef :=
  {|
    SecretRef_Namespace := ""; SecretRef_Name := ""; SecretRef_Key := ""
  |}.

Record GitProviderSpec := {
  GitProviderSpec_Type : GitProviderType;
  GitProviderSpec_Host : string;
  GitProviderSpec_ClientID : string;
  GitProviderSpec_ClientSecretRef : option SecretRef;
  GitProviderSpec_WebhookSecretRef : option SecretRef;
}.
#[export] Instance GitProviderSpec_eq_dec : EqDecision GitProviderSpec.
Proof. solve_decision. Defined.
Definition GitProviderSpec_zero : GitProviderSpec :=
  {|
    GitProviderSpec_Type := ""; GitProviderSpec_Host := "";
    GitProviderSpec_ClientID := ""; GitProviderSpec_ClientSecretRef := None;
    GitProviderSpec_WebhookSecretRef := None
  |}.

Record GitProviderStatus := {
  GitProviderStatus_Phase : GitProviderPhase;
  GitProviderStatus_Conditions : list Condition;
}.
#[export] Instance GitProviderStatus_eq_dec : EqDecision GitProviderStatus.
Proof. solve_decision. Defined.
Definition GitProviderStatus_zero : GitProviderStatus :=
  {|
    GitProviderStatus_Phase := ""; GitProviderStatus_Conditions := []
  |}.

Record GitProvider := {
  GitProvider_ObjectMeta : ObjectMeta;
  GitProvider_Spec : GitProviderSpec;
  GitProvider_Status : GitProviderStatus;
}.
#[export] Instance GitProvider_eq_dec : EqDecision GitProvider.
Proof. solve_decision. Defined.
Definition GitProvider_zero : GitProvider :=
  {|
    GitProvider_ObjectMeta := ObjectMeta_zero;
    GitProvider_Spec := GitProviderSpec_zero;
    GitProvider_Status := GitProviderStatus_zero
  |}.
Definition with_GitProvider_ObjectMeta (v : ObjectMeta) (x : GitProvider) : GitProvider :=
  {|
    GitProvider_ObjectMeta := v; GitProvider_Spec := GitProvider_Spec x;
    GitProvider_Status := GitProvider_Status x
  |}.

#[export] Instance App_object : KubeObject App :=
  {| obj_meta := App_ObjectMeta; set_meta := with_App_ObjectMeta |}.
#[export] Instance App_object_ok : KubeObjectOk App.
Proof. split; [done|by intros ? ? []|by intros []]. Qed.

#[export] Instance Project_object : KubeObject Project :=
  {| obj_meta := Project_ObjectMeta; set_meta := with_Project_ObjectMeta |}.
#[export] Instance Project_object_ok : KubeObjectOk Project.
Proof. split; [done|by intros ? ? []|by intros []]. Qed.

#[export] Instance ProjectMember_object : KubeObject ProjectMember :=
  {| obj_meta := ProjectMember_ObjectMeta; set_meta := with_ProjectMember_ObjectMeta |}.
#[export] Instance ProjectMember_object_ok : KubeObjectOk ProjectMember.
Proof. split; [done|by intros ? ? []|by intros []]. Qed.

#[export] Instance PreviewEnvironment_object : KubeObject PreviewEnvironment :=
  {| obj_meta := PreviewEnvironment_ObjectMeta; set_meta := with_PreviewEnvironment_ObjectMeta |}.
#[export] Instance PreviewEnvironment_object_ok : KubeObjectOk PreviewEnvironment.
Proof. split; [done|by intros ? ? []|by intros []]. Qed.

#[export] Instance GitProvider_object : KubeObject GitProvider :=
  {| obj_meta := GitProvider_ObjectMeta; set_meta := with_GitProvider_ObjectMeta |}.
#[export] Instance GitProvider_object_ok : KubeObjectOk GitProvider.
Proof. split; [done|by intros ? ? []|by intros []]. Qed.
