(* ===== verification/KubeStatus.v ===== *)
(** * Status subresources and conditions

    [Status().Update] writes the status of an object and nothing else; the helpers of
    [k8s.io/apimachinery/pkg/api/meta] keep the list of conditions.  Both are parameters
    with their documented behaviour as laws; [SimStatus] and [Meta] are concrete
    instances, on which the controllers are evaluated. *)

From S2P Require Import Prelude GoStrings Kube Api.

(** ** Status updates *)

(** The object with the status of another one. *)
Class KubeStatusObject (Obj : Type) {O : KubeObject Obj} := status_from : Obj → Obj → Obj.

Class KubeStatusObjectOk (Obj : Type) {O : KubeObject Obj} {S : KubeStatusObject Obj} : Prop :=
  status_from_meta new cur : obj_meta (status_from new cur) = obj_meta cur.

Class KubeStatusOk (W Obj : Type) {O : KubeObject Obj} {SO : KubeStatusObject Obj} {C : KubeClient W Obj}
    {OK : KubeClientOk W Obj} {S : KubeStatus W Obj} : Prop := {
  (** An update that succeeds replaced the status of the version the caller had read. *)
  kstatus_spec o w w' r :
    kstatus_update o w = (w', r) →
    khist w w' ∧
    (r = None → ∃ w1 rv cur, khist w w1 ∧ khist w1 w' ∧
       kstore w1 !! obj_key o = Some cur ∧ obj_rv cur = obj_rv o ∧
       kstore w' = <[obj_key o := obj_with_rv rv (status_from o cur)]> (kstore w1));
  kstatus_quiet o w cur :
    kquiet w → kstore w !! obj_key o = Some cur → obj_rv cur = obj_rv o →
    ∃ w' rv, kquiet w' ∧ kstatus_update o w = (w', None) ∧
      kstore w' = <[obj_key o := obj_with_rv rv (status_from o cur)]> (kstore w);
}.

(** ** Retrying other errors *)

(** [retry.OnError(retry.DefaultRetry, retriable, fn)]. *)
Class KubeOnError (W : Type) :=
  OnError : (error → bool) → (W → W * option error) → W → W * option error.

(** The documented behaviour: the function is called again while it returns a retriable
    error, at most [DefaultRetry.Steps] times in all. *)
Fixpoint on_error_loop {W} (steps : nat) (retriable : error → bool) (fn : W → W * option error) (w : W)
    : W * option error :=
  match fn w with
  | (w, None) => (w, None)
  | (w, Some e) =>
    if retriable e then
      match steps with
      | S (S _ as steps') => on_error_loop steps' retriable fn w
      | _ => (w, Some e)
      end
    else (w, Some e)
  end.

Class KubeOnErrorOk (W : Type) {R : KubeOnError W} : Prop :=
  on_error_spec retriable (fn : W → W * option error) (w : W) :
    OnError retriable fn w = on_error_loop default_retry_steps retriable fn w.

Lemma on_error_loop_once {W} steps retriable (fn : W → W * option error) w w' r :
  fn w = (w', r) → (∀ e, r = Some e → retriable e = false) → on_error_loop steps retriable fn w = (w', r).
Proof.
  intros Hf Hr. destruct steps; simpl; rewrite Hf; destruct r as [e|]; try done; by rewrite (Hr e).
Qed.

(** ** Conditions *)

(** [meta.SetStatusCondition], [meta.RemoveStatusCondition], [meta.FindStatusCondition]. *)
Class ConditionHelpers := {
  SetStatusCondition : Condition → list Condition → list Condition;
  RemoveStatusCondition : string → list Condition → list Condition;
  FindStatusCondition : list Condition → string → option Condition;
}.

Definition with_transition (t : Time) (c : Condition) : Condition :=
  {| Condition_Type := Condition_Type c; Condition_Status := Condition_Status c;
     Condition_ObservedGeneration := Condition_ObservedGeneration c; Condition_LastTransitionTime := t;
     Condition_Reason := Condition_Reason c; Condition_Message := Condition_Message c |}.

(** The time that is kept: it changes with the status only. *)
Definition transition_time (old : option Condition) (c : Condition) : Time :=
  match old with
  | Some o => if String.eqb (Condition_Status o) (Condition_Status c)
              then Condition_LastTransitionTime o else Condition_LastTransitionTime c
  | None => Condition_LastTransitionTime c
  end.
#[global] Arguments transition_time : simpl never.

(** A condition without a time gets that of the clock. *)
Class ConditionHelpersOk {H : ConditionHelpers} : Prop := {
  find_nil type : FindStatusCondition [] type = None;
  find_set c l : ∃ t,
    FindStatusCondition (SetStatusCondition c l) (Condition_Type c) = Some (with_transition t c) ∧
    (Condition_LastTransitionTime c ≠ 0%Z → t = transition_time (FindStatusCondition l (Condition_Type c)) c);
  find_set_ne c l type :
    Condition_Type c ≠ type → FindStatusCondition (SetStatusCondition c l) type = FindStatusCondition l type;
  find_remove l type : FindStatusCondition (RemoveStatusCondition type l) type = None;
  find_remove_ne l type type' :
    type ≠ type' → FindStatusCondition (RemoveStatusCondition type l) type' = FindStatusCondition l type';
}.

(** The helpers, for evaluation. *)
Module Meta.
Definition find (l : list Condition) (type : string) : option Condition :=
  List.find (λ c, String.eqb (Condition_Type c) type) l.

Fixpoint set (c : Condition) (l : list Condition) : list Condition :=
  match l with
  | [] => [c]
  | o :: l => if String.eqb (Condition_Type o) (Condition_Type c)
              then with_transition (transition_time (Some o) c) c :: l else o :: set c l
  end.

Definition remove (type : string) (l : list Condition) : list Condition :=
  List.filter (λ c, negb (String.eqb (Condition_Type c) type)) l.

Definition helpers : ConditionHelpers :=
  {| SetStatusCondition := set; RemoveStatusCondition := remove; FindStatusCondition := find |}.

Lemma helpers_ok : ConditionHelpersOk (H := helpers).
Proof.
  split; simpl; unfold find.
  - done.
  - intros c l. exists (transition_time (List.find (λ d, String.eqb (Condition_Type d) (Condition_Type c)) l) c).
    split; [|done]. induction l as [|o l IH]; simpl.
    { rewrite String.eqb_refl. by destruct c. }
    destruct (String.eqb (Condition_Type o) (Condition_Type c)) eqn:E; simpl.
    + by rewrite String.eqb_refl.
    + by rewrite E.
  - intros c l type Hne. induction l as [|o l IH]; simpl.
    { by rewrite (proj2 (String.eqb_neq _ _) Hne). }
    destruct (String.eqb_spec (Condition_Type o) (Condition_Type c)) as [E|E]; cbn [List.find].
    + rewrite E. cbn [Condition_Type with_transition]. by rewrite (proj2 (String.eqb_neq _ _) Hne).
    + by rewrite IH.
  - intros l type. induction l as [|o l IH]; simpl; [done|].
    destruct (String.eqb (Condition_Type o) type) eqn:E; simpl; [done|]. by rewrite E.
  - intros l type type' Hne. induction l as [|o l IH]; simpl; [done|].
    destruct (String.eqb_spec (Condition_Type o) type) as [E|E]; simpl.
    + rewrite E. by rewrite (proj2 (String.eqb_neq _ _) Hne).
    + by rewrite IH.
Qed.
End Meta.

(** ** The concrete server *)

Module SimStatus.
Section sim.
Context {Obj : Type} {O : KubeObject Obj} {OK : KubeObjectOk Obj} {SO : KubeStatusObject Obj}
  {SOK : KubeStatusObjectOk Obj}.
Implicit Types (w : Sim.world Obj).

Definition update (o : Obj) (w : Sim.world Obj) : Sim.world Obj * option error :=
  match Sim.tick w with
  | (w', Some e) => (w', Some e)
  | (w', None) =>
    match Sim.objects w' !! obj_key o with
    | None => (w', Some (KubeError NotFound (obj_key o).2))
    | Some cur =>
      if String.eqb (obj_rv cur) (obj_rv o)
      then (Sim.World (Sim.Put (status_from o cur) :: Sim.log w') (Sim.pending w'), None)
      else (w', Some (KubeError Conflict (obj_key o).2))
    end
  end.

Instance updater : KubeStatus (Sim.world Obj) Obj := update.
#[local] Existing Instances Sim.client Sim.client_ok.

Lemma status_from_key o cur k : obj_key cur = k → obj_key (status_from o cur) = k.
Proof. unfold obj_key. by rewrite status_from_meta. Qed.

Lemma updater_ok : KubeStatusOk (Sim.world Obj) Obj.
Proof.
  split.
  - intros o w w' r. unfold kstatus_update, updater, update.
    destruct (Sim.tick w) as [w1 [e|]] eqn:Et; apply Sim.tick_hist in Et; [by intros [= <- <-]|].
    destruct (Sim.objects w1 !! obj_key o) as [cur|] eqn:Ec; [|by intros [= <- <-]].
    destruct (String.eqb_spec (obj_rv cur) (obj_rv o)) as [Hrv|]; [|by intros [= <- <-]].
    intros [= <- <-]. assert (Sim.hist w1 (Sim.World (Sim.Put (status_from o cur) :: Sim.log w1) (Sim.pending w1)))
      as Hh by by exists [Sim.Put (status_from o cur)].
    split; [by etrans|]. intros _. exists w1. eexists _, cur. split; [done|]. split; [done|]. split; [done|].
    split; [done|]. simpl. unfold Sim.objects. simpl.
    by rewrite (status_from_key o cur (obj_key o)) by (by eapply kstore_key).
  - intros o w cur Hq Hc Hrv. unfold kstatus_update, updater, update. rewrite Sim.tick_quiet by done.
    change (Sim.objects w !! obj_key o) with (kstore w !! obj_key o). rewrite Hc, Hrv, String.eqb_refl.
    eexists (Sim.World (Sim.Put (status_from o cur) :: Sim.log w) (Sim.pending w)), _.
    split; [done|]. split; [done|]. simpl. unfold Sim.objects. simpl.
    by rewrite (status_from_key o cur (obj_key o)) by (by eapply kstore_key).
Qed.

End sim.

Instance on_error {W} : KubeOnError W := λ retriable fn, on_error_loop default_retry_steps retriable fn.
Lemma on_error_ok {W} : KubeOnErrorOk W (R := on_error).
Proof. intros retriable fn w. reflexivity. Qed.
End SimStatus.
