(* ===== verification/Effects.v ===== *)
(** * Frames of functions that return an error

    [keeps I m] says that whatever [m] does to the state is within the relation [I], on
    every path, error paths included. *)

From S2P Require Import Prelude GoStrings Kube Api KubeStatus.

Section keeps.
Context {S : Type} (I : relation S) `{!PreOrder I}.

Definition keeps {A} (m : E S A) : Prop := ∀ s, I s (m s).1.

Lemma keeps_ret {A} (a : A) : keeps (mret a).
Proof. by intros s. Qed.

Lemma keeps_throw {A} err : keeps (throw (A := A) err).
Proof. by intros s. Qed.

Lemma keeps_bind {A B} (m : E S A) (k : A → E S B) : keeps m → (∀ a, keeps (k a)) → keeps (m ≫= k).
Proof.
  intros Hm Hk s. specialize (Hm s). unfold mbind, E_bind. destruct (m s) as [s1 [err|a]]; simpl in *; [done|].
  etrans; [exact Hm|apply Hk].
Qed.

Lemma keeps_run f : (∀ s, I s (f s).1) → keeps (run f).
Proof. intros Hf s. specialize (Hf s). unfold run. by destruct (f s) as [s1 [err|]]. Qed.

Lemma keeps_if {A} (b : bool) (m1 m2 : E S A) : keeps m1 → keeps m2 → keeps (if b then m1 else m2).
Proof. by destruct b. Qed.

Lemma keeps_for_each {A} (f : A → E S unit) l : (∀ x, keeps (f x)) → keeps (for_each f l).
Proof. intros Hf. induction l; [apply keeps_ret|]. by apply keeps_bind. Qed.

Lemma keeps_for_each_in {A} (f : A → E S unit) l : (∀ x, x ∈ l → keeps (f x)) → keeps (for_each f l).
Proof.
  induction l as [|x l IH]; intros Hf; [apply keeps_ret|]. apply keeps_bind; [apply Hf; by left|]. intros _.
  apply IH. intros y Hy. apply Hf. by right.
Qed.

Lemma keeps_retry steps (fn : S → S * option error) :
  (∀ s, I s (fn s).1) → ∀ s, I s (retry_loop steps fn s).1.
Proof.
  intros Hf s. destruct (retry_loop steps fn s) as [s' r] eqn:Er. simpl.
  refine (retry_loop_hist I steps fn s s' r _ Er). intros s1 s2 r' H. specialize (Hf s1). by rewrite H in Hf.
Qed.

Lemma keeps_on_error steps retriable (fn : S → S * option error) :
  (∀ s, I s (fn s).1) → ∀ s, I s (on_error_loop steps retriable fn s).1.
Proof.
  intros Hf. induction steps as [steps IH] using lt_wf_ind. intros s. pose proof (Hf s) as H1.
  destruct steps as [|[|steps]]; simpl; destruct (fn s) as [s1 [e|]]; simpl in *; try done; try by case_match.
  case_match; [|done]. etrans; [exact H1|]. apply (IH (Datatypes.S steps)). lia.
Qed.
End keeps.

(** A result of a sequence is a result of its last part. *)
Lemma bind_inr {S A B} (m : E S A) (k : A → E S B) s s' b :
  (m ≫= k) s = (s', inr b) → ∃ s1 a, m s = (s1, inr a) ∧ k a s1 = (s', inr b).
Proof. unfold mbind, E_bind. destruct (m s) as [s1 [err|a]]; [done|]. by exists s1, a. Qed.

(** Going through the code. *)
Ltac keeps_step :=
  match goal with
  | |- keeps _ (mret _) => apply keeps_ret; apply _
  | |- keeps _ (throw _) => apply keeps_throw; apply _
  | |- keeps _ (_ ≫= _) => apply keeps_bind; [apply _| |intros ?]
  | |- keeps _ (if ?b then _ else _) => destruct b
  | |- keeps _ (match ?x with _ => _ end) => destruct x
  | |- keeps _ (for_each _ _) => apply keeps_for_each; [apply _|intros ?]
  end.

(** Status updates within a relation. *)
Class KubeStatusWithin (W Obj : Type) {S : KubeStatus W Obj} (I : relation W) : Prop :=
  kstatus_within o w : I w (kstatus_update o w).1.

(** ** Frames with what is known of the state

    [within I P m Q]: from a state where [P] holds, [m] stays within [I], and where it
    returns a value [Q] holds. *)

Section within.
Context {S : Type} (I : relation S) `{!PreOrder I}.

Definition within {A} (P : S → Prop) (m : E S A) (Q : A → S → Prop) : Prop :=
  ∀ s, P s → I s (m s).1 ∧ ∀ a, (m s).2 = inr a → Q a (m s).1.

Lemma within_ret {A} (P : S → Prop) (a : A) Q : (∀ s, P s → Q a s) → within P (mret a) Q.
Proof. intros H s Hp. split; [done|]. intros b [= <-]. by apply H. Qed.

Lemma within_throw {A} P err Q : within P (throw (A := A) err) Q.
Proof. intros s _. by split. Qed.

Lemma within_bind {A B} P (m : E S A) Q (k : A → E S B) T :
  within P m Q → (∀ a, within (Q a) (k a) T) → within P (m ≫= k) T.
Proof.
  intros Hm Hk s Hp. destruct (Hm s Hp) as [H1 H2]. unfold mbind, E_bind.
  destruct (m s) as [s1 [err|a]]; simpl in *; [by split|].
  destruct (Hk a s1 (H2 a eq_refl)) as [H3 H4]. split; [by etrans|done].
Qed.

Lemma within_conseq {A} P P' (m : E S A) Q Q' :
  within P m Q → (∀ s, P' s → P s) → (∀ a s, Q a s → Q' a s) → within P' m Q'.
Proof. intros Hm Hp Hq s H. destruct (Hm s (Hp s H)) as [H1 H2]. split; [done|]. intros a Ha. by apply Hq, H2. Qed.

(** What is known stays known. *)
Lemma within_stable {A} P (m : E S A) : (∀ s s', I s s' → P s → P s') → keeps I m → within P m (λ _, P).
Proof. intros Hst Hm s Hp. split; [apply Hm|]. intros a _. by apply (Hst s), Hp; apply Hm. Qed.

Lemma within_keeps {A} P (m : E S A) Q : within P m Q → (∀ s, P s) → keeps I m.
Proof. intros Hm HP s. by apply Hm. Qed.

Lemma within_if {A} (b : bool) P (m1 m2 : E S A) Q :
  within P m1 Q → within P m2 Q → within P (if b then m1 else m2) Q.
Proof. by destruct b. Qed.

Lemma keeps_ret_bind_within {A B} P (m : E S A) (k : A → E S B) Q :
  (∀ s s', I s s' → P s → P s') → keeps I m → (∀ a, within P (k a) Q) → within P (m ≫= k) Q.
Proof. intros Hst Hm Hk. eapply within_bind; [by apply within_stable|exact Hk]. Qed.

Lemma within_for_each {A} (P : S → Prop) (f : A → E S unit) l :
  (∀ s s', I s s' → P s → P s') → (∀ x, x ∈ l → within P (f x) (λ _ _, True)) →
  within P (for_each f l) (λ _ _, True).
Proof.
  intros Hst. induction l as [|x l IH]; intros Hf; [by apply within_ret|]. simpl.
  apply (within_bind _ _ (λ _, P)).
  - intros s Hp. destruct (Hf x ltac:(by left) s Hp) as [H1 _]. split; [done|]. intros a _. by apply (Hst s).
  - intros _. apply IH. intros y Hy. apply Hf. by right.
Qed.

Lemma within_run P f : (∀ s, P s → I s (f s).1) → within P (run f) (λ _ _, True).
Proof. intros Hf s Hp. specialize (Hf s Hp). unfold run. by destruct (f s) as [s1 [err|]]. Qed.

(** The attempts of a retried function. *)
Lemma within_retry steps (P : S → Prop) (fn : S → S * option error) :
  (∀ s s', I s s' → P s → P s') → (∀ s, P s → I s (fn s).1) → ∀ s, P s → I s (retry_loop steps fn s).1.
Proof.
  intros Hst Hf. induction steps as [steps IH] using lt_wf_ind. intros s Hp. pose proof (Hf s Hp) as H1.
  destruct steps as [|[|steps]]; simpl; destruct (fn s) as [s1 [e|]] eqn:E; simpl in *; try done;
    try by destruct (IsConflict e).
  destruct (IsConflict e); [|done]. etrans; [exact H1|]. apply (IH (Datatypes.S steps)); [lia|by eapply Hst].
Qed.
End within.

(** ** Parts of a world *)

Class Part (W V : Type) := { part : W → V; set_part : V → W → W }.

Class PartOk (W V : Type) {P : Part W V} : Prop := {
  part_set v w : part (set_part v w) = v;
  set_part_id w : set_part (part w) w = w;
  set_part_set v v' w : set_part v (set_part v' w) = set_part v w;
}.

(** An operation on a part. *)
Definition over {W V A} {P : Part W V} (f : V → V * A) (w : W) : W * A :=
  let '(v, a) := f (part w) in (set_part v w, a).
