(* ===== verification/Controller.v ===== *)
(** * What controllers share

    Results of a reconciliation, owner references, finalizers, and the classification of
    refused writes in young namespaces ([internal/controller/forbidden.go]). *)

From S2P Require Import Prelude GoStrings GoTime Kube Core.

(** ** Results *)

(** [ctrl.Result] *)
Record Result := { RequeueAfter : Z }.
Definition Done : Result := {| RequeueAfter := 0 |}.

(** ** Owner references *)

Definition v1alpha1 : string := "mortise.mortise.dev/v1alpha1".

(** Whether the project owns the namespace, and the last other project that does before
    it is found. *)
Fixpoint owner_scan (uid : string) (refs : list OwnerReference) (ownedByOther : string) : bool * string :=
  match refs with
  | [] => (false, ownedByOther)
  | ref :: refs =>
    if String.eqb (owner_APIVersion ref) v1alpha1 && String.eqb (owner_Kind ref) "Project" then
      if String.eqb (owner_UID ref) uid then (true, ownedByOther)
      else owner_scan uid refs (owner_Name ref)
    else owner_scan uid refs ownedByOther
  end.

Lemma owner_scan_spec uid refs other :
  (owner_scan uid refs other).1 = true ↔
  ∃ ref, ref ∈ refs ∧ owner_APIVersion ref = v1alpha1 ∧ owner_Kind ref = "Project" ∧ owner_UID ref = uid.
Proof.
  revert other. induction refs as [|ref refs IH]; intros other; simpl.
  { split; [done|]. by intros (? & ?%elem_of_nil & _). }
  destruct (_ && _) eqn:E.
  - apply andb_true_iff in E as [Ea%String.eqb_eq Ek%String.eqb_eq].
    destruct (String.eqb_spec (owner_UID ref) uid).
    + split; [|done]. intros _. exists ref. split; [by left|done].
    + rewrite IH. split; [intros (x & ? & ?); exists x; split; [by right|done]|].
      intros (x & [->|?]%elem_of_cons & ? & ? & ?); [done|by exists x].
  - rewrite IH. split; [intros (x & ? & ?); exists x; split; [by right|done]|].
    intros (x & [->|?]%elem_of_cons & Ha & Hk & ?); [|by exists x].
    by rewrite Ha, Hk, !String.eqb_refl in E.
Qed.

(** ** Finalizers *)

(** The functions of controller-runtime's [controllerutil]. *)
Class FinalizerHelpers := {
  ContainsFinalizer : ObjectMeta → string → bool;
  AddFinalizer : ObjectMeta → string → ObjectMeta * bool;
  RemoveFinalizer : ObjectMeta → string → ObjectMeta;
}.

Class FinalizerHelpersOk {F : FinalizerHelpers} : Prop := {
  contains_finalizer m f : ContainsFinalizer m f = true ↔ f ∈ meta_Finalizers m;
  add_finalizer m f :
    AddFinalizer m f = if ContainsFinalizer m f then (m, false)
                       else (with_finalizers (meta_Finalizers m ++ [f]) m, true);
  remove_finalizer m f : ∃ fs,
    RemoveFinalizer m f = with_finalizers fs m ∧ ∀ g, g ∈ fs ↔ g ∈ meta_Finalizers m ∧ g ≠ f;
}.

(** The helpers, for evaluation. *)
Module Finalizers.
Definition helpers : FinalizerHelpers :=
  {| ContainsFinalizer m f := bool_decide (f ∈ meta_Finalizers m);
     AddFinalizer m f := if bool_decide (f ∈ meta_Finalizers m) then (m, false)
                         else (with_finalizers (meta_Finalizers m ++ [f]) m, true);
     RemoveFinalizer m f := with_finalizers (filter (.≠ f) (meta_Finalizers m)) m |}.

Lemma finalizers_ok : FinalizerHelpersOk (F := helpers).
Proof.
  split; simpl.
  - intros m f. apply bool_decide_eq_true.
  - done.
  - intros m f. eexists. split; [done|]. intros g. rewrite list_elem_of_filter. naive_solver.
Qed.
End Finalizers.

(** ** Refused writes *)

Definition rbacPropagationWindow : Z := 2 * Minute.
Definition rbacPropagationRequeue : Z := 2 * Second.

Section forbidden.
Context {W : Type} {CN : KubeClient W Namespace}.

(** [Some] is the result to return without an error. *)
Definition forbiddenFastRequeue (now : W → Time) (nsName : string) (err : error) (w : W) : W * option Result :=
  if negb (IsForbidden err) then (w, None)
  else
    match kget ("", nsName) w with
    | (w, inl getErr) =>
      (w, if IsNotFound getErr then Some {| RequeueAfter := rbacPropagationRequeue |} else None)
    | (w, inr ns) =>
      (w, if (rbacPropagationWindow <=? time_sub (now w) (meta_CreationTimestamp (ns_meta ns)))%Z then None
          else Some {| RequeueAfter := rbacPropagationRequeue |})
    end.
End forbidden.
