(* ===== verification/Constants.v ===== *)
(** * Names: [internal/constants/constants.go]

    The deterministic names of namespaces, preview environments and project members,
    and the canonical key of a repository. *)

From S2P Require Import Prelude GoStrings Sha256 GoUrl Kube.

Definition DefaultProjectEnvironment : string := "production".
Definition ControlNamespacePrefix : string := "pj-".
Definition MaxNamespaceLen : Z := 63.
Definition maxPreviewPRNumberDigits : Z := 19.
Definition previewRepoHashLen : nat := 8.

Definition AppNameLabel : string := "app.kubernetes.io/name".
Definition ProjectLabel : string := "mortise.dev/project".
Definition EnvironmentLabel : string := "mortise.dev/environment".
Definition ManagedByLabel : string := "app.kubernetes.io/managed-by".
Definition ManagedByValue : string := "mortise".
Definition NamespaceRoleLabel : string := "mortise.dev/namespace-role".
Definition NamespaceRoleControl : string := "control".
Definition NamespaceRoleEnv : string := "env".
Definition NamespaceRolePreview : string := "preview".
Definition AppFinalizer : string := "mortise.dev/app-finalizer".
Definition NsClusterRoleName : string := "mortise-controller-ns".
Definition NsRoleBindingName : string := "mortise-controller-ns".

(** [len(s)] as a Go [int]. *)
Definition len (s : string) : Z := Z.of_nat (String.length s).

Definition ControlNamespace (projectName : string) : string :=
  ControlNamespacePrefix +:+ projectName.

Definition EnvNamespace (projectName envName : string) : string :=
  ControlNamespacePrefix +:+ projectName +:+ "-" +:+ envName.

Definition PreviewNamespace (projectName : string) (prNumber : Z) : string :=
  ControlNamespacePrefix +:+ projectName +:+ "-pr-" +:+ itoa prNumber.

(** ** Repository keys *)

Definition CanonicalRepoKey (repo : string) : string :=
  let repo := trim_space (trim_suffix ".git" repo) in
  if String.eqb repo "" then "" else
  let repo :=
    if contains "://" repo then
      match url_path repo with
      | Some path => trim_prefix "/" path
      | None => repo
      end
    else repo in
  let repo :=
    match index_char "@"%char repo, last_index_char ":"%char repo with
    | Some idx, Some colon =>
      if contains ":" (str_drop idx repo) then str_drop (S colon) repo else repo
    | _, _ => repo
    end in
  let repo := trim_suffix "/" repo in
  let parts := split "/"%char repo in
  if (2 <=? length parts)%nat then
    to_lower (nth (length parts - 2) parts "" +:+ "/" +:+ nth (length parts - 1) parts "")
  else to_lower repo.

(** The loop of [previewRepoSlug]: [lastDash] says the byte before was a dash. *)
Definition slug_char (c : ascii) : bool := is_lower c || is_digit c.

Fixpoint slug_loop (lastDash : bool) (s : string) : string :=
  match s with
  | EmptyString => EmptyString
  | String r s' =>
    if slug_char r then String r (slug_loop false s')
    else if lastDash then slug_loop true s'
    else String "-"%char (slug_loop true s')
  end.

Definition is_dash (c : ascii) : bool := Ascii.eqb c "-"%char.

Definition previewRepoSlug (repo : string) : string :=
  let slug := trim_suffix "/" (trim_space repo) in
  let slug := match last_index_char "/"%char slug with
              | Some idx => str_drop (S idx) slug
              | None => slug
              end in
  let slug := match last_index_char ":"%char slug with
              | Some idx => str_drop (S idx) slug
              | None => slug
              end in
  let slug := trim_suffix ".git" (to_lower slug) in
  let slug := trim is_dash (slug_loop false slug) in
  if String.eqb slug "" then "repo" else slug.

Definition previewRepoHash (repo : string) : string :=
  str_take previewRepoHashLen (sha256_hex (trim_space repo)).

(** ** Preview environments *)

Definition maxSlugLen : Z :=
  let n := (63 - len "preview-" - len "-" - Z.of_nat previewRepoHashLen - len "-pr-"
            - maxPreviewPRNumberDigits)%Z in
  if (n <? 1)%Z then 1 else n.

Definition PreviewEnvironmentPrefix (repo : string) (multiRepo : bool) : string :=
  if negb multiRepo then "preview-pr-" else
  let canonicalRepo := CanonicalRepoKey repo in
  let slug := previewRepoSlug canonicalRepo in
  let hash := previewRepoHash canonicalRepo in
  let slug :=
    if (len slug >? maxSlugLen)%Z then
      let slug := trim is_dash (str_take (Z.to_nat maxSlugLen) slug) in
      if String.eqb slug "" then "repo" else slug
    else slug in
  "preview-" +:+ slug +:+ "-" +:+ hash +:+ "-pr-".

Definition PreviewEnvironmentName (repo : string) (prNumber : Z) (multiRepo : bool)
    : string :=
  if negb multiRepo then "preview-pr-" +:+ itoa prNumber
  else PreviewEnvironmentPrefix repo true +:+ itoa prNumber.

(** ** Limits and inverses *)

Definition ValidateProjectEnvLengths (projectName envName : string) : option error :=
  let got := len (EnvNamespace projectName envName) in
  if (got >? MaxNamespaceLen)%Z then
    Some (Errorf "namespace %q exceeds %d-char limit by %d chars; shorten project or env name"
            [EnvNamespace projectName envName; itoa MaxNamespaceLen;
             itoa (got - MaxNamespaceLen)])
  else None.

Definition ProjectFromControlNs (ns : string) : string * bool :=
  if (len ns <=? len ControlNamespacePrefix)%Z then ("", false)
  else if negb (String.eqb (str_take (String.length ControlNamespacePrefix) ns)
                         ControlNamespacePrefix) then ("", false)
  else (str_drop (String.length ControlNamespacePrefix) ns, true).

Definition MemberCRDName (email : string) : string :=
  let encoded := Sha256.hex_encode (Sha256.bytes_of email) in
  if (len "member-" + len encoded <=? 253)%Z then "member-" +:+ encoded
  else "member-" +:+ sha256_hex email.

Definition DeploymentName (appName : string) : string := appName.
Definition CronJobName (appName : string) : string := appName.

(** ** Specification: DNS-1123 labels *)

Definition label_char (c : ascii) : bool := slug_char c || is_dash c.

Definition dns_label (s : string) : bool :=
  negb (String.eqb s "") && (String.length s <=? 63)%nat &&
  sall label_char s && first_ok slug_char s && last_ok slug_char s.

(** ** Lemmas *)

Lemma slug_loop_chars b s : sall label_char (slug_loop b s) = true.
Proof.
  revert b. induction s as [|c s IH]; intros b; simpl; [done|].
  unfold label_char at 1. destruct (slug_char c) eqn:E; simpl; [by rewrite E; simpl|].
  destruct b; simpl; auto.
Qed.

Lemma trim_dash_ends s :
  sall label_char s = true →
  first_ok slug_char (trim is_dash s) = true ∧ last_ok slug_char (trim is_dash s) = true.
Proof.
  intros Hs.
  assert (∀ c, label_char c && negb (is_dash c) = true → slug_char c = true) as Hmono.
  { apply (ascii_imp (λ c, label_char c && negb (is_dash c)) slug_char). reflexivity. }
  pose proof (sall_trim _ is_dash _ Hs) as Ht. split.
  - apply (first_ok_mono _ _ _ Hmono), first_ok_and;
      auto using sall_first_ok, first_ok_trim.
  - apply (last_ok_mono _ _ _ Hmono), last_ok_and;
      auto using sall_last_ok, last_ok_trim.
Qed.

(** A slug part of a label: not empty, label bytes, no dash at the ends. *)
Definition slug_ok (s : string) : Prop :=
  s ≠ EmptyString ∧ sall label_char s = true ∧
  first_ok slug_char s = true ∧ last_ok slug_char s = true.

Lemma slug_or_repo s :
  sall label_char s = true →
  slug_ok (if String.eqb (trim is_dash s) "" then "repo" else trim is_dash s).
Proof.
  intros Hs. destruct (trim_dash_ends s Hs) as [??].
  destruct (String.eqb_spec (trim is_dash s) ""); [by repeat split|].
  repeat split; auto using sall_trim.
Qed.

Lemma previewRepoSlug_ok repo : slug_ok (previewRepoSlug repo).
Proof. apply slug_or_repo, slug_loop_chars. Qed.

Lemma slug_ok_cut s :
  slug_ok s →
  slug_ok (if (len s >? maxSlugLen)%Z then
             let slug := trim is_dash (str_take (Z.to_nat maxSlugLen) s) in
             if String.eqb slug "" then "repo" else slug
           else s).
Proof. intros Hs. destruct (_ >? _)%Z; [|done]. apply slug_or_repo, sall_take, Hs. Qed.

Lemma slug_cut_length s :
  String.length (if (len s >? maxSlugLen)%Z then
             let slug := trim is_dash (str_take (Z.to_nat maxSlugLen) s) in
             if String.eqb slug "" then "repo" else slug
           else s) ≤ 23.
Proof.
  unfold len. change maxSlugLen with 23%Z. change (Z.to_nat 23) with 23.
  destruct (Z.gtb_spec (Z.of_nat (String.length s)) 23); [|lia].
  cbv zeta. destruct (String.eqb _ ""); [simpl; lia|].
  pose proof (trim_length is_dash (str_take 23 s)). rewrite str_take_length in *. lia.
Qed.

#[global] Arguments previewRepoHash : simpl never.

Lemma previewRepoHash_length repo : String.length (previewRepoHash repo) = 8.
Proof. unfold previewRepoHash. by rewrite str_take_length, sha256_hex_length. Qed.

Lemma previewRepoHash_chars repo : sall label_char (previewRepoHash repo) = true.
Proof.
  apply sall_take, (sall_mono Sha256.is_hex), sha256_hex_is_hex.
  apply (ascii_imp Sha256.is_hex label_char). reflexivity.
Qed.

Lemma digits_label s : sall is_digit s = true → sall slug_char s = true.
Proof. apply sall_mono, (ascii_imp is_digit slug_char). reflexivity. Qed.

Lemma slug_label s : sall slug_char s = true → sall label_char s = true.
Proof. apply sall_mono, (ascii_imp slug_char label_char). reflexivity. Qed.

(** A label is assembled from a non-empty head that starts well and a tail that ends
    well. *)
Lemma dns_label_app a b :
  a ≠ EmptyString → b ≠ EmptyString →
  sall label_char a = true → sall label_char b = true →
  first_ok slug_char a = true → last_ok slug_char b = true →
  String.length a + String.length b ≤ 63 → dns_label (a +:+ b) = true.
Proof.
  intros Ha Hb Hca Hcb Hfa Hlb Hlen. unfold dns_label.
  rewrite sall_app, Hca, Hcb, first_ok_app, last_ok_app, Hfa, Hlb, str_app_length by done.
  rewrite (proj2 (Nat.leb_le _ _) Hlen). by destruct a.
Qed.

Lemma dns_label_inv s :
  dns_label s = true →
  s ≠ EmptyString ∧ String.length s ≤ 63 ∧ sall label_char s = true ∧
  first_ok slug_char s = true ∧ last_ok slug_char s = true.
Proof.
  unfold dns_label. rewrite !andb_true_iff, negb_true_iff, Nat.leb_le.
  intros [[[[H ?] ?] ?] ?]. by apply String.eqb_neq in H.
Qed.

(** ** Properties *)

(** For every repository string and every pull-request number of at most 19
    digits, the name of a preview environment is a valid DNS-1123 label of at most 63
    bytes, in the single- and in the multi-repository form, and distinct pull requests
    of one repository have distinct names. *)
Theorem PreviewEnvironmentName_safe repo n multiRepo :
  (0 ≤ n < 10 ^ maxPreviewPRNumberDigits)%Z →
  dns_label (PreviewEnvironmentName repo n multiRepo) = true ∧
  ∀ m, PreviewEnvironmentName repo m multiRepo = PreviewEnvironmentName repo n multiRepo →
       m = n.
Proof.
  intros Hn.
  pose proof (itoa_length 19 n ltac:(lia) Hn) as Hl.
  pose proof (digits_label _ (itoa_digits n (proj1 Hn))) as Hd.
  pose proof (itoa_nonempty n) as Hne.
  unfold PreviewEnvironmentName. destruct multiRepo; simpl negb; cbv iota.
  - split; [|by intros m ?%str_app_inv_head%itoa_inj].
    unfold PreviewEnvironmentPrefix. simpl negb. cbv iota zeta.
    set (slug := if (_ >? _)%Z then _ else _).
    pose proof (slug_ok_cut _ (previewRepoSlug_ok (CanonicalRepoKey repo)))
      as (Hs & Hsc & _ & _).
    pose proof (slug_cut_length (previewRepoSlug (CanonicalRepoKey repo))) as Hsl.
    cbv zeta in Hs, Hsc, Hsl. fold slug in Hs, Hsc, Hsl.
    pose proof (previewRepoHash_length (CanonicalRepoKey repo)) as Hhl.
    pose proof (previewRepoHash_chars (CanonicalRepoKey repo)) as Hhc.
    apply dns_label_app; auto using slug_label, sall_last_ok.
    + by rewrite !sall_app, Hsc, Hhc.
    + rewrite !str_app_length, Hhl.
      change (String.length "preview-") with 8. change (String.length "-") with 1.
      change (String.length "-pr-") with 4. lia.
  - split; [|by intros m ?%str_app_inv_head%itoa_inj].
    apply dns_label_app; auto using slug_label, sall_last_ok. simpl. lia.
Qed.

Lemma PreviewEnvironmentName_safe_witness :
  (0 ≤ 42 < 10 ^ maxPreviewPRNumberDigits)%Z ∧
  dns_label (PreviewEnvironmentName "https://github.com/Acme/My_Web-App.git" 42 true) = true.
Proof.
  split; [vm_compute; split; congruence|].
  apply (PreviewEnvironmentName_safe "https://github.com/Acme/My_Web-App.git" 42 true).
  vm_compute. split; congruence.
Defined.

(** *** Repository keys *)

Lemma path_no_space s : sall url_char s = true → trim_space s = s.
Proof.
  intros Hs. apply trim_id. revert Hs. apply sall_mono.
  apply (ascii_imp url_char (λ c, negb (is_space c))). reflexivity.
Qed.

Lemma trim_suffix_no s p : has_suffix p s = false → trim_suffix p s = s.
Proof. unfold trim_suffix. by intros ->. Qed.

Lemma trim_suffix_slash s :
  last_ok plain s = true → s ≠ EmptyString → trim_suffix "/" s = s.
Proof.
  intros Hl Hne. apply (trim_suffix_last "/"%char ""); [|done].
  apply (last_ok_mono plain); [|done].
  apply (ascii_imp plain (λ c, negb (Ascii.eqb c "/"%char))). reflexivity.
Qed.

Lemma suffix_git_app pre repo :
  repo ≠ EmptyString → sall plain repo = true → has_suffix ".git" repo = false →
  has_suffix ".git" (pre +:+ "/" +:+ repo) = false.
Proof.
  intros Hne Hr Hgit. destruct (has_suffix _ (pre +:+ _)) eqn:E; [|done].
  apply has_suffix_spec in E as [r E].
  destruct (decide (4 ≤ String.length repo)) as [Hlong|Hshort].
  - rewrite <- str_app_assoc in E. symmetry in E.
    destruct (str_app_eq_suffix _ _ _ _ E Hlong) as [m ->].
    rewrite (proj2 (has_suffix_spec ".git" (m +:+ ".git"))) in Hgit by (by exists m). done.
  - destruct (str_app_eq_suffix _ _ _ _ E) as [m Hm].
    + rewrite str_app_length. simpl. lia.
    + apply (f_equal (no_char "/"%char)) in Hm. unfold no_char in Hm.
      rewrite !sall_app in Hm. simpl in Hm. by rewrite andb_false_r in Hm.
Qed.

Section repo_forms.
Context (owner repo : string).
Hypothesis Howner : sall plain owner = true.
Hypothesis Howner_ne : owner ≠ EmptyString.
Hypothesis Hrepo : sall plain repo = true.
Hypothesis Hrepo_ne : repo ≠ EmptyString.

Let full : string := owner +:+ "/" +:+ repo.

Lemma full_ne : full ≠ EmptyString.
Proof. unfold full. by destruct owner. Qed.

Lemma full_path : sall path_char full = true.
Proof.
  unfold full. rewrite !sall_app, (sall_mono plain path_char owner),
    (sall_mono plain path_char repo);
    auto; intros c Hc; unfold path_char; by rewrite Hc.
Qed.

Lemma full_last : last_ok plain full = true.
Proof.
  unfold full. rewrite <- str_app_assoc, last_ok_app by done. by apply sall_last_ok.
Qed.

Lemma full_no (c : ascii) : path_char c = false → no_char c full = true.
Proof.
  intros Hc. generalize full_path. apply sall_mono. intros a Ha.
  destruct (Ascii.eqb_spec a c); [congruence|done].
Qed.

(** The tail of [CanonicalRepoKey], from the removal of the final slash on. *)
Lemma key_of_full :
  (let parts := split "/"%char (trim_suffix "/" full) in
   if (2 <=? length parts)%nat then
     to_lower (nth (length parts - 2) parts "" +:+ "/" +:+ nth (length parts - 1) parts "")
   else to_lower (trim_suffix "/" full)) = to_lower full.
Proof.
  rewrite trim_suffix_slash by (apply full_last || apply full_ne).
  unfold full. change ("/" +:+ repo) with (String "/" repo).
  by rewrite split_app_char, split_no_char by (by apply plain_not).
Qed.

(** Any string that the first steps reduce to [owner/repo] has its key. *)
Lemma key_step s t :
  trim_space (trim_suffix ".git" s) = t → t ≠ EmptyString →
  (if contains "://" t then
     match url_path t with Some p => trim_prefix "/" p | None => t end
   else t) = full →
  CanonicalRepoKey s = to_lower full.
Proof.
  intros Ht Hne Hfull. unfold CanonicalRepoKey. rewrite Ht.
  rewrite (proj2 (String.eqb_neq t "") Hne), Hfull.
  rewrite index_char_none by (by apply full_no). apply key_of_full.
Qed.

Lemma key_plain s :
  trim_suffix ".git" s = full → CanonicalRepoKey s = to_lower full.
Proof.
  intros Ht. eapply (key_step s full); [|apply full_ne|].
  - rewrite Ht. apply path_no_space. apply (sall_mono path_char); [|apply full_path].
    apply path_url.
  - unfold contains. by rewrite contains_no_char by (by apply full_no).
Qed.

Lemma key_url s scheme host :
  sall is_letter scheme = true → scheme ≠ EmptyString → sall plain host = true →
  trim_suffix ".git" s = scheme +:+ "://" +:+ host +:+ "/" +:+ full →
  CanonicalRepoKey s = to_lower full.
Proof.
  intros Hs Hsne Hh Ht. eapply (key_step s); [rewrite Ht; apply path_no_space| |].
  - rewrite !sall_app, (sall_mono is_letter url_char scheme),
      (sall_mono plain url_char host), (sall_mono path_char url_char full)
      by auto using letter_url, plain_url, path_url, full_path.
    reflexivity.
  - by destruct scheme.
  - change (scheme +:+ "://" +:+ host +:+ "/" +:+ full)
      with (scheme +:+ "://" +:+ (host +:+ "/" +:+ full)).
    rewrite contains_app, url_path_plain by (done || apply full_path).
    apply trim_prefix_app.
Qed.

Lemma no_scheme_ssh user host :
  sall plain user = true → sall plain host = true →
  contains "://" (user +:+ "@" +:+ host +:+ ":" +:+ full) = false.
Proof.
  intros Hu Hh.
  replace (user +:+ "@" +:+ host +:+ ":" +:+ full)
    with ((user +:+ "@" +:+ host) +:+ String ":" full) by (by rewrite !str_app_assoc).
  rewrite contains_app_no_char.
  2:{ unfold no_char. rewrite !sall_app.
      by rewrite (plain_not ":"%char eq_refl user Hu : sall _ user = true),
        (plain_not ":"%char eq_refl host Hh : sall _ host = true). }
  cbn [contains]. rewrite contains_no_char by (by apply full_no). rewrite orb_false_r.
  destruct (has_prefix "://" (String ":" full)) eqn:E; [|done].
  apply has_prefix_spec in E as [r [= E]].
  pose proof (full_no "/"%char) as _. pose proof (sall_first_ok _ _ Howner) as Hf.
  unfold full in E. destruct owner; [done|]. injection E as -> _. discriminate Hf.
Qed.

Lemma key_ssh s user host :
  sall plain user = true → sall plain host = true →
  trim_suffix ".git" s = user +:+ "@" +:+ host +:+ ":" +:+ full →
  CanonicalRepoKey s = to_lower full.
Proof.
  intros Hu Hh Ht. unfold CanonicalRepoKey. rewrite Ht.
  assert (sall (λ c, url_char c || Ascii.eqb c "@"%char)
            (user +:+ "@" +:+ host +:+ ":" +:+ full) = true) as Hall.
  { rewrite !sall_app, (sall_mono plain _ user), (sall_mono plain _ host),
      (sall_mono path_char _ full); try done; try apply full_path;
      intros c Hc; unfold url_char, path_char in *; by rewrite Hc. }
  unfold trim_space. rewrite trim_id.
  2:{ revert Hall. apply sall_mono.
      apply (ascii_imp (λ c, url_char c || Ascii.eqb c "@"%char) (λ c, negb (is_space c))).
      reflexivity. }
  rewrite (proj2 (String.eqb_neq _ "")) by (by destruct user).
  rewrite no_scheme_ssh by done.
  assert (index_char "@"%char (user +:+ "@" +:+ host +:+ ":" +:+ full)
          = Some (String.length user)) as ->
    by (by apply (index_char_app "@"%char user (host +:+ ":" +:+ full)), plain_not).
  assert (user +:+ "@" +:+ host +:+ ":" +:+ full
          = (user +:+ "@" +:+ host) +:+ String ":" full) as Hsplit
    by (by rewrite !str_app_assoc).
  rewrite str_drop_app.
  assert (contains ":" ("@" +:+ host +:+ ":" +:+ full) = true) as ->
    by apply (contains_app ":" ("@" +:+ host) full).
  rewrite Hsplit, last_index_char_app by (by apply full_no).
  rewrite str_drop_S_app. apply key_of_full.
Qed.
End repo_forms.

(** A repository [owner/repo] whose names are made of letters, digits, dashes,
    underscores and dots has one key, the lower-cased pair, in each of its spellings:
    the pair itself, an address [scheme://host/owner/repo] and [user@host:owner/repo],
    each with or without the [.git] suffix. *)
Theorem CanonicalRepoKey_forms owner repo scheme host user :
  sall plain owner = true → owner ≠ EmptyString →
  sall plain repo = true → repo ≠ EmptyString → has_suffix ".git" repo = false →
  sall is_letter scheme = true → scheme ≠ EmptyString →
  sall plain host = true → sall plain user = true →
  ∀ s, s ∈ [owner +:+ "/" +:+ repo;
            scheme +:+ "://" +:+ host +:+ "/" +:+ owner +:+ "/" +:+ repo;
            user +:+ "@" +:+ host +:+ ":" +:+ owner +:+ "/" +:+ repo] →
    CanonicalRepoKey s = to_lower (owner +:+ "/" +:+ repo) ∧
    CanonicalRepoKey (s +:+ ".git") = to_lower (owner +:+ "/" +:+ repo).
Proof.
  intros Ho Hone Hr Hrne Hgit Hs Hsne Hh Hu s Hin.
  assert (∀ pre, trim_suffix ".git" (pre +:+ "/" +:+ repo) = pre +:+ "/" +:+ repo) as Hno
    by (intros pre; apply trim_suffix_no, suffix_git_app; done).
  rewrite !elem_of_cons, elem_of_nil in Hin. destruct Hin as [->|[->|[->|[]]]].
  - split; apply key_plain; auto using trim_suffix_app.
  - split; eapply (key_url _ _ Ho Hone Hr Hrne _ scheme host); try done.
    + rewrite <- !str_app_assoc. rewrite (str_app_assoc _ "/" repo). apply Hno.
    + apply trim_suffix_app.
  - split; eapply (key_ssh _ _ Ho Hone Hr Hrne _ user host); try done.
    + rewrite <- !str_app_assoc. rewrite (str_app_assoc _ "/" repo). apply Hno.
    + apply trim_suffix_app.
Qed.

Lemma CanonicalRepoKey_forms_witness :
  has_suffix ".git" "My_App" = false ∧
  CanonicalRepoKey "git@github.com:Acme/My_App.git" = "acme/my_app".
Proof.
  split; [reflexivity|].
  apply (CanonicalRepoKey_forms "Acme" "My_App" "https" "github.com" "git")
    with (s := "git@github.com:Acme/My_App"); try reflexivity; try discriminate.
  do 2 apply list_elem_of_further. apply list_elem_of_here.
Defined.

(** A trailing slash after the suffix is stripped too late: the key keeps [.git], and
    differs from the key of the same repository in any other spelling. *)
Lemma CanonicalRepoKey_slash_after_git :
  CanonicalRepoKey "https://github.com/acme/web.git/" = "acme/web.git" ∧
  CanonicalRepoKey "https://github.com/acme/web.git" = "acme/web".
Proof. split; vm_compute; reflexivity. Qed.

(** *** Namespaces and members *)

(** [ProjectFromControlNs] recognises exactly the control namespaces of projects
    with a non-empty name, and returns that name. *)
Theorem ProjectFromControlNs_spec ns p :
  ProjectFromControlNs ns = (p, true) ↔ ns = ControlNamespace p ∧ p ≠ EmptyString.
Proof.
  unfold ProjectFromControlNs, ControlNamespace, len.
  change (String.length ControlNamespacePrefix) with 3. split.
  - destruct (Z.leb_spec (Z.of_nat (String.length ns)) (Z.of_nat 3)) as [|Hlen]; [done|].
    destruct (String.eqb_spec (str_take 3 ns) ControlNamespacePrefix) as [E|]; [|done].
    intros Heq. cbn [negb] in Heq. assert (p = str_drop 3 ns) as -> by congruence. clear Heq.
    rewrite <- E, str_take_drop. split; [done|]. intros Hd. pose proof (str_drop_length 3 ns) as Hl.
    rewrite Hd in Hl. simpl in Hl. lia.
  - intros [-> Hp]. destruct p as [|c p]; [done|].
    rewrite str_app_length. change (String.length ControlNamespacePrefix) with 3.
    destruct (Z.leb_spec (Z.of_nat (3 + String.length (String c p))) (Z.of_nat 3))
      as [Hle|_]; [simpl in Hle; lia|]. reflexivity.
Qed.

(** When [ValidateProjectEnvLengths] accepts a project and an environment whose
    names are labels, the environment's namespace and the project's control namespace
    are valid namespace names. *)
Theorem ValidateProjectEnvLengths_namespace p e :
  dns_label p = true → dns_label e = true → ValidateProjectEnvLengths p e = None →
  dns_label (EnvNamespace p e) = true ∧ dns_label (ControlNamespace p) = true.
Proof.
  intros (Hp & _ & Hpc & _ & Hpl)%dns_label_inv (He & _ & Hec & _ & Hel)%dns_label_inv.
  unfold ValidateProjectEnvLengths, len, MaxNamespaceLen, EnvNamespace, ControlNamespace.
  destruct (Z.gtb_spec (Z.of_nat (String.length
    (ControlNamespacePrefix +:+ p +:+ "-" +:+ e))) 63) as [|Hlen]; [done|]. intros _.
  rewrite !str_app_length in Hlen.
  change (String.length ControlNamespacePrefix) with 3 in Hlen.
  change (String.length "-") with 1 in Hlen.
  split; apply dns_label_app; try done.
  - by destruct p.
  - by rewrite !sall_app, Hpc, Hec.
  - by rewrite !last_ok_app by (done || by destruct e).
  - rewrite !str_app_length. change (String.length ControlNamespacePrefix) with 3.
    change (String.length "-") with 1. lia.
  - change (String.length ControlNamespacePrefix) with 3. lia.
Qed.

Lemma ValidateProjectEnvLengths_namespace_witness :
  ValidateProjectEnvLengths "my-saas" "production" = None ∧
  dns_label (EnvNamespace "my-saas" "production") = true.
Proof.
  split; [reflexivity|].
  apply (ValidateProjectEnvLengths_namespace "my-saas" "production"); reflexivity.
Defined.

(** The name of a project member's object never exceeds the 253-byte limit of
    object names, and two addresses of at most 123 bytes never share a name. *)
Theorem MemberCRDName_limit_inj :
  (∀ email, String.length (MemberCRDName email) ≤ 253) ∧
  (∀ e1 e2, String.length e1 ≤ 123 → String.length e2 ≤ 123 →
     MemberCRDName e1 = MemberCRDName e2 → e1 = e2).
Proof.
  unfold MemberCRDName, len. change (String.length "member-") with 7. split.
  - intros e. rewrite Sha256.hex_encode_length, Sha256.bytes_of_length.
    destruct (Z.leb_spec (Z.of_nat 7 + Z.of_nat (2 * String.length e)) 253);
      rewrite str_app_length; change (String.length "member-") with 7.
    + rewrite Sha256.hex_encode_length, Sha256.bytes_of_length. lia.
    + rewrite sha256_hex_length. lia.
  - intros e1 e2 H1 H2.
    rewrite !Sha256.hex_encode_length, !Sha256.bytes_of_length.
    destruct (Z.leb_spec (Z.of_nat 7 + Z.of_nat (2 * String.length e1)) 253); [|lia].
    destruct (Z.leb_spec (Z.of_nat 7 + Z.of_nat (2 * String.length e2)) 253); [|lia].
    intros Hx%str_app_inv_head%Sha256.hex_encode_inj; try apply Sha256.bytes_of_bound.
    by apply Sha256.bytes_of_inj.
Qed.
