(* ===== verification/BuildRun.v ===== *)
(** * Build runs: the data, [api/v1alpha1/buildrun_types.go], and the helpers of
    [internal/controller/buildrun_support.go]

    A BuildRun is the durable record of one build of an app for one environment.  The
    app controller creates it, the build run controller executes it and reports its
    outcome in the status of both. *)

From S2P Require Import Prelude GoStrings GoText Sha256 Kube Core Api KubeStatus Constants.

Record BuildRunTargetRef := {
  BuildRunTargetRef_Kind : string;
  BuildRunTargetRef_Name : string;
  BuildRunTargetRef_Namespace : string;
}.
Definition BuildRunTargetRef_zero : BuildRunTargetRef :=
  {|
    BuildRunTargetRef_Kind := ""; BuildRunTargetRef_Name := "";
    BuildRunTargetRef_Namespace := "" |}.

Record BuildRunSpec := {
  BuildRunSpec_AppName : string;
  BuildRunSpec_TargetRef : BuildRunTargetRef;
  BuildRunSpec_Environment : string;
  BuildRunSpec_Trigger : string;
  BuildRunSpec_RequestID : string;
  BuildRunSpec_ProviderRef : string;
  BuildRunSpec_CreatedBy : string;
  BuildRunSpec_TokenOwner : string;
  BuildRunSpec_Repo : string;
  BuildRunSpec_Branch : string;
  BuildRunSpec_Revision : string;
  BuildRunSpec_SourcePath : string;
  BuildRunSpec_Path : string;
  BuildRunSpec_BuildMode : string;
  BuildRunSpec_DockerfilePath : string;
  BuildRunSpec_Dockerfile : string;
  BuildRunSpec_BuildContext : BuildContext;
  BuildRunSpec_BuildArgs : gmap string string;
  BuildRunSpec_PushTarget : string;
  BuildRunSpec_PushImage : string;
  BuildRunSpec_PullTarget : string;
  BuildRunSpec_PullImage : string;
  BuildRunSpec_NoCache : bool;
  BuildRunSpec_InputHash : string;
  BuildRunSpec_TokenSecretRef : option SecretRef;
}.
Definition BuildRunSpec_zero : BuildRunSpec :=
  {|
    BuildRunSpec_AppName := ""; BuildRunSpec_TargetRef := BuildRunTargetRef_zero;
    BuildRunSpec_Environment := ""; BuildRunSpec_Trigger := "";
    BuildRunSpec_RequestID := ""; BuildRunSpec_ProviderRef := "";
    BuildRunSpec_CreatedBy := ""; BuildRunSpec_TokenOwner := ""; BuildRunSpec_Repo := "";
    BuildRunSpec_Branch := ""; BuildRunSpec_Revision := ""; BuildRunSpec_SourcePath := "";
    BuildRunSpec_Path := ""; BuildRunSpec_BuildMode := "";
    BuildRunSpec_DockerfilePath := ""; BuildRunSpec_Dockerfile := "";
    BuildRunSpec_BuildContext := ""; BuildRunSpec_BuildArgs := ∅;
    BuildRunSpec_PushTarget := ""; BuildRunSpec_PushImage := "";
    BuildRunSpec_PullTarget := ""; BuildRunSpec_PullImage := "";
    BuildRunSpec_NoCache := false; BuildRunSpec_InputHash := "";
    BuildRunSpec_TokenSecretRef := None |}.
Definition with_BuildRunSpec_InputHash (v : string) (x : BuildRunSpec) : BuildRunSpec :=
  {|
    BuildRunSpec_AppName := BuildRunSpec_AppName x;
    BuildRunSpec_TargetRef := BuildRunSpec_TargetRef x;
    BuildRunSpec_Environment := BuildRunSpec_Environment x;
    BuildRunSpec_Trigger := BuildRunSpec_Trigger x;
    BuildRunSpec_RequestID := BuildRunSpec_RequestID x;
    BuildRunSpec_ProviderRef := BuildRunSpec_ProviderRef x;
    BuildRunSpec_CreatedBy := BuildRunSpec_CreatedBy x;
    BuildRunSpec_TokenOwner := BuildRunSpec_TokenOwner x;
    BuildRunSpec_Repo := BuildRunSpec_Repo x; BuildRunSpec_Branch := BuildRunSpec_Branch x;
    BuildRunSpec_Revision := BuildRunSpec_Revision x;
    BuildRunSpec_SourcePath := BuildRunSpec_SourcePath x;
    BuildRunSpec_Path := BuildRunSpec_Path x;
    BuildRunSpec_BuildMode := BuildRunSpec_BuildMode x;
    BuildRunSpec_DockerfilePath := BuildRunSpec_DockerfilePath x;
    BuildRunSpec_Dockerfile := BuildRunSpec_Dockerfile x;
    BuildRunSpec_BuildContext := BuildRunSpec_BuildContext x;
    BuildRunSpec_BuildArgs := BuildRunSpec_BuildArgs x;
    BuildRunSpec_PushTarget := BuildRunSpec_PushTarget x;
    BuildRunSpec_PushImage := BuildRunSpec_PushImage x;
    BuildRunSpec_PullTarget := BuildRunSpec_PullTarget x;
    BuildRunSpec_PullImage := BuildRunSpec_PullImage x;
    BuildRunSpec_NoCache := BuildRunSpec_NoCache x; BuildRunSpec_InputHash := v;
    BuildRunSpec_TokenSecretRef := BuildRunSpec_TokenSecretRef x |}.
Definition with_BuildRunSpec_Trigger (v : string) (x : BuildRunSpec) : BuildRunSpec :=
  {|
    BuildRunSpec_AppName := BuildRunSpec_AppName x;
    BuildRunSpec_TargetRef := BuildRunSpec_TargetRef x;
    BuildRunSpec_Environment := BuildRunSpec_Environment x; BuildRunSpec_Trigger := v;
    BuildRunSpec_RequestID := BuildRunSpec_RequestID x;
    BuildRunSpec_ProviderRef := BuildRunSpec_ProviderRef x;
    BuildRunSpec_CreatedBy := BuildRunSpec_CreatedBy x;
    BuildRunSpec_TokenOwner := BuildRunSpec_TokenOwner x;
    BuildRunSpec_Repo := BuildRunSpec_Repo x; BuildRunSpec_Branch := BuildRunSpec_Branch x;
    BuildRunSpec_Revision := BuildRunSpec_Revision x;
    BuildRunSpec_SourcePath := BuildRunSpec_SourcePath x;
    BuildRunSpec_Path := BuildRunSpec_Path x;
    BuildRunSpec_BuildMode := BuildRunSpec_BuildMode x;
    BuildRunSpec_DockerfilePath := BuildRunSpec_DockerfilePath x;
    BuildRunSpec_Dockerfile := BuildRunSpec_Dockerfile x;
    BuildRunSpec_BuildContext := BuildRunSpec_BuildContext x;
    BuildRunSpec_BuildArgs := BuildRunSpec_BuildArgs x;
    BuildRunSpec_PushTarget := BuildRunSpec_PushTarget x;
    BuildRunSpec_PushImage := BuildRunSpec_PushImage x;
    BuildRunSpec_PullTarget := BuildRunSpec_PullTarget x;
    BuildRunSpec_PullImage := BuildRunSpec_PullImage x;
    BuildRunSpec_NoCache := BuildRunSpec_NoCache x;
    BuildRunSpec_InputHash := BuildRunSpec_InputHash x;
    BuildRunSpec_TokenSecretRef := BuildRunSpec_TokenSecretRef x |}.
Definition with_BuildRunSpec_RequestID (v : string) (x : BuildRunSpec) : BuildRunSpec :=
  {|
    BuildRunSpec_AppName := BuildRunSpec_AppName x;
    BuildRunSpec_TargetRef := BuildRunSpec_TargetRef x;
    BuildRunSpec_Environment := BuildRunSpec_Environment x;
    BuildRunSpec_Trigger := BuildRunSpec_Trigger x; BuildRunSpec_RequestID := v;
    BuildRunSpec_ProviderRef := BuildRunSpec_ProviderRef x;
    BuildRunSpec_CreatedBy := BuildRunSpec_CreatedBy x;
    BuildRunSpec_TokenOwner := BuildRunSpec_TokenOwner x;
    BuildRunSpec_Repo := BuildRunSpec_Repo x; BuildRunSpec_Branch := BuildRunSpec_Branch x;
    BuildRunSpec_Revision := BuildRunSpec_Revision x;
    BuildRunSpec_SourcePath := BuildRunSpec_SourcePath x;
    BuildRunSpec_Path := BuildRunSpec_Path x;
    BuildRunSpec_BuildMode := BuildRunSpec_BuildMode x;
    BuildRunSpec_DockerfilePath := BuildRunSpec_DockerfilePath x;
    BuildRunSpec_Dockerfile := BuildRunSpec_Dockerfile x;
    BuildRunSpec_BuildContext := BuildRunSpec_BuildContext x;
    BuildRunSpec_BuildArgs := BuildRunSpec_BuildArgs x;
    BuildRunSpec_PushTarget := BuildRunSpec_PushTarget x;
    BuildRunSpec_PushImage := BuildRunSpec_PushImage x;
    BuildRunSpec_PullTarget := BuildRunSpec_PullTarget x;
    BuildRunSpec_PullImage := BuildRunSpec_PullImage x;
    BuildRunSpec_NoCache := BuildRunSpec_NoCache x;
    BuildRunSpec_InputHash := BuildRunSpec_InputHash x;
    BuildRunSpec_TokenSecretRef := BuildRunSpec_TokenSecretRef x |}.
Definition with_BuildRunSpec_NoCache (v : bool) (x : BuildRunSpec) : BuildRunSpec :=
  {|
    BuildRunSpec_AppName := BuildRunSpec_AppName x;
    BuildRunSpec_TargetRef := BuildRunSpec_TargetRef x;
    BuildRunSpec_Environment := BuildRunSpec_Environment x;
    BuildRunSpec_Trigger := BuildRunSpec_Trigger x;
    BuildRunSpec_RequestID := BuildRunSpec_RequestID x;
    BuildRunSpec_ProviderRef := BuildRunSpec_ProviderRef x;
    BuildRunSpec_CreatedBy := BuildRunSpec_CreatedBy x;
    BuildRunSpec_TokenOwner := BuildRunSpec_TokenOwner x;
    BuildRunSpec_Repo := BuildRunSpec_Repo x; BuildRunSpec_Branch := BuildRunSpec_Branch x;
    BuildRunSpec_Revision := BuildRunSpec_Revision x;
    BuildRunSpec_SourcePath := BuildRunSpec_SourcePath x;
    BuildRunSpec_Path := BuildRunSpec_Path x;
    BuildRunSpec_BuildMode := BuildRunSpec_BuildMode x;
    BuildRunSpec_DockerfilePath := BuildRunSpec_DockerfilePath x;
    BuildRunSpec_Dockerfile := BuildRunSpec_Dockerfile x;
    BuildRunSpec_BuildContext := BuildRunSpec_BuildContext x;
    BuildRunSpec_BuildArgs := BuildRunSpec_BuildArgs x;
    BuildRunSpec_PushTarget := BuildRunSpec_PushTarget x;
    BuildRunSpec_PushImage := BuildRunSpec_PushImage x;
    BuildRunSpec_PullTarget := BuildRunSpec_PullTarget x;
    BuildRunSpec_PullImage := BuildRunSpec_PullImage x; BuildRunSpec_NoCache := v;
    BuildRunSpec_InputHash := BuildRunSpec_InputHash x;
    BuildRunSpec_TokenSecretRef := BuildRunSpec_TokenSecretRef x |}.

Record BuildRunStatus := {
  BuildRunStatus_Phase : BuildRunPhase;
  BuildRunStatus_Attempt : Z;
  BuildRunStatus_JobRef : option string;
  BuildRunStatus_LogRef : option string;
  BuildRunStatus_Image : string;
  BuildRunStatus_Digest : string;
  BuildRunStatus_DetectedPort : Z;
  BuildRunStatus_StartedAt : option Time;
  BuildRunStatus_CompletedAt : option Time;
  BuildRunStatus_FinishedAt : option Time;
  BuildRunStatus_Error : string;
  BuildRunStatus_FailureReason : string;
  BuildRunStatus_FailureMessage : string;
  BuildRunStatus_Conditions : list Condition;
}.
Definition BuildRunStatus_zero : BuildRunStatus :=
  {|
    BuildRunStatus_Phase := ""; BuildRunStatus_Attempt := 0; BuildRunStatus_JobRef := None;
    BuildRunStatus_LogRef := None; BuildRunStatus_Image := ""; BuildRunStatus_Digest := "";
    BuildRunStatus_DetectedPort := 0; BuildRunStatus_StartedAt := None;
    BuildRunStatus_CompletedAt := None; BuildRunStatus_FinishedAt := None;
    BuildRunStatus_Error := ""; BuildRunStatus_FailureReason := "";
    BuildRunStatus_FailureMessage := ""; BuildRunStatus_Conditions := [] |}.
Definition with_BuildRunStatus_Phase (v : BuildRunPhase) (x : BuildRunStatus) : BuildRunStatus :=
  {|
    BuildRunStatus_Phase := v; BuildRunStatus_Attempt := BuildRunStatus_Attempt x;
    BuildRunStatus_JobRef := BuildRunStatus_JobRef x;
    BuildRunStatus_LogRef := BuildRunStatus_LogRef x;
    BuildRunStatus_Image := BuildRunStatus_Image x;
    BuildRunStatus_Digest := BuildRunStatus_Digest x;
    BuildRunStatus_DetectedPort := BuildRunStatus_DetectedPort x;
    BuildRunStatus_StartedAt := BuildRunStatus_StartedAt x;
    BuildRunStatus_CompletedAt := BuildRunStatus_CompletedAt x;
    BuildRunStatus_FinishedAt := BuildRunStatus_FinishedAt x;
    BuildRunStatus_Error := BuildRunStatus_Error x;
    BuildRunStatus_FailureReason := BuildRunStatus_FailureReason x;
    BuildRunStatus_FailureMessage := BuildRunStatus_FailureMessage x;
    BuildRunStatus_Conditions := BuildRunStatus_Conditions x |}.
Definition with_BuildRunStatus_Attempt (v : Z) (x : BuildRunStatus) : BuildRunStatus :=
  {|
    BuildRunStatus_Phase := BuildRunStatus_Phase x; BuildRunStatus_Attempt := v;
    BuildRunStatus_JobRef := BuildRunStatus_JobRef x;
    BuildRunStatus_LogRef := BuildRunStatus_LogRef x;
    BuildRunStatus_Image := BuildRunStatus_Image x;
    BuildRunStatus_Digest := BuildRunStatus_Digest x;
    BuildRunStatus_DetectedPort := BuildRunStatus_DetectedPort x;
    BuildRunStatus_StartedAt := BuildRunStatus_StartedAt x;
    BuildRunStatus_CompletedAt := BuildRunStatus_CompletedAt x;
    BuildRunStatus_FinishedAt := BuildRunStatus_FinishedAt x;
    BuildRunStatus_Error := BuildRunStatus_Error x;
    BuildRunStatus_FailureReason := BuildRunStatus_FailureReason x;
    BuildRunStatus_FailureMessage := BuildRunStatus_FailureMessage x;
    BuildRunStatus_Conditions := BuildRunStatus_Conditions x |}.
Definition with_BuildRunStatus_LogRef (v : option string) (x : BuildRunStatus) : BuildRunStatus :=
  {|
    BuildRunStatus_Phase := BuildRunStatus_Phase x;
    BuildRunStatus_Attempt := BuildRunStatus_Attempt x;
    BuildRunStatus_JobRef := BuildRunStatus_JobRef x; BuildRunStatus_LogRef := v;
    BuildRunStatus_Image := BuildRunStatus_Image x;
    BuildRunStatus_Digest := BuildRunStatus_Digest x;
    BuildRunStatus_DetectedPort := BuildRunStatus_DetectedPort x;
    BuildRunStatus_StartedAt := BuildRunStatus_StartedAt x;
    BuildRunStatus_CompletedAt := BuildRunStatus_CompletedAt x;
    BuildRunStatus_FinishedAt := BuildRunStatus_FinishedAt x;
    BuildRunStatus_Error := BuildRunStatus_Error x;
    BuildRunStatus_FailureReason := BuildRunStatus_FailureReason x;
    BuildRunStatus_FailureMessage := BuildRunStatus_FailureMessage x;
    BuildRunStatus_Conditions := BuildRunStatus_Conditions x |}.
Definition with_BuildRunStatus_Image (v : string) (x : BuildRunStatus) : BuildRunStatus :=
  {|
    BuildRunStatus_Phase := BuildRunStatus_Phase x;
    BuildRunStatus_Attempt := BuildRunStatus_Attempt x;
    BuildRunStatus_JobRef := BuildRunStatus_JobRef x;
    BuildRunStatus_LogRef := BuildRunStatus_LogRef x; BuildRunStatus_Image := v;
    BuildRunStatus_Digest := BuildRunStatus_Digest x;
    BuildRunStatus_DetectedPort := BuildRunStatus_DetectedPort x;
    BuildRunStatus_StartedAt := BuildRunStatus_StartedAt x;
    BuildRunStatus_CompletedAt := BuildRunStatus_CompletedAt x;
    BuildRunStatus_FinishedAt := BuildRunStatus_FinishedAt x;
    BuildRunStatus_Error := BuildRunStatus_Error x;
    BuildRunStatus_FailureReason := BuildRunStatus_FailureReason x;
    BuildRunStatus_FailureMessage := BuildRunStatus_FailureMessage x;
    BuildRunStatus_Conditions := BuildRunStatus_Conditions x |}.
Definition with_BuildRunStatus_Digest (v : string) (x : BuildRunStatus) : BuildRunStatus :=
  {|
    BuildRunStatus_Phase := BuildRunStatus_Phase x;
    BuildRunStatus_Attempt := BuildRunStatus_Attempt x;
    BuildRunStatus_JobRef := BuildRunStatus_JobRef x;
    BuildRunStatus_LogRef := BuildRunStatus_LogRef x;
    BuildRunStatus_Image := BuildRunStatus_Image x; BuildRunStatus_Digest := v;
    BuildRunStatus_DetectedPort := BuildRunStatus_DetectedPort x;
    BuildRunStatus_StartedAt := BuildRunStatus_StartedAt x;
    BuildRunStatus_CompletedAt := BuildRunStatus_CompletedAt x;
    BuildRunStatus_FinishedAt := BuildRunStatus_FinishedAt x;
    BuildRunStatus_Error := BuildRunStatus_Error x;
    BuildRunStatus_FailureReason := BuildRunStatus_FailureReason x;
    BuildRunStatus_FailureMessage := BuildRunStatus_FailureMessage x;
    BuildRunStatus_Conditions := BuildRunStatus_Conditions x |}.
Definition with_BuildRunStatus_DetectedPort (v : Z) (x : BuildRunStatus) : BuildRunStatus :=
  {|
    BuildRunStatus_Phase := BuildRunStatus_Phase x;
    BuildRunStatus_Attempt := BuildRunStatus_Attempt x;
    BuildRunStatus_JobRef := BuildRunStatus_JobRef x;
    BuildRunStatus_LogRef := BuildRunStatus_LogRef x;
    BuildRunStatus_Image := BuildRunStatus_Image x;
    BuildRunStatus_Digest := BuildRunStatus_Digest x; BuildRunStatus_DetectedPort := v;
    BuildRunStatus_StartedAt := BuildRunStatus_StartedAt x;
    BuildRunStatus_CompletedAt := BuildRunStatus_CompletedAt x;
    BuildRunStatus_FinishedAt := BuildRunStatus_FinishedAt x;
    BuildRunStatus_Error := BuildRunStatus_Error x;
    BuildRunStatus_FailureReason := BuildRunStatus_FailureReason x;
    BuildRunStatus_FailureMessage := BuildRunStatus_FailureMessage x;
    BuildRunStatus_Conditions := BuildRunStatus_Conditions x |}.
Definition with_BuildRunStatus_StartedAt (v : option Time) (x : BuildRunStatus) : BuildRunStatus :=
  {|
    BuildRunStatus_Phase := BuildRunStatus_Phase x;
    BuildRunStatus_Attempt := BuildRunStatus_Attempt x;
    BuildRunStatus_JobRef := BuildRunStatus_JobRef x;
    BuildRunStatus_LogRef := BuildRunStatus_LogRef x;
    BuildRunStatus_Image := BuildRunStatus_Image x;
    BuildRunStatus_Digest := BuildRunStatus_Digest x;
    BuildRunStatus_DetectedPort := BuildRunStatus_DetectedPort x;
    BuildRunStatus_StartedAt := v;
    BuildRunStatus_CompletedAt := BuildRunStatus_CompletedAt x;
    BuildRunStatus_FinishedAt := BuildRunStatus_FinishedAt x;
    BuildRunStatus_Error := BuildRunStatus_Error x;
    BuildRunStatus_FailureReason := BuildRunStatus_FailureReason x;
    BuildRunStatus_FailureMessage := BuildRunStatus_FailureMessage x;
    BuildRunStatus_Conditions := BuildRunStatus_Conditions x |}.
Definition with_BuildRunStatus_CompletedAt (v : option Time) (x : BuildRunStatus) : BuildRunStatus :=
  {|
    BuildRunStatus_Phase := BuildRunStatus_Phase x;
    BuildRunStatus_Attempt := BuildRunStatus_Attempt x;
    BuildRunStatus_JobRef := BuildRunStatus_JobRef x;
    BuildRunStatus_LogRef := BuildRunStatus_LogRef x;
    BuildRunStatus_Image := BuildRunStatus_Image x;
    BuildRunStatus_Digest := BuildRunStatus_Digest x;
    BuildRunStatus_DetectedPort := BuildRunStatus_DetectedPort x;
    BuildRunStatus_StartedAt := BuildRunStatus_StartedAt x;
    BuildRunStatus_CompletedAt := v;
    BuildRunStatus_FinishedAt := BuildRunStatus_FinishedAt x;
    BuildRunStatus_Error := BuildRunStatus_Error x;
    BuildRunStatus_FailureReason := BuildRunStatus_FailureReason x;
    BuildRunStatus_FailureMessage := BuildRunStatus_FailureMessage x;
    BuildRunStatus_Conditions := BuildRunStatus_Conditions x |}.
Definition with_BuildRunStatus_FinishedAt (v : option Time) (x : BuildRunStatus) : BuildRunStatus :=
  {|
    BuildRunStatus_Phase := BuildRunStatus_Phase x;
    BuildRunStatus_Attempt := BuildRunStatus_Attempt x;
    BuildRunStatus_JobRef := BuildRunStatus_JobRef x;
    BuildRunStatus_LogRef := BuildRunStatus_LogRef x;
    BuildRunStatus_Image := BuildRunStatus_Image x;
    BuildRunStatus_Digest := BuildRunStatus_Digest x;
    BuildRunStatus_DetectedPort := BuildRunStatus_DetectedPort x;
    BuildRunStatus_StartedAt := BuildRunStatus_StartedAt x;
    BuildRunStatus_CompletedAt := BuildRunStatus_CompletedAt x;
    BuildRunStatus_FinishedAt := v; BuildRunStatus_Error := BuildRunStatus_Error x;
    BuildRunStatus_FailureReason := BuildRunStatus_FailureReason x;
    BuildRunStatus_FailureMessage := BuildRunStatus_FailureMessage x;
    BuildRunStatus_Conditions := BuildRunStatus_Conditions x |}.
Definition with_BuildRunStatus_FailureReason (v : string) (x : BuildRunStatus) : BuildRunStatus :=
  {|
    BuildRunStatus_Phase := BuildRunStatus_Phase x;
    BuildRunStatus_Attempt := BuildRunStatus_Attempt x;
    BuildRunStatus_JobRef := BuildRunStatus_JobRef x;
    BuildRunStatus_LogRef := BuildRunStatus_LogRef x;
    BuildRunStatus_Image := BuildRunStatus_Image x;
    BuildRunStatus_Digest := BuildRunStatus_Digest x;
    BuildRunStatus_DetectedPort := BuildRunStatus_DetectedPort x;
    BuildRunStatus_StartedAt := BuildRunStatus_StartedAt x;
    BuildRunStatus_CompletedAt := BuildRunStatus_CompletedAt x;
    BuildRunStatus_FinishedAt := BuildRunStatus_FinishedAt x;
    BuildRunStatus_Error := BuildRunStatus_Error x; BuildRunStatus_FailureReason := v;
    BuildRunStatus_FailureMessage := BuildRunStatus_FailureMessage x;
    BuildRunStatus_Conditions := BuildRunStatus_Conditions x |}.
Definition with_BuildRunStatus_FailureMessage (v : string) (x : BuildRunStatus) : BuildRunStatus :=
  {|
    BuildRunStatus_Phase := BuildRunStatus_Phase x;
    BuildRunStatus_Attempt := BuildRunStatus_Attempt x;
    BuildRunStatus_JobRef := BuildRunStatus_JobRef x;
    BuildRunStatus_LogRef := BuildRunStatus_LogRef x;
    BuildRunStatus_Image := BuildRunStatus_Image x;
    BuildRunStatus_Digest := BuildRunStatus_Digest x;
    BuildRunStatus_DetectedPort := BuildRunStatus_DetectedPort x;
    BuildRunStatus_StartedAt := BuildRunStatus_StartedAt x;
    BuildRunStatus_CompletedAt := BuildRunStatus_CompletedAt x;
    BuildRunStatus_FinishedAt := BuildRunStatus_FinishedAt x;
    BuildRunStatus_Error := BuildRunStatus_Error x;
    BuildRunStatus_FailureReason := BuildRunStatus_FailureReason x;
    BuildRunStatus_FailureMessage := v;
    BuildRunStatus_Conditions := BuildRunStatus_Conditions x |}.
Definition with_BuildRunStatus_Conditions (v : list Condition) (x : BuildRunStatus) : BuildRunStatus :=
  {|
    BuildRunStatus_Phase := BuildRunStatus_Phase x;
    BuildRunStatus_Attempt := BuildRunStatus_Attempt x;
    BuildRunStatus_JobRef := BuildRunStatus_JobRef x;
    BuildRunStatus_LogRef := BuildRunStatus_LogRef x;
    BuildRunStatus_Image := BuildRunStatus_Image x;
    BuildRunStatus_Digest := BuildRunStatus_Digest x;
    BuildRunStatus_DetectedPort := BuildRunStatus_DetectedPort x;
    BuildRunStatus_StartedAt := BuildRunStatus_StartedAt x;
    BuildRunStatus_CompletedAt := BuildRunStatus_CompletedAt x;
    BuildRunStatus_FinishedAt := BuildRunStatus_FinishedAt x;
    BuildRunStatus_Error := BuildRunStatus_Error x;
    BuildRunStatus_FailureReason := BuildRunStatus_FailureReason x;
    BuildRunStatus_FailureMessage := BuildRunStatus_FailureMessage x;
    BuildRunStatus_Conditions := v |}.

Record BuildRun := {
  BuildRun_ObjectMeta : ObjectMeta;
  BuildRun_Spec : BuildRunSpec;
  BuildRun_Status : BuildRunStatus;
}.
Definition BuildRun_zero : BuildRun :=
  {|
    BuildRun_ObjectMeta := ObjectMeta_zero; BuildRun_Spec := BuildRunSpec_zero;
    BuildRun_Status := BuildRunStatus_zero |}.
Definition with_BuildRun_ObjectMeta (v : ObjectMeta) (x : BuildRun) : BuildRun :=
  {|
    BuildRun_ObjectMeta := v; BuildRun_Spec := BuildRun_Spec x;
    BuildRun_Status := BuildRun_Status x |}.
Definition with_BuildRun_Spec (v : BuildRunSpec) (x : BuildRun) : BuildRun :=
  {|
    BuildRun_ObjectMeta := BuildRun_ObjectMeta x; BuildRun_Spec := v;
    BuildRun_Status := BuildRun_Status x |}.
Definition with_BuildRun_Status (v : BuildRunStatus) (x : BuildRun) : BuildRun :=
  {|
    BuildRun_ObjectMeta := BuildRun_ObjectMeta x; BuildRun_Spec := BuildRun_Spec x;
    BuildRun_Status := v |}.

#[export] Instance BuildRun_object : KubeObject BuildRun :=
  {| obj_meta := BuildRun_ObjectMeta; set_meta := with_BuildRun_ObjectMeta |}.
#[export] Instance BuildRun_object_ok : KubeObjectOk BuildRun.
Proof. split; [done|by intros ? ? []|by intros []]. Qed.
#[export] Instance BuildRun_status : KubeStatusObject BuildRun := λ new, with_BuildRun_Status (BuildRun_Status new).
#[export] Instance BuildRun_status_ok : KubeStatusObjectOk BuildRun.
Proof. by intros ? []. Qed.

#[export] Instance App_status : KubeStatusObject App := λ new, with_App_Status (App_Status new).
#[export] Instance App_status_ok : KubeStatusObjectOk App.
Proof. by intros ? []. Qed.

Definition BuildRunTriggerAuto : string := "auto".
Definition BuildRunTriggerManual : string := "manual".

Definition buildRunTargetKindLabel : string := "mortise.dev/buildrun-target-kind".
Definition buildRunTargetNameLabel : string := "mortise.dev/buildrun-target-name".
Definition buildRunEnvironmentLabel : string := "mortise.dev/buildrun-environment".
Definition rebuildRequestedAtAnnotation : string := "mortise.dev/rebuild-requested-at".
Definition rebuildNoCacheRequestedAtAnnotation : string := "mortise.dev/rebuild-no-cache-requested-at".
Definition noCacheBuildAnnotation : string := "mortise.dev/no-cache-build".
Definition maxK8sNameLength : nat := 63.

Definition run_name (r : BuildRun) : string := meta_Name (BuildRun_ObjectMeta r).
Definition run_ns (r : BuildRun) : string := meta_Namespace (BuildRun_ObjectMeta r).
Definition run_phase (r : BuildRun) : BuildRunPhase := BuildRunStatus_Phase (BuildRun_Status r).

(** ** Names *)

Definition firstNonEmpty (a b : string) : string := if String.eqb a "" then b else a.

Definition shortTag (revision : string) : string := str_take 7 revision.

Definition shortHash (v : string) : string := str_take 10 (sha256_hex v).

Definition trim_dashes : string → string := trim is_dash.

(** The characters the replacer turns into dashes. *)
Definition dashed (c : ascii) : ascii :=
  if existsb (Ascii.eqb c) ["/"%char; "_"%char; "."%char; ":"%char; "@"%char] then "-"%char else c.

Definition sanitizeK8sNamePart (v : string) : string := trim_dashes (smap dashed (to_lower v)).

Definition sanitizeK8sName (v : string) : string :=
  let v := trim_dashes (str_take maxK8sNameLength (sanitizeK8sNamePart v)) in
  if String.eqb v "" then "buildrun" else v.

(** [v] cut to [n] bytes, without the dashes the cut leaves at the ends. *)
Definition cut_name (n : nat) (v : string) : string :=
  if n <? String.length v then trim_dashes (str_take n v) else v.

(** [None] is the panic of a slice out of range. *)
Definition sanitizeK8sNameWithSuffix (prefix suffix fallback : string) : option string :=
  let suffix := sanitizeK8sNamePart suffix in
  if String.eqb suffix "" then Some (sanitizeK8sName prefix)
  else
    let prefix := sanitizeK8sNamePart prefix in
    let maxPrefixLen := (Z.of_nat maxK8sNameLength - Z.of_nat (String.length suffix) - 1)%Z in
    if (maxPrefixLen <=? 0)%Z then
      if maxK8sNameLength <=? String.length suffix then Some (str_take maxK8sNameLength suffix) else None
    else
      let n := Z.to_nat maxPrefixLen in
      let prefix := cut_name n prefix in
      let prefix := if String.eqb prefix "" then cut_name n (sanitizeK8sNamePart fallback) else prefix in
      Some (if String.eqb prefix "" then suffix else prefix +:+ "-" +:+ suffix).

Definition buildRunName (kind targetName environment revision inputHash requestID : string) : option string :=
  let base := to_lower kind +:+ "-" +:+ targetName +:+ "-" +:+ environment +:+ "-" +:+ shortTag revision in
  let suffix := if String.eqb requestID "" then shortHash inputHash else shortHash requestID in
  sanitizeK8sNameWithSuffix base suffix "buildrun".

Definition buildRunLogConfigMapName (runName : string) : option string :=
  sanitizeK8sNameWithSuffix ("buildrun-" +:+ runName) (shortHash runName) "buildrun".

(** ** Hashes of the inputs *)

Definition nl : string := String (Ascii.ascii_of_nat 10) "".

Definition arg_line (args : gmap string string) (k : string) : string :=
  "arg:" +:+ k +:+ "=" +:+ map_get args k +:+ nl.

Definition run_hash_input (R : MapRange) (spec : BuildRunSpec) : string :=
  let t := BuildRunSpec_TargetRef spec in
  let field name v := name +:+ "=" +:+ v +:+ nl in
  field "target-kind" (BuildRunTargetRef_Kind t) +:+ field "target-name" (BuildRunTargetRef_Name t) +:+
  field "target-namespace" (BuildRunTargetRef_Namespace t) +:+ field "env" (BuildRunSpec_Environment spec) +:+
  field "trigger" (BuildRunSpec_Trigger spec) +:+ field "repo" (BuildRunSpec_Repo spec) +:+
  field "branch" (BuildRunSpec_Branch spec) +:+ field "revision" (BuildRunSpec_Revision spec) +:+
  field "source-path" (BuildRunSpec_SourcePath spec) +:+ field "mode" (BuildRunSpec_BuildMode spec) +:+
  field "dockerfile" (BuildRunSpec_DockerfilePath spec) +:+ field "context" (BuildRunSpec_BuildContext spec) +:+
  field "push" (BuildRunSpec_PushTarget spec) +:+ field "pull" (BuildRunSpec_PullTarget spec) +:+
  field "nocache" (if BuildRunSpec_NoCache spec then "true" else "false") +:+
  join "" (arg_line (BuildRunSpec_BuildArgs spec) <$> sort_strings (range (BuildRunSpec_BuildArgs spec)).*1) +:+
  match BuildRunSpec_TokenSecretRef spec with
  | Some ref => "token-secret=" +:+ SecretRef_Namespace ref +:+ "/" +:+ SecretRef_Name ref +:+ ":" +:+
                SecretRef_Key ref +:+ nl
  | None => ""
  end.

Definition buildRunInputHash (R : MapRange) (spec : BuildRunSpec) : string := sha256_hex (run_hash_input R spec).

Definition selection_of (spec : BuildRunSpec) : BuildRunSpec :=
  with_BuildRunSpec_InputHash "" (with_BuildRunSpec_NoCache false
    (with_BuildRunSpec_RequestID "" (with_BuildRunSpec_Trigger "" spec))).

Definition buildRunSelectionHash (R : MapRange) (spec : BuildRunSpec) : string :=
  buildRunInputHash R (selection_of spec).

Definition buildRunLabels (run : BuildRun) : gmap string string :=
  let t := BuildRunSpec_TargetRef (BuildRun_Spec run) in
  <["app.kubernetes.io/managed-by" := "mortise"]>
    (<[buildRunTargetKindLabel := to_lower (BuildRunTargetRef_Kind t)]>
      (<[buildRunTargetNameLabel := BuildRunTargetRef_Name t]>
        {[buildRunEnvironmentLabel := BuildRunSpec_Environment (BuildRun_Spec run)]})).

Definition buildRunReference (run : BuildRun) : BuildRunReference :=
  {| BuildRunReference_Name := run_name run; BuildRunReference_Phase := run_phase run |}.

(** ** The status of an environment *)

Definition status_index (envName : string) (envs : list EnvironmentStatus) : option nat :=
  fst <$> list_find (λ e, EnvironmentStatus_Name e = envName) envs.

Definition envStatusFor (app : App) (envName : string) : option EnvironmentStatus :=
  List.find (λ e, String.eqb (EnvironmentStatus_Name e) envName) (AppStatus_Environments (App_Status app)).

Definition on_status (f : AppStatus → AppStatus) (app : App) : App := with_App_Status (f (App_Status app)) app.

(** An assignment through the pointer [ensureEnvStatus] returns: to the first status of
    the environment, which is added if there is none. *)
Fixpoint update_env (envName : string) (f : EnvironmentStatus → EnvironmentStatus)
    (envs : list EnvironmentStatus) : list EnvironmentStatus :=
  match envs with
  | [] => [f (with_EnvironmentStatus_Name envName EnvironmentStatus_zero)]
  | e :: envs => if String.eqb (EnvironmentStatus_Name e) envName then f e :: envs
                 else e :: update_env envName f envs
  end.

Definition on_env_status (envName : string) (f : EnvironmentStatus → EnvironmentStatus) : App → App :=
  on_status (λ s, with_AppStatus_Environments (update_env envName f (AppStatus_Environments s)) s).

Definition set_run_names (current last : option string) (s : AppStatus) : AppStatus :=
  let s := match current with Some c => with_AppStatus_CurrentBuildRunName c s | None => s end in
  match last with Some l => with_AppStatus_LastBuildRunName l s | None => s end.

Definition projectAppBuildRunStatus (envName : string) (run : BuildRun) (app : App) : App :=
  let ref := buildRunReference run in
  let app := on_env_status envName (with_EnvironmentStatus_CurrentBuildRunRef (Some ref)) app in
  if String.eqb (run_phase run) BuildRunPhaseSucceeded then
    on_env_status envName (with_EnvironmentStatus_LastSuccessfulBuildRunRef (Some ref))
      (on_status (set_run_names (Some "") (Some (run_name run))) app)
  else if String.eqb (run_phase run) BuildRunPhaseFailed then
    on_status (set_run_names (Some "") (Some (run_name run))) app
  else on_status (set_run_names (Some (run_name run)) None) app.

Definition ref_name (ref : option BuildRunReference) : string :=
  match ref with Some r => BuildRunReference_Name r | None => "" end.

Definition currentBuildRunNameForEnv (app : App) (envName : string) : string :=
  match envStatusFor app envName with
  | Some es => ref_name (EnvironmentStatus_CurrentBuildRunRef es)
  | None => ""
  end.

Definition phase_in (phases : list BuildRunPhase) (phase : BuildRunPhase) : bool := existsb (String.eqb phase) phases.

(** The first name, if it is not empty already. *)
Definition aggregate_step '(current, last) (es : EnvironmentStatus) : string * string :=
  match EnvironmentStatus_CurrentBuildRunRef es with
  | None => (current, last)
  | Some r =>
    if phase_in [BuildRunPhasePending; BuildRunPhaseRunning] (BuildRunReference_Phase r)
    then (firstNonEmpty current (BuildRunReference_Name r), last)
    else if phase_in [BuildRunPhaseSucceeded; BuildRunPhaseFailed] (BuildRunReference_Phase r)
    then (current, firstNonEmpty last (BuildRunReference_Name r))
    else (current, last)
  end.

Definition aggregateAppBuildRunNames (envs : list EnvironmentStatus) : string * string :=
  let '(current, last) := fold_left aggregate_step envs ("", "") in
  if String.eqb last "" then
    match List.find (λ es, negb (String.eqb (ref_name (EnvironmentStatus_LastSuccessfulBuildRunRef es)) "")) envs with
    | Some es => (current, ref_name (EnvironmentStatus_LastSuccessfulBuildRunRef es))
    | None => (current, last)
    end
  else (current, last).

(** ** The spec of a run *)

Definition TokenSecretNamespace : string := "mortise-system".
Definition UserTokenSecretName (providerName email : string) : string :=
  "user-" +:+ providerName +:+ "-token-" +:+ Sha256.hex_encode (Sha256.bytes_of email).

Definition buildRunTokenSecretRef (providerName email : string) : option SecretRef :=
  if String.eqb providerName "" || String.eqb email "" then None
  else Some {| SecretRef_Namespace := TokenSecretNamespace;
               SecretRef_Name := UserTokenSecretName providerName email; SecretRef_Key := "token" |}.

Definition app_annotation (app : App) (k : string) : string := map_get (meta_Annotations (App_ObjectMeta app)) k.
Definition app_name (app : App) : string := meta_Name (App_ObjectMeta app).
Definition app_ns (app : App) : string := meta_Namespace (App_ObjectMeta app).
Definition app_source (app : App) : AppSource := AppSpec_Source (App_Spec app).

Definition dockerfilePath (app : App) : string :=
  match AppSource_Build (app_source app) with
  | Some b => firstNonEmpty (Build_DockerfilePath b) "Dockerfile"
  | None => "Dockerfile"
  end.

Definition buildArgsForEnv (app : App) (envName : string) : gmap string string :=
  match List.find (λ e, String.eqb (Environment_Name e) envName) (AppSpec_Environments (App_Spec app)) with
  | Some e => Environment_BuildArgs e
  | None => ∅
  end.

Definition buildContextOf (app : App) : BuildContext :=
  match AppSource_Build (app_source app) with Some b => Build_Context b | None => "" end.

Definition buildModeOf (app : App) : BuildMode :=
  match AppSource_Build (app_source app) with
  | Some b => firstNonEmpty (Build_Mode b) BuildModeAuto
  | None => BuildModeAuto
  end.

Definition request_id (app : App) : string :=
  firstNonEmpty (app_annotation app rebuildRequestedAtAnnotation)
    (app_annotation app rebuildNoCacheRequestedAtAnnotation).

Definition no_cache_flag (app : App) : bool := String.eqb (app_annotation app noCacheBuildAnnotation) "true".

Definition hasPendingRebuildRequest (app : App) : bool :=
  negb (String.eqb (app_annotation app rebuildRequestedAtAnnotation) "") ||
  negb (String.eqb (app_annotation app rebuildNoCacheRequestedAtAnnotation) "") || no_cache_flag app.

Definition clearRebuildRequestMarkers (app : App) : App :=
  with_App_ObjectMeta
    (with_annotations
       (delete noCacheBuildAnnotation (delete rebuildNoCacheRequestedAtAnnotation
          (delete rebuildRequestedAtAnnotation (meta_Annotations (App_ObjectMeta app)))))
       (App_ObjectMeta app)) app.

Definition appBuildRunSpec (R : MapRange) (app : App) (envName branch revision pushTarget pullTarget : string)
    : BuildRunSpec :=
  let src := app_source app in
  let owner := app_annotation app "mortise.dev/git-token-owner" in
  let spec :=
    {| BuildRunSpec_AppName := app_name app;
       BuildRunSpec_TargetRef :=
         {| BuildRunTargetRef_Kind := BuildRunTargetAppEnvironment; BuildRunTargetRef_Name := app_name app;
            BuildRunTargetRef_Namespace := app_ns app |};
       BuildRunSpec_Environment := envName;
       BuildRunSpec_Trigger := if negb (String.eqb (request_id app) "") || no_cache_flag app
                               then BuildRunTriggerManual else BuildRunTriggerAuto;
       BuildRunSpec_RequestID := request_id app;
       BuildRunSpec_ProviderRef := AppSource_ProviderRef src;
       BuildRunSpec_CreatedBy := app_annotation app "mortise.dev/created-by";
       BuildRunSpec_TokenOwner := owner;
       BuildRunSpec_Repo := AppSource_Repo src;
       BuildRunSpec_Branch := firstNonEmpty branch "main";
       BuildRunSpec_Revision := revision;
       BuildRunSpec_SourcePath := AppSource_Path src;
       BuildRunSpec_Path := AppSource_Path src;
       BuildRunSpec_BuildMode := buildModeOf app;
       BuildRunSpec_DockerfilePath := dockerfilePath app;
       BuildRunSpec_Dockerfile := dockerfilePath app;
       BuildRunSpec_BuildContext := buildContextOf app;
       BuildRunSpec_BuildArgs := buildArgsForEnv app envName;
       BuildRunSpec_PushTarget := pushTarget;
       BuildRunSpec_PushImage := pushTarget;
       BuildRunSpec_PullTarget := pullTarget;
       BuildRunSpec_PullImage := pullTarget;
       BuildRunSpec_NoCache :=
         negb (String.eqb (app_annotation app rebuildNoCacheRequestedAtAnnotation) "") || no_cache_flag app;
       BuildRunSpec_InputHash := "";
       BuildRunSpec_TokenSecretRef := buildRunTokenSecretRef (AppSource_ProviderRef src) owner |} in
  with_BuildRunSpec_InputHash (buildRunInputHash R spec) spec.

Definition buildRunMatchesAppSpec (R : MapRange) (run : BuildRun) (app : App) (envName : string)
    (spec : BuildRunSpec) : bool :=
  let s := BuildRun_Spec run in
  String.eqb (BuildRunTargetRef_Kind (BuildRunSpec_TargetRef s)) BuildRunTargetAppEnvironment &&
  String.eqb (BuildRunTargetRef_Name (BuildRunSpec_TargetRef s)) (app_name app) &&
  String.eqb (BuildRunSpec_Environment s) envName &&
  String.eqb (BuildRunSpec_Revision s) (BuildRunSpec_Revision spec) &&
  String.eqb (buildRunSelectionHash R s) (buildRunSelectionHash R spec).

Definition isBuildRunTerminal (br : BuildRun) : bool :=
  phase_in [BuildRunPhaseSucceeded; BuildRunPhaseFailed] (run_phase br).

Definition setBuildRunCondition {C : ConditionHelpers} (phase : BuildRunPhase) (generation : Z)
    (message : string) (now : Time) : list Condition → list Condition :=
  SetStatusCondition
    {| Condition_Type := "Completed";
       Condition_Status := if String.eqb phase BuildRunPhaseSucceeded then "True" else "False";
       Condition_ObservedGeneration := generation; Condition_LastTransitionTime := now;
       Condition_Reason := if String.eqb phase BuildRunPhaseSucceeded then "BuildSucceeded"
                           else if String.eqb phase BuildRunPhaseRunning then "BuildRunning" else phase;
       Condition_Message := message |}.

(** The labels of the resources of an app; [None] is the panic for an app outside a
    control namespace. *)
Definition appLabels (app : App) (env : string) : option (gmap string string) :=
  match ProjectFromControlNs (app_ns app) with
  | (projectName, true) =>
    let l : gmap string string :=
      <[AppNameLabel := app_name app]> (<["app.kubernetes.io/managed-by" := "mortise"]>
        {[ProjectLabel := projectName]}) in
    Some (if String.eqb env "" then l else <[EnvironmentLabel := env]> l)
  | (_, false) => None
  end.
