(* ===== verification/EnvStore.v ===== *)
(** * The environment store: [internal/envstore]

    Environment variables of an app live in one Secret per app and environment, those
    shared by the apps of an environment in another.  Annotations of the Secret record
    where each variable came from.  Every write is a read-modify-write under optimistic
    concurrency ([applySecret]). *)

From S2P Require Import Prelude GoStrings Sha256 GoUrl Kube Core Constants.

Definition AppEnvSuffix : string := "-env".
Definition SharedEnvName : string := "shared-env".
Definition SharedVarsSourceName : string := "shared-vars".

Definition AnnotationBindingKeys : string := "mortise.dev/binding-keys".
Definition AnnotationGeneratedKeys : string := "mortise.dev/generated-keys".
Definition AnnotationSharedKeys : string := "mortise.dev/shared-keys".
Definition AnnotationRetainedKeys : string := "mortise.dev/retained-keys".
Definition AnnotationLastSpecEnv : string := "mortise.dev/last-spec-env".
Definition AnnotationLastSpecEnvDigest : string := "mortise.dev/last-spec-env-digest".

(** The four source annotations, in the order the code visits them. *)
Definition source_annotations : list string :=
  [AnnotationBindingKeys; AnnotationGeneratedKeys; AnnotationSharedKeys;
   AnnotationRetainedKeys].

Definition AppEnvSecretName (appName : string) : string := appName +:+ AppEnvSuffix.

(** The Secrets a container's environment is built from; a later one wins. *)
Definition envSourceNames (appName : string) : list string :=
  [SharedEnvName; AppEnvSecretName appName].

(** A required [envFrom] entry is the name of its Secret. *)
Definition EnvFromSources (appName : string) : list string := envSourceNames appName.

Record Env := { env_Name : string; env_Value : string; env_Source : string }.

#[export] Instance Env_eq_dec : EqDecision Env.
Proof. solve_decision. Defined.

(** ** Names *)

Definition name_start (c : ascii) : bool := is_letter c || Ascii.eqb c "_"%char.
Definition name_char (c : ascii) : bool := name_start c || is_digit c.

(** The regular expression [^[A-Za-z_][A-Za-z0-9_]*$]. *)
Definition validEnvVarName (name : string) : bool :=
  match name with
  | EmptyString => false
  | String c rest => name_start c && sall name_char rest
  end.

Definition ValidateEnvVarName (name : string) : option error :=
  if negb (validEnvVarName name)
  then Some (Errorf "invalid env var name %q: must match [A-Za-z_][A-Za-z0-9_]*" [name])
  else None.

Fixpoint validateEnvVars (vars : list Env) : option error :=
  match vars with
  | [] => None
  | v :: vars' =>
    match ValidateEnvVarName (env_Name v) with
    | Some err => Some err
    | None => validateEnvVars vars'
    end
  end.

(** ** Encoding into a Secret *)

(** The names of the variables of one source, in the order of the loop. *)
Definition source_keys (source : string) (vars : list Env) : list string :=
  env_Name <$> List.filter (λ e, String.eqb (env_Source e) source) vars.

(** [if len(keys) > 0 { sort.Strings(keys); annotations[a] = strings.Join(keys, ",") }] *)
Definition annotate (a : string) (keys : list string) (m : gmap string string)
    : gmap string string :=
  match keys with
  | [] => m
  | _ => <[a := join "," (sort_strings keys)]> m
  end.

Definition vars_data (vars : list Env) : gmap string string :=
  fold_left (λ m e, <[env_Name e := env_Value e]> m) vars ∅.

Definition buildSecret (R : MapRange) (namespace name : string) (vars : list Env)
    (extraLabels : gmap string string) : Secret :=
  let bindingKeys := source_keys "binding" vars in
  let generatedKeys := source_keys "generated" vars in
  let sharedKeys := source_keys "shared" vars in
  let retainedKeys := source_keys "retained" vars in
  let labels := map_copy R {[ManagedByLabel := ManagedByValue]} extraLabels in
  let annotations := annotate AnnotationBindingKeys bindingKeys ∅ in
  let annotations := annotate AnnotationGeneratedKeys generatedKeys annotations in
  let annotations := annotate AnnotationSharedKeys sharedKeys annotations in
  let annotations := annotate AnnotationRetainedKeys retainedKeys annotations in
  {| sec_meta := with_labels labels (with_annotations annotations
                   (with_name name (with_namespace namespace ObjectMeta_zero)));
     sec_Type := ""; sec_Data := vars_data vars |}.

(** ** Decoding *)

Definition parseKeySet (csv : string) : gset string :=
  if String.eqb csv "" then ∅
  else list_to_set (List.filter (λ k, negb (String.eqb k "")) (trim_space <$> split ","%char csv)).

Definition secretToEnvs (R : MapRange) (secret : Secret) : list Env :=
  let bindingSet := parseKeySet (map_get (sec_Annotations secret) AnnotationBindingKeys) in
  let generatedSet := parseKeySet (map_get (sec_Annotations secret) AnnotationGeneratedKeys) in
  let sharedSet := parseKeySet (map_get (sec_Annotations secret) AnnotationSharedKeys) in
  let retainedSet := parseKeySet (map_get (sec_Annotations secret) AnnotationRetainedKeys) in
  let envs :=
    (λ '(k, v),
      let source :=
        if bool_decide (k ∈ bindingSet) then "binding"
        else if bool_decide (k ∈ generatedSet) then "generated"
        else if bool_decide (k ∈ sharedSet) then "shared"
        else if bool_decide (k ∈ retainedSet) then "retained"
        else "user" in
      {| env_Name := k; env_Value := v; env_Source := source |}) <$> range (sec_Data secret) in
  sort_by env_Name envs.

Definition removeKeyFromAnnotations (secret : Secret) (key : string) : Secret :=
  let anns :=
    fold_left (λ anns ann,
      match anns !! ann with
      | Some csv =>
        let filtered :=
          List.filter (λ k, negb (String.eqb (trim_space k) key)) (split ","%char csv) in
        match filtered with
        | [] => delete ann anns
        | _ => <[ann := join "," filtered]> anns
        end
      | None => anns
      end) source_annotations (sec_Annotations secret) in
  sec_with_annotations anns secret.

Definition secretDataEqual (R : MapRange) (existing desired : gmap string string) : bool :=
  if (size existing =? 0)%nat && (size desired =? 0)%nat then true
  else if negb (size existing =? size desired)%nat then false
  else forallb (λ '(key, desiredValue),
         match existing !! key with
         | Some existingValue => String.eqb existingValue desiredValue
         | None => false
         end) (range desired).

(** [for k, v := range desired { if existing[k] != v { existing[k] = v; changed = true } }] *)
Definition overlay (R : MapRange) (existing desired : gmap string string) (changed : bool)
    : gmap string string * bool :=
  fold_left (λ '(m, ch) '(k, v),
    if negb (String.eqb (map_get m k) v) then (<[k := v]> m, true) else (m, ch))
    (range desired) (existing, changed).

Definition applyDesiredSecret (R : MapRange) (existing desired : Secret) : Secret * bool :=
  let '(existing, changed) :=
    if negb (secretDataEqual R (sec_Data existing) (sec_Data desired))
    then (with_data (sec_Data desired) existing, true)
    else (existing, false) in
  let '(anns, changed) :=
    fold_left (λ '(anns, ch) key,
      match anns !! key with
      | Some _ => (delete key anns, true)
      | None => (anns, ch)
      end) source_annotations (sec_Annotations existing, changed) in
  let '(anns, changed) := overlay R anns (sec_Annotations desired) changed in
  let '(labels, changed) := overlay R (sec_Labels existing) (sec_Labels desired) changed in
  (sec_with_labels labels (sec_with_annotations anns existing), changed).

(** Overlays [vars] on [current] by name. *)
Definition mergeEnvs (R : MapRange) (current vars : list Env) : list Env :=
  let merged := fold_left (λ m e, <[env_Name e := e]> m) current (∅ : gmap string Env) in
  let merged := fold_left (λ m e, <[env_Name e := e]> m) vars merged in
  (range merged).*2.

(** ** Hashing *)

Definition nul : ascii := Ascii.ascii_of_nat 0.

Definition hash_input (data : gmap string string) (keys : list string) : string :=
  foldr (λ k acc, k +:+ "=" +:+ map_get data k +:+ String nul acc) "" keys.

Definition HashData (R : MapRange) (data : gmap string string) : string :=
  if (size data =? 0)%nat then ""
  else sha256_hex (hash_input data (sort_strings (range data).*1)).

(** ** Operations

    [Store] methods take the client from the context. *)

Definition ErrSkip : string := "envstore: skip apply".

(** [k8serrors.NewConflict(corev1.Resource("secrets"), name, err)]. *)
Definition NewConflict (name : string) (cause : error) : error := KubeError Conflict name.

(** [retry.go]: re-read the latest object and retry the update on a conflict. *)
Definition UpdateWithConflictRetry {W Obj} {C : KubeClient W Obj} {KR : KubeRetry W}
    (key : NamespacedName) (mutate : Obj → Obj * (error + bool)) : W → W * option error :=
  RetryOnConflict (λ w,
    match kget key w with
    | (w, inl err) => (w, Some err)
    | (w, inr obj) =>
      match mutate obj with
      | (_, inl err) => (w, Some err)
      | (_, inr false) => (w, None)
      | (obj, inr true) => kupdate obj w
      end
    end).

Section store.
Context {W : Type} {C : KubeClient W Secret} {KR : KubeRetry W} (R : MapRange).

Definition getSecret (namespace name : string) : W → W * (error + Secret) :=
  kget (namespace, name).

(** The read behind [Get], [GetShared] and [GetSharedSource]: a missing Secret has
    no variables. *)
Definition getEnvs (namespace name : string) (w : W) : W * (error + list Env) :=
  match getSecret namespace name w with
  | (w, inl err) => if IsNotFound err then (w, inr []) else (w, inl err)
  | (w, inr secret) => (w, inr (secretToEnvs R secret))
  end.

Definition Get (namespace appName : string) : W → W * (error + list Env) :=
  getEnvs namespace (AppEnvSecretName appName).
Definition GetShared (namespace : string) : W → W * (error + list Env) :=
  getEnvs namespace SharedEnvName.
Definition GetSharedSource (controlNs : string) : W → W * (error + list Env) :=
  getEnvs controlNs SharedVarsSourceName.

(** One attempt of the loop of [applySecret]. *)
Definition applySecret_attempt (namespace name : string) (labels : gmap string string)
    (mutate : list Env → error + list Env) (w : W) : W * option error :=
  let '(w, got) := getSecret namespace name w in
  let write (current : list Env) (store : Secret → W * option error) :=
    match mutate current with
    | inl err => if errors_Is ErrSkip err then (w, None) else (w, Some err)
    | inr vars =>
      match validateEnvVars vars with
      | Some err => (w, Some err)
      | None => store (buildSecret R namespace name vars labels)
      end
    end in
  match got with
  | inl getErr =>
    if negb (IsNotFound getErr)
    then (w, Some (Wrapf "get env secret %s/%s: %w" [namespace; name] getErr))
    else write [] (λ desired,
      match kcreate desired w with
      | (w, None) => (w, None)
      | (w, Some createErr) =>
        if IsAlreadyExists createErr then (w, Some (NewConflict name createErr))
        else (w, Some (Wrapf "create env secret %s/%s: %w" [namespace; name] createErr))
      end)
  | inr existing => write (secretToEnvs R existing) (λ desired,
      match applyDesiredSecret R existing desired with
      | (_, false) => (w, None)
      | (existing, true) => kupdate existing w
      end)
  end.

Definition applySecret (namespace name : string) (labels : gmap string string)
    (mutate : list Env → error + list Env) : W → W * option error :=
  RetryOnConflict (applySecret_attempt namespace name labels mutate).

Definition Apply (namespace appName : string) :=
  applySecret namespace (AppEnvSecretName appName).

Definition upsertSecret (namespace name : string) (vars : list Env)
    (labels : gmap string string) : W → W * option error :=
  applySecret namespace name labels (λ _, inr vars).

(** [if err := validateEnvVars(vars); err != nil { return err }], then [op]. *)
Definition validated (vars : list Env) (op : W → W * option error) (w : W)
    : W * option error :=
  match validateEnvVars vars with
  | Some err => (w, Some err)
  | None => op w
  end.

Definition Set_ (namespace appName : string) (vars : list Env) (labels : gmap string string) :=
  validated vars (upsertSecret namespace (AppEnvSecretName appName) vars labels).
Definition SetShared (namespace : string) (vars : list Env) (labels : gmap string string) :=
  validated vars (upsertSecret namespace SharedEnvName vars labels).
Definition SetSharedSource (controlNs : string) (vars : list Env) (labels : gmap string string) :=
  validated vars (upsertSecret controlNs SharedVarsSourceName vars labels).

Definition Merge (namespace appName : string) (vars : list Env) (labels : gmap string string) :=
  validated vars (Apply namespace appName labels (λ current, inr (mergeEnvs R current vars))).
Definition MergeShared (namespace : string) (vars : list Env) (labels : gmap string string) :=
  validated vars
    (applySecret namespace SharedEnvName labels (λ current, inr (mergeEnvs R current vars))).
Definition MergeSharedSource (controlNs : string) (vars : list Env)
    (labels : gmap string string) :=
  validated vars
    (applySecret controlNs SharedVarsSourceName labels
       (λ current, inr (mergeEnvs R current vars))).

(** The callback of [ReplaceSource]. *)
Definition replace_source (source : string) (vars current : list Env) : list Env :=
  List.filter (λ e, negb (String.eqb (env_Source e) source)) current ++ vars.

Definition ReplaceSource (namespace appName source : string) (vars : list Env)
    (labels : gmap string string) :=
  validated vars
    (Apply namespace appName labels (λ current, inr (replace_source source vars current))).

(** The callback of [Delete]. *)
Definition delete_key (key : string) (secret : Secret) : Secret * (error + bool) :=
  match sec_Data secret !! key with
  | None => (secret, inr false)
  | Some _ =>
    (removeKeyFromAnnotations (with_data (delete key (sec_Data secret)) secret) key, inr true)
  end.

Definition Delete (namespace appName key : string) (w : W) : W * option error :=
  let name := AppEnvSecretName appName in
  match getSecret namespace name w with
  | (w, inl err) => if IsNotFound err then (w, None) else (w, Some err)
  | (w, inr secret) =>
    match sec_Data secret !! key with
    | None => (w, None)
    | Some _ => UpdateWithConflictRetry (namespace, name) (delete_key key) w
    end
  end.

Definition SecretExists (namespace appName : string) (w : W) : W * (error + bool) :=
  match kget (namespace, AppEnvSecretName appName) w with
  | (w, inr _) => (w, inr true)
  | (w, inl err) => if IsNotFound err then (w, inr false) else (w, inl err)
  end.

(** [EnsureExists] and [EnsureSharedExists]: create the empty Secret unless there is
    one; losing the race to another creator is fine. *)
Definition ensureSecret (namespace name : string) (labels : gmap string string) (w : W)
    : W * option error :=
  match kget (namespace, name) w with
  | (w, inr _) => (w, None)
  | (w, inl err) =>
    if negb (IsNotFound err) then (w, Some err)
    else match kcreate (buildSecret R namespace name [] labels) w with
         | (w, Some err) => if IsAlreadyExists err then (w, None) else (w, Some err)
         | (w, None) => (w, None)
         end
  end.

Definition EnsureExists (namespace appName : string) :=
  ensureSecret namespace (AppEnvSecretName appName).
Definition EnsureSharedExists (namespace : string) := ensureSecret namespace SharedEnvName.

(** The body of the loop of [EnvHash]. *)
Definition envHash_step (envNs : string) '((w, combined) : W * gmap string string)
    (name : string) : W * gmap string string :=
  match kget (envNs, name) w with
  | (w, inl _) => (w, combined)
  | (w, inr sec) => (w, map_copy R combined (sec_Data sec))
  end.

Definition EnvHash (appName envNs : string) (w : W) : W * string :=
  let '(w, combined) := fold_left (envHash_step envNs) (envSourceNames appName) (w, ∅) in
  (w, HashData R combined).

Definition RetainedKeys (appName envNs : string) (w : W) : W * list string :=
  match kget (envNs, AppEnvSecretName appName) w with
  | (w, inl _) => (w, [])
  | (w, inr sec) =>
    (w, sort_strings (elements
          (parseKeySet (map_get (sec_Annotations sec) AnnotationRetainedKeys))))
  end.
End store.

(** ** Names *)

Lemma name_char_no_comma c : name_char c = true → negb (Ascii.eqb c ","%char) = true.
Proof. revert c. by apply ascii_imp. Qed.
Lemma name_char_no_space c : name_char c = true → negb (is_space c) = true.
Proof. revert c. by apply ascii_imp. Qed.
Lemma name_char_no_eq c : name_char c = true → negb (Ascii.eqb c "="%char) = true.
Proof. revert c. by apply ascii_imp. Qed.
Lemma name_start_char c : name_start c = true → name_char c = true.
Proof. unfold name_char. by intros ->. Qed.

Lemma validEnvVarName_chars name :
  validEnvVarName name = true → name ≠ "" ∧ sall name_char name = true.
Proof.
  destruct name as [|c rest]; simpl; [done|]. rewrite andb_true_iff. intros [Hc Hr].
  split; [done|]. by rewrite (name_start_char c), Hr.
Qed.

Definition valid_names (vars : list Env) : Prop :=
  ∀ e, e ∈ vars → validEnvVarName (env_Name e) = true.

Lemma validateEnvVars_ok vars : validateEnvVars vars = None ↔ valid_names vars.
Proof.
  unfold valid_names. induction vars as [|v vars IH]; simpl.
  { split; [intros _ e He; by apply elem_of_nil in He | done]. }
  unfold ValidateEnvVarName. destruct (validEnvVarName (env_Name v)) eqn:E; simpl.
  - rewrite IH. split.
    + intros H e [->|]%elem_of_cons; auto.
    + intros H e He. apply H. by right.
  - split; [done|]. intros H. specialize (H v (list_elem_of_here _ _)). congruence.
Qed.

Lemma parse_valid_keys keys :
  (∀ k, k ∈ keys → validEnvVarName k = true) →
  parseKeySet (join "," (sort_strings keys)) = list_to_set keys.
Proof.
  intros Hv. assert (∀ k, k ∈ sort_strings keys → k ≠ "" ∧ sall name_char k = true) as Hs.
  { intros k Hk. apply validEnvVarName_chars, Hv. by rewrite <- elem_of_sort_strings. }
  destruct (decide (keys = [])) as [->|Hne]; [done|].
  assert (sort_strings keys ≠ []) as Hne' by (by rewrite sort_strings_nil).
  unfold parseKeySet.
  assert (split ","%char (join "," (sort_strings keys)) = sort_strings keys) as Hsplit.
  { apply (split_join ","%char); [done|]. intros k Hk. destruct (Hs k Hk) as [_ Hc].
    eapply sall_mono; [|exact Hc]. apply name_char_no_comma. }
  destruct (String.eqb_spec (join "," (sort_strings keys)) "") as [He|_].
  { rewrite He in Hsplit. simpl in Hsplit. rewrite <- Hsplit in Hs.
    destruct (Hs "" (list_elem_of_here _ _)) as [? _]. done. }
  rewrite Hsplit.
  assert (trim_space <$> sort_strings keys = sort_strings keys) as ->.
  { rewrite <- (list_fmap_id (sort_strings keys)) at 2. apply list_fmap_ext.
    intros i k Hk%list_elem_of_lookup_2. apply trim_id.
    destruct (Hs k Hk) as [_ Hc]. eapply sall_mono; [|exact Hc]. apply name_char_no_space. }
  rewrite list_filter_bool_all.
  - apply set_eq. intros k. by rewrite !elem_of_list_to_set, elem_of_sort_strings.
  - intros k Hk. apply negb_true_iff, String.eqb_neq. by apply Hs.
Qed.

(** ** Encoding *)

(** The key list a Secret records for a source. *)
Definition recorded (secret : Secret) (ann : string) : string :=
  map_get (sec_Annotations secret) ann.

Lemma map_get_annotate a b keys m :
  map_get m a = "" →
  map_get (annotate a keys m) b =
  if decide (a = b) then join "," (sort_strings keys) else map_get m b.
Proof.
  intros Ha. unfold annotate. destruct keys as [|k keys].
  { case_decide; [by subst|done]. }
  unfold map_get at 1. rewrite lookup_insert. by case_decide.
Qed.

Lemma map_get_annotate_ne a b keys m :
  a ≠ b → map_get (annotate a keys m) b = map_get m b.
Proof. intros. unfold annotate, map_get. destruct keys; [done|]. by rewrite lookup_insert_ne. Qed.

Definition annotation_source (ann : string) : string :=
  if String.eqb ann AnnotationBindingKeys then "binding"
  else if String.eqb ann AnnotationGeneratedKeys then "generated"
  else if String.eqb ann AnnotationSharedKeys then "shared" else "retained".

Lemma recorded_buildSecret R ns name vars labels ann :
  ann ∈ source_annotations →
  recorded (buildSecret R ns name vars labels) ann =
  join "," (sort_strings (source_keys (annotation_source ann) vars)).
Proof.
  unfold recorded, sec_Annotations, buildSecret. cbn [sec_meta meta_Annotations with_labels with_annotations].
  intros Hin. repeat (apply elem_of_cons in Hin as [->|Hin]); [..|by apply elem_of_nil in Hin];
    (repeat (rewrite map_get_annotate_ne by done); rewrite map_get_annotate;
      [by rewrite decide_True | by repeat (rewrite map_get_annotate_ne by done)]).
Qed.

Lemma elem_of_source_keys k source vars :
  k ∈ source_keys source vars ↔ ∃ e, e ∈ vars ∧ env_Source e = source ∧ env_Name e = k.
Proof.
  unfold source_keys. rewrite list_elem_of_fmap. setoid_rewrite list_elem_of_In.
  setoid_rewrite filter_In. setoid_rewrite String.eqb_eq. split.
  - intros (e & -> & He & Hs). by exists e.
  - intros (e & He & Hs & <-). by exists e.
Qed.

Lemma source_keys_valid source vars k :
  valid_names vars → k ∈ source_keys source vars → validEnvVarName k = true.
Proof. intros Hv (e & He & _ & <-)%elem_of_source_keys. by apply Hv. Qed.

Lemma parse_recorded R ns name vars labels ann :
  ann ∈ source_annotations → valid_names vars →
  parseKeySet (recorded (buildSecret R ns name vars labels) ann) =
  list_to_set (source_keys (annotation_source ann) vars).
Proof.
  intros Hann Hv. rewrite recorded_buildSecret by done. apply parse_valid_keys.
  intros k. by apply source_keys_valid.
Qed.

(** What is stored of a variable: an unknown source reads back as the user's. *)
Definition stored_source (source : string) : string :=
  if bool_decide (source ∈ ["binding"; "generated"; "shared"; "retained"])
  then source else "user".
Definition stored (e : Env) : Env :=
  {| env_Name := env_Name e; env_Value := env_Value e;
     env_Source := stored_source (env_Source e) |}.

Lemma vars_data_list_to_map vars :
  NoDup (env_Name <$> vars) →
  vars_data vars = list_to_map ((λ e, (env_Name e, env_Value e)) <$> vars).
Proof.
  intros Hnd. set (l := (λ e, (env_Name e, env_Value e)) <$> vars).
  assert (l.*1 = env_Name <$> vars) as Hl by (unfold l; by rewrite <- list_fmap_compose).
  apply map_eq. intros k.
  transitivity (fold_left (λ (m : gmap string string) '(k, v), <[k:=v]> m) l ∅ !! k).
  - unfold vars_data, l. f_equal. generalize (∅ : gmap string string).
    clear. induction vars as [|v vars IH]; intros m; simpl; [done|]. apply IH.
  - rewrite fold_left_insert_lookup by congruence. rewrite lookup_empty.
    by destruct (_ !! k).
Qed.

Lemma vars_data_perm vars :
  NoDup (env_Name <$> vars) →
  map_to_list (vars_data vars) ≡ₚ ((λ e, (env_Name e, env_Value e)) <$> vars).
Proof.
  intros Hnd. rewrite vars_data_list_to_map by done. apply map_to_list_to_map.
  by rewrite <- list_fmap_compose.
Qed.

Lemma bool_decide_sets (k : string) (keys : list string) :
  bool_decide (k ∈ (list_to_set keys : gset string)) = bool_decide (k ∈ keys).
Proof. apply bool_decide_ext. by rewrite elem_of_list_to_set. Qed.

Lemma nodup_env e e' vars :
  NoDup (env_Name <$> vars) → e ∈ vars → e' ∈ vars → env_Name e = env_Name e' → e = e'.
Proof.
  intros Hnd He He' Hn. apply list_elem_of_lookup in He as [i Hi], He' as [j Hj].
  assert (i = j) as ->; [|congruence].
  apply (NoDup_lookup _ _ _ (env_Name e) Hnd);
    rewrite list_lookup_fmap; [by rewrite Hi | by rewrite Hj, Hn].
Qed.

Lemma in_source_keys e source vars :
  NoDup (env_Name <$> vars) → e ∈ vars →
  bool_decide (env_Name e ∈ source_keys source vars) = String.eqb (env_Source e) source.
Proof.
  intros Hnd He. apply eq_bool_prop_intro. rewrite bool_decide_spec, elem_of_source_keys.
  rewrite Is_true_true, String.eqb_eq. split; [|naive_solver].
  intros (e' & He' & <- & Hn). by rewrite (nodup_env e' e vars).
Qed.

(** The four sets decide the stored source of a variable. *)
Lemma stored_source_of_keys R ns name vars labels e :
  valid_names vars → NoDup (env_Name <$> vars) → e ∈ vars →
  let s := buildSecret R ns name vars labels in
  let has ann := bool_decide (env_Name e ∈ parseKeySet (recorded s ann)) in
  (if has AnnotationBindingKeys then "binding"
   else if has AnnotationGeneratedKeys then "generated"
   else if has AnnotationSharedKeys then "shared"
   else if has AnnotationRetainedKeys then "retained" else "user") =
  stored_source (env_Source e).
Proof.
  intros Hv Hnd He s has. unfold has, s.
  rewrite !parse_recorded, !bool_decide_sets by (done || set_solver).
  rewrite !in_source_keys by done.
  generalize (env_Source e). intros src. unfold stored_source.
  change (annotation_source AnnotationBindingKeys) with "binding".
  change (annotation_source AnnotationGeneratedKeys) with "generated".
  change (annotation_source AnnotationSharedKeys) with "shared".
  change (annotation_source AnnotationRetainedKeys) with "retained".
  destruct (String.eqb_spec src "binding") as [->|]; [done|].
  destruct (String.eqb_spec src "generated") as [->|]; [done|].
  destruct (String.eqb_spec src "shared") as [->|]; [done|].
  destruct (String.eqb_spec src "retained") as [->|]; [done|].
  rewrite bool_decide_eq_false_2; [done|]. rewrite !elem_of_cons, elem_of_nil. by intros [|[|[|[|]]]].
Qed.

(** The decoded variables depend on the data and the recorded key lists only. *)
Definition decode (s : Secret) '((k, v) : string * string) : Env :=
  let has ann := bool_decide (k ∈ parseKeySet (recorded s ann)) in
  {| env_Name := k; env_Value := v;
     env_Source :=
       if has AnnotationBindingKeys then "binding"
       else if has AnnotationGeneratedKeys then "generated"
       else if has AnnotationSharedKeys then "shared"
       else if has AnnotationRetainedKeys then "retained" else "user" |}.

Lemma secretToEnvs_decode R s :
  secretToEnvs R s = sort_by env_Name (decode s <$> range (sec_Data s)).
Proof. done. Qed.

Section proofs.
Context (R : MapRange) {HR : MapRangeOk R}.

Lemma env_Name_decode s (l : list (string * string)) : env_Name <$> (decode s <$> l) = l.*1.
Proof. rewrite <- list_fmap_compose. by apply list_fmap_ext; intros ? [] _. Qed.

Lemma secretToEnvs_names_nodup s : NoDup (env_Name <$> secretToEnvs R s).
Proof.
  rewrite secretToEnvs_decode, sort_by_perm, env_Name_decode. apply range_keys_nodup.
Qed.

(** Two Secrets with the same data and the same recorded keys decode alike. *)
Lemma secretToEnvs_ext s1 s2 :
  sec_Data s1 = sec_Data s2 →
  (∀ ann, ann ∈ source_annotations → recorded s1 ann = recorded s2 ann) →
  secretToEnvs R s1 = secretToEnvs R s2.
Proof.
  intros Hd Hann. rewrite !secretToEnvs_decode, Hd. f_equal.
  apply list_fmap_ext. intros i [k v] _. unfold decode.
  by rewrite !Hann by set_solver.
Qed.

Lemma elem_of_secretToEnvs e s :
  e ∈ secretToEnvs R s ↔
  sec_Data s !! env_Name e = Some (env_Value e) ∧ e = decode s (env_Name e, env_Value e).
Proof.
  rewrite secretToEnvs_decode, sort_by_perm, list_elem_of_fmap. split.
  - intros ([k v] & -> & Hk%elem_of_range). by split.
  - intros [Hk He]. exists (env_Name e, env_Value e). by rewrite elem_of_range.
Qed.

Lemma buildSecret_decodes ns name vars labels :
  valid_names vars → NoDup (env_Name <$> vars) →
  secretToEnvs R (buildSecret R ns name vars labels) = sort_by env_Name (stored <$> vars).
Proof.
  intros Hv Hnd. rewrite secretToEnvs_decode. apply sort_by_unique.
  { rewrite env_Name_decode. apply range_keys_nodup. }
  cbn [sec_Data buildSecret]. rewrite range_perm, vars_data_perm by done.
  rewrite <- list_fmap_compose. apply reflexive_eq, list_fmap_ext.
  intros i e He%list_elem_of_lookup_2.
  unfold decode, stored. simpl. f_equal. by apply stored_source_of_keys.
Qed.

(** The source read back for a name that occurs any number of times: the strongest
    one, in the order of the annotations. *)
Definition strongest_source (vars : list Env) (k : string) : string :=
  let has source := bool_decide (k ∈ source_keys source vars) in
  if has "binding" then "binding" else if has "generated" then "generated"
  else if has "shared" then "shared" else if has "retained" then "retained" else "user".

Lemma elem_of_decoded ns name vars labels e :
  valid_names vars →
  e ∈ secretToEnvs R (buildSecret R ns name vars labels) ↔
  vars_data vars !! env_Name e = Some (env_Value e) ∧
  env_Source e = strongest_source vars (env_Name e).
Proof.
  intros Hv. rewrite elem_of_secretToEnvs. cbn [sec_Data buildSecret].
  unfold decode, strongest_source.
  rewrite !parse_recorded, !bool_decide_sets by (done || set_solver).
  destruct e as [n v src]; simpl. split; [by intros [? [= ->]]|by intros [? ->]].
Qed.

(** *** Overwriting an existing Secret *)

Lemma secretDataEqual_spec d1 d2 : secretDataEqual R d1 d2 = true ↔ d1 = d2.
Proof.
  unfold secretDataEqual. destruct (_ && _) eqn:E0.
  { apply andb_true_iff in E0 as [E1 E2]. apply Nat.eqb_eq, map_size_empty_inv in E1, E2.
    by subst. }
  destruct (Nat.eqb_spec (size d1) (size d2)) as [Hs|Hs]; simpl;
    [|split; [done|congruence]].
  rewrite forallb_elem. split.
  - intros Hsub. symmetry. apply map_subseteq_size_eq; [|lia].
    apply map_subseteq_spec. intros k v Hk. apply (elem_of_range (R:=R)) in Hk.
    specialize (Hsub _ Hk). simpl in Hsub.
    destruct (d1 !! k); [|done]. apply String.eqb_eq in Hsub. by subst.
  - intros -> [k v] Hk%elem_of_range. by rewrite Hk, String.eqb_refl.
Qed.

Lemma overlay_fold (l : list (string * string)) m ch m' ch' :
  NoDup l.*1 →
  fold_left (λ '(m, ch) '(k, v),
    if negb (String.eqb (map_get m k) v) then (<[k := v]> m, true) else (m, ch))
    l (m, ch) = (m', ch') →
  (∀ k, map_get m' k = default (map_get m k) ((list_to_map l : gmap string string) !! k)) ∧
  (ch = true → ch' = true) ∧ (ch' = false → m' = m).
Proof.
  revert m ch. induction l as [|[k0 v0] l IH]; intros m ch Hnd; simpl.
  { intros [= <- <-]. split; [|done]. intros k. by rewrite lookup_empty. }
  apply NoDup_cons in Hnd as [Hnin Hnd].
  destruct (String.eqb_spec (map_get m k0) v0) as [He|Hne]; simpl;
    intros (Hget & Htrue & Hfalse)%IH; try done.
  - split; [|by split]. intros k. rewrite Hget, lookup_insert. case_decide as Hk; [|done].
    subst k. by rewrite not_elem_of_list_to_map_1.
  - split; [|split].
    + intros k. rewrite Hget. unfold map_get at 1. rewrite !lookup_insert.
      case_decide as Hk; [|done]. subst k. by rewrite not_elem_of_list_to_map_1.
    + intros _. by apply Htrue.
    + intros ->. by specialize (Htrue eq_refl).
Qed.

Lemma overlay_spec m d ch m' ch' :
  overlay R m d ch = (m', ch') →
  (∀ k, map_get m' k = default (map_get m k) (d !! k)) ∧
  (ch = true → ch' = true) ∧ (ch' = false → m' = m).
Proof.
  unfold overlay. intros H%overlay_fold; [|apply range_keys_nodup].
  by rewrite list_to_map_range in H.
Qed.

Lemma drop_annotations_fold (l : list string) m ch m' ch' :
  fold_left (λ '(anns, ch) key,
    match anns !! key with
    | Some _ => (delete key anns, true)
    | None => (anns, ch)
    end) l (m, ch) = (m', ch') →
  (∀ k, (m' : gmap string string) !! k = if decide (k ∈ l) then None else m !! k) ∧
  (ch = true → ch' = true) ∧ (ch' = false → m' = m).
Proof.
  revert m ch. induction l as [|a l IH]; intros m ch; simpl.
  { by intros [= <- <-]. }
  destruct (m !! a) as [x|] eqn:Ea; intros (Hget & Htrue & Hfalse)%IH.
  - split; [|split].
    + intros k. rewrite Hget, lookup_delete.
      destruct (decide (k ∈ l)); [by rewrite decide_True by set_solver|].
      destruct (decide (a = k)); [by rewrite decide_True by set_solver|].
      by rewrite decide_False by set_solver.
    + intros _. by apply Htrue.
    + intros ->. by specialize (Htrue eq_refl).
  - split; [|done]. intros k. rewrite Hget.
    destruct (decide (k ∈ l)); [by rewrite decide_True by set_solver|].
    destruct (decide (k = a)) as [->|]; [by rewrite Ea; destruct (decide _)|].
    by rewrite decide_False by set_solver.
Qed.

(** Key, version, data, annotations, labels and the change flag after
    [applyDesiredSecret]. *)
Lemma applyDesiredSecret_spec existing desired s' ch :
  applyDesiredSecret R existing desired = (s', ch) →
  obj_key s' = obj_key existing ∧ obj_rv s' = obj_rv existing ∧
  sec_Data s' = sec_Data desired ∧
  (∀ a, map_get (sec_Annotations s') a =
    default (if decide (a ∈ source_annotations) then ""
             else map_get (sec_Annotations existing) a) (sec_Annotations desired !! a)) ∧
  (∀ l, map_get (sec_Labels s') l =
    default (map_get (sec_Labels existing) l) (sec_Labels desired !! l)) ∧
  (ch = false → s' = existing).
Proof.
  unfold applyDesiredSecret.
  set (step1 := if negb _ then _ else _). destruct step1 as [s1 ch1] eqn:E1.
  assert (sec_meta s1 = sec_meta existing ∧ sec_Data s1 = sec_Data desired ∧
          (ch1 = false → s1 = existing)) as (Hm & Hd & Hs1).
  { subst step1. destruct (secretDataEqual _ _ _) eqn:Eq; simpl in E1.
    - inversion E1; subst. by apply secretDataEqual_spec in Eq.
    - inversion E1; subst. done. }
  clear E1 step1.
  destruct (fold_left _ _ _) as [m2 ch2] eqn:E2.
  apply drop_annotations_fold in E2 as (Hg2 & Ht2 & Hf2).
  destruct (overlay R m2 _ ch2) as [m3 ch3] eqn:E3.
  apply overlay_spec in E3 as (Hg3 & Ht3 & Hf3).
  destruct (overlay R (sec_Labels s1) _ ch3) as [m4 ch4] eqn:E4.
  apply overlay_spec in E4 as (Hg4 & Ht4 & Hf4).
  intros [= <- <-]. unfold sec_Labels, sec_Annotations in *.
  destruct s1 as [[n1 ns1 l1 a1 u1 o1 r1 g1 c1 t1 f1] y1 d1], existing as [[n0 ns0 l0 a0 u0 o0 r0 g0 c0 t0 f0] y0 d0].
  simpl in *. inversion Hm; subst. split; [done|]. split; [done|]. split; [done|].
  split; [|split; [done|]].
  - intros a. rewrite Hg3. destruct (meta_Annotations (sec_meta desired) !! a); [done|].
    simpl. unfold map_get. rewrite Hg2. by destruct (decide _).
  - intros ->. destruct ch3; [by specialize (Ht4 eq_refl)|].
    destruct ch2; [by specialize (Ht3 eq_refl)|].
    destruct ch1; [by specialize (Ht2 eq_refl)|].
    rewrite Hf4, Hf3, Hf2 by done. by specialize (Hs1 eq_refl) as [= -> ->].
Qed.

Lemma sec_Annotations_buildSecret ns name vars labels a :
  a ∉ source_annotations → sec_Annotations (buildSecret R ns name vars labels) !! a = None.
Proof.
  intros Ha. unfold sec_Annotations. cbn [sec_meta meta_Annotations buildSecret with_labels with_annotations].
  assert (∀ b keys m, b ∈ source_annotations → m !! a = None → annotate b keys m !! a = None)
    as Hstep.
  { intros b keys m Hb Hm. unfold annotate. destruct keys; [done|].
    rewrite lookup_insert_ne; [done|]. by intros ->. }
  repeat (apply Hstep; [set_solver|]). by rewrite lookup_empty.
Qed.

(** The overwritten Secret holds exactly the desired variables; annotations and
    labels the store does not own stay. *)
Lemma applyDesiredSecret_build existing s' ch ns name vars labels :
  applyDesiredSecret R existing (buildSecret R ns name vars labels) = (s', ch) →
  secretToEnvs R s' = secretToEnvs R (buildSecret R ns name vars labels) ∧
  (∀ a, a ∉ source_annotations →
    map_get (sec_Annotations s') a = map_get (sec_Annotations existing) a).
Proof.
  intros (_ & _ & Hd & Ha & _ & _)%applyDesiredSecret_spec. split.
  - apply secretToEnvs_ext; [done|]. intros a Hin. unfold recorded.
    rewrite Ha, decide_True by done. done.
  - intros a Hin. rewrite Ha, sec_Annotations_buildSecret by done. simpl.
    by rewrite decide_False.
Qed.
End proofs.

(** ** Writes *)

Section writes.
Context {W : Type} {C : KubeClient W Secret} {OK : KubeClientOk W Secret}.
Context {KR : KubeRetry W} {KROK : KubeRetryOk W} (R : MapRange) {HR : MapRangeOk R}.

(** The variables of a Secret that may be missing. *)
Definition envs_of (s : option Secret) : list Env := default [] (secretToEnvs R <$> s).

Lemma envs_of_Some s : envs_of (Some s) = secretToEnvs R s.
Proof. done. Qed.

Lemma secretToEnvs_with_rv rv (s : Secret) : secretToEnvs R (obj_with_rv rv s) = secretToEnvs R s.
Proof. by apply secretToEnvs_ext. Qed.

Lemma applySecret_attempt_within I `{!PreOrder I, !KubeWithin W Secret I} ns name labels mutate w :
  I w (applySecret_attempt R ns name labels mutate w).1.
Proof.
  unfold applySecret_attempt, getSecret. pose proof (kget_within (I := I) (ns, name) w) as Hg.
  destruct (kget (ns, name) w) as [w1 [getErr|existing]]; simpl in Hg |- *.
  - destruct (IsNotFound getErr); simpl; [|done].
    destruct (mutate []) as [err|vars]; [by destruct (errors_Is _ _)|].
    destruct (validateEnvVars vars); [done|].
    pose proof (kcreate_within (I := I) (buildSecret R ns name vars labels) w1) as Hc.
    destruct (kcreate _ w1) as [w2 [e|]]; [destruct (IsAlreadyExists e)|]; by etrans.
  - destruct (mutate _) as [err|vars]; [by destruct (errors_Is _ _)|].
    destruct (validateEnvVars vars); [done|].
    destruct (applyDesiredSecret _ _ _) as [s' [|]]; [|done].
    etrans; [done|apply kupdate_within].
Qed.

Lemma applySecret_attempt_hist ns name labels mutate w w' r :
  applySecret_attempt R ns name labels mutate w = (w', r) → khist w w'.
Proof.
  intros H. pose proof (applySecret_attempt_within khist ns name labels mutate w) as Hw.
  by rewrite H in Hw.
Qed.

Lemma applySecret_within I `{!PreOrder I, !KubeWithin W Secret I} ns name labels mutate w :
  I w (applySecret R ns name labels mutate w).1.
Proof.
  unfold applySecret. rewrite retry_on_conflict_spec.
  destruct (retry_loop _ _ w) as [w' r] eqn:E.
  eapply (retry_loop_hist I); [|done]. intros w1 w2 r' Ha.
  pose proof (applySecret_attempt_within I ns name labels mutate w1) as Hw. by rewrite Ha in Hw.
Qed.

(** The Secret [s] was computed by [mutate] from the stored one, [before], and holds
    exactly the computed variables. *)
Definition applied (labels : gmap string string) (mutate : list Env → error + list Env)
    (key : NamespacedName) (before : option Secret) (s : Secret) : Prop :=
  ∃ vars, mutate (envs_of before) = inr vars ∧ valid_names vars ∧
    secretToEnvs R s = secretToEnvs R (buildSecret R key.1 key.2 vars labels) ∧
    ∀ old a, before = Some old → a ∉ source_annotations →
      map_get (sec_Annotations s) a = map_get (sec_Annotations old) a.

Lemma applySecret_attempt_success ns name labels mutate w w' :
  applySecret_attempt R ns name labels mutate w = (w', None) →
  (∃ current err, mutate current = inl err ∧ errors_Is ErrSkip err = true) ∨
  ∃ wu s, khist wu w' ∧ applied labels mutate (ns, name) (kstore wu !! (ns, name)) s ∧
    (kstore wu !! (ns, name) = Some s ∨
     khist w wu ∧ kstore w' = <[(ns, name) := s]> (kstore wu)).
Proof.
  unfold applySecret_attempt, getSecret. destruct (kget (ns, name) w) as [w1 got] eqn:Eg.
  pose proof (kget_hist _ _ _ _ Eg) as Hh1.
  destruct got as [getErr|existing].
  - destruct (IsNotFound getErr); simpl; [|done].
    destruct (mutate []) as [err|vars] eqn:Em.
    { destruct (errors_Is ErrSkip err) eqn:Es; [|done]. left. by exists [], err. }
    destruct (validateEnvVars vars) eqn:Ev; [done|]. apply validateEnvVars_ok in Ev.
    destruct (kcreate _ w1) as [w2 [e|]] eqn:Ec; [by destruct (IsAlreadyExists e)|].
    intros [= <-]. right. apply kcreate_spec in Ec as [_ Ec].
    destruct (Ec eq_refl) as (wu & rv & Hu1 & Hu2 & Hnone & Hst).
    change (obj_key _) with (ns, name) in *.
    eexists wu, (obj_with_rv rv _). split; [done|]. split.
    + exists vars. rewrite Hnone. split; [done|]. split; [done|].
      by rewrite secretToEnvs_with_rv.
    + right. split; [by etrans|done].
  - destruct (mutate _) as [err|vars] eqn:Em.
    { destruct (errors_Is ErrSkip err) eqn:Es; [|done]. left. by eexists _, err. }
    destruct (validateEnvVars vars) eqn:Ev; [done|]. apply validateEnvVars_ok in Ev.
    destruct (applyDesiredSecret _ _ _) as [s' ch] eqn:Ea.
    pose proof Ea as (Hk & Hrv & _ & _ & _ & Hch)%applyDesiredSecret_spec; [|done].
    apply applyDesiredSecret_build in Ea as [Henvs Hann]; [|done].
    intros H. right. destruct ch.
    + destruct (rmw_atomic _ _ _ _ _ _ Eg H Hk Hrv) as (wu & rv & Hu1 & Hu2 & Hst & Hst').
      exists wu, (obj_with_rv rv s'). split; [done|]. split; [|by right].
      exists vars. rewrite Hst. split; [done|]. split; [done|].
      rewrite secretToEnvs_with_rv. split; [done|].
      intros old a [= <-] Hna. by rewrite sec_Annotations_with_rv, Hann.
    + rewrite Hch in * by done. inversion H; subst. apply kget_spec in Eg as [_ Eg].
      destruct (Eg _ eq_refl) as (w0 & Hw0 & Hst). exists w0, existing.
      split; [done|]. rewrite Hst. split; [|by left].
      exists vars. split; [done|]. split; [done|]. split; [done|]. by intros ? ? [= ->].
Qed.

Lemma applySecret_success ns name labels mutate w w' :
  applySecret R ns name labels mutate w = (w', None) →
  (∃ current err, mutate current = inl err ∧ errors_Is ErrSkip err = true) ∨
  ∃ wu s, khist wu w' ∧ applied labels mutate (ns, name) (kstore wu !! (ns, name)) s ∧
    (kstore wu !! (ns, name) = Some s ∨
     khist w wu ∧ kstore w' = <[(ns, name) := s]> (kstore wu)).
Proof.
  unfold applySecret. rewrite retry_on_conflict_spec.
  intros (w1 & Hw1 & H)%(retry_loop_success khist);
    [|intros; by eapply applySecret_attempt_hist].
  destruct (applySecret_attempt_success _ _ _ _ _ _ H) as [?|(wu & s & Hu & Ha & Hc)];
    [by left|right].
  exists wu, s. split; [done|]. split; [done|].
  destruct Hc as [?|[? ?]]; [by left|right]. split; [by etrans|done].
Qed.
End writes.

Lemma vars_data_app a b k :
  vars_data (a ++ b) !! k = match vars_data b !! k with Some v => Some v | None => vars_data a !! k end.
Proof.
  unfold vars_data. rewrite fold_left_app. generalize (fold_left (λ m e, <[env_Name e := env_Value e]> m) a ∅ : gmap string string).
  revert k. induction b as [|e b IH] using rev_ind; intros k m; simpl.
  { by rewrite lookup_empty. }
  rewrite !fold_left_app. simpl. rewrite !lookup_insert. case_decide; [done|]. apply IH.
Qed.

Lemma vars_data_None vars k : vars_data vars !! k = None ↔ k ∉ env_Name <$> vars.
Proof.
  induction vars as [|e vars IH].
  { unfold vars_data. simpl. rewrite lookup_empty. split; [|done]. intros _.
    apply not_elem_of_nil. }
  change (e :: vars) with ([e] ++ vars). rewrite vars_data_app.
  destruct (vars_data vars !! k) eqn:E.
  - split; [done|]. intros H. exfalso. assert (k ∈ env_Name <$> vars) as Hk.
    { destruct (decide (k ∈ env_Name <$> vars)); [done|]. by apply IH in n. }
    apply H. simpl. by right.
  - destruct IH as [IH _]. specialize (IH eq_refl). unfold vars_data. simpl.
    rewrite lookup_insert. case_decide as Hk; [|rewrite lookup_empty].
    + subst. split; [done|]. intros H. exfalso. apply H. by left.
    + split; [|done]. intros _ [->|?]%elem_of_cons; done.
Qed.

Section quiet.
Context {W : Type} {C : KubeClient W Secret} {OK : KubeClientOk W Secret}.
Context {KR : KubeRetry W} {KROK : KubeRetryOk W} (R : MapRange) {HR : MapRangeOk R}.

Lemma getEnvs_quiet ns name w :
  kquiet w → ∃ w', getEnvs R ns name w = (w', inr (envs_of R (kstore w !! (ns, name)))) ∧
    kquiet w' ∧ kstore w' = kstore w.
Proof.
  intros (w' & Hq & Hs & Hg)%(kget_quiet (ns, name)). exists w'. split; [|done].
  unfold getEnvs, getSecret. destruct (kstore w !! (ns, name)) as [s|]; [by rewrite Hg|].
  destruct Hg as (e & Hg & He). by rewrite Hg, He.
Qed.

(** What [s] holds after [vars] were written over [before]. *)
Definition written (key : NamespacedName) (before : option Secret) (vars : list Env)
    (labels : gmap string string) (s : Secret) : Prop :=
  secretToEnvs R s = secretToEnvs R (buildSecret R key.1 key.2 vars labels) ∧
  sec_Data s = vars_data vars ∧
  ∀ a, a ∉ source_annotations →
    map_get (sec_Annotations s) a = default "" ((λ o, map_get (sec_Annotations o) a) <$> before).

Lemma applySecret_quiet ns name labels mutate w vars :
  let key := (ns, name) in
  kquiet w → mutate (envs_of R (kstore w !! key)) = inr vars → valid_names vars →
  ∃ w' s, applySecret R ns name labels mutate w = (w', None) ∧ kquiet w' ∧
    kstore w' = <[key := s]> (kstore w) ∧ written key (kstore w !! key) vars labels s.
Proof.
  intros key (w1 & Hq1 & Hs1 & Hg)%(kget_quiet key) Hm Hv.
  apply validateEnvVars_ok in Hv as Hval. unfold applySecret.
  rewrite retry_on_conflict_spec.
  assert (∃ w' s, applySecret_attempt R ns name labels mutate w = (w', None) ∧ kquiet w' ∧
    kstore w' = <[key := s]> (kstore w) ∧ written key (kstore w !! key) vars labels s)
    as (w' & s & Ha & Hrest).
  2: { exists w', s. split; [|done]. by apply retry_loop_once. }
  unfold applySecret_attempt, getSecret. fold key.
  destruct (kstore w !! key) as [existing|] eqn:Ek; unfold envs_of in Hm; simpl in Hm.
  - rewrite Hg, Hm, Hval. destruct (applyDesiredSecret _ _ _) as [s' ch] eqn:Ea.
    pose proof Ea as (Hk & Hrv & Hd & _ & _ & Hch)%applyDesiredSecret_spec; [|done].
    apply applyDesiredSecret_build in Ea as [Henvs Hann]; [|done].
    destruct ch.
    + pose proof (kstore_key _ _ _ Ek) as Hkey.
      destruct (kupdate_quiet s' w1 existing Hq1) as (w2 & rv & Hq2 & Hu & Hst);
        [by rewrite Hk, Hkey, Hs1|done|].
      exists w2, (obj_with_rv rv s'). rewrite Hst, Hk, Hkey, Hs1.
      do 3 (split; [done|]). unfold written.
      rewrite secretToEnvs_with_rv, sec_Data_with_rv by done. split; [done|]. split; [done|].
      intros a Ha. by rewrite sec_Annotations_with_rv, Hann.
    + rewrite Hch in Henvs, Hd by done. exists w1, existing.
      rewrite Hs1, insert_id by done. done.
  - destruct Hg as (e & Hg & He). rewrite Hg, He. simpl. rewrite Hm, Hval.
    destruct (kcreate_quiet (buildSecret R ns name vars labels) w1 Hq1)
      as (w2 & rv & Hq2 & Hc & Hst); [by rewrite Hs1|].
    rewrite Hc. eexists w2, _. split; [done|]. split; [done|].
    change (obj_key _) with key in Hst. rewrite Hst, Hs1. split; [done|].
    unfold written. rewrite secretToEnvs_with_rv by done. split; [done|]. split; [done|].
    intros a Ha. rewrite sec_Annotations_with_rv. unfold map_get.
    by rewrite sec_Annotations_buildSecret.
Qed.

(** A callback that refuses leaves the Secret alone. *)
Lemma applySecret_refused ns name labels mutate w err :
  kquiet w → mutate (envs_of R (kstore w !! (ns, name))) = inl err →
  errors_Is ErrSkip err = false → IsConflict err = false →
  ∃ w', applySecret R ns name labels mutate w = (w', Some err) ∧ kquiet w' ∧ kstore w' = kstore w.
Proof.
  intros (w1 & Hq1 & Hs1 & Hg)%(kget_quiet (ns, name)) Hm Hskip Hc. exists w1. split; [|done].
  unfold applySecret. rewrite retry_on_conflict_spec. apply retry_loop_once; [|by intros e [= <-]].
  unfold applySecret_attempt, getSecret, envs_of in *.
  destruct (kstore w !! (ns, name)) as [existing|]; simpl in Hm.
  - by rewrite Hg, Hm, Hskip.
  - destruct Hg as (e & Hg & He). by rewrite Hg, He, Hm, Hskip.
Qed.
End quiet.

(** ** Merging and replacing *)

Definition env_map (m : gmap string Env) (vars : list Env) : gmap string Env :=
  fold_left (λ m e, <[env_Name e := e]> m) vars m.

Lemma env_map_lookup m vars k :
  NoDup (env_Name <$> vars) →
  (∀ e, e ∈ vars → env_Name e = k → env_map m vars !! k = Some e) ∧
  (k ∉ env_Name <$> vars → env_map m vars !! k = m !! k).
Proof.
  unfold env_map. revert m. induction vars as [|v vars IH]; intros m Hnd; simpl.
  { split; [|done]. intros e He. by apply elem_of_nil in He. }
  apply NoDup_cons in Hnd as [Hnin Hnd]. destruct (IH (<[env_Name v := v]> m) Hnd) as [IH1 IH2].
  split.
  - intros e [->|He]%elem_of_cons Hk; [|by apply IH1].
    subst k. rewrite IH2 by done. by rewrite lookup_insert_eq.
  - rewrite not_elem_of_cons. intros [Hne Hk]. rewrite IH2 by done.
    by rewrite lookup_insert_ne.
Qed.

Lemma env_map_keys m vars k e :
  (∀ k e, m !! k = Some e → env_Name e = k) →
  env_map m vars !! k = Some e → env_Name e = k ∧ (e ∈ vars ∨ m !! k = Some e).
Proof.
  intros Hm. revert k e. unfold env_map. induction vars as [|v vars IH] using rev_ind; simpl.
  { intros k e H. split; [by apply Hm|by right]. }
  intros k e. rewrite fold_left_app. simpl. rewrite lookup_insert. case_decide.
  - intros [= <-]. split; [done|]. left. rewrite elem_of_app. right. by left.
  - intros [? [?|?]]%IH; split; try done; [left|by right]. rewrite elem_of_app. by left.
Qed.

Section merge.
Context (R : MapRange) {HR : MapRangeOk R}.

Lemma elem_of_mergeEnvs current vars e :
  NoDup (env_Name <$> current) → NoDup (env_Name <$> vars) →
  e ∈ mergeEnvs R current vars ↔
  e ∈ vars ∨ e ∈ current ∧ env_Name e ∉ env_Name <$> vars.
Proof.
  intros Hc Hv. unfold mergeEnvs. fold (env_map ∅ current). fold (env_map (env_map ∅ current) vars).
  assert (∀ k e, env_map ∅ current !! k = Some e → env_Name e = k ∧ e ∈ current) as Hkeys.
  { intros k e' [? [?|?]]%env_map_keys; [done..|by rewrite lookup_empty in H0|].
    intros ? ?. by rewrite lookup_empty. }
  rewrite list_elem_of_fmap. split.
  - intros ([k e'] & -> & Hk%elem_of_range). simpl.
    pose proof Hk as [Hn Hin]%env_map_keys; [|by intros ? ? []%Hkeys].
    destruct (decide (k ∈ env_Name <$> vars)) as [(v & Hkv & Hvin)%list_elem_of_fmap|Hnin].
    + left. destruct (env_map_lookup (env_map ∅ current) vars k Hv) as [H _].
      by rewrite (H v Hvin) in Hk; simplify_eq.
    + right. destruct (env_map_lookup (env_map ∅ current) vars k Hv) as [_ H].
      rewrite H in Hk by done. apply Hkeys in Hk as [-> ?]. done.
  - intros Hin. exists (env_Name e, e). split; [done|]. rewrite elem_of_range.
    destruct (env_map_lookup (env_map ∅ current) vars (env_Name e) Hv) as [H1 H2].
    destruct Hin as [Hin|[Hin Hnin]]; [by apply H1|]. rewrite H2 by done.
    destruct (env_map_lookup ∅ current (env_Name e) Hc) as [H3 _]. by apply H3.
Qed.

Lemma mergeEnvs_nodup current vars : NoDup (env_Name <$> mergeEnvs R current vars).
Proof.
  unfold mergeEnvs. fold (env_map ∅ current). fold (env_map (env_map ∅ current) vars).
  set (m := env_map _ vars).
  assert (env_Name <$> (range m).*2 = (range m).*1) as ->; [|apply range_keys_nodup].
  rewrite <- list_fmap_compose. apply list_fmap_ext.
  intros i [k e] Hk%list_elem_of_lookup_2. rewrite elem_of_range in Hk. simpl.
  apply env_map_keys in Hk as [? _]; [done|].
  intros k' e' [? _]%env_map_keys; [done|]. intros ? ?. by rewrite lookup_empty.
Qed.

Lemma stored_decode s kv : stored (decode s kv) = decode s kv.
Proof. destruct kv as [k v]. unfold stored, decode. simpl. by repeat case_bool_decide. Qed.

Lemma stored_envs_of s e : e ∈ envs_of R s → stored e = e.
Proof.
  destruct s as [s|]; [|by intros ?%elem_of_nil].
  unfold envs_of. simpl. intros [_ He]%elem_of_secretToEnvs; [|done].
  rewrite He. apply stored_decode.
Qed.

Lemma envs_of_nodup s : NoDup (env_Name <$> envs_of R s).
Proof. destruct s; [by apply secretToEnvs_names_nodup|constructor]. Qed.
End merge.

(** ** Deleting *)

Lemma split_pieces c s w : w ∈ split c s → no_char c w = true.
Proof.
  revert w. induction s as [|a s IH]; intros w; simpl.
  { by intros ->%list_elem_of_singleton. }
  destruct (Ascii.eqb a c) eqn:E.
  - intros [->|?]%elem_of_cons; [done|auto].
  - destruct (split c s) as [|x xs] eqn:Es.
    + intros ->%list_elem_of_singleton. unfold no_char. simpl. by rewrite E.
    + intros [->|?]%elem_of_cons; [|apply IH; by right].
      unfold no_char in *. simpl. rewrite E. apply IH. by left.
Qed.

(** The keys of a comma-separated list after dropping a key. *)
Lemma parse_filtered csv key (rest := List.filter (λ k, negb (String.eqb (trim_space k) key)) (split ","%char csv)) :
  parseKeySet (join "," rest) = parseKeySet csv ∖ {[key]} ∧
  (rest = [] → parseKeySet csv ∖ {[key]} = ∅).
Proof.
  assert (∀ k, k ∈ parseKeySet csv ∖ {[key]} ↔ k ≠ "" ∧ ∃ p, p ∈ rest ∧ k = trim_space p) as Hset.
  { intros k. unfold parseKeySet. destruct (String.eqb_spec csv "") as [->|Hne].
    - subst rest. simpl. destruct (negb _); set_solver.
    - rewrite elem_of_difference, elem_of_list_to_set, elem_of_singleton, list_elem_of_In, filter_In.
      rewrite <- list_elem_of_In, list_elem_of_fmap, negb_true_iff, String.eqb_neq. split.
      + intros [[(p & -> & Hp) Hk] Hkey]. split; [done|]. exists p. split; [|done].
        apply list_elem_of_In, filter_In. rewrite <- list_elem_of_In.
        by rewrite negb_true_iff, String.eqb_neq.
      + intros (Hk & p & Hp & ->). unfold rest in Hp.
        rewrite list_elem_of_In, filter_In, <- list_elem_of_In, negb_true_iff, String.eqb_neq in Hp.
        split; [|tauto]. split; [|done]. exists p. tauto. }
  destruct rest as [|p ps] eqn:Er.
  { split; [|intros _]; [symmetry|]; apply set_eq; intros k; rewrite Hset; set_solver. }
  split; [|done]. apply set_eq. intros k. rewrite Hset, <- Er.
  assert (split ","%char (join "," rest) = rest) as Hsplit.
  { apply (split_join ","%char); [by rewrite Er|]. intros w. unfold rest.
    rewrite list_elem_of_In, filter_In, <- list_elem_of_In. intros [Hw _].
    by eapply split_pieces. }
  unfold parseKeySet. destruct (String.eqb_spec (join "," rest) "") as [He|Hne].
  - rewrite He in Hsplit. simpl in Hsplit. rewrite <- Hsplit.
    split; [set_solver|]. intros [Hk (w & ->%list_elem_of_singleton & ->)]. done.
  - rewrite Hsplit, elem_of_list_to_set, list_elem_of_In, filter_In, <- list_elem_of_In.
    rewrite list_elem_of_fmap, negb_true_iff, String.eqb_neq. naive_solver.
Qed.

Definition drop_key (key : string) (anns : gmap string string) (ann : string) : gmap string string :=
  match anns !! ann with
  | Some csv =>
    let filtered :=
      List.filter (λ k, negb (String.eqb (trim_space k) key)) (split ","%char csv) in
    match filtered with
    | [] => delete ann anns
    | _ => <[ann := join "," filtered]> anns
    end
  | None => anns
  end.

Lemma drop_key_lookup key anns ann a :
  (a ≠ ann → drop_key key anns ann !! a = anns !! a) ∧
  parseKeySet (map_get (drop_key key anns ann) ann) =
  parseKeySet (map_get anns ann) ∖ {[key]}.
Proof.
  unfold drop_key, map_get. destruct (anns !! ann) as [csv|] eqn:E; simpl.
  - pose proof (parse_filtered csv key) as [Hp Hnil]. cbv zeta in Hp, Hnil.
    destruct (List.filter _ _) as [|p ps] eqn:Ef.
    + split; [intros; by rewrite lookup_delete_ne|]. rewrite lookup_delete_eq. simpl.
      by rewrite Hnil.
    + split; [intros; by rewrite lookup_insert_ne|]. by rewrite lookup_insert_eq.
  - split; [done|]. rewrite E. set_solver.
Qed.

Lemma drop_key_fold key (l : list string) anns :
  NoDup l →
  (∀ a, a ∉ l → fold_left (drop_key key) l anns !! a = anns !! a) ∧
  (∀ a, a ∈ l → parseKeySet (map_get (fold_left (drop_key key) l anns) a) =
                parseKeySet (map_get anns a) ∖ {[key]}).
Proof.
  revert anns. induction l as [|ann l IH]; intros anns Hnd; simpl.
  { split; [done|]. by intros a ?%elem_of_nil. }
  apply NoDup_cons in Hnd as [Hnin Hnd]. destruct (IH (drop_key key anns ann) Hnd) as [IH1 IH2].
  split.
  - intros a [Hne Hl]%not_elem_of_cons. rewrite IH1 by done. by apply drop_key_lookup.
  - intros a [->|Ha]%elem_of_cons.
    + unfold map_get at 1. rewrite IH1 by done. apply (drop_key_lookup key anns ann ann).
    + rewrite IH2 by done. unfold map_get at 1.
      destruct (drop_key_lookup key anns ann a) as [-> _]; [done|]. by intros ->.
Qed.

Lemma removeKey_recorded s key ann :
  ann ∈ source_annotations →
  parseKeySet (recorded (removeKeyFromAnnotations s key) ann) =
  parseKeySet (recorded s ann) ∖ {[key]}.
Proof.
  intros Ha. destruct (drop_key_fold key source_annotations (sec_Annotations s)) as [_ H].
  - apply (bool_decide_unpack _). by vm_compute.
  - by apply H.
Qed.

Section delete.
Context (R : MapRange) {HR : MapRangeOk R}.

Lemma delete_key_envs key s s' :
  delete_key key s = (s', inr true) →
  obj_key s' = obj_key s ∧ obj_rv s' = obj_rv s ∧
  secretToEnvs R s' = List.filter (λ e, negb (String.eqb (env_Name e) key)) (secretToEnvs R s).
Proof.
  unfold delete_key. destruct (sec_Data s !! key) as [x|] eqn:Ek; [|done].
  set (s1 := removeKeyFromAnnotations _ key). intros [= <-].
  split; [done|]. split; [done|].
  pose proof (secretToEnvs_names_nodup R s) as Hnd.
  assert (∀ t, StronglySorted (key_le env_Name) (secretToEnvs R t)) as Hsorted.
  { intros t. rewrite secretToEnvs_decode. apply sort_by_sorted. }
  apply (key_sorted_ext env_Name); [done|by apply filter_key_sorted| |by apply filter_key_nodup|].
  { by apply secretToEnvs_names_nodup. }
  intros e. rewrite elem_of_filter_bool, !elem_of_secretToEnvs, negb_true_iff, String.eqb_neq by done.
  change (sec_Data s1) with (delete key (sec_Data s)). rewrite lookup_delete.
  destruct (decide (key = env_Name e)) as [Hk|Hne].
  { split; [by intros []|]. intros [_ ?]. congruence. }
  assert (decode s1 (env_Name e, env_Value e) = decode s (env_Name e, env_Value e)) as ->; [|naive_solver].
  unfold decode. f_equal. unfold s1. rewrite !removeKey_recorded by set_solver.
  assert (∀ X : gset string, bool_decide (env_Name e ∈ X ∖ {[key]}) = bool_decide (env_Name e ∈ X))
    as Hx by (intros X; apply bool_decide_ext; set_solver).
  by rewrite !Hx.
Qed.
End delete.

(** ** Hashing *)

Definition hashable (data : gmap string string) : Prop :=
  ∀ k v, data !! k = Some v → no_char "="%char k = true ∧ no_char nul v = true.

Lemma str_split_unique c a b x y :
  no_char c a = true → no_char c b = true →
  a +:+ String c x = b +:+ String c y → a = b ∧ x = y.
Proof.
  unfold no_char. revert b. induction a as [|ca a IH]; intros [|cb b]; simpl; intros Ha Hb.
  - by intros [= ->].
  - intros [= <- _]. by rewrite Ascii.eqb_refl in Hb.
  - intros [= -> _]. by rewrite Ascii.eqb_refl in Ha.
  - apply andb_true_iff in Ha as [_ Ha], Hb as [_ Hb]. intros [= -> H].
    by destruct (IH _ Ha Hb H) as [-> ->].
Qed.

Lemma hash_input_inj d1 d2 ks1 ks2 :
  hashable d1 → hashable d2 →
  (∀ k, k ∈ ks1 → is_Some (d1 !! k)) → (∀ k, k ∈ ks2 → is_Some (d2 !! k)) →
  hash_input d1 ks1 = hash_input d2 ks2 →
  ks1 = ks2 ∧ ∀ k, k ∈ ks1 → d1 !! k = d2 !! k.
Proof.
  intros Hd1 Hd2. revert ks2. induction ks1 as [|k1 ks1 IH]; intros [|k2 ks2] H1 H2; simpl.
  - intros _. split; [done|]. by intros k ?%elem_of_nil.
  - by destruct k2.
  - by destruct k1.
  - destruct (H1 k1) as [v1 Hv1]; [by left|]. destruct (H2 k2) as [v2 Hv2]; [by left|].
    destruct (Hd1 _ _ Hv1), (Hd2 _ _ Hv2). unfold map_get. rewrite Hv1, Hv2. simpl.
    intros [-> He]%str_split_unique; [|done..].
    apply str_split_unique in He as [-> He]; [|done..].
    destruct (IH ks2) as [-> Hks]; [intros; apply H1; by right|intros; apply H2; by right|done|].
    split; [done|]. intros k [->|Hk]%elem_of_cons; [congruence|auto].
Qed.

(** ** Correctness *)

Section properties.
Context {W : Type} {C : KubeClient W Secret} {OK : KubeClientOk W Secret}.
Context {KR : KubeRetry W} {KROK : KubeRetryOk W} (R : MapRange) {HR : MapRangeOk R}.

(** Storing a set of variables with distinct valid names and reading it back
    gives the same names, values and sources in name order; sources the store does
    not know read back as the user's. *)
Theorem SecretToEnvs_buildSecret ns name vars labels :
  valid_names vars → NoDup (env_Name <$> vars) →
  secretToEnvs R (buildSecret R ns name vars labels) = sort_by env_Name (stored <$> vars).
Proof. apply buildSecret_decodes, HR. Qed.

(** C1: no update is lost.  When [Apply] reports success and its callback does not
    skip, the stored variables are the callback's result on the variables that were
    stored at the moment of the write, whatever other writers did in between and
    however stale the reads were; other annotations of the Secret are kept. *)
Theorem Apply_no_lost_update ns app labels mutate w w' :
  (∀ current err, mutate current = inl err → errors_Is ErrSkip err = false) →
  Apply R ns app labels mutate w = (w', None) →
  let key := (ns, AppEnvSecretName app) in
  ∃ wu s, khist wu w' ∧ applied R labels mutate key (kstore wu !! key) s ∧
    (kstore wu !! key = Some s ∨ khist w wu ∧ kstore w' = <[key := s]> (kstore wu)).
Proof.
  intros Hskip [(cur & err & Hm & Hs)|H]%applySecret_success; [|done|done].
  by rewrite (Hskip _ _ Hm) in Hs.
Qed.

(** When nobody else writes, [Merge] succeeds and [Get] then returns, sorted by
    name, the new variables and the old ones with other names. *)
Theorem Merge_Get ns app vars labels w :
  let old := envs_of R (kstore w !! (ns, AppEnvSecretName app)) in
  kquiet w → valid_names old → valid_names vars → NoDup (env_Name <$> vars) →
  ∃ w1 w2 envs, Merge R ns app vars labels w = (w1, None) ∧
    Get R ns app w1 = (w2, inr envs) ∧ StronglySorted (key_le env_Name) envs ∧
    ∀ e, e ∈ envs ↔
      (∃ v, v ∈ vars ∧ e = stored v) ∨ (e ∈ old ∧ env_Name e ∉ env_Name <$> vars).
Proof.
  intros old Hq Hold Hv Hnd.
  assert (∀ e, e ∈ mergeEnvs R old vars ↔ e ∈ vars ∨ e ∈ old ∧ env_Name e ∉ env_Name <$> vars)
    as Hm by (intros e; apply elem_of_mergeEnvs; by try apply envs_of_nodup).
  assert (valid_names (mergeEnvs R old vars)) as Hvm by (intros e [?|[? _]]%Hm; auto).
  destruct (applySecret_quiet R ns (AppEnvSecretName app) labels
    (λ current, inr (mergeEnvs R current vars)) w (mergeEnvs R old vars))
    as (w1 & s & Ha & Hq1 & Hs & Hdec & _); [done|done|done|]. cbn [fst snd] in Hdec.
  rewrite buildSecret_decodes in Hdec by (done || by apply mergeEnvs_nodup).
  destruct (getEnvs_quiet R ns (AppEnvSecretName app) w1 Hq1) as (w2 & Hg & _).
  exists w1, w2, (secretToEnvs R s). split; [|split; [|split]].
  - unfold Merge, validated. by rewrite (proj2 (validateEnvVars_ok vars)).
  - unfold Get. by rewrite Hg, Hs, lookup_insert_eq.
  - rewrite secretToEnvs_decode. apply sort_by_sorted.
  - intros e. rewrite Hdec, sort_by_perm, list_elem_of_fmap. split.
    + intros (v & -> & [Hin|[Hin Hn]]%Hm); [by left; exists v|].
      right. by rewrite (stored_envs_of R _ _ Hin).
    + intros [(v & Hin & ->)|[Hin Hn]].
      * exists v. split; [done|]. apply Hm. by left.
      * exists e. split; [by rewrite (stored_envs_of R _ _ Hin)|]. apply Hm. by right.
Qed.

(** When nobody else writes, [Delete] succeeds and [Get] then returns the old
    variables without the deleted one, each with the source it had. *)
Theorem Delete_Get ns app key w :
  kquiet w →
  ∃ w1 w2, Delete ns app key w = (w1, None) ∧
    Get R ns app w1 =
      (w2, inr (List.filter (λ e, negb (String.eqb (env_Name e) key))
                  (envs_of R (kstore w !! (ns, AppEnvSecretName app))))).
Proof.
  intros Hq. set (k := (ns, AppEnvSecretName app)).
  assert (∀ s, sec_Data s !! key = None →
    List.filter (λ e, negb (String.eqb (env_Name e) key)) (secretToEnvs R s) =
    secretToEnvs R s) as Hid.
  { intros s Hs. apply list_filter_bool_all. intros e [He _]%elem_of_secretToEnvs; [|done].
    rewrite negb_true_iff, String.eqb_neq. congruence. }
  assert (∃ w1, Delete ns app key w = (w1, None) ∧ kquiet w1 ∧
    envs_of R (kstore w1 !! k) =
    List.filter (λ e, negb (String.eqb (env_Name e) key)) (envs_of R (kstore w !! k)))
    as (w1 & Hd & Hq1 & He).
  2: { destruct (getEnvs_quiet R ns (AppEnvSecretName app) w1 Hq1) as (w2 & Hg & _).
       exists w1, w2. split; [done|]. unfold Get. fold k in Hg. by rewrite Hg, He. }
  unfold Delete, getSecret. fold k.
  destruct (kget_quiet k w Hq) as (w1 & Hq1 & Hs1 & Hg).
  destruct (kstore w !! k) as [s|] eqn:Ek.
  2: { destruct Hg as (e & -> & ->). exists w1. rewrite Hs1, Ek. done. }
  rewrite Hg. destruct (sec_Data s !! key) eqn:Ed.
  2: { exists w1. rewrite Hs1, Ek. unfold envs_of. simpl. by rewrite Hid. }
  destruct (delete_key key s) as [s' r] eqn:Edel.
  assert (r = inr true) as -> by (unfold delete_key in Edel; rewrite Ed in Edel; congruence).
  apply (delete_key_envs R) in Edel as Hs'. destruct Hs' as (Hkey & Hrv & Henv).
  destruct (kget_quiet k w1 Hq1) as (w2 & Hq2 & Hs2 & Hg2).
  rewrite Hs1, Ek in Hg2. pose proof (kstore_key _ _ _ Ek) as Hk.
  destruct (kupdate_quiet s' w2 s Hq2) as (w3 & rv & Hq3 & Hu & Hst);
    [by rewrite Hs2, Hs1, Hkey, Hk|done|].
  exists w3. split; [|split; [done|]].
  - unfold UpdateWithConflictRetry. rewrite retry_on_conflict_spec.
    apply retry_loop_once; [|done]. by rewrite Hg2, Edel.
  - rewrite Hst, Hkey, Hk, lookup_insert_eq, !envs_of_Some.
    by rewrite secretToEnvs_with_rv, Henv.
Qed.

(** The hash stamped on the pod template is the hash of the environment the
    container runs with: the app's own Secret wins over the shared one, as in
    [envFrom], where a later source does. *)
Theorem EnvHash_container_env app ns w :
  kquiet w →
  let data name := default ∅ (sec_Data <$> kstore w !! (ns, name)) in
  let container := foldl (λ env name, data name ∪ env) ∅ (EnvFromSources app) in
  ∃ w', EnvHash R app ns w = (w', HashData R container).
Proof.
  intros Hq data container.
  assert (∀ names w0 m, kquiet w0 → kstore w0 = kstore w →
    ∃ w', fold_left (envHash_step R ns) names (w0, m) =
          (w', foldl (λ env name, data name ∪ env) m names)) as Hfold.
  { induction names as [|name names IH]; intros w0 m Hq0 Hs0; [by eexists|].
    cbn [fold_left foldl].
    destruct (kget_quiet (ns, name) w0 Hq0) as (w1 & Hq1 & Hs1 & Hg).
    assert (envHash_step R ns (w0, m) name = (w1, data name ∪ m)) as ->.
    { unfold envHash_step, data. rewrite Hs0 in Hg.
      destruct (kstore w !! (ns, name)); simpl.
      - by rewrite Hg, map_copy_union.
      - destruct Hg as (e & -> & _). by rewrite (map_empty_union m). }
    apply IH; [done|congruence]. }
  destruct (Hfold (envSourceNames app) w ∅ Hq eq_refl) as [w' Hw'].
  exists w'. unfold EnvHash. by rewrite Hw'.
Qed.

(** What is hashed of a data map. *)
Definition env_text (d : gmap string string) : string := hash_input d (sort_strings (range d).*1).

(** The hash does not depend on the iteration order of the map, and two data
    maps (keys without "=", values without NUL) with the same hash are equal unless
    SHA-256 collides. *)
Theorem HashData_injective d1 d2 :
  hashable d1 → hashable d2 →
  (∀ R', MapRangeOk R' → HashData R' d1 = HashData R d1) ∧
  (HashData R d1 = HashData R d2 →
   d1 = d2 ∨ collision (env_text d1) (env_text d2)).
Proof.
  intros H1 H2. split.
  { intros R' HR'. unfold HashData. destruct (size d1 =? 0)%nat; [done|].
    f_equal. f_equal. apply sort_strings_unique. by rewrite !range_perm. }
  unfold HashData.
  destruct (Nat.eqb_spec (size d1) 0) as [Z1|N1], (Nat.eqb_spec (size d2) 0) as [Z2|N2].
  - left. apply map_size_empty_inv in Z1, Z2. by subst.
  - intros He. pose proof (sha256_hex_length (hash_input d2 (sort_strings (range d2).*1))) as Hl.
    by rewrite <- He in Hl.
  - intros He. pose proof (sha256_hex_length (hash_input d1 (sort_strings (range d1).*1))) as Hl.
    by rewrite He in Hl.
  - intros He. destruct (decide (hash_input d1 (sort_strings (range d1).*1) =
                                 hash_input d2 (sort_strings (range d2).*1))) as [Hi|Hne].
    2: { by right. }
    left.
    assert (∀ d k, k ∈ sort_strings (range (d : gmap string string)).*1 ↔ is_Some (d !! k)) as Hks.
    { intros d k. rewrite elem_of_sort_strings, list_elem_of_fmap. split.
      - intros ([k' v] & -> & Hk%elem_of_range). by eexists.
      - intros [v Hv]. exists (k, v). by rewrite elem_of_range. }
    apply hash_input_inj in Hi as [Hk Hl]; [|done|done|intros k; apply Hks..].
    apply map_eq. intros k. destruct (decide (is_Some (d1 !! k))) as [Hs|Hn].
    + apply Hl. by apply Hks.
    + assert (¬ is_Some (d2 !! k)) as Hn2 by (by rewrite <- Hks, <- Hk, Hks).
      rewrite <- eq_None_not_Some in Hn, Hn2. congruence.
Qed.
End properties.

(** ** Concrete runs *)

Module EnvStoreRuns.
#[local] Existing Instances range_sorted_order Sim.client Sim.retry Sim.retry_ok Sim.client_ok.
Definition R : MapRange := range_sorted_order.

Definition var (name value source : string) : Env :=
  {| env_Name := name; env_Value := value; env_Source := source |}.

Definition user_port : Env := var "PORT" "8080" "user".
Definition bound_host : Env := var "DB_HOST" "db" "binding".

Definition stored_secret (vars : list Env) : Secret :=
  buildSecret R "pj-shop-production" "web-env" vars ∅.

(** The server holds the Secret of [web] with two variables. *)
Definition calm_world : Sim.world Secret :=
  Sim.World [Sim.Put (stored_secret [user_port; bound_host])] [].

(** Another writer sets PORT between our read and our write. *)
Definition contested_world : Sim.world Secret :=
  Sim.World [Sim.Put (stored_secret [user_port; bound_host])]
    [Sim.Calm; Sim.External (Sim.Put (stored_secret [var "PORT" "9090" "user"; bound_host]))].

Definition add_debug (current : list Env) : error + list Env :=
  inr (mergeEnvs R current [var "DEBUG" "1" "user"]).

Definition secrets : Sim.world Secret → gmap NamespacedName Secret := kstore.
Definition later : relation (Sim.world Secret) := khist (Obj := Secret).

Ltac decided := apply (bool_decide_unpack _); vm_compute; exact I.

Lemma SecretToEnvs_buildSecret_witness :
  secretToEnvs R (buildSecret R "ns" "web-env" [user_port; bound_host] ∅) =
  sort_by env_Name (stored <$> [user_port; bound_host]).
Proof.
  apply (SecretToEnvs_buildSecret R "ns" "web-env" [user_port; bound_host] ∅).
  - apply validateEnvVars_ok. reflexivity.
  - decided.
Defined.

Lemma Apply_no_lost_update_witness :
  let '(w', r) := Apply R "pj-shop-production" "web" ∅ add_debug contested_world in
  let key := ("pj-shop-production", "web-env") in
  r = None ∧
  ∃ wu s, later wu w' ∧ applied R ∅ add_debug key (secrets wu !! key) s ∧
    (secrets wu !! key = Some s ∨
     later contested_world wu ∧ secrets w' = <[key := s]> (secrets wu)).
Proof.
  destruct (Apply _ _ _ _ _ _) as [w' r] eqn:E.
  assert (r = None) as ->.
  { change r with (snd (w', r)). rewrite <- E. vm_compute. reflexivity. }
  split; [reflexivity|].
  apply (Apply_no_lost_update R "pj-shop-production" "web" ∅ add_debug contested_world w').
  - discriminate.
  - exact E.
Defined.

Lemma Merge_Get_witness :
  let vars := [var "PORT" "7070" "user"] in
  let old := envs_of R (secrets calm_world !! ("pj-shop-production", "web-env")) in
  ∃ w1 w2 envs, Merge R "pj-shop-production" "web" vars ∅ calm_world = (w1, None) ∧
    Get R "pj-shop-production" "web" w1 = (w2, inr envs) ∧
    StronglySorted (key_le env_Name) envs ∧
    ∀ e, e ∈ envs ↔
      (∃ v, v ∈ vars ∧ e = stored v) ∨ (e ∈ old ∧ env_Name e ∉ env_Name <$> vars).
Proof.
  apply (Merge_Get R "pj-shop-production" "web" [var "PORT" "7070" "user"] ∅ calm_world).
  - reflexivity.
  - apply validateEnvVars_ok. vm_compute. reflexivity.
  - apply validateEnvVars_ok. reflexivity.
  - decided.
Defined.

Lemma Delete_Get_witness :
  ∃ w1 w2, Delete "pj-shop-production" "web" "DB_HOST" calm_world = (w1, None) ∧
    Get R "pj-shop-production" "web" w1 =
      (w2, inr (List.filter (λ e, negb (String.eqb (env_Name e) "DB_HOST"))
                  (envs_of R (secrets calm_world !! ("pj-shop-production", "web-env"))))).
Proof.
  apply (Delete_Get R "pj-shop-production" "web" "DB_HOST" calm_world). reflexivity.
Defined.

Lemma EnvHash_container_env_witness :
  let data name := default ∅ (sec_Data <$> secrets calm_world !! ("pj-shop-production", name)) in
  let container := foldl (λ env name, data name ∪ env) ∅ (EnvFromSources "web") in
  ∃ w', EnvHash R "web" "pj-shop-production" calm_world = (w', HashData R container).
Proof. apply (EnvHash_container_env R "web" "pj-shop-production" calm_world). reflexivity. Defined.

Lemma HashData_injective_witness :
  let d : gmap string string := {["PORT" := "8080"]} in
  (∀ R', MapRangeOk R' → HashData R' d = HashData R d) ∧
  (HashData R d = HashData R ∅ →
   d = ∅ ∨ collision (env_text R d) (env_text R ∅)).
Proof.
  apply (HashData_injective R {["PORT" := "8080"]} ∅).
  - intros k v. rewrite lookup_singleton. case_decide; [|discriminate].
    intros [= <-]. subst. split; reflexivity.
  - intros k v H. rewrite lookup_empty in H. discriminate H.
Defined.

(** The competing write of PORT survives, and so does the addition. *)
Example contested_result :
  let '(w', r) := Apply R "pj-shop-production" "web" ∅ add_debug contested_world in
  (r, snd (Get R "pj-shop-production" "web" w')) =
  (None, inr [bound_host; var "DEBUG" "1" "user"; var "PORT" "9090" "user"]).
Proof. vm_compute. reflexivity. Qed.
End EnvStoreRuns.
