(* ===== verification/BuildRunFacts.v ===== *)
(** * Build runs: names, hashes and projections

    Names of build runs and of their logs are valid object names; the selection hash
    identifies the inputs of a build; a projection writes the environment it is for. *)

From S2P Require Import Prelude GoStrings GoText Sha256 Kube Core Api KubeStatus Constants EnvStore BuildRun.

#[global] Arguments shortHash : simpl never.

(** ** Names *)

(** What the names of apps, environments and commits are made of, and the characters of a
    branch that are turned into dashes. *)
Definition name_char (c : ascii) : bool := label_char (dashed (lower_char c)).

Lemma sanitized_part v :
  sall name_char v = true →
  let p := sanitizeK8sNamePart v in
  sall label_char p = true ∧ first_ok slug_char p = true ∧ last_ok slug_char p = true.
Proof.
  intros Hv. unfold sanitizeK8sNamePart, to_lower, trim_dashes.
  assert (sall label_char (smap dashed (smap lower_char v)) = true) as Hs by (rewrite !sall_smap; exact Hv).
  destruct (trim_dash_ends _ Hs). split; [by apply sall_trim|done].
Qed.

Lemma cut_name_ok n v :
  sall label_char v = true → first_ok slug_char v = true → last_ok slug_char v = true →
  let p := cut_name n v in
  sall label_char p = true ∧ first_ok slug_char p = true ∧ last_ok slug_char p = true ∧ String.length p ≤ n.
Proof.
  intros Hc Hf Hl. unfold cut_name. destruct (Nat.ltb_spec n (String.length v)); [|repeat split; auto; lia].
  pose proof (sall_take _ n _ Hc) as Ht. destruct (trim_dash_ends _ Ht) as [??].
  repeat split; [by apply sall_trim|done|done|].
  pose proof (trim_length is_dash (str_take n v)). rewrite str_take_length in *. unfold trim_dashes. lia.
Qed.

Lemma shortHash_length v : String.length (shortHash v) = 10.
Proof. unfold shortHash. by rewrite str_take_length, sha256_hex_length. Qed.

Lemma shortHash_chars v : sall slug_char (shortHash v) = true.
Proof.
  apply sall_take, (sall_mono Sha256.is_hex), sha256_hex_is_hex.
  apply (ascii_imp Sha256.is_hex slug_char). reflexivity.
Qed.

(** A hash is kept as it is. *)
Lemma smap_id_on p f s : (∀ c, p c = true → f c = c) → sall p s = true → smap f s = s.
Proof.
  intros Hf. induction s as [|c s IH]; simpl; [done|]. intros [Hc Hs]%andb_true_iff. by rewrite Hf, IH.
Qed.

Lemma sanitize_hash v : sanitizeK8sNamePart (shortHash v) = shortHash v.
Proof.
  unfold sanitizeK8sNamePart, to_lower, trim_dashes.
  pose proof (shortHash_chars v) as Hc.
  assert (∀ c, slug_char c = true → lower_char c = c) as H1.
  { intros c Hsc. apply Ascii.eqb_eq. revert c Hsc.
    apply (ascii_imp slug_char (λ c, Ascii.eqb (lower_char c) c)). reflexivity. }
  assert (∀ c, slug_char c = true → dashed c = c) as H2.
  { intros c Hsc. apply Ascii.eqb_eq. revert c Hsc.
    apply (ascii_imp slug_char (λ c, Ascii.eqb (dashed c) c)). reflexivity. }
  rewrite (smap_id_on slug_char lower_char _ H1 Hc), (smap_id_on slug_char dashed _ H2 Hc).
  apply trim_id. revert Hc. apply sall_mono. apply (ascii_imp slug_char (λ c, negb (is_dash c))). reflexivity.
Qed.

(** A name with a hash is always made, whatever the prefix is. *)
Lemma with_hash prefix v fallback :
  ∃ p, sanitizeK8sNameWithSuffix prefix (shortHash v) fallback =
    Some (if String.eqb p "" then shortHash v else p +:+ "-" +:+ shortHash v) ∧
  p = (let c := cut_name 52 (sanitizeK8sNamePart prefix) in
       if String.eqb c "" then cut_name 52 (sanitizeK8sNamePart fallback) else c).
Proof.
  eexists. split; [|reflexivity]. unfold sanitizeK8sNameWithSuffix. rewrite sanitize_hash.
  assert (shortHash v ≠ "") as Hne by (intros Hv; pose proof (shortHash_length v) as Hl; by rewrite Hv in Hl).
  rewrite (proj2 (String.eqb_neq _ _) Hne), shortHash_length. reflexivity.
Qed.

Lemma hashed_label p h :
  sall label_char p = true → first_ok slug_char p = true → last_ok slug_char p = true → String.length p ≤ 52 →
  sall slug_char h = true → String.length h = 10 →
  dns_label (if String.eqb p "" then h else p +:+ "-" +:+ h) = true.
Proof.
  intros Hc Hfi Hla Hlen Hh Hl. assert (h ≠ "") as Hne by (intros ->; done).
  destruct (String.eqb_spec p "") as [|Hpn].
  - unfold dns_label. rewrite (slug_label _ Hh), (sall_first_ok _ _ Hh), (sall_last_ok _ _ Hh), Hl.
    by rewrite (proj2 (String.eqb_neq _ _) Hne).
  - apply dns_label_app; [done|done|done| |done| |].
    + simpl. by apply slug_label.
    + rewrite last_ok_app by done. by apply sall_last_ok.
    + simpl. rewrite Hl. lia.
Qed.

Lemma with_hash_label prefix v fallback :
  sall name_char prefix = true → sall name_char fallback = true →
  ∃ n, sanitizeK8sNameWithSuffix prefix (shortHash v) fallback = Some n ∧ dns_label n = true.
Proof.
  intros Hp Hf. destruct (with_hash prefix v fallback) as (p & -> & Ep). eexists. split; [done|].
  assert (sall label_char p = true ∧ first_ok slug_char p = true ∧ last_ok slug_char p = true ∧ String.length p ≤ 52)
    as (Hc & Hfi & Hla & Hlen).
  { rewrite Ep. destruct (sanitized_part _ Hp) as (?&?&?), (sanitized_part _ Hf) as (?&?&?).
    cbv zeta. destruct (String.eqb _ ""); by apply cut_name_ok. }
  apply hashed_label; auto using shortHash_chars, shortHash_length.
Qed.

Lemma hashed_suffix p h :
  String.length h = 10 →
  let n := if String.eqb p "" then h else p +:+ "-" +:+ h in str_drop (String.length n - 10) n = h.
Proof.
  intros Hl. cbv zeta. destruct (String.eqb p "").
  - rewrite Hl. by destruct h.
  - rewrite <-str_app_assoc, str_app_length, Hl.
    replace (String.length (p +:+ "-") + 10 - 10) with (String.length (p +:+ "-")) by lia. apply str_drop_app.
Qed.

(** The hash at the end of the name. *)
Lemma with_hash_suffix prefix v fallback n :
  sanitizeK8sNameWithSuffix prefix (shortHash v) fallback = Some n → str_drop (String.length n - 10) n = shortHash v.
Proof.
  destruct (with_hash prefix v fallback) as (p & -> & _). intros [= <-]. apply hashed_suffix, shortHash_length.
Qed.

(** The name of a run is a valid label, and two runs with one name have the same hash of
    inputs, or of the request that asked for the build. *)
Theorem buildRunName_spec kind target env revision inputHash requestID :
  sall name_char kind = true → sall name_char target = true → sall name_char env = true →
  sall name_char (shortTag revision) = true →
  ∃ n, buildRunName kind target env revision inputHash requestID = Some n ∧ dns_label n = true ∧
  ∀ kind' target' env' revision' inputHash' requestID',
    buildRunName kind' target' env' revision' inputHash' requestID' = Some n →
    shortHash (firstNonEmpty requestID' inputHash') = shortHash (firstNonEmpty requestID inputHash).
Proof.
  assert (∀ i r, (if String.eqb r "" then shortHash i else shortHash r) = shortHash (firstNonEmpty r i)) as Hsuf.
  { intros i r. unfold firstNonEmpty. by destruct (String.eqb r ""). }
  intros Hk Ht He Hr. unfold buildRunName. rewrite Hsuf.
  edestruct with_hash_label as (n & Hn & Hd); [|..|exists n; split; [exact Hn|split; [exact Hd|]]].
  - rewrite !sall_app, Ht, He, Hr. unfold to_lower. rewrite sall_smap. rewrite (sall_mono name_char _ kind); [done| |done].
    intros c. apply (ascii_imp name_char (λ c, name_char (lower_char c))). reflexivity.
  - reflexivity.
  - intros kind' target' env' revision' inputHash' requestID'. rewrite Hsuf. intros Hn'.
    rewrite <-(with_hash_suffix _ _ _ _ Hn'). by apply with_hash_suffix in Hn.
Qed.

(** The name of the log is a valid label whatever the name of the run is. *)
Lemma buildRunLogConfigMapName_total run : is_Some (buildRunLogConfigMapName run).
Proof. unfold buildRunLogConfigMapName. destruct (with_hash ("buildrun-" +:+ run) run "buildrun") as (p & -> & _). by eexists. Qed.

(** ** The selection hash *)

Definition arg_text (args : gmap string string) (k : string) : string := "arg:" +:+ k +:+ "=" +:+ map_get args k.

Definition token_text (ref : SecretRef) : string :=
  "token-secret=" +:+ SecretRef_Namespace ref +:+ "/" +:+ SecretRef_Name ref +:+ ":" +:+ SecretRef_Key ref.

Section hashes.
Context (R : MapRange) {HR : MapRangeOk R}.

Definition arg_lines (args : gmap string string) : list string :=
  arg_text args <$> sort_strings (range args).*1.

(** The fields of a spec a build depends on, and the text of each. *)
Definition field_lines (spec : BuildRunSpec) : list (string * string) :=
  let t := BuildRunSpec_TargetRef spec in
  [("target-kind", BuildRunTargetRef_Kind t); ("target-name", BuildRunTargetRef_Name t);
   ("target-namespace", BuildRunTargetRef_Namespace t); ("env", BuildRunSpec_Environment spec);
   ("trigger", BuildRunSpec_Trigger spec); ("repo", BuildRunSpec_Repo spec); ("branch", BuildRunSpec_Branch spec);
   ("revision", BuildRunSpec_Revision spec); ("source-path", BuildRunSpec_SourcePath spec);
   ("mode", BuildRunSpec_BuildMode spec); ("dockerfile", BuildRunSpec_DockerfilePath spec);
   ("context", BuildRunSpec_BuildContext spec); ("push", BuildRunSpec_PushTarget spec);
   ("pull", BuildRunSpec_PullTarget spec); ("nocache", if BuildRunSpec_NoCache spec then "true" else "false")].

Definition token_lines (spec : BuildRunSpec) : list string :=
  match BuildRunSpec_TokenSecretRef spec with Some ref => [token_text ref] | None => [] end.

Definition run_lines (spec : BuildRunSpec) : list string :=
  ((λ p, p.1 +:+ "=" +:+ p.2) <$> field_lines spec) ++ arg_lines (BuildRunSpec_BuildArgs spec) ++ token_lines spec.

Definition text_of (lines : list string) : string := join "" ((λ l, l +:+ nl) <$> lines).

Lemma join_empty_cons x l : join "" (x :: l) = x +:+ join "" l.
Proof. destruct l; [by rewrite str_app_nil_r|done]. Qed.

Lemma text_of_cons x l : text_of (x :: l) = x +:+ nl +:+ text_of l.
Proof. unfold text_of. by rewrite fmap_cons, join_empty_cons, str_app_assoc. Qed.

Lemma text_of_app l1 l2 : text_of (l1 ++ l2) = text_of l1 +:+ text_of l2.
Proof.
  induction l1 as [|x l1 IH]; [done|].
  by rewrite <-app_comm_cons, !text_of_cons, IH, !str_app_assoc.
Qed.

Lemma run_hash_input_lines spec : run_hash_input R spec = text_of (run_lines spec).
Proof.
  unfold run_lines, arg_lines, run_hash_input. rewrite !text_of_app.
  assert (join "" (arg_line (BuildRunSpec_BuildArgs spec) <$> sort_strings (range (BuildRunSpec_BuildArgs spec)).*1) =
    text_of (arg_text (BuildRunSpec_BuildArgs spec) <$> sort_strings (range (BuildRunSpec_BuildArgs spec)).*1)) as ->.
  { unfold text_of. f_equal. rewrite <-list_fmap_compose. apply list_fmap_ext. intros i k _.
    unfold arg_line, arg_text. cbn [compose]. by rewrite !str_app_assoc. }
  cbn [fmap list_fmap field_lines fst snd]. rewrite !text_of_cons, !str_app_assoc. cbv zeta.
  repeat (rewrite ?str_app_assoc; f_equal; []). unfold token_lines, token_text.
  destruct (BuildRunSpec_TokenSecretRef spec); [|done]. by rewrite text_of_cons, !str_app_assoc, str_app_nil_r.
Qed.

(** A field without line breaks. *)
Definition one_line : string → bool := no_char (Ascii.ascii_of_nat 10).

Definition plain_spec (spec : BuildRunSpec) : Prop :=
  (∀ p, p ∈ field_lines spec → one_line p.2 = true) ∧
  (∀ k v, BuildRunSpec_BuildArgs spec !! k = Some v → no_char "="%char k = true ∧ one_line k = true ∧ one_line v = true) ∧
  (∀ ref, BuildRunSpec_TokenSecretRef spec = Some ref →
     no_char "/"%char (SecretRef_Namespace ref) = true ∧ no_char ":"%char (SecretRef_Name ref) = true ∧
     one_line (token_text ref) = true).

Lemma text_of_inj l1 l2 :
  (∀ x, x ∈ l1 → one_line x = true) → (∀ x, x ∈ l2 → one_line x = true) →
  text_of l1 = text_of l2 → l1 = l2.
Proof.
  revert l2. induction l1 as [|x l1 IH]; intros [|y l2] H1 H2; rewrite ?text_of_cons.
  - done.
  - by destruct y.
  - by destruct x.
  - unfold nl. intros [-> Ht]%str_split_unique; [|by apply H1; left|by apply H2; left].
    f_equal. apply IH; [intros; apply H1; by right|intros; apply H2; by right|exact Ht].
Qed.

Lemma keys_elem {A} (m : gmap string A) k : k ∈ sort_strings (range m).*1 ↔ is_Some (m !! k).
Proof.
  rewrite elem_of_sort_strings, list_elem_of_fmap. split.
  - intros ([k' v] & -> & Hk%elem_of_range). by eexists.
  - intros [v Hv]. exists (k, v). by rewrite elem_of_range.
Qed.

Lemma arg_texts_inj m1 m2 (ks1 ks2 : list string) :
  (∀ k, k ∈ ks1 → no_char "="%char k = true) → (∀ k, k ∈ ks2 → no_char "="%char k = true) →
  arg_text m1 <$> ks1 = arg_text m2 <$> ks2 → ks1 = ks2 ∧ ∀ k, k ∈ ks1 → map_get m1 k = map_get m2 k.
Proof.
  revert ks2. induction ks1 as [|k1 ks1 IH]; intros [|k2 ks2] H1 H2; try done.
  - intros _. split; [done|]. by intros k ?%elem_of_nil.
  - rewrite !fmap_cons. intros [= Hk Hl].
    apply str_split_unique in Hk as [-> Hv]; [|by apply H1; left|by apply H2; left].
    destruct (IH ks2) as [-> Hks]; [intros; apply H1; by right|intros; apply H2; by right|done|].
    split; [done|]. intros k [->|Hk]%elem_of_cons; auto.
Qed.

Lemma arg_lines_inj m1 m2 :
  (∀ k v, m1 !! k = Some v → no_char "="%char k = true) → (∀ k v, m2 !! k = Some v → no_char "="%char k = true) →
  arg_lines m1 = arg_lines m2 → m1 = m2.
Proof.
  intros H1 H2 [Hk Hv]%arg_texts_inj; [|intros k [v Hv]%keys_elem; eauto..].
  apply map_eq. intros k. destruct (decide (is_Some (m1 !! k))) as [Hs|Hn].
  - assert (is_Some (m2 !! k)) as [v2 Hv2] by by rewrite <-keys_elem, <-Hk, keys_elem.
    apply keys_elem in Hs as Hin. specialize (Hv k Hin). unfold map_get in Hv. destruct Hs as [v1 Hv1].
    rewrite Hv1, Hv2 in Hv. simpl in Hv. congruence.
  - assert (¬ is_Some (m2 !! k)) as Hn2 by by rewrite <-keys_elem, <-Hk, keys_elem.
    rewrite <-eq_None_not_Some in Hn, Hn2. congruence.
Qed.

Lemma plain_lines spec x : plain_spec spec → x ∈ run_lines spec → one_line x = true.
Proof.
  intros (Hf & Ha & Ht). unfold run_lines. rewrite !elem_of_app. intros [Hx|[Hx|Hx]].
  - apply list_elem_of_fmap in Hx as ([n v] & -> & Hin). cbn [fst snd]. pose proof (Hf _ Hin) as Hv. simpl in Hv.
    unfold one_line, no_char in *. rewrite !sall_app, Hv.
    assert (sall (λ a, negb (Ascii.eqb a (Ascii.ascii_of_nat 10))) n = true) as ->; [|done].
    unfold field_lines in Hin. repeat (apply elem_of_cons in Hin as [[= -> _]|Hin]; [done|]). by apply elem_of_nil in Hin.
  - apply list_elem_of_fmap in Hx as (k & -> & [v Hv]%keys_elem). destruct (Ha _ _ Hv) as (_ & Hk & Hl).
    unfold arg_text, one_line, no_char, map_get in *. rewrite !sall_app, Hk, Hv. simpl. by rewrite Hl.
  - unfold token_lines in Hx. destruct (BuildRunSpec_TokenSecretRef spec) as [ref|]; [|by apply elem_of_nil in Hx].
    apply list_elem_of_singleton in Hx as ->. by destruct (Ht _ eq_refl) as (_ & _ & ?).
Qed.

(** What a build depends on. *)
Definition same_inputs (s1 s2 : BuildRunSpec) : Prop :=
  (field_lines s1).*2 = (field_lines s2).*2 ∧ BuildRunSpec_BuildArgs s1 = BuildRunSpec_BuildArgs s2 ∧
  BuildRunSpec_TokenSecretRef s1 = BuildRunSpec_TokenSecretRef s2.

Lemma fields_texts s1 s2 :
  (field_lines s1).*2 = (field_lines s2).*2 ↔
  ((λ p, p.1 +:+ "=" +:+ p.2) <$> field_lines s1) = ((λ p, p.1 +:+ "=" +:+ p.2) <$> field_lines s2).
Proof. unfold field_lines. simpl. split; intros [=]; simplify_eq; congruence. Qed.

Lemma token_text_inj r1 r2 :
  no_char "/"%char (SecretRef_Namespace r1) = true → no_char ":"%char (SecretRef_Name r1) = true →
  no_char "/"%char (SecretRef_Namespace r2) = true → no_char ":"%char (SecretRef_Name r2) = true →
  token_text r1 = token_text r2 → r1 = r2.
Proof.
  destruct r1 as [a1 b1 c1], r2 as [a2 b2 c2]. unfold token_text. simpl. intros H1 H2 H3 H4 [= Ht].
  apply str_split_unique in Ht as [-> Ht]; [|done..]. by apply str_split_unique in Ht as [-> ->].
Qed.

Lemma run_lines_inj s1 s2 : plain_spec s1 → plain_spec s2 → run_lines s1 = run_lines s2 → same_inputs s1 s2.
Proof.
  intros (_ & Ha1 & Ht1) (_ & Ha2 & Ht2). unfold run_lines. intros [Hf Hl]%app_inj_1; [|done].
  split; [by apply fields_texts|].
  set (is_arg := λ x, has_prefix "arg:" x). assert (∀ m, List.filter is_arg (arg_lines m) = arg_lines m) as Hargs.
  { intros m. apply List.forallb_filter_id, forallb_forall. intros x Hx%list_elem_of_In.
    apply list_elem_of_fmap in Hx as (k & -> & _). apply has_prefix_app. }
  assert (∀ s, List.filter is_arg (token_lines s) = []) as Htok.
  { intros s. unfold token_lines. by destruct (BuildRunSpec_TokenSecretRef s). }
  assert (arg_lines (BuildRunSpec_BuildArgs s1) = arg_lines (BuildRunSpec_BuildArgs s2)) as Harg.
  { apply (f_equal (List.filter is_arg)) in Hl. by rewrite !List.filter_app, !Hargs, !Htok, !app_nil_r in Hl. }
  rewrite Harg in Hl. apply app_inv_head in Hl. split.
  - apply arg_lines_inj; [intros k v Hk; by apply Ha1 in Hk as []|intros k v Hk; by apply Ha2 in Hk as []|done].
  - unfold token_lines in Hl. destruct (BuildRunSpec_TokenSecretRef s1) as [r1|], (BuildRunSpec_TokenSecretRef s2) as [r2|];
      [|done..]. destruct (Ht1 _ eq_refl) as (? & ? & _), (Ht2 _ eq_refl) as (? & ? & _).
    f_equal. apply token_text_inj; [done..|]. exact (f_equal (List.hd "") Hl).
Qed.

(** C36: a run is reused for an environment exactly when it was made from the same inputs:
    target, repository, branch, commit, path, mode, Dockerfile, context, image names,
    build arguments and token; what triggered it and whether it used caches do not count.
    Texts with line breaks, argument names with an equals sign and a collision of SHA-256
    aside. *)
Theorem buildRunMatchesAppSpec_spec run app envName branch revision push pull :
  let spec := selection_of (appBuildRunSpec R app envName branch revision push pull) in
  let built := selection_of (BuildRun_Spec run) in
  plain_spec built → plain_spec spec →
  (same_inputs built spec →
   buildRunMatchesAppSpec R run app envName (appBuildRunSpec R app envName branch revision push pull) = true) ∧
  (buildRunMatchesAppSpec R run app envName (appBuildRunSpec R app envName branch revision push pull) = true →
   same_inputs built spec ∨ collision (run_hash_input R built) (run_hash_input R spec)).
Proof.
  intros spec built Hb Hs. unfold buildRunMatchesAppSpec, buildRunSelectionHash, buildRunInputHash.
  fold built spec. unfold collision. rewrite !run_hash_input_lines. split.
  - intros (Hf & Ha & Ht). assert (run_lines built = run_lines spec) as ->.
    { unfold run_lines, token_lines. rewrite Ha, Ht. apply fields_texts in Hf. by rewrite Hf. }
    pose proof (λ n, f_equal (λ l, nth n l "") Hf) as Hn.
    pose proof (Hn 0) as H0. pose proof (Hn 1) as H1. pose proof (Hn 3) as H3. pose proof (Hn 7) as H7.
    cbn in H0, H1, H3, H7. by rewrite H0, H1, H3, H7, !String.eqb_refl.
  - intros [_ Hh%String.eqb_eq]%andb_true_iff.
    destruct (decide (text_of (run_lines built) = text_of (run_lines spec))) as [Ht|Hne]; [left|by right].
    apply run_lines_inj; [done|done|]. apply text_of_inj; [..|done]; intros x Hx; (eapply plain_lines; [|exact Hx]; assumption).
Qed.
End hashes.

(** ** Projections *)

Lemma find_update_env name f envs :
  (∀ e, EnvironmentStatus_Name (f e) = EnvironmentStatus_Name e) →
  List.find (λ e, String.eqb (EnvironmentStatus_Name e) name) (update_env name f envs) =
  Some (f (default (with_EnvironmentStatus_Name name EnvironmentStatus_zero)
             (List.find (λ e, String.eqb (EnvironmentStatus_Name e) name) envs))).
Proof.
  intros Hf. induction envs as [|e envs IH]; simpl; [by rewrite Hf, String.eqb_refl|].
  destruct (String.eqb (EnvironmentStatus_Name e) name) eqn:E; simpl; [by rewrite Hf, E|by rewrite E].
Qed.

Lemma find_update_env_ne name name' f envs :
  (∀ e, EnvironmentStatus_Name (f e) = EnvironmentStatus_Name e) → name ≠ name' →
  List.find (λ e, String.eqb (EnvironmentStatus_Name e) name') (update_env name f envs) =
  List.find (λ e, String.eqb (EnvironmentStatus_Name e) name') envs.
Proof.
  intros Hf Hne. induction envs as [|e envs IH]; simpl.
  - rewrite Hf. cbn. by rewrite (proj2 (String.eqb_neq _ _) Hne).
  - destruct (String.eqb_spec (EnvironmentStatus_Name e) name) as [E|E]; simpl; [|by rewrite IH].
    by rewrite Hf, E, (proj2 (String.eqb_neq _ _) Hne).
Qed.

Definition zero_env (name : string) : EnvironmentStatus := with_EnvironmentStatus_Name name EnvironmentStatus_zero.

Lemma envStatusFor_update name name' f app :
  (∀ e, EnvironmentStatus_Name (f e) = EnvironmentStatus_Name e) →
  envStatusFor (on_env_status name f app) name' =
  if String.eqb name name' then Some (f (default (zero_env name) (envStatusFor app name))) else envStatusFor app name'.
Proof.
  intros Hf. unfold envStatusFor, on_env_status, on_status. cbn [App_Status AppStatus_Environments with_App_Status with_AppStatus_Environments].
  destruct (String.eqb_spec name name') as [<-|Hne]; [by apply find_update_env|by apply find_update_env_ne].
Qed.

Lemma envStatusFor_on_status f app name :
  (∀ s, AppStatus_Environments (f s) = AppStatus_Environments s) →
  envStatusFor (on_status f app) name = envStatusFor app name.
Proof. intros Hf. unfold envStatusFor, on_status. simpl. by rewrite Hf. Qed.

Lemma set_run_names_environments c l s : AppStatus_Environments (set_run_names c l s) = AppStatus_Environments s.
Proof. by destruct c, l. Qed.

(** The status of the environment after a projection. *)
Definition projected_env (run : BuildRun) (es : EnvironmentStatus) : EnvironmentStatus :=
  let es := with_EnvironmentStatus_CurrentBuildRunRef (Some (buildRunReference run)) es in
  if String.eqb (run_phase run) BuildRunPhaseSucceeded
  then with_EnvironmentStatus_LastSuccessfulBuildRunRef (Some (buildRunReference run)) es else es.

(** Projecting a run writes the references of its environment and the two names of the
    app, and nothing else: the other environments, the phase and the conditions of the app
    stay as they are. *)
Lemma projectAppBuildRunStatus_spec envName run app :
  let app' := projectAppBuildRunStatus envName run app in
  App_ObjectMeta app' = App_ObjectMeta app ∧ App_Spec app' = App_Spec app ∧
  (∀ name, envStatusFor app' name =
     if String.eqb envName name then Some (projected_env run (default (zero_env envName) (envStatusFor app envName)))
     else envStatusFor app name) ∧
  AppStatus_Phase (App_Status app') = AppStatus_Phase (App_Status app) ∧
  AppStatus_Conditions (App_Status app') = AppStatus_Conditions (App_Status app) ∧
  AppStatus_CurrentBuildRunName (App_Status app') = (if isBuildRunTerminal run then "" else run_name run) ∧
  AppStatus_LastBuildRunName (App_Status app') =
    (if isBuildRunTerminal run then run_name run else AppStatus_LastBuildRunName (App_Status app)).
Proof.
  cbv zeta. unfold projectAppBuildRunStatus, isBuildRunTerminal, projected_env, phase_in. cbn [existsb].
  destruct (String.eqb (run_phase run) BuildRunPhaseSucceeded) eqn:Es; cbn [orb].
  - split_and!; try done. intros name. rewrite envStatusFor_update by done.
    rewrite !envStatusFor_on_status by (intros; apply set_run_names_environments).
    rewrite !envStatusFor_update by done. rewrite String.eqb_refl. by destruct (String.eqb_spec envName name) as [<-|].
  - destruct (String.eqb (run_phase run) BuildRunPhaseFailed) eqn:Ef; cbn [orb]; split_and!; try done; intros name;
      rewrite envStatusFor_on_status by (intros; apply set_run_names_environments);
      rewrite envStatusFor_update by done; done.
Qed.
