(* ===== verification/AppBuild.v ===== *)
(** * Builds of an app: [internal/controller/app_controller.go]

    How the app controller gets the image of one environment: it asks for a build run,
    follows it and projects its outcome onto the status of the app.  The handlers mutate
    the app they were given; it is part of their state, next to the flag that tells the
    caller that they wrote the phase of the app. *)

From S2P Require Import Prelude GoStrings GoText Kube Core Api KubeStatus Constants BuildRun.

(** ** Image tags *)

Definition tag_char (c : ascii) : bool :=
  is_lower c || is_upper c || is_digit c || existsb (Ascii.eqb c) ["."%char; "_"%char; "-"%char].

Definition byte_in (lo hi : nat) (c : ascii) : bool := (lo <=? code c) && (code c <=? hi).

(** The bytes after the first one, if they are what UTF-8 wants there. *)
Definition tail_matches (want : list (nat * nat)) (s : string) : bool :=
  (length want <=? String.length s) &&
  forallb (λ '((lo, hi), c), byte_in lo hi c) (zip want (String.list_ascii_of_string s)).

(** The number of bytes of the rune a [for range] reads at [String c s]: one for a byte
    that does not start a valid encoding. *)
Definition rune_width (c : ascii) (s : string) : nat :=
  let try_ want := if tail_matches want s then S (length want) else 1 in
  if byte_in 194 223 c then try_ [(128, 191)]
  else if byte_in 224 224 c then try_ [(160, 191); (128, 191)]
  else if byte_in 237 237 c then try_ [(128, 159); (128, 191)]
  else if byte_in 225 239 c then try_ [(128, 191); (128, 191)]
  else if byte_in 240 240 c then try_ [(144, 191); (128, 191); (128, 191)]
  else if byte_in 241 243 c then try_ [(128, 191); (128, 191); (128, 191)]
  else if byte_in 244 244 c then try_ [(128, 143); (128, 191); (128, 191)]
  else 1.

(** [skip] is the number of bytes left of the rune being read. *)
Fixpoint tag_loop (skip : nat) (v : string) : string :=
  match v, skip with
  | EmptyString, _ => EmptyString
  | String _ v, S skip => tag_loop skip v
  | String c v, O => if tag_char c then String c (tag_loop 0 v)
                     else String "-" (tag_loop (rune_width c v - 1) v)
  end.

Definition tag_lead (c : ascii) : bool := Ascii.eqb c "." || Ascii.eqb c "-".

Definition sanitizeImageTagPart (v : string) : string :=
  if String.eqb v "" then "build"
  else let out := trim_left tag_lead (tag_loop 0 v) in if String.eqb out "" then "build" else out.

Definition envImageTag (revision envName : string) : string :=
  sanitizeImageTagPart (shortTag revision) +:+ "-" +:+ sanitizeImageTagPart envName.

(** ** What is built for an environment *)

Record buildIdentity := { id_branch : string; id_revision : string }.

Definition previewTargetsAppRepo (pe : PreviewEnvironment) (app : App) : bool :=
  let src := app_source app in
  if negb (String.eqb (AppSource_Type src) SourceTypeGit) || String.eqb (AppSource_Repo src) "" then false
  else
    let pr := PreviewEnvironmentSpec_PullRequest (PreviewEnvironment_Spec pe) in
    let name := meta_Name (PreviewEnvironment_ObjectMeta pe) in
    let prRepo := CanonicalRepoKey (PullRequestRef_Repo pr) in
    if negb (String.eqb prRepo "") then String.eqb prRepo (CanonicalRepoKey (AppSource_Repo src))
    else if String.eqb name ("preview-pr-" +:+ itoa (PullRequestRef_Number pr)) then true
    else if has_prefix "preview-" name && contains "-pr-" name
    then has_prefix (PreviewEnvironmentPrefix (AppSource_Repo src) true) name
    else true.

(** The identity a preview environment gives to its environment, if it does. *)
Definition preview_identity (app : App) (names : gset string) (m : gmap string buildIdentity)
    (pe : PreviewEnvironment) : gmap string buildIdentity :=
  let pr := PreviewEnvironmentSpec_PullRequest (PreviewEnvironment_Spec pe) in
  let envName := "pr-" +:+ itoa (PullRequestRef_Number pr) in
  if bool_decide (meta_DeletionTimestamp (PreviewEnvironment_ObjectMeta pe) = None) &&
     bool_decide (envName ∈ names) && previewTargetsAppRepo pe app
  then <[envName := {| id_branch := PullRequestRef_Branch pr; id_revision := PullRequestRef_SHA pr |}]> m
  else m.

Definition previewBuildIdentitiesByEnv {W} {LP : KubeListIn W PreviewEnvironment} (app : App)
    (previewEnvNames : gset string) : E W (gmap string buildIdentity) :=
  if bool_decide (previewEnvNames = ∅) then mret ∅
  else
    previewEnvs ← klist_in (app_ns app) ∅ : E W (list PreviewEnvironment);
    mret (fold_left (preview_identity app previewEnvNames) previewEnvs ∅).

Definition resolveEnvBuildIdentity (app : App) (env : Environment) (previews : gmap string buildIdentity)
    : buildIdentity :=
  let branch := Environment_Branch env in
  let '(branch, revision) := match previews !! Environment_Name env with
                             | Some p => (firstNonEmpty (id_branch p) branch, id_revision p)
                             | None => (branch, "")
                             end in
  let revision :=
    if String.eqb revision "" then
      let annotated := app_annotation app "mortise.dev/revision" in
      if negb (String.eqb branch "") then branch
      else if String.eqb annotated "" then AppSource_Branch (app_source app) else annotated
    else revision in
  let branch := firstNonEmpty (firstNonEmpty branch (AppSource_Branch (app_source app))) "main" in
  {| id_branch := branch; id_revision := firstNonEmpty revision "main" |}.

(** ** Aggregation *)

Definition envCountsTowardAppBuildFailure (names : gset string) (envName : string) : bool :=
  bool_decide (names = ∅) || bool_decide (envName ∈ names).
Definition envSelectedForBuildFailureAggregation (envName : string) (names : gset string) : bool :=
  bool_decide (envName ∈ names).

Definition isTerminalBuildFailurePhase (phase : BuildRunPhase) : bool := String.eqb phase BuildRunPhaseFailed.

Definition build_failed (es : EnvironmentStatus) : bool :=
  match EnvironmentStatus_CurrentBuildRunRef es with
  | Some ref => isTerminalBuildFailurePhase (BuildRunReference_Phase ref)
  | None => false
  end.

Definition envExcludedFromTopLevelReadinessAggregation (es : EnvironmentStatus)
    (previewEnvNames buildAggregationEnvNames : gset string) (workloadPresent : bool) : bool :=
  negb (envSelectedForBuildFailureAggregation (EnvironmentStatus_Name es) buildAggregationEnvNames) &&
  bool_decide (EnvironmentStatus_Name es ∈ previewEnvNames) && negb workloadPresent && build_failed es.

Definition selectedEnvHasTerminalBuildFailure (envs : list EnvironmentStatus) (names : gset string) : bool :=
  existsb (λ es, envSelectedForBuildFailureAggregation (EnvironmentStatus_Name es) names && build_failed es) envs.
Definition excludedEnvHasTerminalBuildFailure (envs : list EnvironmentStatus) (names : gset string) : bool :=
  existsb (λ es, negb (envSelectedForBuildFailureAggregation (EnvironmentStatus_Name es) names) && build_failed es) envs.

Definition isTerminalBuildFailureCondition (cond : option Condition) : bool :=
  match cond with
  | None => false
  | Some c => String.eqb (Condition_Type c) "BuildSucceeded" && String.eqb (Condition_Status c) "False" &&
              existsb (String.eqb (Condition_Reason c)) ["BuildFailed"; "BuildRetriesExhausted"]
  end.

Definition buildFailedDegradedMessage : string := "Serving previous image; latest build failed".

Definition degradedBuildFailureMessage (detail : string) : string :=
  let detail := trim_space detail in
  if String.eqb detail "" || String.eqb detail buildFailedDegradedMessage ||
     has_prefix (buildFailedDegradedMessage +:+ ":") detail
  then buildFailedDegradedMessage
  else buildFailedDegradedMessage +:+ ": " +:+ detail.

Definition currentImageForEnv (app : App) (envName : string) : string :=
  match List.find (λ es, String.eqb (EnvironmentStatus_Name es) envName &&
                         negb (String.eqb (EnvironmentStatus_LastBuiltImage es) ""))
          (AppStatus_Environments (App_Status app)) with
  | Some es => EnvironmentStatus_LastBuiltImage es
  | None =>
    match List.find (λ e, String.eqb (Environment_Name e) envName && negb (String.eqb (Environment_Image e) ""))
            (AppSpec_Environments (App_Spec app)) with
    | Some e => Environment_Image e
    | None => AppSource_Image (app_source app)
    end
  end.

Definition allEnvBuildsCurrentForRevision (app : App) (envs : list Environment)
    (previews : gmap string buildIdentity) : bool :=
  match envs with
  | [] => false
  | _ => forallb (λ env,
      match envStatusFor app (Environment_Name env) with
      | Some es => String.eqb (EnvironmentStatus_LastBuiltSHA es) (id_revision (resolveEnvBuildIdentity app env previews)) &&
                   negb (String.eqb (EnvironmentStatus_LastBuiltImage es) "")
      | None => false
      end) envs
  end.

(** ** The environment that speaks for the app *)

Definition projectedEnvName (envs : list EnvironmentStatus) (order : list string) : string :=
  let statusByName : gmap string EnvironmentStatus :=
    fold_left (λ m es, <[EnvironmentStatus_Name es := es]> m) envs ∅ in
  let known := List.filter (λ n, bool_decide (is_Some (statusByName !! n))) order in
  let extras := List.filter (λ n, negb (bool_decide (n ∈ known))) (sort_strings (EnvironmentStatus_Name <$> envs)) in
  let built n := match statusByName !! n with
                 | Some es => negb (String.eqb (EnvironmentStatus_LastBuiltImage es) "")
                 | None => false
                 end in
  default "" (List.find built (known ++ extras)).

Definition projectedBuildRunName (es : EnvironmentStatus) : string :=
  match EnvironmentStatus_CurrentBuildRunRef es with
  | Some ref =>
    if String.eqb (BuildRunReference_Phase ref) BuildRunPhaseSucceeded then BuildRunReference_Name ref
    else ref_name (EnvironmentStatus_LastSuccessfulBuildRunRef es)
  | None => ref_name (EnvironmentStatus_LastSuccessfulBuildRunRef es)
  end.

Definition set_built (sha image : string) (s : AppStatus) : AppStatus :=
  with_AppStatus_LastBuiltImage image (with_AppStatus_LastBuiltSHA sha s).

Definition projectAppBuildMetadata {W} {CR : KubeClient W BuildRun} (order : list string) (app : App) (w : W)
    : W * App * option error :=
  let app := on_status (set_built "" "") app in
  let app := if String.eqb (AppStatus_DetectedPortImage (App_Status app)) ""
             then on_status (with_AppStatus_DetectedPort 0) app else app in
  let envName := projectedEnvName (AppStatus_Environments (App_Status app)) order in
  if String.eqb envName "" then (w, app, None)
  else
    match envStatusFor app envName with
    | None => (w, app, None)
    | Some es =>
      let app := on_status (set_built (EnvironmentStatus_LastBuiltSHA es) (EnvironmentStatus_LastBuiltImage es)) app in
      let runName := projectedBuildRunName es in
      if String.eqb runName "" then (w, app, None)
      else
        match kget (Obj := BuildRun) (app_ns app, runName) w with
        | (w, inr run) =>
          (w, on_status (with_AppStatus_DetectedPort (BuildRunStatus_DetectedPort (BuildRun_Status run))) app, None)
        | (w, inl err) => (w, app, if IsNotFound err then None else Some err)
        end
    end.

(** ** The handlers *)

Record envBuild := { eb_image : string; eb_requeue : bool; eb_statusDirty : bool; eb_shouldClearNoCache : bool }.

Definition in_flight (clear : bool) : envBuild :=
  {| eb_image := ""; eb_requeue := true; eb_statusDirty := true; eb_shouldClearNoCache := clear |}.
Definition skipped (clear : bool) : envBuild :=
  {| eb_image := ""; eb_requeue := false; eb_statusDirty := true; eb_shouldClearNoCache := clear |}.
Definition built (image : string) (dirty clear : bool) : envBuild :=
  {| eb_image := image; eb_requeue := false; eb_statusDirty := dirty; eb_shouldClearNoCache := clear |}.

Section handlers.
Context {W : Type} {CR : KubeClient W BuildRun} {CA : KubeClient W App} {SA : KubeStatus W App}
  {KR : KubeRetry W} {CH : ConditionHelpers} (R : MapRange).
(** [controllerutil.SetControllerReference(app, obj, r.Scheme)] on the metadata, the
    registry's images, the clock. *)
Context (SetControllerReference : ObjectMeta → ObjectMeta → error + ObjectMeta)
  (PushTarget PullTarget : string → string → string → error + string) (now : W → Time).

(** The state of a handler: the world, the app it was given, and whether it set the phase
    of the app. *)
Definition St : Type := W * App * bool.

Definition on_world {A} (m : E W A) : E St A := λ '(w, app, flag), let '(w, r) := m w in ((w, app, flag), r).
Definition the_app : E St App := λ s, (s, inr s.1.2).
Definition modify (f : App → App) : E St unit := λ '(w, app, flag), ((w, f app, flag), inr tt).
Definition set_flag : E St unit := λ '(w, app, flag), ((w, app, true), inr tt).
Definition clock : E St Time := λ s, (s, inr (now s.1.1)).

Definition updateAppStatus (app : App) (mutate : AppStatus → AppStatus) : W → W * option error :=
  RetryOnConflict (λ w,
    match kget (obj_key app) w with
    | (w, inl err) => (w, Some err)
    | (w, inr fresh) => kstatus_update (on_status mutate fresh) w
    end).

(** *** Conditions *)

Definition registryTargetCondition : string := "RegistryTargetValid".

Definition setRegistryTargetCondition (app : App) (envName which : string) (cause : error) (w : W) : W * error :=
  let msg := sprintf "registry %s target for env %s: %v; check PlatformConfig spec.registry"
               [which; envName; error_text cause] in
  match updateAppStatus app (λ s, with_AppStatus_Conditions (SetStatusCondition
      {| Condition_Type := registryTargetCondition; Condition_Status := "False";
         Condition_ObservedGeneration := meta_Generation (App_ObjectMeta app); Condition_LastTransitionTime := 0;
         Condition_Reason := "RegistryTargetInvalid"; Condition_Message := msg |} (AppStatus_Conditions s)) s) w with
  | (w, Some err) => (w, Wrapf "record registry target failure: %w (cause: %v)" [error_text cause] err)
  | (w, None) => (w, Errorf "%s" [msg])
  end.

Definition clearRegistryTargetCondition (app : App) (w : W) : W :=
  match FindStatusCondition (AppStatus_Conditions (App_Status app)) registryTargetCondition with
  | None => w
  | Some _ => (updateAppStatus app (λ s, with_AppStatus_Conditions
                (RemoveStatusCondition registryTargetCondition (AppStatus_Conditions s)) s) w).1
  end.

(** The condition of a failed build, which replaces the one of a started build. *)
Definition with_failure (reason msg : string) (t : Time) (s : AppStatus) : AppStatus :=
  with_AppStatus_Conditions (SetStatusCondition
    {| Condition_Type := "BuildSucceeded"; Condition_Status := "False"; Condition_ObservedGeneration := 0;
       Condition_LastTransitionTime := t; Condition_Reason := reason; Condition_Message := msg |}
    (RemoveStatusCondition "BuildStarted" (AppStatus_Conditions s))) s.

Definition setFailedCondition (reason msg : string) : E St unit :=
  app ← the_app;
  t ← clock;
  let mutate s := with_failure reason msg t (with_AppStatus_Phase AppPhaseFailed s) in
  _ ← on_world (λ w, ((updateAppStatus app mutate w).1, inr tt));
  _ ← modify (on_status mutate);
  throw (Errorf "%s: %s" [reason; msg]).

Definition setBuildFailureCondition (reason msg : string) : E St unit :=
  app ← the_app;
  t ← clock;
  _ ← on_world (run (updateAppStatus app (with_failure reason msg t)));
  modify (on_status (with_failure reason msg t)).

Definition markEnvBuildInProgress (envName revision : string) (countsTopLevel : bool) : E St unit :=
  _ ← modify (on_env_status envName (λ es,
        with_EnvironmentStatus_Message ("building revision " +:+ revision)
          (with_EnvironmentStatus_Phase AppPhaseBuilding es)));
  if negb countsTopLevel then mret tt
  else
    t ← clock;
    _ ← modify (on_status (λ s, with_AppStatus_Conditions (SetStatusCondition
          {| Condition_Type := "BuildStarted"; Condition_Status := "True"; Condition_ObservedGeneration := 0;
             Condition_LastTransitionTime := t; Condition_Reason := "BuildInProgress";
             Condition_Message := "building revision " +:+ revision +:+ " for " +:+ envName |}
          (AppStatus_Conditions s)) (with_AppStatus_Phase AppPhaseBuilding s)));
    set_flag.

Definition set_env_built (revision image : string) (es : EnvironmentStatus) : EnvironmentStatus :=
  with_EnvironmentStatus_LastBuiltImage image (with_EnvironmentStatus_LastBuiltSHA revision es).

(** The outcome is on the status of the environment already. *)
Definition already_applied (app : App) (envName revision image : string) : bool :=
  match envStatusFor app envName with
  | Some es => String.eqb (EnvironmentStatus_LastBuiltSHA es) revision &&
               String.eqb (EnvironmentStatus_LastBuiltImage es) image
  | None => false
  end.

Definition applyEnvBuildSuccess (order : list string) (envName revision image digest : string)
    (detectedPort : Z) (countsTopLevel : bool) : E St unit :=
  app ← the_app;
  let alreadyApplied := already_applied app envName revision image in
  _ ← modify (on_env_status envName (set_env_built revision image));
  app ← the_app;
  _ ← (if String.eqb (projectedEnvName (AppStatus_Environments (App_Status app)) order) envName
       then modify (on_status (λ s, with_AppStatus_DetectedPort detectedPort (set_built revision image s)))
       else mret tt);
  if negb countsTopLevel || alreadyApplied then mret tt
  else
    t ← clock;
    _ ← modify (on_status (λ s, with_AppStatus_Conditions (SetStatusCondition
          {| Condition_Type := "BuildSucceeded"; Condition_Status := "True"; Condition_ObservedGeneration := 0;
             Condition_LastTransitionTime := t; Condition_Reason := "BuildComplete";
             Condition_Message := "built " +:+ image +:+ " digest=" +:+ digest +:+ " for " +:+ envName |}
          (RemoveStatusCondition "BuildStarted" (AppStatus_Conditions s)))
          (with_AppStatus_Phase AppPhaseDeploying s)));
    set_flag.

(** *** The build run of an environment *)

(** The run that is created: the panics of the name and of the labels are errors of the
    reconciliation. *)
Definition new_run (app : App) (envName : string) (spec : BuildRunSpec) (name : string) : error + BuildRun :=
  let meta := with_name name (with_namespace (app_ns app) ObjectMeta_zero) in
  match SetControllerReference (App_ObjectMeta app) meta with
  | inl err => inl err
  | inr meta =>
    match appLabels app envName with
    | None => inl (Sentinel "panic")
    | Some labels =>
      let run := {| BuildRun_ObjectMeta := meta; BuildRun_Spec := spec; BuildRun_Status := BuildRunStatus_zero |} in
      inr (with_BuildRun_ObjectMeta
             (with_labels (buildRunLabels run ∪ (labels ∪ meta_Labels meta)) meta) run)
    end
  end.

(** The current run of the environment, if it is still there. *)
Definition current_run (app : App) (envName : string) : E W (option BuildRun) :=
  let name := currentBuildRunNameForEnv app envName in
  if String.eqb name "" then mret None
  else λ w, match kget (app_ns app, name) w with
            | (w, inr run) => (w, inr (Some run))
            | (w, inl err) => if IsNotFound err then (w, inr None) else (w, inl err)
            end.

Definition find_or_create (app : App) (envName : string) (spec : BuildRunSpec) (name : string) : E W BuildRun :=
  λ w, match kget (app_ns app, name) w with
       | (w, inr run) => (w, inr run)
       | (w, inl err) =>
         if negb (IsNotFound err) then (w, inl err)
         else
           match new_run app envName spec name with
           | inl err => (w, inl err)
           | inr run =>
             match kcreate run w with
             | (w, None) => (w, inr run)
             | (w, Some err) => if IsAlreadyExists err then kget (app_ns app, name) w else (w, inl err)
             end
           end
       end.

Definition ensureAppBuildRun (app : App) (envName branch revision pushTarget pullTarget : string) : E W BuildRun :=
  let spec := appBuildRunSpec R app envName branch revision pushTarget pullTarget in
  current ← (if hasPendingRebuildRequest app then mret None else current_run app envName);
  let reusable := run ← current; if buildRunMatchesAppSpec R run app envName spec then Some run else None in
  match reusable with
  | Some run => mret run
  | None =>
    match buildRunName "app" (app_name app) envName revision (BuildRunSpec_InputHash spec)
            (BuildRunSpec_RequestID spec) with
    | None => throw (Sentinel "panic")
    | Some name => find_or_create app envName spec name
    end
  end.

(** What becomes of a run once it is known. *)
Definition follow_run (order : list string) (names : gset string) (envName revision : string)
    (consumed : bool) (run : BuildRun) : E St envBuild :=
  let status := BuildRun_Status run in
  let counts := envSelectedForBuildFailureAggregation envName names in
  _ ← modify (projectAppBuildRunStatus envName run);
  if String.eqb (run_phase run) BuildRunPhaseSucceeded then
    _ ← applyEnvBuildSuccess order envName revision (BuildRunStatus_Image status) (BuildRunStatus_Digest status)
          (BuildRunStatus_DetectedPort status) counts;
    mret (built (BuildRunStatus_Image status) true consumed)
  else if String.eqb (run_phase run) BuildRunPhaseFailed then
    _ ← (if envCountsTowardAppBuildFailure names envName
         then setBuildFailureCondition (firstNonEmpty (BuildRunStatus_FailureReason status) "BuildFailed")
                (BuildRunStatus_FailureMessage status)
         else mret tt);
    mret (skipped consumed)
  else
    _ ← markEnvBuildInProgress envName revision counts;
    mret (in_flight consumed).

(** The build of the environment is the last successful one. *)
Definition still_built (app : App) (envName revision : string) (spec : BuildRunSpec) : E W (option string) :=
  match envStatusFor app envName with
  | Some es =>
    match EnvironmentStatus_LastSuccessfulBuildRunRef es with
    | Some ref =>
      if String.eqb (EnvironmentStatus_LastBuiltSHA es) revision &&
         negb (String.eqb (EnvironmentStatus_LastBuiltImage es) "") && negb (hasPendingRebuildRequest app)
      then λ w, match kget (app_ns app, BuildRunReference_Name ref) w with
                | (w, inr run) => (w, inr (if buildRunMatchesAppSpec R run app envName spec
                                           then Some (EnvironmentStatus_LastBuiltImage es) else None))
                | (w, inl err) => if IsNotFound err then (w, inr None) else (w, inl err)
                end
      else mret None
    | None => mret None
    end
  | None => mret None
  end.

(** The branch and the commit, with the defaults of the app. *)
Definition effective_source (app : App) (branch revision : string) : string * string :=
  let branch := firstNonEmpty branch (AppSource_Branch (app_source app)) in
  let revision := firstNonEmpty revision (app_annotation app "mortise.dev/revision") in
  let revision := if String.eqb revision "" then branch else revision in
  (firstNonEmpty branch "main", firstNonEmpty revision "main").

(** The registry's images, or the condition that says which one there is not. *)
Definition registry_targets (envName revision : string) : E St (string * string) :=
  app ← the_app;
  let project := (ProjectFromControlNs (app_ns app)).1 in
  let failed which cause : E St (string * string) := λ '(w, app, flag),
    let '(w, err) := setRegistryTargetCondition app envName which cause w in ((w, app, flag), inl err) in
  match PushTarget project (app_name app) (envImageTag revision envName) with
  | inl err => failed "push" err
  | inr push =>
    match PullTarget project (app_name app) (envImageTag revision envName) with
    | inl err => failed "pull" err
    | inr pull => _ ← on_world (λ w, (clearRegistryTargetCondition app w, inr tt)); mret (push, pull)
    end
  end.

Definition reconcileEnvBuild (order : list string) (names : gset string) (envName branch revision : string)
    : E St envBuild :=
  app ← the_app;
  let '(branch, revision) := effective_source app branch revision in
  targets ← registry_targets envName revision;
  let '(push, pull) := targets in
  let spec := appBuildRunSpec R app envName branch revision push pull in
  current ← (if hasPendingRebuildRequest app then mret None else on_world (current_run app envName));
  let reusable := run ← current; if buildRunMatchesAppSpec R run app envName spec then Some run else None in
  match reusable with
  | Some run => follow_run order names envName revision false run
  | None =>
    image ← on_world (still_built app envName revision spec);
    match image with
    | Some image => mret (built image false false)
    | None =>
      run ← on_world (ensureAppBuildRun app envName branch revision push pull);
      follow_run order names envName revision (hasPendingRebuildRequest app) run
    end
  end.
End handlers.
