(* ===== verification/AppBuildFacts.v ===== *)
(** * Builds of an app: what the controller promises

    The build of a preview environment leaves the app as a whole alone; a request to
    rebuild is served by a run of its own; a repeated pass starts no second build. *)

From S2P Require Import Prelude GoStrings GoText Kube Core Api KubeStatus Effects Constants BuildRun BuildRunFacts AppBuild.

(** ** Preview environments *)

Section isolation.
Context {W : Type} {CR : KubeClient W BuildRun} {CA : KubeClient W App} {SA : KubeStatus W App}
  {KR : KubeRetry W} {CH : ConditionHelpers} (R : MapRange).
Context (SetControllerReference : ObjectMeta → ObjectMeta → error + ObjectMeta)
  (PushTarget PullTarget : string → string → string → error + string) (now : W → Time).

(** Only the status of one environment of the app, and what the app says about its last
    build, have changed. *)
Definition apart_from (envName : string) (s s' : St (W := W)) : Prop :=
  let '(_, app, flag) := s in let '(_, app', flag') := s' in
  flag' = flag ∧ App_ObjectMeta app' = App_ObjectMeta app ∧ App_Spec app' = App_Spec app ∧
  AppStatus_Phase (App_Status app') = AppStatus_Phase (App_Status app) ∧
  AppStatus_Conditions (App_Status app') = AppStatus_Conditions (App_Status app) ∧
  ∀ name, name ≠ envName → envStatusFor app' name = envStatusFor app name.

#[local] Instance apart_from_preorder envName : PreOrder (apart_from envName).
Proof.
  split; [by intros [[w app] flag]|]. intros [[w1 a1] f1] [[w2 a2] f2] [[w3 a3] f3] H1 H2.
  unfold apart_from in *. destruct_and!. split_and!; try congruence.
  intros name Hn. transitivity (envStatusFor a2 name); auto.
Qed.

Lemma apart_world {A} envName (m : E W A) : keeps (apart_from envName) (on_world m).
Proof. intros [[w app] flag]. unfold on_world. by destruct (m w). Qed.

Lemma apart_app envName : keeps (apart_from envName) (the_app (W := W)).
Proof. by intros [[w app] flag]. Qed.

Lemma apart_on_env envName f :
  (∀ e, EnvironmentStatus_Name (f e) = EnvironmentStatus_Name e) →
  keeps (apart_from envName) (modify (W := W) (on_env_status envName f)).
Proof.
  intros Hf [[w app] flag]. unfold modify, apart_from. simpl. split_and!; try done.
  intros name Hn. rewrite envStatusFor_update by done. by rewrite (proj2 (String.eqb_neq _ _) (not_eq_sym Hn)).
Qed.

Lemma apart_project envName run : keeps (apart_from envName) (modify (W := W) (projectAppBuildRunStatus envName run)).
Proof.
  intros [[w app] flag]. unfold modify, apart_from. simpl.
  destruct (projectAppBuildRunStatus_spec envName run app) as (? & ? & Hs & ? & ? & _). split_and!; try done.
  intros name Hn. rewrite Hs. by rewrite (proj2 (String.eqb_neq _ _) (not_eq_sym Hn)).
Qed.

Lemma apart_success envName order revision image digest port :
  keeps (apart_from envName) (applyEnvBuildSuccess now order envName revision image digest port false).
Proof.
  unfold applyEnvBuildSuccess. cbn [negb orb]. repeat keeps_step; try apply apart_app; try by apply apart_on_env.
  intros [[w app] flag]. unfold modify, apart_from. simpl. done.
Qed.

Lemma apart_follow envName order names revision consumed run :
  names ≠ ∅ → envName ∉ names →
  keeps (apart_from envName) (follow_run now order names envName revision consumed run).
Proof.
  intros Hne Hn. unfold follow_run, envSelectedForBuildFailureAggregation, envCountsTowardAppBuildFailure.
  rewrite !bool_decide_eq_false_2 by done. apply keeps_bind; [apply _|apply apart_project|intros _].
  cbn [orb]. repeat keeps_step; [apply apart_success|].
  unfold markEnvBuildInProgress. cbn [negb]. repeat keeps_step; by apply apart_on_env.
Qed.

(** The build of an environment that does not speak for the app, such as a preview, never
    moves the phase of the app, its conditions or another environment, whatever becomes of
    the build and whatever fails on the way. *)
Theorem preview_build_isolated envName order names branch revision s :
  names ≠ ∅ → envName ∉ names →
  apart_from envName s
    (reconcileEnvBuild R SetControllerReference PushTarget PullTarget now order names envName branch revision s).1.
Proof.
  intros Hne Hn. revert s. change (keeps (apart_from envName)
    (reconcileEnvBuild R SetControllerReference PushTarget PullTarget now order names envName branch revision)).
  unfold reconcileEnvBuild. apply keeps_bind; [apply _|apply apart_app|intros app].
  destruct (effective_source app branch revision) as [b rev].
  apply keeps_bind; [apply _| |intros [push pull]].
  - unfold registry_targets. apply keeps_bind; [apply _|apply apart_app|intros a].
    assert (∀ which cause, keeps (A := string * string) (apart_from envName) (λ '(w, app, flag),
      let '(w, err) := setRegistryTargetCondition app envName which cause w in ((w, app, flag), inl err))) as Hfail.
    { intros which cause [[w a'] flag]. by destruct (setRegistryTargetCondition _ _ _ _ w). }
    repeat keeps_step; [apply Hfail|apply Hfail|apply apart_world].
  - repeat keeps_step; try apply apart_world; by apply apart_follow.
Qed.
End isolation.

(** ** Requests to rebuild *)

Section requests.
Context {W : Type} {CR : KubeClient W BuildRun} {OR : KubeClientOk W BuildRun} {CA : KubeClient W App}
  {SA : KubeStatus W App} {KR : KubeRetry W} {CH : ConditionHelpers} (R : MapRange).
Context (SetControllerReference : ObjectMeta → ObjectMeta → error + ObjectMeta)
  (PushTarget PullTarget : string → string → string → error + string) (now : W → Time).
(** A controller reference leaves the name and the namespace of the object alone. *)
Context (HSCR : ∀ owner m m', SetControllerReference owner m = inr m' →
  meta_Name m' = meta_Name m ∧ meta_Namespace m' = meta_Namespace m).

(** The references to build runs and the metadata of the app are kept. *)
Definition refs_kept (s s' : St (W := W)) : Prop :=
  App_ObjectMeta s'.1.2 = App_ObjectMeta s.1.2 ∧ App_Spec s'.1.2 = App_Spec s.1.2 ∧
  ∀ name es, envStatusFor s.1.2 name = Some es → ∃ es', envStatusFor s'.1.2 name = Some es' ∧
    EnvironmentStatus_CurrentBuildRunRef es' = EnvironmentStatus_CurrentBuildRunRef es.

#[local] Instance refs_kept_preorder : PreOrder refs_kept.
Proof.
  split; [intros s; repeat split; eauto|]. intros s1 s2 s3 (M1 & S1 & H1) (M2 & S2 & H2).
  split_and!; [congruence..|]. intros name es He. destruct (H1 _ _ He) as (es1 & He1 & E1).
  destruct (H2 _ _ He1) as (es2 & He2 & E2). exists es2. split; [done|congruence].
Qed.

Lemma refs_on_status f :
  (∀ s, AppStatus_Environments (f s) = AppStatus_Environments s) → keeps refs_kept (modify (W := W) (on_status f)).
Proof.
  intros Hf [[w app] flag]. unfold refs_kept. simpl. split_and!; [done..|]. intros name es.
  rewrite envStatusFor_on_status by done. eauto.
Qed.

Lemma refs_on_env envName f :
  (∀ e, EnvironmentStatus_Name (f e) = EnvironmentStatus_Name e) →
  (∀ e, EnvironmentStatus_CurrentBuildRunRef (f e) = EnvironmentStatus_CurrentBuildRunRef e) →
  keeps refs_kept (modify (W := W) (on_env_status envName f)).
Proof.
  intros Hf Hr [[w app] flag]. unfold refs_kept. simpl. split_and!; [done..|]. intros name es He.
  rewrite envStatusFor_update by done. destruct (String.eqb_spec envName name) as [<-|]; [|by exists es].
  rewrite He. simpl. by eexists.
Qed.

Lemma refs_same (s s' : St (W := W)) : s'.1.2 = s.1.2 → refs_kept s s'.
Proof. unfold refs_kept. intros ->. split_and!; [done..|]. eauto. Qed.

Lemma refs_world {A} (m : E W A) : keeps refs_kept (on_world m).
Proof. intros [[w app] flag]. apply refs_same. unfold on_world. by destruct (m w). Qed.

Lemma refs_clock : keeps refs_kept (clock now).
Proof. intros s. by apply refs_same. Qed.
Lemma refs_app : keeps refs_kept (the_app (W := W)).
Proof. intros s. by apply refs_same. Qed.
Lemma refs_flag : keeps refs_kept (set_flag (W := W)).
Proof. intros [[w app] flag]. by apply refs_same. Qed.

Ltac refs := repeat keeps_step;
  try first [by apply refs_on_status|by apply refs_on_env|apply refs_world|apply refs_clock|apply refs_app|apply refs_flag].

(** Following a run records it as the current one of the environment. *)
Lemma follow_run_current order names envName revision consumed run s s' r :
  follow_run now order names envName revision consumed run s = (s', inr r) →
  eb_shouldClearNoCache r = consumed ∧ App_ObjectMeta s'.1.2 = App_ObjectMeta s.1.2 ∧
  App_Spec s'.1.2 = App_Spec s.1.2 ∧
  ∃ es, envStatusFor s'.1.2 envName = Some es ∧ EnvironmentStatus_CurrentBuildRunRef es = Some (buildRunReference run).
Proof.
  destruct s as [[w app] flag]. unfold follow_run. intros (s1 & [] & Hm & Hk)%bind_inr.
  unfold modify in Hm. simplify_eq.
  destruct (projectAppBuildRunStatus_spec envName run app) as (Hmeta & Hspec & Henv & _).
  specialize (Henv envName). rewrite String.eqb_refl in Henv.
  assert (refs_kept (w, projectAppBuildRunStatus envName run app, flag) s' ∧ eb_shouldClearNoCache r = consumed)
    as [(Hm' & Hs' & He') Hc].
  { split.
    - change s' with ((s', inr (A := error) r).1). rewrite <-Hk.
      refine ((_ : keeps refs_kept _) _). unfold applyEnvBuildSuccess, setBuildFailureCondition, markEnvBuildInProgress.
      refs.
    - repeat (case_match; try (apply bind_inr in Hk as (? & ? & ? & Hk))); by injection Hk as _ <-. }
  simpl in *. split_and!; [done|congruence|congruence|].
  destruct (He' _ _ Henv) as (es & Hes & Href). exists es. split; [done|].
  rewrite Href. unfold projected_env. by destruct (String.eqb _ _).
Qed.

Lemma find_or_create_name app envName spec name w w' run :
  find_or_create SetControllerReference app envName spec name w = (w', inr run) → run_name run = name.
Proof.
  assert (∀ w w' r, kget (app_ns app, name) w = (w', inr r) → run_name r = name) as Hget.
  { intros w1 w2 r0 Hg. apply kget_spec in Hg as [_ Ho]. destruct (Ho _ eq_refl) as (w0 & _ & Hk).
    apply kstore_key in Hk. by injection Hk. }
  unfold find_or_create. destruct (kget _ w) as [w1 [err|r0]] eqn:Eg; [|intros [= <- <-]; by eapply Hget].
  destruct (IsNotFound err); simpl; [|done].
  destruct (new_run _ _ _ _ _) as [e|r0] eqn:En; [done|].
  destruct (kcreate r0 w1) as [w2 [e|]]; [destruct (IsAlreadyExists e); [apply Hget|done]|].
  intros [= <- <-]. unfold new_run in En. destruct (SetControllerReference _ _) as [?|m] eqn:Em; [done|].
  destruct (appLabels _ _); [|done]. injection En as <-. apply HSCR in Em as [Hn _]. exact Hn.
Qed.

Lemma registry_targets_app envName revision s s' p :
  registry_targets PushTarget PullTarget envName revision s = (s', inr p) → s'.1.2 = s.1.2.
Proof.
  destruct s as [[w app] flag]. unfold registry_targets, the_app, mbind, E_bind. simpl.
  destruct (PushTarget _ _ _); [by destruct (setRegistryTargetCondition _ _ _ _ _)|].
  destruct (PullTarget _ _ _); [by destruct (setRegistryTargetCondition _ _ _ _ _)|]. by intros [= <- _].
Qed.

Lemma still_built_pending app envName revision spec w :
  hasPendingRebuildRequest app = true → still_built R app envName revision spec w = (w, inr None).
Proof.
  intros Hp. unfold still_built. rewrite Hp. destruct (envStatusFor app envName) as [es|]; [|done].
  destruct (EnvironmentStatus_LastSuccessfulBuildRunRef es); [|done]. by rewrite andb_false_r.
Qed.

(** While a rebuild is requested, a pass over an environment never takes an earlier build
    for the answer: the run it follows, which becomes the current one of the environment, is
    the one named after the request; and it tells the caller that the request was served,
    leaving its marks for the other environments. *)
Theorem rebuild_request_served order names envName branch revision s s' r :
  hasPendingRebuildRequest s.1.2 = true →
  reconcileEnvBuild R SetControllerReference PushTarget PullTarget now order names envName branch revision s
    = (s', inr r) →
  eb_shouldClearNoCache r = true ∧ App_ObjectMeta s'.1.2 = App_ObjectMeta s.1.2 ∧
  ∃ es ref inputHash, envStatusFor s'.1.2 envName = Some es ∧ EnvironmentStatus_CurrentBuildRunRef es = Some ref ∧
    buildRunName "app" (app_name s.1.2) envName (effective_source s.1.2 branch revision).2 inputHash
      (request_id s.1.2) = Some (BuildRunReference_Name ref).
Proof.
  intros Hp. unfold reconcileEnvBuild. intros (s0 & app & Ha & H)%bind_inr. unfold the_app in Ha. simplify_eq.
  destruct (effective_source _ branch revision) as [b rev]. cbn [snd].
  apply bind_inr in H as (s1 & [push pull] & Ht & H).
  apply registry_targets_app in Ht as Happ.
  rewrite Hp in H. apply bind_inr in H as (s2 & cur & Hc & H). unfold mret, E_ret in Hc. injection Hc as <- <-.
  cbn [mbind option_bind] in H. apply bind_inr in H as (s3 & image & Hi & H).
  destruct s1 as [[w1 a1] f1]. simpl in Happ. subst a1.
  assert (image = None ∧ s3.1.2 = s0.1.2) as [-> H3].
  { unfold on_world in Hi. rewrite still_built_pending in Hi by done. by simplify_eq. }
  apply bind_inr in H as (s4 & run & He & H). destruct s3 as [[w3 a3] f3]. simpl in H3. subst a3.
  unfold on_world in He. destruct (ensureAppBuildRun _ _ _ _ _ _ _ _ w3) as [w4 [err|run']] eqn:Ee; simplify_eq.
  apply follow_run_current in H as (Hcl & Hm & _ & es & Hes & Href). simpl in *.
  split; [done|]. split; [done|].
  unfold ensureAppBuildRun in Ee. rewrite Hp in Ee. unfold mbind, E_bind, mret, E_ret in Ee. cbn [option_bind] in Ee.
  destruct (buildRunName _ _ _ _ _ _) as [name|] eqn:En; [|done]. apply find_or_create_name in Ee.
  exists es, (buildRunReference run). eexists. split; [done|]. split; [done|]. simpl. rewrite Ee. exact En.
Qed.
End requests.

(** ** One build *)

Section once.
Context {W : Type} {CR : KubeClient W BuildRun} {OR : KubeClientOk W BuildRun} {CA : KubeClient W App}
  {SA : KubeStatus W App} {KR : KubeRetry W} {KROK : KubeRetryOk W} {CH : ConditionHelpers}
  {AR : KubeApart W App BuildRun} {SR : KubeStatusWithin W App (unaffected BuildRun)} (R : MapRange).
Context (SetControllerReference : ObjectMeta → ObjectMeta → error + ObjectMeta)
  (PushTarget PullTarget : string → string → string → error + string) (now : W → Time).
Context (HSCR : ∀ owner m m', SetControllerReference owner m = inr m' →
  meta_Name m' = meta_Name m ∧ meta_Namespace m' = meta_Namespace m).

Local Abbreviation runs w := (kstore (Obj := BuildRun) w).
Local Abbreviation pass := (reconcileEnvBuild R SetControllerReference PushTarget PullTarget now).

(** The build runs stay as they are. *)
Definition runs_kept (s s' : St (W := W)) : Prop := unaffected BuildRun s.1.1 s'.1.1.
#[local] Instance runs_kept_preorder : PreOrder runs_kept.
Proof.
  split; [by intros s; apply (reflexivity (R := unaffected BuildRun))|].
  intros s1 s2 s3 H1 H2. by apply (transitivity (R := unaffected BuildRun) H1).
Qed.

Lemma runs_same (s s' : St (W := W)) : s'.1.1 = s.1.1 → runs_kept s s'.
Proof. unfold runs_kept. intros ->. apply (reflexivity (R := unaffected BuildRun)). Qed.

Lemma updateAppStatus_apart app mutate w : unaffected BuildRun w (updateAppStatus app mutate w).1.
Proof.
  unfold updateAppStatus. rewrite retry_on_conflict_spec.
  apply (keeps_retry (unaffected BuildRun)). intros w1.
  pose proof (kget_within (Obj := App) (I := unaffected BuildRun) (obj_key app) w1) as Hg.
  destruct (kget (obj_key app) w1) as [w2 [err|fresh]]; simpl in *; [done|].
  etrans; [exact Hg|]. apply (kstatus_within (I := unaffected BuildRun)).
Qed.

Lemma keeps_updateAppStatus app mutate : keeps runs_kept (on_world (run (updateAppStatus app mutate))).
Proof.
  intros [[w a] f]. unfold on_world, run. pose proof (updateAppStatus_apart app mutate w) as H.
  by destruct (updateAppStatus app mutate w) as [w' [err|]].
Qed.

Lemma runs_kept_follow order names envName revision consumed run :
  keeps runs_kept (follow_run now order names envName revision consumed run).
Proof.
  assert (∀ f, keeps runs_kept (modify (W := W) f)) as Hmod by (intros f [[w a] fl]; by apply runs_same).
  assert (keeps runs_kept (the_app (W := W))) as Happ by (intros s; by apply runs_same).
  assert (keeps runs_kept (set_flag (W := W))) as Hfl by (intros [[w a] fl]; by apply runs_same).
  assert (keeps runs_kept (clock now)) as Hcl by (intros s; by apply runs_same).
  unfold follow_run, applyEnvBuildSuccess, setBuildFailureCondition, markEnvBuildInProgress.
  repeat keeps_step; auto using keeps_updateAppStatus.
Qed.

(** A stored run of this name is good for the environment. *)
Definition matched (app : App) (envName : string) (spec : BuildRunSpec) (w : W) (name : string) : Prop :=
  ∃ run, runs w !! (app_ns app, name) = Some run ∧ buildRunMatchesAppSpec R run app envName spec = true.

(** Reading in quiet. *)
Lemma current_run_quiet app envName w :
  kquiet (Obj := BuildRun) w → ∃ w', kquiet (Obj := BuildRun) w' ∧ runs w' = runs w ∧
  current_run app envName w = (w', inr (if String.eqb (currentBuildRunNameForEnv app envName) "" then None
    else runs w !! (app_ns app, currentBuildRunNameForEnv app envName))).
Proof.
  intros Hq. unfold current_run. destruct (String.eqb _ ""); [by exists w|].
  destruct (kget_quiet (Obj := BuildRun) (app_ns app, currentBuildRunNameForEnv app envName) w Hq) as (w' & Hq' & Hs & Hg).
  exists w'. destruct (runs w !! _) as [run|]; [by rewrite Hg|]. destruct Hg as (e & -> & ->). done.
Qed.

Definition still_matched (app : App) (envName revision : string) (spec : BuildRunSpec) (w : W) : option string :=
  es ← envStatusFor app envName;
  ref ← EnvironmentStatus_LastSuccessfulBuildRunRef es;
  run ← runs w !! (app_ns app, BuildRunReference_Name ref);
  if String.eqb (EnvironmentStatus_LastBuiltSHA es) revision && negb (String.eqb (EnvironmentStatus_LastBuiltImage es) "")
     && buildRunMatchesAppSpec R run app envName spec
  then Some (EnvironmentStatus_LastBuiltImage es) else None.

Lemma still_built_quiet app envName revision spec w :
  kquiet (Obj := BuildRun) w → hasPendingRebuildRequest app = false → ∃ w', kquiet (Obj := BuildRun) w' ∧ runs w' = runs w ∧
  still_built R app envName revision spec w = (w', inr (still_matched app envName revision spec w)).
Proof.
  intros Hq Hp. unfold still_built, still_matched. destruct (envStatusFor app envName) as [es|]; [|by exists w]. simpl.
  destruct (EnvironmentStatus_LastSuccessfulBuildRunRef es) as [ref|]; [|by exists w]. simpl. rewrite Hp, andb_true_r.
  destruct (String.eqb _ revision && _); simpl.
  - destruct (kget_quiet (Obj := BuildRun) (app_ns app, BuildRunReference_Name ref) w Hq) as (w' & Hq' & Hs & Hg).
    exists w'. destruct (runs w !! _) as [run|]; [by rewrite Hg|]. destruct Hg as (e & -> & ->). done.
  - exists w. split; [done|]. split; [done|]. by destruct (runs w !! _).
Qed.

Lemma find_or_create_quiet app envName spec name w :
  kquiet (Obj := BuildRun) w → ∃ w' r, find_or_create SetControllerReference app envName spec name w = (w', r) ∧
  kquiet (Obj := BuildRun) w' ∧
  match runs w !! (app_ns app, name) with
  | Some run => r = inr run ∧ runs w' = runs w
  | None => (∃ e, r = inl e) ∧ runs w' = runs w ∨
            ∃ run rv, r = inr run ∧ runs w' = <[(app_ns app, name) := obj_with_rv rv run]> (runs w)
  end.
Proof.
  intros Hq. unfold find_or_create.
  destruct (kget_quiet (Obj := BuildRun) (app_ns app, name) w Hq) as (w1 & Hq1 & Hs1 & Hg).
  destruct (runs w !! (app_ns app, name)) as [run|] eqn:Ek.
  { rewrite Hg. by eexists _, _. }
  destruct Hg as (e & -> & ->). simpl.
  destruct (new_run _ app envName spec name) as [err|run] eqn:En.
  { eexists _, _. split; [done|]. split; [done|]. left. by eauto. }
  assert (obj_key run = (app_ns app, name)) as Hkey.
  { unfold new_run in En. destruct (SetControllerReference _ _) as [?|m] eqn:Em; [done|].
    destruct (appLabels _ _); [|done]. injection En as <-. apply HSCR in Em as [Hn Hns].
    unfold obj_key. simpl. by rewrite Hn, Hns. }
  destruct (kcreate_quiet run w1 Hq1) as (w2 & rv & Hq2 & Hc & Hs2); [by rewrite Hs1, Hkey|]. rewrite Hc.
  eexists _, _. split; [done|]. split; [done|]. right. exists run, rv. by rewrite Hs2, Hs1, Hkey.
Qed.

Lemma find_matching app envName spec w :
  let cur := currentBuildRunNameForEnv app envName in
  (∃ run, cur ≠ "" ∧ runs w !! (app_ns app, cur) = Some run ∧ buildRunMatchesAppSpec R run app envName spec = true) ∨
  ((cur = "" ∨ ¬ matched app envName spec w cur) ∧
   (run ← (if String.eqb cur "" then None else runs w !! (app_ns app, cur));
    if buildRunMatchesAppSpec R run app envName spec then Some run else None) = None).
Proof.
  intros cur. destruct (String.eqb_spec cur "") as [E|E]; [by right; split; [left|]|].
  destruct (runs w !! (app_ns app, cur)) as [run|] eqn:Er; simpl.
  - destruct (buildRunMatchesAppSpec R run app envName spec) eqn:Em; [by left; exists run|].
    right. split; [|done]. right. intros (run' & Hr & Hm). congruence.
  - right. split; [|done]. right. intros (run' & Hr & Hm). congruence.
Qed.

Lemma ensure_quiet app envName b rev push pull w :
  kquiet (Obj := BuildRun) w → hasPendingRebuildRequest app = false →
  let spec := appBuildRunSpec R app envName b rev push pull in
  let cur := currentBuildRunNameForEnv app envName in
  cur = "" ∨ ¬ matched app envName spec w cur →
  ∃ w1, kquiet (Obj := BuildRun) w1 ∧ runs w1 = runs w ∧
  ensureAppBuildRun R SetControllerReference app envName b rev push pull w =
  match buildRunName "app" (app_name app) envName rev (BuildRunSpec_InputHash spec) (BuildRunSpec_RequestID spec) with
  | None => (w1, inl (Sentinel "panic"))
  | Some name => find_or_create SetControllerReference app envName spec name w1
  end.
Proof.
  intros Hq Hp spec cur Hcur. unfold ensureAppBuildRun. rewrite Hp. fold spec.
  destruct (current_run_quiet app envName w Hq) as (w1 & Hq1 & Hs1 & Hc). fold cur in Hc.
  exists w1. split; [done|]. split; [done|]. unfold mbind, E_bind. rewrite Hc.
  assert ((run ← (if String.eqb cur "" then None else runs w !! (app_ns app, cur));
    if buildRunMatchesAppSpec R run app envName spec then Some run else None) = None) as Hn.
  { destruct (find_matching app envName spec w) as [(run & Hcn & Hr & Hm)|[_ Hn]]; [|done].
    destruct Hcur; [done|]. by destruct H; exists run. }
  unfold mbind in Hn. rewrite Hn. by destruct (buildRunName _ _ _ _ _ _).
Qed.

(** What the rest of a pass does, once the registry has named the images. *)
Definition pass_on (order : list string) (names : gset string) (envName b rev : string) (app : App)
    (targets : string * string) : E St envBuild :=
  let spec := appBuildRunSpec R app envName b rev targets.1 targets.2 in
  current ← (if hasPendingRebuildRequest app then mret None else on_world (current_run app envName));
  match (run ← current; if buildRunMatchesAppSpec R run app envName spec then Some run else None) with
  | Some run => follow_run now order names envName rev false run
  | None =>
    image ← on_world (still_built R app envName rev spec);
    match image with
    | Some image => mret (built image false false)
    | None =>
      run ← on_world (ensureAppBuildRun R SetControllerReference app envName b rev targets.1 targets.2);
      follow_run now order names envName rev (hasPendingRebuildRequest app) run
    end
  end.

Lemma pass_split order names envName branch revision s :
  pass order names envName branch revision s =
  let '(b, rev) := effective_source s.1.2 branch revision in
  (registry_targets PushTarget PullTarget envName rev ≫= pass_on order names envName b rev s.1.2) s.
Proof.
  unfold reconcileEnvBuild, mbind at 1, E_bind at 1, the_app. destruct (effective_source s.1.2 branch revision) as [b rev].
  unfold mbind at 1, E_bind at 1. symmetry. unfold mbind at 1, E_bind at 1.
  by destruct (registry_targets _ _ _ _ s) as [s1 [err|[push pull]]].
Qed.

(** What a pass finds, in quiet: a current run that matches, an image that is still good,
    or the run of the wanted name, new or not. *)
Lemma pass_on_quiet order names envName b rev app targets w flag :
  kquiet (Obj := BuildRun) w → hasPendingRebuildRequest app = false →
  let spec := appBuildRunSpec R app envName b rev targets.1 targets.2 in
  let cur := currentBuildRunNameForEnv app envName in
  ∃ w1, kquiet (Obj := BuildRun) w1 ∧ runs w1 = runs w ∧
  ((∃ run, cur ≠ "" ∧ runs w !! (app_ns app, cur) = Some run ∧ buildRunMatchesAppSpec R run app envName spec = true ∧
      pass_on order names envName b rev app targets (w, app, flag) =
        follow_run now order names envName rev false run (w1, app, flag)) ∨
   (∃ image, still_matched app envName rev spec w = Some image ∧
      pass_on order names envName b rev app targets (w, app, flag) = ((w1, app, flag), inr (built image false false))) ∨
   ((cur = "" ∨ ¬ matched app envName spec w cur) ∧ still_matched app envName rev spec w = None ∧
      pass_on order names envName b rev app targets (w, app, flag) =
        (on_world (ensureAppBuildRun R SetControllerReference app envName b rev targets.1 targets.2) ≫=
         follow_run now order names envName rev false) (w1, app, flag))).
Proof.
  intros Hq Hp spec. cbv zeta. unfold pass_on. rewrite Hp. fold spec.
  destruct (current_run_quiet app envName w Hq) as (w1 & Hq1 & Hs1 & Hc).
  destruct (still_built_quiet app envName rev spec w1 Hq1 Hp) as (w2 & Hq2 & Hs2 & Hb).
  unfold still_matched in Hb. rewrite Hs1 in Hb. fold (still_matched app envName rev spec w) in Hb.
  destruct (find_matching app envName spec w) as [(run & Hcn & Hr & Hm)|[Hn Hnone]].
  - exists w1. split; [done|]. split; [done|]. left. exists run. split_and!; [done..|].
    unfold mbind, E_bind, on_world. rewrite Hc, (proj2 (String.eqb_neq _ _) Hcn), Hr. simpl. by rewrite Hm.
  - exists w2. split; [done|]. split; [congruence|]. right.
    unfold mbind in *. unfold E_bind, on_world. rewrite Hc, Hnone, Hb.
    destruct (still_matched app envName rev spec w) as [image|]; [left; by exists image|right]. done.
Qed.

(** The next pass has nothing to start. *)
Definition served (app : App) (envName b rev : string) (targets : string * string) (w : W) : Prop :=
  let spec := appBuildRunSpec R app envName b rev targets.1 targets.2 in
  let cur := currentBuildRunNameForEnv app envName in
  (cur ≠ "" ∧ matched app envName spec w cur) ∨
  is_Some (still_matched app envName rev spec w) ∨
  ∃ name, buildRunName "app" (app_name app) envName rev (BuildRunSpec_InputHash spec) (BuildRunSpec_RequestID spec)
            = Some name ∧ is_Some (runs w !! (app_ns app, name)).

Lemma pass_on_served order names envName b rev app targets w flag :
  kquiet (Obj := BuildRun) w → hasPendingRebuildRequest app = false → served app envName b rev targets w →
  runs (pass_on order names envName b rev app targets (w, app, flag)).1.1.1 = runs w.
Proof.
  intros Hq Hp Hs. destruct (pass_on_quiet order names envName b rev app targets w flag Hq Hp)
    as (w1 & Hq1 & Hs1 & [(run & _ & _ & _ & ->)|[(image & _ & ->)|(Hc & Hst & ->)]]).
  - pose proof (runs_kept_follow order names envName rev false run (w1, app, flag)) as [H _]. simpl in H. congruence.
  - exact Hs1.
  - destruct Hs as [[? Hm]|[Hm|(name & Hname & Hin)]]; [naive_solver|by rewrite Hst in Hm; destruct Hm|].
    unfold mbind, E_bind, on_world.
    destruct (ensure_quiet app envName b rev targets.1 targets.2 w1 Hq1 Hp) as (w2 & Hq2 & Hs2 & ->).
    { unfold matched. rewrite Hs1. exact Hc. }
    rewrite Hname.
    destruct (find_or_create_quiet app envName (appBuildRunSpec R app envName b rev targets.1 targets.2) name w2 Hq2)
      as (w3 & r & -> & Hq3 & Hr).
    assert (runs w2 = runs w) as E2 by congruence. rewrite E2 in Hr. destruct Hin as [run Hin]. rewrite Hin in Hr.
    destruct Hr as [-> Hs3].
    pose proof (runs_kept_follow order names envName rev false run (w3, app, flag)) as [H _]. simpl in H. congruence.
Qed.

(** What a pass builds depends on the metadata and the spec of the app only. *)
Definition same_app (a a' : App) : Prop := App_ObjectMeta a' = App_ObjectMeta a ∧ App_Spec a' = App_Spec a.

Lemma same_app_spec a a' envName b rev push pull :
  same_app a a' → appBuildRunSpec R a' envName b rev push pull = appBuildRunSpec R a envName b rev push pull.
Proof. destruct a, a'. unfold same_app. simpl. by intros [-> ->]. Qed.

Lemma same_app_matches a a' run envName spec :
  same_app a a' → buildRunMatchesAppSpec R run a' envName spec = buildRunMatchesAppSpec R run a envName spec.
Proof. destruct a, a'. unfold same_app. simpl. by intros [-> ->]. Qed.

Lemma matched_same a a' envName spec w name : same_app a a' → matched a envName spec w name → matched a' envName spec w name.
Proof.
  intros Ha (run & Hr & Hm). exists run. unfold app_ns in *. rewrite (same_app_matches _ _ _ _ _ Ha).
  by destruct Ha as [-> _].
Qed.

(** After a successful pass there is nothing left to start. *)
Lemma pass_on_serves order names envName b rev app targets w flag s r :
  kquiet (Obj := BuildRun) w → hasPendingRebuildRequest app = false →
  pass_on order names envName b rev app targets (w, app, flag) = (s, inr r) →
  same_app app s.1.2 ∧ served s.1.2 envName b rev targets s.1.1.
Proof.
  intros Hq Hp. destruct (pass_on_quiet order names envName b rev app targets w flag Hq Hp)
    as (w1 & Hq1 & Hs1 & [(run & Hcn & Hr & Hm & ->)|[(image & Hst & ->)|(Hc & Hst & ->)]]).
  - intros H. pose proof (runs_kept_follow order names envName rev false run (w1, app, flag)) as [Hk _].
    rewrite H in Hk. simpl in Hk. apply follow_run_current in H as (_ & Hme & Hsp & es & Hes & Href). simpl in *.
    assert (same_app app s.1.2) as Hsame by done. split; [done|]. left.
    assert (currentBuildRunNameForEnv s.1.2 envName = currentBuildRunNameForEnv app envName) as ->.
    { unfold currentBuildRunNameForEnv at 1. rewrite Hes, Href. simpl. apply kstore_key in Hr. by injection Hr. }
    split; [done|]. rewrite (same_app_spec _ _ _ _ _ _ _ Hsame). apply (matched_same _ _ _ _ _ _ Hsame).
    exists run. by rewrite Hk, Hs1.
  - intros [= <- _]. split; [done|]. right. left. simpl. unfold still_matched in *. rewrite Hs1, Hst. by eexists.
  - unfold mbind, E_bind, on_world.
    destruct (ensure_quiet app envName b rev targets.1 targets.2 w1 Hq1 Hp) as (w2 & Hq2 & Hs2 & ->).
    { unfold matched. rewrite Hs1. exact Hc. }
    destruct (buildRunName _ _ _ _ _ _) as [name|] eqn:En; [|done].
    destruct (find_or_create_quiet app envName (appBuildRunSpec R app envName b rev targets.1 targets.2) name w2 Hq2)
      as (w3 & [err|run] & -> & Hq3 & Hr); [done|]. intros H.
    pose proof (runs_kept_follow order names envName rev false run (w3, app, flag)) as [Hk _].
    rewrite H in Hk. simpl in Hk. apply follow_run_current in H as (_ & Hme & Hsp & _). simpl in *.
    assert (same_app app s.1.2) as Hsame by done. split; [done|]. right. right. exists name.
    rewrite (same_app_spec _ _ _ _ _ _ _ Hsame). unfold app_name, app_ns in *. rewrite Hme. split; [done|].
    rewrite Hk. destruct (runs w2 !! _) as [run'|] eqn:E2.
    + destruct Hr as [_ ->]. by rewrite E2.
    + destruct Hr as [[[e He] _]|(run' & rv & _ & ->)]; [done|]. rewrite lookup_insert_eq. by eexists.
Qed.

(** Runs may only have made progress. *)
Definition runs_grow (w w' : W) : Prop :=
  ∀ k run, runs w !! k = Some run → ∃ run', runs w' !! k = Some run' ∧ BuildRun_Spec run' = BuildRun_Spec run.

Lemma runs_grow_refl w : runs_grow w w.
Proof. intros k run Hk. by exists run. Qed.

Lemma served_grows app envName b rev targets w w' :
  runs_grow w w' → served app envName b rev targets w → served app envName b rev targets w'.
Proof.
  intros Hg. assert (∀ spec name, matched app envName spec w name → matched app envName spec w' name) as Hm.
  { intros spec name (run & Hr & Hm). destruct (Hg _ _ Hr) as (run' & Hr' & Hs). exists run'. split; [done|].
    unfold buildRunMatchesAppSpec in *. by rewrite Hs. }
  intros [[Hn Hc]|[Hs|(name & Hn & [run Hr])]].
  - left. auto.
  - right. left. unfold still_matched in *. destruct (envStatusFor app envName) as [es|]; [|done]. simpl in *.
    destruct (EnvironmentStatus_LastSuccessfulBuildRunRef es) as [ref|]; [|done]. simpl in *.
    destruct (runs w !! _) as [run|] eqn:Er; [|by destruct Hs]. destruct (Hg _ _ Er) as (run' & -> & Hsp). simpl in *.
    unfold buildRunMatchesAppSpec in *. by rewrite Hsp.
  - right. right. exists name. split; [done|]. destruct (Hg _ _ Hr) as (run' & Hr' & _). by exists run'.
Qed.

Lemma setRegistryTargetCondition_apart app envName which cause w :
  unaffected BuildRun w (setRegistryTargetCondition app envName which cause w).1.
Proof.
  unfold setRegistryTargetCondition. cbv zeta. match goal with |- context [updateAppStatus ?a ?f w] =>
    pose proof (updateAppStatus_apart a f w) as H; destruct (updateAppStatus a f w) as [w' [err|]] end; done.
Qed.

Lemma clearRegistryTargetCondition_apart app w : unaffected BuildRun w (clearRegistryTargetCondition app w).
Proof.
  unfold clearRegistryTargetCondition. destruct (FindStatusCondition _ _); [apply updateAppStatus_apart|].
  apply (reflexivity (R := unaffected BuildRun)).
Qed.

(** The images the registry names for an app. *)
Definition targets_of (app : App) (envName rev : string) : option (string * string) :=
  let project := (ProjectFromControlNs (app_ns app)).1 in
  match PushTarget project (app_name app) (envImageTag rev envName),
        PullTarget project (app_name app) (envImageTag rev envName) with
  | inr push, inr pull => Some (push, pull)
  | _, _ => None
  end.

Lemma registry_targets_spec envName rev w app flag :
  ∃ w', unaffected BuildRun w w' ∧
  match targets_of app envName rev with
  | Some t => registry_targets PushTarget PullTarget envName rev (w, app, flag) = ((w', app, flag), inr t)
  | None => ∃ err, registry_targets PushTarget PullTarget envName rev (w, app, flag) = ((w', app, flag), inl err)
  end.
Proof.
  unfold registry_targets, targets_of, mbind, E_bind, the_app. simpl.
  destruct (PushTarget _ _ _) as [e|push].
  { pose proof (setRegistryTargetCondition_apart app envName "push" e w) as H.
    destruct (setRegistryTargetCondition _ _ _ _ w) as [w' err]. exists w'. split; [exact H|by eexists]. }
  destruct (PullTarget _ _ _) as [e|pull].
  { pose proof (setRegistryTargetCondition_apart app envName "pull" e w) as H.
    destruct (setRegistryTargetCondition _ _ _ _ w) as [w' err]. exists w'. split; [exact H|by eexists]. }
  exists (clearRegistryTargetCondition app w). split; [apply clearRegistryTargetCondition_apart|done].
Qed.

(** C7: one build for one set of inputs: after a pass over an environment, another pass with the
    same source starts nothing, as long as the runs are there, whatever has become of them
    in between and whether or not the first build has ended. *)
Theorem build_started_once order names envName branch revision w app flag s r w2 flag2 :
  kquiet (Obj := BuildRun) w → hasPendingRebuildRequest app = false →
  pass order names envName branch revision (w, app, flag) = (s, inr r) →
  kquiet (Obj := BuildRun) w2 → runs_grow s.1.1 w2 →
  runs (pass order names envName branch revision (w2, s.1.2, flag2)).1.1.1 = runs w2.
Proof.
  intros Hq Hp. rewrite !pass_split. cbn [fst snd].
  destruct (effective_source app branch revision) as [b rev] eqn:Ee. intros H Hq2 Hg.
  destruct (registry_targets_spec envName rev w app flag) as (w1 & [Hs1 Hq1] & Ht). unfold mbind, E_bind in H.
  destruct (targets_of app envName rev) as [t|] eqn:Et; [|by destruct Ht as [err Ht]; rewrite Ht in H].
  rewrite Ht in H. apply pass_on_serves in H as [Hsame Hserved]; [|by apply Hq1|done].
  assert (effective_source s.1.2 branch revision = (b, rev)) as ->.
  { rewrite <-Ee. unfold effective_source, app_source, app_annotation. by destruct Hsame as [-> ->]. }
  destruct (registry_targets_spec envName rev w2 s.1.2 flag2) as (w3 & [Hs3 Hq3] & Ht2).
  assert (targets_of s.1.2 envName rev = Some t) as Et2.
  { rewrite <-Et. unfold targets_of, app_ns, app_name. by destruct Hsame as [-> _]. }
  rewrite Et2 in Ht2. unfold mbind, E_bind. rewrite Ht2. rewrite pass_on_served; [done|by apply Hq3| |].
  - unfold hasPendingRebuildRequest, no_cache_flag, app_annotation in *. by destruct Hsame as [-> _].
  - eapply served_grows; [|exact Hserved]. intros k run Hk. rewrite Hs3. by apply Hg.
Qed.
End once.

(** ** Tags *)

Lemma tag_loop_chars skip v : sall tag_char (tag_loop skip v) = true.
Proof.
  revert skip. induction v as [|c v IH]; intros skip; simpl; [by destruct skip|].
  destruct skip as [|skip]; [|apply IH]. destruct (tag_char c) eqn:E; simpl; [by rewrite E, IH|by rewrite IH].
Qed.

Lemma tag_loop_length skip v : String.length (tag_loop skip v) ≤ String.length v.
Proof.
  revert skip. induction v as [|c v IH]; intros skip; simpl; [by destruct skip|].
  destruct skip as [|skip]; [|specialize (IH skip); lia].
  destruct (tag_char c); simpl; [specialize (IH 0)|specialize (IH (rune_width c v - 1))]; lia.
Qed.

(** What may start a tag. *)
Definition tag_start (c : ascii) : bool := tag_char c && negb (tag_lead c).

Lemma tag_part_ok v :
  let t := sanitizeImageTagPart v in
  sall tag_char t = true ∧ first_ok tag_start t = true ∧ t ≠ "" ∧ String.length t ≤ Nat.max 5 (String.length v).
Proof.
  unfold sanitizeImageTagPart. cbv zeta. destruct (String.eqb v "").
  { split_and!; simpl; try done; lia. }
  destruct (String.eqb_spec (trim_left tag_lead (tag_loop 0 v)) ""); [split_and!; simpl; try done; lia|].
  pose proof (tag_loop_chars 0 v) as Hc. pose proof (tag_loop_length 0 v).
  pose proof (trim_left_length tag_lead (tag_loop 0 v)). split_and!; [by apply sall_trim_left| |done|lia].
  unfold tag_start. apply first_ok_and; [by apply sall_first_ok, sall_trim_left|apply first_ok_trim_left].
Qed.

(** For every revision, a branch with arbitrary bytes included, and every environment name
    of at most 120 bytes, the tag of an image is one registries accept: 1 to 128 letters,
    digits, dots, dashes and underscores, not starting with a dot or a dash. *)
Theorem envImageTag_valid revision envName :
  (String.length envName ≤ 120)%nat →
  let t := envImageTag revision envName in
  sall tag_char t = true ∧ first_ok tag_start t = true ∧ (1 ≤ String.length t ≤ 128)%nat.
Proof.
  intros He. unfold envImageTag. cbv zeta.
  destruct (tag_part_ok (shortTag revision)) as (Hc1 & Hf1 & Hn1 & Hl1), (tag_part_ok envName) as (Hc2 & _ & _ & Hl2).
  rewrite !sall_app, Hc1, Hc2, first_ok_app, !str_app_length by done. simpl. split; [done|]. split; [done|].
  unfold shortTag in *. rewrite str_take_length in Hl1. lia.
Qed.

(** ** Applying a success again *)

Section again.
Context {W : Type} {CH : ConditionHelpers} (now : W → Time).

Lemma update_env_idem name f envs :
  (∀ e, EnvironmentStatus_Name (f e) = EnvironmentStatus_Name e) → (∀ e, f (f e) = f e) →
  update_env name f (update_env name f envs) = update_env name f envs.
Proof.
  intros Hn Hf. induction envs as [|e envs IH]; simpl.
  - rewrite Hn. simpl. by rewrite String.eqb_refl, Hf.
  - destruct (String.eqb (EnvironmentStatus_Name e) name) eqn:E; simpl; [by rewrite Hn, E, Hf|by rewrite E, IH].
Qed.

Lemma on_env_status_idem name f app :
  (∀ e, EnvironmentStatus_Name (f e) = EnvironmentStatus_Name e) → (∀ e, f (f e) = f e) →
  AppStatus_Environments (App_Status app) = update_env name f (AppStatus_Environments (App_Status app)) →
  on_env_status name f app = app.
Proof.
  intros Hn Hf He. unfold on_env_status, on_status. rewrite <-He. by destruct app as [? ? []].
Qed.

(** The outcome of a build is applied once: the run stays succeeded for ever and every
    later pass applies it again, but only the first application moves the phase and the
    conditions of the app; the others change nothing. *)
Theorem success_applied_once order envName revision image digest port counts w app flag s w' :
  applyEnvBuildSuccess now order envName revision image digest port counts (w, app, flag) = (s, inr tt) →
  applyEnvBuildSuccess now order envName revision image digest port counts (w', s.1.2, false)
    = ((w', s.1.2, false), inr tt).
Proof.
  set (f := set_env_built revision image). intros H.
  assert (AppStatus_Environments (App_Status s.1.2) = update_env envName f (AppStatus_Environments (App_Status app)) ∧
    (String.eqb (projectedEnvName (AppStatus_Environments (App_Status s.1.2)) order) envName = true →
     AppStatus_LastBuiltSHA (App_Status s.1.2) = revision ∧ AppStatus_LastBuiltImage (App_Status s.1.2) = image ∧
     AppStatus_DetectedPort (App_Status s.1.2) = port)) as [He Hb].
  { unfold applyEnvBuildSuccess, mbind, E_bind, the_app, modify, mret, E_ret, set_flag, clock in H. simpl in H. fold f in H.
    destruct (String.eqb (projectedEnvName _ order) envName) eqn:Ep in H;
      destruct (negb counts || already_applied app envName revision image); simplify_eq; simpl; rewrite ?Ep; done. }
  assert (∀ e, EnvironmentStatus_Name (f e) = EnvironmentStatus_Name e) as Hn by done.
  assert (∀ e, f (f e) = f e) as Hf by done.
  assert (AppStatus_Environments (App_Status s.1.2) = update_env envName f (AppStatus_Environments (App_Status s.1.2)))
    as He2 by (by rewrite He, update_env_idem).
  assert (already_applied s.1.2 envName revision image = true) as Ha.
  { unfold already_applied, envStatusFor. rewrite He, find_update_env by done. simpl.
    by rewrite !String.eqb_refl. }
  unfold applyEnvBuildSuccess, mbind, E_bind, the_app, modify, mret, E_ret. simpl. fold f.
  rewrite Ha, orb_true_r, on_env_status_idem, <-He2 by done.
  destruct (String.eqb (projectedEnvName _ order) envName) eqn:Ep; [|done].
  destruct (Hb eq_refl) as (H1 & H2 & H3). do 3 f_equal. unfold on_status, set_built.
  destruct (s.1.2) as [m sp []]. simpl in *. by subst.
Qed.
End again.
