(* ===== verification/Bindings.v ===== *)
(** * Bindings: [internal/bindings/resolver.go]

    A binding injects the connection details of one app into another: [<PREFIX>_HOST],
    [_PORT], [_URL] and the declared credentials, with [DATABASE_*] aliases when exactly
    one relational database is bound.  App names are DNS labels, so the byte-wise string
    functions are those of Go. *)

From S2P Require Import Prelude GoStrings GoUrl Kube Core Api Constants EnvStore.

Record ResolvedVar := { rv_Name : string; rv_Value : string }.

Record resolvedBinding := {
  rb_app : App;
  rb_host : string;
  rb_port : string;
  rb_prefix : string;
  rb_extraCreds : list Credential;
  rb_credSecret : option Secret;
}.

(** [[^A-Z0-9_]] is replaced by an underscore. *)
Definition envPrefix_char (c : ascii) : bool := is_upper c || is_digit c || Ascii.eqb c "_"%char.
Definition envPrefixSanitizer (s : string) : string :=
  smap (λ c, if envPrefix_char c then c else "_"%char) s.

Definition toEnvPrefix (name : string) : string :=
  let upper := to_upper name in
  let sanitized := envPrefixSanitizer upper in
  let sanitized := trim_left (λ c, is_digit c || Ascii.eqb c "_"%char) sanitized in
  if String.eqb sanitized "" then "BINDING" else sanitized.

Definition imageBaseName (image : string) : string :=
  let img := to_lower image in
  let img :=
    match last_index_char "/"%char img with Some i => str_drop (i + 1) img | None => img end in
  match index_char ":"%char img with Some i => str_take i img | None => img end.

Definition autoURL (image host port : string) : string :=
  if String.eqb host "" || String.eqb port "" then ""
  else
    let base := imageBaseName image in
    if String.eqb base "postgres" then "postgres://" +:+ host +:+ ":" +:+ port +:+ "?sslmode=disable"
    else if String.eqb base "redis" then "redis://" +:+ host +:+ ":" +:+ port
    else if String.eqb base "mysql" || String.eqb base "mariadb"
    then "mysql://" +:+ host +:+ ":" +:+ port
    else if String.eqb base "mongo" then "mongodb://" +:+ host +:+ ":" +:+ port
    else "".

Definition isRelationalDatabase (image : string) : bool :=
  let base := imageBaseName image in
  String.eqb base "postgres" || String.eqb base "mysql" || String.eqb base "mariadb".

(** The first override of the environment decides; without one the app takes part. *)
Definition boundAppEnabledIn (app : App) (env : string) : bool :=
  (fix loop es :=
     match es with
     | [] => true
     | e :: es' =>
       if negb (String.eqb (Environment_Name e) env) then loop es'
       else match Environment_Enabled e with Some false => false | _ => true end
     end) (AppSpec_Environments (App_Spec app)).

Definition app_image (app : App) : string := AppSource_Image (AppSpec_Source (App_Spec app)).

Definition rb_url (rb : resolvedBinding) : string :=
  autoURL (app_image (rb_app rb)) (rb_host rb) (rb_port rb).

(** The value of a credential in the Secret that was read, if one was. *)
Definition cred_value (rb : resolvedBinding) (name : string) : string :=
  match rb_credSecret rb with Some s => map_get (sec_Data s) name | None => "" end.

Definition expandBindingWithPrefix (rb : resolvedBinding) (prefix : string) : list ResolvedVar :=
  [{| rv_Name := prefix +:+ "_HOST"; rv_Value := rb_host rb |};
   {| rv_Name := prefix +:+ "_PORT"; rv_Value := rb_port rb |}] ++
  (let url := rb_url rb in
   if negb (String.eqb url "") then [{| rv_Name := prefix +:+ "_URL"; rv_Value := url |}] else []) ++
  ((λ cred, {| rv_Name := prefix +:+ "_" +:+ to_upper (Credential_Name cred);
               rv_Value := cred_value rb (Credential_Name cred) |}) <$> rb_extraCreds rb).

Definition expandBinding (rb : resolvedBinding) : list ResolvedVar :=
  expandBindingWithPrefix rb (rb_prefix rb).

#[global] Arguments expandBinding : simpl never.
#[global] Arguments expandBindingWithPrefix : simpl never.

Definition availableKeys (rb : resolvedBinding) : list string :=
  ["host"; "port"] ++
  (if negb (String.eqb (rb_url rb) "") then ["url"] else []) ++
  (Credential_Name <$> rb_extraCreds rb).

Section resolver.
Context {W : Type} {CA : KubeClient W App} {CS : KubeClient W Secret}.

(** The credentials other than [host] and [port], which the resolver computes. *)
Definition extra_creds (app : App) : list Credential :=
  List.filter (λ cred, negb (String.eqb (Credential_Name cred) "host") &&
                       negb (String.eqb (Credential_Name cred) "port"))
    (AppSpec_Credentials (App_Spec app)).

(** Host and port of a bound app; [None] when it is disabled in the environment. *)
Definition bound_endpoint (boundApp : App) (env envNs : string) : option (string * string) :=
  let source := AppSpec_Source (App_Spec boundApp) in
  match (if String.eqb (AppSource_Type source) SourceTypeExternal
         then AppSource_External source else None) with
  | Some ext =>
    Some (ExternalSource_Host ext,
          if (0 <? ExternalSource_Port ext)%Z then itoa (ExternalSource_Port ext) else "")
  | None =>
    if negb (boundAppEnabledIn boundApp env) then None
    else
      let port := NetworkConfig_Port (AppSpec_Network (App_Spec boundApp)) in
      let port := if (port =? 0)%Z then 8080%Z else port in
      Some (meta_Name (App_ObjectMeta boundApp) +:+ "." +:+ envNs +:+ ".svc.cluster.local",
            itoa port)
  end.

Definition lookupBinding (project env ref : string) (w : W)
    : W * (error + option resolvedBinding) :=
  let controlNs := ControlNamespace project in
  let envNs := EnvNamespace project env in
  match kget (controlNs, ref) w with
  | (w, inl err) =>
    if IsNotFound err then (w, inr None)
    else (w, inl (Wrapf "resolve binding %q in project %q: %w" [ref; project] err))
  | (w, inr boundApp) =>
    match bound_endpoint boundApp env envNs with
    | None => (w, inr None)
    | Some (host, port) =>
      let rb credSecret :=
        {| rb_app := boundApp; rb_host := host; rb_port := port;
           rb_prefix := toEnvPrefix ref; rb_extraCreds := extra_creds boundApp;
           rb_credSecret := credSecret |} in
      match extra_creds boundApp with
      | [] => (w, inr (Some (rb None)))
      | _ =>
        let secretName := meta_Name (App_ObjectMeta boundApp) +:+ "-credentials" in
        match kget (envNs, secretName) w with
        | (w, inl err) =>
          (w, inl (Wrapf "resolve credentials for binding %q: secret %s/%s: %w"
                     [ref; envNs; secretName] err))
        | (w, inr credSecret) => (w, inr (Some (rb (Some credSecret))))
        end
      end
    end
  end.

(** The loop of [Resolve]. *)
Fixpoint resolve_loop (project env : string) (bindings : list Binding)
    (result : list ResolvedVar) (dbBindings : list resolvedBinding)
    (seenPrefix : gmap string string) (w : W)
    : W * (error + (list ResolvedVar * list resolvedBinding)) :=
  match bindings with
  | [] => (w, inr (result, dbBindings))
  | b :: bindings' =>
    match lookupBinding project env (Binding_Ref b) w with
    | (w, inl err) => (w, inl err)
    | (w, inr None) => resolve_loop project env bindings' result dbBindings seenPrefix w
    | (w, inr (Some rb)) =>
      match seenPrefix !! rb_prefix rb with
      | Some other =>
        (w, inl (Errorf "bindings %q and %q both map to env-var prefix %q; rename one so their injected variables don't collide"
                   [other; Binding_Ref b; rb_prefix rb]))
      | None =>
        resolve_loop project env bindings' (result ++ expandBinding rb)
          (if isRelationalDatabase (app_image (rb_app rb)) then dbBindings ++ [rb] else dbBindings)
          (<[rb_prefix rb := Binding_Ref b]> seenPrefix) w
      end
    end
  end.

(** The [DATABASE_*] aliases of the only database. *)
Definition database_alias (dbBindings : list resolvedBinding) : list ResolvedVar :=
  match dbBindings with
  | [rb] => if negb (String.eqb (rb_prefix rb) "DATABASE")
            then expandBindingWithPrefix rb "DATABASE" else []
  | _ => []
  end.

Definition Resolve (project env : string) (bindings : list Binding) (w : W)
    : W * (error + list ResolvedVar) :=
  match resolve_loop project env bindings [] [] ∅ w with
  | (w, inl err) => (w, inl err)
  | (w, inr (result, dbBindings)) => (w, inr (result ++ database_alias dbBindings))
  end.

Definition ResolveSingle (project env ref key : string) (w : W) : W * (error + string) :=
  match lookupBinding project env ref w with
  | (w, inl err) => (w, inl err)
  | (w, inr None) => (w, inl (Errorf "bound app %q not found or disabled in env %q" [ref; env]))
  | (w, inr (Some rb)) =>
    (w,
     if String.eqb key "host" then inr (rb_host rb)
     else if String.eqb key "port" then inr (rb_port rb)
     else if String.eqb key "url" then
       let url := rb_url rb in
       if String.eqb url ""
       then inl (Errorf "binding %q does not expose key %q (auto-URL not available for image %q); available keys: %s"
                   [ref; key; app_image (rb_app rb); join ", " (availableKeys rb)])
       else inr url
     else if existsb (λ cred, String.eqb (Credential_Name cred) key) (rb_extraCreds rb)
     then inr (cred_value rb key)
     else inl (Errorf "binding %q does not expose key %q; available keys: %s"
                 [ref; key; join ", " (availableKeys rb)]))
  end.

Definition AvailableKeys (project env ref : string) (w : W) : W * (error + list string) :=
  match lookupBinding project env ref w with
  | (w, inl err) => (w, inl err)
  | (w, inr None) => (w, inl (Errorf "bound app %q not found or disabled in env %q" [ref; env]))
  | (w, inr (Some rb)) => (w, inr (availableKeys rb))
  end.
End resolver.

(** ** Facts *)

Definition prefix_char (c : ascii) : bool := is_upper c || is_digit c || Ascii.eqb c "_"%char.

(** The prefix of any app name starts with a capital letter and continues with
    capitals, digits and underscores. *)
Lemma toEnvPrefix_shape name :
  toEnvPrefix name ≠ "" ∧ first_ok is_upper (toEnvPrefix name) = true ∧
  sall prefix_char (toEnvPrefix name) = true.
Proof.
  unfold toEnvPrefix. set (t := trim_left _ _).
  assert (sall prefix_char t = true) as Hall.
  { apply sall_trim_left. unfold envPrefixSanitizer. rewrite sall_smap.
    eapply sall_mono; [|apply sall_true]. intros c _. revert c. apply ascii_cases. by vm_compute. }
  assert (first_ok (λ c, negb (is_digit c || Ascii.eqb c "_"%char)) t = true) as Hfirst
    by apply first_ok_trim_left.
  destruct (String.eqb_spec t "") as [|Hne]; [done|]. split; [done|]. split; [|done].
  eapply first_ok_mono; [|exact (first_ok_and _ _ _ Hfirst (sall_first_ok _ _ Hall))].
  intros c. revert c. by apply ascii_imp.
Qed.

Lemma prefix_char_name c : prefix_char c = true → name_char c = true.
Proof. revert c. by apply ascii_imp. Qed.

Lemma upper_name_char c : name_char c = true → name_char (upper_char c) = true.
Proof. revert c. by apply ascii_imp. Qed.

(** A prefix followed by an underscore and name characters is a variable name. *)
Lemma prefixed_valid prefix name :
  prefix ≠ "" → first_ok is_upper prefix = true → sall prefix_char prefix = true →
  sall name_char name = true → validEnvVarName (prefix +:+ "_" +:+ name) = true.
Proof.
  intros Hne Hf Hall Hn. destruct prefix as [|c p]; [done|]. simpl in *.
  apply andb_true_iff in Hall as [_ Hall]. rewrite andb_true_iff. split.
  - revert Hf. apply (ascii_imp is_upper name_start). by vm_compute.
  - rewrite sall_app. apply andb_true_iff. split; [by eapply sall_mono, Hall; apply prefix_char_name|].
    simpl. done.
Qed.

Definition valid_creds (rb : resolvedBinding) : Prop :=
  ∀ c, c ∈ rb_extraCreds rb → validEnvVarName (Credential_Name c) = true.

Lemma expand_names_valid rb prefix v :
  prefix ≠ "" → first_ok is_upper prefix = true → sall prefix_char prefix = true →
  valid_creds rb → v ∈ expandBindingWithPrefix rb prefix →
  validEnvVarName (rv_Name v) = true.
Proof.
  intros Hne Hf Hall Hc. unfold expandBindingWithPrefix. rewrite !elem_of_app, !elem_of_cons, elem_of_nil.
  intros [[->|[->|[]]]|[Hv|Hv]].
  - by apply (prefixed_valid prefix "HOST").
  - by apply (prefixed_valid prefix "PORT").
  - destruct (negb _); [|by apply elem_of_nil in Hv]. apply list_elem_of_singleton in Hv as ->.
    by apply (prefixed_valid prefix "URL").
  - apply list_elem_of_fmap in Hv as (c & -> & Hin). apply (prefixed_valid prefix); try done.
    destruct (validEnvVarName_chars _ (Hc c Hin)) as [_ Hs]. unfold to_upper.
    rewrite sall_smap. eapply sall_mono, Hs. apply upper_name_char.
Qed.

Section facts.
Context {W : Type} {CA : KubeClient W App} {CS : KubeClient W Secret}.

Lemma lookupBinding_shape project env ref w w' rb :
  lookupBinding project env ref w = (w', inr (Some rb)) →
  rb_prefix rb = toEnvPrefix ref ∧ rb_extraCreds rb = extra_creds (rb_app rb) ∧
  ∃ w1, kget (ControlNamespace project, ref) w = (w1, inr (rb_app rb)).
Proof.
  unfold lookupBinding. destruct (kget _ w) as [w1 [err|app]] eqn:Eg.
  { by destruct (IsNotFound err). }
  destruct (bound_endpoint _ _ _) as [[host port]|]; [|done].
  destruct (extra_creds app) eqn:Ec.
  - intros [= <- <-]. simpl. rewrite Ec. eauto.
  - destruct (kget _ w1) as [w2 [err|s]]; [done|]. intros [= <- <-]. simpl.
    rewrite Ec. eauto.
Qed.

(** The lookups of all bindings, in order. *)
Fixpoint lookup_all (project env : string) (bindings : list Binding) (w : W)
    : W * (error + list resolvedBinding) :=
  match bindings with
  | [] => (w, inr [])
  | b :: bindings' =>
    match lookupBinding project env (Binding_Ref b) w with
    | (w, inl err) => (w, inl err)
    | (w, inr found) =>
      match lookup_all project env bindings' w with
      | (w, inl err) => (w, inl err)
      | (w, inr rbs) => (w, inr (option_list found ++ rbs))
      end
    end
  end.

Lemma resolve_loop_spec project env bindings result dbs seen w w' r d :
  resolve_loop project env bindings result dbs seen w = (w', inr (r, d)) ↔
  ∃ rbs, lookup_all project env bindings w = (w', inr rbs) ∧
    NoDup (rb_prefix <$> rbs) ∧ (∀ rb, rb ∈ rbs → seen !! rb_prefix rb = None) ∧
    r = result ++ (rbs ≫= expandBinding) ∧
    d = dbs ++ List.filter (λ rb, isRelationalDatabase (app_image (rb_app rb))) rbs.
Proof.
  revert result dbs seen w. induction bindings as [|b bs IH]; intros result dbs seen w; simpl.
  { split.
    - intros [= <- <- <-]. exists []. rewrite !app_nil_r. repeat split; try constructor.
      by intros rb ?%elem_of_nil.
    - intros (rbs & [= <- <-] & _ & _ & -> & ->). simpl. by rewrite !app_nil_r. }
  destruct (lookupBinding _ _ _ w) as [w1 [err|[rb|]]]; [by split; [|intros (?&?&_)]| |].
  - destruct (seen !! rb_prefix rb) as [other|] eqn:Es.
    { split; [done|]. intros (rbs & Hl & _ & Hseen & _). exfalso.
      destruct (lookup_all _ _ bs w1) as [w2 [err|rest]]; [done|].
      injection Hl as _ <-. specialize (Hseen rb (list_elem_of_here _ _)). congruence. }
    rewrite IH. destruct (lookup_all _ _ bs w1) as [w2 [err|rest]]; simpl.
    { split; intros (?&?&_); done. }
    split.
    + intros (rbs & [= <- <-] & Hnd & Hseen & -> & ->). exists (rb :: rest).
      split; [done|]. split; [|split; [|split]].
      * rewrite fmap_cons. apply NoDup_cons. split; [|done]. intros (rb' & Heq & Hin)%list_elem_of_fmap.
        specialize (Hseen rb' Hin). rewrite <- Heq, lookup_insert_eq in Hseen. done.
      * intros rb' [->|Hin]%elem_of_cons; [done|]. specialize (Hseen rb' Hin).
        rewrite lookup_insert in Hseen. by case_decide.
      * by rewrite bind_cons, app_assoc.
      * simpl. destruct (isRelationalDatabase _); [by rewrite <- app_assoc|done].
    + intros (rbs & [= <- <-] & Hnd & Hseen & -> & ->). exists rest.
      rewrite fmap_cons in Hnd. apply NoDup_cons in Hnd as [Hnin Hnd]. split; [done|]. split; [done|].
      split; [|split; [by rewrite bind_cons, app_assoc|]].
      * intros rb' Hin. rewrite lookup_insert_ne; [apply Hseen; by right|].
        intros Heq. apply Hnin. rewrite Heq. by apply list_elem_of_fmap_2.
      * simpl. destruct (isRelationalDatabase _); [by rewrite <- app_assoc|done].
  - rewrite IH. destruct (lookup_all _ _ bs w1) as [w2 [err|rest]]; simpl; [|done].
    split; intros (?&?&_); done.
Qed.

Lemma lookup_all_shape project env bindings w w' rbs rb :
  lookup_all project env bindings w = (w', inr rbs) → rb ∈ rbs →
  ∃ ref w1 w2, lookupBinding project env ref w1 = (w2, inr (Some rb)).
Proof.
  revert w rbs. induction bindings as [|b bs IH]; intros w rbs; simpl.
  { intros [= <- <-]. by intros ?%elem_of_nil. }
  destruct (lookupBinding _ _ _ w) as [w1 [err|found]] eqn:El; [done|].
  destruct (lookup_all _ _ bs w1) as [w2 [err|rest]] eqn:Er; [done|].
  intros [= <- <-] [Hin|Hin]%elem_of_app; [|by eapply IH].
  destruct found as [rb'|]; simpl in Hin; [|by apply elem_of_nil in Hin].
  apply list_elem_of_singleton in Hin as ->. eauto.
Qed.
End facts.

(** ** Correctness *)

Section properties.
Context {W : Type} {CA : KubeClient W App} {CS : KubeClient W Secret}.

(** [Resolve] succeeds exactly when every lookup does and the found apps have
    distinct prefixes; the result is then the variables of each found app in the
    order of the bindings, followed by the [DATABASE_*] aliases when exactly one of
    them is a relational database and does not have that prefix already. *)
Theorem Resolve_spec project env bindings w w' vars :
  Resolve project env bindings w = (w', inr vars) ↔
  ∃ rbs, lookup_all project env bindings w = (w', inr rbs) ∧
    NoDup (rb_prefix <$> rbs) ∧
    vars = (rbs ≫= expandBinding) ++
      match List.filter (λ rb, isRelationalDatabase (app_image (rb_app rb))) rbs with
      | [db] => if decide (rb_prefix db = "DATABASE") then []
                else expandBindingWithPrefix db "DATABASE"
      | _ => []
      end.
Proof.
  unfold Resolve.
  assert (∀ dbs, database_alias dbs = match dbs with
    | [db] => if decide (rb_prefix db = "DATABASE") then []
              else expandBindingWithPrefix db "DATABASE"
    | _ => [] end) as Halias.
  { intros [|db [|]]; [done| |done]. simpl.
    destruct (String.eqb_spec (rb_prefix db) "DATABASE"), (decide _); done. }
  setoid_rewrite <- Halias. split.
  - destruct (resolve_loop _ _ _ _ _ _ w) as [w1 [err|[r d]]] eqn:El; [done|].
    intros [= <- <-]. apply resolve_loop_spec in El as (rbs & Hl & Hnd & _ & -> & ->).
    by exists rbs.
  - intros (rbs & Hl & Hnd & ->).
    assert (resolve_loop project env bindings [] [] ∅ w =
      (w', inr (rbs ≫= expandBinding,
                List.filter (λ rb, isRelationalDatabase (app_image (rb_app rb))) rbs))) as ->.
    { apply resolve_loop_spec. by exists rbs. }
    done.
Qed.

(** When the stored apps have valid credential names, as their schema demands,
    every variable [Resolve] returns has a valid name, so that the environment store
    accepts it. *)
Theorem Resolve_names_valid project env bindings w w' vars :
  (∀ k w1 w2 app, kget k w1 = (w2, inr app) →
     ∀ c, c ∈ AppSpec_Credentials (App_Spec app) →
       validEnvVarName (Credential_Name c) = true) →
  Resolve project env bindings w = (w', inr vars) →
  ∀ v, v ∈ vars → ValidateEnvVarName (rv_Name v) = None.
Proof.
  intros Hschema. unfold Resolve.
  destruct (resolve_loop _ _ _ _ _ _ w) as [w1 [err|[r d]]] eqn:El; [done|].
  apply resolve_loop_spec in El as (rbs & Hl & _ & _ & -> & ->).
  intros [= <- <-] v. simpl. intros Hv.
  assert (∀ rb, rb ∈ rbs → valid_creds rb ∧ ∃ ref, rb_prefix rb = toEnvPrefix ref) as Hrbs.
  { intros rb Hin. destruct (lookup_all_shape _ _ _ _ _ _ _ Hl Hin) as (ref & w2 & w3 & Hrb).
    apply lookupBinding_shape in Hrb as (Hp & Hc & w4 & Hg). split; [|by exists ref].
    intros c. rewrite Hc. unfold extra_creds. rewrite elem_of_filter_bool. intros [Hin' _].
    by eapply Hschema. }
  unfold ValidateEnvVarName. enough (validEnvVarName (rv_Name v) = true) as -> by done.
  apply elem_of_app in Hv as [Hv|Hv].
  - apply list_elem_of_bind in Hv as (rb & Hv & Hin). destruct (Hrbs rb Hin) as [Hc [ref Hp]].
    destruct (toEnvPrefix_shape ref) as (Hne & Hf & Hall). rewrite <- Hp in Hne, Hf, Hall.
    by eapply expand_names_valid.
  - destruct (List.filter _ rbs) as [|db [|]] eqn:Ef; simpl in Hv; try by apply elem_of_nil in Hv.
    destruct (negb _); [|by apply elem_of_nil in Hv].
    assert (db ∈ rbs) as Hin.
    { assert (db ∈ List.filter (λ rb, isRelationalDatabase (app_image (rb_app rb))) rbs) as Hd
        by (rewrite Ef; by left). by apply elem_of_filter_bool in Hd as [? _]. }
    destruct (Hrbs db Hin) as [Hc _]. by apply (expand_names_valid db "DATABASE").
Qed.

(** A single key resolves to the value of the variable that [Resolve] injects
    for it, and only keys that [AvailableKeys] lists resolve. *)
Theorem ResolveSingle_agrees project env ref key w w' v :
  ResolveSingle project env ref key w = (w', inr v) →
  (∃ keys, AvailableKeys project env ref w = (w', inr keys) ∧ key ∈ keys) ∧
  ∃ vars, Resolve project env [{| Binding_Ref := ref |}] w = (w', inr vars) ∧
    {| rv_Name := toEnvPrefix ref +:+ "_" +:+ to_upper key; rv_Value := v |} ∈ vars.
Proof.
  unfold ResolveSingle, AvailableKeys, Resolve. simpl.
  destruct (lookupBinding project env ref w) as [w1 [err|[rb|]]] eqn:El; [done| |done].
  apply lookupBinding_shape in El as (Hp & _ & _). rewrite lookup_empty.
  set (vars := expandBinding rb). intros H.
  enough (w1 = w' ∧ key ∈ availableKeys rb ∧
    {| rv_Name := toEnvPrefix ref +:+ "_" +:+ to_upper key; rv_Value := v |} ∈ vars) as (<- & ? & ?).
  { split; [by eexists|]. eexists. split; [done|]. apply elem_of_app. by left. }
  unfold vars, expandBinding, expandBindingWithPrefix, availableKeys. rewrite Hp.
  destruct (String.eqb_spec key "host") as [->|].
  { injection H as -> <-. split; [done|]. split; [set_solver|]. by left. }
  destruct (String.eqb_spec key "port") as [->|].
  { injection H as -> <-. split; [done|]. split; [set_solver|]. by right; left. }
  destruct (String.eqb_spec key "url") as [->|].
  { destruct (String.eqb_spec (rb_url rb) ""); [done|]. injection H as -> <-.
    split; [done|]. simpl. split; [set_solver|]. do 2 right. by left. }
  destruct (existsb _ _) eqn:Ee; [|done]. injection H as -> <-.
  apply existsb_elem in Ee as (c & Hin & <-%String.eqb_eq). split; [done|].
  rewrite !elem_of_app. split; right; right; apply list_elem_of_fmap; by exists c.
Qed.
End properties.

(** ** Concrete runs *)

Module BindingsRuns.
Definition app (name image : string) (creds : list string) : App :=
  with_App_ObjectMeta (with_name name (with_namespace "pj-shop" ObjectMeta_zero))
    (with_App_Spec
      {| AppSpec_Kind := AppKindService;
         AppSpec_Source :=
           {| AppSource_Type := SourceTypeImage; AppSource_Repo := ""; AppSource_Branch := "";
              AppSource_Path := ""; AppSource_WatchPaths := []; AppSource_Build := None;
              AppSource_ProviderRef := ""; AppSource_Image := image;
              AppSource_PullSecretRef := ""; AppSource_External := None |};
         AppSpec_Network := {| NetworkConfig_Public := false; NetworkConfig_Port := 5432 |};
         AppSpec_Storage := []; AppSpec_SecurityProfile := ""; AppSpec_ConfigFiles := [];
         AppSpec_Credentials :=
           (λ n, {| Credential_Name := n; Credential_Value := ""; Credential_ValueFrom := None |})
           <$> creds;
         AppSpec_SharedVars := []; AppSpec_Environments := [] |} App_zero).

Definition apps : gmap NamespacedName App :=
  {[ ("pj-shop", "db") := app "db" "postgres:16" ["password"];
     ("pj-shop", "database") := app "database" "redis:7" [] ]}.
Definition secrets : gmap NamespacedName Secret :=
  {[ ("pj-shop-production", "db-credentials") :=
       {| sec_meta := ObjectMeta_zero; sec_Type := ""; sec_Data := {["password" := "s3cret"]} |} ]}.

#[local] Instance apps_client : KubeClient unit App := read_only (map_view apps).
#[local] Instance secrets_client : KubeClient unit Secret := read_only (map_view secrets).

Definition bind (ref : string) : Binding := {| Binding_Ref := ref |}.

Definition resolved : error + list ResolvedVar :=
  (Resolve "shop" "production" [bind "db"] tt).2.

Lemma Resolve_names_valid_witness :
  ∃ vars, Resolve "shop" "production" [bind "db"] tt = (tt, inr vars) ∧
    ∀ v, v ∈ vars → ValidateEnvVarName (rv_Name v) = None.
Proof.
  eexists. split; [vm_compute; reflexivity|].
  apply (Resolve_names_valid "shop" "production" [bind "db"] tt tt); [|vm_compute; reflexivity].
  intros k w1 w2 a H. unfold kget, apps_client, read_only, map_view in H.
  destruct (apps !! k) as [x|] eqn:E; [|discriminate H]. injection H as _ <-.
  unfold apps in E. rewrite lookup_insert in E. destruct (decide _).
  - injection E as <-. intros c [->|Hc]%elem_of_cons; [reflexivity|].
    exfalso. revert Hc. apply not_elem_of_nil.
  - rewrite lookup_singleton in E. destruct (decide _); [|discriminate E].
    injection E as <-. intros c Hc. exfalso. revert Hc. apply not_elem_of_nil.
Defined.

Lemma ResolveSingle_agrees_witness :
  (∃ keys, AvailableKeys "shop" "production" "db" tt = (tt, inr keys) ∧ "password" ∈ keys) ∧
  ∃ vars, Resolve "shop" "production" [bind "db"] tt = (tt, inr vars) ∧
    {| rv_Name := toEnvPrefix "db" +:+ "_" +:+ to_upper "password"; rv_Value := "s3cret" |} ∈ vars.
Proof.
  apply (ResolveSingle_agrees "shop" "production" "db" "password" tt tt "s3cret").
  vm_compute. reflexivity.
Defined.

(** The aliases of the only relational database take the names of another bound app
    called [database]: both give a value to DATABASE_HOST. *)
Lemma database_alias_collides :
  ∃ vars, Resolve "shop" "production" [bind "db"; bind "database"] tt = (tt, inr vars) ∧
    {| rv_Name := "DATABASE_HOST";
       rv_Value := "db.pj-shop-production.svc.cluster.local" |} ∈ vars ∧
    {| rv_Name := "DATABASE_HOST";
       rv_Value := "database.pj-shop-production.svc.cluster.local" |} ∈ vars.
Proof.
  eexists. split; [vm_compute; reflexivity|]. rewrite !elem_of_cons. split; tauto.
Qed.

(** A declared credential named [url] is listed as available but does not resolve when
    the image has no automatic URL. *)
Definition url_view : gmap NamespacedName App :=
  {[ ("pj-shop", "queue") := app "queue" "rabbitmq:3" ["url"] ]}.
Definition url_secrets : gmap NamespacedName Secret :=
  {[ ("pj-shop-production", "queue-credentials") :=
       {| sec_meta := ObjectMeta_zero; sec_Type := ""; sec_Data := {["url" := "amqp://queue"]} |} ]}.

Lemma url_credential_unreachable :
  let CA := read_only (W := unit) (map_view url_view) in
  let CS := read_only (W := unit) (map_view url_secrets) in
  (∃ keys, AvailableKeys "shop" "production" "queue" tt = (tt, inr keys) ∧ "url" ∈ keys) ∧
  ∃ err, ResolveSingle "shop" "production" "queue" "url" tt = (tt, inl err).
Proof.
  split; [|eexists; vm_compute; reflexivity].
  eexists. split; [vm_compute; reflexivity|]. rewrite !elem_of_cons. tauto.
Qed.
End BindingsRuns.
