(* ===== verification/Authz.v ===== *)
(** * Authorization: [internal/authz] and the roles of [internal/auth/provider.go]

    The native policy engine decides who may act on which resource.  [Policy] states
    the policy as a table of rules; the engine is proved to implement it and to deny
    whenever it cannot read what it needs. *)

From S2P Require Import Prelude GoStrings Kube Api Constants.

Abbreviation Role := string (only parsing).
Definition RoleAdmin : Role := "admin".
Definition RoleMember : Role := "member".
Definition RoleViewer : Role := "viewer".

Record Principal := {
  Principal_ID : string;
  Principal_Email : string;
  Principal_Role : Role;
  Principal_PasswordGen : Z;
}.

Record Resource := {
  Resource_Kind : string;
  Resource_Namespace : string;
  Resource_Name : string;
  Resource_Project : string;
  Resource_Environment : string;
}.

Abbreviation Action := string (only parsing).
Definition ActionCreate : Action := "create".
Definition ActionRead : Action := "read".
Definition ActionUpdate : Action := "update".
Definition ActionDelete : Action := "delete".

Definition is_read (action : Action) : bool := String.eqb action ActionRead.

Definition authorizePlatform (resource : Resource) (action : Action) : bool * option error :=
  if String.eqb (Resource_Kind resource) "user" then (false, None)
  else if String.eqb (Resource_Kind resource) "project" then
    if String.eqb action ActionCreate then (true, None) else (is_read action, None)
  else (is_read action, None).

(** The first environment with the name decides whether it is restricted. *)
Definition restricted_in (project : Project) (envName : string) : bool :=
  match List.find (λ env, String.eqb (ProjectEnvironment_Name env) envName)
          (ProjectSpec_Environments (Project_Spec project)) with
  | Some env => ProjectEnvironment_Restricted env
  | None => false
  end.

Section engine.
Context {W : Type} {CM : KubeClient W ProjectMember} {CP : KubeClient W Project}.

Definition isRestrictedEnv (projectName envName : string) (w : W) : W * (error + bool) :=
  match kget ("", projectName) w with
  | (w, inl err) => (w, inl err)
  | (w, inr project) => (w, inr (restricted_in project envName))
  end.

Definition authorizeDeveloper (resource : Resource) (action : Action) (w : W)
    : W * (bool * option error) :=
  let kind := Resource_Kind resource in
  if String.eqb kind "member" || String.eqb kind "token" then (w, (false, None))
  else if String.eqb kind "project" then
    if String.eqb action ActionDelete then (w, (false, None)) else (w, (true, None))
  else if String.eqb kind "app" && String.eqb action ActionDelete then (w, (false, None))
  else if negb (String.eqb (Resource_Environment resource) "") then
    match isRestrictedEnv (Resource_Project resource) (Resource_Environment resource) w with
    | (w, inl err) => (w, (false, Some err))
    | (w, inr true) => (w, (is_read action, None))
    | (w, inr false) => (w, (true, None))
    end
  else (w, (true, None)).

Definition authorizeProject (p : Principal) (resource : Resource) (action : Action) (w : W)
    : W * (bool * option error) :=
  let memberName := MemberCRDName (Principal_Email p) in
  let ns := ControlNamespace (Resource_Project resource) in
  match kget (ns, memberName) w with
  | (w, inl err) => if IsNotFound err then (w, (false, None)) else (w, (false, Some err))
  | (w, inr member) =>
    let role := ProjectMemberSpec_Role (ProjectMember_Spec member) in
    if String.eqb role ProjectRoleOwner then (w, (true, None))
    else if String.eqb role ProjectRoleViewer then
      if negb (is_read action) then (w, (false, None))
      else (w, (negb (String.eqb (Resource_Kind resource) "token"), None))
    else if String.eqb role ProjectRoleDeveloper then authorizeDeveloper resource action w
    else (w, (false, None))
  end.

Definition Authorize (p : Principal) (resource : Resource) (action : Action) (w : W)
    : W * (bool * option error) :=
  if String.eqb (Principal_Role p) RoleAdmin then (w, (true, None))
  else if String.eqb (Principal_Role p) RoleViewer then
    if String.eqb (Resource_Project resource) "" then
      (w, (is_read action && negb (String.eqb (Resource_Kind resource) "user"), None))
    else if negb (is_read action) then (w, (false, None))
    else authorizeProject p resource action w
  else if String.eqb (Resource_Project resource) "" then (w, authorizePlatform resource action)
  else authorizeProject p resource action w.
End engine.

(** ** The policy *)

Section policy.
Context (members : NamespacedName → error + ProjectMember)
        (projects : NamespacedName → error + Project).

(** The role of a user in a project, when the membership can be read. *)
Definition project_role (email project role : string) : Prop :=
  ∃ m, members (ControlNamespace project, MemberCRDName email) = inr m ∧
       ProjectMemberSpec_Role (ProjectMember_Spec m) = role.

(** An environment known not to be restricted. *)
Definition unrestricted (project env : string) : Prop :=
  ∃ pr, projects ("", project) = inr pr ∧ restricted_in pr env = false.

(** Neither the members and tokens of a project nor the project itself. *)
Definition ordinary (kind : string) : Prop :=
  kind ≠ "member" ∧ kind ≠ "token" ∧ kind ≠ "project".

Inductive developer_may (r : Resource) (action : Action) : Prop :=
  | dev_project :
      Resource_Kind r = "project" → action ≠ ActionDelete → developer_may r action
  | dev_no_env :
      ordinary (Resource_Kind r) →
      (Resource_Kind r = "app" → action ≠ ActionDelete) →
      Resource_Environment r = "" → developer_may r action
  | dev_open_env :
      ordinary (Resource_Kind r) →
      (Resource_Kind r = "app" → action ≠ ActionDelete) →
      Resource_Environment r ≠ "" →
      unrestricted (Resource_Project r) (Resource_Environment r) → developer_may r action
  | dev_read_env :
      ordinary (Resource_Kind r) → action = ActionRead →
      Resource_Environment r ≠ "" →
      (∃ pr, projects ("", Resource_Project r) = inr pr) → developer_may r action.

Inductive Policy (p : Principal) (r : Resource) (action : Action) : Prop :=
  | admin_all : Principal_Role p = RoleAdmin → Policy p r action
  | platform_read :
      Resource_Project r = "" → Resource_Kind r ≠ "user" → action = ActionRead →
      Policy p r action
  | platform_create_project :
      Principal_Role p ≠ RoleViewer → Resource_Project r = "" →
      Resource_Kind r = "project" → action = ActionCreate → Policy p r action
  | in_project role :
      Resource_Project r ≠ "" →
      (Principal_Role p = RoleViewer → action = ActionRead) →
      project_role (Principal_Email p) (Resource_Project r) role →
      (role = ProjectRoleOwner ∨
       role = ProjectRoleViewer ∧ action = ActionRead ∧ Resource_Kind r ≠ "token" ∨
       role = ProjectRoleDeveloper ∧ developer_may r action) →
      Policy p r action.
End policy.

(** ** Facts *)

Lemma is_read_spec action : is_read action = true ↔ action = ActionRead.
Proof. apply String.eqb_eq. Qed.

Section facts.
Context {W : Type} {CM : KubeClient W ProjectMember} {CP : KubeClient W Project}.

Lemma authorizeDeveloper_error r action w w' b e :
  authorizeDeveloper r action w = (w', (b, Some e)) → b = false.
Proof.
  unfold authorizeDeveloper. intros H. repeat case_match; by simplify_eq.
Qed.

Context (members : NamespacedName → error + ProjectMember)
        (projects : NamespacedName → error + Project)
        {SM : KubeSnapshot W ProjectMember members} {SP : KubeSnapshot W Project projects}.

Lemma authorizeDeveloper_spec r action w :
  (authorizeDeveloper r action w).2 = (true, None) ↔ developer_may projects r action.
Proof.
  unfold authorizeDeveloper, isRestrictedEnv. rewrite kget_snapshot.
  destruct (String.eqb_spec (Resource_Kind r) "member") as [Hm|Hm]; simpl.
  { split; [done|]. intros [|[]|[]|[]]; congruence. }
  destruct (String.eqb_spec (Resource_Kind r) "token") as [Ht|Ht]; simpl.
  { split; [done|]. intros [|[? []]|[? []]|[? []]]; congruence. }
  destruct (String.eqb_spec (Resource_Kind r) "project") as [Hp|Hp]; simpl.
  { destruct (String.eqb_spec action ActionDelete) as [Ha|Ha]; simpl.
    - split; [done|]. intros [|[? []]|[? []]|[? []]]; congruence.
    - split; [|done]. intros _. by apply dev_project. }
  assert (ordinary (Resource_Kind r)) as Hk by done.
  destruct (String.eqb (Resource_Kind r) "app" && String.eqb action ActionDelete) eqn:Eapp.
  { apply andb_true_iff in Eapp as [Ha%String.eqb_eq Hd%String.eqb_eq].
    split; [done|]. intros [|? Hn|? Hn|? Hn]; [done|by apply Hn in Ha..|by subst]. }
  assert (Resource_Kind r = "app" → action ≠ ActionDelete) as Happ
    by (intros Ha Hd; by rewrite Ha, Hd in Eapp).
  destruct (String.eqb_spec (Resource_Environment r) "") as [He|He]; simpl.
  { split; [intros _; by apply dev_no_env|done]. }
  destruct (projects ("", Resource_Project r)) as [err|pr] eqn:Epr; simpl.
  { split; [done|]. intros [| |? ? ? (pr & Hpr & _)|? ? ? [pr Hpr]]; congruence. }
  destruct (restricted_in pr (Resource_Environment r)) eqn:Er; simpl.
  - split; [intros [= Hr%is_read_spec]; apply dev_read_env; by eauto|].
    intros [| |? ? ? (pr' & Hpr & Hu)|? -> ? _]; try done. congruence.
  - split; [|done]. intros _. apply dev_open_env; try done. by exists pr.
Qed.

(** What membership of the project allows. *)
Definition member_may (p : Principal) (r : Resource) (action : Action) : Prop :=
  ∃ role, project_role members (Principal_Email p) (Resource_Project r) role ∧
    (role = ProjectRoleOwner ∨
     role = ProjectRoleViewer ∧ action = ActionRead ∧ Resource_Kind r ≠ "token" ∨
     role = ProjectRoleDeveloper ∧ developer_may projects r action).

Lemma authorizeProject_spec p r action w :
  (authorizeProject p r action w).2 = (true, None) ↔ member_may p r action.
Proof.
  unfold authorizeProject, member_may, project_role. rewrite kget_snapshot.
  destruct (members _) as [err|m] eqn:Em; simpl.
  { split; [destruct (IsNotFound err); done|naive_solver]. }
  transitivity (let role := ProjectMemberSpec_Role (ProjectMember_Spec m) in
    role = ProjectRoleOwner ∨
    role = ProjectRoleViewer ∧ action = ActionRead ∧ Resource_Kind r ≠ "token" ∨
    role = ProjectRoleDeveloper ∧ developer_may projects r action); [|naive_solver].
  cbv zeta. destruct (String.eqb_spec (ProjectMemberSpec_Role (ProjectMember_Spec m))
    ProjectRoleOwner) as [->|Ho]; [naive_solver|].
  destruct (String.eqb_spec (ProjectMemberSpec_Role (ProjectMember_Spec m))
    ProjectRoleViewer) as [->|Hv].
  { destruct (is_read action) eqn:Er; simpl.
    - apply is_read_spec in Er.
      destruct (String.eqb_spec (Resource_Kind r) "token"); naive_solver.
    - split; [done|]. by intros [?|[(_ & Hr%is_read_spec & _)|[? _]]]; [|congruence|]. }
  destruct (String.eqb_spec (ProjectMemberSpec_Role (ProjectMember_Spec m))
    ProjectRoleDeveloper) as [->|Hd]; [|naive_solver].
  rewrite authorizeDeveloper_spec. naive_solver.
Qed.

Lemma authorizePlatform_spec r action :
  authorizePlatform r action = (true, None) ↔
  Resource_Kind r ≠ "user" ∧ action = ActionRead ∨
  Resource_Kind r = "project" ∧ action = ActionCreate.
Proof.
  unfold authorizePlatform. destruct (String.eqb_spec (Resource_Kind r) "user") as [Hu|Hu].
  { split; [done|]. intros [[]|[]]; congruence. }
  assert (∀ b, (b, @None error) = (true, None) ↔ b = true) as Hb by (intros []; done).
  destruct (String.eqb_spec (Resource_Kind r) "project") as [Hk|Hk];
    [destruct (String.eqb_spec action ActionCreate) as [Ha|Ha]|];
    rewrite Hb, ?is_read_spec; naive_solver.
Qed.
End facts.

(** ** Correctness *)

Section properties.
Context {W : Type} {CM : KubeClient W ProjectMember} {CP : KubeClient W Project}.

(** C2: the engine allows exactly what the policy allows. *)
Theorem Authorize_implements_policy members projects p r action w :
  KubeSnapshot W ProjectMember members → KubeSnapshot W Project projects →
  (Authorize p r action w).2 = (true, None) ↔ Policy members projects p r action.
Proof.
  intros SM SP. unfold Authorize.
  destruct (String.eqb_spec (Principal_Role p) RoleAdmin) as [Hadm|Hadm]; simpl.
  { split; [intros _; by apply admin_all|done]. }
  destruct (String.eqb_spec (Principal_Role p) RoleViewer) as [Hv|Hv],
           (String.eqb_spec (Resource_Project r) "") as [Hp|Hp]; simpl.
  - destruct (is_read action) eqn:Er; simpl.
    + apply is_read_spec in Er. destruct (String.eqb_spec (Resource_Kind r) "user"); simpl;
        [split; [done|intros []; congruence]|split; [intros _; by apply platform_read|done]].
    + split; [done|]. intros [|? ? Hr%is_read_spec| |]; congruence.
  - destruct (is_read action) eqn:Er; simpl.
    + apply is_read_spec in Er. rewrite (authorizeProject_spec members projects). split.
      * intros (role & Hr & Hcase). by eapply in_project.
      * intros [| | |role]; try congruence. by exists role.
    + split; [done|]. intros [|? ? Hr%is_read_spec| |role ? Hread]; try congruence.
      apply Hread in Hv. apply is_read_spec in Hv. congruence.
  - rewrite authorizePlatform_spec. split.
    + intros [[? ?]|[? ?]]; [by apply platform_read|by apply platform_create_project].
    + intros []; try congruence; auto.
  - rewrite (authorizeProject_spec members projects). split.
    + intros (role & Hr & Hcase). eapply in_project; [done|done|exact Hr|done].
    + intros [| | |role]; try congruence. by exists role.
Qed.

(** Whatever the reads return, an error never comes with permission. *)
Theorem Authorize_fails_closed p r action w w' allowed err :
  Authorize p r action w = (w', (allowed, Some err)) → allowed = false.
Proof.
  unfold Authorize, authorizePlatform, authorizeProject. intros H.
  repeat case_match; simplify_eq; try done; by eapply authorizeDeveloper_error.
Qed.

(** A platform viewer may do nothing a platform member with the same project
    roles may not do. *)
Theorem viewer_within_member p r action w :
  Principal_Role p = RoleViewer →
  (Authorize p r action w).2.1 = true →
  (Authorize {| Principal_ID := Principal_ID p; Principal_Email := Principal_Email p;
                Principal_Role := RoleMember; Principal_PasswordGen := Principal_PasswordGen p |}
     r action w).2.1 = true.
Proof.
  intros Hv. unfold Authorize. simpl. rewrite Hv. simpl.
  destruct (String.eqb_spec (Resource_Project r) "") as [Hp|Hp]; simpl.
  - rewrite andb_true_iff, negb_true_iff. intros [Hr Hu].
    unfold authorizePlatform. rewrite Hu. by repeat case_match.
  - by destruct (is_read action).
Qed.
End properties.

(** ** Concrete runs *)

Module AuthzRuns.
Definition dev : ProjectMember :=
  {| ProjectMember_ObjectMeta := ObjectMeta_zero;
     ProjectMember_Spec :=
       {| ProjectMemberSpec_Email := "dev@acme.io"; ProjectMemberSpec_Project := "shop";
          ProjectMemberSpec_Role := ProjectRoleDeveloper |};
     ProjectMember_Status := ProjectMemberStatus_zero |}.

Definition env (name : string) (restricted : bool) : ProjectEnvironment :=
  {| ProjectEnvironment_Name := name; ProjectEnvironment_DisplayOrder := 0;
     ProjectEnvironment_Restricted := restricted; ProjectEnvironment_Preview := false |}.
Definition shop : Project :=
  with_Project_Spec
    (with_ProjectSpec_Environments [env "production" true; env "staging" false] ProjectSpec_zero)
    Project_zero.

Definition members : NamespacedName → error + ProjectMember :=
  map_view {[ ("pj-shop", MemberCRDName "dev@acme.io") := dev ]}.
Definition projects : NamespacedName → error + Project := map_view {[ ("", "shop") := shop ]}.
Definition broken : NamespacedName → error + Project :=
  λ k, inl (KubeError OtherReason "etcd unavailable").

#[local] Instance members_client : KubeClient unit ProjectMember := read_only members.

Definition user (role : Role) : Principal :=
  {| Principal_ID := "1"; Principal_Email := "dev@acme.io"; Principal_Role := role;
     Principal_PasswordGen := 0 |}.
Definition app_in (environment : string) : Resource :=
  {| Resource_Kind := "app"; Resource_Namespace := "pj-shop"; Resource_Name := "web";
     Resource_Project := "shop"; Resource_Environment := environment |}.

Lemma Authorize_implements_policy_witness :
  let CP := read_only (W := unit) projects in
  ((Authorize (user RoleMember) (app_in "staging") ActionUpdate tt).2 = (true, None) ↔
   Policy members projects (user RoleMember) (app_in "staging") ActionUpdate).
Proof.
  apply (Authorize_implements_policy (CP := read_only projects) members projects);
    apply read_only_snapshot.
Defined.

Lemma Authorize_fails_closed_witness :
  let CP := read_only (W := unit) broken in
  (Authorize (user RoleMember) (app_in "production") ActionUpdate tt).2.1 = false.
Proof.
  apply (Authorize_fails_closed (CP := read_only broken) (user RoleMember)
    (app_in "production") ActionUpdate tt tt _ (KubeError OtherReason "etcd unavailable")).
  vm_compute. reflexivity.
Defined.

Lemma viewer_within_member_witness :
  let CP := read_only (W := unit) projects in
  (Authorize (user RoleMember) (app_in "production") ActionRead tt).2.1 = true.
Proof.
  apply (viewer_within_member (CP := read_only projects) (user RoleViewer)
    (app_in "production") ActionRead tt); vm_compute; reflexivity.
Defined.

(** A developer may write to an open environment and only read a restricted one. *)
Example developer_staging :
  let CP := read_only (W := unit) projects in
  (Authorize (user RoleMember) (app_in "staging") ActionUpdate tt).2 = (true, None) ∧
  (Authorize (user RoleMember) (app_in "production") ActionUpdate tt).2 = (false, None) ∧
  (Authorize (user RoleMember) (app_in "production") ActionRead tt).2 = (true, None).
Proof. vm_compute. done. Qed.
End AuthzRuns.
