(* ===== verification/EnvResolver.v ===== *)
(** * Environments of an app: [internal/controller/app_env_resolver.go]

    The project declares the environments; an app takes part in each of them unless one
    of its overrides opts out.  Also the parent project of an app and the environments
    whose builds decide the overall state of the app. *)

From S2P Require Import Prelude GoStrings Kube Core Api Constants.

Section parent.
Context {W : Type} {CP : KubeClient W Project} {CN : KubeClient W Namespace}.

(** The read by label, used when the namespace name does not lead to a project. *)
Definition fetch_by_label (app : App) (w : W) : W * (error + option Project) :=
  let ns := meta_Namespace (App_ObjectMeta app) in
  match kget ("", ns) w with
  | (w, inl err) =>
    if IsNotFound err then (w, inr None)
    else (w, inl (Wrapf "get namespace %q: %w" [ns] err))
  | (w, inr n) =>
    let projectName := map_get (meta_Labels (ns_meta n)) ProjectLabel in
    if String.eqb projectName "" then (w, inr None)
    else match kget ("", projectName) w with
         | (w, inl err) =>
           if IsNotFound err then (w, inr None)
           else (w, inl (Wrapf "get project %q: %w" [projectName] err))
         | (w, inr project) => (w, inr (Some project))
         end
  end.

Definition fetchParentProject (app : App) (w : W) : W * (error + option Project) :=
  match ProjectFromControlNs (meta_Namespace (App_ObjectMeta app)) with
  | (name, true) =>
    match kget ("", name) w with
    | (w, inr project) => (w, inr (Some project))
    | (w, inl err) =>
      if negb (IsNotFound err) then (w, inl (Wrapf "get project %q: %w" [name] err))
      else fetch_by_label app w
    end
  | (_, false) => fetch_by_label app w
  end.
End parent.

(** The overrides by environment name; a later one replaces an earlier one. *)
Definition overrides (app : App) : gmap string Environment :=
  fold_left (λ m e, <[Environment_Name e := e]> m)
    (AppSpec_Environments (App_Spec app)) ∅.

Definition opted_out (e : Environment) : bool :=
  match Environment_Enabled e with Some false => true | _ => false end.

Definition resolveEnvs (project : Project) (app : App) : list Environment :=
  let overrides := overrides app in
  fold_left (λ out projEnv,
    match overrides !! ProjectEnvironment_Name projEnv with
    | Some o => if opted_out o then out else out ++ [o]
    | None => out ++ [with_Environment_Name (ProjectEnvironment_Name projEnv) Environment_zero]
    end) (ProjectSpec_Environments (Project_Spec project)) [].

Definition resolvedEnvNames (envs : list Environment) : gset string :=
  list_to_set (Environment_Name <$> envs).

(** A nil map and an empty one are the same set. *)
Definition resolvedPreviewEnvNames (project : option Project) (resolvedEnvs : list Environment)
    : gset string :=
  match project with
  | None => ∅
  | Some project =>
    let projectPreviewByName : gset string :=
      list_to_set (ProjectEnvironment_Name <$>
        List.filter ProjectEnvironment_Preview (ProjectSpec_Environments (Project_Spec project))) in
    list_to_set (List.filter (λ n, bool_decide (n ∈ projectPreviewByName))
                   (Environment_Name <$> resolvedEnvs))
  end.

Definition buildFailureAggregationEnvNames (resolvedEnvs : list Environment)
    (previewEnvNames : gset string) : gset string :=
  match resolvedEnvs with
  | [] => ∅
  | _ =>
    let nonPreview : gset string :=
      list_to_set (List.filter (λ n, negb (bool_decide (n ∈ previewEnvNames)))
                     (Environment_Name <$> resolvedEnvs)) in
    if (0 <? size nonPreview)%nat then nonPreview else resolvedEnvNames resolvedEnvs
  end.

(** ** Facts *)

(** The last override of an environment, which is the one that counts. *)
Definition override_of (app : App) (name : string) : option Environment :=
  last (List.filter (λ e, String.eqb (Environment_Name e) name)
          (AppSpec_Environments (App_Spec app))).

Lemma overrides_last app name : overrides app !! name = override_of app name.
Proof.
  unfold overrides, override_of. induction (AppSpec_Environments (App_Spec app)) as [|e es IH] using rev_ind.
  { done. }
  rewrite fold_left_app, List.filter_app. simpl. rewrite lookup_insert.
  destruct (String.eqb_spec (Environment_Name e) name) as [<-|Hne].
  - by rewrite decide_True, last_snoc.
  - by rewrite decide_False, app_nil_r.
Qed.

(** What an environment of the project contributes. *)
Definition resolve_one (app : App) (name : string) : list Environment :=
  match override_of app name with
  | Some o => if opted_out o then [] else [o]
  | None => [with_Environment_Name name Environment_zero]
  end.

Lemma resolveEnvs_flat_map project app :
  resolveEnvs project app =
  (ProjectEnvironment_Name <$> ProjectSpec_Environments (Project_Spec project)) ≫= resolve_one app.
Proof.
  unfold resolveEnvs. set (f := λ out projEnv, _).
  assert (∀ out pe, f out pe = out ++ resolve_one app (ProjectEnvironment_Name pe)) as Hf.
  { intros out pe. unfold f, resolve_one. rewrite overrides_last.
    destruct (override_of _ _) as [o|]; [|done].
    destruct (opted_out o); by rewrite ?app_nil_r. }
  induction (ProjectSpec_Environments (Project_Spec project)) as [|pe pes IH] using rev_ind; [done|].
  by rewrite fold_left_app, fmap_app, bind_app, <- IH; simpl; rewrite Hf, app_nil_r.
Qed.

Lemma override_name app name o : override_of app name = Some o → Environment_Name o = name.
Proof.
  unfold override_of. intros H%last_Some_elem_of%elem_of_filter_bool.
  by destruct H as [_ ?%String.eqb_eq].
Qed.

(** ** Correctness *)

(** The resolved environments are those of the project, in the project's order,
    less the ones the app's last override opts out of; each is that override or, without
    one, an environment with only a name. *)
Theorem resolveEnvs_spec project app :
  let enabled name :=
    match override_of app name with Some o => negb (opted_out o) | None => true end in
  let names := ProjectEnvironment_Name <$> ProjectSpec_Environments (Project_Spec project) in
  Environment_Name <$> resolveEnvs project app = List.filter enabled names ∧
  ∀ e, e ∈ resolveEnvs project app →
    override_of app (Environment_Name e) = Some e ∨
    override_of app (Environment_Name e) = None ∧
    e = with_Environment_Name (Environment_Name e) Environment_zero.
Proof.
  intros enabled names. rewrite resolveEnvs_flat_map. fold names. split.
  - clear. induction names as [|n ns IH]; [done|]. rewrite bind_cons, fmap_app, IH. simpl.
    unfold resolve_one, enabled. destruct (override_of app n) as [o|] eqn:Eo; [|done].
    destruct (opted_out o); simpl; [done|]. by rewrite (override_name _ _ _ Eo).
  - intros e (n & He & _)%list_elem_of_bind. unfold resolve_one in He.
    destruct (override_of app n) as [o|] eqn:Eo.
    + destruct (opted_out o); [by apply elem_of_nil in He|].
      apply list_elem_of_singleton in He as ->. left. by rewrite (override_name _ _ _ Eo).
    + apply list_elem_of_singleton in He as ->. by right.
Qed.

(** The environments whose builds count for the app as a whole are resolved ones,
    at least one as long as there is any; a preview counts only when all of them are
    previews, and then all of them do. *)
Theorem buildFailureAggregation_spec envs previews :
  let result := buildFailureAggregationEnvNames envs previews in
  (result ⊆ resolvedEnvNames envs) ∧ (envs ≠ [] → result ≠ ∅) ∧
  ∀ n, n ∈ result → n ∈ previews →
    resolvedEnvNames envs ⊆ previews ∧ result = resolvedEnvNames envs.
Proof.
  intros result. unfold result, buildFailureAggregationEnvNames, resolvedEnvNames.
  destruct envs as [|e envs]; [split; [done|]; split; [done|]; intros n Hn; set_solver|].
  set (names := Environment_Name <$> e :: envs).
  set (np := list_to_set (List.filter _ names) : gset string).
  assert (∀ n, n ∈ np ↔ n ∈ names ∧ n ∉ previews) as Hnp.
  { intros n. unfold np. rewrite elem_of_list_to_set, elem_of_filter_bool, negb_true_iff.
    by rewrite bool_decide_eq_false. }
  destruct (Nat.ltb_spec 0 (size np)) as [Hs|Hs].
  - split; [|split].
    + intros n [? _]%Hnp. by apply elem_of_list_to_set.
    + intros _ Hemp. rewrite Hemp, size_empty in Hs. lia.
    + intros n [_ ?]%Hnp. done.
  - assert (np = ∅) as Hemp.
    { apply leibniz_equiv, size_empty_iff. lia. }
    split; [done|]. split.
    + intros _ H. assert (Environment_Name e ∈ (list_to_set names : gset string)) as Hin
        by (apply elem_of_list_to_set; by left). rewrite H in Hin. by apply not_elem_of_empty in Hin.
    + intros n _ _. split; [|done]. intros m Hm%elem_of_list_to_set.
      destruct (decide (m ∈ previews)); [done|].
      assert (m ∈ np) as Hm2 by (by apply Hnp). rewrite Hemp in Hm2.
      by apply not_elem_of_empty in Hm2.
Qed.
