(* ===== verification/EnvReconcile.v ===== *)
(** * Reconciling the environment Secret

    [reconcileEnvSecret] and its helpers in [internal/controller/app_controller.go], and
    the drift reports of [internal/controller/app_env_drift.go].  The Secret of an app
    merges the variables of the spec, the app's shared variables and the bindings with
    values that were changed out of band: an annotation with the digests of the values
    last applied from the spec tells one from the other. *)

From S2P Require Import Prelude GoStrings Sha256 Json Kube Core Api Constants EnvStore Bindings.

(** ** Digests of the values last applied *)

Definition lastSpecEnvDigest (value : string) : string := sha256_hex value.

Definition appProjectName (app : App) : error + string :=
  match ProjectFromControlNs (meta_Namespace (App_ObjectMeta app)) with
  | (projectName, true) => inr projectName
  | (_, false) =>
    inl (Errorf "app %q not in a control namespace (%q)"
           [meta_Name (App_ObjectMeta app); meta_Namespace (App_ObjectMeta app)])
  end.

(** [projectName, _ := appProjectName(app)] *)
Definition project_or_empty (app : App) : string :=
  match appProjectName app with inr n => n | inl _ => "" end.

(** The digests an annotation records: those of the current annotation, else those of
    the values of the legacy one.  A text that does not parse counts as no record. *)
Definition last_spec_of (sec : Secret) : gmap string string :=
  let raw := map_get (sec_Annotations sec) AnnotationLastSpecEnvDigest in
  if negb (String.eqb raw "") then default ∅ (unmarshal_string_map raw)
  else
    let raw := map_get (sec_Annotations sec) AnnotationLastSpecEnv in
    if String.eqb raw "" then ∅
    else match unmarshal_string_map raw with
         | Some legacy => lastSpecEnvDigest <$> legacy
         | None => ∅
         end.

Section digests.
Context {W : Type} {CS : KubeClient W Secret} {KR : KubeRetry W}.

Definition readLastSpecEnv (ns appName : string) (w : W) : W * gmap string string :=
  match kget (ns, AppEnvSecretName appName) w with
  | (w, inl _) => (w, ∅)
  | (w, inr sec) => (w, last_spec_of sec)
  end.

(** Whether the annotations already hold [data] and no legacy record. *)
Definition last_spec_current (data : string) (sec : Secret) : bool :=
  bool_decide (sec_Annotations sec !! AnnotationLastSpecEnv = None) &&
  String.eqb (map_get (sec_Annotations sec) AnnotationLastSpecEnvDigest) data.

Definition set_last_spec (data : string) (sec : Secret) : Secret * (error + bool) :=
  if last_spec_current data sec then (sec, inr false)
  else
    (sec_with_annotations
       (<[AnnotationLastSpecEnvDigest := data]>
          (delete AnnotationLastSpecEnv (sec_Annotations sec))) sec, inr true).

Definition writeLastSpecEnv (ns appName : string) (envVars : gmap string string) (w : W)
    : W * option error :=
  let key := (ns, AppEnvSecretName appName) in
  match kget key w with
  | (w, inl err) =>
    if IsNotFound err then (w, None)
    else (w, Some (Wrapf "get env secret for last-spec annotation: %w" [] err))
  | (w, inr sec) =>
    let data := marshal_string_map (lastSpecEnvDigest <$> envVars) in
    if last_spec_current data sec then (w, None)
    else match UpdateWithConflictRetry key (set_last_spec data) w with
         | (w, Some err) => (w, Some (Wrapf "write last-spec-env annotation: %w" [] err))
         | (w, None) => (w, None)
         end
  end.
End digests.

(** ** Resolving a variable of the spec *)

Section resolve.
Context {W : Type} {CA : KubeClient W App} {CS : KubeClient W Secret}.

Definition secret_ref (ev : EnvVar) : string :=
  match EnvVar_ValueFrom ev with Some f => EnvVarSource_SecretRef f | None => "" end.
Definition from_binding (ev : EnvVar) : option BindingVarSource :=
  match EnvVar_ValueFrom ev with Some f => EnvVarSource_FromBinding f | None => None end.

(** Value and source of a variable. *)
Definition resolveEnvVarValue (ev : EnvVar) (envNs projectName envName : string)
    (bindingRefs : gset string) (w : W) : W * (error + string * string) :=
  let name := EnvVar_Name ev in
  let hasValue := negb (String.eqb (EnvVar_Value ev) "") in
  let hasSecretRef := negb (String.eqb (secret_ref ev) "") in
  let hasFromBinding := match from_binding ev with Some _ => true | None => false end in
  let sources := (Nat.b2n hasValue + Nat.b2n hasSecretRef + Nat.b2n hasFromBinding)%nat in
  if (1 <? sources)%nat
  then (w, inl (Errorf "env var %q: only one of value, valueFrom.secretRef, valueFrom.fromBinding may be set" [name]))
  else if hasSecretRef then
    match kget (envNs, secret_ref ev) w with
    | (w, inl err) =>
      (w, inl (Wrapf "env var %q: read secretRef %q in %s: %w" [name; secret_ref ev; envNs] err))
    | (w, inr secret) =>
      match sec_Data secret !! name with
      | None => (w, inl (Errorf "env var %q: secretRef %q in %s has no key %q"
                           [name; secret_ref ev; envNs; name]))
      | Some raw => (w, inr (raw, "user"))
      end
    end
  else match from_binding ev with
  | Some fb =>
    let ref := BindingVarSource_Ref fb in
    if negb (bool_decide (ref ∈ bindingRefs))
    then (w, inl (Errorf "env var %q: fromBinding.ref %q is not in this environment's bindings list"
                    [name; ref]))
    else match ResolveSingle projectName envName ref (BindingVarSource_Key fb) w with
         | (w, inl err) => (w, inl (Wrapf "env var %q: resolve fromBinding: %w" [name] err))
         | (w, inr val) => (w, inr (val, "binding"))
         end
  | None => (w, inr (EnvVar_Value ev, "user"))
  end.

(** The result of the loop over the variables of the spec. *)
Record resolved_spec := {
  rs_specVars : list Env;
  rs_fromBindingEnvs : list Env;
  rs_resolvedSpecEnv : gmap string string;
}.

(** [envVarResolutionError] unwraps to the error of the variable. *)
Definition envVarResolutionError (err : error) : error := Wrapf "env var resolution" [] err.

Fixpoint resolve_spec_vars (envNs projectName envName : string) (bindingRefs derivedKeys : gset string)
    (env : list EnvVar) (acc : resolved_spec) (w : W) : W * (error + resolved_spec) :=
  match env with
  | [] => (w, inr acc)
  | ev :: env' =>
    let name := EnvVar_Name ev in
    match resolveEnvVarValue ev envNs projectName envName bindingRefs w with
    | (w, inl err) =>
      if bool_decide (name ∈ derivedKeys)
      then resolve_spec_vars envNs projectName envName bindingRefs derivedKeys env' acc w
      else (w, inl (envVarResolutionError err))
    | (w, inr (resolved, source)) =>
      let v := {| env_Name := name; env_Value := resolved; env_Source := source |} in
      let values := <[name := resolved]> (rs_resolvedSpecEnv acc) in
      let acc :=
        if String.eqb source "binding"
        then {| rs_specVars := rs_specVars acc;
                rs_fromBindingEnvs := rs_fromBindingEnvs acc ++ [v];
                rs_resolvedSpecEnv := values |}
        else {| rs_specVars := rs_specVars acc ++ [v];
                rs_fromBindingEnvs := rs_fromBindingEnvs acc;
                rs_resolvedSpecEnv := values |} in
      resolve_spec_vars envNs projectName envName bindingRefs derivedKeys env' acc w
    end
  end.
End resolve.

(** ** Merging into the stored variables *)

Section mutate.
Context (R : MapRange) (lastSpec : gmap string string) (specEnvKeys : gset string)
        (specVars sharedVars bindingEnvs : list Env).

(** The value was last written from the spec. *)
Definition tracks (name value : string) : bool :=
  match lastSpec !! name with
  | Some lastVal => String.eqb (lastSpecEnvDigest value) lastVal
  | None => false
  end.

Definition with_source (source : string) (e : Env) : Env :=
  {| env_Name := env_Name e; env_Value := env_Value e; env_Source := source |}.

Definition user_visible (e : Env) : bool :=
  String.eqb (env_Source e) "" || String.eqb (env_Source e) "user" ||
  String.eqb (env_Source e) "retained".

(** One step of the first loop: what is kept of a stored variable. *)
Definition keep_var (e : Env) : list Env :=
  if user_visible e then
    let stillInSpec := bool_decide (env_Name e ∈ specEnvKeys) in
    let retained := String.eqb (env_Source e) "retained" in
    if negb stillInSpec && negb retained then
      match lastSpec !! env_Name e with
      | Some lastVal =>
        if String.eqb (lastSpecEnvDigest (env_Value e)) lastVal then []
        else [with_source "retained" e]
      | None => [e]
      end
    else if stillInSpec && retained then [with_source "user" e]
    else [e]
  else [e].

Definition kept_vars (current : list Env) : list Env := current ≫= keep_var.

(** The seeds of the variables of the spec. *)
Definition seed_spec (keptByName : gmap string string) (seed : gmap string Env) (sv : Env)
    : gmap string Env :=
  match keptByName !! env_Name sv with
  | None => <[env_Name sv := sv]> seed
  | Some existingVal =>
    if String.eqb (env_Value sv) existingVal then seed
    else if tracks (env_Name sv) existingVal then <[env_Name sv := sv]> seed
    else seed
  end.

Definition seed_shared (keptByName : gmap string string) (seed : gmap string Env) (sv : Env)
    : gmap string Env :=
  match keptByName !! env_Name sv with
  | None => <[env_Name sv := sv]> seed
  | Some _ => seed
  end.

Definition seeds (kept : list Env) : gmap string Env :=
  let keptByName := vars_data kept in
  fold_left (seed_shared keptByName) sharedVars (fold_left (seed_spec keptByName) specVars ∅).

(** One step of the assembly: bindings are dropped, a seed replaces a kept variable and
    is used up. *)
Definition assemble_step '((result, seed) : list Env * gmap string Env) (e : Env)
    : list Env * gmap string Env :=
  if String.eqb (env_Source e) "binding" then (result, seed)
  else match seed !! env_Name e with
       | Some ne => (result ++ [ne], delete (env_Name e) seed)
       | None => (result ++ [e], seed)
       end.

Definition mutate_env (current : list Env) : list Env :=
  let kept := kept_vars current in
  let '(result, seed) := fold_left assemble_step kept ([], seeds kept) in
  result ++ (range seed).*2 ++ bindingEnvs.
End mutate.

(** ** The whole reconciliation *)

Section reconcile.
Context {W : Type} {CA : KubeClient W App} {CS : KubeClient W Secret} {KR : KubeRetry W}.
Context (R : MapRange).

Definition wrap (fmt : string) '((w, r) : W * option error) : W * option error :=
  match r with Some err => (w, Some (Wrapf fmt [] err)) | None => (w, None) end.

Definition env_labels (app : App) (env : Environment) : gmap string string :=
  {[ProjectLabel := project_or_empty app; EnvironmentLabel := Environment_Name env]}.

(** Shared variables go from the control namespace to the environment's. *)
Definition materialize_shared (app : App) (env : Environment) (envNs : string) (w : W)
    : W * option error :=
  match GetSharedSource R (meta_Namespace (App_ObjectMeta app)) w with
  | (w, inl err) => (w, Some (Wrapf "get shared vars from control ns: %w" [] err))
  | (w, inr sharedSource) =>
    wrap "materialize shared-env: %w" (SetShared R envNs sharedSource (env_labels app env) w)
  end.

(** The keys of the app's Secret, whose values are being served. *)
Definition read_derived_keys (appName envNs : string) (w : W) : W * (error + gset string) :=
  match kget (envNs, AppEnvSecretName appName) w with
  | (w, inr derivedSecret) => (w, inr (dom (sec_Data derivedSecret)))
  | (w, inl err) =>
    if IsNotFound err then (w, inr ∅)
    else (w, inl (Wrapf "read derived env secret: %w" [] err))
  end.

Definition binding_env (bv : ResolvedVar) : Env :=
  {| env_Name := rv_Name bv; env_Value := rv_Value bv; env_Source := "binding" |}.

Definition resolve_bindings (projectName : string) (env : Environment) (w : W)
    : W * (error + list Env) :=
  match Environment_Bindings env with
  | [] => (w, inr [])
  | _ =>
    match Resolve projectName (Environment_Name env) (Environment_Bindings env) w with
    | (w, inl err) => (w, inl (Wrapf "resolve bindings: %w" [] err))
    | (w, inr boundVars) => (w, inr (binding_env <$> boundVars))
    end
  end.

Definition shared_env (sv : EnvVar) : Env :=
  {| env_Name := EnvVar_Name sv; env_Value := EnvVar_Value sv; env_Source := "shared" |}.

Definition spec_env_keys (env : Environment) : gset string :=
  list_to_set (EnvVar_Name <$> Environment_Env env).

Definition no_vars : resolved_spec :=
  {| rs_specVars := []; rs_fromBindingEnvs := []; rs_resolvedSpecEnv := ∅ |}.

Definition reconcileEnvSecret (app : App) (env : Environment) (envNs : string) (w : W)
    : W * option error :=
  let appName := meta_Name (App_ObjectMeta app) in
  let projectName := project_or_empty app in
  let labels := <[AppNameLabel := appName]> (env_labels app env) in
  match materialize_shared app env envNs w with
  | (w, Some err) => (w, Some err)
  | (w, None) =>
    let '(w, lastSpec) := readLastSpecEnv envNs appName w in
    let bindingRefs := list_to_set (Binding_Ref <$> Environment_Bindings env) in
    match read_derived_keys appName envNs w with
    | (w, inl err) => (w, Some err)
    | (w, inr derivedKeys) =>
      match resolve_spec_vars envNs projectName (Environment_Name env) bindingRefs derivedKeys
              (Environment_Env env) no_vars w with
      | (w, inl err) => (w, Some err)
      | (w, inr rs) =>
        match resolve_bindings projectName env w with
        | (w, inl err) => (w, Some err)
        | (w, inr boundEnvs) =>
          let bindingEnvs := boundEnvs ++ rs_fromBindingEnvs rs in
          let sharedVars := shared_env <$> AppSpec_SharedVars (App_Spec app) in
          match wrap "apply env secret: %w"
                  (Apply R envNs appName labels
                     (λ current, inr (mutate_env R lastSpec (spec_env_keys env)
                        (rs_specVars rs) sharedVars bindingEnvs current)) w) with
          | (w, Some err) => (w, Some err)
          | (w, None) =>
            wrap "write last-spec-env: %w"
              (writeLastSpecEnv envNs appName (rs_resolvedSpecEnv rs) w)
          end
        end
      end
    end
  end.

(** ** Drift reports *)

Fixpoint unresolved_loop (envNs : string) (env : list EnvVar) (w : W) : W * list string :=
  match env with
  | [] => (w, [])
  | ev :: env' =>
    if String.eqb (secret_ref ev) "" then unresolved_loop envNs env' w
    else
      let '(w, got) := kget (envNs, secret_ref ev) w in
      let broken :=
        match got with
        | inl _ => true
        | inr secret => bool_decide (sec_Data secret !! EnvVar_Name ev = None)
        end in
      let '(w, rest) := unresolved_loop envNs env' w in
      (w, if broken then EnvVar_Name ev :: rest else rest)
  end.

Definition unresolvedEnvKeysFor (env : Environment) (envNs : string) (w : W) : W * list string :=
  let '(w, unresolved) := unresolved_loop envNs (Environment_Env env) w in
  (w, sort_strings unresolved).

Fixpoint overridden_loop (sec : Secret) (lastSpec : gmap string string)
    (envNs projectName envName : string) (bindingRefs : gset string) (env : list EnvVar) (w : W)
    : W * list string :=
  match env with
  | [] => (w, [])
  | ev :: env' =>
    let name := EnvVar_Name ev in
    let '(w, got) := resolveEnvVarValue ev envNs projectName envName bindingRefs w in
    let overridden :=
      match got with
      | inl _ => false
      | inr (resolved, source) =>
        negb (String.eqb source "binding") &&
        match sec_Data sec !! name with
        | None => false
        | Some existing => negb (String.eqb existing resolved) && negb (tracks lastSpec name existing)
        end
      end in
    let '(w, rest) := overridden_loop sec lastSpec envNs projectName envName bindingRefs env' w in
    (w, if overridden then name :: rest else rest)
  end.

Definition overriddenEnvKeysFor (app : App) (env : Environment) (envNs : string) (w : W)
    : W * list string :=
  let appName := meta_Name (App_ObjectMeta app) in
  match kget (envNs, AppEnvSecretName appName) w with
  | (w, inl _) => (w, [])
  | (w, inr sec) =>
    let bindingRefs := list_to_set (Binding_Ref <$> Environment_Bindings env) in
    let '(w, lastSpec) := readLastSpecEnv envNs appName w in
    let '(w, overridden) := overridden_loop sec lastSpec envNs (project_or_empty app)
      (Environment_Name env) bindingRefs (Environment_Env env) w in
    (w, sort_strings overridden)
  end.
End reconcile.

(** ** Facts about the merge *)

(** With distinct names, looking a name up in the data of a list finds its element. *)
Lemma vars_data_Some vars k v :
  NoDup (env_Name <$> vars) →
  vars_data vars !! k = Some v ↔ ∃ e, e ∈ vars ∧ env_Name e = k ∧ env_Value e = v.
Proof.
  intros Hnd. rewrite vars_data_list_to_map by done.
  rewrite <- elem_of_list_to_map by (by rewrite <- list_fmap_compose).
  rewrite list_elem_of_fmap. split.
  - intros (e & [= -> ->] & He). by exists e.
  - intros (e & He & <- & <-). by exists e.
Qed.

Lemma vars_data_eq vars e :
  NoDup (env_Name <$> vars) → e ∈ vars → vars_data vars !! env_Name e = Some (env_Value e).
Proof. intros Hnd He. apply vars_data_Some; [done|]. by exists e. Qed.

Section mutate_facts.
Context (R : MapRange) {HR : MapRangeOk R}.
Context (lastSpec : gmap string string) (specEnvKeys : gset string)
        (specVars sharedVars bindingEnvs : list Env).

Abbreviation keep := (keep_var lastSpec specEnvKeys).
Abbreviation kept_of := (kept_vars lastSpec specEnvKeys).

Lemma keep_var_cases e : keep e = [] ∨ ∃ s, keep e = [with_source s e] ∧
  (s = "binding" ↔ env_Source e = "binding").
Proof.
  assert (∃ s, [e] = [with_source s e] ∧ (s = "binding" ↔ env_Source e = "binding")) as Hself.
  { exists (env_Source e). by destruct e. }
  unfold keep_var. destruct (user_visible e) eqn:Ev; [|by right].
  assert (env_Source e ≠ "binding") as Hnb by (intros H; unfold user_visible in Ev; by rewrite H in Ev).
  destruct (negb _ && negb _); [|destruct (_ && _)].
  - destruct (lastSpec !! env_Name e) as [lv|]; [|by right].
    destruct (String.eqb _ lv); [by left|]. right. by exists "retained".
  - right. by exists "user".
  - by right.
Qed.

Lemma kept_nodup current : NoDup (env_Name <$> current) → NoDup (env_Name <$> kept_of current).
Proof.
  unfold kept_vars. induction current as [|e es IH]; [done|].
  rewrite fmap_cons, NoDup_cons. intros [Hnin Hnd]. rewrite bind_cons, fmap_app.
  destruct (keep_var_cases e) as [->|(s & -> & _)]; [by apply IH|].
  simpl. apply NoDup_cons. split; [|by apply IH].
  rewrite list_elem_of_fmap. intros (x & Hx & (y & Hy & Hin)%list_elem_of_bind).
  apply Hnin. destruct (keep_var_cases y) as [E|(s' & E & _)]; rewrite E in Hy;
    [by apply elem_of_nil in Hy|].
  apply list_elem_of_singleton in Hy as ->. simpl in Hx. rewrite Hx. by apply list_elem_of_fmap_2.
Qed.

(** The element a kept variable comes from. *)
Lemma elem_of_kept current x :
  x ∈ kept_of current → ∃ e, e ∈ current ∧ keep e = [x] ∧ env_Name x = env_Name e ∧
    env_Value x = env_Value e ∧ (env_Source x = "binding" ↔ env_Source e = "binding").
Proof.
  intros (e & Hx & He)%list_elem_of_bind. exists e. split; [done|].
  destruct (keep_var_cases e) as [E|(s & E & Hs)]; rewrite E in Hx;
    [by apply elem_of_nil in Hx|]. by apply list_elem_of_singleton in Hx as ->.
Qed.

Definition non_binding (e : Env) : bool := negb (String.eqb (env_Source e) "binding").

Lemma assemble_fold kept acc seed :
  NoDup (env_Name <$> kept) →
  fold_left assemble_step kept (acc, seed) =
  (acc ++ ((λ e, default e (seed !! env_Name e)) <$> List.filter non_binding kept),
   fold_left (λ s e, delete (env_Name e) s) (List.filter non_binding kept) seed).
Proof.
  revert acc seed. induction kept as [|e es IH]; intros acc seed; [by rewrite app_nil_r|].
  rewrite fmap_cons, NoDup_cons. intros [Hnin Hnd].
  assert (∀ seed x, x ∈ List.filter non_binding es →
    (delete (env_Name e) seed : gmap string Env) !! env_Name x = seed !! env_Name x) as Hdel.
  { intros s x [Hx _]%elem_of_filter_bool. apply lookup_delete_ne. intros Heq.
    apply Hnin. rewrite Heq. by apply list_elem_of_fmap_2. }
  cbn [fold_left assemble_step List.filter].
  destruct (String.eqb (env_Source e) "binding") eqn:Eb;
    assert (non_binding e = negb (String.eqb (env_Source e) "binding")) as Hnb by done;
    rewrite Eb in Hnb; rewrite Hnb; simpl negb; cbv iota; [by rewrite IH|].
  destruct (seed !! env_Name e) as [ne|] eqn:Es.
  - rewrite IH by done. rewrite fmap_cons, Es, <- app_assoc. simpl. do 3 f_equal.
    apply list_fmap_ext. intros i x Hx%list_elem_of_lookup_2. by rewrite Hdel.
  - rewrite IH by done. rewrite fmap_cons, Es, <- app_assoc. simpl.
    by rewrite (delete_id seed).
Qed.

(** Seeds are stored under their names. *)
Definition keyed (m : gmap string Env) : Prop := ∀ k e, m !! k = Some e → env_Name e = k.

Lemma keyed_insert m e : keyed m → keyed (<[env_Name e := e]> m).
Proof. intros Hm k x. rewrite lookup_insert. case_decide; [by intros [= <-]|apply Hm]. Qed.

Lemma seeds_keyed kept : keyed (seeds lastSpec specVars sharedVars kept).
Proof.
  unfold seeds. assert (keyed ∅) as H0 by (intros k e; by rewrite lookup_empty).
  assert (∀ m, keyed m → keyed (fold_left (seed_spec lastSpec (vars_data kept)) specVars m)) as H1.
  { induction specVars as [|sv svs IH]; intros m Hm; [done|]. simpl. apply IH. unfold seed_spec.
    repeat case_match; try done; by apply keyed_insert. }
  generalize (fold_left (seed_spec lastSpec (vars_data kept)) specVars ∅), (H1 _ H0).
  induction sharedVars as [|sv svs IH]; intros m Hm; [done|]. simpl. apply IH. unfold seed_shared.
  case_match; [done|]. by apply keyed_insert.
Qed.

Lemma delete_fold_lookup (l : list Env) (m : gmap string Env) k :
  fold_left (λ s e, delete (env_Name e) s) l m !! k =
  if decide (k ∈ env_Name <$> l) then None else m !! k.
Proof.
  revert m. induction l as [|e l IH]; intros m; [done|].
  cbn [fold_left]. rewrite IH, fmap_cons, lookup_delete.
  destruct (decide (k ∈ env_Name <$> l)); [by rewrite decide_True by (by right)|].
  destruct (decide (env_Name e = k)) as [->|].
  - rewrite decide_True; [done|by left].
  - rewrite decide_False; [done|]. rewrite not_elem_of_cons. auto.
Qed.

Lemma vars_data_range (m : gmap string Env) k :
  keyed m → vars_data (range m).*2 !! k = env_Value <$> m !! k.
Proof.
  intros Hm. assert (env_Name <$> (range m).*2 = (range m).*1) as Hn.
  { rewrite <- list_fmap_compose. apply list_fmap_ext.
    intros i [x e] Hx%list_elem_of_lookup_2. rewrite elem_of_range in Hx. by apply Hm. }
  destruct (m !! k) as [e|] eqn:E; simpl.
  - apply vars_data_Some; [rewrite Hn; apply range_keys_nodup|].
    exists e. split; [|by rewrite (Hm _ _ E)]. apply list_elem_of_fmap. exists (k, e).
    by rewrite elem_of_range.
  - apply vars_data_None. rewrite Hn. rewrite list_elem_of_fmap. intros ([x e] & -> & Hx).
    rewrite elem_of_range in Hx. simpl in E. congruence.
Qed.

(** The value of every name after the merge: a binding, else a seed, else what was kept
    and does not come from a binding. *)
Lemma mutate_lookup current k :
  NoDup (env_Name <$> current) →
  let kept := kept_of current in
  vars_data (mutate_env R lastSpec specEnvKeys specVars sharedVars bindingEnvs current) !! k =
  match vars_data bindingEnvs !! k with
  | Some v => Some v
  | None =>
    match seeds lastSpec specVars sharedVars kept !! k with
    | Some ne => Some (env_Value ne)
    | None => vars_data (List.filter non_binding kept) !! k
    end
  end.
Proof.
  intros Hnd kept. pose proof (kept_nodup _ Hnd) as Hk. fold kept in Hk.
  unfold mutate_env. fold kept. set (seed := seeds _ _ _ _).
  rewrite assemble_fold by done. rewrite app_nil_l, app_assoc, !vars_data_app.
  destruct (vars_data bindingEnvs !! k) as [v|]; [done|].
  pose proof (seeds_keyed kept) as Hseed. fold seed in Hseed.
  set (nb := List.filter non_binding kept).
  assert (NoDup (env_Name <$> nb)) as Hnb by (by apply filter_key_nodup).
  set (seed' := fold_left _ nb seed).
  assert (keyed seed') as Hseed'.
  { intros x e. unfold seed'. rewrite delete_fold_lookup. case_decide; [done|apply Hseed]. }
  rewrite vars_data_range by done. unfold seed' at 1. rewrite delete_fold_lookup.
  set (placed := (λ e, default e (seed !! env_Name e)) <$> nb).
  assert (env_Name <$> placed = env_Name <$> nb) as Hnames.
  { unfold placed. rewrite <- list_fmap_compose. apply list_fmap_ext. intros i x _. simpl.
    destruct (seed !! env_Name x) eqn:E; simpl; [by apply Hseed in E|done]. }
  destruct (decide (k ∈ env_Name <$> nb)) as [(e & -> & He)%list_elem_of_fmap|Hnin]; simpl.
  - assert (vars_data placed !! env_Name e = Some (env_Value (default e (seed !! env_Name e)))) as ->.
    { apply vars_data_Some; [by rewrite Hnames|]. exists (default e (seed !! env_Name e)).
      split; [by apply (list_elem_of_fmap_2 (λ e, default e (seed !! env_Name e)))|].
      split; [|done]. destruct (seed !! env_Name e) eqn:E; simpl; [by apply Hseed in E|done]. }
    destruct (seed !! env_Name e); [done|]. simpl. symmetry. by apply vars_data_eq.
  - destruct (seed !! k); [done|]. simpl.
    by rewrite !(proj2 (vars_data_None _ _)) by (by rewrite ?Hnames).
Qed.

(** *** Seeds *)

Lemma seed_spec_fold keptByName m k :
  fold_left (seed_spec lastSpec keptByName) specVars m !! k =
  match last (List.filter (λ sv, String.eqb (env_Name sv) k &&
    match keptByName !! k with
    | None => true
    | Some old => negb (String.eqb (env_Value sv) old) && tracks lastSpec k old
    end) specVars) with
  | Some sv => Some sv
  | None => m !! k
  end.
Proof.
  induction specVars as [|sv svs IH] using rev_ind; [done|].
  rewrite fold_left_app, List.filter_app. simpl. unfold seed_spec at 1.
  destruct (String.eqb_spec (env_Name sv) k) as [<-|Hne]; simpl.
  - destruct (keptByName !! env_Name sv) as [old|]; [|by rewrite lookup_insert_eq, last_snoc].
    destruct (String.eqb (env_Value sv) old); simpl; [by rewrite app_nil_r|].
    destruct (tracks _ _ old); [by rewrite lookup_insert_eq, last_snoc|by rewrite app_nil_r].
  - rewrite app_nil_r, <- IH.
    repeat case_match; try done; by rewrite lookup_insert_ne.
Qed.

Lemma seed_shared_fold keptByName m k :
  fold_left (seed_shared keptByName) sharedVars m !! k =
  match (if decide (keptByName !! k = None)
         then last (List.filter (λ sv, String.eqb (env_Name sv) k) sharedVars) else None) with
  | Some sv => Some sv
  | None => m !! k
  end.
Proof.
  induction sharedVars as [|sv svs IH] using rev_ind; [by case_decide|].
  rewrite fold_left_app, List.filter_app. simpl. unfold seed_shared at 1.
  destruct (String.eqb_spec (env_Name sv) k) as [<-|Hne].
  - destruct (keptByName !! env_Name sv) as [old|] eqn:E.
    + rewrite IH. by repeat case_decide.
    + case_decide; [|done]. by rewrite lookup_insert_eq, last_snoc.
  - rewrite app_nil_r, <- IH.
    destruct (keptByName !! env_Name sv); [done|]. by rewrite lookup_insert_ne.
Qed.
End mutate_facts.

Section merge_facts.
Context (R : MapRange) {HR : MapRangeOk R}.
Context (lastSpec : gmap string string) (specEnvKeys : gset string)
        (specVars sharedVars bindingEnvs : list Env).

Abbreviation merged :=
  (mutate_env R lastSpec specEnvKeys specVars sharedVars bindingEnvs).
Abbreviation kept_of := (kept_vars lastSpec specEnvKeys).

(** A stored variable is dropped only when it was last written from the spec and is no
    longer in it. *)
Lemma keep_var_nil e :
  keep_var lastSpec specEnvKeys e = [] →
  tracks lastSpec (env_Name e) (env_Value e) = true ∧ env_Name e ∉ specEnvKeys.
Proof.
  unfold keep_var, tracks. generalize (lastSpecEnvDigest (env_Value e)). intros digest.
  destruct (user_visible e); [|done].
  destruct (bool_decide (env_Name e ∈ specEnvKeys)) eqn:Ein; simpl.
  { by destruct (String.eqb (env_Source e) "retained"). }
  apply bool_decide_eq_false in Ein. destruct (negb _); [|done].
  destruct (lastSpec !! env_Name e) as [lv|]; [|done]. by destruct (String.eqb digest lv).
Qed.

Lemma keep_var_drop e :
  env_Source e = "user" → lastSpec !! env_Name e = Some (lastSpecEnvDigest (env_Value e)) →
  env_Name e ∉ specEnvKeys → keep_var lastSpec specEnvKeys e = [].
Proof.
  unfold keep_var, user_visible. generalize (lastSpecEnvDigest (env_Value e)). intros digest -> -> Hn.
  rewrite bool_decide_eq_false_2 by done. simpl. by rewrite String.eqb_refl.
Qed.

Lemma kept_lookup current e :
  NoDup (env_Name <$> current) → e ∈ current →
  vars_data (kept_of current) !! env_Name e =
    (if decide (keep_var lastSpec specEnvKeys e = []) then None else Some (env_Value e)) ∧
  vars_data (List.filter non_binding (kept_of current)) !! env_Name e =
    (if decide (keep_var lastSpec specEnvKeys e = [] ∨ env_Source e = "binding") then None
     else Some (env_Value e)).
Proof.
  intros Hnd He. pose proof (kept_nodup lastSpec specEnvKeys _ Hnd) as Hk.
  assert (∀ x, x ∈ kept_of current → env_Name x = env_Name e →
    keep_var lastSpec specEnvKeys e = [x] ∧ env_Value x = env_Value e ∧
    (env_Source x = "binding" ↔ env_Source e = "binding")) as Huniq.
  { intros x (y & Hy & Hkeep & Hn & Hval & Hs)%elem_of_kept Hxe.
    assert (y = e) as -> by (apply (nodup_env y e current); [done..|congruence]). done. }
  assert (∀ v (l : list Env), (∀ x, x ∈ l → env_Name x = env_Name e → env_Value x = v ∧ False) →
    vars_data l !! env_Name e = None) as Hnone.
  { intros v l Hl. apply vars_data_None. intros (x & Hx & Hin)%list_elem_of_fmap.
    by destruct (Hl x Hin). }
  destruct (keep_var_cases lastSpec specEnvKeys e) as [E|(s & E & Hs)].
  - rewrite !decide_True by auto. split; apply (Hnone "").
    + intros x Hx Hn. destruct (Huniq x Hx Hn) as (E' & _). congruence.
    + intros x [Hx _]%elem_of_filter_bool Hn. destruct (Huniq x Hx Hn) as (E' & _). congruence.
  - assert (with_source s e ∈ kept_of current) as Hin.
    { apply list_elem_of_bind. exists e. rewrite E. split; [by left|done]. }
    rewrite decide_False by (by rewrite E). split.
    + by apply (vars_data_eq _ (with_source s e)).
    + destruct (decide (env_Source e = "binding")) as [Hb|Hb].
      * rewrite decide_True by auto. apply (Hnone "").
        intros x [Hx Hnb]%elem_of_filter_bool Hn. exfalso.
        destruct (Huniq x Hx Hn) as (_ & _ & Hxs). unfold non_binding in Hnb.
        by rewrite (proj2 Hxs Hb) in Hnb.
      * rewrite decide_False by (rewrite E; naive_solver).
        apply (vars_data_eq _ (with_source s e)); [by apply filter_key_nodup|].
        apply elem_of_filter_bool. split; [done|]. unfold non_binding. simpl.
        apply negb_true_iff, String.eqb_neq. naive_solver.
Qed.

Lemma kept_lookup_none current k :
  k ∉ env_Name <$> current →
  vars_data (kept_of current) !! k = None ∧
  vars_data (List.filter non_binding (kept_of current)) !! k = None.
Proof.
  intros Hnin. assert (∀ x, x ∈ kept_of current → env_Name x ≠ k) as Hx.
  { intros x (y & Hy & _ & Hn & _)%elem_of_kept <-. apply Hnin. rewrite Hn.
    by apply list_elem_of_fmap_2. }
  split; apply vars_data_None; intros (x & -> & Hin)%list_elem_of_fmap;
    [|apply elem_of_filter_bool in Hin as [Hin _]]; by apply (Hx x).
Qed.

(** The seed of a name, in terms of the value that was kept. *)
Lemma seeds_lookup kept k :
  seeds lastSpec specVars sharedVars kept !! k =
  match vars_data kept !! k with
  | Some old =>
    last (List.filter (λ sv, String.eqb (env_Name sv) k &&
      (negb (String.eqb (env_Value sv) old) && tracks lastSpec k old)) specVars)
  | None =>
    match last (List.filter (λ sv, String.eqb (env_Name sv) k) sharedVars) with
    | Some sv => Some sv
    | None => last (List.filter (λ sv, String.eqb (env_Name sv) k) specVars)
    end
  end.
Proof.
  unfold seeds. rewrite seed_shared_fold, seed_spec_fold, lookup_empty.
  destruct (vars_data kept !! k) as [old|].
  - rewrite decide_False by done. by destruct (last _).
  - rewrite decide_True by done. destruct (last _); [done|].
    assert (List.filter (λ sv, String.eqb (env_Name sv) k && true) specVars =
            List.filter (λ sv, String.eqb (env_Name sv) k) specVars) as ->.
    { apply filter_ext. intros sv. by rewrite andb_true_r. }
    by destruct (last _).
Qed.

Lemma last_filter_unique (l : list Env) sv :
  NoDup (env_Name <$> l) → sv ∈ l →
  last (List.filter (λ x, String.eqb (env_Name x) (env_Name sv)) l) = Some sv.
Proof.
  intros Hnd Hin. destruct (last _) as [x|] eqn:E.
  - apply last_Some_elem_of, elem_of_filter_bool in E as [Hx Hn%String.eqb_eq].
    f_equal. by apply (nodup_env x sv l).
  - apply last_None in E. assert (sv ∈ ([] : list Env)) as H; [|by apply elem_of_nil in H].
    rewrite <- E. apply elem_of_filter_bool. by rewrite String.eqb_refl.
Qed.

Lemma last_filter_none (f : Env → bool) (l : list Env) :
  (∀ x, x ∈ l → f x = false) → last (List.filter f l) = None.
Proof.
  intros H. destruct (last _) as [x|] eqn:E; [|done].
  apply last_Some_elem_of, elem_of_filter_bool in E as [Hx Hf]. by rewrite (H x Hx) in Hf.
Qed.
Lemma spec_wins current sv :
  NoDup (env_Name <$> current) → NoDup (env_Name <$> specVars) → sv ∈ specVars →
  env_Name sv ∈ specEnvKeys →
  (∀ e, e ∈ current → env_Name e = env_Name sv →
     env_Source e ≠ "binding" ∧ tracks lastSpec (env_Name e) (env_Value e) = true) →
  (env_Name sv ∉ env_Name <$> current → env_Name sv ∉ env_Name <$> sharedVars) →
  env_Name sv ∉ env_Name <$> bindingEnvs →
  vars_data (mutate_env R lastSpec specEnvKeys specVars sharedVars bindingEnvs current) !! env_Name sv = Some (env_Value sv).
Proof.
  intros Hnd Hnds Hsv Hkeys Hcur Hshared Hbind. rewrite mutate_lookup by done.
  rewrite (proj2 (vars_data_None bindingEnvs _)) by done. rewrite seeds_lookup.
  destruct (decide (env_Name sv ∈ env_Name <$> current)) as [Hin|Hnin].
  - apply list_elem_of_fmap in Hin as (e & Hn & He).
    destruct (Hcur e He (eq_sym Hn)) as [Hb Ht].
    destruct (kept_lookup current e Hnd He) as [Hk1 Hk2].
    assert (keep_var lastSpec specEnvKeys e ≠ []) as Hkeep.
    { intros [_ H]%keep_var_nil. by rewrite <- Hn in H. }
    rewrite decide_False in Hk1 by done. rewrite decide_False in Hk2 by (by intros [?|?]). rewrite Hn, Hk1, Hk2, Ht.
    destruct (decide (env_Value sv = env_Value e)) as [Heq|Hne].
    + rewrite last_filter_none; [by rewrite Heq|]. intros x Hx.
      destruct (String.eqb_spec (env_Name x) (env_Name e)) as [Hxn|]; [|done].
      assert (x = sv) as -> by (apply (nodup_env x sv specVars); [done..|congruence]).
      by rewrite Heq, String.eqb_refl.
    + rewrite (filter_ext_in _ (λ x, String.eqb (env_Name x) (env_Name sv))).
      * by rewrite last_filter_unique.
      * intros x Hx%list_elem_of_In. rewrite Hn.
        destruct (String.eqb_spec (env_Name x) (env_Name e)) as [Hxn|]; [|done].
        assert (x = sv) as -> by (apply (nodup_env x sv specVars); [done..|congruence]).
        apply String.eqb_neq in Hne. by rewrite Hne.
  - destruct (kept_lookup_none current _ Hnin) as [-> _].
    rewrite last_filter_none; [by rewrite last_filter_unique|].
    intros x Hx. apply String.eqb_neq. intros Heq. apply Hshared; [done|].
    rewrite <- Heq. by apply list_elem_of_fmap_2.
Qed.

(** The names of the merge come from what was stored, the seeds and the bindings. *)
Lemma mutate_names current e :
  NoDup (env_Name <$> current) →
  e ∈ mutate_env R lastSpec specEnvKeys specVars sharedVars bindingEnvs current →
  (∃ x, x ∈ current ∧ env_Name x = env_Name e) ∨ e ∈ specVars ∨ e ∈ sharedVars ∨ e ∈ bindingEnvs.
Proof.
  intros Hnd. unfold mutate_env. rewrite assemble_fold by (by apply kept_nodup).
  set (seed := seeds _ _ _ _). rewrite app_nil_l, !elem_of_app.
  assert (∀ k x, seed !! k = Some x → x ∈ specVars ∨ x ∈ sharedVars) as Hseed.
  { intros k x. unfold seed. rewrite seeds_lookup.
    assert (∀ f l, last (List.filter f l) = Some x → x ∈ l) as Hl
      by (intros f l H; apply last_Some_elem_of, elem_of_filter_bool in H; by destruct H).
    destruct (vars_data _ !! k); [intros ?%Hl; by left|].
    destruct (last (List.filter _ sharedVars)) eqn:E; intros H; [|left; by eapply Hl].
    right. simplify_eq. by eapply Hl. }
  intros [Hin|[Hin|Hin]]; [| |by auto].
  - apply list_elem_of_fmap in Hin as (x & -> & [Hx _]%elem_of_filter_bool).
    destruct (seed !! env_Name x) as [ne|] eqn:E; simpl; [destruct (Hseed _ _ E); auto|].
    left. apply elem_of_kept in Hx as (y & Hy & _ & Hn & _). by exists y.
  - apply list_elem_of_fmap in Hin as ([k x] & -> & Hx%elem_of_range). simpl.
    rewrite delete_fold_lookup in Hx. case_decide; [done|]. destruct (Hseed _ _ Hx); auto.
Qed.

Lemma last_filter_absent k (l : list Env) :
  k ∉ env_Name <$> l → ∀ f, last (List.filter (λ x, String.eqb (env_Name x) k && f x) l) = None.
Proof.
  intros Hk f. apply last_filter_none. intros x Hx.
  destruct (String.eqb_spec (env_Name x) k) as [<-|]; [|done].
  exfalso. apply Hk. by apply list_elem_of_fmap_2.
Qed.

(** A name that nothing declares any more and whose stored variable is dropped. *)
Lemma mutate_gone current k :
  NoDup (env_Name <$> current) →
  (∀ e, e ∈ current → env_Name e = k → keep_var lastSpec specEnvKeys e = []) →
  k ∉ env_Name <$> specVars → k ∉ env_Name <$> sharedVars → k ∉ env_Name <$> bindingEnvs →
  vars_data (mutate_env R lastSpec specEnvKeys specVars sharedVars bindingEnvs current) !! k = None.
Proof.
  intros Hnd Hdrop Hs Hsh Hb. rewrite mutate_lookup by done.
  rewrite (proj2 (vars_data_None bindingEnvs _)) by done.
  assert (vars_data (kept_of current) !! k = None ∧
    vars_data (List.filter non_binding (kept_of current)) !! k = None) as [Hk1 Hk2].
  { destruct (decide (k ∈ env_Name <$> current)) as [(e & -> & He)%list_elem_of_fmap|Hnin];
      [|by apply kept_lookup_none].
    destruct (kept_lookup current e Hnd He) as [Hk1 Hk2].
    rewrite decide_True in Hk1 by auto. rewrite decide_True in Hk2 by auto. done. }
  rewrite seeds_lookup, Hk1.
  assert (∀ l, k ∉ env_Name <$> l → last (List.filter (λ sv, String.eqb (env_Name sv) k) l) = None) as Hl.
  { intros l Hl. rewrite <- (last_filter_absent k l Hl (λ _, true)). f_equal.
    apply filter_ext. intros x. by rewrite andb_true_r. }
  by rewrite !Hl.
Qed.

(** The first merge: nothing is stored yet. *)
Lemma mutate_nil_lookup k :
  vars_data (mutate_env R lastSpec specEnvKeys specVars sharedVars [] []) !! k =
  env_Value <$> match last (List.filter (λ sv, String.eqb (env_Name sv) k) sharedVars) with
                | Some sv => Some sv
                | None => last (List.filter (λ sv, String.eqb (env_Name sv) k) specVars)
                end.
Proof.
  rewrite mutate_lookup by (done || apply NoDup_nil_2).
  change (vars_data [] !! k) with (None : option string). cbv iota.
  rewrite seeds_lookup. change (vars_data (kept_of []) !! k) with (None : option string).
  cbv iota. destruct (last (List.filter _ sharedVars)); [done|]. by destruct (last _).
Qed.
End merge_facts.

(** ** One pass without other writers

    The environment declares literal values and no bindings. *)

Section quiet_pass.
Context {W : Type} {CA : KubeClient W App} {CS : KubeClient W Secret} {OK : KubeClientOk W Secret}.
Context {KR : KubeRetry W} {KROK : KubeRetryOk W} (R : MapRange) {HR : MapRangeOk R}.

Record plain_env (env : Environment) : Prop := {
  plain_literal : ∀ ev, ev ∈ Environment_Env env → EnvVar_ValueFrom ev = None;
  plain_valid : ∀ ev, ev ∈ Environment_Env env → validEnvVarName (EnvVar_Name ev) = true;
  plain_nodup : NoDup (EnvVar_Name <$> Environment_Env env);
  plain_bindings : Environment_Bindings env = [];
}.

Definition plain_var (ev : EnvVar) : Env :=
  {| env_Name := EnvVar_Name ev; env_Value := EnvVar_Value ev; env_Source := "user" |}.
Definition plain_vars (env : Environment) : list Env := plain_var <$> Environment_Env env.

Lemma plain_names env : env_Name <$> plain_vars env = EnvVar_Name <$> Environment_Env env.
Proof. unfold plain_vars. by rewrite <- list_fmap_compose. Qed.

Lemma resolve_plain envNs projectName envName refs derived env acc (w : W) :
  (∀ ev, ev ∈ env → EnvVar_ValueFrom ev = None) →
  resolve_spec_vars envNs projectName envName refs derived env acc w =
  (w, inr {| rs_specVars := rs_specVars acc ++ (plain_var <$> env);
             rs_fromBindingEnvs := rs_fromBindingEnvs acc;
             rs_resolvedSpecEnv :=
               fold_left (λ m e, <[env_Name e := env_Value e]> m) (plain_var <$> env)
                 (rs_resolvedSpecEnv acc) |}).
Proof.
  revert acc. induction env as [|ev env IH]; intros acc Hev; simpl.
  { rewrite app_nil_r. by destruct acc. }
  unfold resolveEnvVarValue, secret_ref, from_binding. rewrite (Hev ev) by left. simpl.
  assert ((1 <? Nat.b2n (negb (EnvVar_Value ev =? "")%string) + 0 + 0)%nat = false) as ->
    by (by destruct (String.eqb (EnvVar_Value ev) "")).
  rewrite IH by (intros; apply Hev; by right). simpl. by rewrite <- app_assoc.
Qed.

(** What the annotation of the Secret records, if there is a Secret. *)
Definition record_of (s : option Secret) : gmap string string := default ∅ (last_spec_of <$> s).

Lemma readLastSpecEnv_quiet ns appName w :
  kquiet w → ∃ w', readLastSpecEnv ns appName w =
      (w', record_of (kstore w !! (ns, AppEnvSecretName appName))) ∧
    kquiet w' ∧ kstore w' = kstore w.
Proof.
  intros (w' & Hq & Hs & Hg)%(kget_quiet (ns, AppEnvSecretName appName)).
  exists w'. split; [|done]. unfold readLastSpecEnv, record_of.
  destruct (kstore w !! _); [by rewrite Hg|]. by destruct Hg as (e & -> & _).
Qed.

Lemma read_derived_quiet appName ns w :
  kquiet w → ∃ w' keys, read_derived_keys appName ns w = (w', inr keys) ∧
    kquiet w' ∧ kstore w' = kstore w.
Proof.
  intros (w' & Hq & Hs & Hg)%(kget_quiet (ns, AppEnvSecretName appName)).
  exists w'. unfold read_derived_keys.
  destruct (kstore w !! _) as [s|]; [rewrite Hg; by eexists|].
  destruct Hg as (e & -> & ->). by eexists.
Qed.

Lemma materialize_quiet app env envNs w :
  let source := envs_of R (kstore w !! (meta_Namespace (App_ObjectMeta app), SharedVarsSourceName)) in
  kquiet w → valid_names source →
  ∃ w' s, materialize_shared R app env envNs w = (w', None) ∧ kquiet w' ∧
    kstore w' = <[(envNs, SharedEnvName) := s]> (kstore w).
Proof.
  intros source Hq Hv.
  destruct (getEnvs_quiet R (meta_Namespace (App_ObjectMeta app)) SharedVarsSourceName w Hq)
    as (w1 & Hg & Hq1 & Hs1).
  destruct (applySecret_quiet R envNs SharedEnvName (env_labels app env)
    (λ _, inr source) w1 source Hq1) as (w2 & s & Ha & Hq2 & Hs2 & _); [done|done|].
  exists w2, s. split; [|by rewrite Hs2, Hs1]. unfold materialize_shared, GetSharedSource.
  rewrite Hg. fold source. unfold SetShared, validated, upsertSecret.
  by rewrite (proj2 (validateEnvVars_ok source)), Ha.
Qed.

(** The annotation after a pass is the record of the values of the spec. *)
Lemma last_spec_after values s :
  last_spec_current (marshal_string_map (lastSpecEnvDigest <$> values)) s = true →
  last_spec_of s = lastSpecEnvDigest <$> values.
Proof.
  unfold last_spec_current, last_spec_of. rewrite andb_true_iff, String.eqb_eq.
  intros [_ ->]. assert (∀ m, String.eqb (marshal_string_map m) "" = false) as -> by done.
  simpl negb. cbv iota. by rewrite unmarshal_marshal_string_map.
Qed.

Lemma set_last_spec_spec data s s' b :
  set_last_spec data s = (s', inr b) →
  obj_key s' = obj_key s ∧ obj_rv s' = obj_rv s ∧ sec_Data s' = sec_Data s ∧
  secretToEnvs R s' = secretToEnvs R s ∧ last_spec_current data s' = true ∧
  (b = false → s' = s).
Proof.
  unfold set_last_spec. destruct (last_spec_current data s) eqn:E; [by intros [= <- <-]|].
  intros [= <- <-]. split; [done|]. split; [done|]. split; [done|]. split; [|split; [|done]].
  - apply secretToEnvs_ext; [done..|]. intros a Ha. unfold recorded, map_get.
    change (sec_Annotations (sec_with_annotations ?m s)) with m.
    rewrite lookup_insert_ne, lookup_delete_ne; [done| |];
      intros <-; revert Ha; apply (bool_decide_eq_false_1 _); by vm_compute.
  - unfold last_spec_current, map_get. change (sec_Annotations (sec_with_annotations ?m s)) with m.
    rewrite lookup_insert_eq, lookup_insert_ne by done. rewrite lookup_delete_eq.
    simpl. apply String.eqb_refl.
Qed.

Lemma writeLastSpecEnv_quiet ns appName values w s :
  let key := (ns, AppEnvSecretName appName) in
  kquiet w → kstore w !! key = Some s →
  ∃ w' s', writeLastSpecEnv ns appName values w = (w', None) ∧ kquiet w' ∧
    kstore w' = <[key := s']> (kstore w) ∧ sec_Data s' = sec_Data s ∧
    secretToEnvs R s' = secretToEnvs R s ∧ last_spec_of s' = lastSpecEnvDigest <$> values.
Proof.
  intros key Hq Hs. destruct (kget_quiet key w Hq) as (w1 & Hq1 & Hs1 & Hg). rewrite Hs in Hg.
  set (data := marshal_string_map (lastSpecEnvDigest <$> values)).
  unfold writeLastSpecEnv. fold key data. rewrite Hg.
  destruct (last_spec_current data s) eqn:Ecur.
  { exists w1, s. rewrite Hs1, insert_id by done. do 5 (split; [done|]). by apply last_spec_after. }
  destruct (kget_quiet key w1 Hq1) as (w2 & Hq2 & Hs2 & Hg2). rewrite Hs1, Hs in Hg2.
  destruct (set_last_spec data s) as [s' r] eqn:Eset.
  assert (r = inr true) as -> by (unfold set_last_spec in Eset; rewrite Ecur in Eset; congruence).
  pose proof (set_last_spec_spec _ _ _ _ Eset) as (Hk & Hrv & Hd & Henv & Hcur & _).
  pose proof (kstore_key _ _ _ Hs) as Hkey.
  destruct (kupdate_quiet s' w2 s Hq2) as (w3 & rv & Hq3 & Hu & Hst);
    [by rewrite Hs2, Hs1, Hk, Hkey|done|].
  exists w3, (obj_with_rv rv s'). split; [|split; [done|]].
  - unfold UpdateWithConflictRetry. rewrite retry_on_conflict_spec.
    rewrite (retry_loop_once _ _ _ w3 None); [done| |done]. by rewrite Hg2, Eset.
  - split; [by rewrite Hst, Hk, Hkey, Hs2, Hs1|]. split; [done|].
    split; [by rewrite secretToEnvs_with_rv|]. apply last_spec_after. exact Hcur.
Qed.
(** What one pass leaves in the Secret of the app. *)
Lemma reconcile_quiet app env envNs w :
  let key := (envNs, AppEnvSecretName (meta_Name (App_ObjectMeta app))) in
  let controlNs := meta_Namespace (App_ObjectMeta app) in
  let shared := shared_env <$> AppSpec_SharedVars (App_Spec app) in
  let vars := mutate_env R (record_of (kstore w !! key)) (spec_env_keys env) (plain_vars env)
                shared [] (envs_of R (kstore w !! key)) in
  kquiet w → plain_env env → meta_Name (App_ObjectMeta app) ≠ "shared" → controlNs ≠ envNs →
  valid_names (envs_of R (kstore w !! (controlNs, SharedVarsSourceName))) →
  valid_names shared → valid_names (envs_of R (kstore w !! key)) →
  ∃ w' s, reconcileEnvSecret R app env envNs w = (w', None) ∧ kquiet w' ∧
    kstore w' !! key = Some s ∧
    kstore w' !! (controlNs, SharedVarsSourceName) = kstore w !! (controlNs, SharedVarsSourceName) ∧
    sec_Data s = vars_data vars ∧
    secretToEnvs R s = secretToEnvs R (buildSecret R envNs key.2 vars ∅) ∧
    last_spec_of s = lastSpecEnvDigest <$> vars_data (plain_vars env).
Proof.
  intros key controlNs shared vars Hq Hplain Hname Hns Hv1 Hv2 Hv3.
  assert ((envNs, SharedEnvName) ≠ key) as Hk1.
  { unfold key, AppEnvSecretName. intros [= H]. apply Hname.
    apply (f_equal (trim_suffix AppEnvSuffix)) in H. by rewrite trim_suffix_app in H. }
  destruct (materialize_quiet app env envNs w Hq Hv1) as (w1 & sh & Hm & Hq1 & Hs1).
  assert (kstore w1 !! key = kstore w !! key) as Hkey1 by (by rewrite Hs1, lookup_insert_ne).
  destruct (readLastSpecEnv_quiet envNs (meta_Name (App_ObjectMeta app)) w1 Hq1)
    as (w2 & Hl & Hq2 & Hs2). fold key in Hl. rewrite Hkey1 in Hl.
  destruct (read_derived_quiet (meta_Name (App_ObjectMeta app)) envNs w2 Hq2)
    as (w3 & keys & Hd & Hq3 & Hs3).
  assert (kstore w3 !! key = kstore w !! key) as Hkey3 by (by rewrite Hs3, Hs2).
  destruct (applySecret_quiet R envNs key.2
    (<[AppNameLabel := meta_Name (App_ObjectMeta app)]> (env_labels app env))
    (λ current, inr (mutate_env R (record_of (kstore w !! key)) (spec_env_keys env)
       (plain_vars env) shared [] current)) w3 vars Hq3) as (w4 & s & Ha & Hq4 & Hs4 & Hw);
    [by unfold vars; rewrite <- Hkey3| |].
  { intros e He. apply mutate_names in He; [|done|].
    - destruct He as [(x & Hx & <-)|[He|[He|He]]]; [by apply Hv3| |by apply Hv2|by apply elem_of_nil in He].
      apply list_elem_of_fmap in He as (ev & -> & Hev). by apply (plain_valid _ Hplain).
    - destruct (kstore w !! key); [apply secretToEnvs_names_nodup, HR|apply NoDup_nil_2]. }
  assert (kstore w4 !! key = Some s) as Hkey4 by (by rewrite Hs4, lookup_insert_eq).
  destruct (writeLastSpecEnv_quiet envNs (meta_Name (App_ObjectMeta app))
    (vars_data (plain_vars env)) w4 s Hq4 Hkey4) as (w5 & s5 & Hwr & Hq5 & Hs5 & Hd5 & He5 & Hr5).
  destruct Hw as (Hw1 & Hw2 & _). exists w5, s5.
  split; [|split; [done|split; [|split; [|split; [|split; [|done]]]]]].
  - unfold reconcileEnvSecret. rewrite Hm, Hl, Hd.
    rewrite resolve_plain by apply (plain_literal _ Hplain).
    unfold resolve_bindings. rewrite (plain_bindings _ Hplain). simpl.
    unfold Apply. fold key shared. change (AppEnvSecretName _) with (key.2).
    change (plain_var <$> Environment_Env env) with (plain_vars env). rewrite Ha. simpl.
    change (fold_left _ (plain_vars env) ∅) with (vars_data (plain_vars env)).
    by rewrite Hwr.
  - by rewrite Hs5, lookup_insert_eq.
  - rewrite Hs5, lookup_insert_ne by (intros [= ? _]; done).
    rewrite Hs4, lookup_insert_ne by (intros [= ? _]; done).
    rewrite Hs3, Hs2, Hs1, lookup_insert_ne; [done|]. by intros [= ? _].
  - by rewrite Hd5.
  - by rewrite He5, Hw1.
Qed.
(** The Secret after the first pass: outside the shared variables it holds the values of
    the spec, as the user's and tracked by the record. *)
Lemma first_pass_vars app env s :
  let shared := shared_env <$> AppSpec_SharedVars (App_Spec app) in
  let vars := mutate_env R ∅ (spec_env_keys env) (plain_vars env) shared [] [] in
  let name := AppEnvSecretName (meta_Name (App_ObjectMeta app)) in
  ∀ envNs, plain_env env → valid_names shared → sec_Data s = vars_data vars →
  secretToEnvs R s = secretToEnvs R (buildSecret R envNs name vars ∅) →
  last_spec_of s = lastSpecEnvDigest <$> vars_data (plain_vars env) →
  valid_names (secretToEnvs R s) ∧
  ∀ e, e ∈ secretToEnvs R s → env_Name e ∉ env_Name <$> shared →
    env_Source e = "user" ∧
    last_spec_of s !! env_Name e = Some (lastSpecEnvDigest (env_Value e)).
Proof.
  intros shared vars name envNs Hplain Hsh Hd Henv Hrec.
  assert (∀ x, x ∈ vars → x ∈ plain_vars env ∨ x ∈ shared) as Hvars.
  { intros x [(y & Hy & _)|[?|[?|Hx]]]%mutate_names; [by apply elem_of_nil in Hy|auto..| |].
    - by apply elem_of_nil in Hx.
    - done.
    - apply NoDup_nil_2. }
  assert (valid_names vars) as Hv.
  { intros x [Hx|Hx]%Hvars; [|by apply Hsh].
    apply list_elem_of_fmap in Hx as (ev & -> & Hev). by apply (plain_valid _ Hplain). }
  assert (NoDup (env_Name <$> plain_vars env)) as Hnd by (rewrite plain_names; apply Hplain).
  rewrite Henv. split.
  - intros e [He _]%elem_of_decoded; [|done..].
    assert (env_Name e ∈ env_Name <$> vars) as (x & -> & Hx)%list_elem_of_fmap; [|by apply Hv].
    destruct (decide (env_Name e ∈ env_Name <$> vars)) as [|Hn]; [done|].
    apply vars_data_None in Hn. congruence.
  - intros e [He Hs]%elem_of_decoded Hn; [|done..]. split.
    + rewrite Hs. unfold strongest_source.
      rewrite !bool_decide_eq_false_2; [done|..];
        intros (x & Hx & Hsrc & Hxn)%elem_of_source_keys;
        (destruct (Hvars x Hx) as [Hp|Hp];
          [by apply list_elem_of_fmap in Hp as (ev & -> & _)
          |apply Hn; rewrite <- Hxn; by apply list_elem_of_fmap_2]).
    + rewrite Hrec, lookup_fmap. unfold vars in He. rewrite mutate_nil_lookup in He by done.
      rewrite (last_filter_none _ shared) in He.
      2: { intros x Hx. apply String.eqb_neq. intros Heq. apply Hn. rewrite <- Heq.
           by apply list_elem_of_fmap_2. }
      destruct (last _) as [x|] eqn:El; [|done]. simpl in He. injection He as He.
      apply last_Some_elem_of, elem_of_filter_bool in El as [Hx Hxn%String.eqb_eq].
      by rewrite <- Hxn, (vars_data_eq _ x), He.
Qed.
End quiet_pass.

(** ** Correctness *)

Section properties.
Context (R : MapRange) {HR : MapRangeOk R}.
Context (lastSpec : gmap string string) (specEnvKeys : gset string)
        (specVars sharedVars bindingEnvs : list Env).

Abbreviation merged :=
  (mutate_env R lastSpec specEnvKeys specVars sharedVars bindingEnvs).

(** C3: a value that was changed out of band stays, whatever the spec and the shared
    variables say about its name, unless a binding takes the name. *)
Theorem override_preserved current e :
  NoDup (env_Name <$> current) → e ∈ current → env_Source e ≠ "binding" →
  tracks lastSpec (env_Name e) (env_Value e) = false →
  env_Name e ∉ env_Name <$> bindingEnvs →
  vars_data (merged current) !! env_Name e = Some (env_Value e).
Proof.
  intros Hnd He Hb Ht Hbind. rewrite mutate_lookup by done.
  rewrite (proj2 (vars_data_None bindingEnvs _)) by done.
  destruct (kept_lookup lastSpec specEnvKeys current e Hnd He) as [Hk1 Hk2].
  assert (keep_var lastSpec specEnvKeys e ≠ []) as Hkeep
    by (intros [H _]%keep_var_nil; congruence).
  rewrite decide_False in Hk1 by done. rewrite decide_False in Hk2 by (by intros [?|?]).
  rewrite seeds_lookup, Hk1, last_filter_none; [done|].
  intros sv _. rewrite Ht. by rewrite !andb_false_r.
Qed.

(** An edit of the spec reaches the Secret: a variable of the spec that is not
    stored yet, or whose stored value was last written from the spec, gets the value of
    the spec, unless a binding takes the name or, the first time, a shared variable. *)
Theorem spec_change_applied current sv :
  NoDup (env_Name <$> current) → NoDup (env_Name <$> specVars) → sv ∈ specVars →
  env_Name sv ∈ specEnvKeys →
  (∀ e, e ∈ current → env_Name e = env_Name sv →
     env_Source e ≠ "binding" ∧ tracks lastSpec (env_Name e) (env_Value e) = true) →
  (env_Name sv ∉ env_Name <$> current → env_Name sv ∉ env_Name <$> sharedVars) →
  env_Name sv ∉ env_Name <$> bindingEnvs →
  vars_data (merged current) !! env_Name sv = Some (env_Value sv).
Proof. intros. by apply spec_wins. Qed.

(** A variable removed from the spec disappears when its stored value was last
    written from the spec; otherwise the changed value stays and is marked as retained. *)
Theorem removed_from_spec current e lastVal :
  NoDup (env_Name <$> current) → e ∈ current → env_Source e = "user" →
  lastSpec !! env_Name e = Some lastVal →
  env_Name e ∉ specEnvKeys → (∀ sv, sv ∈ specVars → env_Name sv ∈ specEnvKeys) →
  env_Name e ∉ env_Name <$> sharedVars → env_Name e ∉ env_Name <$> bindingEnvs →
  if tracks lastSpec (env_Name e) (env_Value e)
  then vars_data (merged current) !! env_Name e = None
  else with_source "retained" e ∈ merged current.
Proof.
  intros Hnd He Hsrc Hlast Hkeys Hspec Hshared Hbind.
  destruct (kept_lookup lastSpec specEnvKeys current e Hnd He) as [Hk1 Hk2].
  assert (keep_var lastSpec specEnvKeys e =
    if tracks lastSpec (env_Name e) (env_Value e) then [] else [with_source "retained" e]) as Hkeep.
  { unfold keep_var, tracks, user_visible. rewrite Hsrc, Hlast.
    by rewrite (bool_decide_eq_false_2 _ Hkeys). }
  assert (∀ f, List.filter (λ sv, String.eqb (env_Name sv) (env_Name e) && f sv) specVars = []) as Hnospec.
  { intros f. apply last_None, last_filter_none. intros sv Hsv.
    destruct (String.eqb_spec (env_Name sv) (env_Name e)) as [Heq|]; [|done].
    exfalso. apply Hkeys. rewrite <- Heq. by apply Hspec. }
  destruct (tracks lastSpec (env_Name e) (env_Value e)) eqn:Et.
  - rewrite mutate_lookup by done. rewrite (proj2 (vars_data_None bindingEnvs _)) by done.
    rewrite decide_True in Hk1 by done. rewrite decide_True in Hk2 by auto.
    rewrite seeds_lookup, Hk1, Hk2.
    assert (List.filter (λ sv, String.eqb (env_Name sv) (env_Name e)) specVars = []) as ->.
    { rewrite <- (Hnospec (λ _, true)). apply filter_ext. intros sv. by rewrite andb_true_r. }
    rewrite last_filter_none; [done|]. intros x Hx. apply String.eqb_neq. intros Heq.
    apply Hshared. rewrite <- Heq. by apply list_elem_of_fmap_2.
  - unfold mutate_env. rewrite assemble_fold by (by apply kept_nodup).
    rewrite app_nil_l. apply elem_of_app. left. apply list_elem_of_fmap.
    exists (with_source "retained" e). split.
    + rewrite seeds_lookup. simpl. rewrite decide_False in Hk1 by (by rewrite Hkeep).
      by rewrite Hk1, Hnospec.
    + apply elem_of_filter_bool. split; [|done]. apply list_elem_of_bind.
      exists e. rewrite Hkeep. split; [by left|done].
Qed.
End properties.

Section propagation.
Context {W : Type} {CA : KubeClient W App} {CS : KubeClient W Secret} {OK : KubeClientOk W Secret}.
Context {KR : KubeRetry W} {KROK : KubeRetryOk W} (R : MapRange) {HR : MapRangeOk R}.

(** When nobody else writes, reconciling an app with one set of literal variables
    and then with another leaves, outside the app's shared variables, exactly the second
    set: values that changed are updated, removed variables are gone. *)
Theorem spec_edit_propagates app env1 env2 envNs w :
  let appName := meta_Name (App_ObjectMeta app) in
  let controlNs := meta_Namespace (App_ObjectMeta app) in
  let key := (envNs, AppEnvSecretName appName) in
  let shared := shared_env <$> AppSpec_SharedVars (App_Spec app) in
  kquiet w → kstore w !! key = None → plain_env env1 → plain_env env2 →
  appName ≠ "shared" → controlNs ≠ envNs → valid_names shared →
  valid_names (envs_of R (kstore w !! (controlNs, SharedVarsSourceName))) →
  ∃ w1 w2 s, reconcileEnvSecret R app env1 envNs w = (w1, None) ∧
    reconcileEnvSecret R app env2 envNs w1 = (w2, None) ∧
    kstore w2 !! key = Some s ∧
    ∀ name, name ∉ env_Name <$> shared → sec_Data s !! name = vars_data (plain_vars env2) !! name.
Proof.
  intros appName controlNs key shared Hq Hnone Hp1 Hp2 Hname Hns Hsh Hsrc.
  destruct (reconcile_quiet R app env1 envNs w) as (w1 & s1 & Hr1 & Hq1 & Hk1 & Hc1 & Hd1 & He1 & Hl1);
    [done..|fold appName key; rewrite Hnone; by intros e ?%elem_of_nil|].
  fold appName controlNs key shared in Hk1, Hc1, Hd1, He1. rewrite Hnone in Hd1, He1.
  destruct (first_pass_vars R app env1 s1 envNs Hp1 Hsh Hd1 He1 Hl1) as [Hv1 Hs1].
  destruct (reconcile_quiet R app env2 envNs w1) as (w2 & s2 & Hr2 & _ & Hk2 & _ & Hd2 & _ & _);
    [done..|by fold controlNs; rewrite Hc1|done|by fold appName key; rewrite Hk1|].
  fold appName key shared in Hk2, Hd2. rewrite Hk1 in Hd2.
  exists w1, w2, s2. split; [done|]. split; [done|]. split; [done|]. intros name Hn.
  pose proof (secretToEnvs_names_nodup R s1) as Hnd1.
  assert (NoDup (env_Name <$> plain_vars env2)) as Hnd2 by (rewrite plain_names; apply Hp2).
  rewrite Hd2. change (record_of (Some s1)) with (last_spec_of s1). rewrite envs_of_Some.
  assert (∀ k, k ∈ spec_env_keys env2 ↔ k ∈ env_Name <$> plain_vars env2) as Hkeys.
  { intros k. unfold spec_env_keys. by rewrite plain_names, elem_of_list_to_set. }
  destruct (decide (name ∈ env_Name <$> plain_vars env2))
    as [(sv & -> & Hsv)%list_elem_of_fmap|Hnin].
  - rewrite (vars_data_eq (plain_vars env2) sv) by done.
    apply spec_wins; [done..| | |done|apply not_elem_of_nil].
    + rewrite Hkeys. by apply list_elem_of_fmap_2.
    + intros e He Heq. rewrite <- Heq in Hn. destruct (Hs1 e He Hn) as [Hsr Hl].
      split; [by rewrite Hsr|]. unfold tracks. rewrite Hl. apply String.eqb_refl.
  - rewrite (proj2 (vars_data_None (plain_vars env2) _)) by done.
    apply mutate_gone; try done; [|apply not_elem_of_nil].
    intros e He <-. destruct (Hs1 e He Hn) as [Hsr Hl].
    apply keep_var_drop; [done..|]. by rewrite Hkeys.
Qed.
End propagation.

(** ** Concrete runs *)

Module ReconcileRuns.
#[local] Existing Instances range_sorted_order Sim.client Sim.retry Sim.retry_ok Sim.client_ok.
Definition R : MapRange := range_sorted_order.

Definition var (name value source : string) : Env :=
  {| env_Name := name; env_Value := value; env_Source := source |}.
Definition record (l : list (string * string)) : gmap string string :=
  lastSpecEnvDigest <$> (list_to_map l : gmap string string).

Ltac decided := apply (bool_decide_unpack _); vm_compute; exact I.
Ltac single := apply NoDup_singleton.

Lemma override_preserved_witness :
  vars_data (mutate_env R (record [("PORT", "8080")]) {["PORT"]} [var "PORT" "7070" "user"] [] []
    [var "PORT" "9090" "user"]) !! "PORT" = Some "9090".
Proof.
  apply (override_preserved R (record [("PORT", "8080")]) {["PORT"]} [var "PORT" "7070" "user"] [] []
    [var "PORT" "9090" "user"] (var "PORT" "9090" "user")).
  - single.
  - left.
  - discriminate.
  - vm_compute. reflexivity.
  - apply not_elem_of_nil.
Defined.

Lemma spec_change_applied_witness :
  vars_data (mutate_env R (record [("PORT", "8080")]) {["PORT"]} [var "PORT" "7070" "user"] [] []
    [var "PORT" "8080" "user"]) !! "PORT" = Some "7070".
Proof.
  apply (spec_change_applied R (record [("PORT", "8080")]) {["PORT"]} [var "PORT" "7070" "user"] [] []
    [var "PORT" "8080" "user"] (var "PORT" "7070" "user")).
  - single.
  - single.
  - left.
  - decided.
  - intros e ->%list_elem_of_singleton _. split; [discriminate|vm_compute; reflexivity].
  - intros _. apply not_elem_of_nil.
  - apply not_elem_of_nil.
Defined.

Lemma removed_from_spec_witness :
  with_source "retained" (var "PORT" "9090" "user") ∈
  mutate_env R (record [("PORT", "8080")]) ∅ [] [] [] [var "PORT" "9090" "user"].
Proof.
  assert (Ht : tracks (record [("PORT", "8080")]) "PORT" "9090" = false) by (vm_compute; reflexivity).
  pose proof (removed_from_spec R (record [("PORT", "8080")]) ∅ [] [] []
    [var "PORT" "9090" "user"] (var "PORT" "9090" "user") (lastSpecEnvDigest "8080")) as H.
  cbn [env_Name env_Value var] in H. rewrite Ht in H. apply H.
  - single.
  - left.
  - reflexivity.
  - vm_compute. reflexivity.
  - apply not_elem_of_empty.
  - intros sv Hsv. destruct (not_elem_of_nil sv Hsv).
  - apply not_elem_of_nil.
  - apply not_elem_of_nil.
Defined.

#[local] Instance no_apps : KubeClient (Sim.world Secret) App := read_only (map_view ∅).

Definition literal (name value : string) : EnvVar :=
  {| EnvVar_Name := name; EnvVar_Value := value; EnvVar_ValueFrom := None |}.
Definition env_of (vars : list EnvVar) : Environment :=
  with_Environment_Env vars (with_Environment_Name "production" Environment_zero).
Definition web : App :=
  with_App_ObjectMeta (with_name "web" (with_namespace "pj-shop" ObjectMeta_zero)) App_zero.
Definition before : Environment := env_of [literal "PORT" "8080"; literal "DEBUG" "1"].
Definition after : Environment := env_of [literal "PORT" "7070"].
Definition empty_world : Sim.world Secret := Sim.World [] [].

Lemma plain_env_of vars :
  forallb (λ ev, match EnvVar_ValueFrom ev with None => true | Some _ => false end &&
                 validEnvVarName (EnvVar_Name ev)) vars = true →
  NoDup (EnvVar_Name <$> vars) → plain_env (env_of vars).
Proof.
  rewrite forallb_elem. intros H Hnd. split; [| |done|done].
  - intros ev Hev. apply H, andb_true_iff in Hev as [Hev _]. by destruct (EnvVar_ValueFrom ev).
  - intros ev Hev. by apply H, andb_true_iff in Hev as [_ Hev].
Qed.

Lemma spec_edit_propagates_witness :
  ∃ w1 w2 s, reconcileEnvSecret R web before "pj-shop-production" empty_world = (w1, None) ∧
    reconcileEnvSecret R web after "pj-shop-production" w1 = (w2, None) ∧
    kstore (Obj := Secret) w2 !! ("pj-shop-production", "web-env") = Some s ∧
    ∀ name, name ∉ env_Name <$> (shared_env <$> AppSpec_SharedVars (App_Spec web)) →
      sec_Data s !! name = vars_data (plain_vars after) !! name.
Proof.
  apply (spec_edit_propagates R web before after "pj-shop-production" empty_world).
  - reflexivity.
  - reflexivity.
  - apply plain_env_of; [reflexivity|decided].
  - apply plain_env_of; [reflexivity|decided].
  - discriminate.
  - discriminate.
  - intros e He. destruct (not_elem_of_nil e He).
  - intros e He. destruct (not_elem_of_nil e He).
Defined.

(** The Secret of an app called [shared] is the Secret of the shared variables. *)
Lemma shared_app_collides : AppEnvSecretName "shared" = SharedEnvName.
Proof. reflexivity. Qed.

(** A literal that takes over the name of a generated binding variable is not seeded,
    and the binding is dropped: the pass that should switch leaves neither. *)
Lemma replaced_binding_dropped :
  mutate_env R ∅ {["DB_HOST"]} [var "DB_HOST" "db.example.com" "user"] [] []
    [var "DB_HOST" "db.pj-shop-production.svc.cluster.local" "binding"] = [].
Proof. vm_compute. reflexivity. Qed.

(** The first pass gives a shared variable precedence over a variable of the environment,
    and the next pass takes the result for an override and keeps it. *)
Lemma shared_var_beats_environment :
  let spec := [var "LOG_LEVEL" "debug" "user"] in
  let shared := [var "LOG_LEVEL" "info" "shared"] in
  let pass lastSpec := mutate_env R lastSpec {["LOG_LEVEL"]} spec shared [] in
  let first := pass ∅ [] in
  first = shared ∧ pass (record [("LOG_LEVEL", "debug")]) first = shared.
Proof. vm_compute. done. Qed.

(** A pass that cannot resolve a served variable drops it from the record; when its
    reference is back with a new value, the served value passes for an override. *)
Lemma broken_reference_freezes :
  let served := [var "DB_PASSWORD" "old" "user"] in
  let broken := mutate_env R (record [("DB_PASSWORD", "old")]) {["DB_PASSWORD"]} [] [] [] served in
  broken = served ∧
  mutate_env R (record []) {["DB_PASSWORD"]} [var "DB_PASSWORD" "new" "user"] [] [] broken = served.
Proof. vm_compute. done. Qed.
End ReconcileRuns.
