(* ===== verification/SSETokens.v ===== *)
(** * SSE tokens: [internal/api/sse_tokens.go]

    Short-lived single-use tokens that stand in for a session on event streams.  The
    store is a state machine: the methods hold its mutex, so they are atomic steps that
    interleave freely with each other, with the clean-up goroutine and with the clock.
    [run] is the reachability relation over labelled steps. *)

From S2P Require Import Prelude GoStrings Sha256 Kube Authz.

Definition sseTokenTTL : Z := 30 * 1000000000.
Definition sseTokenBytes : nat := 32.
Definition sseTokenPrefix : string := "msse_".

Record sseTokenPrincipal := { tp_email : string; tp_passwordGen : Z }.
Record sseTokenEntry := { te_principal : sseTokenPrincipal; te_expiresAt : Time }.

(** The tokens, whether the clean-up goroutine was stopped, and the clock. *)
Record sseTokenStore := {
  ts_tokens : gmap string sseTokenEntry;
  ts_stopped : bool;
  ts_now : Time;
}.

Definition newSSETokenStore (now : Time) : sseTokenStore :=
  {| ts_tokens := ∅; ts_stopped := false; ts_now := now |}.

Definition with_tokens (m : gmap string sseTokenEntry) (s : sseTokenStore) : sseTokenStore :=
  {| ts_tokens := m; ts_stopped := ts_stopped s; ts_now := ts_now s |}.

Definition token_of (raw : list N) : string := sseTokenPrefix +:+ Sha256.hex_encode raw.

(** [raw] is what [rand.Read] filled the buffer with, or its error. *)
Definition Issue (raw : error + list N) (p : Principal) (s : sseTokenStore)
    : sseTokenStore * (error + string) :=
  match raw with
  | inl err => (s, inl err)
  | inr raw =>
    let token := token_of raw in
    let entry :=
      {| te_principal := {| tp_email := Principal_Email p;
                            tp_passwordGen := Principal_PasswordGen p |};
         te_expiresAt := ts_now s + sseTokenTTL |} in
    (with_tokens (<[token := entry]> (ts_tokens s)) s, inr token)
  end.

Definition expired (now : Time) (e : sseTokenEntry) : bool := (te_expiresAt e <? now)%Z.

(** [None] is the false result. *)
Definition Redeem (token : string) (s : sseTokenStore) : sseTokenStore * option sseTokenPrincipal :=
  match ts_tokens s !! token with
  | None => (s, None)
  | Some entry =>
    let s := with_tokens (delete token (ts_tokens s)) s in
    if expired (ts_now s) entry then (s, None) else (s, Some (te_principal entry))
  end.

(** One tick of the clean-up loop: the entries that expired go, in any order. *)
Definition cleanup_tick (R : MapRange) (s : sseTokenStore) : sseTokenStore :=
  with_tokens
    (fold_left (λ m '(k, v), if expired (ts_now s) v then delete k m else m)
       (range (ts_tokens s)) (ts_tokens s)) s.

Definition Stop (s : sseTokenStore) : sseTokenStore :=
  {| ts_tokens := ts_tokens s; ts_stopped := true; ts_now := ts_now s |}.

(** ** The state machine *)

Inductive label :=
  | LIssue (token : string) (p : Principal) (at_ : Time)
  | LRedeem (token : string) (result : option sseTokenPrincipal) (at_ : Time)
  | LCleanup
  | LStop
  | LTime.

Inductive step (R : MapRange) : sseTokenStore → label → sseTokenStore → Prop :=
  | step_issue raw p s s' token :
      length raw = sseTokenBytes → (∀ b, b ∈ raw → (b < 256)%N) →
      Issue (inr raw) p s = (s', inr token) →
      step R s (LIssue token p (ts_now s)) s'
  | step_redeem token s s' result :
      Redeem token s = (s', result) → step R s (LRedeem token result (ts_now s)) s'
  | step_cleanup s :
      ts_stopped s = false → step R s LCleanup (cleanup_tick R s)
  | step_stop s : step R s LStop (Stop s)
  | step_time s d :
      (0 ≤ d)%Z →
      step R s LTime {| ts_tokens := ts_tokens s; ts_stopped := ts_stopped s;
                        ts_now := ts_now s + d |}.

(** A run and its trace, the latest label first. *)
Inductive run (R : MapRange) (s0 : sseTokenStore) : list label → sseTokenStore → Prop :=
  | run_nil : run R s0 [] s0
  | run_step tr s l s' : run R s0 tr s → step R s l s' → run R s0 (l :: tr) s'.

(** A token that was handed out and, since, not presented. *)
Fixpoint live (token : string) (tr : list label) : option (Principal * Time) :=
  match tr with
  | [] => None
  | LIssue t p at_ :: tr' => if decide (t = token) then Some (p, at_) else live token tr'
  | LRedeem t _ _ :: tr' => if decide (t = token) then None else live token tr'
  | _ :: tr' => live token tr'
  end.

Definition principal_of (p : Principal) : sseTokenPrincipal :=
  {| tp_email := Principal_Email p; tp_passwordGen := Principal_PasswordGen p |}.

Section invariant.
Context (R : MapRange) {HR : MapRangeOk R}.

Lemma cleanup_lookup s k :
  ts_tokens (cleanup_tick R s) !! k =
  match ts_tokens s !! k with
  | Some e => if expired (ts_now s) e then None else Some e
  | None => None
  end.
Proof.
  unfold cleanup_tick. simpl. set (m := ts_tokens s).
  assert (∀ (l : list (string * sseTokenEntry)) (m0 : gmap string sseTokenEntry), NoDup l.*1 →
    fold_left (λ m '(k, v), if expired (ts_now s) v then delete k m else m) l m0 !! k =
    match (list_to_map l : gmap string sseTokenEntry) !! k with
    | Some e => if expired (ts_now s) e then None else m0 !! k
    | None => m0 !! k
    end) as Hfold.
  { induction l as [|[k' e'] l IH]; intros m0 Hnd; [done|]. simpl in *.
    apply NoDup_cons in Hnd as [Hnin Hnd]. rewrite IH by done.
    rewrite lookup_insert. case_decide as Hk.
    - subst k'. rewrite not_elem_of_list_to_map_1 by done.
      destruct (expired _ e'); [by rewrite lookup_delete_eq|done].
    - destruct (expired _ e'); [|done]. by rewrite lookup_delete_ne. }
  rewrite Hfold by apply range_keys_nodup. rewrite list_to_map_range.
  by destruct (m !! k).
Qed.

(** Every stored entry comes from the issue of its token, which is still live, and
    expires a lifetime after it. *)
Definition well_formed (tr : list label) (s : sseTokenStore) : Prop :=
  ∀ token e, ts_tokens s !! token = Some e →
    ∃ p at_, live token tr = Some (p, at_) ∧ te_principal e = principal_of p ∧
      te_expiresAt e = (at_ + sseTokenTTL)%Z.

Lemma run_well_formed now tr s : run R (newSSETokenStore now) tr s → well_formed tr s.
Proof.
  induction 1 as [|tr s l s' _ IH Hstep].
  { intros token e. simpl. by rewrite lookup_empty. }
  intros token e He. destruct Hstep as [raw p s s' tok Hlen Hb Hi|tok s s' res Hr|s Hs|s|s d Hd].
  - unfold Issue in Hi. injection Hi as <- <-. simpl in *. rewrite lookup_insert in He.
    destruct (decide (token_of raw = token)) as [<-|Hne].
    + injection He as <-. by exists p, (ts_now s).
    + by apply IH.
  - simpl. unfold Redeem in Hr. destruct (ts_tokens s !! tok) as [entry|] eqn:Et.
    + assert (ts_tokens s' = delete tok (ts_tokens s)) as Hs'
        by (destruct (expired _ _); by injection Hr as <- _).
      rewrite Hs', lookup_delete in He. destruct (decide (tok = token)) as [|Hne]; [done|].
      by apply IH.
    + injection Hr as <- _. destruct (decide (tok = token)) as [->|]; [congruence|by apply IH].
  - rewrite cleanup_lookup in He. destruct (ts_tokens s !! token) as [e'|] eqn:Et; [|done].
    destruct (expired _ _); [done|]. injection He as <-. by apply IH.
  - by apply IH.
  - by apply IH.
Qed.
End invariant.

(** ** Correctness *)

(** C32: in every interleaving, a token is redeemed only if it was issued and not
    presented since, so at most once per issue; only within its lifetime; and for the
    principal it was issued to. *)
Theorem Redeem_single_use R now tr s s' token pr :
  MapRangeOk R → run R (newSSETokenStore now) tr s → Redeem token s = (s', Some pr) →
  (∃ p at_, live token tr = Some (p, at_) ∧ pr = principal_of p ∧
     (ts_now s ≤ at_ + sseTokenTTL)%Z) ∧
  ts_tokens s' !! token = None ∧ live token (LRedeem token (Some pr) (ts_now s) :: tr) = None.
Proof.
  intros HR Hrun. unfold Redeem. destruct (ts_tokens s !! token) as [e|] eqn:Et; [|done].
  destruct (run_well_formed R now tr s Hrun token e Et) as (p & at_ & Hl & Hp & He).
  unfold expired. simpl. destruct (Z.ltb_spec (te_expiresAt e) (ts_now s)); [done|].
  intros [= <- <-]. split; [|split].
  - exists p, at_. split; [done|]. split; [done|]. lia.
  - simpl. by rewrite lookup_delete_eq.
  - by rewrite decide_True.
Qed.

(** A token presented within its lifetime, and not before, is accepted: nothing but
    a redemption or its expiry removes it. *)
Theorem Redeem_succeeds R now tr s token p at_ :
  MapRangeOk R → run R (newSSETokenStore now) tr s →
  live token tr = Some (p, at_) → (ts_now s ≤ at_ + sseTokenTTL)%Z →
  (Redeem token s).2 = Some (principal_of p).
Proof.
  intros HR Hrun. revert p at_.
  enough (∀ p at_, live token tr = Some (p, at_) →
    (at_ ≤ ts_now s)%Z ∧ ((ts_now s ≤ at_ + sseTokenTTL)%Z →
    ts_tokens s !! token = Some {| te_principal := principal_of p;
                                   te_expiresAt := at_ + sseTokenTTL |})) as Hstored.
  { intros p at_ Hl Ht. destruct (Hstored p at_ Hl) as [_ He]. unfold Redeem.
    rewrite (He Ht). unfold expired. simpl.
    by destruct (Z.ltb_spec (at_ + sseTokenTTL) (ts_now s)); [lia|]. }
  induction Hrun as [|tr s l s' Hrun IH Hstep]; [done|]. intros p at_ Hl.
  destruct Hstep as [raw q s s' tok Hlen Hb Hi|tok s s' res Hr|s Hs|s|s d Hd]; simpl in Hl.
  - unfold Issue in Hi. injection Hi as <- <-. simpl. rewrite lookup_insert.
    destruct (decide (token_of raw = token)); [|by apply IH].
    injection Hl as <- <-. split; [lia|done].
  - destruct (decide (tok = token)) as [|Hne]; [done|]. destruct (IH p at_ Hl) as [IH1 IH2].
    unfold Redeem in Hr. destruct (ts_tokens s !! tok) as [entry|].
    + assert (ts_tokens s' = delete tok (ts_tokens s) ∧ ts_now s' = ts_now s) as [Hs' Hn]
        by (destruct (expired _ _); by injection Hr as <- _).
      rewrite Hs', Hn, lookup_delete_ne by done. done.
    + by injection Hr as <- _.
  - destruct (IH p at_ Hl) as [IH1 IH2]. split; [done|]. intros Ht.
    rewrite cleanup_lookup, IH2 by done. unfold expired. simpl in *.
    by destruct (Z.ltb_spec (at_ + sseTokenTTL) (ts_now s)); [lia|].
  - by apply IH.
  - destruct (IH p at_ Hl) as [IH1 IH2]. simpl. split; [lia|]. intros Ht. apply IH2. lia.
Qed.

(** ** A concrete run *)

Module SSERuns.
Definition raw : list N := repeat 7%N 32.
Definition alice : Principal :=
  {| Principal_ID := "1"; Principal_Email := "alice@acme.io"; Principal_Role := RoleMember;
     Principal_PasswordGen := 3 |}.
Definition token : string := token_of raw.
Definition issued : sseTokenStore := (Issue (inr raw) alice (newSSETokenStore 0)).1.
Definition R : MapRange := range_sorted_order.

Lemma issued_run : run R (newSSETokenStore 0) [LIssue token alice 0] issued.
Proof.
  eapply run_step; [apply run_nil|].
  apply (step_issue R raw alice (newSSETokenStore 0) issued token); [reflexivity| |reflexivity].
  intros b Hb. apply list_elem_of_In, repeat_spec in Hb. subst b. reflexivity.
Qed.

Lemma Redeem_single_use_witness :
  let s' := (Redeem token issued).1 in
  (∃ p at_, live token [LIssue token alice 0] = Some (p, at_) ∧
     principal_of alice = principal_of p ∧ (ts_now issued ≤ at_ + sseTokenTTL)%Z) ∧
  ts_tokens s' !! token = None ∧
  live token (LRedeem token (Some (principal_of alice)) (ts_now issued) :: [LIssue token alice 0]) = None.
Proof.
  apply (Redeem_single_use R 0 [LIssue token alice 0] issued _ token (principal_of alice)).
  - apply range_sorted_order_ok.
  - apply issued_run.
  - vm_compute. reflexivity.
Defined.

Lemma Redeem_succeeds_witness : (Redeem token issued).2 = Some (principal_of alice).
Proof.
  apply (Redeem_succeeds R 0 [LIssue token alice 0] issued token alice 0).
  - apply range_sorted_order_ok.
  - apply issued_run.
  - vm_compute. reflexivity.
  - vm_compute. discriminate.
Defined.
End SSERuns.
