(* ===== verification/VarGen.v ===== *)
(** * Generated variables: [internal/api/vargen.go]

    A compose template may declare variables in an [x-mortise] block.  They are generated
    in dependency order: a JWT is signed with the value of another variable.  The YAML
    and JWT libraries, the random source and the clock are parameters. *)

From S2P Require Import Prelude GoStrings Sha256 GoNum Kube.
From stdpp Require Import relations.

(** * Dependency order

    Lists in which everything comes after what it depends on, for the two depth-first
    sorts of the API ([topoSortVars] in [internal/api/vargen.go] and [topoSort] in
    [internal/api/compose.go]), and the loop they share. *)

(** A loop over names that stops at the first error.  [None]: out of fuel. *)
Fixpoint each {S} (f : string → S → option (error + S)) (names : list string) (st : S)
    : option (error + S) :=
  match names with
  | [] => Some (inr st)
  | name :: rest =>
    match f name st with
    | Some (inr st) => each f rest st
    | r => r
    end
  end.

Section order.
(** [dep n d]: [n] depends on [d]. *)
Context {A : Type} (dep : A → A → Prop).

Definition cyclic : Prop := ∃ n, tc dep n n.

Definition topological (order : list A) : Prop :=
  NoDup order ∧ ∀ l1 n l2, order = l1 ++ n :: l2 → ∀ d, dep n d → d ∈ l1.

Lemma topological_nil : topological [].
Proof. split; [constructor|]. by intros [|] ? ?. Qed.

Lemma topological_snoc l n :
  topological l → n ∉ l → (∀ d, dep n d → d ∈ l) → topological (l ++ [n]).
Proof.
  intros [Hnd Hl] Hn Hd. split.
  - apply NoDup_app. split; [done|]. split; [|apply NoDup_singleton].
    by intros x Hx ->%list_elem_of_singleton.
  - intros l1 m l2 H d Hdep. destruct l2 as [|z l2' _] using rev_ind.
    + apply app_inj_tail in H as [-> ->]. by apply Hd.
    + rewrite app_comm_cons, app_assoc in H. apply app_inj_tail in H as [-> _].
      by eapply Hl.
Qed.

Lemma topological_tc l l1 n l2 d :
  topological l → l = l1 ++ n :: l2 → tc dep n d → d ∈ l1.
Proof.
  intros [_ Hl] -> Htc. revert l1 l2 Hl.
  induction Htc as [n d H|n m d H Htc IH]; intros l1 l2 Hl; [by eapply Hl|].
  assert (m ∈ l1) as (a & b & ->)%list_elem_of_split by by eapply Hl.
  apply elem_of_app. left. eapply (IH a (b ++ n :: l2)).
  intros l1' k l2' Heq. eapply Hl. by rewrite <-app_assoc, <-app_comm_cons.
Qed.

(** What is in dependency order lies on no cycle. *)
Lemma topological_acyclic l n : topological l → n ∈ l → ¬ tc dep n n.
Proof.
  intros Hl (l1 & l2 & ->)%list_elem_of_split Htc.
  pose proof (topological_tc _ l1 n l2 n Hl eq_refl Htc) as Hn.
  destruct Hl as [(_ & Hnd & _)%NoDup_app _]. by apply (Hnd n Hn); left.
Qed.
End order.

(** Every level of the recursion puts another of finitely many names on the stack. *)
Lemma stack_fuel (D S : gset string) name fuel :
  S ⊆ D → name ∈ D → name ∉ S → (size D - size S < Datatypes.S fuel)%nat →
  (size D - size ({[name]} ∪ S) < fuel)%nat.
Proof.
  intros HS HD Hn Hf.
  assert (size ({[name]} ∪ S) = Datatypes.S (size S)) as ->.
  { rewrite size_union by set_solver. by rewrite size_singleton. }
  assert (size ({[name]} ∪ S) ≤ size D)%nat as Hle by (apply subseteq_size; set_solver).
  rewrite size_union, size_singleton in Hle by set_solver. lia.
Qed.

(** A value of type [any] that YAML decoding produces, by the dynamic types the program
    switches on.  The entries of a map are in the order Go ranges over them; a value of
    another type is known by the text [fmt] prints for it with [%v]. *)
Inductive any :=
  | AnyNil
  | AnyBool (b : bool)
  | AnyInt (n : Z)
  | AnyString (s : string)
  | AnySlice (l : list any)
  | AnyMap (m : list (string * any))
  | AnyOther (text : string).

Record VarSpec := {
  VarSpec_Generate : string;
  VarSpec_Length : Z;
  VarSpec_Claims : list (string * any);
  VarSpec_SignWith : string;
}.

(** [specs[name]]: the zero value when there is none. *)
Definition VarSpec_zero : VarSpec :=
  {| VarSpec_Generate := ""; VarSpec_Length := 0; VarSpec_Claims := []; VarSpec_SignWith := "" |}.

(** The [x-mortise] block. *)
Record MortiseExtension := { MortiseExtension_Variables : gmap string VarSpec }.

(** ** Parsing the extension *)

Section parse.
Context (yaml_Unmarshal_map : string → error + list (string * any))
  (yaml_Unmarshal_extension : string → error + MortiseExtension)
  (yaml_Marshal : any → error + string).

Definition member (k : string) (m : list (string * any)) : option any :=
  snd <$> List.find (λ p, String.eqb p.1 k) m.

(** The extension, the YAML without it, and the error. *)
Definition parseMortiseExtension (composeYAML : string)
    : option MortiseExtension * string * option error :=
  match yaml_Unmarshal_map composeYAML with
  | inl _ => (None, composeYAML, None)
  | inr raw =>
    match member "x-mortise" raw with
    | None => (None, composeYAML, None)
    | Some xm =>
      match yaml_Marshal xm with
      | inl err => (None, composeYAML, Some (Wrapf "marshal x-mortise: %w" [] err))
      | inr xmBytes =>
        match yaml_Unmarshal_extension xmBytes with
        | inl err => (None, composeYAML, Some (Wrapf "parse x-mortise: %w" [] err))
        | inr ext =>
          let raw := List.filter (λ p, negb (String.eqb p.1 "x-mortise")) raw in
          match yaml_Marshal (AnyMap raw) with
          | inl err => (None, composeYAML, Some (Wrapf "re-marshal compose: %w" [] err))
          | inr cleaned => (Some ext, cleaned, None)
          end
        end
      end
    end
  end.
End parse.

(** ** Dependency order *)

(** The variables captured by [visit]. *)
Record visits := { visited : gset string; onStack : gset string; order : list string }.

Definition no_visits : visits := {| visited := ∅; onStack := ∅; order := [] |}.

Section sort.
Context (specs : gmap string VarSpec).

Definition spec_of (name : string) : VarSpec := default VarSpec_zero (specs !! name).

Definition push (name : string) (st : visits) : visits :=
  {| visited := visited st; onStack := {[name]} ∪ onStack st; order := order st |}.

Definition finish (name : string) (st : visits) : visits :=
  {| visited := {[name]} ∪ visited st; onStack := onStack st ∖ {[name]};
     order := order st ++ [name] |}.

(** [None]: out of fuel. *)
Fixpoint visit (fuel : nat) (name : string) (st : visits) : option (error + visits) :=
  match fuel with
  | O => None
  | S fuel =>
    if bool_decide (name ∈ onStack st)
    then Some (inl (Errorf "circular dependency on variable %q" [name]))
    else if bool_decide (name ∈ visited st) then Some (inr st)
    else
      let st := push name st in
      let dep := VarSpec_SignWith (spec_of name) in
      let after :=
        if negb (String.eqb dep "") && bool_decide (is_Some (specs !! dep))
        then visit fuel dep st else Some (inr st) in
      match after with
      | Some (inr st) => Some (inr (finish name st))
      | r => r
      end
  end.
End sort.

(** A path in the dependencies is no longer than the number of variables; one more call
    meets the cycle. *)
Definition topoSortVars (R : MapRange) (specs : gmap string VarSpec)
    : option (error + list string) :=
  match each (visit specs (S (size specs))) (range specs).*1 no_visits with
  | Some (inr st) => Some (inr (order st))
  | Some (inl err) => Some (inl err)
  | None => None
  end.

(** ** Generation *)

Section generate.
(** [io.ReadFull] on [randReader], [time.Now], and signing claims with HS256. *)
Context {W : Type} (ReadFull : Z → W → W * (error + list N)) (Now : W → W * Z)
  (SignedString : gmap string any → string → error + string).

(** [make([]byte, n)] panics for a length that is negative or more than the runtime
    allocates.  A panic passes the callers by. *)
Definition maxAlloc : Z := 2 ^ 48.
Definition makeslice_panic : error := Sentinel "runtime error: makeslice: len out of range".

(** [hex.EncodeToString(b)[:length]] *)
Definition generateHex (length : Z) (w : W) : W * (error + string) :=
  let nBytes := Z.quot (wrap64 (length + 1)) 2 in
  if (nBytes <? 0)%Z || (maxAlloc <? nBytes)%Z then (w, inl makeslice_panic)
  else
    match ReadFull nBytes w with
    | (w, inl err) => (w, inl (Wrapf "generating hex: %w" [] err))
    | (w, inr b) => (w, inr (str_take (Z.to_nat length) (Sha256.hex_encode b)))
    end.

(** [t.Unix()] *)
Definition unix (t : Z) : Z := (t / 1000000000)%Z.
(** [10 * 365 * 24 * time.Hour] *)
Definition ten_years : Z := (10 * 365 * 24 * 3600 * 1000000000)%Z.

Definition jwt_claims (iat exp : Z) (claims : list (string * any)) : gmap string any :=
  fold_left (λ mc p, <[p.1 := p.2]> mc) claims
    {["iat" := AnyInt (unix iat); "exp" := AnyInt (unix (exp + ten_years))]}.

Definition generateJWT (claims : list (string * any)) (secret : string) (w : W)
    : W * (error + string) :=
  let '(w, iat) := Now w in
  let '(w, exp) := Now w in
  (w, SignedString (jwt_claims iat exp claims) secret).

Definition generateVar (spec : VarSpec) (resolved : gmap string string) (w : W)
    : W * (error + string) :=
  let kind := VarSpec_Generate spec in
  if String.eqb kind "hex" || String.eqb kind "" then
    let n := VarSpec_Length spec in
    generateHex (if (n <=? 0)%Z then 32 else n) w
  else if String.eqb kind "jwt" then
    if String.eqb (VarSpec_SignWith spec) ""
    then (w, inl (Errorf "jwt generator requires sign_with" []))
    else match resolved !! VarSpec_SignWith spec with
         | None => (w, inl (Errorf "sign_with references unresolved variable %q" [VarSpec_SignWith spec]))
         | Some secret => generateJWT (VarSpec_Claims spec) secret w
         end
  else (w, inl (Errorf "unknown generator %q" [kind])).

(** The loop of [resolveVarSpecs]; the map is the caller's, so what was generated before
    an error stays in it. *)
Fixpoint resolve_vars (specs : gmap string VarSpec) (order : list string)
    (vars : gmap string string) (w : W) : W * gmap string string * option error :=
  match order with
  | [] => (w, vars, None)
  | name :: rest =>
    match vars !! name with
    | Some _ => resolve_vars specs rest vars w
    | None =>
      match generateVar (spec_of specs name) vars w with
      | (w, inl err) => (w, vars, Some (if bool_decide (err = makeslice_panic) then err else Wrapf "generate %s: %w" [name] err))
      | (w, inr val) => resolve_vars specs rest (<[name := val]> vars) w
      end
    end
  end.

(** [None]: the sort ran out of fuel. *)
Definition resolveVarSpecs (R : MapRange) (ext : option MortiseExtension)
    (vars : gmap string string) (w : W) : option (W * gmap string string * option error) :=
  match ext with
  | None => Some (w, vars, None)
  | Some ext =>
    let specs := MortiseExtension_Variables ext in
    if (size specs =? 0)%nat then Some (w, vars, None)
    else match topoSortVars R specs with
         | None => None
         | Some (inl err) => Some (w, vars, Some err)
         | Some (inr order) => Some (resolve_vars specs order vars w)
         end
  end.
End generate.

(** ** Correctness of the sort *)

(** [name] is signed with [d], another declared variable. *)
Definition signed_with (specs : gmap string VarSpec) (name d : string) : Prop :=
  ∃ s, specs !! name = Some s ∧ VarSpec_SignWith s = d ∧ d ≠ "" ∧ is_Some (specs !! d).

Section sorted.
Context (specs : gmap string VarSpec).
Local Abbreviation dep := (signed_with specs).

Record visits_ok (st : visits) : Prop := {
  vo_order : topological dep (order st);
  vo_visited n : n ∈ visited st ↔ n ∈ order st;
  vo_declared : visited st ⊆ dom specs;
  vo_stack : onStack st ⊆ dom specs;
  vo_disjoint : onStack st ## visited st;
}.

Lemma no_visits_ok : visits_ok no_visits.
Proof. split; [apply topological_nil|set_solver..]. Qed.

Lemma push_ok name st :
  visits_ok st → is_Some (specs !! name) → name ∉ visited st → visits_ok (push name st).
Proof.
  intros [Ho Hv Hd Hs Hx] Hn%elem_of_dom Hnv. split; simpl; [done..|set_solver|set_solver].
Qed.

Lemma finish_ok name st :
  visits_ok st → name ∈ onStack st → (∀ d, dep name d → d ∈ visited st) →
  visits_ok (finish name st).
Proof.
  intros [Ho Hv Hd Hs Hx] Hn Hdep. split; simpl.
  - apply topological_snoc; [done| |].
    + rewrite <-Hv. set_solver.
    + intros d Hd'. apply Hv. by apply Hdep.
  - set_solver.
  - set_solver.
  - set_solver.
  - set_solver.
Qed.

(** What one visit does: the name and what was visited before are visited, and the stack
    is as it was; or there is a cycle. *)
Definition visit_post (name : string) (st : visits) (r : option (error + visits)) : Prop :=
  (∃ st', r = Some (inr st') ∧ visits_ok st' ∧ onStack st' = onStack st ∧
     visited st ⊆ visited st' ∧ name ∈ visited st') ∨
  (∃ err, r = Some (inl err) ∧ cyclic dep).

Lemma visit_spec fuel name st :
  visits_ok st → is_Some (specs !! name) → (∀ n, n ∈ onStack st → tc dep n name) →
  (size (dom specs) - size (onStack st) < fuel)%nat →
  visit_post name st (visit specs fuel name st).
Proof.
  revert name st. induction fuel as [|fuel IH]; [lia|]. intros name st Hok Hn Hpath Hfuel. simpl.
  case_bool_decide as Hs; [right; eexists; split; [done|]; exists name; by apply Hpath|].
  case_bool_decide as Hv; [left; by exists st|].
  assert (Hn' := Hn). destruct Hn' as [s Es].
  assert (spec_of specs name = s) as -> by (unfold spec_of; by rewrite Es).
  pose proof (push_ok name st Hok Hn Hv) as Hok'.
  destruct (negb (String.eqb (VarSpec_SignWith s) "") &&
            bool_decide (is_Some (specs !! VarSpec_SignWith s))) eqn:Eb.
  - apply andb_true_iff in Eb as [Ene Ed%bool_decide_eq_true].
    apply negb_true_iff, String.eqb_neq in Ene.
    assert (dep name (VarSpec_SignWith s)) as Hdep by by exists s.
    destruct (IH (VarSpec_SignWith s) (push name st)) as [(st' & -> & Hok2 & Hst & Hsub & Hin)|Hc];
      [done|done| | | |].
    + intros n. simpl. rewrite elem_of_union, elem_of_singleton. intros [->|Hn'].
      * by apply tc_once.
      * eapply tc_r; [by apply Hpath|done].
    + simpl. apply stack_fuel; [apply Hok|by apply elem_of_dom|done|done].
    + left. eexists. split; [done|]. simpl in Hst, Hsub. split.
      * apply finish_ok; [done|set_solver|]. intros d (s' & Es' & <- & _). by simplify_eq.
      * simpl. set_solver.
    + right. destruct Hc as (err & -> & Hc). by exists err.
  - left. eexists. split; [done|]. split.
    + apply finish_ok; [done|simpl; set_solver|]. intros d (s' & Es' & <- & Hne & Hd). simplify_eq.
      by rewrite bool_decide_true, andb_true_r, negb_false_iff, String.eqb_eq in Eb by done.
    + simpl. set_solver.
Qed.

Lemma visit_each_spec fuel names st :
  visits_ok st → onStack st = ∅ → (∀ n, n ∈ names → is_Some (specs !! n)) →
  (size (dom specs) < fuel)%nat →
  (∃ st', each (visit specs fuel) names st = Some (inr st') ∧ visits_ok st' ∧
     visited st ⊆ visited st' ∧ ∀ n, n ∈ names → n ∈ visited st') ∨
  (∃ err, each (visit specs fuel) names st = Some (inl err) ∧ cyclic dep).
Proof.
  revert st. induction names as [|name names IH]; intros st Hok Hst Hn Hf; cbn [each].
  { left. exists st. split; [done|]. split; [done|]. split; [done|]. by intros n ?%elem_of_nil. }
  destruct (visit_spec fuel name st) as [(st1 & -> & Hok1 & Hst1 & Hsub & Hin)|(err & -> & Hc)];
    [done|by apply Hn; left|rewrite Hst; set_solver|rewrite Hst, size_empty; lia| |].
  - destruct (IH st1) as [(st2 & -> & Hok2 & Hsub2 & Hin2)|Hc]; [done|by rewrite Hst1| |done| |].
    + intros n ?. by apply Hn; right.
    + left. exists st2. split; [done|]. split; [done|]. split; [set_solver|].
      intros n [->|?]%elem_of_cons; [set_solver|by apply Hin2].
    + by right.
  - right. by exists err.
Qed.
End sorted.

Lemma topoSortVars_visits R `{!MapRangeOk R} specs :
  (∃ st, topoSortVars R specs = Some (inr (order st)) ∧ visits_ok specs st ∧
     ∀ n, n ∈ order st ↔ is_Some (specs !! n)) ∨
  (∃ err, topoSortVars R specs = Some (inl err) ∧ cyclic (signed_with specs)).
Proof.
  unfold topoSortVars.
  destruct (visit_each_spec specs (S (size specs)) (range specs).*1 no_visits)
    as [(st & -> & Hok & _ & Hin)|(err & -> & Hc)].
  - apply no_visits_ok.
  - done.
  - intros n ([k v] & -> & Hk)%list_elem_of_fmap. apply elem_of_range in Hk. by exists v.
  - rewrite size_dom. lia.
  - left. exists st. split; [done|]. split; [done|]. intros n. destruct Hok as [_ Hv Hd _ _].
    rewrite <-Hv. split; [intros Hn%Hd; by apply elem_of_dom|].
    intros [v Hk]. apply Hin, list_elem_of_fmap. exists (n, v). split; [done|]. by apply elem_of_range.
  - right. by exists err.
Qed.

(** [topoSortVars] terminates; it lists every variable once, after the variable
    that signs it, or it reports a cycle, and it does so exactly when there is one. *)
Theorem topoSortVars_spec R `{!MapRangeOk R} specs :
  (∃ order, topoSortVars R specs = Some (inr order) ∧
     topological (signed_with specs) order ∧ (∀ n, n ∈ order ↔ is_Some (specs !! n)) ∧
     ¬ cyclic (signed_with specs)) ∨
  (∃ err, topoSortVars R specs = Some (inl err) ∧ cyclic (signed_with specs)).
Proof.
  destruct (topoSortVars_visits R specs) as [(st & Hst & Hok & Hall)|?]; [left|by right].
  destruct Hok as [Ho _ _ _ _]. exists (order st). do 3 (split; [done|]).
  intros [n Hn]. eapply topological_acyclic; [done| |done]. apply Hall.
  by inversion Hn as [? ? (s & Hs & _)|? ? ? (s & Hs & _)]; exists s.
Qed.

(** ** Correctness of the generation *)

(** The documented behaviour of [io.ReadFull]: a read that succeeds gives the bytes asked
    for. *)
Class ReadFullOk {W} (ReadFull : Z → W → W * (error + list N)) : Prop :=
  read_full n w w' b : (0 ≤ n)%Z → ReadFull n w = (w', inr b) →
    Z.of_nat (length b) = n ∧ Forall (λ x, (x < 256)%N) b.

Section generated.
Context {W : Type} (ReadFull : Z → W → W * (error + list N)) {HR : ReadFullOk ReadFull}
  (Now : W → W * Z) (SignedString : gmap string any → string → error + string).

(** [value] is what the spec asks for, given the values of all variables: the start of the
    hexadecimal form of bytes of the random source, or a signed token. *)
Definition generated (vars : gmap string string) (spec : VarSpec) (value : string) : Prop :=
  let len := VarSpec_Length spec in
  if String.eqb (VarSpec_Generate spec) "jwt" then
    ∃ secret w1 w2, vars !! VarSpec_SignWith spec = Some secret ∧
      SignedString (jwt_claims (Now w1).2 (Now w2).2 (VarSpec_Claims spec)) secret = inr value
  else Z.of_nat (String.length value) = (if (len <=? 0)%Z then 32 else len)%Z ∧
       sall Sha256.is_hex value = true ∧
       ∃ n w1 w2 b, ReadFull n w1 = (w2, inr b) ∧ has_prefix value (Sha256.hex_encode b) = true.

Lemma generated_mono vars vars' spec value :
  vars ⊆ vars' → generated vars spec value → generated vars' spec value.
Proof.
  unfold generated. intros Hsub. destruct (String.eqb _ _); [|done].
  intros (secret & w1 & w2 & Hs & H). exists secret, w1, w2. split; [|done].
  by eapply lookup_weaken.
Qed.

Lemma sall_str_take p n s : sall p s = true → sall p (str_take n s) = true.
Proof.
  revert n. induction s as [|c s IH]; intros [|n]; simpl; [done..|].
  intros [-> H]%andb_true_iff. by apply IH.
Qed.

Lemma generateHex_spec len w w' v :
  (0 < len < max_int64)%Z → generateHex ReadFull len w = (w', inr v) →
  Z.of_nat (String.length v) = len ∧ sall Sha256.is_hex v = true ∧
  ∃ n w1 w2 b, ReadFull n w1 = (w2, inr b) ∧ has_prefix v (Sha256.hex_encode b) = true.
Proof.
  intros Hlen. unfold generateHex.
  assert (wrap64 (len + 1) = len + 1)%Z as ->.
  { unfold wrap64, max_int64 in *. rewrite Z.mod_small; lia. }
  destruct (_ || _); [done|]. destruct (ReadFull _ w) as [w1 [err|b]] eqn:Er; [done|]. intros [= <- <-].
  assert (0 ≤ Z.quot (len + 1) 2)%Z as Hq by (apply Z.quot_pos; lia).
  destruct (HR _ _ _ _ Hq Er) as [Hb H256].
  assert (len ≤ 2 * Z.of_nat (length b))%Z as Hle.
  { rewrite Hb. pose proof (Z.quot_rem' (len + 1) 2).
    pose proof (Z.rem_bound_pos (len + 1) 2). lia. }
  split; [|split; [by apply sall_str_take, Sha256.hex_encode_sall|]].
  2: { exists (Z.quot (len + 1) 2), w, w1, b. split; [done|]. apply has_prefix_spec. exists (str_drop (Z.to_nat len) (Sha256.hex_encode b)).
       symmetry. apply str_take_drop. }
  rewrite str_take_length, Sha256.hex_encode_length. lia.
Qed.

Lemma generateVar_spec spec vars w w' v :
  (VarSpec_Length spec < max_int64)%Z ∨ VarSpec_Generate spec = "jwt" →
  generateVar ReadFull Now SignedString spec vars w = (w', inr v) → generated vars spec v.
Proof.
  intros Hlen. unfold generateVar, generated.
  destruct (String.eqb (VarSpec_Generate spec) "hex" || String.eqb (VarSpec_Generate spec) "") eqn:Eh.
  - assert (String.eqb (VarSpec_Generate spec) "jwt" = false) as ->.
    { apply orb_true_iff in Eh as [->%String.eqb_eq| ->%String.eqb_eq]; done. }
    destruct Hlen as [Hlen|Hg]; [|by rewrite Hg in Eh].
    apply generateHex_spec. unfold max_int64 in *. destruct (Z.leb_spec (VarSpec_Length spec) 0); lia.
  - destruct (String.eqb _ "jwt"); [|by intros]. destruct (String.eqb (VarSpec_SignWith spec) ""); [by intros|].
    destruct (vars !! _) as [secret|] eqn:Es; [|by intros]. unfold generateJWT.
    destruct (Now w) as [w1 iat] eqn:E1, (Now w1) as [w2 exp] eqn:E2. intros [= <- Hv]. exists secret, w, w1.
    split; [done|]. by rewrite E1, E2.
Qed.

(** Of a length that does not overflow, or signed. *)
Definition of_length (s : VarSpec) : Prop := (VarSpec_Length s < max_int64)%Z ∨ VarSpec_Generate s = "jwt".

Lemma resolve_vars_values specs l vars w w' vars' r :
  (∀ name s, specs !! name = Some s → vars !! name = None → of_length s) →
  resolve_vars ReadFull Now SignedString specs l vars w = (w', vars', r) →
  vars ⊆ vars' ∧ (dom vars' ⊆ dom vars ∪ list_to_set l) ∧
  (r = None → ∀ name, name ∈ l → vars !! name = None →
     ∃ v, vars' !! name = Some v ∧ generated vars' (spec_of specs name) v).
Proof.
  revert vars w. induction l as [|name l IH]; intros vars w Hlen; simpl.
  { intros [= <- <- <-]. split; [done|]. split; [set_solver|]. by intros _ n ?%elem_of_nil. }
  destruct (vars !! name) as [v0|] eqn:Ev.
  { intros (Hs & Hd & H)%IH; [|done]. split; [done|]. split; [set_solver|].
    intros Hr n [->|Hn]%elem_of_cons Hnone; [congruence|by apply H]. }
  destruct (generateVar _ _ _ _ _ w) as [w1 [err|v]] eqn:Eg.
  { intros [= <- <- <-]. split; [done|]. split; [set_solver|]. done. }
  intros (Hs & Hd & H)%IH; [|intros m s Hm [Hn _]%lookup_insert_None; by eapply Hlen]. apply generateVar_spec in Eg.
  2:{ unfold spec_of. destruct (specs !! name) as [s|] eqn:Es; [by eapply Hlen|by left]. }
  assert (vars ⊆ vars') as Hsub by (etrans; [by apply insert_subseteq|done]).
  split; [done|]. split; [set_solver|]. intros Hr n Hn Hnone.
  destruct (decide (n = name)) as [->|Hne].
  - exists v. split; [|by eapply generated_mono]. eapply (lookup_weaken (<[name := v]> vars)); [|done]. by rewrite lookup_insert_eq.
  - apply H; [done|set_solver|by rewrite lookup_insert_ne].
Qed.

(** Whatever happens, variables that were given keep their values; and when no
    error is reported, every declared variable that was not given has the value its spec
    asks for: a hexadecimal string of the length, or a token signed with the final value
    of the variable it names. *)
Theorem resolveVarSpecs_spec R `{!MapRangeOk R} ext vars w :
  let specs := MortiseExtension_Variables ext in
  (∀ name s, specs !! name = Some s → VarSpec_Length s < max_int64)%Z →
  ∃ w' vars' r, resolveVarSpecs ReadFull Now SignedString R (Some ext) vars w = Some (w', vars', r) ∧
    vars ⊆ vars' ∧ dom vars' ⊆ dom vars ∪ dom specs ∧
    (r = None → ∀ name s, specs !! name = Some s → vars !! name = None →
       ∃ v, vars' !! name = Some v ∧ generated vars' s v).
Proof.
  intros specs Hlen. unfold resolveVarSpecs. fold specs.
  destruct (Nat.eqb_spec (size specs) 0) as [Hz|_].
  { exists w, vars, None. split; [done|]. split; [done|]. split; [set_solver|].
    intros _ name s Hs. apply map_size_empty_inv in Hz. by rewrite Hz, lookup_empty in Hs. }
  destruct (topoSortVars_visits R specs) as [(st & -> & _ & Hall)|(err & -> & _)].
  - destruct (resolve_vars _ _ _ specs (order st) vars w) as [[w' vars'] r] eqn:Er.
    apply resolve_vars_values in Er as (Hs & Hd & H).
    + exists w', vars', r. split; [done|]. split; [done|]. split.
      * etrans; [done|]. intros n. rewrite !elem_of_union, elem_of_list_to_set, Hall, !elem_of_dom. done.
      * intros Hr name s Hname Hnone. specialize (H Hr name). unfold spec_of in H.
        rewrite Hname in H. apply H; [|done]. apply Hall. by exists s.
    + intros name s Hname _. left. by eapply Hlen.
  - exists w, vars, (Some err). split; [done|]. split; [done|]. split; [set_solver|done].
Qed.
End generated.

(** ** Progress *)

Section progress.
Context {W : Type} (ReadFull : Z → W → W * (error + list N)) {HR : ReadFullOk ReadFull} (Now : W → W * Z)
  (SignedString : gmap string any → string → error + string).
(** The random source does not fail. *)
Context (reads : ∀ n w, (0 ≤ n)%Z → ∃ w' b, ReadFull n w = (w', inr b)).

(** A spec with a known generator: of a length the runtime allocates, or with claims that
    can be signed and a secret that is declared or given. *)
Definition spec_usable (specs : gmap string VarSpec) (vars : gmap string string) (s : VarSpec) : Prop :=
  (VarSpec_Generate s = "hex" ∨ VarSpec_Generate s = "") ∧ (VarSpec_Length s ≤ 2 ^ 48)%Z ∨
  VarSpec_Generate s = "jwt" ∧ VarSpec_SignWith s ≠ "" ∧
  (is_Some (specs !! VarSpec_SignWith s) ∨ is_Some (vars !! VarSpec_SignWith s)) ∧
  ∀ iat exp secret, ∃ token, SignedString (jwt_claims iat exp (VarSpec_Claims s)) secret = inr token.

Lemma generateHex_progress n w : (0 < n ≤ 2 ^ 48)%Z → ∃ w' v, generateHex ReadFull n w = (w', inr v).
Proof using reads.
  intros Hn. unfold generateHex.
  assert (wrap64 (n + 1) = n + 1)%Z as -> by (apply wrap64_id, in_int64_spec; unfold min_int64, max_int64; lia).
  assert (0 ≤ Z.quot (n + 1) 2 ≤ maxAlloc)%Z as [H1 H2].
  { split; [apply Z.quot_pos; lia|]. pose proof (Z.quot_rem' (n + 1) 2). pose proof (Z.rem_bound_pos (n + 1) 2). unfold maxAlloc. lia. }
  rewrite (proj2 (Z.ltb_ge _ _) H1), (proj2 (Z.ltb_ge _ _) H2). cbn [orb].
  destruct (reads (Z.quot (n + 1) 2) w H1) as (w' & b & ->). by eauto.
Qed.

Lemma generateVar_progress specs vars0 s vars w :
  spec_usable specs vars0 s →
  (VarSpec_Generate s = "jwt" → is_Some (vars !! VarSpec_SignWith s)) →
  ∃ w' v, generateVar ReadFull Now SignedString s vars w = (w', inr v).
Proof using reads.
  unfold generateVar. intros [[Hg Hlen]|(Hg & Hne & _ & Hsig)] Hd.
  - assert (String.eqb (VarSpec_Generate s) "hex" || String.eqb (VarSpec_Generate s) "" = true) as -> by (by destruct Hg as [->| ->]).
    apply generateHex_progress. destruct (Z.leb_spec (VarSpec_Length s) 0); lia.
  - rewrite Hg. simpl. apply String.eqb_neq in Hne as ->. destruct (Hd Hg) as [secret ->]. unfold generateJWT.
    destruct (Now w) as [w1 iat], (Now w1) as [w2 exp].
    destruct (Hsig iat exp secret) as [token ->]. by eauto.
Qed.

Lemma resolve_vars_progress specs vars0 done l vars w :
  topological (signed_with specs) (done ++ l) →
  (∀ n, n ∈ done → is_Some (vars !! n)) → vars0 ⊆ vars →
  (∀ n, n ∈ l → ∃ s, specs !! n = Some s ∧ (vars !! n = None → spec_usable specs vars0 s)) →
  ∃ w' vars', resolve_vars ReadFull Now SignedString specs l vars w = (w', vars', None).
Proof.
  revert done vars w. induction l as [|n l IH]; intros done vars w Ht Hdone Hsub Hl; simpl;
    [by eauto|].
  assert (∀ vars' w', vars ⊆ vars' → is_Some (vars' !! n) →
    ∃ w'' vars'', resolve_vars ReadFull Now SignedString specs l vars' w' = (w'', vars'', None)) as Hnext.
  { intros vars' w' Hsub' Hn. apply (IH (done ++ [n])).
    - by rewrite <-app_assoc.
    - intros m [Hm| ->%list_elem_of_singleton]%elem_of_app; [|done].
      destruct (Hdone m Hm) as [v Hv]. exists v. by eapply lookup_weaken.
    - by etrans.
    - intros m Hm. destruct (Hl m) as (s & Hs & Hu); [by right|]. exists s. split; [done|].
      intros Hnone. apply Hu. by eapply lookup_weaken_None. }
  destruct (vars !! n) as [v|] eqn:Ev; [by apply Hnext|].
  destruct (Hl n) as (s & Hs & Hu); [by left|]. unfold spec_of. rewrite Hs. simpl.
  destruct (generateVar_progress specs vars0 s vars w) as (w1 & v & ->).
  - by apply Hu.
  - intros Hg. destruct (Hu Ev) as [[[?|?] _]|(_ & Hne & Hd & _)]; [congruence..|]. destruct Hd as [Hd|[v Hv]].
    + apply Hdone. destruct Ht as [_ Ht]. eapply Ht; [done|]. by exists s.
    + exists v. by eapply lookup_weaken.
  - apply Hnext; [by apply insert_subseteq|]. rewrite lookup_insert_eq. by eexists.
Qed.

(** C39: generation succeeds whenever it can, and gives every variable what its spec asks
    for.  When no variable depends on itself and every variable that is not given has a
    known generator, a length the runtime allocates or claims that can be signed, and a
    signing key that is declared or given, then no error is reported: what was given is
    kept, every declared variable has a value and nothing else has; a variable that was not
    given is the hexadecimal form of random bytes in its length, or a token of its claims signed with the
    final value of the variable it names, at a time the clock showed. *)
Theorem resolveVarSpecs_succeeds R `{!MapRangeOk R} ext vars w :
  let specs := MortiseExtension_Variables ext in
  ¬ cyclic (signed_with specs) →
  (∀ name s, specs !! name = Some s → vars !! name = None → spec_usable specs vars s) →
  ∃ w' vars', resolveVarSpecs ReadFull Now SignedString R (Some ext) vars w = Some (w', vars', None) ∧
    vars ⊆ vars' ∧ dom vars' = dom vars ∪ dom specs ∧
    ∀ name s, specs !! name = Some s → vars !! name = None →
      ∃ v, vars' !! name = Some v ∧ generated ReadFull Now SignedString vars' s v.
Proof using HR reads.
  intros specs Hacyclic Hu. unfold resolveVarSpecs. fold specs.
  destruct (Nat.eqb_spec (size specs) 0) as [Hz|_].
  { apply map_size_empty_inv in Hz. exists w, vars. split; [done|]. split; [done|]. rewrite Hz. split; [set_solver|].
    intros name s. by rewrite lookup_empty. }
  destruct (topoSortVars_visits R specs) as [(st & -> & Hok & Hall)|(err & _ & ?)]; [|done].
  destruct Hok as [Ho _ _ _ _].
  destruct (resolve_vars_progress specs vars [] (order st) vars w) as (w' & vars' & Hr); [done|..].
  - by intros n ?%elem_of_nil.
  - done.
  - intros n Hn. apply Hall in Hn as [s Hs]. exists s. eauto.
  - exists w', vars'. split; [by rewrite Hr|]. destruct (resolve_vars_values ReadFull Now SignedString specs (order st) vars w w' vars' None) as (Hsub & Hdom & Hval).
    + intros name s Hs Hn. destruct (Hu name s Hs Hn) as [[_ Hlen]|(Hg & _)]; [left|by right]. unfold max_int64. lia.
    + done.
    + split; [done|]. assert (∀ name s, specs !! name = Some s → vars !! name = None →
        ∃ v, vars' !! name = Some v ∧ generated ReadFull Now SignedString vars' s v) as Hv.
      { intros name s Hs Hn. specialize (Hval eq_refl name). unfold spec_of in Hval. rewrite Hs in Hval. apply Hval; [|done].
        apply Hall. by exists s. }
      split; [|exact Hv]. apply set_eq. intros name. rewrite elem_of_union. split.
      * intros Hn%Hdom%elem_of_union. rewrite elem_of_list_to_set, Hall in Hn. by rewrite (elem_of_dom specs).
      * intros [Hn|[s Hs]%elem_of_dom]; [by eapply subseteq_dom|]. apply elem_of_dom.
        destruct (vars !! name) as [v|] eqn:Ev; [exists v; by eapply lookup_weaken|]. destruct (Hv name s Hs Ev) as (v & -> & _). done.
Qed.
End progress.

(** ** Runs *)

Module VarGenRuns.

(** A counter as the entropy source and the clock, and a readable token. *)
Definition read (n : Z) (w : N) : N * (error + list N) :=
  (N.succ w, inr (replicate (Z.to_nat n) (N.modulo w 256))).
Definition clock (w : N) : N * Z := (w, (1700000000 * 1000000000)%Z).
Definition token (claims : gmap string any) (secret : string) : error + string :=
  inr ("signed-with-" +:+ secret).

#[export] Instance read_ok : ReadFullOk read.
Proof.
  intros n w w' b Hn. unfold read. intros [= <- <-]. rewrite length_replicate. split; [lia|].
  apply Forall_replicate, N.mod_lt. done.
Qed.

Definition hex_spec (len : Z) : VarSpec :=
  {| VarSpec_Generate := "hex"; VarSpec_Length := len; VarSpec_Claims := []; VarSpec_SignWith := "" |}.
Definition jwt_spec (key : string) : VarSpec :=
  {| VarSpec_Generate := "jwt"; VarSpec_Length := 0;
     VarSpec_Claims := [("role", AnyString "anon")]; VarSpec_SignWith := key |}.

Definition ext : MortiseExtension :=
  {| MortiseExtension_Variables :=
       {["ANON_KEY" := jwt_spec "JWT_SECRET"; "JWT_SECRET" := hex_spec 5]} |}.

Abbreviation R := range_sorted_order.

Lemma ext_specs name s :
  MortiseExtension_Variables ext !! name = Some s → s = jwt_spec "JWT_SECRET" ∨ s = hex_spec 5.
Proof.
  cbn [ext MortiseExtension_Variables].
  rewrite lookup_insert_Some, lookup_singleton_Some. intuition.
Qed.

Example vars_generated :
  resolveVarSpecs read clock token R (Some ext) ∅ 171%N =
  Some (172%N, {["ANON_KEY" := "signed-with-ababa"; "JWT_SECRET" := "ababa"]}, None).
Proof. vm_compute. reflexivity. Qed.

Example cycle_reported :
  topoSortVars R {["A" := jwt_spec "B"; "B" := jwt_spec "A"]} =
  Some (inl (Errorf "circular dependency on variable %q" ["A"])).
Proof. reflexivity. Qed.

Lemma topoSortVars_spec_witness :
  let specs := MortiseExtension_Variables ext in
  (∃ order, topoSortVars R specs = Some (inr order) ∧
     topological (signed_with specs) order ∧ (∀ n, n ∈ order ↔ is_Some (specs !! n)) ∧
     ¬ cyclic (signed_with specs)) ∨
  (∃ err, topoSortVars R specs = Some (inl err) ∧ cyclic (signed_with specs)).
Proof. apply (topoSortVars_spec R). Defined.

Lemma resolveVarSpecs_spec_witness :
  let specs := MortiseExtension_Variables ext in
  ∃ w' vars' r, resolveVarSpecs read clock token R (Some ext) ∅ 171%N = Some (w', vars', r) ∧
    ∅ ⊆ vars' ∧ dom vars' ⊆ dom (∅ : gmap string string) ∪ dom specs ∧
    (r = None → ∀ name s, specs !! name = Some s → (∅ : gmap string string) !! name = None →
       ∃ v, vars' !! name = Some v ∧ generated read clock token vars' s v).
Proof.
  apply (resolveVarSpecs_spec read clock token R ext ∅).
  intros name s [-> | ->]%ext_specs; reflexivity.
Defined.

Lemma acyclic_ext : ¬ cyclic (signed_with (MortiseExtension_Variables ext)).
Proof.
  destruct (topoSortVars_visits R (MortiseExtension_Variables ext)) as [(st & H & Hok & Hall)|(err & H & _)];
    [|by vm_compute in H].
  destruct Hok as [Ho _ _ _ _]. intros [n Hn]. eapply topological_acyclic; [done| |done]. apply Hall.
  by inversion Hn as [? ? (s & Hs & _)|? ? ? (s & Hs & _)]; exists s.
Qed.

Lemma resolveVarSpecs_succeeds_witness :
  ∃ w' vars', resolveVarSpecs read clock token R (Some ext) ∅ 171%N = Some (w', vars', None) ∧
    ∃ v, vars' !! "ANON_KEY" = Some v ∧ generated read clock token vars' (jwt_spec "JWT_SECRET") v.
Proof.
  destruct (resolveVarSpecs_succeeds read clock token (λ n w _, ex_intro _ _ (ex_intro _ _ eq_refl)) R ext ∅ 171%N acyclic_ext)
    as (w' & vars' & H & _ & _ & Hv).
  - intros name s [-> | ->]%ext_specs _.
    + right. split; [reflexivity|]. split; [discriminate|]. split; [left; by eexists|]. intros iat exp secret. by eexists.
    + left. split; [by left|]. apply Z.leb_le. reflexivity.
  - exists w', vars'. split; [exact H|]. apply Hv; reflexivity.
Defined.

(** A length that overflows, and one that no memory holds. *)
Example length_panics :
  (λ n, (generateHex read n 0%N).2) <$> [max_int64; 2 ^ 60]%Z = [inl makeslice_panic; inl makeslice_panic].
Proof. reflexivity. Qed.
End VarGenRuns.
