(* ===== verification/Compose.v ===== *)
(** * Compose files: [internal/api/compose.go]

    A docker-compose file becomes a list of app specs in dependency order.  The YAML
    library is a parameter: the file arrives as decoded structs. *)

From S2P Require Import Prelude GoStrings GoNum GoText GoUrl Kube Api VarGen.

Record ComposeHealthCheck := {
  ComposeHealthCheck_Test : any;
  ComposeHealthCheck_Interval : string;
  ComposeHealthCheck_Timeout : string;
  ComposeHealthCheck_Retries : Z;
}.

Record ComposeResourceSpec := {
  ComposeResourceSpec_Memory : string;
  ComposeResourceSpec_CPUs : string;
}.

Record ComposeResources := {
  ComposeResources_Limits : option ComposeResourceSpec;
  ComposeResources_Reservations : option ComposeResourceSpec;
}.

Record ComposeDeploy := { ComposeDeploy_Resources : option ComposeResources }.

Record ComposeService := {
  ComposeService_Image : string;
  ComposeService_Ports : list string;
  ComposeService_Environment : any;
  ComposeService_DependsOn : any;
  ComposeService_Restart : string;
  ComposeService_Command : any;
  ComposeService_Volumes : list string;
  ComposeService_Deploy : option ComposeDeploy;
  ComposeService_HealthCheck : option ComposeHealthCheck;
}.

Record ComposeFile := { ComposeFile_Services : gmap string ComposeService }.

(** [yaml.Unmarshal] into the struct is a parameter. *)
Definition parseCompose (yaml_Unmarshal_compose : string → error + ComposeFile) (yamlStr : string)
    : error + ComposeFile :=
  match yaml_Unmarshal_compose yamlStr with
  | inl err => inl (Wrapf "invalid compose YAML: %w" [] err)
  | inr cf => if (size (ComposeFile_Services cf) =? 0)%nat
              then inl (Errorf "compose file has no services" []) else inr cf
  end.

Record appSpec := {
  as_Name : string;
  as_Spec : AppSpec;
  as_DepsOn : list string;
  as_IsInit : bool;
  as_Service : string;
}.

(** ** Fields *)

Definition strings_in (l : list any) : list string :=
  omap (λ v, match v with AnyString s => Some s | _ => None end) l.

Definition parseDependsOn (v : any) : list string :=
  match v with
  | AnySlice l => strings_in l
  | AnyMap m => sort_strings m.*1
  | _ => []
  end.

Definition max_int32 : Z := (2 ^ 31 - 1)%Z.
Definition min_int32 : Z := (- 2 ^ 31)%Z.

(** [strconv.ParseInt(s, 10, 32)] *)
Definition ParseInt32 (s : string) : error + Z :=
  match atoi s with
  | None => inl (Errorf "strconv.ParseInt: parsing %q: invalid syntax" [s])
  | Some n => if (min_int32 <=? n)%Z && (n <=? max_int32)%Z then inr n
              else inl (Errorf "strconv.ParseInt: parsing %q: value out of range" [s])
  end.

Definition parsePort (portStr : string) : error + Z :=
  let target := default "" (last (split ":"%char portStr)) in
  let target := default "" (head (split "/"%char target)) in
  ParseInt32 target.

(** [fmt.Sprintf("%v", v)]: the keys of a map in order. *)
Fixpoint sprint (v : any) : string :=
  match v with
  | AnyNil => "<nil>"
  | AnyBool b => if b then "true" else "false"
  | AnyInt n => itoa n
  | AnyString s => s
  | AnySlice l => "[" +:+ join " " (map sprint l) +:+ "]"
  | AnyMap m => "map[" +:+ join " " ((λ p, p.1 +:+ ":" +:+ p.2) <$>
                  sort_by fst (map (λ p, (p.1, sprint p.2)) m)) +:+ "]"
  | AnyOther text => text
  end.

Definition env_literal (name value : string) : EnvVar :=
  {| EnvVar_Name := name; EnvVar_Value := value; EnvVar_ValueFrom := None |}.

Definition parseEnvironment (v : any) : list EnvVar :=
  match v with
  | AnyMap m =>
    (λ k, env_literal k (sprint (default AnyNil (member k m)))) <$> sort_strings m.*1
  | AnySlice l =>
    (λ s, let '(k, v, _) := cut "="%char s in env_literal k v) <$> strings_in l
  | _ => []
  end.

Definition isNamedVolume (hostPath : string) : bool :=
  negb (String.eqb hostPath "") && negb (has_prefix "/" hostPath) &&
  negb (has_prefix "./" hostPath) && negb (has_prefix "../" hostPath).

(** Converting a float out of the range of [int] depends on the machine. *)
Definition convertComposeCPU (machine : float64 → Z) (cpus : string) : string :=
  if String.eqb cpus "" then ""
  else match ParseFloat cpus with
       | None => ""
       | Some v => sprintf "%dm" [itoa (int_of_float machine (fmul v (float_of_int 1000)))]
       end.

Definition memory_suffixes : list (string * string) :=
  [("Gi", "Gi"); ("Mi", "Mi"); ("Ki", "Ki"); ("G", "Gi"); ("M", "Mi"); ("K", "Ki");
   ("g", "Gi"); ("m", "Mi"); ("k", "Ki")].

Definition convertComposeMemory (mem : string) : string :=
  if String.eqb mem "" then ""
  else match List.find (λ p, has_suffix p.1 mem) memory_suffixes with
       | Some (from, to) => trim_suffix from mem +:+ to
       | None => mem
       end.

(** ** Health checks *)

Definition composeTestString (v : any) : string :=
  match v with
  | AnyString s => s
  | AnySlice l =>
    join " " (List.filter (λ s, negb (String.eqb s "CMD") && negb (String.eqb s "CMD-SHELL"))
                (strings_in l))
  | _ => ""
  end.

(** The path of the first URL with the prefix; [None] when the prefix does not occur. *)
Definition path_after (cmd prefix : string) : option string :=
  match index_str prefix cmd with
  | None => None
  | Some idx =>
    let url := str_drop (idx + String.length prefix) cmd in
    let url := match url with String ":" url' => trim_left is_digit url' | _ => url end in
    match url with
    | String "/" _ =>
      let stop c := Ascii.eqb c " "%char || Ascii.eqb c (Json.chr 9) || Ascii.eqb c (Json.chr 34) ||
                    Ascii.eqb c "'"%char in
      Some (match index_any stop url with
            | Some (S n) => str_take (S n) url
            | _ => url
            end)
    | _ => Some "/"
    end
  end.

Definition extractHTTPPath (cmd : string) : string :=
  match path_after cmd "http://localhost" with
  | Some path => path
  | None => default "" (path_after cmd "http://127.0.0.1")
  end.

Definition composeHealthToProbe (hc : option ComposeHealthCheck) : option ProbeConfig :=
  match hc with
  | None => None
  | Some hc =>
    let test := composeTestString (ComposeHealthCheck_Test hc) in
    if String.eqb test "" then None
    else if negb (contains "curl" test) && negb (contains "wget" test) then None
    else
      let path := extractHTTPPath test in
      if String.eqb path "" then None else Some (with_ProbeConfig_Path path ProbeConfig_zero)
  end.

(** ** Dependency order *)

(** [visited]: 0 unvisited, 1 in progress, 2 done. *)
Definition sort_state : Type := gmap string nat * list appSpec.

(** [None]: out of fuel. *)
Fixpoint visit_service (specs : gmap string appSpec) (fuel : nat) (name : string) (st : sort_state)
    : option (error + sort_state) :=
  match fuel with
  | O => None
  | S fuel =>
    match default 0 (st.1 !! name) with
    | 2 => Some (inr st)
    | 1 => Some (inl (Errorf "circular dependency involving %q" [name]))
    | _ =>
      match specs !! name with
      | None => Some (inl (Errorf "unknown service dependency %q" [name]))
      | Some spec =>
        match each (visit_service specs fuel) (as_DepsOn spec) (<[name := 1]> st.1, st.2) with
        | Some (inr (visited, result)) => Some (inr (<[name := 2]> visited, result ++ [spec]))
        | r => r
        end
      end
    end
  end.

(** A path of services in progress is no longer than their number; one more call meets
    the cycle or the unknown name. *)
Definition topoSort (R : MapRange) (specs : gmap string appSpec) : option (error + list appSpec) :=
  match each (visit_service specs (S (size specs))) (sort_strings (range specs).*1) (∅, []) with
  | Some (inr st) => Some (inr st.2)
  | Some (inl err) => Some (inl err)
  | None => None
  end.

(** ** From services to apps *)

Definition defaultVolumeSize : string := "1Gi".

(** One volume of a service: a file of the template, a named volume, or neither. *)
Definition add_volume (bundledFiles : gmap string string)
    '((files, storage) : list ConfigFile * list VolumeSpec) (vol : string)
    : list ConfigFile * list VolumeSpec :=
  let '(hostPath, mount, found) := cut ":"%char vol in
  if negb found then (files, storage)
  else
    let containerPath := trim_suffix ":ro" mount in
    let content := default "" (bundledFiles !! hostPath) in
    if negb (String.eqb content "")
    then (files ++ [{| ConfigFile_Path := containerPath; ConfigFile_Content := content |}], storage)
    else if isNamedVolume hostPath
    then (files, storage ++
            [with_VolumeSpec_Size defaultVolumeSize
              (with_VolumeSpec_MountPath containerPath (with_VolumeSpec_Name hostPath VolumeSpec_zero))])
    else (files, storage).

Section services.
Context (machine : float64 → Z).

Definition convert_resources (spec : ComposeResourceSpec) : ResourceRequirements :=
  with_ResourceRequirements_CPU (convertComposeCPU machine (ComposeResourceSpec_CPUs spec))
    (with_ResourceRequirements_Memory (convertComposeMemory (ComposeResourceSpec_Memory spec))
       ResourceRequirements_zero).

(** The limits, or the reservations when the limits say nothing. *)
Definition service_resources (deploy : option ComposeDeploy) : ResourceRequirements :=
  match deploy ≫= ComposeDeploy_Resources with
  | None => ResourceRequirements_zero
  | Some res =>
    let resources :=
      match ComposeResources_Limits res with
      | Some lim => convert_resources lim
      | None => ResourceRequirements_zero
      end in
    if String.eqb (ResourceRequirements_CPU resources) "" &&
       String.eqb (ResourceRequirements_Memory resources) ""
    then match ComposeResources_Reservations res with
         | Some r => convert_resources r
         | None => resources
         end
    else resources
  end.

Definition prefixed (stackPrefix name : string) : string :=
  if String.eqb stackPrefix "" then name else stackPrefix +:+ "-" +:+ name.

(** The body of the loop over the services. *)
Definition service_spec (stackPrefix : string) (bundledFiles : gmap string string)
    (svcName : string) (svc : ComposeService) : error + appSpec :=
  if String.eqb (ComposeService_Image svc) ""
  then inl (Errorf "service %q: image is required" [svcName])
  else
    let port :=
      match ComposeService_Ports svc with
      | [] => inr 8080%Z
      | p :: _ =>
        match parsePort p with
        | inl err => inl (Wrapf "service %q: invalid port %q: %w" [svcName; p] err)
        | inr n => inr n
        end
      end in
    match port with
    | inl err => inl err
    | inr port =>
      let depsOn := parseDependsOn (ComposeService_DependsOn svc) in
      let '(configFiles, storage) :=
        fold_left (add_volume bundledFiles) (ComposeService_Volumes svc) ([], []) in
      let env :=
        with_Environment_Name "production"
          (with_Environment_Env (parseEnvironment (ComposeService_Environment svc))
             (with_Environment_Resources (service_resources (ComposeService_Deploy svc))
                Environment_zero)) in
      let env :=
        match composeHealthToProbe (ComposeService_HealthCheck svc) with
        | Some probe => with_Environment_ReadinessProbe (Some probe) env
        | None => env
        end in
      let env :=
        with_Environment_Bindings ((λ dep, {| Binding_Ref := prefixed stackPrefix dep |}) <$> depsOn) env in
      inr {| as_Name := prefixed stackPrefix svcName;
             as_Spec :=
               with_AppSpec_Source
                 (with_AppSource_Type SourceTypeImage
                    (with_AppSource_Image (ComposeService_Image svc) AppSource_zero))
                 (with_AppSpec_Network {| NetworkConfig_Public := false; NetworkConfig_Port := port |}
                    (with_AppSpec_Storage storage
                       (with_AppSpec_ConfigFiles configFiles
                          (with_AppSpec_Environments [env] AppSpec_zero))));
             as_DepsOn := depsOn;
             as_IsInit := String.eqb (ComposeService_Restart svc) "no";
             as_Service := svcName |}
    end.

(** The specs by service name; the first error in the order of the range is returned. *)
Fixpoint service_specs (stackPrefix : string) (bundledFiles : gmap string string)
    (services : list (string * ComposeService)) (specs : gmap string appSpec)
    : error + gmap string appSpec :=
  match services with
  | [] => inr specs
  | (svcName, svc) :: rest =>
    match service_spec stackPrefix bundledFiles svcName svc with
    | inl err => inl err
    | inr spec => service_specs stackPrefix bundledFiles rest (<[svcName := spec]> specs)
    end
  end.

(** [None]: the sort ran out of fuel. *)
Definition composeToAppSpecs (R : MapRange) (compose : ComposeFile) (stackPrefix : string)
    (bundledFiles : gmap string string) : option (error + list appSpec) :=
  match service_specs stackPrefix bundledFiles (range (ComposeFile_Services compose)) ∅ with
  | inl err => Some (inl err)
  | inr specs => topoSort R specs
  end.
End services.

(** ** Correctness of the sort *)

(** [name] depends on [d]. *)
Definition depends_on (specs : gmap string appSpec) (name d : string) : Prop :=
  ∃ s, specs !! name = Some s ∧ d ∈ as_DepsOn s.

(** A dependency that is no service. *)
Definition dangling (specs : gmap string appSpec) : Prop :=
  ∃ n d, depends_on specs n d ∧ specs !! d = None.

Section sorted.
Context (specs : gmap string appSpec).
Context (Hkey : ∀ n s, specs !! n = Some s → as_Service s = n).
Local Abbreviation dep := (depends_on specs).
Local Abbreviation services st := (as_Service <$> st.2).

(** [P] is the services in progress. *)
Record sort_ok (P : gset string) (st : sort_state) : Prop := {
  so_order : topological dep (services st);
  so_done n : st.1 !! n = Some 2 ↔ n ∈ services st;
  so_progress n : st.1 !! n = Some 1 ↔ n ∈ P;
  so_values n v : st.1 !! n = Some v → v = 1 ∨ v = 2;
  so_specs s : s ∈ st.2 → specs !! as_Service s = Some s;
  so_known : P ⊆ dom specs;
}.

Lemma sort_start : sort_ok ∅ (∅, []).
Proof.
  split; cbn [fst snd].
  - apply topological_nil.
  - intros n. split; [by intros H%lookup_empty_Some|by intros ?%elem_of_nil].
  - intros n. split; [by intros H%lookup_empty_Some|by intros ?%elem_of_empty].
  - by intros n v H%lookup_empty_Some.
  - by intros s ?%elem_of_nil.
  - set_solver.
Qed.

Lemma enter_ok P st name s :
  sort_ok P st → specs !! name = Some s → st.1 !! name = None →
  sort_ok ({[name]} ∪ P) (<[name := 1]> st.1, st.2).
Proof.
  intros [Ho Hd Hp Hv Hs Hk] Hname Hnone. split; simpl; [done| | | |done|].
  - intros n. destruct (decide (n = name)) as [->|Hne]; [|by rewrite lookup_insert_ne].
    rewrite lookup_insert_eq, <-Hd, Hnone. done.
  - intros n. destruct (decide (n = name)) as [->|Hne].
    + rewrite lookup_insert_eq. set_solver.
    + rewrite lookup_insert_ne, Hp by done. set_solver.
  - intros n v. destruct (decide (n = name)) as [->|Hne].
    + rewrite lookup_insert_eq. intros [= <-]. by left.
    + rewrite lookup_insert_ne by done. apply Hv.
  - assert (name ∈ dom specs) by (by apply elem_of_dom; exists s). set_solver.
Qed.

Lemma leave_ok P st name s :
  sort_ok ({[name]} ∪ P) st → name ∉ P → specs !! name = Some s →
  (∀ d, d ∈ as_DepsOn s → d ∈ services st) →
  sort_ok P (<[name := 2]> st.1, st.2 ++ [s]).
Proof.
  intros [Ho Hd Hp Hv Hs Hk] HP Hname Hdeps.
  assert (st.1 !! name = Some 1) as H1 by (apply Hp; set_solver).
  pose proof (Hkey _ _ Hname) as Hsn.
  split; cbn [fst snd]; try rewrite fmap_app; cbn [fmap list_fmap]; try rewrite Hsn.
  - apply topological_snoc; [done| |].
    + rewrite <-Hd, H1. done.
    + intros d (s' & Hs' & Hin). simplify_eq. by apply Hdeps.
  - intros n. rewrite elem_of_app, list_elem_of_singleton.
    destruct (decide (n = name)) as [->|Hne]; [rewrite lookup_insert_eq; by split; [right|]|].
    rewrite lookup_insert_ne, Hd by done. naive_solver.
  - intros n. destruct (decide (n = name)) as [->|Hne]; [by rewrite lookup_insert_eq|].
    rewrite lookup_insert_ne, Hp by done. set_solver.
  - intros n v. destruct (decide (n = name)) as [->|Hne].
    + rewrite lookup_insert_eq. intros [= <-]. by right.
    + rewrite lookup_insert_ne by done. apply Hv.
  - intros s' [?| ->%list_elem_of_singleton]%elem_of_app; [by apply Hs|by rewrite Hsn].
  - set_solver.
Qed.

(** Visiting [names] succeeds and leaves the same services in progress, or there is a
    reason not to. *)
Definition visit_post (P : gset string) (names : list string) (st : sort_state)
    (r : option (error + sort_state)) : Prop :=
  (∃ st', r = Some (inr st') ∧ sort_ok P st' ∧ services st ⊆ services st' ∧
     ∀ n, n ∈ names → n ∈ services st') ∨
  (∃ err, r = Some (inl err) ∧
     (cyclic dep ∨ dangling specs ∨ ∃ n, n ∈ names ∧ specs !! n = None)).

Lemma each_post fuel P names st :
  (∀ n st, n ∈ names → sort_ok P st → visit_post P [n] st (visit_service specs fuel n st)) →
  sort_ok P st → visit_post P names st (each (visit_service specs fuel) names st).
Proof.
  revert st. induction names as [|n names IH]; intros st Hvisit Hok; cbn [each].
  { left. exists st. split; [done|]. split; [done|]. split; [done|]. by intros n ?%elem_of_nil. }
  destruct (Hvisit n st) as [(st1 & -> & Hok1 & Hsub & Hn)|(err & -> & Hc)]; [by left|done| |].
  - destruct (IH st1) as [(st2 & -> & Hok2 & Hsub2 & Hn2)|(err & -> & Hc)];
      [by intros m st' Hm; apply Hvisit; right|done| |].
    + left. exists st2. split; [done|]. split; [done|]. split; [set_solver|].
      intros m [->|Hm]%elem_of_cons; [|by apply Hn2]. apply Hsub2, Hn. by left.
    + right. exists err. split; [done|]. destruct Hc as [?|[?|(m & Hm & ?)]]; [by left|by right; left|].
      right; right. exists m. split; [by right|done].
  - right. exists err. split; [done|]. destruct Hc as [?|[?|(m & ->%list_elem_of_singleton & ?)]];
      [by left|by right; left|]. right; right. exists n. split; [by left|done].
Qed.

Lemma visit_service_spec fuel P name st :
  sort_ok P st → (∀ n, n ∈ P → tc dep n name) → (size (dom specs) - size P < fuel)%nat →
  visit_post P [name] st (visit_service specs fuel name st).
Proof.
  revert P name st. induction fuel as [|fuel IH]; [lia|]. intros P name st Hok Hpath Hfuel.
  cbn [visit_service]. destruct (st.1 !! name) as [v|] eqn:Ev; simpl default.
  - destruct (so_values _ _ Hok _ _ Ev) as [-> | ->].
    + right. eexists. split; [done|]. left. exists name. apply Hpath. by apply (so_progress _ _ Hok).
    + left. exists st. split; [done|]. split; [done|]. split; [done|].
      intros n ->%list_elem_of_singleton. by apply (so_done _ _ Hok).
  - destruct (specs !! name) as [s|] eqn:Es.
    2:{ right. eexists. split; [done|]. right; right. exists name. split; [by left|done]. }
    assert (name ∉ P) as HP by (rewrite <-(so_progress _ _ Hok), Ev; done).
    pose proof (enter_ok P st name s Hok Es Ev) as Hok1.
    destruct (each_post fuel ({[name]} ∪ P) (as_DepsOn s) (<[name := 1]> st.1, st.2))
      as [([visited result] & -> & Hok2 & Hsub & Hn)|(err & -> & Hc)]; [|done| |].
    + intros d st' Hd Hst'. apply IH; [done| |].
      * assert (dep name d) as Hdep by by exists s.
        intros n [->%elem_of_singleton|Hn]%elem_of_union; [by apply tc_once|].
        eapply tc_r; [by apply Hpath|done].
      * apply stack_fuel; [by apply (so_known P st)|by apply elem_of_dom; exists s|done|done].
    + left. eexists. split; [done|]. split; [by apply (leave_ok P (visited, result))|].
      cbn [snd fst] in *. rewrite fmap_app. cbn [fmap list_fmap]. rewrite (Hkey _ _ Es).
      split; [set_solver|]. intros n ->%list_elem_of_singleton. apply elem_of_app. by right; left.
    + right. exists err. split; [done|]. destruct Hc as [?|[?|(d & Hd & ?)]]; [by left|by right; left|].
      right; left. exists name, d. split; [by exists s|done].
Qed.
End sorted.

(** [topoSort] terminates.  It returns every service once, after the services it
    depends on, or an error; and an error means that there is none such order, because of
    a cycle, or that a dependency is unknown. *)
Lemma topoSort_cases R `{!MapRangeOk R} specs :
  (∀ n s, specs !! n = Some s → as_Service s = n) →
  (∃ result, topoSort R specs = Some (inr result) ∧ NoDup result ∧
     (∀ s, s ∈ result ↔ specs !! as_Service s = Some s) ∧
     topological (depends_on specs) (as_Service <$> result) ∧
     ¬ cyclic (depends_on specs) ∧ ¬ dangling specs) ∨
  (∃ err, topoSort R specs = Some (inl err) ∧ (cyclic (depends_on specs) ∨ dangling specs)).
Proof.
  intros Hkey. unfold topoSort.
  assert (∀ n, n ∈ sort_strings (range specs).*1 ↔ is_Some (specs !! n)) as Hnames.
  { intros n. rewrite elem_of_sort_strings, list_elem_of_fmap. split.
    - intros ([k v] & -> & Hk%elem_of_range). by exists v.
    - intros [v Hv]. exists (n, v). split; [done|]. by apply elem_of_range. }
  destruct (each_post specs Hkey (S (size specs)) ∅ (sort_strings (range specs).*1) (∅, []))
    as [(st & -> & Hok & _ & Hin)|(err & -> & Hc)].
  - intros n st _ Hok. apply visit_service_spec; [done|done|set_solver|]. rewrite size_dom, size_empty. lia.
  - by apply sort_start.
  - left. exists st.2. split; [done|]. destruct Hok as [Ho Hd Hp Hv Hs _].
    split; [by eapply NoDup_fmap_1, (proj1 Ho)|].
    assert (∀ s, s ∈ st.2 ↔ specs !! as_Service s = Some s) as Hall.
    { intros s. split; [apply Hs|]. intros Hsv.
      assert (as_Service s ∈ as_Service <$> st.2) as (s' & Heq & Hs')%list_elem_of_fmap
        by (apply Hin, Hnames; by exists s).
      pose proof (Hs _ Hs') as Hs2. rewrite <-Heq in Hs2. by simplify_eq. }
    split; [done|]. split; [done|].
    assert (∀ n d, depends_on specs n d → n ∈ as_Service <$> st.2 ∧ d ∈ as_Service <$> st.2) as Hdep.
    { intros n d Hnd. assert (Hnd' := Hnd). destruct Hnd' as (s & Hs1 & Hd1).
      assert (n ∈ as_Service <$> st.2) as Hn by (apply Hin, Hnames; by exists s).
      split; [done|]. apply list_elem_of_split in Hn as (l1 & l2 & Hl).
      pose proof (proj2 Ho _ _ _ Hl _ Hnd). rewrite Hl. apply elem_of_app. by left. }
    split.
    + intros [n Hn]. eapply topological_acyclic; [done| |done].
      by inversion Hn as [? ? Hd'|? ? ? Hd']; apply Hdep in Hd' as [? _].
    + intros (n & d & Hnd & Hnone). apply Hdep in Hnd as [_ (s & -> & Hs')%list_elem_of_fmap].
      apply Hs in Hs'. congruence.
  - right. exists err. split; [done|]. destruct Hc as [?|[?|(n & Hn%Hnames & Hnone)]]; [by left|by right|].
    destruct Hn as [s Hs]. congruence.
Qed.

(** ** Correctness of the conversion *)

Section conversion.
Context (machine : float64 → Z) (prefix : string) (files : gmap string string).

Lemma service_spec_service n svc a :
  service_spec machine prefix files n svc = inr a →
  as_Service a = n ∧ as_Name a = prefixed prefix n ∧
  as_DepsOn a = parseDependsOn (ComposeService_DependsOn svc) ∧
  ∃ env, AppSpec_Environments (as_Spec a) = [env] ∧ Environment_Name env = "production" ∧
    Binding_Ref <$> Environment_Bindings env = prefixed prefix <$> as_DepsOn a.
Proof.
  unfold service_spec. destruct (String.eqb _ _); [by intros|].
  destruct (match ComposeService_Ports svc with [] => _ | _ => _ end) as [err|port]; [by intros|].
  destruct (fold_left _ _ _) as [configFiles storage].
  intros [= <-]. cbn [as_Service as_Name as_DepsOn as_Spec]. split; [done|]. split; [done|].
  split; [done|]. eexists. split; [reflexivity|].
  split; [by destruct (composeHealthToProbe _)|].
  cbn [Environment_Bindings with_Environment_Bindings]. by rewrite <-list_fmap_compose.
Qed.

Lemma service_specs_ok l m m' :
  NoDup l.*1 → service_specs machine prefix files l m = inr m' →
  ∀ n a, m' !! n = Some a ↔
    (∃ svc, (n, svc) ∈ l ∧ service_spec machine prefix files n svc = inr a) ∨
    ((n ∉ l.*1) ∧ m !! n = Some a).
Proof.
  revert m. induction l as [|[name svc] l IH]; intros m Hnd; simpl.
  { intros [= <-] n a. split; [intros ?; right; split; [apply not_elem_of_nil|done]|].
    intros [(? & ?%elem_of_nil & _)|[_ ?]]; done. }
  apply NoDup_cons in Hnd as [Hname Hnd].
  destruct (service_spec machine prefix files name svc) as [err|spec] eqn:Es; [by intros|].
  intros Hm n a. rewrite (IH _ Hnd Hm n a). clear IH Hm.
  destruct (decide (n = name)) as [->|Hne].
  - rewrite lookup_insert_eq. split.
    + intros [(svc' & Hin & _)|[_ [= <-]]]; [|left; exists svc; split; [by left|done]].
      destruct Hname. apply list_elem_of_fmap. by exists (name, svc').
    + intros [(svc' & [[= ->]|Hin]%elem_of_cons & Hs)|[Hn _]].
      * right. split; [done|congruence].
      * destruct Hname. apply list_elem_of_fmap. by exists (name, svc').
      * destruct Hn. by left.
  - rewrite lookup_insert_ne, not_elem_of_cons by done. split.
    + intros [(svc' & Hin & Hs)|[? ?]]; [left; exists svc'; split; [by right|done]|by right].
    + intros [(svc' & [[= -> _]|Hin]%elem_of_cons & Hs)|[[_ ?] ?]]; [done|left; by exists svc'|by right].
Qed.

Lemma service_specs_error l m err :
  service_specs machine prefix files l m = inl err →
  ∃ n svc, (n, svc) ∈ l ∧ service_spec machine prefix files n svc = inl err.
Proof.
  revert m. induction l as [|[name svc] l IH]; intros m; simpl; [by intros|].
  destruct (service_spec machine prefix files name svc) as [e|spec] eqn:Es.
  - intros [= ->]. exists name, svc. split; [by left|done].
  - intros (n & svc' & Hin & H)%IH. exists n, svc'. split; [by right|done].
Qed.

Lemma service_specs_total l m m' n svc err :
  service_specs machine prefix files l m = inr m' → (n, svc) ∈ l →
  service_spec machine prefix files n svc = inl err → False.
Proof.
  revert m. induction l as [|[name svc'] l IH]; intros m; simpl; [by intros _ ?%elem_of_nil|].
  destruct (service_spec machine prefix files name svc') as [e|spec] eqn:Es; [by intros|].
  intros H [[= -> ->]|Hin]%elem_of_cons Herr; [congruence|by eapply IH].
Qed.

(** The apps of a stack, in the order they are created: one per service, converted from
    it, and bound to earlier apps only. *)
Definition stack_order (services : gmap string ComposeService) (apps : list appSpec) : Prop :=
  NoDup (as_Service <$> apps) ∧
  (∀ n, n ∈ as_Service <$> apps ↔ is_Some (services !! n)) ∧
  (∀ a, a ∈ apps → ∃ svc, services !! as_Service a = Some svc ∧
     service_spec machine prefix files (as_Service a) svc = inr a) ∧
  (∀ l1 a l2, apps = l1 ++ a :: l2 → ∀ env b, env ∈ AppSpec_Environments (as_Spec a) →
     b ∈ Environment_Bindings env → Binding_Ref b ∈ as_Name <$> l1).

(** Why a file has no stack: a service cannot be converted, or depends on itself or on
    a service that is not there. *)
Definition no_stack (services : gmap string ComposeService) : Prop :=
  (∃ n svc err, services !! n = Some svc ∧ service_spec machine prefix files n svc = inl err) ∨
  ∃ specs : gmap string appSpec, (∀ n a, specs !! n = Some a ↔ ∃ svc, services !! n = Some svc ∧
      service_spec machine prefix files n svc = inr a) ∧
    (cyclic (depends_on specs) ∨ dangling specs).

(** The converted services are those of the file. *)
Lemma service_specs_all R `{!MapRangeOk R} (services : gmap string ComposeService) specs :
  service_specs machine prefix files (range services) ∅ = inr specs →
  (∀ n a, specs !! n = Some a ↔ ∃ svc, services !! n = Some svc ∧
     service_spec machine prefix files n svc = inr a) ∧
  (∀ n, is_Some (services !! n) → is_Some (specs !! n)).
Proof.
  intros Es. assert (∀ n a, specs !! n = Some a ↔ ∃ svc, services !! n = Some svc ∧
    service_spec machine prefix files n svc = inr a) as Hspecs.
  { intros n a. rewrite (service_specs_ok _ _ _ (range_keys_nodup services) Es). split.
    - intros [(svc & Hin%elem_of_range & H)|[_ H]]; [by exists svc|by rewrite lookup_empty in H].
    - intros (svc & H & Hs). left. exists svc. split; [by apply elem_of_range|done]. }
  split; [done|]. intros n [svc Hsvc].
  destruct (service_spec machine prefix files n svc) as [e|a] eqn:Ea.
  - exfalso. eapply service_specs_total; [exact Es|by apply elem_of_range|done].
  - exists a. apply Hspecs. by exists svc.
Qed.

(** In an order that respects the dependencies an app is bound to earlier ones only. *)
Lemma bound_to_earlier (services : gmap string ComposeService) specs apps :
  (∀ n a, specs !! n = Some a ↔ ∃ svc, services !! n = Some svc ∧
     service_spec machine prefix files n svc = inr a) →
  (∀ a, a ∈ apps ↔ specs !! as_Service a = Some a) →
  topological (depends_on specs) (as_Service <$> apps) →
  ∀ l1 a l2, apps = l1 ++ a :: l2 → ∀ env b, env ∈ AppSpec_Environments (as_Spec a) →
    b ∈ Environment_Bindings env → Binding_Ref b ∈ as_Name <$> l1.
Proof.
  intros Hspecs Hall Ht l1 a l2 Hl env b Henv Hb.
  assert (∀ a, a ∈ apps → ∃ svc, services !! as_Service a = Some svc ∧
    service_spec machine prefix files (as_Service a) svc = inr a) as Hconv
    by by intros ? ?%Hall%Hspecs.
  destruct (Hconv a) as (svc & Hsvc & Ha); [rewrite Hl; apply elem_of_app; right; by left|].
  pose proof (service_spec_service _ _ _ Ha) as (_ & _ & Hdeps & env' & He & _ & Hbind).
  rewrite He in Henv. apply list_elem_of_singleton in Henv as ->.
  assert (Binding_Ref b ∈ prefixed prefix <$> as_DepsOn a) as (d & -> & Hin)%list_elem_of_fmap
    by (rewrite <-Hbind; apply list_elem_of_fmap; by exists b).
  assert (d ∈ as_Service <$> l1) as (a' & -> & Ha')%list_elem_of_fmap.
  { eapply (proj2 Ht _ (as_Service a) (as_Service <$> l2)); [by rewrite Hl, fmap_app|].
    exists a. split; [apply Hspecs; by exists svc|done]. }
  apply list_elem_of_fmap. exists a'. split; [|done].
  destruct (Hconv a') as (svc' & _ & H'); [rewrite Hl; apply elem_of_app; by left|].
  by apply service_spec_service in H' as (_ & -> & _).
Qed.

(** C38: converting a compose file terminates: it gives the apps in an order in which an
    app is bound to earlier apps of the stack only, or an error for which there is a
    reason in the file. *)
Theorem composeToAppSpecs_spec R `{!MapRangeOk R} compose :
  let services := ComposeFile_Services compose in
  (∃ apps, composeToAppSpecs machine R compose prefix files = Some (inr apps) ∧
     stack_order services apps) ∨
  (∃ err, composeToAppSpecs machine R compose prefix files = Some (inl err) ∧ no_stack services).
Proof.
  intros services. unfold composeToAppSpecs. fold services.
  destruct (service_specs machine prefix files (range services) ∅) as [err|specs] eqn:Es.
  { right. exists err. split; [done|]. left.
    apply service_specs_error in Es as (n & svc & Hin%elem_of_range & H). by exists n, svc, err. }
  apply service_specs_all in Es as [Hspecs Htotal]; [|done].
  destruct (topoSort_cases R specs) as [(apps & -> & _ & Hall & Ht & Hc & Hd)|(err & -> & Hc)].
  - intros n a (svc & _ & H)%Hspecs. by apply service_spec_service in H as [? _].
  - left. exists apps. split; [done|]. split; [apply Ht|]. split; [|split].
    + intros n. rewrite list_elem_of_fmap. split.
      * intros (a & -> & (svc & H & _)%Hall%Hspecs). by exists svc.
      * intros [a Ha]%Htotal. exists a. assert (Ha' := Ha).
        apply Hspecs in Ha' as (svc & _ & H). apply service_spec_service in H as [<- _].
        split; [done|by apply Hall].
    + by intros a ?%Hall%Hspecs.
    + by eapply bound_to_earlier.
  - right. exists err. split; [done|]. right. by exists specs.
Qed.
End conversion.

Module ComposeRuns.
#[local] Existing Instance range_sorted_order.
Abbreviation R := range_sorted_order.

Definition service (image : string) (ports : list string) (environment dependsOn : any) (restart : string)
    : ComposeService :=
  {| ComposeService_Image := image; ComposeService_Ports := ports; ComposeService_Environment := environment;
     ComposeService_DependsOn := dependsOn; ComposeService_Restart := restart; ComposeService_Command := AnyNil;
     ComposeService_Volumes := []; ComposeService_Deploy := None; ComposeService_HealthCheck := None |}.

Definition web : ComposeService :=
  service "acme/web:1" ["8080:80/tcp"] (AnyMap [("MODE", AnyNil); ("LEVEL", AnyInt 3)]) (AnySlice [AnyString "db"]) "".
Definition db : ComposeService := service "postgres:16" ["5432"] AnyNil AnyNil "".
Definition machine : float64 → Z := λ _, 0%Z.

Definition stack : ComposeFile := {| ComposeFile_Services := {["db" := db; "web" := web]} |}.

Lemma composeToAppSpecs_spec_witness :
  ∃ apps, composeToAppSpecs machine R stack "shop" ∅ = Some (inr apps) ∧
    stack_order machine "shop" ∅ (ComposeFile_Services stack) apps.
Proof.
  destruct (composeToAppSpecs_spec machine "shop" ∅ R stack) as [H|(err & H & _)]; [exact H|].
  vm_compute in H. discriminate.
Defined.

(** The order of creation. *)
Example created_in_order :
  match composeToAppSpecs machine R stack "shop" ∅ with
  | Some (inr apps) => as_Name <$> apps
  | _ => []
  end = ["shop-db"; "shop-web"].
Proof. vm_compute. reflexivity. Qed.

(** A variable without a value becomes the text of a nil interface. *)
Example null_variable :
  parseEnvironment (AnyMap [("MODE", AnyNil)]) = [env_literal "MODE" "<nil>"].
Proof. vm_compute. reflexivity. Qed.

(** A service that runs once is not created, but its dependents are bound to it. *)
Example bound_to_init :
  match composeToAppSpecs machine R
    {| ComposeFile_Services := {["migrate" := service "acme/migrate" [] AnyNil AnyNil "no";
                                 "web" := service "acme/web" [] AnyNil (AnySlice [AnyString "migrate"]) ""]} |} "shop" ∅ with
  | Some (inr apps) => (λ a, (as_Name a, as_IsInit a,
      Binding_Ref <$> (AppSpec_Environments (as_Spec a) ≫= Environment_Bindings))) <$> apps
  | _ => []
  end = [("shop-migrate", true, []); ("shop-web", false, ["shop-migrate"])].
Proof. vm_compute. reflexivity. Qed.

(** The product is truncated, not rounded. *)
Example truncated_cpu : convertComposeCPU machine "1.005" = "1004m".
Proof. vm_compute. reflexivity. Qed.
End ComposeRuns.
