(* ===== verification/Auth.v ===== *)
(** * Native authentication: [internal/auth]

    A user is a Secret that holds the password hash, the role and a password generation;
    a session is a signed token that carries the generation it was issued under.
    bcrypt, the JWT library and the random source are parameters: the comparisons that
    only equalise timing have no other effect. *)

From S2P Require Import Prelude GoStrings Sha256 GoNum Kube GoTime Core Authz.

Definition userLabelKey : string := "mortise.dev/user".
Definition inviteLabelKey : string := "mortise.dev/invite".
Definition inviteExpiryDays : Z := 7.

Definition ErrUserNotFound : error := Sentinel "user not found".
Definition ErrPasswordChangeInvalidated : error := Sentinel "session invalidated by password change".

Definition jwtSecretName : string := "mortise-jwt-key".
Definition jwtSecretKey : string := "signing-key".
Definition namespace : string := "mortise-system".
Definition tokenExpiry : Z := 24 * Hour.
Definition jwtIssuer : string := "mortise".
Definition jwtAudience : string := "mortise-api".

Record Credentials := { Credentials_Email : string; Credentials_Password : string }.
Record InviteLink := { InviteLink_URL : string; InviteLink_ExpiresAt : Z }.
Record User := { User_ID : string; User_Email : string; User_Role : Role }.

Definition hex_of (s : string) : string := Sha256.hex_encode (Sha256.bytes_of s).

Definition userSecretName (email : string) : string := "user-" +:+ hex_of email.
Definition inviteSecretName (email : string) : string := "invite-" +:+ hex_of email.

Definition user_key (email : string) : NamespacedName := (namespace, userSecretName email).

(** A new Secret of this namespace. *)
Definition new_secret (name : string) (labels data : gmap string string) : Secret :=
  {| sec_meta := with_labels labels (with_name name (with_namespace namespace ObjectMeta_zero));
     sec_Type := ""; sec_Data := data |}.

Definition passwordGenFromSecret (secret : Secret) : Z :=
  match sec_Data secret !! "password_gen" with
  | Some raw => default 0%Z (sscan_int raw)
  | None => 0%Z
  end.

Definition principalFromSecret (secret : Secret) : Principal :=
  {| Principal_ID := map_get (sec_Data secret) "email";
     Principal_Email := map_get (sec_Data secret) "email";
     Principal_Role := map_get (sec_Data secret) "role";
     Principal_PasswordGen := passwordGenFromSecret secret |}.

(** [principalFromSecret] unless the session is older than the password. *)
Definition check_generation (secret : Secret) (tokenGen : Z) : error + Principal :=
  if (tokenGen <? passwordGenFromSecret secret)%Z then inl ErrPasswordChangeInvalidated
  else inr (principalFromSecret secret).

Definition user_secret (email hash : string) (role : Role) : Secret :=
  new_secret (userSecretName email) {[userLabelKey := "true"]}
    {["email" := email; "password_hash" := hash; "role" := role; "password_gen" := "0"]}.

(** The Secret with a new hash and the next generation. *)
Definition with_password (hash : string) (secret : Secret) : Secret :=
  with_data (<["password_gen" := itoa (wrap64 (passwordGenFromSecret secret + 1))]>
             (<["password_hash" := hash]> (sec_Data secret))) secret.

Definition short_password (password : string) : bool := (String.length password <? 8)%nat.

Section native.
Context {W : Type} {C : KubeClient W Secret} {D : KubeDelete W Secret} {L : KubeListIn W Secret}.
(** The reader past the cache, when there is one, and the clock. *)
Context (uncached : option (NamespacedName → W → W * (error + Secret))) (now : W → Time).
(** [bcrypt.GenerateFromPassword] at the default cost and [CompareHashAndPassword]. *)
Context (bcrypt_generate : string → W → error + string) (bcrypt_compare : string → string → bool).

Definition invalid_credentials : error := Errorf "invalid credentials" [].

(** What [Authenticate] and [VerifyPassword] do with the Secret they read. *)
Definition check_password {A} (password : string) (ok : Secret → A) (r : error + Secret) : error + A :=
  match r with
  | inl err => if IsNotFound err then inl invalid_credentials
               else inl (Wrapf "reading user secret: %w" [] err)
  | inr secret =>
    if bcrypt_compare (map_get (sec_Data secret) "password_hash") password
    then inr (ok secret) else inl invalid_credentials
  end.

Definition Authenticate (creds : Credentials) (w : W) : W * (error + Principal) :=
  let key := user_key (Credentials_Email creds) in
  let '(w, r) := kget key w in
  let '(w, r) :=
    match r, uncached with
    | inl err, Some read => if IsNotFound err then read key w else (w, r)
    | _, _ => (w, r)
    end in
  (w, check_password (Credentials_Password creds) principalFromSecret r).

Definition VerifyPassword (email password : string) (w : W) : W * (error + unit) :=
  let '(w, r) := kget (user_key email) w in
  (w, check_password password (λ _, tt) r).

Definition ListUsers (w : W) : W * (error + list User) :=
  match klist_in namespace {[userLabelKey := "true"]} w with
  | (w, inl err) => (w, inl (Wrapf "listing user secrets: %w" [] err))
  | (w, inr secrets) =>
    (w, inr ((λ s, {| User_ID := map_get (sec_Data s) "email";
                      User_Email := map_get (sec_Data s) "email";
                      User_Role := map_get (sec_Data s) "role" |}) <$> secrets))
  end.

(** [raw] is what [rand.Read] gave. *)
Definition InviteUser (raw : error + list N) (email : string) (role : Role) (w : W)
    : W * (error + InviteLink) :=
  match raw with
  | inl err => (w, inl (Wrapf "generating invite token: %w" [] err))
  | inr token =>
    let expiresAt := ((now w + inviteExpiryDays * 24 * Hour) / Second)%Z in
    let inviteToken := Sha256.hex_encode token in
    let secret :=
      new_secret (inviteSecretName email) {[inviteLabelKey := "true"]}
        {["email" := email; "role" := role; "token" := inviteToken;
          "expires_at" := itoa expiresAt]} in
    match kcreate secret w with
    | (w, Some err) => (w, inl (Wrapf "creating invite secret: %w" [] err))
    | (w, None) =>
      (w, inr {| InviteLink_URL := "/invite?token=" +:+ inviteToken;
                 InviteLink_ExpiresAt := expiresAt |})
    end
  end.

Definition RevokeUser (userID : string) (w : W) : W * option error :=
  match kdelete Secret (user_key userID) w with
  | (w, Some err) =>
    if IsNotFound err then (w, Some (Errorf "user not found: %s" [userID]))
    else (w, Some (Wrapf "deleting user secret: %w" [] err))
  | (w, None) => (w, None)
  end.

(** [CurrentPrincipal] reads through the client, [CurrentPrincipalLive] through the
    clientset; they are the same otherwise. *)
Definition current_principal (read : NamespacedName → W → W * (error + Secret))
    (email : string) (tokenGen : Z) (w : W) : W * (error + Principal) :=
  match read (user_key email) w with
  | (w, inl err) =>
    (w, inl (if IsNotFound err then ErrUserNotFound else Wrapf "reading user secret: %w" [] err))
  | (w, inr secret) => (w, check_generation secret tokenGen)
  end.

Definition CurrentPrincipal := current_principal kget.
Definition CurrentPrincipalLive (clientset : NamespacedName → W → W * (error + Secret)) :=
  current_principal clientset.

Definition CheckPasswordGen (email : string) (tokenGen : Z) (w : W) : W * option error :=
  match CurrentPrincipal email tokenGen w with
  | (w, inl err) => (w, Some err)
  | (w, inr _) => (w, None)
  end.

Definition CreateUser (email password : string) (role : Role) (w : W) : W * option error :=
  if short_password password then (w, Some (Errorf "password must be at least 8 characters" []))
  else
    match bcrypt_generate password w with
    | inl err => (w, Some (Wrapf "hashing password: %w" [] err))
    | inr hash =>
      match kcreate (user_secret email hash role) w with
      | (w, Some err) => (w, Some (Wrapf "creating user secret: %w" [] err))
      | (w, None) => (w, None)
      end
    end.

Definition UpdatePassword (email newPassword : string) (w : W) : W * option error :=
  if short_password newPassword then (w, Some (Errorf "password must be at least 8 characters" []))
  else
    match kget (user_key email) w with
    | (w, inl err) =>
      if IsNotFound err
      then (w, Some (Errorf "user not found or password could not be updated" []))
      else (w, Some (Wrapf "reading user secret: %w" [] err))
    | (w, inr secret) =>
      match bcrypt_generate newPassword w with
      | inl err => (w, Some (Wrapf "hashing password: %w" [] err))
      | inr hash =>
        match kupdate (with_password hash secret) w with
        | (w, Some err) => (w, Some (Wrapf "updating user secret: %w" [] err))
        | (w, None) => (w, None)
        end
      end
    end.

(** ** Session tokens: [jwt.go] *)

Record Claims := {
  cl_sub : string; cl_email : string; cl_role : string; cl_pwd_gen : Z;
  cl_iss : string; cl_aud : string; cl_iat : Z; cl_exp : Z;
}.

(** Signing with HS256, and parsing with the checks of the parser's options: HMAC
    methods only, the issuer, the audience and the expiry with some leeway.  A claim that
    is absent or of another type is its zero value; the flag is [token.Valid]. *)
Context (jwt_sign : string → Claims → error + string)
  (jwt_parse : Z → string → string → W → error + (Claims * bool)).
(** 64 bytes of [rand.Read]. *)
Context (rand_key : W → error + string).

Definition jwt_secret (key : string) : Secret := new_secret jwtSecretName ∅ {[jwtSecretKey := key]}.

(** [None]: out of fuel.  The recursion of the code has no bound. *)
Fixpoint signingKey (fuel : nat) (w : W) : option (W * (error + string)) :=
  match fuel with
  | O => None
  | S fuel =>
    let create w :=
      match rand_key w with
      | inl err => Some (w, inl (Wrapf "generating signing key: %w" [] err))
      | inr key =>
        match kcreate (jwt_secret key) w with
        | (w, None) => Some (w, inr key)
        | (w, Some err) =>
          if IsAlreadyExists err then signingKey fuel w
          else Some (w, inl (Wrapf "creating jwt key secret: %w" [] err))
        end
      end in
    match kget (namespace, jwtSecretName) w with
    | (w, inr secret) =>
      match sec_Data secret !! jwtSecretKey with
      | Some key => if (0 <? String.length key)%nat then Some (w, inr key) else create w
      | None => create w
      end
    | (w, inl err) =>
      if negb (IsNotFound err) then Some (w, inl (Wrapf "reading jwt key secret: %w" [] err))
      else create w
    end
  end.

Definition GenerateToken (fuel : nat) (p : Principal) (w : W) : option (W * (error + string)) :=
  '(w, key) ← signingKey fuel w;
  match key with
  | inl err => Some (w, inl err)
  | inr key =>
    let claims :=
      {| cl_sub := Principal_ID p; cl_email := Principal_Email p; cl_role := Principal_Role p;
         cl_pwd_gen := Principal_PasswordGen p; cl_iss := jwtIssuer; cl_aud := jwtAudience;
         cl_iat := now w / Second; cl_exp := (now w + tokenExpiry) / Second |} in
    Some (w, jwt_sign key claims)
  end.

Definition claims_principal (c : Claims) : Principal :=
  {| Principal_ID := cl_sub c; Principal_Email := cl_email c; Principal_Role := cl_role c;
     Principal_PasswordGen := cl_pwd_gen c |}.

(** [ValidateToken], and [ValidateTokenForRefresh] with another leeway and message. *)
Definition validate_token (leeway : Z) (fmt : string) (fuel : nat) (token : string) (w : W)
    : option (W * (error + (Principal * Z))) :=
  '(w, key) ← signingKey fuel w;
  match key with
  | inl err => Some (w, inl err)
  | inr key =>
    match jwt_parse leeway key token w with
    | inl err => Some (w, inl (Wrapf fmt [] err))
    | inr (claims, valid) =>
      if negb valid then Some (w, inl (Errorf "invalid token claims" []))
      else Some (w, inr (claims_principal claims, cl_pwd_gen claims))
    end
  end.

Definition refreshWindow : Z := 7 * 24 * Hour.
Definition ValidateToken := validate_token 0 "invalid token: %w".
Definition ValidateTokenForRefresh := validate_token refreshWindow "token not eligible for refresh: %w".

Definition GenerateSessionToken := GenerateToken.

(** [NativeAuthProvider.Principal]: the claims name the user and the generation; what
    the user may do is read again. *)
Definition Principal_of_session (fuel : nat) (session : string) (w : W)
    : option (W * (error + Principal)) :=
  '(w, r) ← ValidateToken fuel session w;
  match r with
  | inl err => Some (w, inl err)
  | inr (principal, tokenGen) => Some (CurrentPrincipal (Principal_Email principal) tokenGen w)
  end.
End native.

(** ** Specification: accounts

    What the operations are for: a finite map of accounts by email.  A password has 8 to
    72 bytes, bcrypt's limit. *)

Record account := { ac_password : string; ac_role : Role; ac_gen : Z }.

Abbreviation accounts := (gmap string account) (only parsing).

Inductive user_op :=
  | OpCreate (email password : string) (role : Role)
  | OpUpdate (email password : string)
  | OpRevoke (email : string).

Definition good_password (password : string) : bool :=
  negb (short_password password) && (String.length password <=? 72)%nat.

(** [None]: refused. *)
Definition spec_op (op : user_op) (accts : accounts) : option (accounts) :=
  match op with
  | OpCreate email password role =>
    if good_password password && bool_decide (accts !! email = None)
    then Some (<[email := {| ac_password := password; ac_role := role; ac_gen := 0 |}]> accts)
    else None
  | OpUpdate email password =>
    match accts !! email with
    | Some a =>
      if good_password password
      then Some (<[email := {| ac_password := password; ac_role := ac_role a;
                               ac_gen := wrap64 (ac_gen a + 1) |}]> accts)
      else None
    | None => None
    end
  | OpRevoke email =>
    match accts !! email with Some _ => Some (delete email accts) | None => None end
  end.

Definition account_principal (email : string) (a : account) : Principal :=
  {| Principal_ID := email; Principal_Email := email; Principal_Role := ac_role a;
     Principal_PasswordGen := ac_gen a |}.

(** bcrypt, as documented: a password of up to 72 bytes is hashed, and its hash compares
    with that password only. *)
Class BcryptOk {W} (generate : string → W → error + string) (compare : string → string → bool) : Prop :=
  bcrypt_spec password w :
    match generate password w with
    | inr hash => (String.length password ≤ 72)%nat ∧
        ∀ p, (String.length p ≤ 72)%nat → compare hash p = String.eqb p password
    | inl _ => (72 < String.length password)%nat
    end.

Lemma userSecretName_inj e1 e2 : userSecretName e1 = userSecretName e2 → e1 = e2.
Proof.
  unfold userSecretName, hex_of. intros H%str_app_inv_head.
  apply Sha256.bytes_of_inj, Sha256.hex_encode_inj; [apply Sha256.bytes_of_bound..|done].
Qed.

Lemma user_key_inj e1 e2 : user_key e1 = user_key e2 → e1 = e2.
Proof. intros H%(f_equal snd). by apply userSecretName_inj. Qed.

Section refinement.
Context {W : Type} {C : KubeClient W Secret} {OK : KubeClientOk W Secret} {D : KubeDelete W Secret}
  {DO : KubeDeleteOk W Secret}.
Context (uncached : option (NamespacedName → W → W * (error + Secret))).
Context (bcrypt_generate : string → W → error + string) (bcrypt_compare : string → string → bool).
Context {BO : BcryptOk bcrypt_generate bcrypt_compare}.

Definition run_op (op : user_op) : W → W * option error :=
  match op with
  | OpCreate email password role => CreateUser bcrypt_generate email password role
  | OpUpdate email password => UpdatePassword bcrypt_generate email password
  | OpRevoke email => RevokeUser email
  end.

(** A Secret that holds an account. *)
Definition holds (email : string) (a : account) (s : Secret) : Prop :=
  sec_Data s !! "email" = Some email ∧ sec_Data s !! "role" = Some (ac_role a) ∧
  sec_Data s !! "password_gen" = Some (itoa (ac_gen a)) ∧ in_int64 (ac_gen a) = true ∧
  ∃ hash, sec_Data s !! "password_hash" = Some hash ∧
    ∀ p, (String.length p ≤ 72)%nat → bcrypt_compare hash p = String.eqb p (ac_password a).

Definition represents (accts : accounts) (m : gmap NamespacedName Secret) : Prop :=
  ∀ email, match accts !! email with
           | Some a => ∃ s, m !! user_key email = Some s ∧ holds email a s
           | None => m !! user_key email = None
           end.

Lemma holds_gen email a s : holds email a s → passwordGenFromSecret s = ac_gen a.
Proof.
  intros (_ & _ & Hg & Hi & _). unfold passwordGenFromSecret. rewrite Hg.
  by rewrite sscan_int_itoa.
Qed.

Lemma holds_principal email a s : holds email a s → principalFromSecret s = account_principal email a.
Proof.
  intros H. unfold principalFromSecret. rewrite (holds_gen _ _ _ H).
  destruct H as (He & Hr & _). unfold map_get. by rewrite He, Hr.
Qed.

Lemma represents_insert accts m email a s :
  represents accts m → holds email a s →
  represents (<[email := a]> accts) (<[user_key email := s]> m).
Proof.
  intros Hrep Hs e. destruct (decide (e = email)) as [->|Hne].
  - rewrite !lookup_insert_eq. by exists s.
  - rewrite lookup_insert_ne by done. specialize (Hrep e).
    destruct (accts !! e) as [b|]; rewrite lookup_insert_ne by (by intros ?%user_key_inj); done.
Qed.

Lemma represents_delete accts m email :
  represents accts m → represents (delete email accts) (delete (user_key email) m).
Proof.
  intros Hrep e. destruct (decide (e = email)) as [->|Hne].
  - by rewrite !lookup_delete_eq.
  - rewrite lookup_delete_ne by done. specialize (Hrep e).
    destruct (accts !! e) as [b|]; rewrite lookup_delete_ne by (by intros ?%user_key_inj); done.
Qed.

Lemma holds_user_secret email password role hash rv :
  (∀ p, (String.length p ≤ 72)%nat → bcrypt_compare hash p = String.eqb p password) →
  holds email {| ac_password := password; ac_role := role; ac_gen := 0 |}
    (obj_with_rv rv (user_secret email hash role)).
Proof.
  intros H. split; [done|]. split; [done|]. split; [done|]. split; [done|]. by exists hash.
Qed.

Lemma holds_with_password email a s password hash rv :
  holds email a s →
  (∀ p, (String.length p ≤ 72)%nat → bcrypt_compare hash p = String.eqb p password) →
  holds email {| ac_password := password; ac_role := ac_role a; ac_gen := wrap64 (ac_gen a + 1) |}
    (obj_with_rv rv (with_password hash s)).
Proof.
  intros H Hh. pose proof (holds_gen _ _ _ H) as Hg. destruct H as (He & Hr & _ & Hi & _).
  unfold holds. rewrite sec_Data_with_rv. unfold with_password, with_data. cbn [sec_Data].
  rewrite Hg. split; [by rewrite !lookup_insert_ne|]. split; [by rewrite !lookup_insert_ne|].
  split; [by rewrite lookup_insert_eq|]. split.
  - apply in_int64_spec. cbn [ac_gen]. unfold wrap64.
    pose proof (Z.mod_pos_bound (ac_gen a + 1 + 2 ^ 63) (2 ^ 64)). lia.
  - exists hash. split; [|done]. by rewrite lookup_insert_ne, lookup_insert_eq.
Qed.

(** The result of an operation against its specification. *)
Definition refines (op : user_op) (accts : accounts) (w : W) (res : W * option error) : Prop :=
  let '(w', r) := res in
  kquiet w' ∧
  match spec_op op accts with
  | Some accts' => r = None ∧ represents accts' (kstore w')
  | None => r ≠ None ∧ kstore w' = kstore w
  end.

Lemma good_password_split password :
  short_password password = false →
  good_password password = (String.length password <=? 72)%nat.
Proof. unfold good_password. by intros ->. Qed.

Lemma create_refines email password role accts w :
  kquiet w → represents accts (kstore w) →
  refines (OpCreate email password role) accts w (CreateUser bcrypt_generate email password role w).
Proof.
  intros Hq Hrep. unfold CreateUser, refines, spec_op.
  destruct (short_password password) eqn:Hs.
  { unfold good_password. rewrite Hs. done. }
  rewrite good_password_split by done. pose proof (bcrypt_spec password w) as Hb.
  destruct (bcrypt_generate password w) as [err|hash].
  { by destruct (Nat.leb_spec (String.length password) 72); [lia|]. }
  destruct Hb as [Hlen Hcmp]. destruct (Nat.leb_spec (String.length password) 72); [|lia].
  specialize (Hrep email) as He. simpl andb.
  destruct (accts !! email) as [a|] eqn:Ea; [rewrite bool_decide_false by done|rewrite bool_decide_true by done].
  - destruct He as (s & Hst & _).
    destruct (kcreate_exists (user_secret email hash role) w s) as (w' & e & Hq' & Hc & _ & Hsame);
      [done|done|]. by rewrite Hc.
  - destruct (kcreate_quiet (user_secret email hash role) w) as (w' & rv & Hq' & Hc & Hst); [done|done|].
    rewrite Hc. split; [done|]. split; [done|]. rewrite Hst.
    apply represents_insert; [done|]. by apply holds_user_secret.
Qed.

Lemma update_refines email password accts w :
  kquiet w → represents accts (kstore w) →
  refines (OpUpdate email password) accts w (UpdatePassword bcrypt_generate email password w).
Proof.
  intros Hq Hrep. unfold UpdatePassword, refines, spec_op. specialize (Hrep email) as He.
  destruct (short_password password) eqn:Hs.
  { unfold good_password. rewrite Hs. by destruct (accts !! email). }
  rewrite good_password_split by done.
  destruct (kget_quiet (user_key email) w Hq) as (w1 & Hq1 & Hs1 & Hget).
  destruct (accts !! email) as [a|] eqn:Ea; [destruct He as (s & Hst & Hh)|];
    [rewrite Hst in Hget; rewrite Hget|rewrite He in Hget; by destruct Hget as (e & -> & ->)].
  pose proof (bcrypt_spec password w1) as Hb. destruct (bcrypt_generate password w1) as [err|hash].
  { by destruct (Nat.leb_spec (String.length password) 72); [lia|]. }
  destruct Hb as [Hlen Hcmp]. destruct (Nat.leb_spec (String.length password) 72); [|lia].
  assert (obj_key s = user_key email) as Hk by (by eapply kstore_key).
  destruct (kupdate_quiet (with_password hash s) w1 s) as (w2 & rv & Hq2 & Hu & Hs2);
    [done|by rewrite Hs1; change (obj_key (with_password hash s)) with (obj_key s); rewrite Hk|done|].
  rewrite Hu. split; [done|]. split; [done|]. rewrite Hs2, Hs1.
  change (obj_key (with_password hash s)) with (obj_key s). rewrite Hk.
  apply represents_insert; [done|]. by apply holds_with_password.
Qed.

Lemma revoke_refines email accts w :
  kquiet w → represents accts (kstore w) →
  refines (OpRevoke email) accts w (RevokeUser email w).
Proof.
  intros Hq Hrep. unfold RevokeUser, refines, spec_op. specialize (Hrep email) as He.
  destruct (kdelete_quiet (user_key email) w Hq) as (w' & Hq' & Hs & Hd).
  destruct (accts !! email) as [a|] eqn:Ea.
  - destruct He as (s & Hst & _). rewrite Hst in Hd. rewrite Hd. split; [done|]. split; [done|].
    rewrite Hs. by apply represents_delete.
  - rewrite He in Hd. destruct Hd as (e & -> & ->). split; [done|]. split; [done|].
    by rewrite Hs, delete_id.
Qed.

(** Creating a user, changing a password and revoking a user implement the abstract
    accounts: each succeeds exactly when the specification allows it, and then the Secrets
    represent the new accounts; a refused operation leaves the store as it was. *)
Theorem accounts_refine op accts w :
  kquiet w → represents accts (kstore w) → refines op accts w (run_op op w).
Proof.
  destruct op; [apply create_refines|apply update_refines|apply revoke_refines].
Qed.

(** The reader past the cache, if any, reads the same store. *)
Definition uncached_ok : Prop := ∀ read k w, uncached = Some read → read k w = kget k w.

Lemma Authenticate_quiet accts email password w :
  uncached_ok → kquiet w → represents accts (kstore w) → (String.length password <= 72)%nat →
  ∃ w', kquiet w' ∧ kstore w' = kstore w ∧
    Authenticate uncached bcrypt_compare {| Credentials_Email := email; Credentials_Password := password |} w =
    (w', match accts !! email with
         | Some a => if String.eqb password (ac_password a) then inr (account_principal email a)
                     else inl invalid_credentials
         | None => inl invalid_credentials
         end).
Proof.
  intros Hun Hq Hrep Hlen. unfold Authenticate. cbn [Credentials_Email Credentials_Password].
  specialize (Hrep email) as He.
  destruct (kget_quiet (user_key email) w Hq) as (w1 & Hq1 & Hs1 & Hget).
  destruct (accts !! email) as [a|].
  - destruct He as (s & Hst & Hh). rewrite Hst in Hget. rewrite Hget. exists w1.
    split; [done|]. split; [done|]. simpl. rewrite (holds_principal _ _ _ Hh).
    destruct Hh as (_ & _ & _ & _ & hash & Hhash & Hcmp). unfold map_get. rewrite Hhash. simpl.
    by rewrite Hcmp.
  - rewrite He in Hget. destruct Hget as (e & -> & Hn). destruct uncached as [read|] eqn:Eu.
    + rewrite Hn, (Hun read) by done.
      destruct (kget_quiet (user_key email) w1 Hq1) as (w2 & Hq2 & Hs2 & Hget2).
      rewrite Hs1, He in Hget2. destruct Hget2 as (e2 & -> & Hn2). exists w2.
      split; [done|]. split; [congruence|]. simpl. by rewrite Hn2.
    + exists w1. split; [done|]. split; [done|]. simpl. by rewrite Hn.
Qed.

Lemma CurrentPrincipal_quiet accts email tokenGen w :
  kquiet w → represents accts (kstore w) →
  ∃ w', kquiet w' ∧ kstore w' = kstore w ∧
    CurrentPrincipal email tokenGen w =
    (w', match accts !! email with
         | Some a => if (tokenGen <? ac_gen a)%Z then inl ErrPasswordChangeInvalidated
                     else inr (account_principal email a)
         | None => inl ErrUserNotFound
         end).
Proof.
  intros Hq Hrep. unfold CurrentPrincipal, current_principal. specialize (Hrep email) as He.
  destruct (kget_quiet (user_key email) w Hq) as (w1 & Hq1 & Hs1 & Hget).
  destruct (accts !! email) as [a|].
  - destruct He as (s & Hst & Hh). rewrite Hst in Hget. rewrite Hget. exists w1.
    split; [done|]. split; [done|]. unfold check_generation.
    by rewrite (holds_gen _ _ _ Hh), (holds_principal _ _ _ Hh).
  - rewrite He in Hget. destruct Hget as (e & -> & ->). by exists w1.
Qed.

(** Logging in and checking a session implement the abstract accounts.  A login
    succeeds exactly with the account's password, and a missing user is answered like a
    wrong password; a session is accepted exactly when it is not older than the password,
    and then with the account's current role. *)
Theorem sessions_refine accts email password tokenGen w :
  uncached_ok → kquiet w → represents accts (kstore w) → (String.length password <= 72)%nat →
  (Authenticate uncached bcrypt_compare
     {| Credentials_Email := email; Credentials_Password := password |} w).2 =
  match accts !! email with
  | Some a => if String.eqb password (ac_password a) then inr (account_principal email a)
              else inl invalid_credentials
  | None => inl invalid_credentials
  end ∧
  (CurrentPrincipal email tokenGen w).2 =
  match accts !! email with
  | Some a => if (tokenGen <? ac_gen a)%Z then inl ErrPasswordChangeInvalidated
              else inr (account_principal email a)
  | None => inl ErrUserNotFound
  end.
Proof.
  intros Hun Hq Hrep Hlen.
  destruct (Authenticate_quiet accts email password w Hun Hq Hrep Hlen) as (w1 & _ & _ & ->).
  destruct (CurrentPrincipal_quiet accts email tokenGen w Hq Hrep) as (w2 & _ & _ & ->). done.
Qed.

(** C27: a password change ends every older session.  After a successful change, a
    session of the principal that had logged in before is refused as invalidated, the old
    password no longer logs in, and the new one does, into a session that is accepted. *)
Theorem password_change_ends_sessions accts email p old new w w' w1 w2 :
  uncached_ok → kquiet w → represents accts (kstore w) →
  (String.length old ≤ 72)%nat → old ≠ new → (Principal_PasswordGen p + 1 < 2 ^ 63)%Z →
  Authenticate uncached bcrypt_compare {| Credentials_Email := email; Credentials_Password := old |} w =
    (w1, inr p) →
  UpdatePassword bcrypt_generate email new w1 = (w2, None) →
  kstore w' = kstore w2 → kquiet w' →
  (CurrentPrincipal email (Principal_PasswordGen p) w').2 = inl ErrPasswordChangeInvalidated ∧
  (Authenticate uncached bcrypt_compare {| Credentials_Email := email; Credentials_Password := old |} w').2
    = inl invalid_credentials ∧
  ∃ p', (Authenticate uncached bcrypt_compare
           {| Credentials_Email := email; Credentials_Password := new |} w').2 = inr p' ∧
    Principal_PasswordGen p' = (Principal_PasswordGen p + 1)%Z ∧ Principal_Role p' = Principal_Role p ∧
    (CurrentPrincipal email (Principal_PasswordGen p') w').2 = inr p'.
Proof.
  intros Hun Hq Hrep Hold Hne Hgen Hauth Hupd Hsame Hq'.
  destruct (Authenticate_quiet accts email old w Hun Hq Hrep Hold) as (w1' & Hq1 & Hs1 & Ha).
  rewrite Hauth in Ha. destruct (accts !! email) as [a|] eqn:Ea; [|done].
  destruct (String.eqb old (ac_password a)); [|done]. injection Ha as <- ->.
  cbn [Principal_PasswordGen Principal_Role account_principal] in *.
  pose proof (accounts_refine (OpUpdate email new) accts w1 Hq1) as Href.
  rewrite Hs1 in Href. specialize (Href Hrep). simpl run_op in Href. rewrite Hupd in Href.
  destruct Href as [_ Href]. simpl spec_op in Href. rewrite Ea in Href.
  destruct (good_password new) eqn:Hgood; [|by destruct Href].
  destruct Href as [_ Hrep']. rewrite <- Hsame in Hrep'.
  unfold good_password in Hgood. apply andb_true_iff in Hgood as [_ Hlen%Nat.leb_le].
  specialize (Hrep email) as He. rewrite Ea in He. destruct He as (s & _ & Hh).
  assert (in_int64 (ac_gen a) = true) as Hi by apply Hh. apply in_int64_spec in Hi.
  assert (wrap64 (ac_gen a + 1) = (ac_gen a + 1)%Z) as Hw by (apply wrap64_id, in_int64_spec; lia).
  rewrite Hw in Hrep'. set (b := {| ac_password := new; ac_role := _; ac_gen := _ |}) in Hrep'.
  assert (<[email := b]> accts !! email = Some b) as Eb by apply lookup_insert_eq.
  destruct (sessions_refine _ email old (ac_gen a) w' Hun Hq' Hrep' Hold) as [-> ->].
  destruct (sessions_refine _ email new (ac_gen a + 1) w' Hun Hq' Hrep' Hlen) as [-> Hcur].
  rewrite Eb in *. subst b. cbn [ac_gen ac_password ac_role] in *.
  destruct (Z.ltb_spec (ac_gen a) (ac_gen a + 1)); [|lia].
  destruct (String.eqb_spec old new); [done|]. rewrite String.eqb_refl.
  split; [done|]. split; [done|]. eexists. split; [done|]. cbn [Principal_PasswordGen Principal_Role].
  split; [done|]. split; [done|]. cbn [account_principal Principal_PasswordGen ac_gen].
  rewrite Hcur. by rewrite Z.ltb_irrefl.
Qed.
End refinement.

(** ** Concrete runs *)

Module AuthRuns.
#[local] Existing Instances Sim.client Sim.client_ok Sim.deleter Sim.deleter_ok.

(** A stand-in for bcrypt that keeps the password in the hash. *)
Definition generate (password : string) (_ : Sim.world Secret) : error + string :=
  if (72 <? String.length password)%nat then inl (Errorf "bcrypt: password length exceeds 72 bytes" [])
  else inr ("$2a$" +:+ password).
Definition compare (hash password : string) : bool := String.eqb hash ("$2a$" +:+ password).

#[export] Instance bcrypt_ok : BcryptOk generate compare.
Proof.
  intros password w. unfold generate.
  destruct (Nat.ltb_spec 72 (String.length password)); [done|]. split; [lia|].
  intros p _. unfold compare.
  destruct (String.eqb_spec p password) as [->|Hne]; [apply String.eqb_refl|].
  apply String.eqb_neq. intros E%str_app_inv_head. by subst.
Qed.

Definition dev : string := "dev@example.com".
Definition dev_account : account :=
  {| ac_password := "correct horse"; ac_role := RoleMember; ac_gen := 0 |}.
Definition dev_accounts : gmap string account := {[dev := dev_account]}.

Definition start : Sim.world Secret :=
  Sim.World [Sim.Put (user_secret dev "$2a$correct horse" RoleMember)] [].

Lemma start_represents : represents compare dev_accounts (kstore start).
Proof.
  unfold dev_accounts. rewrite <- insert_empty.
  apply (represents_insert compare ∅ ∅ dev dev_account).
  - intros e. by rewrite !lookup_empty.
  - apply (holds_user_secret compare). intros p _. unfold compare.
    destruct (String.eqb_spec p "correct horse") as [->|Hne]; [done|].
    apply String.eqb_neq. intros E%(str_app_inv_head "$2a$"). by subst.
Qed.

Lemma accounts_refine_witness :
  refines compare (OpUpdate dev "battery staple") dev_accounts start
    (run_op generate (OpUpdate dev "battery staple") start).
Proof.
  apply (accounts_refine generate compare (OpUpdate dev "battery staple") dev_accounts start).
  - reflexivity.
  - exact start_represents.
Defined.

Lemma none_uncached : uncached_ok (W := Sim.world Secret) None.
Proof. intros read k w H. discriminate H. Qed.

Lemma sessions_refine_witness :
  (Authenticate None compare
     {| Credentials_Email := dev; Credentials_Password := "correct horse" |} start).2 =
  inr (account_principal dev dev_account) ∧
  (CurrentPrincipal dev 0 start).2 = inr (account_principal dev dev_account).
Proof.
  apply (sessions_refine None compare dev_accounts dev "correct horse" 0 start).
  - exact none_uncached.
  - reflexivity.
  - exact start_represents.
  - apply Nat.leb_le. reflexivity.
Defined.

Definition changed : Sim.world Secret := (UpdatePassword generate dev "battery staple" start).1.

Lemma password_change_ends_sessions_witness :
  (CurrentPrincipal dev 0 changed).2 = inl ErrPasswordChangeInvalidated ∧
  (Authenticate None compare
     {| Credentials_Email := dev; Credentials_Password := "correct horse" |} changed).2
    = inl invalid_credentials ∧
  ∃ p', (Authenticate None compare
           {| Credentials_Email := dev; Credentials_Password := "battery staple" |} changed).2 = inr p' ∧
    Principal_PasswordGen p' = (0 + 1)%Z ∧ Principal_Role p' = RoleMember ∧
    (CurrentPrincipal dev (Principal_PasswordGen p') changed).2 = inr p'.
Proof.
  apply (password_change_ends_sessions None generate compare dev_accounts dev
    (account_principal dev dev_account) "correct horse" "battery staple" start changed start changed).
  - exact none_uncached.
  - reflexivity.
  - exact start_represents.
  - apply Nat.leb_le. reflexivity.
  - discriminate.
  - reflexivity.
  - vm_compute. reflexivity.
  - vm_compute. reflexivity.
  - reflexivity.
  - reflexivity.
Defined.

(** Revoking a user and creating one with the same email starts the generations again:
    the sessions of the revoked user are accepted for the new one, with its role. *)
Lemma recreated_user_keeps_sessions :
  let ops := [OpRevoke dev; OpCreate dev "another person" RoleAdmin] in
  let w := fold_left (λ w op, (run_op generate op w).1) ops start in
  match (CurrentPrincipal dev 0 w).2 with inr p => Principal_Role p = RoleAdmin | inl _ => False end.
Proof. vm_compute. reflexivity. Qed.

(** A key Secret without a key is never repaired: the recursion meets it again. *)
Lemma empty_signing_key_loops rand_key fuel :
  (∃ key, ∀ w, rand_key w = inr key) →
  signingKey rand_key fuel (Sim.World [Sim.Put (jwt_secret "")] []) = None.
Proof.
  intros [key Hk]. induction fuel as [|fuel IH]; [done|]. cbn [signingKey].
  set (w := Sim.World _ _) in *.
  assert (∃ s, kget (namespace, jwtSecretName) w = (w, inr s) ∧ sec_Data s !! jwtSecretKey = Some "")
    as (s & -> & ->) by (eexists; split; reflexivity).
  simpl Nat.ltb. cbv iota. rewrite Hk.
  assert (∃ e, kcreate (jwt_secret key) w = (w, Some e) ∧ IsAlreadyExists e = true) as (e & -> & ->)
    by (eexists; split; reflexivity).
  exact IH.
Qed.
End AuthRuns.
