(* ===== verification/BuildTracker.v ===== *)
(** * Build trackers: [internal/controller/build_tracker.go]

    The in-memory state of running builds and the log stream that polls it
    ([streamBuildLogs] and [emitBuildLogDelta] in [internal/api/events.go]).  The store
    maps a key to a tracker by reference: the goroutine of a build keeps its tracker
    after the key is gone, so trackers live in a heap. *)

From S2P Require Import Prelude GoStrings Kube.

Abbreviation buildPhase := string (only parsing).
Definition buildPhaseRunning : buildPhase := "Running".
Definition buildPhaseSucceeded : buildPhase := "Succeeded".
Definition buildPhaseFailed : buildPhase := "Failed".

Definition maxBuildLogLines : nat := 1000.
Definition maxBuildLogLineBytes : nat := 2048.
Definition truncatedSuffix : string := "… [truncated]".

Record buildTracker := {
  bt_revision : string;
  bt_phase : buildPhase;
  bt_image : string;
  bt_digest : string;
  bt_detectedPort : Z;
  bt_errMsg : string;
  bt_logs : list string;
  bt_has_cancel : bool;
}.

Definition with_logs (l : list string) (t : buildTracker) : buildTracker :=
  {| bt_revision := bt_revision t; bt_phase := bt_phase t; bt_image := bt_image t;
     bt_digest := bt_digest t; bt_detectedPort := bt_detectedPort t; bt_errMsg := bt_errMsg t;
     bt_logs := l; bt_has_cancel := bt_has_cancel t |}.

(** The line as it is kept. *)
Definition cut_line (line : string) : string :=
  if (maxBuildLogLineBytes <? String.length line)%nat
  then str_take maxBuildLogLineBytes line +:+ truncatedSuffix else line.

Definition appendLog (line : string) (t : buildTracker) : buildTracker :=
  let line := cut_line line in
  let logs := if (maxBuildLogLines <=? length (bt_logs t))%nat then tail (bt_logs t) else bt_logs t in
  with_logs (logs ++ [line]) t.

Definition snapshotLogs (t : buildTracker) : list string := bt_logs t.

Definition snapshotLogsSince (offset : Z) (t : buildTracker) : list string * Z :=
  let total := Z.of_nat (length (bt_logs t)) in
  if (total <=? offset)%Z then ([], total)
  else
    let offset := if (offset <? 0)%Z then 0%Z else offset in
    (drop (Z.to_nat offset) (bt_logs t), total).

Definition setSucceeded (image digest : string) (detectedPort : Z) (t : buildTracker) : buildTracker :=
  {| bt_revision := bt_revision t; bt_phase := buildPhaseSucceeded; bt_image := image;
     bt_digest := digest; bt_detectedPort := detectedPort; bt_errMsg := bt_errMsg t;
     bt_logs := bt_logs t; bt_has_cancel := bt_has_cancel t |}.

Definition setFailed (msg : string) (t : buildTracker) : buildTracker :=
  {| bt_revision := bt_revision t; bt_phase := buildPhaseFailed; bt_image := bt_image t;
     bt_digest := bt_digest t; bt_detectedPort := bt_detectedPort t; bt_errMsg := msg;
     bt_logs := bt_logs t; bt_has_cancel := bt_has_cancel t |}.

Record tracker_snapshot := {
  sn_phase : buildPhase; sn_revision : string; sn_image : string; sn_digest : string;
  sn_errMsg : string; sn_detectedPort : Z;
}.

Definition snapshot (t : buildTracker) : tracker_snapshot :=
  {| sn_phase := bt_phase t; sn_revision := bt_revision t; sn_image := bt_image t;
     sn_digest := bt_digest t; sn_errMsg := bt_errMsg t; sn_detectedPort := bt_detectedPort t |}.

(** ** The store *)

Abbreviation loc := nat (only parsing).

Record BuildTrackerStore := {
  bs_trackers : gmap NamespacedName loc;
  bs_heap : gmap loc buildTracker;
  bs_cancelled : gset loc;
}.

Definition get_ref (key : NamespacedName) (s : BuildTrackerStore) : option loc := bs_trackers s !! key.

Definition set_ref (key : NamespacedName) (t : loc) (s : BuildTrackerStore) : BuildTrackerStore :=
  {| bs_trackers := <[key := t]> (bs_trackers s); bs_heap := bs_heap s;
     bs_cancelled := bs_cancelled s |}.

Definition delete_ref (key : NamespacedName) (s : BuildTrackerStore) : BuildTrackerStore :=
  {| bs_trackers := delete key (bs_trackers s); bs_heap := bs_heap s;
     bs_cancelled := bs_cancelled s |}.

(** A call through a reference to a tracker. *)
Definition on_tracker (t : loc) (f : buildTracker → buildTracker) (s : BuildTrackerStore)
    : BuildTrackerStore :=
  {| bs_trackers := bs_trackers s; bs_heap := alter f t (bs_heap s);
     bs_cancelled := bs_cancelled s |}.

Definition cancelAndDelete (key : NamespacedName) (s : BuildTrackerStore) : BuildTrackerStore :=
  match get_ref key s with
  | None => s
  | Some t =>
    let s := delete_ref key s in
    match bs_heap s !! t with
    | Some tr =>
      if bt_has_cancel tr
      then {| bs_trackers := bs_trackers s; bs_heap := bs_heap s;
              bs_cancelled := {[t]} ∪ bs_cancelled s |}
      else s
    | None => s
    end
  end.

(** [None] stands for the nil slice. *)
Definition GetBuildLogs (key : NamespacedName) (s : BuildTrackerStore) : option (list string) :=
  t ← get_ref key s; tr ← bs_heap s !! t; Some (snapshotLogs tr).

Definition GetBuildLogsSince (key : NamespacedName) (offset : Z) (s : BuildTrackerStore)
    : option (list string) * Z :=
  match t ← get_ref key s; bs_heap s !! t with
  | Some tr => let '(lines, total) := snapshotLogsSince offset tr in (Some lines, total)
  | None => (None, 0%Z)
  end.

(** ** The log stream

    The part of [emitBuildLogDelta] for a running build: the next offset and the lines
    of the event, if one is written. *)
Definition emit_running_delta (key : NamespacedName) (offset : Z) (s : BuildTrackerStore)
    : Z * option (list string) :=
  let effectiveOffset := if (offset <? 0)%Z then 0%Z else offset in
  match GetBuildLogsSince key effectiveOffset s with
  | (Some [], total) => if (0 <=? offset)%Z then (total, None) else (total, Some [])
  | (Some newLines, total) => (total, Some newLines)
  | (None, _) => (0%Z, Some [])
  end.

(** One tick of [streamBuildLogs] for an app whose run is still the same: the offset
    moves only when an event was emitted. *)
Definition stream_tick (key : NamespacedName) (offset : Z) (s : BuildTrackerStore)
    : Z * list string :=
  match emit_running_delta key offset s with
  | (next, Some lines) => (next, lines)
  | (_, None) => (offset, [])
  end.

(** The build appends lines and the stream ticks, in any order. *)
Inductive stream_op := Append (line : string) | Tick.

Record stream_state := { st_store : BuildTrackerStore; st_offset : Z; st_seen : list string }.

Definition stream_step (key : NamespacedName) (t : loc) (op : stream_op) (st : stream_state)
    : stream_state :=
  match op with
  | Append line =>
    {| st_store := on_tracker t (appendLog line) (st_store st); st_offset := st_offset st;
       st_seen := st_seen st |}
  | Tick =>
    let '(offset, lines) := stream_tick key (st_offset st) (st_store st) in
    {| st_store := st_store st; st_offset := offset; st_seen := st_seen st ++ lines |}
  end.

Definition stream_run key t (ops : list stream_op) (st : stream_state) : stream_state :=
  fold_left (λ st op, stream_step key t op st) ops st.

Definition appended (ops : list stream_op) : list string :=
  omap (λ op, match op with Append l => Some l | Tick => None end) ops.

(** ** Facts *)

Lemma cut_line_length line : (String.length (cut_line line) ≤ 2063)%nat.
Proof.
  unfold cut_line. destruct (Nat.ltb_spec maxBuildLogLineBytes (String.length line)) as [H|H].
  - rewrite str_app_length, str_take_length. unfold maxBuildLogLineBytes.
    change (String.length truncatedSuffix) with 15. lia.
  - unfold maxBuildLogLineBytes in H. lia.
Qed.

(** The last [n] elements. *)
Definition lastn {A} (n : nat) (l : list A) : list A := drop (length l - n) l.

Lemma appendLog_lastn line t :
  (length (bt_logs t) ≤ maxBuildLogLines)%nat →
  bt_logs (appendLog line t) = lastn maxBuildLogLines (bt_logs t ++ [cut_line line]).
Proof.
  intros Hlen. unfold appendLog, lastn. cbn [bt_logs with_logs].
  rewrite length_app. simpl length.
  destruct (Nat.leb_spec maxBuildLogLines (length (bt_logs t))) as [H|H].
  - replace (length (bt_logs t) + 1 - maxBuildLogLines) with 1 by lia.
    assert (0 < maxBuildLogLines)%nat by (unfold maxBuildLogLines; lia).
    destruct (bt_logs t) as [|x l]; [simpl in H; lia|done].
  - replace (length (bt_logs t) + 1 - maxBuildLogLines) with 0 by lia. done.
Qed.

Lemma lastn_app_lastn {A} n (l m : list A) :
  lastn n (lastn n l ++ m) = lastn n (l ++ m).
Proof.
  unfold lastn. rewrite !length_app, length_drop.
  destruct (decide (length l ≤ n)%nat) as [Hle|Hgt].
  - replace (length l - n) with 0 by lia. by rewrite drop_0, Nat.sub_0_r.
  - replace (length l - (length l - n)) with n by lia.
    rewrite !skipn_app, drop_drop, !length_drop. f_equal; f_equal; lia.
Qed.

(** ** Correctness *)

(** The buffer holds the last thousand lines, each cut to its limit: appending to
    a bounded buffer gives the end of the whole log. *)
Theorem log_buffer_bounded lines t :
  (length (bt_logs t) ≤ maxBuildLogLines)%nat →
  let logs := bt_logs (fold_left (λ t line, appendLog line t) lines t) in
  logs = lastn maxBuildLogLines (bt_logs t ++ (cut_line <$> lines)) ∧
  (length logs ≤ maxBuildLogLines)%nat ∧
  ∀ line, line ∈ logs → line ∈ bt_logs t ∨ (String.length line ≤ 2063)%nat.
Proof.
  intros Hlen logs. subst logs.
  assert (bt_logs (fold_left (λ t line, appendLog line t) lines t) =
    lastn maxBuildLogLines (bt_logs t ++ (cut_line <$> lines))) as Hlogs.
  { induction lines as [|l ls IH] using rev_ind; simpl.
    - unfold lastn. rewrite app_nil_r. by replace (_ - _) with 0 by lia.
    - rewrite fold_left_app, fmap_app, app_assoc. cbn [fold_left].
      rewrite appendLog_lastn, IH, lastn_app_lastn; [done|].
      rewrite IH. unfold lastn. rewrite length_drop. lia. }
  rewrite Hlogs. split; [done|]. split; [unfold lastn; rewrite length_drop; lia|].
  intros line Hline.
  assert (line ∈ bt_logs t ++ (cut_line <$> lines)) as Hi.
  { unfold lastn in Hline. by eapply subseteq_drop. }
  apply elem_of_app in Hi as [?|Hi]; [by left|right].
  apply list_elem_of_fmap in Hi as (x & -> & _). apply cut_line_length.
Qed.

(** What the stream knows while the buffer has not rolled. *)
Definition stream_inv (key : NamespacedName) (t : loc) (done : list string) (st : stream_state) : Prop :=
  get_ref key (st_store st) = Some t ∧
  (∃ tr, bs_heap (st_store st) !! t = Some tr ∧ bt_logs tr = cut_line <$> done) ∧
  (st_offset st = (-1)%Z ∧ st_seen st = [] ∨
   (0 ≤ st_offset st)%Z ∧ st_seen st = take (Z.to_nat (st_offset st)) (cut_line <$> done) ∧
   (Z.to_nat (st_offset st) ≤ length done)%nat).

Lemma append_inv key t done st line :
  stream_inv key t done st → (length done < maxBuildLogLines)%nat →
  stream_inv key t (done ++ [line]) (stream_step key t (Append line) st).
Proof.
  intros (Hk & (tr & Ht & Hl) & Hoff) Hlen. split; [done|]. split.
  - exists (appendLog line tr). cbn [st_store stream_step on_tracker bs_heap].
    rewrite lookup_alter_eq, Ht. split; [done|].
    rewrite appendLog_lastn by (rewrite Hl, length_fmap; lia). rewrite Hl, fmap_app.
    unfold lastn. rewrite length_app, length_fmap. cbn [length fmap list_fmap].
    by replace (_ - _) with 0 by lia.
  - cbn [st_offset st_seen stream_step]. destruct Hoff as [?|(H0 & Hs & Hle)]; [by left|right]. split; [done|].
    rewrite length_app. simpl. split; [|lia].
    rewrite fmap_app, take_app_le by (rewrite length_fmap; lia). done.
Qed.

Lemma tick_inv key t done st :
  stream_inv key t done st →
  let st' := stream_step key t Tick st in
  stream_inv key t done st' ∧ st_seen st' = cut_line <$> done.
Proof.
  intros (Hk & (tr & Ht & Hl) & Hoff).
  unfold stream_step, stream_tick, emit_running_delta, GetBuildLogsSince, stream_inv.
  rewrite Hk. simpl. rewrite Ht. unfold snapshotLogsSince. rewrite Hl, length_fmap.
  set (logs := cut_line <$> done). assert (length logs = length done) as Hlogs by apply length_fmap.
  assert (∀ n, (n ≤ length done)%nat → take n logs ++ drop n logs = logs) as Htd
    by (intros; apply take_drop).
  assert (take (length done) logs = logs) as Hall by (rewrite <- Hlogs; apply firstn_all).
  destruct Hoff as [[Hm Hs]|(H0 & Hs & Hle)].
  - rewrite Hm, Hs. simpl.
    destruct (Z.leb_spec (Z.of_nat (length done)) 0) as [Hz|Hz].
    + assert (done = []) as -> by (destruct done; [done|simpl in Hz; lia]).
      simpl. split; [|done]. split; [done|]. split; [by exists tr|]. right. simpl. split; [lia|done].
    + simpl. rewrite drop_0. destruct logs as [|x xs] eqn:E; [simpl in Hlogs; lia|].
      rewrite <- E in *. cbn [st_store st_offset st_seen]. rewrite Nat2Z.id.
      split; [|done]. split; [done|]. split; [by exists tr|]. right.
      split; [lia|]. split; [by rewrite Hall|lia].
  - destruct (Z.ltb_spec (st_offset st) 0); [lia|].
    destruct (Z.leb_spec (Z.of_nat (length done)) (st_offset st)) as [Hz|Hz].
    + destruct (Z.leb_spec 0 (st_offset st)); [|lia]. simpl. rewrite app_nil_r.
      split; [|rewrite Hs; by replace (Z.to_nat (st_offset st)) with (length done) by lia].
      split; [done|]. split; [by exists tr|]. right. done.
    + destruct (Z.ltb_spec (st_offset st) 0); [lia|].
      destruct (drop (Z.to_nat (st_offset st)) logs) as [|x xs] eqn:E.
      { apply (f_equal length) in E. rewrite length_drop in E. simpl in E. lia. }
      rewrite <- E. cbn [st_store st_offset st_seen]. rewrite Hs, Htd, Nat2Z.id by lia.
      split; [|done]. split; [done|]. split; [by exists tr|]. right.
      split; [lia|]. split; [by rewrite Hall|lia].
Qed.

Lemma run_inv key t ops st done :
  stream_inv key t done st → (length done + length (appended ops) ≤ maxBuildLogLines)%nat →
  stream_inv key t (done ++ appended ops) (stream_run key t ops st).
Proof.
  revert st done. induction ops as [|op ops IH]; intros st done Hinv Hlen.
  { by rewrite app_nil_r. }
  destruct op as [line|]; cbn [appended omap list_omap] in *.
  - change (stream_run key t (Append line :: ops) st) with
      (stream_run key t ops (stream_step key t (Append line) st)).
    change (done ++ line :: _) with (done ++ [line] ++ appended ops). rewrite app_assoc.
    simpl in Hlen. apply IH; [|rewrite length_app; simpl; unfold appended; lia].
    apply append_inv; [done|lia].
  - change (stream_run key t (Tick :: ops) st) with
      (stream_run key t ops (stream_step key t Tick st)).
    apply IH; [|done]. by apply tick_inv.
Qed.

(** While a build has produced no more lines than the buffer holds, the stream
    shows every line once and in order, however the build and the ticks interleave. *)
Theorem stream_complete key t ops s tr :
  get_ref key s = Some t → bs_heap s !! t = Some tr → bt_logs tr = [] →
  (length (appended ops) ≤ maxBuildLogLines)%nat →
  st_seen (stream_run key t (ops ++ [Tick]) {| st_store := s; st_offset := -1; st_seen := [] |}) =
  cut_line <$> appended ops.
Proof.
  intros Hk Ht Hl Hlen. unfold stream_run. rewrite fold_left_app. simpl fold_left at 1.
  apply (tick_inv key t). apply (run_inv key t ops _ []); [|done].
  split; [done|]. split; [by exists tr|]. by left.
Qed.

(** ** Concrete runs *)

Module TrackerRuns.
Definition key : NamespacedName := ("pj-shop", "web").
Definition fresh : buildTracker :=
  {| bt_revision := "abc"; bt_phase := buildPhaseRunning; bt_image := ""; bt_digest := "";
     bt_detectedPort := 0; bt_errMsg := ""; bt_logs := []; bt_has_cancel := true |}.
Definition store : BuildTrackerStore :=
  {| bs_trackers := {[key := 0]}; bs_heap := {[0 := fresh]}; bs_cancelled := ∅ |}.
Definition start : stream_state := {| st_store := store; st_offset := -1; st_seen := [] |}.

Lemma log_buffer_bounded_witness :
  let logs := bt_logs (fold_left (λ t line, appendLog line t) ["a"; "b"] fresh) in
  logs = lastn maxBuildLogLines (bt_logs fresh ++ (cut_line <$> ["a"; "b"])) ∧
  (length logs ≤ maxBuildLogLines)%nat ∧
  ∀ line, line ∈ logs → line ∈ bt_logs fresh ∨ (String.length line ≤ 2063)%nat.
Proof. apply (log_buffer_bounded ["a"; "b"] fresh). apply le_0_n. Defined.

Lemma stream_complete_witness :
  st_seen (stream_run key 0 ([Append "a"; Tick; Append "b"; Append "c"] ++ [Tick]) start) =
  cut_line <$> appended [Append "a"; Tick; Append "b"; Append "c"].
Proof.
  apply (stream_complete key 0 [Append "a"; Tick; Append "b"; Append "c"] store fresh).
  - reflexivity.
  - reflexivity.
  - reflexivity.
  - unfold maxBuildLogLines. simpl. lia.
Defined.

(** Once the buffer has rolled, its length no longer moves: the stream sees nothing of
    what the build prints from then on. *)
Lemma stream_stalls :
  let ops := repeat (Append "line") 1000 ++ [Tick] ++ repeat (Append "news") 500 ++ [Tick] in
  st_seen (stream_run key 0 ops start) = repeat "line" 1000.
Proof. vm_compute. reflexivity. Qed.
End TrackerRuns.
