(* ===== verification/BuildRunReconcile.v ===== *)
(** * The build run controller: [internal/controller/buildrun_controller.go] and
    [build_runner.go]

    The reconciliation of a [BuildRun] on a world that the other writers change, with the
    trackers of the builds of this process and the builds it has started.  A build is the
    sequence of operations its goroutine does on its tracker ([runBuild]); when they happen
    is left to the steps of [BuildRunSystem]. *)

From S2P Require Import Prelude GoStrings GoNum GoTime GoUrl GoText Kube Core Api KubeStatus Effects Controller Constants BuildRun BuildTracker.

Definition buildRunPollInterval : Z := 15 * Second.
Definition buildRunTrackerLossGrace : Z := 5 * Second.
Definition buildRunHistoryLimit : nat := 10.
Definition maxBuildRunInterruptionAttempts : Z := 5.
Definition buildRunInterruptionBackoffBase : Z := Minute.
Definition buildRunInterruptedCondition : string := "Interrupted".

Definition buildLogAnnotationTimestamp : string := "mortise.dev/build-timestamp".
Definition buildLogAnnotationCommit : string := "mortise.dev/build-commit".
Definition buildLogAnnotationStatus : string := "mortise.dev/build-status".
Definition buildLogAnnotationError : string := "mortise.dev/build-error".
Definition maxBuildLogConfigMapBytes : Z := 900000.
Definition maxBuildErrorAnnotationBytes : Z := 1024.
Definition revisionEnvName : string := "MORTISE_REVISION".

Definition buildLogsConfigMapName (appName : string) : string := "buildlogs-" +:+ appName.

(** ** Image references *)

Record ImageRef := { ir_Registry : string; ir_Path : string; ir_Tag : string; ir_Full : string }.

Definition parseImageRef (full : string) : ImageRef :=
  let '(registry, path) := match cut "/"%char full with
                           | (before, after, true) => (before, after)
                           | _ => ("", "")
                           end in
  match last_index_char ":"%char path with
  | Some i => {| ir_Registry := registry; ir_Path := str_take i path; ir_Tag := str_drop (S i) path; ir_Full := full |}
  | None => {| ir_Registry := registry; ir_Path := path; ir_Tag := ""; ir_Full := full |}
  end.

(** The reference by digest. *)
Definition pinned (ref : ImageRef) (digest : string) : string :=
  ir_Registry ref +:+ "/" +:+ ir_Path ref +:+ "@" +:+ digest.

(** ** Running a build *)

Record buildParams := {
  bp_appName : string; bp_namespace : string; bp_revision : string; bp_repo : string; bp_branch : string;
  bp_token : string; bp_path : string; bp_dockerfile : string; bp_buildArgs : gmap string string;
  bp_buildContext : BuildContext; bp_noCache : bool; bp_imageRef : ImageRef; bp_pullImageRef : ImageRef;
}.

Record BuildRequest := {
  brq_AppName : string; brq_Namespace : string; brq_SourceDir : string; brq_DockerfileDir : string;
  brq_ContextMode : string; brq_Dockerfile : string; brq_BuildArgs : gmap string string;
  brq_NoCache : bool; brq_PushTarget : string;
}.

Definition ContextModeRoot : string := "root".
Definition ContextModeSubdir : string := "subdir".

Definition toContextMode (c : BuildContext) : string :=
  if String.eqb c BuildContextRoot then ContextModeRoot
  else if String.eqb c BuildContextSubdir then ContextModeSubdir else "".

Definition withRevisionBuildArg (args : gmap string string) (branch revision : string) : gmap string string :=
  if String.eqb revision "" || String.eqb revision branch then args
  else match args !! revisionEnvName with
       | Some _ => args
       | None => <[revisionEnvName := revision]> args
       end.

(** The events of a build client. *)
Inductive BuildEvent :=
| EventLog (line : string)
| EventSuccess (digest : string) (detectedPort : Z)
| EventFailure (err : string).

(** What the goroutine of a build does to its tracker. *)
Inductive tracker_op :=
| OpLog (line : string)
| OpFailed (msg : string)
| OpSucceeded (image digest : string) (detectedPort : Z).

Definition tracker_do (op : tracker_op) : buildTracker → buildTracker :=
  match op with
  | OpLog line => appendLog line
  | OpFailed msg => setFailed msg
  | OpSucceeded image digest port => setSucceeded image digest port
  end.

(** [os.Stat]: an error, which may say that there is no such file, or whether it is a
    directory. *)
Inductive stat := StatMissing | StatError (err : error) | StatFile | StatDir.

Record file_system := { fs_Join : string → string → string; fs_Stat : string → stat }.

Definition resolveSourceDir (fs : file_system) (cloneDir path : string) : error + string :=
  if String.eqb path "" then inr cloneDir
  else if has_prefix "/" path then inl (Errorf "source path %q must be relative" [path])
  else if existsb (String.eqb "..") (split "/"%char path)
  then inl (Errorf "source path %q must not contain '..' segments" [path])
  else
    let resolved := fs_Join fs cloneDir path in
    match fs_Stat fs resolved with
    | StatMissing => inl (Errorf "source path %q not found in repo" [path])
    | StatError err => inl (Errorf "stat source path %q: %v" [path; error_text err])
    | StatFile => inl (Errorf "source path %q is not a directory" [path])
    | StatDir => inr resolved
    end.

(** What the goroutine uses: the file system, the git client and the build client, whose
    events arrive until it closes the channel. *)
Record build_host := {
  bh_MkdirTemp : error + string;
  bh_Clone : string → string → string → string → option error;
  bh_CheckoutRevision : string → string → option error;
  bh_fs : file_system;
  bh_Submit : BuildRequest → error + list BuildEvent;
}.

(** The loop over the events. *)
Fixpoint drain_events (appendLogs : bool) (pull : ImageRef) (digest : string) (detectedPort : Z)
    (events : list BuildEvent) : list tracker_op :=
  match events with
  | [] => [OpSucceeded (if String.eqb digest "" then ir_Full pull else pinned pull digest) digest detectedPort]
  | EventLog line :: events =>
    (if appendLogs then [OpLog line] else []) ++ drain_events appendLogs pull digest detectedPort events
  | EventSuccess digest detectedPort :: events => drain_events appendLogs pull digest detectedPort events
  | EventFailure err :: _ => [OpFailed err]
  end.

Definition build_request (p : buildParams) (cloneDir dockerfileDir : string) : BuildRequest :=
  {| brq_AppName := bp_appName p; brq_Namespace := bp_namespace p; brq_SourceDir := cloneDir;
     brq_DockerfileDir := dockerfileDir; brq_ContextMode := toContextMode (bp_buildContext p);
     brq_Dockerfile := bp_dockerfile p;
     brq_BuildArgs := withRevisionBuildArg (bp_buildArgs p) (bp_branch p) (bp_revision p);
     brq_NoCache := bp_noCache p; brq_PushTarget := ir_Full (bp_imageRef p) |}.

Definition runBuild (appendLogs : bool) (h : build_host) (p : buildParams) : list tracker_op :=
  match bh_MkdirTemp h with
  | inl err => [OpFailed ("create temp dir: " +:+ error_text err)]
  | inr cloneDir =>
    match bh_Clone h (bp_repo p) (bp_branch p) cloneDir (bp_token p) with
    | Some err => [OpFailed ("CloneFailed: " +:+ error_text err)]
    | None =>
      match (if negb (String.eqb (bp_revision p) "") && negb (String.eqb (bp_revision p) (bp_branch p))
             then bh_CheckoutRevision h cloneDir (bp_revision p) else None) with
      | Some err => [OpFailed ("CheckoutRevisionFailed: " +:+ error_text err)]
      | None =>
        match resolveSourceDir (bh_fs h) cloneDir (bp_path p) with
        | inl err => [OpFailed (error_text err)]
        | inr dockerfileDir =>
          match bh_Submit h (build_request p cloneDir dockerfileDir) with
          | inl err => [OpFailed ("BuildSubmitFailed: " +:+ error_text err)]
          | inr events => drain_events appendLogs (bp_pullImageRef p) "" 0 events
          end
        end
      end
    end
  end.

(** ** Logs *)

(** The oldest lines are dropped until the text fits. *)
Fixpoint fit_lines (lines : list string) : list string :=
  match lines with
  | [] => []
  | _ :: rest => if (maxBuildLogConfigMapBytes <? Z.of_nat (String.length (join nl lines)))%Z then fit_lines rest else lines
  end.

(** The lines of a log that is stored already, followed by those of the build. *)
Definition merge_lines (merged current : list string) : list string :=
  let n := length current in
  if (0 <? n) && (n <=? length merged) && bool_decide (drop (length merged - n) merged = current) then merged
  else match last merged, current with
       | Some line, first :: rest => if String.eqb line first then merged ++ rest else merged ++ current
       | _, _ => merged ++ current
       end.

(** The lines a log ConfigMap holds. *)
Definition stored_lines (cm : ConfigMap) : list string :=
  let text := map_get (cm_Data cm) "lines" in
  if String.eqb text "" then [] else split (Ascii.ascii_of_nat 10) text.

(** ** The controller *)

(** A build that was started: its tracker and what it was started with. *)
Record spawned := { sp_tracker : nat; sp_key : NamespacedName; sp_params : buildParams }.

(** An observation of the build metrics: the outcome of a run. *)
Record build_outcome := {
  bo_project : string; bo_app : string; bo_result : string; bo_duration : option Z;
}.

Definition recordBuildOutcome (br : BuildRun) (result : string) (finished : Time) : list build_outcome :=
  match ProjectFromControlNs (run_ns br) with
  | (project, true) =>
    [{| bo_project := project; bo_app := BuildRunSpec_AppName (BuildRun_Spec br); bo_result := result;
        bo_duration := (λ started, (finished - started)%Z) <$> BuildRunStatus_StartedAt (BuildRun_Status br) |}]
  | (_, false) => []
  end.

Definition buildRunInterruptionBackoff (attempt : Z) : Z :=
  if (attempt <? 2)%Z then 0%Z else wrap64 (Z.shiftl buildRunInterruptionBackoffBase (attempt - 2)).

Definition buildRunRetentionSortTime (run : BuildRun) : Time :=
  let status := BuildRun_Status run in
  match BuildRunStatus_CompletedAt status, BuildRunStatus_FinishedAt status, BuildRunStatus_StartedAt status with
  | Some t, _, _ => t
  | None, Some t, _ => t
  | None, None, Some t => t
  | None, None, None => meta_CreationTimestamp (BuildRun_ObjectMeta run)
  end.

(** The order of retention: the latest first, then by name. *)
Definition retained_before (a b : BuildRun) : Prop :=
  (buildRunRetentionSortTime b < buildRunRetentionSortTime a)%Z ∨
  buildRunRetentionSortTime a = buildRunRetentionSortTime b ∧ String.le (run_name a) (run_name b).
#[export] Instance retained_before_dec a b : Decision (retained_before a b).
Proof. unfold retained_before. apply _. Defined.

(** The runs that are retired: the terminal ones nothing refers to, after the first ten. *)
Fixpoint retired (protected : gset string) (kept : nat) (runs : list BuildRun) : list BuildRun :=
  match runs with
  | [] => []
  | run :: runs =>
    if negb (isBuildRunTerminal run) || bool_decide (run_name run ∈ protected) then retired protected kept runs
    else if kept <? buildRunHistoryLimit then retired protected (S kept) runs
    else run :: retired protected kept runs
  end.

(** The names the status of an app refers to. *)
Definition referenced_runs (app : App) : gset string :=
  let named (name : string) : gset string := if String.eqb name "" then ∅ else {[name]} in
  named (AppStatus_CurrentBuildRunName (App_Status app)) ∪
  (named (AppStatus_LastBuildRunName (App_Status app)) ∪
   ⋃ ((λ env, named (ref_name (EnvironmentStatus_CurrentBuildRunRef env)) ∪
              named (ref_name (EnvironmentStatus_LastSuccessfulBuildRunRef env)))
        <$> AppStatus_Environments (App_Status app))).

(** *** Statuses *)

Section statuses.
Context {CH : ConditionHelpers}.

Definition on_run_status (f : BuildRunStatus → BuildRunStatus) (br : BuildRun) : BuildRun :=
  with_BuildRun_Status (f (BuildRun_Status br)) br.

Definition run_generation (br : BuildRun) : Z := meta_Generation (BuildRun_ObjectMeta br).

Definition on_conditions (f : list Condition → list Condition) (s : BuildRunStatus) : BuildRunStatus :=
  with_BuildRunStatus_Conditions (f (BuildRunStatus_Conditions s)) s.

Definition finished (now : Time) (s : BuildRunStatus) : BuildRunStatus :=
  with_BuildRunStatus_CompletedAt (Some now) (with_BuildRunStatus_FinishedAt (Some now) s).

Definition failure (reason message : string) (s : BuildRunStatus) : BuildRunStatus :=
  with_BuildRunStatus_FailureMessage message (with_BuildRunStatus_FailureReason reason s).

Definition succeeded (image digest : string) (s : BuildRunStatus) : BuildRunStatus :=
  failure "" "" (with_BuildRunStatus_Digest digest (with_BuildRunStatus_Image image
    (with_BuildRunStatus_Phase BuildRunPhaseSucceeded s))).

Definition set_started (now : Time) (s : BuildRunStatus) : BuildRunStatus :=
  match BuildRunStatus_StartedAt s with Some _ => s | None => with_BuildRunStatus_StartedAt (Some now) s end.

(** The tracker of the run says that it is running. *)
Definition mark_running (now : Time) (br : BuildRun) : BuildRun :=
  on_run_status (λ s, on_conditions (setBuildRunCondition BuildRunPhaseRunning (run_generation br) "build is running" now)
    (set_started now (with_BuildRunStatus_Phase BuildRunPhaseRunning s))) br.

(** The outcome of a build. *)
Definition mark_outcome (now : Time) (logRef : option string) (sn : tracker_snapshot) (image digest : string)
    (br : BuildRun) : BuildRun :=
  let s0 s := with_BuildRunStatus_LogRef logRef (finished now s) in
  if String.eqb (sn_phase sn) buildPhaseSucceeded then
    on_run_status (λ s, on_conditions
      (setBuildRunCondition BuildRunPhaseSucceeded (run_generation br) "build completed" now)
      (with_BuildRunStatus_DetectedPort (sn_detectedPort sn) (succeeded image digest (s0 s)))) br
  else
    on_run_status (λ s, on_conditions
      (setBuildRunCondition BuildRunPhaseFailed (run_generation br) (sn_errMsg sn) now)
      (failure "BuildFailed" (sn_errMsg sn) (with_BuildRunStatus_Phase BuildRunPhaseFailed (s0 s)))) br.

(** An image that the interrupted attempt had pushed. *)
Definition mark_adopted (now : Time) (log image digest : string) (br : BuildRun) : BuildRun :=
  on_run_status (λ s, on_conditions (λ l,
      setBuildRunCondition BuildRunPhaseSucceeded (run_generation br)
        "build completed (adopted image pushed by interrupted attempt)" now
        (RemoveStatusCondition buildRunInterruptedCondition l))
    (with_BuildRunStatus_LogRef (Some log) (finished now (succeeded image digest s)))) br.

Definition mark_failed (now : Time) (attempt : Z) (reason message : string) (br : BuildRun) : BuildRun :=
  on_run_status (λ s, on_conditions (setBuildRunCondition BuildRunPhaseFailed (run_generation br) message now)
    (finished now (failure reason message (with_BuildRunStatus_Phase BuildRunPhaseFailed
      (with_BuildRunStatus_Attempt attempt s))))) br.

Definition interrupted_condition (now : Time) (br : BuildRun) : Condition :=
  {| Condition_Type := buildRunInterruptedCondition; Condition_Status := "True";
     Condition_ObservedGeneration := run_generation br; Condition_LastTransitionTime := now;
     Condition_Reason := "BuildInterrupted";
     Condition_Message := "build tracker lost on attempt " +:+ itoa (BuildRunStatus_Attempt (BuildRun_Status br)) +:+
                          "; retrying after backoff" |}.

Definition mark_interrupted (now : Time) (br : BuildRun) : BuildRun :=
  on_run_status (on_conditions (SetStatusCondition (interrupted_condition now br))) br.

Definition mark_started (now : Time) (attempt : Z) (br : BuildRun) : BuildRun :=
  let message := if (1 <? attempt)%Z
                 then "build recovered after tracker loss (attempt " +:+ itoa attempt +:+ ")"
                 else "build is running" in
  on_run_status (λ s, on_conditions (λ l,
      setBuildRunCondition BuildRunPhaseRunning (run_generation br) message now
        (RemoveStatusCondition buildRunInterruptedCondition l))
    (failure "" "" (with_BuildRunStatus_FinishedAt None (with_BuildRunStatus_CompletedAt None
      (set_started now (with_BuildRunStatus_Phase BuildRunPhaseRunning
        (with_BuildRunStatus_Attempt attempt s))))))) br.
End statuses.

(** *** Handlers *)

Section handlers.
Context {W : Type} {CR : KubeClient W BuildRun} {SR : KubeStatus W BuildRun} {LR : KubeListIn W BuildRun}
  {DR : KubeDelete W BuildRun} {CC : KubeClient W ConfigMap} {DC : KubeDelete W ConfigMap}
  {CS : KubeClient W Secret} {CA : KubeClient W App} {SA : KubeStatus W App}
  {KR : KubeRetry W} {KRB : KubeRetry (W * BuildRun)} {KE : KubeOnError W} {CH : ConditionHelpers} (R : MapRange).
(** [controllerutil.SetControllerReference(owner, obj, r.Scheme)] on the metadata, the
    clock, the uncached reader, whether the git and build clients are configured, and the
    registry, if it is: [ResolveTag] answers with the digest and whether the tag exists. *)
Context (SetControllerReference : ObjectMeta → ObjectMeta → error + ObjectMeta) (now : W → Time)
  (uncached_get : NamespacedName → W → W * (error + BuildRun)) (clients : bool)
  (ResolveTag : option (W → string → string → string → error + string * bool)).

(** The controller: the world, the trackers, the builds it has started and the metrics it
    has recorded. *)
Record RState := {
  rs_world : W; rs_builds : BuildTrackerStore; rs_spawned : list spawned; rs_outcomes : list build_outcome;
}.

Definition in_world {A} (m : E W A) : E RState A := λ s,
  let '(w, r) := m (rs_world s) in
  ({| rs_world := w; rs_builds := rs_builds s; rs_spawned := rs_spawned s; rs_outcomes := rs_outcomes s |}, r).
Definition on_builds (f : BuildTrackerStore → BuildTrackerStore) : E RState unit := λ s,
  ({| rs_world := rs_world s; rs_builds := f (rs_builds s); rs_spawned := rs_spawned s; rs_outcomes := rs_outcomes s |},
   inr tt).
Definition observe (l : list build_outcome) : E RState unit := λ s,
  ({| rs_world := rs_world s; rs_builds := rs_builds s; rs_spawned := rs_spawned s; rs_outcomes := rs_outcomes s ++ l |},
   inr tt).
Definition read_clock : E W Time := λ w, (w, inr (now w)).

(** The name of the log of a run; its computation does not panic
    ([buildRunLogConfigMapName_total]). *)
Definition log_name (runName : string) : string := default "" (buildRunLogConfigMapName runName).

Definition upsert_once (desired : ConfigMap) (w : W) : W * option error :=
  match kget (obj_key desired) w with
  | (w, inl err) => if IsNotFound err then kcreate desired w else (w, Some err)
  | (w, inr existing) =>
    let m := cm_meta desired in
    kupdate {| cm_meta := with_owners (meta_OwnerReferences m) (with_annotations (meta_Annotations m)
                 (with_labels (meta_Labels m) (cm_meta existing)));
               cm_Data := cm_Data desired |} w
  end.

Definition upsertConfigMap (desired : ConfigMap) : E W unit :=
  run (OnError (λ err, IsConflict err || IsAlreadyExists err) (upsert_once desired)).

Definition mergedBuildRunLogLines (br : BuildRun) (current : list string) : E W (list string) := λ w,
  match kget (run_ns br, log_name (run_name br)) w with
  | (w, inl err) => if IsNotFound err then (w, inr current) else (w, inl err)
  | (w, inr existing) => (w, inr (merge_lines (stored_lines existing) current))
  end.

Definition log_labels : gmap string string := {["app.kubernetes.io/managed-by" := "mortise"]}.

(** [t.UTC().Format(time.RFC3339Nano)], for the years of four digits. *)
Definition stamp (t : Time) : string := default "" (format_time t).

Definition log_config_map (ns name : string) (annotations : gmap string string) (lines : list string) : ConfigMap :=
  {| cm_meta := with_annotations annotations (with_labels log_labels (with_name name (with_namespace ns ObjectMeta_zero)));
     cm_Data := {["lines" := join nl lines]} |}.

(** The object with an owner. *)
Definition owned (owner : ObjectMeta) (cm : ConfigMap) : E W ConfigMap := λ w,
  match SetControllerReference owner (cm_meta cm) with
  | inl err => (w, inl err)
  | inr m => (w, inr {| cm_meta := m; cm_Data := cm_Data cm |})
  end.

Definition appendBuildRunLogMarker (br : BuildRun) (marker : string) : E W unit :=
  if String.eqb marker "" then mret tt
  else
    lines ← mergedBuildRunLogLines br [marker];
    t ← read_clock;
    runLog ← owned (BuildRun_ObjectMeta br) (log_config_map (run_ns br) (log_name (run_name br))
               {[buildLogAnnotationTimestamp := stamp t;
                 buildLogAnnotationCommit := BuildRunSpec_Revision (BuildRun_Spec br);
                 buildLogAnnotationStatus := run_phase br]} (fit_lines lines));
    upsertConfigMap runLog.

Definition cut_error (errMsg : string) : string :=
  if (maxBuildErrorAnnotationBytes <? Z.of_nat (String.length errMsg))%Z
  then str_take (Z.to_nat maxBuildErrorAnnotationBytes) errMsg else errMsg.

Definition with_uid (uid : string) (m : ObjectMeta) : ObjectMeta :=
  {| meta_Name := meta_Name m; meta_Namespace := meta_Namespace m; meta_Labels := meta_Labels m;
     meta_Annotations := meta_Annotations m; meta_UID := uid; meta_OwnerReferences := meta_OwnerReferences m;
     meta_ResourceVersion := meta_ResourceVersion m; meta_Generation := meta_Generation m;
     meta_CreationTimestamp := meta_CreationTimestamp m; meta_DeletionTimestamp := meta_DeletionTimestamp m;
     meta_Finalizers := meta_Finalizers m |}.

(** The copy of the log under the name of the app. *)
Definition legacy_log (br : BuildRun) (runLog : ConfigMap) : E W unit :=
  let target := BuildRunSpec_TargetRef (BuildRun_Spec br) in
  if negb (String.eqb (BuildRunTargetRef_Kind target) BuildRunTargetAppEnvironment) then mret tt
  else λ w,
    match kget (run_ns br, BuildRunSpec_AppName (BuildRun_Spec br)) w with
    | (w, inl err) => if IsNotFound err then (w, inr tt) else (w, inl err)
    | (w, inr app) =>
      let legacy := {| cm_meta := with_uid "" (with_rv "" (with_owners []
                         (with_name (buildLogsConfigMapName (BuildRunTargetRef_Name target)) (cm_meta runLog))));
                       cm_Data := cm_Data runLog |} in
      (legacy ← owned (App_ObjectMeta app) legacy; upsertConfigMap legacy) w
    end.

Definition persistBuildRunLog (br : BuildRun) (tracker : buildTracker) : E W string :=
  let sn := snapshot tracker in
  lines ← mergedBuildRunLogLines br (snapshotLogs tracker);
  t ← read_clock;
  let annotations : gmap string string :=
    {[buildLogAnnotationTimestamp := stamp t;
      buildLogAnnotationCommit := BuildRunSpec_Revision (BuildRun_Spec br);
      buildLogAnnotationStatus := if String.eqb (sn_phase sn) buildPhaseFailed then "Failed" else "Succeeded"]} in
  let annotations := if String.eqb (sn_errMsg sn) "" then annotations
                     else <[buildLogAnnotationError := cut_error (sn_errMsg sn)]> annotations in
  runLog ← owned (BuildRun_ObjectMeta br)
             (log_config_map (run_ns br) (log_name (run_name br)) annotations (fit_lines lines));
  _ ← upsertConfigMap runLog;
  _ ← legacy_log br runLog;
  mret (meta_Name (cm_meta runLog)).

Definition projectTerminalBuildRunStatus (br : BuildRun) : E W unit :=
  let target := BuildRunSpec_TargetRef (BuildRun_Spec br) in
  if String.eqb (BuildRunTargetRef_Kind target) BuildRunTargetAppEnvironment then
    run (RetryOnConflict (λ w,
      match kget (run_ns br, BuildRunTargetRef_Name target) w with
      | (w, inl err) => if IsNotFound err then (w, None) else (w, Some err)
      | (w, inr app) => kstatus_update (projectAppBuildRunStatus (BuildRunSpec_Environment (BuildRun_Spec br)) br app) w
      end))
  else mret tt.

(** *** History *)

Definition protectedBuildRunNames (br : BuildRun) : E W (gset string) := λ w,
  let name := BuildRunTargetRef_Name (BuildRunSpec_TargetRef (BuildRun_Spec br)) in
  if String.eqb name "" then (w, inr ∅)
  else match kget (run_ns br, name) w with
       | (w, inl err) => if IsNotFound err then (w, inr ∅) else (w, inl err)
       | (w, inr app) => (w, inr (referenced_runs app))
       end.

Definition ignore_missing (f : W → W * option error) : E W unit := λ w,
  match f w with
  | (w, Some err) => if IsNotFound err then (w, inr tt) else (w, inl err)
  | (w, None) => (w, inr tt)
  end.

(** The names of the logs of a run, in the order the map is iterated in. *)
Definition run_log_names (br : BuildRun) : list string :=
  let ref := default "" (BuildRunStatus_LogRef (BuildRun_Status br)) in
  let names : gmap string unit := {[log_name (run_name br) := tt]} in
  (range (if String.eqb ref "" then names else <[ref := tt]> names)).*1.

Definition deleteRetiredBuildRun (br : BuildRun) : E W unit :=
  _ ← for_each (λ name, ignore_missing (kdelete ConfigMap (run_ns br, name))) (run_log_names br);
  ignore_missing (kdelete BuildRun (obj_key br)).

Definition run_selector (br : BuildRun) : gmap string string :=
  {[buildRunTargetKindLabel := to_lower BuildRunTargetAppEnvironment;
    buildRunTargetNameLabel := BuildRunTargetRef_Name (BuildRunSpec_TargetRef (BuildRun_Spec br));
    buildRunEnvironmentLabel := BuildRunSpec_Environment (BuildRun_Spec br)]}.

Definition gcBuildRunHistory (br : BuildRun) : E W unit :=
  let target := BuildRunSpec_TargetRef (BuildRun_Spec br) in
  if negb (String.eqb (BuildRunTargetRef_Kind target) BuildRunTargetAppEnvironment) ||
     String.eqb (BuildRunTargetRef_Name target) "" || String.eqb (BuildRunSpec_Environment (BuildRun_Spec br)) ""
  then mret tt
  else
    runs ← klist_in (Obj := BuildRun) (run_ns br) (run_selector br);
    protected ← protectedBuildRunNames br;
    for_each deleteRetiredBuildRun (retired protected 0 (merge_sort retained_before runs)).

(** *** Attempts *)

Definition failBuildRun (br : BuildRun) (attempt : Z) (reason message : string) : E W BuildRun :=
  t ← read_clock;
  let br := mark_failed t attempt reason message br in
  _ ← run (kstatus_update br);
  mret br.

Definition resolveBuildRunGitToken (br : BuildRun) : E W (error + string) := λ w,
  match BuildRunSpec_TokenSecretRef (BuildRun_Spec br) with
  | None => (w, inr (inl (Errorf "token secret ref is required" [])))
  | Some ref =>
    let '(ns, name) := (SecretRef_Namespace ref, SecretRef_Name ref) in
    match kget (ns, name) w with
    | (w, inl err) => (w, inr (inl (Wrapf "get token secret %s/%s: %w" [ns; name] err)))
    | (w, inr secret) =>
      let token := map_get (sec_Data secret) (SecretRef_Key ref) in
      if String.eqb token ""
      then (w, inr (inl (Errorf "token secret %s/%s key %q is empty" [ns; name; SecretRef_Key ref])))
      else (w, inr (inr token))
    end
  end.

(** The address of a new tracker. *)
Definition new_loc (s : BuildTrackerStore) : nat := S (list_max (map_to_list (bs_heap s)).*1).

Definition new_tracker (revision marker : string) : buildTracker :=
  let t := {| bt_revision := revision; bt_phase := buildPhaseRunning; bt_image := ""; bt_digest := "";
              bt_detectedPort := 0; bt_errMsg := ""; bt_logs := []; bt_has_cancel := true |} in
  if String.eqb marker "" then t else appendLog marker t.

Definition build_params (br : BuildRun) (token : string) : buildParams :=
  let spec := BuildRun_Spec br in
  {| bp_appName := BuildRunTargetRef_Name (BuildRunSpec_TargetRef spec); bp_namespace := run_ns br;
     bp_revision := BuildRunSpec_Revision spec; bp_repo := BuildRunSpec_Repo spec;
     bp_branch := BuildRunSpec_Branch spec; bp_token := token; bp_path := BuildRunSpec_SourcePath spec;
     bp_dockerfile := firstNonEmpty (BuildRunSpec_DockerfilePath spec) "Dockerfile";
     bp_buildArgs := BuildRunSpec_BuildArgs spec; bp_buildContext := BuildRunSpec_BuildContext spec;
     bp_noCache := BuildRunSpec_NoCache spec; bp_imageRef := parseImageRef (BuildRunSpec_PushTarget spec);
     bp_pullImageRef := parseImageRef (BuildRunSpec_PullTarget spec) |}.

(** The new tracker is stored under the key and a goroutine is started for it. *)
Definition launch (key : NamespacedName) (tracker : buildTracker) (p : buildParams) : E RState unit := λ s,
  let b := rs_builds s in
  let l := new_loc b in
  ({| rs_world := rs_world s;
      rs_builds := set_ref key l {| bs_trackers := bs_trackers b; bs_heap := <[l := tracker]> (bs_heap b);
                                    bs_cancelled := bs_cancelled b |};
      rs_spawned := rs_spawned s ++ [{| sp_tracker := l; sp_key := key; sp_params := p |}];
      rs_outcomes := rs_outcomes s |}, inr tt).

Definition startBuildRunAttempt (br : BuildRun) (key : NamespacedName) (attempt : Z) (marker : string)
    : E RState Result :=
  if negb clients || match ResolveTag with None => true | Some _ => false end then
    _ ← in_world (failBuildRun br attempt "BuildInfraUnavailable" "build infrastructure is not configured");
    mret Done
  else
    token ← in_world (resolveBuildRunGitToken br);
    match token with
    | inl err => _ ← in_world (failBuildRun br attempt "GitAuthFailed" (error_text err)); mret Done
    | inr token =>
      t ← in_world read_clock;
      let br := mark_started t attempt br in
      _ ← in_world (run (kstatus_update br));
      _ ← launch key (new_tracker (BuildRunSpec_Revision (BuildRun_Spec br)) marker) (build_params br token);
      mret {| RequeueAfter := buildRunPollInterval |}
    end.

Definition awaitInterruptionBackoff (br : BuildRun) (delay : Z) : E W Z :=
  t ← read_clock;
  let fresh := _ ← run (kstatus_update (mark_interrupted t br)); mret delay in
  match FindStatusCondition (BuildRunStatus_Conditions (BuildRun_Status br)) buildRunInterruptedCondition with
  | None => fresh
  | Some cond =>
    if negb (String.eqb (Condition_Status cond) "True") then fresh
    else
      let waited := (t - Condition_LastTransitionTime cond)%Z in
      mret (if (waited <? delay)%Z then (delay - waited)%Z else 0%Z)
  end.

(** *** Outcomes *)

(** The status of the stored run is replaced, under conflicts again and again; [br] is the
    run that was written. *)
Definition update_run_status (key : NamespacedName) (f : BuildRun → BuildRun) (br : BuildRun) : E W BuildRun := λ w,
  let '((w, br), err) := RetryOnConflict (λ '(w, br),
    match kget key w with
    | (w, inl err) => ((w, br), Some err)
    | (w, inr latest) =>
      match kstatus_update (f latest) w with
      | (w, Some err) => ((w, br), Some err)
      | (w, None) => ((w, f latest), None)
      end
    end) (w, br) in
  match err with Some err => (w, inl err) | None => (w, inr br) end.

(** The tag the build pushed, in the registry. *)
Definition resolve_pushed (br : BuildRun) : E W (option (error + string * bool)) := λ w,
  let appName := firstNonEmpty (BuildRunSpec_AppName (BuildRun_Spec br))
                   (BuildRunTargetRef_Name (BuildRunSpec_TargetRef (BuildRun_Spec br))) in
  let pushRef := parseImageRef (BuildRunSpec_PushTarget (BuildRun_Spec br)) in
  match ResolveTag with
  | None => (w, inr None)
  | Some resolve =>
    if String.eqb appName "" || String.eqb (ir_Tag pushRef) "" then (w, inr None)
    else (w, inr (Some (resolve w (ProjectFromControlNs (run_ns br)).1 appName (ir_Tag pushRef))))
  end.

Definition resolveBuiltDigest (br : BuildRun) : E W string :=
  r ← resolve_pushed br;
  mret match r with Some (inr (digest, true)) => digest | _ => "" end.

Definition pull_ref (br : BuildRun) : ImageRef :=
  parseImageRef (firstNonEmpty (BuildRunSpec_PullTarget (BuildRun_Spec br)) (BuildRunSpec_PushTarget (BuildRun_Spec br))).

(** Whether the image was adopted, and the error; an error after the adoption does not
    undo it. *)
Definition adopted_run (br : BuildRun) (key : NamespacedName) (image digest : string) : E RState BuildRun :=
  _ ← in_world (appendBuildRunLogMarker br
        ("[recovery] image " +:+ image +:+ " already pushed by interrupted attempt; adopting"));
  t ← in_world read_clock;
  in_world (update_run_status key (mark_adopted t (log_name (run_name br)) image digest) br).

(** What follows the outcome of a run. *)
Definition settle (br : BuildRun) (key : NamespacedName) : E RState unit :=
  _ ← in_world (projectTerminalBuildRunStatus br);
  _ ← on_builds (delete_ref key);
  in_world (gcBuildRunHistory br).

Definition adopt_pushed (br : BuildRun) (key : NamespacedName) (digest : string) (s : RState)
    : RState * (bool * option error) :=
  let image := if String.eqb digest "" then ir_Full (pull_ref br) else pinned (pull_ref br) digest in
  match adopted_run br key image digest s with
  | (s, inl err) => (s, (false, Some err))
  | (s, inr br) => let '(s, err) := err_of (settle br key) s in (s, (true, err))
  end.

Definition adoptPushedBuildResult (br : BuildRun) (key : NamespacedName) (s : RState)
    : RState * (bool * option error) :=
  let spec := BuildRun_Spec br in
  if BuildRunSpec_NoCache spec || negb (String.eqb (BuildRunSpec_RequestID spec) "") then (s, (false, None))
  else
    match in_world (resolve_pushed br) s with
    | (s, inr (Some (inr (digest, true)))) => adopt_pushed br key digest s
    | (s, _) => (s, (false, None))
    end.

(** *** A build without a tracker *)

Definition first_attempt (br : BuildRun) : Z :=
  let attempt := BuildRunStatus_Attempt (BuildRun_Status br) in
  if (attempt <? 1)%Z then 1%Z else attempt.

(** The attempts are used up. *)
Definition exhaust (br : BuildRun) (key : NamespacedName) (attempt : Z) : E RState Result :=
  let message := "build interrupted " +:+ itoa attempt +:+ " times without completing" in
  _ ← in_world (appendBuildRunLogMarker br ("[interrupted] " +:+ message));
  br ← in_world (failBuildRun br attempt "BuildRetriesExhausted" message);
  _ ← in_world (projectTerminalBuildRunStatus br);
  _ ← on_builds (delete_ref key);
  mret Done.

(** The next attempt, once the time to wait for it has passed. *)
Definition restart (br : BuildRun) (key : NamespacedName) (attempt : Z) : E RState Result :=
  let delay := buildRunInterruptionBackoff attempt in
  remaining ← (if (0 <? delay)%Z then in_world (awaitInterruptionBackoff br delay) else mret 0%Z);
  if (0 <? remaining)%Z then mret {| RequeueAfter := remaining |}
  else
    let marker := "[recovery] build tracker lost; restarting attempt " +:+ itoa (attempt + 1) in
    _ ← in_world (appendBuildRunLogMarker br marker);
    startBuildRunAttempt br key (attempt + 1) marker.

Definition handleLostBuildRunTracker (key : NamespacedName) : E RState Result := λ s,
  match in_world (uncached_get key) s with
  | (s, inl err) => if IsNotFound err then (s, inr Done) else (s, inl err)
  | (s, inr br) =>
    if isBuildRunTerminal br then (s, inr Done)
    else
      match BuildRunStatus_StartedAt (BuildRun_Status br) with
      | None => (s, inr {| RequeueAfter := buildRunTrackerLossGrace |})
      | Some started =>
        let elapsed := (now (rs_world s) - started)%Z in
        if (elapsed <? buildRunTrackerLossGrace)%Z
        then (s, inr {| RequeueAfter := (buildRunTrackerLossGrace - elapsed)%Z |})
        else
          match adoptPushedBuildResult br key s with
          | (s, (_, Some err)) => (s, inl err)
          | (s, (true, None)) => (s, inr Done)
          | (s, (false, None)) =>
            let attempt := first_attempt br in
            if (maxBuildRunInterruptionAttempts <=? attempt)%Z then exhaust br key attempt s
            else restart br key attempt s
          end
      end
  end.

(** *** A build with a tracker *)

Definition tracker_of (key : NamespacedName) (b : BuildTrackerStore) : option buildTracker :=
  l ← get_ref key b; bs_heap b !! l.

Definition follow_running (br : BuildRun) : E RState Result :=
  _ ← (if String.eqb (run_phase br) BuildRunPhaseRunning then mret tt
       else t ← in_world read_clock; in_world (run (kstatus_update (mark_running t br))));
  mret {| RequeueAfter := buildRunPollInterval |}.

(** The image that is recorded: pinned to the digest in the registry when the build
    reported none. *)
Definition final_image (br : BuildRun) (sn : tracker_snapshot) : E W (string * string) :=
  if String.eqb (sn_phase sn) buildPhaseSucceeded && String.eqb (sn_digest sn) "" then
    d ← resolveBuiltDigest br;
    mret (if String.eqb d "" then (sn_image sn, sn_digest sn) else (pinned (pull_ref br) d, d))
  else mret (sn_image sn, sn_digest sn).

Definition finish (key : NamespacedName) (br : BuildRun) (tracker : buildTracker) : E RState Result :=
  logRef ← in_world (persistBuildRunLog br tracker);
  t ← in_world read_clock;
  let sn := snapshot tracker in
  '(image, digest) ← in_world (final_image br sn);
  br ← in_world (update_run_status key (mark_outcome t (Some logRef) sn image digest) br);
  _ ← observe (recordBuildOutcome br (if String.eqb (sn_phase sn) buildPhaseSucceeded then "success" else "failure") t);
  _ ← settle br key;
  mret Done.

(** The run has no tracker. *)
Definition without_tracker (key : NamespacedName) (br : BuildRun) : E RState Result :=
  if String.eqb (run_phase br) BuildRunPhaseRunning then handleLostBuildRunTracker key
  else startBuildRunAttempt br key (first_attempt br) "".

Definition Reconcile (key : NamespacedName) : E RState Result := λ s,
  match in_world (kget key) s with
  | (s, inl err) => if IsNotFound err then (_ ← on_builds (cancelAndDelete key); mret Done) s else (s, inl err)
  | (s, inr br) =>
    if isBuildRunTerminal br then (_ ← in_world (gcBuildRunHistory br); mret Done) s
    else
      match tracker_of key (rs_builds s) with
      | None => without_tracker key br s
      | Some tracker =>
        if String.eqb (bt_phase tracker) buildPhaseRunning then follow_running br s
        else if String.eqb (bt_phase tracker) buildPhaseSucceeded || String.eqb (bt_phase tracker) buildPhaseFailed
        then finish key br tracker s
        else without_tracker key br s
      end
  end.
End handlers.
