(* ===== verification/BuildRunLogs.v ===== *)
(** * Logs and image references of build runs

    Persisting the log of a build twice stores what persisting it once does; a log never
    outgrows its bound; the waiting times between attempts; parsed image references. *)

From S2P Require Import Prelude GoStrings GoNum GoTime GoUrl GoText Kube Core Controller BuildRun BuildTracker BuildRunReconcile.

(** ** The bound of a log *)

Definition too_long (l : list string) : Prop := (maxBuildLogConfigMapBytes < Z.of_nat (String.length (join nl l)))%Z.

#[export] Instance too_long_dec l : Decision (too_long l).
Proof. unfold too_long. apply _. Defined.

Lemma join_cons_length x l : (String.length (join nl l) ≤ String.length (join nl (x :: l)))%nat.
Proof.
  unfold join. destruct l as [|y l]; [simpl; lia|].
  change (String.concat nl (x :: y :: l)) with (x +:+ nl +:+ String.concat nl (y :: l)).
  rewrite !str_app_length. lia.
Qed.

Lemma too_long_cons x l : too_long l → too_long (x :: l).
Proof. unfold too_long. pose proof (join_cons_length x l). lia. Qed.

Lemma too_long_app p l : too_long l → too_long (p ++ l).
Proof. intros H. induction p; simpl; [done|by apply too_long_cons]. Qed.

Lemma fit_cons x l : fit_lines (x :: l) =
  if (maxBuildLogConfigMapBytes <? Z.of_nat (String.length (join nl (x :: l))))%Z then fit_lines l else x :: l.
Proof. reflexivity. Qed.

Lemma fit_long x l : too_long (x :: l) → fit_lines (x :: l) = fit_lines l.
Proof. intros H. rewrite fit_cons. by rewrite (proj2 (Z.ltb_lt _ _) H). Qed.

Lemma fit_short l : ¬ too_long l → fit_lines l = l.
Proof.
  intros H. destruct l as [|x l]; [done|]. rewrite fit_cons. by rewrite (proj2 (Z.ltb_ge _ _)) by (unfold too_long in H; lia).
Qed.

(** Whatever comes before a text that is too long is dropped with its first line. *)
Lemma fit_app_long p x l : too_long (x :: l) → fit_lines (p ++ x :: l) = fit_lines l.
Proof.
  intros H. induction p as [|y p IH]; simpl app; [by apply fit_long|].
  rewrite fit_long; [done|]. by apply (too_long_app (y :: p)).
Qed.

(** What is kept is the longest end that fits. *)
Lemma fit_spec l : ∃ p, l = p ++ fit_lines l ∧ ¬ too_long (fit_lines l) ∧
  (p = [] ∨ ∃ p' x, p = p' ++ [x] ∧ too_long (x :: fit_lines l)).
Proof.
  induction l as [|x l IH].
  { exists []. split_and!; [done| |by left]. unfold too_long. simpl. unfold maxBuildLogConfigMapBytes. lia. }
  destruct (decide (too_long (x :: l))) as [H|H].
  - rewrite fit_long by done. destruct IH as (p & Hl & Hs & Hp). exists (x :: p). simpl. rewrite <-Hl.
    split_and!; [done|done|]. right. destruct Hp as [->|(p' & y & -> & Hy)].
    + exists [], x. split; [done|]. simpl in Hl. by rewrite <-Hl.
    + by exists (x :: p'), y.
  - rewrite fit_short by done. exists []. by split_and!; [| |left].
Qed.

(** ** Merging *)

Lemma merge_again p c : merge_lines (p ++ c) c = p ++ c.
Proof.
  unfold merge_lines. destruct c as [|x c].
  { rewrite app_nil_r. cbn [length Nat.ltb Nat.leb andb]. by destruct (last p); rewrite ?app_nil_r. }
  rewrite length_app. replace (length p + length (x :: c) - length (x :: c)) with (length p) by lia.
  rewrite drop_app_length, bool_decide_eq_true_2 by done.
  rewrite (proj2 (Nat.leb_le _ _)) by lia. done.
Qed.

(** The lines of the build are at the end. *)
Lemma merge_end e c : ∃ p, merge_lines e c = p ++ c.
Proof.
  unfold merge_lines. destruct ((0 <? length c) && _ && bool_decide _) eqn:Ed.
  { apply andb_true_iff in Ed as [[_ Hn]%andb_true_iff Hd%bool_decide_eq_true].
    exists (take (length e - length c) e). rewrite <-Hd at 2. by rewrite take_drop. }
  destruct (last e) as [y|] eqn:El; [|by exists e]. destruct c as [|x c]; [by exists e|].
  destruct (String.eqb_spec y x) as [->|]; [|by exists e].
  apply last_Some in El as [e' ->]. exists e'. by rewrite <-app_assoc.
Qed.

Lemma merge_lines_cases e c :
  merge_lines e c = e ++ c ∨ (∃ e' x c', e = e' ++ [x] ∧ c = x :: c' ∧ merge_lines e c = e ++ c') ∨
  (0 < length c ≤ length e ∧ merge_lines e c = e).
Proof.
  unfold merge_lines. destruct ((0 <? length c) && _ && bool_decide _) eqn:Ed.
  { right. right. rewrite !andb_true_iff, Nat.ltb_lt, Nat.leb_le in Ed. destruct Ed as [[??]?]. done. }
  destruct (last e) as [y|] eqn:El; [|by left]. destruct c as [|x c]; [by left|].
  destruct (String.eqb_spec y x) as [->|]; [|by left]. right. left.
  apply last_Some in El as [e' ->]. by exists e', x, c.
Qed.

Lemma end_of {A} (p c r q : list A) : p ++ c = r ++ q → length c ≤ length q → ∃ a, q = a ++ c.
Proof.
  intros [(k & _ & Hk)|(k & _ & Hk)]%app_eq_inv Hl; [by exists k|].
  exists []. rewrite Hk, length_app in Hl. destruct k; simpl in *; [done|lia].
Qed.

(** What is kept does not reach back to what is before [c]. *)
Lemma fit_suffix p c : length (fit_lines (p ++ c)) ≤ length c → fit_lines (p ++ c) = fit_lines c.
Proof.
  intros Hle. destruct (fit_spec (p ++ c)) as (r & Hm & Hs & Hr). set (q := fit_lines (p ++ c)) in *. clearbody q.
  destruct Hr as [->|(r' & y & -> & Hy)].
  { simpl in Hm. subst q. rewrite length_app in Hle. destruct p; simpl in *; [by rewrite fit_short|lia]. }
  rewrite <-app_assoc in Hm. simpl in Hm. destruct (decide (length c = length q)) as [He|Hne].
  - destruct (end_of p c (r' ++ [y]) q) as [a ->]; [by rewrite <-app_assoc|lia|].
    rewrite length_app in He. destruct a; simpl in *; [by rewrite fit_short|lia].
  - destruct (end_of r' (y :: q) p c) as [a ->]; [done|simpl; lia|]. rewrite fit_app_long by done. by rewrite fit_short.
Qed.

(** Persisting again what was persisted, cut to its bound. *)
Lemma fit_merge_again e c : fit_lines (merge_lines (fit_lines (merge_lines e c)) c) = fit_lines (merge_lines e c).
Proof.
  destruct (merge_end e c) as [p ->]. destruct (fit_spec (p ++ c)) as (r & Hm & Hs & Hr).
  set (q := fit_lines (p ++ c)) in *. clearbody q.
  destruct (decide (length c ≤ length q)) as [Hle|Hgt].
  - assert (∃ q', q = q' ++ c) as [q' ->].
    { by apply (end_of p c r q). }
    rewrite merge_again. by apply fit_short.
  - destruct Hr as [->|(r' & y & -> & Hy)].
    { simpl in Hm. subst q. rewrite length_app in Hgt. lia. }
    rewrite <-app_assoc in Hm. simpl in Hm.
    assert (∃ a, c = a ++ y :: q) as [a Hc].
    { apply (end_of r' (y :: q) p c); [done|simpl; lia]. }
    assert (∀ z, fit_lines (z ++ y :: q) = q) as Hfit.
    { intros z. rewrite fit_app_long by done. by apply fit_short. }
    destruct (merge_lines_cases q c) as [->|[(q' & x & c' & -> & Hc' & ->)|[? _]]]; [| |lia].
    + by rewrite Hc, app_assoc, Hfit.
    + rewrite Hc' in Hc. destruct a as [|x' a]; simpl in Hc.
      * rewrite <-app_assoc. injection Hc as -> ->. apply (Hfit q').
      * injection Hc as -> ->. by rewrite app_assoc, Hfit.
Qed.

(** ** The stored text *)

Definition plain_line (l : string) : bool := no_char (Ascii.ascii_of_nat 10) l.

Lemma stored_lines_text l :
  (∀ x, x ∈ l → plain_line x = true) → join nl l ≠ "" → ∀ ns name ann, stored_lines (log_config_map ns name ann l) = l.
Proof.
  intros Hl Hne ns name ann. unfold stored_lines, log_config_map, map_get. cbn [cm_Data].
  rewrite lookup_singleton_eq. cbn [from_option id]. rewrite (proj2 (String.eqb_neq _ _) Hne).
  apply split_join; [by intros ->|done].
Qed.

Lemma join_empty_inv l : join nl l = "" → l = [] ∨ l = [""].
Proof.
  destruct l as [|x [|y l]]; [by left| |].
  - unfold join. simpl. intros ->. by right.
  - unfold join. change (String.concat nl (x :: y :: l)) with (x +:+ nl +:+ String.concat nl (y :: l)).
    by destruct x.
Qed.

(** Persisting the log of a build again, as a reconciliation does whose later write failed,
    stores the same text: no line is there twice, also when the log was cut. *)
Theorem persisted_log_stable existing current ns name ann ann' :
  (∀ line, line ∈ existing ++ current → plain_line line = true) →
  let persisted := log_config_map ns name ann (fit_lines (merge_lines existing current)) in
  cm_Data (log_config_map ns name ann' (fit_lines (merge_lines (stored_lines persisted) current))) =
  cm_Data persisted.
Proof.
  intros Hplain persisted. enough (join nl (fit_lines (merge_lines (stored_lines persisted) current)) =
    join nl (fit_lines (merge_lines existing current))) as H by (unfold log_config_map at 1; cbn [cm_Data]; by rewrite H).
  assert (∀ x, x ∈ fit_lines (merge_lines existing current) → plain_line x = true) as Hp.
  { intros x Hx. apply Hplain. destruct (fit_spec (merge_lines existing current)) as (p & Hm & _).
    assert (x ∈ merge_lines existing current) as Hi by (rewrite Hm; set_solver). clear -Hi.
    destruct (merge_lines_cases existing current) as [H|[(e' & y & c' & -> & -> & H)|[_ H]]]; rewrite H in Hi; set_solver. }
  unfold persisted. destruct (decide (join nl (fit_lines (merge_lines existing current)) = "")) as [He|Hne].
  - assert (stored_lines (log_config_map ns name ann (fit_lines (merge_lines existing current))) = []) as ->.
    { unfold stored_lines, log_config_map, map_get. cbn [cm_Data]. by rewrite lookup_singleton_eq, He. }
    rewrite He. assert (merge_lines [] current = current) as -> by (by destruct current).
    destruct (merge_end existing current) as [p Hm]. rewrite Hm in He. destruct current as [|x c]; [done|].
    rewrite <-(fit_suffix p); [done|]. apply join_empty_inv in He as [-> | ->]; simpl; lia.
  - rewrite stored_lines_text by done. by rewrite fit_merge_again.
Qed.

(** ** Waiting *)

(** The first loss of a build restarts it at once; after that the waiting time starts at a
    minute and doubles with each attempt; it never overflows while there are attempts. *)
Lemma backoff_spec attempt :
  (1 ≤ attempt < maxBuildRunInterruptionAttempts)%Z →
  buildRunInterruptionBackoff attempt = (if (attempt =? 1)%Z then 0 else Minute * 2 ^ (attempt - 2))%Z.
Proof.
  unfold maxBuildRunInterruptionAttempts. intros H.
  assert (attempt = 1 ∨ attempt = 2 ∨ attempt = 3 ∨ attempt = 4)%Z as [->|[->|[->| ->]]] by lia; reflexivity.
Qed.

(** ** Image references *)

(** A reference of a registry, a path and a tag is taken apart again; the path may have
    slashes, a port of the registry is no tag. *)
Lemma parseImageRef_full registry path tag :
  no_char "/"%char registry = true → no_char ":"%char tag = true →
  let full := registry +:+ "/" +:+ path +:+ ":" +:+ tag in
  parseImageRef full = {| ir_Registry := registry; ir_Path := path; ir_Tag := tag; ir_Full := full |}.
Proof.
  intros Hr Ht full. unfold parseImageRef.
  assert (cut "/"%char full = (registry, path +:+ ":" +:+ tag, true)) as ->.
  { unfold cut, full. change ("/" +:+ path +:+ ":" +:+ tag) with (String "/" (path +:+ ":" +:+ tag)).
    rewrite index_char_app by done. by rewrite str_take_app, str_drop_S_app. }
  change (path +:+ ":" +:+ tag) with (path +:+ String ":" tag). rewrite last_index_char_app by done.
  by rewrite str_take_app, str_drop_S_app.
Qed.
