(* ===== verification/Activity.v ===== *)
(** * Activity: [internal/activity]

    The audit events of a project live as JSON in one ConfigMap, a ring buffer bounded
    in number, bytes and age.  Appending is a read-modify-write under optimistic
    concurrency; reading pages by a sequence number.  The stdout audit line is not
    modelled. *)

From S2P Require Import Prelude GoStrings Json GoNum Kube GoTime Core Constants.

Definition Cap : nat := 2000.
Definition MaxBytes : Z := 768 * 1024.
Definition Retention : Z := 30 * 24 * Hour.
Definition configMapNamePrefix : string := "activity-".
Definition eventsKey : string := "events".
Definition maxConflictRetries : nat := 5.

Definition configMapName (project : string) : string := configMapNamePrefix +:+ project.
Definition projectNamespace (project : string) : string := ControlNamespace project.

Record Event := {
  ev_Seq : Z;
  ev_Timestamp : Time;
  ev_Actor : string;
  ev_Action : string;
  ev_ResourceKind : string;
  ev_ResourceName : string;
  ev_Project : string;
  ev_Message : string;
  ev_Metadata : gmap string string;
}.

(** The zero value: the zero [time.Time] is the first instant of the year 1. *)
Definition Event_zero : Event :=
  {| ev_Seq := 0; ev_Timestamp := -62135596800 * Second; ev_Actor := ""; ev_Action := "";
     ev_ResourceKind := ""; ev_ResourceName := ""; ev_Project := ""; ev_Message := "";
     ev_Metadata := ∅ |}.

Definition with_Seq (n : Z) (e : Event) : Event :=
  {| ev_Seq := n; ev_Timestamp := ev_Timestamp e; ev_Actor := ev_Actor e;
     ev_Action := ev_Action e; ev_ResourceKind := ev_ResourceKind e;
     ev_ResourceName := ev_ResourceName e; ev_Project := ev_Project e;
     ev_Message := ev_Message e; ev_Metadata := ev_Metadata e |}.
Definition with_Timestamp (t : Time) (e : Event) : Event :=
  {| ev_Seq := ev_Seq e; ev_Timestamp := t; ev_Actor := ev_Actor e;
     ev_Action := ev_Action e; ev_ResourceKind := ev_ResourceKind e;
     ev_ResourceName := ev_ResourceName e; ev_Project := ev_Project e;
     ev_Message := ev_Message e; ev_Metadata := ev_Metadata e |}.
Definition with_Actor (s : string) (e : Event) : Event :=
  {| ev_Seq := ev_Seq e; ev_Timestamp := ev_Timestamp e; ev_Actor := s;
     ev_Action := ev_Action e; ev_ResourceKind := ev_ResourceKind e;
     ev_ResourceName := ev_ResourceName e; ev_Project := ev_Project e;
     ev_Message := ev_Message e; ev_Metadata := ev_Metadata e |}.
Definition with_Action (s : string) (e : Event) : Event :=
  {| ev_Seq := ev_Seq e; ev_Timestamp := ev_Timestamp e; ev_Actor := ev_Actor e;
     ev_Action := s; ev_ResourceKind := ev_ResourceKind e;
     ev_ResourceName := ev_ResourceName e; ev_Project := ev_Project e;
     ev_Message := ev_Message e; ev_Metadata := ev_Metadata e |}.
Definition with_ResourceKind (s : string) (e : Event) : Event :=
  {| ev_Seq := ev_Seq e; ev_Timestamp := ev_Timestamp e; ev_Actor := ev_Actor e;
     ev_Action := ev_Action e; ev_ResourceKind := s;
     ev_ResourceName := ev_ResourceName e; ev_Project := ev_Project e;
     ev_Message := ev_Message e; ev_Metadata := ev_Metadata e |}.
Definition with_ResourceName (s : string) (e : Event) : Event :=
  {| ev_Seq := ev_Seq e; ev_Timestamp := ev_Timestamp e; ev_Actor := ev_Actor e;
     ev_Action := ev_Action e; ev_ResourceKind := ev_ResourceKind e;
     ev_ResourceName := s; ev_Project := ev_Project e;
     ev_Message := ev_Message e; ev_Metadata := ev_Metadata e |}.
Definition with_Project (s : string) (e : Event) : Event :=
  {| ev_Seq := ev_Seq e; ev_Timestamp := ev_Timestamp e; ev_Actor := ev_Actor e;
     ev_Action := ev_Action e; ev_ResourceKind := ev_ResourceKind e;
     ev_ResourceName := ev_ResourceName e; ev_Project := s;
     ev_Message := ev_Message e; ev_Metadata := ev_Metadata e |}.
Definition with_Message (s : string) (e : Event) : Event :=
  {| ev_Seq := ev_Seq e; ev_Timestamp := ev_Timestamp e; ev_Actor := ev_Actor e;
     ev_Action := ev_Action e; ev_ResourceKind := ev_ResourceKind e;
     ev_ResourceName := ev_ResourceName e; ev_Project := ev_Project e;
     ev_Message := s; ev_Metadata := ev_Metadata e |}.
Definition with_Metadata (m : gmap string string) (e : Event) : Event :=
  {| ev_Seq := ev_Seq e; ev_Timestamp := ev_Timestamp e; ev_Actor := ev_Actor e;
     ev_Action := ev_Action e; ev_ResourceKind := ev_ResourceKind e;
     ev_ResourceName := ev_ResourceName e; ev_Project := ev_Project e;
     ev_Message := ev_Message e; ev_Metadata := m |}.

(** ** Encoding *)

(** The members of the object in field order; a zero [seq] and an empty [meta] are
    omitted.  [None] is a timestamp out of range. *)
Definition event_json (e : Event) : option json :=
  ts ← format_time (ev_Timestamp e);
  Some (JObj
    ((if (ev_Seq e =? 0)%Z then [] else [("seq", JNum (itoa (ev_Seq e)))]) ++
     [("ts", JStr ts); ("actor", JStr (ev_Actor e)); ("action", JStr (ev_Action e));
      ("kind", JStr (ev_ResourceKind e)); ("resource", JStr (ev_ResourceName e));
      ("project", JStr (ev_Project e)); ("msg", JStr (ev_Message e))] ++
     (if decide (ev_Metadata e = ∅) then []
      else [("meta", JObj ((λ '(k, v), (k, JStr v)) <$>
                           sort_by fst (map_to_list (ev_Metadata e))))]))).

Definition marshalEvents (events : list Event) : error + string :=
  match mapM event_json events with
  | None => inl (Wrapf "marshal events: %w" [] (Errorf "Time.MarshalJSON: year outside of range [0,9999]" []))
  | Some l => inr (print (JArr l))
  end.

(** A member assigned to its field, found without regard to case; unknown members are
    ignored, [null] leaves a field alone (it empties a map), and a value of another type
    is an error. *)
Definition set_string (set : string → Event → Event) (v : json) (e : Event) : option Event :=
  match v with JStr s => Some (set s e) | JNull => Some e | _ => None end.

Definition set_member (e : Event) (kv : string * json) : option Event :=
  let '(k, v) := kv in
  if equal_fold k "seq" then
    match v with
    | JNum t => n ← ParseInt64 t; Some (with_Seq n e)
    | JNull => Some e
    | _ => None
    end
  else if equal_fold k "ts" then
    match v with
    | JStr s => t ← parse_time s; Some (with_Timestamp t e)
    | JNull => Some e
    | _ => None
    end
  else if equal_fold k "actor" then set_string with_Actor v e
  else if equal_fold k "action" then set_string with_Action v e
  else if equal_fold k "kind" then set_string with_ResourceKind v e
  else if equal_fold k "resource" then set_string with_ResourceName v e
  else if equal_fold k "project" then set_string with_Project v e
  else if equal_fold k "msg" then set_string with_Message v e
  else if equal_fold k "meta" then
    match v with
    | JObj l => m ← string_members l (ev_Metadata e); Some (with_Metadata m e)
    | JNull => Some (with_Metadata ∅ e)
    | _ => None
    end
  else Some e.

Fixpoint set_members (l : list (string * json)) (e : Event) : option Event :=
  match l with
  | [] => Some e
  | kv :: l' => e ← set_member e kv; set_members l' e
  end.

Definition json_event (v : json) : option Event :=
  match v with
  | JNull => Some Event_zero
  | JObj l => set_members l Event_zero
  | _ => None
  end.

Definition unmarshalEvents (raw : string) : error + list Event :=
  if String.eqb raw "" then inr []
  else
    match (match parse raw with
           | Some JNull => Some []
           | Some (JArr l) => mapM json_event l
           | _ => None
           end) with
    | Some events => inr events
    | None => inl (Wrapf "unmarshal events: %w" [] (Errorf "json: cannot unmarshal" []))
    end.

(** ** The ring buffer *)

(** [if events[i].Seq == 0 { events[i].Seq = runningMax + 1 }] *)
Definition backfill_one (runningMax : Z) (e : Event) : Event :=
  if (ev_Seq e =? 0)%Z then with_Seq (wrap64 (runningMax + 1)) e else e.

Definition running_max (m : Z) (e : Event) : Z := if (m <? ev_Seq e)%Z then ev_Seq e else m.

Fixpoint backfill_loop (runningMax : Z) (events : list Event) : list Event :=
  match events with
  | [] => []
  | e :: rest =>
    let e := backfill_one runningMax e in
    e :: backfill_loop (running_max runningMax e) rest
  end.

Definition backfillSeq (events : list Event) : list Event := backfill_loop 0 events.

Definition nextSeq (events : list Event) : Z := wrap64 (fold_left running_max events 0 + 1)%Z.

Fixpoint trim_before (cutoff : Time) (events : list Event) : list Event :=
  match events with
  | [] => []
  | e :: rest => if (ev_Timestamp e <? cutoff)%Z then trim_before cutoff rest else events
  end.

Definition trimRetention (events : list Event) (now : Time) : list Event :=
  trim_before (now - Retention) events.

(** The loop of [trimSize]; every round drops an event, so the length is fuel enough
    ([trim_bytes_spec]). *)
Fixpoint trim_bytes (fuel : nat) (events : list Event) : list Event :=
  match fuel with
  | O => events
  | S fuel =>
    if (length events <=? 1)%nat then events
    else
      match marshalEvents events with
      | inl _ => events
      | inr data =>
        if (Z.of_nat (String.length data) <=? MaxBytes)%Z then events
        else
          let n := length events / 8 in
          trim_bytes fuel (drop (if (n =? 0)%nat then 1 else n) events)
      end
  end.

Definition trimSize (events : list Event) : list Event :=
  let events := if (Cap <? length events)%nat then drop (length events - Cap) events else events in
  trim_bytes (length events) events.

(** The new contents: what [appendOnce] computes between the read and the write. *)
Definition append_event (now : Time) (events : list Event) (e : Event) : list Event :=
  let events := backfillSeq events in
  let e := with_Seq (nextSeq events) e in
  trimSize (trimRetention events now ++ [e]).

(** ** Operations *)

Definition activity_labels : gmap string string :=
  {["app.kubernetes.io/managed-by" := "mortise"; "mortise.dev/kind" := "activity"]}.

Definition new_config_map (ns name data : string) : ConfigMap :=
  {| cm_meta := with_labels activity_labels
                  (with_name name (with_namespace ns ObjectMeta_zero));
     cm_Data := {[eventsKey := data]} |}.

(** [cm.Data[eventsKey] = data] *)
Definition with_events (data : string) (cm : ConfigMap) : ConfigMap :=
  {| cm_meta := cm_meta cm; cm_Data := <[eventsKey := data]> (cm_Data cm) |}.

Definition ErrBadCursor : error := Sentinel "activity: invalid cursor".

Section store.
Context {W : Type} {C : KubeClient W ConfigMap}.
(** The clock, and what [ctx.Err] is when the context ends during the back-off after an
    attempt. *)
Context (now : W → Time) (ctx : nat → option error).

Definition appendOnce (e : Event) (w : W) : W * option error :=
  let ns := projectNamespace (ev_Project e) in
  let name := configMapName (ev_Project e) in
  match kget (ns, name) w with
  | (w, inl err) =>
    if IsNotFound err then
      match marshalEvents [e] with
      | inl mErr => (w, Some mErr)
      | inr data => kcreate (new_config_map ns name data) w
      end
    else (w, Some err)
  | (w, inr cm) =>
    match unmarshalEvents (map_get (cm_Data cm) eventsKey) with
    | inl err => (w, Some err)
    | inr events =>
      match marshalEvents (append_event (now w) events e) with
      | inl err => (w, Some err)
      | inr data => kupdate (with_events data cm) w
      end
    end
  end.

Fixpoint append_loop (attempts attempt : nat) (e : Event) (w : W) : W * option error :=
  match attempts with
  | O => (w, Some (Errorf "activity: append gave up after %d conflict retries"
                     [itoa (Z.of_nat maxConflictRetries)]))
  | S attempts =>
    match appendOnce e w with
    | (w, None) => (w, None)
    | (w, Some err) =>
      if IsNotFound err then (w, None)
      else if negb (IsConflict err) && negb (IsAlreadyExists err) then (w, Some err)
      else
        match ctx attempt with
        | Some cerr => (w, Some cerr)
        | None => append_loop attempts (S attempt) e w
        end
    end
  end.

Definition Append (e : Event) : W → W * option error := append_loop maxConflictRetries 0 e.

(** [if limit <= 0 || limit > Cap { limit = Cap }] *)
Definition clamp_limit (limit : Z) : nat :=
  if (limit <=? 0)%Z || (Z.of_nat Cap <? limit)%Z then Cap else Z.to_nat limit.

(** The events of the project, [None] when there is no ConfigMap. *)
Definition read_events (project : string) (w : W) : W * (error + option (list Event)) :=
  match kget (projectNamespace project, configMapName project) w with
  | (w, inl err) => if IsNotFound err then (w, inr None) else (w, inl err)
  | (w, inr cm) =>
    match unmarshalEvents (map_get (cm_Data cm) eventsKey) with
    | inl err => (w, inl err)
    | inr events => (w, inr (Some events))
    end
  end.

Definition List_ (project : string) (limit : Z) (w : W) : W * (error + list Event) :=
  let limit := clamp_limit limit in
  match read_events project w with
  | (w, inl err) => (w, inl err)
  | (w, inr None) => (w, inr [])
  | (w, inr (Some events)) =>
    let reversed := rev events in
    (w, inr (if (limit <? length reversed)%nat then take limit reversed else reversed))
  end.

(** The loop from the newest event: [limit] events below the cursor. *)
Fixpoint page_loop (before : Z) (limit : nat) (newest_first : list Event) : list Event :=
  match limit, newest_first with
  | O, _ | _, [] => []
  | S n, e :: rest =>
    if (0 <? before)%Z && (before <=? ev_Seq e)%Z then page_loop before limit rest
    else e :: page_loop before n rest
  end.

Definition next_cursor (oldestSeq : Z) (page : list Event) : string :=
  match last page with
  | Some e => if (oldestSeq <? ev_Seq e)%Z then itoa (ev_Seq e) else ""
  | None => ""
  end.

Definition oldest_seq (events : list Event) : Z :=
  match events with e :: _ => ev_Seq e | [] => 0%Z end.

(** The position a cursor stands for, 0 for none; [None] is a bad cursor. *)
Definition parse_cursor (cursor : string) : option Z :=
  if String.eqb cursor "" then Some 0%Z
  else match ParseInt64 cursor with
       | Some n => if (n <=? 0)%Z then None else Some n
       | None => None
       end.

Definition ListPage (project : string) (limit : Z) (cursor : string) (w : W)
    : W * (error + (list Event * string)) :=
  let limit := clamp_limit limit in
  match parse_cursor cursor with
  | None => (w, inl (Wrapf "%w: %q" [cursor] ErrBadCursor))
  | Some before =>
    match read_events project w with
    | (w, inl err) => (w, inl err)
    | (w, inr None) => (w, inr ([], ""))
    | (w, inr (Some events)) =>
      let events := backfillSeq events in
      let page := page_loop before limit (rev events) in
      (w, inr (page, next_cursor (oldest_seq events) page))
    end
  end.
End store.

(** ** The codec *)

Lemma string_members_map (m : gmap string string) :
  string_members ((λ '(k, v), (k, JStr v)) <$> sort_by fst (map_to_list m)) ∅ = Some m.
Proof.
  pose proof (unmarshal_marshal_string_map m) as H.
  unfold unmarshal_string_map, marshal_string_map in H. rewrite parse_print in H; [done|].
  constructor. intros k v ([k' v'] & [= -> ->] & _)%list_elem_of_fmap. constructor.
Qed.

Lemma set_meta_members m e :
  ev_Metadata e = ∅ →
  set_members (if decide (m = ∅) then []
               else [("meta", JObj ((λ '(k, v), (k, JStr v)) <$>
                                    sort_by fst (map_to_list m)))]) e =
  Some (with_Metadata m e).
Proof.
  intros He. destruct (decide (m = ∅)) as [->|Hm].
  - destruct e; simpl in *; subst; done.
  - cbn [set_members set_member]. simpl equal_fold. cbv iota. rewrite He, string_members_map.
    done.
Qed.

Lemma set_members_app l1 l2 e :
  set_members (l1 ++ l2) e = (e ← set_members l1 e; set_members l2 e).
Proof.
  revert e. induction l1 as [|kv l1 IH]; intros e; simpl; [done|].
  destruct (set_member e kv); simpl; [apply IH|done].
Qed.

Lemma set_seq_members n e :
  in_int64 n = true → ev_Seq e = 0%Z →
  set_members (if (n =? 0)%Z then [] else [("seq", JNum (itoa n))]) e = Some (with_Seq n e).
Proof.
  intros Hn He. destruct (Z.eqb_spec n 0) as [->|].
  - destruct e; simpl in *; subst; done.
  - cbn [set_members set_member]. simpl equal_fold. cbv iota. by rewrite ParseInt64_itoa.
Qed.

Lemma set_string_members a b c d f g l e :
  set_members (("actor", JStr a) :: ("action", JStr b) :: ("kind", JStr c) ::
    ("resource", JStr d) :: ("project", JStr f) :: ("msg", JStr g) :: l) e =
  set_members l (with_Message g (with_Project f (with_ResourceName d (with_ResourceKind c
    (with_Action b (with_Actor a e)))))).
Proof. reflexivity. Qed.

Lemma set_ts_member ts t l e :
  parse_time ts = Some t →
  set_members (("ts", JStr ts) :: l) e = set_members l (with_Timestamp t e).
Proof.
  intros Ht.
  change (set_members (("ts", JStr ts) :: l) e) with
    (e ← (t ← parse_time ts; Some (with_Timestamp t e)); set_members l e).
  by rewrite Ht.
Qed.

Lemma event_json_spec e j :
  event_json e = Some j → in_int64 (ev_Seq e) = true → printable j ∧ json_event j = Some e.
Proof.
  unfold event_json. destruct (format_time (ev_Timestamp e)) as [ts|] eqn:Ets; [|done].
  cbn [mbind option_bind]. intros [= <-] Hn. split.
  - constructor. intros k v. rewrite elem_of_app, !elem_of_cons. intros [H|H].
    + destruct (ev_Seq e =? 0)%Z; [by apply elem_of_nil in H|].
      apply list_elem_of_singleton in H as [= -> ->]. constructor. apply number_ok_itoa.
    + repeat (destruct H as [[= -> ->]|H]; [constructor|]).
      destruct (decide _); [by apply elem_of_nil in H|].
      apply list_elem_of_singleton in H as [= -> ->]. constructor.
      intros k v ([k' v'] & [= -> ->] & _)%list_elem_of_fmap. constructor.
  - cbn [json_event]. rewrite set_members_app, set_seq_members by done.
    cbn [mbind option_bind].
    rewrite (set_ts_member _ _ _ _ (parse_format _ _ Ets)), set_string_members.
    rewrite set_meta_members by done. by destruct e.
Qed.

Lemma marshalEvents_json events data :
  marshalEvents events = inr data →
  ∃ l, mapM event_json events = Some l ∧ data = print (JArr l).
Proof.
  unfold marshalEvents. destruct (mapM event_json events) as [l|]; [|done].
  intros Hd%(inj inr). by exists l.
Qed.

Definition seqs_ok (events : list Event) : Prop := ∀ e, e ∈ events → in_int64 (ev_Seq e) = true.

Lemma unmarshal_marshal events data :
  marshalEvents events = inr data → seqs_ok events → unmarshalEvents data = inr events.
Proof.
  intros (l & Hl & ->)%marshalEvents_json Hok. unfold unmarshalEvents.
  assert (Forall printable l ∧ mapM json_event l = Some events) as [Hp Hm].
  { revert l Hl. induction events as [|e events IH]; intros l Hl.
    - apply mapM_Some in Hl. inversion Hl. by split.
    - apply mapM_Some in Hl. inversion Hl as [|? j ? l' Hj Hl']; subst.
      destruct (event_json_spec _ _ Hj) as [Hp He]; [apply Hok; by left|].
      destruct (IH (λ e He, Hok e (list_elem_of_further _ _ _ He)) l') as [Hps Hm].
      { by apply mapM_Some. }
      split; [by constructor|]. simpl. rewrite He. simpl. by rewrite Hm. }
  rewrite parse_print.
  - rewrite Hm. destruct (String.eqb_spec (print (JArr l)) "") as [E|]; [|done].
    by rewrite print_arr in E.
  - constructor. by apply Forall_forall.
Qed.

Lemma json_event_int64 j e : json_event j = Some e → in_int64 (ev_Seq e) = true.
Proof.
  assert (∀ l e0, in_int64 (ev_Seq e0) = true → set_members l e0 = Some e →
    in_int64 (ev_Seq e) = true) as Hmem.
  { induction l as [|[k v] l IH]; intros e0 H0; cbn [set_members].
    { intros H. by injection H as <-. }
    destruct (set_member e0 (k, v)) as [e1|] eqn:E; [|done]. cbn [mbind option_bind]. apply IH.
    unfold set_member, set_string, ParseInt64 in E.
    repeat (case_match || simplify_option_eq || (injection E as <-)); done. }
  destruct j; simpl; try done; [by intros [= <-]|]. by apply Hmem.
Qed.

Lemma unmarshalEvents_ok raw events : unmarshalEvents raw = inr events → seqs_ok events.
Proof.
  unfold unmarshalEvents. destruct (String.eqb raw ""); [intros [= <-] e He; by apply elem_of_nil in He|].
  destruct (parse raw) as [[| | | |l|]|]; try done; [intros [= <-] e He; by apply elem_of_nil in He|].
  destruct (mapM json_event l) as [es|] eqn:E; [|done]. intros [= <-] e He.
  apply mapM_Some in E. apply list_elem_of_lookup in He as [i Hi].
  destruct (Forall2_lookup_r _ _ _ _ _ E Hi) as (j & _ & Hj). by eapply json_event_int64.
Qed.

(** ** Sequence numbers *)

(** Strictly increasing above [m]. *)
Fixpoint ordered (m : Z) (events : list Event) : Prop :=
  match events with
  | [] => True
  | e :: rest => (m < ev_Seq e)%Z ∧ ordered (ev_Seq e) rest
  end.

(** What a buffer can hold: numbered events, and after them events written without a
    number, by a version without pagination or as the first of a project. *)
Definition legacy_ok (events : list Event) : Prop :=
  ∃ numbered zeros, events = numbered ++ zeros ∧ ordered 0 numbered ∧
    ∀ e, e ∈ zeros → ev_Seq e = 0%Z.

Abbreviation max_seq := (fold_left running_max).

Lemma max_seq_ge l m : (m ≤ max_seq l m)%Z ∧ ∀ e, e ∈ l → (ev_Seq e ≤ max_seq l m)%Z.
Proof.
  revert m. induction l as [|a l IH]; intros m; simpl.
  { split; [lia|]. intros e He. by apply elem_of_nil in He. }
  destruct (IH (running_max m a)) as [H1 H2].
  assert (m ≤ running_max m a ∧ ev_Seq a ≤ running_max m a)%Z as [Hm Ha]
    by (unfold running_max; destruct (Z.ltb_spec m (ev_Seq a)); lia).
  split; [lia|]. intros e [->|He]%elem_of_cons; [lia|by apply H2].
Qed.

Lemma ordered_mono m m' l : (m ≤ m')%Z → ordered m' l → ordered m l.
Proof. destruct l; simpl; [done|]. intros ? [? ?]. split; [lia|done]. Qed.

Lemma ordered_app m l1 l2 : ordered m (l1 ++ l2) ↔ ordered m l1 ∧ ordered (max_seq l1 m) l2.
Proof.
  revert m. induction l1 as [|a l1 IH]; intros m; simpl; [tauto|].
  unfold running_max at 2. rewrite IH. split.
  - intros (H1 & H2 & H3). destruct (Z.ltb_spec m (ev_Seq a)); [done|lia].
  - destruct (Z.ltb_spec m (ev_Seq a)); [|lia]. tauto.
Qed.

Lemma ordered_drop m n l : ordered m l → ordered m (drop n l).
Proof.
  rewrite <- (take_drop n l) at 1. rewrite ordered_app. intros [_ H].
  eapply ordered_mono; [|done]. by apply max_seq_ge.
Qed.

Lemma ordered_elem m l e : ordered m l → e ∈ l → (m < ev_Seq e)%Z.
Proof.
  revert m. induction l as [|a l IH]; intros m; simpl; [intros _ H; by apply elem_of_nil in H|].
  intros [Ha Hl] [->|He]%elem_of_cons; [done|]. specialize (IH _ Hl He). lia.
Qed.

Lemma backfill_ordered m l : (0 ≤ m)%Z → ordered m l → backfill_loop m l = l.
Proof.
  revert m. induction l as [|a l IH]; intros m Hm; simpl; [done|]. intros [Ha Hl].
  unfold backfill_one. destruct (Z.eqb_spec (ev_Seq a) 0); [lia|].
  f_equal. unfold running_max. destruct (Z.ltb_spec m (ev_Seq a)); [|lia]. apply IH; [lia|done].
Qed.

Lemma backfill_app m l1 l2 :
  backfill_loop m (l1 ++ l2) =
  backfill_loop m l1 ++ backfill_loop (max_seq (backfill_loop m l1) m) l2.
Proof. revert m. induction l1 as [|a l1 IH]; intros m; simpl; [done|]. by rewrite IH. Qed.

Lemma max_seq_bound l m b :
  (m ≤ b)%Z → (∀ e, e ∈ l → (ev_Seq e ≤ b)%Z) → (max_seq l m ≤ b)%Z.
Proof.
  revert m. induction l as [|a l IH]; intros m Hm Hl; simpl; [done|]. apply IH.
  - specialize (Hl a (list_elem_of_here _ _)). unfold running_max. by case_match.
  - intros e He. apply Hl. by right.
Qed.

Lemma backfill_zeros m l :
  (0 ≤ m)%Z → (m + Z.of_nat (length l) < 2 ^ 63)%Z → (∀ e, e ∈ l → ev_Seq e = 0%Z) →
  ordered m (backfill_loop m l) ∧
  max_seq (backfill_loop m l) m = (m + Z.of_nat (length l))%Z.
Proof.
  revert m. induction l as [|a l IH]; intros m Hm Hlen Hz; simpl in *; [split; [done|lia]|].
  unfold backfill_one. rewrite (Hz a) by left. simpl.
  rewrite wrap64_id by (apply in_int64_spec; lia).
  assert (running_max m (with_Seq (m + 1) a) = (m + 1)%Z) as ->
    by (unfold running_max; simpl; destruct (Z.ltb_spec m (m + 1)); lia).
  destruct (IH (m + 1)%Z) as [H1 H2]; [lia..| |].
  { intros e He. apply Hz. by right. }
  split; [split; [lia|done]|]. rewrite H2. lia.
Qed.

(** Numbering a buffer the program wrote makes it strictly increasing. *)
Lemma backfill_legacy events :
  legacy_ok events → (max_seq events 0 + Z.of_nat (length events) < 2 ^ 63)%Z →
  ordered 0 (backfillSeq events) ∧
  (max_seq (backfillSeq events) 0 ≤ max_seq events 0 + Z.of_nat (length events))%Z.
Proof.
  intros (num & zeros & -> & Hnum & Hz) Hlen. unfold backfillSeq.
  rewrite backfill_app, (backfill_ordered 0 num) by done.
  rewrite fold_left_app, length_app in *.
  assert (max_seq zeros (max_seq num 0%Z) = max_seq num 0%Z) as Hmz.
  { apply Z.le_antisymm; [|by apply max_seq_ge]. apply max_seq_bound; [done|].
    intros e He. rewrite Hz by done. by apply max_seq_ge. }
  destruct (backfill_zeros (max_seq num 0%Z) zeros) as [H1 H2]; [by apply max_seq_ge|lia|done|].
  split; [by apply ordered_app|]. rewrite fold_left_app, H2. lia.
Qed.

Lemma backfill_length m l : length (backfill_loop m l) = length l.
Proof. revert m. induction l; intros m; simpl; [done|]. by rewrite IHl. Qed.

Lemma wrap64_range n : in_int64 (wrap64 n) = true.
Proof.
  apply in_int64_spec. unfold wrap64. pose proof (Z.mod_pos_bound (n + 2 ^ 63) (2 ^ 64)). lia.
Qed.

Lemma backfill_seqs_ok m l : seqs_ok l → seqs_ok (backfill_loop m l).
Proof.
  revert m. induction l as [|a l IH]; intros m Hl; simpl; [done|].
  intros e [->|He]%elem_of_cons.
  - unfold backfill_one. destruct (ev_Seq a =? 0)%Z; [apply wrap64_range|apply Hl; by left].
  - revert e He. apply IH. intros e He. apply Hl. by right.
Qed.

(** ** Trimming *)

Lemma trim_before_drop cutoff l :
  ∃ n, trim_before cutoff l = drop n l ∧ (n ≤ length l)%nat ∧
    (∀ e, e ∈ take n l → (ev_Timestamp e < cutoff)%Z) ∧
    ∀ e, head (drop n l) = Some e → (cutoff ≤ ev_Timestamp e)%Z.
Proof.
  induction l as [|a l (n & IH & Hn & Ht & Hh)]; simpl.
  { exists 0. split; [done|]. split; [done|]. split; [|done]. intros e He. by apply elem_of_nil in He. }
  destruct (Z.ltb_spec (ev_Timestamp a) cutoff) as [Hlt|Hge].
  - exists (S n). split; [done|]. split; [lia|]. split; [|exact Hh]. intros e [->|He]%elem_of_cons; auto.
  - exists 0. split; [done|]. split; [lia|]. split; [intros e He; by apply elem_of_nil in He|].
    intros e [= <-]. done.
Qed.

(** Too large to write. *)
Definition oversized (events : list Event) : Prop :=
  ∃ data, marshalEvents events = inr data ∧ (768 * 1024 < Z.of_nat (String.length data))%Z.

(** [n] events were dropped for the size: none, or the last batch was an eighth at most
    (one event, if that is less), and what was there before it was too large. *)
Definition batched (events : list Event) (n : nat) : Prop :=
  n = 0 ∨ ∃ k, (k < n)%nat ∧ (n - k ≤ Nat.max 1 (length (drop k events) / 8))%nat ∧ oversized (drop k events).

Lemma batched_more l k n :
  (0 < k ≤ Nat.max 1 (length l / 8))%nat → oversized l → batched (drop k l) n → batched l (k + n).
Proof.
  intros Hk Ho [->|(j & Hj & Hb & Hov)]; right.
  - exists 0. rewrite drop_0. split; [lia|]. split; [lia|done].
  - exists (k + j). rewrite drop_drop in *. split; [lia|]. split; [|done]. lia.
Qed.

(** Small enough to write, or nothing is left to drop. *)
Definition fits (events : list Event) : Prop :=
  (length events ≤ 1)%nat ∨ (∃ err, marshalEvents events = inl err) ∨
  ∃ data, marshalEvents events = inr data ∧ (Z.of_nat (String.length data) ≤ MaxBytes)%Z.

Lemma trim_bytes_spec fuel l :
  (length l ≤ fuel)%nat →
  ∃ n, trim_bytes fuel l = drop n l ∧ (l ≠ [] → n < length l)%nat ∧ fits (drop n l) ∧ batched l n.
Proof.
  assert (∀ l : list Event, l ≠ [] → 0 < length l)%nat as Hpos
    by (intros [|??]; simpl; [done|lia]).
  assert (∀ l, fits l → ∃ n, l = drop n l ∧ (l ≠ [] → n < length l)%nat ∧ fits (drop n l) ∧ batched l n) as Hstop.
  { intros k Hk. exists 0. rewrite drop_0. split; [done|]. split; [apply Hpos|]. split; [done|by left]. }
  revert l. induction fuel as [|fuel IH]; intros l Hl; cbn [trim_bytes]; cbv zeta;
    [apply Hstop; left; lia|].
  destruct (Nat.leb_spec (length l) 1); [apply Hstop; by left|].
  destruct (marshalEvents l) as [err|data] eqn:Em; [apply Hstop; right; left; by exists err|].
  destruct (Z.leb_spec (Z.of_nat (String.length data)) MaxBytes);
    [apply Hstop; right; right; by exists data|].
  set (k := if (length l / 8 =? 0)%nat then 1 else length l / 8).
  assert (1 ≤ k ∧ k < length l)%nat as [Hk1 Hk2].
  { subst k. assert (length l / 8 < length l)%nat by (apply Nat.div_lt; lia).
    destruct (Nat.eqb_spec (length l / 8) 0); lia. }
  assert (k ≤ Nat.max 1 (length l / 8))%nat as Hk3 by (subst k; destruct (Nat.eqb_spec (length l / 8) 0); lia).
  destruct (IH (drop k l)) as (n & Hn & Hlt & Hfit & Hbat); [rewrite length_drop; lia|].
  exists (k + n). rewrite Hn, drop_drop. rewrite drop_drop in Hfit. split; [done|].
  split; [|split; [done|apply batched_more; [done|by exists data|done]]]. intros _. rewrite length_drop in Hlt.
  assert (n < length l - k)%nat; [|lia].
  apply Hlt. intros E%(f_equal length). rewrite length_drop in E. simpl in E. lia.
Qed.

Lemma trimSize_spec l :
  l ≠ [] → ∃ n, trimSize l = drop n l ∧ (n < length l)%nat ∧ fits (drop n l) ∧
    (length (drop n l) ≤ Cap)%nat ∧ ∃ b, n = (length l - 2000 + b)%nat ∧ batched (drop (length l - 2000) l) b.
Proof.
  intros Hl. unfold trimSize.
  assert (0 < Cap)%nat by (unfold Cap; lia). assert (0 < length l)%nat by (by destruct l; simpl; [|lia]).
  set (m := if (Cap <? length l)%nat then length l - Cap else 0).
  assert ((if (Cap <? length l)%nat then drop (length l - Cap) l else l) = drop m l) as ->
    by (subst m; by destruct (Cap <? length l)%nat).
  assert (m < length l ∧ length (drop m l) ≤ Cap)%nat as [Hm Hc].
  { rewrite length_drop. subst m. destruct (Nat.ltb_spec Cap (length l)); lia. }
  assert (m = length l - 2000)%nat as Hm' by (subst m; unfold Cap; destruct (Nat.ltb_spec 2000 (length l)); lia).
  destruct (trim_bytes_spec (length (drop m l)) (drop m l) (le_n _)) as (n & -> & Hn & Hf & Hbat).
  rewrite drop_drop in *. rewrite length_drop in Hn, Hc. exists (m + n). split; [done|].
  assert (n < length l - m)%nat.
  { apply Hn. intros E%(f_equal length). rewrite length_drop in E. simpl in E. lia. }
  split; [lia|]. split; [done|]. split; [rewrite length_drop; lia|]. exists n. rewrite <-Hm'. by split; [lia|].
Qed.

(** How many events go when [new] comes at a time: the oldest ones while they are older
    than thirty days; of the rest what exceeds 2000 events; and after that no more than
    the size asks for, in batches. *)
Definition retires (now : Time) (old : list Event) (new : Event) (n : nat) : Prop :=
  ∃ aged above batch, n = (aged + above + batch)%nat ∧ (n ≤ length old)%nat ∧
    (∀ e, e ∈ take aged old → (ev_Timestamp e < now - 30 * 24 * Hour)%Z) ∧
    (∀ e, head (drop aged old) = Some e → (now - 30 * 24 * Hour ≤ ev_Timestamp e)%Z) ∧
    above = (length (drop aged old ++ [new]) - 2000)%nat ∧
    batched (drop above (drop aged old ++ [new])) batch.

(** Appending drops old events only. *)
Lemma append_event_shape now events e :
  ∃ n, append_event now events e =
    drop n (backfillSeq events) ++ [with_Seq (nextSeq (backfillSeq events)) e] ∧
    fits (append_event now events e) ∧ (length (append_event now events e) ≤ Cap)%nat ∧
    retires now (backfillSeq events) (with_Seq (nextSeq (backfillSeq events)) e) n.
Proof.
  unfold append_event. set (old := backfillSeq events).
  destruct (trim_before_drop (now - Retention) old) as (n & Hn & Hle & Hold & Hnew).
  unfold trimRetention. rewrite Hn. set (new := with_Seq _ e).
  destruct (trimSize_spec (drop n old ++ [new])) as (k & Hk & Hlt & Hf & Hc & b & Hb & Hbat).
  { by destruct (drop n old). }
  rewrite Hk in *. exists (n + k).
  rewrite length_app in Hlt. simpl in Hlt.
  rewrite drop_app_le, drop_drop in Hk, Hf, Hc |- * by lia. split; [done|]. split; [done|]. split; [done|].
  rewrite length_drop in Hlt. eexists n, _, b. split; [|split; [|split; [exact Hold|split; [exact Hnew|split; [reflexivity|exact Hbat]]]]]; lia.
Qed.

(** ** Correctness *)

(** The events a stored ConfigMap holds, none when there is no ConfigMap. *)
Definition stored_events (o : option ConfigMap) : error + list Event :=
  match o with
  | None => inr []
  | Some cm => unmarshalEvents (map_get (cm_Data cm) eventsKey)
  end.

Definition event_key (e : Event) : NamespacedName :=
  (projectNamespace (ev_Project e), configMapName (ev_Project e)).

(** The number an event gets: the first event of a project keeps its own. *)
Definition given_seq (o : option ConfigMap) (old : list Event) (e : Event) : Z :=
  match o with None => ev_Seq e | Some _ => nextSeq (backfillSeq old) end.

Lemma stored_with_events events data cm :
  marshalEvents events = inr data → seqs_ok events →
  stored_events (Some (with_events data cm)) = inr events.
Proof.
  intros Hm Hok. simpl. unfold map_get. rewrite lookup_insert_eq. simpl.
  by apply unmarshal_marshal.
Qed.

Lemma append_event_seqs_ok now old e : seqs_ok old → seqs_ok (append_event now old e).
Proof.
  intros Hok. destruct (append_event_shape now old e) as (n & -> & _).
  intros x [Hx|Hx%list_elem_of_singleton]%elem_of_app.
  - apply (backfill_seqs_ok 0 old Hok). by eapply subseteq_drop.
  - subst x. apply wrap64_range.
Qed.

(** Appending stays within what the calls on ConfigMaps do. *)
Section within.
Context {W : Type} {C : KubeClient W ConfigMap} (now : W → Time) (ctx : nat → option error).
Context (I : relation W) {HI : PreOrder I} {CW : KubeWithin W ConfigMap I}.

Lemma appendOnce_within e w : I w (appendOnce now e w).1.
Proof.
  unfold appendOnce. pose proof (kget_within (I := I) (Obj := ConfigMap)) as Hg.
  specialize (Hg (projectNamespace (ev_Project e), configMapName (ev_Project e)) w).
  destruct (kget _ w) as [w1 [err|cm]]; simpl in Hg.
  - destruct (IsNotFound err); [|done]. destruct (marshalEvents [e]); [done|].
    etrans; [done|apply kcreate_within].
  - destruct (unmarshalEvents _); [done|]. destruct (marshalEvents _); [done|].
    etrans; [done|apply kupdate_within].
Qed.

Lemma Append_within e w : I w (Append now ctx e w).1.
Proof.
  unfold Append. generalize 0 as i. generalize maxConflictRetries as n. intros n. revert w.
  induction n as [|n IH]; intros w i; simpl; [done|].
  pose proof (appendOnce_within e w) as Ha. destruct (appendOnce now e w) as [w1 [err|]]; [|done].
  repeat case_match; try done. etrans; [done|apply IH].
Qed.
End within.

Section append.
Context {W : Type} {C : KubeClient W ConfigMap} {OK : KubeClientOk W ConfigMap}.
Context (now : W → Time) (ctx : nat → option error).

(** The event was written: the version [w'] stores extends the one it replaced, without
    the events that are due to go at the time of the write. *)
Definition recorded (e : Event) (w w' : W) : Prop :=
  ∃ wt wu rv cm old n, khist w wt ∧ khist wt wu ∧ khist wu w' ∧
    kstore w' = <[event_key e := obj_with_rv rv cm]> (kstore wu) ∧
    stored_events (kstore wu !! event_key e) = inr old ∧
    let new := with_Seq (given_seq (kstore wu !! event_key e) old e) e in
    stored_events (Some cm) = inr (drop n (backfillSeq old) ++ [new]) ∧
    (is_Some (kstore wu !! event_key e) → retires (now wt) (backfillSeq old) new n).

Lemma appendOnce_recorded e w w' :
  in_int64 (ev_Seq e) = true → appendOnce now e w = (w', None) → recorded e w w'.
Proof.
  intros He. unfold appendOnce. fold (event_key e).
  destruct (kget (event_key e) w) as [w1 [err|cm]] eqn:Eg.
  - destruct (IsNotFound err); [|done].
    destruct (marshalEvents [e]) as [|data] eqn:Em; [done|]. intros Hc.
    apply kcreate_spec in Hc as [_ Hc]. destruct (Hc eq_refl) as (wu & rv & H1 & H2 & Hn & Hs).
    apply kget_hist in Eg. eexists w1, wu, rv, (new_config_map _ _ data), [], 0.
    split; [done|]. split; [done|]. split; [done|]. split; [exact Hs|].
    change (event_key e) with (obj_key (new_config_map (projectNamespace (ev_Project e))
      (configMapName (ev_Project e)) data)). rewrite Hn. split; [done|]. split; [|by intros [? ?]].
    unfold stored_events, map_get. cbn [cm_Data new_config_map]. rewrite lookup_singleton_eq.
    change (default "" (Some data)) with data. rewrite (unmarshal_marshal _ _ Em) by (by intros x ->%list_elem_of_singleton).
    by destruct e.
  - destruct (unmarshalEvents _) as [|old] eqn:Eu; [done|].
    destruct (marshalEvents (append_event _ _ _)) as [|data] eqn:Em; [done|]. intros Hu.
    assert (obj_key (with_events data cm) = obj_key cm) as Hkey by done.
    apply kget_spec in Eg as [Hg Hread].
    destruct (rmw_read _ cm (with_events data cm) _ _ (Hread _ eq_refl) Hu Hkey eq_refl) as (wu & rv & H1 & H2 & Hcm & Hs).
    destruct (append_event_shape (now w1) old e) as (n & Hshape & _ & _ & Hret).
    exists w1, wu, rv, (with_events data cm), old, n. split; [done|]. split; [done|]. split; [done|].
    split; [done|]. rewrite Hcm. split; [done|].
    cbn [given_seq]. rewrite <- Hshape. split; [|done].
    apply stored_with_events; [done|]. by eapply append_event_seqs_ok, unmarshalEvents_ok.
Qed.

Lemma appendOnce_hist e w w' r : appendOnce now e w = (w', r) → khist w w'.
Proof. intros H. pose proof (appendOnce_within now khist e w) as Hw. by rewrite H in Hw. Qed.

Lemma append_loop_success attempts i e w w' :
  append_loop now ctx attempts i e w = (w', None) →
  ∃ w1 r, khist w w1 ∧ appendOnce now e w1 = (w', r) ∧
    (r = None ∨ ∃ err, r = Some err ∧ IsNotFound err = true).
Proof.
  revert i w. induction attempts as [|n IH]; intros i w; simpl; [done|].
  destruct (appendOnce now e w) as [w1 [err|]] eqn:E.
  - destruct (IsNotFound err) eqn:En.
    { intros [= <-]. exists w, (Some err). split; [done|]. split; [done|]. right. by exists err. }
    destruct (negb (IsConflict err) && negb (IsAlreadyExists err)); [done|].
    destruct (ctx i); [done|]. intros (w2 & r & Hw & H)%IH.
    exists w2, r. split; [|done]. etrans; [by eapply appendOnce_hist|done].
  - intros [= <-]. exists w, None. split; [done|]. auto.
Qed.

(** C30: no event is lost.  When [Append] succeeds, whatever other writers did between
    its reads and its writes, the version it stored holds the events of the version it
    replaced and after them the new event.  Of the old ones only those are dropped, from
    the oldest on, that are older than thirty days at the time of the append, that are
    beyond the 2000 latest, or that the size leaves no room for, where the last batch that
    was dropped is an eighth at most of a buffer that was too large.  The exception: when
    the API server answers that the namespace or the ConfigMap is gone, the append succeeds
    without storing the event. *)
Theorem Append_no_lost_event e w w' :
  in_int64 (ev_Seq e) = true → Append now ctx e w = (w', None) →
  recorded e w w' ∨
  ∃ w1 err, khist w w1 ∧ appendOnce now e w1 = (w', Some err) ∧ IsNotFound err = true.
Proof.
  intros He (w1 & r & Hw & Hr & [->|(err & -> & Hn)])%append_loop_success.
  - left. destruct (appendOnce_recorded _ _ _ He Hr) as (wt & wu & rv & cm & old & n & H1 & H).
    exists wt, wu, rv, cm, old, n. split; [by etrans|exact H].
  - right. by exists w1, err.
Qed.
End append.

(** The numbers of a buffer increase strictly, so they identify events: appending
    gives the new event a number above every other and renumbers nothing that had one;
    and the buffer keeps within its count, with a payload that fits as long as there is
    more than one event. *)
Theorem append_event_invariant now old e :
  legacy_ok old → (max_seq old 0 + Z.of_nat (length old) + 1 < 2 ^ 63)%Z →
  let new := append_event now old e in
  ordered 0 new ∧ legacy_ok new ∧ (length new ≤ Cap)%nat ∧ fits new ∧
  ∃ n, new = drop n (backfillSeq old) ++ [with_Seq (nextSeq (backfillSeq old)) e] ∧
    (∀ x, x ∈ backfillSeq old → (ev_Seq x < nextSeq (backfillSeq old))%Z) ∧
    (ordered 0 old → backfillSeq old = old).
Proof.
  intros Hok Hb new. destruct (backfill_legacy old Hok) as [Hord Hmax]; [lia|].
  destruct (append_event_shape now old e) as (n & Hnew & Hfit & Hcap & _). fold new in Hnew, Hfit, Hcap.
  destruct (max_seq_ge (backfillSeq old) 0) as [H0 Hall].
  assert (nextSeq (backfillSeq old) = (max_seq (backfillSeq old) 0 + 1)%Z) as Hnext
    by (apply wrap64_id, in_int64_spec; lia).
  assert (ordered 0 new) as Hordn.
  { rewrite Hnew. apply ordered_app. split; [by apply ordered_drop|]. simpl. split; [|done].
    assert (max_seq (drop n (backfillSeq old)) 0 ≤ max_seq (backfillSeq old) 0)%Z; [|lia].
    apply max_seq_bound; [done|]. intros x Hx. apply Hall. by eapply subseteq_drop. }
  split; [done|]. split.
  { exists new, []. rewrite app_nil_r. split; [done|]. split; [done|].
    intros x Hx. by apply elem_of_nil in Hx. }
  split; [done|]. split; [done|]. exists n. split; [done|]. split.
  - intros x Hx. specialize (Hall x Hx). lia.
  - by apply backfill_ordered.
Qed.

(** *** Paging *)

Lemma page_loop_below before limit above below :
  (∀ e, e ∈ above → (before ≤ ev_Seq e)%Z) → (∀ e, e ∈ below → (ev_Seq e < before)%Z) →
  (0 < before)%Z → page_loop before limit (above ++ below) = take limit below.
Proof.
  intros Ha Hb H0. induction above as [|e above IH]; simpl.
  - clear Ha. revert limit. induction below as [|e below IH]; intros [|n]; simpl; try done.
    destruct (Z.ltb_spec 0 before); [|lia]. specialize (Hb e (list_elem_of_here _ _)) as He.
    destruct (Z.leb_spec before (ev_Seq e)); [lia|]. simpl. f_equal. apply IH.
    intros x Hx. apply Hb. by right.
  - destruct limit as [|n]; [by destruct below|]. destruct (Z.ltb_spec 0 before); [|lia].
    specialize (Ha e (list_elem_of_here _ _)) as He.
    destruct (Z.leb_spec before (ev_Seq e)); [|lia]. simpl. apply IH.
    intros x Hx. apply Ha. by right.
Qed.

Lemma page_loop_all limit l : page_loop 0 limit l = take limit l.
Proof. revert limit. induction l as [|e l IH]; intros [|n]; simpl; try done. by rewrite IH. Qed.

Lemma next_cursor_more a x a2 :
  a ≠ [] → ordered 0 (a ++ x :: a2) →
  next_cursor (oldest_seq (a ++ x :: a2)) (rev (x :: a2)) = itoa (ev_Seq x).
Proof.
  intros Hne Hord. unfold next_cursor. simpl rev. rewrite last_snoc.
  destruct a as [|y a]; [done|]. simpl oldest_seq.
  apply ordered_app in Hord as [_ [Hx _]].
  destruct (max_seq_ge (y :: a) 0) as [_ Hy].
  specialize (Hy y (list_elem_of_here _ _)).
  by destruct (Z.ltb_spec (ev_Seq y) (ev_Seq x)); [|lia].
Qed.

Lemma next_cursor_end a : next_cursor (oldest_seq a) (rev a) = "".
Proof.
  unfold next_cursor. destruct a as [|x a]; [done|]. simpl rev. rewrite last_snoc. simpl.
  by rewrite Z.ltb_irrefl.
Qed.

Lemma clamp_limit_pos limit : (1 ≤ clamp_limit limit)%nat.
Proof.
  unfold clamp_limit. destruct (Z.leb_spec limit 0), (Z.ltb_spec (Z.of_nat Cap) limit);
    unfold Cap in *; simpl orb; cbv iota; lia.
Qed.

Lemma take_rev {A} n (l : list A) : (n ≤ length l)%nat → take n (rev l) = rev (drop (length l - n) l).
Proof.
  intros H. rewrite <- (take_drop (length l - n) l) at 1.
  rewrite rev_app_distr, take_app_le, take_ge; [done|..]; rewrite length_rev, length_drop; lia.
Qed.

Section paging.
Context {W : Type} {C : KubeClient W ConfigMap} (view : NamespacedName → error + ConfigMap).
Context {Hview : KubeSnapshot W ConfigMap view}.

(** A client that asks for the first page and then for the page at each cursor. *)
Fixpoint walk (fuel : nat) (project : string) (limit : Z) (cursor : string) (w : W)
    : option (list Event) :=
  match fuel with
  | O => None
  | S fuel =>
    match ListPage project limit cursor w with
    | (w, inr (page, next)) =>
      if String.eqb next "" then Some page else (page ++.) <$> walk fuel project limit next w
    | (_, inl _) => None
    end
  end.

(** The cursor below the events [newer]. *)
Definition cursor_below (newer : list Event) : string :=
  match newer with [] => "" | x :: _ => itoa (ev_Seq x) end.

Lemma parse_cursor_below newer :
  ordered 0 newer → seqs_ok newer →
  parse_cursor (cursor_below newer) = Some (match newer with [] => 0%Z | x :: _ => ev_Seq x end).
Proof.
  unfold parse_cursor, cursor_below. destruct newer as [|x newer]; [done|]. intros [Hx _] Hok.
  destruct (String.eqb_spec (itoa (ev_Seq x)) "") as [E|]; [by apply itoa_nonempty in E|].
  rewrite ParseInt64_itoa by (apply Hok; by left). by destruct (Z.leb_spec (ev_Seq x) 0); [lia|].
Qed.

Lemma page_below limit older newer :
  ordered 0 (older ++ newer) →
  page_loop (match newer with [] => 0%Z | x :: _ => ev_Seq x end) limit
    (rev (older ++ newer)) = take limit (rev older).
Proof.
  intros Hord. destruct newer as [|x newer]; [rewrite app_nil_r; apply page_loop_all|].
  rewrite rev_app_distr. apply ordered_app in Hord as [Hold [Hx Hnew]].
  destruct (max_seq_ge older 0) as [H0 Hall]. apply page_loop_below.
  - intros e. rewrite list_elem_of_In, <- in_rev, <- list_elem_of_In.
    intros [->|He]%elem_of_cons; [lia|]. specialize (ordered_elem _ _ _ Hnew He). lia.
  - intros e. rewrite list_elem_of_In, <- in_rev, <- list_elem_of_In. intros He%Hall. lia.
  - lia.
Qed.

Lemma walk_rest project limit cm raw w fuel older newer :
  view (projectNamespace project, configMapName project) = inr cm →
  unmarshalEvents (map_get (cm_Data cm) eventsKey) = inr raw →
  backfillSeq raw = older ++ newer → ordered 0 (older ++ newer) → seqs_ok (older ++ newer) →
  (length older < fuel)%nat → (older ≠ [] ∨ newer = []) →
  walk fuel project limit (cursor_below newer) w = Some (rev older).
Proof.
  intros Hcm Hraw Hevs. revert older newer Hevs.
  induction fuel as [|fuel IH]; intros older newer Hevs Hord Hok Hfuel Hne; [lia|].
  cbn [walk]. unfold ListPage, read_events.
  assert (ordered 0 newer) as Hn.
  { apply ordered_app in Hord as [_ H]. eapply ordered_mono; [|done]. by apply max_seq_ge. }
  rewrite parse_cursor_below by (done || (intros x Hx; apply Hok, elem_of_app; by right)).
  rewrite kget_snapshot, Hcm, Hraw, Hevs. cbv zeta. rewrite page_below by done.
  set (L := clamp_limit limit).
  pose proof (clamp_limit_pos limit) as HL. fold L in HL.
  destruct (decide (length older ≤ L)%nat) as [Hle|Hgt].
  - rewrite take_ge by (rewrite length_rev; lia).
    assert (next_cursor (oldest_seq (older ++ newer)) (rev older) = "") as ->; [|done].
    destruct Hne as [Hne| ->]; [|rewrite app_nil_r; apply next_cursor_end].
    destruct older as [|e older]; [done|]. exact (next_cursor_end (e :: older)).
  - set (k := length older - L).
    rewrite (take_rev L older) by lia. fold k.
    rewrite <- (take_drop k older) in Hevs, Hord, Hok |- *.
    assert (length (take k older) = k) as Hk by (rewrite length_take; lia).
    assert (drop k older ≠ []) as Hd.
    { intros E%(f_equal length). rewrite length_drop in E. simpl in E. lia. }
    assert (take k older ≠ []) as Ht by (intros E; rewrite E in Hk; simpl in Hk; lia).
    rewrite drop_app_ge, Hk, Nat.sub_diag, drop_0 by lia.
    destruct (drop k older) as [|x d]; [done|]. rewrite <- app_assoc in *.
    change ((x :: d) ++ newer) with (x :: (d ++ newer)) in *.
    assert (next_cursor (oldest_seq (take k older ++ x :: d ++ newer)) (rev (x :: d)) =
      cursor_below (x :: d ++ newer)) as ->.
    { unfold cursor_below. rewrite <- (next_cursor_more (take k older) x (d ++ newer)) by done.
      unfold next_cursor. simpl rev. by rewrite !last_snoc. }
    destruct (String.eqb_spec (cursor_below (x :: d ++ newer)) "") as [E|];
      [by apply itoa_nonempty in E|].
    rewrite (IH (take k older) (x :: d ++ newer)) by (auto; lia). simpl. by rewrite rev_app_distr.
Qed.

(** Paging is complete.  A client that follows the cursors of [ListPage], with any
    page size, sees every stored event exactly once, newest first, and the last cursor
    is empty. *)
Theorem ListPage_walk project limit cm events w :
  view (projectNamespace project, configMapName project) = inr cm →
  unmarshalEvents (map_get (cm_Data cm) eventsKey) = inr events →
  legacy_ok events → (max_seq events 0 + Z.of_nat (length events) < 2 ^ 63)%Z →
  walk (S (length events)) project limit "" w = Some (rev (backfillSeq events)).
Proof.
  intros Hcm Hev Hok Hb. destruct (backfill_legacy events Hok Hb) as [Hord _].
  apply (walk_rest project limit cm events w _ (backfillSeq events) []); try done;
    rewrite ?app_nil_r; auto.
  - apply backfill_seqs_ok. by eapply unmarshalEvents_ok.
  - unfold backfillSeq. rewrite backfill_length. lia.
Qed.
End paging.

(** ** Concrete runs *)

Module ActivityRuns.
#[local] Existing Instances Sim.client Sim.client_ok.

Definition at_ (n : Z) : Time := (1770000000 * Second + n)%Z.

Definition event (seq : Z) (action : string) : Event :=
  {| ev_Seq := seq; ev_Timestamp := at_ seq; ev_Actor := "dev@example.com"; ev_Action := action;
     ev_ResourceKind := "app"; ev_ResourceName := "web"; ev_Project := "shop";
     ev_Message := action; ev_Metadata := {["env" := "production"]} |}.

Definition text (events : list Event) : string :=
  match marshalEvents events with inr data => data | inl _ => "" end.
Definition stored (events : list Event) : ConfigMap :=
  new_config_map "pj-shop" "activity-shop" (text events).

Definition now : Sim.world ConfigMap → Time := λ _, at_ 100.
Definition ctx : nat → option error := λ _, None.

(** The buffer holds one event, written without a number; between our read and our
    write another replica appends a second one. *)
Definition contested : Sim.world ConfigMap :=
  Sim.World [Sim.Put (stored [event 0 "create"])]
    [Sim.Calm; Sim.External (Sim.Put (stored [event 1 "create"; event 2 "deploy"]))].

Lemma Append_no_lost_event_witness :
  let e := event 0 "scale" in
  let w' := (Append now ctx e contested).1 in
  recorded now e contested w' ∨
  ∃ w1 err, khist contested w1 ∧ appendOnce now e w1 = (w', Some err) ∧ IsNotFound err = true.
Proof.
  cbv zeta. destruct (Append now ctx (event 0 "scale") contested) as [w' r] eqn:E.
  assert (r = None) as ->.
  { change r with (snd (w', r)). rewrite <- E. vm_compute. reflexivity. }
  apply (Append_no_lost_event now ctx (event 0 "scale") contested w'); [reflexivity|exact E].
Defined.

(** All three events are stored, numbered in the order they were appended. *)
Example all_stored :
  match stored_events
    (kstore (Obj := ConfigMap) (Append now ctx (event 0 "scale") contested).1 !!
      ("pj-shop", "activity-shop")) with
  | inr events => (λ e, (ev_Seq e, ev_Action e)) <$> events
  | inl _ => []
  end = [(1%Z, "create"); (2%Z, "deploy"); (3%Z, "scale")].
Proof. vm_compute. reflexivity. Qed.

Definition mixed : list Event :=
  [event 4 "create"; event 5 "deploy"; event 0 "rollback"; event 0 "scale"].

Lemma mixed_ok : legacy_ok mixed.
Proof.
  exists [event 4 "create"; event 5 "deploy"], [event 0 "rollback"; event 0 "scale"].
  split; [reflexivity|]. split; [simpl; lia|].
  intros e He. rewrite !elem_of_cons in He. destruct He as [->|[->|He]]; [done|done|].
  by apply elem_of_nil in He.
Qed.

Lemma append_event_invariant_witness :
  let new := append_event (at_ 100) mixed (event 0 "delete") in
  ordered 0 new ∧ legacy_ok new ∧ (length new ≤ Cap)%nat ∧ fits new ∧
  ∃ n, new = drop n (backfillSeq mixed) ++
    [with_Seq (nextSeq (backfillSeq mixed)) (event 0 "delete")] ∧
    (∀ x, x ∈ backfillSeq mixed → (ev_Seq x < nextSeq (backfillSeq mixed))%Z) ∧
    (ordered 0 mixed → backfillSeq mixed = mixed).
Proof.
  apply (append_event_invariant (at_ 100) mixed (event 0 "delete") mixed_ok).
  vm_compute. reflexivity.
Defined.

(** An event past the retention horizon goes, the others keep their numbers. *)
Example retention :
  ev_Seq <$> append_event (at_ 5 + Retention) mixed (event 0 "delete") =
  [5; 6; 7; 8]%Z.
Proof. vm_compute. reflexivity. Qed.

Definition view : NamespacedName → error + ConfigMap :=
  map_view {[("pj-shop", "activity-shop") := stored mixed]}.
#[local] Instance reader : KubeClient unit ConfigMap := read_only view.
#[local] Instance reader_ok : KubeSnapshot unit ConfigMap view := read_only_snapshot view.

Lemma ListPage_walk_witness :
  walk (S (length mixed)) "shop" 3 "" tt = Some (rev (backfillSeq mixed)).
Proof.
  apply (ListPage_walk view "shop" 3 (stored mixed) mixed tt).
  - vm_compute. reflexivity.
  - vm_compute. reflexivity.
  - exact mixed_ok.
  - vm_compute. reflexivity.
Defined.
End ActivityRuns.
