(* ===== verification/Nsrbac.v ===== *)
(** * The write RoleBinding of a namespace: [internal/nsrbac/nsrbac.go]

    Every namespace of the program has a RoleBinding that lets the operator's service
    account write into it. *)

From S2P Require Import Prelude GoStrings Kube Core Constants.

Section nsrbac.
Context {W : Type} {CB : KubeClient W RoleBinding}.

Definition write_binding (ns saName saNamespace : string) : RoleBinding :=
  {| rb_meta := with_labels {[ManagedByLabel := ManagedByValue]}
       (with_name NsRoleBindingName (with_namespace ns ObjectMeta_zero));
     rb_RoleRef := {| rr_APIGroup := "rbac.authorization.k8s.io"; rr_Kind := "ClusterRole";
                      rr_Name := NsClusterRoleName |};
     rb_Subjects := [{| sub_Kind := "ServiceAccount"; sub_APIGroup := "";
                        sub_Name := saName; sub_Namespace := saNamespace |}] |}.

(** Element by element, like the slices. *)
Definition subjectsEqual (a b : list Subject) : bool := bool_decide (a = b).

Definition EnsureWriteBinding (ns saName saNamespace : string) (w : W) : W * option error :=
  let desired := write_binding ns saName saNamespace in
  match kget (ns, NsRoleBindingName) w with
  | (w, inl err) =>
    if IsNotFound err then
      match kcreate desired w with
      | (w, Some createErr) => if IsAlreadyExists createErr then (w, None) else (w, Some createErr)
      | (w, None) => (w, None)
      end
    else (w, Some err)
  | (w, inr existing) =>
    if negb (bool_decide (rb_RoleRef existing = rb_RoleRef desired)) ||
       negb (subjectsEqual (rb_Subjects existing) (rb_Subjects desired))
    then kupdate {| rb_meta := rb_meta existing; rb_RoleRef := rb_RoleRef desired;
                    rb_Subjects := rb_Subjects desired |} w
    else (w, None)
  end.

(** ** The binding after a success *)

Context {OB : KubeClientOk W RoleBinding}.

(** The stored binding grants the role to the service account and to nobody else. *)
Definition grants (saName saNamespace : string) (b : RoleBinding) : Prop :=
  rb_RoleRef b = rb_RoleRef (write_binding "" saName saNamespace) ∧
  rb_Subjects b = rb_Subjects (write_binding "" saName saNamespace).

(** When nobody else writes, the function succeeds and the namespace has the binding,
    whatever subjects were there before; the other bindings stay as they are.  A binding
    to another role is left out: the API server refuses to change a role reference. *)
Theorem EnsureWriteBinding_converges ns saName saNamespace w :
  kquiet w →
  (∀ b, kstore w !! (ns, NsRoleBindingName) = Some b → rb_RoleRef b = rb_RoleRef (write_binding "" "" "")) →
  ∃ w' b, EnsureWriteBinding ns saName saNamespace w = (w', None) ∧ kquiet w' ∧
    kstore w' = <[(ns, NsRoleBindingName) := b]> (kstore w) ∧ grants saName saNamespace b.
Proof.
  intros Hq _. unfold EnsureWriteBinding.
  destruct (kget_quiet (ns, NsRoleBindingName) w Hq) as (w1 & Hq1 & Hs1 & Hg).
  destruct (kstore w !! (ns, NsRoleBindingName)) as [cur|] eqn:Ec.
  - rewrite Hg. assert (Hk := kstore_key _ _ _ Ec).
    destruct (_ || _) eqn:Ed.
    + set (new := {| rb_meta := _; rb_RoleRef := _; rb_Subjects := _ |}).
      destruct (kupdate_quiet new w1 cur Hq1) as (w2 & rv & Hq2 & Hu & Hs2);
        [rewrite Hs1; change (obj_key new) with (obj_key cur); by rewrite Hk|done|].
      exists w2, (obj_with_rv rv new). split; [done|]. split; [done|].
      change (obj_key new) with (obj_key cur) in Hs2. rewrite Hs2, Hs1, Hk. done.
    + apply orb_false_iff in Ed as [Er%negb_false_iff Es%negb_false_iff].
      apply bool_decide_eq_true in Er, Es. exists w1, cur. rewrite Hs1, insert_id by done. done.
  - destruct Hg as (e & Hg & He). rewrite Hg, He.
    destruct (kcreate_quiet (write_binding ns saName saNamespace) w1 Hq1) as (w2 & rv & Hq2 & Hc & Hs2);
      [by rewrite Hs1|]. rewrite Hc.
    eexists w2, _. split; [done|]. split; [done|]. split; [by rewrite Hs2, Hs1|done].
Qed.
End nsrbac.

Module NsrbacRuns.
#[local] Existing Instances Sim.client Sim.client_ok.

(** A binding somebody changed: it names another account. *)
Definition drifted : RoleBinding :=
  {| rb_meta := rb_meta (write_binding "pj-shop" "" ""); rb_RoleRef := rb_RoleRef (write_binding "" "" "");
     rb_Subjects := [{| sub_Kind := "User"; sub_APIGroup := ""; sub_Name := "mallory"; sub_Namespace := "" |}] |}.

Lemma EnsureWriteBinding_converges_witness :
  ∃ w' b, EnsureWriteBinding "pj-shop" "operator" "mortise-system"
      (Sim.World [Sim.Put drifted] []) = (w', None) ∧ kquiet w' ∧
    kstore w' = <[("pj-shop", NsRoleBindingName) := b]> (kstore (Sim.World [Sim.Put drifted] [])) ∧
    grants "operator" "mortise-system" b.
Proof. apply EnsureWriteBinding_converges; [done|]. by intros b [= <-]. Defined.
End NsrbacRuns.
