(* ===== verification/LoginLimit.v ===== *)
(** * Login throttling: [internal/api/loginlimit.go]

    A token bucket per key with a lockout after repeated failures.  The methods hold the
    mutex of the limiter, so each is one atomic step; the clock is read under the lock and
    is an argument here.  [run] applies a trace of steps of any number of keys.

    [lockout_enforced] is what the limiter is for, [table_bounded] what keeps its memory
    bounded. *)

From S2P Require Import Prelude GoStrings GoNum Kube GoTime.
From Stdlib Require Import Floats.SpecFloat.

Definition defaultLoginRatePerMin : Z := 5.
Definition defaultLoginBurst : Z := 10.
Definition defaultLoginLockoutAfter : Z := 10.
Definition defaultLoginLockoutMinutes : Z := 15.
Definition loginLimiterMaxEntries : nat := N.to_nat 10000.
Definition loginLimiterIdleEvict : Z := 30 * Minute.

(** ** Durations and floats *)

(** The zero [time.Time]: the first of January of the year 1. *)
Definition no_time : Time := -62135596800 * Second.

(** [d.Minutes()] and [d.Seconds()] *)
Definition Minutes (d : Z) : float64 :=
  fadd (float_of_int (Z.quot d Minute)) (fdiv (float_of_int (Z.rem d Minute)) (float_of_int Minute)).
Definition Seconds (d : Z) : float64 :=
  fadd (float_of_int (Z.quot d Second)) (fdiv (float_of_int (Z.rem d Second)) (float_of_int Second)).

(** The built-in [min] of two floats. *)
Definition fmin (x y : float64) : float64 :=
  match SFcompare x y with
  | None => S754_nan
  | Some Lt => x
  | Some Gt => y
  | Some Eq => match x with S754_zero true => x | _ => y end
  end.

Definition one : float64 := float_of_int 1.

(** ** The limiter *)

Record loginEntry := {
  le_tokens : float64;
  le_lastRefill : Time;
  le_failures : Z;
  le_lockedUntil : Time;
  le_lastSeen : Time;
}.

Record loginLimiter := {
  ll_ratePerMin : float64;
  ll_burst : float64;
  ll_lockoutAfter : Z;
  ll_lockoutDur : Z;
  ll_entries : gmap string loginEntry;
}.

Definition with_entries (m : gmap string loginEntry) (l : loginLimiter) : loginLimiter :=
  {| ll_ratePerMin := ll_ratePerMin l; ll_burst := ll_burst l; ll_lockoutAfter := ll_lockoutAfter l;
     ll_lockoutDur := ll_lockoutDur l; ll_entries := m |}.

(** [l.entries[key] = e] *)
Definition put_entry (key : string) (e : loginEntry) (l : loginLimiter) : loginLimiter :=
  with_entries (<[key := e]> (ll_entries l)) l.

Definition envInt (getenv : string → string) (name : string) (def : Z) : Z :=
  let v := getenv name in
  if String.eqb v "" then def
  else match atoi v with
       | Some n => if (0 <? n)%Z then n else def
       | None => def
       end.

Definition newLoginLimiter (getenv : string → string) : loginLimiter :=
  {| ll_ratePerMin := float_of_int (envInt getenv "MORTISE_LOGIN_RATE_PER_MIN" defaultLoginRatePerMin);
     ll_burst := float_of_int (envInt getenv "MORTISE_LOGIN_BURST" defaultLoginBurst);
     ll_lockoutAfter := envInt getenv "MORTISE_LOGIN_LOCKOUT_FAILURES" defaultLoginLockoutAfter;
     ll_lockoutDur := wrap64 (envInt getenv "MORTISE_LOGIN_LOCKOUT_MINUTES" defaultLoginLockoutMinutes * Minute);
     ll_entries := ∅ |}.

(** [net.SplitHostPort]: the host; [None] is an error. *)
Definition split_host (hostport : string) : option string :=
  match last_index_char ":"%char hostport with
  | None => None
  | Some i =>
    if has_prefix "[" hostport then
      match index_char "]"%char hostport with
      | None => None
      | Some fin =>
        if (fin + 1 =? i)%nat then
          let host := str_take (fin - 1) (str_drop 1 hostport) in
          match index_char "["%char (str_drop 1 hostport), index_char "]"%char (str_drop (fin + 1) hostport) with
          | None, None => Some host
          | _, _ => None
          end
        else None
      end
    else
      let host := str_take i hostport in
      match index_char ":"%char host, index_char "["%char hostport, index_char "]"%char hostport with
      | None, None, None => Some host
      | _, _, _ => None
      end
  end.

Definition loginRateKey (email remoteAddr : string) : string :=
  to_lower (trim_space email) +:+ "|" +:+ default remoteAddr (split_host remoteAddr).

Definition idle (now : Time) (e : loginEntry) : bool :=
  (loginLimiterIdleEvict <? time_sub now (le_lastSeen e))%Z && (le_lockedUntil e <? now)%Z.

(** The entries go in any order. *)
Definition pruneLocked (now : Time) (l : loginLimiter) : loginLimiter :=
  with_entries (filter (λ '(_, e), idle now e = false) (ll_entries l)) l.

Definition full (l : loginLimiter) : bool := (loginLimiterMaxEntries <=? size (ll_entries l))%nat.

Definition new_entry (now : Time) (l : loginLimiter) : loginEntry :=
  {| le_tokens := ll_burst l; le_lastRefill := now; le_failures := 0; le_lockedUntil := no_time;
     le_lastSeen := no_time |}.

(** The entry of the key, a new one where there is none and the table has room. *)
Definition entry_for (now : Time) (key : string) (l : loginLimiter) : loginLimiter * option loginEntry :=
  match ll_entries l !! key with
  | Some e => (l, Some e)
  | None =>
    let l := if full l then pruneLocked now l else l in
    if full l then (l, None)
    else let e := new_entry now l in (put_entry key e l, Some e)
  end.

Definition seen (now : Time) (e : loginEntry) : loginEntry :=
  {| le_tokens := le_tokens e; le_lastRefill := le_lastRefill e; le_failures := le_failures e;
     le_lockedUntil := le_lockedUntil e; le_lastSeen := now |}.

Definition refilled (tokens : float64) (now : Time) (e : loginEntry) : loginEntry :=
  {| le_tokens := tokens; le_lastRefill := now; le_failures := le_failures e;
     le_lockedUntil := le_lockedUntil e; le_lastSeen := le_lastSeen e |}.

Definition failed (now : Time) (l : loginLimiter) (e : loginEntry) : loginEntry :=
  let failures := wrap64 (le_failures e + 1) in
  {| le_tokens := le_tokens e; le_lastRefill := le_lastRefill e; le_failures := failures;
     le_lockedUntil := if (ll_lockoutAfter l <=? failures)%Z then (now + ll_lockoutDur l)%Z
                       else le_lockedUntil e;
     le_lastSeen := le_lastSeen e |}.

(** [machine] is the conversion of a float out of range. *)
Definition allow (machine : float64 → Z) (now : Time) (key : string) (l : loginLimiter)
    : loginLimiter * (bool * Z) :=
  match entry_for now key l with
  | (l, None) => (l, (true, 0%Z))
  | (l, Some e) =>
    let e := seen now e in
    if (now <? le_lockedUntil e)%Z then (put_entry key e l, (false, time_sub (le_lockedUntil e) now))
    else
      let elapsed := Minutes (time_sub now (le_lastRefill e)) in
      let tokens := fmin (ll_burst l) (fadd (le_tokens e) (fmul elapsed (ll_ratePerMin l))) in
      if SFleb one tokens then (put_entry key (refilled (fsub tokens one) now e) l, (true, 0%Z))
      else
        let need := fdiv (fsub one tokens) (ll_ratePerMin l) in
        (put_entry key (refilled tokens now e) l,
         (false, int_of_float machine (fmul need (float_of_int Minute))))
  end.

Definition recordFailure (now : Time) (key : string) (l : loginLimiter) : loginLimiter :=
  match entry_for now key l with
  | (l, None) => l
  | (l, Some e) => put_entry key (failed now l (seen now e)) l
  end.

Definition recordSuccess (key : string) (l : loginLimiter) : loginLimiter :=
  with_entries (delete key (ll_entries l)) l.

(** ** Traces

    Requests run concurrently, so the calls of different logins, of one key too, may come
    in any order; the clock is what each call reads. *)

Inductive call := Allow (key : string) | Failure (key : string) | Success (key : string).
#[export] Instance call_eq_dec : EqDecision call.
Proof. solve_decision. Defined.

Section traces.
Context (machine : float64 → Z).

Definition step (l : loginLimiter) (c : Time * call) : loginLimiter :=
  match c with
  | (now, Allow key) => (allow machine now key l).1
  | (now, Failure key) => recordFailure now key l
  | (now, Success key) => recordSuccess key l
  end.

Definition run (l : loginLimiter) (cs : list (Time * call)) : loginLimiter := fold_left step cs l.

(** The failures recorded for a key. *)
Definition failures_of (key : string) (cs : list (Time * call)) : Z :=
  Z.of_nat (length (List.filter (λ c, match c.2 with Failure k => String.eqb k key | _ => false end) cs)).

Definition no_success (key : string) (cs : list (Time * call)) : Prop :=
  Forall (λ c, c.2 ≠ Success key) cs.

(** What is known of the key's count of failures. *)
Definition counted (key : string) (l : loginLimiter) : Z :=
  match ll_entries l !! key with Some e => le_failures e | None => 0%Z end.

(** ** The limiter works *)

(** What a call does to the entry of its key. *)
Definition same_count (now : Time) (e e' : loginEntry) : Prop :=
  le_failures e' = le_failures e ∧ le_lockedUntil e' = le_lockedUntil e ∧ le_lastSeen e' = now.

Lemma allow_entry now key l :
  match entry_for now key l with
  | (l1, None) => allow machine now key l = (l1, (true, 0%Z))
  | (l1, Some e) => ∃ e', same_count now e e' ∧ (allow machine now key l).1 = put_entry key e' l1 ∧
      ((now < le_lockedUntil e)%Z → (allow machine now key l).2.1 = false)
  end.
Proof.
  unfold allow. destruct (entry_for now key l) as [l1 [e|]]; [|done]. cbn [seen le_lockedUntil].
  destruct (Z.ltb_spec now (le_lockedUntil e)); [by exists (seen now e)|]. cbv zeta.
  destruct (SFleb one _); eexists; (split; [|split; [reflexivity|lia]]); done.
Qed.

Lemma entry_for_config now key l :
  let l1 := (entry_for now key l).1 in
  ll_lockoutAfter l1 = ll_lockoutAfter l ∧ ll_lockoutDur l1 = ll_lockoutDur l.
Proof. unfold entry_for. by repeat (case_match; simplify_eq/=). Qed.

Lemma step_config l c :
  ll_lockoutAfter (step l c) = ll_lockoutAfter l ∧ ll_lockoutDur (step l c) = ll_lockoutDur l.
Proof.
  destruct c as [now [k|k|k]]; simpl; [|unfold recordFailure|done].
  - pose proof (allow_entry now k l) as Ha. pose proof (entry_for_config now k l) as Hc.
    destruct (entry_for now k l) as [l1 [e|]]; [|by rewrite Ha]. by destruct Ha as (e' & _ & -> & _).
  - pose proof (entry_for_config now k l) as Hc. by destruct (entry_for now k l) as [l1 [e|]].
Qed.

Lemma prune_size now l : (size (ll_entries (pruneLocked now l)) ≤ size (ll_entries l))%nat.
Proof. simpl. apply map_subseteq_size, map_filter_subseteq. Qed.

Lemma entry_for_size now key l l1 e :
  entry_for now key l = (l1, e) →
  (size (ll_entries l1) ≤ loginLimiterMaxEntries `max` size (ll_entries l))%nat ∧
  (size (ll_entries l1) ≤ S (size (ll_entries l)))%nat ∧ ll_entries l1 !! key = e.
Proof.
  unfold entry_for. destruct (ll_entries l !! key) as [e0|] eqn:Ek; [intros [= <- <-]; by repeat split; try lia|].
  set (l0 := if full l then pruneLocked now l else l).
  assert (H0 : (size (ll_entries l0) ≤ size (ll_entries l))%nat).
  { unfold l0. case_match; [apply prune_size|done]. }
  assert (Hk : ll_entries l0 !! key = None).
  { unfold l0. case_match; [|done]. simpl. apply map_lookup_filter_None_2. by left. }
  destruct (full l0) eqn:Ef; intros [= <- <-]; [by repeat split; try lia|].
  unfold full in Ef. apply Nat.leb_gt in Ef. cbn [put_entry with_entries ll_entries].
  rewrite (map_size_insert_None _ _ _ Hk), lookup_insert_eq. repeat split; lia.
Qed.

Lemma put_entry_size key e e' l :
  ll_entries l !! key = Some e' → size (ll_entries (put_entry key e l)) = size (ll_entries l).
Proof. intros H. simpl. apply map_size_insert_Some. by exists e'. Qed.

(** A step adds one entry at most, and none to a full table. *)
Lemma step_size l c :
  (size (ll_entries (step l c)) ≤ loginLimiterMaxEntries `max` size (ll_entries l))%nat ∧
  (size (ll_entries (step l c)) ≤ S (size (ll_entries l)))%nat.
Proof.
  destruct c as [now [k|k|k]]; cbn [step].
  - pose proof (allow_entry now k l) as Ha. destruct (entry_for now k l) as [l1 [e|]] eqn:E;
      destruct (entry_for_size _ _ _ _ _ E) as (H1 & H2 & H3); [|by rewrite Ha].
    destruct Ha as (e' & _ & -> & _). by rewrite (put_entry_size _ _ _ _ H3).
  - unfold recordFailure. destruct (entry_for now k l) as [l1 [e|]] eqn:E;
      destruct (entry_for_size _ _ _ _ _ E) as (H1 & H2 & H3); [|done]. by rewrite (put_entry_size _ _ _ _ H3).
  - pose proof (map_subseteq_size _ _ (delete_subseteq (ll_entries l) k)).
    change (ll_entries (recordSuccess k l)) with (delete k (ll_entries l)). lia.
Qed.

(** C37: the table never holds more than its maximum, whatever keys are tried. *)
Theorem table_bounded l cs :
  (size (ll_entries l) ≤ loginLimiterMaxEntries)%nat →
  (size (ll_entries (run l cs)) ≤ loginLimiterMaxEntries)%nat.
Proof.
  revert l. induction cs as [|c cs IH]; intros l Hl; [done|]. apply (IH (step l c)).
  destruct (step_size l c) as [H _]. lia.
Qed.

(** ** The lockout *)

(** Every call reads the clock at most half an hour after the last call of the key, the
    first of them after [seen]. *)
Fixpoint attended (key : string) (seen : Time) (cs : list (Time * call)) : Prop :=
  match cs with
  | [] => True
  | (now, c) :: cs => (seen ≤ now ≤ seen + loginLimiterIdleEvict)%Z ∧
      attended key (if bool_decide (c = Allow key ∨ c = Failure key) then now else seen) cs
  end.

(** What an entry that is not idle was, it still is. *)
Lemma prune_spares now key e l :
  ll_entries l !! key = Some e → idle now e = false → ll_entries (pruneLocked now l) !! key = Some e.
Proof. intros Hk Hi. simpl. by apply map_lookup_filter_Some_2. Qed.

Lemma entry_for_other now k key e l :
  k ≠ key → ll_entries l !! key = Some e → idle now e = false → ll_entries (entry_for now k l).1 !! key = Some e.
Proof.
  intros Hne Hk Hi. unfold entry_for. destruct (ll_entries l !! k); [done|].
  set (l0 := if full l then pruneLocked now l else l).
  assert (ll_entries l0 !! key = Some e) as H0 by (unfold l0; destruct (full l); [by apply prune_spares|done]).
  destruct (full l0); [done|]. cbn [put_entry with_entries ll_entries fst]. by rewrite lookup_insert_ne.
Qed.

(** A call of another key leaves the entry alone, also when it prunes a full table. *)
Lemma step_other now c key e l :
  c ≠ Allow key → c ≠ Failure key → c ≠ Success key → ll_entries l !! key = Some e → idle now e = false →
  ll_entries (step l (now, c)) !! key = Some e.
Proof.
  intros Ha Hf Hs Hk Hi. destruct c as [k|k|k]; cbn [step].
  - assert (k ≠ key) as Hne by congruence. pose proof (entry_for_other now k key e l Hne Hk Hi) as H1.
    pose proof (allow_entry now k l) as Hal. destruct (entry_for now k l) as [l1 [e1|]]; [|by rewrite Hal].
    destruct Hal as (e' & _ & -> & _). cbn [put_entry with_entries ll_entries fst]. by rewrite lookup_insert_ne.
  - assert (k ≠ key) as Hne by congruence. pose proof (entry_for_other now k key e l Hne Hk Hi) as H1. unfold recordFailure.
    destruct (entry_for now k l) as [l1 [e1|]]; [|done]. cbn [put_entry with_entries ll_entries]. by rewrite lookup_insert_ne.
  - simpl. rewrite lookup_delete_ne; [done|congruence].
Qed.

Definition fails (key : string) (c : call) : Z := if bool_decide (c = Failure key) then 1 else 0.

(** A call of the key that has an entry. *)
Lemma step_own now c key e l :
  c = Allow key ∨ c = Failure key → (entry_for now key l).2 = Some e → (le_failures e + fails key c ≤ max_int64)%Z → (0 ≤ le_failures e)%Z →
  ∃ e', ll_entries (step l (now, c)) !! key = Some e' ∧ le_lastSeen e' = now ∧
    le_failures e' = (le_failures e + fails key c)%Z ∧
    le_lockedUntil e' = if bool_decide (c = Failure key) && (ll_lockoutAfter l <=? le_failures e + 1)%Z
                        then (now + ll_lockoutDur l)%Z else le_lockedUntil e.
Proof.
  intros Hc He Hmax H0. unfold fails in Hmax. pose proof (entry_for_config now key l) as [Ha Hd].
  pose proof (allow_entry now key l) as Hal. destruct Hc as [->| ->]; cbn [step]; unfold fails.
  - destruct (entry_for now key l) as [l1 e1]. simpl in He. subst e1. destruct Hal as (e' & (Hf & Hl & Hs) & -> & _).
    exists e'. cbn [put_entry with_entries ll_entries]. rewrite lookup_insert_eq, bool_decide_false by done. simpl.
    split; [done|]. split; [done|]. split; [by rewrite Hf, Z.add_0_r|done].
  - unfold recordFailure. destruct (entry_for now key l) as [l1 e1]. simpl in He, Ha, Hd. subst e1.
    eexists. cbn [put_entry with_entries ll_entries]. rewrite lookup_insert_eq, bool_decide_true by done.
    split; [reflexivity|]. cbn [failed le_failures le_lockedUntil le_lastSeen seen]. rewrite Ha, Hd.
    rewrite wrap64_id; [done|]. rewrite bool_decide_true in Hmax by done. apply in_int64_spec. unfold min_int64, max_int64 in *. lia.
Qed.

Lemma entry_for_known now key e l : ll_entries l !! key = Some e → (entry_for now key l).2 = Some e.
Proof. intros H. unfold entry_for. by rewrite H. Qed.

Lemma recent_not_idle now e : (now ≤ le_lastSeen e + loginLimiterIdleEvict)%Z → idle now e = false.
Proof.
  intros H. unfold idle, time_sub. apply andb_false_intro1, Z.ltb_ge.
  assert (min_int64 < loginLimiterIdleEvict)%Z by done. lia.
Qed.

Lemma locked_not_idle now e : (now ≤ le_lockedUntil e)%Z → idle now e = false.
Proof. intros H. unfold idle. apply andb_false_intro2, Z.ltb_ge. lia. Qed.

Lemma failures_cons key now c cs : failures_of key ((now, c) :: cs) = (fails key c + failures_of key cs)%Z.
Proof.
  unfold failures_of, fails. simpl. destruct c as [k|k|k]; [by rewrite bool_decide_false| |by rewrite bool_decide_false].
  destruct (String.eqb_spec k key) as [->|Hne].
  - rewrite bool_decide_true by done. simpl. lia.
  - rewrite bool_decide_false by congruence. done.
Qed.

Lemma failures_app key cs1 cs2 : failures_of key (cs1 ++ cs2) = (failures_of key cs1 + failures_of key cs2)%Z.
Proof. unfold failures_of. rewrite List.filter_app, length_app. lia. Qed.

Lemma failures_nonneg key cs : (0 ≤ failures_of key cs)%Z.
Proof. unfold failures_of. lia. Qed.

Lemma run_config l cs : ll_lockoutAfter (run l cs) = ll_lockoutAfter l ∧ ll_lockoutDur (run l cs) = ll_lockoutDur l.
Proof.
  revert l. induction cs as [|c cs IH]; intros l; [done|]. destruct (step_config l c) as [<- <-]. apply (IH (step l c)).
Qed.

(** While the key is attended its failures are counted, whatever other keys do. *)
Lemma run_counts key cs e l :
  ll_entries l !! key = Some e → attended key (le_lastSeen e) cs → no_success key cs →
  (0 ≤ le_failures e)%Z → (le_failures e + failures_of key cs ≤ max_int64)%Z →
  ∃ e', ll_entries (run l cs) !! key = Some e' ∧ le_failures e' = (le_failures e + failures_of key cs)%Z.
Proof.
  revert e l. induction cs as [|[now c] cs IH]; intros e l Hk Hatt Hns H0 Hmax; simpl in Hatt.
  { exists e. split; [done|]. unfold failures_of. simpl. lia. }
  destruct Hatt as [Hnow Hatt]. apply Forall_cons in Hns as [Hc Hns]. simpl in Hc.
  rewrite failures_cons in Hmax |- *. pose proof (failures_nonneg key cs) as Hn.
  change (run l ((now, c) :: cs)) with (run (step l (now, c)) cs).
  destruct (decide (c = Allow key ∨ c = Failure key)) as [Hown|Hother].
  - rewrite bool_decide_true in Hatt by done.
    assert (0 ≤ fails key c)%Z by (unfold fails; case_bool_decide; lia).
    destruct (step_own now c key e l Hown (entry_for_known now key e l Hk)) as (e1 & Hk1 & Hs1 & Hf1 & _); [lia|done|].
    destruct (IH e1 _ Hk1) as (e2 & He2 & Hf2); [by rewrite Hs1|done|lia|lia|]. exists e2. split; [done|]. lia.
  - rewrite bool_decide_false in Hatt by done.
    assert (fails key c = 0)%Z as Hz by (unfold fails; rewrite bool_decide_false; [done|tauto]). rewrite Hz in Hmax |- *.
    destruct (IH e (step l (now, c))) as (e2 & He2 & Hf2); [|done|done|done|lia|].
    + apply step_other; [tauto..|by destruct c|done|]. apply recent_not_idle. lia.
    + exists e2. split; [done|]. lia.
Qed.

(** A lockout lasts, whatever other keys do. *)
Lemma run_locked key until cs e l :
  ll_entries l !! key = Some e → (until ≤ le_lockedUntil e)%Z → (ll_lockoutAfter l ≤ le_failures e)%Z →
  no_success key cs → Forall (λ c, (until - ll_lockoutDur l ≤ c.1 < until)%Z) cs →
  (0 ≤ le_failures e)%Z → (le_failures e + failures_of key cs ≤ max_int64)%Z →
  ∃ e', ll_entries (run l cs) !! key = Some e' ∧ (until ≤ le_lockedUntil e')%Z.
Proof.
  revert e l. induction cs as [|[now c] cs IH]; intros e l Hk Hu Haf Hns Ht H0 Hmax; [by exists e|].
  apply Forall_cons in Hns as [Hc Hns]. simpl in Hc. apply Forall_cons in Ht as [Hnow Ht]. simpl in Hnow.
  rewrite failures_cons in Hmax. pose proof (failures_nonneg key cs) as Hn.
  pose proof (step_config l (now, c)) as [Ha Hd].
  change (run l ((now, c) :: cs)) with (run (step l (now, c)) cs).
  destruct (decide (c = Allow key ∨ c = Failure key)) as [Hown|Hother].
  - assert (∃ e1, ll_entries (step l (now, c)) !! key = Some e1 ∧ le_failures e1 = (le_failures e + fails key c)%Z ∧
      (until ≤ le_lockedUntil e1)%Z) as (e1 & Hk1 & Hf1 & Hl1).
    { destruct (step_own now c key e l Hown (entry_for_known now key e l Hk)) as (e1 & Hk1 & _ & Hf1 & Hl1); [lia|done|].
      exists e1. split; [done|]. split; [done|]. rewrite Hl1. rewrite (proj2 (Z.leb_le _ _)) by lia.
      case_bool_decide; simpl; lia. }
    assert (0 ≤ fails key c)%Z by (unfold fails; case_bool_decide; lia).
    apply (IH e1); rewrite ?Ha, ?Hd; try done; lia.
  - assert (fails key c = 0)%Z as Hz by (unfold fails; rewrite bool_decide_false; [done|tauto]).
    apply (IH e); rewrite ?Ha, ?Hd; try done; [|lia]. apply step_other; [tauto..|by destruct c|done|]. apply locked_not_idle. lia.
Qed.

(** The entry of a key: there already, or made where the table has room. *)
Lemma entry_for_room now key l :
  is_Some (ll_entries l !! key) ∨ (size (ll_entries l) < loginLimiterMaxEntries)%nat →
  ∃ e, (entry_for now key l).2 = Some e ∧ le_failures e = counted key l.
Proof.
  unfold entry_for, counted. destruct (ll_entries l !! key) as [e|]; [by exists e|]. intros [[? ?]|Hs]; [done|].
  assert (full l = false) as -> by (unfold full; by apply Nat.leb_gt).
  assert (full l = false) as -> by (unfold full; by apply Nat.leb_gt). by eexists.
Qed.

(** C25: the lockout.  A call of the key finds its entry or room for one; from then on the
    key is attended: no half an hour passes between its calls.  Once as many failures of
    the key were recorded as the limit says, the key is refused from the last of them until
    the lockout is over: no more passwords are tried for it.  The other calls may be of any
    keys, any number of them, and may fill the table and have it pruned. *)
Theorem lockout_enforced l key t0 first cs last later t :
  first = Allow key ∨ first = Failure key →
  is_Some (ll_entries l !! key) ∨ (size (ll_entries l) < loginLimiterMaxEntries)%nat →
  attended key t0 (cs ++ [(last, Failure key)]) → no_success key (cs ++ later) →
  Forall (λ c, (last ≤ c.1 < last + ll_lockoutDur l)%Z) later → (last ≤ t < last + ll_lockoutDur l)%Z →
  let tried := (t0, first) :: cs ++ [(last, Failure key)] in
  (0 ≤ counted key l)%Z → (counted key l + failures_of key (tried ++ later) ≤ max_int64)%Z →
  (ll_lockoutAfter l ≤ failures_of key tried)%Z →
  (allow machine t key (run l (tried ++ later))).2.1 = false.
Proof.
  intros Hfirst Hroom Hatt [Hns1 Hns2]%Forall_app Hlater Ht tried Hc Hmax Hlimit.
  rewrite failures_app in Hmax. unfold tried in Hmax, Hlimit. rewrite failures_cons, failures_app in Hmax, Hlimit.
  assert (failures_of key [(last, Failure key)] = 1%Z) as E1 by (unfold failures_of; simpl; by rewrite String.eqb_refl).
  rewrite E1 in Hmax, Hlimit. pose proof (failures_nonneg key cs). pose proof (failures_nonneg key later).
  assert (0 ≤ fails key first)%Z by (unfold fails; case_bool_decide; lia).
  destruct (entry_for_room t0 key l Hroom) as (e0 & He0 & Hf0).
  destruct (step_own t0 first key e0 l Hfirst He0) as (e1 & Hk1 & Hs1 & Hf1 & _); [lia|lia|].
  destruct (step_config l (t0, first)) as [Ha1 Hd1].
  assert (∀ seen us, attended key seen (us ++ [(last, Failure key)]) → attended key seen us) as Hpre.
  { clear. intros seen us. revert seen. induction us as [|[u d] us IH]; intros seen; simpl; [done|]. intros [? ?]. split; [done|by apply IH]. }
  destruct (run_counts key cs e1 (step l (t0, first))) as (e2 & Hk2 & Hf2); [done|rewrite Hs1; by apply Hpre|done|lia|lia|].
  destruct (run_config (step l (t0, first)) cs) as [Ha2 Hd2].
  assert (fails key (Failure key) = 1%Z) as E2 by (unfold fails; by rewrite bool_decide_true).
  destruct (step_own last (Failure key) key e2 _ (or_intror eq_refl) (entry_for_known last key e2 _ Hk2)) as (e3 & Hk3 & _ & Hf3 & Hl3); [lia|lia|].
  destruct (step_config (run (step l (t0, first)) cs) (last, Failure key)) as [Ha3 Hd3].
  rewrite E2 in Hf3. rewrite bool_decide_true in Hl3 by done. rewrite (proj2 (Z.leb_le _ _)) in Hl3 by lia. cbn [andb] in Hl3.
  destruct (run_locked key (last + ll_lockoutDur l) later e3 (step (run (step l (t0, first)) cs) (last, Failure key))) as (e4 & Hk4 & Hl4);
    [done|rewrite Hl3, Hd2, Hd1; lia|rewrite Ha3, Ha2, Ha1; lia|done| |lia|lia|].
  { eapply Forall_impl; [exact Hlater|]. intros c Hcc. simpl in Hcc. rewrite Hd3, Hd2, Hd1. lia. }
  assert (run l (tried ++ later) = run (step (run (step l (t0, first)) cs) (last, Failure key)) later) as ->.
  { unfold run, tried. simpl. by rewrite <-app_assoc, !fold_left_app. }
  pose proof (allow_entry t key (run (step (run (step l (t0, first)) cs) (last, Failure key)) later)) as Hal.
  unfold entry_for in Hal. rewrite Hk4 in Hal. destruct Hal as (_ & _ & _ & Hal). apply Hal. lia.
Qed.
End traces.

(** ** Evaluation *)
Module LimitRuns.
Definition unset : string → string := λ _, "".
Definition fresh : loginLimiter := newLoginLimiter unset.
Definition any_int : float64 → Z := λ _, 0%Z.
Definition t0 : Time := 1700000000 * Second.
Definition key : string := loginRateKey " Ada@example.com " "10.0.0.7:51234".

Example the_key : key = "ada@example.com|10.0.0.7" ∧ loginRateKey "a" "[::1]:80" = "a|::1" ∧ loginRateKey "a" "::1" = "a|::1".
Proof. repeat split. Qed.

(** Answers to attempts at the given times. *)
Fixpoint attempts (ts : list Time) (l : loginLimiter) : list (bool * Z) :=
  match ts with
  | [] => []
  | t :: ts => let '(l, r) := allow any_int t key l in r :: attempts ts l
  end.

(** A burst of ten, then one every twelve seconds. *)
Example burst : attempts (replicate 11 t0) fresh = replicate 10 (true, 0%Z) ++ [(false, 12 * Second)%Z].
Proof. vm_compute. reflexivity. Qed.
Example refill : fst <$> attempts (replicate 10 t0 ++ [t0 + 11 * Second; t0 + 12 * Second; t0 + 13 * Second]%Z) fresh =
  replicate 10 true ++ [false; true; false].
Proof. vm_compute. reflexivity. Qed.

Definition second (n : nat) : Time := t0 + Z.of_nat n * Second.
Definition guess (n : nat) : list (Time * call) := [(second n, Allow key); (second n, Failure key)].
Definition guesses : list (Time * call) := flat_map guess (seq 0 10).

(** The rest of the guesses after the first look, but for the last failure. *)
Definition more : list (Time * call) := (second 0, Failure key) :: flat_map guess (seq 1 8) ++ [(second 9, Allow key)].
Definition others : list (Time * call) := [((t0 + 5 * Minute)%Z, Allow "eve@example.com|10.0.0.8"); ((t0 + 6 * Minute)%Z, Allow key)].
Definition later : Time := t0 + 15 * Minute.

Example the_guesses : (second 0, Allow key) :: more ++ [(second 9, Failure key)] = guesses.
Proof. reflexivity. Qed.

(** Ten wrong passwords, and nearly fifteen minutes later the right one is not looked at. *)
Lemma lockout_enforced_witness :
  failures_of key guesses = 10%Z ∧ (allow any_int later key (run any_int fresh (guesses ++ others))).2.1 = false.
Proof.
  split; [reflexivity|]. apply (lockout_enforced any_int fresh key (second 0) (Allow key) more (second 9) others later).
  - by left.
  - right. apply Nat.ltb_lt. vm_compute. reflexivity.
  - vm_compute. repeat split; discriminate.
  - repeat constructor; discriminate.
  - repeat constructor; vm_compute; try discriminate; reflexivity.
  - vm_compute. split; [discriminate|reflexivity].
  - by vm_compute.
  - by vm_compute.
  - by vm_compute.
Defined.

Lemma table_bounded_witness :
  (size (ll_entries (run any_int fresh guesses)) ≤ loginLimiterMaxEntries)%nat.
Proof. apply (table_bounded any_int fresh guesses). apply Nat.leb_le. vm_compute. reflexivity. Defined.
End LimitRuns.
