(* ===== verification/ProjectReconcile.v ===== *)
(** * The project controller: [internal/controller/project_controller.go]

    The reconciliation of a [Project]: its control namespace, a namespace per declared
    environment, the member record of its creator, the activity entry of its creation,
    the collection of namespaces that are no longer declared, and the teardown. *)

From S2P Require Import Prelude GoStrings GoTime GoText Sha256 Json Kube Core Api KubeStatus Effects Controller Constants BuildRun EnvStore Auth Activity Nsrbac.

#[export] Instance project_status_object : KubeStatusObject Project :=
  λ new, with_Project_Status (Project_Status new).
#[export] Instance project_status_object_ok : KubeStatusObjectOk Project.
Proof. by intros new []. Qed.

(** ** Constants *)

Definition projectFinalizer : string := "mortise.dev/project-finalizer".
Definition ProjectConditionNamespaceReady : string := "NamespaceReady".
Definition ProjectConditionMembersReady : string := "MembersReady".
Definition ReasonReconciled : string := "Reconciled".
Definition ReasonNoMembers : string := "NoMembers".
Definition ReasonNamespaceAlreadyExists : string := "NamespaceAlreadyExists".
Definition ReasonNamespaceOwnedByOther : string := "NamespaceOwnedByAnotherProject".
Definition ReasonNamespaceConflict : string := "NamespaceConflict".
Definition ReasonEnvNamespaceTooLong : string := "EnvNamespaceTooLong".
Definition ProjectEnvsRevAnnotation : string := "mortise.dev/project-envs-rev".
Definition ProjectPreviewRevAnnotation : string := "mortise.dev/project-preview-rev".
Definition projectCreateActivityRecordedAnnotation : string := "mortise.dev/project-create-activity-recorded".

(** [maxConflictRetries], local to four functions. *)
Definition conflict_attempts : nat := 5.

(** An error of [ensureNamespace] or [checkControlNamespaceUniqueness]: a
    [namespaceResolveError] or any other one.  The former are returned as they are, so
    [asNamespaceResolveError] recognises them by the constructor. *)
Inductive namespace_error :=
  | namespaceResolveError (Reason Message : string)
  | other_error (err : error).

(** [namespaceSpec] *)
Record namespaceSpec := { nsp_role : string; nsp_envName : string }.

(** [ProjectNamespace], [ResolveProjectNamespace] *)
Definition ProjectNamespace (projectName : string) : string := ControlNamespace projectName.
Definition ResolveProjectNamespace (p : Project) : string := ControlNamespace (meta_Name (Project_ObjectMeta p)).

Definition project_name (p : Project) : string := meta_Name (Project_ObjectMeta p).
Definition project_uid (p : Project) : string := meta_UID (Project_ObjectMeta p).
Definition project_annotation (p : Project) (k : string) : string := map_get (meta_Annotations (Project_ObjectMeta p)) k.
Definition project_envs (p : Project) : list ProjectEnvironment := ProjectSpec_Environments (Project_Spec p).

(** The deletion timestamp is not zero. *)
Definition deleting (m : ObjectMeta) : bool := negb (bool_decide (meta_DeletionTimestamp m = None)).

Definition namespaceLabels (projectName : string) (spec : namespaceSpec) : gmap string string :=
  let labels : gmap string string :=
    {["app.kubernetes.io/managed-by" := "mortise"; ProjectLabel := projectName;
      "mortise.dev/managed-by" := "project"; NamespaceRoleLabel := nsp_role spec]} in
  if negb (String.eqb (nsp_envName spec) "") then <[EnvironmentLabel := nsp_envName spec]> labels else labels.

Definition envsChanged (spec : list ProjectEnvironment) (status : list string) : bool :=
  negb (bool_decide (ProjectEnvironment_Name <$> spec = status)).

Definition projectDeclaresEnv (project : Project) (envName : string) : bool :=
  existsb (λ e, String.eqb (ProjectEnvironment_Name e) envName) (project_envs project).

Definition specEnvNames (project : Project) : list string := ProjectEnvironment_Name <$> project_envs project.

(** [err] without the error it is wrapped in. *)
Definition errors_Unwrap (err : error) : error := match err with Wrapf _ _ c => c | _ => err end.

Definition hasProjectCreateActivity (events : list Event) (projectName : string) : bool :=
  existsb (λ e, String.eqb (ev_Project e) projectName && String.eqb (ev_Action e) "create" &&
                String.eqb (ev_ResourceKind e) "project" && String.eqb (ev_ResourceName e) projectName) events.

Definition projectCreateActivityEvent (project : Project) (now : Time) : Event :=
  let m := Project_ObjectMeta project in
  {| ev_Seq := 0;
     ev_Timestamp := if (meta_CreationTimestamp m =? 0)%Z then now else meta_CreationTimestamp m;
     ev_Actor := firstNonEmpty (project_annotation project "mortise.dev/created-by") "system";
     ev_Action := "create"; ev_ResourceKind := "project"; ev_ResourceName := project_name project;
     ev_Project := project_name project; ev_Message := "Created project " +:+ project_name project;
     ev_Metadata := ∅ |}.

(** The events with the new one, at most [Cap] of them. *)
Definition capped (events : list Event) : list Event :=
  if (Cap <? length events)%nat then drop (length events - Cap) events else events.

(** The member record of the creator. *)
Definition owner_member (projectName controlNs email : string) : ProjectMember :=
  with_ProjectMember_Spec
    {| ProjectMemberSpec_Email := email; ProjectMemberSpec_Project := projectName; ProjectMemberSpec_Role := ProjectRoleOwner |}
    (with_ProjectMember_ObjectMeta
       (with_labels {["mortise.dev/member" := "true"]}
          (with_name ("member-" +:+ hex_of email) (with_namespace controlNs ObjectMeta_zero))) ProjectMember_zero).

(** The merge patch that sets one annotation. *)
Definition annotation_patch (key value : string) : string :=
  print (JObj [("metadata", JObj [("annotations", JObj [(key, JStr value)])])]).

(** [for k, v := range labels { if existing.Labels[k] != v { ... } }] and the update. *)
Definition with_ns_labels (labels : gmap string string) (ns : Namespace) : Namespace :=
  set_meta (with_labels labels (ns_meta ns)) ns.

(** ** The controller *)

Section controller.
Context {W : Type} {CP : KubeClient W Project} {SP : KubeStatus W Project} {LP : KubeListIn W Project}
  {CN : KubeClient W Namespace} {LN : KubeListIn W Namespace} {DN : KubeDelete W Namespace}
  {CB : KubeClient W RoleBinding} {CM : KubeClient W ProjectMember} {LM : KubeListIn W ProjectMember}
  {CC : KubeClient W ConfigMap} {LA : KubeListIn W App} {PA : KubePatch W App}
  {CH : ConditionHelpers} {FH : FinalizerHelpers} (R : MapRange).
(** [controllerutil.SetControllerReference(project, ns, r.Scheme)] on the metadata; the
    clock; the uncached reader of projects and of namespaces, if there is one; the service
    account of the operator. *)
Context (SetControllerReference : ObjectMeta → ObjectMeta → error + ObjectMeta) (now : W → Time)
  (APIReader : option ((NamespacedName → W → W * (error + Project)) * (NamespacedName → W → W * (error + Namespace))))
  (ServiceAccountName OperatorNamespace : string).

(** *** Edits of the project *)

(** The loop of [updateProjectStatus], [removeFinalizerWithRetry] and
    [markProjectCreateActivityRecorded]: a fresh read, an edit ([None]: nothing to do), a
    write, and again after a conflict. *)
Fixpoint edit_project (write : Project → W → W * option error) (edit : Project → option Project)
    (name : string) (gave_up : error) (attempts : nat) (w : W) : W * option error :=
  match attempts with
  | O => (w, Some gave_up)
  | S attempts =>
    match kget ("", name) w with
    | (w, inl err) => (w, if IsNotFound err then None else Some err)
    | (w, inr fresh) =>
      match edit fresh with
      | None => (w, None)
      | Some new =>
        match write new w with
        | (w, None) => (w, None)
        | (w, Some err) =>
          if IsConflict err && (0 <? attempts)%nat then edit_project write edit name gave_up attempts w
          else (w, Some err)
        end
      end
    end
  end.

Definition updateProjectStatus (name : string) (mutate : ProjectStatus → Project → ProjectStatus) : W → W * option error :=
  edit_project kstatus_update (λ p, Some (with_Project_Status (mutate (Project_Status p) p) p)) name
    (Errorf "could not update status for Project %q after retries" [name]) conflict_attempts.

Definition removeFinalizerWithRetry (name : string) : W → W * option error :=
  edit_project kupdate (λ p,
      let m := Project_ObjectMeta p in
      if ContainsFinalizer m projectFinalizer
      then Some (with_Project_ObjectMeta (RemoveFinalizer m projectFinalizer) p) else None) name
    (Errorf "could not remove finalizer for Project %q after retries" [name]) conflict_attempts.

Definition recorded (p : Project) : Project :=
  let m := Project_ObjectMeta p in
  with_Project_ObjectMeta (with_annotations
    (<[projectCreateActivityRecordedAnnotation := "true"]> (meta_Annotations m)) m) p.

Definition markProjectCreateActivityRecorded (name : string) : W → W * option error :=
  edit_project kupdate (λ p,
      if String.eqb (project_annotation p projectCreateActivityRecordedAnnotation) "true" then None
      else Some (recorded p)) name
    (Errorf "could not record project activity annotation for Project %q after retries" [name]) conflict_attempts.

(** *** Status *)

Definition namespace_condition (status reason message : string) (p : Project) : Condition :=
  {| Condition_Type := ProjectConditionNamespaceReady; Condition_Status := status;
     Condition_ObservedGeneration := meta_Generation (Project_ObjectMeta p); Condition_LastTransitionTime := 0;
     Condition_Reason := reason; Condition_Message := message |}.

Definition members_condition (memberCount : Z) (p : Project) : Condition :=
  let none := (memberCount =? 0)%Z in
  {| Condition_Type := ProjectConditionMembersReady;
     Condition_Status := if none then "False" else "True";
     Condition_ObservedGeneration := meta_Generation (Project_ObjectMeta p); Condition_LastTransitionTime := 0;
     Condition_Reason := if none then ReasonNoMembers else ReasonReconciled;
     Condition_Message := if none
       then "no ProjectMember exists: git-source builds will fail with GitAuthFailed until a member with a git token is added"
       else sprintf "%d member(s)" [itoa memberCount] |}.

Definition status_terminating (controlNs : string) (s : ProjectStatus) : ProjectStatus :=
  with_ProjectStatus_Namespace controlNs (with_ProjectStatus_Phase ProjectPhaseTerminating s).

Definition status_failed (controlNs reason message : string) (s : ProjectStatus) (p : Project) : ProjectStatus :=
  with_ProjectStatus_Namespace controlNs (with_ProjectStatus_Phase ProjectPhaseFailed
    (with_ProjectStatus_Conditions
       (SetStatusCondition (namespace_condition "False" reason message p) (ProjectStatus_Conditions s)) s)).

Definition status_ready (controlNs : string) (appCount memberCount : Z) (envNsMap : gmap string string)
    (s : ProjectStatus) (p : Project) : ProjectStatus :=
  let ready := namespace_condition "True" ReasonReconciled
    (sprintf "control %q + %d env namespaces ready" [controlNs; itoa (Z.of_nat (size envNsMap))]) p in
  {| ProjectStatus_Phase := ProjectPhaseReady; ProjectStatus_Namespace := controlNs;
     ProjectStatus_EnvNamespaces := envNsMap; ProjectStatus_AppCount := appCount;
     ProjectStatus_Environments := specEnvNames p;
     ProjectStatus_Conditions :=
       SetStatusCondition (members_condition memberCount p) (SetStatusCondition ready (ProjectStatus_Conditions s)) |}.

Definition markTerminating (project : Project) (controlNs : string) : W → W * option error :=
  if String.eqb (ProjectStatus_Phase (Project_Status project)) ProjectPhaseTerminating then λ w, (w, None)
  else updateProjectStatus (project_name project) (λ s _, status_terminating controlNs s).

Definition markFailed (project : Project) (controlNs reason message : string) : W → W * option error :=
  updateProjectStatus (project_name project) (status_failed controlNs reason message).

Definition markReady (project : Project) (controlNs : string) (appCount memberCount : Z) (envNsMap : gmap string string)
    : W → W * option error :=
  updateProjectStatus (project_name project) (status_ready controlNs appCount memberCount envNsMap).

(** *** Namespaces *)

(** The namespace exists: only ours is touched. *)
Definition claim_namespace (project : Project) (nsName : string) (labels : gmap string string) (existing : Namespace) (w : W)
    : W * option namespace_error :=
  let '(ownedByUs, ownedByOther) := owner_scan (project_uid project) (meta_OwnerReferences (ns_meta existing)) "" in
  if ownedByUs then
    match overlay R (meta_Labels (ns_meta existing)) labels false with
    | (_, false) => (w, None)
    | (labels, true) =>
      let '(w, err) := kupdate (with_ns_labels labels existing) w in (w, other_error <$> err)
    end
  else if negb (String.eqb ownedByOther "") then
    (w, Some (namespaceResolveError ReasonNamespaceOwnedByOther
           (sprintf "namespace %q is already owned by Project %q" [nsName; ownedByOther])))
  else
    (w, Some (namespaceResolveError ReasonNamespaceAlreadyExists
           (sprintf "namespace %q already exists and is not managed by mortise; delete it or pick a different project/env name"
              [nsName]))).

(** [r.namespaceReader().Get] *)
Definition namespace_reader : NamespacedName → W → W * (error + Namespace) :=
  match APIReader with Some (_, get) => get | None => kget end.

Definition ensureNamespace (project : Project) (nsName : string) (spec : namespaceSpec) (w : W)
    : W * option namespace_error :=
  let labels := namespaceLabels (project_name project) spec in
  match kget ("", nsName) w with
  | (w, inr existing) => claim_namespace project nsName labels existing w
  | (w, inl getErr) =>
    if IsNotFound getErr then
      match SetControllerReference (Project_ObjectMeta project) (with_labels labels (with_name nsName ObjectMeta_zero)) with
      | inl err => (w, Some (other_error (Wrapf "set owner ref on namespace: %w" [] err)))
      | inr m =>
        match kcreate {| ns_meta := m |} w with
        | (w, None) => (w, None)
        | (w, Some err) =>
          if IsAlreadyExists err then
            match namespace_reader ("", nsName) w with
            | (w, inl err) => (w, Some (other_error (Wrapf "get namespace after already exists: %w" [] err)))
            | (w, inr existing) => claim_namespace project nsName labels existing w
            end
          else (w, Some (other_error (Wrapf "create namespace: %w" [] err)))
        end
      end
    else (w, Some (other_error (Wrapf "get namespace: %w" [] getErr)))
  end.

Definition ensureRoleBinding (ns : string) : W → W * option error :=
  EnsureWriteBinding ns ServiceAccountName OperatorNamespace.

(** Another project that is not being deleted has the same control namespace. *)
Definition checkControlNamespaceUniqueness (project : Project) (controlNs : string) (w : W) : W * option namespace_error :=
  match klist_in (Obj := Project) "" ∅ w with
  | (w, inl err) => (w, Some (other_error (Wrapf "list projects: %w" [] err)))
  | (w, inr projects) =>
    (w, match List.find (λ other, negb (String.eqb (project_uid other) (project_uid project)) &&
                                  negb (deleting (Project_ObjectMeta other)) &&
                                  String.eqb (ControlNamespace (project_name other)) controlNs) projects with
        | Some other => Some (namespaceResolveError ReasonNamespaceConflict
            (sprintf "namespace %q is already claimed by Project %q" [controlNs; project_name other]))
        | None => None
        end)
  end.

(** The collection of one namespace that is not among the desired ones: the live project
    is read once, before the first deletion. *)
Definition gc_namespace (project : Project) (ns : Namespace) (live : option Project) : E W (option Project) :=
  let envName := map_get (meta_Labels (ns_meta ns)) EnvironmentLabel in
  let remove live : E W (option Project) :=
    _ ← (λ w, match kdelete Namespace (obj_key ns) w with
              | (w, Some err) => if IsNotFound err then (w, inr tt)
                                 else (w, inl (Wrapf "delete stale env ns %q: %w" [meta_Name (ns_meta ns)] err))
              | (w, None) => (w, inr tt)
              end);
    mret live in
  match APIReader with
  | None => remove live
  | Some (get, _) =>
    p ← (match live with
         | Some p => mret p
         | None => wrapping "re-read project before env namespace gc: %w" [] (get ("", project_name project))
         end);
    if projectDeclaresEnv p envName then mret (Some p) else remove (Some p)
  end.

Fixpoint gc_namespaces (project : Project) (desired : gmap string string) (l : list Namespace) (live : option Project)
    : E W unit :=
  match l with
  | [] => mret tt
  | ns :: l =>
    if bool_decide (is_Some (desired !! map_get (meta_Labels (ns_meta ns)) EnvironmentLabel)) ||
       deleting (ns_meta ns)
    then gc_namespaces project desired l live
    else live ← gc_namespace project ns live; gc_namespaces project desired l live
  end.

Definition gcStaleEnvNamespaces (project : Project) (desired : gmap string string) : E W unit :=
  l ← wrapping "list env namespaces: %w" []
        (klist_in (Obj := Namespace) "" {[ProjectLabel := project_name project; NamespaceRoleLabel := NamespaceRoleEnv]});
  gc_namespaces project desired l None.

Definition delete_owned (ns : Namespace) : E W unit :=
  if negb (String.eqb (map_get (meta_Labels (ns_meta ns)) "app.kubernetes.io/managed-by") "mortise") ||
     deleting (ns_meta ns)
  then mret tt
  else λ w, match kdelete Namespace (obj_key ns) w with
            | (w, Some err) => if IsNotFound err then (w, inr tt)
                               else (w, inl (Wrapf "delete namespace %q: %w" [meta_Name (ns_meta ns)] err))
            | (w, None) => (w, inr tt)
            end.

Definition deleteOwnedNamespaces (project : Project) : E W unit :=
  l ← wrapping "list owned namespaces: %w" [] (klist_in (Obj := Namespace) "" {[ProjectLabel := project_name project]});
  for_each delete_owned l.

(** *** Apps and members *)

Definition countApps (controlNs : string) : E W Z :=
  l ← klist_in (Obj := App) controlNs ∅; mret (Z.of_nat (length l)).

Definition countMembers (controlNs : string) : E W Z :=
  l ← klist_in (Obj := ProjectMember) controlNs ∅; mret (Z.of_nat (length l)).

(** [cascadeEnvChange] and [cascadePreviewChange] differ in the annotation. *)
Definition cascade (annotation : string) (project : Project) (controlNs : string) : E W unit :=
  apps ← wrapping "list apps: %w" [] (klist_in (Obj := App) controlNs ∅);
  let rev := itoa (meta_Generation (Project_ObjectMeta project)) in
  for_each (λ app : App,
    if String.eqb (map_get (meta_Annotations (App_ObjectMeta app)) annotation) rev then mret tt
    else wrapping "patch app %q: %w" [meta_Name (App_ObjectMeta app)]
           (run (kmerge_patch App (obj_key app) (annotation_patch annotation rev)))) apps.

Definition cascadeEnvChange : Project → string → E W unit := cascade ProjectEnvsRevAnnotation.
Definition cascadePreviewChange : Project → string → E W unit := cascade ProjectPreviewRevAnnotation.

Definition ensureOwnerMember (project : Project) (controlNs : string) (w : W) : W * option error :=
  let email := project_annotation project "mortise.dev/created-by" in
  if String.eqb email "" then (w, None)
  else
    let member := owner_member (project_name project) controlNs email in
    match kget (Obj := ProjectMember) (obj_key member) w with
    | (w, inr _) => (w, None)
    | (w, inl err) =>
      if IsNotFound err then
        match kcreate member w with
        | (w, Some err) => if IsAlreadyExists err then (w, None)
                           else (w, Some (Wrapf "create owner ProjectMember: %w" [] err))
        | (w, None) => (w, None)
        end
      else (w, Some (Wrapf "get owner ProjectMember: %w" [] err))
    end.

(** *** The activity of the creation *)

(** What an attempt at the append comes to: done, an error, or another attempt. *)
Definition append_attempt (event : Event) (w : W) : W * option (option error) :=
  match kget (projectNamespace (ev_Project event), configMapName (ev_Project event)) w with
  | (w, inl err) =>
    if IsNotFound err then
      match marshalEvents [event] with
      | inl err => (w, Some (Some (Wrapf "marshal initial activity events: %w" [] (errors_Unwrap err))))
      | inr data =>
        match kcreate (new_config_map (projectNamespace (ev_Project event)) (configMapName (ev_Project event)) data) w with
        | (w, None) => (w, Some None)
        | (w, Some err) => (w, if IsAlreadyExists err || IsConflict err then None else Some (Some err))
        end
      end
    else (w, Some (Some err))
  | (w, inr cm) =>
    match unmarshalEvents (map_get (cm_Data cm) eventsKey) with
    | inl err => (w, Some (Some (Wrapf "unmarshal project activity: %w" [] (errors_Unwrap err))))
    | inr events =>
      if hasProjectCreateActivity events (ev_Project event) then (w, Some None)
      else
        match marshalEvents (capped (events ++ [event])) with
        | inl err => (w, Some (Some (Wrapf "marshal project activity: %w" [] (errors_Unwrap err))))
        | inr data =>
          match kupdate (with_events data cm) w with
          | (w, None) => (w, Some None)
          | (w, Some err) => (w, if IsConflict err then None else Some (Some err))
          end
        end
    end
  end.

Fixpoint append_attempts (event : Event) (attempts : nat) (w : W) : W * option error :=
  match attempts with
  | O => (w, Some (Errorf "could not ensure create activity for Project %q after retries" [ev_Project event]))
  | S attempts =>
    match append_attempt event w with
    | (w, Some r) => (w, r)
    | (w, None) => append_attempts event attempts w
    end
  end.

Definition appendProjectCreateActivityIfMissing (event : Event) : W → W * option error :=
  append_attempts event conflict_attempts.

Definition ensureProjectCreateActivity (project : Project) (w : W) : W * option error :=
  if String.eqb (project_annotation project projectCreateActivityRecordedAnnotation) "true" then (w, None)
  else
    match appendProjectCreateActivityIfMissing (projectCreateActivityEvent project (now w)) w with
    | (w, Some err) => (w, Some (Wrapf "append project activity: %w" [] err))
    | (w, None) => markProjectCreateActivityRecorded (project_name project) w
    end.

(** *** Reconcile *)

(** The finalizer and the default environment. *)
Definition seeded (project : Project) : Project * bool :=
  let '(m, specChanged) := AddFinalizer (Project_ObjectMeta project) projectFinalizer in
  let project := with_Project_ObjectMeta m project in
  if existsb (λ env, negb (ProjectEnvironment_Preview env)) (project_envs project) then (project, specChanged)
  else
    (with_Project_Spec (with_ProjectSpec_Environments
       (project_envs project ++ [with_ProjectEnvironment_Name DefaultProjectEnvironment ProjectEnvironment_zero])
       (Project_Spec project)) project, true).

(** The first environment whose namespace would have too long a name. *)
Fixpoint too_long (projectName : string) (envs : list ProjectEnvironment) : option error :=
  match envs with
  | [] => None
  | env :: envs =>
    match ValidateProjectEnvLengths projectName (ProjectEnvironment_Name env) with
    | Some err => Some err
    | None => too_long projectName envs
    end
  end.

(** A step of the provision ends with a refusal of the project, which its status then
    tells, or goes on. *)
Definition Provision (A : Type) : Type := E W ((string * string) + A).

Definition provision_bind {A B} (m : Provision A) (k : A → Provision B) : Provision B :=
  r ← m;
  match r with
  | inl refusal => mret (inl refusal)
  | inr a => k a
  end.

Definition claimed (fmt : string) (args : list string) (f : W → W * option namespace_error) : Provision unit := λ w,
  match f w with
  | (w, None) => (w, inr (inr tt))
  | (w, Some (namespaceResolveError reason message)) => (w, inr (inl (reason, message)))
  | (w, Some (other_error err)) => (w, inl (if String.eqb fmt "" then err else Wrapf fmt args err))
  end.

Definition bound (ns : string) : Provision unit :=
  _ ← wrapping "ensure role binding in %q: %w" [ns] (run (ensureRoleBinding ns)); mret (inr tt).

Fixpoint ensure_envs (project : Project) (envs : list ProjectEnvironment) (envNsMap : gmap string string)
    : Provision (gmap string string) :=
  match envs with
  | [] => mret (inr envNsMap)
  | env :: envs =>
    let name := ProjectEnvironment_Name env in
    let ns := EnvNamespace (project_name project) name in
    provision_bind (claimed "ensure env namespace %q: %w" [ns]
      (ensureNamespace project ns {| nsp_role := NamespaceRoleEnv; nsp_envName := name |})) (λ _,
    provision_bind (bound ns) (λ _, ensure_envs project envs (<[name := ns]> envNsMap)))
  end.

Definition provision (project : Project) (controlNs : string) : Provision (gmap string string) :=
  match too_long (project_name project) (project_envs project) with
  | Some err => mret (inl (ReasonEnvNamespaceTooLong, error_text err))
  | None =>
    provision_bind (claimed "" [] (checkControlNamespaceUniqueness project controlNs)) (λ _,
    provision_bind (claimed "" []
      (ensureNamespace project controlNs {| nsp_role := NamespaceRoleControl; nsp_envName := "" |})) (λ _,
    provision_bind (bound controlNs) (λ _,
    ensure_envs project (project_envs project) ∅)))
  end.

(** A refused write in the young control namespace asks for a fast requeue. *)
Definition tolerate (fmt controlNs : string) (f : W → W * option error) : E W (option Result) := λ w,
  match f w with
  | (w, None) => (w, inr None)
  | (w, Some err) =>
    match forbiddenFastRequeue now controlNs err w with
    | (w, Some res) => (w, inr (Some res))
    | (w, None) => (w, inl (Wrapf fmt [] err))
    end
  end.

(** The counts, the collection, the wake-up of the apps and the status. *)
Definition settle (project : Project) (controlNs : string) (envNsMap : gmap string string) : E W unit :=
  _ ← wrapping "gc stale env namespaces: %w" [] (gcStaleEnvNamespaces project envNsMap);
  appCount ← wrapping "count apps: %w" [] (countApps controlNs);
  memberCount ← wrapping "count members: %w" [] (countMembers controlNs);
  _ ← (if envsChanged (project_envs project) (ProjectStatus_Environments (Project_Status project))
       then wrapping "cascade env change: %w" [] (cascadeEnvChange project controlNs) else mret tt);
  _ ← wrapping "cascade preview change: %w" [] (cascadePreviewChange project controlNs);
  wrapping "update status: %w" [] (run (markReady project controlNs appCount memberCount envNsMap)).

Definition finish (project : Project) (controlNs : string) (envNsMap : gmap string string) : E W Result :=
  early ← tolerate "ensure owner member: %w" controlNs (ensureOwnerMember project controlNs);
  match early with
  | Some res => mret res
  | None =>
    early ← tolerate "ensure project create activity: %w" controlNs (ensureProjectCreateActivity project);
    match early with
    | Some res => mret res
    | None => _ ← settle project controlNs envNsMap; mret Done
    end
  end.

Definition teardown (project : Project) (controlNs : string) : E W Result :=
  _ ← run (markTerminating project controlNs);
  _ ← deleteOwnedNamespaces project;
  _ ← wrapping "remove finalizer: %w" [] (run (removeFinalizerWithRetry (project_name project)));
  mret Done.

Definition reconcile_project (project : Project) : E W Result :=
  let controlNs := ControlNamespace (project_name project) in
  if deleting (Project_ObjectMeta project) then teardown project controlNs
  else
    let '(project, specChanged) := seeded project in
    if (specChanged : bool) then
      _ ← wrapping "seed project spec defaults: %w" [] (run (kupdate project)); mret Done
    else
      r ← provision project controlNs;
      match r with
      | inl (reason, message) => _ ← run (markFailed project controlNs reason message); mret Done
      | inr envNsMap => finish project controlNs envNsMap
      end.

Definition Reconcile (name : string) : E W Result := λ w,
  match kget ("", name) w with
  | (w, inl err) => if IsNotFound err then (w, inr Done) else (w, inl err)
  | (w, inr project) => reconcile_project project w
  end.

(** *** Events

    The requests that the change of an app or of a member leads to. *)

Definition enqueueProjectForApp (app : App) (w : W) : W * list NamespacedName :=
  match kget (Obj := Namespace) ("", meta_Namespace (App_ObjectMeta app)) w with
  | (w, inl _) => (w, [])
  | (w, inr ns) =>
    let projectName := map_get (meta_Labels (ns_meta ns)) ProjectLabel in
    (w, if String.eqb projectName "" then [] else [("", projectName)])
  end.

Definition enqueueProjectForMember (member : ProjectMember) : list NamespacedName :=
  let project := ProjectMemberSpec_Project (ProjectMember_Spec member) in
  if String.eqb project "" then [] else [("", project)].
End controller.
