(* ===== verification/ApiServer.v ===== *)
(** * The API server: requests, responses and access

    What the REST handlers of [internal/api] share: reading the request, answering with
    JSON, mapping errors to status codes ([apps.go], [json.go]), the authorization of a
    request ([server.go]), the lookup of the project ([projects.go], [project_envs.go])
    and the recording of activity ([activity.go]).

    A handler is a computation that either has answered or goes on: [H W B A] threads
    the world [W] and stops at the first response with a body of type [B].  [gated]
    states that a handler only reads before access was granted. *)

From S2P Require Import Prelude GoStrings GoText Json JsonStruct Kube Core Api Constants Authz Activity.

(** ** Requests and responses *)

(** A request as the handlers see it: the principal the middleware attached, the
    parameters of the route, the query, and the body or the error of reading it. *)
Record request := {
  rq_principal : option Principal;
  rq_params : gmap string string;
  rq_query : gmap string string;
  rq_header : gmap string string;
  rq_body : error + string;
}.

(** A response: the status code and the body, an [errorResponse] or the value encoded. *)
Record reply (B : Type) := Reply { rp_code : Z; rp_body : string + B }.
#[global] Arguments Reply {B}.
#[global] Arguments rp_code {B}.
#[global] Arguments rp_body {B}.

Definition StatusOK : Z := 200.
Definition StatusCreated : Z := 201.
Definition StatusAccepted : Z := 202.
Definition StatusNoContent : Z := 204.
Definition StatusBadRequest : Z := 400.
Definition StatusUnauthorized : Z := 401.
Definition StatusForbidden : Z := 403.
Definition StatusNotFound : Z := 404.
Definition StatusConflict : Z := 409.
Definition StatusUnprocessableEntity : Z := 422.
Definition StatusTooManyRequests : Z := 429.
Definition StatusInternalServerError : Z := 500.

(** ** Handlers *)

Definition H (W B A : Type) : Type := W → W * (reply B + A).

#[export] Instance H_ret W B : MRet (H W B) := λ A a w, (w, inr a).
#[export] Instance H_bind W B : MBind (H W B) := λ A C k m w,
  match m w with
  | (w, inl r) => (w, inl r)
  | (w, inr a) => k a w
  end.

Section monad.
Context {W B : Type}.

(** [writeJSON(w, code, v)] and return. *)
Definition writeJSON {A} (code : Z) (v : B) : H W B A := λ w, (w, inl (Reply code (inr v))).
(** [writeJSON(w, code, errorResponse{msg})] and return. *)
Definition fail {A} (code : Z) (msg : string) : H W B A := λ w, (w, inl (Reply code (inl msg))).
(** A call that answers nothing. *)
Definition call {A} (f : W → W * A) : H W B A := λ w, let '(w, a) := f w in (w, inr a).
(** [if !cond { fail }] *)
Definition require (cond : bool) (code : Z) (msg : string) : H W B unit :=
  if cond then mret () else fail code msg.

Lemma bind_run {A C} (m : H W B A) (k : A → H W B C) w w1 a :
  m w = (w1, inr a) → (m ≫= k) w = k a w1.
Proof. unfold mbind, H_bind. by intros ->. Qed.
Lemma bind_answers {A C} (m : H W B A) (k : A → H W B C) w w1 rep :
  m w = (w1, inl rep) → (m ≫= k) w = (w1, inl rep).
Proof. unfold mbind, H_bind. by intros ->. Qed.

(** A handler answers on every path. *)
Definition serve (m : H W B Empty_set) (w : W) : W * reply B :=
  match m w with
  | (w, inl r) => (w, r)
  | (_, inr e) => match e with end
  end.
End monad.

Definition URLParam (r : request) (k : string) : string := map_get (rq_params r) k.

(** [queryEnv] and [envFromQuery] of [secrets.go]. *)
Definition queryEnv (r : request) : string :=
  let v := map_get (rq_query r) "env" in
  if String.eqb v "" then map_get (rq_query r) "environment" else v.

Definition envFromQuery (r : request) : string :=
  let env := queryEnv r in if String.eqb env "" then "production" else env.

(** ** Errors *)

Definition normalizeErrorKind (kind : string) : string :=
  let kind := trim_space (to_lower kind) in
  if String.eqb kind "" then ""
  else
    let kind := match index_char "."%char kind with Some (S n) => str_take (S n) kind | _ => kind end in
    let one_of l := existsb (String.eqb kind) l in
    if one_of ["apps"; "app"] then "app"
    else if one_of ["projects"; "project"] then "project"
    else if one_of ["secrets"; "secret"] then "secret"
    else if one_of ["gitproviders"; "gitprovider"] then "git provider"
    else if one_of ["projectmembers"; "projectmember"] then "project member"
    else if one_of ["buildruns"; "buildrun"] then "build run"
    else if one_of ["previewenvironments"; "previewenvironment"] then "preview environment"
    else if one_of ["namespaces"; "namespace"] then "namespace"
    else trim_suffix "s" kind.

Section errors.
(** The kind and the name in the details of the API server's status, if it gives any. *)
Context (details : error → option (string * string)).

Definition errorResource (err : error) : string * string :=
  match details err with
  | Some (kind, name) => (normalizeErrorKind kind, name)
  | None => ("", "")
  end.

Definition normalizeNotFoundError (err : error) : string :=
  let '(kind, name) := errorResource err in
  if negb (String.eqb kind "") && negb (String.eqb name "") then sprintf "%s %q not found" [kind; name]
  else if negb (String.eqb name "") then sprintf "resource %q not found" [name]
  else "resource not found".

Definition normalizeConflictError (err : error) : string :=
  let '(kind, name) := errorResource err in
  if contains "the object has been modified" (to_lower (error_text err)) then
    let kind := if String.eqb kind "" then "resource" else kind in
    if negb (String.eqb name "")
    then sprintf "%s %q was modified by another operation; retry the request" [kind; name]
    else sprintf "%s was modified by another operation; retry the request" [kind]
  else if negb (String.eqb kind "") && negb (String.eqb name "")
  then sprintf "%s %q is in conflict with another operation; retry the request" [kind; name]
  else "request conflicts with another operation; retry the request".

Definition normalizeAlreadyExistsError (err : error) : string :=
  let '(kind, name) := errorResource err in
  if negb (String.eqb kind "") && negb (String.eqb name "") then sprintf "%s %q already exists" [kind; name]
  else "resource already exists".

(** The status code and the message of an error. *)
Definition error_reply (err : error) : Z * string :=
  if IsNotFound err then (StatusNotFound, normalizeNotFoundError err)
  else if IsConflict err then (StatusConflict, normalizeConflictError err)
  else if IsAlreadyExists err then (StatusConflict, normalizeAlreadyExistsError err)
  else if IsInvalid err then (StatusUnprocessableEntity, error_text err)
  else (StatusInternalServerError, "internal server error").

Definition writeError {W B A} (err : error) : H W B A :=
  fail (error_reply err).1 (error_reply err).2.

(** [if err := f(); err != nil { writeError }], for a call with and without a result. *)
Definition try_ {W B A} (f : W → W * (error + A)) : H W B A :=
  r ← call f;
  match r with inl err => writeError err | inr a => mret a end.

Definition do_ {W B} (f : W → W * option error) : H W B unit :=
  r ← call f;
  match r with Some err => writeError err | None => mret () end.

Definition error_answer {B} (err : error) : reply B := Reply (error_reply err).1 (inl (error_reply err).2).

Lemma do_eq {W B} (f : W → W * option error) w :
  do_ (B := B) f w = (let '(w1, r) := f w in (w1, match r with Some err => inl (error_answer err) | None => inr tt end)).
Proof. unfold do_, mbind, H_bind, call. by destruct (f w) as [w1 [err|]]. Qed.

Lemma try_eq {W B A} (f : W → W * (error + A)) w :
  try_ (B := B) f w = (let '(w1, r) := f w in (w1, match r with inl err => inl (error_answer err) | inr a => inr a end)).
Proof. unfold try_, mbind, H_bind, call. by destruct (f w) as [w1 [err|a]]. Qed.
End errors.

(** ** Validation *)

(** [dns1123LabelRegex]: [^[a-z0-9]([-a-z0-9]*[a-z0-9])?$] *)
Definition dns1123LabelRegex (s : string) : bool :=
  negb (String.eqb s "") && sall label_char s && first_ok slug_char s && last_ok slug_char s.

Definition validateDNSLabel (field name : string) (maxLen : Z) : string :=
  if String.eqb name "" then field +:+ " is required"
  else if (maxLen <? len name)%Z then sprintf "%s must be %d characters or fewer" [field; itoa maxLen]
  else if negb (dns1123LabelRegex name) then
    field +:+ " must be a DNS-1123 label: lowercase alphanumerics and '-', starting and ending with an alphanumeric"
  else "".

(** [if msg := ...; msg != "" { 400 }] *)
Definition validate {W B} (msg : string) : H W B unit :=
  require (String.eqb msg "") StatusBadRequest msg.

(** [envKeyDelta] of [env_delta.go]. *)
Definition envKeyDelta (added removed : list string) : string :=
  match added, removed with
  | [], [] => ""
  | _, _ =>
    let part label keys :=
      match keys with [] => [] | _ => [label +:+ join ", " (sort_strings keys)] end in
    " (" +:+ join "; " (part "added: " added ++ part "removed: " removed) +:+ ")"
  end.

(** ** The project and its environments *)

Definition projectNs (p : Project) : string :=
  let ns := ProjectStatus_Namespace (Project_Status p) in
  if String.eqb ns "" then ControlNamespace (meta_Name (Project_ObjectMeta p)) else ns.

Definition project_name (p : Project) : string := meta_Name (Project_ObjectMeta p).

(** [-1] when there is none. *)
Definition indexOfEnv (project : Project) (name : string) : Z :=
  match list_find (λ env, ProjectEnvironment_Name env = name)
          (ProjectSpec_Environments (Project_Spec project)) with
  | Some (i, _) => Z.of_nat i
  | None => -1
  end.

(** The first override of the environment decides. *)
Definition appParticipatesInEnv (app : App) (envName : string) : bool :=
  match List.find (λ env, String.eqb (Environment_Name env) envName)
          (AppSpec_Environments (App_Spec app)) with
  | Some env => negb (bool_decide (Environment_Enabled env = Some false))
  | None => true
  end.

Definition envNamespace (app : App) (envName : string) : error + string :=
  let ns := meta_Namespace (App_ObjectMeta app) in
  match ProjectFromControlNs ns with
  | (projectName, true) => inr (EnvNamespace projectName envName)
  | (_, false) =>
    inl (Errorf "app %q not in a control namespace (%q)" [meta_Name (App_ObjectMeta app); ns])
  end.

(** The override of the environment, added if there is none. *)
Fixpoint ensure_env (name : string) (f : Environment → Environment) (envs : list Environment) : list Environment :=
  match envs with
  | [] => [f (with_Environment_Name name Environment_zero)]
  | e :: envs => if String.eqb (Environment_Name e) name then f e :: envs else e :: ensure_env name f envs
  end.

Definition ensureEnvironment (name : string) (f : Environment → Environment) (app : App) : App :=
  with_App_Spec (with_AppSpec_Environments (ensure_env name f (AppSpec_Environments (App_Spec app))) (App_Spec app)) app.

(** [findEnvironment] of [domains.go], the first of the name. *)
Definition findEnvironment (app : App) (name : string) : option Environment :=
  List.find (λ env, String.eqb (Environment_Name env) name) (AppSpec_Environments (App_Spec app)).

Definition undeclared_env (project : Project) (env : string) : string :=
  sprintf "environment %q is not declared on project %q — add it via POST /api/projects/%s/environments first"
    [env; project_name project; project_name project].

(** ** The server *)

Section server.
Context {W B : Type} {CP : KubeClient W Project} {CM : KubeClient W ProjectMember}
  {CC : KubeClient W ConfigMap}.
(** The details of API errors, the text of a JSON error, the clock, the context of the
    request, and whether an activity store is configured. *)
Context (details : error → option (string * string)) (json_error : string → string)
  (now : W → Time) (ctx : nat → option error) (activityStore : bool).

(** [json.NewDecoder(r.Body).Decode(&v)]: the first JSON value of the body. *)
Definition first_value (s : string) : option json :=
  fst <$> parse_value (S (String.length s)) (skip_ws s).

Definition decode_body {A} (r : request) (dec : string → option A) : H W B A :=
  match rq_body r with
  | inl err => fail StatusBadRequest ("invalid JSON: " +:+ error_text err)
  | inr body =>
    match dec body with
    | Some a => mret a
    | None => fail StatusBadRequest ("invalid JSON: " +:+ json_error body)
    end
  end.

(** The decoder of a body for a table of fields. *)
Definition body_of {A} (dec : decoder A) (zero : A) (body : string) : option A :=
  v ← first_value body; dec v zero.

Definition authorize (r : request) (resource : Resource) (action : Action) : H W B unit :=
  match rq_principal r with
  | None => fail StatusUnauthorized "authentication required"
  | Some p =>
    res ← call (Authorize p resource action);
    match res with
    | (_, Some _) => fail StatusInternalServerError "authorization check failed"
    | (false, None) => fail StatusForbidden "forbidden"
    | (true, None) => mret ()
    end
  end.

Definition canAuthorize (r : request) (resource : Resource) (action : Action) (w : W)
    : W * (error + bool) :=
  match rq_principal r with
  | None => (w, inr false)
  | Some p =>
    match Authorize p resource action w with
    | (w, (_, Some err)) => (w, inl err)
    | (w, (ok, None)) => (w, inr ok)
    end
  end.

Definition lookupProject (projectName : string) : H W B Project :=
  if String.eqb projectName "" then fail StatusBadRequest "project is required"
  else
    res ← call (kget ("", projectName));
    match res with
    | inl err =>
      if IsNotFound err then fail StatusNotFound (sprintf "project %q not found" [projectName])
      else writeError details err
    | inr project => mret project
    end.

Definition getProject (r : request) : H W B Project := lookupProject (URLParam r "project").

(** The control namespace and the name of the project. *)
Definition resolveProject (r : request) : H W B (string * string) :=
  project ← lookupProject (URLParam r "project");
  mret (projectNs project, project_name project).

Definition resolveAppEnv {CA : KubeClient W App} (r : request) : H W B (App * string) :=
  project ← getProject r;
  let env := queryEnv r in
  _ ← require (negb (String.eqb env "")) StatusBadRequest "environment query parameter is required";
  _ ← require (negb (indexOfEnv project env <? 0)%Z) StatusBadRequest (undeclared_env project env);
  app ← try_ details (kget (projectNs project, URLParam r "app"));
  mret (app, env).

(** The environment defaults to production, and the app must not have opted out of it. *)
Definition resolveDefaultedAppEnv {CA : KubeClient W App} (r : request) : H W B (App * string) :=
  project ← getProject r;
  let env := envFromQuery r in
  _ ← require (negb (indexOfEnv project env <? 0)%Z) StatusBadRequest (undeclared_env project env);
  app ← try_ details (kget (projectNs project, URLParam r "app"));
  _ ← require (appParticipatesInEnv app env) StatusNotFound
        (sprintf "environment %q is disabled for app %q" [env; URLParam r "app"]);
  mret (app, env).

Definition activityActor (r : request) (actorOverride : string) : string :=
  if negb (String.eqb actorOverride "") then actorOverride
  else match rq_principal r with
       | Some p => if negb (String.eqb (Principal_Email p) "") then Principal_Email p else "system"
       | None => "system"
       end.

Definition recordActivity (r : request) (project action kind resource msg actorOverride : string)
    : H W B unit :=
  if negb activityStore || String.eqb project "" || String.eqb action "" then mret ()
  else
    call (λ w,
      let e := {| ev_Seq := 0; ev_Timestamp := now w; ev_Actor := activityActor r actorOverride;
                  ev_Action := action; ev_ResourceKind := kind; ev_ResourceName := resource;
                  ev_Project := project; ev_Message := msg; ev_Metadata := ∅ |} in
      (* A failure is logged only. *)
      ((Append now ctx e w).1, ())).
End server.

(** Recording activity stays within what the calls on ConfigMaps do. *)
Lemma recordActivity_frame {W B} {CC : KubeClient W ConfigMap} now ctx activityStore (I : relation W)
    `{!PreOrder I, !KubeWithin W ConfigMap I} r project action kind name msg actor w :
  ∃ w', recordActivity (B := B) now ctx activityStore r project action kind name msg actor w = (w', inr ()) ∧ I w w'.
Proof.
  unfold recordActivity. destruct (_ || _); [by exists w|]. unfold call.
  eexists. split; [done|]. apply Append_within; apply _.
Qed.

(** ** Access

    [I] relates the worlds before and after something that only reads. *)

Class ListReads (W Obj : Type) {L : KubeListIn W Obj} (I : relation W) : Prop :=
  klist_reads ns labels w : I w (klist_in ns labels w).1.

Section access.
Context {W : Type} (I : relation W) {HI : PreOrder I}.

Definition reads {B A} (m : H W B A) : Prop := ∀ w, I w (m w).1.

(** What holds of every result. *)
Definition gives {B A} (m : H W B A) (P : A → Prop) : Prop :=
  ∀ w w' a, m w = (w', inr a) → P a.

Lemma reads_run {B A} (m : H W B A) w w' r : m w = (w', r) → reads m → I w w'.
Proof. intros Hm Hr. specialize (Hr w). by rewrite Hm in Hr. Qed.
Lemma reads_ret {B A} (a : A) : reads (B := B) (mret a).
Proof. by intros w. Qed.
Lemma reads_fail {B A} code msg : reads (fail (B := B) (A := A) code msg).
Proof. by intros w. Qed.
Lemma reads_writeJSON {B A} code (v : B) : reads (writeJSON (A := A) code v).
Proof. by intros w. Qed.
Lemma reads_require {B} cond code msg : reads (require (B := B) cond code msg).
Proof. intros w. unfold require. by destruct cond. Qed.
Lemma reads_call {B A} (f : W → W * A) : (∀ w, I w (f w).1) → reads (B := B) (call f).
Proof. intros Hf w. unfold call. specialize (Hf w). by destruct (f w). Qed.
Lemma reads_bind {B A C} (m : H W B A) (k : A → H W B C) :
  reads m → (∀ a, reads (k a)) → reads (m ≫= k).
Proof.
  intros Hm Hk w. unfold mbind, H_bind. specialize (Hm w). destruct (m w) as [w1 [r|a]]; [done|].
  etrans; [done|]. apply Hk.
Qed.
Lemma reads_writeError {B A} details err : reads (writeError (B := B) (A := A) details err).
Proof. apply reads_fail. Qed.
Lemma reads_try {B A} details (f : W → W * (error + A)) :
  (∀ w, I w (f w).1) → reads (B := B) (try_ details f).
Proof.
  intros Hf. apply reads_bind; [by apply reads_call|]. intros [err|a]; [apply reads_writeError|apply reads_ret].
Qed.
Lemma reads_decode_body {B A} je r (dec : string → option A) : reads (B := B) (decode_body je r dec).
Proof.
  unfold decode_body. destruct (rq_body r); [apply reads_fail|]. destruct (dec _); [apply reads_ret|apply reads_fail].
Qed.
Lemma reads_validate {B} msg : reads (B := B) (validate msg).
Proof. apply reads_require. Qed.

Context {CP : KubeClient W Project} {CM : KubeClient W ProjectMember}.
Context {RP : KubeReads W Project I} {RM : KubeReads W ProjectMember I}.

Lemma authorizeDeveloper_reads res act w : I w (authorizeDeveloper res act w).1.
Proof.
  unfold authorizeDeveloper, isRestrictedEnv.
  destruct (_ || _); [done|]. destruct (String.eqb _ "project"); [by case_match|].
  destruct (_ && _); [done|]. destruct (negb _); [|done].
  pose proof (kget_reads (I := I) (Obj := Project) ("", Resource_Project res) w) as Hg.
  destruct (kget _ w) as [w2 [err|pr]]; [done|]. by destruct (restricted_in _ _).
Qed.

Lemma authorizeProject_reads p res act w : I w (authorizeProject p res act w).1.
Proof.
  unfold authorizeProject.
  pose proof (kget_reads (I := I) (Obj := ProjectMember)
    (ControlNamespace (Resource_Project res), MemberCRDName (Principal_Email p)) w) as Hg.
  destruct (kget _ w) as [w1 [err|m]]; simpl in Hg; [by destruct (IsNotFound err)|].
  repeat case_match; try done. all: etrans; [done|apply authorizeDeveloper_reads].
Qed.

Lemma Authorize_reads p res act w : I w (Authorize p res act w).1.
Proof. unfold Authorize. repeat case_match; try done; apply authorizeProject_reads. Qed.

(** In a world reached by reading only, the policy engine allowed the principal of the
    request an action on a resource of this kind, project and environment. *)
Definition granted (r : request) (kind project env : string) (act : Action) (w : W) : Prop :=
  ∃ p res w1, rq_principal r = Some p ∧ Resource_Kind res = kind ∧
    Resource_Project res = project ∧ Resource_Environment res = env ∧
    I w w1 ∧ (Authorize p res act w1).2 = (true, None).

(** Nothing but reads, unless access was granted. *)
Definition gated {B A} (G : W → Prop) (m : H W B A) : Prop := ∀ w, I w (m w).1 ∨ G w.

Lemma gated_reads {B A} G (m : H W B A) : reads m → gated G m.
Proof. intros Hm w. left. apply Hm. Qed.

Lemma gated_bind {B A C} G (m : H W B A) (k : A → H W B C) (P : A → Prop) :
  (∀ w w1, I w w1 → G w1 → G w) → reads m → gives m P → (∀ a, P a → gated G (k a)) →
  gated G (m ≫= k).
Proof.
  intros HG Hm HP Hk w. unfold mbind, H_bind. specialize (Hm w).
  destruct (m w) as [w1 [r|a]] eqn:Em; [by left|]. simpl in Hm.
  destruct (Hk a (HP _ _ _ Em) w1) as [Hr|Hg]; [left; by etrans|right; by eapply HG].
Qed.

Lemma granted_back r kind project env act w w1 :
  I w w1 → granted r kind project env act w1 → granted r kind project env act w.
Proof.
  intros Hw (p & res & w2 & Hp & Hk & Hpr & He & Hr & Ha). exists p, res, w2.
  repeat (split; [done|]). split; [by etrans|done].
Qed.

(** The computation went on at [w] from a world it had reached by reading. *)
Lemma run_gated {B A C} (m : H W B A) (k : A → H W B C) (Q : Prop) w :
  reads m → (∀ w1 a, m w = (w1, inr a) → I w w1 → I w1 (k a w1).1 ∨ Q) → I w ((m ≫= k) w).1 ∨ Q.
Proof.
  intros Hm Hk. unfold mbind, H_bind. specialize (Hm w). destruct (m w) as [w1 [r|a]] eqn:Em; [by left|].
  simpl in Hm. destruct (Hk w1 a eq_refl Hm) as [H|H]; [left; by etrans|by right].
Qed.

Lemma authorize_granted {B} r res act w w1 :
  authorize (B := B) r res act w = (w1, inr tt) →
  granted r (Resource_Kind res) (Resource_Project res) (Resource_Environment res) act w.
Proof.
  unfold authorize. destruct (rq_principal r) as [p|] eqn:Ep; [|done]. unfold mbind, H_bind, call.
  destruct (Authorize p res act w) as [w2 [ok [err|]]] eqn:Ea; [by destruct ok|]. destruct ok; [|done]. intros _.
  exists p, res, w. repeat (split; [done|]). by rewrite Ea.
Qed.

Lemma gated_authorize {B A} r res act (k : unit → H W B A) :
  gated (granted r (Resource_Kind res) (Resource_Project res) (Resource_Environment res) act)
    (authorize r res act ≫= k).
Proof.
  intros w. unfold mbind, H_bind, authorize. destruct (rq_principal r) as [p|] eqn:Ep; [|by left].
  unfold mbind, H_bind, call. pose proof (Authorize_reads p res act w) as Hr.
  destruct (Authorize p res act w) as [w1 [ok [err|]]] eqn:Ea; [by destruct ok; left|].
  destruct ok; [|by left]. right. exists p, res, w. repeat (split; [done|]). by rewrite Ea.
Qed.

Lemma reads_authorize {B} r res act : reads (B := B) (authorize r res act).
Proof.
  unfold authorize. destruct (rq_principal r) as [p|]; [|apply reads_fail].
  apply reads_bind; [apply reads_call, Authorize_reads|].
  intros [[] [err|]]; first [apply reads_fail|apply reads_ret].
Qed.

Lemma canAuthorize_reads r res act w : I w (canAuthorize r res act w).1.
Proof.
  unfold canAuthorize. destruct (rq_principal r) as [p|]; [|done].
  pose proof (Authorize_reads p res act w) as Hr. by destruct (Authorize p res act w) as [w1 [ok [err|]]].
Qed.

Lemma reads_lookupProject {B} details name : reads (B := B) (lookupProject details name).
Proof.
  unfold lookupProject. destruct (String.eqb name ""); [apply reads_fail|].
  apply reads_bind; [apply reads_call; intros w; apply kget_reads|].
  intros [err|p]; [|apply reads_ret]. destruct (IsNotFound err); apply reads_fail.
Qed.

Context {OKP : KubeClientOk W Project}.

(** The project that is found has the name that was asked for. *)
Lemma lookupProject_gives {B} details name :
  gives (B := B) (lookupProject details name) (λ p, project_name p = name).
Proof.
  intros w w' p. unfold lookupProject. destruct (String.eqb name ""); [done|].
  unfold mbind, H_bind, call. destruct (kget ("", name) w) as [w1 [err|p']] eqn:Eg.
  - by destruct (IsNotFound err).
  - intros [= <- <-]. apply kget_spec in Eg as [_ Hp].
    destruct (Hp _ eq_refl) as (w0 & _ & H0). apply kstore_key in H0. by apply (f_equal snd) in H0.
Qed.

Lemma gated_getProject {B A} details r kind env act (k : Project → H W B A) :
  (∀ p, project_name p = URLParam r "project" →
     gated (granted r kind (project_name p) env act) (k p)) →
  gated (granted r kind (URLParam r "project") env act) (getProject details r ≫= k).
Proof.
  intros Hk. eapply gated_bind; [by apply granted_back|apply reads_lookupProject|apply lookupProject_gives|].
  intros p Hp. rewrite <-Hp. apply Hk. done.
Qed.

Lemma reads_resolveProject {B} details r : reads (B := B) (resolveProject details r).
Proof. apply reads_bind; [apply reads_lookupProject|]. intros p. apply reads_ret. Qed.

Lemma gated_resolveProject {B A} details r kind env act (k : string * string → H W B A) :
  (∀ ns name, name = URLParam r "project" → gated (granted r kind name env act) (k (ns, name))) →
  gated (granted r kind (URLParam r "project") env act) (resolveProject details r ≫= k).
Proof.
  intros Hk. eapply (gated_bind _ _ _ (λ '(_, name), name = URLParam r "project"));
    [by apply granted_back|apply reads_resolveProject| |].
  - intros w w' [ns name]. unfold resolveProject, mbind at 1, H_bind.
    destruct (lookupProject _ _ w) as [w1 [rp|p]] eqn:El; [done|]. intros [= <- <- <-].
    by eapply lookupProject_gives.
  - intros [ns name] ->. by apply Hk.
Qed.
Lemma lookupProject_observed {B} details name w w1 project :
  lookupProject (B := B) details name w = (w1, inr project) → (kget ("", name) w).2 = inr project.
Proof.
  unfold lookupProject. destruct (String.eqb name ""); [done|]. unfold mbind, H_bind, call.
  destruct (kget ("", name) w) as [w2 [err|p]]; [by destruct (IsNotFound err)|]. by intros [= _ <-].
Qed.

Lemma try_kget_observed {B Obj} {C : KubeClient W Obj} details k w w1 (o : Obj) :
  try_ (B := B) details (kget k) w = (w1, inr o) → (kget k w).2 = inr o.
Proof.
  unfold try_, mbind, H_bind, call. destruct (kget k w) as [w2 [err|p]]; [done|]. by intros [= _ <-].
Qed.

Lemma decode_body_value {B A} json_error r (dec : string → option A) w w1 a :
  decode_body (W := W) (B := B) json_error r dec w = (w1, inr a) → ∃ body, rq_body r = inr body ∧ dec body = Some a.
Proof.
  unfold decode_body. destruct (rq_body r) as [err|body]; [done|]. destruct (dec body) as [b|] eqn:Ed; [|done].
  intros [= <- <-]. by exists body.
Qed.

End access.

(** ** Answers that carry a value *)

Section errs.
Context {W B : Type}.

(** The computation answers errors only. *)
Definition errs {A} (m : H W B A) : Prop :=
  ∀ w w' rep, m w = (w', inl rep) → ∃ msg, rp_body rep = inl msg.

(** A value in the answer of a sequence comes from its end. *)
Lemma value_bind {A C} (m : H W B A) (k : A → H W B C) w w' rep b :
  errs m → rp_body rep = inr b → (m ≫= k) w = (w', inl rep) →
  ∃ w1 a, m w = (w1, inr a) ∧ k a w1 = (w', inl rep).
Proof.
  intros Hm Hb. unfold mbind, H_bind. destruct (m w) as [w1 [r|a]] eqn:Em; [|by exists w1, a].
  intros [= <- <-]. destruct (Hm _ _ _ Em) as [msg Hmsg]. congruence.
Qed.

Lemma errs_ret {A} (a : A) : errs (mret a).
Proof. by intros w w' rep. Qed.
Lemma errs_fail {A} code msg : errs (fail (A := A) code msg).
Proof. intros w w' rep [= <- <-]. by exists msg. Qed.
Lemma errs_call {A} (f : W → W * A) : errs (call f).
Proof. intros w w' rep. unfold call. by destruct (f w). Qed.
Lemma errs_bind {A C} (m : H W B A) (k : A → H W B C) : errs m → (∀ a, errs (k a)) → errs (m ≫= k).
Proof.
  intros Hm Hk w w' rep. unfold mbind, H_bind. destruct (m w) as [w1 [r|a]] eqn:Em; [|by eapply Hk].
  intros [= <- <-]. by eapply Hm.
Qed.
Lemma errs_require cond code msg : errs (require cond code msg).
Proof. unfold require. destruct cond; [apply errs_ret|apply errs_fail]. Qed.
Lemma errs_validate msg : errs (validate msg).
Proof. apply errs_require. Qed.
Lemma errs_writeError {A} details err : errs (writeError (A := A) details err).
Proof. apply errs_fail. Qed.
Lemma errs_try {A} details (f : W → W * (error + A)) : errs (try_ details f).
Proof. apply errs_bind; [apply errs_call|]. intros [err|a]; [apply errs_fail|apply errs_ret]. Qed.
Lemma errs_do details (f : W → W * option error) : errs (do_ details f).
Proof. apply errs_bind; [apply errs_call|]. intros [err|]; [apply errs_fail|apply errs_ret]. Qed.
Lemma errs_decode_body {A} je r (dec : string → option A) : errs (decode_body je r dec).
Proof.
  unfold decode_body. destruct (rq_body r); [apply errs_fail|]. destruct (dec _); [apply errs_ret|apply errs_fail].
Qed.
Context {CP : KubeClient W Project} {CM : KubeClient W ProjectMember}.
Lemma errs_authorize r res act : errs (authorize r res act).
Proof.
  unfold authorize. destruct (rq_principal r); [|apply errs_fail].
  apply errs_bind; [apply errs_call|]. intros [[] [err|]]; first [apply errs_fail|apply errs_ret].
Qed.
Lemma errs_lookupProject details name : errs (lookupProject details name).
Proof.
  unfold lookupProject. destruct (String.eqb name ""); [apply errs_fail|].
  apply errs_bind; [apply errs_call|]. intros [err|p]; [destruct (IsNotFound err)|]; first [apply errs_fail|apply errs_ret].
Qed.
Lemma errs_resolveProject details r : errs (resolveProject details r).
Proof. apply errs_bind; [apply errs_lookupProject|]. intros p. apply errs_ret. Qed.
End errs.

Create HintDb access discriminated.
#[export] Hint Resolve errs_ret errs_fail errs_call errs_require errs_validate errs_writeError errs_try errs_do
  errs_decode_body errs_authorize errs_lookupProject errs_resolveProject : access.

(** Proves that a computation answers errors only. *)
Ltac errs_step :=
  match goal with
  | |- errs _ => solve [auto 3 with access]
  | |- errs (_ ≫= _) => apply errs_bind; [|intros ?]
  | |- errs (match ?x with _ => _ end) => destruct x
  end.
Ltac errs := repeat errs_step.

#[export] Hint Resolve reads_ret reads_fail reads_writeJSON reads_require reads_writeError
  reads_decode_body reads_validate reads_authorize reads_lookupProject reads_resolveProject : access.
#[export] Hint Extern 0 (PreOrder _) => apply _ : access.
#[export] Hint Extern 0 (KubeReads _ _ _) => apply _ : access.
#[export] Hint Extern 0 (KubeClientOk _ _) => apply _ : access.

(** Proves that a computation only reads. *)
Ltac reads_step :=
  match goal with
  | |- reads _ _ => solve [auto 3 with access]
  | |- reads _ (_ ≫= _) => refine (reads_bind _ _ _ _ _); [|intros ?]
  | |- reads _ (call _) => apply reads_call; intros ?
  | |- reads _ (try_ _ _) => refine (reads_try _ _ _ _); intros ?
  | |- reads _ (match ?x with _ => _ end) => destruct x
  | |- _ => first [ apply kget_reads | apply klist_reads | apply (canAuthorize_reads _) ]
  end.
Ltac reads := repeat reads_step.

(** Goes to the end of a handler that answered a value, over reads [Hw]. *)
Ltac value_step I H w :=
  let w' := fresh w in let a := fresh "a" in let Hm := fresh "Hm" in
  eapply value_bind in H as (w' & a & Hm & H); [|solve [errs]|reflexivity];
  match type of Hm with ?m w = _ =>
    assert (I w w') by (apply (reads_run I m _ _ _ Hm); solve [reads])
  end.

(** Runs a step that is a return. *)
Ltac run_ret w :=
  match goal with |- context [(?m ≫= ?k) w] => rewrite (bind_run m k w w _ eq_refl) end.

(** Composes the steps. *)
Ltac chain I :=
  repeat match goal with H : I ?a _ |- I ?a _ => first [exact H | etrans; [exact H|]] end.

(** Passes over reads in front of the authorization. *)
Ltac gated_step :=
  first
    [ refine (gated_getProject _ _ _ _ _ _ _ _); intros ? <-
    | refine (gated_resolveProject _ _ _ _ _ _ _ _); intros ? ? <-
    | refine (gated_authorize _ _ _ _ _)
    | refine (gated_bind _ _ _ _ (λ _, True) _ _ _ _);
        [by apply granted_back|solve [reads]|done|intros ? _]
    | apply gated_reads; solve [reads]
    | case_match ].

(** ** Without other writers

    What a computation that writes no object of a kind does to it, when nobody else does. *)

Section settled.
Context {W : Type} (Obj : Type) {O : KubeObject Obj} {C : KubeClient W Obj} {OK : KubeClientOk W Obj}.

Definition settled (w w' : W) : Prop :=
  kquiet (Obj := Obj) w → kquiet (Obj := Obj) w' ∧ kstore (Obj := Obj) w' = kstore (Obj := Obj) w.

#[export] Instance settled_preorder : PreOrder settled.
Proof.
  split; [by intros w|]. intros w1 w2 w3 H1 H2 Hq. destruct (H1 Hq) as [Hq2 Hs2]. destruct (H2 Hq2) as [Hq3 Hs3].
  split; [done|congruence].
Qed.

Lemma unaffected_settled w w' : unaffected Obj w w' → settled w w'.
Proof. intros [H1 H2] Hq. split; [by apply H2|done]. Qed.

#[export] Instance settled_reads : KubeReads W Obj settled.
Proof.
  intros k w Hq. destruct (kget_quiet (Obj := Obj) k w Hq) as (w' & Hq' & Hs & Hg).
  destruct (kstore w !! k); [|destruct Hg as (e & Hg & _)]; by rewrite Hg.
Qed.

#[export] Instance settled_lists {L : KubeListIn W Obj} {LOK : KubeListOk W Obj} : ListReads W Obj settled.
Proof. intros ns labels w Hq. destruct (klist_quiet ns labels w Hq) as (w' & l & Hq' & Hs & Hl & _). by rewrite Hl. Qed.

#[export] Instance settled_other {A} {CA : KubeClient W A} {H : KubeReads W A (unaffected Obj)} : KubeReads W A settled.
Proof. intros k w. by apply unaffected_settled, H. Qed.

#[export] Instance settled_other_lists {A} {L : KubeListIn W A} {H : ListReads W A (unaffected Obj)} : ListReads W A settled.
Proof. intros ns labels w. by apply unaffected_settled, H. Qed.

Lemma kcreate_inv (o : Obj) w w' :
  kquiet (Obj := Obj) w → kcreate o w = (w', None) →
  kquiet (Obj := Obj) w' ∧ kstore (Obj := Obj) w !! obj_key o = None ∧
  ∃ rv, kstore w' = <[obj_key o := obj_with_rv rv o]> (kstore w).
Proof.
  intros Hq Hc. destruct (kstore (Obj := Obj) w !! obj_key o) as [cur|] eqn:Ek.
  - destruct (kcreate_exists o w cur Hq Ek) as (w1 & e & _ & Hc' & _). congruence.
  - destruct (kcreate_quiet o w Hq Ek) as (w1 & rv & Hq' & Hc' & Hs). rewrite Hc in Hc'. simplify_eq. eauto.
Qed.

(** [do_] of a call that went through. *)
Lemma do_inv {B A} details (f : W → W * option error) (k : unit → H W B A) w w' rep b :
  rp_body rep = inr b → (do_ details f ≫= k) w = (w', inl rep) → ∃ w1, f w = (w1, None) ∧ k tt w1 = (w', inl rep).
Proof.
  intros Hb. unfold do_, mbind, H_bind, call. destruct (f w) as [w1 [err|]]; [|by exists w1].
  intros [= <- <-]. done.
Qed.

Lemma record_inv {CC : KubeClient W ConfigMap} {CCO : KubeApart W ConfigMap Obj} {B A} now ctx activityStore
    r project action kind name msg actor (k : unit → H W B A) w w' rep :
  (recordActivity now ctx activityStore r project action kind name msg actor ≫= k) w = (w', inl rep) →
  ∃ w1, settled w w1 ∧ k tt w1 = (w', inl rep).
Proof.
  destruct (recordActivity_frame (B := B) now ctx activityStore (unaffected Obj) r project action kind name msg actor w)
    as (w1 & Hr & Hu).
  unfold mbind, H_bind. rewrite Hr. intros Hk. exists w1. split; [by apply unaffected_settled|done].
Qed.

(** What a read found is stored. *)
Lemma kget_inv k (o : Obj) w : kquiet (Obj := Obj) w → (kget k w).2 = inr o → kstore (Obj := Obj) w !! k = Some o.
Proof.
  intros Hq Hg. destruct (kget_quiet (Obj := Obj) k w Hq) as (w' & _ & _ & Hk).
  destruct (kstore w !! k); [|destruct Hk as (e & Hk & _)]; rewrite Hk in Hg; simpl in Hg; by simplify_eq.
Qed.
End settled.
