(* ===== verification/GitTokens.v ===== *)
(** * Git tokens: [internal/git/tokens.go]

    The token of a user for a git provider is a Secret in the namespace of the operator.
    For an app the token of the user who resolved it last, of its creator, or of any
    member of the project is used, in this order. *)

From S2P Require Import Prelude GoStrings Kube Core Api BuildRun ApiServer.

Record TokenResult := { tr_result_Token : string; tr_result_Email : string }.

Section tokens.
Context {W : Type} {CS : KubeClient W Secret} {LM : KubeListIn W ProjectMember}.

Definition ResolveGitToken (providerName userEmail : string) (w : W) : W * (error + string) :=
  if String.eqb providerName "" then (w, inl (Errorf "provider name is required" []))
  else if String.eqb userEmail "" then (w, inl (Errorf "user email is required for git token resolution" []))
  else
    let secretName := UserTokenSecretName providerName userEmail in
    match kget (TokenSecretNamespace, secretName) w with
    | (w, inl err) => (w, inl (Wrapf "git token not found for provider %q, user %q: %w" [providerName; userEmail] err))
    | (w, inr s) =>
      match sec_Data s !! "token" with
      | Some v => if String.eqb v "" then (w, inl (Errorf "git token secret %s has no token key" [secretName])) else (w, inr v)
      | None => (w, inl (Errorf "git token secret %s has no token key" [secretName]))
      end
    end.

(** An attempt with one address, [None] when there is none or it has no token. *)
Definition try_token (providerName email : string) (w : W) : W * option TokenResult :=
  if String.eqb email "" then (w, None)
  else
    match ResolveGitToken providerName email w with
    | (w, inr token) => (w, Some {| tr_result_Token := token; tr_result_Email := email |})
    | (w, inl _) => (w, None)
    end.

Fixpoint try_members (providerName createdBy cachedOwner : string) (members : list ProjectMember) (w : W)
    : W * (error + TokenResult) :=
  match members with
  | [] => (w, inl (Errorf "no project member has a valid git token for provider %q" [providerName]))
  | m :: members =>
    let email := ProjectMemberSpec_Email (ProjectMember_Spec m) in
    if String.eqb email createdBy || String.eqb email cachedOwner
    then try_members providerName createdBy cachedOwner members w
    else
      match ResolveGitToken providerName email w with
      | (w, inr token) => (w, inr {| tr_result_Token := token; tr_result_Email := email |})
      | (w, inl _) => try_members providerName createdBy cachedOwner members w
      end
  end.

Definition ResolveGitTokenForApp (providerName controlNamespace createdBy cachedOwner : string) (w : W)
    : W * (error + TokenResult) :=
  if String.eqb providerName "" then (w, inl (Errorf "provider name is required" []))
  else
    match try_token providerName cachedOwner w with
    | (w, Some r) => (w, inr r)
    | (w, None) =>
      match try_token providerName createdBy w with
      | (w, Some r) => (w, inr r)
      | (w, None) =>
        match klist_in (Obj := ProjectMember) controlNamespace ∅ w with
        | (w, inl err) => (w, inl (Wrapf "failed to list project members in %s: %w" [controlNamespace] err))
        | (w, inr members) => try_members providerName createdBy cachedOwner members w
        end
      end
    end.
End tokens.

(** ** What is resolved *)

(** The token of an address. *)
Definition token_of (S : gmap NamespacedName Secret) (providerName email : string) : option string :=
  if String.eqb providerName "" || String.eqb email "" then None
  else
    s ← S !! (TokenSecretNamespace, UserTokenSecretName providerName email);
    v ← sec_Data s !! "token";
    if String.eqb v "" then None else Some v.

(** The first address of a list that has one. *)
Fixpoint first_token (S : gmap NamespacedName Secret) (providerName : string) (emails : list string) : option TokenResult :=
  match emails with
  | [] => None
  | email :: emails =>
    match token_of S providerName email with
    | Some token => Some {| tr_result_Token := token; tr_result_Email := email |}
    | None => first_token S providerName emails
    end
  end.

Section resolved.
Context {W : Type} {CS : KubeClient W Secret} {LM : KubeListIn W ProjectMember} {CM : KubeClient W ProjectMember}
  {OS : KubeClientOk W Secret} {OM : KubeClientOk W ProjectMember} {LOM : KubeListOk W ProjectMember}
  {A1 : KubeApart W Secret ProjectMember} {A2 : ListReads W ProjectMember (unaffected Secret)}.

Definition holds_tokens (S : gmap NamespacedName Secret) (w : W) : Prop := kquiet (Obj := Secret) w ∧ kstore w = S.

Lemma resolve_quiet S providerName email w :
  holds_tokens S w → ∃ w' r, holds_tokens S w' ∧ unaffected ProjectMember w w' ∧
    ResolveGitToken providerName email w = (w', r) ∧
    match token_of S providerName email with Some v => r = inr v | None => ∃ err, r = inl err end.
Proof.
  intros [Hq Hs]. unfold ResolveGitToken, token_of.
  destruct (String.eqb providerName ""); [exists w; eexists; split_and!; [done..|by eexists]|].
  destruct (String.eqb email ""); [exists w; eexists; split_and!; [done..|by eexists]|].
  cbn [orb]. set (k := (_, _)). pose proof (kget_within (I := unaffected ProjectMember) (Obj := Secret) k w) as Ha.
  destruct (kget_quiet (Obj := Secret) k w Hq) as (w' & Hq' & Hs' & Hg). rewrite Hs in Hg, Hs'.
  destruct (S !! k) as [s|].
  - rewrite Hg in Ha |- *. cbn [fst] in Ha. exists w'. simpl. destruct (sec_Data s !! "token") as [v|]; simpl;
      [destruct (String.eqb v "")|]; eexists; split_and!; try done; by eexists.
  - destruct Hg as (e & Hg & _). rewrite Hg in Ha |- *. exists w'. eexists. split_and!; try done. by eexists.
Qed.

Lemma members_quiet S providerName createdBy cachedOwner members w :
  holds_tokens S w → token_of S providerName createdBy = None → token_of S providerName cachedOwner = None →
  ∃ w' r, holds_tokens S w' ∧ try_members providerName createdBy cachedOwner members w = (w', r) ∧
    match first_token S providerName ((λ m, ProjectMemberSpec_Email (ProjectMember_Spec m)) <$> members) with
    | Some t => r = inr t | None => ∃ err, r = inl err end.
Proof.
  intros Hw Hc Ho. revert w Hw. induction members as [|m members IH]; intros w Hw.
  { exists w. eexists. split_and!; [done..|]. by eexists. }
  cbn [try_members fmap list_fmap first_token]. set (email := ProjectMemberSpec_Email _).
  destruct (String.eqb_spec email createdBy) as [->|_]; [rewrite Hc; by apply IH|].
  destruct (String.eqb_spec email cachedOwner) as [->|_]; [rewrite Ho; by apply IH|]. cbn [orb].
  destruct (resolve_quiet S providerName email w Hw) as (w1 & r & Hw1 & _ & -> & Hr).
  destruct (token_of S providerName email) as [v|].
  - subst r. exists w1. eexists. by split_and!.
  - destruct Hr as [err ->]. by apply IH.
Qed.

Lemma try_quiet S providerName email w :
  holds_tokens S w → ∃ w', holds_tokens S w' ∧ unaffected ProjectMember w w' ∧
    try_token providerName email w =
      (w', (λ v, {| tr_result_Token := v; tr_result_Email := email |}) <$> token_of S providerName email).
Proof.
  intros Hw. unfold try_token. destruct (String.eqb_spec email "") as [->|].
  - exists w. unfold token_of. by rewrite orb_true_r.
  - destruct (resolve_quiet S providerName email w Hw) as (w' & r & Hw' & Ha & -> & Hr). exists w'.
    destruct (token_of _ _ _); [by subst r|by destruct Hr as [err ->]].
Qed.

Lemma first_token_no_provider S emails : first_token S "" emails = None.
Proof. by induction emails. Qed.

Definition member_email (m : ProjectMember) : string := ProjectMemberSpec_Email (ProjectMember_Spec m).

(** Without other writers the token of an app is the one of the address that is known to
    have had one, else of the creator, else of the first member of the project that has
    one; it is an error only if none of them has. *)
Theorem ResolveGitTokenForApp_spec providerName controlNamespace createdBy cachedOwner (w : W) :
  kquiet (Obj := Secret) w → kquiet (Obj := ProjectMember) w →
  ∃ w' r l, ResolveGitTokenForApp providerName controlNamespace createdBy cachedOwner w = (w', r) ∧
    (∀ m, m ∈ l ↔ selected controlNamespace ∅ m = true ∧ kstore w !! obj_key m = Some m) ∧
    match first_token (kstore w) providerName (cachedOwner :: createdBy :: (member_email <$> l)) with
    | Some t => r = inr t
    | None => ∃ err, r = inl err
    end.
Proof.
  intros Hq Hm. assert (holds_tokens (kstore w) w) as Hw by by split.
  destruct (klist_quiet controlNamespace ∅ w Hm) as (w0 & l0 & _ & _ & _ & _ & Hl0).
  unfold ResolveGitTokenForApp. destruct (String.eqb_spec providerName "") as [->|].
  { exists w. eexists. exists l0. split_and!; [done..|]. rewrite first_token_no_provider. by eexists. }
  destruct (try_quiet _ providerName cachedOwner w Hw) as (w1 & Hw1 & [Hs1 Hq1] & ->). cbn [first_token].
  destruct (token_of _ providerName cachedOwner) eqn:Eo; [exists w1; eexists; exists l0; by split_and!|].
  destruct (try_quiet _ providerName createdBy w1 Hw1) as (w2 & Hw2 & [Hs2 Hq2] & ->). cbn [fmap option_fmap option_map].
  destruct (token_of _ providerName createdBy) eqn:Ec; [exists w2; eexists; exists l0; by split_and!|]. cbn [fmap option_fmap option_map].
  destruct (klist_quiet (Obj := ProjectMember) controlNamespace ∅ w2) as (w3 & l & _ & _ & Hl & _ & Hin); [by apply Hq2, Hq1|].
  pose proof (klist_reads (I := unaffected Secret) (Obj := ProjectMember) controlNamespace ∅ w2) as Ha.
  rewrite Hl in Ha |- *. destruct Ha as [Hs3 Hq3]. cbn [fst] in Hs3, Hq3.
  assert (holds_tokens (kstore w) w3) as Hw3 by (destruct Hw2; split; [by apply Hq3|by rewrite Hs3]).
  destruct (members_quiet _ providerName createdBy cachedOwner l w3 Hw3 Ec Eo) as (w4 & r & _ & -> & Hr).
  exists w4, r, l. split; [done|]. split; [|exact Hr]. intros m. by rewrite Hin, Hs2, Hs1.
Qed.
End resolved.

(** Resolving a token only reads. *)
Section reads.
Context {W : Type} {CS : KubeClient W Secret} {LM : KubeListIn W ProjectMember} (I : relation W) {HI : PreOrder I}
  {ES : KubeReads W Secret I} {EM : ListReads W ProjectMember I}.

Lemma resolve_reads providerName email w : I w (ResolveGitToken providerName email w).1.
Proof.
  unfold ResolveGitToken. destruct (String.eqb _ _); [done|]. destruct (String.eqb _ _); [done|]. cbv zeta. set (k := (_, _)).
  pose proof (kget_reads (I := I) (Obj := Secret) k w) as Hg. destruct (kget k w) as [w1 [err|s]]; [done|].
  destruct (sec_Data s !! "token") as [v|]; [by destruct (String.eqb v "")|done].
Qed.

Lemma try_reads providerName email w : I w (try_token providerName email w).1.
Proof.
  unfold try_token. destruct (String.eqb _ _); [done|]. pose proof (resolve_reads providerName email w) as H.
  by destruct (ResolveGitToken _ _ w) as [w1 [err|token]].
Qed.

Lemma members_reads providerName createdBy cachedOwner members w :
  I w (try_members providerName createdBy cachedOwner members w).1.
Proof.
  revert w. induction members as [|m members IH]; intros w; [done|]. cbn [try_members]. cbv zeta. destruct (_ || _); [apply IH|].
  set (email := ProjectMemberSpec_Email _).
  pose proof (resolve_reads providerName email w) as H. destruct (ResolveGitToken _ email w) as [w1 [err|token]]; [|done].
  etrans; [exact H|apply IH].
Qed.

Lemma token_reads providerName controlNamespace createdBy cachedOwner w :
  I w (ResolveGitTokenForApp providerName controlNamespace createdBy cachedOwner w).1.
Proof.
  unfold ResolveGitTokenForApp. destruct (String.eqb _ _); [done|].
  pose proof (try_reads providerName cachedOwner w) as H1. destruct (try_token _ cachedOwner w) as [w1 [r|]]; [done|]. cbn [fst] in H1.
  pose proof (try_reads providerName createdBy w1) as H2. destruct (try_token _ createdBy w1) as [w2 [r|]]; cbn [fst] in H2; [by etrans|].
  pose proof (klist_reads (I := I) (Obj := ProjectMember) controlNamespace ∅ w2) as H3.
  destruct (klist_in controlNamespace ∅ w2) as [w3 [err|l]]; cbn [fst] in H3; [by repeat (etrans; [done|])|].
  etrans; [exact H1|]. etrans; [exact H2|]. etrans; [exact H3|]. apply members_reads.
Qed.
End reads.
