(* ===== verification/AppAnnotations.v ===== *)
(** * Annotations of managed objects: [internal/controller/app_controller.go]

    Objects carry annotations of several writers.  The platform notes in one annotation
    which keys are its own, so that it can tell a key it no longer wants from one of
    somebody else.  [annotations_three_way] says that this is a three-way merge. *)

From S2P Require Import Prelude GoStrings Kube.

Definition managedAnnotationsKey : string := "mortise.dev/managed-annotations".

(** The annotations without the bookkeeping, and the bookkeeping of them. *)
Definition own (desired : gmap string string) : gmap string string := delete managedAnnotationsKey desired.
Definition book_of (desired : gmap string string) : string := join "," (sort_strings (elements (dom (own desired)))).

(** One key of the bookkeeping: it goes when it is no longer desired. *)
Definition drop_key (desired : gmap string string) '((result, changed) : gmap string string * bool) (k : string)
    : gmap string string * bool :=
  if String.eqb k "" || String.eqb k managedAnnotationsKey then (result, changed)
  else
    match desired !! k, result !! k with
    | None, Some _ => (delete k result, true)
    | _, _ => (result, changed)
    end.

(** The range over [desired] assigns every key once, so its order does not matter. *)
Definition mergeManagedAnnotations (existing desired : gmap string string) : gmap string string * bool :=
  let '(result, changed) :=
    fold_left (drop_key desired) (split ","%char (map_get existing managedAnnotationsKey)) (existing, false) in
  let changed := changed || negb (bool_decide (own desired ⊆ result)) in
  let result := own desired ∪ result in
  let book := book_of desired in
  if String.eqb book "" then
    match result !! managedAnnotationsKey with
    | Some _ => (delete managedAnnotationsKey result, true)
    | None => (result, changed)
    end
  else if String.eqb (map_get result managedAnnotationsKey) book then (result, changed)
  else (<[managedAnnotationsKey := book]> result, true).

Definition stampManagedAnnotations (annotations : gmap string string) : gmap string string :=
  if bool_decide (annotations = ∅) then annotations
  else <[managedAnnotationsKey := book_of annotations]> annotations.

Definition mergeAnnotations (owned user : gmap string string) : gmap string string := user ∪ owned.

Definition annotationsEqual (a b : gmap string string) : bool := bool_decide (a = b).

Definition restartMarkerAnnotations : list string := ["mortise.dev/restartedAt"; "kubectl.kubernetes.io/restartedAt"].

Definition carryRestartMarkers (desired existing : gmap string string) : gmap string string :=
  fold_left (λ desired key,
    match desired !! key, existing !! key with
    | None, Some v => mergeAnnotations desired {[key := v]}
    | _, _ => desired
    end) restartMarkerAnnotations desired.

(** ** What a merge gives *)

(** The keys that go: those of the bookkeeping that are not desired. *)
Definition dropped (desired : gmap string string) (l : list string) (k : string) : Prop :=
  k ∈ l ∧ k ≠ "" ∧ k ≠ managedAnnotationsKey ∧ desired !! k = None.
#[export] Instance dropped_dec desired l k : Decision (dropped desired l k).
Proof. unfold dropped. apply _. Defined.

Definition booked (existing : gmap string string) : list string := split ","%char (map_get existing managedAnnotationsKey).
Abbreviation goes existing desired := (dropped desired (booked existing)).

Lemma dropped_cons desired x l k :
  dropped desired (x :: l) k ↔ (k = x ∧ k ≠ "" ∧ k ≠ managedAnnotationsKey ∧ desired !! k = None) ∨ dropped desired l k.
Proof. unfold dropped. rewrite elem_of_cons. naive_solver. Qed.

Lemma ite_ext {A} (P Q : Prop) `{Decision P, Decision Q} (x y : A) :
  (P ↔ Q) → (if bool_decide P then x else y) = (if bool_decide Q then x else y).
Proof. intros HPQ. by rewrite (bool_decide_ext P Q HPQ). Qed.

Lemma drop_keys_spec desired l result changed :
  let '(r, c) := fold_left (drop_key desired) l (result, changed) in
  (∀ k, r !! k = if bool_decide (dropped desired l k) then None else result !! k) ∧
  c = changed || negb (bool_decide (r = result)).
Proof.
  revert result changed. induction l as [|x l IH]; intros result changed.
  { split; [intros k; rewrite bool_decide_false; [done|by intros [H%elem_of_nil _]]|].
    by rewrite bool_decide_true, orb_false_r. }
  cbn [fold_left drop_key].
  destruct (String.eqb x "" || String.eqb x managedAnnotationsKey) eqn:Ex.
  { specialize (IH result changed). destruct (fold_left _ l _) as [r c]. destruct IH as [Hr Hc]. split; [|done].
    intros k. rewrite Hr. apply orb_true_iff in Ex. rewrite !String.eqb_eq in Ex. apply ite_ext. rewrite dropped_cons. naive_solver. }
  apply orb_false_iff in Ex as [Hx1%String.eqb_neq Hx2%String.eqb_neq].
  destruct (desired !! x) as [v|] eqn:Ed; [|destruct (result !! x) as [v|] eqn:Er].
  - specialize (IH result changed). destruct (fold_left _ l _) as [r c]. destruct IH as [Hr Hc]. split; [|done].
    intros k. rewrite Hr. destruct (decide (k = x)) as [->|Hk].
    + rewrite !bool_decide_false; [done|by intros (_ & _ & _ & ?); congruence..].
    + apply ite_ext. rewrite dropped_cons. naive_solver.
  - specialize (IH (delete x result) true). destruct (fold_left _ l _) as [r c]. destruct IH as [Hr Hc]. split.
    + intros k. rewrite Hr. destruct (decide (k = x)) as [->|Hk].
      * rewrite lookup_delete_eq. transitivity (@None string); [by case_match|]. symmetry.
        rewrite bool_decide_true; [done|]. rewrite dropped_cons. naive_solver.
      * rewrite lookup_delete_ne by done. apply ite_ext. rewrite dropped_cons. naive_solver.
    + rewrite Hc. simpl. symmetry. apply orb_true_iff. right. apply negb_true_iff, bool_decide_false. intros Heq.
      specialize (Hr x). rewrite lookup_delete_eq, Heq, Er in Hr. by case_match.
  - specialize (IH result changed). destruct (fold_left _ l _) as [r c]. destruct IH as [Hr Hc]. split; [|done].
    intros k. rewrite Hr. destruct (decide (k = x)) as [->|Hk].
    + rewrite Er. by repeat case_bool_decide.
    + apply ite_ext. rewrite dropped_cons. naive_solver.
Qed.

(** The annotations after a merge, key by key. *)
Lemma merge_lookup existing desired k :
  (mergeManagedAnnotations existing desired).1 !! k =
  if bool_decide (k = managedAnnotationsKey) then
    if String.eqb (book_of desired) "" then None else Some (book_of desired)
  else
    match desired !! k with
    | Some v => Some v
    | None => if bool_decide (goes existing desired k) then None else existing !! k
    end.
Proof.
  unfold mergeManagedAnnotations. pose proof (drop_keys_spec desired (booked existing) existing false) as H.
  unfold booked in H. destruct (fold_left _ _ _) as [r c]. destruct H as [Hr _].
  assert (∀ k, k ≠ managedAnnotationsKey → (own desired ∪ r) !! k =
    match desired !! k with Some v => Some v | None => if bool_decide (goes existing desired k) then None else existing !! k end) as Hk.
  { intros k' Hne. rewrite lookup_union. unfold own at 1. rewrite lookup_delete_ne by done. rewrite Hr.
    destruct (desired !! k') as [v|] eqn:Ed; [by destruct (if bool_decide _ then _ else _)|].
    rewrite (left_id_L None _). done. }
  assert ((own desired ∪ r) !! managedAnnotationsKey = existing !! managedAnnotationsKey) as Hb.
  { rewrite lookup_union. unfold own at 1. rewrite lookup_delete_eq, Hr, (left_id_L None _).
    rewrite bool_decide_false; [done|]. by intros (_ & _ & H & _). }
  destruct (decide (k = managedAnnotationsKey)) as [->|Hm];
    [rewrite (bool_decide_true (managedAnnotationsKey = _)) by done|rewrite (bool_decide_false (k = _)) by done].
  - destruct (String.eqb (book_of desired) "") eqn:Eb.
    + destruct ((own desired ∪ r) !! managedAnnotationsKey) eqn:E; cbn [fst]; [apply lookup_delete_eq|done].
    + destruct (String.eqb (map_get _ _) (book_of desired)) eqn:E; cbn [fst]; [|apply lookup_insert_eq].
      apply String.eqb_eq in E. apply String.eqb_neq in Eb. rewrite <-E in Eb |- *. unfold map_get in *.
      by destruct ((own desired ∪ r) !! managedAnnotationsKey).
  - rewrite <-(Hk k) by done.
    destruct (String.eqb (book_of desired) "").
    + destruct ((own desired ∪ r) !! managedAnnotationsKey); cbn [fst]; [by apply lookup_delete_ne|done].
    + destruct (String.eqb (map_get _ _) (book_of desired)); cbn [fst]; [done|by apply lookup_insert_ne].
Qed.

(** The result says exactly whether the annotations change. *)
Lemma merge_changed existing desired :
  (mergeManagedAnnotations existing desired).2 = negb (bool_decide ((mergeManagedAnnotations existing desired).1 = existing)).
Proof.
  pose proof (merge_lookup existing desired managedAnnotationsKey) as Hm. rewrite bool_decide_true in Hm by done.
  revert Hm. unfold mergeManagedAnnotations. pose proof (drop_keys_spec desired (booked existing) existing false) as H.
  unfold booked in H. destruct (fold_left _ _ _) as [r c]. destruct H as [Hr ->].
  assert (r !! managedAnnotationsKey = existing !! managedAnnotationsKey) as Hb.
  { rewrite Hr, bool_decide_false; [done|]. by intros (_ & _ & H & _). }
  assert ((own desired ∪ r) !! managedAnnotationsKey = existing !! managedAnnotationsKey) as Hu.
  { rewrite lookup_union, Hb. unfold own. by rewrite lookup_delete_eq, (left_id_L None _). }
  assert ((false || negb (bool_decide (r = existing))) || negb (bool_decide (own desired ⊆ r)) =
          negb (bool_decide (own desired ∪ r = existing))) as Hc.
  { rewrite orb_false_l, <-negb_andb. f_equal. apply eq_true_iff_eq.
    rewrite andb_true_iff, !bool_decide_eq_true. split.
    - intros [-> Hs]. by apply map_subseteq_union.
    - intros Hu'. assert (r = existing) as ->; [|split; [done|]; rewrite <-Hu'; apply map_union_subseteq_l].
      apply map_eq. intros k. rewrite Hr. case_bool_decide as Hg; [|done]. pose proof Hg as (_ & _ & _ & Hd).
      pose proof (f_equal (.!! k) Hu') as Hk. simpl in Hk. rewrite lookup_union, Hr, bool_decide_true in Hk by done.
      rewrite (right_id_L None _) in Hk. rewrite <-Hk. unfold own. symmetry. apply lookup_delete_None. by right. }
  destruct (String.eqb (book_of desired) "") eqn:Eb.
  - rewrite Hu. destruct (existing !! managedAnnotationsKey) eqn:Ee; cbn [fst snd]; intros Hm; [|exact Hc].
    symmetry. apply negb_true_iff, bool_decide_false. intros Heq. by rewrite Heq, Ee in Hm.
  - unfold map_get. rewrite Hu. destruct (String.eqb (default "" _) (book_of desired)) eqn:E; cbn [fst snd]; intros Hm; [exact Hc|].
    symmetry. apply negb_true_iff, bool_decide_false. intros Heq. rewrite Heq in Hm. rewrite Hm in E. simpl in E.
    by rewrite String.eqb_refl in E.
Qed.

(** ** Passes *)

(** Keys the API server accepts hold no comma and are not empty. *)
Definition keys_ok (desired : gmap string string) : Prop := ∀ k, k ∈ dom (own desired) → k ≠ "" ∧ no_char ","%char k = true.

Lemma own_lookup desired k : k ≠ managedAnnotationsKey → own desired !! k = desired !! k.
Proof. intros Hk. unfold own. by apply lookup_delete_ne. Qed.

(** The bookkeeping names the keys. *)
Lemma book_keys desired k :
  keys_ok desired → k ≠ "" → (k ∈ split ","%char (book_of desired) ↔ k ∈ dom (own desired)).
Proof.
  intros Hok Hk. unfold book_of. destruct (decide (sort_strings (elements (dom (own desired))) = [])) as [He|Hne].
  - rewrite He. simpl. rewrite list_elem_of_singleton. apply sort_strings_nil, elements_empty_inv in He.
    split; [done|]. intros H. set_solver.
  - rewrite (split_join ","%char); [by rewrite elem_of_sort_strings, elem_of_elements|done|].
    intros w. rewrite elem_of_sort_strings, elem_of_elements. intros Hw. by apply Hok.
Qed.

(** A pass over an object, be it created or there before, leaves the bookkeeping of what it desired. *)
Lemma merge_booked existing desired : map_get (mergeManagedAnnotations existing desired).1 managedAnnotationsKey = book_of desired.
Proof.
  unfold map_get. rewrite merge_lookup, bool_decide_true by done. destruct (String.eqb_spec (book_of desired) "") as [->|]; done.
Qed.

Lemma stamp_booked desired : map_get (stampManagedAnnotations desired) managedAnnotationsKey = book_of desired.
Proof.
  unfold stampManagedAnnotations. case_bool_decide as He; [|unfold map_get; by rewrite lookup_insert_eq].
  subst. reflexivity.
Qed.

(** The next pass, whatever others did to the annotations meanwhile. *)
Lemma next_pass before edited desired k :
  keys_ok before → map_get edited managedAnnotationsKey = book_of before → k ≠ managedAnnotationsKey →
  (mergeManagedAnnotations edited desired).1 !! k =
  match desired !! k with
  | Some v => Some v
  | None => if bool_decide (k ∈ dom before) then None else edited !! k
  end.
Proof.
  intros Hok Hb Hk. rewrite merge_lookup, bool_decide_false by done. destruct (desired !! k) eqn:Ed; [done|].
  assert (k ∈ dom before ↔ k ∈ dom (own before)) as Hdom by (unfold own; rewrite dom_delete; set_solver).
  apply ite_ext. rewrite Hdom. unfold dropped, booked. rewrite Hb. destruct (decide (k = "")) as [->|Hne].
  - split; [by intros (_ & H & _)|]. intros H. by apply Hok in H as [H _].
  - rewrite book_keys by done. naive_solver.
Qed.

(** The bookkeeping is not compared with itself: a desired map may carry it. *)
Lemma merge_settled existing desired :
  keys_ok desired →
  (mergeManagedAnnotations (mergeManagedAnnotations existing desired).1 desired) = ((mergeManagedAnnotations existing desired).1, false).
Proof.
  intros Hok. set (e := (mergeManagedAnnotations existing desired).1).
  assert ((mergeManagedAnnotations e desired).1 = e) as Heq.
  { apply map_eq. intros k. destruct (decide (k = managedAnnotationsKey)) as [->|Hk].
    { unfold e. by rewrite !merge_lookup, !bool_decide_true by done. }
    rewrite (next_pass desired) by (done || apply merge_booked). unfold e. rewrite merge_lookup, (bool_decide_false (k = _)) by done.
    destruct (desired !! k) as [v|] eqn:Ed; [done|]. rewrite (bool_decide_false (k ∈ _)); [done|].
    by apply not_elem_of_dom. }
  rewrite (surjective_pairing (mergeManagedAnnotations e desired)), merge_changed, Heq. by rewrite bool_decide_true.
Qed.

(** C28: On the annotations of an object the platform merges three ways: with what it desired
    in its last pass, whatever others did to the other annotations meanwhile, a pass sets
    what it desires now, removes what it desired then and no longer does, keeps everything
    else, and says that something changed exactly if something does; a further pass changes
    nothing. *)
Theorem annotations_three_way last before edited desired :
  keys_ok before → keys_ok desired →
  last = stampManagedAnnotations before ∨ (∃ e, last = (mergeManagedAnnotations e before).1) →
  map_get edited managedAnnotationsKey = map_get last managedAnnotationsKey →
  let '(result, changed) := mergeManagedAnnotations edited desired in
  (∀ k, k ≠ managedAnnotationsKey → result !! k =
     match desired !! k with
     | Some v => Some v
     | None => if bool_decide (k ∈ dom before) then None else edited !! k
     end) ∧
  (changed = true ↔ result ≠ edited) ∧
  mergeManagedAnnotations result desired = (result, false).
Proof.
  intros Hb Hd Hlast Hbook.
  assert (map_get edited managedAnnotationsKey = book_of before) as Hbook'.
  { rewrite Hbook. destruct Hlast as [->|[e ->]]; [apply stamp_booked|apply merge_booked]. }
  pose proof (merge_changed edited desired) as Hc. pose proof (merge_settled edited desired Hd) as Hs.
  pose proof (λ k, next_pass before edited desired k Hb Hbook') as Hn.
  destruct (mergeManagedAnnotations edited desired) as [result changed]. cbn [fst snd] in *.
  split; [|split; [|exact Hs]].
  - intros k Hk. by apply Hn.
  - rewrite Hc, negb_true_iff, bool_decide_eq_false. done.
Qed.
