(* ===== verification/AppGc.v ===== *)
(** * Garbage of apps: [internal/controller/app_env_gc.go]

    What an app left in the namespaces of its project is found by labels and deleted when
    the app goes or no longer takes part in an environment. *)

From S2P Require Import Prelude GoStrings Kube Core Api KubeStatus Effects Controller Constants BuildRun ApiServer EnvResolver EnvReconcile ProjectReconcile.

(** The lists [extractItems] knows. *)
Inductive gc_kind :=
  | GcDeployments | GcCronJobs | GcServices | GcIngresses | GcConfigMaps | GcSecrets | GcServiceAccounts
  | GcPersistentVolumeClaims.
#[export] Instance gc_kind_eq_dec : EqDecision gc_kind.
Proof. solve_decision. Defined.

Definition gc_name (k : gc_kind) : string :=
  match k with
  | GcDeployments => "deployments" | GcCronJobs => "cronjobs" | GcServices => "services" | GcIngresses => "ingresses"
  | GcConfigMaps => "configmaps" | GcSecrets => "secrets" | GcServiceAccounts => "serviceaccounts"
  | GcPersistentVolumeClaims => "pvcs"
  end.

(** In the order of the code: all of them when the app goes, and those that hold no data
    when it leaves an environment. *)
Definition app_kinds : list gc_kind :=
  [GcDeployments; GcCronJobs; GcServices; GcIngresses; GcConfigMaps; GcSecrets; GcServiceAccounts; GcPersistentVolumeClaims].
Definition opted_out_kinds : list gc_kind :=
  [GcDeployments; GcCronJobs; GcServices; GcIngresses; GcConfigMaps; GcServiceAccounts].

Definition app_selector (appName projectName : string) : gmap string string :=
  {[AppNameLabel := appName; ProjectLabel := projectName; ManagedByLabel := ManagedByValue]}.
Definition token_selector (appName : string) : gmap string string :=
  {["mortise.dev/deploy-token" := "true"; "mortise.dev/app" := appName]}.

Definition appManagedSelector (app : App) : error + gmap string string :=
  match appProjectName app with
  | inl err => inl err
  | inr projectName => inr (app_selector (meta_Name (App_ObjectMeta app)) projectName)
  end.

Section gc.
Context {W : Type} {T : gc_kind → Type} {KO : ∀ k, KubeObject (T k)} {KL : ∀ k, KubeListIn W (T k)} {KD : ∀ k, KubeDelete W (T k)}
  {CN : KubeClient W Namespace} {LN : KubeListIn W Namespace}.

Definition namespaceGoneOrTerminating (name : string) (w : W) : W * (error + bool) :=
  match kget (Obj := Namespace) ("", name) w with
  | (w, inl err) => (w, if IsNotFound err then inr true else inl err)
  | (w, inr ns) => (w, inr (deleting (ns_meta ns)))
  end.

Definition delete_item (k : gc_kind) (o : T k) : E W unit := λ w,
  match kdelete (T k) (obj_key o) w with
  | (w, None) => (w, inr tt)
  | (w, Some err) =>
    if IsNotFound err then (w, inr tt)
    else if IsForbidden err then
      match namespaceGoneOrTerminating (meta_Namespace (obj_meta o)) w with
      | (w, inl nsErr) => (w, inl nsErr)
      | (w, inr true) => (w, inr tt)
      | (w, inr false) => (w, inl err)
      end
    else (w, inl err)
  end.

Definition deleteMatching (k : gc_kind) (labels : gmap string string) (ns : string) : E W unit :=
  items ← klist_in (Obj := T k) ns labels;
  for_each (delete_item k) items.

Definition gc_namespace_of (labels : gmap string string) (ns : Namespace) : E W unit :=
  for_each (λ k, wrapping ("gc " +:+ gc_name k +:+ ": %w") [] (deleteMatching k labels (meta_Name (ns_meta ns)))) app_kinds.

Definition gcAppAcrossEnvs (app : App) : E W unit :=
  match appProjectName app with
  | inl _ => mret tt
  | inr projectName =>
    let appName := meta_Name (App_ObjectMeta app) in
    namespaces ← wrapping "list project namespaces: %w" [] (klist_in (Obj := Namespace) "" {[ProjectLabel := projectName]});
    _ ← for_each (gc_namespace_of (app_selector appName projectName)) namespaces;
    wrapping "gc app deploy tokens: %w" [] (deleteMatching GcSecrets (token_selector appName) (meta_Namespace (App_ObjectMeta app)))
  end.

Definition gc_opted_out (appName projectName : string) (env : ProjectEnvironment) : E W unit :=
  let envNs := EnvNamespace projectName (ProjectEnvironment_Name env) in
  for_each (λ k, wrapping ("gc opted-out " +:+ gc_name k +:+ " in %s: %w") [envNs]
                   (deleteMatching k (app_selector appName projectName) envNs)) opted_out_kinds.

Definition gcOptedOutEnvs (app : App) (project : Project) (resolved : list Environment) : E W unit :=
  match appProjectName app with
  | inl _ => mret tt
  | inr projectName =>
    for_each (λ env : ProjectEnvironment,
      if bool_decide (ProjectEnvironment_Name env ∈ resolvedEnvNames resolved) then mret tt
      else gc_opted_out (meta_Name (App_ObjectMeta app)) projectName env) (project_envs project)
  end.

Definition managed_gc (kinds : list gc_kind) (app : App) (envNs : string) : E W unit :=
  match appManagedSelector app with
  | inl _ => mret tt
  | inr selector => for_each (λ k, deleteMatching k selector envNs) kinds
  end.

Definition ensureNoIngress : App → string → E W unit := managed_gc [GcIngresses].
Definition ensureNoCronJob : App → string → E W unit := managed_gc [GcCronJobs].
Definition ensureNoServiceWorkload : App → string → E W unit := managed_gc [GcDeployments; GcServices; GcIngresses].
Definition ensureNoExternalRouting : App → string → E W unit := managed_gc [GcServices; GcIngresses].
End gc.

(** ** What is deleted *)

Section safety.
Context {W : Type} {T : gc_kind → Type} {KO : ∀ k, KubeObject (T k)} {KL : ∀ k, KubeListIn W (T k)} {KD : ∀ k, KubeDelete W (T k)}
  {KC : ∀ k, KubeClient W (T k)} {KK : ∀ k, KubeClientOk W (T k)}
  {CN : KubeClient W Namespace} {LN : KubeListIn W Namespace}.

(** What an object that may be deleted carries. *)
Definition of_app (appName projectName : string) {Obj} {O : KubeObject Obj} (o : Obj) : Prop :=
  app_selector appName projectName ⊆ meta_Labels (obj_meta o).

(** Moves of a world that the collection, and everybody else between its calls, stays
    within: objects are deleted if they were read and [may] says so. *)
Class GcMoves (may : ∀ k, T k → Prop) (I : relation W) : Prop := {
  gm_preorder :: PreOrder I;
  gm_hist w w' : I w w' → ∀ k, khist (Obj := T k) w w';
  gm_lists k :: ListReads W (T k) I;
  gm_namespaces :: KubeReads W Namespace I;
  gm_namespaces_list :: ListReads W Namespace I;
  gm_delete k (o : T k) w : read_ok (obj_key o) o w → may k o → I w (kdelete (T k) (obj_key o) w).1;
}.

Context (Hlist : ∀ k ns labels w w' l, klist_in (Obj := T k) ns labels w = (w', inr l) →
  ∀ o, o ∈ l → read_ok (obj_key o) o w' ∧ selected ns labels o = true).
Context (may : ∀ k, T k → Prop) (I : relation W) {M : GcMoves may I}.

Lemma delete_item_keeps k (o : T k) w : read_ok (obj_key o) o w → may k o → I w (delete_item k o w).1.
Proof.
  intros Hr Hm. pose proof (gm_delete k o w Hr Hm) as Hd. unfold delete_item.
  destruct (kdelete (T k) (obj_key o) w) as [w1 [err|]]; cbn [fst] in Hd; [|done].
  destruct (IsNotFound err); [done|]. destruct (IsForbidden err); [|done]. unfold namespaceGoneOrTerminating.
  pose proof (kget_reads (I := I) (Obj := Namespace) ("", meta_Namespace (obj_meta o)) w1) as Hg.
  destruct (kget ("", meta_Namespace (obj_meta o)) w1) as [w2 [e|ns]]; cbn [fst] in Hg.
  - destruct (IsNotFound e); by etrans.
  - destruct (deleting (ns_meta ns)); by etrans.
Qed.

Lemma delete_matching_keeps k labels ns :
  (∀ o : T k, selected ns labels o = true → may k o) → keeps I (deleteMatching k labels ns).
Proof.
  intros Hm w. unfold deleteMatching, mbind, E_bind.
  pose proof (klist_reads (I := I) (Obj := T k) ns labels w) as Hl.
  destruct (klist_in ns labels w) as [w1 [err|l]] eqn:El; cbn [fst] in Hl; [done|]. etrans; [exact Hl|].
  assert (∀ o, o ∈ l → read_ok (obj_key o) o w1 ∧ selected ns labels o = true) as Hin by by eapply Hlist.
  refine (proj1 (within_for_each I (λ w, ∀ o, o ∈ l → read_ok (obj_key o) o w) (delete_item k) l _ _ w1 _)).
  - intros s s' Hi H o Ho. destruct (H o Ho) as (w0 & H0 & Hs). exists w0. split; [|done]. etrans; [done|].
    by apply (gm_hist (I := I)).
  - intros o Ho s Hs. split; [|done]. apply delete_item_keeps; [by apply Hs|]. by apply Hm, Hin.
  - intros o Ho. by apply Hin.
Qed.
End safety.

Section own.
Context {W : Type} {T : gc_kind → Type} {KO : ∀ k, KubeObject (T k)} {KL : ∀ k, KubeListIn W (T k)} {KD : ∀ k, KubeDelete W (T k)}
  {KC : ∀ k, KubeClient W (T k)} {KK : ∀ k, KubeClientOk W (T k)}
  {CN : KubeClient W Namespace} {LN : KubeListIn W Namespace}.

Definition app_name_of (app : App) : string := meta_Name (App_ObjectMeta app).

(** What goes with the app: what carries its labels, and the Secrets of its deploy tokens. *)
Definition goes_with (app : App) (k : gc_kind) (o : T k) : Prop :=
  ∃ projectName, appProjectName app = inr projectName ∧
    (of_app (app_name_of app) projectName o ∨
     (k = GcSecrets ∧ token_selector (app_name_of app) ⊆ meta_Labels (obj_meta o))).

(** What goes when the app leaves environments: what carries its labels in the namespaces
    of declared environments it takes no part in, and holds no data. *)
Definition leaves_with (app : App) (project : Project) (resolved : list Environment) (k : gc_kind) (o : T k) : Prop :=
  ∃ projectName env, appProjectName app = inr projectName ∧ of_app (app_name_of app) projectName o ∧
    env ∈ project_envs project ∧ (ProjectEnvironment_Name env ∉ Environment_Name <$> resolved) ∧
    meta_Namespace (obj_meta o) = EnvNamespace projectName (ProjectEnvironment_Name env) ∧
    k ≠ GcSecrets ∧ k ≠ GcPersistentVolumeClaims.

Lemma selected_labels {Obj} {O : KubeObject Obj} ns labels (o : Obj) : selected ns labels o = true → labels ⊆ meta_Labels (obj_meta o).
Proof. unfold selected. by intros [_ H%bool_decide_eq_true]%andb_true_iff. Qed.

Lemma selected_namespace {Obj} {O : KubeObject Obj} ns labels (o : Obj) :
  ns ≠ "" → selected ns labels o = true → meta_Namespace (obj_meta o) = ns.
Proof.
  unfold selected. intros Hne [H _]%andb_true_iff. rewrite (proj2 (String.eqb_neq _ _) Hne) in H. by apply String.eqb_eq in H.
Qed.

Lemma keeps_wrapping {A} (I : relation W) fmt args (m : E W A) : keeps I m → keeps I (wrapping fmt args m).
Proof. intros Hm w. specialize (Hm w). unfold wrapping. by destruct (m w) as [w1 [err|a]]. Qed.

Context (Hlist : ∀ k ns labels w w' l, klist_in (Obj := T k) ns labels w = (w', inr l) →
  ∀ o, o ∈ l → read_ok (obj_key o) o w' ∧ selected ns labels o = true).

Lemma app_gc_keeps app I : GcMoves (goes_with app) I → keeps I (gcAppAcrossEnvs app).
Proof.
  intros M. unfold gcAppAcrossEnvs. destruct (appProjectName app) as [err|projectName] eqn:Ep; [apply keeps_ret; apply _|].
  cbv zeta. apply keeps_bind; [apply _| |intros l].
  { apply keeps_wrapping. intros w. apply klist_reads. }
  apply keeps_bind; [apply _| |intros _].
  - apply keeps_for_each; [apply _|]. intros ns. unfold gc_namespace_of. apply keeps_for_each; [apply _|]. intros k.
    apply keeps_wrapping, (delete_matching_keeps Hlist (goes_with app) I). intros o Ho. exists projectName. split; [done|].
    left. by apply selected_labels in Ho.
  - apply keeps_wrapping, (delete_matching_keeps Hlist (goes_with app) I). intros o Ho. exists projectName. split; [done|].
    right. split; [done|]. by apply selected_labels in Ho.
Qed.

Lemma opted_out_keeps app project resolved I :
  GcMoves (leaves_with app project resolved) I → keeps I (gcOptedOutEnvs app project resolved).
Proof.
  intros M. unfold gcOptedOutEnvs. destruct (appProjectName app) as [err|projectName] eqn:Ep; [apply keeps_ret; apply _|].
  apply keeps_for_each_in; [apply _|]. intros env Henv. case_bool_decide as Hk; [apply keeps_ret; apply _|].
  unfold gc_opted_out. cbv zeta. apply keeps_for_each_in; [apply _|]. intros k Hkind.
  apply keeps_wrapping, (delete_matching_keeps Hlist (leaves_with app project resolved) I). intros o Ho.
  exists projectName, env. split; [done|]. split; [by apply selected_labels in Ho|]. split; [done|].
  split; [unfold resolvedEnvNames in Hk; by rewrite elem_of_list_to_set in Hk|].
  split; [by apply selected_namespace in Ho|]. unfold opted_out_kinds in Hkind.
  split; intros ->; revert Hkind; rewrite !elem_of_cons, elem_of_nil; naive_solver.
Qed.

(** C29: Whatever others do meanwhile, the collection of an app that goes deletes only objects
    that carry its name, its project and the mark of the platform, and the Secrets of its
    deploy tokens; and when it leaves environments only such objects in the namespaces of
    those, and never a Secret or a volume claim. *)
Theorem gc_deletes_own app project resolved I w :
  (GcMoves (goes_with app) I → I w (gcAppAcrossEnvs app w).1) ∧
  (GcMoves (leaves_with app project resolved) I → I w (gcOptedOutEnvs app project resolved w).1).
Proof. split; intros M; [by apply app_gc_keeps|by apply opted_out_keeps]. Qed.
End own.

(** ** Without other writers *)

Section quiet.
Context {W : Type} {T : gc_kind → Type} {KO : ∀ k, KubeObject (T k)} {KL : ∀ k, KubeListIn W (T k)} {KD : ∀ k, KubeDelete W (T k)}
  {KC : ∀ k, KubeClient W (T k)} {KK : ∀ k, KubeClientOk W (T k)} {KLO : ∀ k, KubeListOk W (T k)} {KDO : ∀ k, KubeDeleteOk W (T k)}
  {CN : KubeClient W Namespace} {LN : KubeListIn W Namespace} {ON : KubeClientOk W Namespace} {LON : KubeListOk W Namespace}.
(** Calls on one kind leave the others alone. *)
Context (LA : ∀ k k' ns labels w, k ≠ k' → unaffected (T k') w (klist_in (Obj := T k) ns labels w).1)
  (DA : ∀ k k' key w, k ≠ k' → unaffected (T k') w (kdelete (T k) key w).1)
  (NA : ∀ k ns labels w, unaffected (T k) w (klist_in (Obj := Namespace) ns labels w).1).

Definition all_quiet (w : W) : Prop := ∀ k, kquiet (Obj := T k) w.

(** Objects only go. *)
Definition shrinks (w w' : W) : Prop := all_quiet w' ∧ ∀ k, kstore (Obj := T k) w' ⊆ kstore (Obj := T k) w.

(** No object of the kind in the namespace has the labels. *)
Definition clean (k : gc_kind) (labels : gmap string string) (ns : string) (w : W) : Prop :=
  ∀ key o, kstore (Obj := T k) w !! key = Some o → selected ns labels o = false.

Lemma shrinks_refl w : all_quiet w → shrinks w w.
Proof. intros Hq. split; [done|]. by intros k. Qed.

Lemma shrinks_trans w1 w2 w3 : shrinks w1 w2 → shrinks w2 w3 → shrinks w1 w3.
Proof. intros [_ H1] [Hq H2]. split; [done|]. intros k. etrans; [apply H2|apply H1]. Qed.

Lemma clean_shrinks k labels ns w w' : shrinks w w' → clean k labels ns w → clean k labels ns w'.
Proof. intros [_ Hs] Hc key o Ho. apply (Hc key o). by apply (lookup_weaken _ _ _ _ Ho). Qed.

Lemma delete_item_quiet k (o : T k) w :
  all_quiet w → ∃ w', delete_item k o w = (w', inr tt) ∧ shrinks w w' ∧ kstore (Obj := T k) w' = delete (obj_key o) (kstore w).
Proof.
  intros Hq. destruct (kdelete_quiet (Obj := T k) (obj_key o) w (Hq k)) as (w' & Hq' & Hs & Hd).
  assert (∃ r, kdelete (T k) (obj_key o) w = (w', r) ∧ ∀ e, r = Some e → IsNotFound e = true) as (r & Hr & He).
  { destruct (kstore w !! obj_key o); [by exists None|]. destruct Hd as (e & Hd & He). exists (Some e).
    split; [done|]. by intros e' [= <-]. }
  exists w'. unfold delete_item. rewrite Hr. split; [destruct r as [e|]; [by rewrite (He e eq_refl)|done]|].
  split; [|done]. split.
  - intros k'. destruct (decide (k = k')) as [<-|Hne]; [done|]. pose proof (DA k k' (obj_key o) w Hne) as [_ H].
    rewrite Hr in H. by apply H.
  - intros k'. destruct (decide (k = k')) as [<-|Hne]; [rewrite Hs; apply delete_subseteq|].
    pose proof (DA k k' (obj_key o) w Hne) as [H _]. rewrite Hr in H. simpl in H. by rewrite H.
Qed.

Lemma delete_items_quiet k (l : list (T k)) w :
  all_quiet w → ∃ w', for_each (delete_item k) l w = (w', inr tt) ∧ shrinks w w' ∧
    ∀ o, o ∈ l → kstore (Obj := T k) w' !! obj_key o = None.
Proof.
  revert w. induction l as [|x l IH]; intros w Hq.
  { exists w. split; [done|]. split; [by apply shrinks_refl|]. by intros o Ho%elem_of_nil. }
  destruct (delete_item_quiet k x w Hq) as (w1 & Hd & Hs1 & Hx). destruct (IH w1 (proj1 Hs1)) as (w2 & Hf & Hs2 & Hl).
  exists w2. simpl. unfold mbind, E_bind. rewrite Hd, Hf. split; [done|]. split; [by eapply shrinks_trans|].
  intros o [->|Ho]%elem_of_cons; [|by apply Hl].
  apply eq_None_not_Some. intros [y Hy]. destruct Hs2 as [_ Hs2]. pose proof (lookup_weaken _ _ _ _ Hy (Hs2 k)) as H.
  rewrite Hx, lookup_delete_eq in H. done.
Qed.

Lemma delete_matching_quiet k labels ns w :
  all_quiet w → ∃ w', deleteMatching k labels ns w = (w', inr tt) ∧ shrinks w w' ∧ clean k labels ns w'.
Proof.
  intros Hq. destruct (klist_quiet (Obj := T k) ns labels w (Hq k)) as (w1 & l & Hq1 & Hs1 & Hl & _ & Hin).
  assert (shrinks w w1) as Hw1.
  { split; intros k'; (destruct (decide (k = k')) as [<-|Hne]; [|pose proof (LA k k' ns labels w Hne) as [Hs Hqq]; rewrite Hl in Hs, Hqq; simpl in Hs, Hqq]).
    - done.
    - by apply Hqq.
    - by rewrite Hs1.
    - by rewrite Hs. }
  destruct (delete_items_quiet k l w1 (proj1 Hw1)) as (w2 & Hf & Hw2 & Hgone). exists w2.
  unfold deleteMatching, mbind, E_bind. rewrite Hl, Hf. split; [done|]. split; [by eapply shrinks_trans|].
  intros key o Ho. destruct (selected ns labels o) eqn:Es; [|done]. exfalso.
  pose proof (kstore_key _ _ _ Ho) as Hk. pose proof (lookup_weaken _ _ _ _ Ho (proj2 Hw2 k)) as H1. rewrite Hs1 in H1.
  rewrite <-Hk in Ho, H1. rewrite Hgone in Ho; [done|]. by apply Hin.
Qed.

Lemma kinds_quiet {A} (f : A → gc_kind) (labels : gmap string string) (ns : string) fmt args (l : list A) w :
  all_quiet w →
  ∃ w', for_each (λ x, wrapping (fmt x) args (deleteMatching (f x) labels ns)) l w = (w', inr tt) ∧ shrinks w w' ∧
    ∀ x, x ∈ l → clean (f x) labels ns w'.
Proof.
  revert w. induction l as [|x l IH]; intros w Hq.
  { exists w. split; [done|]. split; [by apply shrinks_refl|]. by intros y Hy%elem_of_nil. }
  destruct (delete_matching_quiet (f x) labels ns w Hq) as (w1 & Hd & Hs1 & Hx).
  destruct (IH w1 (proj1 Hs1)) as (w2 & Hf & Hs2 & Hl). exists w2. simpl. unfold mbind at 1, E_bind at 1, wrapping at 1.
  rewrite Hd, Hf. split; [done|]. split; [by eapply shrinks_trans|].
  intros y [->|Hy]%elem_of_cons; [by eapply clean_shrinks|by apply Hl].
Qed.

Lemma all_kinds k : k ∈ app_kinds.
Proof. apply list_elem_of_In. destruct k; simpl; tauto. Qed.

Lemma namespaces_quiet labels (l : list Namespace) w :
  all_quiet w →
  ∃ w', for_each (gc_namespace_of labels) l w = (w', inr tt) ∧ shrinks w w' ∧
    ∀ ns k, ns ∈ l → clean k labels (meta_Name (ns_meta ns)) w'.
Proof.
  revert w. induction l as [|ns l IH]; intros w Hq.
  { exists w. split; [done|]. split; [by apply shrinks_refl|]. by intros ns k Hns%elem_of_nil. }
  destruct (kinds_quiet (λ k, k) labels (meta_Name (ns_meta ns)) (λ k, "gc " +:+ gc_name k +:+ ": %w") [] app_kinds w Hq)
    as (w1 & Hd & Hs1 & Hx).
  destruct (IH w1 (proj1 Hs1)) as (w2 & Hf & Hs2 & Hl). exists w2. simpl. unfold mbind at 1, E_bind at 1.
  change (gc_namespace_of labels ns w) with (for_each (λ k, wrapping ("gc " +:+ gc_name k +:+ ": %w") []
    (deleteMatching k labels (meta_Name (ns_meta ns)))) app_kinds w).
  rewrite Hd, Hf. split; [done|]. split; [by eapply shrinks_trans|].
  intros y k [->|Hy]%elem_of_cons; [|by apply Hl]. eapply clean_shrinks; [done|]. apply Hx, all_kinds.
Qed.

(** Without other writers the collection of an app that goes succeeds, and afterwards no
    object of the eight kinds carries its labels in any namespace of the project, and none
    of its deploy tokens is left. *)
Theorem gc_complete app projectName w :
  all_quiet w → kquiet (Obj := Namespace) w → appProjectName app = inr projectName →
  ∃ w', gcAppAcrossEnvs app w = (w', inr tt) ∧ shrinks w w' ∧
    (∀ ns k, meta_Labels (ns_meta ns) !! ProjectLabel = Some projectName → kstore w !! obj_key ns = Some ns →
       clean k (app_selector (app_name_of app) projectName) (meta_Name (ns_meta ns)) w') ∧
    clean GcSecrets (token_selector (app_name_of app)) (meta_Namespace (App_ObjectMeta app)) w'.
Proof.
  intros Hq Hn Hp. unfold gcAppAcrossEnvs. rewrite Hp. cbv zeta.
  destruct (klist_quiet (Obj := Namespace) "" {[ProjectLabel := projectName]} w Hn) as (w1 & l & _ & _ & Hl & _ & Hin).
  assert (shrinks w w1) as Hw1.
  { split; intros k; pose proof (NA k "" {[ProjectLabel := projectName]} w) as [Hs Hqq]; rewrite Hl in Hs, Hqq; simpl in Hs, Hqq;
      [by apply Hqq|by rewrite Hs]. }
  destruct (namespaces_quiet (app_selector (app_name_of app) projectName) l w1 (proj1 Hw1)) as (w2 & Hf & Hw2 & Hclean).
  destruct (delete_matching_quiet GcSecrets (token_selector (app_name_of app)) (meta_Namespace (App_ObjectMeta app)) w2 (proj1 Hw2))
    as (w3 & Hd & Hw3 & Htok).
  exists w3. unfold mbind, E_bind, wrapping. rewrite Hl. unfold app_name_of in *. rewrite Hf, Hd. split; [done|].
  split; [by eapply shrinks_trans, shrinks_trans|]. split; [|done].
  intros ns k Hlab Hst. eapply clean_shrinks; [done|]. apply Hclean, Hin. split; [|done]. unfold selected. simpl.
  apply bool_decide_eq_true. by apply map_singleton_subseteq_l.
Qed.
End quiet.
