(* ===== verification/Workloads.v ===== *)
(** * Workload objects and the configuration of the platform

    The kinds the app controller creates in the namespaces of environments: Deployments,
    CronJobs, Services, Ingresses, ServiceAccounts and PersistentVolumeClaims, with the fields
    the program sets or compares; and [platformconfig_types.go].  A quantity is its text. *)

From S2P Require Import Prelude GoStrings Kube Core Api KubeStatus.

(** [k8s.io/apimachinery/pkg/api/resource]: reading a quantity and comparing two. *)
Class Quantities := {
  ParseQuantity : string → error + string;
  Quantity_Cmp : string → string → Z;
}.
Class QuantitiesOk {Q : Quantities} : Prop := Quantity_Cmp_refl q : Quantity_Cmp q q = 0%Z.

Abbreviation ResourceList := (gmap string string) (only parsing).

(** [equality.Semantic.DeepEqual] on resource lists: quantities of one value are equal. *)
Definition same_quantities {Q : Quantities} (a b : ResourceList) : bool :=
  bool_decide (dom a = dom b) &&
  forallb (λ '(k, q), match b !! k with Some q' => (Quantity_Cmp q q' =? 0)%Z | None => false end) (map_to_list a).

(** ** Pods *)

Inductive ProbeHandler :=
  | TCPSocket (port : Z)
  | HTTPGet (path : string) (port : Z) (scheme : string).

Record Probe := {
  Probe_Handler : ProbeHandler;
  Probe_InitialDelaySeconds : Z;
  Probe_PeriodSeconds : Z;
  Probe_TimeoutSeconds : Z;
  Probe_FailureThreshold : Z;
  Probe_SuccessThreshold : Z;
}.

Record ContainerPort := { ContainerPort_Name : string; ContainerPort_ContainerPort : Z; ContainerPort_Protocol : string }.
Record VolumeMount := {
  VolumeMount_Name : string; VolumeMount_MountPath : string; VolumeMount_SubPath : string; VolumeMount_ReadOnly : bool;
}.

(** [corev1.VolumeSource], of the three sources in use. *)
Inductive VolumeSource :=
  | PersistentVolumeClaimVolume (claim : string)
  | ConfigMapVolume (name : string) (mode : option Z)
  | SecretVolume (name : string) (items : list KeyToPath) (mode : option Z).
Record Volume := { Volume_Name : string; Volume_Source : VolumeSource }.

Record SeccompProfile := { SeccompProfile_Type : string; SeccompProfile_LocalhostProfile : option string }.
Record Capabilities := { Capabilities_Add : list string; Capabilities_Drop : list string }.
Record PodSecurityContext := {
  PodSecurityContext_RunAsUser : option Z;
  PodSecurityContext_RunAsNonRoot : option bool;
  PodSecurityContext_FSGroup : option Z;
  PodSecurityContext_SeccompProfile : option SeccompProfile;
}.
Record SecurityContext := {
  SecurityContext_Privileged : option bool;
  SecurityContext_RunAsUser : option Z;
  SecurityContext_RunAsNonRoot : option bool;
  SecurityContext_AllowPrivilegeEscalation : option bool;
  SecurityContext_Capabilities : option Capabilities;
  SecurityContext_SeccompProfile : option SeccompProfile;
}.

(** A variable of a container is its name and value, an [envFrom] entry the name of a Secret. *)
Record Container := {
  Container_Name : string;
  Container_Image : string;
  Container_Env : list (string * string);
  Container_EnvFrom : list string;
  Container_Ports : list ContainerPort;
  Container_Requests : ResourceList;
  Container_Limits : ResourceList;
  Container_VolumeMounts : list VolumeMount;
  Container_LivenessProbe : option Probe;
  Container_ReadinessProbe : option Probe;
  Container_StartupProbe : option Probe;
  Container_SecurityContext : option SecurityContext;
}.

Record PodSpec := {
  PodSpec_ServiceAccountName : string;
  PodSpec_RestartPolicy : string;
  PodSpec_Containers : list Container;
  PodSpec_Volumes : list Volume;
  PodSpec_SecurityContext : option PodSecurityContext;
}.
Record PodTemplateSpec := {
  PodTemplateSpec_Labels : gmap string string;
  PodTemplateSpec_Annotations : gmap string string;
  PodTemplateSpec_Spec : PodSpec;
}.

(** ** Kinds *)

Record DeploymentStatus := {
  DeploymentStatus_ObservedGeneration : Z;
  DeploymentStatus_Replicas : Z;
  DeploymentStatus_UpdatedReplicas : Z;
  DeploymentStatus_AvailableReplicas : Z;
}.
Record Deployment := {
  dep_meta : ObjectMeta;
  dep_Replicas : option Z;
  dep_Strategy : string;
  dep_Selector : option (gmap string string);
  dep_Template : PodTemplateSpec;
  dep_ProgressDeadlineSeconds : option Z;
  dep_Status : DeploymentStatus;
}.
Record CronJob := {
  cron_meta : ObjectMeta;
  cron_Schedule : string;
  cron_ConcurrencyPolicy : string;
  cron_JobLabels : gmap string string;
  cron_JobAnnotations : gmap string string;
  cron_Template : PodTemplateSpec;
}.
Record ServicePort := { ServicePort_Name : string; ServicePort_Port : Z; ServicePort_TargetPort : Z; ServicePort_Protocol : string }.
Record Service := {
  svc_meta : ObjectMeta;
  svc_Type : string;
  svc_ExternalName : string;
  svc_Selector : gmap string string;
  svc_Ports : list ServicePort;
}.
Record ServiceAccount := { sa_meta : ObjectMeta; sa_ImagePullSecrets : list string }.

(** An Ingress rule: the host and the one path with its backend. *)
Record IngressRule := {
  IngressRule_Host : string; IngressRule_Path : string; IngressRule_PathType : string;
  IngressRule_Service : string; IngressRule_Port : Z;
}.
Record IngressTLS := { IngressTLS_Hosts : list string; IngressTLS_SecretName : string }.
Record IngressSpec := {
  IngressSpec_ClassName : option string; IngressSpec_Rules : list IngressRule; IngressSpec_TLS : list IngressTLS;
}.
Record Ingress := { ing_meta : ObjectMeta; ing_Spec : IngressSpec }.
Record PersistentVolumeClaim := {
  pvc_meta : ObjectMeta;
  pvc_AccessModes : list string;
  pvc_Requests : ResourceList;
  pvc_StorageClassName : option string;
}.
#[export] Instance ProbeHandler_eq_dec : EqDecision ProbeHandler.
Proof. solve_decision. Defined.
#[export] Instance Probe_eq_dec : EqDecision Probe.
Proof. solve_decision. Defined.
#[export] Instance ContainerPort_eq_dec : EqDecision ContainerPort.
Proof. solve_decision. Defined.
#[export] Instance VolumeMount_eq_dec : EqDecision VolumeMount.
Proof. solve_decision. Defined.
#[export] Instance VolumeSource_eq_dec : EqDecision VolumeSource.
Proof. solve_decision. Defined.
#[export] Instance Volume_eq_dec : EqDecision Volume.
Proof. solve_decision. Defined.
#[export] Instance SeccompProfile_eq_dec : EqDecision SeccompProfile.
Proof. solve_decision. Defined.
#[export] Instance Capabilities_eq_dec : EqDecision Capabilities.
Proof. solve_decision. Defined.
#[export] Instance PodSecurityContext_eq_dec : EqDecision PodSecurityContext.
Proof. solve_decision. Defined.
#[export] Instance SecurityContext_eq_dec : EqDecision SecurityContext.
Proof. solve_decision. Defined.
#[export] Instance Container_eq_dec : EqDecision Container.
Proof. solve_decision. Defined.
#[export] Instance PodSpec_eq_dec : EqDecision PodSpec.
Proof. solve_decision. Defined.
#[export] Instance PodTemplateSpec_eq_dec : EqDecision PodTemplateSpec.
Proof. solve_decision. Defined.
#[export] Instance ServicePort_eq_dec : EqDecision ServicePort.
Proof. solve_decision. Defined.
#[export] Instance IngressRule_eq_dec : EqDecision IngressRule.
Proof. solve_decision. Defined.
#[export] Instance IngressTLS_eq_dec : EqDecision IngressTLS.
Proof. solve_decision. Defined.
#[export] Instance IngressSpec_eq_dec : EqDecision IngressSpec.
Proof. solve_decision. Defined.

#[export] Instance Deployment_object : KubeObject Deployment :=
  {| obj_meta := dep_meta;
     set_meta m o := {| dep_meta := m; dep_Replicas := dep_Replicas o; dep_Strategy := dep_Strategy o; dep_Selector := dep_Selector o; dep_Template := dep_Template o; dep_ProgressDeadlineSeconds := dep_ProgressDeadlineSeconds o; dep_Status := dep_Status o |} |}.
#[export] Instance Deployment_object_ok : KubeObjectOk Deployment.
Proof. by split; try intros ? ? []; try intros []. Qed.

#[export] Instance CronJob_object : KubeObject CronJob :=
  {| obj_meta := cron_meta;
     set_meta m o := {| cron_meta := m; cron_Schedule := cron_Schedule o; cron_ConcurrencyPolicy := cron_ConcurrencyPolicy o; cron_JobLabels := cron_JobLabels o; cron_JobAnnotations := cron_JobAnnotations o; cron_Template := cron_Template o |} |}.
#[export] Instance CronJob_object_ok : KubeObjectOk CronJob.
Proof. by split; try intros ? ? []; try intros []. Qed.

#[export] Instance Service_object : KubeObject Service :=
  {| obj_meta := svc_meta;
     set_meta m o := {| svc_meta := m; svc_Type := svc_Type o; svc_ExternalName := svc_ExternalName o; svc_Selector := svc_Selector o; svc_Ports := svc_Ports o |} |}.
#[export] Instance Service_object_ok : KubeObjectOk Service.
Proof. by split; try intros ? ? []; try intros []. Qed.

#[export] Instance ServiceAccount_object : KubeObject ServiceAccount :=
  {| obj_meta := sa_meta;
     set_meta m o := {| sa_meta := m; sa_ImagePullSecrets := sa_ImagePullSecrets o |} |}.
#[export] Instance ServiceAccount_object_ok : KubeObjectOk ServiceAccount.
Proof. by split; try intros ? ? []; try intros []. Qed.

#[export] Instance Ingress_object : KubeObject Ingress :=
  {| obj_meta := ing_meta;
     set_meta m o := {| ing_meta := m; ing_Spec := ing_Spec o |} |}.
#[export] Instance Ingress_object_ok : KubeObjectOk Ingress.
Proof. by split; try intros ? ? []; try intros []. Qed.

#[export] Instance PersistentVolumeClaim_object : KubeObject PersistentVolumeClaim :=
  {| obj_meta := pvc_meta;
     set_meta m o := {| pvc_meta := m; pvc_AccessModes := pvc_AccessModes o; pvc_Requests := pvc_Requests o; pvc_StorageClassName := pvc_StorageClassName o |} |}.
#[export] Instance PersistentVolumeClaim_object_ok : KubeObjectOk PersistentVolumeClaim.
Proof. by split; try intros ? ? []; try intros []. Qed.

(** ** [platformconfig_types.go] *)

Definition PlatformConfigPhasePending : string := "Pending".
Definition PlatformConfigPhaseReady : string := "Ready".
Definition PlatformConfigPhaseFailed : string := "Failed".

Record StorageConfig := {
  StorageConfig_DefaultStorageClass : string;
}.
Definition StorageConfig_zero : StorageConfig :=
  {|
    StorageConfig_DefaultStorageClass := "" |}.

Record RegistryConfig := {
  RegistryConfig_URL : string;
  RegistryConfig_Namespace : string;
  RegistryConfig_CredentialsSecretRef : option SecretRef;
  RegistryConfig_PullSecretName : string;
  RegistryConfig_InsecureSkipTLSVerify : bool;
  RegistryConfig_PullURL : string;
}.
Definition RegistryConfig_zero : RegistryConfig :=
  {|
    RegistryConfig_URL := ""; RegistryConfig_Namespace := "";
    RegistryConfig_CredentialsSecretRef := None; RegistryConfig_PullSecretName := "";
    RegistryConfig_InsecureSkipTLSVerify := false; RegistryConfig_PullURL := "" |}.

Record BuildConfig := {
  BuildConfig_BuildkitAddr : string;
  BuildConfig_TLSSecretRef : option SecretRef;
  BuildConfig_DefaultPlatform : string;
}.
Definition BuildConfig_zero : BuildConfig :=
  {|
    BuildConfig_BuildkitAddr := ""; BuildConfig_TLSSecretRef := None;
    BuildConfig_DefaultPlatform := "" |}.

Record TLSConfig := {
  TLSConfig_CertManagerClusterIssuer : string;
}.
Definition TLSConfig_zero : TLSConfig :=
  {|
    TLSConfig_CertManagerClusterIssuer := "" |}.

Record DefaultsConfig := {
  DefaultsConfig_Resources : ResourceRequirements;
}.
Definition DefaultsConfig_zero : DefaultsConfig :=
  {|
    DefaultsConfig_Resources := ResourceRequirements_zero |}.

Record GitHubConfig := {
  GitHubConfig_ClientID : string;
}.
Definition GitHubConfig_zero : GitHubConfig :=
  {|
    GitHubConfig_ClientID := "" |}.

Record ObservabilitySpec := {
  ObservabilitySpec_LogsAdapterEndpoint : string;
  ObservabilitySpec_LogsAdapterTokenSecretRef : option SecretRef;
  ObservabilitySpec_MetricsAdapterEndpoint : string;
  ObservabilitySpec_MetricsAdapterTokenSecretRef : option SecretRef;
  ObservabilitySpec_TrafficAdapterEndpoint : string;
  ObservabilitySpec_TrafficAdapterTokenSecretRef : option SecretRef;
}.
Definition ObservabilitySpec_zero : ObservabilitySpec :=
  {|
    ObservabilitySpec_LogsAdapterEndpoint := "";
    ObservabilitySpec_LogsAdapterTokenSecretRef := None;
    ObservabilitySpec_MetricsAdapterEndpoint := "";
    ObservabilitySpec_MetricsAdapterTokenSecretRef := None;
    ObservabilitySpec_TrafficAdapterEndpoint := "";
    ObservabilitySpec_TrafficAdapterTokenSecretRef := None |}.

Record PlatformConfigSpec := {
  PlatformConfigSpec_Domain : string;
  PlatformConfigSpec_ExternalDomain : string;
  PlatformConfigSpec_ExternalScheme : string;
  PlatformConfigSpec_DomainTemplate : string;
  PlatformConfigSpec_Storage : StorageConfig;
  PlatformConfigSpec_Registry : RegistryConfig;
  PlatformConfigSpec_Build : BuildConfig;
  PlatformConfigSpec_TLS : TLSConfig;
  PlatformConfigSpec_GitHub : option GitHubConfig;
  PlatformConfigSpec_Observability : ObservabilitySpec;
  PlatformConfigSpec_Defaults : DefaultsConfig;
}.
Definition PlatformConfigSpec_zero : PlatformConfigSpec :=
  {|
    PlatformConfigSpec_Domain := ""; PlatformConfigSpec_ExternalDomain := "";
    PlatformConfigSpec_ExternalScheme := ""; PlatformConfigSpec_DomainTemplate := "";
    PlatformConfigSpec_Storage := StorageConfig_zero;
    PlatformConfigSpec_Registry := RegistryConfig_zero;
    PlatformConfigSpec_Build := BuildConfig_zero; PlatformConfigSpec_TLS := TLSConfig_zero;
    PlatformConfigSpec_GitHub := None;
    PlatformConfigSpec_Observability := ObservabilitySpec_zero;
    PlatformConfigSpec_Defaults := DefaultsConfig_zero |}.

Record PlatformConfigStatus := {
  PlatformConfigStatus_Phase : string;
  PlatformConfigStatus_Conditions : list Condition;
  PlatformConfigStatus_OperatorVersion : string;
  PlatformConfigStatus_OperatorCommit : string;
}.
Definition PlatformConfigStatus_zero : PlatformConfigStatus :=
  {|
    PlatformConfigStatus_Phase := ""; PlatformConfigStatus_Conditions := [];
    PlatformConfigStatus_OperatorVersion := ""; PlatformConfigStatus_OperatorCommit := "" |}.

Record PlatformConfig := { pc_meta : ObjectMeta; PlatformConfig_Spec : PlatformConfigSpec; PlatformConfig_Status : PlatformConfigStatus }.
#[export] Instance PlatformConfig_object : KubeObject PlatformConfig :=
  {| obj_meta := pc_meta;
     set_meta m o := {| pc_meta := m; PlatformConfig_Spec := PlatformConfig_Spec o; PlatformConfig_Status := PlatformConfig_Status o |} |}.
#[export] Instance PlatformConfig_object_ok : KubeObjectOk PlatformConfig.
Proof. by split; try intros ? ? []; try intros []. Qed.
