(* ===== verification/AppPods.v ===== *)
(** * Pods of apps: [internal/controller/app_controller.go]

    From an app and an environment to containers, volumes, probes, resources and security
    contexts. *)

From S2P Require Import Prelude GoStrings GoText Kube Core Api KubeStatus Constants BuildRun EnvStore Workloads.

(** [path/filepath.Base] *)
Definition is_slash (c : ascii) : bool := Ascii.eqb c "/"%char.
Definition filepath_Base (path : string) : string :=
  if String.eqb path "" then "."
  else
    let p := trim_right is_slash path in
    if String.eqb p "" then "/"
    else match last_index_char "/"%char p with Some i => str_drop (S i) p | None => p end.

Definition revisionEnvName : string := "MORTISE_REVISION".
Definition imageEnvName : string := "MORTISE_IMAGE".
Definition replicasEnvName : string := "MORTISE_REPLICAS".

Definition serviceName (appName : string) : string := appName.
Definition ingressName (appName : string) : string := appName.
Definition tlsSecretName (appName : string) : string := ingressName appName +:+ "-tls".
Definition pvcName (app volume : string) : string := app +:+ "-" +:+ volume.
Definition configMapName (appName : string) (i : nat) : string := appName +:+ "-config-" +:+ itoa (Z.of_nat i).

Definition default_port : Z := 8080.
Definition appPort (app : App) : Z :=
  let port := NetworkConfig_Port (AppSpec_Network (App_Spec app)) in
  if (0 <? port)%Z && negb (port =? default_port)%Z then port
  else if (0 <? AppStatus_DetectedPort (App_Status app))%Z then AppStatus_DetectedPort (App_Status app)
  else if (0 <? port)%Z then port
  else default_port.

(** ** Probes *)

Definition at_least (given preset : Z) : Z := if (0 <? given)%Z then given else preset.

Definition buildProbe (pc : option ProbeConfig) (defaultPort : Z) : option Probe :=
  match pc with
  | None =>
    Some {| Probe_Handler := TCPSocket defaultPort; Probe_InitialDelaySeconds := 5; Probe_PeriodSeconds := 10;
            Probe_TimeoutSeconds := 3; Probe_FailureThreshold := 3; Probe_SuccessThreshold := 1 |}
  | Some pc =>
    match ProbeConfig_Enabled pc with
    | Some false => None
    | _ =>
      let port := at_least (ProbeConfig_Port pc) defaultPort in
      Some {| Probe_Handler := if negb (String.eqb (ProbeConfig_Path pc) "")
                               then HTTPGet (ProbeConfig_Path pc) port "HTTP" else TCPSocket port;
              Probe_InitialDelaySeconds := at_least (ProbeConfig_InitialDelaySeconds pc) 5;
              Probe_PeriodSeconds := at_least (ProbeConfig_PeriodSeconds pc) 10;
              Probe_TimeoutSeconds := at_least (ProbeConfig_TimeoutSeconds pc) 3;
              Probe_FailureThreshold := at_least (ProbeConfig_FailureThreshold pc) 3;
              Probe_SuccessThreshold := 1 |}
    end
  end.

(** ** Security contexts *)

Definition workloadSecurityContexts (app : App) : option PodSecurityContext * option SecurityContext :=
  if negb (String.eqb (AppSpec_SecurityProfile (App_Spec app)) SecurityProfileRestricted) then (None, None)
  else
    (Some {| PodSecurityContext_RunAsUser := None; PodSecurityContext_RunAsNonRoot := Some true; PodSecurityContext_FSGroup := None;
             PodSecurityContext_SeccompProfile :=
               Some {| SeccompProfile_Type := "RuntimeDefault"; SeccompProfile_LocalhostProfile := None |} |},
     Some {| SecurityContext_Privileged := None; SecurityContext_RunAsUser := None; SecurityContext_RunAsNonRoot := None;
             SecurityContext_AllowPrivilegeEscalation := Some false;
             SecurityContext_Capabilities := Some {| Capabilities_Add := []; Capabilities_Drop := ["ALL"] |};
             SecurityContext_SeccompProfile := None |}).

(** [normalizeStructPointers] on the pointers to structs of the two types: a pointer to the
    zero value is nil. *)
Definition zero_to_nil {A} `{EqDecision A} (zero : A) (p : option A) : option A := if bool_decide (p = Some zero) then None else p.

Definition SeccompProfile_zero : SeccompProfile := {| SeccompProfile_Type := ""; SeccompProfile_LocalhostProfile := None |}.
Definition Capabilities_zero : Capabilities := {| Capabilities_Add := []; Capabilities_Drop := [] |}.
Definition PodSecurityContext_zero : PodSecurityContext :=
  {| PodSecurityContext_RunAsUser := None; PodSecurityContext_RunAsNonRoot := None; PodSecurityContext_FSGroup := None;
     PodSecurityContext_SeccompProfile := None |}.
Definition SecurityContext_zero : SecurityContext :=
  {| SecurityContext_Privileged := None; SecurityContext_RunAsUser := None; SecurityContext_RunAsNonRoot := None;
     SecurityContext_AllowPrivilegeEscalation := None; SecurityContext_Capabilities := None;
     SecurityContext_SeccompProfile := None |}.

Definition normalizePodSecurityContext (sc : option PodSecurityContext) : option PodSecurityContext :=
  match sc with
  | None => None
  | Some sc =>
    zero_to_nil PodSecurityContext_zero
      (Some {| PodSecurityContext_RunAsUser := PodSecurityContext_RunAsUser sc;
               PodSecurityContext_RunAsNonRoot := PodSecurityContext_RunAsNonRoot sc;
               PodSecurityContext_FSGroup := PodSecurityContext_FSGroup sc;
               PodSecurityContext_SeccompProfile := zero_to_nil SeccompProfile_zero (PodSecurityContext_SeccompProfile sc) |})
  end.

Definition normalizeContainerSecurityContext (sc : option SecurityContext) : option SecurityContext :=
  match sc with
  | None => None
  | Some sc =>
    zero_to_nil SecurityContext_zero
      (Some {| SecurityContext_Privileged := SecurityContext_Privileged sc;
               SecurityContext_RunAsUser := SecurityContext_RunAsUser sc;
               SecurityContext_RunAsNonRoot := SecurityContext_RunAsNonRoot sc;
               SecurityContext_AllowPrivilegeEscalation := SecurityContext_AllowPrivilegeEscalation sc;
               SecurityContext_Capabilities := zero_to_nil Capabilities_zero (SecurityContext_Capabilities sc);
               SecurityContext_SeccompProfile := zero_to_nil SeccompProfile_zero (SecurityContext_SeccompProfile sc) |})
  end.

Definition securityContextsEqual (podA podB : option PodSecurityContext) (containerA containerB : option SecurityContext) : bool :=
  bool_decide (normalizePodSecurityContext podA = normalizePodSecurityContext podB) &&
  bool_decide (normalizeContainerSecurityContext containerA = normalizeContainerSecurityContext containerB).

(** ** Resources *)

Definition with_cpu (cpu : string) (r : ResourceRequirements) : ResourceRequirements :=
  {| ResourceRequirements_CPU := cpu; ResourceRequirements_Memory := ResourceRequirements_Memory r;
     ResourceRequirements_CPULimit := ResourceRequirements_CPULimit r;
     ResourceRequirements_MemoryLimit := ResourceRequirements_MemoryLimit r |}.

(** The reservations that are made when nothing is said about a resource. *)
Definition reserved (res : ResourceRequirements) : ResourceRequirements :=
  let res := if String.eqb (ResourceRequirements_CPU res) "" && String.eqb (ResourceRequirements_CPULimit res) ""
             then with_cpu "100m" res else res in
  if String.eqb (ResourceRequirements_Memory res) "" && String.eqb (ResourceRequirements_MemoryLimit res) ""
  then with_ResourceRequirements_Memory "256Mi" res else res.

Definition effectiveResources {W} {C : KubeClient W PlatformConfig} (env : Environment) (w : W) : W * ResourceRequirements :=
  let res := Environment_Resources env in
  if String.eqb (ResourceRequirements_CPU res) "" && String.eqb (ResourceRequirements_Memory res) "" &&
     String.eqb (ResourceRequirements_CPULimit res) "" && String.eqb (ResourceRequirements_MemoryLimit res) "" then
    match kget (Obj := PlatformConfig) ("", "platform") w with
    | (w, inr pc) => (w, reserved (DefaultsConfig_Resources (PlatformConfigSpec_Defaults (PlatformConfig_Spec pc))))
    | (w, inl _) => (w, reserved res)
    end
  else (w, reserved res).

Section resources.
Context {Q : Quantities}.

(** The function [set] of [toResourceRequirements]. *)
Definition set_resource (name request limit : string) '((requests, limits) : gmap string string * gmap string string)
    : error + gmap string string * gmap string string :=
  if String.eqb request "" && String.eqb limit "" then inr (requests, limits)
  else
    match (if String.eqb request "" then inr (requests, limits)
           else match ParseQuantity request with
                | inl err => inl (Wrapf "invalid %s %q: %w" [name; request] err)
                | inr q => inr (<[name := q]> requests, <[name := q]> limits)
                end) with
    | inl err => inl err
    | inr (requests, limits) =>
      if String.eqb limit "" then inr (requests, limits)
      else
        match ParseQuantity limit with
        | inl err => inl (Wrapf "invalid %s limit %q: %w" [name; limit] err)
        | inr q =>
          if negb (String.eqb request "") && (Quantity_Cmp q (map_get requests name) <? 0)%Z
          then inl (Errorf "%s limit %q is below the request %q" [name; limit; request])
          else inr (requests, <[name := q]> limits)
        end
    end.

Definition toResourceRequirements (r : ResourceRequirements) : error + gmap string string * gmap string string :=
  match set_resource "cpu" (ResourceRequirements_CPU r) (ResourceRequirements_CPULimit r) (∅, ∅) with
  | inl err => inl err
  | inr req => set_resource "memory" (ResourceRequirements_Memory r) (ResourceRequirements_MemoryLimit r) req
  end.
End resources.

(** ** Volumes *)

Definition claim_volume (app : App) (v : VolumeSpec) : Volume * VolumeMount :=
  ({| Volume_Name := VolumeSpec_Name v; Volume_Source := PersistentVolumeClaimVolume (pvcName (app_name app) (VolumeSpec_Name v)) |},
   {| VolumeMount_Name := VolumeSpec_Name v; VolumeMount_MountPath := VolumeSpec_MountPath v; VolumeMount_SubPath := "";
      VolumeMount_ReadOnly := false |}).

Definition file_volume (app : App) (i : nat) (cf : ConfigFile) : Volume * VolumeMount :=
  let volName := "config-" +:+ itoa (Z.of_nat i) in
  ({| Volume_Name := volName; Volume_Source := ConfigMapVolume (configMapName (app_name app) i) (Some 420%Z) |},
   {| VolumeMount_Name := volName; VolumeMount_MountPath := ConfigFile_Path cf; VolumeMount_SubPath := filepath_Base (ConfigFile_Path cf);
      VolumeMount_ReadOnly := false |}).

Definition toVolumesAndMounts (app : App) : list Volume * list VolumeMount :=
  let l := (claim_volume app <$> AppSpec_Storage (App_Spec app)) ++ imap (file_volume app) (AppSpec_ConfigFiles (App_Spec app)) in
  (l.*1, l.*2).

Definition secret_volume (m : SecretMount) : Volume * VolumeMount :=
  ({| Volume_Name := SecretMount_Name m; Volume_Source := SecretVolume (SecretMount_Secret m) (SecretMount_Items m) (Some 420%Z) |},
   {| VolumeMount_Name := SecretMount_Name m; VolumeMount_MountPath := SecretMount_Path m; VolumeMount_SubPath := "";
      VolumeMount_ReadOnly := default true (SecretMount_ReadOnly m) |}).

Definition toSecretVolumesAndMounts (mounts : list SecretMount) : list Volume * list VolumeMount :=
  let l := secret_volume <$> mounts in (l.*1, l.*2).

(** ** Deployments *)

Definition deploymentName (appName : string) : string := DeploymentName appName.
Definition cronJobName (appName : string) : string := CronJobName appName.

Definition RecreateDeploymentStrategyType : string := "Recreate".
Definition deploymentStrategy (app : App) : string :=
  match AppSpec_Storage (App_Spec app) with [] => "" | _ => RecreateDeploymentStrategyType end.

Definition deploymentRollingOut (dep : Deployment) : bool :=
  let st := dep_Status dep in
  let want := default 1%Z (dep_Replicas dep) in
  (DeploymentStatus_ObservedGeneration st <? meta_Generation (dep_meta dep))%Z ||
  (DeploymentStatus_UpdatedReplicas st <? DeploymentStatus_Replicas st)%Z ||
  (DeploymentStatus_UpdatedReplicas st <? want)%Z || (DeploymentStatus_AvailableReplicas st <? want)%Z.

Definition deploymentSelectorMismatch (existing desired : Deployment) : bool :=
  match dep_Selector desired with
  | None => false
  | Some want =>
    match dep_Selector existing with
    | None => true
    | Some have =>
      negb (bool_decide (have = want)) ||
      negb (forallb (λ '(k, v), String.eqb (map_get (PodTemplateSpec_Labels (dep_Template desired)) k) v) (map_to_list have))
    end
  end.
