(* ===== verification/AppWorkloads.v ===== *)
(** * Workloads of apps: [internal/controller/app_controller.go]

    The objects an app has in the namespace of an environment, each brought to what the
    app asks for: created when absent, refused when somebody else's, changed where it
    differs.  [internal/ingress] supplies annotations. *)

From S2P Require Import Prelude GoStrings GoText Kube Core Api KubeStatus Constants BuildRun EnvStore AppAnnotations Workloads AppPods.

(** ** Ownership *)

Definition isMortiseManaged {Obj} {O : KubeObject Obj} (obj : Obj) : bool :=
  String.eqb (map_get (meta_Labels (obj_meta obj)) ManagedByLabel) ManagedByValue.

Definition resourceConflictError (kind name namespace : string) : error :=
  Typed "resourceConflictError"
    (sprintf "%s %q already exists in namespace %q and is not managed by Mortise; rename or delete it to let Mortise deploy this app"
       [kind; name; namespace]).

Definition conflictIfUnmanaged {Obj} {O : KubeObject Obj} (obj : Obj) (kind : string) : option error :=
  if isMortiseManaged obj then None
  else Some (resourceConflictError kind (meta_Name (obj_meta obj)) (meta_Namespace (obj_meta obj))).

(** [appLabels] panics for an app outside a control namespace; the manager turns a panic
    of a reconciliation into an error. *)
Definition with_app_labels {W A} (app : App) (env : string) (k : gmap string string → E W A) : E W A :=
  match appLabels app env with
  | Some labels => k labels
  | None => throw (Typed "panic" "appLabels")
  end.

Definition object_meta (namespace name : string) (labels annotations : gmap string string) : ObjectMeta :=
  with_annotations annotations (with_labels labels (with_name name (with_namespace namespace ObjectMeta_zero))).

Section upsert.
Context {W Obj : Type} {O : KubeObject Obj} {C : KubeClient W Obj} {KR : KubeRetry W}.

(** The shape the functions share: read, create when absent, refuse what somebody else made. *)
Definition upsert (kind : string) (key : NamespacedName) (absent : E W unit) (found : Obj → E W unit) : E W unit := λ w,
  match kget key w with
  | (w, inl err) => if IsNotFound err then absent w else (w, inl err)
  | (w, inr existing) =>
    match conflictIfUnmanaged existing kind with
    | Some err => (w, inl err)
    | None => found existing w
    end
  end.

(** The guard at the start of the functions that are retried. *)
Definition guarding (kind : string) (mutate : Obj → Obj * (error + bool)) (existing : Obj) : Obj * (error + bool) :=
  match conflictIfUnmanaged existing kind with
  | Some err => (existing, inl err)
  | None => mutate existing
  end.

Definition settle (kind : string) (key : NamespacedName) (mutate : Obj → Obj * (error + bool)) : E W unit :=
  run (UpdateWithConflictRetry key (guarding kind mutate)).

(** A creation that loses to another goes on with the update. *)
Definition create_or (desired : Obj) (update : E W unit) (fail : error → error) : E W unit := λ w,
  match kcreate desired w with
  | (w, None) => (w, inr tt)
  | (w, Some err) => if IsAlreadyExists err then update w else (w, inl (fail err))
  end.
End upsert.

(** ** Deployments and CronJobs *)

Section pods.
Context {W : Type} {Q : Quantities} {CP : KubeClient W PlatformConfig}.

(** The container both kinds share, for the resources it gets. *)
Definition container_of (app : App) (env : Environment) (image : string) (resources : ResourceRequirements) : error + Container :=
  match toResourceRequirements resources with
  | inl err => inl (Wrapf "resources: %w" [] err)
  | inr (requests, limits) =>
    inr {| Container_Name := app_name app; Container_Image := image; Container_Env := [];
           Container_EnvFrom := EnvFromSources (app_name app); Container_Ports := [];
           Container_Requests := requests; Container_Limits := limits;
           Container_VolumeMounts := (toVolumesAndMounts app).2 ++ (toSecretVolumesAndMounts (Environment_SecretMounts env)).2;
           Container_LivenessProbe := None; Container_ReadinessProbe := None; Container_StartupProbe := None;
           Container_SecurityContext := (workloadSecurityContexts app).2 |}
  end.

Definition base_container (app : App) (env : Environment) (image : string) : E W Container := λ w,
  let '(w, resources) := effectiveResources env w in (w, container_of app env image resources).
End pods.

Definition pod_volumes (app : App) (env : Environment) : list Volume :=
  (toVolumesAndMounts app).1 ++ (toSecretVolumesAndMounts (Environment_SecretMounts env)).1.

Definition env_replicas (env : Environment) : Z := default 1%Z (Environment_Replicas env).

Definition port_env (app : App) (env : Environment) (image : string) : list (string * string) :=
  [("PORT", itoa (appPort app)); (imageEnvName, image); (replicasEnvName, itoa (env_replicas env))] ++
  match envStatusFor app (Environment_Name env) with
  | Some es => if String.eqb (EnvironmentStatus_LastBuiltSHA es) "" then []
               else [(revisionEnvName, EnvironmentStatus_LastBuiltSHA es)]
  | None => []
  end.

(** What the container of a Deployment has more: variables, a port and probes. *)
Definition serving (app : App) (env : Environment) (image : string) (c : Container) : Container :=
  let port := appPort app in
  {| Container_Name := Container_Name c; Container_Image := Container_Image c;
     Container_Env := port_env app env image; Container_EnvFrom := Container_EnvFrom c;
     Container_Ports := [{| ContainerPort_Name := "http"; ContainerPort_ContainerPort := port; ContainerPort_Protocol := "TCP" |}];
     Container_Requests := Container_Requests c; Container_Limits := Container_Limits c;
     Container_VolumeMounts := Container_VolumeMounts c;
     Container_LivenessProbe :=
       match AppSpec_Storage (App_Spec app), Environment_LivenessProbe env with
       | _ :: _, None => None
       | _, probe => buildProbe probe port
       end;
     Container_ReadinessProbe := buildProbe (Environment_ReadinessProbe env) port;
     Container_StartupProbe :=
       match Environment_StartupProbe env with Some probe => buildProbe (Some probe) port | None => None end;
     Container_SecurityContext := Container_SecurityContext c |}.

Definition env_hash_annotation : string := "mortise.dev/env-hash".

Definition pod_annotations (env : Environment) (credentialsHash envHash : string) : gmap string string :=
  let podAnno := mergeAnnotations ∅ (Environment_Annotations env) in
  let podAnno := if negb (String.eqb credentialsHash "")
                 then mergeAnnotations podAnno {["mortise.dev/credentials-hash" := credentialsHash]} else podAnno in
  if negb (String.eqb envHash "") then mergeAnnotations podAnno {[env_hash_annotation := envHash]} else podAnno.

(** The annotations a template gets: a restart somebody asked for is kept, and without
    automatic redeployment the hash of the variables is frozen while the image stays. *)
Definition template_annotations (desired existing : gmap string string) (frozen : bool) : gmap string string :=
  let desired := carryRestartMarkers (mergeAnnotations ∅ desired) existing in
  if frozen then
    match existing !! env_hash_annotation with
    | Some v => mergeAnnotations desired {[env_hash_annotation := v]}
    | None => desired
    end
  else desired.

Definition with_template (labels annotations : gmap string string) (spec : PodSpec) : PodTemplateSpec :=
  {| PodTemplateSpec_Labels := labels; PodTemplateSpec_Annotations := annotations; PodTemplateSpec_Spec := spec |}.

Definition with_containers (cs : list Container) (volumes : list Volume) (sc : option PodSecurityContext) (s : PodSpec) : PodSpec :=
  {| PodSpec_ServiceAccountName := PodSpec_ServiceAccountName s; PodSpec_RestartPolicy := PodSpec_RestartPolicy s;
     PodSpec_Containers := cs; PodSpec_Volumes := volumes; PodSpec_SecurityContext := sc |}.

Definition DeploymentStatus_zero : DeploymentStatus :=
  {| DeploymentStatus_ObservedGeneration := 0; DeploymentStatus_Replicas := 0; DeploymentStatus_UpdatedReplicas := 0;
     DeploymentStatus_AvailableReplicas := 0 |}.

Definition desired_deployment (app : App) (env : Environment) (envNs credentialsHash envHash : string)
    (labels : gmap string string) (c : Container) : Deployment :=
  {| dep_meta := object_meta envNs (deploymentName (app_name app)) labels (stampManagedAnnotations (Environment_Annotations env));
     dep_Replicas := Some (env_replicas env); dep_Strategy := deploymentStrategy app; dep_Selector := Some labels;
     dep_Template := with_template labels (pod_annotations env credentialsHash envHash)
       {| PodSpec_ServiceAccountName := app_name app; PodSpec_RestartPolicy := ""; PodSpec_Containers := [c];
          PodSpec_Volumes := pod_volumes app env; PodSpec_SecurityContext := (workloadSecurityContexts app).1 |};
     dep_ProgressDeadlineSeconds := Some 120%Z; dep_Status := DeploymentStatus_zero |}.

Section mutate.
Context {Q : Quantities}.

Definition resources_differ (a b : Container) : bool :=
  negb (same_quantities (Container_Requests a) (Container_Requests b)) ||
  negb (same_quantities (Container_Limits a) (Container_Limits b)).

Definition probes_differ (a b : Container) : bool :=
  negb (bool_decide (Container_LivenessProbe a = Container_LivenessProbe b)) ||
  negb (bool_decide (Container_ReadinessProbe a = Container_ReadinessProbe b)) ||
  negb (bool_decide (Container_StartupProbe a = Container_StartupProbe b)).

(** What both kinds compare of the container. *)
Definition containers_differ (a b : Container) : bool :=
  negb (String.eqb (Container_Image a) (Container_Image b)) ||
  negb (bool_decide (Container_Env a = Container_Env b)) ||
  negb (bool_decide (Container_EnvFrom a = Container_EnvFrom b)) ||
  negb (bool_decide (Container_VolumeMounts a = Container_VolumeMounts b)) ||
  resources_differ a b.

(** The fields of the first container that are assigned; the others stay. *)
Definition assign_container (existing desired : Container) : Container :=
  {| Container_Name := Container_Name existing; Container_Image := Container_Image desired;
     Container_Env := Container_Env desired; Container_EnvFrom := Container_EnvFrom desired;
     Container_Ports := Container_Ports existing;
     Container_Requests := Container_Requests desired; Container_Limits := Container_Limits desired;
     Container_VolumeMounts := Container_VolumeMounts desired;
     Container_LivenessProbe := Container_LivenessProbe existing;
     Container_ReadinessProbe := Container_ReadinessProbe existing;
     Container_StartupProbe := Container_StartupProbe existing;
     Container_SecurityContext := Container_SecurityContext desired |}.

Definition assign_serving (existing desired : Container) : Container :=
  let c := assign_container existing desired in
  {| Container_Name := Container_Name c; Container_Image := Container_Image c;
     Container_Env := Container_Env c; Container_EnvFrom := Container_EnvFrom c;
     Container_Ports := Container_Ports desired;
     Container_Requests := Container_Requests c; Container_Limits := Container_Limits c;
     Container_VolumeMounts := Container_VolumeMounts c;
     Container_LivenessProbe := Container_LivenessProbe desired;
     Container_ReadinessProbe := Container_ReadinessProbe desired;
     Container_StartupProbe := Container_StartupProbe desired;
     Container_SecurityContext := Container_SecurityContext c |}.

Definition templates_differ (existing desired : PodTemplateSpec) (ec dc : Container) (annotations : gmap string string) : bool :=
  let es := PodTemplateSpec_Spec existing in
  let ds := PodTemplateSpec_Spec desired in
  negb (bool_decide (PodSpec_Volumes es = PodSpec_Volumes ds)) ||
  negb (annotationsEqual (PodTemplateSpec_Annotations existing) annotations) ||
  negb (bool_decide (PodTemplateSpec_Labels existing = PodTemplateSpec_Labels desired)) ||
  negb (securityContextsEqual (PodSpec_SecurityContext es) (PodSpec_SecurityContext ds)
          (Container_SecurityContext ec) (Container_SecurityContext dc)).

Definition assign_template (existing desired : PodTemplateSpec) (annotations : gmap string string) (cs : list Container) : PodTemplateSpec :=
  with_template (PodTemplateSpec_Labels desired) annotations
    (with_containers cs (PodSpec_Volumes (PodTemplateSpec_Spec desired))
       (PodSpec_SecurityContext (PodTemplateSpec_Spec desired)) (PodTemplateSpec_Spec existing)).

Definition no_containers (which kind : string) (m : ObjectMeta) : error :=
  Errorf (which +:+ " " +:+ kind +:+ " %s/%s has no containers") [meta_Namespace m; meta_Name m].

(** The function that is retried on a Deployment. *)
Definition mutate_deployment (desired : Deployment) (autoRedeploy : bool) (existing : Deployment) : Deployment * (error + bool) :=
  match PodSpec_Containers (PodTemplateSpec_Spec (dep_Template desired)) with
  | [] => (existing, inl (no_containers "desired" "Deployment" (dep_meta desired)))
  | dc :: _ =>
    let et := dep_Template existing in
    let dt := dep_Template desired in
    let '(annotations, annotationsChanged) :=
      mergeManagedAnnotations (meta_Annotations (dep_meta existing)) (meta_Annotations (dep_meta desired)) in
    match PodSpec_Containers (PodTemplateSpec_Spec et) with
    | [] => (existing, inl (no_containers "existing" "Deployment" (dep_meta desired)))
    | ec :: others =>
      let podAnnotations :=
        template_annotations (PodTemplateSpec_Annotations dt) (PodTemplateSpec_Annotations et)
          (negb autoRedeploy && String.eqb (Container_Image ec) (Container_Image dc)) in
      let needsUpdate :=
        containers_differ ec dc || probes_differ ec dc ||
        negb (bool_decide (Container_Ports ec = Container_Ports dc)) ||
        negb (bool_decide (dep_Replicas existing = dep_Replicas desired)) ||
        negb (bool_decide (dep_ProgressDeadlineSeconds existing = dep_ProgressDeadlineSeconds desired)) ||
        annotationsChanged || templates_differ et dt ec dc podAnnotations in
      if negb needsUpdate then (existing, inr false)
      else
        ({| dep_meta := with_annotations annotations (dep_meta existing);
            dep_Replicas := dep_Replicas desired; dep_Strategy := dep_Strategy existing; dep_Selector := dep_Selector existing;
            dep_Template := assign_template et dt podAnnotations (assign_serving ec dc :: others);
            dep_ProgressDeadlineSeconds := dep_ProgressDeadlineSeconds desired; dep_Status := dep_Status existing |}, inr true)
    end
  end.

(** The function that is retried on a CronJob. *)
Definition mutate_cronjob (desired : CronJob) (autoRedeploy : bool) (existing : CronJob) : CronJob * (error + bool) :=
  match PodSpec_Containers (PodTemplateSpec_Spec (cron_Template desired)) with
  | [] => (existing, inl (no_containers "desired" "CronJob" (cron_meta desired)))
  | dc :: _ =>
    let et := cron_Template existing in
    let dt := cron_Template desired in
    match PodSpec_Containers (PodTemplateSpec_Spec et) with
    | [] => (existing, inl (no_containers "existing" "CronJob" (cron_meta desired)))
    | ec :: others =>
      let podAnnotations :=
        template_annotations (PodTemplateSpec_Annotations dt) (PodTemplateSpec_Annotations et)
          (negb autoRedeploy && String.eqb (Container_Image ec) (Container_Image dc)) in
      let '(annotations, annotationsChanged) :=
        mergeManagedAnnotations (meta_Annotations (cron_meta existing)) (meta_Annotations (cron_meta desired)) in
      let needsUpdate :=
        containers_differ ec dc ||
        negb (String.eqb (cron_Schedule existing) (cron_Schedule desired)) ||
        negb (String.eqb (cron_ConcurrencyPolicy existing) (cron_ConcurrencyPolicy desired)) ||
        annotationsChanged || templates_differ et dt ec dc podAnnotations in
      if negb needsUpdate then (existing, inr false)
      else
        ({| cron_meta := with_annotations annotations (cron_meta existing);
            cron_Schedule := cron_Schedule desired; cron_ConcurrencyPolicy := cron_ConcurrencyPolicy desired;
            cron_JobLabels := cron_JobLabels existing; cron_JobAnnotations := cron_JobAnnotations existing;
            cron_Template := assign_template et dt podAnnotations (assign_container ec dc :: others) |}, inr true)
    end
  end.
End mutate.

Definition concurrency_policy (env : Environment) : string :=
  if String.eqb (Environment_ConcurrencyPolicy env) ConcurrencyPolicyForbid then "Forbid"
  else if String.eqb (Environment_ConcurrencyPolicy env) ConcurrencyPolicyReplace then "Replace"
  else "Allow".

Definition desired_cronjob (app : App) (env : Environment) (envNs credentialsHash envHash : string)
    (labels : gmap string string) (c : Container) : CronJob :=
  let podAnno := pod_annotations env credentialsHash envHash in
  {| cron_meta := object_meta envNs (cronJobName (app_name app)) labels (stampManagedAnnotations (Environment_Annotations env));
     cron_Schedule := Environment_Schedule env; cron_ConcurrencyPolicy := concurrency_policy env;
     cron_JobLabels := labels; cron_JobAnnotations := podAnno;
     cron_Template := with_template labels podAnno
       {| PodSpec_ServiceAccountName := app_name app; PodSpec_RestartPolicy := "OnFailure"; PodSpec_Containers := [c];
          PodSpec_Volumes := pod_volumes app env; PodSpec_SecurityContext := (workloadSecurityContexts app).1 |} |}.

Section workloads.
Context {W : Type} (R : MapRange) {Q : Quantities} {KR : KubeRetry W} {CP : KubeClient W PlatformConfig} {CS : KubeClient W Secret}.

Definition hashEnvSecretData (appName envNs : string) : E W string := λ w,
  let '(w, hash) := EnvHash R appName envNs w in (w, inr hash).

Section deployments.
Context {CD : KubeClient W Deployment} {DD : KubeDelete W Deployment}.

Definition reconcileDeployment (app : App) (env : Environment) (envNs image credentialsHash : string) (autoRedeploy : bool) : E W unit :=
  envHash ← hashEnvSecretData (app_name app) envNs;
  c ← base_container app env image;
  with_app_labels app (Environment_Name env) (λ labels,
    let desired := desired_deployment app env envNs credentialsHash envHash labels (serving app env image c) in
    let key := (envNs, deploymentName (app_name app)) in
    upsert (Obj := Deployment) "Deployment" key (run (kcreate desired)) (λ existing,
      if deploymentSelectorMismatch existing desired
      then wrapping "delete Deployment with stale selector: %w" [] (run (kdelete Deployment (obj_key existing)))
      else settle "Deployment" key (mutate_deployment desired autoRedeploy))).
End deployments.

Section cronjobs.
Context {CC : KubeClient W CronJob}.

Definition reconcileCronJob (app : App) (env : Environment) (envNs image credentialsHash : string) (autoRedeploy : bool) : E W unit :=
  envHash ← hashEnvSecretData (app_name app) envNs;
  c ← base_container app env image;
  with_app_labels app (Environment_Name env) (λ labels,
    let desired := desired_cronjob app env envNs credentialsHash envHash labels c in
    let key := (envNs, cronJobName (app_name app)) in
    upsert (Obj := CronJob) "CronJob" key (run (kcreate desired)) (λ _, settle "CronJob" key (mutate_cronjob desired autoRedeploy))).
End cronjobs.
End workloads.

(** ** Services *)

Definition ServiceTypeExternalName : string := "ExternalName".

Definition desired_service (app : App) (env : Environment) (envNs : string) (labels : gmap string string) : Service :=
  {| svc_meta := object_meta envNs (serviceName (app_name app)) labels
       (stampManagedAnnotations (mergeAnnotations ∅ (Environment_Annotations env)));
     svc_Type := ""; svc_ExternalName := ""; svc_Selector := labels;
     svc_Ports := [{| ServicePort_Name := "http"; ServicePort_Port := appPort app; ServicePort_TargetPort := appPort app;
                      ServicePort_Protocol := "TCP" |}] |}.

Definition desired_external (app : App) (env : Environment) (envNs host : string) (labels : gmap string string) : Service :=
  {| svc_meta := object_meta envNs (serviceName (app_name app)) labels
       (stampManagedAnnotations (mergeAnnotations ∅ (Environment_Annotations env)));
     svc_Type := ServiceTypeExternalName; svc_ExternalName := host; svc_Selector := ∅; svc_Ports := [] |}.

(** The metadata the other kinds converge: the labels, and the annotations of the platform. *)
Definition converge_meta (existing desired : ObjectMeta) : ObjectMeta * bool :=
  let '(annotations, annotationsChanged) := mergeManagedAnnotations (meta_Annotations existing) (meta_Annotations desired) in
  let m := if annotationsChanged then with_annotations annotations existing else existing in
  if bool_decide (meta_Labels existing = meta_Labels desired) then (m, annotationsChanged)
  else (with_labels (meta_Labels desired) m, true).

Definition mutate_service (desired existing : Service) : Service * (error + bool) :=
  let '(m, changed) := converge_meta (svc_meta existing) (svc_meta desired) in
  let selector := bool_decide (svc_Selector existing = svc_Selector desired) in
  let ports := bool_decide (svc_Ports existing = svc_Ports desired) in
  ({| svc_meta := m; svc_Type := svc_Type existing; svc_ExternalName := svc_ExternalName existing;
      svc_Selector := if selector then svc_Selector existing else svc_Selector desired;
      svc_Ports := if ports then svc_Ports existing else svc_Ports desired |},
   inr (changed || negb selector || negb ports)).

Section services.
Context {W : Type} {KR : KubeRetry W} {CV : KubeClient W Service} {DV : KubeDelete W Service}.

Definition reconcileService (app : App) (env : Environment) (envNs : string) : E W unit :=
  with_app_labels app (Environment_Name env) (λ labels,
    let desired := desired_service app env envNs labels in
    let key := (envNs, serviceName (app_name app)) in
    let update := settle "Service" key (mutate_service desired) in
    upsert (Obj := Service) "Service" key (create_or desired update (Wrapf "create service: %w" [])) (λ _, update)).

(** The host is dereferenced without a check: the caller has seen that it is set. *)
Definition external_host (app : App) : string :=
  match AppSource_External (AppSpec_Source (App_Spec app)) with Some e => ExternalSource_Host e | None => "" end.

Definition reconcileExternalNameService (app : App) (env : Environment) (envNs : string) : E W unit :=
  with_app_labels app (Environment_Name env) (λ labels,
    let desired := desired_external app env envNs (external_host app) labels in
    upsert (Obj := Service) "Service" (envNs, serviceName (app_name app)) (run (kcreate desired)) (λ existing,
      if negb (String.eqb (svc_Type existing) ServiceTypeExternalName) then
        _ ← wrapping "delete service for type change: %w" [] (run (kdelete Service (obj_key existing)));
        run (kcreate desired)
      else
        run (kupdate
          {| svc_meta := with_annotations
               (mergeManagedAnnotations (meta_Annotations (svc_meta existing)) (meta_Annotations (svc_meta desired))).1
               (svc_meta existing);
             svc_Type := svc_Type existing; svc_ExternalName := svc_ExternalName desired;
             svc_Selector := svc_Selector existing; svc_Ports := svc_Ports existing |}))).
End services.

(** ** Ingresses *)

Definition ExternalDNSHostnameAnnotation : string := "external-dns.alpha.kubernetes.io/hostname".
Definition CertManagerClusterIssuerAnnotation : string := "cert-manager.io/cluster-issuer".

(** [annotationProvider]; without a reader the configuration is not read. *)
Record AnnotationProviderConfig := {
  ap_ClassName : string; ap_DefaultClusterIssuer : string; ap_Reader : bool;
}.

Section ingress.
Context {W : Type} {KR : KubeRetry W} {CP : KubeClient W PlatformConfig} {CI : KubeClient W Ingress}.

Definition resolveClusterIssuer (p : AnnotationProviderConfig) (w : W) : W * string :=
  if ap_Reader p then
    match kget (Obj := PlatformConfig) ("", "platform") w with
    | (w, inr pc) =>
      let issuer := TLSConfig_CertManagerClusterIssuer (PlatformConfigSpec_TLS (PlatformConfig_Spec pc)) in
      (w, if String.eqb issuer "" then ap_DefaultClusterIssuer p else issuer)
    | (w, inl _) => (w, ap_DefaultClusterIssuer p)
    end
  else (w, ap_DefaultClusterIssuer p).

Definition provider_annotations (p : AnnotationProviderConfig) (hostnames : list string) (w : W) : W * gmap string string :=
  let out : gmap string string := match hostnames with [] => ∅ | _ => {[ExternalDNSHostnameAnnotation := join "," hostnames]} end in
  let '(w, issuer) := resolveClusterIssuer p w in
  (w, if String.eqb issuer "" then out else <[CertManagerClusterIssuerAnnotation := issuer]> out).

(** The annotations of the provider, and what the environment says about certificates. *)
Definition tls_annotations (env : Environment) (owned : gmap string string) : gmap string string :=
  match Environment_TLS env with
  | None => owned
  | Some tls =>
    if negb (String.eqb (EnvTLSConfig_SecretName tls) "") then delete CertManagerClusterIssuerAnnotation owned
    else if negb (String.eqb (EnvTLSConfig_ClusterIssuer tls) "")
    then <[CertManagerClusterIssuerAnnotation := EnvTLSConfig_ClusterIssuer tls]> owned
    else owned
  end.

Definition ingress_hosts (env : Environment) : list string := Environment_Domain env :: Environment_CustomDomains env.

Definition ingress_tls_name (app : App) (env : Environment) : string :=
  match Environment_TLS env with
  | Some tls => if String.eqb (EnvTLSConfig_SecretName tls) "" then tlsSecretName (app_name app) else EnvTLSConfig_SecretName tls
  | None => tlsSecretName (app_name app)
  end.

Definition desired_ingress (provider : option AnnotationProviderConfig) (app : App) (env : Environment) (envNs : string)
    (labels owned : gmap string string) : Ingress :=
  {| ing_meta := object_meta envNs (ingressName (app_name app)) labels
       (stampManagedAnnotations (mergeAnnotations (tls_annotations env owned) (Environment_Annotations env)));
     ing_Spec :=
       {| IngressSpec_ClassName :=
            match provider with
            | Some p => if String.eqb (ap_ClassName p) "" then None else Some (ap_ClassName p)
            | None => None
            end;
          IngressSpec_Rules :=
            (λ host, {| IngressRule_Host := host; IngressRule_Path := "/"; IngressRule_PathType := "Prefix";
                        IngressRule_Service := serviceName (app_name app); IngressRule_Port := appPort app |}) <$> ingress_hosts env;
          IngressSpec_TLS := [{| IngressTLS_Hosts := ingress_hosts env; IngressTLS_SecretName := ingress_tls_name app env |}] |} |}.

Definition mutate_ingress (desired existing : Ingress) : Ingress * (error + bool) :=
  let same := bool_decide (ing_Spec existing = ing_Spec desired) in
  let '(m, changed) := converge_meta (ing_meta existing) (ing_meta desired) in
  ({| ing_meta := m; ing_Spec := if same then ing_Spec existing else ing_Spec desired |}, inr (negb same || changed)).

Definition reconcileIngress (provider : option AnnotationProviderConfig) (app : App) (env : Environment) (envNs : string) : E W unit := λ w,
  let '(w, owned) :=
    match provider with Some p => provider_annotations p (ingress_hosts env) w | None => (w, ∅) end in
  with_app_labels app (Environment_Name env) (λ labels,
    let desired := desired_ingress provider app env envNs labels owned in
    let key := (envNs, ingressName (app_name app)) in
    upsert (Obj := Ingress) "Ingress" key (run (kcreate desired)) (λ _, settle "Ingress" key (mutate_ingress desired))) w.
End ingress.

(** ** Service accounts *)

Definition imagePullSecretsEqual (a b : list string) : bool := bool_decide (a = b).

Definition pull_secrets (registry : option string) (app : App) : list string :=
  let first := match registry with Some ref => if String.eqb ref "" then [] else [ref] | None => [] end in
  let ref := AppSource_PullSecretRef (AppSpec_Source (App_Spec app)) in
  if negb (String.eqb ref "") && negb (bool_decide (ref ∈ first)) then first ++ [ref] else first.

Definition mutate_account (desired existing : ServiceAccount) : ServiceAccount * (error + bool) :=
  let labels := bool_decide (meta_Labels (sa_meta existing) = meta_Labels (sa_meta desired)) in
  let secrets := imagePullSecretsEqual (sa_ImagePullSecrets existing) (sa_ImagePullSecrets desired) in
  ({| sa_meta := if labels then sa_meta existing else with_labels (meta_Labels (sa_meta desired)) (sa_meta existing);
      sa_ImagePullSecrets := if secrets then sa_ImagePullSecrets existing else sa_ImagePullSecrets desired |},
   inr (negb labels || negb secrets)).

Section accounts.
Context {W : Type} {KR : KubeRetry W} {CA : KubeClient W ServiceAccount}.

(** [registry] is the pull secret of the registry backend, if there is a backend. *)
Definition reconcileServiceAccount (registry : option string) (app : App) (envNs envName : string) : E W unit :=
  with_app_labels app envName (λ labels,
    let desired := {| sa_meta := object_meta envNs (app_name app) labels ∅; sa_ImagePullSecrets := pull_secrets registry app |} in
    let key := (envNs, app_name app) in
    upsert (Obj := ServiceAccount) "ServiceAccount" key (run (kcreate desired)) (λ existing,
      if bool_decide (meta_Labels (sa_meta existing) = meta_Labels (sa_meta desired)) &&
         imagePullSecretsEqual (sa_ImagePullSecrets existing) (sa_ImagePullSecrets desired)
      then mret tt
      else settle "ServiceAccount" key (mutate_account desired))).
End accounts.

(** ** Volume claims *)

Definition claim_annotations (app : App) (envName : string) : gmap string string :=
  fold_left (λ anno env, if String.eqb (Environment_Name env) envName then Environment_Annotations env ∪ anno else anno)
    (AppSpec_Environments (App_Spec app)) ∅.

Definition access_mode (vol : VolumeSpec) : string :=
  if String.eqb (VolumeSpec_AccessMode vol) "" then "ReadWriteOnce" else VolumeSpec_AccessMode vol.

Definition desired_claim (app : App) (envNs envName : string) (labels : gmap string string) (vol : VolumeSpec) : PersistentVolumeClaim :=
  {| pvc_meta := object_meta envNs (pvcName (app_name app) (VolumeSpec_Name vol)) labels
       (stampManagedAnnotations (claim_annotations app envName));
     pvc_AccessModes := [access_mode vol]; pvc_Requests := {["storage" := VolumeSpec_Size vol]};
     pvc_StorageClassName := if String.eqb (VolumeSpec_StorageClass vol) "" then None else Some (VolumeSpec_StorageClass vol) |}.

Section claims.
Context {W : Type} {Q : Quantities} {KR : KubeRetry W} {CC : KubeClient W PersistentVolumeClaim}.

(** What cannot be changed on a claim. *)
Definition immutable_claim (vol : VolumeSpec) (existing : PersistentVolumeClaim) : option error :=
  match pvc_AccessModes existing with
  | mode :: _ =>
    if negb (String.eqb mode (access_mode vol))
    then Some (Errorf "volume %q: accessMode is immutable on an existing PVC (has %s, spec requests %s); delete the volume to recreate it"
                 [VolumeSpec_Name vol; mode; access_mode vol])
    else None
  | [] => None
  end.

Definition immutable_class (vol : VolumeSpec) (existing : PersistentVolumeClaim) : option error :=
  match pvc_StorageClassName existing with
  | Some class =>
    if negb (String.eqb (VolumeSpec_StorageClass vol) "") && negb (String.eqb class (VolumeSpec_StorageClass vol))
    then Some (Errorf "volume %q: storageClass is immutable on an existing PVC (has %s, spec requests %s); delete the volume to recreate it"
                 [VolumeSpec_Name vol; class; VolumeSpec_StorageClass vol])
    else None
  | None => None
  end.

Definition mutate_claim (desired : PersistentVolumeClaim) (vol : VolumeSpec) (existing : PersistentVolumeClaim)
    : PersistentVolumeClaim * (error + bool) :=
  match immutable_claim vol existing with
  | Some err => (existing, inl err)
  | None =>
    match immutable_class vol existing with
    | Some err => (existing, inl err)
    | None =>
      let resized := negb (Quantity_Cmp (VolumeSpec_Size vol) (default "0" (pvc_Requests existing !! "storage")) =? 0)%Z in
      let '(m, changed) := converge_meta (pvc_meta existing) (pvc_meta desired) in
      ({| pvc_meta := m; pvc_AccessModes := pvc_AccessModes existing;
          pvc_Requests := if resized then <["storage" := VolumeSpec_Size vol]> (pvc_Requests existing) else pvc_Requests existing;
          pvc_StorageClassName := pvc_StorageClassName existing |}, inr (resized || changed))
    end
  end.

Definition reconcile_claim (app : App) (envNs envName : string) (vol : VolumeSpec) : E W unit :=
  with_app_labels app envName (λ labels,
    let desired := desired_claim app envNs envName labels vol in
    let key := (envNs, pvcName (app_name app) (VolumeSpec_Name vol)) in
    let update := settle "PersistentVolumeClaim" key (mutate_claim desired vol) in
    upsert (Obj := PersistentVolumeClaim) "PersistentVolumeClaim" key (create_or desired update (λ err, err)) (λ _, update)).

Definition reconcilePVCs (app : App) (envNs envName : string) : E W unit :=
  for_each (reconcile_claim app envNs envName) (AppSpec_Storage (App_Spec app)).
End claims.

(** ** Files *)

Definition not_ours (what name namespace aim : string) : error :=
  Errorf (what +:+ " %q already exists in namespace %q and is not managed by Mortise; rename or delete it to let Mortise " +:+ aim)
    [name; namespace].

Definition mutate_file (desired existing : ConfigMap) : ConfigMap * (error + bool) :=
  if negb (isMortiseManaged existing)
  then (existing, inl (not_ours "ConfigMap" (meta_Name (cm_meta desired)) (meta_Namespace (cm_meta desired)) "manage configFiles"))
  else
    let data := bool_decide (cm_Data existing = cm_Data desired) in
    let labels := bool_decide (meta_Labels (cm_meta existing) = meta_Labels (cm_meta desired)) in
    ({| cm_meta := if labels then cm_meta existing else with_labels (meta_Labels (cm_meta desired)) (cm_meta existing);
        cm_Data := if data then cm_Data existing else cm_Data desired |}, inr (negb data || negb labels)).

Section files.
Context {W : Type} {KR : KubeRetry W} {CM : KubeClient W ConfigMap} {LM : KubeListIn W ConfigMap} {DM : KubeDelete W ConfigMap}.

Definition reconcile_file (app : App) (envNs envName : string) '((i, cf) : nat * ConfigFile) : E W unit :=
  let cmName := configMapName (app_name app) i in
  let fileName := filepath_Base (ConfigFile_Path cf) in
  if has_suffix "/" (ConfigFile_Path cf)
  then throw (Errorf "configFiles[%d].path %q must not end in '/'" [itoa (Z.of_nat i); ConfigFile_Path cf])
  else if String.eqb fileName "" || String.eqb fileName "." || String.eqb fileName "/"
  then throw (Errorf "configFiles[%d].path %q does not yield a valid filename" [itoa (Z.of_nat i); ConfigFile_Path cf])
  else
    with_app_labels app envName (λ labels,
      let desired := {| cm_meta := object_meta envNs cmName labels ∅; cm_Data := {[fileName := ConfigFile_Content cf]} |} in
      let key := (envNs, cmName) in
      λ w,
      match kget (Obj := ConfigMap) key w with
      | (w, inl err) => if IsNotFound err then run (kcreate desired) w else (w, inl err)
      | (w, inr existing) =>
        if negb (isMortiseManaged existing)
        then (w, inl (not_ours "ConfigMap" cmName envNs "manage configFiles"))
        else run (UpdateWithConflictRetry key (mutate_file desired)) w
      end).

(** Files that are no longer declared. *)
Definition delete_file (app : App) (expected : list string) (cm : ConfigMap) : E W unit := λ w,
  let name := meta_Name (cm_meta cm) in
  if negb (has_prefix (app_name app +:+ "-config-") name) || bool_decide (name ∈ expected) || negb (isMortiseManaged cm)
  then (w, inr tt)
  else
    match kdelete ConfigMap (obj_key cm) w with
    | (w, Some err) => if IsNotFound err then (w, inr tt) else (w, inl (Wrapf "delete orphan ConfigMap %q: %w" [name] err))
    | (w, None) => (w, inr tt)
    end.

Definition indexed {A} (l : list A) : list (nat * A) := imap pair l.

Definition file_names (app : App) : list string :=
  (λ p : nat * ConfigFile, configMapName (app_name app) p.1) <$> indexed (AppSpec_ConfigFiles (App_Spec app)).

Definition reconcileConfigMaps (app : App) (envNs envName : string) : E W unit :=
  _ ← for_each (reconcile_file app envNs envName) (indexed (AppSpec_ConfigFiles (App_Spec app)));
  owned ← wrapping "list owned ConfigMaps: %w" []
            (klist_in (Obj := ConfigMap) envNs {[AppNameLabel := app_name app; ManagedByLabel := ManagedByValue]});
  for_each (delete_file app (file_names app)) owned.
End files.

(** ** Credentials *)

Definition credentialsSecretName (appName : string) : string := appName +:+ "-credentials".

Definition validateCredential (c : Credential) : option error :=
  match Credential_ValueFrom c with
  | Some src =>
    match CredentialSource_SecretRef src with
    | Some ref =>
      if negb (String.eqb (Credential_Value c) "")
      then Some (Errorf "credential %q: value and valueFrom are mutually exclusive" [Credential_Name c])
      else if String.eqb (SecretKeyRef_Name ref) "" || String.eqb (SecretKeyRef_Key ref) ""
      then Some (Errorf "credential %q: valueFrom.secretRef requires name and key" [Credential_Name c])
      else None
    | None => None
    end
  | None => None
  end.

Definition mutate_credentials (desired existing : Secret) : Secret * (error + bool) :=
  if negb (isMortiseManaged existing)
  then (existing, inl (not_ours "secret" (meta_Name (sec_meta desired)) (meta_Namespace (sec_meta desired)) "manage credentials"))
  else
    let labels := bool_decide (sec_Labels existing = sec_Labels desired) in
    let type := String.eqb (sec_Type existing) (sec_Type desired) in
    let data := bool_decide (sec_Data existing = sec_Data desired) in
    ({| sec_meta := if labels then sec_meta existing else with_labels (sec_Labels desired) (sec_meta existing);
        sec_Type := if type then sec_Type existing else sec_Type desired;
        sec_Data := if data then sec_Data existing else sec_Data desired |},
     inr (negb labels || negb type || negb data)).

Section credentials.
Context {W : Type} (R : MapRange) {KR : KubeRetry W} {CS : KubeClient W Secret} {DS : KubeDelete W Secret}.

Definition hashCredentialData (data : gmap string string) : string := HashData R data.

(** [None]: neither a value nor a reference. *)
Definition resolveCredential (namespace : string) (c : Credential) : E W (option string) := λ w,
  if negb (String.eqb (Credential_Value c) "") then (w, inr (Some (Credential_Value c)))
  else
    match Credential_ValueFrom c with
    | Some src =>
      match CredentialSource_SecretRef src with
      | Some ref =>
        match kget (Obj := Secret) (namespace, SecretKeyRef_Name ref) w with
        | (w, inl err) =>
          (w, inl (Wrapf "credential %q: read source Secret %s/%s: %w" [Credential_Name c; namespace; SecretKeyRef_Name ref] err))
        | (w, inr src) =>
          match sec_Data src !! SecretKeyRef_Key ref with
          | Some val => (w, inr (Some val))
          | None => (w, inl (Errorf "credential %q: key %q not present in Secret %s/%s"
                               [Credential_Name c; SecretKeyRef_Key ref; namespace; SecretKeyRef_Name ref]))
          end
        end
      | None => (w, inr None)
      end
    | None => (w, inr None)
    end.

Fixpoint render_credentials (namespace : string) (l : list Credential) (data : gmap string string) : E W (gmap string string) :=
  match l with
  | [] => mret data
  | c :: l =>
    match validateCredential c with
    | Some err => throw err
    | None =>
      value ← resolveCredential namespace c;
      render_credentials namespace l (match value with Some v => <[Credential_Name c := v]> data | None => data end)
    end
  end.

(** Without credentials the Secret goes, if it is ours. *)
Definition remove_credentials (key : NamespacedName) : E W string := λ w,
  match kget (Obj := Secret) key w with
  | (w, inl err) => (w, if IsNotFound err then inr "" else inl (Wrapf "get credentials secret: %w" [] err))
  | (w, inr existing) =>
    if negb (isMortiseManaged existing) then (w, inr "")
    else
      match kdelete Secret (obj_key existing) w with
      | (w, Some err) => (w, if IsNotFound err then inr "" else inl (Wrapf "delete credentials secret: %w" [] err))
      | (w, None) => (w, inr "")
      end
  end.

Definition store_credentials (key : NamespacedName) (desired : Secret) : E W unit := λ w,
  match kget (Obj := Secret) key w with
  | (w, inl err) =>
    if IsNotFound err then wrapping "create credentials secret: %w" [] (run (kcreate desired)) w
    else (w, inl (Wrapf "get credentials secret: %w" [] err))
  | (w, inr existing) =>
    if negb (isMortiseManaged existing)
    then (w, inl (not_ours "secret" key.2 key.1 "manage credentials"))
    else wrapping "update credentials secret: %w" [] (run (UpdateWithConflictRetry key (mutate_credentials desired))) w
  end.

Definition reconcileCredentialsSecret (app : App) (envNs envName : string) : E W string :=
  let key := (envNs, credentialsSecretName (app_name app)) in
  match AppSpec_Credentials (App_Spec app) with
  | [] => remove_credentials key
  | credentials =>
    data ← render_credentials envNs credentials ∅;
    with_app_labels app envName (λ labels,
      let desired := {| sec_meta := object_meta envNs key.2 labels ∅; sec_Type := "Opaque"; sec_Data := data |} in
      _ ← store_credentials key desired;
      mret (hashCredentialData data))
  end.
End credentials.
