(* ===== verification/AppWorkloadsFacts.v ===== *)
(** * Workloads of apps: what is touched

    Whatever others do meanwhile, the functions of [AppWorkloads] write only what the platform
    made, and of its annotations only their own. *)

From S2P Require Import Prelude GoStrings GoText Kube Core Api KubeStatus Effects Constants BuildRun ApiServer EnvStore AppAnnotations AppGc Workloads AppPods AppWorkloads.

(** ** Writes *)

(** A rewritten object: its labels change, and its annotations by a merge. *)
Definition rewritten {Obj} {O : KubeObject Obj} (old new : Obj) : Prop :=
  ∃ labels annotations, obj_meta new = with_labels labels (with_annotations annotations (obj_meta old)) ∧
    (annotations = meta_Annotations (obj_meta old) ∨
     ∃ desired, annotations = (mergeManagedAnnotations (meta_Annotations (obj_meta old)) desired).1).

Lemma rewritten_key {Obj} {O : KubeObject Obj} (old new : Obj) : rewritten old new → obj_key new = obj_key old.
Proof. intros (l & a & H & _). unfold obj_key. by rewrite H. Qed.

Section own.
Context {W Obj : Type} {O : KubeObject Obj} {OO : KubeObjectOk Obj} {C : KubeClient W Obj} {OK : KubeClientOk W Obj}.

(** Moves that writes of the platform, and of everybody else, stay within: at the keys the
    app may use, objects of the platform are created and rewritten. *)
Class OwnWrites (at_key : NamespacedName → Prop) (I : relation W) : Prop := {
  ow_hist w w' : I w w' → khist (Obj := Obj) w w';
  ow_reads :: KubeReads W Obj I;
  ow_create (o : Obj) w : at_key (obj_key o) → isMortiseManaged o = true → I w (kcreate o w).1;
  ow_update (o new : Obj) w :
    at_key (obj_key o) → read_ok (obj_key o) o w → isMortiseManaged o = true → rewritten o new → I w (kupdate new w).1;
}.

Class OwnDeletes {D : KubeDelete W Obj} (at_key : NamespacedName → Prop) (I : relation W) : Prop :=
  ow_delete (o : Obj) w :
    at_key (obj_key o) → read_ok (obj_key o) o w → isMortiseManaged o = true → I w (kdelete Obj (obj_key o) w).1.

Context (at_key : NamespacedName → Prop) (I : relation W) {PI : PreOrder I} {OW : OwnWrites at_key I} {KR : KubeRetry W} {KRO : KubeRetryOk W}.

Lemma get_read key w w' o : kget key w = (w', inr o) → obj_key o = key ∧ read_ok key o w'.
Proof.
  intros H. apply kget_spec in H as [_ H]. destruct (H o eq_refl) as (w0 & H0 & Hs).
  split; [by apply (kstore_key w0)|by exists w0].
Qed.

Lemma unmanaged_conflict (o : Obj) kind : conflictIfUnmanaged o kind = None → isMortiseManaged o = true.
Proof. unfold conflictIfUnmanaged. by destruct (isMortiseManaged o). Qed.

Lemma retried_keeps key mutate :
  at_key key →
  (∀ o new, mutate o = (new, inr true) → isMortiseManaged o = true ∧ rewritten o new) →
  keeps I (run (UpdateWithConflictRetry key mutate)).
Proof.
  intros Hk Hm. apply keeps_run. intros w. unfold UpdateWithConflictRetry. rewrite retry_on_conflict_spec.
  refine (keeps_retry I _ _ _ w). intros w1. pose proof (kget_reads (I := I) key w1) as Hg.
  destruct (kget key w1) as [w2 [err|o]] eqn:Eg; cbn [fst] in Hg; [done|].
  destruct (mutate o) as [new [err|[]]] eqn:Em; [done| |done].
  destruct (get_read _ _ _ _ Eg) as [Hkey Hr]. destruct (Hm o new Em) as [Hman Hnew].
  etrans; [exact Hg|]. subst key. by apply (ow_update o).
Qed.

Lemma settle_keeps kind key mutate :
  at_key key → (∀ o new, mutate o = (new, inr true) → rewritten o new) → keeps I (settle kind key mutate).
Proof.
  intros Hk Hm. apply retried_keeps; [done|]. intros o new. unfold guarding.
  destruct (conflictIfUnmanaged o kind) eqn:Ec; [done|]. intros H. split; [by eapply unmanaged_conflict|by apply Hm].
Qed.

Lemma upsert_keeps kind key absent found :
  at_key key → keeps I absent →
  (∀ o w, obj_key o = key → read_ok key o w → isMortiseManaged o = true → I w (found o w).1) →
  keeps I (upsert kind key absent found).
Proof.
  intros Hk Ha Hf w. unfold upsert. pose proof (kget_reads (I := I) key w) as Hg.
  destruct (kget key w) as [w1 [err|o]] eqn:Eg; cbn [fst] in Hg.
  - destruct (IsNotFound err); [|done]. etrans; [exact Hg|apply Ha].
  - destruct (conflictIfUnmanaged o kind) eqn:Ec; [done|]. destruct (get_read _ _ _ _ Eg) as [Hkey Hr].
    etrans; [exact Hg|]. apply Hf; [done|done|by eapply unmanaged_conflict].
Qed.

Lemma created_keeps (o : Obj) : at_key (obj_key o) → isMortiseManaged o = true → keeps I (run (kcreate o)).
Proof. intros Hk Hm. apply keeps_run. intros w. by apply ow_create. Qed.

Lemma create_or_keeps (o : Obj) update fail :
  at_key (obj_key o) → isMortiseManaged o = true → keeps I update → keeps I (create_or o update fail).
Proof.
  intros Hk Hm Hu w. unfold create_or. pose proof (ow_create (I := I) o w Hk Hm) as Hc.
  destruct (kcreate o w) as [w1 [err|]]; cbn [fst] in Hc; [|done]. destruct (IsAlreadyExists err); [|done].
  etrans; [exact Hc|apply Hu].
Qed.
End own.

Lemma wrapping_state {W A} fmt args (m : E W A) w : (wrapping fmt args m w).1 = (m w).1.
Proof. unfold wrapping. by destruct (m w) as [w1 [err|a]]. Qed.

Lemma run_state {W} (f : W → W * option error) w : (run f w).1 = (f w).1.
Proof. unfold run. by destruct (f w) as [w1 [err|]]. Qed.

(** ** Metadata *)

Lemma appLabels_managed app env labels : appLabels app env = Some labels → map_get labels ManagedByLabel = ManagedByValue.
Proof.
  unfold appLabels. destruct (ProjectFromControlNs (app_ns app)) as [p []]; [|done]. intros [= <-]. unfold map_get.
  destruct (String.eqb env "").
  - rewrite lookup_insert_ne by done. by rewrite lookup_insert_eq.
  - rewrite !lookup_insert_ne by done. by rewrite lookup_insert_eq.
Qed.

Lemma with_labels_keeps {W A} (I : relation W) `{!PreOrder I} app env (k : gmap string string → E W A) :
  (∀ labels, map_get labels ManagedByLabel = ManagedByValue → keeps I (k labels)) → keeps I (with_app_labels app env k).
Proof.
  intros Hk. unfold with_app_labels. destruct (appLabels app env) as [labels|] eqn:El; [by eapply Hk, appLabels_managed|].
  apply keeps_throw; apply _.
Qed.

Lemma meta_same (m : ObjectMeta) : m = with_labels (meta_Labels m) (with_annotations (meta_Annotations m) m).
Proof. by destruct m. Qed.

Lemma converge_rewrites existing desired :
  ∃ labels annotations, (converge_meta existing desired).1 = with_labels labels (with_annotations annotations existing) ∧
    (annotations = meta_Annotations existing ∨ ∃ d, annotations = (mergeManagedAnnotations (meta_Annotations existing) d).1).
Proof.
  unfold converge_meta. destruct (mergeManagedAnnotations _ _) as [a ch] eqn:Em.
  assert ((mergeManagedAnnotations (meta_Annotations existing) (meta_Annotations desired)).1 = a) as Ha by by rewrite Em.
  case_bool_decide; destruct ch; cbn [fst].
  - exists (meta_Labels existing), a. split; [by destruct existing|right; by eexists].
  - exists (meta_Labels existing), (meta_Annotations existing). split; [apply meta_same|by left].
  - exists (meta_Labels desired), a. split; [by destruct existing|right; by eexists].
  - exists (meta_Labels desired), (meta_Annotations existing). split; [by destruct existing|by left].
Qed.

(** ** The functions *)

Section touches.
Context {W : Type} (R : MapRange) {Q : Quantities} {KR : KubeRetry W} {KRO : KubeRetryOk W} {CP : KubeClient W PlatformConfig}
  {CS : KubeClient W Secret} {KS : KubeClientOk W Secret} {DS : KubeDelete W Secret}
  {CD : KubeClient W Deployment} {KD : KubeClientOk W Deployment} {DD : KubeDelete W Deployment}
  {CC : KubeClient W CronJob} {KC : KubeClientOk W CronJob}
  {CV : KubeClient W Service} {KV : KubeClientOk W Service} {DV : KubeDelete W Service}
  {CI : KubeClient W Ingress} {KI : KubeClientOk W Ingress}
  {CA : KubeClient W ServiceAccount} {KA : KubeClientOk W ServiceAccount}
  {CL : KubeClient W PersistentVolumeClaim} {KL : KubeClientOk W PersistentVolumeClaim}
  {CM : KubeClient W ConfigMap} {KM : KubeClientOk W ConfigMap} {LM : KubeListIn W ConfigMap} {DM : KubeDelete W ConfigMap}.

Definition named (envNs name : string) (k : NamespacedName) : Prop := k = (envNs, name).
Definition named_like (envNs : string) (name : string → Prop) (k : NamespacedName) : Prop := k.1 = envNs ∧ name k.2.
Definition is_claim (app : App) (name : string) : Prop := ∃ volume, name = pvcName (app_name app) volume.
Definition is_file (app : App) (name : string) : Prop := ∃ i, name = configMapName (app_name app) i.
Definition old_file (app : App) (envNs : string) (k : NamespacedName) : Prop :=
  (envNs = "" ∨ k.1 = envNs) ∧ has_prefix (app_name app +:+ "-config-") k.2 = true.

(** The moves of all kinds.  Configuration is only read. *)
Class WorkloadMoves (app : App) (envNs : string) (I : relation W) : Prop := {
  wm_preorder :: PreOrder I;
  wm_config :: KubeReads W PlatformConfig I;
  wm_deployments :: OwnWrites (Obj := Deployment) (named envNs (app_name app)) I;
  wm_deployments_deleted :: OwnDeletes (Obj := Deployment) (named envNs (app_name app)) I;
  wm_cronjobs :: OwnWrites (Obj := CronJob) (named envNs (app_name app)) I;
  wm_services :: OwnWrites (Obj := Service) (named envNs (app_name app)) I;
  wm_services_deleted :: OwnDeletes (Obj := Service) (named envNs (app_name app)) I;
  wm_ingresses :: OwnWrites (Obj := Ingress) (named envNs (app_name app)) I;
  wm_accounts :: OwnWrites (Obj := ServiceAccount) (named envNs (app_name app)) I;
  wm_claims :: OwnWrites (Obj := PersistentVolumeClaim) (named_like envNs (is_claim app)) I;
  wm_files :: OwnWrites (Obj := ConfigMap) (named_like envNs (is_file app)) I;
  wm_files_listed :: ListReads W ConfigMap I;
  wm_files_deleted :: OwnDeletes (Obj := ConfigMap) (old_file app envNs) I;
  wm_credentials :: OwnWrites (Obj := Secret) (named envNs (credentialsSecretName (app_name app))) I;
  wm_credentials_deleted :: OwnDeletes (Obj := Secret) (named envNs (credentialsSecretName (app_name app))) I;
}.

Context (app : App) (envNs : string) (I : relation W) {M : WorkloadMoves app envNs I}.

Lemma secret_reads : KubeReads W Secret I.
Proof. exact (ow_reads (OwnWrites := wm_credentials)). Qed.

Lemma hash_keeps appName : keeps I (hashEnvSecretData R appName envNs).
Proof.
  intros w. unfold hashEnvSecretData, EnvHash.
  assert (∀ l s, I s.1 (fold_left (envHash_step R envNs) l s).1) as Hf.
  { induction l as [|name l IH]; intros [w1 m]; cbn [fold_left fst]; [done|].
    etrans; [|apply IH]. unfold envHash_step. pose proof (kget_reads (KubeReads := secret_reads) (envNs, name) w1) as Hg.
    by destruct (kget (envNs, name) w1) as [w2 [err|s]]. }
  specialize (Hf (envSourceNames appName) (w, ∅)). by destruct (fold_left _ _ _) as [w' m].
Qed.

Lemma container_keeps env image : keeps I (base_container app env image).
Proof.
  intros w. unfold base_container, effectiveResources.
  pose proof (kget_reads (I := I) (Obj := PlatformConfig) ("", "platform") w) as Hg.
  repeat case_match; simplify_eq/=; done.
Qed.

Lemma object_managed {Obj} {O : KubeObject Obj} (o : Obj) ns name labels annotations :
  obj_meta o = object_meta ns name labels annotations → map_get labels ManagedByLabel = ManagedByValue →
  isMortiseManaged o = true ∧ obj_key o = (ns, name).
Proof. intros Ho Hl. unfold isMortiseManaged, obj_key. rewrite Ho. simpl. by rewrite Hl. Qed.

Lemma mutate_deployment_rewrites desired autoRedeploy o new :
  mutate_deployment desired autoRedeploy o = (new, inr true) → rewritten o new.
Proof.
  unfold mutate_deployment. destruct (PodSpec_Containers _) as [|dc l]; [done|].
  destruct (mergeManagedAnnotations _ _) as [a ch] eqn:Em. destruct (PodSpec_Containers (PodTemplateSpec_Spec (dep_Template o))); [done|].
  destruct (negb _); [done|]. intros [= <-]. exists (meta_Labels (dep_meta o)), a.
  split; [simpl; by destruct (dep_meta o)|]. right. exists (meta_Annotations (dep_meta desired)). change (obj_meta o) with (dep_meta o). by rewrite Em.
Qed.

Lemma mutate_cronjob_rewrites desired autoRedeploy o new :
  mutate_cronjob desired autoRedeploy o = (new, inr true) → rewritten o new.
Proof.
  unfold mutate_cronjob. destruct (PodSpec_Containers _) as [|dc l]; [done|].
  destruct (PodSpec_Containers (PodTemplateSpec_Spec (cron_Template o))); [done|].
  destruct (mergeManagedAnnotations _ _) as [a ch] eqn:Em.
  destruct (negb _); [done|]. intros [= <-]. exists (meta_Labels (cron_meta o)), a.
  split; [simpl; by destruct (cron_meta o)|]. right. exists (meta_Annotations (cron_meta desired)). change (obj_meta o) with (cron_meta o). by rewrite Em.
Qed.

(** Objects whose metadata converges. *)
Lemma converged_rewrites {Obj} {O : KubeObject Obj} (o new : Obj) desired :
  obj_meta new = (converge_meta (obj_meta o) desired).1 → rewritten o new.
Proof. intros H. destruct (converge_rewrites (obj_meta o) desired) as (l & a & Ha & Hor). exists l, a. by rewrite H. Qed.

Lemma relabelled {Obj} {O : KubeObject Obj} (o new : Obj) (b : bool) labels :
  obj_meta new = (if b then obj_meta o else with_labels labels (obj_meta o)) → rewritten o new.
Proof.
  intros H. exists (if b then meta_Labels (obj_meta o) else labels), (meta_Annotations (obj_meta o)).
  split; [|by left]. rewrite H. by destruct b, (obj_meta o).
Qed.

Lemma deployment_keeps env image credentialsHash autoRedeploy :
  keeps I (reconcileDeployment R app env envNs image credentialsHash autoRedeploy).
Proof.
  unfold reconcileDeployment. apply keeps_bind; [apply _|apply hash_keeps|intros h].
  apply keeps_bind; [apply _|apply container_keeps|intros c]. apply (with_labels_keeps I). intros labels Hl. cbv zeta.
  set (desired := desired_deployment _ _ _ _ _ _ _).
  assert (isMortiseManaged desired = true ∧ obj_key desired = (envNs, app_name app)) as [Hm Hk] by by eapply object_managed.
  apply (upsert_keeps (Obj := Deployment) (named envNs (app_name app)) I); [done|by apply (created_keeps (Obj := Deployment) (named envNs (app_name app)) I)|].
  intros o w Ho Hr Hman. destruct (deploymentSelectorMismatch o desired).
  - rewrite wrapping_state, run_state. apply (ow_delete (at_key := named envNs (app_name app))); [done|by rewrite Ho|done].
  - apply (settle_keeps (Obj := Deployment) (named envNs (app_name app)) I); [done|]. intros o1 new. apply mutate_deployment_rewrites.
Qed.

Lemma cronjob_keeps env image credentialsHash autoRedeploy :
  keeps I (reconcileCronJob R app env envNs image credentialsHash autoRedeploy).
Proof.
  unfold reconcileCronJob. apply keeps_bind; [apply _|apply hash_keeps|intros h].
  apply keeps_bind; [apply _|apply container_keeps|intros c]. apply (with_labels_keeps I). intros labels Hl. cbv zeta.
  set (desired := desired_cronjob _ _ _ _ _ _ _).
  assert (isMortiseManaged desired = true ∧ obj_key desired = (envNs, app_name app)) as [Hm Hk] by by eapply object_managed.
  apply (upsert_keeps (Obj := CronJob) (named envNs (app_name app)) I); [done|by apply (created_keeps (Obj := CronJob) (named envNs (app_name app)) I)|].
  intros o w Ho Hr Hman. apply (settle_keeps (Obj := CronJob) (named envNs (app_name app)) I); [done|]. intros o1 new. apply mutate_cronjob_rewrites.
Qed.

Lemma service_keeps env : keeps I (reconcileService app env envNs).
Proof.
  unfold reconcileService. apply (with_labels_keeps I). intros labels Hl. cbv zeta.
  set (desired := desired_service _ _ _ _). assert (isMortiseManaged desired = true ∧ obj_key desired = (envNs, app_name app)) as [Hm Hk] by by eapply object_managed.
  assert (keeps I (settle "Service" (envNs, serviceName (app_name app)) (mutate_service desired))) as Hu.
  { apply (settle_keeps (Obj := Service) (named envNs (app_name app)) I); [done|]. intros o new. unfold mutate_service.
    destruct (converge_meta _ _) as [m ch] eqn:Em. intros [= <- _]. apply (converged_rewrites _ _ (svc_meta desired)).
    exact (eq_sym (f_equal fst Em)). }
  apply (upsert_keeps (Obj := Service) (named envNs (app_name app)) I); [done|by apply (create_or_keeps (Obj := Service) (named envNs (app_name app)) I)|].
  intros o w _ _ _. apply Hu.
Qed.

Lemma external_service_keeps env : keeps I (reconcileExternalNameService app env envNs).
Proof.
  unfold reconcileExternalNameService. apply (with_labels_keeps I). intros labels Hl. cbv zeta.
  set (desired := desired_external _ _ _ _ _). assert (isMortiseManaged desired = true ∧ obj_key desired = (envNs, app_name app)) as [Hm Hk] by by eapply object_managed.
  assert (keeps I (run (kcreate desired))) as Hc by by apply (created_keeps (Obj := Service) (named envNs (app_name app)) I).
  apply (upsert_keeps (Obj := Service) (named envNs (app_name app)) I); [done|done|].
  intros o w Ho Hr Hman. destruct (negb _).
  - unfold mbind, E_bind. pose proof (ow_delete (at_key := named envNs (app_name app)) o w) as Hd.
    rewrite Ho in Hd. specialize (Hd eq_refl Hr Hman). rewrite <-Ho, <-(run_state (kdelete Service (obj_key o))) in Hd.
    rewrite <-(wrapping_state "delete service for type change: %w" []) in Hd.
    destruct (wrapping _ _ _ w) as [w1 [err|[]]]; cbn [fst] in Hd; [done|]. etrans; [exact Hd|apply Hc].
  - rewrite run_state. apply (ow_update o); [by rewrite Ho|by rewrite Ho|done|].
    exists (meta_Labels (svc_meta o)), (mergeManagedAnnotations (meta_Annotations (svc_meta o)) (meta_Annotations (svc_meta desired))).1.
    split; [simpl; by destruct (svc_meta o)|]. right. by eexists.
Qed.

Lemma ingress_keeps provider env : keeps I (reconcileIngress provider app env envNs).
Proof.
  intros w. unfold reconcileIngress.
  assert (I w (match provider with Some p => provider_annotations p (ingress_hosts env) w | None => (w, ∅) end).1) as Hp.
  { destruct provider as [p|]; [|done]. unfold provider_annotations, resolveClusterIssuer. destruct (ap_Reader p); [|done].
    pose proof (kget_reads (I := I) (Obj := PlatformConfig) ("", "platform") w) as Hg.
    by destruct (kget ("", "platform") w) as [w1 [err|pc]]. }
  destruct (match provider with Some _ => _ | None => _ end) as [w1 owned]. cbn [fst] in Hp. etrans; [exact Hp|].
  apply (with_labels_keeps I). intros labels Hl. cbv zeta.
  set (desired := desired_ingress _ _ _ _ _ _). assert (isMortiseManaged desired = true ∧ obj_key desired = (envNs, app_name app)) as [Hm Hk] by by eapply object_managed.
  apply (upsert_keeps (Obj := Ingress) (named envNs (app_name app)) I); [done|by apply (created_keeps (Obj := Ingress) (named envNs (app_name app)) I)|].
  intros o w2 _ _ _. apply (settle_keeps (Obj := Ingress) (named envNs (app_name app)) I); [done|]. intros o1 new. unfold mutate_ingress.
  destruct (converge_meta _ _) as [m ch] eqn:Em. intros [= <- _]. apply (converged_rewrites _ _ (ing_meta desired)).
  exact (eq_sym (f_equal fst Em)).
Qed.

Lemma account_keeps registry envName : keeps I (reconcileServiceAccount registry app envNs envName).
Proof.
  unfold reconcileServiceAccount. apply (with_labels_keeps I). intros labels Hl. cbv zeta.
  set (desired := {| sa_meta := _ |}). assert (isMortiseManaged desired = true ∧ obj_key desired = (envNs, app_name app)) as [Hm Hk] by by eapply object_managed.
  apply (upsert_keeps (Obj := ServiceAccount) (named envNs (app_name app)) I); [done|by apply (created_keeps (Obj := ServiceAccount) (named envNs (app_name app)) I)|].
  intros o w _ _ _. destruct (_ && _); [done|]. apply (settle_keeps (Obj := ServiceAccount) (named envNs (app_name app)) I); [done|].
  intros o1 new [= <- _]. by eapply relabelled.
Qed.

Lemma claims_keep envName : keeps I (reconcilePVCs app envNs envName).
Proof.
  unfold reconcilePVCs. apply keeps_for_each; [apply _|]. intros vol. unfold reconcile_claim.
  apply (with_labels_keeps I). intros labels Hl. cbv zeta.
  set (desired := desired_claim _ _ _ _ _). assert (isMortiseManaged desired = true ∧ obj_key desired = (envNs, pvcName (app_name app) (VolumeSpec_Name vol))) as [Hm Hk] by by eapply object_managed.
  assert (named_like envNs (is_claim app) (envNs, pvcName (app_name app) (VolumeSpec_Name vol))) as Hat by by split; [|eexists].
  assert (keeps I (settle "PersistentVolumeClaim" (envNs, pvcName (app_name app) (VolumeSpec_Name vol)) (mutate_claim desired vol))) as Hu.
  { apply (settle_keeps (Obj := PersistentVolumeClaim) (named_like envNs (is_claim app)) I); [done|]. intros o new. unfold mutate_claim.
    destruct (immutable_claim vol o); [done|]. destruct (immutable_class vol o); [done|].
    destruct (converge_meta _ _) as [m ch] eqn:Em. intros [= <- _]. apply (converged_rewrites _ _ (pvc_meta desired)).
    exact (eq_sym (f_equal fst Em)). }
  apply (upsert_keeps (Obj := PersistentVolumeClaim) (named_like envNs (is_claim app)) I); [done|by apply (create_or_keeps (Obj := PersistentVolumeClaim) (named_like envNs (is_claim app)) I)|].
  intros o w _ _ _. apply Hu.
Qed.
Lemma file_keeps envName ifile : keeps I (reconcile_file app envNs envName ifile).
Proof.
  destruct ifile as [i cf]. unfold reconcile_file. destruct (has_suffix _ _); [apply keeps_throw; apply _|].
  destruct (_ || _); [apply keeps_throw; apply _|]. apply (with_labels_keeps I). intros labels Hl. cbv zeta.
  set (desired := {| cm_meta := _ |}).
  assert (isMortiseManaged desired = true ∧ obj_key desired = (envNs, configMapName (app_name app) i)) as [Hm Hk]
    by by eapply object_managed.
  assert (named_like envNs (is_file app) (envNs, configMapName (app_name app) i)) as Hat by by split; [|eexists].
  intros w. pose proof (kget_reads (I := I) (Obj := ConfigMap) (envNs, configMapName (app_name app) i) w) as Hg.
  destruct (kget _ w) as [w1 [err|o]]; cbn [fst] in Hg.
  - destruct (IsNotFound err); [|done]. etrans; [exact Hg|].
    apply (created_keeps (Obj := ConfigMap) (named_like envNs (is_file app)) I); [by rewrite Hk|done].
  - destruct (negb (isMortiseManaged o)); [done|]. etrans; [exact Hg|].
    apply (retried_keeps (Obj := ConfigMap) (named_like envNs (is_file app)) I); [done|].
    intros o1 new. unfold mutate_file. destruct (isMortiseManaged o1); [|done]. cbv zeta. intros [= <- _].
    split; [done|]. by eapply relabelled.
Qed.

Lemma credentials_keep envName : keeps I (reconcileCredentialsSecret R app envNs envName).
Proof.
  set (name := credentialsSecretName (app_name app)).
  assert (∀ key w, I w (kget (Obj := Secret) key w).1) as Hg by exact (@kget_reads _ _ _ _ secret_reads).
  unfold reconcileCredentialsSecret. fold name. destruct (AppSpec_Credentials (App_Spec app)) as [|c0 l0].
  - intros w. unfold remove_credentials. specialize (Hg (envNs, name) w).
    destruct (kget (envNs, name) w) as [w1 [err|o]] eqn:Eg; cbn [fst] in Hg; [done|].
    destruct (isMortiseManaged o) eqn:Em; simpl; [|done]. destruct (get_read _ _ _ _ Eg) as [Hk Hr].
    pose proof (ow_delete (at_key := named envNs name) (I := I) o w1) as Hd. rewrite Hk in Hd |- *.
    specialize (Hd eq_refl Hr Em). destruct (kdelete Secret (envNs, name) w1) as [w2 [err|]]; cbn [fst] in Hd |- *; by etrans.
  - apply keeps_bind; [apply _| |intros data].
    + generalize (c0 :: l0) (∅ : gmap string string). intros l. induction l as [|c l IH]; intros data; simpl; [apply keeps_ret; apply _|].
      destruct (validateCredential c); [apply keeps_throw; apply _|]. apply keeps_bind; [apply _| |done].
      intros w. unfold resolveCredential. repeat case_match; simplify_eq/=; try done;
        match goal with H : kget ?k w = _ |- _ => specialize (Hg k w); by rewrite H in Hg end.
    + apply (with_labels_keeps I). intros labels Hl. cbv zeta. apply keeps_bind; [apply _| |intros _; apply keeps_ret; apply _].
      set (desired := {| sec_meta := _ |}).
      assert (isMortiseManaged desired = true ∧ obj_key desired = (envNs, name)) as [Hm Hk] by by eapply object_managed.
      intros w. unfold store_credentials. specialize (Hg (envNs, name) w).
      destruct (kget (envNs, name) w) as [w1 [err|o]]; cbn [fst] in Hg.
      * destruct (IsNotFound err); [|done]. rewrite wrapping_state. etrans; [exact Hg|].
        by apply (created_keeps (Obj := Secret) (named envNs name) I).
      * destruct (negb (isMortiseManaged o)); [done|]. rewrite wrapping_state. etrans; [exact Hg|].
        apply (retried_keeps (Obj := Secret) (named envNs name) I); [done|].
        intros o1 new. unfold mutate_credentials. destruct (isMortiseManaged o1); [|done]. cbv zeta. intros [= <- _].
        split; [done|]. by eapply relabelled.
Qed.

Context (Hlist : ∀ ns labels w w' l, klist_in (Obj := ConfigMap) ns labels w = (w', inr l) →
  ∀ o, o ∈ l → read_ok (obj_key o) o w' ∧ selected ns labels o = true).

Lemma files_keep envName : keeps I (reconcileConfigMaps app envNs envName).
Proof.
  unfold reconcileConfigMaps. apply keeps_bind; [apply _|apply keeps_for_each; [apply _|]; intros p; apply file_keeps|intros _].
  intros w. unfold mbind, E_bind. pose proof (klist_reads (I := I) (Obj := ConfigMap) envNs
    {[AppNameLabel := app_name app; ManagedByLabel := ManagedByValue]} w) as Hl.
  rewrite <-(wrapping_state "list owned ConfigMaps: %w" []) in Hl. unfold wrapping in *.
  destruct (klist_in _ _ w) as [w1 [err|l]] eqn:El; cbn [fst] in Hl; [done|]. etrans; [exact Hl|].
  pose proof (Hlist _ _ _ _ _ El) as Hin.
  refine (proj1 (within_for_each I (λ w, ∀ o, o ∈ l → read_ok (obj_key o) o w) (delete_file app (file_names app)) l _ _ w1 _)).
  - intros s s' Hi H o Ho. destruct (H o Ho) as (w0 & H0 & Hs). exists w0. split; [|done]. etrans; [done|].
    by apply (ow_hist (at_key := named_like envNs (is_file app)) (I := I)).
  - intros o Ho s Hs. split; [|done]. unfold delete_file. destruct (_ || _) eqn:Eb; [done|].
    rewrite !orb_false_iff, !negb_false_iff in Eb. destruct Eb as [[Hp _] Hman].
    assert (old_file app envNs (obj_key o)) as Hat.
    { split; [|done]. destruct (decide (envNs = "")) as [|Hne]; [by left|right].
      destruct (Hin o Ho) as [_ Hsel]. by apply selected_namespace in Hsel. }
    pose proof (ow_delete (I := I) o s Hat (Hs o Ho) Hman) as Hd.
    destruct (kdelete ConfigMap (obj_key o) s) as [s1 [err|]]; cbn [fst] in Hd; [|done]. by destruct (IsNotFound err).
  - intros o Ho. by apply Hin.
Qed.

(** C10: Whatever others do meanwhile, the reconciliation of the workloads of an app writes in
    the namespace of the environment and under the names of the app only; it changes and
    deletes only objects that carry the mark of the platform, and of a changed object only
    the labels, what it describes, and those annotations the platform put there or wants. *)
Theorem workloads_touch_own provider registry env image credentialsHash autoRedeploy envName w :
  I w (reconcileDeployment R app env envNs image credentialsHash autoRedeploy w).1 ∧
  I w (reconcileCronJob R app env envNs image credentialsHash autoRedeploy w).1 ∧
  I w (reconcileService app env envNs w).1 ∧
  I w (reconcileExternalNameService app env envNs w).1 ∧
  I w (reconcileIngress provider app env envNs w).1 ∧
  I w (reconcileServiceAccount registry app envNs envName w).1 ∧
  I w (reconcilePVCs app envNs envName w).1 ∧
  I w (reconcileConfigMaps app envNs envName w).1 ∧
  I w (reconcileCredentialsSecret R app envNs envName w).1.
Proof.
  split_and!; [apply deployment_keeps|apply cronjob_keeps|apply service_keeps|apply external_service_keeps|apply ingress_keeps|
    apply account_keeps|apply claims_keep|apply files_keep|apply credentials_keep].
Qed.
End touches.
