(* ===== verification/AppWorkloadsSettle.v ===== *)
(** * Workloads of apps: passes settle

    When nobody else writes, a workload that was reconciled without an error is as the app
    asks for after another pass, and then no pass writes again: the controller does not
    feed its own watch. *)

From S2P Require Import Prelude GoStrings GoText Kube Core Api KubeStatus Effects Constants BuildRun EnvStore AppAnnotations Workloads AppPods AppWorkloads AppWorkloadsFacts.

(** ** What a pass does with the one object it is about *)

Inductive act (Obj : Type) := Keep | Put (o : Obj) | Remove | Fails.
Arguments Keep {Obj}.
Arguments Put {Obj} o.
Arguments Remove {Obj}.
Arguments Fails {Obj}.

Section settles.
Context {W Obj : Type} {O : KubeObject Obj} {OO : KubeObjectOk Obj} {C : KubeClient W Obj} {OK : KubeClientOk W Obj}.

(** A pass in quiet, for worlds of which [P] holds. *)
Definition describes (P : W → Prop) (key : NamespacedName) (f : E W unit) (next : option Obj → act Obj) : Prop :=
  ∀ w, P w → kquiet (Obj := Obj) w → ∃ w' r, f w = (w', r) ∧ P w' ∧ kquiet (Obj := Obj) w' ∧
    match next (kstore w !! key) with
    | Keep => r = inr tt ∧ kstore (Obj := Obj) w' = kstore w
    | Put o => r = inr tt ∧ obj_key o = key ∧ ∃ rv, kstore w' = <[key := obj_with_rv rv o]> (kstore w)
    | Remove => r = inr tt ∧ kstore (Obj := Obj) w' = delete key (kstore w)
    | Fails => r ≠ inr tt
    end.

(** After a pass without an error, the next one leaves a good object, and the one after
    that writes nothing.  An object that was not there is as it is made. *)
Definition settles (f : E W unit) (key : NamespacedName) (good made : Obj → Prop) (w : W) : Prop :=
  ∀ w1, f w = (w1, inr tt) →
  ∃ w2 w3 o, f w1 = (w2, inr tt) ∧ f w2 = (w3, inr tt) ∧ kstore (Obj := Obj) w3 = kstore w2 ∧
    kstore w2 !! key = Some o ∧ good o ∧ (kstore (Obj := Obj) w !! key = None → made o) ∧
    ∀ k, k ≠ key → kstore (Obj := Obj) w2 !! k = kstore w !! k.

Context (P : W → Prop) (key : NamespacedName) (f : E W unit) (next : option Obj → act Obj) (good made : Obj → Prop).

Lemma passes_settle desired w :
  describes P key f next → next None = Put desired → (∀ rv, next (Some (obj_with_rv rv desired)) = Keep) →
  (∀ o new rv, next (Some o) = Put new → next (Some (obj_with_rv rv new)) = Keep) →
  (∀ o, next (Some o) = Keep → good o) → (∀ rv, made (obj_with_rv rv desired)) →
  P w → kquiet (Obj := Obj) w → settles f key good made w.
Proof.
  intros Hd Hnone Hnew Hput Hgood Hmade HP Hq w1 Hf.
  (* a world whose object is kept is settled *)
  assert (∀ w2 o, P w2 → kquiet (Obj := Obj) w2 → kstore w2 !! key = Some o → next (Some o) = Keep →
    ∃ w3, f w2 = (w3, inr tt) ∧ P w3 ∧ kquiet (Obj := Obj) w3 ∧ kstore (Obj := Obj) w3 = kstore w2) as Hkeep.
  { intros w2 o HP2 Hq2 Ho Hn. destruct (Hd w2 HP2 Hq2) as (w3 & r & Hw3 & HP3 & Hq3 & Hr). rewrite Ho, Hn in Hr.
    destruct Hr as [-> Hs]. by exists w3. }
  assert (∀ w2 o, P w2 → kquiet (Obj := Obj) w2 → kstore w2 !! key = Some o → next (Some o) = Keep → f w1 = (w2, inr tt) →
    (kstore (Obj := Obj) w !! key = None → made o) → (∀ k, k ≠ key → kstore (Obj := Obj) w2 !! k = kstore w !! k) →
    ∃ w2 w3 o, f w1 = (w2, inr tt) ∧ f w2 = (w3, inr tt) ∧ kstore (Obj := Obj) w3 = kstore w2 ∧
      kstore w2 !! key = Some o ∧ good o ∧ (kstore (Obj := Obj) w !! key = None → made o) ∧
      ∀ k, k ≠ key → kstore (Obj := Obj) w2 !! k = kstore w !! k) as Hend.
  { intros w2 o HP2 Hq2 Ho Hn H1 Hm Hk. destruct (Hkeep w2 o HP2 Hq2 Ho Hn) as (w3 & H3 & _ & _ & Hs).
    exists w2, w3, o. split_and!; try done. by apply Hgood. }
  destruct (Hd w HP Hq) as (w1' & r & Hw1 & HP1 & Hq1 & Hr). rewrite Hf in Hw1. injection Hw1 as <- <-.
  destruct (next (kstore w !! key)) as [|o| |] eqn:En; [| | |done].
  - destruct Hr as [_ Hs]. destruct (kstore w !! key) as [o|] eqn:Eo; [|by rewrite Hnone in En].
    destruct (Hkeep w1 o HP1 Hq1) as (w2 & H2 & HP2 & Hq2 & Hs2); [by rewrite Hs|done|].
    apply (Hend w2 o); try done; [by rewrite Hs2, Hs|by intros k Hk; rewrite Hs2, Hs].
  - destruct Hr as (_ & Hko & rv & Hs).
    assert (next (Some (obj_with_rv rv o)) = Keep) as Hn.
    { destruct (kstore w !! key) as [old|]; [by eapply Hput|]. rewrite Hnone in En. injection En as <-. apply Hnew. }
    destruct (Hkeep w1 (obj_with_rv rv o) HP1 Hq1) as (w2 & H2 & HP2 & Hq2 & Hs2); [by rewrite Hs, lookup_insert_eq|done|].
    apply (Hend w2 (obj_with_rv rv o)); try done; [by rewrite Hs2, Hs, lookup_insert_eq| |].
    { intros Hno. rewrite Hno, Hnone in En. injection En as <-. apply Hmade. }
    intros k Hk. by rewrite Hs2, Hs, lookup_insert_ne.
  - destruct Hr as [_ Hs]. destruct (Hd w1 HP1 Hq1) as (w2 & r2 & H2 & HP2 & Hq2 & Hr2).
    rewrite Hs, lookup_delete_eq, Hnone in Hr2. destruct Hr2 as (-> & Hko & rv & Hs2).
    apply (Hend w2 (obj_with_rv rv desired)); try done; [by rewrite Hs2, lookup_insert_eq|].
    intros k Hk. by rewrite Hs2, lookup_insert_ne, lookup_delete_ne.
Qed.

(** *** The shape of the functions *)

Context {KR : KubeRetry W} {KRO : KubeRetryOk W}.

Definition next_mutate (mutate : Obj → Obj * (error + bool)) (o : Obj) : act Obj :=
  match mutate o with
  | (_, inl _) => Fails
  | (_, inr false) => Keep
  | (new, inr true) => Put new
  end.

Definition next_of (desired : Obj) (found : Obj → act Obj) (existing : option Obj) : act Obj :=
  match existing with
  | None => Put desired
  | Some o => if isMortiseManaged o then found o else Fails
  end.

(** The worlds stay in [P] when objects of the kind are read and written. *)
Definition steady : Prop :=
  (∀ k w, P w → P (kget (Obj := Obj) k w).1) ∧ (∀ o w, P w → P (kcreate (Obj := Obj) o w).1) ∧
  (∀ o w, P w → P (kupdate (Obj := Obj) o w).1).

Context (HP : steady).

(** No function reports a conflict of its own. *)
Definition plain_errors (mutate : Obj → Obj * (error + bool)) : Prop :=
  ∀ o new e, mutate o = (new, inl e) → IsConflict e = false.

Lemma retried_quiet mutate w o :
  (∀ o new, mutate o = (new, inr true) → rewritten o new) → plain_errors mutate →
  P w → kquiet (Obj := Obj) w → kstore w !! key = Some o →
  ∃ w' r, run (UpdateWithConflictRetry key mutate) w = (w', r) ∧ P w' ∧ kquiet (Obj := Obj) w' ∧
    match next_mutate mutate o with
    | Keep => r = inr tt ∧ kstore (Obj := Obj) w' = kstore w
    | Put new => r = inr tt ∧ obj_key new = key ∧ ∃ rv, kstore w' = <[key := obj_with_rv rv new]> (kstore w)
    | Remove => False
    | Fails => r ≠ inr tt
    end.
Proof using HP KRO.
  intros Hm He HPw Hq Ho. destruct HP as (Hget & _ & Hupd). specialize (Hget key w HPw).
  destruct (kget_quiet key w Hq) as (w1 & Hq1 & Hs1 & Hg). rewrite Ho in Hg. rewrite Hg in Hget. simpl in Hget.
  assert (∀ w' r, match mutate o with
      | (_, inl err) => (w1, Some err) | (_, inr false) => (w1, None) | (new, inr true) => kupdate new w1 end = (w', r) →
    (∀ e, r = Some e → IsConflict e = false) →
    run (UpdateWithConflictRetry key mutate) w = (w', match r with Some e => inl e | None => inr tt end)) as Hrun.
  { intros w' r Hf Hr. unfold run, UpdateWithConflictRetry. rewrite retry_on_conflict_spec.
    rewrite (retry_loop_once _ _ w w' r); [by destruct r|by rewrite Hg|done]. }
  unfold next_mutate. destruct (mutate o) as [new [e|[]]] eqn:Em.
  - exists w1, (inl e). split; [by apply (Hrun w1 (Some e)); [|intros e' [= <-]; eapply He]|done].
  - destruct (Hm o new Em) as (l & a & Hmeta & _).
    assert (obj_key new = key) as Hkey by (rewrite <-(kstore_key _ _ _ Ho); unfold obj_key; by rewrite Hmeta).
    destruct (kupdate_quiet new w1 o Hq1) as (w2 & rv & Hq2 & Hu & Hs2).
    { by rewrite Hkey, Hs1. }
    { unfold obj_rv. by rewrite Hmeta. }
    specialize (Hupd new w1 Hget). rewrite Hu in Hupd. exists w2, (inr tt). split; [by apply (Hrun w2 None)|].
    split; [done|]. split; [done|]. split; [done|]. split; [done|]. exists rv. by rewrite Hs2, Hkey, Hs1.
  - exists w1, (inr tt). split; [by apply (Hrun w1 None)|done].
Qed.

Lemma settled_quiet kind mutate w o :
  (∀ o new, mutate o = (new, inr true) → rewritten o new) → plain_errors mutate →
  P w → kquiet (Obj := Obj) w → kstore w !! key = Some o → isMortiseManaged o = true →
  ∃ w' r, settle kind key mutate w = (w', r) ∧ P w' ∧ kquiet (Obj := Obj) w' ∧
    match next_mutate mutate o with
    | Keep => r = inr tt ∧ kstore (Obj := Obj) w' = kstore w
    | Put new => r = inr tt ∧ obj_key new = key ∧ ∃ rv, kstore w' = <[key := obj_with_rv rv new]> (kstore w)
    | Remove => False
    | Fails => r ≠ inr tt
    end.
Proof using HP KRO.
  intros Hm He HPw Hq Ho Hman.
  assert (guarding kind mutate o = mutate o) as Hg by (unfold guarding, conflictIfUnmanaged; by rewrite Hman).
  destruct (retried_quiet (guarding kind mutate) w o) as (w' & r & Hw & HP' & Hq' & Hr).
  - intros o1 new. unfold guarding. destruct (conflictIfUnmanaged o1 kind); [done|apply Hm].
  - intros o1 new e. unfold guarding, conflictIfUnmanaged. destruct (isMortiseManaged o1); [apply He|by intros [= <- <-]].
  - done.
  - done.
  - done.
  - exists w', r. unfold next_mutate in *. by rewrite Hg in Hr.
Qed.

(** A read that finds the object or does not. *)
Lemma upsert_quiet kind desired absent found next_found :
  obj_key desired = key →
  (∀ w, P w → kquiet (Obj := Obj) w → kstore w !! key = None →
     ∃ w' rv, absent w = (w', inr tt) ∧ P w' ∧ kquiet (Obj := Obj) w' ∧ kstore w' = <[key := obj_with_rv rv desired]> (kstore w)) →
  (∀ o w, P w → kquiet (Obj := Obj) w → kstore w !! key = Some o → isMortiseManaged o = true →
     ∃ w' r, found o w = (w', r) ∧ P w' ∧ kquiet (Obj := Obj) w' ∧
       match next_found o with
       | Keep => r = inr tt ∧ kstore (Obj := Obj) w' = kstore w
       | Put new => r = inr tt ∧ obj_key new = key ∧ ∃ rv, kstore w' = <[key := obj_with_rv rv new]> (kstore w)
       | Remove => r = inr tt ∧ kstore (Obj := Obj) w' = delete key (kstore w)
       | Fails => r ≠ inr tt
       end) →
  describes P key (upsert kind key absent found) (next_of desired next_found).
Proof using HP.
  intros Hkey Ha Hf w HPw Hq. destruct HP as (Hget & _). specialize (Hget key w HPw).
  destruct (kget_quiet key w Hq) as (w1 & Hq1 & Hs1 & Hg). unfold upsert, next_of.
  destruct (kstore w !! key) as [o|] eqn:Eo.
  - rewrite Hg in Hget |- *. simpl in Hget. unfold conflictIfUnmanaged. destruct (isMortiseManaged o) eqn:Em; [|by eexists _, _].
    destruct (Hf o w1 Hget Hq1) as (w2 & r & H2 & HP2 & Hq2 & Hr); [by rewrite Hs1|done|].
    exists w2, r. rewrite <-Hs1. by destruct (next_found o).
  - destruct Hg as (e & Hg & He). rewrite Hg in Hget |- *. simpl in Hget. rewrite He.
    destruct (Ha w1 Hget Hq1) as (w2 & rv & H2 & HP2 & Hq2 & Hs2); [by rewrite Hs1|].
    exists w2, (inr tt). rewrite <-Hs1. split_and!; try done. by exists rv.
Qed.

Lemma created_quiet desired w :
  obj_key desired = key → P w → kquiet (Obj := Obj) w → kstore w !! key = None →
  ∃ w' rv, run (kcreate desired) w = (w', inr tt) ∧ P w' ∧ kquiet (Obj := Obj) w' ∧
    kstore w' = <[key := obj_with_rv rv desired]> (kstore w).
Proof using HP.
  intros Hkey HPw Hq Hn. destruct HP as (_ & Hcre & _). specialize (Hcre desired w HPw).
  destruct (kcreate_quiet desired w Hq) as (w' & rv & Hq' & Hc & Hs); [by rewrite Hkey|].
  rewrite Hc in Hcre. exists w', rv. unfold run. rewrite Hc. rewrite Hkey in Hs. done.
Qed.

Lemma create_or_quiet desired update fail w :
  obj_key desired = key → P w → kquiet (Obj := Obj) w → kstore w !! key = None →
  ∃ w' rv, create_or desired update fail w = (w', inr tt) ∧ P w' ∧ kquiet (Obj := Obj) w' ∧
    kstore w' = <[key := obj_with_rv rv desired]> (kstore w).
Proof using HP.
  intros Hkey HPw Hq Hn. destruct (created_quiet desired w Hkey HPw Hq Hn) as (w' & rv & Hc & H).
  exists w', rv. split; [|done]. unfold create_or. unfold run in Hc. destruct (kcreate desired w) as [w1 [e|]]; [done|].
  by injection Hc as <-.
Qed.
End settles.

(** ** Annotations and metadata *)

(** A desired map that a merge leaves as it is, and that is settled after one merge. *)
Definition stable (d : gmap string string) : Prop :=
  mergeManagedAnnotations d d = (d, false) ∧
  ∀ e, mergeManagedAnnotations (mergeManagedAnnotations e d).1 d = ((mergeManagedAnnotations e d).1, false).

(** What a user may write into the annotations of an environment. *)
Definition user_ok (u : gmap string string) : Prop := u !! managedAnnotationsKey = None ∧ keys_ok u.

Lemma own_stamp u : own (stampManagedAnnotations u) = own u.
Proof.
  unfold stampManagedAnnotations. case_bool_decide; [done|]. unfold own. apply map_eq. intros k.
  destruct (decide (k = managedAnnotationsKey)) as [->|Hk]; [by rewrite !lookup_delete_eq|].
  by rewrite !lookup_delete_ne, lookup_insert_ne.
Qed.

Lemma stamp_stable u : user_ok u → stable (stampManagedAnnotations u).
Proof.
  intros [Hu Hok]. assert (keys_ok (stampManagedAnnotations u)) as Hok' by (unfold keys_ok; by rewrite own_stamp).
  split; [|intros e; by apply merge_settled].
  assert ((mergeManagedAnnotations (stampManagedAnnotations u) (stampManagedAnnotations u)).1 = stampManagedAnnotations u) as Heq.
  { apply map_eq. intros k. rewrite merge_lookup. assert (book_of (stampManagedAnnotations u) = book_of u) as Hb
      by (unfold book_of; by rewrite own_stamp). rewrite Hb.
    destruct (decide (k = managedAnnotationsKey)) as [->|Hk].
    - rewrite bool_decide_true by done. unfold stampManagedAnnotations. destruct (decide (u = ∅)) as [->|Hne].
      + rewrite (bool_decide_true (∅ = ∅)) by done. reflexivity.
      + rewrite (bool_decide_false (u = ∅)) by done. rewrite lookup_insert_eq.
        destruct (String.eqb_spec (book_of u) "") as [He|]; [|done]. exfalso.
        apply map_choose in Hne as (k & v & Hk). assert (k ∈ dom (own u)) as Hd.
        { unfold own. rewrite dom_delete. apply elem_of_difference. split; [by eapply elem_of_dom_2|].
          intros ->%elem_of_singleton. congruence. }
        pose proof (Hok k Hd) as [Hk0 _]. apply book_keys in Hd; [|done|done]. rewrite He in Hd. simpl in Hd.
        by apply list_elem_of_singleton in Hd.
    - rewrite bool_decide_false by done. destruct (stampManagedAnnotations u !! k) eqn:Es; [done|]. by destruct (bool_decide _). }
  rewrite (surjective_pairing (mergeManagedAnnotations _ _)), merge_changed, Heq. by rewrite bool_decide_true.
Qed.

Lemma merge_kept e d a : mergeManagedAnnotations e d = (a, false) → a = e ∧ ∀ k v, k ≠ managedAnnotationsKey → d !! k = Some v → e !! k = Some v.
Proof.
  intros Hm. pose proof (merge_changed e d) as Hc. rewrite Hm in Hc. cbn [fst snd] in Hc.
  symmetry in Hc. apply negb_false_iff, bool_decide_eq_true in Hc. split; [done|]. intros k v Hk Hd.
  pose proof (merge_lookup e d k) as Hl. rewrite Hm in Hl. cbn [fst] in Hl. rewrite bool_decide_false, Hd in Hl by done. congruence.
Qed.

(** The annotations of the user are on the object. *)
Definition annotated {Obj} {O : KubeObject Obj} (u : gmap string string) (o : Obj) : Prop :=
  ∀ k v, u !! k = Some v → meta_Annotations (obj_meta o) !! k = Some v.

Lemma stamp_annotated {Obj} {O : KubeObject Obj} u (o : Obj) a :
  user_ok u → mergeManagedAnnotations (meta_Annotations (obj_meta o)) (stampManagedAnnotations u) = (a, false) → annotated u o.
Proof.
  intros [Hu _] [_ H]%merge_kept k v Hk. assert (k ≠ managedAnnotationsKey) as Hne by (intros ->; congruence).
  apply H; [done|]. unfold stampManagedAnnotations. case_bool_decide; [done|]. by rewrite lookup_insert_ne.
Qed.

Lemma converge_kept e d m : converge_meta e d = (m, false) →
  meta_Labels e = meta_Labels d ∧ ∃ a, mergeManagedAnnotations (meta_Annotations e) (meta_Annotations d) = (a, false).
Proof.
  unfold converge_meta. destruct (mergeManagedAnnotations _ _) as [a ch] eqn:Em. case_bool_decide as Hl; [|done].
  intros [= _ ->]. split; [done|by exists a].
Qed.

Lemma converge_labels e d : meta_Labels (converge_meta e d).1 = meta_Labels d.
Proof.
  unfold converge_meta. destruct (mergeManagedAnnotations _ _) as [a ch]. case_bool_decide; [|done]. by destruct ch.
Qed.

Lemma converge_annotations e d :
  meta_Annotations (converge_meta e d).1 = (mergeManagedAnnotations (meta_Annotations e) (meta_Annotations d)).1.
Proof.
  unfold converge_meta. pose proof (merge_changed (meta_Annotations e) (meta_Annotations d)) as Hc.
  destruct (mergeManagedAnnotations _ _) as [a ch]. cbn [fst snd] in *.
  assert (ch = false → a = meta_Annotations e) as Ha by (intros ->; symmetry in Hc; by apply negb_false_iff, bool_decide_eq_true in Hc).
  destruct (bool_decide (meta_Labels e = meta_Labels d)); destruct ch; simpl; try done; by rewrite Ha.
Qed.

Lemma converge_again e d rv : stable (meta_Annotations d) → (converge_meta (with_rv rv (converge_meta e d).1) d).2 = false.
Proof.
  intros [_ Hs]. specialize (Hs (meta_Annotations e)). rewrite <-converge_annotations in Hs.
  pose proof (converge_labels e d) as Hl. destruct (converge_meta e d) as [m ch]. cbn [fst] in *.
  unfold converge_meta. simpl. rewrite Hs. by rewrite bool_decide_true.
Qed.

Lemma converge_new d rv : stable (meta_Annotations d) → (converge_meta (with_rv rv d) d).2 = false.
Proof. intros [Hs _]. unfold converge_meta. simpl. rewrite Hs. by rewrite bool_decide_true. Qed.

(** ** Services, Ingresses and service accounts *)

Lemma pick_same {A} `{EqDecision A} (x y : A) : (if bool_decide (x = y) then x else y) = y.
Proof. by case_bool_decide. Qed.

Section plain.
Context {Obj : Type} {O : KubeObject Obj}.

Definition marked (m : ObjectMeta) : bool := String.eqb (map_get (meta_Labels m) ManagedByLabel) ManagedByValue.

(** A function that is retried settles: it keeps what it wrote, and what was created. *)
Definition settling (desired : Obj) (mutate : Obj → Obj * (error + bool)) : Prop :=
  (∀ rv, next_mutate mutate (obj_with_rv rv desired) = Keep) ∧
  ∀ o new rv, isMortiseManaged o = true → next_mutate mutate o = Put new →
    isMortiseManaged (obj_with_rv rv new) = true ∧ next_mutate mutate (obj_with_rv rv new) = Keep.
End plain.

Lemma service_settling desired : marked (svc_meta desired) = true → stable (meta_Annotations (svc_meta desired)) →
  settling desired (mutate_service desired).
Proof.
  intros Hm Hs. split.
  - intros rv. unfold next_mutate, mutate_service. simpl.
    pose proof (converge_new (svc_meta desired) rv Hs) as Hc. destruct (converge_meta _ _) as [m ch]. simpl in *. subst ch.
    by rewrite !bool_decide_true by done.
  - intros o new rv _. unfold next_mutate, mutate_service at 1.
    pose proof (converge_again (svc_meta o) (svc_meta desired) rv Hs) as Hc.
    pose proof (converge_labels (svc_meta o) (svc_meta desired)) as Hl.
    destruct (converge_meta (svc_meta o) (svc_meta desired)) as [m ch]. cbn [fst] in *.
    destruct (ch || _ || _); [|done]. intros [= <-]. split; [unfold isMortiseManaged; simpl; by rewrite Hl|].
    unfold mutate_service. simpl. destruct (converge_meta (with_rv rv m) _) as [m' ch']. simpl in *. subst ch'.
    by rewrite !pick_same, !bool_decide_true by done.
Qed.

Lemma ingress_settling desired : marked (ing_meta desired) = true → stable (meta_Annotations (ing_meta desired)) →
  settling desired (mutate_ingress desired).
Proof.
  intros Hm Hs. split.
  - intros rv. unfold next_mutate, mutate_ingress. simpl.
    pose proof (converge_new (ing_meta desired) rv Hs) as Hc. destruct (converge_meta _ _) as [m ch]. simpl in *. subst ch.
    by rewrite !bool_decide_true by done.
  - intros o new rv _. unfold next_mutate, mutate_ingress at 1.
    pose proof (converge_again (ing_meta o) (ing_meta desired) rv Hs) as Hc.
    pose proof (converge_labels (ing_meta o) (ing_meta desired)) as Hl.
    destruct (converge_meta (ing_meta o) (ing_meta desired)) as [m ch]. cbn [fst] in *.
    destruct (_ || ch); [|done]. intros [= <-]. split; [unfold isMortiseManaged; simpl; by rewrite Hl|].
    unfold mutate_ingress. simpl. destruct (converge_meta (with_rv rv m) _) as [m' ch']. simpl in *. subst ch'.
    by rewrite !pick_same, !bool_decide_true by done.
Qed.

Lemma account_settling desired : marked (sa_meta desired) = true → settling desired (mutate_account desired).
Proof.
  intros Hm. split.
  - intros rv. unfold next_mutate, mutate_account, imagePullSecretsEqual. simpl. by rewrite !bool_decide_true by done.
  - intros o new rv _. unfold next_mutate, mutate_account at 1, imagePullSecretsEqual.
    destruct (negb _ || _); [|done]. intros [= <-]. unfold isMortiseManaged, mutate_account, imagePullSecretsEqual. simpl.
    assert (∀ (b : bool), bool_decide (meta_Labels (sa_meta o) = meta_Labels (sa_meta desired)) = b →
      meta_Labels (if b then sa_meta o else with_labels (meta_Labels (sa_meta desired)) (sa_meta o)) = meta_Labels (sa_meta desired)) as Hl.
    { intros [] Hb; [by apply bool_decide_eq_true in Hb|done]. }
    rewrite (Hl _ eq_refl). split; [done|]. by rewrite !pick_same, !bool_decide_true by done.
Qed.

(** ** Pods *)

Lemma same_quantities_refl {Q : Quantities} {QO : QuantitiesOk} a : same_quantities a a = true.
Proof.
  unfold same_quantities. rewrite bool_decide_true by done. apply forallb_forall. intros [k q] Hk.
  apply list_elem_of_In, elem_of_map_to_list in Hk. by rewrite Hk, Quantity_Cmp_refl.
Qed.

Lemma carry_lookup desired existing k :
  carryRestartMarkers desired existing !! k =
  match desired !! k with
  | Some v => Some v
  | None => if bool_decide (k ∈ restartMarkerAnnotations) then existing !! k else None
  end.
Proof.
  unfold carryRestartMarkers. generalize restartMarkerAnnotations. intros l. revert desired.
  induction l as [|x l IH]; intros desired.
  { by destruct (desired !! k) eqn:Ek; simpl; rewrite ?Ek. }
  cbn [fold_left]. rewrite IH. clear IH.
  destruct (desired !! x) as [v|] eqn:Ex; [|destruct (existing !! x) as [v|] eqn:Ee].
  - destruct (desired !! k) eqn:Ek; [done|]. apply ite_ext. rewrite elem_of_cons.
    assert (k ≠ x) by (intros ->; congruence). tauto.
  - unfold mergeAnnotations. destruct (decide (k = x)) as [->|Hne].
    + rewrite lookup_union, lookup_singleton_eq, Ex. simpl. rewrite bool_decide_true; [by rewrite Ee|by left].
    + rewrite lookup_union, lookup_singleton_ne by done. rewrite (left_id_L None _).
      destruct (desired !! k); [done|]. apply ite_ext. rewrite elem_of_cons. tauto.
  - destruct (desired !! k) eqn:Ek; [done|]. destruct (decide (k = x)) as [->|Hne].
    + rewrite Ee. by repeat destruct (bool_decide _).
    + apply ite_ext. rewrite elem_of_cons. tauto.
Qed.

Lemma template_lookup desired existing frozen k :
  template_annotations desired existing frozen !! k =
  match (if frozen && bool_decide (k = env_hash_annotation) then existing !! k else None) with
  | Some v => Some v
  | None => carryRestartMarkers desired existing !! k
  end.
Proof.
  unfold template_annotations, mergeAnnotations. rewrite (right_id_L ∅ _). destruct frozen; [|done]. simpl.
  destruct (existing !! env_hash_annotation) as [v|] eqn:Ee.
  - rewrite lookup_union. case_bool_decide as Hk.
    + subst. by rewrite lookup_singleton_eq, Ee, union_Some_l.
    + by rewrite lookup_singleton_ne, (left_id_L None _).
  - case_bool_decide as Hk; [by subst; rewrite Ee|done].
Qed.

Lemma hash_no_marker : bool_decide (env_hash_annotation ∈ restartMarkerAnnotations) = false.
Proof. reflexivity. Qed.

(** The annotations of a template settle: what was carried and frozen stays. *)
Lemma template_again desired existing frozen frozen' :
  (frozen = true → frozen' = true) →
  template_annotations desired (template_annotations desired existing frozen) frozen' = template_annotations desired existing frozen.
Proof.
  intros Hf. apply map_eq. intros k. rewrite (template_lookup _ (template_annotations _ _ _)), carry_lookup.
  rewrite template_lookup, carry_lookup. destruct (decide (k = env_hash_annotation)) as [->|Hk].
  - rewrite hash_no_marker, (bool_decide_true (env_hash_annotation = _)) by done. rewrite !andb_true_r.
    destruct frozen; [rewrite Hf by done|]; destruct frozen'; try done;
      destruct (existing !! env_hash_annotation), (desired !! env_hash_annotation); done.
  - rewrite (bool_decide_false (k = _)) by done. rewrite !andb_false_r. destruct (desired !! k); [done|]. by destruct (bool_decide _).
Qed.

Lemma template_new desired frozen : template_annotations desired desired frozen = desired.
Proof.
  apply map_eq. intros k. rewrite template_lookup, carry_lookup.
  destruct (frozen && _), (desired !! k); try done; by destruct (bool_decide _).
Qed.

Lemma securityContextsEqual_refl p c : securityContextsEqual p p c c = true.
Proof. unfold securityContextsEqual. by rewrite !bool_decide_true by done. Qed.

Section pods.
Context {Q : Quantities} {QO : QuantitiesOk}.

Lemma containers_same a b :
  Container_Image a = Container_Image b → Container_Env a = Container_Env b → Container_EnvFrom a = Container_EnvFrom b →
  Container_VolumeMounts a = Container_VolumeMounts b → Container_Requests a = Container_Requests b →
  Container_Limits a = Container_Limits b → containers_differ a b = false.
Proof.
  intros H1 H2 H3 H4 H5 H6. unfold containers_differ, resources_differ.
  by rewrite H1, H2, H3, H4, H5, H6, String.eqb_refl, !bool_decide_true, !same_quantities_refl by done.
Qed.

Lemma templates_same et dt ec dc annotations :
  PodSpec_Volumes (PodTemplateSpec_Spec et) = PodSpec_Volumes (PodTemplateSpec_Spec dt) →
  PodSpec_SecurityContext (PodTemplateSpec_Spec et) = PodSpec_SecurityContext (PodTemplateSpec_Spec dt) →
  PodTemplateSpec_Labels et = PodTemplateSpec_Labels dt → PodTemplateSpec_Annotations et = annotations →
  Container_SecurityContext ec = Container_SecurityContext dc → templates_differ et dt ec dc annotations = false.
Proof.
  intros H1 H2 H3 H4 H5. unfold templates_differ, annotationsEqual.
  by rewrite H1, H2, H3, H4, H5, !bool_decide_true, securityContextsEqual_refl by done.
Qed.

Lemma deployment_settling desired dc autoRedeploy :
  PodSpec_Containers (PodTemplateSpec_Spec (dep_Template desired)) = [dc] → stable (meta_Annotations (dep_meta desired)) →
  marked (dep_meta desired) = true → settling desired (mutate_deployment desired autoRedeploy).
Proof.
  intros Hdc [Hnew Hagain] Hm. split.
  - intros rv. unfold next_mutate, mutate_deployment. rewrite Hdc. simpl. rewrite Hnew, Hdc.
    rewrite containers_same, templates_same by (done || by rewrite template_new). unfold probes_differ. by rewrite !bool_decide_true by done.
  - intros o new rv Hman. unfold next_mutate, mutate_deployment at 1. rewrite Hdc.
    specialize (Hagain (meta_Annotations (dep_meta o))).
    destruct (mergeManagedAnnotations (meta_Annotations (dep_meta o)) _) as [a ch].
    destruct (PodSpec_Containers (PodTemplateSpec_Spec (dep_Template o))) as [|ec others] eqn:Eo; [done|].
    destruct (negb _); [done|]. intros [= <-]. split; [done|].
    unfold mutate_deployment. rewrite Hdc. simpl in *. rewrite Hagain, String.eqb_refl, andb_true_r.
    rewrite containers_same by done. rewrite templates_same; try done.
    + unfold probes_differ. by rewrite !bool_decide_true by done.
    + symmetry. apply template_again. by intros [-> _]%andb_true_iff.
Qed.

Lemma cronjob_settling desired dc autoRedeploy :
  PodSpec_Containers (PodTemplateSpec_Spec (cron_Template desired)) = [dc] → stable (meta_Annotations (cron_meta desired)) →
  marked (cron_meta desired) = true → settling desired (mutate_cronjob desired autoRedeploy).
Proof.
  intros Hdc [Hnew Hagain] Hm. split.
  - intros rv. unfold next_mutate, mutate_cronjob. rewrite Hdc. simpl. rewrite Hdc, Hnew.
    rewrite containers_same, templates_same by (done || by rewrite template_new). by rewrite !String.eqb_refl.
  - intros o new rv Hman. unfold next_mutate, mutate_cronjob at 1. rewrite Hdc.
    destruct (PodSpec_Containers (PodTemplateSpec_Spec (cron_Template o))) as [|ec others] eqn:Eo; [done|].
    specialize (Hagain (meta_Annotations (cron_meta o))).
    destruct (mergeManagedAnnotations (meta_Annotations (cron_meta o)) _) as [a ch].
    destruct (negb _); [done|]. intros [= <-]. split; [done|].
    unfold mutate_cronjob. rewrite Hdc. simpl in *. rewrite Hagain, !String.eqb_refl, andb_true_r.
    rewrite containers_same by done. rewrite templates_same; try done.
    + symmetry. apply template_again. by intros [-> _]%andb_true_iff.
Qed.
End pods.

(** ** Passes *)

Section passes.
Context {W Obj : Type} {O : KubeObject Obj} {OO : KubeObjectOk Obj} {C : KubeClient W Obj} {OK : KubeClientOk W Obj}
  {KR : KubeRetry W} {KRO : KubeRetryOk W}.
Context (P : W → Prop) (HP : steady (Obj := Obj) P) (key : NamespacedName) (made : Obj → Prop).

Lemma next_settles (desired : Obj) mutate (found : Obj → act Obj) f w :
  describes P key f (next_of desired found) → isMortiseManaged desired = true → settling desired mutate →
  (∀ o, found o = Remove ∨ found o = next_mutate mutate o) → (∀ rv, found (obj_with_rv rv desired) ≠ Remove) →
  (∀ o new rv, found o = Put new → found (obj_with_rv rv new) ≠ Remove) → (∀ rv, made (obj_with_rv rv desired)) →
  P w → kquiet (Obj := Obj) w → settles f key (λ o, next_mutate mutate o = Keep) made w.
Proof.
  intros Hd Hm [Hnew Hput] Hfound Hr1 Hr2 Hmade HPw Hq. apply (passes_settle P key f (next_of desired found) _ made desired); try done.
  - intros rv. unfold next_of. replace (isMortiseManaged (obj_with_rv rv desired)) with true.
    + destruct (Hfound (obj_with_rv rv desired)) as [H|H]; [by apply Hr1 in H|by rewrite H].
    + unfold isMortiseManaged, obj_with_rv in *. rewrite obj_meta_set. done.
  - intros o new rv. unfold next_of. destruct (isMortiseManaged o) eqn:Eo; [|done]. intros Hn.
    assert (next_mutate mutate o = Put new) as Hmut by (destruct (Hfound o) as [H|H]; congruence).
    destruct (Hput o new rv Eo Hmut) as [-> Hk].
    destruct (Hfound (obj_with_rv rv new)) as [H|H]; [by eapply Hr2 in H|by rewrite H].
  - intros o. unfold next_of. destruct (isMortiseManaged o); [|done]. intros H. destruct (Hfound o) as [H1|H1]; congruence.
Qed.

(** The functions that create, or converge what is there. *)
Lemma upsert_settles kind (desired : Obj) absent mutate w :
  obj_key desired = key → isMortiseManaged desired = true → settling desired mutate →
  (∀ o new, mutate o = (new, inr true) → rewritten o new) → plain_errors mutate →
  (∀ w, P w → kquiet (Obj := Obj) w → kstore w !! key = None →
     ∃ w' rv, absent w = (w', inr tt) ∧ P w' ∧ kquiet (Obj := Obj) w' ∧ kstore w' = <[key := obj_with_rv rv desired]> (kstore w)) →
  describes P key (upsert kind key absent (λ _, settle kind key mutate)) (next_of desired (next_mutate mutate)) ∧
  ((∀ rv, made (obj_with_rv rv desired)) → P w → kquiet (Obj := Obj) w →
   settles (upsert kind key absent (λ _, settle kind key mutate)) key (λ o, next_mutate mutate o = Keep) made w).
Proof.
  intros Hk Hm Hs Hrw He Ha.
  assert (∀ o, next_mutate mutate o ≠ Remove) as Hnr by (intros o; unfold next_mutate; by destruct (mutate o) as [? [|[]]]).
  assert (describes P key (upsert kind key absent (λ _, settle kind key mutate)) (next_of desired (next_mutate mutate))) as Hd.
  { apply upsert_quiet; try done. intros o w1 HP1 Hq1 Ho Hman.
    destruct (settled_quiet P key HP kind mutate w1 o Hrw He HP1 Hq1 Ho Hman) as (w' & r & H1 & H2 & H3 & H4).
    exists w', r. by destruct (next_mutate mutate o). }
  split; [exact Hd|]. intros Hmade HPw Hq. apply (next_settles desired mutate (next_mutate mutate) _ w Hd); try done. intros o. by right.
Qed.

(** What is read before. *)
Lemma describes_after {A} (m : E W A) (k : A → E W unit) a next :
  (∀ w, P w → kquiet (Obj := Obj) w → ∃ w', m w = (w', inr a) ∧ P w' ∧ unaffected Obj w w') →
  describes P key (k a) next → describes P key (m ≫= k) next.
Proof.
  intros Hm Hk w HPw Hq. destruct (Hm w HPw Hq) as (w1 & Hw1 & HP1 & [Hs Hqq]).
  destruct (Hk w1 HP1 (Hqq Hq)) as (w2 & r & H2 & HP2 & Hq2 & Hr). exists w2, r. unfold mbind, E_bind. rewrite Hw1.
  by rewrite Hs in Hr.
Qed.
End passes.

Lemma steady_true {W Obj} {C : KubeClient W Obj} : steady (Obj := Obj) (λ _ : W, True).
Proof. done. Qed.

Lemma settles_ext {W Obj} {O : KubeObject Obj} {C : KubeClient W Obj} {OK : KubeClientOk W Obj} (f g : E W unit) key (good good' made : Obj → Prop) w :
  (∀ w, f w = g w) → (∀ o, good o → good' o) → settles f key good made w → settles g key good' made w.
Proof.
  intros Hfg Hg Hs w1 Hw1. rewrite <-Hfg in Hw1. destruct (Hs w1 Hw1) as (w2 & w3 & o & H2 & H3 & H4 & H5 & H6 & H7 & H8).
  rewrite Hfg in H2. rewrite Hfg in H3. exists w2, w3, o. split_and!; auto.
Qed.

(** ** What the objects are then *)

Section goals.
Context {Q : Quantities} (app : App) (env : Environment) (labels : gmap string string).

(** A quantity that was asked for, in some notation. *)
Definition quantity_of (asked : string) (given : option string) : Prop :=
  match given with
  | None => asked = ""
  | Some q => asked ≠ "" ∧ ∃ p, ParseQuantity asked = inr p ∧ Quantity_Cmp q p = 0%Z
  end.

(** The container reserves what is asked for, and nothing else; where no limit is asked for
    the limit is the request. *)
Definition reserves (res : ResourceRequirements) (c : Container) : Prop :=
  let limit l request := if String.eqb l "" then request else l in
  quantity_of (ResourceRequirements_CPU res) (Container_Requests c !! "cpu") ∧
  quantity_of (limit (ResourceRequirements_CPULimit res) (ResourceRequirements_CPU res)) (Container_Limits c !! "cpu") ∧
  quantity_of (ResourceRequirements_Memory res) (Container_Requests c !! "memory") ∧
  quantity_of (limit (ResourceRequirements_MemoryLimit res) (ResourceRequirements_Memory res)) (Container_Limits c !! "memory") ∧
  ∀ k, k ≠ "cpu" → k ≠ "memory" → Container_Requests c !! k = None ∧ Container_Limits c !! k = None.

(** What the pods of a Deployment and of a CronJob share. *)
Definition runs (image : string) (res : ResourceRequirements) (c : Container) : Prop :=
  Container_Image c = image ∧ Container_EnvFrom c = EnvFromSources (app_name app) ∧ reserves res c ∧
  Container_VolumeMounts c = (toVolumesAndMounts app).2 ++ (toSecretVolumesAndMounts (Environment_SecretMounts env)).2 ∧
  normalizeContainerSecurityContext (Container_SecurityContext c) =
    normalizeContainerSecurityContext (workloadSecurityContexts app).2.

(** The annotations of the pods.  Without automatic redeployment the hash of the variables
    may be an older one. *)
Definition pods_annotated (credentialsHash envHash : string) (autoRedeploy : bool) (a : gmap string string) : Prop :=
  (∀ k v, Environment_Annotations env !! k = Some v → k ≠ "mortise.dev/credentials-hash" → k ≠ "mortise.dev/env-hash" →
     a !! k = Some v) ∧
  (credentialsHash ≠ "" → a !! "mortise.dev/credentials-hash" = Some credentialsHash) ∧
  (autoRedeploy = true → envHash ≠ "" → a !! "mortise.dev/env-hash" = Some envHash).

Definition templated (credentialsHash envHash : string) (autoRedeploy : bool) (t : PodTemplateSpec) : Prop :=
  PodTemplateSpec_Labels t = labels ∧ pods_annotated credentialsHash envHash autoRedeploy (PodTemplateSpec_Annotations t) ∧
  PodSpec_Volumes (PodTemplateSpec_Spec t) = pod_volumes app env ∧
  normalizePodSecurityContext (PodSpec_SecurityContext (PodTemplateSpec_Spec t)) =
    normalizePodSecurityContext (workloadSecurityContexts app).1.

Definition deployed (image credentialsHash envHash : string) (autoRedeploy : bool) (res : ResourceRequirements) (o : Deployment) : Prop :=
  annotated (Environment_Annotations env) o ∧ dep_Replicas o = Some (default 1%Z (Environment_Replicas env)) ∧
  dep_ProgressDeadlineSeconds o = Some 120%Z ∧ templated credentialsHash envHash autoRedeploy (dep_Template o) ∧
  ∃ c others, PodSpec_Containers (PodTemplateSpec_Spec (dep_Template o)) = c :: others ∧ runs image res c ∧
    Container_Env c = port_env app env image ∧
    Container_Ports c = [{| ContainerPort_Name := "http"; ContainerPort_ContainerPort := appPort app; ContainerPort_Protocol := "TCP" |}] ∧
    Container_ReadinessProbe c = buildProbe (Environment_ReadinessProbe env) (appPort app) ∧
    Container_LivenessProbe c =
      (if bool_decide (AppSpec_Storage (App_Spec app) ≠ [] ∧ Environment_LivenessProbe env = None) then None
       else buildProbe (Environment_LivenessProbe env) (appPort app)) ∧
    Container_StartupProbe c =
      (if bool_decide (Environment_StartupProbe env = None) then None else buildProbe (Environment_StartupProbe env) (appPort app)).

(** What is set when a Deployment is made, and stays as it is then. *)
Definition deployment_made (o : Deployment) : Prop :=
  dep_Strategy o = (if bool_decide (AppSpec_Storage (App_Spec app) = []) then "" else "Recreate") ∧
  dep_Selector o = Some labels ∧ meta_Labels (dep_meta o) = labels ∧
  PodSpec_ServiceAccountName (PodTemplateSpec_Spec (dep_Template o)) = app_name app ∧
  Container_Name <$> PodSpec_Containers (PodTemplateSpec_Spec (dep_Template o)) = [app_name app].

Definition scheduled (image credentialsHash envHash : string) (autoRedeploy : bool) (res : ResourceRequirements) (o : CronJob) : Prop :=
  annotated (Environment_Annotations env) o ∧ cron_Schedule o = Environment_Schedule env ∧
  cron_ConcurrencyPolicy o = concurrency_policy env ∧ templated credentialsHash envHash autoRedeploy (cron_Template o) ∧
  ∃ c others, PodSpec_Containers (PodTemplateSpec_Spec (cron_Template o)) = c :: others ∧ runs image res c.

Definition cronjob_made (o : CronJob) : Prop :=
  meta_Labels (cron_meta o) = labels ∧ cron_JobLabels o = labels ∧
  PodSpec_ServiceAccountName (PodTemplateSpec_Spec (cron_Template o)) = app_name app ∧
  PodSpec_RestartPolicy (PodTemplateSpec_Spec (cron_Template o)) = "OnFailure" ∧
  Container_Name <$> PodSpec_Containers (PodTemplateSpec_Spec (cron_Template o)) = [app_name app].

Definition served (o : Service) : Prop :=
  annotated (Environment_Annotations env) o ∧ meta_Labels (svc_meta o) = labels ∧ svc_Selector o = labels ∧
  svc_Ports o = [{| ServicePort_Name := "http"; ServicePort_Port := appPort app; ServicePort_TargetPort := appPort app;
                    ServicePort_Protocol := "TCP" |}].

(** A Service of the default type; one that leads outside keeps its type. *)
Definition service_made (o : Service) : Prop := svc_Type o = "" ∧ svc_ExternalName o = "".

Definition routed (provider : option AnnotationProviderConfig) (owned : gmap string string) (o : Ingress) : Prop :=
  annotated (Environment_Annotations env ∪ tls_annotations env owned) o ∧ meta_Labels (ing_meta o) = labels ∧
  ing_Spec o =
    {| IngressSpec_ClassName := p ← provider; if String.eqb (ap_ClassName p) "" then None else Some (ap_ClassName p);
       IngressSpec_Rules :=
         (λ host, {| IngressRule_Host := host; IngressRule_Path := "/"; IngressRule_PathType := "Prefix";
                     IngressRule_Service := app_name app; IngressRule_Port := appPort app |}) <$>
           Environment_Domain env :: Environment_CustomDomains env;
       IngressSpec_TLS := [{| IngressTLS_Hosts := Environment_Domain env :: Environment_CustomDomains env;
                              IngressTLS_SecretName := ingress_tls_name app env |}] |}.

Definition pulls (registry : option string) (o : ServiceAccount) : Prop :=
  meta_Labels (sa_meta o) = labels ∧ sa_ImagePullSecrets o = pull_secrets registry app.
End goals.

Lemma next_keep {Obj} mutate (o : Obj) : next_mutate mutate o = Keep → ∃ x, mutate o = (x, inr false).
Proof. unfold next_mutate. destruct (mutate o) as [x [|[]]]; [done|done|]. by exists x. Qed.

(** *** Resources *)

Section resources.
Context {Q : Quantities}.

Definition reads (asked : string) (given : option string) : Prop :=
  match given with
  | None => asked = ""
  | Some q => asked ≠ "" ∧ ParseQuantity asked = inr q
  end.

Lemma set_resource_reads name request limit rq lm rq' lm' :
  set_resource name request limit (rq, lm) = inr (rq', lm') → rq !! name = None → lm !! name = None →
  reads request (rq' !! name) ∧ reads (if String.eqb limit "" then request else limit) (lm' !! name) ∧
  ∀ k, k ≠ name → rq' !! k = rq !! k ∧ lm' !! k = lm !! k.
Proof.
  unfold set_resource. intros H Hr Hl. destruct (String.eqb_spec request "") as [->|Hreq]; simpl in H.
  - destruct (String.eqb_spec limit "") as [->|Hlim]; [injection H as <- <-; by rewrite Hr, Hl|].
    destruct (ParseQuantity limit) as [e|q] eqn:Ep; [done|]. simpl in H. injection H as <- <-.
    rewrite Hr, lookup_insert_eq. split; [done|]. split; [done|]. intros k Hk. by rewrite lookup_insert_ne.
  - destruct (ParseQuantity request) as [e|q] eqn:Eq; [done|].
    destruct (String.eqb_spec limit "") as [->|Hlim].
    + injection H as <- <-. rewrite !lookup_insert_eq. split; [done|]. split; [done|].
      intros k Hk. by rewrite !lookup_insert_ne.
    + destruct (ParseQuantity limit) as [e|q'] eqn:Ep; [done|]. destruct (Z.ltb _ _); [done|]. injection H as <- <-.
      rewrite !lookup_insert_eq. split; [done|]. split; [done|]. intros k Hk. by rewrite !lookup_insert_ne.
Qed.

Lemma same_quantity a b k asked : same_quantities a b = true → reads asked (b !! k) → quantity_of asked (a !! k).
Proof.
  unfold same_quantities. intros [Hd%bool_decide_eq_true Hf]%andb_true_iff Hr. rewrite forallb_forall in Hf.
  destruct (a !! k) as [q|] eqn:Ea; simpl.
  - specialize (Hf (k, q)). rewrite <-list_elem_of_In, elem_of_map_to_list in Hf. specialize (Hf Ea). simpl in Hf.
    destruct (b !! k) as [p|]; [|done]. destruct Hr as [Hne Hp]. split; [done|]. exists p. split; [done|]. by apply Z.eqb_eq.
  - apply not_elem_of_dom in Ea. rewrite Hd in Ea. apply not_elem_of_dom in Ea. by rewrite Ea in Hr.
Qed.

Lemma reserves_same res rq lm c :
  toResourceRequirements res = inr (rq, lm) → same_quantities (Container_Requests c) rq = true →
  same_quantities (Container_Limits c) lm = true → reserves res c.
Proof.
  unfold toResourceRequirements. destruct (set_resource "cpu" _ _ _) as [e|[rq1 lm1]] eqn:Ec; [done|]. intros Em Hrq Hlm.
  destruct (set_resource_reads _ _ _ _ _ _ _ Ec) as (Hc1 & Hc2 & Hc3); [done..|].
  destruct (set_resource_reads _ _ _ _ _ _ _ Em) as (Hm1 & Hm2 & Hm3); [by apply Hc3..|].
  destruct (Hm3 "cpu") as [E1 E2]; [done|]. rewrite <-E1 in Hc1. rewrite <-E2 in Hc2.
  repeat split; try (by eapply same_quantity).
  - apply not_elem_of_dom. unfold same_quantities in Hrq. apply andb_true_iff in Hrq as [Hd%bool_decide_eq_true _]. rewrite Hd.
    apply not_elem_of_dom. rewrite (proj1 (Hm3 k ltac:(done))). by apply Hc3.
  - apply not_elem_of_dom. unfold same_quantities in Hlm. apply andb_true_iff in Hlm as [Hd%bool_decide_eq_true _]. rewrite Hd.
    apply not_elem_of_dom. rewrite (proj2 (Hm3 k ltac:(done))). by apply Hc3.
Qed.
End resources.

Section kept.
Context {Q : Quantities} (app : App) (env : Environment) (envNs credentialsHash envHash : string) (labels : gmap string string)
  (image : string) (res : ResourceRequirements) (c : Container) (Hc : container_of app env image res = inr c)
  (Hu : user_ok (Environment_Annotations env)).

(** [d] has the fields of [c] that both kinds have. *)
Lemma container_runs ec d :
  containers_differ ec d = false →
  (Container_Image d, Container_EnvFrom d, Container_VolumeMounts d, Container_Requests d, Container_Limits d) =
    (Container_Image c, Container_EnvFrom c, Container_VolumeMounts c, Container_Requests c, Container_Limits c) →
  normalizeContainerSecurityContext (Container_SecurityContext ec) = normalizeContainerSecurityContext (Container_SecurityContext c) →
  runs app env image res ec.
Proof using Hc.
  unfold container_of in Hc. destruct (toResourceRequirements res) as [e|[rq lm]] eqn:Er; [done|]. injection Hc as <-.
  unfold containers_differ, resources_differ.
  rewrite !orb_false_iff, !negb_false_iff, !bool_decide_eq_true, String.eqb_eq. intros H [= Hi He Hv Hrq Hlm] Hsc.
  rewrite Hi, He, Hv, Hrq, Hlm in H. destruct_and!.
  split_and!; try done. by eapply reserves_same.
Qed.

Lemma pod_annotations_lookup k :
  pod_annotations env credentialsHash envHash !! k =
  if bool_decide (k = "mortise.dev/env-hash") && negb (String.eqb envHash "") then Some envHash
  else if bool_decide (k = "mortise.dev/credentials-hash") && negb (String.eqb credentialsHash "") then Some credentialsHash
  else Environment_Annotations env !! k.
Proof.
  unfold pod_annotations, mergeAnnotations, env_hash_annotation. rewrite (right_id_L ∅ _).
  destruct (negb (String.eqb credentialsHash "")), (negb (String.eqb envHash "")); rewrite ?andb_false_r, ?andb_true_r;
    repeat case_bool_decide; subst; try done; by rewrite ?lookup_union, ?lookup_singleton_eq, ?lookup_singleton_ne,
      ?(left_id_L None _), ?union_Some_l by done.
Qed.

Lemma template_templated autoRedeploy t spec ec (same_image : bool) :
  PodSpec_Volumes spec = pod_volumes app env → PodSpec_SecurityContext spec = (workloadSecurityContexts app).1 →
  let dt := with_template labels (pod_annotations env credentialsHash envHash) spec in
  templates_differ t dt ec c
    (template_annotations (PodTemplateSpec_Annotations dt) (PodTemplateSpec_Annotations t) (negb autoRedeploy && same_image)) = false →
  templated app env labels credentialsHash envHash autoRedeploy t ∧
  normalizeContainerSecurityContext (Container_SecurityContext ec) = normalizeContainerSecurityContext (Container_SecurityContext c).
Proof.
  intros Hv Hs dt. unfold templates_differ, annotationsEqual, securityContextsEqual. simpl.
  rewrite !orb_false_iff, !negb_false_iff, andb_true_iff, !bool_decide_eq_true. intros (((H1 & H2) & H3) & H4 & H5).
  split; [|done]. split; [done|]. split; [|split; [by rewrite H1|by rewrite H4, Hs]].
  assert (∀ k, PodTemplateSpec_Annotations t !! k =
    template_annotations (pod_annotations env credentialsHash envHash) (PodTemplateSpec_Annotations t) (negb autoRedeploy && same_image) !! k)
    as Ha by (intros k; by rewrite <-H2).
  split_and!.
  - intros k v Hk Hk1 Hk2. rewrite Ha, template_lookup, carry_lookup, pod_annotations_lookup.
    unfold env_hash_annotation. by rewrite !(bool_decide_false (k = _)), andb_false_r, Hk by done.
  - intros Hne. rewrite Ha, template_lookup, carry_lookup, pod_annotations_lookup.
    by rewrite (proj2 (String.eqb_neq _ _) Hne), (bool_decide_false (_ = env_hash_annotation)), andb_false_r by done.
  - intros -> Hne. rewrite Ha, template_lookup, carry_lookup, pod_annotations_lookup.
    by rewrite (proj2 (String.eqb_neq _ _) Hne).
Qed.

Lemma deployment_kept autoRedeploy o :
  next_mutate (mutate_deployment (desired_deployment app env envNs credentialsHash envHash labels (serving app env image c)) autoRedeploy) o = Keep →
  deployed app env labels image credentialsHash envHash autoRedeploy res o.
Proof using Hu Hc.
  intros [x H]%next_keep. unfold mutate_deployment in H. simpl in H.
  destruct (mergeManagedAnnotations _ _) as [a ch] eqn:Em.
  destruct (PodSpec_Containers (PodTemplateSpec_Spec (dep_Template o))) as [|ec others] eqn:Eo; [done|].
  destruct (negb _) eqn:Eb; [|done]. rewrite negb_true_iff, !orb_false_iff in Eb. destruct Eb as ((((((H1 & H2) & H3) & H4) & H5) & ->) & H6).
  apply (template_templated autoRedeploy (dep_Template o) _ ec) in H6 as [Ht Hsc]; [|done..].
  assert (Container_Env ec = port_env app env image) as Henv.
  { unfold containers_differ in H1. simpl in H1. rewrite !orb_false_iff, !negb_false_iff, !bool_decide_eq_true in H1. by destruct_and!. }
  assert (runs app env image res ec) as Hrun by by apply (container_runs ec (serving app env image c)).
  unfold probes_differ in H2. simpl in H2, H3, H4, H5. rewrite !orb_false_iff, !negb_false_iff, !bool_decide_eq_true in H2.
  rewrite negb_false_iff, bool_decide_eq_true in H3, H4, H5. destruct H2 as [[Hl Hr] Hst].
  split; [by eapply stamp_annotated|]. split; [done|]. split; [done|]. split; [done|].
  exists ec, others. split; [done|]. split; [done|]. split_and!; try done.
  - rewrite Hl. destruct (AppSpec_Storage (App_Spec app)), (Environment_LivenessProbe env); by rewrite ?bool_decide_true, ?bool_decide_false by naive_solver.
  - rewrite Hst. by destruct (Environment_StartupProbe env).
Qed.

Lemma cronjob_kept autoRedeploy o :
  next_mutate (mutate_cronjob (desired_cronjob app env envNs credentialsHash envHash labels c) autoRedeploy) o = Keep →
  scheduled app env labels image credentialsHash envHash autoRedeploy res o.
Proof using Hu Hc.
  intros [x H]%next_keep. unfold mutate_cronjob in H. simpl in H.
  destruct (PodSpec_Containers (PodTemplateSpec_Spec (cron_Template o))) as [|ec others] eqn:Eo; [done|].
  destruct (mergeManagedAnnotations _ _) as [a ch] eqn:Em.
  destruct (negb _) eqn:Eb; [|done]. rewrite negb_true_iff, !orb_false_iff in Eb. destruct Eb as ((((H1 & H2) & H3) & ->) & H6).
  apply (template_templated autoRedeploy (cron_Template o) _ ec) in H6 as [Ht Hsc]; [|done..].
  rewrite negb_false_iff, String.eqb_eq in H2, H3.
  split; [by eapply stamp_annotated|]. do 3 (split; [done|]). exists ec, others. split; [done|]. by apply (container_runs ec c).
Qed.

Lemma service_kept o : next_mutate (mutate_service (desired_service app env envNs labels)) o = Keep → served app env labels o.
Proof using Hu.
  intros [x H]%next_keep. unfold mutate_service in H. destruct (converge_meta _ _) as [m ch] eqn:Em.
  injection H as _ Hb. rewrite !orb_false_iff, !negb_false_iff, !bool_decide_eq_true in Hb. destruct Hb as [[-> Hs] Hp].
  apply converge_kept in Em as [Hl [a Ha]]. split; [|done]. eapply (stamp_annotated (Environment_Annotations env)); [done|].
  simpl in Ha. unfold mergeAnnotations in Ha. rewrite (right_id_L ∅ _) in Ha. exact Ha.
Qed.

Lemma account_kept registry o :
  next_mutate (mutate_account {| sa_meta := object_meta envNs (app_name app) labels ∅; sa_ImagePullSecrets := pull_secrets registry app |}) o = Keep →
  pulls app labels registry o.
Proof.
  intros [x H]%next_keep. unfold mutate_account, imagePullSecretsEqual in H. injection H as _ Hb. simpl in Hb.
  by rewrite !orb_false_iff, !negb_false_iff, !bool_decide_eq_true in Hb.
Qed.

Lemma ingress_kept provider owned o :
  user_ok (mergeAnnotations (tls_annotations env owned) (Environment_Annotations env)) →
  next_mutate (mutate_ingress (desired_ingress provider app env envNs labels owned)) o = Keep → routed app env labels provider owned o.
Proof.
  intros Hall [x H]%next_keep. unfold mutate_ingress in H. destruct (converge_meta _ _) as [m ch] eqn:Em.
  injection H as _ Hb. rewrite !orb_false_iff, !negb_false_iff, !bool_decide_eq_true in Hb. destruct Hb as [Hs ->].
  apply converge_kept in Em as [Hl [a Ha]]. split; [|split; [done|]].
  - by apply (stamp_annotated (mergeAnnotations (tls_annotations env owned) (Environment_Annotations env)) o a).
  - rewrite Hs. by destruct provider.
Qed.
End kept.

(** ** The functions *)

Lemma key_annotation_ok k : k = ExternalDNSHostnameAnnotation ∨ k = CertManagerClusterIssuerAnnotation →
  k ≠ managedAnnotationsKey ∧ k ≠ "" ∧ no_char ","%char k = true.
Proof. by intros [->| ->]. Qed.

(** The annotations of an Ingress are as fit as those of the user. *)
Lemma ingress_user_ok env owned u :
  user_ok u → (∀ k, k ∈ dom owned → k = ExternalDNSHostnameAnnotation ∨ k = CertManagerClusterIssuerAnnotation) →
  user_ok (mergeAnnotations (tls_annotations env owned) u).
Proof.
  intros [Hu Hok] Ho.
  assert (∀ k, k ∈ dom (tls_annotations env owned) → k = ExternalDNSHostnameAnnotation ∨ k = CertManagerClusterIssuerAnnotation) as Ht.
  { intros k. unfold tls_annotations. destruct (Environment_TLS env) as [tls|]; [|apply Ho].
    destruct (negb _); [rewrite dom_delete; intros [H _]%elem_of_difference; by apply Ho|].
    destruct (negb _); [|apply Ho]. rewrite dom_insert, elem_of_union, elem_of_singleton. intros [->|H]; [by right|by apply Ho]. }
  unfold mergeAnnotations. split.
  - apply lookup_union_None. split; [done|]. apply not_elem_of_dom. intros H. apply Ht, key_annotation_ok in H as (? & _). done.
  - intros k. unfold own. rewrite dom_delete, dom_union, elem_of_difference, elem_of_union, elem_of_singleton.
    intros [[H|H] Hk]; [|apply Ht, key_annotation_ok in H as (_ & H); done].
    apply Hok. unfold own. rewrite dom_delete. apply elem_of_difference. by rewrite elem_of_singleton.
Qed.

Section functions.
Context {W : Type} (R : MapRange) {Q : Quantities} {QO : QuantitiesOk} {KR : KubeRetry W} {KRO : KubeRetryOk W}
  {CP : KubeClient W PlatformConfig} {KP : KubeClientOk W PlatformConfig}
  {CS : KubeClient W Secret} {KS : KubeClientOk W Secret}
  {CD : KubeClient W Deployment} {KD : KubeClientOk W Deployment} {DD : KubeDelete W Deployment} {KDD : KubeDeleteOk W Deployment}
  {CC : KubeClient W CronJob} {KC : KubeClientOk W CronJob}
  {CV : KubeClient W Service} {KV : KubeClientOk W Service}
  {CI : KubeClient W Ingress} {KI : KubeClientOk W Ingress}
  {CA : KubeClient W ServiceAccount} {KA : KubeClientOk W ServiceAccount}.

(** The Secrets and the configuration that are read stay as they are. *)
Definition inputs (S : gmap NamespacedName Secret) (PC : gmap NamespacedName PlatformConfig) (w : W) : Prop :=
  kquiet (Obj := Secret) w ∧ kstore (Obj := Secret) w = S ∧
  kquiet (Obj := PlatformConfig) w ∧ kstore (Obj := PlatformConfig) w = PC.

(** Calls on a kind that leave what is read alone, and reads that leave the kind alone. *)
Class ReadsApart (Obj : Type) {O : KubeObject Obj} {C : KubeClient W Obj} {OK : KubeClientOk W Obj} : Prop := {
  ra_secrets :: KubeApart W Obj Secret;
  ra_config :: KubeApart W Obj PlatformConfig;
  ra_read_secrets : ∀ k w, unaffected Obj w (kget (Obj := Secret) k w).1;
  ra_read_config : ∀ k w, unaffected Obj w (kget (Obj := PlatformConfig) k w).1;
}.

(** Nothing changes for the kinds that are written. *)
Definition elsewhere (w w' : W) : Prop :=
  ∀ (Obj : Type) (O : KubeObject Obj) (C : KubeClient W Obj) (OK : KubeClientOk W Obj), ReadsApart Obj → unaffected Obj w w'.

Context (SP : ∀ k w, unaffected PlatformConfig w (kget (Obj := Secret) k w).1)
  (PS : ∀ k w, unaffected Secret w (kget (Obj := PlatformConfig) k w).1).

Lemma inputs_unaffected S PC w w' : unaffected Secret w w' → unaffected PlatformConfig w w' → inputs S PC w → inputs S PC w'.
Proof. intros [E1 Q1] [E2 Q2] (H1 & H2 & H3 & H4). unfold inputs. rewrite E1, E2. auto. Qed.

Lemma inputs_steady {Obj} {O : KubeObject Obj} {C : KubeClient W Obj} {OK : KubeClientOk W Obj} {RA : ReadsApart Obj} S PC :
  steady (Obj := Obj) (inputs S PC).
Proof.
  split_and!; intros x w; apply inputs_unaffected; (apply kget_within || apply kcreate_within || apply kupdate_within).
Qed.

Lemma get_config_quiet S PC k w :
  inputs S PC w → ∃ w', inputs S PC w' ∧ elsewhere w w' ∧
    match PC !! k with
    | Some pc => kget (Obj := PlatformConfig) k w = (w', inr pc)
    | None => ∃ e, kget (Obj := PlatformConfig) k w = (w', inl e)
    end.
Proof using PS.
  intros (H1 & H2 & H3 & H4). destruct (kget_quiet (Obj := PlatformConfig) k w H3) as (w' & Hq & Hs & Hg). exists w'.
  assert ((kget (Obj := PlatformConfig) k w).1 = w') as Hw by (rewrite H4 in Hg; destruct (PC !! k); [by rewrite Hg|by destruct Hg as (e & -> & _)]).
  split; [|split].
  - destruct (PS k w) as [E1 Q1]. rewrite Hw in E1, Q1. unfold inputs. rewrite E1, Hs. auto.
  - intros Obj O C OK RA. pose proof (ra_read_config (Obj := Obj) k w) as H. by rewrite Hw in H.
  - rewrite H4 in Hg. destruct (PC !! k); [done|]. destruct Hg as (e & Hg & _). by exists e.
Qed.

Lemma hash_quiet S PC appName envNs w :
  inputs S PC w → ∃ w', hashEnvSecretData R appName envNs w =
      (w', inr (HashData R (fold_left (λ m name, match S !! (envNs, name) with Some s => map_copy R m (sec_Data s) | None => m end)
                              (envSourceNames appName) ∅))) ∧
    inputs S PC w' ∧ elsewhere w w'.
Proof using SP.
  intros Hin. unfold hashEnvSecretData, EnvHash. generalize (envSourceNames appName), (∅ : gmap string string). intros l.
  revert w Hin. induction l as [|name l IH]; intros w Hin m; cbn [fold_left].
  { exists w. split; [done|]. split; [done|]. intros Obj O C OK RA. reflexivity. }
  destruct Hin as (H1 & H2 & H3 & H4).
  destruct (kget_quiet (Obj := Secret) (envNs, name) w H1) as (w1 & Hq & Hs & Hg).
  assert ((kget (Obj := Secret) (envNs, name) w).1 = w1) as Hw
    by (destruct (kstore w !! _); [by rewrite Hg|by destruct Hg as (e & -> & _)]).
  assert (inputs S PC w1) as Hin1.
  { destruct (SP (envNs, name) w) as [E1 Q1]. rewrite Hw in E1, Q1. unfold inputs. rewrite E1, Hs. auto. }
  assert (envHash_step R envNs (w, m) name = (w1, match S !! (envNs, name) with Some s => map_copy R m (sec_Data s) | None => m end)) as Hstep.
  { unfold envHash_step. rewrite H2 in Hg. destruct (S !! (envNs, name)); [by rewrite Hg|by destruct Hg as (e & -> & _)]. }
  rewrite Hstep. destruct (IH w1 Hin1 (match S !! (envNs, name) with Some s => map_copy R m (sec_Data s) | None => m end))
    as (w' & Hf & Hin' & Hu). exists w'. split; [exact Hf|]. split; [done|]. intros Obj O C OK RA.
  pose proof (ra_read_secrets (Obj := Obj) (envNs, name) w) as H. rewrite Hw in H. etrans; [exact H|by apply Hu].
Qed.

Definition resources_of (PC : gmap NamespacedName PlatformConfig) (env : Environment) : ResourceRequirements :=
  let res := Environment_Resources env in
  if String.eqb (ResourceRequirements_CPU res) "" && String.eqb (ResourceRequirements_Memory res) "" &&
     String.eqb (ResourceRequirements_CPULimit res) "" && String.eqb (ResourceRequirements_MemoryLimit res) "" then
    match PC !! ("", "platform") with
    | Some pc => reserved (DefaultsConfig_Resources (PlatformConfigSpec_Defaults (PlatformConfig_Spec pc)))
    | None => reserved res
    end
  else reserved res.

Lemma container_quiet S PC app env image w :
  inputs S PC w → ∃ w', base_container app env image w = (w', container_of app env image (resources_of PC env)) ∧
    inputs S PC w' ∧ elsewhere w w'.
Proof using PS.
  intros Hin. unfold base_container, effectiveResources, resources_of. destruct (_ && _ && _ && _).
  - destruct (get_config_quiet S PC ("", "platform") w Hin) as (w' & Hin' & Hu & Hg). exists w'.
    destruct (PC !! ("", "platform")); [by rewrite Hg|]. by destruct Hg as (e & ->).
  - exists w. split; [done|]. split; [done|]. intros Obj O C OK RA. reflexivity.
Qed.

(** Nothing more is said of what is made. *)
Definition any {Obj : Type} (o : Obj) : Prop := True.

Section conclusion.
Context (app : App) (env : Environment) (envNs : string) (labels : gmap string string)
  (Hlabels : appLabels app (Environment_Name env) = Some labels) (Hu : user_ok (Environment_Annotations env))
  (S : gmap NamespacedName Secret) (PC : gmap NamespacedName PlatformConfig).

Lemma desired_managed {Obj} {O : KubeObject Obj} (o : Obj) ns name annotations :
  obj_meta o = object_meta ns name labels annotations → isMortiseManaged o = true ∧ marked (obj_meta o) = true ∧ obj_key o = (ns, name).
Proof using Hlabels.
  intros Ho. pose proof (appLabels_managed _ _ _ Hlabels) as Hm.
  destruct (object_managed o ns name labels annotations Ho Hm) as [H1 H2]. split; [done|]. split; [|done]. exact H1.
Qed.

(** Without labels or with refused resources the functions fail. *)
Lemma with_labels_run {A} (k : gmap string string → E W A) w : with_app_labels app (Environment_Name env) k w = k labels w.
Proof using Hlabels. unfold with_app_labels. by rewrite Hlabels. Qed.

Definition env_hash_of (appName : string) : string :=
  HashData R (fold_left (λ m name, match S !! (envNs, name) with Some s => map_copy R m (sec_Data s) | None => m end)
                (envSourceNames appName) ∅).

Lemma read_hash {Obj} {O : KubeObject Obj} {C : KubeClient W Obj} {OK : KubeClientOk W Obj} {RA : ReadsApart Obj} w :
  inputs S PC w → ∃ w', hashEnvSecretData R (app_name app) envNs w = (w', inr (env_hash_of (app_name app))) ∧ inputs S PC w' ∧ unaffected Obj w w'.
Proof using SP.
  intros Hin. destruct (hash_quiet S PC (app_name app) envNs w Hin) as (w2 & Hh & Hin2 & Hel). exists w2.
  split; [exact Hh|]. split; [done|]. by apply Hel.
Qed.

Lemma read_container {Obj} {O : KubeObject Obj} {C : KubeClient W Obj} {OK : KubeClientOk W Obj} {RA : ReadsApart Obj} image w :
  inputs S PC w → ∃ w', base_container app env image w = (w', container_of app env image (resources_of PC env)) ∧ inputs S PC w' ∧ unaffected Obj w w'.
Proof using PS.
  intros Hin. destruct (container_quiet S PC app env image w Hin) as (w2 & Hc & Hin2 & Hel). exists w2.
  split; [exact Hc|]. split; [done|]. by apply Hel.
Qed.

(** Resources that are refused fail every pass. *)
Lemma refused_settles {Obj} {O : KubeObject Obj} {C : KubeClient W Obj} {OK : KubeClientOk W Obj} (RA : ReadsApart Deployment) image err
    (k : string → Container → E W unit) key (good made : Obj → Prop) w :
  container_of app env image (resources_of PC env) = inl err → inputs S PC w →
  settles (h ← hashEnvSecretData R (app_name app) envNs; c ← base_container app env image; k h c) key good made w.
Proof using SP PS.
  intros Ec Hin w1 Hf. exfalso. destruct (read_hash (Obj := Deployment) w Hin) as (w2 & Hh & Hin2 & _).
  destruct (read_container (Obj := Deployment) image w2 Hin2) as (w3 & Hc & _). unfold mbind, E_bind in Hf.
  by rewrite Hh, Hc, Ec in Hf.
Qed.

(** *** Deployments *)

Lemma mismatch_selector o1 o2 desired : dep_Selector o1 = dep_Selector o2 →
  deploymentSelectorMismatch o1 desired = deploymentSelectorMismatch o2 desired.
Proof. intros H. unfold deploymentSelectorMismatch. by rewrite H. Qed.

Lemma mismatch_self desired l : dep_Selector desired = Some l → PodTemplateSpec_Labels (dep_Template desired) = l →
  deploymentSelectorMismatch desired desired = false.
Proof.
  intros Hs Hl. unfold deploymentSelectorMismatch. rewrite Hs, Hl, bool_decide_true by done. simpl.
  apply negb_false_iff, forallb_forall. intros [k v] Hkv. apply list_elem_of_In, elem_of_map_to_list in Hkv.
  unfold map_get. rewrite Hkv. apply String.eqb_refl.
Qed.

Lemma deployment_errors desired autoRedeploy : plain_errors (mutate_deployment desired autoRedeploy).
Proof.
  intros o new e. unfold mutate_deployment. destruct (PodSpec_Containers _); [by intros [= <- <-]|].
  destruct (mergeManagedAnnotations _ _). destruct (PodSpec_Containers _); [by intros [= <- <-]|]. by destruct (negb _).
Qed.

Lemma deployment_selector desired autoRedeploy o new :
  next_mutate (mutate_deployment desired autoRedeploy) o = Put new → dep_Selector new = dep_Selector o.
Proof.
  unfold next_mutate, mutate_deployment. destruct (PodSpec_Containers _); [done|]. destruct (mergeManagedAnnotations _ _).
  destruct (PodSpec_Containers _); [done|]. destruct (negb _); [done|]. by intros [= <-].
Qed.

Lemma mutate_no_remove {Obj} (mutate : Obj → Obj * (error + bool)) o : next_mutate mutate o ≠ Remove.
Proof. unfold next_mutate. by destruct (mutate o) as [? [|[]]]. Qed.

(** What a pass finds: a Deployment with another selector goes, others converge. *)
Definition deployment_found (desired : Deployment) (autoRedeploy : bool) (o : Deployment) : act Deployment :=
  if deploymentSelectorMismatch o desired then Remove else next_mutate (mutate_deployment desired autoRedeploy) o.

Context (DS : ∀ key w, unaffected Secret w (kdelete Deployment key w).1)
  (DP : ∀ key w, unaffected PlatformConfig w (kdelete Deployment key w).1).

Lemma found_quiet {RA : ReadsApart Deployment} desired autoRedeploy key o w :
  inputs S PC w → kquiet (Obj := Deployment) w → kstore w !! key = Some o → isMortiseManaged o = true →
  ∃ w' r,
    (if deploymentSelectorMismatch o desired
     then wrapping "delete Deployment with stale selector: %w" [] (run (kdelete Deployment (obj_key o)))
     else settle "Deployment" key (mutate_deployment desired autoRedeploy)) w = (w', r) ∧
    inputs S PC w' ∧ kquiet (Obj := Deployment) w' ∧
    match deployment_found desired autoRedeploy o with
    | Keep => r = inr tt ∧ kstore (Obj := Deployment) w' = kstore w
    | Put new => r = inr tt ∧ obj_key new = key ∧ ∃ rv, kstore w' = <[key := obj_with_rv rv new]> (kstore w)
    | Remove => r = inr tt ∧ kstore (Obj := Deployment) w' = delete key (kstore w)
    | Fails => r ≠ inr tt
    end.
Proof using All.
  intros Hin Hq Ho Hman. unfold deployment_found. pose proof (kstore_key _ _ _ Ho) as Hko. destruct (deploymentSelectorMismatch o desired).
  - destruct (kdelete_quiet (Obj := Deployment) (obj_key o) w Hq) as (w2 & Hq2 & Hs2 & Hd). rewrite Hko, Ho in Hd.
    exists w2, (inr tt). unfold wrapping, run. rewrite Hko, Hd. split; [done|]. split; [|by rewrite Hs2, Hko].
    pose proof (DS key w) as HS. pose proof (DP key w) as HP'. rewrite Hd in HS, HP'. by apply (inputs_unaffected S PC w).
  - destruct (settled_quiet (inputs S PC) key (inputs_steady S PC) "Deployment" (mutate_deployment desired autoRedeploy) w o)
      as (w2 & r & H1 & H2 & H3 & H4); try done.
    + intros o1 new. apply mutate_deployment_rewrites.
    + apply deployment_errors.
    + exists w2, r. by destruct (next_mutate _ o).
Qed.

Lemma container_named image res (c : Container) : container_of app env image res = inr c → Container_Name c = app_name app.
Proof. unfold container_of. destruct (toResourceRequirements res) as [e|[]]; [done|]. by intros [= <-]. Qed.

Lemma deployment_settles {RA : ReadsApart Deployment} image credentialsHash autoRedeploy w :
  inputs S PC w → kquiet (Obj := Deployment) w →
  settles (reconcileDeployment R app env envNs image credentialsHash autoRedeploy) (envNs, app_name app)
    (deployed app env labels image credentialsHash (env_hash_of (app_name app)) autoRedeploy (resources_of PC env)) (deployment_made app labels) w.
Proof using All.
  intros Hin Hq. destruct (container_of app env image (resources_of PC env)) as [err|c] eqn:Ec.
  { by apply (refused_settles RA image err (λ h c, _)). }
  set (h := env_hash_of (app_name app)).
  set (desired := desired_deployment app env envNs credentialsHash h labels (serving app env image c)).
  assert (isMortiseManaged desired = true ∧ marked (obj_meta desired) = true ∧ obj_key desired = (envNs, app_name app)) as (Hm & Hmark & Hkey)
    by by eapply desired_managed.
  pose proof (deployment_settling desired (serving app env image c) autoRedeploy eq_refl (stamp_stable _ Hu) Hmark) as Hs.
  assert (deploymentSelectorMismatch desired desired = false) as Hself by by apply (mismatch_self desired labels).
  apply (settles_ext (reconcileDeployment R app env envNs image credentialsHash autoRedeploy) _ _
    (λ o, next_mutate (mutate_deployment desired autoRedeploy) o = Keep)); [done| |].
  { intros o. by apply (deployment_kept app env envNs credentialsHash h labels image _ c Ec Hu autoRedeploy o). }
  assert (∀ rv, deployment_made app labels (obj_with_rv rv desired)) as Hmade.
  { intros rv. apply container_named in Ec. unfold deployment_made. simpl. rewrite Ec. split_and!; try done.
    unfold deploymentStrategy. by destruct (AppSpec_Storage (App_Spec app)). }
  refine (next_settles (inputs S PC) _ _ desired (mutate_deployment desired autoRedeploy) (deployment_found desired autoRedeploy) _ w
    _ Hm Hs _ _ _ Hmade Hin Hq).
  - unfold reconcileDeployment. apply (describes_after (inputs S PC) _ _ _ h); [intros w1 Hin1 _; by apply read_hash|].
    apply (describes_after (inputs S PC) _ _ _ c); [intros w1 Hin1 _; rewrite <-Ec; by apply read_container|].
    intros w1 Hin1 Hq1. rewrite with_labels_run. fold desired. cbv zeta. revert w1 Hin1 Hq1.
    apply (upsert_quiet (inputs S PC) _ (inputs_steady S PC)); [done| |].
    + intros w1 Hin1 Hq1 Hn. by apply (created_quiet (inputs S PC) _ (inputs_steady S PC)).
    + intros o w1. apply found_quiet.
  - intros o. unfold deployment_found. destruct (deploymentSelectorMismatch o desired); [by left|by right].
  - intros rv. unfold deployment_found. rewrite (mismatch_selector _ desired), Hself by done. apply mutate_no_remove.
  - intros o new rv. unfold deployment_found at 1. destruct (deploymentSelectorMismatch o desired) eqn:Emis; [done|].
    intros Hn%deployment_selector. unfold deployment_found. rewrite (mismatch_selector _ o), Emis by done. apply mutate_no_remove.
Qed.
(** *** The other kinds *)

Lemma cronjob_settles {RA : ReadsApart CronJob} {RD : ReadsApart Deployment} image credentialsHash autoRedeploy w :
  inputs S PC w → kquiet (Obj := CronJob) w →
  settles (reconcileCronJob R app env envNs image credentialsHash autoRedeploy) (envNs, app_name app)
    (scheduled app env labels image credentialsHash (env_hash_of (app_name app)) autoRedeploy (resources_of PC env)) (cronjob_made app labels) w.
Proof using All.
  intros Hin Hq. destruct (container_of app env image (resources_of PC env)) as [err|c] eqn:Ec.
  { by apply (refused_settles RD image err (λ h c, _)). }
  set (h := env_hash_of (app_name app)).
  set (desired := desired_cronjob app env envNs credentialsHash h labels c).
  assert (isMortiseManaged desired = true ∧ marked (obj_meta desired) = true ∧ obj_key desired = (envNs, app_name app)) as (Hm & Hmark & Hkey)
    by by eapply desired_managed.
  pose proof (cronjob_settling desired c autoRedeploy eq_refl (stamp_stable _ Hu) Hmark) as Hs.
  apply (settles_ext (reconcileCronJob R app env envNs image credentialsHash autoRedeploy) _ _
    (λ o, next_mutate (mutate_cronjob desired autoRedeploy) o = Keep)); [done| |].
  { intros o. by apply (cronjob_kept app env envNs credentialsHash h labels image _ c Ec Hu autoRedeploy o). }
  assert (∀ rv, cronjob_made app labels (obj_with_rv rv desired)) as Hmade.
  { intros rv. apply container_named in Ec. unfold cronjob_made. simpl. by rewrite Ec. }
  destruct (upsert_settles (inputs S PC) (inputs_steady S PC) (envNs, app_name app) (cronjob_made app labels) "CronJob" desired (run (kcreate desired))
    (mutate_cronjob desired autoRedeploy) w Hkey Hm Hs) as [Hd _].
  - intros o new. apply mutate_cronjob_rewrites.
  - intros o new e. unfold mutate_cronjob. destruct (PodSpec_Containers _); [by intros [= <- <-]|].
    destruct (PodSpec_Containers _); [by intros [= <- <-]|]. destruct (mergeManagedAnnotations _ _). by destruct (negb _).
  - intros w1 Hin1 Hq1 Hn. by apply (created_quiet (inputs S PC) _ (inputs_steady S PC)).
  - refine (next_settles (inputs S PC) _ _ desired _ (next_mutate (mutate_cronjob desired autoRedeploy)) _ w _ Hm Hs _ _ _ Hmade Hin Hq).
    + unfold reconcileCronJob. apply (describes_after (inputs S PC) _ _ _ h); [intros w1 Hin1 _; by apply read_hash|].
      apply (describes_after (inputs S PC) _ _ _ c); [intros w1 Hin1 _; rewrite <-Ec; by apply read_container|].
      intros w1 Hin1 Hq1. rewrite with_labels_run. fold desired. cbv zeta. by apply Hd.
    + intros o. by right.
    + intros rv. apply mutate_no_remove.
    + intros o new rv _. apply mutate_no_remove.
Qed.

Lemma service_settles w : kquiet (Obj := Service) w → settles (reconcileService app env envNs) (envNs, app_name app) (served app env labels) service_made w.
Proof using All.
  intros Hq. set (desired := desired_service app env envNs labels).
  assert (isMortiseManaged desired = true ∧ marked (obj_meta desired) = true ∧ obj_key desired = (envNs, app_name app)) as (Hm & Hmark & Hkey)
    by by eapply desired_managed.
  assert (settling desired (mutate_service desired)) as Hs.
  { apply service_settling; [done|]. simpl. unfold mergeAnnotations. rewrite (right_id_L ∅ _). by apply stamp_stable. }
  refine (settles_ext _ _ _ _ _ _ w (λ w, eq_sym (with_labels_run _ w)) (λ o, service_kept app env envNs labels Hu o) _).
  cbv zeta. fold desired.
  refine (proj2 (upsert_settles (λ _, True) steady_true (envNs, app_name app) service_made "Service" desired _ (mutate_service desired) w
    Hkey Hm Hs _ _ _) (λ rv, conj eq_refl eq_refl) I Hq).
  - intros o new. unfold mutate_service. destruct (converge_meta _ _) as [m ch] eqn:Em. intros [= <- _].
    apply (converged_rewrites _ _ (svc_meta desired)). exact (eq_sym (f_equal fst Em)).
  - intros o new e. unfold mutate_service. by destruct (converge_meta _ _).
  - intros w1 _ Hq1 Hn. by apply (create_or_quiet (λ _, True) _ steady_true).
Qed.

Lemma account_settles registry w :
  kquiet (Obj := ServiceAccount) w →
  settles (reconcileServiceAccount registry app envNs (Environment_Name env)) (envNs, app_name app) (pulls app labels registry) any w.
Proof using All.
  intros Hq. set (desired := {| sa_meta := object_meta envNs (app_name app) labels ∅; sa_ImagePullSecrets := pull_secrets registry app |}).
  assert (isMortiseManaged desired = true ∧ marked (obj_meta desired) = true ∧ obj_key desired = (envNs, app_name app)) as (Hm & Hmark & Hkey)
    by by eapply desired_managed.
  pose proof (account_settling desired Hmark) as Hs. pose proof (steady_true (W := W) (Obj := ServiceAccount)) as Hsteady.
  refine (settles_ext _ _ _ _ _ _ w (λ w, eq_sym (with_labels_run _ w)) (λ o, account_kept app envNs labels registry o) _). cbv zeta. fold desired.
  refine (next_settles (λ _, True) _ _ desired _ (next_mutate (mutate_account desired)) _ w _ Hm Hs _ _ _ (λ _, I) I Hq).
  - apply (upsert_quiet (λ _, True) _ Hsteady); [done| |].
    + intros w1 _ Hq1 Hn. by apply (created_quiet (λ _, True) _ Hsteady).
    + intros o w1 _ Hq1 Ho Hman. destruct (bool_decide _ && imagePullSecretsEqual _ _) eqn:Eb.
      * exists w1, (inr tt). unfold next_mutate, mutate_account. simpl in Eb |- *. apply andb_true_iff in Eb as [-> ->]. done.
      * destruct (settled_quiet (λ _, True) (envNs, app_name app) Hsteady "ServiceAccount" (mutate_account desired) w1 o) as (w2 & r & H1 & H2 & H3 & H4); try done.
        { intros o1 new [= <- _]. by eapply relabelled. }
        exists w2, r. by destruct (next_mutate _ o).
  - intros o. by right.
  - intros rv. apply mutate_no_remove.
  - intros o new rv _. apply mutate_no_remove.
Qed.

(** The annotations of the provider, as the configuration says. *)
Definition owned_of (provider : option AnnotationProviderConfig) : gmap string string :=
  match provider with
  | None => ∅
  | Some p =>
    let issuer :=
      if ap_Reader p then
        match PC !! ("", "platform") with
        | Some pc =>
          let issuer := TLSConfig_CertManagerClusterIssuer (PlatformConfigSpec_TLS (PlatformConfig_Spec pc)) in
          if String.eqb issuer "" then ap_DefaultClusterIssuer p else issuer
        | None => ap_DefaultClusterIssuer p
        end
      else ap_DefaultClusterIssuer p in
    let out : gmap string string := {[ExternalDNSHostnameAnnotation := join "," (ingress_hosts env)]} in
    if String.eqb issuer "" then out else <[CertManagerClusterIssuerAnnotation := issuer]> out
  end.

Lemma owned_keys provider k : k ∈ dom (owned_of provider) → k = ExternalDNSHostnameAnnotation ∨ k = CertManagerClusterIssuerAnnotation.
Proof.
  unfold owned_of. destruct provider as [p|]; [|by rewrite dom_empty, elem_of_empty]. cbv zeta.
  match goal with |- context [if ?b then _ else _] => destruct b end;
    [rewrite dom_singleton, elem_of_singleton; by left|rewrite dom_insert, dom_singleton; set_solver].
Qed.

Lemma provider_quiet {RA : ReadsApart Ingress} provider w :
  inputs S PC w → ∃ w', match provider with Some p => provider_annotations p (ingress_hosts env) w | None => (w, ∅) end = (w', owned_of provider) ∧
    inputs S PC w' ∧ unaffected Ingress w w'.
Proof using PS.
  intros Hin. destruct provider as [p|]; [|by exists w]. unfold provider_annotations, resolveClusterIssuer, owned_of. simpl.
  destruct (ap_Reader p); [|by exists w].
  destruct (get_config_quiet S PC ("", "platform") w Hin) as (w' & Hin' & Hel & Hg). exists w'.
  destruct (PC !! ("", "platform")); [rewrite Hg|destruct Hg as (e & ->)]; (split; [done|]; split; [done|by apply Hel]).
Qed.

Lemma ingress_settles {RA : ReadsApart Ingress} provider w :
  inputs S PC w → kquiet (Obj := Ingress) w →
  settles (reconcileIngress provider app env envNs) (envNs, app_name app) (routed app env labels provider (owned_of provider)) any w.
Proof using All.
  intros Hin Hq. set (owned := owned_of provider). set (desired := desired_ingress provider app env envNs labels owned).
  assert (user_ok (mergeAnnotations (tls_annotations env owned) (Environment_Annotations env))) as Hall
    by (apply ingress_user_ok; [done|]; intros k; apply owned_keys).
  assert (isMortiseManaged desired = true ∧ marked (obj_meta desired) = true ∧ obj_key desired = (envNs, app_name app)) as (Hm & Hmark & Hkey)
    by by eapply desired_managed.
  pose proof (ingress_settling desired Hmark (stamp_stable _ Hall)) as Hs.
  apply (settles_ext (reconcileIngress provider app env envNs) _ _ (λ o, next_mutate (mutate_ingress desired) o = Keep)); [done| |].
  { intros o. by apply (ingress_kept app env envNs labels provider owned). }
  destruct (upsert_settles (inputs S PC) (inputs_steady S PC) (envNs, app_name app) any "Ingress" desired (run (kcreate desired))
    (mutate_ingress desired) w Hkey Hm Hs) as [Hd _].
  - intros o new. unfold mutate_ingress. destruct (converge_meta _ _) as [m ch] eqn:Em. intros [= <- _].
    apply (converged_rewrites _ _ (ing_meta desired)). exact (eq_sym (f_equal fst Em)).
  - intros o new e. unfold mutate_ingress. by destruct (converge_meta _ _).
  - intros w1 Hin1 Hq1 Hn. by apply (created_quiet (inputs S PC) _ (inputs_steady S PC)).
  - refine (next_settles (inputs S PC) _ _ desired _ (next_mutate (mutate_ingress desired)) _ w _ Hm Hs _ _ _ (λ _, I) Hin Hq).
    + intros w1 Hin1 Hq1. destruct (provider_quiet provider w1 Hin1) as (w2 & Hp & Hin2 & [Hs2 Hq2]).
      unfold reconcileIngress. rewrite Hp, with_labels_run. rewrite <-Hs2. by apply Hd, Hq2.
    + intros o. by right.
    + intros rv. apply mutate_no_remove.
    + intros o new rv _. apply mutate_no_remove.
Qed.

(** C11: Without other writers a workload that was reconciled without an error settles: after
    another pass the Deployment, CronJob, Service, Ingress and service account of the app
    are as the app, the environment and the platform ask for in everything that the passes
    converge, no other object has changed, and the pass after that writes nothing.  What is
    set only when an object is made (the strategy, the selector, the labels and the service
    account of a Deployment, the type of a Service) is as asked for if there was none
    before; a later change of it is not carried over. *)
Theorem workloads_settle {RD : ReadsApart Deployment} {RC : ReadsApart CronJob} {RI : ReadsApart Ingress}
    provider registry image credentialsHash autoRedeploy w :
  inputs S PC w → kquiet (Obj := Deployment) w → kquiet (Obj := CronJob) w → kquiet (Obj := Service) w →
  kquiet (Obj := Ingress) w → kquiet (Obj := ServiceAccount) w →
  settles (reconcileDeployment R app env envNs image credentialsHash autoRedeploy) (envNs, app_name app)
    (deployed app env labels image credentialsHash (env_hash_of (app_name app)) autoRedeploy (resources_of PC env)) (deployment_made app labels) w ∧
  settles (reconcileCronJob R app env envNs image credentialsHash autoRedeploy) (envNs, app_name app)
    (scheduled app env labels image credentialsHash (env_hash_of (app_name app)) autoRedeploy (resources_of PC env)) (cronjob_made app labels) w ∧
  settles (reconcileService app env envNs) (envNs, app_name app) (served app env labels) service_made w ∧
  settles (reconcileIngress provider app env envNs) (envNs, app_name app) (routed app env labels provider (owned_of provider)) any w ∧
  settles (reconcileServiceAccount registry app envNs (Environment_Name env)) (envNs, app_name app) (pulls app labels registry) any w.
Proof using All.
  intros. split_and!; [by apply deployment_settles|by apply cronjob_settles|by apply service_settles|by apply ingress_settles|by apply account_settles].
Qed.
End conclusion.
End functions.
