(* ===== verification/AppLifecycle.v ===== *)
(** * The life of an app: [internal/controller/app_controller.go]

    Finalizers, the bindings of apps to one that goes, the pass over an app that is
    deleted, and what a failure of a pass comes to ([envResourceError]). *)

From S2P Require Import Prelude GoStrings GoTime GoText Kube Core Api KubeStatus Effects Constants Controller BuildRun AppBuild EnvStore EnvReconcile ProjectReconcile ApiServer AppGc AppWorkloads.

Definition appFinalizer : string := AppFinalizer.

Definition appRBACForbiddenCondition : string := "RBACForbidden".
Definition appNamespacePendingCondition : string := "NamespacePending".
Definition appResourceConflictCondition : string := "ResourceConflict".
Definition appEnvVarInvalidCondition : string := "EnvVarInvalid".
Definition namespaceCreationBudget : Z := 2 * Minute.

(** ** Bindings *)

(** The bindings of an app that are not gone, and whether there were others. *)
Definition drop_bindings (gone : string → bool) (app : App) : App * bool :=
  let envs := AppSpec_Environments (App_Spec app) in
  let changed := existsb (λ env, existsb (λ b, gone (Binding_Ref b)) (Environment_Bindings env)) envs in
  (with_App_Spec (with_AppSpec_Environments
     ((λ env, with_Environment_Bindings (List.filter (λ b, negb (gone (Binding_Ref b))) (Environment_Bindings env)) env) <$> envs)
     (App_Spec app)) app, changed).

Definition binding_refs (app : App) : list string :=
  AppSpec_Environments (App_Spec app) ≫= λ env, List.filter (λ ref, negb (String.eqb ref "")) (Binding_Ref <$> Environment_Bindings env).

Section lifecycle.
Context {W : Type} {CA : KubeClient W App} {LA : KubeListIn W App} {KR : KubeRetry W} {FH : FinalizerHelpers}.

Definition with_meta (m : ObjectMeta) (app : App) : App := with_App_ObjectMeta m app.

Definition addAppFinalizerWithRetry (key : NamespacedName) : W → W * option error :=
  UpdateWithConflictRetry key (λ fresh : App,
    if ContainsFinalizer (App_ObjectMeta fresh) appFinalizer then (fresh, inr false)
    else (with_meta (AddFinalizer (App_ObjectMeta fresh) appFinalizer).1 fresh, inr true)).

Definition setAppAnnotationWithRetry (key : NamespacedName) (annotationKey annotationValue : string) : W → W * option error :=
  UpdateWithConflictRetry key (λ fresh : App,
    let annotations := meta_Annotations (App_ObjectMeta fresh) in
    if String.eqb (map_get annotations annotationKey) annotationValue then (fresh, inr false)
    else (with_meta (with_annotations (<[annotationKey := annotationValue]> annotations) (App_ObjectMeta fresh)) fresh, inr true)).

(** An app that is not there any more has no finalizer to remove. *)
Definition removeAppFinalizerWithRetry (key : NamespacedName) : W → W * option error :=
  RetryOnConflict (λ w,
    match kget (Obj := App) key w with
    | (w, inl err) => (w, if IsNotFound err then None else Some err)
    | (w, inr fresh) =>
      if ContainsFinalizer (App_ObjectMeta fresh) appFinalizer
      then kupdate (with_meta (RemoveFinalizer (App_ObjectMeta fresh) appFinalizer) fresh) w
      else (w, None)
    end).

(** *** Bindings to an app that goes *)

Definition prune_fresh (name : string) (fresh : App) : App * (error + bool) :=
  if deleting (App_ObjectMeta fresh) then (fresh, inr false)
  else let '(pruned, updated) := drop_bindings (String.eqb name) fresh in
       if updated then (pruned, inr true) else (fresh, inr false).

Definition prune_consumer (name : string) (consumer : App) : E W unit :=
  if String.eqb (app_name consumer) name || deleting (App_ObjectMeta consumer) then mret tt
  else if (drop_bindings (String.eqb name) consumer).2
  then run (UpdateWithConflictRetry (obj_key consumer) (prune_fresh name))
  else mret tt.

Definition pruneBindingsToDeletedApp (deletedApp : App) : E W unit :=
  if String.eqb (app_name deletedApp) "" || String.eqb (app_ns deletedApp) "" then mret tt
  else
    apps ← klist_in (Obj := App) (app_ns deletedApp) ∅;
    for_each (prune_consumer (app_name deletedApp)) apps.

(** *** Bindings to apps that are not there *)

Context (R : MapRange) {KRP : KubeRetry (W * (option App * bool))}.

(** The range over the references: which of them are missing. *)
Fixpoint missing_refs (namespace : string) (refs : list string) (missing : gset string) : E W (gset string) :=
  match refs with
  | [] => mret missing
  | ref :: refs => λ w,
    match kget (Obj := App) (namespace, ref) w with
    | (w, inl err) =>
      if IsNotFound err then missing_refs namespace refs ({[ref]} ∪ missing) w else (w, inl err)
    | (w, inr bound) =>
      missing_refs namespace refs (if deleting (App_ObjectMeta bound) then {[ref]} ∪ missing else missing) w
    end
  end.

Definition ref_set (app : App) : gmap string unit := gset_to_gmap tt (list_to_set (binding_refs app)).

Definition removeDanglingBindings (app : App) : E W (App * bool) :=
  if String.eqb (app_ns app) "" then mret (app, false)
  else
    missing ← missing_refs (app_ns app) (range (ref_set app)).*1 ∅;
    mret (if bool_decide (missing = ∅) then (app, false) else drop_bindings (λ ref, bool_decide (ref ∈ missing)) app).

(** One attempt; the state is the copy of the last read and whether it was written. *)
Definition prune_attempt (key : NamespacedName) '((w, s) : W * (option App * bool)) : W * (option App * bool) * option error :=
  match kget key w with
  | (w, inl err) => ((w, s), Some err)
  | (w, inr fresh) =>
    match removeDanglingBindings fresh w with
    | (w, inl err) => ((w, s), Some err)
    | (w, inr (_, false)) => ((w, (Some fresh, s.2)), None)
    | (w, inr (pruned, true)) =>
      match kupdate pruned w with
      | (w, Some err) => ((w, s), Some err)
      | (w, None) => ((w, (Some pruned, true)), None)
      end
    end
  end.

(** The app as it is then, and whether it was written. *)
Definition pruneMissingBindingsForConsumer (app : App) : E W (App * bool) := λ w,
  if String.eqb (app_name app) "" || String.eqb (app_ns app) "" then (w, inr (app, false))
  else
    match RetryOnConflict (prune_attempt (obj_key app)) (w, (None, false)) with
    | ((w, _), Some err) => (w, inl err)
    | ((w, (updated, pruned)), None) => (w, inr (default app updated, pruned))
    end.
End lifecycle.

(** ** The pass over an app that is deleted *)

Section deletion.
Context {W : Type} {CA : KubeClient W App} {LA : KubeListIn W App} {KR : KubeRetry W} {FH : FinalizerHelpers}
  {T : gc_kind → Type} {KO : ∀ k, KubeObject (T k)} {KL : ∀ k, KubeListIn W (T k)} {KD : ∀ k, KubeDelete W (T k)}
  {CN : KubeClient W Namespace} {LN : KubeListIn W Namespace}.

(** The branch of [Reconcile] for an app with a deletion time. *)
Definition reconcile_deleted (app : App) : E W Result :=
  if ContainsFinalizer (App_ObjectMeta app) appFinalizer then
    _ ← wrapping "prune dangling bindings: %w" [] (pruneBindingsToDeletedApp app);
    _ ← wrapping "gc app across envs: %w" [] (gcAppAcrossEnvs (T := T) app);
    _ ← wrapping "remove finalizer: %w" [] (run (removeAppFinalizerWithRetry (obj_key app)));
    mret Done
  else mret Done.
End deletion.

(** ** Failures of a pass *)

(** [errors.As] for [envVarResolutionError]. *)
Fixpoint env_var_error (err : error) : bool :=
  match err with
  | Wrapf fmt args cause => bool_decide (err = envVarResolutionError cause) || env_var_error cause
  | _ => false
  end.

Section failures.
Context {W : Type} {CA : KubeClient W App} {SA : KubeStatus W App} {CN : KubeClient W Namespace} {KR : KubeRetry W} {CH : ConditionHelpers}
  (now : W → Time).

Definition app_condition (app : App) (type reason message : string) (time : Time) : Condition :=
  {| Condition_Type := type; Condition_Status := "True"; Condition_ObservedGeneration := meta_Generation (App_ObjectMeta app);
     Condition_LastTransitionTime := time; Condition_Reason := reason; Condition_Message := message |}.

Definition set_condition (c : Condition) (s : AppStatus) : AppStatus :=
  with_AppStatus_Conditions (SetStatusCondition c (AppStatus_Conditions s)) s.

Definition failed_with (c : Condition) (s : AppStatus) : AppStatus := set_condition c (with_AppStatus_Phase AppPhaseFailed s).

(** The status is written, and an error of that is only logged. *)
Definition mark_app (app : App) (mutate : AppStatus → AppStatus) (w : W) : W := (updateAppStatus app mutate w).1.

(** Whether the condition of a missing namespace is older than the budget. *)
Definition pending_too_long (app : App) (t : Time) : bool :=
  match FindStatusCondition (AppStatus_Conditions (App_Status app)) appNamespacePendingCondition with
  | Some c => String.eqb (Condition_Status c) "True" && (namespaceCreationBudget <=? time_sub t (Condition_LastTransitionTime c))%Z
  | None => false
  end.

Definition envResourceError (app : App) (envNs envName op : string) (err : error) : E W Result := λ w,
  let wrapped := Wrapf "%s for env %s: %w" [op; envName] err in
  let fail type reason message w := (mark_app app (failed_with (app_condition app type reason message 0)) w, inl wrapped) in
  match errors_As "resourceConflictError" err with
  | Some _ => fail appResourceConflictCondition "ResourceConflict" (error_text wrapped) w
  | None =>
    if env_var_error err then fail appEnvVarInvalidCondition "InvalidValueFrom" (error_text wrapped) w
    else if negb (IsForbidden err) then (w, inl wrapped)
    else
      match kget (Obj := Namespace) ("", envNs) w with
      | (w, inl getErr) =>
        if negb (IsNotFound getErr) then (w, inl wrapped)
        else if pending_too_long app (now w) then
          fail appNamespacePendingCondition "NamespaceCreationTimeout"
            (sprintf "namespace %q still absent after %s; the Project controller cannot create it — check its status and operator RBAC (%s)"
               [envNs; "2m0s"; error_text wrapped]) w
        else
          (mark_app app (set_condition (app_condition app appNamespacePendingCondition "NamespaceNotFound"
             (sprintf "waiting for namespace %q to be created (%s)" [envNs; op]) (now w))) w,
           inr {| RequeueAfter := rbacPropagationRequeue |})
      | (w, inr ns) =>
        if (time_sub (now w) (meta_CreationTimestamp (ns_meta ns)) <? rbacPropagationWindow)%Z
        then (w, inr {| RequeueAfter := rbacPropagationRequeue |})
        else fail appRBACForbiddenCondition "OperatorForbidden" (error_text wrapped) w
      end
  end.
End failures.
