(* ===== verification/AppLifecycleFacts.v ===== *)
(** * The life of an app: what a deletion and a failure come to *)

From S2P Require Import Prelude GoStrings GoTime GoText Kube Core Api KubeStatus Effects Constants Controller BuildRun AppBuild EnvStore EnvReconcile ProjectReconcile ApiServer AppGc AppWorkloads AppLifecycle.

(** ** Dropping bindings *)

Lemma filter_all {A} (f : A → bool) l : existsb (λ x, negb (f x)) l = false → List.filter f l = l.
Proof.
  induction l as [|x l IH]; simpl; [done|]. rewrite orb_false_iff, negb_false_iff. intros [-> H]. by rewrite IH.
Qed.

Lemma filter_none {A} (f : A → bool) l : existsb (λ x, negb (f x)) (List.filter f l) = false.
Proof. induction l as [|x l IH]; simpl; [done|]. destruct (f x) eqn:E; simpl; [by rewrite E|done]. Qed.

Definition binds (gone : string → bool) (app : App) : bool :=
  existsb (λ env, existsb (λ b, gone (Binding_Ref b)) (Environment_Bindings env)) (AppSpec_Environments (App_Spec app)).

Lemma existsb_negb {A} (f g : A → bool) l : (∀ x, negb (f x) = g x) → existsb g l = existsb (λ x, negb (f x)) l.
Proof. intros H. induction l as [|x l IH]; simpl; [done|]. by rewrite IH, H. Qed.

Lemma drop_unchanged gone app : binds gone app = false → (drop_bindings gone app).1 = app.
Proof.
  unfold binds, drop_bindings. cbv zeta. intros H. cbn [fst].
  assert ((λ env, with_Environment_Bindings (List.filter (λ b, negb (gone (Binding_Ref b))) (Environment_Bindings env)) env)
    <$> AppSpec_Environments (App_Spec app) = AppSpec_Environments (App_Spec app)) as ->.
  { induction (AppSpec_Environments (App_Spec app)) as [|env l IH]; [done|]. simpl in H.
    apply orb_false_iff in H as [He Hl]. rewrite fmap_cons. f_equal; [|by apply IH]. rewrite filter_all; [by destruct env|].
    rewrite <-He. symmetry. apply existsb_negb. intros x. apply negb_involutive. }
  destruct app as [m s st]. by destruct s.
Qed.

Lemma dropped_binds gone app : binds gone (drop_bindings gone app).1 = false.
Proof.
  unfold binds, drop_bindings. cbn [fst]. destruct app as [m s st]. simpl.
  induction (AppSpec_Environments s) as [|env l IH]; [done|]. rewrite fmap_cons. cbn [existsb]. rewrite IH, orb_false_r.
  unfold with_Environment_Bindings. simpl.
  rewrite (existsb_negb (λ b, negb (gone (Binding_Ref b)))); [by apply filter_none|]. intros x. apply negb_involutive.
Qed.

(** Two copies of an app that differ in their version at most. *)
Definition same_app (a b : App) : Prop := ∃ rv, b = obj_with_rv rv a.

Lemma same_refl a : same_app a a.
Proof. exists (obj_rv a). by destruct a as [[]]. Qed.
Lemma same_trans a b c : same_app a b → same_app b c → same_app a c.
Proof. intros [r1 ->] [r2 ->]. exists r2. by destruct a as [[]]. Qed.
Lemma binds_rv gone rv a : binds gone (obj_with_rv rv a) = binds gone a.
Proof. done. Qed.
Lemma dropped_rv gone rv a : (drop_bindings gone (obj_with_rv rv a)).1 = obj_with_rv rv (drop_bindings gone a).1.
Proof. done. Qed.

(** An app that has lost the finalizer of the controller, and no other. *)
Definition released (a b : App) : Prop :=
  ∃ fs, same_app (with_meta (with_finalizers fs (App_ObjectMeta a)) a) b ∧
    ∀ f, f ∈ fs ↔ f ∈ meta_Finalizers (App_ObjectMeta a) ∧ f ≠ appFinalizer.

(** ** Without other writers *)

Section quiet.
Context {W : Type} {CA : KubeClient W App} {OA : KubeClientOk W App} {LA : KubeListIn W App} {LOA : KubeListOk W App}
  {KR : KubeRetry W} {KRO : KubeRetryOk W} {FH : FinalizerHelpers} {FHO : FinalizerHelpersOk}.

(** What the consumers of an app come to. *)
Definition consumes (name ns : string) (a : App) : bool :=
  String.eqb (app_ns a) ns && negb (String.eqb (app_name a) name || deleting (App_ObjectMeta a)).
Definition freed (name ns : string) (a : App) : App :=
  if consumes name ns a then (drop_bindings (String.eqb name) a).1 else a.

(** [st] on the way from [st0]. *)
Definition freeing (name ns : string) (st0 st : gmap NamespacedName App) : Prop :=
  ∀ k, match st0 !! k, st !! k with
       | Some a, Some b => b = a ∨ same_app (freed name ns a) b
       | None, None => True
       | _, _ => False
       end.

(** An update in quiet. *)
Lemma app_update_quiet key mutate (o : App) w :
  kquiet (Obj := App) w → kstore w !! key = Some o →
  (∀ new, mutate o = (new, inr true) → obj_key new = key ∧ obj_rv new = obj_rv o) → (∃ new b, mutate o = (new, inr b)) →
  ∃ w', run (UpdateWithConflictRetry key mutate) w = (w', inr tt) ∧ kquiet (Obj := App) w' ∧
    match mutate o with
    | (new, inr true) => ∃ rv, kstore w' = <[key := obj_with_rv rv new]> (kstore w)
    | _ => kstore (Obj := App) w' = kstore w
    end.
Proof using KRO.
  intros Hq Ho Hm (new & b & Em). destruct (kget_quiet key w Hq) as (w1 & Hq1 & Hs1 & Hg). rewrite Ho in Hg.
  unfold run, UpdateWithConflictRetry. rewrite retry_on_conflict_spec. rewrite Em. destruct b.
  - destruct (Hm new Em) as [Hk Hrv]. destruct (kupdate_quiet new w1 o Hq1) as (w2 & rv & Hq2 & Hu & Hs2); [by rewrite Hk, Hs1|done|].
    exists w2. rewrite (retry_loop_once _ _ w w2 None); [|by rewrite Hg, Em, Hu|done]. split; [done|]. split; [done|].
    exists rv. by rewrite Hs2, Hk, Hs1.
  - exists w1. rewrite (retry_loop_once _ _ w w1 None); [done|by rewrite Hg, Em|done].
Qed.

Lemma prune_consumer_quiet name st0 c w :
  kquiet (Obj := App) w → st0 !! obj_key c = Some c → freeing name (app_ns c) st0 (kstore w) →
  ∃ w', prune_consumer name c w = (w', inr tt) ∧ kquiet (Obj := App) w' ∧ freeing name (app_ns c) st0 (kstore w') ∧
    (∀ k, (∃ a b, st0 !! k = Some a ∧ kstore w !! k = Some b ∧ same_app (freed name (app_ns c) a) b) →
          ∃ a b, st0 !! k = Some a ∧ kstore w' !! k = Some b ∧ same_app (freed name (app_ns c) a) b) ∧
    ∃ b, kstore w' !! obj_key c = Some b ∧ same_app (freed name (app_ns c) c) b.
Proof using KRO.
  intros Hq Hc Hf. pose proof (Hf (obj_key c)) as Hcur. rewrite Hc in Hcur. destruct (kstore w !! obj_key c) as [b|] eqn:Eb; [|done].
  assert (∀ w', kstore (Obj := App) w' = kstore w → same_app (freed name (app_ns c) c) b →
    freeing name (app_ns c) st0 (kstore w') ∧
    (∀ k, (∃ a b, st0 !! k = Some a ∧ kstore w !! k = Some b ∧ same_app (freed name (app_ns c) a) b) →
          ∃ a b, st0 !! k = Some a ∧ kstore w' !! k = Some b ∧ same_app (freed name (app_ns c) a) b) ∧
    ∃ b, kstore w' !! obj_key c = Some b ∧ same_app (freed name (app_ns c) c) b) as Hsame.
  { intros w' Hs Hb. rewrite !Hs. split; [done|]. split; [done|]. by exists b. }
  unfold prune_consumer. unfold freed, consumes in Hcur. rewrite String.eqb_refl in Hcur. cbn [andb] in Hcur.
  destruct (String.eqb (app_name c) name || deleting (App_ObjectMeta c)) eqn:Eskip.
  { exists w. split; [done|]. split; [done|]. apply Hsame; [done|]. unfold freed, consumes. rewrite Eskip, andb_false_r.
    destruct Hcur as [->|]; [apply same_refl|done]. }
  cbn [negb] in Hcur. apply orb_false_iff in Eskip as [En Ed].
  assert (freed name (app_ns c) c = (drop_bindings (String.eqb name) c).1) as Efreed.
  { unfold freed, consumes. by rewrite String.eqb_refl, En, Ed. }
  destruct ((drop_bindings (String.eqb name) c).2) eqn:Ech.
  2:{ exists w. split; [done|]. split; [done|]. apply Hsame; [done|]. rewrite Efreed. destruct Hcur as [->|]; [|done].
      rewrite drop_unchanged by done. apply same_refl. }
  assert (prune_fresh name b = if binds (String.eqb name) b then ((drop_bindings (String.eqb name) b).1, inr true) else (b, inr false)) as Efresh.
  { unfold prune_fresh. assert (deleting (App_ObjectMeta b) = false) as -> by (destruct Hcur as [->|[rv ->]]; exact Ed).
    change ((drop_bindings (String.eqb name) b).2) with (binds (String.eqb name) b).
    rewrite (surjective_pairing (drop_bindings _ b)). by change ((drop_bindings (String.eqb name) b).2) with (binds (String.eqb name) b). }
  assert (same_app (freed name (app_ns c) c) (drop_bindings (String.eqb name) b).1) as Hdrop.
  { rewrite Efreed. destruct Hcur as [->|[rv ->]]; [apply same_refl|]. exists rv. rewrite dropped_rv.
    by rewrite (drop_unchanged _ (drop_bindings _ c).1) by apply dropped_binds. }
  destruct (app_update_quiet (obj_key c) (prune_fresh name) b w Hq Eb) as (w' & Hrun & Hq' & Hs').
  { intros new. rewrite Efresh. destruct (binds _ b); [|done]. intros [= <-]. split; [|done].
    by rewrite <-(kstore_key _ _ _ Eb). }
  { rewrite Efresh. destruct (binds _ b); by eexists _, _. }
  exists w'. split; [exact Hrun|]. split; [done|]. rewrite Efresh in Hs'. destruct (binds (String.eqb name) b) eqn:Eb2.
  - destruct Hs' as [rv Hs']. assert (same_app (freed name (app_ns c) c) (obj_with_rv rv (drop_bindings (String.eqb name) b).1)) as Hn
      by (eapply same_trans; [done|]; by exists rv).
    rewrite Hs'. split; [|split].
    + intros k. destruct (decide (k = obj_key c)) as [->|Hne]; [rewrite Hc, lookup_insert_eq; by right|].
      rewrite lookup_insert_ne by done. apply Hf.
    + intros k. destruct (decide (k = obj_key c)) as [->|Hne]; [|by rewrite lookup_insert_ne by done].
      intros _. exists c, (obj_with_rv rv (drop_bindings (String.eqb name) b).1). by rewrite lookup_insert_eq.
    + exists (obj_with_rv rv (drop_bindings (String.eqb name) b).1). by rewrite lookup_insert_eq.
  - apply Hsame; [done|]. by rewrite (drop_unchanged _ b) in Hdrop by done.
Qed.

Lemma prune_consumers_quiet name ns st0 l w :
  (∀ c, c ∈ l → st0 !! obj_key c = Some c ∧ app_ns c = ns) → kquiet (Obj := App) w → freeing name ns st0 (kstore w) →
  ∃ w', for_each (prune_consumer name) l w = (w', inr tt) ∧ kquiet (Obj := App) w' ∧ freeing name ns st0 (kstore w') ∧
    (∀ k, (∃ a b, st0 !! k = Some a ∧ kstore w !! k = Some b ∧ same_app (freed name ns a) b) →
          ∃ a b, st0 !! k = Some a ∧ kstore w' !! k = Some b ∧ same_app (freed name ns a) b) ∧
    ∀ c, c ∈ l → ∃ b, kstore w' !! obj_key c = Some b ∧ same_app (freed name ns c) b.
Proof using KRO.
  revert w. induction l as [|c l IH]; intros w Hl Hq Hf.
  { exists w. split; [done|]. split; [done|]. split; [done|]. split; [done|]. by intros c Hc%elem_of_nil. }
  destruct (Hl c ltac:(by left)) as [Hc <-].
  destruct (prune_consumer_quiet name st0 c w Hq Hc Hf) as (w1 & H1 & Hq1 & Hf1 & Hm1 & b & Hb & Hsame).
  destruct (IH w1 (λ x Hx, Hl x (list_elem_of_further _ _ _ Hx)) Hq1 Hf1) as (w2 & H2 & Hq2 & Hf2 & Hm2 & Hall).
  exists w2. simpl. unfold mbind, E_bind. rewrite H1, H2. do 3 (split; [done|]). split; [intros k Hk; by apply Hm2, Hm1|].
  intros x [->|Hx]%elem_of_cons; [|by apply Hall].
  destruct (Hm2 (obj_key c)) as (a & b' & Ha & Hb' & Hs); [by exists c, b|]. rewrite Hc in Ha. injection Ha as <-. by exists b'.
Qed.

(** All consumers lose their bindings to the app, and nothing else happens to apps. *)
Lemma prune_quiet app w :
  app_name app ≠ "" → app_ns app ≠ "" → kquiet (Obj := App) w →
  ∃ w', pruneBindingsToDeletedApp app w = (w', inr tt) ∧ kquiet (Obj := App) w' ∧
    ∀ k, match kstore w !! k, kstore w' !! k with
         | Some a, Some b => same_app (freed (app_name app) (app_ns app) a) b
         | None, None => True
         | _, _ => False
         end.
Proof using KRO LOA.
  intros Hn Hns Hq. unfold pruneBindingsToDeletedApp.
  rewrite (proj2 (String.eqb_neq _ _) Hn), (proj2 (String.eqb_neq _ _) Hns). cbn [orb].
  destruct (klist_quiet (Obj := App) (app_ns app) ∅ w Hq) as (w1 & l & Hq1 & Hs1 & Hl & _ & Hin).
  destruct (prune_consumers_quiet (app_name app) (app_ns app) (kstore w) l w1) as (w2 & H2 & Hq2 & Hf2 & _ & Hall).
  - intros c [Hsel Hc]%Hin. split; [done|]. by apply selected_namespace in Hsel.
  - done.
  - intros k. rewrite Hs1. destruct (kstore w !! k); [by left|done].
  - exists w2. unfold mbind, E_bind. rewrite Hl, H2. split; [done|]. split; [done|]. intros k. specialize (Hf2 k).
    destruct (kstore w !! k) as [a|] eqn:Ea; [|done]. destruct (kstore w2 !! k) as [b|] eqn:Eb; [|done].
    destruct Hf2 as [->|]; [|done]. pose proof (kstore_key _ _ _ Ea) as Hk.
    destruct (decide (app_ns a = app_ns app)) as [Hsame|Hne].
    + destruct (Hall a) as (b & Hb & Hbs).
      { apply Hin. split; [|by rewrite Hk]. unfold selected. change (meta_Namespace (obj_meta a)) with (app_ns a). rewrite Hsame, String.eqb_refl, orb_true_r. simpl.
        by apply bool_decide_eq_true, map_empty_subseteq. }
      rewrite Hk, Eb in Hb. by injection Hb as <-.
    + unfold freed, consumes. rewrite (proj2 (String.eqb_neq _ _) Hne). simpl. apply same_refl.
Qed.

Lemma remove_finalizer_quiet (a : App) w :
  kquiet (Obj := App) w → kstore w !! obj_key a = Some a → appFinalizer ∈ meta_Finalizers (App_ObjectMeta a) →
  ∃ w' rv, removeAppFinalizerWithRetry (obj_key a) w = (w', None) ∧ kquiet (Obj := App) w' ∧
    kstore w' = <[obj_key a := obj_with_rv rv (with_meta (RemoveFinalizer (App_ObjectMeta a) appFinalizer) a)]> (kstore w).
Proof using KRO FHO.
  intros Hq Ha Hf. destruct (kget_quiet (obj_key a) w Hq) as (w1 & Hq1 & Hs1 & Hg). rewrite Ha in Hg.
  destruct (remove_finalizer (App_ObjectMeta a) appFinalizer) as (fs & Hfs & _).
  set (new := with_meta (RemoveFinalizer (App_ObjectMeta a) appFinalizer) a).
  assert (obj_key new = obj_key a ∧ obj_rv new = obj_rv a) as [Hk Hrv].
  { unfold new, obj_key, obj_rv. simpl. rewrite Hfs. by destruct (App_ObjectMeta a). }
  destruct (kupdate_quiet new w1 a Hq1) as (w2 & rv & Hq2 & Hu & Hs2); [by rewrite Hk, Hs1|done|].
  exists w2, rv. unfold removeAppFinalizerWithRetry. rewrite retry_on_conflict_spec, (retry_loop_once _ _ w w2 None).
  - split; [done|]. split; [done|]. by rewrite Hs2, Hk, Hs1.
  - rewrite Hg, (proj2 (contains_finalizer _ _) Hf). exact Hu.
  - done.
Qed.
End quiet.

(** ** The deletion *)

Section frames.
Context {W : Type} {CA : KubeClient W App} {LA : KubeListIn W App} {KR : KubeRetry W} {KRO : KubeRetryOk W} {FH : FinalizerHelpers}
  (I : relation W) {PI : PreOrder I} {WA : KubeWithin W App I} {RA : ListReads W App I}.

Lemma edit_app_keeps key mutate : keeps I (run (UpdateWithConflictRetry (Obj := App) key mutate)).
Proof using PI KRO WA.
  apply keeps_run. intros w. unfold UpdateWithConflictRetry. rewrite retry_on_conflict_spec. refine (keeps_retry I _ _ _ w).
  intros w1. pose proof (kget_within (I := I) (Obj := App) key w1) as Hg. destruct (kget key w1) as [w2 [err|o]]; cbn [fst] in Hg; [done|].
  destruct (mutate o) as [new [err|[]]]; [done| |done]. etrans; [exact Hg|]. apply (kupdate_within (I := I)).
Qed.

Lemma prune_keeps app : keeps I (pruneBindingsToDeletedApp app).
Proof using PI KRO WA RA.
  unfold pruneBindingsToDeletedApp. destruct (_ || _); [apply keeps_ret; apply _|].
  apply keeps_bind; [apply _|intros w; apply klist_reads|intros l]. apply keeps_for_each; [apply _|]. intros c.
  unfold prune_consumer. destruct (_ || _); [apply keeps_ret; apply _|]. destruct ((drop_bindings _ _).2); [|apply keeps_ret; apply _].
  apply edit_app_keeps.
Qed.

Lemma finalizer_keeps key w : I w (removeAppFinalizerWithRetry key w).1.
Proof using PI KRO WA.
  unfold removeAppFinalizerWithRetry. rewrite retry_on_conflict_spec. apply (keeps_retry I). intros w1.
  pose proof (kget_within (I := I) (Obj := App) key w1) as Hg. destruct (kget key w1) as [w2 [err|o]]; cbn [fst] in Hg; [done|].
  destruct (ContainsFinalizer _ _); [|done]. etrans; [exact Hg|]. apply (kupdate_within (I := I)).
Qed.

Context {T : gc_kind → Type} {KO : ∀ k, KubeObject (T k)} {KL : ∀ k, KubeListIn W (T k)} {KD : ∀ k, KubeDelete W (T k)}
  {CN : KubeClient W Namespace} {LN : KubeListIn W Namespace}
  (HL : ∀ k, ListReads W (T k) I) (HD : ∀ k key w, I w (kdelete (T k) key w).1) (HN : KubeReads W Namespace I) (HLN : ListReads W Namespace I).

Lemma gc_keeps app : keeps I (gcAppAcrossEnvs (T := T) app).
Proof using PI HL HD HN HLN.
  assert (∀ k labels ns, keeps I (deleteMatching (T := T) k labels ns)) as Hd.
  { intros k labels ns. unfold deleteMatching. apply keeps_bind; [apply _|intros w; apply HL|intros l].
    apply keeps_for_each; [apply _|]. intros o w. unfold delete_item. specialize (HD k (obj_key o) w).
    destruct (kdelete (T k) (obj_key o) w) as [w1 [err|]]; cbn [fst] in HD; [|done]. destruct (IsNotFound err); [done|].
    destruct (IsForbidden err); [|done]. unfold namespaceGoneOrTerminating.
    pose proof (kget_reads (I := I) (Obj := Namespace) ("", meta_Namespace (obj_meta o)) w1) as Hg.
    destruct (kget _ w1) as [w2 [e|ns']]; cbn [fst] in Hg.
    - destruct (IsNotFound e); cbn [fst]; by etrans.
    - destruct (deleting (ns_meta ns')); cbn [fst]; by etrans. }
  unfold gcAppAcrossEnvs. destruct (appProjectName app); [apply keeps_ret; apply _|]. cbv zeta.
  apply keeps_bind; [apply _|apply keeps_wrapping; intros w; apply klist_reads|intros l].
  apply keeps_bind; [apply _| |intros _; by apply keeps_wrapping].
  apply keeps_for_each; [apply _|]. intros ns. apply keeps_for_each; [apply _|]. intros k. by apply keeps_wrapping.
Qed.
End frames.

Section deletion.
Context {W : Type} {CA : KubeClient W App} {OA : KubeClientOk W App} {LA : KubeListIn W App} {LOA : KubeListOk W App}
  {KR : KubeRetry W} {KRO : KubeRetryOk W} {FH : FinalizerHelpers} {FHO : FinalizerHelpersOk}
  {T : gc_kind → Type} {KO : ∀ k, KubeObject (T k)} {KL : ∀ k, KubeListIn W (T k)} {KD : ∀ k, KubeDelete W (T k)}
  {KC : ∀ k, KubeClient W (T k)} {KK : ∀ k, KubeClientOk W (T k)} {KLO : ∀ k, KubeListOk W (T k)} {KDO : ∀ k, KubeDeleteOk W (T k)}
  {CN : KubeClient W Namespace} {LN : KubeListIn W Namespace} {ON : KubeClientOk W Namespace} {LON : KubeListOk W Namespace}.
(** Calls on one kind leave the others alone. *)
Context (LK : ∀ k k' ns labels w, k ≠ k' → unaffected (T k') w (klist_in (Obj := T k) ns labels w).1)
  (DK : ∀ k k' key w, k ≠ k' → unaffected (T k') w (kdelete (T k) key w).1)
  (NK : ∀ k ns labels w, unaffected (T k) w (klist_in (Obj := Namespace) ns labels w).1)
  (AK : ∀ k, KubeApart W App (T k)) (ALK : ∀ k, ListReads W App (unaffected (T k)))
  (AN : KubeApart W App Namespace) (ALN : ListReads W App (unaffected Namespace))
  (KA : ∀ k, ListReads W (T k) (unaffected App)) (DA : ∀ k key w, unaffected App w (kdelete (T k) key w).1)
  (NA : KubeReads W Namespace (unaffected App)) (NLA : ListReads W Namespace (unaffected App)).

(** C33: Without other writers the pass over an app that is deleted succeeds: the other apps of
    its project that stay lose their bindings to it and nothing else, the objects of the
    app and its deploy tokens are gone from every namespace of the project, and then the
    app loses the finalizer that kept it. *)
Theorem app_deletion_ends app projectName w :
  appProjectName app = inr projectName → app_name app ≠ "" → app_ns app ≠ "" →
  appFinalizer ∈ meta_Finalizers (App_ObjectMeta app) → kstore w !! obj_key app = Some app →
  kquiet (Obj := App) w → kquiet (Obj := Namespace) w → all_quiet (T := T) w →
  ∃ w', reconcile_deleted (T := T) app w = (w', inr Done) ∧
    (∀ ns k, meta_Labels (ns_meta ns) !! ProjectLabel = Some projectName → kstore w !! obj_key ns = Some ns →
       clean (T := T) k (app_selector (app_name app) projectName) (meta_Name (ns_meta ns)) w') ∧
    clean (T := T) GcSecrets (token_selector (app_name app)) (app_ns app) w' ∧
    ∀ k, match kstore w !! k, kstore w' !! k with
         | Some a, Some b =>
           if decide (k = obj_key app) then released app b
           else same_app (freed (app_name app) (app_ns app) a) b
         | None, None => True
         | _, _ => False
         end.
Proof.
  intros Hp Hn Hns Hf Happ Hqa Hqn Hqk. unfold reconcile_deleted. rewrite (proj2 (contains_finalizer _ _) Hf).
  destruct (prune_quiet app w Hn Hns Hqa) as (w1 & H1 & Hqa1 & Hs1).
  assert (∀ k, unaffected (T k) w w1) as Hk1 by (intros k; pose proof (prune_keeps (unaffected (T k)) app w) as H; by rewrite H1 in H).
  assert (unaffected Namespace w w1) as [Hn1 Hqn1] by (pose proof (prune_keeps (unaffected Namespace) app w) as H; by rewrite H1 in H).
  destruct (gc_complete LK DK NK app projectName w1) as (w2 & H2 & Hsh & Hclean & Htok).
  { intros k. by apply Hk1. } { by apply Hqn1. } { done. }
  assert (unaffected App w1 w2) as [Ha2 Hqa2].
  { pose proof (gc_keeps (unaffected App) KA DA NA NLA app w1) as H. by rewrite H2 in H. }
  pose proof (Hs1 (obj_key app)) as Hself. rewrite Happ in Hself. destruct (kstore w1 !! obj_key app) as [b|] eqn:Eb; [|done].
  assert (freed (app_name app) (app_ns app) app = app) as Efreed by (unfold freed, consumes; by rewrite !String.eqb_refl).
  rewrite Efreed in Hself. destruct Hself as [rv ->].
  destruct (remove_finalizer_quiet (obj_with_rv rv app) w2) as (w3 & rv3 & H3 & _ & Hs3); [by apply Hqa2|by rewrite Ha2|done|].
  change (obj_key (obj_with_rv rv app)) with (obj_key app) in *.
  assert (∀ k, unaffected (T k) w2 w3) as Hk3.
  { intros k. pose proof (finalizer_keeps (unaffected (T k)) (obj_key app) w2) as H. by rewrite H3 in H. }
  exists w3. unfold mbind, E_bind, wrapping, run. rewrite H1, H2, H3. split; [done|].
  assert (∀ k labels ns, clean (T := T) k labels ns w2 → clean (T := T) k labels ns w3) as Hcl.
  { intros k labels ns Hc key o. rewrite (proj1 (Hk3 k)). apply Hc. }
  split; [intros ns k Hlab Hst; apply Hcl, Hclean; [done|by rewrite Hn1]|]. split; [by apply Hcl|].
  intros k. rewrite Hs3, Ha2. specialize (Hs1 k). destruct (decide (k = obj_key app)) as [->|Hne].
  - rewrite Happ, lookup_insert_eq. destruct (remove_finalizer (App_ObjectMeta (obj_with_rv rv app)) appFinalizer) as (fs & -> & Hfs).
    exists fs. split; [by exists rv3|exact Hfs].
  - by rewrite lookup_insert_ne.
Qed.
End deletion.

(** ** Failures *)

Definition wrapped_error (op envName : string) (err : error) : error := Wrapf "%s for env %s: %w" [op; envName] err.

(** What a pass that failed comes to: the condition that is set, and whether the failure is
    final or is tried again soon. *)
Inductive verdict := Final (condition : option (string * string)) | Soon (condition : option (string * string)).

(** Since when the namespace has been missing, as the app says. *)
Definition missing_since {CH : ConditionHelpers} (app : App) : option Time :=
  c ← FindStatusCondition (AppStatus_Conditions (App_Status app)) "NamespacePending";
  if String.eqb (Condition_Status c) "True" then Some (Condition_LastTransitionTime c) else None.

Lemma pending_spec {CH : ConditionHelpers} app t :
  pending_too_long app t = match missing_since app with Some since => (2 * Minute <=? time_sub t since)%Z | None => false end.
Proof.
  unfold pending_too_long, missing_since. change appNamespacePendingCondition with "NamespacePending".
  destruct (FindStatusCondition _ _) as [c|]; [|done]. simpl. by destruct (String.eqb _ _).
Qed.

(** By the error, the namespace (if it is there), how long it has been missing, and the time. *)
Definition verdict_of {CH : ConditionHelpers} (app : App) (err : error) (ns : option Namespace) (t : Time) : verdict :=
  match errors_As "resourceConflictError" err, env_var_error err, IsForbidden err, ns with
  | Some _, _, _, _ => Final (Some (appResourceConflictCondition, "ResourceConflict"))
  | None, true, _, _ => Final (Some (appEnvVarInvalidCondition, "InvalidValueFrom"))
  | None, false, false, _ => Final None
  | None, false, true, Some ns =>
    if (time_sub t (meta_CreationTimestamp (ns_meta ns)) <? 2 * Minute)%Z then Soon None
    else Final (Some (appRBACForbiddenCondition, "OperatorForbidden"))
  | None, false, true, None =>
    if match missing_since app with Some since => (2 * Minute <=? time_sub t since)%Z | None => false end
    then Final (Some (appNamespacePendingCondition, "NamespaceCreationTimeout"))
    else Soon (Some (appNamespacePendingCondition, "NamespaceNotFound"))
  end.

Definition result_of (op envName : string) (err : error) (v : verdict) : error + Result :=
  match v with Final _ => inl (wrapped_error op envName err) | Soon _ => inr {| RequeueAfter := 2 * Second |} end.

Section failures.
Context {W : Type} {CA : KubeClient W App} {OA : KubeClientOk W App} {SA : KubeStatus W App} {SOA : KubeStatusOk W App}
  {CN : KubeClient W Namespace} {ON : KubeClientOk W Namespace} {KR : KubeRetry W} {KRO : KubeRetryOk W}
  {CH : ConditionHelpers} {CHO : ConditionHelpersOk} (now : W → Time)
  (Hnow : ∀ k w, now (kget (Obj := Namespace) k w).1 = now w) (NA : KubeReads W Namespace (unaffected App)).

(** The condition a verdict sets on the app. *)
Definition recorded (old : AppStatus) (v : verdict) (t : Time) (b : App) : Prop :=
  match v with
  | Final None | Soon None => App_Status b = old
  | Final (Some (type, reason)) | Soon (Some (type, reason)) =>
    (∃ c, FindStatusCondition (AppStatus_Conditions (App_Status b)) type = Some c ∧
       Condition_Status c = "True" ∧ Condition_Reason c = reason ∧
       (type = appNamespacePendingCondition → reason = "NamespaceNotFound" → t ≠ 0%Z →
        Condition_LastTransitionTime c =
          match FindStatusCondition (AppStatus_Conditions old) type with
          | Some o => if String.eqb (Condition_Status o) "True" then Condition_LastTransitionTime o else t
          | None => t
          end)) ∧
    AppStatus_Phase (App_Status b) = (match v with Final _ => AppPhaseFailed | Soon _ => AppStatus_Phase old end)
  end.

Lemma update_status_quiet app mutate cur w :
  kquiet (Obj := App) w → kstore w !! obj_key app = Some cur →
  ∃ w' rv, updateAppStatus app mutate w = (w', None) ∧
    kstore w' = <[obj_key app := obj_with_rv rv (on_status mutate cur)]> (kstore w).
Proof using KRO SOA.
  intros Hq Hc. destruct (kget_quiet (obj_key app) w Hq) as (w1 & Hq1 & Hs1 & Hg). rewrite Hc in Hg.
  pose proof (kstore_key _ _ _ Hc) as Hk.
  destruct (kstatus_quiet (on_status mutate cur) w1 cur Hq1) as (w2 & rv & _ & Hu & Hs2).
  { change (obj_key (on_status mutate cur)) with (obj_key cur). by rewrite Hk, Hs1. } { done. }
  exists w2, rv. unfold updateAppStatus. rewrite retry_on_conflict_spec, (retry_loop_once _ _ w w2 None); [|by rewrite Hg, Hu|done].
  split; [done|]. rewrite Hs2, Hs1. change (obj_key (on_status mutate cur)) with (obj_key cur). rewrite Hk.
  by destruct cur.
Qed.

(** A condition that is set is there. *)
Lemma marked_app app w cur v t type reason message time (fatal : bool) :
  kquiet (Obj := App) w → kstore w !! obj_key app = Some cur →
  v = (if fatal then Final else Soon) (Some (type, reason)) →
  (type = appNamespacePendingCondition → reason = "NamespaceNotFound" → time = t) →
  let c := app_condition app type reason message time in
  ∃ b, kstore (mark_app app (if fatal then failed_with c else set_condition c) w) !! obj_key app = Some b ∧
    recorded (App_Status cur) v t b ∧
    ∀ k, k ≠ obj_key app → kstore (mark_app app (if fatal then failed_with c else set_condition c) w) !! k = kstore w !! k.
Proof using All.
  intros Hq Hc -> Ht c. set (mutate := if fatal then failed_with c else set_condition c).
  destruct (update_status_quiet app mutate cur w Hq Hc) as (w' & rv & Hu & Hs).
  exists (obj_with_rv rv (on_status mutate cur)). unfold mark_app. rewrite Hu. cbn [fst]. rewrite Hs, lookup_insert_eq.
  split; [done|]. split; [|by intros k Hk; rewrite lookup_insert_ne].
  destruct (find_set c (AppStatus_Conditions (App_Status cur))) as (tt & Hfind & Htime).
  assert (FindStatusCondition (AppStatus_Conditions (App_Status (obj_with_rv rv (on_status mutate cur)))) type = Some (with_transition tt c)) as Hin
    by (unfold mutate; destruct fatal; exact Hfind).
  assert (∃ d, FindStatusCondition (AppStatus_Conditions (App_Status (obj_with_rv rv (on_status mutate cur)))) type = Some d ∧
    Condition_Status d = "True" ∧ Condition_Reason d = reason ∧
    (type = appNamespacePendingCondition → reason = "NamespaceNotFound" → t ≠ 0%Z →
     Condition_LastTransitionTime d =
       match FindStatusCondition (AppStatus_Conditions (App_Status cur)) type with
       | Some o => if String.eqb (Condition_Status o) "True" then Condition_LastTransitionTime o else t
       | None => t
       end)) as Hd.
  { exists (with_transition tt c). split; [exact Hin|]. split; [done|]. split; [done|]. intros Hty Hre Hne.
    pose proof (Ht Hty Hre) as Heq. simpl. rewrite Htime by (simpl; by rewrite Heq). unfold transition_time. simpl. by rewrite Heq. }
  unfold recorded. by destruct fatal.
Qed.


(** C22: A failure of a pass is reported.  Whatever others do, the pass ends with the error,
    wrapped, unless a write was refused, and then it is tried again soon.  Without other
    writers the app gets the condition that says why, with its phase [Failed] exactly if the
    failure is final: something of somebody else is in the way, a variable cannot be
    resolved, a namespace of more than two minutes refuses writes, or one has been missing
    for two minutes since it was first missed, which repeated passes do not forget. *)
Theorem failures_reported app envNs envName op err w :
  (∀ w' r, envResourceError now app envNs envName op err w = (w', r) →
     r = inl (wrapped_error op envName err) ∨
     r = inr {| RequeueAfter := 2 * Second |} ∧ IsForbidden err = true ∧ errors_As "resourceConflictError" err = None) ∧
  (∀ cur, kquiet (Obj := App) w → kquiet (Obj := Namespace) w → kstore w !! obj_key app = Some cur →
     let v := verdict_of app err (kstore w !! ("", envNs)) (now w) in
     ∃ w' b, envResourceError now app envNs envName op err w = (w', result_of op envName err v) ∧
       kstore w' !! obj_key app = Some b ∧ recorded (App_Status cur) v (now w) b ∧
       ∀ k, k ≠ obj_key app → kstore (Obj := App) w' !! k = kstore w !! k).
Proof using All.
  split.
  - intros w' r. unfold envResourceError. destruct (errors_As _ err); [intros [= <- <-]; by left|].
    destruct (env_var_error err); [intros [= <- <-]; by left|]. destruct (IsForbidden err); simpl; [|intros [= <- <-]; by left].
    destruct (kget ("", envNs) w) as [w1 [e|ns]].
    + destruct (IsNotFound e); simpl; [|intros [= <- <-]; by left].
      destruct (pending_too_long app (now w1)); intros [= <- <-]; [by left|by right].
    + destruct (time_sub _ _ <? _)%Z; intros [= <- <-]; [by right|by left].
  - intros cur Hqa Hqn Hc. cbv zeta. unfold envResourceError, verdict_of.
    rewrite <-(pending_spec app (now w)). destruct (errors_As _ err) as [m|].
    { destruct (marked_app app w cur _ (now w) appResourceConflictCondition "ResourceConflict"
        (error_text (Wrapf "%s for env %s: %w" [op; envName] err)) 0%Z true Hqa Hc eq_refl ltac:(done)) as (b & Hb). eexists _, b. split; [reflexivity|exact Hb]. }
    destruct (env_var_error err).
    { destruct (marked_app app w cur _ (now w) appEnvVarInvalidCondition "InvalidValueFrom"
        (error_text (Wrapf "%s for env %s: %w" [op; envName] err)) 0%Z true Hqa Hc eq_refl ltac:(done)) as (b & Hb). eexists _, b. split; [reflexivity|exact Hb]. }
    destruct (IsForbidden err); simpl; [|by exists w, cur].
    destruct (kget_quiet (Obj := Namespace) ("", envNs) w Hqn) as (w1 & Hq1 & Hs1 & Hg).
    pose proof (NA ("", envNs) w) as [Ha Hqa1]. pose proof (Hnow ("", envNs) w) as Ht.
    destruct (kstore w !! ("", envNs)) as [ns|].
    + rewrite Hg in Ha, Hqa1, Ht |- *. cbn [fst] in Ha, Hqa1, Ht. rewrite Ht. rewrite <-Ha in Hc.
      change rbacPropagationWindow with (2 * Minute)%Z. destruct (time_sub _ _ <? _)%Z.
      * exists w1, cur. split; [done|]. split; [done|]. split; [done|]. intros k _. by rewrite Ha.
      * destruct (marked_app app w1 cur _ (now w) appRBACForbiddenCondition "OperatorForbidden"
          (error_text (Wrapf "%s for env %s: %w" [op; envName] err)) 0%Z true (Hqa1 Hqa) Hc eq_refl ltac:(done)) as (b & Hb).
        rewrite <-Ha. eexists _, b. split; [reflexivity|exact Hb].
    + destruct Hg as (e & Hg & He). rewrite Hg in Ha, Hqa1, Ht |- *. cbn [fst] in Ha, Hqa1, Ht. rewrite Ht, He. rewrite <-Ha in Hc. simpl.
      destruct (pending_too_long app (now w)).
      * destruct (marked_app app w1 cur _ (now w) appNamespacePendingCondition "NamespaceCreationTimeout"
          (sprintf "namespace %q still absent after %s; the Project controller cannot create it — check its status and operator RBAC (%s)"
             [envNs; "2m0s"; error_text (Wrapf "%s for env %s: %w" [op; envName] err)]) 0%Z true (Hqa1 Hqa) Hc eq_refl ltac:(done)) as (b & Hb).
        rewrite <-Ha. eexists _, b. split; [reflexivity|exact Hb].
      * destruct (marked_app app w1 cur _ (now w) appNamespacePendingCondition "NamespaceNotFound"
          (sprintf "waiting for namespace %q to be created (%s)" [envNs; op]) (now w) false (Hqa1 Hqa) Hc eq_refl ltac:(done)) as (b & Hb).
        rewrite <-Ha. eexists _, b. split; [reflexivity|exact Hb].
Qed.
End failures.

(** ** Dangling bindings *)

Lemma filter_ext_in {A} (f g : A → bool) l : (∀ x, x ∈ l → f x = g x) → List.filter f l = List.filter g l ∧ existsb f l = existsb g l.
Proof.
  induction l as [|x l IH]; intros H; [done|]. simpl. rewrite (H x) by by left.
  destruct (IH (λ y Hy, H y (list_elem_of_further _ _ _ Hy))) as [-> ->]. done.
Qed.

Lemma drop_ext g h app :
  (∀ env b, env ∈ AppSpec_Environments (App_Spec app) → b ∈ Environment_Bindings env → g (Binding_Ref b) = h (Binding_Ref b)) →
  drop_bindings g app = drop_bindings h app.
Proof.
  intros H. unfold drop_bindings. cbv zeta. f_equal.
  - do 2 f_equal. apply map_ext_in. intros env Hin%list_elem_of_In. f_equal.
    apply (filter_ext_in (λ b, negb (g (Binding_Ref b)))). intros b Hb. by rewrite (H env b).
  - apply (filter_ext_in (λ env, existsb (λ b, g (Binding_Ref b)) (Environment_Bindings env))). intros env Hin.
    apply (filter_ext_in (λ b, g (Binding_Ref b))). intros b Hb. by apply (H env).
Qed.

Section dangling.
Context {W : Type} {CA : KubeClient W App} {OA : KubeClientOk W App} (R : MapRange) {HR : MapRangeOk R}.

(** Nothing is there that a binding could mean. *)
Definition dangles (a : option App) : bool := match a with Some a => deleting (App_ObjectMeta a) | None => true end.

Lemma missing_refs_quiet ns refs missing w :
  kquiet (Obj := App) w →
  ∃ w' m, missing_refs ns refs missing w = (w', inr m) ∧ kquiet (Obj := App) w' ∧ kstore (Obj := App) w' = kstore w ∧
    ∀ ref, ref ∈ m ↔ ref ∈ missing ∨ ref ∈ refs ∧ dangles (kstore w !! (ns, ref)) = true.
Proof.
  revert missing w. induction refs as [|r refs IH]; intros missing w Hq.
  { exists w, missing. do 3 (split; [done|]). intros ref. rewrite elem_of_nil. tauto. }
  destruct (kget_quiet (Obj := App) (ns, r) w Hq) as (w1 & Hq1 & Hs1 & Hg).
  assert (∀ m, (∀ ref, ref ∈ m ↔ ref ∈ missing ∨ ref = r ∧ dangles (kstore w !! (ns, r)) = true) →
    missing_refs ns (r :: refs) missing w = missing_refs ns refs m w1 →
    ∃ w' m, missing_refs ns (r :: refs) missing w = (w', inr m) ∧ kquiet (Obj := App) w' ∧ kstore (Obj := App) w' = kstore w ∧
      ∀ ref, ref ∈ m ↔ ref ∈ missing ∨ ref ∈ r :: refs ∧ dangles (kstore w !! (ns, ref)) = true) as Hstep.
  { intros m Hm Heq. destruct (IH m w1 Hq1) as (w2 & m2 & H2 & Hq2 & Hs2 & Hm2). exists w2, m2. rewrite Heq, Hs2, Hs1.
    split; [done|]. split; [done|]. split; [done|]. intros ref. rewrite Hm2, Hm, Hs1, elem_of_cons. naive_solver. }
  destruct (kstore w !! (ns, r)) as [a|] eqn:Er.
  - apply (Hstep (if deleting (App_ObjectMeta a) then {[r]} ∪ missing else missing)); [|simpl; by rewrite Hg].
    intros ref. unfold dangles. destruct (deleting _); [rewrite elem_of_union, elem_of_singleton; tauto|naive_solver].
  - destruct Hg as (e & Hg & He). apply (Hstep ({[r]} ∪ missing)); [|simpl; by rewrite Hg, He].
    intros ref. rewrite elem_of_union, elem_of_singleton. unfold dangles. tauto.
Qed.

(** What is kept: the bindings to apps that are there and stay. *)
Definition dangling (ns : string) (st : gmap NamespacedName App) (ref : string) : bool :=
  negb (String.eqb ref "") && dangles (st !! (ns, ref)).

Lemma binding_refs_in app ref :
  ref ∈ binding_refs app ↔ ref ≠ "" ∧ ∃ env b, env ∈ AppSpec_Environments (App_Spec app) ∧ b ∈ Environment_Bindings env ∧ Binding_Ref b = ref.
Proof.
  unfold binding_refs. rewrite list_elem_of_bind. split.
  - intros (env & Hin & He). apply list_elem_of_In, filter_In in Hin as [Hin Hne].
    apply list_elem_of_In, list_elem_of_fmap in Hin as (b & -> & Hb). apply negb_true_iff, String.eqb_neq in Hne. split; [done|]. by exists env, b.
  - intros (Hne & env & b & He & Hb & <-). exists env. split; [|done]. apply list_elem_of_In, filter_In. split.
    + apply list_elem_of_In, list_elem_of_fmap. by exists b.
    + by apply negb_true_iff, String.eqb_neq.
Qed.

Lemma ref_set_range app ref : ref ∈ (range (ref_set app)).*1 ↔ ref ∈ binding_refs app.
Proof using HR.
  rewrite list_elem_of_fmap. split.
  - intros ([k []] & -> & Hk%elem_of_range). unfold ref_set in Hk. apply lookup_gset_to_gmap_Some in Hk as [Hk _].
    by apply elem_of_list_to_set in Hk.
  - intros Hin. exists (ref, tt). split; [done|]. apply elem_of_range. unfold ref_set. apply lookup_gset_to_gmap_Some.
    split; [by apply elem_of_list_to_set|done].
Qed.

Lemma binds_spec gone app :
  (drop_bindings gone app).2 = true ↔
  ∃ env b, env ∈ AppSpec_Environments (App_Spec app) ∧ b ∈ Environment_Bindings env ∧ gone (Binding_Ref b) = true.
Proof.
  unfold drop_bindings. cbv zeta. cbn [snd]. rewrite existsb_exists. split.
  - intros (env & He%list_elem_of_In & (b & Hb%list_elem_of_In & Hg)%existsb_exists). by exists env, b.
  - intros (env & b & He & Hb & Hg). exists env. split; [by apply list_elem_of_In|]. apply existsb_exists. exists b.
    split; [by apply list_elem_of_In|done].
Qed.

Lemma dangling_quiet app w :
  kquiet (Obj := App) w → app_ns app ≠ "" →
  ∃ w', removeDanglingBindings R app w =
    (w', inr (let d := drop_bindings (dangling (app_ns app) (kstore w)) app in if d.2 then d else (app, false))) ∧
    kquiet (Obj := App) w' ∧ kstore (Obj := App) w' = kstore w.
Proof using HR.
  intros Hq Hns. unfold removeDanglingBindings. rewrite (proj2 (String.eqb_neq _ _) Hns).
  destruct (missing_refs_quiet (app_ns app) (range (ref_set app)).*1 ∅ w Hq) as (w' & m & Hm & Hq' & Hs' & Hin).
  exists w'. unfold mbind, E_bind, mret, E_ret. rewrite Hm. split; [|done]. do 2 f_equal.
  assert (drop_bindings (λ ref, bool_decide (ref ∈ m)) app = drop_bindings (dangling (app_ns app) (kstore w)) app) as <-.
  { apply drop_ext. intros env b He Hb. apply eq_iff_eq_true. rewrite bool_decide_eq_true, Hin, ref_set_range, binding_refs_in.
    unfold dangling. rewrite andb_true_iff, negb_true_iff, String.eqb_neq, elem_of_empty. split; [tauto|]. intros [Hne Hd]. right.
    split; [|done]. split; [done|]. by exists env, b. }
  destruct (drop_bindings (λ ref, bool_decide (ref ∈ m)) app).2 eqn:Ed.
  - apply binds_spec in Ed as (env & b & _ & _ & Hb%bool_decide_eq_true). rewrite bool_decide_false; [|set_solver].
    cbv zeta. by destruct (drop_bindings _ app).
  - destruct (decide (m = ∅)) as [->|Hne]; [by rewrite bool_decide_true|]. exfalso. rewrite <-not_true_iff_false in Ed. apply Ed.
    apply set_choose_L in Hne as [ref Hr]. pose proof Hr as Hr'. apply Hin in Hr' as [?%elem_of_empty|[Hr' _]]; [done|].
    apply ref_set_range, binding_refs_in in Hr' as (_ & env & b & He & Hb & <-). apply binds_spec. exists env, b.
    split; [done|]. split; [done|]. by apply bool_decide_eq_true.
Qed.

Context {KRP : KubeRetry (W * (option App * bool))} {KRPO : KubeRetryOk (W * (option App * bool))}.

(** A consumer is written once, if one of its bindings means nothing that is there and stays,
    and what is returned is what is stored, but for its version. *)
Theorem dangling_bindings_pruned app cur w :
  kquiet (Obj := App) w → app_name app ≠ "" → app_ns app ≠ "" → kstore w !! obj_key app = Some cur →
  let '(pruned, changed) := drop_bindings (dangling (app_ns app) (kstore w)) cur in
  ∃ w', pruneMissingBindingsForConsumer R app w = (w', inr (if changed then pruned else cur, changed)) ∧
    if changed then ∃ rv, kstore w' = <[obj_key app := obj_with_rv rv pruned]> (kstore w) else kstore (Obj := App) w' = kstore w.
Proof using HR KRPO.
  intros Hq Hn Hns Hc. destruct (drop_bindings _ cur) as [pruned changed] eqn:Ed.
  destruct (kget_quiet (obj_key app) w Hq) as (w1 & Hq1 & Hs1 & Hg). rewrite Hc in Hg.
  pose proof (kstore_key _ _ _ Hc) as Hk. assert (app_ns cur = app_ns app) as Hns' by exact (f_equal fst Hk).
  destruct (dangling_quiet cur w1 Hq1) as (w2 & Hd & Hq2 & Hs2); [by rewrite Hns'|]. rewrite Hns', Hs1, Ed in Hd. cbn zeta in Hd.
  unfold pruneMissingBindingsForConsumer. rewrite (proj2 (String.eqb_neq _ _) Hn), (proj2 (String.eqb_neq _ _) Hns). cbn [orb].
  rewrite retry_on_conflict_spec. destruct changed; cbn [snd] in Hd.
  - assert (obj_key pruned = obj_key app ∧ obj_rv pruned = obj_rv cur) as [Hkp Hrv].
    { unfold drop_bindings in Ed. injection Ed as <- _. split; [exact Hk|done]. }
    destruct (kupdate_quiet pruned w2 cur Hq2) as (w3 & rv & Hq3 & Hu & Hs3); [by rewrite Hkp, Hs2, Hs1|done|].
    rewrite (retry_loop_once _ _ _ (w3, (Some pruned, true)) None); [|simpl; by rewrite Hg, Hd, Hu|done].
    exists w3. split; [done|]. exists rv. by rewrite Hs3, Hkp, Hs2, Hs1.
  - rewrite (retry_loop_once _ _ _ (w2, (Some cur, false)) None); [|simpl; by rewrite Hg, Hd|done].
    exists w2. split; [done|]. by rewrite Hs2, Hs1.
Qed.
End dangling.
