(* ===== verification/ProjectFacts.v ===== *)
(** * The project controller: what it touches

    Whatever other writers do between its calls, and however stale its reads are, the
    controller creates namespaces the project owns, changes the labels of those it owns and
    nothing else of them, and deletes only those that carry its label, be it that the live
    project no longer declares their environment or that the project is being deleted. *)

From S2P Require Import Prelude GoStrings GoText Kube Core Api KubeStatus Effects Controller Constants BuildRun EnvStore Activity Nsrbac ApiServer ProjectReconcile.

(** An owner reference names the project. *)
Definition owned_by (uid : string) (ns : Namespace) : Prop :=
  ∃ ref, ref ∈ meta_OwnerReferences (ns_meta ns) ∧ owner_APIVersion ref = v1alpha1 ∧
    owner_Kind ref = "Project" ∧ owner_UID ref = uid.

(** The labels of the namespace with those of the controller over them. *)
Definition relabels (name : string) (ns : Namespace) (labels : gmap string string) : Prop :=
  ∃ spec, ∀ k, map_get labels k = default (map_get (meta_Labels (ns_meta ns)) k) (namespaceLabels name spec !! k).

(** ** Calls on other kinds *)

Section frames.
Context {W : Type} {CN : KubeClient W Namespace} {CB : KubeClient W RoleBinding} {CM : KubeClient W ProjectMember}
  {CC : KubeClient W ConfigMap} {LA : KubeListIn W App} {PA : KubePatch W App}.
Context (now : W → Time) (ServiceAccountName OperatorNamespace : string).
Context (I : relation W) {HI : PreOrder I}.

Lemma wrapping_keeps {A} fmt args (m : E W A) : keeps I m → keeps I (wrapping fmt args m).
Proof. intros Hm w. specialize (Hm w). unfold wrapping. by destruct (m w) as [w1 [err|a]]. Qed.

Lemma binding_keeps {KB : KubeWithin W RoleBinding I} ns w : I w (ensureRoleBinding ServiceAccountName OperatorNamespace ns w).1.
Proof.
  unfold ensureRoleBinding, EnsureWriteBinding.
  pose proof (kget_within (I := I) (Obj := RoleBinding) (ns, NsRoleBindingName) w) as Hg.
  destruct (kget (ns, NsRoleBindingName) w) as [w1 [err|b]]; simpl in Hg.
  - destruct (IsNotFound err); [|done].
    pose proof (kcreate_within (I := I) (write_binding ns ServiceAccountName OperatorNamespace) w1) as Hc.
    destruct (kcreate _ w1) as [w2 [e|]]; simpl in *; [case_match|]; by etrans.
  - destruct (_ || _); [|done]. etrans; [exact Hg|]. apply kupdate_within.
Qed.

Lemma bound_keeps {KB : KubeWithin W RoleBinding I} ns : keeps I (bound (W := W) ServiceAccountName OperatorNamespace ns).
Proof.
  unfold bound. intros w. unfold mbind, E_bind, wrapping, run.
  pose proof (binding_keeps ns w) as H. by destruct (ensureRoleBinding _ _ ns w) as [w1 [err|]].
Qed.

Lemma cascade_keeps {KL : ListReads W App I} annotation p controlNs :
  (∀ k patch w, I w (kmerge_patch App k patch w).1) → keeps I (cascade annotation p controlNs).
Proof.
  intros Hpatch. unfold cascade. apply keeps_bind; [apply _| |].
  - intros w. unfold wrapping. pose proof (klist_reads (I := I) (Obj := App) controlNs ∅ w) as H.
    by destruct (klist_in controlNs ∅ w) as [w1 [err|l]].
  - intros l. apply keeps_for_each; [apply _|]. intros app. destruct (String.eqb _ _); [by apply keeps_ret; try apply _|].
    intros w. unfold wrapping, run. pose proof (Hpatch (obj_key app)
      (annotation_patch annotation (itoa (meta_Generation (Project_ObjectMeta p)))) w) as H.
    by destruct (kmerge_patch App _ _ w) as [w1 [err|]].
Qed.

Lemma count_keeps {Obj} {L : KubeListIn W Obj} {LR : ListReads W Obj I} fmt ns :
  keeps I (wrapping fmt [] (l ← klist_in (Obj := Obj) ns ∅; mret (Z.of_nat (length l)))).
Proof.
  intros w. unfold wrapping, mbind, E_bind. pose proof (klist_reads (I := I) (Obj := Obj) ns ∅ w) as H.
  by destruct (klist_in ns ∅ w) as [w1 [err|l]].
Qed.

Lemma member_keeps {KM : KubeWithin W ProjectMember I} p controlNs w : I w (ensureOwnerMember p controlNs w).1.
Proof.
  unfold ensureOwnerMember. destruct (String.eqb _ ""); [done|]. cbv zeta.
  set (member := owner_member _ _ _). pose proof (kget_within (I := I) (Obj := ProjectMember) (obj_key member) w) as Hg.
  destruct (kget _ w) as [w1 [err|m]]; simpl in Hg; [|done]. destruct (IsNotFound err); [|done].
  pose proof (kcreate_within (I := I) member w1) as Hc. destruct (kcreate member w1) as [w2 [e|]]; simpl in Hc;
    [case_match|]; by etrans.
Qed.

Lemma append_keeps {KC : KubeWithin W ConfigMap I} event n w : I w (append_attempts (W := W) event n w).1.
Proof.
  revert w. induction n as [|n IH]; intros w; [done|]. cbn [append_attempts].
  assert (I w (append_attempt event w).1) as H.
  { unfold append_attempt. pose proof (kget_within (I := I) (Obj := ConfigMap)
      (projectNamespace (ev_Project event), configMapName (ev_Project event)) w) as Hg.
    destruct (kget _ w) as [w1 [err|cm]]; simpl in Hg.
    - destruct (IsNotFound err); [|done]. destruct (marshalEvents _) as [e|data]; [done|].
      set (cm := new_config_map _ _ _). pose proof (kcreate_within (I := I) cm w1) as Hc.
      destruct (kcreate cm w1) as [w2 [e|]]; by etrans.
    - destruct (unmarshalEvents _) as [e|events]; [done|]. destruct (hasProjectCreateActivity _ _); [done|].
      destruct (marshalEvents _) as [e|data]; [done|]. pose proof (kupdate_within (I := I) (with_events data cm) w1) as Hc.
      destruct (kupdate _ w1) as [w2 [e|]]; by etrans. }
  destruct (append_attempt event w) as [w1 [r|]]; [done|]. etrans; [exact H|apply IH].
Qed.

Lemma tolerate_keeps {KN : KubeReads W Namespace I} fmt controlNs f : (∀ w, I w (f w).1) → keeps I (tolerate (W := W) now fmt controlNs f).
Proof.
  intros Hf w. specialize (Hf w). unfold tolerate. destruct (f w) as [w1 [err|]]; [|done]. simpl in Hf.
  assert (I w1 (forbiddenFastRequeue now controlNs err w1).1) as H.
  { unfold forbiddenFastRequeue. destruct (negb _); [done|].
    pose proof (kget_reads (I := I) (Obj := Namespace) ("", controlNs) w1) as Hg.
    by destruct (kget ("", controlNs) w1) as [w2 [e|ns]]. }
  destruct (forbiddenFastRequeue _ _ _ w1) as [w2 [res|]]; by etrans.
Qed.
End frames.

Section moves.
Context {W : Type} {CP : KubeClient W Project} {SP : KubeStatus W Project} {LP : KubeListIn W Project}
  {CN : KubeClient W Namespace} {LN : KubeListIn W Namespace} {DN : KubeDelete W Namespace}
  {CB : KubeClient W RoleBinding} {CM : KubeClient W ProjectMember} {LM : KubeListIn W ProjectMember}
  {CC : KubeClient W ConfigMap} {LA : KubeListIn W App} {PA : KubePatch W App}
  {CH : ConditionHelpers} {FH : FinalizerHelpers} (R : MapRange) {HR : MapRangeOk R}.
Context {OP : KubeClientOk W Project} {ON : KubeClientOk W Namespace}.

(** The stored project at some time since the start. *)
Definition live_since (name : string) (start : W) (live : Project) (w : W) : Prop :=
  ∃ w1, khist (Obj := Project) start w1 ∧ khist (Obj := Project) w1 w ∧ kstore w1 !! ("", name) = Some live.

(** What allows the deletion of a namespace. *)
Definition may_delete (name : string) (start : W) (ns : Namespace) (w : W) : Prop :=
  let labels := meta_Labels (ns_meta ns) in
  labels !! ProjectLabel = Some name ∧ deleting (ns_meta ns) = false ∧
  ((labels !! NamespaceRoleLabel = Some NamespaceRoleEnv ∧
    ∃ live, live_since name start live w ∧ projectDeclaresEnv live (map_get labels EnvironmentLabel) = false) ∨
   (labels !! "app.kubernetes.io/managed-by" = Some "mortise" ∧
    ∃ p, read_ok ("", name) p w ∧ deleting (Project_ObjectMeta p) = true)).

(** Moves of a world that a reconciliation of the project, and everybody else between its
    calls, stays within. *)
Class ProjectMoves (get_project : NamespacedName → W → W * (error + Project))
    (get_namespace : NamespacedName → W → W * (error + Namespace)) (name : string) (start : W) (I : relation W) : Prop := {
  pm_preorder :: PreOrder I;
  pm_hist w w' : I w w' → khist (Obj := Namespace) w w' ∧ khist (Obj := Project) w w';
  (** Reads, the project itself, and calls on other kinds. *)
  pm_projects :: KubeWithin W Project I;
  pm_projects_status :: KubeStatusWithin W Project I;
  pm_projects_list :: ListReads W Project I;
  pm_live k w : I w (get_project k w).1;
  pm_namespaces :: KubeReads W Namespace I;
  pm_namespaces_list :: ListReads W Namespace I;
  pm_live_namespaces k w : I w (get_namespace k w).1;
  pm_bindings :: KubeWithin W RoleBinding I;
  pm_members :: KubeWithin W ProjectMember I;
  pm_members_list :: ListReads W ProjectMember I;
  pm_configmaps :: KubeWithin W ConfigMap I;
  pm_apps_list :: ListReads W App I;
  pm_apps_patch k patch w : I w (kmerge_patch App k patch w).1;
  (** Namespaces. *)
  pm_create p ns w :
    read_ok ("", name) p w → owned_by (project_uid p) ns →
    (∃ spec, meta_Labels (ns_meta ns) = namespaceLabels name spec) → I w (kcreate ns w).1;
  pm_update p ns labels w :
    read_ok ("", name) p w → read_ok (obj_key ns) ns w → owned_by (project_uid p) ns → relabels name ns labels →
    I w (kupdate (with_ns_labels labels ns) w).1;
  pm_delete ns w : read_ok (obj_key ns) ns w → may_delete name start ns w → I w (kdelete Namespace (obj_key ns) w).1;
}.

Context (SetControllerReference : ObjectMeta → ObjectMeta → error + ObjectMeta) (now : W → Time)
  (get_project : NamespacedName → W → W * (error + Project))
  (get_namespace : NamespacedName → W → W * (error + Namespace))
  (ServiceAccountName OperatorNamespace : string).
(** The reference to the owner that is added, the uncached reader, and lists. *)
Context (Howner : ∀ p m m', SetControllerReference (Project_ObjectMeta p) m = inr m' →
    owned_by (project_uid p) {| ns_meta := m' |} ∧ meta_Labels m' = meta_Labels m ∧ meta_Name m' = meta_Name m)
  (Hlive : ∀ k w w' r, get_project k w = (w', r) →
     khist w w' ∧ ∀ p, r = inr p → ∃ w1, khist w w1 ∧ khist w1 w' ∧ kstore w1 !! k = Some p)
  (Hlive_ns : reader_ok get_namespace)
  (Hlist : ∀ ns labels w w' l, klist_in (Obj := Namespace) ns labels w = (w', inr l) →
     ∀ o, o ∈ l → read_ok (obj_key o) o w' ∧ selected ns labels o = true).
Context (name : string) (start : W) (I : relation W) {M : ProjectMoves get_project get_namespace name start I}.
Local Abbreviation reader := (Some (get_project, get_namespace)).

(** What is known of the project that was read. *)
Definition known (p : Project) (w : W) : Prop := read_ok ("", name) p w ∧ project_name p = name.

Lemma project_known_stable p w w' : I w w' → known p w → known p w'.
Proof.
  intros H [(w0 & H0 & Hs) Hn]. split; [|done]. exists w0. split; [|done]. etrans; [done|by apply (pm_hist (I := I))].
Qed.

Lemma edit_keeps write edit n gave_up attempts w :
  (∀ p w, I w (write p w).1) → I w (edit_project write edit n gave_up attempts w).1.
Proof.
  intros Hw. revert w. induction attempts as [|attempts IH]; intros w; [done|]. cbn [edit_project].
  pose proof (kget_within (I := I) (Obj := Project) ("", n) w) as Hg.
  destruct (kget ("", n) w) as [w1 [err|fresh]]; [done|]. simpl in Hg. destruct (edit fresh) as [new|]; [|done].
  pose proof (Hw new w1) as H1. destruct (write new w1) as [w2 [err|]]; simpl in H1; [|by etrans].
  destruct (_ && _); [|by etrans]. etrans; [exact Hg|]. etrans; [exact H1|apply IH].
Qed.

Lemma status_keeps n mutate w : I w (updateProjectStatus n mutate w).1.
Proof. apply edit_keeps. intros p w1. apply kstatus_within. Qed.

Lemma claim_moves p nsName spec existing w :
  known p w → read_ok (obj_key existing) existing w →
  I w (claim_namespace R p nsName (namespaceLabels (project_name p) spec) existing w).1.
Proof.
  intros [Hp Hn] He. unfold claim_namespace.
  pose proof (owner_scan_spec (project_uid p) (meta_OwnerReferences (ns_meta existing)) "") as Hs.
  destruct (owner_scan _ _ _) as [[] other]; [|by destruct (negb _)].
  destruct (overlay _ _ _ _) as [l []] eqn:Eo; [|done]. pose proof (overlay_spec _ _ _ _ _ _ Eo) as [Hl _].
  pose proof (pm_update (I := I) p existing l w Hp He) as H. destruct (kupdate _ w) as [w1 err].
  apply H; [by apply Hs|]. exists spec. intros k. by rewrite Hl, Hn.
Qed.

Lemma read_own k (o : Namespace) w : read_ok k o w → read_ok (obj_key o) o w.
Proof. intros (w0 & H & Hk). exists w0. by rewrite (kstore_key _ _ _ Hk). Qed.

Lemma ensure_keeps p nsName spec w :
  known p w → I w (ensureNamespace R SetControllerReference reader p nsName spec w).1.
Proof.
  intros Hp. unfold ensureNamespace, namespace_reader.
  pose proof (kget_reads (I := I) (Obj := Namespace) ("", nsName) w) as Hg.
  destruct (kget ("", nsName) w) as [w1 [err|o]] eqn:Eg; simpl in Hg.
  - destruct (IsNotFound err); [|done]. destruct (SetControllerReference _ _) as [e|m] eqn:Em; [done|].
    pose proof (project_known_stable _ _ _ Hg Hp) as [Hp1 Hn].
    destruct (Howner _ _ _ Em) as (Ho & Hlab & _).
    pose proof (pm_create (I := I) p {| ns_meta := m |} w1 Hp1 Ho
      ltac:(exists spec; simpl; by rewrite Hlab, <-Hn)) as Hc.
    destruct (kcreate _ w1) as [w2 [e|]]; simpl in Hc; [|by etrans].
    destruct (IsAlreadyExists e); [|by etrans].
    pose proof (pm_live_namespaces (I := I) ("", nsName) w2) as Hl.
    destruct (get_namespace ("", nsName) w2) as [w3 [e'|o]] eqn:El; simpl in Hl; [by repeat (etrans; [done|])|].
    etrans; [exact Hg|]. etrans; [exact Hc|]. etrans; [exact Hl|]. apply claim_moves.
    + by repeat (eapply project_known_stable; [done|]).
    + apply (read_own ("", nsName)). by eapply Hlive_ns.
  - etrans; [exact Hg|]. apply claim_moves; [by eapply project_known_stable|]. apply (read_own ("", nsName)).
    by eapply kget_reader_ok.
Qed.

(** *** Sequences *)

Lemma provided_bind {A B} P (m : Provision A) (k : A → Provision B) :
  within I P m (λ _ _, True) → (∀ s s', I s s' → P s → P s') → (∀ a, within I P (k a) (λ _ _, True)) →
  within I P (provision_bind m k) (λ _ _, True).
Proof.
  intros Hm Hst Hk. unfold provision_bind. apply (within_bind I P _ (λ _, P)).
  - intros s Hs. split; [by apply Hm|]. intros a _. apply (Hst s); [by apply Hm|done].
  - intros [refusal|a]; [by apply within_ret; try apply _|apply Hk].
Qed.

Lemma claimed_within P fmt args f :
  (∀ w, P w → I w (f w).1) → within I P (claimed (W := W) fmt args f) (λ _ _, True).
Proof.
  intros Hf w Hp. specialize (Hf w Hp). unfold claimed.
  by destruct (f w) as [w1 [[reason msg|err]|]].
Qed.

Lemma wrapping_within {A} P fmt args (m : E W A) Q : within I P m Q → within I P (wrapping fmt args m) Q.
Proof.
  intros Hm w Hp. destruct (Hm w Hp) as [H1 H2]. unfold wrapping. by destruct (m w) as [w1 [err|a]].
Qed.

Lemma kept_within {A} P (m : E W A) : keeps I m → within I P m (λ _ _, True).
Proof. intros Hm w _. split; [apply Hm|done]. Qed.

Lemma envs_within p envs m :
  within I (known p)
    (ensure_envs R SetControllerReference reader ServiceAccountName OperatorNamespace p envs m) (λ _ _, True).
Proof.
  revert m. induction envs as [|env envs IH]; intros m; [by apply within_ret; try apply _|]. cbn [ensure_envs]. cbv zeta.
  apply provided_bind; [apply claimed_within; intros w; apply ensure_keeps|apply project_known_stable|]. intros _.
  apply provided_bind; [apply kept_within, bound_keeps; apply _|apply project_known_stable|]. intros _. apply IH.
Qed.

Lemma provision_within p controlNs :
  within I (known p)
    (provision R SetControllerReference reader ServiceAccountName OperatorNamespace p controlNs) (λ _ _, True).
Proof.
  unfold provision. destruct (too_long _ _); [by apply within_ret; try apply _|].
  apply provided_bind; [|apply project_known_stable|intros _].
  { apply claimed_within. intros w _. unfold checkControlNamespaceUniqueness.
    pose proof (klist_reads (I := I) (Obj := Project) "" ∅ w) as H.
    by destruct (klist_in "" ∅ w) as [w1 [err|l]]. }
  apply provided_bind; [apply claimed_within; intros w; apply ensure_keeps|apply project_known_stable|intros _].
  apply provided_bind; [apply kept_within, bound_keeps; apply _|apply project_known_stable|intros _]. apply envs_within.
Qed.

(** *** The collection and the teardown *)

(** The listed namespaces. *)
Definition listed (labels : gmap string string) (l : list Namespace) (w : W) : Prop :=
  ∀ ns, ns ∈ l → read_ok (obj_key ns) ns w ∧ labels ⊆ meta_Labels (ns_meta ns).

Lemma read_stable k (ns : Namespace) w w' : I w w' → read_ok k ns w → read_ok k ns w'.
Proof. intros H (w0 & H0 & Hs). exists w0. split; [|done]. etrans; [done|by apply (pm_hist (I := I))]. Qed.

Lemma listed_stable labels l w w' : I w w' → listed labels l w → listed labels l w'.
Proof. intros H Hl ns Hns. destruct (Hl ns Hns) as [Hr Hs]. split; [by eapply read_stable|done]. Qed.

Lemma list_within P labels fmt :
  (∀ s s', I s s' → P s → P s') →
  within I P (wrapping fmt [] (klist_in (Obj := Namespace) "" labels)) (λ l w, P w ∧ listed labels l w).
Proof.
  intros Hst. apply wrapping_within. intros w Hp. pose proof (klist_reads (I := I) (Obj := Namespace) "" labels w) as H.
  split; [done|]. intros l Hl. split; [by eapply Hst|]. intros ns Hns.
  destruct (klist_in "" labels w) as [w1 r] eqn:E. simpl in *. subst r. destruct (Hlist _ _ _ _ _ E ns Hns) as [Hr Hs].
  split; [done|]. unfold selected in Hs. apply andb_true_iff in Hs as [_ Hs]. by apply bool_decide_eq_true in Hs.
Qed.

(** After the start, with the live project that was read, if any. *)
Definition reading (live : option Project) (w : W) : Prop :=
  khist (Obj := Project) start w ∧ ∀ p, live = Some p → live_since name start p w.

Lemma live_stable p w w' : khist (Obj := Project) w w' → live_since name start p w → live_since name start p w'.
Proof. intros H (w1 & H1 & H2 & H3). exists w1. split; [done|]. split; [by etrans|done]. Qed.

Lemma reading_stable live w w' : I w w' → reading live w → reading live w'.
Proof.
  intros H [Hs Hl]. pose proof (pm_hist (I := I) _ _ H) as [_ Hh]. split; [by etrans|].
  intros p Hp. eapply live_stable; [done|by apply Hl].
Qed.

Definition stale_labels : gmap string string := {[ProjectLabel := name; NamespaceRoleLabel := NamespaceRoleEnv]}.

Lemma stale_project : stale_labels !! ProjectLabel = Some name.
Proof. reflexivity. Qed.
Lemma stale_role : stale_labels !! NamespaceRoleLabel = Some NamespaceRoleEnv.
Proof. reflexivity. Qed.

Lemma deleted_within (f : error → error) (ns : Namespace) P :
  (∀ w, P w → I w (kdelete Namespace (obj_key ns) w).1) →
  within I P (λ w, match kdelete Namespace (obj_key ns) w with
                   | (w, Some err) => if IsNotFound err then (w, inr tt) else (w, inl (f err))
                   | (w, None) => (w, inr tt)
                   end) (λ _ _, True).
Proof.
  intros Hf w Hp. specialize (Hf w Hp). destruct (kdelete Namespace _ w) as [w1 [err|]]; [|done].
  by destruct (IsNotFound err).
Qed.

Lemma gc_namespace_within p ns live :
  project_name p = name → deleting (ns_meta ns) = false →
  within I (λ w, reading live w ∧ listed stale_labels [ns] w) (gc_namespace reader p ns live)
    (λ live w, reading live w).
Proof.
  intros Hp Hd. unfold gc_namespace. rewrite Hp.
  apply (within_bind I _ _ (λ live1 w, ∃ q, live1 = q ∧ reading (Some q) w ∧ listed stale_labels [ns] w)).
  - destruct live as [q|]; [apply within_ret; try apply _; naive_solver|]. apply wrapping_within.
    intros w [[Hs _] Hl]. pose proof (pm_live (I := I) ("", name) w) as Hi. split; [done|]. intros q Hq.
    exists q. split; [done|]. split; [|by eapply listed_stable]. destruct (get_project ("", name) w) as [w1 r] eqn:E.
    simpl in *. subst r. destruct (Hlive _ _ _ _ E) as [Hh Hw]. destruct (Hw q eq_refl) as (w2 & H1 & H2 & H3).
    split; [by etrans|]. intros q' [= <-]. exists w2. split; [by etrans|done].
  - intros q. destruct (projectDeclaresEnv q _) eqn:Ed.
    + apply within_ret; [apply _|]. by intros w (? & <- & H & _).
    + apply (within_bind I _ _ (λ _ w, reading (Some q) w)).
      * intros w (? & <- & Hr & Hl). destruct (Hl ns ltac:(by left)) as [Hn Hlab].
        assert (I w (kdelete Namespace (obj_key ns) w).1) as Hi.
        { apply (pm_delete (I := I) ns); [done|]. unfold may_delete. cbv zeta.
          split; [exact (lookup_weaken _ _ _ _ stale_project Hlab)|]. split; [done|]. left.
          split; [exact (lookup_weaken _ _ _ _ stale_role Hlab)|]. exists q. split; [by apply Hr|done]. }
        pose proof (deleted_within (Wrapf "delete stale env ns %q: %w" [meta_Name (ns_meta ns)]) ns (λ v, v = w)
          ltac:(by intros ? ->) w eq_refl) as [H1 _].
        split; [exact H1|]. intros _ _. by eapply reading_stable.
      * intros _. by apply within_ret; try apply _.
Qed.

Lemma gc_namespaces_within p desired l live :
  project_name p = name →
  within I (λ w, reading live w ∧ listed stale_labels l w) (gc_namespaces reader p desired l live) (λ _ _, True).
Proof.
  intros Hp. revert live. induction l as [|ns l IH]; intros live; [by apply within_ret; try apply _|]. cbn [gc_namespaces].
  assert (∀ w, listed stale_labels (ns :: l) w → listed stale_labels [ns] w ∧ listed stale_labels l w) as Hsplit.
  { intros w Hl. split; intros n Hn; apply Hl; [apply list_elem_of_singleton in Hn as ->; by left|by right]. }
  destruct (_ || deleting (ns_meta ns)) eqn:Ed.
  - eapply within_conseq; [apply IH| |done]. intros w [Hr Hl]. split; [done|by apply Hsplit].
  - apply orb_false_iff in Ed as [_ Ed].
    apply (within_bind I _ _ (λ live w, reading live w ∧ listed stale_labels l w)); [|apply IH].
    intros w [Hr Hl]. destruct (gc_namespace_within p ns live Hp Ed w) as [H1 H2]; [split; [done|by apply Hsplit]|].
    split; [done|]. intros a Ha. split; [by apply H2|]. eapply listed_stable; [done|by apply Hsplit].
Qed.

Lemma gc_within p desired :
  project_name p = name →
  within I (reading None) (gcStaleEnvNamespaces reader p desired) (λ _ _, True).
Proof.
  intros Hp. unfold gcStaleEnvNamespaces. rewrite Hp. eapply within_bind; [apply _|apply list_within, reading_stable|].
  intros l. by apply gc_namespaces_within.
Qed.

Lemma teardown_within p :
  project_name p = name → deleting (Project_ObjectMeta p) = true →
  within I (λ w, read_ok ("", name) p w) (deleteOwnedNamespaces p) (λ _ _, True).
Proof.
  intros Hp Hd. unfold deleteOwnedNamespaces. rewrite Hp.
  assert (∀ s s', I s s' → read_ok ("", name) p s → read_ok ("", name) p s') as Hst.
  { intros s s' Hi (w0 & H0 & H1). exists w0. split; [|done]. etrans; [done|by apply (pm_hist (I := I))]. }
  eapply within_bind; [apply _|by apply list_within|]. intros l. apply within_for_each; [apply _| |].
  { intros s s' Hi [H1 H2]. split; [by eapply Hst|by eapply listed_stable]. }
  intros ns Hns. unfold delete_owned. destruct (_ || _) eqn:E; [by apply within_ret; try apply _|].
  apply orb_false_iff in E as [Em%negb_false_iff%String.eqb_eq Ed].
  apply deleted_within. intros w [Hr Hl]. destruct (Hl ns Hns) as [Hn Hlab].
  apply (pm_delete (I := I) ns); [done|]. unfold may_delete. cbv zeta.
  split; [exact (lookup_weaken _ _ _ _ (lookup_singleton_eq _ _) Hlab)|]. split; [done|]. right.
  split; [|by exists p]. unfold map_get in Em. destruct (_ !! "app.kubernetes.io/managed-by"); simpl in Em; congruence.
Qed.

(** *** The rest *)

Lemma mark_keeps n mutate : keeps I (run (updateProjectStatus (W := W) n mutate)).
Proof. apply keeps_run. intros w. apply status_keeps. Qed.

Lemma settle_within p controlNs m :
  project_name p = name → within I (reading None) (settle reader p controlNs m) (λ _ _, True).
Proof.
  intros Hp. unfold settle. apply (within_bind I _ _ (λ _ _, True)); [by apply wrapping_within, gc_within|]. intros _.
  apply kept_within. apply keeps_bind; [apply _|by apply (count_keeps I (Obj := App))|intros appCount].
  apply keeps_bind; [apply _|by apply (count_keeps I (Obj := ProjectMember))|intros memberCount].
  apply keeps_bind; [apply _| |intros _].
  { apply keeps_if; [by apply wrapping_keeps, (cascade_keeps I), pm_apps_patch|by apply keeps_ret; try apply _]. }
  apply keeps_bind; [apply _|by apply wrapping_keeps, (cascade_keeps I), pm_apps_patch|intros _]. apply wrapping_keeps, mark_keeps.
Qed.

Lemma activity_keeps p w : I w (ensureProjectCreateActivity now p w).1.
Proof.
  unfold ensureProjectCreateActivity. destruct (String.eqb _ "true"); [done|].
  pose proof (append_keeps I (projectCreateActivityEvent p (now w)) conflict_attempts w) as H.
  unfold appendProjectCreateActivityIfMissing. destruct (append_attempts _ _ w) as [w1 [err|]]; [done|].
  etrans; [exact H|]. apply edit_keeps. intros q w2. apply kupdate_within.
Qed.

Lemma finish_within p controlNs m :
  project_name p = name → within I (reading None) (finish now reader p controlNs m) (λ _ _, True).
Proof.
  intros Hp. unfold finish. eapply keeps_ret_bind_within; [apply _|apply reading_stable| |].
  { apply (tolerate_keeps now I). intros w. apply (member_keeps I). }
  intros [res|]; [by apply within_ret; try apply _|].
  eapply keeps_ret_bind_within; [apply _|apply reading_stable|apply (tolerate_keeps now I); intros w; apply activity_keeps|].
  intros [res|]; [by apply within_ret; try apply _|].
  apply (within_bind I _ _ (λ _ _, True)); [by apply settle_within|]. intros _. by apply within_ret; try apply _.
Qed.

Context {FOK : FinalizerHelpersOk}.

Lemma seeded_same p q : seeded p = (q, false) → q = p.
Proof.
  unfold seeded. rewrite add_finalizer. destruct (ContainsFinalizer _ _); destruct (existsb _ _); try done.
  intros [= <-]. by destruct p.
Qed.

Lemma reconcile_project_within p :
  within I (λ w, known p w ∧ reading None w)
    (reconcile_project R SetControllerReference now reader ServiceAccountName OperatorNamespace p) (λ _ _, True).
Proof.
  assert (∀ s s', I s s' → known p s ∧ reading None s → known p s' ∧ reading None s') as Hst.
  { intros s s' H [Hk Hr]. split; [by eapply project_known_stable|by eapply reading_stable]. }
  intros w [Hk Hr]. assert (project_name p = name) as Hp by apply Hk. revert w Hk Hr.
  cut (within I (λ w, known p w ∧ reading None w)
    (reconcile_project R SetControllerReference now reader ServiceAccountName OperatorNamespace p) (λ _ _, True));
    [by intros H w Hk Hr; apply H|].
  unfold reconcile_project. destruct (deleting (Project_ObjectMeta p)) eqn:Ed.
  - unfold teardown. eapply keeps_ret_bind_within; [apply _|exact Hst| |].
    { apply keeps_run. intros w. unfold markTerminating. destruct (String.eqb _ _); [done|apply status_keeps]. }
    intros _. apply (within_bind I _ _ (λ _ _, True)).
    { eapply within_conseq; [by apply (teardown_within p)| |done]. by intros w [[H _] _]. }
    intros _. apply kept_within, keeps_bind; [apply _| |intros _; by apply keeps_ret; try apply _].
    apply wrapping_keeps, keeps_run. intros w. apply edit_keeps. intros q w1. apply kupdate_within.
  - destruct (seeded p) as [q []] eqn:Es.
    + apply kept_within, keeps_bind; [apply _| |intros _; by apply keeps_ret; try apply _].
      apply wrapping_keeps, keeps_run. intros w. apply kupdate_within.
    + apply seeded_same in Es as ->. apply (within_bind I _ _ (λ _ w, known p w ∧ reading None w)).
      * intros w [Hk Hr]. destruct (provision_within p (ControlNamespace (project_name p)) w Hk) as [H _].
        split; [done|]. intros a _. by eapply Hst.
      * intros [[reason msg]|m].
        -- apply kept_within, keeps_bind; [apply _|apply mark_keeps|intros _; by apply keeps_ret; try apply _].
        -- eapply within_conseq; [by apply finish_within| |done]. by intros w [_ H].
Qed.
End moves.

Section reconcile.
Context {W : Type} {CP : KubeClient W Project} {SP : KubeStatus W Project} {LP : KubeListIn W Project}
  {CN : KubeClient W Namespace} {LN : KubeListIn W Namespace} {DN : KubeDelete W Namespace}
  {CB : KubeClient W RoleBinding} {CM : KubeClient W ProjectMember} {LM : KubeListIn W ProjectMember}
  {CC : KubeClient W ConfigMap} {LA : KubeListIn W App} {PA : KubePatch W App}
  {CH : ConditionHelpers} {FH : FinalizerHelpers} {FOK : FinalizerHelpersOk} (R : MapRange) {HR : MapRangeOk R}.
Context {OP : KubeClientOk W Project} {ON : KubeClientOk W Namespace}.
Context (SetControllerReference : ObjectMeta → ObjectMeta → error + ObjectMeta) (now : W → Time)
  (get_project : NamespacedName → W → W * (error + Project))
  (get_namespace : NamespacedName → W → W * (error + Namespace))
  (ServiceAccountName OperatorNamespace : string).

(** C8: Whatever others write between its calls, and however stale its cache is, a
    reconciliation with an uncached reader stays within the moves of its project: it
    creates namespaces that the project owns, changes only labels of namespaces it read as
    the project's, and deletes a namespace only if it read the project's label on it, and
    either the live project, read since the start, does not declare its environment, or
    the project is being deleted. *)
Theorem reconcile_touches_own name start I :
  ProjectMoves get_project get_namespace name start I →
  (∀ p m m', SetControllerReference (Project_ObjectMeta p) m = inr m' →
    owned_by (project_uid p) {| ns_meta := m' |} ∧ meta_Labels m' = meta_Labels m ∧ meta_Name m' = meta_Name m) →
  (∀ k w w' r, get_project k w = (w', r) →
     khist w w' ∧ ∀ p, r = inr p → ∃ w1, khist w w1 ∧ khist w1 w' ∧ kstore w1 !! k = Some p) →
  reader_ok get_namespace →
  (∀ ns labels w w' l, klist_in (Obj := Namespace) ns labels w = (w', inr l) →
     ∀ o, o ∈ l → read_ok (obj_key o) o w' ∧ selected ns labels o = true) →
  I start (Reconcile R SetControllerReference now (Some (get_project, get_namespace)) ServiceAccountName
             OperatorNamespace name start).1.
Proof.
  intros M Howner Hlive Hns Hlist. unfold Reconcile.
  pose proof (kget_within (I := I) (Obj := Project) ("", name) start) as Hg.
  destruct (kget ("", name) start) as [w1 [err|p]] eqn:Eg; simpl in Hg; [by destruct (IsNotFound err)|].
  etrans; [exact Hg|].
  apply (reconcile_project_within R SetControllerReference now get_project get_namespace ServiceAccountName
    OperatorNamespace Howner Hlive Hns Hlist name start I p).
  pose proof (kget_spec _ _ _ _ Eg) as [Hh Hr]. destruct (Hr p eq_refl) as (w0 & H0 & Hs). split.
  - split; [by exists w0|]. apply kstore_key in Hs. by injection Hs.
  - split; [done|]. by intros q [=].
Qed.
End reconcile.
