(* ===== verification/ProjectConverges.v ===== *)
(** * The project controller: what a reconciliation comes to

    When nobody else writes projects and namespaces, a reconciliation that is done has
    seeded the project, refused it for a stated reason, brought it to the state its
    specification asks for, or asked its namespaces to go and released it ([outcome]). *)

From S2P Require Import Prelude GoStrings GoText Kube Core Api KubeStatus Effects Controller Constants BuildRun EnvStore Activity Nsrbac ApiServer ProjectReconcile ProjectFacts.

Abbreviation namespaces := (gmap NamespacedName Namespace) (only parsing).
Abbreviation projects := (gmap NamespacedName Project) (only parsing).

(** ** Specification *)

(** The namespace without labels and version. *)
Definition bare (ns : Namespace) : ObjectMeta := with_rv "" (with_labels ∅ (ns_meta ns)).

Definition carries (labels : gmap string string) (ns : Namespace) : Prop :=
  ∀ k v, labels !! k = Some v → map_get (meta_Labels (ns_meta ns)) k = v.

(** The namespaces a project wants, by name. *)
Definition env_spec (env : ProjectEnvironment) : namespaceSpec :=
  {| nsp_role := NamespaceRoleEnv; nsp_envName := ProjectEnvironment_Name env |}.
Definition control_spec : namespaceSpec := {| nsp_role := NamespaceRoleControl; nsp_envName := "" |}.
Definition wanted (p : Project) : list (string * namespaceSpec) :=
  (ControlNamespace (project_name p), control_spec) ::
  ((λ env, (EnvNamespace (project_name p) (ProjectEnvironment_Name env), env_spec env)) <$> project_envs p).

(** The project has the namespace, with the labels. *)
Definition present (p : Project) (N : namespaces) (x : string * namespaceSpec) : Prop :=
  ∃ ns, N !! ("", x.1) = Some ns ∧ owned_by (project_uid p) ns ∧ carries (namespaceLabels (project_name p) x.2) ns.

(** A namespace of an environment the project no longer declares. *)
Definition stale (p : Project) (ns : Namespace) : bool :=
  let labels := meta_Labels (ns_meta ns) in
  bool_decide ({[ProjectLabel := project_name p; NamespaceRoleLabel := NamespaceRoleEnv]} ⊆ labels) &&
  negb (projectDeclaresEnv p (map_get labels EnvironmentLabel)) && negb (deleting (ns_meta ns)).

(** Namespaces change only where the project wants them, and if they were there before they
    were its own and change in labels only. *)
Definition changed_ours (p : Project) (N N' : namespaces) (k : NamespacedName) : Prop :=
  ∃ x new, x ∈ wanted p ∧ k = ("", x.1) ∧ N' !! k = Some new ∧ owned_by (project_uid p) new ∧
    carries (namespaceLabels (project_name p) x.2) new ∧ ∀ old, N !! k = Some old → bare new = bare old.
Definition kept_or_ours (p : Project) (N N' : namespaces) : Prop := ∀ k, N' !! k = N !! k ∨ changed_ours p N N' k.

(** The namespaces that the test selects were asked to go: they are gone, or they carry a
    deletion timestamp and are otherwise as they were.  The others are as before. *)
Definition pruned (f : Namespace → bool) (N N' : namespaces) : Prop :=
  ∀ k, match N !! k with
       | Some ns => if f ns then asked_to_go (Some ns) (N' !! k) else N' !! k = Some ns
       | None => N' !! k = None
       end.

(** What the specification asks for. *)
Definition provided (p : Project) (N N' : namespaces) : Prop :=
  (∀ x, x ∈ wanted p → present p N' x) ∧
  (∀ k ns, N' !! k = Some ns → stale p ns = false) ∧
  (∀ k, N' !! k = N !! k ∨ changed_ours p N N' k ∨
        ∃ old, N !! k = Some old ∧ stale p old = true ∧ asked_to_go (Some old) (N' !! k)).

(** Why a project is refused.  Another project with the same control namespace is none of
    the reasons: it would have the same name. *)
Definition refusal (p : Project) (N : namespaces) (reason : string) : Prop :=
  (reason = ReasonEnvNamespaceTooLong ∧ is_Some (too_long (project_name p) (project_envs p))) ∨
  ((reason = ReasonNamespaceOwnedByOther ∨ reason = ReasonNamespaceAlreadyExists) ∧
     ∃ x ns, x ∈ wanted p ∧ N !! ("", x.1) = Some ns ∧ ¬ owned_by (project_uid p) ns).

(** The project with another version, and perhaps the mark that its creation is recorded. *)
Definition same_project (p q : Project) : Prop := ∃ rv, q = obj_with_rv rv p ∨ q = obj_with_rv rv (recorded p).

(** What is asked to go with a project. *)
Definition taken_down (p : Project) (ns : Namespace) : bool :=
  let labels := meta_Labels (ns_meta ns) in
  bool_decide ({[ProjectLabel := project_name p]} ⊆ labels) &&
  String.eqb (map_get labels "app.kubernetes.io/managed-by") "mortise" && negb (deleting (ns_meta ns)).

Section outcome.
Context {CH : ConditionHelpers} {FH : FinalizerHelpers}.

Definition env_map (p : Project) (m : gmap string string) : gmap string string :=
  fold_left (λ m env, <[ProjectEnvironment_Name env := EnvNamespace (project_name p) (ProjectEnvironment_Name env)]> m)
    (project_envs p) m.

(** The stores of namespaces and projects before and after a reconciliation. *)
Inductive outcome (p : Project) (N : namespaces) (P : projects) : namespaces → projects → Prop :=
| outcome_seeded q rv :
    deleting (Project_ObjectMeta p) = false → seeded p = (q, true) →
    outcome p N P N (<[("", project_name p) := obj_with_rv rv q]> P)
| outcome_refused reason message N' rv :
    deleting (Project_ObjectMeta p) = false → seeded p = (p, false) →
    refusal p N reason → kept_or_ours p N N' →
    outcome p N P N' (<[("", project_name p) := obj_with_rv rv (with_Project_Status
      (status_failed (ControlNamespace (project_name p)) reason message (Project_Status p) p) p)]> P)
| outcome_ready N' q rv apps members :
    deleting (Project_ObjectMeta p) = false → seeded p = (p, false) → provided p N N' → same_project p q →
    outcome p N P N' (<[("", project_name p) := obj_with_rv rv (with_Project_Status
      (status_ready (ControlNamespace (project_name p)) apps members (env_map p ∅) (Project_Status p) p) q)]> P)
| outcome_released N' q :
    deleting (Project_ObjectMeta p) = true → pruned (taken_down p) N N' →
    ContainsFinalizer (Project_ObjectMeta q) projectFinalizer = false → Project_Spec q = Project_Spec p →
    outcome p N P N' (<[("", project_name p) := q]> P).
End outcome.

(** Projects have no namespace. *)
Definition cluster_scoped (P : projects) : Prop := ∀ k p, P !! k = Some p → k.1 = "".

(** ** Names *)

Lemma env_namespace_inj p e1 e2 : EnvNamespace p e1 = EnvNamespace p e2 → e1 = e2.
Proof. unfold EnvNamespace. intros H. by repeat apply str_app_inv_head in H. Qed.

Lemma env_not_control p e : EnvNamespace p e ≠ ControlNamespace p.
Proof.
  unfold EnvNamespace, ControlNamespace. intros H%(f_equal String.length). rewrite !str_app_length in H. simpl in H. lia.
Qed.

(** Names determine what is wanted. *)
Lemma wanted_unique p x y : x ∈ wanted p → y ∈ wanted p → x.1 = y.1 → x = y.
Proof.
  unfold wanted. rewrite !elem_of_cons, !list_elem_of_fmap.
  intros [->|(e1 & -> & _)] [->|(e2 & -> & _)]; simpl; intros H; try done.
  - by apply eq_sym, env_not_control in H.
  - by apply env_not_control in H.
  - apply env_namespace_inj in H. unfold env_spec. by rewrite H.
Qed.

(** ** Changes *)

Lemma kept_refl p N : kept_or_ours p N N.
Proof. by left. Qed.

Lemma kept_trans p N1 N2 N3 : kept_or_ours p N1 N2 → kept_or_ours p N2 N3 → kept_or_ours p N1 N3.
Proof.
  intros H1 H2 k. destruct (H2 k) as [E2|(x & new & Hx & -> & Hn & Ho & Hc & Hb)].
  - destruct (H1 k) as [E1|(x & new & Hx & -> & Hn & Ho & Hc & Hb)]; [left; congruence|].
    right. exists x, new. rewrite E2. done.
  - right. exists x, new. do 5 (split; [done|]). intros old Hold.
    destruct (H1 ("", x.1)) as [E1|(y & mid & _ & _ & Hm & _ & _ & Hb1)]; [apply Hb; congruence|].
    rewrite (Hb mid Hm). by apply Hb1.
Qed.

(** The namespace that is put where one is wanted. *)
Definition placed (p : Project) (x : string * namespaceSpec) (N N' : namespaces) : Prop :=
  kept_or_ours p N N' ∧ present p N' x ∧ ∀ k, k ≠ ("", x.1) → N' !! k = N !! k.

Lemma placed_at p x N ns :
  x ∈ wanted p → owned_by (project_uid p) ns → carries (namespaceLabels (project_name p) x.2) ns →
  (∀ old, N !! ("", x.1) = Some old → bare ns = bare old) → placed p x N (<[("", x.1) := ns]> N).
Proof.
  intros Hx Ho Hc Hb. split_and!.
  - intros k. destruct (decide (k = ("", x.1))) as [->|Hne]; [|left; by rewrite lookup_insert_ne].
    right. exists x, ns. rewrite lookup_insert_eq. done.
  - exists ns. rewrite lookup_insert_eq. done.
  - intros k Hk. by rewrite lookup_insert_ne.
Qed.

Lemma placed_same p x N : present p N x → placed p x N N.
Proof. intros H. split_and!; [apply kept_refl|done|done]. Qed.

Lemma present_placed p x y N N' : x ∈ wanted p → y ∈ wanted p → placed p y N N' → present p N x → present p N' x.
Proof.
  intros Hx Hy (_ & Hp & Hsame) (ns & Hn & Ho & Hc). destruct (decide (x.1 = y.1)) as [E|Hne].
  - by rewrite (wanted_unique p x y).
  - exists ns. rewrite Hsame by congruence. done.
Qed.

(** Namespaces that are wanted are not stale. *)
Lemma carried_not_stale p x ns :
  Forall (λ e, ProjectEnvironment_Name e ≠ "") (project_envs p) →
  x ∈ wanted p → carries (namespaceLabels (project_name p) x.2) ns → stale p ns = false.
Proof.
  intros Hne Hx Hc. unfold stale. cbv zeta. unfold wanted in Hx. rewrite elem_of_cons, list_elem_of_fmap in Hx.
  destruct Hx as [->|(e & -> & He)]; simpl in Hc.
  - rewrite bool_decide_eq_false_2; [done|]. intros Hsub.
    assert (map_get (meta_Labels (ns_meta ns)) NamespaceRoleLabel = NamespaceRoleEnv) as H.
    { unfold map_get. by rewrite (lookup_weaken _ _ NamespaceRoleLabel NamespaceRoleEnv eq_refl Hsub). }
    by rewrite (Hc NamespaceRoleLabel NamespaceRoleControl eq_refl) in H.
  - rewrite (Hc EnvironmentLabel (ProjectEnvironment_Name e)).
    + assert (projectDeclaresEnv p (ProjectEnvironment_Name e) = true) as ->; [|simpl; by rewrite andb_false_r].
      apply existsb_elem. exists e. split; [done|apply String.eqb_refl].
    + unfold namespaceLabels, env_spec. simpl. rewrite Forall_forall in Hne.
      rewrite (proj2 (String.eqb_neq _ _) (Hne e He)). simpl. apply lookup_insert_eq.
Qed.

(** ** Without other writers *)

Section quiet.
Context {W : Type} {CP : KubeClient W Project} {SP : KubeStatus W Project} {LP : KubeListIn W Project}
  {CN : KubeClient W Namespace} {LN : KubeListIn W Namespace} {DN : KubeDelete W Namespace}
  {CB : KubeClient W RoleBinding} {CM : KubeClient W ProjectMember} {LM : KubeListIn W ProjectMember}
  {CC : KubeClient W ConfigMap} {LA : KubeListIn W App} {PA : KubePatch W App}
  {CH : ConditionHelpers} {FH : FinalizerHelpers} {FOK : FinalizerHelpersOk} (R : MapRange) {HR : MapRangeOk R}.
Context {OP : KubeClientOk W Project} {SOP : KubeStatusOk W Project} {LOP : KubeListOk W Project}
  {ON : KubeClientOk W Namespace} {LON : KubeListOk W Namespace} {DON : KubeDeleteAsks W Namespace}.

(** Calls on one kind leave the other ones alone. *)
Definition elsewhere : relation W := both (unaffected Namespace) (unaffected Project).
Context {NP : KubeApart W Namespace Project} {PN : KubeApart W Project Namespace}
  {LNP : ListReads W Namespace (unaffected Project)} {LPN : ListReads W Project (unaffected Namespace)}
  {SPN : KubeStatusWithin W Project (unaffected Namespace)}
  (DNP : ∀ k w, unaffected Project w (kdelete Namespace k w).1)
  {EB : KubeWithin W RoleBinding elsewhere} {EM : KubeWithin W ProjectMember elsewhere}
  {EC : KubeWithin W ConfigMap elsewhere} {EA : ListReads W App elsewhere} {ELM : ListReads W ProjectMember elsewhere}
  (EP : ∀ k patch w, elsewhere w (kmerge_patch App k patch w).1).
Context (SetControllerReference : ObjectMeta → ObjectMeta → error + ObjectMeta) (now : W → Time)
  (ServiceAccountName OperatorNamespace : string).
Context (Howner : ∀ p m m', SetControllerReference (Project_ObjectMeta p) m = inr m' →
    owned_by (project_uid p) {| ns_meta := m' |} ∧ meta_Labels m' = meta_Labels m ∧ meta_Name m' = meta_Name m ∧
    meta_Namespace m' = meta_Namespace m).
Local Abbreviation reader := (Some (kget (Obj := Project), kget (Obj := Namespace))).

(** The stores of a quiet world. *)
Definition holds (N : namespaces) (P : projects) (w : W) : Prop :=
  kquiet (Obj := Namespace) w ∧ kquiet (Obj := Project) w ∧ kstore w = N ∧ kstore w = P.

Lemma elsewhere_holds N P w w' : elsewhere w w' → holds N P w → holds N P w'.
Proof.
  intros [[H1 Q1] [H2 Q2]] (HN & HP & HsN & HsP). split_and!; [by apply Q1|by apply Q2|by rewrite H1|by rewrite H2].
Qed.

Lemma get_project_quiet N P k w :
  holds N P w → ∃ w', holds N P w' ∧
    match P !! k with
    | Some p => kget (Obj := Project) k w = (w', inr p)
    | None => ∃ e, kget (Obj := Project) k w = (w', inl e) ∧ IsNotFound e = true
    end.
Proof.
  intros (HN & HP & HsN & HsP). destruct (kget_quiet (Obj := Project) k w HP) as (w' & HP' & Hs' & Hg).
  assert (unaffected Namespace w w') as [Hu Hq].
  { pose proof (kget_within (I := unaffected Namespace) (Obj := Project) k w) as H.
    destruct (kstore w !! k); [|destruct Hg as (e & Hg & _)]; by rewrite Hg in H. }
  exists w'. rewrite HsP in Hg, Hs'. split; [|exact Hg]. split_and!; [by apply Hq|done|by rewrite Hu|done].
Qed.

Lemma get_namespace_quiet N P k w :
  holds N P w → ∃ w', holds N P w' ∧
    match N !! k with
    | Some p => kget (Obj := Namespace) k w = (w', inr p)
    | None => ∃ e, kget (Obj := Namespace) k w = (w', inl e) ∧ IsNotFound e = true
    end.
Proof.
  intros (HN & HP & HsN & HsP). destruct (kget_quiet (Obj := Namespace) k w HN) as (w' & HN' & Hs' & Hg).
  assert (unaffected Project w w') as [Hu Hq].
  { pose proof (kget_within (I := unaffected Project) (Obj := Namespace) k w) as H.
    destruct (kstore w !! k); [|destruct Hg as (e & Hg & _)]; by rewrite Hg in H. }
  exists w'. rewrite HsN in Hg, Hs'. split; [|exact Hg]. split_and!; [done|by apply Hq|done|by rewrite Hu].
Qed.

(** Writes of projects and namespaces. *)
Lemma write_project_quiet N P p cur w :
  holds N P w → P !! obj_key p = Some cur → obj_rv cur = obj_rv p →
  ∃ w' rv, holds N (<[obj_key p := obj_with_rv rv p]> P) w' ∧ kupdate p w = (w', None).
Proof.
  intros (HN & HP & HsN & HsP) Hk Hrv. destruct (kupdate_quiet p w cur HP) as (w' & rv & HP' & Hu & Hs); [by rewrite HsP|done|].
  pose proof (kupdate_within (I := unaffected Namespace) p w) as Ha. rewrite Hu in Ha. cbn [fst] in Ha. destruct Ha as [Hsn Hqn].
  exists w', rv. split; [|done]. split_and!; [by apply Hqn|done|by rewrite Hsn|by rewrite Hs, HsP].
Qed.

Lemma write_status_quiet N P p cur w :
  holds N P w → P !! obj_key p = Some cur → obj_rv cur = obj_rv p →
  ∃ w' rv, holds N (<[obj_key p := obj_with_rv rv (status_from p cur)]> P) w' ∧ kstatus_update p w = (w', None).
Proof.
  intros (HN & HP & HsN & HsP) Hk Hrv. destruct (kstatus_quiet p w cur HP) as (w' & rv & HP' & Hu & Hs); [by rewrite HsP|done|].
  pose proof (kstatus_within (I := unaffected Namespace) p w) as Ha. rewrite Hu in Ha. cbn [fst] in Ha. destruct Ha as [Hsn Hqn].
  exists w', rv. split; [|done]. split_and!; [by apply Hqn|done|by rewrite Hsn|by rewrite Hs, HsP].
Qed.

Lemma write_namespace_quiet N P ns cur w :
  holds N P w → N !! obj_key ns = Some cur → obj_rv cur = obj_rv ns →
  ∃ w' rv, holds (<[obj_key ns := obj_with_rv rv ns]> N) P w' ∧ kupdate ns w = (w', None).
Proof.
  intros (HN & HP & HsN & HsP) Hk Hrv. destruct (kupdate_quiet ns w cur HN) as (w' & rv & HN' & Hu & Hs); [by rewrite HsN|done|].
  pose proof (kupdate_within (I := unaffected Project) ns w) as Ha. rewrite Hu in Ha. cbn [fst] in Ha. destruct Ha as [Hsn Hqn].
  exists w', rv. split; [|done]. split_and!; [done|by apply Hqn|by rewrite Hs, HsN|by rewrite Hsn].
Qed.

Lemma create_namespace_quiet N P ns w :
  holds N P w → N !! obj_key ns = None →
  ∃ w' rv, holds (<[obj_key ns := obj_with_rv rv ns]> N) P w' ∧ kcreate ns w = (w', None).
Proof.
  intros (HN & HP & HsN & HsP) Hk. destruct (kcreate_quiet ns w HN) as (w' & rv & HN' & Hu & Hs); [by rewrite HsN|].
  pose proof (kcreate_within (I := unaffected Project) ns w) as Ha. rewrite Hu in Ha. cbn [fst] in Ha. destruct Ha as [Hsn Hqn].
  exists w', rv. split; [|done]. split_and!; [done|by apply Hqn|by rewrite Hs, HsN|by rewrite Hsn].
Qed.

Lemma delete_namespace_quiet N P k w :
  holds N P w → ∃ w' o' r, holds (partial_alter (λ _, o') k N) P w' ∧ asked_to_go (N !! k) o' ∧
    kdelete Namespace k w = (w', r) ∧ ∀ e, r = Some e → IsNotFound e = true.
Proof.
  intros (HN & HP & HsN & HsP). destruct (kdelete_asks (Obj := Namespace) k w HN) as (w' & o' & HN' & Hs & Ha & Hd).
  pose proof (DNP k w) as Hn.
  assert (∃ r, kdelete Namespace k w = (w', r) ∧ ∀ e, r = Some e → IsNotFound e = true) as (r & Hr & He).
  { destruct (kstore w !! k); [exists None; by split|]. destruct Hd as (e & Hd & He). exists (Some e).
    split; [done|]. by intros e' [= <-]. }
  rewrite Hr in Hn. cbn [fst] in Hn. destruct Hn as [Hsn Hqn]. exists w', o', r. rewrite <-HsN. split; [|done].
  split_and!; [done|by apply Hqn|done|by rewrite Hsn].
Qed.

Lemma list_namespaces_quiet N P labels w :
  holds N P w → ∃ w' l, holds N P w' ∧ klist_in (Obj := Namespace) "" labels w = (w', inr l) ∧
    ∀ ns, ns ∈ l ↔ labels ⊆ meta_Labels (ns_meta ns) ∧ N !! obj_key ns = Some ns.
Proof.
  intros (HN & HP & HsN & HsP). destruct (klist_quiet (Obj := Namespace) "" labels w HN) as (w' & l & HN' & Hs & Hl & _ & Hin).
  pose proof (klist_reads (I := unaffected Project) (Obj := Namespace) "" labels w) as Ha. rewrite Hl in Ha. cbn [fst] in Ha.
  destruct Ha as [Hsn Hqn]. exists w', l. split; [split_and!; [done|by apply Hqn|by rewrite Hs|by rewrite Hsn]|].
  split; [done|]. intros ns. rewrite Hin, HsN. unfold selected. simpl. by rewrite bool_decide_eq_true.
Qed.

(** *** Ensuring one namespace *)

Lemma bare_with_labels l ns rv : bare (obj_with_rv rv (with_ns_labels l ns)) = bare ns.
Proof. done. Qed.

Lemma carries_spec p spec ns ch l :
  overlay R (meta_Labels (ns_meta ns)) (namespaceLabels (project_name p) spec) false = (l, ch) →
  ∀ k v, namespaceLabels (project_name p) spec !! k = Some v → map_get l k = v.
Proof. intros Ho k v Hk. pose proof (overlay_spec _ _ _ _ _ _ Ho) as (Hl & _). by rewrite Hl, Hk. Qed.

Lemma claim_quiet N P p x existing w w' r :
  holds N P w → x ∈ wanted p → N !! ("", x.1) = Some existing →
  claim_namespace R p x.1 (namespaceLabels (project_name p) x.2) existing w = (w', r) →
  (r = None ∧ ∃ N', holds N' P w' ∧ placed p x N N') ∨
  (∃ reason message, r = Some (namespaceResolveError reason message) ∧ holds N P w' ∧ refusal p N reason).
Proof.
  intros Hw Hx Hk. unfold claim_namespace.
  pose proof (owner_scan_spec (project_uid p) (meta_OwnerReferences (ns_meta existing)) "") as Hs.
  destruct (owner_scan _ _ _) as [ours other]. destruct ours.
  - assert (owned_by (project_uid p) existing) as Ho by by apply Hs.
    destruct (overlay _ _ _ _) as [l ch] eqn:El. pose proof (carries_spec _ _ _ _ _ El) as Hc. destruct ch.
    + assert (obj_key existing = ("", x.1)) as Hkey.
      { destruct Hw as (_ & _ & HsN & _). rewrite <-HsN in Hk. by eapply kstore_key. }
      destruct (write_namespace_quiet N P (with_ns_labels l existing) existing w) as (w1 & rv & Hw1 & Hu);
        [done|by change (obj_key (with_ns_labels l existing)) with (obj_key existing); rewrite Hkey|done|].
      rewrite Hu. intros [= <- <-]. left. split; [done|].
      change (obj_key (with_ns_labels l existing)) with (obj_key existing) in Hw1. rewrite Hkey in Hw1.
      eexists. split; [exact Hw1|]. apply placed_at; [done|exact Ho|exact Hc|].
      intros old Hold. rewrite Hk in Hold. by injection Hold as <-.
    + intros [= <- <-]. left. split; [done|]. exists N. split; [done|]. apply placed_same. exists existing.
      split; [done|]. split; [done|]. pose proof (overlay_spec _ _ _ _ _ _ El) as (_ & _ & Hsame).
      rewrite (Hsame eq_refl) in Hc. exact Hc.
  - assert (¬ owned_by (project_uid p) existing) as Hno by (intros H; apply Hs in H; done).
    destruct (negb (String.eqb other "")); intros [= <- <-]; right; eexists _, _; (split; [done|]); (split; [done|]);
      right; (split; [first [by left|by right]|]); by exists x, existing.
Qed.

Lemma ensured_quiet N P p x w w' r :
  holds N P w → x ∈ wanted p →
  ensureNamespace R SetControllerReference reader p x.1 x.2 w = (w', r) →
  (r = None ∧ ∃ N', holds N' P w' ∧ placed p x N N') ∨
  (∃ reason message, r = Some (namespaceResolveError reason message) ∧ holds N P w' ∧ refusal p N reason) ∨
  (∃ err, r = Some (other_error err)).
Proof.
  intros Hw Hx. unfold ensureNamespace. cbv zeta.
  destruct (get_namespace_quiet N P ("", x.1) w Hw) as (w1 & Hw1 & Hg). destruct (N !! ("", x.1)) as [existing|] eqn:Ek.
  - rewrite Hg. intros Hc. destruct (claim_quiet N P p x existing w1 w' r Hw1 Hx Ek Hc) as [H|H]; [by left|by right; left].
  - destruct Hg as (e & -> & ->). destruct (SetControllerReference _ _) as [err|m] eqn:Em.
    { intros [= <- <-]. right. right. by eexists. }
    destruct (Howner _ _ _ Em) as (Ho & Hl & Hn & Hns). set (ns := {| ns_meta := m |}).
    assert (obj_key ns = ("", x.1)) as Hkey by (unfold obj_key, ns; simpl; by rewrite Hn, Hns).
    destruct (create_namespace_quiet N P ns w1 Hw1) as (w2 & rv & Hw2 & Hc); [by rewrite Hkey|].
    rewrite Hc. intros [= <- <-]. left. split; [done|]. rewrite Hkey in Hw2. eexists. split; [exact Hw2|].
    apply placed_at; [done|exact Ho| |by rewrite Ek]. intros k v Hk. unfold ns. simpl. rewrite Hl. simpl. unfold map_get. by rewrite Hk.
Qed.

(** *** Providing all of them *)

Lemma claimed_inv fmt args f (w w' : W) r :
  claimed fmt args f w = (w', r) → ∃ res, f w = (w', res) ∧
    r = match res with
        | None => inr (inr tt)
        | Some (namespaceResolveError reason message) => inr (inl (reason, message))
        | Some (other_error err) => inl (if String.eqb fmt "" then err else Wrapf fmt args err)
        end.
Proof.
  unfold claimed. destruct (f w) as [w1 res] eqn:E. intros H. exists res.
  destruct res as [[reason msg|err]|]; by injection H as <- <-.
Qed.

Lemma bound_quiet N P ns w w' r :
  holds N P w → bound ServiceAccountName OperatorNamespace ns w = (w', r) → holds N P w' ∧ ∀ refused, r ≠ inr (inl refused).
Proof.
  intros Hw Hb. pose proof (bound_keeps ServiceAccountName OperatorNamespace elsewhere ns w) as H. rewrite Hb in H.
  split; [by apply (elsewhere_holds _ _ w)|]. revert Hb. unfold bound, mbind, E_bind.
  destruct (wrapping _ _ _ w) as [w1 [e|[]]]; by intros [= <- <-].
Qed.

Lemma provision_bind_inv {A B} (m : Provision A) (k : A → Provision B) (w w' : W) r :
  provision_bind m k w = (w', inr r) →
  (∃ refusal, m w = (w', inr (inl refusal)) ∧ r = inl refusal) ∨
  (∃ w1 a, m w = (w1, inr (inr a)) ∧ k a w1 = (w', inr r)).
Proof.
  unfold provision_bind, mbind, E_bind. destruct (m w) as [w1 [err|[refused|a]]]; [done| |].
  - intros [= <- <-]. left. by exists refused.
  - intros H. right. by exists w1, a.
Qed.

Definition progress (p : Project) (N N' : namespaces) : Prop :=
  kept_or_ours p N N' ∧ ∀ x, x ∈ wanted p → present p N x → present p N' x.

Lemma progress_refl p N : progress p N N.
Proof. split; [apply kept_refl|done]. Qed.
Lemma progress_trans p N1 N2 N3 : progress p N1 N2 → progress p N2 N3 → progress p N1 N3.
Proof. intros [H1 H2] [H3 H4]. split; [by eapply kept_trans|auto]. Qed.
Lemma placed_progress p x N N' : x ∈ wanted p → placed p x N N' → progress p N N'.
Proof. intros Hx Hp. split; [apply Hp|]. intros y Hy. by apply (present_placed p y x). Qed.

(** What is refused now was to be refused before. *)
Lemma refusal_back p N N' reason : kept_or_ours p N N' → refusal p N' reason → refusal p N reason.
Proof.
  intros Hk [H|(Hr & x & ns & Hx & Hns & Ho)]; [by left|]. right. split; [done|].
  exists x, ns. split; [done|]. destruct (Hk ("", x.1)) as [E|(y & new & _ & _ & Hnew & Hown & _)]; [by rewrite <-E|].
  rewrite Hns in Hnew. by injection Hnew as <-.
Qed.

(** The outcome of a part of the provision. *)
Definition provides {A : Type} (p : Project) (N : namespaces) (P : projects) (w' : W) (r : (string * string) + A)
    (done_ : namespaces → A → Prop) : Prop :=
  ∃ N', holds N' P w' ∧ progress p N N' ∧
    match r with inl (reason, _) => refusal p N reason | inr a => done_ N' a end.

Lemma provides_bind {A B : Type} (p : Project) (N : namespaces) (P : projects) (m : Provision A) (k : A → Provision B)
    (w w' : W) (r : (string * string) + B) (Q : namespaces → A → Prop) (T : namespaces → B → Prop) :
  (∀ w1 r1, m w = (w1, inr r1) → provides p N P w1 r1 Q) →
  (∀ N1 w1 a r1, holds N1 P w1 → progress p N N1 → Q N1 a → k a w1 = (w', inr r1) → provides p N1 P w' r1 T) →
  provision_bind m k w = (w', inr r) → provides p N P w' r T.
Proof.
  intros Hm Hk [([reason msg] & Em & ->)|(w1 & a & Em & Ek)]%provision_bind_inv.
  - destruct (Hm _ _ Em) as (N1 & Hw1 & Hp & Hr). by exists N1.
  - destruct (Hm _ _ Em) as (N1 & Hw1 & Hp & Hq). destruct (Hk _ _ _ _ Hw1 Hp Hq Ek) as (N2 & Hw2 & Hp2 & Hr).
    exists N2. split; [done|]. split; [by eapply progress_trans|]. destruct r as [[reason msg]|b]; [|done].
    eapply refusal_back; [apply Hp|done].
Qed.

Lemma ensured_step (N : namespaces) (P : projects) (p : Project) (x : string * namespaceSpec) (fmt : string) (args : list string) (w w' : W) (r : (string * string) + unit) :
  holds N P w → x ∈ wanted p →
  claimed fmt args (ensureNamespace R SetControllerReference reader p x.1 x.2) w = (w', inr r) →
  provides p N P w' r (λ N' _, present p N' x).
Proof.
  intros Hw Hx (res & He & Hr)%claimed_inv. destruct (ensured_quiet _ _ _ _ _ _ _ Hw Hx He)
    as [[-> (N' & Hw' & Hp)]|[(reason & msg & -> & Hw' & Href)|(err & ->)]]; simplify_eq.
  - exists N'. split; [done|]. split; [by eapply placed_progress|]. apply Hp.
  - exists N. split; [done|]. split; [apply progress_refl|done].
Qed.

Lemma bound_step (N : namespaces) (P : projects) (p : Project) (ns : string) (w w' : W) (r : (string * string) + unit) :
  holds N P w → bound ServiceAccountName OperatorNamespace ns w = (w', inr r) → provides p N P w' r (λ N' _, N' = N).
Proof.
  intros Hw Hb. destruct (bound_quiet _ _ _ _ _ _ Hw Hb) as [Hw' Hno]. exists N. split; [done|].
  split; [apply progress_refl|]. destruct r as [refused|]; [by edestruct Hno|done].
Qed.

Lemma envs_quiet (P : projects) (p : Project) (envs : list ProjectEnvironment) (m : gmap string string) (N : namespaces) (w w' : W) (r : (string * string) + gmap string string) :
  holds N P w → (∀ e, e ∈ envs → e ∈ project_envs p) →
  ensure_envs R SetControllerReference reader ServiceAccountName OperatorNamespace p envs m w = (w', inr r) →
  provides p N P w' r (λ N' m',
    m' = fold_left (λ m env, <[ProjectEnvironment_Name env := EnvNamespace (project_name p) (ProjectEnvironment_Name env)]> m) envs m ∧
    ∀ e, e ∈ envs → present p N' (EnvNamespace (project_name p) (ProjectEnvironment_Name e), env_spec e)).
Proof.
  revert m N w r. induction envs as [|env envs IH]; intros m N w r Hw Hin.
  { intros [= <- <-]. exists N. split; [done|]. split; [apply progress_refl|]. split; [done|]. by intros e ?%elem_of_nil. }
  cbn [ensure_envs]. cbv zeta.
  set (x := (EnvNamespace (project_name p) (ProjectEnvironment_Name env), env_spec env)).
  assert (x ∈ wanted p) as Hx.
  { right. apply list_elem_of_fmap. exists env. split; [done|]. apply Hin. by left. }
  apply (provides_bind p N P _ _ _ _ _ (λ N' _, present p N' x)).
  { intros w1 r1 H. by apply (ensured_step N P p x _ _ w w1 r1 Hw Hx H). }
  intros N1 w1 [] r1 Hw1 _ Hpres. apply (provides_bind p N1 P _ _ _ _ _ (λ N' _, N' = N1)).
  { intros w2 r2. by apply bound_step. }
  intros N2 w2 [] r2 Hw2 _ -> Hrest. destruct (IH _ _ _ _ Hw2 ltac:(intros e He; apply Hin; by right) Hrest)
    as (N3 & Hw3 & Hp3 & H3). exists N3. split; [done|]. split; [done|]. destruct r2 as [[reason msg]|m']; [done|].
  destruct H3 as [Hm He]. split; [done|]. intros e [->|Hin']%elem_of_cons; [|by apply He]. by apply Hp3.
Qed.

Lemma too_long_refusal p N err : too_long (project_name p) (project_envs p) = Some err → refusal p N ReasonEnvNamespaceTooLong.
Proof. intros H. left. split; [done|]. by exists err. Qed.

Lemma unique_step (N : namespaces) (P : projects) (p : Project) (w w' : W) (r : (string * string) + unit) :
  holds N P w → P !! ("", project_name p) = Some p → cluster_scoped P →
  claimed "" [] (checkControlNamespaceUniqueness p (ControlNamespace (project_name p))) w = (w', inr r) →
  provides p N P w' r (λ N' _, N' = N).
Proof.
  intros Hw Hp Hsc (res & He & Hr)%claimed_inv. revert He. unfold checkControlNamespaceUniqueness.
  destruct Hw as (HN & HP & HsN & HsP).
  destruct (klist_quiet (Obj := Project) "" ∅ w HP) as (w1 & l & HP1 & Hs1 & Hl & _ & Hin).
  pose proof (klist_reads (I := unaffected Namespace) (Obj := Project) "" ∅ w) as Ha. rewrite Hl in Ha |- *. cbn [fst] in Ha.
  destruct Ha as [HsN1 HqN]. intros [= <- <-]. exists N.
  split; [split_and!; [by apply HqN|done|by rewrite HsN1|by rewrite Hs1]|]. split; [apply progress_refl|].
  destruct (List.find _ l) as [other|] eqn:Ef; [|by simplify_eq]. exfalso.
  apply List.find_some in Ef as [Hin' Hc]. apply list_elem_of_In, Hin in Hin' as [_ Hst].
  apply andb_true_iff in Hc as [[Hu%negb_true_iff%String.eqb_neq _]%andb_true_iff Hc%String.eqb_eq].
  rewrite HsP in Hst. assert (obj_key other = ("", project_name p)) as Hk.
  { unfold obj_key. change (meta_Name (obj_meta other)) with (project_name other). rewrite Hc. f_equal. by apply (Hsc (obj_key other) other). }
  rewrite Hk, Hp in Hst. by injection Hst as ->.
Qed.

Lemma provision_quiet (P : projects) (p : Project) (N : namespaces) (w w' : W) (r : (string * string) + gmap string string) :
  holds N P w → P !! ("", project_name p) = Some p → cluster_scoped P →
  provision R SetControllerReference reader ServiceAccountName OperatorNamespace p (ControlNamespace (project_name p)) w
    = (w', inr r) →
  provides p N P w' r (λ N' m, m = env_map p ∅ ∧ ∀ x, x ∈ wanted p → present p N' x).
Proof.
  intros Hw HPp Hsc. unfold provision. destruct (too_long _ _) as [err|] eqn:El.
  { intros [= <- <-]. exists N. split; [done|]. split; [apply progress_refl|]. by eapply too_long_refusal. }
  set (x := (ControlNamespace (project_name p), control_spec)).
  assert (x ∈ wanted p) as Hx by left.
  apply (provides_bind p N P _ _ _ _ _ (λ N' _, N' = N)); [intros w1 r1 H; by apply (unique_step N P p w w1 r1 Hw HPp Hsc)|].
  intros N1 w1 [] r1 Hw1 _ ->. apply (provides_bind p N P _ _ _ _ _ (λ N' _, present p N' x)).
  { intros w2 r2 H. by apply (ensured_step N P p x _ _ w1 w2 r2 Hw1 Hx H). }
  intros N2 w2 [] r2 Hw2 _ Hc. apply (provides_bind p N2 P _ _ _ _ _ (λ N' _, N' = N2)); [intros w3 r3; by apply bound_step|].
  intros N3 w3 [] r3 Hw3 _ -> Hrest. destruct (envs_quiet P p _ _ _ _ _ _ Hw3 (λ e He, He) Hrest) as (N4 & Hw4 & Hp4 & H4).
  exists N4. split; [done|]. split; [done|]. destruct r3 as [[reason msg]|m]; [done|]. destruct H4 as [Hm He].
  split; [done|]. intros y. unfold wanted. rewrite elem_of_cons, list_elem_of_fmap.
  intros [->|(e & -> & Hin)]; [by apply Hp4|by apply He].
Qed.

(** *** Deletions *)

(** The namespaces of the list that the test selects were asked to go. *)
Definition swept (f : Namespace → bool) (l : list Namespace) (N N' : namespaces) : Prop :=
  ∀ k, if existsb (λ ns, bool_decide (obj_key ns = k) && f ns) l then asked_to_go (N !! k) (N' !! k) else N' !! k = N !! k.

Lemma swept_skip f ns l N N' : f ns = false → swept f l N N' → swept f (ns :: l) N N'.
Proof. intros Hf H k. generalize (H k). simpl. by rewrite Hf, andb_false_r. Qed.

Lemma swept_delete f ns l N N' o' :
  f ns = true → asked_to_go (N !! obj_key ns) o' → swept f l (partial_alter (λ _, o') (obj_key ns) N) N' →
  swept f (ns :: l) N N'.
Proof.
  intros Hf Ho H k. generalize (H k). simpl. rewrite Hf, andb_true_r. case_bool_decide as E; simpl.
  - rewrite <-E, lookup_partial_alter_eq. intros Hk. destruct (existsb _ l); [by etrans|by rewrite Hk].
  - by rewrite lookup_partial_alter_ne.
Qed.

(** All namespaces with the labels were listed. *)
Lemma swept_pruned f labels l N N' :
  (∀ k ns, N !! k = Some ns → obj_key ns = k) → (∀ ns, f ns = true → labels ⊆ meta_Labels (ns_meta ns)) →
  (∀ ns, ns ∈ l ↔ labels ⊆ meta_Labels (ns_meta ns) ∧ N !! obj_key ns = Some ns) → swept f l N N' → pruned f N N'.
Proof.
  intros Hkey Hf Hl H k. generalize (H k). destruct (N !! k) as [ns|] eqn:Ek.
  - pose proof (Hkey _ _ Ek) as Hk. destruct (f ns) eqn:Ef.
    + assert (existsb (λ ns, bool_decide (obj_key ns = k) && f ns) l = true) as ->; [|done].
      apply existsb_elem. exists ns. rewrite Ef, Hk, bool_decide_eq_true_2 by done. split; [|done].
      apply Hl. rewrite Hk. split; [by apply Hf|done].
    + assert (existsb (λ ns, bool_decide (obj_key ns = k) && f ns) l = false) as ->; [|done].
      apply not_true_iff_false. rewrite existsb_elem. intros (x & Hx & [Hxk%bool_decide_eq_true Hxf]%andb_true_iff).
      apply Hl in Hx as [_ Hx]. rewrite Hxk, Ek in Hx. by injection Hx as ->; rewrite Ef in Hxf.
  - destruct (existsb _ l); [by destruct (N' !! k)|done].
Qed.

Lemma holds_key N P (w : W) k ns : holds N P w → N !! k = Some ns → obj_key ns = k.
Proof. intros (_ & _ & <- & _). apply kstore_key. Qed.

Lemma gc_loop_quiet (P : projects) (p q : Project) (m : gmap string string) (l : list Namespace) (live : option Project)
    (N : namespaces) (w w' : W) (r : unit) :
  holds N P w → P !! ("", project_name p) = Some q → Project_Spec q = Project_Spec p →
  (∀ live', live = Some live' → Project_Spec live' = Project_Spec p) →
  (∀ e, is_Some (m !! e) ↔ projectDeclaresEnv p e = true) →
  (∀ ns, ns ∈ l → {[ProjectLabel := project_name p; NamespaceRoleLabel := NamespaceRoleEnv]} ⊆ meta_Labels (ns_meta ns)) →
  gc_namespaces reader p m l live w = (w', inr r) → ∃ N', holds N' P w' ∧ swept (stale p) l N N'.
Proof.
  intros Hw Hq Hspec Hlive Hm. revert live Hlive N w Hw.
  induction l as [|ns l IH]; intros live Hlive N w Hw Hl; [by intros [= <- _]; exists N|]. cbn [gc_namespaces].
  assert (stale p ns = negb (projectDeclaresEnv p (map_get (meta_Labels (ns_meta ns)) EnvironmentLabel)) &&
          negb (deleting (ns_meta ns))) as Hst.
  { unfold stale. rewrite bool_decide_eq_true_2; [done|]. apply Hl. by left. }
  assert (∀ n, n ∈ l → {[ProjectLabel := project_name p; NamespaceRoleLabel := NamespaceRoleEnv]} ⊆ meta_Labels (ns_meta n))
    as Hl' by (intros n Hn; apply Hl; by right).
  destruct (_ || deleting (ns_meta ns)) eqn:Ed.
  - intros H. destruct (IH live Hlive N w Hw Hl' H) as (N' & Hw' & Hs). exists N'. split; [done|]. apply swept_skip; [|done].
    rewrite Hst. apply orb_true_iff in Ed as [Ed%bool_decide_eq_true| ->]; [|by rewrite andb_false_r].
    apply Hm in Ed. by rewrite Ed.
  - apply orb_false_iff in Ed as [Ed%bool_decide_eq_false Edel]. rewrite Hm, not_true_iff_false in Ed.
    intros (w1 & live1 & Hgc & Hrest)%bind_inr.
    assert (∃ w2 q', holds N P w2 ∧ Project_Spec q' = Project_Spec p ∧
      ∃ w3 r3, kdelete Namespace (obj_key ns) w2 = (w3, r3) ∧ w1 = w3 ∧ live1 = Some q') as (w2 & q' & Hw2 & Hq' & w3 & r3 & Hd & -> & ->).
    { revert Hgc. unfold gc_namespace. cbv zeta. intros (w2 & q' & Hread & Hrm)%bind_inr.
      assert (holds N P w2 ∧ Project_Spec q' = Project_Spec p) as [Hw2 Hq'].
      { destruct live as [lv|]; [injection Hread as <- <-; split; [done|by apply Hlive]|].
        destruct (get_project_quiet N P ("", project_name p) w Hw) as (w4 & Hw4 & Hg). rewrite Hq in Hg.
        unfold wrapping in Hread. rewrite Hg in Hread. by injection Hread as <- <-. }
      exists w2, q'. split; [done|]. split; [done|].
      assert (projectDeclaresEnv q' = projectDeclaresEnv p) as Hpd by (unfold projectDeclaresEnv, project_envs; by rewrite Hq').
      rewrite Hpd, Ed in Hrm. apply bind_inr in Hrm as (w5 & [] & Hdel & [= <- <-]).
      destruct (kdelete Namespace (obj_key ns) w2) as [w6 [e|]]; [destruct (IsNotFound e); [|done]|]; injection Hdel as <-; by eexists _, _. }
    destruct (delete_namespace_quiet N P (obj_key ns) w2 Hw2) as (w4 & o4 & r4 & Hw4 & Ho4 & Hd4 & _). rewrite Hd in Hd4. injection Hd4 as <- <-.
    destruct (IH (Some q') ltac:(by intros ? [= <-]) _ _ Hw4 Hl' Hrest) as (N' & Hw' & Hs). exists N'. split; [done|].
    eapply swept_delete; [|exact Ho4|exact Hs]. by rewrite Hst, Ed, Edel.
Qed.

Lemma env_map_domain p e : is_Some (env_map p ∅ !! e) ↔ projectDeclaresEnv p e = true.
Proof.
  unfold env_map, projectDeclaresEnv.
  assert (∀ (envs : list ProjectEnvironment) (m : gmap string string), is_Some (fold_left (λ m env, <[ProjectEnvironment_Name env := EnvNamespace (project_name p) (ProjectEnvironment_Name env)]> m) envs m !! e) ↔
    existsb (λ x, String.eqb (ProjectEnvironment_Name x) e) envs = true ∨ is_Some (m !! e)) as H.
  { induction envs as [|env envs IH]; intros m; simpl; [naive_solver|]. rewrite IH, orb_true_iff.
    destruct (String.eqb_spec (ProjectEnvironment_Name env) e) as [->|Hne].
    - rewrite lookup_insert_eq. naive_solver.
    - rewrite lookup_insert_ne by done. naive_solver. }
  rewrite H, lookup_empty. split; [intros [Hx|[? Hx]]; done|by left].
Qed.

Lemma gc_quiet (P : projects) (p q : Project) (N : namespaces) (w w' : W) (r : unit) :
  holds N P w → P !! ("", project_name p) = Some q → Project_Spec q = Project_Spec p →
  gcStaleEnvNamespaces reader p (env_map p ∅) w = (w', inr r) → ∃ N', holds N' P w' ∧ pruned (stale p) N N'.
Proof.
  intros Hw Hq Hspec. unfold gcStaleEnvNamespaces. intros (w1 & l & Hl & Hgc)%bind_inr.
  destruct (list_namespaces_quiet N P {[ProjectLabel := project_name p; NamespaceRoleLabel := NamespaceRoleEnv]} w Hw)
    as (w2 & l2 & Hw2 & Hl2 & Hin). unfold wrapping in Hl. rewrite Hl2 in Hl. injection Hl as <- <-.
  destruct (gc_loop_quiet P p q (env_map p ∅) l2 None N w2 w' r Hw2 Hq Hspec) as (N' & Hw' & Hs); [done|apply env_map_domain| |done|].
  { intros ns Hns. by apply Hin. }
  exists N'. split; [done|]. eapply swept_pruned; [intros k ns; by apply (holds_key N P w)| |exact Hin|done].
  unfold stale. intros ns [[H%bool_decide_eq_true _]%andb_true_iff _]%andb_true_iff. done.
Qed.

Lemma sweep_quiet (P : projects) (p : Project) (l : list Namespace) (N : namespaces) (w w' : W) (r : unit) :
  holds N P w → (∀ ns, ns ∈ l → {[ProjectLabel := project_name p]} ⊆ meta_Labels (ns_meta ns)) →
  for_each (delete_owned (W := W)) l w = (w', inr r) → ∃ N', holds N' P w' ∧ swept (taken_down p) l N N'.
Proof.
  revert N w. induction l as [|ns l IH]; intros N w Hw Hl; [by intros [= <- _]; exists N|]. cbn [for_each].
  assert (∀ n, n ∈ l → {[ProjectLabel := project_name p]} ⊆ meta_Labels (ns_meta n)) as Hl' by (intros n Hn; apply Hl; by right).
  assert (taken_down p ns = String.eqb (map_get (meta_Labels (ns_meta ns)) "app.kubernetes.io/managed-by") "mortise" &&
          negb (deleting (ns_meta ns))) as Ht.
  { unfold taken_down. rewrite bool_decide_eq_true_2; [done|]. apply Hl. by left. }
  intros (w1 & [] & Hd & Hrest)%bind_inr. revert Hd. unfold delete_owned. destruct (_ || _) eqn:E.
  - intros [= <-]. destruct (IH N w Hw Hl' Hrest) as (N' & Hw' & Hs). exists N'. split; [done|]. apply swept_skip; [|done].
    rewrite Ht. by apply orb_true_iff in E as [->%negb_true_iff| ->]; [|rewrite andb_false_r].
  - apply orb_false_iff in E as [Em%negb_false_iff Ed].
    destruct (delete_namespace_quiet N P (obj_key ns) w Hw) as (w2 & o2 & r2 & Hw2 & Ho2 & -> & He).
    assert (match r2 with Some err => if IsNotFound err then (w2, inr tt) else (w2, inl (Wrapf "delete namespace %q: %w" [meta_Name (ns_meta ns)] err))
            | None => (w2, inr tt) end = (w2, inr tt)) as -> by (destruct r2 as [e|]; [by rewrite (He e)|done]).
    intros [= <-]. destruct (IH _ _ Hw2 Hl' Hrest) as (N' & Hw' & Hs). exists N'. split; [done|].
    eapply swept_delete; [by rewrite Ht, Em, Ed|exact Ho2|exact Hs].
Qed.

Lemma teardown_quiet (P : projects) (p : Project) (N : namespaces) (w w' : W) (r : unit) :
  holds N P w → deleteOwnedNamespaces p w = (w', inr r) → ∃ N', holds N' P w' ∧ pruned (taken_down p) N N'.
Proof.
  intros Hw. unfold deleteOwnedNamespaces. intros (w1 & l & Hl & Hgc)%bind_inr.
  destruct (list_namespaces_quiet N P {[ProjectLabel := project_name p]} w Hw) as (w2 & l2 & Hw2 & Hl2 & Hin).
  unfold wrapping in Hl. rewrite Hl2 in Hl. injection Hl as <- <-.
  destruct (sweep_quiet P p l2 N w2 w' r Hw2) as (N' & Hw' & Hs); [intros ns Hns; by apply Hin|done|].
  exists N'. split; [done|]. eapply swept_pruned; [intros k ns; by apply (holds_key N P w)| |exact Hin|done].
  unfold taken_down. intros ns [[H%bool_decide_eq_true _]%andb_true_iff _]%andb_true_iff. done.
Qed.

(** *** Edits of the project *)

Lemma project_key P (w : W) N k p : holds N P w → P !! k = Some p → obj_key p = k.
Proof. intros (_ & _ & _ & <-). apply kstore_key. Qed.

(** The fresh read finds the stored project, and the write goes through. *)
Lemma edit_quiet (N : namespaces) (P : projects) (p new : Project) (write : Project → W → W * option error)
    (edit : Project → option Project) (stored : Project → Project) name gave_up n (w : W) :
  holds N P w → P !! ("", name) = Some p → edit p = Some new →
  (∀ w1, holds N P w1 → ∃ w' rv, holds N (<[("", name) := obj_with_rv rv (stored new)]> P) w' ∧ write new w1 = (w', None)) →
  ∃ w' rv, edit_project write edit name gave_up (S n) w = (w', None) ∧
    holds N (<[("", name) := obj_with_rv rv (stored new)]> P) w'.
Proof.
  intros Hw Hp He Hwrite. cbn [edit_project]. destruct (get_project_quiet N P ("", name) w Hw) as (w1 & Hw1 & Hg).
  rewrite Hp in Hg. rewrite Hg, He. destruct (Hwrite w1 Hw1) as (w' & rv & Hw' & ->). by exists w', rv.
Qed.

Lemma status_quiet (N : namespaces) (P : projects) (p : Project) name mutate (w : W) :
  holds N P w → P !! ("", name) = Some p →
  ∃ w' rv, updateProjectStatus name mutate w = (w', None) ∧
    holds N (<[("", name) := obj_with_rv rv (with_Project_Status (mutate (Project_Status p) p) p)]> P) w'.
Proof.
  intros Hw Hp. pose proof (project_key _ _ _ _ _ Hw Hp) as Hk.
  set (new := with_Project_Status (mutate (Project_Status p) p) p).
  apply (edit_quiet N P p new kstatus_update _ id); [done|done|done|]. intros w1 Hw1.
  assert (obj_key new = ("", name)) as Hkn by by rewrite <-Hk.
  destruct (write_status_quiet N P new p w1 Hw1) as (w' & rv & Hw' & Hu); [by rewrite Hkn|done|].
  rewrite Hkn in Hw'. by exists w', rv.
Qed.

Lemma update_project_quiet (N : namespaces) (P : projects) (p new : Project) name (edit : Project → option Project) gave_up n (w : W) :
  holds N P w → P !! ("", name) = Some p → edit p = Some new → obj_key new = obj_key p → obj_rv new = obj_rv p →
  ∃ w' rv, edit_project kupdate edit name gave_up (S n) w = (w', None) ∧ holds N (<[("", name) := obj_with_rv rv new]> P) w'.
Proof.
  intros Hw Hp He Hkey Hrv. pose proof (project_key _ _ _ _ _ Hw Hp) as Hk.
  apply (edit_quiet N P p new kupdate edit id); [done|done|done|]. intros w1 Hw1.
  destruct (write_project_quiet N P new p w1 Hw1) as (w' & rv & Hw' & Hu); [by rewrite Hkey, Hk|done|].
  rewrite Hkey, Hk in Hw'. by exists w', rv.
Qed.

(** The activity, and the mark that it is recorded. *)
Lemma activity_quiet (N : namespaces) (P : projects) (p : Project) (w w' : W) r :
  holds N P w → P !! ("", project_name p) = Some p → ensureProjectCreateActivity now p w = (w', r) →
  holds N P w' ∨ ∃ rv, holds N (<[("", project_name p) := obj_with_rv rv (recorded p)]> P) w'.
Proof.
  intros Hw Hp. unfold ensureProjectCreateActivity.
  destruct (String.eqb (project_annotation p projectCreateActivityRecordedAnnotation) "true") eqn:Em; [intros [= <- _]; by left|].
  pose proof (append_keeps elsewhere (projectCreateActivityEvent p (now w)) conflict_attempts w) as H.
  unfold appendProjectCreateActivityIfMissing. destruct (append_attempts _ _ w) as [w1 [err|]]; simpl in H;
    [intros [= <- _]; left; by apply (elsewhere_holds _ _ w)|].
  destruct (update_project_quiet N P p (recorded p) (project_name p) (λ p, if String.eqb (project_annotation p projectCreateActivityRecordedAnnotation) "true" then None else Some (recorded p))
    (Errorf "could not record project activity annotation for Project %q after retries" [project_name p]) 4 w1)
    as (w2 & rv & Hm & Hw2); [by apply (elsewhere_holds _ _ w)|done|by rewrite Em|done|done|].
  unfold markProjectCreateActivityRecorded, conflict_attempts. rewrite Hm. intros [= <- _]. right. by exists rv.
Qed.

Lemma tolerate_quiet (N : namespaces) (P : projects) fmt controlNs f (w w' : W) :
  tolerate now fmt controlNs f w = (w', inr None) → f w = (w', None).
Proof.
  unfold tolerate. destruct (f w) as [w1 [err|]]; [|by intros [= ->]].
  destruct (forbiddenFastRequeue _ _ _ w1) as [w2 [res|]]; by intros [=].
Qed.

(** Only a result without a requeue is done. *)
Lemma requeue_not_done fmt controlNs f (w w' : W) res :
  tolerate now fmt controlNs f w = (w', inr (Some res)) → res ≠ Done.
Proof.
  unfold tolerate. destruct (f w) as [w1 [err|]]; [|done]. unfold forbiddenFastRequeue. destruct (negb _); [done|].
  destruct (kget ("", controlNs) w1) as [w2 [e|ns]].
  - destruct (IsNotFound e); [|done]. by intros [= _ <-].
  - destruct (_ <=? _)%Z; [done|]. by intros [= _ <-].
Qed.

(** *** Reconcile *)

Lemma keeps_here {A} (m : E W A) (N : namespaces) (P : projects) (w w' : W) r :
  keeps elsewhere m → holds N P w → m w = (w', r) → holds N P w'.
Proof. intros Hm Hw E. apply (elsewhere_holds _ _ w); [|done]. specialize (Hm w). by rewrite E in Hm. Qed.

Lemma wrapping_inr {A} fmt args (m : E W A) (w w' : W) a : wrapping fmt args m w = (w', inr a) → m w = (w', inr a).
Proof. unfold wrapping. destruct (m w) as [w1 [err|b]]; [done|]. by intros [= -> ->]. Qed.

Lemma settle_quiet (N : namespaces) (P : projects) (p q : Project) (w w' : W) r :
  holds N P w → P !! ("", project_name p) = Some q → Project_Spec q = Project_Spec p →
  settle reader p (ControlNamespace (project_name p)) (env_map p ∅) w = (w', inr r) →
  ∃ N' a n rv, pruned (stale p) N N' ∧
    holds N' (<[("", project_name p) := obj_with_rv rv (with_Project_Status
      (status_ready (ControlNamespace (project_name p)) a n (env_map p ∅) (Project_Status q) q) q)]> P) w'.
Proof.
  intros Hw Hq Hspec. unfold settle. intros (w1 & [] & Hgc%wrapping_inr & H)%bind_inr.
  destruct (gc_quiet P p q N w w1 tt Hw Hq Hspec Hgc) as (N' & Hw1 & Hpr).
  apply bind_inr in H as (w2 & a & Ha & H). apply (keeps_here _ N' P w1) in Ha; [|by apply (count_keeps elsewhere (Obj := App))|done].
  apply bind_inr in H as (w3 & n & Hn & H). apply (keeps_here _ N' P w2) in Hn; [|by apply (count_keeps elsewhere (Obj := ProjectMember))|done].
  apply bind_inr in H as (w4 & [] & Hc & H). apply (keeps_here _ N' P w3) in Hc; [| |done].
  2: { destruct (envsChanged _ _); [by apply wrapping_keeps, (cascade_keeps elsewhere)|by apply keeps_ret; try apply _]. }
  apply bind_inr in H as (w5 & [] & Hc' & H). apply (keeps_here _ N' P w4) in Hc'; [|by apply wrapping_keeps, (cascade_keeps elsewhere)|done].
  apply wrapping_inr in H. destruct (status_quiet N' P q (project_name p) (status_ready (ControlNamespace (project_name p)) a n (env_map p ∅)) w5 Hc' Hq)
    as (w6 & rv & Hm & Hw6). unfold run, markReady in H. rewrite Hm in H. injection H as <- _. by exists N', a, n, rv.
Qed.

Lemma provided_pruned p N N1 N2 :
  Forall (λ e, ProjectEnvironment_Name e ≠ "") (project_envs p) →
  kept_or_ours p N N1 → (∀ x, x ∈ wanted p → present p N1 x) → pruned (stale p) N1 N2 → provided p N N2.
Proof.
  intros Hne Hk Hw Hp.
  assert (∀ x ns, x ∈ wanted p → N1 !! ("", x.1) = Some ns → carries (namespaceLabels (project_name p) x.2) ns →
    N2 !! ("", x.1) = Some ns) as Hstay.
  { intros x ns Hx Hns Hc. generalize (Hp ("", x.1)). by rewrite Hns, (carried_not_stale p x ns). }
  split_and!.
  - intros x Hx. destruct (Hw x Hx) as (ns & Hns & Ho & Hc). exists ns. split; [by apply Hstay|done].
  - intros k ns Hns. generalize (Hp k). destruct (N1 !! k) as [n|]; [|by rewrite Hns]. rewrite Hns. destruct (stale p n) eqn:E.
    + intros (rv & t & ->). unfold stale. simpl. by rewrite andb_false_r.
    + by intros [= ->].
  - intros k. destruct (Hk k) as [E|(x & new & Hx & Ek & Hnew & Ho & Hc & Hb)].
    + generalize (Hp k). rewrite E. destruct (N !! k) as [n|] eqn:En; [|by left]. destruct (stale p n) eqn:Es; [|by left].
      intros Ha. right. right. by exists n.
    + right. left. exists x, new. do 2 (split; [done|]). split; [|done]. subst k. by eapply Hstay.
Qed.

Lemma finish_quiet (N : namespaces) (P : projects) (p : Project) (w w' : W) :
  holds N P w → P !! ("", project_name p) = Some p →
  finish now reader p (ControlNamespace (project_name p)) (env_map p ∅) w = (w', inr Done) →
  ∃ N' q rv a n, pruned (stale p) N N' ∧ same_project p q ∧
    holds N' (<[("", project_name p) := obj_with_rv rv (with_Project_Status
      (status_ready (ControlNamespace (project_name p)) a n (env_map p ∅) (Project_Status p) p) q)]> P) w'.
Proof.
  intros Hw Hp. unfold finish. intros (w1 & early & Hm & H)%bind_inr.
  destruct early as [res|]; [apply requeue_not_done in Hm; by injection H as _ ->|].
  apply (tolerate_quiet N P) in Hm. pose proof (member_keeps elsewhere p (ControlNamespace (project_name p)) w) as Hmem.
  rewrite Hm in Hmem. apply (elsewhere_holds N P) in Hmem; [|done]. simpl in Hmem.
  apply bind_inr in H as (w2 & early & Ha & H).
  destruct early as [res|]; [apply requeue_not_done in Ha; by injection H as _ ->|].
  apply (tolerate_quiet N P) in Ha. apply bind_inr in H as (w3 & [] & Hs & [= <-]).
  destruct (activity_quiet N P p w1 w2 None Hmem Hp Ha) as [Hw2|(rv0 & Hw2)].
  - destruct (settle_quiet N P p p w2 w3 tt Hw2 Hp eq_refl Hs) as (N' & a & n & rv & Hpr & Hw3).
    exists N', p, rv, a, n. split; [done|]. split; [|done]. exists (obj_rv p). left. by destruct p as [[]].
  - set (q := obj_with_rv rv0 (recorded p)) in *.
    destruct (settle_quiet N _ p q w2 w3 tt Hw2 (lookup_insert_eq _ _ _) eq_refl Hs) as (N' & a & n & rv & Hpr & Hw3).
    rewrite insert_insert_eq in Hw3. exists N', q, rv, a, n. split; [done|]. split; [|exact Hw3]. exists rv0. by right.
Qed.

Lemma marked_terminating (N : namespaces) (P : projects) (p : Project) controlNs (w : W) :
  holds N P w → P !! ("", project_name p) = Some p →
  ∃ w' q, markTerminating p controlNs w = (w', None) ∧ holds N (<[("", project_name p) := q]> P) w' ∧
    Project_Spec q = Project_Spec p ∧ project_name q = project_name p.
Proof.
  intros Hw Hp. unfold markTerminating. destruct (String.eqb _ _).
  - exists w, p. by rewrite insert_id.
  - destruct (status_quiet N P p (project_name p) (λ s _, status_terminating controlNs s) w Hw Hp) as (w' & rv & Hm & Hw').
    eexists w', _. split; [exact Hm|]. split; [exact Hw'|done].
Qed.

Lemma finalizer_removed (N : namespaces) (P : projects) (p : Project) name (w : W) :
  holds N P w → P !! ("", name) = Some p →
  ∃ w' q, removeFinalizerWithRetry name w = (w', None) ∧ holds N (<[("", name) := q]> P) w' ∧
    Project_Spec q = Project_Spec p ∧ ContainsFinalizer (Project_ObjectMeta q) projectFinalizer = false.
Proof.
  intros Hw Hp. unfold removeFinalizerWithRetry.
  destruct (ContainsFinalizer (Project_ObjectMeta p) projectFinalizer) eqn:Ec.
  - destruct (remove_finalizer (Project_ObjectMeta p) projectFinalizer) as (fs & Hr & Hfs).
    set (new := with_Project_ObjectMeta (RemoveFinalizer (Project_ObjectMeta p) projectFinalizer) p).
    edestruct (update_project_quiet N P p new name) as (w' & rv & Hm & Hw');
      [done|done| |by unfold new, obj_key; simpl; rewrite Hr|by unfold new, obj_rv; simpl; rewrite Hr|].
    2: { unfold conflict_attempts. eexists w', _. split; [exact Hm|]. split; [exact Hw'|]. split; [done|].
         apply not_true_iff_false. rewrite contains_finalizer. unfold new. simpl. rewrite Hr. by intros [_ ?]%Hfs. }
    simpl. by rewrite Ec.
  - cbn [edit_project conflict_attempts]. destruct (get_project_quiet N P ("", name) w Hw) as (w1 & Hw1 & Hg).
    rewrite Hp in Hg. rewrite Hg. cbv zeta. rewrite Ec. exists w1, p. by rewrite insert_id.
Qed.

(** C9: When nobody else writes projects and namespaces, a reconciliation that is done has
    come to one of four outcomes.  The project was given its finalizer and an environment;
    or it was refused, and its status says why; or every namespace it wants is there, owned
    and labelled (one that was being deleted still is), those of environments it no longer
    declares are gone or terminating, and its status says ready; or it is being deleted,
    its namespaces are gone or terminating, and its finalizer is removed: the controller
    asks for the deletion of the namespaces and does not wait for it.  Namespaces of others
    are never changed. *)
Theorem project_converges (name : string) (p : Project) (N : namespaces) (P : projects) (w w' : W) :
  holds N P w → P !! ("", name) = Some p → cluster_scoped P →
  Forall (λ e, ProjectEnvironment_Name e ≠ "") (project_envs p) →
  Reconcile R SetControllerReference now reader ServiceAccountName OperatorNamespace name w = (w', inr Done) →
  ∃ N' P', holds N' P' w' ∧ outcome p N P N' P'.
Proof.
  intros Hw Hp Hsc Hne. unfold Reconcile. destruct (get_project_quiet N P ("", name) w Hw) as (w1 & Hw1 & Hg).
  rewrite Hp in Hg. rewrite Hg. pose proof (project_key _ _ _ _ _ Hw Hp) as Hk.
  assert (name = project_name p) as -> by by injection Hk. unfold reconcile_project.
  destruct (deleting (Project_ObjectMeta p)) eqn:Ed.
  - unfold teardown. intros (w2 & [] & Hm & H)%bind_inr. apply bind_inr in H as (w3 & [] & Hdel & H).
    apply bind_inr in H as (w4 & [] & Hf%wrapping_inr & [= <-]).
    destruct (marked_terminating N P p (ControlNamespace (project_name p)) w1 Hw1 Hp) as (w5 & q & Hm' & Hw5 & Hqs & Hqn).
    unfold run in Hm. rewrite Hm' in Hm. injection Hm as <-.
    destruct (teardown_quiet _ p N w5 w3 tt Hw5 Hdel) as (N' & Hw3 & Hpr).
    destruct (finalizer_removed N' _ q (project_name p) w3 Hw3 (lookup_insert_eq _ _ _)) as (w6 & q' & Hm2 & Hw6 & Hqs' & Hqf).
    unfold run in Hf. rewrite Hm2 in Hf. injection Hf as <-. rewrite insert_insert_eq in Hw6.
    eexists _, _. split; [exact Hw6|]. apply outcome_released; [done|exact Hpr|done|congruence].
  - destruct (seeded p) as [q []] eqn:Es.
    + intros (w2 & [] & Hu%wrapping_inr & [= <-])%bind_inr.
      assert (obj_key q = obj_key p ∧ obj_rv q = obj_rv p) as [Hqk Hqr].
      { revert Es. unfold seeded. rewrite add_finalizer. destruct (ContainsFinalizer _ _), (existsb _ _); by intros [= <-]. }
      destruct (write_project_quiet N P q p w1 Hw1) as (w3 & rv & Hw3 & Hk3); [by rewrite Hqk, Hk|done|].
      unfold run in Hu. rewrite Hk3 in Hu. injection Hu as <-. rewrite Hqk, Hk in Hw3.
      eexists _, _. split; [exact Hw3|]. by apply outcome_seeded.
    + pose proof (seeded_same _ _ Es) as ->. intros (w2 & r & Hpv & H)%bind_inr.
      destruct (provision_quiet P p N w1 w2 r Hw1 Hp Hsc Hpv) as (N1 & Hw2 & [Hkept _] & Hr). destruct r as [[reason msg]|m].
      * apply bind_inr in H as (w3 & [] & Hm & [= <-]).
        destruct (status_quiet N1 P p (project_name p) (status_failed (ControlNamespace (project_name p)) reason msg) w2 Hw2 Hp)
          as (w4 & rv & Hm' & Hw4). unfold run, markFailed in Hm. rewrite Hm' in Hm. injection Hm as <-.
        eexists _, _. split; [exact Hw4|]. by apply outcome_refused.
      * destruct Hr as [-> Hpres]. destruct (finish_quiet N1 P p w2 w' Hw2 Hp H) as (N' & q & rv & a & n & Hpr & Hq & Hw').
        eexists _, _. split; [exact Hw'|]. apply outcome_ready; [done|done| |done]. by eapply provided_pruned.
Qed.
End quiet.

(** ** The activity of the creation *)

Section created.
Context {W : Type} {CC : KubeClient W ConfigMap} {OC : KubeClientOk W ConfigMap}.

Definition is_create (name : string) (e : Event) : bool := hasProjectCreateActivity [e] name.

Lemma has_create_filter events name :
  hasProjectCreateActivity events name = false → List.filter (is_create name) events = [].
Proof.
  induction events as [|e l IH]; [done|]. unfold hasProjectCreateActivity in *. simpl. intros [He Hl]%orb_false_iff.
  unfold is_create, hasProjectCreateActivity at 1. simpl. rewrite He. simpl. by apply IH.
Qed.

(** The new event is kept when the oldest ones go. *)
Lemma capped_keeps events name e :
  hasProjectCreateActivity events name = false → is_create name e = true →
  List.filter (is_create name) (capped (events ++ [e])) = [e].
Proof.
  intros Hno He. unfold capped. destruct (Nat.ltb_spec Cap (length (events ++ [e]))) as [Hlt|_].
  - rewrite length_app in *. simpl in *. rewrite skipn_app.
    replace (length events + 1 - Cap - length events) with 0 by (unfold Cap in *; lia). simpl.
    rewrite List.filter_app. simpl. rewrite He, has_create_filter; [done|].
    apply not_true_iff_false. intros H. apply not_true_iff_false in Hno. apply Hno.
    unfold hasProjectCreateActivity in *. rewrite existsb_elem in *. destruct H as (x & Hx & H). exists x. split; [|done].
    rewrite <-(take_drop (length events + 1 - Cap) events). apply elem_of_app. by right.
  - rewrite List.filter_app. simpl. by rewrite He, has_create_filter.
Qed.

Definition activity_key (name : string) : NamespacedName := (projectNamespace name, configMapName name).

(** An attempt that ended well. *)
Definition recorded_by (e : Event) (w w' : W) : Prop :=
  let name := ev_Project e in
  (∃ cm events, read_ok (activity_key name) cm w' ∧ unmarshalEvents (map_get (cm_Data cm) eventsKey) = inr events ∧
     hasProjectCreateActivity events name = true) ∨
  ∃ wu rv cm events data, khist w wu ∧ khist wu w' ∧ marshalEvents events = inr data ∧
    List.filter (is_create name) events = [e] ∧ (length events ≤ Cap)%nat ∧
    kstore w' = <[activity_key name := obj_with_rv rv (with_events data cm)]> (kstore wu) ∧
    match kstore wu !! activity_key name with
    | None => events = [e]
    | Some old => old = cm ∧ ∃ before, unmarshalEvents (map_get (cm_Data old) eventsKey) = inr before ∧
        hasProjectCreateActivity before name = false ∧ events = capped (before ++ [e])
    end.

Lemma capped_length events : (length (capped events) ≤ Cap)%nat.
Proof. unfold capped. destruct (Nat.ltb_spec Cap (length events)); [rewrite length_drop; lia|done]. Qed.

Lemma append_attempt_hist e w : khist w (append_attempt e w).1.
Proof.
  unfold append_attempt. fold (activity_key (ev_Project e)).
  destruct (kget (activity_key (ev_Project e)) w) as [w1 [err|cm]] eqn:Eg; apply kget_hist in Eg as Hg.
  - destruct (IsNotFound err); [|done]. destruct (marshalEvents _); [done|].
    destruct (kcreate _ w1) as [w2 [e2|]] eqn:Ec; apply kcreate_hist in Ec; by etrans.
  - destruct (unmarshalEvents _); [done|]. destruct (hasProjectCreateActivity _ _); [done|].
    destruct (marshalEvents _); [done|]. destruct (kupdate _ w1) as [w2 [e2|]] eqn:Ec; apply kupdate_hist in Ec; by etrans.
Qed.

Lemma attempt_recorded e w w' :
  is_create (ev_Project e) e = true → append_attempt e w = (w', Some None) → recorded_by e w w'.
Proof.
  intros He. unfold append_attempt, recorded_by. cbv zeta. fold (activity_key (ev_Project e)).
  destruct (kget (activity_key (ev_Project e)) w) as [w1 [err|cm]] eqn:Eg.
  - destruct (IsNotFound err); [|done]. destruct (marshalEvents [e]) as [?|data] eqn:Em; [done|].
    destruct (kcreate _ w1) as [w2 [e2|]] eqn:Ec; [by destruct (_ || _)|]. intros [= <-]. right.
    apply kcreate_spec in Ec as [_ Hc]. destruct (Hc eq_refl) as (wu & rv & H1 & H2 & Hn & Hs).
    apply kget_hist in Eg. set (cm := new_config_map _ _ data) in *.
    exists wu, rv, cm, [e], data. change (obj_key cm) with (activity_key (ev_Project e)) in *. split; [by etrans|].
    split; [done|]. split; [done|]. simpl. rewrite He, Hn. split; [done|]. split; [unfold Cap; lia|]. split; [|done].
    change (kstore w2 = <[activity_key (ev_Project e) := obj_with_rv rv (with_events data cm)]> (kstore wu)).
    assert (with_events data cm = cm) as ->; [|exact Hs]. unfold cm, with_events, new_config_map. simpl.
    done.
  - destruct (unmarshalEvents _) as [?|before] eqn:Eb; [done|].
    destruct (hasProjectCreateActivity before _) eqn:Eh.
    + intros [= <-]. left. exists cm, before. split; [|done]. by eapply kget_reader_ok.
    + destruct (marshalEvents _) as [?|data] eqn:Em; [done|].
      destruct (kupdate _ w1) as [w2 [e2|]] eqn:Ec; [by destruct (IsConflict e2)|]. intros [= <-]. right.
      destruct (rmw_atomic _ _ _ _ _ _ Eg Ec) as (wu & rv & H1 & H2 & Hk & Hs); [done|done|].
      exists wu, rv, cm, (capped (before ++ [e])), data. split; [done|]. split; [done|]. split; [done|].
      split; [by apply capped_keeps|]. split; [apply capped_length|]. split; [done|]. rewrite Hk.
      split; [done|]. by exists before.
Qed.

(** C31: When the activity of the creation is recorded without an error, whatever others did
    meanwhile, either an entry of the creation had been seen in the buffer, or the entry was
    added to the very version that was replaced, which had none, so that the buffer then
    holds exactly one, and no more entries than its bound. *)
Theorem create_recorded_once e (w w' : W) :
  is_create (ev_Project e) e = true → appendProjectCreateActivityIfMissing e w = (w', None) →
  ∃ w0, khist w w0 ∧ recorded_by e w0 w'.
Proof.
  intros He. unfold appendProjectCreateActivityIfMissing. generalize conflict_attempts as n. intros n. revert w.
  induction n as [|n IH]; intros w; [done|]. cbn [append_attempts]. pose proof (append_attempt_hist e w) as Hh.
  destruct (append_attempt e w) as [w1 [r|]] eqn:Ea.
  - intros [= -> ->]. exists w. split; [done|]. by apply attempt_recorded.
  - intros (w0 & H0 & H)%IH. exists w0. split; [by etrans|done].
Qed.
End created.
