(* ===== verification/BuildRunFlow.v ===== *)
(** * The life of a build run

    What the controller does to runs, in any world: whatever other writers do between its
    calls, and however stale its reads are, each of its writes that succeeds is a legal step
    of the life of the run it replaces ([run_step]), and it deletes finished runs only. *)

From S2P Require Import Prelude GoStrings GoNum GoTime GoText Kube Core Api KubeStatus Effects Controller Constants BuildRun ApiServer BuildTracker BuildRunReconcile.

(** ** Steps of a run *)

Section steps.
Context {CH : ConditionHelpers}.

(** The attempt that may start: the first one, or the next one of a run that lost its
    build, while there are attempts left. *)
Definition may_start (br : BuildRun) (attempt : Z) : Prop :=
  (run_phase br ≠ BuildRunPhaseRunning ∧ attempt = first_attempt br) ∨
  ((first_attempt br < maxBuildRunInterruptionAttempts)%Z ∧ attempt = (first_attempt br + 1)%Z).

(** What the controller may write over the version [br] of a run. *)
Inductive run_step (br : BuildRun) : BuildRun → Prop :=
| step_running now : isBuildRunTerminal br = false → run_step br (mark_running now br)
| step_started now attempt :
    isBuildRunTerminal br = false → may_start br attempt → run_step br (mark_started now attempt br)
| step_interrupted now : isBuildRunTerminal br = false → run_step br (mark_interrupted now br)
| step_failed now attempt reason message :
    isBuildRunTerminal br = false → may_start br attempt ∨ attempt = first_attempt br →
    run_step br (mark_failed now attempt reason message br)
| step_outcome now log sn image digest : run_step br (mark_outcome now log sn image digest br)
| step_adopted now log image digest : run_step br (mark_adopted now log image digest br).

Lemma terminal_phase br :
  isBuildRunTerminal br = true ↔ run_phase br = BuildRunPhaseSucceeded ∨ run_phase br = BuildRunPhaseFailed.
Proof.
  unfold isBuildRunTerminal, phase_in. simpl. rewrite orb_false_r, orb_true_iff, !String.eqb_eq. done.
Qed.

(** A step changes the status only; what is finished stays finished; no attempt is counted
    beyond the fifth; and only an attempt that starts makes a run run again. *)
Lemma run_step_facts br br' :
  run_step br br' →
  BuildRun_ObjectMeta br' = BuildRun_ObjectMeta br ∧ BuildRun_Spec br' = BuildRun_Spec br ∧
  (isBuildRunTerminal br = true → isBuildRunTerminal br' = true) ∧
  ((BuildRunStatus_Attempt (BuildRun_Status br) ≤ maxBuildRunInterruptionAttempts)%Z →
   (BuildRunStatus_Attempt (BuildRun_Status br') ≤ maxBuildRunInterruptionAttempts)%Z).
Proof.
  assert (∀ a, may_start br a ∨ a = first_attempt br →
    (BuildRunStatus_Attempt (BuildRun_Status br) ≤ maxBuildRunInterruptionAttempts)%Z →
    (a ≤ maxBuildRunInterruptionAttempts)%Z) as Hb.
  { intros a Ha Hle. unfold may_start, first_attempt, maxBuildRunInterruptionAttempts in *.
    destruct (Z.ltb_spec (BuildRunStatus_Attempt (BuildRun_Status br)) 1); lia. }
  assert (∀ now s, BuildRunStatus_Attempt (set_started now s) = BuildRunStatus_Attempt s) as Hset.
  { intros now s. unfold set_started. by destruct (BuildRunStatus_StartedAt s). }
  intros Hs. destruct Hs as [n Ht|n a Ht Ha|n Ht|n a reason m Ht Ha|n log sn im d|n log im d];
    try (rewrite Ht); split_and!; try done.
  - simpl. by rewrite Hset.
  - simpl. rewrite Hset. simpl. apply Hb. by left.
  - by apply Hb.
  - unfold mark_outcome. by case_match.
  - unfold mark_outcome. by case_match.
  - intros _. unfold mark_outcome. case_match; apply terminal_phase; [by left|by right].
  - unfold mark_outcome. by case_match.
Qed.
End steps.

(** ** The writes of the controller *)

(** Moves of a world that the controller, and everybody else between its calls, stays
    within. *)
Class ControllerMoves (W : Type) {CR : KubeClient W BuildRun} {SR : KubeStatus W BuildRun}
    {LR : KubeListIn W BuildRun} {DR : KubeDelete W BuildRun} {CC : KubeClient W ConfigMap}
    {DC : KubeDelete W ConfigMap} {CS : KubeClient W Secret} {CA : KubeClient W App} {SA : KubeStatus W App}
    {CH : ConditionHelpers} {OK : KubeClientOk W BuildRun}
    (uncached_get : NamespacedName → W → W * (error + BuildRun)) (I : relation W) : Prop := {
  moves_preorder :: PreOrder I;
  moves_hist w w' : I w w' → khist (Obj := BuildRun) w w';
  (** Reads, and calls on other kinds. *)
  moves_runs :: KubeReads W BuildRun I;
  moves_uncached k w : I w (uncached_get k w).1;
  moves_list ns labels w : I w (klist_in (Obj := BuildRun) ns labels w).1;
  moves_configmaps :: KubeWithin W ConfigMap I;
  moves_configmaps_delete k w : I w (kdelete ConfigMap k w).1;
  moves_secrets :: KubeReads W Secret I;
  moves_apps :: KubeReads W App I;
  moves_apps_status :: KubeStatusWithin W App I;
  (** The status of a run, if it is a step from the version that was read. *)
  moves_status br br' w : read_ok (obj_key br) br w → run_step br br' → I w (kstatus_update br' w).1;
  (** The deletion of a finished run. *)
  moves_delete br w : read_ok (obj_key br) br w → isBuildRunTerminal br = true → I w (kdelete BuildRun (obj_key br) w).1;
}.

Ltac ret_done := by apply within_ret; try apply _.

Section writes.
Context {W : Type} {CR : KubeClient W BuildRun} {SR : KubeStatus W BuildRun} {LR : KubeListIn W BuildRun}
  {DR : KubeDelete W BuildRun} {CC : KubeClient W ConfigMap} {DC : KubeDelete W ConfigMap}
  {CS : KubeClient W Secret} {CA : KubeClient W App} {SA : KubeStatus W App}
  {KR : KubeRetry W} {KRB : KubeRetry (W * BuildRun)} {KE : KubeOnError W} {CH : ConditionHelpers} (R : MapRange).
Context (SetControllerReference : ObjectMeta → ObjectMeta → error + ObjectMeta) (now : W → Time)
  (uncached_get : NamespacedName → W → W * (error + BuildRun)) (clients : bool)
  (ResolveTag : option (W → string → string → string → error + string * bool)).
Context {OK : KubeClientOk W BuildRun} {KOK : KubeRetryOk W} {KBOK : KubeRetryOk (W * BuildRun)}
  {KEOK : KubeOnErrorOk W}.
Context (I : relation W) {M : ControllerMoves W uncached_get I}.
(** The uncached reader and lists answer with stored objects. *)
Context (Huncached : reader_ok uncached_get)
  (Hlist : ∀ ns labels w w' l, klist_in (Obj := BuildRun) ns labels w = (w', inr l) →
     ∀ br, br ∈ l → read_ok (obj_key br) br w').

Definition known (br : BuildRun) (w : W) : Prop := read_ok (obj_key br) br w.

Lemma known_stable br w w' : I w w' → known br w → known br w'.
Proof. intros H (w0 & H0 & Hs). exists w0. split; [|done]. etrans; [done|by apply (moves_hist (I := I))]. Qed.

Lemma known_read k br w : read_ok k br w → known br w.
Proof. intros (w0 & H0 & Hs). exists w0. split; [done|]. by rewrite (kstore_key _ _ _ Hs). Qed.

Lemma moves_upsert cm : keeps I (upsertConfigMap cm).
Proof.
  apply keeps_run. intros w. rewrite on_error_spec. refine (keeps_on_error I _ _ _ _ w). intros w1.
  unfold upsert_once. pose proof (kget_within (I := I) (Obj := ConfigMap) (obj_key cm) w1) as H.
  destruct (kget (obj_key cm) w1) as [w2 [err|cur]]; simpl in H.
  - destruct (IsNotFound err); [|done]. etrans; [exact H|apply kcreate_within].
  - etrans; [exact H|apply kupdate_within].
Qed.

Lemma moves_owned owner cm : keeps I (owned (W := W) SetControllerReference owner cm).
Proof. intros w. unfold owned. by destruct (SetControllerReference _ _). Qed.

Lemma moves_clock : keeps I (read_clock now).
Proof. by intros w. Qed.

Lemma moves_merged br l : keeps I (mergedBuildRunLogLines br l).
Proof.
  intros w. unfold mergedBuildRunLogLines.
  pose proof (kget_within (I := I) (Obj := ConfigMap) (run_ns br, log_name (run_name br)) w) as H.
  destruct (kget _ w) as [w1 [err|cm]]; simpl in *; [by destruct (IsNotFound err)|done].
Qed.

Lemma moves_marker br marker : keeps I (appendBuildRunLogMarker SetControllerReference now br marker).
Proof.
  unfold appendBuildRunLogMarker. apply keeps_if; [apply keeps_ret; apply _|].
  repeat (apply keeps_bind; [apply _| |intros ?]);
    auto using moves_merged, moves_clock, moves_owned, moves_upsert.
Qed.

Lemma moves_legacy br cm : keeps I (legacy_log SetControllerReference br cm).
Proof.
  unfold legacy_log. apply keeps_if; [apply keeps_ret; apply _|]. intros w.
  pose proof (kget_reads (I := I) (Obj := App) (run_ns br, BuildRunSpec_AppName (BuildRun_Spec br)) w) as H.
  destruct (kget _ w) as [w1 [err|app]]; simpl in *; [by destruct (IsNotFound err)|].
  etrans; [exact H|]. apply (keeps_bind I); [apply moves_owned|intros ?; apply moves_upsert].
Qed.

Lemma moves_persist br t : keeps I (persistBuildRunLog SetControllerReference now br t).
Proof.
  unfold persistBuildRunLog.
  repeat (apply keeps_bind; [apply _| |intros ?]);
    auto using moves_merged, moves_clock, moves_owned, moves_upsert, moves_legacy.
Qed.

Lemma moves_project br : keeps I (projectTerminalBuildRunStatus br).
Proof.
  unfold projectTerminalBuildRunStatus. case_match; [|apply keeps_ret; apply _].
  apply keeps_run. intros w. rewrite retry_on_conflict_spec. refine (keeps_retry I _ _ _ w). intros w1.
  pose proof (kget_reads (I := I) (Obj := App) (run_ns br, BuildRunTargetRef_Name (BuildRunSpec_TargetRef (BuildRun_Spec br))) w1) as H1.
  destruct (kget _ w1) as [w2 [err|app]]; simpl in *; [by destruct (IsNotFound err)|].
  etrans; [exact H1|apply kstatus_within].
Qed.

(** *** Writes of a run *)

Lemma moves_write br br' : run_step br br' → within I (known br) (run (kstatus_update br')) (λ _ _, True).
Proof. intros Hs. apply within_run. intros w Hk. by eapply moves_status. Qed.

Lemma moves_fail br attempt reason message :
  isBuildRunTerminal br = false → may_start br attempt ∨ attempt = first_attempt br →
  within I (known br) (failBuildRun now br attempt reason message) (λ _ _, True).
Proof.
  intros Ht Ha. unfold failBuildRun.
  apply (keeps_ret_bind_within I); [intros; by eapply known_stable|apply moves_clock|intros t].
  eapply within_bind; [apply _|by apply moves_write; constructor|]. intros ?. ret_done.
Qed.

Lemma moves_token br : keeps I (resolveBuildRunGitToken br).
Proof.
  intros w. unfold resolveBuildRunGitToken. destruct (BuildRunSpec_TokenSecretRef _) as [ref|]; [|done].
  pose proof (kget_reads (I := I) (Obj := Secret) (SecretRef_Namespace ref, SecretRef_Name ref) w) as H.
  destruct (kget _ w) as [w1 [err|sec]]; simpl in *; [done|]. by case_match.
Qed.

Lemma moves_await br delay :
  isBuildRunTerminal br = false → within I (known br) (awaitInterruptionBackoff now br delay) (λ _ _, True).
Proof.
  intros Ht. unfold awaitInterruptionBackoff.
  apply (keeps_ret_bind_within I); [intros; by eapply known_stable|apply moves_clock|intros t].
  assert (within I (known br) (_ ← run (kstatus_update (mark_interrupted t br)); mret delay) (λ _ _, True)) as Hf.
  { eapply within_bind; [apply _|by apply moves_write; constructor|]. intros ?. ret_done. }
  case_match; [|exact Hf]. apply within_if; [exact Hf|]. ret_done.
Qed.

Let J (p q : W * BuildRun) : Prop := I p.1 q.1.
#[local] Instance J_preorder : PreOrder J.
Proof. split; [by intros p; unfold J|]. intros p q r H1 H2. unfold J in *. by etrans. Qed.

(** The outcome is written over the version that was read in the same attempt. *)
Lemma moves_update_status key f br :
  (∀ cur, run_step cur (f cur)) → keeps I (update_run_status key f br).
Proof.
  intros Hf w. unfold update_run_status. rewrite retry_on_conflict_spec. set (fn := λ p : W * BuildRun, _).
  assert (I w (retry_loop default_retry_steps fn (w, br)).1.1) as H.
  { refine (keeps_retry J default_retry_steps fn _ (w, br)).
    intros [w1 b1]. unfold fn, J. simpl.
    destruct (kget key w1) as [w2 [e|cur]] eqn:Eg; pose proof (kget_reads (I := I) (Obj := BuildRun) key w1) as H1;
      rewrite Eg in H1; simpl in *; [done|].
    assert (known cur w2) as Hk by (apply kget_spec in Eg as [_ Hr]; by eapply known_read, Hr).
    pose proof (moves_status cur (f cur) w2 Hk (Hf cur)) as H2.
    destruct (kstatus_update (f cur) w2) as [w3 [e|]]; simpl in *; by etrans. }
  destruct (retry_loop default_retry_steps fn (w, br)) as [[w1 br1] [err|]]; exact H.
Qed.

(** *** History *)

Lemma keeps_ignore_missing (f : W → W * option error) w : I w (f w).1 → I w (ignore_missing f w).1.
Proof. unfold ignore_missing. destruct (f w) as [w1 [e|]]; [by case_match|done]. Qed.

Lemma moves_retire br : isBuildRunTerminal br = true → within I (known br) (deleteRetiredBuildRun R br) (λ _ _, True).
Proof.
  intros Ht. unfold deleteRetiredBuildRun.
  apply (keeps_ret_bind_within I); [intros; by eapply known_stable| |intros ?].
  - apply keeps_for_each; [apply _|]. intros name w. by apply keeps_ignore_missing, moves_configmaps_delete.
  - intros w Hk. split; [|done]. by apply keeps_ignore_missing, moves_delete.
Qed.

Lemma retired_elem protected kept l br :
  br ∈ retired protected kept l → br ∈ l ∧ isBuildRunTerminal br = true ∧ run_name br ∉ protected.
Proof.
  revert kept. induction l as [|x l IH]; intros kept; simpl; [by intros ?%elem_of_nil|].
  destruct (isBuildRunTerminal x) eqn:Et; simpl.
  - case_bool_decide; [intros (?&?&?)%IH; set_solver|].
    destruct (kept <? _); [intros (?&?&?)%IH; set_solver|]. intros [->|Hx]%elem_of_cons; [set_solver|].
    apply IH in Hx as (?&?&?). set_solver.
  - intros (?&?&?)%IH. set_solver.
Qed.

Lemma moves_gc br : keeps I (gcBuildRunHistory R br).
Proof.
  unfold gcBuildRunHistory. apply keeps_if; [apply keeps_ret; apply _|].
  apply (within_keeps I (λ _, True)) with (Q := λ _ _, True); [|done].
  apply (within_bind I _ _ (λ l w, ∀ x, x ∈ l → known x w)).
  { intros w _. split; [apply moves_list|]. destruct (klist_in _ _ w) as [w1 r] eqn:E. simpl.
    intros l ->. by eapply Hlist. }
  intros l. apply (within_bind I _ _ (λ _ w, ∀ x, x ∈ l → known x w)).
  { apply within_stable; [intros ? ? Hw Hl x Hx; eapply known_stable; [exact Hw|by apply Hl]|].
    intros w. unfold protectedBuildRunNames. case_match; [done|].
    pose proof (kget_reads (I := I) (Obj := App) (run_ns br, BuildRunTargetRef_Name (BuildRunSpec_TargetRef (BuildRun_Spec br))) w) as Hg.
    destruct (kget _ w) as [w1 [err|app]]; simpl in *; [by case_match|done]. }
  intros protected. apply within_for_each; [apply _| |].
  { intros w w' Hw Hl x Hx. eapply known_stable; [exact Hw|by apply Hl]. }
  intros x Hx. apply retired_elem in Hx as (Hx & Ht & _). rewrite merge_sort_Permutation in Hx.
  eapply within_conseq; [by apply moves_retire|intros w Hl; by apply Hl|done].
Qed.

(** *** Handlers *)

Let IR (s s' : RState (W := W)) : Prop := I (rs_world s) (rs_world s').
#[local] Instance IR_preorder : PreOrder IR.
Proof. split; [by intros s; unfold IR|]. intros s1 s2 s3 H1 H2. unfold IR in *. by etrans. Qed.

Lemma lift_keeps {A} (m : E W A) : keeps I m → keeps IR (in_world m).
Proof. intros Hm s. unfold in_world, IR. specialize (Hm (rs_world s)). by destruct (m (rs_world s)). Qed.

Lemma lift_within {A} P (m : E W A) Q :
  within I P m Q → within IR (λ s, P (rs_world s)) (in_world m) (λ a s, Q a (rs_world s)).
Proof.
  intros Hm s Hp. destruct (Hm _ Hp) as [H1 H2]. unfold in_world, IR. by destruct (m (rs_world s)).
Qed.

Let seen (br : BuildRun) (s : RState (W := W)) : Prop := known br (rs_world s).
Lemma seen_stable br s s' : IR s s' → seen br s → seen br s'.
Proof. unfold IR, seen. apply known_stable. Qed.

Lemma moves_builds f : keeps IR (on_builds f).
Proof. intros s. by unfold IR. Qed.
Lemma moves_observe l : keeps IR (observe l).
Proof. intros s. by unfold IR. Qed.
Lemma moves_launch key t p : keeps IR (launch key t p).
Proof. intros s. by unfold IR. Qed.

(** Going through a handler: what does not depend on the run is a frame. *)
Ltac seen_step := apply (keeps_ret_bind_within IR);
  [intros; by eapply seen_stable| |intros ?].
Ltac seen_write := eapply within_bind; [apply _|apply lift_within| intros ?].

Lemma moves_start br key attempt marker :
  isBuildRunTerminal br = false → may_start br attempt →
  within IR (seen br) (startBuildRunAttempt now clients ResolveTag br key attempt marker) (λ _ _, True).
Proof.
  intros Ht Ha. unfold startBuildRunAttempt. apply within_if.
  { seen_write; [by apply moves_fail; [|left]|ret_done]. }
  seen_step; [apply lift_keeps, moves_token|]. case_match.
  { seen_write; [by apply moves_fail; [|left]|ret_done]. }
  seen_step; [apply lift_keeps, moves_clock|].
  seen_write; [by apply moves_write; constructor|].
  apply (within_conseq IR (λ _, True) _ _ (λ _ _, True)); [|done|done].
  apply (keeps_ret_bind_within IR); [done|apply moves_launch|]. intros ?. ret_done.
Qed.

Lemma keeps_within {A} P (m : E RState A) : keeps IR m → within IR P m (λ _ _, True).
Proof. intros Hm s _. by split. Qed.

Lemma moves_resolve br : keeps I (resolve_pushed ResolveTag br).
Proof. intros w. unfold resolve_pushed. destruct ResolveTag; [|done]. by case_match. Qed.

Lemma moves_adopted br key image digest : keeps IR (adopted_run SetControllerReference now br key image digest).
Proof.
  unfold adopted_run. apply keeps_bind; [apply _|apply lift_keeps, moves_marker|intros _].
  apply keeps_bind; [apply _|apply lift_keeps, moves_clock|intros t].
  apply lift_keeps, moves_update_status. intros cur. apply step_adopted.
Qed.

Lemma moves_settle br key : keeps IR (settle R br key).
Proof.
  unfold settle. apply keeps_bind; [apply _|apply lift_keeps, moves_project|intros _].
  apply keeps_bind; [apply _|apply moves_builds|intros _]. apply lift_keeps, moves_gc.
Qed.

Lemma moves_adopt br key s : IR s (adoptPushedBuildResult R SetControllerReference now ResolveTag br key s).1.
Proof.
  unfold adoptPushedBuildResult. case_match; [done|].
  pose proof (lift_keeps _ (moves_resolve br) s) as H1.
  destruct (in_world (resolve_pushed ResolveTag br) s) as [s1 r]. simpl in H1.
  assert (∀ digest, IR s1 (adopt_pushed R SetControllerReference now br key digest s1).1) as Ha.
  { intros digest. unfold adopt_pushed. cbv zeta.
    match goal with |- context [adopted_run _ _ _ _ ?image _ s1] => pose proof (moves_adopted br key image digest s1) as H2 end.
    destruct (adopted_run _ _ _ _ _ _ s1) as [s2 [err|br2]]; [exact H2|]. etrans; [exact H2|].
    pose proof (moves_settle br2 key s2) as H3. unfold err_of. by destruct (settle R br2 key s2) as [s3 [err|[]]]. }
  repeat case_match; simplify_eq; simpl; try done; (etrans; [exact H1|apply Ha]).
Qed.

Lemma moves_exhaust br key :
  isBuildRunTerminal br = false →
  within IR (seen br) (exhaust SetControllerReference now br key (first_attempt br)) (λ _ _, True).
Proof.
  intros Ht. unfold exhaust. seen_step; [apply lift_keeps, moves_marker|].
  seen_write; [by apply moves_fail; [|right]|].
  apply keeps_within. apply keeps_bind; [apply _|apply lift_keeps, moves_project|intros _].
  apply keeps_bind; [apply _|apply moves_builds|intros _]. apply keeps_ret; apply _.
Qed.

Lemma moves_restart br key :
  isBuildRunTerminal br = false → (first_attempt br < maxBuildRunInterruptionAttempts)%Z →
  within IR (seen br) (restart SetControllerReference now clients ResolveTag br key (first_attempt br)) (λ _ _, True).
Proof.
  intros Ht Ha. unfold restart. apply (within_bind IR _ _ (λ _, seen br)).
  { apply within_if; [|by apply within_ret; try apply _].
    refine (lift_within (known br) _ (λ _, known br) _).
    intros w Hk. destruct (moves_await br (buildRunInterruptionBackoff (first_attempt br)) Ht w Hk) as [H1 _].
    split; [done|]. intros ? _. by eapply known_stable. }
  intros remaining. apply within_if; [ret_done|].
  seen_step; [apply lift_keeps, moves_marker|]. apply moves_start; [done|by right].
Qed.

Lemma moves_finish key br tracker : keeps IR (finish R SetControllerReference now ResolveTag key br tracker).
Proof.
  unfold finish. apply keeps_bind; [apply _|apply lift_keeps, moves_persist|intros log].
  apply keeps_bind; [apply _|apply lift_keeps, moves_clock|intros t]. cbv zeta.
  apply keeps_bind; [apply _|apply lift_keeps|intros [image digest]].
  { unfold final_image. apply keeps_if; [|apply keeps_ret; apply _]. apply keeps_bind; [apply _| |intros ?].
    - unfold resolveBuiltDigest. apply keeps_bind; [apply _|apply moves_resolve|intros ?]. apply keeps_ret; apply _.
    - apply keeps_ret; apply _. }
  apply keeps_bind; [apply _|apply lift_keeps, moves_update_status; intros cur; apply step_outcome|intros br2].
  apply keeps_bind; [apply _|apply moves_observe|intros _].
  apply keeps_bind; [apply _|apply moves_settle|intros _]. apply keeps_ret; apply _.
Qed.

Lemma moves_lost key : keeps IR (handleLostBuildRunTracker R SetControllerReference now uncached_get clients ResolveTag key).
Proof.
  intros s. unfold handleLostBuildRunTracker.
  pose proof (lift_keeps (uncached_get key) (λ w, moves_uncached key w) s) as H1.
  unfold in_world in *. destruct (uncached_get key (rs_world s)) as [w r] eqn:Eu. cbn [fst] in H1.
  set (s1 := {| rs_world := w |}) in *. destruct r as [err|br]; [by case_match|].
  assert (seen br s1) as Hs.
  { apply Huncached in Eu as [_ Hr]. by eapply known_read, Hr. }
  destruct (isBuildRunTerminal br) eqn:Et; [done|].
  destruct (BuildRunStatus_StartedAt _); [|done]. case_match; [done|].
  pose proof (moves_adopt br key s1) as H2.
  destruct (adoptPushedBuildResult _ _ _ _ _ _ s1) as [s2 [[] [err|]]]; simpl in H2; try by etrans.
  etrans; [exact H1|]. etrans; [exact H2|]. assert (seen br s2) as Hs2 by by eapply seen_stable.
  destruct (Z.leb_spec maxBuildRunInterruptionAttempts (first_attempt br)).
  - by apply moves_exhaust.
  - by apply moves_restart.
Qed.

Lemma moves_follow br :
  isBuildRunTerminal br = false → within IR (seen br) (follow_running now br) (λ _ _, True).
Proof.
  intros Et. unfold follow_running. apply (within_bind IR _ _ (λ _, seen br)); [|intros ?; ret_done].
  apply within_if; [ret_done|]. seen_step; [apply lift_keeps, moves_clock|].
  intros s2 Hs2. destruct (lift_within _ _ _ (moves_write br _ (step_running _ a Et)) s2 Hs2) as [H2 _].
  split; [done|]. intros ? _. by eapply seen_stable.
Qed.

(** C5: whatever becomes of a reconciliation, and whatever others do meanwhile, the world moves
    by legal steps of runs, by deletions of finished runs and by calls on other kinds. *)
Theorem Reconcile_moves key s :
  I (rs_world s) (rs_world (Reconcile R SetControllerReference now uncached_get clients ResolveTag key s).1).
Proof.
  change (IR s (Reconcile R SetControllerReference now uncached_get clients ResolveTag key s).1).
  unfold Reconcile. pose proof (lift_keeps (kget (Obj := BuildRun) key) (λ w, kget_reads key w) s) as H1.
  unfold in_world at 1. unfold in_world in H1. destruct (kget key (rs_world s)) as [w r] eqn:Eg. cbn [fst] in H1.
  set (s1 := {| rs_world := w |}) in *. destruct r as [err|br]; [by case_match|].
  assert (seen br s1) as Hs by (apply kget_spec in Eg as [_ Hr]; by eapply known_read, Hr).
  etrans; [exact H1|]. destruct (isBuildRunTerminal br) eqn:Et.
  { apply (keeps_bind IR); [apply lift_keeps, moves_gc|]. intros ?. apply keeps_ret; apply _. }
  assert (IR s1 (without_tracker R SetControllerReference now uncached_get clients ResolveTag key br s1).1) as Hlost.
  { unfold without_tracker. destruct (String.eqb_spec (run_phase br) BuildRunPhaseRunning); [apply moves_lost|].
    apply moves_start; [done|by left|done]. }
  case_match; [|exact Hlost]. case_match.
  { by apply moves_follow. }
  case_match; [apply moves_finish|exact Hlost].
Qed.
End writes.
