(* ===== verification/BuildRunSystem.v ===== *)
(** * The builds of a process

    The controller, the goroutines of its builds, and restarts of the process, as a step
    relation: the goroutines run between reconciliations of any keys, in any world.  At any time a run has at most one build that is neither finished nor cancelled
    ([one_live_build]). *)

From S2P Require Import Prelude GoStrings Kube Core Api KubeStatus Effects Controller BuildRun ApiServer BuildTracker BuildRunReconcile.

(** ** What a build does to its tracker *)

Definition op_final (op : tracker_op) : bool := match op with OpLog _ => false | _ => true end.

(** Log lines, then one outcome. *)
Definition build_ops (ops : list tracker_op) : Prop :=
  ∃ logs op, ops = (OpLog <$> logs) ++ [op] ∧ op_final op = true.

Lemma build_ops_final op : op_final op = true → build_ops [op].
Proof. intros H. by exists [], op. Qed.

Lemma drain_ops logs pull digest port events : build_ops (drain_events logs pull digest port events).
Proof.
  revert digest port. induction events as [|[line|d p|err] events IH]; intros digest port; simpl.
  - by apply build_ops_final.
  - destruct (IH digest port) as (l & op & -> & Hf). destruct logs; [exists (line :: l), op|exists l, op]; done.
  - apply IH.
  - by apply build_ops_final.
Qed.

Lemma drain_success logs pull dg pt events image digest port :
  OpSucceeded image digest port ∈ drain_events logs pull dg pt events →
  (∀ err, EventFailure err ∉ events) ∧
  image = (if String.eqb digest "" then ir_Full pull else pinned pull digest).
Proof.
  revert dg pt. induction events as [|[line|d p|e] events IH]; intros dg pt Hin; simpl in Hin.
  - apply list_elem_of_singleton in Hin. simplify_eq. split; [by intros err ?%elem_of_nil|done].
  - apply elem_of_app in Hin as [Hl|Hin].
    { destruct logs; [by apply list_elem_of_singleton in Hl|by apply elem_of_nil in Hl]. }
    destruct (IH _ _ Hin) as [Hn Hi]. split; [|done]. intros err [?|?]%elem_of_cons; [done|by eapply Hn].
  - destruct (IH _ _ Hin) as [Hn Hi]. split; [|done]. intros err [?|?]%elem_of_cons; [done|by eapply Hn].
  - by apply list_elem_of_singleton in Hin.
Qed.

(** A build ends: the last thing it does to its tracker, and the only thing after its log,
    is to say how it ended; it succeeds only when the client accepted it and reported no
    failure, with the image pinned to the last digest that was reported. *)
Theorem runBuild_ends logs h p :
  build_ops (runBuild logs h p) ∧
  ∀ image digest port, OpSucceeded image digest port ∈ runBuild logs h p →
    ∃ cloneDir dir events, bh_MkdirTemp h = inr cloneDir ∧
      bh_Clone h (bp_repo p) (bp_branch p) cloneDir (bp_token p) = None ∧
      resolveSourceDir (bh_fs h) cloneDir (bp_path p) = inr dir ∧
      bh_Submit h (build_request p cloneDir dir) = inr events ∧
      (∀ err, EventFailure err ∉ events) ∧
      image = (if String.eqb digest "" then ir_Full (bp_pullImageRef p) else pinned (bp_pullImageRef p) digest).
Proof.
  assert (∀ m x, x ∈ [OpFailed m] → x = OpFailed m) as Hone by (intros m x; by rewrite list_elem_of_singleton).
  unfold runBuild. destruct (bh_MkdirTemp h) as [err|dir0] eqn:Em.
  { split; [by apply build_ops_final|]. by intros ? ? ? ?%Hone. }
  destruct (bh_Clone _ _ _ _ _) eqn:Ec; [split; [by apply build_ops_final|]; by intros ? ? ? ?%Hone|].
  destruct (if _ && _ then _ else _); [split; [by apply build_ops_final|]; by intros ? ? ? ?%Hone|].
  destruct (resolveSourceDir _ _ _) as [err|dir] eqn:Er; [split; [by apply build_ops_final|]; by intros ? ? ? ?%Hone|].
  destruct (bh_Submit _ _) as [err|events] eqn:Es; [split; [by apply build_ops_final|]; by intros ? ? ? ?%Hone|].
  split; [apply drain_ops|]. intros image digest port Hin. exists dir0, dir, events. split_and!; try done.
  - by eapply drain_success.
  - by eapply drain_success.
Qed.

(** ** Effects of a reconciliation on the builds *)

Section effects.
Context {W : Type}.
Implicit Types (s : RState (W := W)).

Definition builds_same s s' : Prop := rs_builds s' = rs_builds s ∧ rs_spawned s' = rs_spawned s.
#[local] Instance builds_same_preorder : PreOrder builds_same.
Proof. split; [by intros s|]. intros s1 s2 s3 [H1 H2] [H3 H4]. split; congruence. Qed.

Definition launched (key : NamespacedName) (t : buildTracker) (b : BuildTrackerStore) : BuildTrackerStore :=
  set_ref key (new_loc b) {| bs_trackers := bs_trackers b; bs_heap := <[new_loc b := t]> (bs_heap b);
                             bs_cancelled := bs_cancelled b |}.

(** At most one build is started or the tracker of the key is forgotten. *)
Inductive builds_effect (key : NamespacedName) s s' : Prop :=
| effect_none : builds_same s s' → builds_effect key s s'
| effect_deleted :
    rs_builds s' = delete_ref key (rs_builds s) → rs_spawned s' = rs_spawned s → builds_effect key s s'
| effect_launched t p :
    bt_phase t = buildPhaseRunning → bt_has_cancel t = true → rs_builds s' = launched key t (rs_builds s) →
    rs_spawned s' = rs_spawned s ++ [{| sp_tracker := new_loc (rs_builds s); sp_key := key; sp_params := p |}] →
    builds_effect key s s'.

Definition affects (key : NamespacedName) {A} (m : E RState A) : Prop := ∀ s, builds_effect key s (m s).1.

Lemma effect_after key s1 s2 s3 : builds_same s1 s2 → builds_effect key s2 s3 → builds_effect key s1 s3.
Proof.
  intros [H1 H2] [[H3 H4]|H3 H4|t p Ht Hc H3 H4].
  - apply effect_none. split; congruence.
  - apply effect_deleted; congruence.
  - apply (effect_launched _ _ _ t p); congruence.
Qed.

Lemma effect_before key s1 s2 s3 : builds_effect key s1 s2 → builds_same s2 s3 → builds_effect key s1 s3.
Proof.
  intros [[H3 H4]|H3 H4|t p Ht Hc H3 H4] [H1 H2].
  - apply effect_none. split; congruence.
  - apply effect_deleted; congruence.
  - apply (effect_launched _ _ _ t p); congruence.
Qed.

Lemma affects_keeps {A} key (m : E RState A) : keeps builds_same m → affects key m.
Proof. intros H s. apply effect_none, H. Qed.

Lemma affects_after {A B} key (m : E RState A) (k : A → E RState B) :
  keeps builds_same m → (∀ a, affects key (k a)) → affects key (m ≫= k).
Proof.
  intros Hm Hk s. specialize (Hm s). unfold mbind, E_bind. destruct (m s) as [s1 [err|a]]; simpl in *.
  - by apply effect_none.
  - eapply effect_after; [exact Hm|apply Hk].
Qed.

Lemma affects_before {A B} key (m : E RState A) (k : A → E RState B) :
  affects key m → (∀ a, keeps builds_same (k a)) → affects key (m ≫= k).
Proof.
  intros Hm Hk s. specialize (Hm s). unfold mbind, E_bind. destruct (m s) as [s1 [err|a]]; simpl in *; [done|].
  eapply effect_before; [exact Hm|apply Hk].
Qed.

Lemma affects_if {A} key (b : bool) (m1 m2 : E RState A) : affects key m1 → affects key m2 → affects key (if b then m1 else m2).
Proof. by destruct b. Qed.

Lemma same_world {A} (m : E W A) : keeps builds_same (in_world m).
Proof. intros s. unfold in_world. by destruct (m (rs_world s)). Qed.

Lemma same_observe l : keeps builds_same (observe (W := W) l).
Proof. by intros s. Qed.

Lemma same_ret {A} (a : A) : keeps builds_same (mret a : E RState A).
Proof. by intros s. Qed.
End effects.

Section system.
Context {W : Type} {CR : KubeClient W BuildRun} {SR : KubeStatus W BuildRun} {LR : KubeListIn W BuildRun}
  {DR : KubeDelete W BuildRun} {CC : KubeClient W ConfigMap} {DC : KubeDelete W ConfigMap}
  {CS : KubeClient W Secret} {CA : KubeClient W App} {SA : KubeStatus W App}
  {KR : KubeRetry W} {KRB : KubeRetry (W * BuildRun)} {KE : KubeOnError W} {CH : ConditionHelpers} (R : MapRange).
Context (SetControllerReference : ObjectMeta → ObjectMeta → error + ObjectMeta) (now : W → Time)
  (uncached_get : NamespacedName → W → W * (error + BuildRun)) (clients : bool)
  (ResolveTag : option (W → string → string → string → error + string * bool)).

#[local] Existing Instance builds_same_preorder.
#[local] Abbreviation reconcile := (Reconcile R SetControllerReference now uncached_get clients ResolveTag).

Lemma launch_affects key t p :
  bt_phase t = buildPhaseRunning → bt_has_cancel t = true → affects key (launch (W := W) key t p).
Proof. intros Ht Hc s. by apply (effect_launched _ _ _ t p). Qed.

Lemma new_tracker_running revision marker :
  bt_phase (new_tracker revision marker) = buildPhaseRunning ∧ bt_has_cancel (new_tracker revision marker) = true.
Proof. unfold new_tracker. by case_match. Qed.

Lemma start_affects br key attempt marker : affects key (startBuildRunAttempt now clients ResolveTag br key attempt marker).
Proof.
  unfold startBuildRunAttempt. apply affects_if.
  { apply affects_after; [apply same_world|]. intros ?. apply affects_keeps, same_ret. }
  apply affects_after; [apply same_world|]. intros [err|token].
  { apply affects_after; [apply same_world|]. intros ?. apply affects_keeps, same_ret. }
  apply affects_after; [apply same_world|intros t]. cbv zeta. apply affects_after; [apply same_world|intros ?].
  apply affects_before; [apply launch_affects; apply new_tracker_running|]. intros ?. apply same_ret.
Qed.

Lemma delete_affects key : affects key (on_builds (W := W) (delete_ref key)).
Proof. intros s. by apply effect_deleted. Qed.

Lemma settle_affects br key : affects key (settle R br key).
Proof.
  unfold settle. apply affects_after; [apply same_world|intros ?].
  apply affects_before; [apply delete_affects|intros ?; apply same_world].
Qed.

(** Unless an image is adopted, nothing happens to the builds. *)
Lemma adopt_affects br key s :
  let r := adoptPushedBuildResult R SetControllerReference now ResolveTag br key s in
  builds_effect key s r.1 ∧ (r.2 = (false, None) → builds_same s r.1).
Proof.
  unfold adoptPushedBuildResult. case_match; [split; [by apply effect_none|done]|].
  pose proof (same_world (resolve_pushed ResolveTag br) s) as H1.
  destruct (in_world (resolve_pushed ResolveTag br) s) as [s1 [err|[[err|[digest []]]|]]]; cbn [fst] in H1;
    try (split; [by apply effect_none|done]).
  unfold adopt_pushed. cbv zeta.
  match goal with |- context [adopted_run _ _ _ _ ?image _ s1] =>
    assert (keeps builds_same (adopted_run SetControllerReference now br key image digest)) as H2;
      [|specialize (H2 s1); destruct (adopted_run _ _ _ _ image _ s1) as [s2 [err|br2]]] end.
  { unfold adopted_run. repeat (apply keeps_bind; [apply _|apply same_world|intros ?]). apply same_world. }
  - split; [|done]. apply effect_none. etrans; [exact H1|exact H2].
  - pose proof (settle_affects br2 key s2) as H3. unfold err_of.
    destruct (settle R br2 key s2) as [s3 [err|[]]]; (split; [|done]);
      (eapply effect_after; [etrans; [exact H1|exact H2]|exact H3]).
Qed.

Lemma exhaust_affects br key attempt : affects key (exhaust SetControllerReference now br key attempt).
Proof.
  unfold exhaust. cbv zeta. repeat (apply affects_after; [apply same_world|intros ?]).
  apply affects_before; [apply delete_affects|]. intros ?. apply same_ret.
Qed.

Lemma restart_affects br key attempt : affects key (restart SetControllerReference now clients ResolveTag br key attempt).
Proof.
  unfold restart. cbv zeta. apply affects_after; [apply keeps_if; [apply same_world|apply same_ret]|intros remaining].
  apply affects_if; [apply affects_keeps, same_ret|]. apply affects_after; [apply same_world|intros ?]. apply start_affects.
Qed.

Lemma lost_affects key : affects key (handleLostBuildRunTracker R SetControllerReference now uncached_get clients ResolveTag key).
Proof.
  intros s. unfold handleLostBuildRunTracker. pose proof (same_world (uncached_get key) s) as H1.
  destruct (in_world (uncached_get key) s) as [s1 [err|br]]; cbn [fst] in H1; [by case_match; apply effect_none|].
  destruct (isBuildRunTerminal br); [by apply effect_none|].
  destruct (BuildRunStatus_StartedAt _); [|by apply effect_none]. case_match; [by apply effect_none|].
  destruct (adopt_affects br key s1) as [H2 H3].
  destruct (adoptPushedBuildResult _ _ _ _ _ _ s1) as [s2 [[] [err|]]]; cbn [fst snd] in *;
    try by eapply effect_after.
  specialize (H3 eq_refl). assert (builds_same s s2) as Hs by by etrans.
  destruct (_ <=? _)%Z; (eapply effect_after; [exact Hs|]); [apply exhaust_affects|apply restart_affects].
Qed.

Lemma without_tracker_affects key br :
  affects key (without_tracker R SetControllerReference now uncached_get clients ResolveTag key br).
Proof. apply affects_if; [apply lost_affects|apply start_affects]. Qed.

Lemma finish_affects key br tracker : affects key (finish R SetControllerReference now ResolveTag key br tracker).
Proof.
  unfold finish. cbv zeta. repeat (apply affects_after; [apply same_world|intros ?]). destruct a1 as [image digest].
  apply affects_after; [apply same_world|intros ?]. apply affects_after; [apply same_observe|intros ?].
  apply affects_before; [apply settle_affects|]. intros ?. apply same_ret.
Qed.

(** A reconciliation touches the builds of its key only: it cancels the build of a run that
    is gone; and it starts a build, or forgets a tracker, only when there is no tracker or
    the build of the tracker has ended. *)
Lemma Reconcile_effect key s :
  let s' := (reconcile key s).1 in
  builds_same s s' ∨
  rs_builds s' = cancelAndDelete key (rs_builds s) ∧ rs_spawned s' = rs_spawned s ∨
  builds_effect key s s' ∧ ∀ t, tracker_of key (rs_builds s) = Some t → bt_phase t ≠ buildPhaseRunning.
Proof.
  unfold Reconcile. pose proof (same_world (kget (Obj := BuildRun) key) s) as H1.
  destruct (in_world (kget key) s) as [s1 [err|br]]; cbn [fst] in H1.
  { destruct (IsNotFound err); [right; left|by left]. destruct H1 as [H1 H2]. split; [|exact H2].
    change (cancelAndDelete key (rs_builds s1) = cancelAndDelete key (rs_builds s)). by rewrite H1. }
  destruct (isBuildRunTerminal br).
  { left. etrans; [exact H1|]. apply keeps_bind; [apply _|apply same_world|intros ?]. apply same_ret. }
  destruct H1 as [Hb Hs]. rewrite <-Hb. assert (builds_same s s1) as H1 by done.
  destruct (tracker_of key (rs_builds s1)) as [t|] eqn:Et.
  - destruct (String.eqb_spec (bt_phase t) buildPhaseRunning) as [Hr|Hr].
    { left. etrans; [exact H1|]. unfold follow_running. apply keeps_bind; [apply _| |intros ?; apply same_ret].
      apply keeps_if; [apply same_ret|]. apply keeps_bind; [apply _|apply same_world|intros ?]. apply same_world. }
    right. right. split; [|by intros ? [= <-]]. eapply effect_after; [exact H1|].
    case_match; [apply finish_affects|apply without_tracker_affects].
  - right. right. split; [|done]. eapply effect_after; [exact H1|]. apply without_tracker_affects.
Qed.

(** ** Steps *)

(** The controller and the goroutines of its builds: by the address of the tracker, the run
    and what the build still has to do. *)
Record system := { sys_ctl : RState (W := W); sys_live : gmap nat (NamespacedName * list tracker_op) }.

Definition with_ctl_builds (b : BuildTrackerStore) (s : RState (W := W)) : RState :=
  {| rs_world := rs_world s; rs_builds := b; rs_spawned := rs_spawned s; rs_outcomes := rs_outcomes s |}.
Definition with_ctl_world (w : W) (s : RState (W := W)) : RState :=
  {| rs_world := w; rs_builds := rs_builds s; rs_spawned := rs_spawned s; rs_outcomes := rs_outcomes s |}.

Definition no_builds : BuildTrackerStore := {| bs_trackers := ∅; bs_heap := ∅; bs_cancelled := ∅ |}.

(** The process after it has started. *)
Definition booted (w : W) : system :=
  {| sys_ctl := {| rs_world := w; rs_builds := no_builds; rs_spawned := []; rs_outcomes := [] |}; sys_live := ∅ |}.

(** The goroutines of new builds, which do what [runBuild] does on some host. *)
Definition goroutines (host : spawned → build_host) (new : list spawned)
    (live : gmap nat (NamespacedName * list tracker_op)) : gmap nat (NamespacedName * list tracker_op) :=
  foldr (λ e, <[sp_tracker e := (sp_key e, runBuild true (host e) (sp_params e))]>) live new.

Inductive step (sys : system) : system → Prop :=
| step_reconcile key host new :
    rs_spawned (reconcile key (sys_ctl sys)).1 = rs_spawned (sys_ctl sys) ++ new →
    step sys {| sys_ctl := (reconcile key (sys_ctl sys)).1; sys_live := goroutines host new (sys_live sys) |}
| step_build l key op ops :
    sys_live sys !! l = Some (key, op :: ops) →
    step sys {| sys_ctl := with_ctl_builds (on_tracker l (tracker_do op) (rs_builds (sys_ctl sys))) (sys_ctl sys);
                sys_live := <[l := (key, ops)]> (sys_live sys) |}
| step_world w : step sys {| sys_ctl := with_ctl_world w (sys_ctl sys); sys_live := sys_live sys |}
| step_restart : step sys (booted (rs_world (sys_ctl sys))).

(** What is left of a build. *)
Definition rest_of_build (ops : list tracker_op) : Prop := ops = [] ∨ build_ops ops.

Definition system_ok (sys : system) : Prop :=
  let b := rs_builds (sys_ctl sys) in
  ∀ l key ops, sys_live sys !! l = Some (key, ops) →
    rest_of_build ops ∧
    ∃ t, bs_heap b !! l = Some t ∧ bt_has_cancel t = true ∧
      (ops ≠ [] → bt_phase t = buildPhaseRunning ∧ (l ∈ bs_cancelled b ∨ get_ref key b = Some l)).

Lemma booted_ok w : system_ok (booted w).
Proof. by intros l key ops. Qed.

Lemma new_loc_fresh b : bs_heap b !! new_loc b = None.
Proof.
  destruct (bs_heap b !! new_loc b) as [t|] eqn:E; [|done]. exfalso.
  apply elem_of_map_to_list, (list_elem_of_fmap_2 fst) in E. simpl in E.
  pose proof (proj1 (list_max_le (map_to_list (bs_heap b)).*1 _) (le_n _)) as Hm.
  rewrite Forall_forall in Hm. apply Hm in E. unfold new_loc in E. lia.
Qed.

Lemma cancel_spec key b :
  let b' := cancelAndDelete key b in
  bs_heap b' = bs_heap b ∧ bs_cancelled b ⊆ bs_cancelled b' ∧ (∀ k, k ≠ key → get_ref k b' = get_ref k b) ∧
  ∀ l t, get_ref key b = Some l → bs_heap b !! l = Some t → bt_has_cancel t = true → l ∈ bs_cancelled b'.
Proof.
  unfold cancelAndDelete. destruct (get_ref key b) as [l|] eqn:Ek; [|by split_and!].
  assert (∀ k, k ≠ key → get_ref k (delete_ref key b) = get_ref k b) as Hd.
  { intros k Hk. unfold get_ref, delete_ref. simpl. by rewrite lookup_delete_ne. }
  cbn [delete_ref bs_heap]. destruct (bs_heap b !! l) as [t|] eqn:El; [destruct (bt_has_cancel t) eqn:Ec|].
  - split_and!; [done|by apply union_subseteq_r|exact Hd|]. intros l' t' [= <-] _ _. by apply elem_of_union_l, elem_of_singleton.
  - split_and!; [done|done|exact Hd|]. intros l' t' [= <-] Ht'. simplify_eq. by rewrite Ec.
  - split_and!; [done|done|exact Hd|]. intros l' t' [= <-] Ht'. simplify_eq.
Qed.

(** What the invariant needs of a change of the builds that starts none. *)
Lemma ok_builds sys sys' :
  system_ok sys → sys_live sys' = sys_live sys →
  let b := rs_builds (sys_ctl sys) in let b' := rs_builds (sys_ctl sys') in
  bs_heap b' = bs_heap b → bs_cancelled b ⊆ bs_cancelled b' →
  (∀ k l t, get_ref k b = Some l → bs_heap b !! l = Some t → bt_has_cancel t = true → bt_phase t = buildPhaseRunning →
     l ∈ bs_cancelled b' ∨ get_ref k b' = Some l) →
  system_ok sys'.
Proof.
  intros Hok Hl b b' Hh Hc Href l k ops Hlive. rewrite Hl in Hlive.
  destruct (Hok _ _ _ Hlive) as (Hr & t & Ht & Hcan & Hp). split; [done|]. exists t. fold b b'. rewrite Hh.
  split_and!; [done|done|]. intros Hne. destruct (Hp Hne) as [Hrun [Hin|Hk]]; (split; [done|]).
  - left. by apply Hc.
  - by eapply Href.
Qed.

Lemma app_self_nil {A} (l m : list A) : l = l ++ m → m = [].
Proof. intros H%(f_equal length). rewrite length_app in H. destruct m; simpl in H; [done|lia]. Qed.

Lemma reconcile_ok key host new sys :
  system_ok sys → rs_spawned (reconcile key (sys_ctl sys)).1 = rs_spawned (sys_ctl sys) ++ new →
  system_ok {| sys_ctl := (reconcile key (sys_ctl sys)).1; sys_live := goroutines host new (sys_live sys) |}.
Proof.
  intros Hok Hnew. destruct (Reconcile_effect key (sys_ctl sys)) as [[Hb Hs]|[[Hb Hs]|[He Hidle]]].
  - rewrite Hs in Hnew. apply app_self_nil in Hnew as ->.
    apply (ok_builds sys); cbn; rewrite ?Hb; auto.
  - rewrite Hs in Hnew. apply app_self_nil in Hnew as ->. destruct (cancel_spec key (rs_builds (sys_ctl sys))) as (H1 & H2 & H3 & H4).
    apply (ok_builds sys); cbn; rewrite ?Hb; auto. intros k l t Hk Ht Hc _.
    destruct (decide (k = key)) as [->|Hne]; [left; by eapply H4|right; by rewrite H3].
  - assert (∀ l t, get_ref key (rs_builds (sys_ctl sys)) = Some l → bs_heap (rs_builds (sys_ctl sys)) !! l = Some t →
      bt_phase t ≠ buildPhaseRunning) as Hno.
    { intros l t Hl Ht. apply Hidle. unfold tracker_of. by rewrite Hl. }
    destruct He as [[Hb Hs]|Hb Hs|t p Ht Hcan Hb Hs].
    + rewrite Hs in Hnew. apply app_self_nil in Hnew as ->. apply (ok_builds sys); cbn; rewrite ?Hb; auto.
    + rewrite Hs in Hnew. apply app_self_nil in Hnew as ->. apply (ok_builds sys); cbn; rewrite ?Hb; auto.
      intros k l t Hk Ht _ Hrun. right. unfold get_ref. cbn. rewrite lookup_delete_ne; [done|].
      intros <-. by eapply Hno.
    + rewrite Hs in Hnew. apply app_inv_head in Hnew as <-. intros l k ops. cbn. rewrite Hb.
      set (b := rs_builds (sys_ctl sys)) in *. rewrite lookup_insert_Some. intros [[<- [= <- <-]]|[Hne Hl]].
      * split; [right; apply runBuild_ends|]. exists t. cbn. rewrite lookup_insert_eq. split_and!; [done| |].
        -- done.
        -- intros _. split; [done|]. right. unfold get_ref. cbn. by rewrite lookup_insert_eq.
      * destruct (Hok _ _ _ Hl) as (Hr & t' & Ht' & Hc' & Hp'). split; [done|]. exists t'. cbn.
        rewrite lookup_insert_ne by done. split_and!; [done|done|]. intros Hne'. destruct (Hp' Hne') as [Hrun [?|Href]]; (split; [done|]).
        -- by left.
        -- right. unfold get_ref. cbn. rewrite lookup_insert_ne; [done|]. intros <-. by eapply Hno.
Qed.

(** One operation of a build that has not ended. *)
Lemma rest_step op ops : rest_of_build (op :: ops) → rest_of_build ops ∧ (ops ≠ [] → op_final op = false).
Proof.
  intros [?|([|line logs] & op' & Heq & Hf)]; [done| |]; simpl in Heq; simplify_eq.
  - split; [by left|done].
  - split; [right; by exists logs, op'|done].
Qed.

Lemma build_ok l key op ops sys :
  system_ok sys → sys_live sys !! l = Some (key, op :: ops) →
  system_ok {| sys_ctl := with_ctl_builds (on_tracker l (tracker_do op) (rs_builds (sys_ctl sys))) (sys_ctl sys);
               sys_live := <[l := (key, ops)]> (sys_live sys) |}.
Proof.
  intros Hok Hl l' k ops'. cbn. rewrite lookup_insert_Some. intros [[<- [= <- <-]]|[Hne Hl']].
  - destruct (Hok _ _ _ Hl) as (Hr & t & Ht & Hc & Hp). apply rest_step in Hr as [Hr Hfin].
    split; [done|]. exists (tracker_do op t). rewrite lookup_alter_eq, Ht. split_and!; [done|by destruct op|].
    intros Hne. destruct (Hp ltac:(done)) as [Hrun Href]. split; [|exact Href].
    specialize (Hfin Hne). by destruct op.
  - destruct (Hok _ _ _ Hl') as (Hr & t & Ht & Hc & Hp). split; [done|]. exists t.
    rewrite lookup_alter_ne by done. done.
Qed.

Lemma step_ok sys sys' : step sys sys' → system_ok sys → system_ok sys'.
Proof.
  intros [key host new Hnew|l key op ops Hl|w|] Hok.
  - by apply reconcile_ok.
  - by apply build_ok.
  - exact Hok.
  - apply booted_ok.
Qed.

Lemma reachable_ok w sys : rtc step (booted w) sys → system_ok sys.
Proof. apply (rtc_ind_r system_ok); [apply booted_ok|]. intros s1 s2 _ Hs Hok. by eapply step_ok. Qed.

(** A build that is neither finished nor cancelled. *)
Definition live_build (sys : system) (key : NamespacedName) (l : nat) : Prop :=
  (∃ ops, sys_live sys !! l = Some (key, ops) ∧ ops ≠ []) ∧ l ∉ bs_cancelled (rs_builds (sys_ctl sys)).

(** C4: at any time, whatever reconciliations, builds, other writers and restarts came before,
    a run has at most one build that is neither finished nor cancelled, and it is the one
    the controller follows. *)
Theorem one_live_build w sys key l :
  rtc step (booted w) sys → live_build sys key l →
  (∃ t, tracker_of key (rs_builds (sys_ctl sys)) = Some t ∧ bt_phase t = buildPhaseRunning) ∧
  ∀ l', live_build sys key l' → l' = l.
Proof.
  intros Hok%reachable_ok. assert (∀ l, live_build sys key l →
    get_ref key (rs_builds (sys_ctl sys)) = Some l ∧
    ∃ t, bs_heap (rs_builds (sys_ctl sys)) !! l = Some t ∧ bt_phase t = buildPhaseRunning) as Hlive.
  { intros l0 [(ops & Hl & Hne) Hc]. destruct (Hok _ _ _ Hl) as (_ & t & Ht & _ & Hp).
    destruct (Hp Hne) as [Hrun [?|Href]]; [done|]. split; [done|]. by exists t. }
  intros Hl. destruct (Hlive l Hl) as (Href & t & Ht & Hrun). split.
  - exists t. unfold tracker_of. rewrite Href. done.
  - intros l' Hl'. apply Hlive in Hl' as [Href' _]. congruence.
Qed.
End system.
