(* ===== verification/BuildRunEnds.v ===== *)
(** * How build runs end

    The outcome of a build is not lost: its tracker is kept until the outcome is stored.
    A run whose builds are lost again and again ends: each time the process comes back it
    gets closer to the end ([interrupted_run_ends]). *)

From S2P Require Import Prelude GoStrings GoNum Kube GoTime GoText Core Api KubeStatus Effects Controller BuildRun BuildRunFacts BuildTracker BuildRunReconcile ApiServer BuildRunFlow BuildRunSystem.

Section outcome.
Context {W : Type} {CR : KubeClient W BuildRun} {SR : KubeStatus W BuildRun} {LR : KubeListIn W BuildRun}
  {DR : KubeDelete W BuildRun} {CC : KubeClient W ConfigMap} {DC : KubeDelete W ConfigMap}
  {CS : KubeClient W Secret} {CA : KubeClient W App} {SA : KubeStatus W App}
  {KR : KubeRetry W} {KRB : KubeRetry (W * BuildRun)} {KE : KubeOnError W} {CH : ConditionHelpers} (R : MapRange).
Context (SetControllerReference : ObjectMeta → ObjectMeta → error + ObjectMeta) (now : W → Time)
  (uncached_get : NamespacedName → W → W * (error + BuildRun)) (clients : bool)
  (ResolveTag : option (W → string → string → string → error + string * bool)).
Context {OK : KubeClientOk W BuildRun} {SOK : KubeStatusOk W BuildRun} {KOK : KubeRetryOk W}
  {KBOK : KubeRetryOk (W * BuildRun)} {KEOK : KubeOnErrorOk W}.
Context (I : relation W) {M : ControllerMoves W uncached_get I}.
Context (Huncached : reader_ok uncached_get) (Hlist : ∀ ns labels w w' l, klist_in (Obj := BuildRun) ns labels w = (w', inr l) →
     ∀ br, br ∈ l → read_ok (obj_key br) br w').

#[local] Existing Instance builds_same_preorder.

(** The outcome of the build of a tracker is, or was at some time, stored with the run. *)
Definition outcome_stored (key : NamespacedName) (t : buildTracker) (w : W) : Prop :=
  ∃ w1 run, khist (Obj := BuildRun) w1 w ∧ kstore w1 !! key = Some run ∧
    if String.eqb (bt_phase t) buildPhaseSucceeded
    then run_phase run = BuildRunPhaseSucceeded ∧
         BuildRunStatus_DetectedPort (BuildRun_Status run) = bt_detectedPort t ∧
         (bt_digest t ≠ "" → BuildRunStatus_Image (BuildRun_Status run) = bt_image t ∧
            BuildRunStatus_Digest (BuildRun_Status run) = bt_digest t)
    else run_phase run = BuildRunPhaseFailed ∧ BuildRunStatus_FailureMessage (BuildRun_Status run) = bt_errMsg t.

(** A status that was written was stored. *)
Lemma update_run_status_stored key f br w w' br' :
  (∀ cur, obj_key (f cur) = obj_key cur) →
  update_run_status key f br w = (w', inr br') →
  ∃ cur run, kstore w' !! key = Some run ∧ BuildRun_Status run = BuildRun_Status (f cur).
Proof.
  intros Hkey. unfold update_run_status. rewrite retry_on_conflict_spec. set (fn := λ p : W * BuildRun, _).
  destruct (retry_loop default_retry_steps fn (w, br)) as [[w1 br1] [err|]] eqn:E; [done|]. intros [= <- <-].
  assert (PreOrder (λ _ _ : W * BuildRun, True)) by (split; done).
  apply (retry_loop_success (λ _ _, True)) in E as ([w2 b2] & _ & E); [|done].
  unfold fn in E. simpl in E. destruct (kget key w2) as [w3 [err|cur]] eqn:Eg; [done|].
  destruct (kstatus_update (f cur) w3) as [w4 [err|]] eqn:Es; simplify_eq.
  apply kget_spec in Eg as [_ Hr]. destruct (Hr _ eq_refl) as (w0 & _ & Hk). apply kstore_key in Hk.
  apply kstatus_spec in Es as [_ Hs]. destruct (Hs eq_refl) as (w5 & rv & cur' & _ & _ & _ & _ & Hst).
  rewrite Hkey, Hk in Hst. exists cur. eexists. split; [by rewrite Hst, lookup_insert_eq|]. by destruct cur'.
Qed.

Lemma same_or {A B} (m : E RState A) (k : A → E (RState (W := W)) B) (P : RState → Prop) s :
  keeps builds_same m →
  (∀ s1 a, m s = (s1, inr a) → builds_same s1 (k a s1).1 ∨ P (k a s1).1) →
  builds_same s ((m ≫= k) s).1 ∨ P ((m ≫= k) s).1.
Proof.
  intros Hm Hk. specialize (Hm s). unfold mbind, E_bind. destruct (m s) as [s1 [err|a]]; simpl in *; [by left|].
  destruct (Hk s1 a eq_refl) as [H|H]; [left; by etrans|by right].
Qed.

Lemma mark_outcome_stored now' log t image digest cur run w1 w key :
  khist (Obj := BuildRun) w1 w → kstore w1 !! key = Some run →
  BuildRun_Status run = BuildRun_Status (mark_outcome now' log (snapshot t) image digest cur) →
  (bt_digest t ≠ "" → image = bt_image t ∧ digest = bt_digest t) →
  outcome_stored key t w.
Proof.
  intros Hh Hk Hs Hd. exists w1, run. split; [done|]. split; [done|]. unfold run_phase. rewrite Hs.
  unfold mark_outcome. cbn [sn_phase snapshot]. case_match; cbn; [|done].
  split_and!; [done|done|]. intros Hne. by destruct (Hd Hne) as [-> ->].
Qed.

Lemma finish_stored key br t s :
  let s' := (finish R SetControllerReference now ResolveTag key br t s).1 in
  builds_same s s' ∨ outcome_stored key t (rs_world s').
Proof.
  unfold finish. cbv zeta. apply (same_or _ _ (λ s, outcome_stored key t (rs_world s))); [apply same_world|intros s1 log _].
  apply (same_or _ _ (λ s, outcome_stored key t (rs_world s))); [apply same_world|intros s2 t2 _].
  apply (same_or _ _ (λ s, outcome_stored key t (rs_world s))); [apply same_world|intros s3 [image digest] Hf].
  assert (bt_digest t ≠ "" → image = bt_image t ∧ digest = bt_digest t) as Hd.
  { intros Hne. unfold in_world in Hf. destruct (final_image _ _ _ _) as [w r] eqn:Ef. simplify_eq.
    unfold final_image in Ef. cbn [sn_phase sn_digest sn_image snapshot] in Ef.
    rewrite (proj2 (String.eqb_neq _ _) Hne), andb_false_r in Ef. unfold mret, E_ret in Ef. by simplify_eq. }
  apply (same_or _ _ (λ s, outcome_stored key t (rs_world s))); [apply same_world|intros s4 br2 Hu]. right.
  unfold in_world in Hu. destruct (update_run_status _ _ _ _) as [w4 r] eqn:Eu. simplify_eq.
  apply update_run_status_stored in Eu as (cur & run & Hk & Hs).
  2: { intros c. unfold mark_outcome. by case_match. }
  eapply mark_outcome_stored; [|exact Hk|exact Hs|exact Hd].
  apply (moves_hist (I := I)). set (s5 := {| rs_world := w4 |}).
  change (I (rs_world s5) (rs_world ((_ ← observe (recordBuildOutcome br2
    (if String.eqb (sn_phase (snapshot t)) buildPhaseSucceeded then "success" else "failure") t2);
    _ ← settle R br2 key; mret Done) s5).1)).
  pose proof (moves_settle R uncached_get I Huncached Hlist br2 key) as Hm. unfold mbind, E_bind, observe. simpl.
  match goal with |- context [settle R br2 key ?s] => specialize (Hm s); destruct (settle R br2 key s) as [s6 [err|[]]] end; exact Hm.
Qed.

(** C19: whatever fails in a reconciliation of a run whose build has ended, and whatever others
    do: either the controller still has the tracker, so that the next reconciliation
    can finish; or the outcome is stored with the run; or the run was not found. *)
Theorem outcome_not_lost key s t :
  tracker_of key (rs_builds s) = Some t →
  bt_phase t = buildPhaseSucceeded ∨ bt_phase t = buildPhaseFailed →
  let s' := (Reconcile R SetControllerReference now uncached_get clients ResolveTag key s).1 in
  tracker_of key (rs_builds s') = Some t ∨ outcome_stored key t (rs_world s') ∨
  ∃ err, (kget (Obj := BuildRun) key (rs_world s)).2 = inl err ∧ IsNotFound err = true.
Proof.
  intros Ht Hp. assert (∀ s', builds_same s s' → tracker_of key (rs_builds s') = Some t) as Hsame.
  { intros s' [-> _]. done. }
  unfold Reconcile. pose proof (same_world (kget (Obj := BuildRun) key) s) as H1.
  unfold in_world in *. destruct (kget key (rs_world s)) as [w [err|br]]; cbn [fst snd] in *.
  { destruct (IsNotFound err) eqn:En; [right; right; by exists err|]. left. by apply Hsame. }
  set (s1 := {| rs_world := w |}) in *. destruct (isBuildRunTerminal br).
  { left. apply Hsame. etrans; [exact H1|]. apply keeps_bind; [apply _|apply same_world|intros ?]. apply same_ret. }
  cbn [rs_builds]. change (rs_builds s1) with (rs_builds s). rewrite Ht.
  assert (String.eqb (bt_phase t) buildPhaseRunning = false) as -> by (destruct Hp as [-> | ->]; reflexivity).
  assert (String.eqb (bt_phase t) buildPhaseSucceeded || String.eqb (bt_phase t) buildPhaseFailed = true) as ->
    by (destruct Hp as [-> | ->]; reflexivity).
  destruct (finish_stored key br t s1) as [H2|H2]; [left|right; left; exact H2].
  apply Hsame. etrans; [exact H1|exact H2].
Qed.
End outcome.

(** ** Runs that lose their builds *)

Section ends.
Context {W : Type} {CR : KubeClient W BuildRun} {SR : KubeStatus W BuildRun} {LR : KubeListIn W BuildRun}
  {DR : KubeDelete W BuildRun} {CC : KubeClient W ConfigMap} {DC : KubeDelete W ConfigMap}
  {CS : KubeClient W Secret} {CA : KubeClient W App} {SA : KubeStatus W App}
  {KR : KubeRetry W} {KRB : KubeRetry (W * BuildRun)} {KE : KubeOnError W} {CH : ConditionHelpers} (R : MapRange).
Context (SetControllerReference : ObjectMeta → ObjectMeta → error + ObjectMeta)
  (uncached_get : NamespacedName → W → W * (error + BuildRun)) (clients : bool)
  (ResolveTag : option (W → string → string → string → error + string * bool)).
Context {OK : KubeClientOk W BuildRun} {SOK : KubeStatusOk W BuildRun} {OKC : KubeClientOk W ConfigMap}
  {OKS : KubeClientOk W Secret} {KOK : KubeRetryOk W} {KEOK : KubeOnErrorOk W} {CHOK : ConditionHelpersOk}.
(** Calls on one kind leave the others alone. *)
Context {RC : KubeApart W BuildRun ConfigMap} {RS : KubeApart W BuildRun Secret}
  {SC : KubeStatusWithin W BuildRun (unaffected ConfigMap)} {SS : KubeStatusWithin W BuildRun (unaffected Secret)}
  {CRn : KubeApart W ConfigMap BuildRun} {CSn : KubeApart W ConfigMap Secret}
  {SRn : KubeReads W Secret (unaffected BuildRun)} {SCn : KubeReads W Secret (unaffected ConfigMap)}
  {ARn : KubeReads W App (unaffected BuildRun)} {ASn : KubeStatusWithin W App (unaffected BuildRun)}.

(** Nobody else acts on runs, logs and tokens while a reconciliation runs. *)
Definition calm (w : W) : Prop :=
  kquiet (Obj := BuildRun) w ∧ kquiet (Obj := ConfigMap) w ∧ kquiet (Obj := Secret) w.

Definition runs (w : W) : gmap NamespacedName BuildRun := kstore w.

(** The uncached reader answers with what is stored; an owner can be set; the registry does
    not have the image. *)
Context (uncached_calm : ∀ k w, calm w → ∃ w', calm w' ∧ runs w' = runs w ∧
    match runs w !! k with
    | Some br => uncached_get k w = (w', inr br)
    | None => ∃ e, uncached_get k w = (w', inl e) ∧ IsNotFound e = true
    end)
  (owner_total : ∀ owner m, ∃ m', SetControllerReference owner m = inr m' ∧ meta_Name m' = meta_Name m ∧
     meta_Namespace m' = meta_Namespace m)
  (no_image : ∀ resolve, ResolveTag = Some resolve → ∀ w project app tag, ∃ d, resolve w project app tag = inr (d, false)).

#[local] Abbreviation reconcile_at t := (Reconcile R SetControllerReference (λ _, t) uncached_get clients ResolveTag).

Lemma write_calm w br o :
  calm w → runs w !! obj_key o = Some br → obj_rv br = obj_rv o →
  ∃ w' run', calm w' ∧ run (kstatus_update o) w = (w', inr tt) ∧ runs w' !! obj_key o = Some run' ∧
    BuildRun_Status run' = BuildRun_Status o.
Proof.
  intros (Hr & Hc & Hs) Hb Hrv. destruct (kstatus_quiet o w br Hr Hb Hrv) as (w' & rv & Hq & Hu & Hst).
  pose proof (kstatus_within (I := unaffected ConfigMap) o w) as [_ H1].
  pose proof (kstatus_within (I := unaffected Secret) o w) as [_ H2]. rewrite Hu in H1, H2. simpl in H1, H2.
  exists w', (obj_with_rv rv (status_from o br)). split; [by split_and!; auto|]. unfold run, runs. rewrite Hu.
  split; [done|]. rewrite Hst, lookup_insert_eq. by destruct br.
Qed.

Lemma configmap_calm w w' :
  calm w → kquiet (Obj := ConfigMap) w' → unaffected BuildRun w w' → unaffected Secret w w' → calm w' ∧ runs w' = runs w.
Proof. intros (Hr & Hc & Hs) Hq [H1 H2] [H3 H4]. split; [by split_and!; auto|done]. Qed.

Lemma upsert_calm cm w : calm w → ∃ w', calm w' ∧ runs w' = runs w ∧ upsertConfigMap cm w = (w', inr tt).
Proof.
  intros Hw. unfold upsertConfigMap, run. rewrite on_error_spec.
  enough (∃ w', calm w' ∧ runs w' = runs w ∧ upsert_once cm w = (w', None)) as (w' & H1 & H2 & H3).
  { exists w'. split; [done|]. split; [done|]. by rewrite (on_error_loop_once _ _ (upsert_once cm) w w' None) by done. }
  unfold upsert_once. pose proof Hw as (_ & Hc & _).
  destruct (kget_quiet (Obj := ConfigMap) (obj_key cm) w Hc) as (w1 & Hq1 & Hs1 & Hg).
  pose proof (kget_within (I := unaffected BuildRun) (Obj := ConfigMap) (obj_key cm) w) as Hb1.
  pose proof (kget_within (I := unaffected Secret) (Obj := ConfigMap) (obj_key cm) w) as Hx1.
  destruct (kstore w !! obj_key cm) as [cur|] eqn:Ek.
  - rewrite Hg in Hb1, Hx1 |- *. simpl in Hb1, Hx1.
    destruct (configmap_calm w w1) as [Hw1 Hr1]; [done|done|done|done|].
    set (new := {| cm_meta := _; cm_Data := _ |}).
    assert (obj_key new = obj_key cm) as Hk by (apply kstore_key in Ek; exact Ek).
    destruct (kupdate_quiet new w1 cur) as (w2 & rv & Hq2 & Hu & _); [by apply Hw1|by rewrite Hs1, Hk|done|].
    pose proof (kupdate_within (I := unaffected BuildRun) new w1) as Hb2.
    pose proof (kupdate_within (I := unaffected Secret) new w1) as Hx2. rewrite Hu in Hb2, Hx2.
    destruct (configmap_calm w1 w2) as [Hw2 Hr2]; [done..|]. exists w2. split; [done|]. split; [congruence|done].
  - destruct Hg as (e & Hg & Hn). rewrite Hg in Hb1, Hx1 |- *. simpl in Hb1, Hx1. rewrite Hn.
    destruct (configmap_calm w w1) as [Hw1 Hr1]; [done|done|done|done|].
    destruct (kcreate_quiet cm w1) as (w2 & rv & Hq2 & Hu & _); [by apply Hw1|by rewrite Hs1|].
    pose proof (kcreate_within (I := unaffected BuildRun) cm w1) as Hb2.
    pose proof (kcreate_within (I := unaffected Secret) cm w1) as Hx2. rewrite Hu in Hb2, Hx2.
    destruct (configmap_calm w1 w2) as [Hw2 Hr2]; [done..|]. exists w2. split; [done|]. split; [congruence|done].
Qed.

Lemma marker_calm t br marker w :
  calm w → ∃ w', calm w' ∧ runs w' = runs w ∧
    appendBuildRunLogMarker SetControllerReference (λ _, t) br marker w = (w', inr tt).
Proof.
  intros Hw. unfold appendBuildRunLogMarker. case_match; [by exists w|].
  assert (∃ w1 l, calm w1 ∧ runs w1 = runs w ∧ mergedBuildRunLogLines br [marker] w = (w1, inr l)) as
    (w1 & l & Hw1 & Hr1 & Hm).
  { unfold mergedBuildRunLogLines. set (k := (run_ns br, log_name (run_name br))).
    pose proof Hw as (_ & Hc & _).
    destruct (kget_quiet (Obj := ConfigMap) k w Hc) as (w1 & Hq1 & Hs1 & Hg).
    pose proof (kget_within (I := unaffected BuildRun) (Obj := ConfigMap) k w) as Hb1.
    pose proof (kget_within (I := unaffected Secret) (Obj := ConfigMap) k w) as Hx1.
    destruct (kstore w !! k) as [cur|].
    - rewrite Hg in Hb1, Hx1 |- *. simpl in Hb1, Hx1. destruct (configmap_calm w w1) as [??]; [done..|]. by eexists w1, _.
    - destruct Hg as (e & Hg & Hn). rewrite Hg in Hb1, Hx1 |- *. simpl in Hb1, Hx1. rewrite Hn.
      destruct (configmap_calm w w1) as [??]; [done..|]. by eexists w1, _. }
  unfold mbind, E_bind, read_clock, owned. rewrite Hm.
  match goal with |- context [SetControllerReference ?o ?m] => destruct (owner_total o m) as (m' & -> & _) end.
  match goal with |- context [upsertConfigMap ?cm w1] => destruct (upsert_calm cm w1 Hw1) as (w2 & Hw2 & Hr2 & Hu) end.
  exists w2. split; [done|]. split; [congruence|exact Hu].
Qed.

Lemma token_calm br w :
  calm w → ∃ w' r, calm w' ∧ runs w' = runs w ∧ resolveBuildRunGitToken br w = (w', inr r).
Proof.
  intros Hw. unfold resolveBuildRunGitToken. destruct (BuildRunSpec_TokenSecretRef _) as [ref|]; [|by eexists w, _].
  set (k := (SecretRef_Namespace ref, SecretRef_Name ref)). pose proof Hw as (Hr & Hc & Hs).
  destruct (kget_quiet (Obj := Secret) k w Hs) as (w1 & Hq1 & Hs1 & Hg).
  pose proof (kget_reads (I := unaffected BuildRun) (Obj := Secret) k w) as [Hb1 Hb2].
  pose proof (kget_reads (I := unaffected ConfigMap) (Obj := Secret) k w) as [Hx1 Hx2].
  assert (∀ r : error + Secret, kget k w = (w1, r) → calm w1 ∧ runs w1 = runs w) as Hcalm.
  { intros r E. rewrite E in Hb1, Hb2, Hx1, Hx2. simpl in *. split; [by split_and!; auto|done]. }
  destruct (kstore w !! k) as [sec|].
  - destruct (Hcalm _ Hg). rewrite Hg. case_match; by eexists w1, _.
  - destruct Hg as (e & Hg & Hn). destruct (Hcalm _ Hg). rewrite Hg. by eexists w1, _.
Qed.

(** ** Progress *)

Definition interrupted (br : BuildRun) : bool :=
  match FindStatusCondition (BuildRunStatus_Conditions (BuildRun_Status br)) buildRunInterruptedCondition with
  | Some c => String.eqb (Condition_Status c) "True"
  | None => false
  end.

(** How far a run is from its end: two steps for each attempt that is left, one less while
    it waits for the next one. *)
Definition rank (br : BuildRun) : nat :=
  2 * Z.to_nat (maxBuildRunInterruptionAttempts - first_attempt br) + (if interrupted br then 0 else 1).

(** The run is without its build for long enough, and the waiting time it is told is over. *)
Definition due (t : Time) (br : BuildRun) : Prop :=
  (∃ started, BuildRunStatus_StartedAt (BuildRun_Status br) = Some started ∧
     (buildRunTrackerLossGrace ≤ t - started)%Z) ∧
  ∀ c, FindStatusCondition (BuildRunStatus_Conditions (BuildRun_Status br)) buildRunInterruptedCondition = Some c →
    Condition_Status c = "True" →
    (buildRunInterruptionBackoff (first_attempt br) ≤ t - Condition_LastTransitionTime c)%Z.

(** A started attempt is on record. *)
Definition attempted (br : BuildRun) : Prop :=
  run_phase br = BuildRunPhaseRunning ∧ is_Some (BuildRunStatus_StartedAt (BuildRun_Status br)).

(** Closer to the end than [br]. *)
Definition closer (br br' : BuildRun) : Prop := attempted br' ∧ rank br' < rank br.

(** The run in the world after a step of the controller: it has failed, or it is closer to
    its end. *)
Definition leads_closer (key : NamespacedName) (br : BuildRun) {A} (r : RState (W := W) * A) : Prop :=
  ∃ br', runs (rs_world r.1) !! key = Some br' ∧
    (run_phase br' = BuildRunPhaseFailed ∨ calm (rs_world r.1) ∧ closer br br').

Lemma closer_status br b1 b2 : BuildRun_Status b2 = BuildRun_Status b1 → closer br b1 → closer br b2.
Proof. unfold closer, attempted, run_phase, rank, interrupted, first_attempt. intros ->. done. Qed.

(** A run whose attempt is on record is due at some time. *)
Lemma due_some br : attempted br → ∃ t, due t br.
Proof.
  intros [_ [started Hs]].
  set (c := FindStatusCondition (BuildRunStatus_Conditions (BuildRun_Status br)) buildRunInterruptedCondition).
  exists (Z.max (started + buildRunTrackerLossGrace)
    (match c with Some c => Condition_LastTransitionTime c + buildRunInterruptionBackoff (first_attempt br) | None => 0 end)).
  split; [exists started; split; [done|lia]|]. intros c' Hc _. unfold c. rewrite Hc. lia.
Qed.

Lemma interrupted_closer t br :
  attempted br → interrupted br = false → closer br (mark_interrupted t br).
Proof.
  intros Hp Hi. split; [exact Hp|]. unfold rank. rewrite Hi.
  assert (interrupted (mark_interrupted t br) = true) as ->; [|unfold first_attempt; simpl; lia].
  destruct (find_set (interrupted_condition t br) (BuildRunStatus_Conditions (BuildRun_Status br))) as (t' & H & _).
  unfold interrupted. change (BuildRunStatus_Conditions (BuildRun_Status (mark_interrupted t br))) with
    (SetStatusCondition (interrupted_condition t br) (BuildRunStatus_Conditions (BuildRun_Status br))).
  change (Condition_Type (interrupted_condition t br)) with buildRunInterruptedCondition in H. by rewrite H.
Qed.

Lemma started_closer t br attempt :
  (first_attempt br < maxBuildRunInterruptionAttempts)%Z → attempt = (first_attempt br + 1)%Z →
  closer br (mark_started t attempt br).
Proof.
  intros Ha ->. split.
  { unfold attempted, run_phase, mark_started, set_started. simpl. by case_match. }
  assert (1 ≤ first_attempt br)%Z as H1.
  { unfold first_attempt. destruct (Z.ltb_spec (BuildRunStatus_Attempt (BuildRun_Status br)) 1); lia. }
  assert (∀ n s, BuildRunStatus_Attempt (set_started n s) = BuildRunStatus_Attempt s) as Hset.
  { intros n s. unfold set_started. by case_match. }
  assert (first_attempt (mark_started t (first_attempt br + 1) br) = first_attempt br + 1)%Z as Hf.
  { unfold first_attempt at 1. simpl. rewrite Hset. simpl. by rewrite (proj2 (Z.ltb_ge _ _)) by lia. }
  unfold rank. rewrite Hf. unfold maxBuildRunInterruptionAttempts in *.
  destruct (interrupted br), (interrupted (mark_started _ _ _)); lia.
Qed.

(** *** Handlers in a calm world *)

(** The run [br] is the stored one. *)
Definition current (key : NamespacedName) (br : BuildRun) (w : W) : Prop :=
  calm w ∧ runs w !! key = Some br ∧ obj_key br = key.

Lemma current_moved key br w w' : current key br w → calm w' → runs w' = runs w → current key br w'.
Proof. intros (Hw & Hr & Hk) Hw' Hr'. split_and!; [done|by rewrite Hr'|done]. Qed.

(** A call that succeeds and is followed by another one. *)
Lemma in_world_then {A B} (m : E W A) (k : A → E (RState (W := W)) B) s w a :
  m (rs_world s) = (w, inr a) → (in_world m ≫= k) s = k a (with_ctl_world w s).
Proof. intros H. unfold mbind, E_bind, in_world. by rewrite H. Qed.

Lemma fail_closer t key br attempt reason message s {B} (k : BuildRun → E RState B) :
  current key br (rs_world s) →
  (∀ b, keeps (λ s s' : RState, unaffected BuildRun (rs_world s) (rs_world s')) (k b)) →
  leads_closer key br ((in_world (failBuildRun (λ _, t) br attempt reason message) ≫= k) s).
Proof.
  intros (Hw & Hr & Hk) Hkeep. pose proof (write_calm (rs_world s) br (mark_failed t attempt reason message br)) as Hwr.
  destruct Hwr as (w' & run' & Hw' & Hu & Hst & Hs); [done|by change (runs (rs_world s) !! obj_key br = Some br); rewrite Hk|done|].
  rewrite (in_world_then _ _ _ w' (mark_failed t attempt reason message br)).
  2: { unfold failBuildRun, mbind, E_bind, read_clock. by rewrite Hu. }
  destruct (Hkeep (mark_failed t attempt reason message br) (with_ctl_world w' s)) as [Hsame _].
  exists run'. unfold runs in *. rewrite Hsame. change (obj_key (mark_failed t attempt reason message br)) with (obj_key br) in Hst.
  rewrite Hk in Hst. split; [exact Hst|]. left.
  unfold run_phase. by rewrite Hs.
Qed.

Lemma start_closer t key br attempt marker s :
  current key br (rs_world s) → (first_attempt br < maxBuildRunInterruptionAttempts)%Z →
  attempt = (first_attempt br + 1)%Z →
  leads_closer key br (startBuildRunAttempt (λ _, t) clients ResolveTag br key attempt marker s).
Proof.
  intros Hcur Ha Hat. unfold startBuildRunAttempt. case_match; [by apply fail_closer|].
  destruct (token_calm br (rs_world s) (proj1 Hcur)) as (w1 & r & Hw1 & Hr1 & Ht).
  rewrite (in_world_then _ _ _ w1 r Ht). assert (current key br w1) as Hcur1 by by eapply current_moved.
  destruct r as [err|token]; [by apply fail_closer|].
  rewrite (in_world_then _ _ _ w1 t) by done. destruct Hcur1 as (_ & Hb & Hk). cbv zeta.
  destruct (write_calm w1 br (mark_started t attempt br)) as (w2 & run' & Hw2 & Hu & Hst & Hs);
    [done|by change (runs w1 !! obj_key br = Some br); rewrite Hk|done|].
  rewrite (in_world_then _ _ _ w2 tt) by done.
  exists run'. change (obj_key (mark_started t attempt br)) with (obj_key br) in Hst. rewrite Hk in Hst.
  split; [exact Hst|]. right. split; [exact Hw2|]. eapply closer_status; [exact Hs|]. by apply started_closer.
Qed.

Lemma restart_closer t key br s :
  current key br (rs_world s) → attempted br → due t br →
  (first_attempt br < maxBuildRunInterruptionAttempts)%Z →
  leads_closer key br (restart SetControllerReference (λ _, t) clients ResolveTag br key (first_attempt br) s).
Proof.
  intros Hcur Hp [_ Hdue] Ha. unfold restart.
  assert (∀ s, current key br (rs_world s) → leads_closer key br
    ((if (0 <? 0)%Z then mret {| RequeueAfter := 0 |}
      else _ ← in_world (appendBuildRunLogMarker SetControllerReference (λ _, t) br
                  ("[recovery] build tracker lost; restarting attempt " +:+ itoa (first_attempt br + 1)));
           startBuildRunAttempt (λ _, t) clients ResolveTag br key (first_attempt br + 1)
             ("[recovery] build tracker lost; restarting attempt " +:+ itoa (first_attempt br + 1))) s)) as Hgo.
  { intros s0 Hc0. cbn [Z.ltb Z.compare].
    match goal with |- context [appendBuildRunLogMarker _ _ br ?m] =>
      destruct (marker_calm t br m (rs_world s0) (proj1 Hc0)) as (w1 & Hw1 & Hr1 & Hm) end.
    rewrite (in_world_then _ _ _ w1 tt Hm). apply start_closer; [by eapply current_moved|done|done]. }
  destruct (Z.ltb_spec 0 (buildRunInterruptionBackoff (first_attempt br))) as [Hd|Hd]; [|by apply Hgo].
  destruct (interrupted br) eqn:Ei.
  - rewrite (in_world_then _ _ _ (rs_world s) 0%Z); [apply Hgo; by destruct s|].
    unfold awaitInterruptionBackoff, interrupted in *. unfold mbind, E_bind, read_clock.
    destruct (FindStatusCondition _ _) as [c|] eqn:Ec; [|done]. rewrite Ei. cbn [negb].
    apply String.eqb_eq in Ei. specialize (Hdue c eq_refl Ei). cbv zeta.
    by rewrite (proj2 (Z.ltb_ge _ _)) by lia.
  - destruct Hcur as (Hw & Hr & Hk).
    destruct (write_calm (rs_world s) br (mark_interrupted t br)) as (w' & run' & Hw' & Hu & Hst & Hs);
      [done|by change (runs (rs_world s) !! obj_key br = Some br); rewrite Hk|done|].
    rewrite (in_world_then _ _ _ w' (buildRunInterruptionBackoff (first_attempt br))).
    + rewrite (proj2 (Z.ltb_lt _ _)) by done. exists run'.
      change (obj_key (mark_interrupted t br)) with (obj_key br) in Hst. rewrite Hk in Hst. split; [exact Hst|].
      right. split; [exact Hw'|]. eapply closer_status; [exact Hs|]. by apply interrupted_closer.
    + unfold awaitInterruptionBackoff, interrupted in *. unfold mbind, E_bind, read_clock.
      destruct (FindStatusCondition _ _) as [c|] eqn:Ec; [rewrite Ei; cbn [negb]|]; by rewrite Hu.
Qed.

Lemma project_frame br : keeps (unaffected BuildRun (W := W)) (projectTerminalBuildRunStatus br).
Proof.
  unfold projectTerminalBuildRunStatus. case_match; [|apply keeps_ret; apply _].
  apply keeps_run. intros w. rewrite retry_on_conflict_spec. refine (keeps_retry (unaffected BuildRun) _ _ _ w). intros w1.
  set (k := (run_ns br, _)). pose proof (kget_reads (I := unaffected BuildRun) (Obj := App) k w1) as H1.
  destruct (kget k w1) as [w2 [err|app]]; simpl in *; [by destruct (IsNotFound err)|].
  etrans; [exact H1|apply kstatus_within].
Qed.

Lemma exhaust_closer t key br attempt s :
  current key br (rs_world s) → leads_closer key br (exhaust SetControllerReference (λ _, t) br key attempt s).
Proof.
  intros Hcur. unfold exhaust. cbv zeta.
  match goal with |- context [appendBuildRunLogMarker _ _ br ?m] =>
    destruct (marker_calm t br m (rs_world s) (proj1 Hcur)) as (w1 & Hw1 & Hr1 & Hm) end.
  rewrite (in_world_then _ _ _ w1 tt Hm). apply fail_closer; [by eapply current_moved|]. intros b s0.
  pose proof (project_frame b (rs_world s0)) as Hp. unfold mbind, E_bind, in_world.
  by destruct (projectTerminalBuildRunStatus b (rs_world s0)) as [w2 [err|[]]].
Qed.

Lemma adopt_none br key t s : adoptPushedBuildResult R SetControllerReference (λ _, t) ResolveTag br key s = (s, (false, None)).
Proof.
  unfold adoptPushedBuildResult. cbv zeta. destruct (BuildRunSpec_NoCache _ || _); [done|]. unfold in_world, resolve_pushed.
  cbv zeta.
  destruct ResolveTag as [resolve|] eqn:Er; [|by destruct s]. destruct (_ || _); [by destruct s|].
  match goal with |- context [resolve ?w ?a ?b ?c] => destruct (no_image resolve eq_refl w a b c) as [d ->] end.
  by destruct s.
Qed.

(** A reconciliation of a run that has lost its build, at a time when something is due:
    the run fails or is closer to its end. *)
Lemma lost_closer t key br s :
  calm (rs_world s) → runs (rs_world s) !! key = Some br → attempted br → due t br →
  tracker_of key (rs_builds s) = None → leads_closer key br (reconcile_at t key s).
Proof.
  intros Hw Hr Hatt Hdue Ht. pose proof (proj1 Hatt) as Hp. pose proof Hw as (Hq & _ & _).
  assert (obj_key br = key) as Hk by by eapply kstore_key.
  assert (isBuildRunTerminal br = false) as Hterm.
  { unfold isBuildRunTerminal. by rewrite Hp. }
  destruct (kget_quiet (Obj := BuildRun) key (rs_world s) Hq) as (w1 & Hq1 & Hs1 & Hg).
  change (kstore (rs_world s) !! key) with (runs (rs_world s) !! key) in Hg. rewrite Hr in Hg.
  assert (calm w1 ∧ runs w1 = runs (rs_world s)) as [Hw1 Hr1].
  { split; [|exact Hs1]. destruct Hw as (_ & Hc & Hx).
    pose proof (kget_within (I := unaffected ConfigMap) (Obj := BuildRun) key (rs_world s)) as [_ H1].
    pose proof (kget_within (I := unaffected Secret) (Obj := BuildRun) key (rs_world s)) as [_ H2].
    rewrite Hg in H1, H2. split_and!; auto. }
  unfold Reconcile, in_world. rewrite Hg, Hterm. cbn [rs_builds]. rewrite Ht. unfold without_tracker. rewrite Hp, String.eqb_refl.
  unfold handleLostBuildRunTracker, in_world. cbn [rs_world].
  destruct (uncached_calm key w1 Hw1) as (w2 & Hw2 & Hr2 & Hu). rewrite Hr1, Hr in Hu. rewrite Hu, Hterm.
  destruct Hdue as [(started & Hst & Hgrace) Hwait]. rewrite Hst.
  rewrite (proj2 (Z.ltb_ge _ _) Hgrace), adopt_none.
  set (s2 := {| rs_world := w2 |}). assert (current key br (rs_world s2)) as Hcur.
  { split_and!; [done| |done]. change (runs w2 !! key = Some br). congruence. }
  destruct (Z.leb_spec maxBuildRunInterruptionAttempts (first_attempt br)).
  - by apply exhaust_closer.
  - apply restart_closer; [done|done| |done]. split; [by exists started|exact Hwait].
Qed.

(** ** Termination *)

(** The process comes back without its builds and reconciles the run at time [t]. *)
Definition lost_round (key : NamespacedName) (t : Time) (w : W) : W :=
  rs_world (reconcile_at t key (sys_ctl (booted w))).1.

(** The build of the run is lost again and again, and the run has failed after at most [n]
    rounds: it has failed already, or an attempt is on record, it becomes due, and at
    whatever time it is reconciled then, it has failed after at most one round less. *)
Inductive fails_within (key : NamespacedName) : nat → W → Prop :=
| has_failed n w br : runs w !! key = Some br → run_phase br = BuildRunPhaseFailed → fails_within key n w
| lost_again n w br :
    runs w !! key = Some br → run_phase br = BuildRunPhaseRunning → (∃ t, due t br) →
    (∀ t, due t br → fails_within key n (lost_round key t w)) → fails_within key (S n) w.

Lemma rank_fails key n w br :
  calm w → runs w !! key = Some br → attempted br → rank br < n → fails_within key n w.
Proof.
  revert w br. induction n as [|n IH]; intros w br Hw Hr Ha Hn; [lia|].
  eapply lost_again; [exact Hr|apply Ha|by apply due_some|]. intros t Hdue.
  destruct (lost_closer t key br (sys_ctl (booted w)) Hw Hr Ha Hdue eq_refl) as (br1 & Hb1 & [Hend|(Hw1 & Ha1 & Hlt)]).
  - by eapply has_failed.
  - eapply IH; [exact Hw1|exact Hb1|exact Ha1|lia].
Qed.

Lemma rank_bound br : rank br < 10.
Proof.
  assert (1 ≤ first_attempt br)%Z.
  { unfold first_attempt. destruct (Z.ltb_spec (BuildRunStatus_Attempt (BuildRun_Status br)) 1); lia. }
  unfold rank, maxBuildRunInterruptionAttempts. destruct (interrupted br); lia.
Qed.

(** C6: a run whose build is lost every time ends. As long as it has not failed it is
    running with its attempt on record, becomes due, and after at most ten rounds at due
    times, whatever the attempt and the conditions they begin with, it has failed. *)
Theorem interrupted_run_ends key w br :
  calm w → runs w !! key = Some br → run_phase br = BuildRunPhaseRunning →
  is_Some (BuildRunStatus_StartedAt (BuildRun_Status br)) →
  fails_within key 10 w.
Proof. intros Hw Hr Hp Hs. eapply rank_fails; [done|exact Hr|by split|apply rank_bound]. Qed.
End ends.

(** * The history of build runs

    Which runs the controller keeps: everything that is not finished or that the app refers
    to, and the ten latest of the others. *)

(** A run that may be retired. *)
Definition retirable (protected : gset string) (run : BuildRun) : bool :=
  isBuildRunTerminal run && negb (bool_decide (run_name run ∈ protected)).

(** A run is retired when it may be and ten such runs are before it. *)
Lemma retired_iff protected kept l run :
  run ∈ retired protected kept l ↔
  ∃ l1 l2, l = l1 ++ run :: l2 ∧ retirable protected run = true ∧
    buildRunHistoryLimit ≤ kept + length (List.filter (retirable protected) l1).
Proof.
  revert kept. induction l as [|x l IH]; intros kept.
  { split; [by intros ?%elem_of_nil|]. intros (l1 & l2 & H & _). by destruct l1. }
  assert (∀ k, (∃ l1 l2, x :: l = l1 ++ run :: l2 ∧ retirable protected run = true ∧
      buildRunHistoryLimit ≤ k + length (List.filter (retirable protected) l1)) ↔
    (x = run ∧ retirable protected run = true ∧ buildRunHistoryLimit ≤ k) ∨
    ∃ l1 l2, l = l1 ++ run :: l2 ∧ retirable protected run = true ∧
      buildRunHistoryLimit ≤ k + (if retirable protected x then 1 else 0) + length (List.filter (retirable protected) l1))
    as Hsplit.
  { intros k. split.
    - intros ([|y l1] & l2 & Heq & Hr & Hn); simpl in Heq; injection Heq as -> ->;
        [left; simpl in Hn; split_and!; [done|done|lia]|right].
      exists l1, l2. split_and!; [done|done|]. simpl in Hn. destruct (retirable protected y); simpl in *; lia.
    - intros [(-> & Hr & Hn)|(l1 & l2 & -> & Hr & Hn)]; [exists [], l; split_and!; [done|done|simpl; lia]|].
      exists (x :: l1), l2. split_and!; [done|done|]. simpl. destruct (retirable protected x); simpl in *; lia. }
  rewrite Hsplit. cbn [retired].
  assert (negb (isBuildRunTerminal x) || bool_decide (run_name x ∈ protected) = negb (retirable protected x)) as ->.
  { unfold retirable. by rewrite negb_andb, negb_involutive. }
  destruct (retirable protected x) eqn:Ex; cbn [negb].
  - destruct (Nat.ltb_spec kept buildRunHistoryLimit) as [Hlt|Hge].
    + rewrite IH. replace (kept + 1) with (S kept) by lia. split; [by right|]. intros [(-> & _ & ?)|?]; [lia|done].
    + rewrite elem_of_cons, IH. split.
      * intros [->|(l1 & l2 & Heq & Hr & Hn)]; [by left|right]. exists l1, l2. split_and!; [done|done|lia].
      * intros [(-> & _)|(l1 & l2 & Heq & Hr & Hn)]; [by left|right]. exists l1, l2. split_and!; [done|done|lia].
  - rewrite IH, Nat.add_0_r. split; [by right|]. intros [(-> & ? & _)|?]; [congruence|done].
Qed.

Section history.
Context {W : Type} {CR : KubeClient W BuildRun} {LR : KubeListIn W BuildRun} {DR : KubeDelete W BuildRun}
  {CC : KubeClient W ConfigMap} {DC : KubeDelete W ConfigMap} {CA : KubeClient W App} (R : MapRange).
Context {OK : KubeClientOk W BuildRun} {LOK : KubeListOk W BuildRun} {DOK : KubeDeleteOk W BuildRun}
  {OKC : KubeClientOk W ConfigMap} {DOKC : KubeDeleteOk W ConfigMap} {OKA : KubeClientOk W App}.
(** Deleting logs and reading apps leave runs alone, and deleting and listing runs leaves
    logs and apps alone. *)
Context (delete_log_apart : ∀ k w, unaffected BuildRun w (kdelete ConfigMap k w).1)
  (delete_run_apart : ∀ k w, unaffected ConfigMap w (kdelete BuildRun k w).1)
  (list_apart : ∀ ns l w, unaffected ConfigMap w (klist_in (Obj := BuildRun) ns l w).1 ∧
     unaffected App w (klist_in (Obj := BuildRun) ns l w).1)
  {ARn : KubeReads W App (unaffected BuildRun)} {ACn : KubeReads W App (unaffected ConfigMap)}.

Definition still (w : W) : Prop := kquiet (Obj := BuildRun) w ∧ kquiet (Obj := ConfigMap) w.

Lemma ignore_log k w : still w → ∃ w', still w' ∧ kstore (Obj := BuildRun) w' = kstore w ∧
  ignore_missing (kdelete ConfigMap k) w = (w', inr tt).
Proof.
  intros [Hr Hc]. destruct (kdelete_quiet (Obj := ConfigMap) k w Hc) as (w' & Hq & _ & Hd).
  pose proof (delete_log_apart k w) as [H1 H2]. unfold ignore_missing.
  destruct (kstore w !! k); [|destruct Hd as (e & Hd & Hn)]; rewrite Hd in *; simpl in *;
    exists w'; (split; [split; auto|]; split; [done|]); by rewrite ?Hn.
Qed.

Lemma ignore_run k w : still w → ∃ w', still w' ∧ kstore (Obj := BuildRun) w' = delete k (kstore w) ∧
  ignore_missing (kdelete BuildRun k) w = (w', inr tt).
Proof.
  intros [Hr Hc]. destruct (kdelete_quiet (Obj := BuildRun) k w Hr) as (w' & Hq & Hs & Hd).
  pose proof (delete_run_apart k w) as [H1 H2]. unfold ignore_missing.
  destruct (kstore w !! k); [|destruct Hd as (e & Hd & Hn)]; rewrite Hd in *; simpl in *;
    exists w'; (split; [split; auto|]; split; [done|]); by rewrite ?Hn.
Qed.

Lemma for_each_logs {A} (f : A → NamespacedName) l w :
  still w → ∃ w', still w' ∧ kstore (Obj := BuildRun) w' = kstore w ∧
    for_each (λ x, ignore_missing (kdelete ConfigMap (f x))) l w = (w', inr tt).
Proof.
  revert w. induction l as [|x l IH]; intros w Hw; [by exists w|].
  destruct (ignore_log (f x) w Hw) as (w1 & Hw1 & Hs1 & Hd). destruct (IH w1 Hw1) as (w2 & Hw2 & Hs2 & Hf).
  exists w2. split; [done|]. split; [congruence|]. simpl. unfold mbind, E_bind. by rewrite Hd.
Qed.

Lemma retire_one x w :
  still w → ∃ w', still w' ∧ kstore (Obj := BuildRun) w' = delete (obj_key x) (kstore w) ∧
    deleteRetiredBuildRun R x w = (w', inr tt).
Proof.
  intros Hw. destruct (for_each_logs (λ name, (run_ns x, name)) (run_log_names R x) w Hw) as (w1 & Hw1 & Hs1 & Hf).
  destruct (ignore_run (obj_key x) w1 Hw1) as (w2 & Hw2 & Hs2 & Hd). exists w2. split; [done|].
  split; [by rewrite Hs2, Hs1|]. unfold deleteRetiredBuildRun, mbind, E_bind. by rewrite Hf, Hd.
Qed.

Lemma retire_all l w :
  still w → ∃ w', still w' ∧ kstore (Obj := BuildRun) w' = foldr delete (kstore w) (rev (obj_key <$> l)) ∧
    for_each (deleteRetiredBuildRun R) l w = (w', inr tt).
Proof.
  revert w. induction l as [|x l IH]; intros w Hw; [by exists w|].
  destruct (retire_one x w Hw) as (w1 & Hw1 & Hs1 & Hd). destruct (IH w1 Hw1) as (w2 & Hw2 & Hs2 & Hr).
  exists w2. split; [done|]. split.
  - rewrite Hs2, Hs1. cbn [fmap list_fmap rev]. by rewrite foldr_app.
  - cbn [for_each]. unfold mbind, E_bind. by rewrite Hd.
Qed.

Lemma elem_of_rev' {A} (l : list A) x : x ∈ rev l ↔ x ∈ l.
Proof. rewrite !list_elem_of_In. symmetry. apply in_rev. Qed.

Lemma foldr_delete_lookup {A} (m : gmap NamespacedName A) ks k :
  foldr delete m ks !! k = if decide (k ∈ ks) then None else m !! k.
Proof.
  induction ks as [|x ks IH]; simpl; [done|]. destruct (decide (k = x)) as [->|Hne].
  - rewrite lookup_delete_eq. by rewrite decide_True by (by left).
  - rewrite lookup_delete_ne, IH by done. by destruct (decide (k ∈ ks)), (decide (k ∈ x :: ks)); set_solver.
Qed.

(** The runs of the environment of a run. *)
Definition history_of (br : BuildRun) (w : W) (l : list BuildRun) : Prop :=
  NoDup (obj_key <$> l) ∧
  ∀ o, o ∈ l ↔ selected (run_ns br) (run_selector br) o = true ∧ kstore w !! obj_key o = Some o.

(** What the app refers to, nothing if there is no app. *)
Definition protected_by (br : BuildRun) (w : W) : gset string :=
  match kstore w !! (run_ns br, BuildRunTargetRef_Name (BuildRunSpec_TargetRef (BuildRun_Spec br))) with
  | Some app => referenced_runs app
  | None => ∅
  end.

(** A run that may be retired, with ten such runs before it. *)
Definition outdated (protected : gset string) (l : list BuildRun) (run : BuildRun) : Prop :=
  ∃ l1 l2, l = l1 ++ run :: l2 ∧ retirable protected run = true ∧
    buildRunHistoryLimit ≤ length (List.filter (retirable protected) l1).

(** Without other writers: of the runs of the environment, in the order of retention, those
    are deleted that are finished, that the app does not refer to, and that have ten such
    runs before them; everything else is as it was. *)
Theorem gc_spec br w :
  still w → kquiet (Obj := App) w →
  BuildRunTargetRef_Kind (BuildRunSpec_TargetRef (BuildRun_Spec br)) = BuildRunTargetAppEnvironment →
  BuildRunTargetRef_Name (BuildRunSpec_TargetRef (BuildRun_Spec br)) ≠ "" →
  BuildRunSpec_Environment (BuildRun_Spec br) ≠ "" →
  ∃ w' l, gcBuildRunHistory R br w = (w', inr tt) ∧ history_of br w l ∧
    ∀ k run, kstore (Obj := BuildRun) w !! k = Some run →
      (kstore (Obj := BuildRun) w' !! k = None ↔ outdated (protected_by br w) (merge_sort retained_before l) run) ∧
      (kstore (Obj := BuildRun) w' !! k = None ∨ kstore w' !! k = Some run).
Proof.
  intros Hw Ha Hkind Hname Henv. pose proof Hw as [Hr Hc].
  destruct (klist_quiet (run_ns br) (run_selector br) w Hr) as (w1 & l & Hq1 & Hs1 & Hl & Hnd & Hel).
  pose proof (list_apart (run_ns br) (run_selector br) w) as [[Hc1 Hc2] [Ha1 Ha2]]. rewrite Hl in Hc1, Hc2, Ha1, Ha2. simpl in *.
  assert (∃ w2, still w2 ∧ kstore (Obj := BuildRun) w2 = kstore w ∧
    protectedBuildRunNames br w1 = (w2, inr (protected_by br w))) as (w2 & Hw2 & Hs2 & Hp).
  { unfold protectedBuildRunNames, protected_by. rewrite (proj2 (String.eqb_neq _ _) Hname).
    set (k := (run_ns br, _)). destruct (kget_quiet (Obj := App) k w1 (Ha2 Ha)) as (w2 & _ & _ & Hg).
    pose proof (kget_reads (I := unaffected BuildRun) (Obj := App) k w1) as [Hb1 Hb2].
    pose proof (kget_reads (I := unaffected ConfigMap) (Obj := App) k w1) as [Hx1 Hx2]. rewrite Ha1 in Hg.
    exists w2. destruct (kstore w !! k) as [app|]; [|destruct Hg as (e & Hg & Hn)]; rewrite Hg in *; simpl in *; rewrite ?Hn;
      (split; [split; auto|]); split; congruence || done. }
  destruct (retire_all (retired (protected_by br w) 0 (merge_sort retained_before l)) w2 Hw2) as (w3 & _ & Hs3 & Hd).
  exists w3, l. split; [|split; [by split|]].
  { unfold gcBuildRunHistory. rewrite Hkind, (proj2 (String.eqb_neq _ _) Hname), (proj2 (String.eqb_neq _ _) Henv).
    rewrite String.eqb_refl. unfold mbind, E_bind. cbn [negb orb]. rewrite Hl, Hp. exact Hd. }
  intros k run Hk. assert (obj_key run = k) as Hkey by by eapply kstore_key.
  assert (k ∈ rev (obj_key <$> retired (protected_by br w) 0 (merge_sort retained_before l)) ↔
    outdated (protected_by br w) (merge_sort retained_before l) run) as Hiff.
  { rewrite elem_of_rev', list_elem_of_fmap. split.
    - intros (x & Hx1 & Hx2). apply retired_iff in Hx2 as Ho. destruct Ho as (l1 & l2 & Heq & Ho).
      assert (x ∈ l) as Hin by (rewrite <-(merge_sort_Permutation retained_before l), Heq; set_solver).
      apply Hel in Hin as [_ Hin]. rewrite <-Hx1, Hk in Hin. simplify_eq. exists l1, l2. done.
    - intros (l1 & l2 & Heq & Ho). exists run. split; [done|]. apply retired_iff. by exists l1, l2. }
  rewrite Hs3, foldr_delete_lookup, Hs2, Hk. case_decide as Hin; [|split; [split; [done|]|by right]].
  - split; [|by left]. split; [by intros _; apply Hiff|done].
  - intros Ho. by apply Hiff in Ho.
Qed.
End history.
