(* ===== verification/Cluster.v ===== *)
(** * A cluster of several kinds

    The concrete server of [Kube] holds one kind of object.  A [cluster] has one per kind
    the REST handlers touch.  The client interfaces and their laws are lifted through the
    part of the world that holds the kind, and operations on one kind leave the others
    alone ([lifted_apart]).  The handlers are evaluated on clusters. *)

From S2P Require Import Prelude GoStrings Kube Core Api KubeStatus Effects BuildRun ApiServer.

(** ** Lifting to a world *)

Section lifting.
Context {W V Obj : Type} (P : Part W V) {POK : PartOk W V}.
Context {O : KubeObject Obj} (C : KubeClient V Obj) (OK : KubeClientOk V Obj).

Definition lifted_client : KubeClient W Obj :=
  {| kget k := over (kget k); kcreate o := over (kcreate o); kupdate o := over (kupdate o) |}.

Lemma over_eq {A} (f : V → V * A) w w' a :
  over f w = (w', a) → f (part w) = (part w', a) ∧ w' = set_part (part w') w.
Proof.
  unfold over. destruct (f (part w)) as [v b]. intros [= <- <-]. by rewrite part_set.
Qed.

Lemma over_run {A} (f : V → V * A) w v a : f (part w) = (v, a) → over f w = (set_part v w, a).
Proof. unfold over. by intros ->. Qed.

#[local] Existing Instance lifted_client.

Program Definition lifted_ok : KubeClientOk W Obj :=
  {| kstore w := kstore (part w); khist w w' := khist (part w) (part w'); kquiet w := kquiet (part w) |}.
Next Obligation.
  split; [by intros w; apply (reflexivity (R := khist))|].
  intros w1 w2 w3 H1 H2. by apply (transitivity (R := khist) H1).
Qed.
Next Obligation. intros w k o. apply kstore_key. Qed.
Next Obligation. intros w1 w2 k o1 o2 H H1 H2. by apply (krv_unique _ _ _ _ _ H H1 H2). Qed.
Next Obligation.
  intros k w w' r [Hg _]%over_eq. destruct (kget_spec _ _ _ _ Hg) as [Hh Ho].
  split; [done|]. intros o Hr. destruct (Ho o Hr) as (v & Hv & Hk).
  exists (set_part v w). by rewrite part_set.
Qed.
Next Obligation.
  intros o w w' r [Hg _]%over_eq. destruct (kcreate_spec _ _ _ _ Hg) as [Hh Ho].
  split; [done|]. intros Hr. destruct (Ho Hr) as (v & rv & H1 & H2 & H3).
  exists (set_part v w), rv. by rewrite part_set.
Qed.
Next Obligation.
  intros o w w' r [Hg _]%over_eq. destruct (kupdate_spec _ _ _ _ Hg) as [Hh Ho].
  split; [done|]. intros Hr. destruct (Ho Hr) as (v & rv & cur & H1 & H2 & H3).
  exists (set_part v w), rv, cur. by rewrite part_set.
Qed.
Next Obligation.
  intros k w Hq. destruct (kget_quiet k (part w) Hq) as (v & Hv & Hs & Hg).
  exists (set_part v w). rewrite part_set. split; [done|]. split; [done|].
  destruct (kstore (part w) !! k); [by apply over_run|].
  destruct Hg as (e & Hg & He). exists e. split; [by apply over_run|done].
Qed.
Next Obligation.
  intros o w Hq Hn. destruct (kcreate_quiet o (part w) Hq Hn) as (v & rv & Hv & Hc & Hs).
  exists (set_part v w), rv. rewrite part_set. split; [done|]. split; [by apply over_run|done].
Qed.
Next Obligation.
  intros o w cur Hq Hn. destruct (kcreate_exists o (part w) cur Hq Hn) as (v & e & Hv & Hc & He & Hs).
  exists (set_part v w), e. rewrite part_set. split; [done|]. split; [by apply over_run|done].
Qed.
Next Obligation.
  intros o w cur Hq Hc Hrv. destruct (kupdate_quiet o (part w) cur Hq Hc Hrv) as (v & rv & Hv & Hu & Hs).
  exists (set_part v w), rv. rewrite part_set. split; [done|]. split; [by apply over_run|done].
Qed.

#[local] Existing Instance lifted_ok.

Definition lifted_deleter (D : KubeDelete V Obj) : KubeDelete W Obj := λ k, over (kdelete Obj k).
Definition lifted_lister (L : KubeListIn V Obj) : KubeListIn W Obj := λ ns labels, over (klist_in ns labels).

Lemma lifted_deleter_ok (D : KubeDelete V Obj) :
  KubeDeleteOk V Obj → KubeDeleteOk (D := lifted_deleter D) W Obj.
Proof.
  intros DOK k w Hq. destruct (kdelete_quiet k (part w) Hq) as (v & Hv & Hs & Hd).
  exists (set_part v w). simpl. rewrite part_set. split; [done|]. split; [done|].
  destruct (kstore (part w) !! k); [by apply over_run|].
  destruct Hd as (e & Hd & He). exists e. split; [by apply over_run|done].
Qed.

Lemma lifted_deleter_asks (D : KubeDelete V Obj) :
  KubeDeleteAsks V Obj → KubeDeleteAsks (D := lifted_deleter D) W Obj.
Proof.
  intros DOK k w Hq. destruct (kdelete_asks k (part w) Hq) as (v & o' & Hv & Hs & Ha & Hd).
  exists (set_part v w), o'. simpl. rewrite part_set. split; [done|]. split; [done|]. split; [done|].
  destruct (kstore (part w) !! k); [by apply over_run|].
  destruct Hd as (e & Hd & He). exists e. split; [by apply over_run|done].
Qed.

Lemma lifted_lister_ok (L : KubeListIn V Obj) :
  KubeListOk V Obj → KubeListOk (L := lifted_lister L) W Obj.
Proof.
  intros LOK ns labels w Hq. destruct (klist_quiet ns labels (part w) Hq) as (v & l & Hv & Hs & Hl & Hrest).
  exists (set_part v w), l. simpl. rewrite part_set. split; [done|]. split; [done|].
  split; [by apply over_run|done].
Qed.
End lifting.

(** Status updates of a part. *)
Section status.
Context {W V Obj : Type} (P : Part W V) {POK : PartOk W V}.
Context {O : KubeObject Obj} {SO : KubeStatusObject Obj} (C : KubeClient V Obj) (OK : KubeClientOk V Obj).

Definition lifted_status (S : KubeStatus V Obj) : KubeStatus W Obj := λ o, over (kstatus_update o).

Lemma lifted_status_ok (S : KubeStatus V Obj) :
  KubeStatusOk V Obj → KubeStatusOk (C := lifted_client P C) (OK := lifted_ok P C OK) (S := lifted_status S) W Obj.
Proof.
  intros SOK. split.
  - intros o w w' r Hu. unfold kstatus_update, lifted_status in Hu. destruct (over_eq P _ _ _ _ Hu) as [Hg _]. destruct (kstatus_spec _ _ _ _ Hg) as [Hh Ho].
    split; [done|]. intros Hr. destruct (Ho Hr) as (v & rv & cur & H1 & H2 & H3).
    exists (set_part v w), rv, cur. simpl. by rewrite part_set.
  - intros o w cur Hq Hc Hrv. destruct (kstatus_quiet o (part w) cur Hq Hc Hrv) as (v & rv & Hv & Hu & Hs).
    exists (set_part v w), rv. simpl. rewrite part_set. split; [done|]. split; [by apply (over_run P)|done].
Qed.
End status.

(** ** The parts of a record of servers *)

Class PartApart (W V1 V2 : Type) {P1 : Part W V1} {P2 : Part W V2} : Prop :=
  part_apart (v : V1) (w : W) : part (V := V2) (set_part v w) = part (V := V2) w.

Lemma lifted_apart {W V1 V2 A B} {P1 : Part W V1} {P2 : Part W V2} {PA : PartApart W V1 V2}
    `{!PartOk W V2} {OB : KubeObject B} (C1 : KubeClient V1 A) (C2 : KubeClient V2 B) (OK2 : KubeClientOk V2 B) :
  KubeWithin (C := lifted_client P1 C1) W A (unaffected (C := lifted_client P2 C2) (OK := lifted_ok P2 C2 OK2) B).
Proof.
  split; intros; unfold unaffected; simpl; unfold over;
    match goal with |- context [let '(_, _) := ?f in _] => destruct f end; simpl; by rewrite part_apart.
Qed.

Lemma lifted_status_apart {W V1 V2 A B} {P1 : Part W V1} {P2 : Part W V2} {PA : PartApart W V1 V2}
    {OB : KubeObject B} (S1 : KubeStatus V1 A) (C2 : KubeClient V2 B) (OK2 : KubeClientOk V2 B) `{!PartOk W V2} :
  KubeStatusWithin (S := lifted_status P1 S1) W A
    (unaffected (C := lifted_client P2 C2) (OK := lifted_ok P2 C2 OK2) B).
Proof.
  intros o w. unfold unaffected, kstatus_update, lifted_status. simpl. unfold over.
  destruct (kstatus_update o (part w)). simpl. by rewrite part_apart.
Qed.

(** ** The cluster *)

Record cluster := Cluster {
  cl_projects : Sim.world Project;
  cl_members : Sim.world ProjectMember;
  cl_apps : Sim.world App;
  cl_previews : Sim.world PreviewEnvironment;
  cl_secrets : Sim.world Secret;
  cl_configmaps : Sim.world ConfigMap;
  cl_namespaces : Sim.world Namespace;
  cl_rolebindings : Sim.world RoleBinding;
  cl_buildruns : Sim.world BuildRun;
}.

Definition nothing {Obj} : Sim.world Obj := Sim.World [] [].
Definition stored_now {Obj} (l : list Obj) : Sim.world Obj := Sim.World (Sim.Put <$> l) [].

#[export] Instance projects_part : Part cluster (Sim.world Project) :=
  {| part := cl_projects; set_part v '(Cluster _ m a p s c n b r) := Cluster v m a p s c n b r |}.
#[export] Instance members_part : Part cluster (Sim.world ProjectMember) :=
  {| part := cl_members; set_part v '(Cluster j _ a p s c n b r) := Cluster j v a p s c n b r |}.
#[export] Instance apps_part : Part cluster (Sim.world App) :=
  {| part := cl_apps; set_part v '(Cluster j m _ p s c n b r) := Cluster j m v p s c n b r |}.
#[export] Instance previews_part : Part cluster (Sim.world PreviewEnvironment) :=
  {| part := cl_previews; set_part v '(Cluster j m a _ s c n b r) := Cluster j m a v s c n b r |}.
#[export] Instance secrets_part : Part cluster (Sim.world Secret) :=
  {| part := cl_secrets; set_part v '(Cluster j m a p _ c n b r) := Cluster j m a p v c n b r |}.
#[export] Instance configmaps_part : Part cluster (Sim.world ConfigMap) :=
  {| part := cl_configmaps; set_part v '(Cluster j m a p s _ n b r) := Cluster j m a p s v n b r |}.
#[export] Instance namespaces_part : Part cluster (Sim.world Namespace) :=
  {| part := cl_namespaces; set_part v '(Cluster j m a p s c _ b r) := Cluster j m a p s c v b r |}.

#[export] Instance rolebindings_part : Part cluster (Sim.world RoleBinding) :=
  {| part := cl_rolebindings; set_part v '(Cluster j m a p s c n _ r) := Cluster j m a p s c n v r |}.

#[export] Instance buildruns_part : Part cluster (Sim.world BuildRun) :=
  {| part := cl_buildruns; set_part v '(Cluster j m a p s c n b _) := Cluster j m a p s c n b v |}.

Ltac part_law := split; by intros; repeat match goal with w : cluster |- _ => destruct w end.
#[export] Instance projects_part_ok : PartOk cluster (Sim.world Project).
Proof. part_law. Qed.
#[export] Instance members_part_ok : PartOk cluster (Sim.world ProjectMember).
Proof. part_law. Qed.
#[export] Instance apps_part_ok : PartOk cluster (Sim.world App).
Proof. part_law. Qed.
#[export] Instance previews_part_ok : PartOk cluster (Sim.world PreviewEnvironment).
Proof. part_law. Qed.
#[export] Instance secrets_part_ok : PartOk cluster (Sim.world Secret).
Proof. part_law. Qed.
#[export] Instance configmaps_part_ok : PartOk cluster (Sim.world ConfigMap).
Proof. part_law. Qed.
#[export] Instance namespaces_part_ok : PartOk cluster (Sim.world Namespace).
Proof. part_law. Qed.

#[export] Instance rolebindings_part_ok : PartOk cluster (Sim.world RoleBinding).
Proof. part_law. Qed.

#[export] Instance buildruns_part_ok : PartOk cluster (Sim.world BuildRun).
Proof. part_law. Qed.

(** The clients of the parts. *)
Section clients.
Context {Obj : Type} {O : KubeObject Obj} {OOK : KubeObjectOk Obj}
  {P : Part cluster (Sim.world Obj)} {POK : PartOk cluster (Sim.world Obj)}.
#[export] Instance cluster_client : KubeClient cluster Obj := lifted_client P Sim.client.
#[export] Instance cluster_client_ok : KubeClientOk cluster Obj := lifted_ok P Sim.client Sim.client_ok.
#[export] Instance cluster_deleter : KubeDelete cluster Obj := lifted_deleter P Sim.deleter.
#[export] Instance cluster_lister : KubeListIn cluster Obj := lifted_lister P Sim.lister.
Context {SO : KubeStatusObject Obj} {SOK : KubeStatusObjectOk Obj}.
#[export] Instance cluster_status : KubeStatus cluster Obj := lifted_status P SimStatus.updater.
#[export] Instance cluster_status_ok : KubeStatusOk cluster Obj.
Proof. apply lifted_status_ok, SimStatus.updater_ok. Qed.
#[export] Instance cluster_deleter_ok : KubeDeleteOk cluster Obj.
Proof. apply lifted_deleter_ok, Sim.deleter_ok. Qed.
#[export] Instance cluster_lister_ok : KubeListOk cluster Obj.
Proof. apply lifted_lister_ok, Sim.lister_ok. Qed.
End clients.

#[export] Instance cluster_retry : KubeRetry cluster := retry_loop default_retry_steps.
#[export] Instance cluster_retry_ok : KubeRetryOk cluster.
Proof. intros fn w. reflexivity. Qed.

(** ** Reading a cluster

    Between two worlds related by [elapsed] only the scheduled writes of others happen. *)

Definition elapsed {Obj} {O : KubeObject Obj} : relation (Sim.world Obj) :=
  rtc (λ w w', w' = (Sim.tick w).1).

Definition cluster_elapsed (w w' : cluster) : Prop :=
  elapsed (cl_projects w) (cl_projects w') ∧ elapsed (cl_members w) (cl_members w') ∧
  elapsed (cl_apps w) (cl_apps w') ∧ elapsed (cl_previews w) (cl_previews w') ∧
  elapsed (cl_secrets w) (cl_secrets w') ∧ elapsed (cl_configmaps w) (cl_configmaps w') ∧
  elapsed (cl_namespaces w) (cl_namespaces w') ∧
  elapsed (cl_rolebindings w) (cl_rolebindings w') ∧ elapsed (cl_buildruns w) (cl_buildruns w').

#[export] Instance cluster_elapsed_preorder : PreOrder cluster_elapsed.
Proof.
  split; [by intros w; repeat split|]. intros w1 w2 w3 H1 H2. unfold cluster_elapsed in *.
  destruct_and!. repeat split; by etrans.
Qed.

(** Reading one part. *)
Class PartReads (V : Type) {P : Part cluster V} (E : relation V) : Prop :=
  part_reads v w : E (part w) v → cluster_elapsed w (set_part v w).

Ltac part_reading := intros v [] H; unfold cluster_elapsed; simpl in *; by repeat split.
#[export] Instance projects_reads : PartReads (Sim.world Project) elapsed.
Proof. part_reading. Qed.
#[export] Instance members_reads : PartReads (Sim.world ProjectMember) elapsed.
Proof. part_reading. Qed.
#[export] Instance apps_reads : PartReads (Sim.world App) elapsed.
Proof. part_reading. Qed.
#[export] Instance previews_reads : PartReads (Sim.world PreviewEnvironment) elapsed.
Proof. part_reading. Qed.
#[export] Instance secrets_reads : PartReads (Sim.world Secret) elapsed.
Proof. part_reading. Qed.
#[export] Instance configmaps_reads : PartReads (Sim.world ConfigMap) elapsed.
Proof. part_reading. Qed.
#[export] Instance namespaces_reads : PartReads (Sim.world Namespace) elapsed.
Proof. part_reading. Qed.

#[export] Instance buildruns_reads : PartReads (Sim.world BuildRun) elapsed.
Proof. part_reading. Qed.
#[export] Instance rolebindings_reads : PartReads (Sim.world RoleBinding) elapsed.
Proof. part_reading. Qed.

Section reads.
Context {Obj : Type} {O : KubeObject Obj} {P : Part cluster (Sim.world Obj)}
  {PR : PartReads (Sim.world Obj) elapsed}.

Lemma get_elapsed k (v : Sim.world Obj) : elapsed v (Sim.get k v).1.
Proof.
  apply rtc_once. unfold Sim.get. destruct (Sim.tick v) as [w' [e|]]; [done|]. by case_match.
Qed.
Lemma list_elapsed ns labels (v : Sim.world Obj) : elapsed v (Sim.list_in ns labels v).1.
Proof. apply rtc_once. unfold Sim.list_in. by destruct (Sim.tick v) as [w' [e|]]. Qed.

#[export] Instance cluster_get_reads : KubeReads cluster Obj cluster_elapsed.
Proof.
  intros k w. simpl. unfold over. pose proof (get_elapsed k (part w)) as H.
  change (kget k (part w)) with (Sim.get k (part w)). destruct (Sim.get k (part w)) as [v r]. by apply part_reads.
Qed.
#[export] Instance cluster_list_reads : ListReads cluster Obj cluster_elapsed.
Proof.
  intros ns labels w. unfold klist_in, cluster_lister, lifted_lister, over.
  pose proof (list_elapsed ns labels (part w)) as H. unfold klist_in, Sim.lister.
  destruct (Sim.list_in ns labels (part w)) as [v r]. by apply part_reads.
Qed.
End reads.

(** Calls on one kind leave the objects of another alone. *)
Section apart.
Context {A B : Type} {OA : KubeObject A} {OB : KubeObject B} {OOK : KubeObjectOk B}
  {PA : Part cluster (Sim.world A)} {PB : Part cluster (Sim.world B)}
  {POK : PartOk cluster (Sim.world B)} {PP : PartApart cluster (Sim.world A) (Sim.world B)}.
#[export] Instance cluster_apart : KubeApart cluster A B.
Proof. apply lifted_apart. Qed.
Context {SO : KubeStatusObject A}.
#[export] Instance cluster_status_apart : KubeStatusWithin cluster A (unaffected B).
Proof. apply lifted_status_apart. Qed.
End apart.

(** Different kinds are different parts. *)
#[export] Hint Extern 0 (PartApart cluster _ _) => (by intros v []) : typeclass_instances.

(** Reads, lists and deletions of one kind leave another alone. *)
Section apart_more.
Context {A B : Type} {OA : KubeObject A} {OB : KubeObject B} {OOK : KubeObjectOk B}
  {PA : Part cluster (Sim.world A)} {PB : Part cluster (Sim.world B)}
  {POK : PartOk cluster (Sim.world B)} {PP : PartApart cluster (Sim.world A) (Sim.world B)}.

Lemma over_unaffected {C} (f : Sim.world A → Sim.world A * C) (w : cluster) : unaffected B w (over f w).1.
Proof. unfold over, unaffected. destruct (f (part w)) as [v a]. simpl. by rewrite part_apart. Qed.

#[export] Instance cluster_get_apart : KubeReads cluster A (unaffected B).
Proof. intros k w. apply over_unaffected. Qed.
#[export] Instance cluster_list_apart : ListReads cluster A (unaffected B).
Proof. intros ns l w. apply over_unaffected. Qed.
Lemma cluster_delete_apart k (w : cluster) : unaffected B w (kdelete A k w).1.
Proof. apply over_unaffected. Qed.
End apart_more.

(** ** An object that is not touched

    On the concrete server of [Kube], the relation between two worlds that keeps an object
    of somebody else as it is, given that nobody writes it.  The runs of the controllers
    that find what is theirs by labels and owners use it. *)

#[local] Existing Instances Sim.hist_preorder Sim.client Sim.client_ok.

Section guarded.
Context {Obj : Type} {O : KubeObject Obj} {OOK : KubeObjectOk Obj} (foreign : Obj → Prop) (k : NamespacedName)
  (Hrv : ∀ rv o, foreign o → foreign (obj_with_rv rv o)).

Definition safe_write (x : Sim.write Obj) : Prop :=
  match x with Sim.Put o => obj_key o = k → foreign o | Sim.Del d => d ≠ k end.

Definition off_key (x : Sim.write Obj) : Prop :=
  match x with Sim.Put o => obj_key o ≠ k | Sim.Del d => d ≠ k end.

(** The object is there, was foreign whenever it was written, and nobody is about to write it. *)
Definition fine (v : Sim.world Obj) : Prop :=
  is_Some (Sim.objects v !! k) ∧ Forall safe_write (Sim.log v) ∧
  ∀ x, Sim.External x ∈ Sim.pending v → off_key x.

Definition guarded (v v' : Sim.world Obj) : Prop :=
  Sim.hist v v' ∧ (fine v → fine v' ∧ Sim.objects v' !! k = Sim.objects v !! k).

#[export] Instance guarded_preorder : PreOrder guarded.
Proof.
  split; [by intros v; split|]. intros v1 v2 v3 [H1 F1] [H2 F2]. split; [by etrans|].
  intros Hf. destruct (F1 Hf) as [Hf2 E1]. destruct (F2 Hf2) as [Hf3 E2]. split; [done|congruence].
Qed.

Lemma off_safe x : off_key x → safe_write x.
Proof. destruct x; simpl; [by intros H E|done]. Qed.

Lemma off_store x l : off_key x → Sim.store (x :: l) !! k = Sim.store l !! k.
Proof. destruct x; simpl; intros H; [by rewrite lookup_insert_ne|by rewrite lookup_delete_ne]. Qed.

Lemma tick_guarded v v' r : Sim.tick v = (v', r) → guarded v v'.
Proof.
  intros Ht. split; [by eapply Sim.tick_hist|]. intros (Hs & Hl & Hp). unfold Sim.tick in Ht.
  destruct (Sim.pending v) as [|[|x|e] p] eqn:Ep; injection Ht as <- <-;
    try (split; [split_and!; [exact Hs|exact Hl|simpl; rewrite ?Ep; intros y Hy; apply Hp; (exact Hy || by right)]|done]).
  assert (off_key x) as Hx by (apply Hp; by left).
  unfold fine, Sim.objects in *. simpl Sim.log. rewrite (off_store x _ Hx). split; [|done].
  split; [done|]. split; [constructor; [by apply off_safe|done]|]. intros y Hy. apply Hp. by right.
Qed.

(** A write away from the object. *)
Lemma write_guarded v x : (fine v → off_key x) → guarded v (Sim.World (x :: Sim.log v) (Sim.pending v)).
Proof.
  intros Hx. split; [by exists [x]|]. intros Hf. specialize (Hx Hf). destruct Hf as (Hs & Hl & Hp).
  unfold fine, Sim.objects in *. simpl Sim.log. rewrite (off_store x _ Hx). split; [|done].
  split; [done|]. split; [constructor; [by apply off_safe|done]|done].
Qed.

(** What is or was there is foreign. *)
Lemma stored_foreign l (o : Obj) : Sim.store l !! k = Some o → Forall safe_write l → foreign o.
Proof.
  induction l as [|[p|d] l IH]; simpl; intros Hk Hl; [done| |]; inversion_clear Hl as [|? ? Hp Hrest].
  - apply lookup_insert_Some in Hk as [[E <-]|[_ Hk]]; [by apply Hrv, Hp|by apply IH].
  - apply lookup_delete_Some in Hk as [_ Hk]. by apply IH.
Qed.

Lemma read_foreign o (v : Sim.world Obj) : read_ok k o v → fine v → foreign o.
Proof.
  intros (v0 & [l Hl] & Hs) (_ & Hf & _). apply (stored_foreign (Sim.log v0)); [exact Hs|].
  rewrite Hl in Hf. by apply Forall_app in Hf as [_ Hf].
Qed.

Lemma get_guarded k0 (v : Sim.world Obj) : guarded v (Sim.get k0 v).1.
Proof. unfold Sim.get. destruct (Sim.tick v) as [v' [e|]] eqn:E; apply tick_guarded in E; [done|]. by case_match. Qed.

Lemma list_guarded ns labels (v : Sim.world Obj) : guarded v (Sim.list_in ns labels v).1.
Proof. unfold Sim.list_in. destruct (Sim.tick v) as [v' [e|]] eqn:E; by apply tick_guarded in E. Qed.

(** What is there is not created again. *)
Lemma create_guarded o (v : Sim.world Obj) : guarded v (Sim.create o v).1.
Proof.
  unfold Sim.create. destruct (Sim.tick v) as [v' [e|]] eqn:E; apply tick_guarded in E; [done|].
  destruct (Sim.objects v' !! obj_key o) eqn:Ek; [done|]. simpl. etrans; [exact E|]. apply write_guarded.
  intros ([cur Ho] & _) Hk. simpl in *. congruence.
Qed.

Lemma update_guarded o new (v : Sim.world Obj) :
  read_ok (obj_key o) o v → ¬ foreign o → obj_key new = obj_key o → guarded v (Sim.update new v).1.
Proof.
  intros Hr Hp Hkey. unfold Sim.update. destruct (Sim.tick v) as [v' [e|]] eqn:E;
    pose proof (Sim.tick_hist _ _ _ E) as Hh; apply tick_guarded in E; [done|].
  case_match; [|done]. case_match; [|done]. simpl. etrans; [exact E|]. apply write_guarded.
  intros Hf Hk. simpl in Hk. apply Hp. destruct Hr as (v0 & Hv0 & Hs). rewrite Hkey in Hk. rewrite Hk in Hs.
  apply (read_foreign o v'); [|done]. exists v0. split; [by etrans|done].
Qed.

Lemma remove_guarded o (v : Sim.world Obj) :
  read_ok (obj_key o) o v → ¬ foreign o → guarded v (Sim.remove (obj_key o) v).1.
Proof.
  intros Hr Hp. unfold Sim.remove. destruct (Sim.tick v) as [v' [e|]] eqn:E;
    pose proof (Sim.tick_hist _ _ _ E) as Hh; apply tick_guarded in E; [done|].
  case_match; [|done]. simpl. etrans; [exact E|]. apply write_guarded.
  intros Hf Hk. simpl in Hk. apply Hp. destruct Hr as (v0 & Hv0 & Hs). rewrite Hk in Hs.
  apply (read_foreign o v'); [|done]. exists v0. split; [by etrans|done].
Qed.
End guarded.

(** ** What a list returns

    Objects that were read, and that the list selects. *)

Lemma sim_list_ok {Obj} {O : KubeObject Obj} {OOK : KubeObjectOk Obj} ns labels (v v' : Sim.world Obj) l :
  Sim.list_in ns labels v = (v', inr l) → ∀ o, o ∈ l → read_ok (obj_key o) o v' ∧ selected ns labels o = true.
Proof.
  intros Hl o Ho. unfold Sim.list_in in Hl. destruct (Sim.tick v) as [v1 [e|]]; [done|]. injection Hl as -> <-.
  apply list_elem_of_In, filter_In in Ho as [Ho Hsel]. split; [|done].
  apply list_elem_of_In, list_elem_of_fmap in Ho as ([k o'] & -> & Hk).
  apply elem_of_map_to_list in Hk. exists v'. split; [reflexivity|]. simpl.
  assert (kstore v' !! k = Some o') as Hs by done. by rewrite (kstore_key _ _ _ Hs).
Qed.

Lemma lifted_list_ok {W Obj} {O : KubeObject Obj} {OOK : KubeObjectOk Obj} (P : Part W (Sim.world Obj)) {POK : PartOk W (Sim.world Obj)}
    ns labels (w w' : W) l :
  over (Sim.list_in ns labels) w = (w', inr l) →
  ∀ o, o ∈ l → read_ok (OK := lifted_ok P Sim.client Sim.client_ok) (obj_key o) o w' ∧ selected ns labels o = true.
Proof.
  intros [Hl _]%(over_eq P) o Ho. destruct (sim_list_ok _ _ _ _ _ Hl o Ho) as [(v0 & H0 & Hs) Hsel]. split; [|done].
  exists (set_part v0 w'). simpl. by rewrite part_set.
Qed.

(** The end of a run that was evaluated. *)
Lemma ends_with {A B} (x : A * B) b : x.2 = b → x = (x.1, b).
Proof. destruct x. by intros [= ->]. Qed.
