(* ===== verification/ProjectRuns.v ===== *)
(** * The project controller: runs

    The controller on a cluster: the moves of [ProjectFacts] at the relation that keeps a
    namespace of somebody else as it is, the theorems on projects at concrete worlds, and
    what it does with the member record of a long address. *)

From S2P Require Import Prelude GoStrings GoTime GoText Sha256 Json Kube Core Api KubeStatus Effects Controller Constants BuildRun EnvStore Auth Activity Nsrbac ProjectReconcile ApiServer ProjectFacts ProjectConverges Cluster.

#[local] Existing Instances Sim.hist_preorder Sim.client Sim.client_ok.

(** Nobody owns the namespace and it carries no labels. *)
Definition plain (ns : Namespace) : Prop := meta_OwnerReferences (ns_meta ns) = [] ∧ meta_Labels (ns_meta ns) = ∅.

Lemma plain_rv rv ns : plain ns → plain (obj_with_rv rv ns).
Proof. by intros []. Qed.

(** ** The moves of the controller on a cluster *)

Section moves.
Context (k : NamespacedName).

Definition project_moves (w w' : cluster) : Prop :=
  guarded plain k (cl_namespaces w) (cl_namespaces w') ∧ Sim.hist (cl_projects w) (cl_projects w').

#[export] Instance project_moves_preorder : PreOrder project_moves.
Proof. split; [by intros w; split|]. intros w1 w2 w3 [H1 P1] [H2 P2]. split; by etrans. Qed.

(** Calls on other kinds, on projects and on namespaces. *)
Lemma over_others {V A} {P : Part cluster V} {PA : PartApart cluster V (Sim.world Namespace)}
    {PB : PartApart cluster V (Sim.world Project)} (f : V → V * A) w : project_moves w (over f w).1.
Proof.
  unfold over, project_moves. destruct (f (part w)) as [v a]. simpl.
  change (guarded plain k (part w) (part (V := Sim.world Namespace) (set_part v w)) ∧
          Sim.hist (part w) (part (V := Sim.world Project) (set_part v w))).
  by rewrite (part_apart (V2 := Sim.world Namespace)), (part_apart (V2 := Sim.world Project)).
Qed.

Lemma over_projects {A} (f : Sim.world Project → Sim.world Project * A) w :
  Sim.hist (cl_projects w) (f (cl_projects w)).1 → project_moves w (over f w).1.
Proof.
  unfold over, project_moves. change (part w) with (cl_projects w). destruct (f (cl_projects w)) as [v a].
  by destruct w.
Qed.

Lemma over_namespaces {A} (f : Sim.world Namespace → Sim.world Namespace * A) w :
  guarded plain k (cl_namespaces w) (f (cl_namespaces w)).1 → project_moves w (over f w).1.
Proof.
  unfold over, project_moves. change (part w) with (cl_namespaces w). destruct (f (cl_namespaces w)) as [v a].
  by destruct w.
Qed.

Lemma owned_not_plain uid ns : owned_by uid ns → ¬ plain ns.
Proof. intros (ref & Hr & _) [Ho _]. rewrite Ho in Hr. by apply elem_of_nil in Hr. Qed.

Lemma read_part (ns : Namespace) k0 (w : cluster) : read_ok k0 ns w → read_ok k0 ns (cl_namespaces w).
Proof. intros (w0 & H0 & Hs). by exists (cl_namespaces w0). Qed.

(** The writes of the annotations of an app. *)
Definition patched_annotations (patch : string) (m : ObjectMeta) : ObjectMeta :=
  match parse patch with
  | Some (JObj [(_, JObj [(_, JObj l)])]) =>
    with_annotations (fold_right (λ kv a, match kv.2 with JStr v => <[kv.1 := v]> a | _ => a end) (meta_Annotations m) l) m
  | _ => m
  end.

Definition patch_app (key : NamespacedName) (patch : string) (v : Sim.world App) : Sim.world App * option error :=
  match kget key v with
  | (v, inl err) => (v, Some err)
  | (v, inr app) => kupdate (with_App_ObjectMeta (patched_annotations patch (App_ObjectMeta app)) app) v
  end.

#[export] Instance cluster_patch : KubePatch cluster App := λ key patch, over (patch_app key patch).

Lemma hist_status p (v : Sim.world Project) : Sim.hist v (SimStatus.update p v).1.
Proof.
  destruct (SimStatus.update p v) as [v' r] eqn:E. pose proof (SimStatus.updater_ok (Obj := Project)) as H.
  exact (proj1 (kstatus_spec (KubeStatusOk := H) p v v' r E)).
Qed.

Lemma cluster_project_moves name start :
  ProjectMoves (kget (W := cluster)) (kget (W := cluster)) name start project_moves.
Proof.
  assert (∀ k0 w, project_moves w (kget (Obj := Project) k0 w).1) as Hget.
  { intros k0 w. apply over_projects. exact (proj1 (Sim.get_spec _ _ _ _ (surjective_pairing _))). }
  split.
  - apply _.
  - by intros w w' [[H _] H'].
  - split; [done| |].
    + intros o w. apply over_projects. exact (proj1 (Sim.create_spec _ _ _ _ (surjective_pairing _))).
    + intros o w. apply over_projects. exact (proj1 (Sim.update_spec _ _ _ _ (surjective_pairing _))).
  - intros o w. apply over_projects, hist_status.
  - intros ns l w. apply over_projects. unfold klist_in, Sim.lister, Sim.list_in.
    destruct (Sim.tick _) as [v [e|]] eqn:E; by apply Sim.tick_hist in E.
  - exact Hget.
  - intros k0 w. apply over_namespaces, get_guarded.
  - intros ns l w. apply over_namespaces, list_guarded.
  - intros k0 w. apply over_namespaces, get_guarded.
  - split; intros; apply over_others.
  - split; intros; apply over_others.
  - intros ns l w. apply over_others.
  - split; intros; apply over_others.
  - intros ns l w. apply over_others.
  - intros k0 patch w. apply over_others.
  - intros p ns w _ _ _. apply over_namespaces, create_guarded.
  - intros p ns labels w _ Hr Ho _. apply over_namespaces. apply (update_guarded plain k plain_rv ns); [by apply read_part|intros Hp; by eapply owned_not_plain|done].
  - intros ns w Hr (Hl & _). apply over_namespaces. apply (remove_guarded plain k plain_rv ns); [by apply read_part|].
    intros [_ He]. rewrite He in Hl. by rewrite lookup_empty in Hl.
Qed.
End moves.

Lemma cluster_list_ok {Obj} {O : KubeObject Obj} {OOK : KubeObjectOk Obj} {P : Part cluster (Sim.world Obj)}
    {POK : PartOk cluster (Sim.world Obj)} ns labels (w w' : cluster) l :
  klist_in (Obj := Obj) ns labels w = (w', inr l) → ∀ o, o ∈ l → read_ok (obj_key o) o w' ∧ selected ns labels o = true.
Proof.
  exact (lifted_list_ok P ns labels w w' l).
Qed.

Lemma cluster_live k (w w' : cluster) (r : error + Project) :
  kget k w = (w', r) →
  khist (Obj := Project) w w' ∧ ∀ p, r = inr p → ∃ w1, khist (Obj := Project) w w1 ∧ khist (Obj := Project) w1 w' ∧ kstore w1 !! k = Some p.
Proof.
  intros [Hg _]%(over_eq projects_part). change (kget k (part w)) with (Sim.get k (cl_projects w)) in Hg.
  unfold Sim.get in Hg. destruct (Sim.tick (cl_projects w)) as [v [e|]] eqn:E; apply Sim.tick_hist in E as Hh.
  - injection Hg as Hv <-. split; [|done]. unfold khist. simpl. by rewrite <-Hv.
  - destruct (Sim.objects v !! k) eqn:Ek; injection Hg as Hv <-.
    + assert (khist (Obj := Project) w w') by (unfold khist; simpl; by rewrite <-Hv). split; [done|].
      intros q [= <-]. exists w'. split; [done|]. split; [reflexivity|]. unfold kstore. simpl. by rewrite <-Hv.
    + split; [|done]. unfold khist. simpl. by rewrite <-Hv.
Qed.

(** ** Runs *)

Module ProjectRuns.
#[local] Existing Instances range_sorted_order range_sorted_order_ok Meta.helpers Finalizers.helpers Finalizers.finalizers_ok.
Abbreviation R := range_sorted_order.

(** [SetControllerReference] of a project. *)
Definition project_ref (owner : ObjectMeta) : OwnerReference :=
  {| owner_APIVersion := v1alpha1; owner_Kind := "Project"; owner_Name := meta_Name owner; owner_UID := meta_UID owner;
     owner_Controller := Some true; owner_BlockOwnerDeletion := Some true |}.
Definition owner_set (owner m : ObjectMeta) : error + ObjectMeta :=
  inr (with_owners (meta_OwnerReferences m ++ [project_ref owner]) m).

Lemma owner_set_ok p m m' :
  owner_set (Project_ObjectMeta p) m = inr m' →
  owned_by (project_uid p) {| ns_meta := m' |} ∧ meta_Labels m' = meta_Labels m ∧ meta_Name m' = meta_Name m ∧
  meta_Namespace m' = meta_Namespace m.
Proof.
  intros [= <-]. split_and!; [|done..]. exists (project_ref (Project_ObjectMeta p)). simpl.
  split; [|done]. apply elem_of_app. right. by left.
Qed.

Lemma owner_set_touches p m m' :
  owner_set (Project_ObjectMeta p) m = inr m' →
  owned_by (project_uid p) {| ns_meta := m' |} ∧ meta_Labels m' = meta_Labels m ∧ meta_Name m' = meta_Name m.
Proof. intros H%owner_set_ok. by destruct_and!. Qed.

Definition now (w : cluster) : Time := 1770000000000000000%Z.
Local Abbreviation reader := (Some (kget (W := cluster) (Obj := Project), kget (W := cluster) (Obj := Namespace))).
Local Abbreviation reconcile := (Reconcile R owner_set now reader "mortise" "mortise-system" "shop").

Definition env_of (name : string) : ProjectEnvironment := with_ProjectEnvironment_Name name ProjectEnvironment_zero.

(** A project with the finalizer. *)
Definition shop_meta_at (deletion : option Time) : ObjectMeta :=
  {| meta_Name := "shop"; meta_Namespace := ""; meta_Labels := ∅;
     meta_Annotations := {["mortise.dev/created-by" := "dev@acme.io"]}; meta_UID := "u1"; meta_OwnerReferences := [];
     meta_ResourceVersion := ""; meta_Generation := 1; meta_CreationTimestamp := 0; meta_DeletionTimestamp := deletion;
     meta_Finalizers := [projectFinalizer] |}.
Definition shop_meta : ObjectMeta := shop_meta_at None.
Definition shop (envs : list string) : Project :=
  with_Project_Spec (with_ProjectSpec_Environments (env_of <$> envs) ProjectSpec_zero)
    (with_Project_ObjectMeta shop_meta Project_zero).

Definition plain_ns (name : string) : Namespace := {| ns_meta := with_name name ObjectMeta_zero |}.
Definition own_ns (name : string) (env : string) : Namespace :=
  {| ns_meta := with_labels (namespaceLabels "shop" {| nsp_role := NamespaceRoleEnv; nsp_envName := env |})
       (with_owners [project_ref shop_meta] (with_name name ObjectMeta_zero)) |}.

Definition cluster_of (p : Sim.world Project) (ns : Sim.world Namespace) : cluster :=
  {| cl_projects := p; cl_members := nothing; cl_apps := nothing; cl_previews := nothing; cl_secrets := nothing;
     cl_configmaps := nothing; cl_namespaces := ns; cl_rolebindings := nothing; cl_buildruns := nothing |}.

Definition names (w : cluster) : list string := (map_to_list (kstore (Obj := Namespace) w)).*1.*2.
Definition phase (w : cluster) : option (string * list string) :=
  (λ p, (ProjectStatus_Phase (Project_Status p), Condition_Reason <$> ProjectStatus_Conditions (Project_Status p))) <$>
    kstore w !! ("", "shop").

(** A first reconciliation, with a namespace left of an environment that is gone: the
    namespaces are made, the one left is deleted, and the project is ready. *)
Definition start : cluster :=
  cluster_of (stored_now [shop ["production"]]) (stored_now [own_ns "pj-shop-dev" "dev"]).

Example first_reconcile :
  let '(w, r) := reconcile start in
  (r, names w, phase w, size (kstore (Obj := ProjectMember) w), size (kstore (Obj := RoleBinding) w)) =
  (inr Done, ["pj-shop-production"; "pj-shop"], Some (ProjectPhaseReady, [ReasonReconciled; ReasonReconciled]), 1, 2).
Proof. vm_compute. reflexivity. Qed.
(** *** Namespaces of others *)

(** Somebody's namespace has the name of one that the project wants. *)
Definition taken : cluster :=
  cluster_of (stored_now [shop ["production"]]) (Sim.World [Sim.Put (plain_ns "pj-shop-production")]
    [Sim.Calm; Sim.External (Sim.Put (own_ns "pj-shop-dev" "dev"))]).

Lemma reconcile_touches_own_witness : project_moves ("", "pj-shop-production") taken (reconcile taken).1.
Proof.
  exact (reconcile_touches_own R owner_set now (kget (Obj := Project)) (kget (Obj := Namespace)) "mortise" "mortise-system"
    "shop" taken (project_moves ("", "pj-shop-production")) (cluster_project_moves ("", "pj-shop-production") "shop" taken)
    owner_set_touches cluster_live kget_reader_ok cluster_list_ok).
Defined.

(** The project is refused, and the namespace is as before. *)
Example name_taken :
  let '(w, r) := reconcile taken in
  (r, phase w, kstore (Obj := Namespace) w !! ("", "pj-shop-production")) =
  (inr Done, Some (ProjectPhaseFailed, [ReasonNamespaceAlreadyExists]),
   kstore (Obj := Namespace) taken !! ("", "pj-shop-production")).
Proof. vm_compute. reflexivity. Qed.

(** The environment [dev] is declared while the project is reconciled: its namespace was
    about to go, the live project is read first, and it stays. *)
Definition declared_meanwhile : cluster :=
  cluster_of (Sim.World [Sim.Put (shop ["production"])]
                [Sim.Calm; Sim.External (Sim.Put (shop ["production"; "dev"]))])
             (stored_now [own_ns "pj-shop-dev" "dev"]).

Example declared_namespace_stays :
  let '(w, r) := reconcile declared_meanwhile in
  (r, names w) = (inr Done, ["pj-shop-dev"; "pj-shop-production"; "pj-shop"]).
Proof. vm_compute. reflexivity. Qed.

(** *** What it comes to

    From here on namespaces stay, marked, when they are deleted, as on a real server, where
    their contents go first. *)

#[local] Instance namespace_marker : KubeDelete cluster Namespace :=
  lifted_deleter namespaces_part (Sim.mark (λ _, true) 1770000000000000000%Z).
#[local] Instance namespace_marker_asks : KubeDeleteAsks cluster Namespace.
Proof. apply lifted_deleter_asks, Sim.mark_asks. Qed.

Lemma namespace_marker_apart k (w : cluster) : unaffected Project w (kdelete Namespace k w).1.
Proof. apply (over_unaffected (PA := namespaces_part) (PB := projects_part) (Sim.mark (λ _, true) 1770000000000000000%Z k)). Qed.

#[local] Instance apps_elsewhere : ListReads cluster App elsewhere.
Proof. intros ns l w. split; apply cluster_list_apart. Qed.
#[local] Instance members_elsewhere : ListReads cluster ProjectMember elsewhere.
Proof. intros ns l w. split; apply cluster_list_apart. Qed.

Lemma project_converges_witness :
  let p := obj_with_rv "0" (shop ["production"]) in
  ∃ N' P', holds N' P' (reconcile start).1 ∧ ProjectConverges.outcome p (kstore start) (kstore start) N' P'.
Proof.
  intros p. apply (project_converges R namespace_marker_apart
    (λ k patch w, conj (over_unaffected (patch_app k patch) w) (over_unaffected (patch_app k patch) w))
    owner_set now "mortise" "mortise-system" owner_set_ok "shop" p (kstore start) (kstore start) start).
  - by split_and!.
  - reflexivity.
  - intros k q Hq. change (Sim.store [Sim.Put (shop ["production"])] !! k = Some q) in Hq.
    cbn [Sim.store] in Hq. apply lookup_insert_Some in Hq. destruct Hq as [[<- _]|[_ Hq]]; [done|]. by rewrite lookup_empty in Hq.
  - by repeat constructor.
  - apply ends_with. vm_compute. reflexivity.
Defined.

(** A project that is deleted. *)
Definition deleted_shop : Project :=
  with_Project_ObjectMeta (shop_meta_at (Some 5%Z)) (shop ["production"]).

(** A project without its finalizer. *)
Definition new_shop : Project := with_Project_ObjectMeta (with_finalizers [] shop_meta) (shop []).

(** Its namespace is asked to go, and the finalizer is removed at once, while the namespace
    is still terminating. *)
Example released_early :
  let '(w, r) := reconcile (cluster_of (stored_now [deleted_shop])
                    (stored_now [own_ns "pj-shop-production" "production"; plain_ns "pj-shop-dev"])) in
  (r, (λ '(k, ns), (k.2, deleting (ns_meta ns))) <$> map_to_list (kstore (Obj := Namespace) w), phase w,
   (λ p, meta_Finalizers (Project_ObjectMeta p)) <$> kstore w !! ("", "shop")) =
  (inr Done, [("pj-shop-dev", false); ("pj-shop-production", true)], Some (ProjectPhaseTerminating, []), Some []).
Proof. vm_compute. reflexivity. Qed.

Example seeded_first :
  let '(w, r) := reconcile (cluster_of (stored_now [new_shop]) nothing) in
  (r, names w, (λ p, (meta_Finalizers (Project_ObjectMeta p), specEnvNames p)) <$> kstore w !! ("", "shop")) =
  (inr Done, [], Some ([projectFinalizer], ["production"])).
Proof. vm_compute. reflexivity. Qed.

(** *** The activity *)

Definition created_event : Event := projectCreateActivityEvent (shop ["production"]) 1770000000000000000%Z.

(** Another controller records the creation first. *)
Lemma create_recorded_once_witness :
  ∃ w0, khist (Obj := ConfigMap) start w0 ∧
    recorded_by created_event w0 (appendProjectCreateActivityIfMissing created_event start).1.
Proof.
  apply (create_recorded_once created_event start); [reflexivity|].
  apply ends_with. vm_compute. reflexivity.
Defined.

(** *** Long addresses *)

(** The controller does not limit the name of the member record of the creator, which the
    API does: for an address of 124 bytes or more the name is longer than an object name
    may be, and not the name under which the API looks for the record. *)
Lemma owner_member_long project controlNs email :
  (124 ≤ String.length email)%nat →
  (253 < String.length (meta_Name (ProjectMember_ObjectMeta (owner_member project controlNs email))))%nat ∧
  meta_Name (ProjectMember_ObjectMeta (owner_member project controlNs email)) ≠ MemberCRDName email.
Proof.
  intros He.
  assert (253 < String.length (meta_Name (ProjectMember_ObjectMeta (owner_member project controlNs email))))%nat as Hl.
  { simpl. unfold hex_of. rewrite Sha256.hex_encode_length, Sha256.bytes_of_length. lia. }
  split; [done|]. intros E. pose proof (proj1 MemberCRDName_limit_inj email). rewrite E in Hl. lia.
Qed.
End ProjectRuns.
