(* ===== verification/AppWorkloadsRuns.v ===== *)
(** * Workloads of apps: runs

    The functions of [AppWorkloads] on a world that has a server for each kind they touch,
    and what they do where that is not what the app asks for. *)

From S2P Require Import Prelude GoStrings GoNum GoText Kube Core Api KubeStatus Effects Constants BuildRun ApiServer EnvStore Cluster AppAnnotations AppGc Workloads AppPods AppWorkloads AppWorkloadsFacts AppWorkloadsSettle.

(** ** Quantities

    Whole numbers with the suffixes that occur, compared by value. *)

Definition suffixes : list (string * Z) := [("m", 1); ("Ki", 1024 * 1000); ("Mi", 1024 * 1024 * 1000); ("Gi", 1024 * 1024 * 1024 * 1000)]%Z.

(** The value in thousandths. *)
Definition quantity_value (s : string) : option Z :=
  match find (λ p, has_suffix p.1 s) suffixes with
  | Some (suffix, unit) => (Z.mul unit) <$> atoi (str_take (String.length s - String.length suffix) s)
  | None => (Z.mul 1000) <$> atoi s
  end.

Module WorkloadRuns.
#[local] Existing Instances Sim.hist_preorder Sim.client Sim.client_ok Sim.deleter Sim.deleter_ok Sim.lister Sim.lister_ok.

#[local] Instance quantities : Quantities :=
  {| ParseQuantity s := match quantity_value s with Some _ => inr s | None => inl (Errorf "quantities must match the regular expression" []) end;
     Quantity_Cmp a b := match default 0 (quantity_value a) ?= default 0 (quantity_value b) with Lt => -1 | Eq => 0 | Gt => 1 end%Z |}.
#[local] Instance quantities_ok : QuantitiesOk.
Proof. intros q. simpl. by rewrite Z.compare_refl. Qed.

Example quantity_values : quantity_value <$> ["100m"; "256Mi"; "2"; "1Gi"; "many"] =
  [Some 100; Some 268435456000; Some 2000; Some 1073741824000; None]%Z.
Proof. vm_compute. reflexivity. Qed.

Record world := World {
  w_secrets : Sim.world Secret; w_config : Sim.world PlatformConfig; w_deployments : Sim.world Deployment;
  w_cronjobs : Sim.world CronJob; w_services : Sim.world Service; w_ingresses : Sim.world Ingress;
  w_accounts : Sim.world ServiceAccount; w_claims : Sim.world PersistentVolumeClaim; w_files : Sim.world ConfigMap;
}.

Local Abbreviation P V := (Part world (Sim.world V)).
#[local] Instance secrets_part : P Secret := {| part := w_secrets; set_part v '(World a b c d e f g h i) := World v b c d e f g h i |}.
#[local] Instance config_part : P PlatformConfig := {| part := w_config; set_part v '(World a b c d e f g h i) := World a v c d e f g h i |}.
#[local] Instance deployments_part : P Deployment := {| part := w_deployments; set_part v '(World a b c d e f g h i) := World a b v d e f g h i |}.
#[local] Instance cronjobs_part : P CronJob := {| part := w_cronjobs; set_part v '(World a b c d e f g h i) := World a b c v e f g h i |}.
#[local] Instance services_part : P Service := {| part := w_services; set_part v '(World a b c d e f g h i) := World a b c d v f g h i |}.
#[local] Instance ingresses_part : P Ingress := {| part := w_ingresses; set_part v '(World a b c d e f g h i) := World a b c d e v g h i |}.
#[local] Instance accounts_part : P ServiceAccount := {| part := w_accounts; set_part v '(World a b c d e f g h i) := World a b c d e f v h i |}.
#[local] Instance claims_part : P PersistentVolumeClaim := {| part := w_claims; set_part v '(World a b c d e f g h i) := World a b c d e f g v i |}.
#[local] Instance files_part : P ConfigMap := {| part := w_files; set_part v '(World a b c d e f g h i) := World a b c d e f g h v |}.

#[local] Ltac part_ok := split; by intros; repeat match goal with w : world |- _ => destruct w end.
#[local] Instance secrets_part_ok : PartOk world (Sim.world Secret). Proof. part_ok. Qed.
#[local] Instance config_part_ok : PartOk world (Sim.world PlatformConfig). Proof. part_ok. Qed.
#[local] Instance deployments_part_ok : PartOk world (Sim.world Deployment). Proof. part_ok. Qed.
#[local] Instance cronjobs_part_ok : PartOk world (Sim.world CronJob). Proof. part_ok. Qed.
#[local] Instance services_part_ok : PartOk world (Sim.world Service). Proof. part_ok. Qed.
#[local] Instance ingresses_part_ok : PartOk world (Sim.world Ingress). Proof. part_ok. Qed.
#[local] Instance accounts_part_ok : PartOk world (Sim.world ServiceAccount). Proof. part_ok. Qed.
#[local] Instance claims_part_ok : PartOk world (Sim.world PersistentVolumeClaim). Proof. part_ok. Qed.
#[local] Instance files_part_ok : PartOk world (Sim.world ConfigMap). Proof. part_ok. Qed.

#[local] Instance world_retry : KubeRetry world := retry_loop default_retry_steps.
#[local] Instance world_retry_ok : KubeRetryOk world.
Proof. intros fn w. reflexivity. Qed.

Section clients.
Context {Obj : Type} {O : KubeObject Obj} {OOK : KubeObjectOk Obj} {PO : P Obj} {POK : PartOk world (Sim.world Obj)}.
#[export] Instance world_client : KubeClient world Obj := lifted_client PO Sim.client.
#[export] Instance world_client_ok : KubeClientOk world Obj := lifted_ok PO Sim.client Sim.client_ok.
#[export] Instance world_deleter : KubeDelete world Obj := lifted_deleter PO Sim.deleter.
#[export] Instance world_lister : KubeListIn world Obj := lifted_lister PO Sim.lister.
#[export] Instance world_deleter_ok : KubeDeleteOk world Obj.
Proof. apply lifted_deleter_ok, Sim.deleter_ok. Qed.
End clients.

(** *** What is touched *)

(** What the platform did not make stays: [mine] is the name of an object of each kind. *)
Section kinds.
Context {Obj : Type} {O : KubeObject Obj} {OOK : KubeObjectOk Obj} {PO : P Obj} {POK : PartOk world (Sim.world Obj)}.

Definition theirs (o : Obj) : Prop := isMortiseManaged o = false.
Lemma theirs_rv rv o : theirs o → theirs (obj_with_rv rv o).
Proof. unfold theirs, isMortiseManaged, obj_with_rv. by rewrite obj_meta_set. Qed.

Context (mine : NamespacedName) (I : relation world)
  (Hset : ∀ v w, guarded theirs mine (part w) v → I w (set_part v w))
  (Hget : ∀ w w', I w w' → Sim.hist (part w) (part w')).

Lemma guarded_over {A} (f : Sim.world Obj → Sim.world Obj * A) w : guarded theirs mine (part w) (f (part w)).1 → I w (over f w).1.
Proof using Hset. unfold over. destruct (f (part w)) as [v a]. apply Hset. Qed.

Lemma read_server k o w : read_ok k o w → read_ok k o (part w).
Proof. intros (w0 & H0 & Hs). by exists (part w0). Qed.

Lemma world_writes at_key : OwnWrites (Obj := Obj) at_key I.
Proof using All.
  split.
  - exact Hget.
  - intros k w. apply guarded_over, get_guarded.
  - intros o w _ _. apply guarded_over, create_guarded.
  - intros o new w _ Hr%read_server Hman Hnew. apply guarded_over.
    apply (update_guarded theirs mine theirs_rv o); [done|by unfold theirs; rewrite Hman|by apply rewritten_key].
Qed.

Lemma world_deletes at_key : OwnDeletes (Obj := Obj) at_key I.
Proof using All.
  intros o w _ Hr%read_server Hman. apply guarded_over.
  apply (remove_guarded theirs mine theirs_rv o); [done|by unfold theirs; rewrite Hman].
Qed.

Lemma world_lists : ListReads world Obj I.
Proof using Hset. intros ns l w. apply guarded_over, list_guarded. Qed.
End kinds.

Definition kept {Obj} {O : KubeObject Obj} {PO : P Obj} (k : NamespacedName) (w w' : world) : Prop :=
  guarded theirs k (part w) (part w').

(** The objects of the names the app uses, made by somebody else. *)
Definition world_moves (w w' : world) : Prop :=
  kept (Obj := Secret) ("pj-shop-production", "web-credentials") w w' ∧
  kept (Obj := PlatformConfig) ("", "platform") w w' ∧
  kept (Obj := Deployment) ("pj-shop-production", "web") w w' ∧
  kept (Obj := CronJob) ("pj-shop-production", "web") w w' ∧
  kept (Obj := Service) ("pj-shop-production", "web") w w' ∧
  kept (Obj := Ingress) ("pj-shop-production", "web") w w' ∧
  kept (Obj := ServiceAccount) ("pj-shop-production", "web") w w' ∧
  kept (Obj := PersistentVolumeClaim) ("pj-shop-production", "web-data") w w' ∧
  kept (Obj := ConfigMap) ("pj-shop-production", "web-config-0") w w'.

#[local] Instance world_moves_preorder : PreOrder world_moves.
Proof.
  split.
  - intros w. split_and!; apply guarded_preorder.
  - intros w1 w2 w3 H1 H2. unfold world_moves, kept in *. destruct_and!. split_and!; (eapply guarded_preorder; [eassumption|eassumption]).
Qed.

Definition web : App := with_App_ObjectMeta (with_name "web" (with_namespace "pj-shop" ObjectMeta_zero)) App_zero.
Definition production : Environment := with_Environment_Name "production" Environment_zero.

Lemma web_moves : WorkloadMoves web "pj-shop-production" world_moves.
Proof.
  split; try apply _; try (eapply (world_writes _ world_moves)); try (eapply (world_deletes _ world_moves)).
  all: try eapply (world_lists _ world_moves).
  all: first [intros v [] H; unfold world_moves, kept; split_and!; first [exact H|reflexivity]
             |intros w w' H; unfold world_moves, kept in H; repeat match goal with H : _ ∧ _ |- _ => destruct H end;
              match goal with H : guarded _ _ _ _ |- _ => exact (proj1 H) end
             |exact (λ _, False)].
Qed.

Lemma files_listed ns labels (w w' : world) l :
  klist_in (Obj := ConfigMap) ns labels w = (w', inr l) → ∀ o, o ∈ l → read_ok (obj_key o) o w' ∧ selected ns labels o = true.
Proof. exact (lifted_list_ok files_part ns labels w w' l). Qed.

Definition empty : world := World nothing nothing nothing nothing nothing nothing nothing nothing nothing.

(** Somebody else's Service and Secret have the names the app would use. *)
Definition with_theirs : world :=
  World (stored_now [{| sec_meta := object_meta "pj-shop-production" "web-credentials" ∅ ∅; sec_Type := "Opaque"; sec_Data := ∅ |}])
    nothing nothing nothing
    (stored_now [{| svc_meta := object_meta "pj-shop-production" "web" ∅ ∅; svc_Type := ""; svc_ExternalName := "";
                    svc_Selector := ∅; svc_Ports := [] |}])
    nothing nothing nothing nothing.

Lemma workloads_touch_own_witness :
  WorkloadMoves web "pj-shop-production" world_moves ∧
  world_moves with_theirs (reconcileService web production "pj-shop-production" with_theirs).1 ∧
  world_moves with_theirs (reconcileCredentialsSecret range_sorted_order web "pj-shop-production" "production" with_theirs).1.
Proof.
  split; [exact web_moves|].
  destruct (workloads_touch_own (M := web_moves) range_sorted_order web "pj-shop-production" world_moves files_listed
    None None production "nginx:1" "" true "production" with_theirs) as (_ & _ & H1 & _ & _ & _ & _ & _ & H2).
  by split.
Defined.

(** *** Settling *)

(** Different kinds are different parts. *)
#[local] Hint Extern 0 (PartApart world _ _) => (by intros v []) : typeclass_instances.

Section apart.
Context {A B : Type} {OA : KubeObject A} {OB : KubeObject B} {OAK : KubeObjectOk A} {OBK : KubeObjectOk B} {PA : P A} {PB : P B}
  {AOK : PartOk world (Sim.world A)} {BOK : PartOk world (Sim.world B)} {PP : PartApart world (Sim.world A) (Sim.world B)}.

Lemma over_other {R} (f : Sim.world A → Sim.world A * R) (w : world) : unaffected B w (over f w).1.
Proof using PP. unfold over, unaffected. destruct (f (part w)) as [v a]. simpl. by rewrite part_apart. Qed.

#[local] Instance world_apart : KubeApart world A B.
Proof using PP. apply lifted_apart. Qed.

Lemma get_apart k (w : world) : unaffected B w (kget (Obj := A) k w).1.
Proof using PP. apply over_other. Qed.
Lemma deletion_apart k (w : world) : unaffected B w (kdelete A k w).1.
Proof using PP. apply over_other. Qed.
End apart.
#[local] Existing Instance world_apart.

#[local] Instance deployments_apart : ReadsApart (W := world) Deployment.
Proof. split; [apply _|apply _|apply get_apart|apply get_apart]. Qed.
#[local] Instance cronjobs_apart : ReadsApart (W := world) CronJob.
Proof. split; [apply _|apply _|apply get_apart|apply get_apart]. Qed.
#[local] Instance ingresses_apart : ReadsApart (W := world) Ingress.
Proof. split; [apply _|apply _|apply get_apart|apply get_apart]. Qed.

Definition nightly : Environment := with_Environment_Annotations {["team" := "shop"]} production.
Definition web_labels : gmap string string := default ∅ (appLabels web "production").

Lemma workloads_settle_witness :
  appLabels web "production" = Some web_labels ∧ user_ok (Environment_Annotations nightly) ∧ inputs ∅ ∅ empty ∧
  let f := reconcileDeployment range_sorted_order web nightly "pj-shop-production" "nginx:1" "" true in
  ∃ w1 w2 w3 o, f empty = (w1, inr tt) ∧ f w1 = (w2, inr tt) ∧ f w2 = (w3, inr tt) ∧
    kstore (Obj := Deployment) w3 = kstore w2 ∧ kstore w2 !! ("pj-shop-production", "web") = Some o ∧
    deployed web nightly web_labels "nginx:1" "" (env_hash_of range_sorted_order "pj-shop-production" ∅ "web") true
      (resources_of ∅ nightly) o ∧ deployment_made web web_labels o.
Proof.
  assert (appLabels web "production" = Some web_labels) as Hl by (vm_compute; reflexivity).
  assert (user_ok (Environment_Annotations nightly)) as Hu.
  { split; [reflexivity|]. intros k. unfold own, nightly. simpl. rewrite dom_delete, dom_singleton, elem_of_difference, elem_of_singleton.
    by intros [-> _]. }
  assert (inputs ∅ ∅ empty) as Hi by (split_and!; reflexivity).
  split; [exact Hl|]. split; [exact Hu|]. split; [exact Hi|]. intros f.
  destruct (workloads_settle range_sorted_order get_apart get_apart web nightly "pj-shop-production" web_labels
    Hl Hu ∅ ∅ deletion_apart deletion_apart None None "nginx:1" "" true empty Hi) as (H & _); try reflexivity.
  assert ((f empty).2 = inr tt) as H1%ends_with by (vm_compute; reflexivity).
  destruct (H _ H1) as (w2 & w3 & o & H2 & H3 & Hs & Ho & Hd & Hm & _). exists (f empty).1, w2, w3, o.
  exact (conj H1 (conj H2 (conj H3 (conj Hs (conj Ho (conj Hd (Hm eq_refl))))))).
Defined.

(** *** Annotations *)

Definition last_desired : gmap string string := {["a" := "1"; "b" := "2"]}.
Definition now_desired : gmap string string := {["b" := "3"]}.

(** Somebody added an annotation and changed one of ours since. *)
Definition edited : gmap string string := <["a" := "9"]> (<["theirs" := "x"]> (stampManagedAnnotations last_desired)).

Lemma annotations_three_way_witness :
  keys_ok last_desired ∧ keys_ok now_desired ∧
  let '(result, changed) := mergeManagedAnnotations edited now_desired in
  result !! "a" = None ∧ result !! "b" = Some "3" ∧ result !! "theirs" = Some "x" ∧ (changed = true ↔ result ≠ edited) ∧
  mergeManagedAnnotations result now_desired = (result, false).
Proof.
  assert (∀ m : gmap string string, forallb (λ k, negb (String.eqb k "") && no_char ","%char k) (map_to_list m).*1 = true → keys_ok m) as Hok.
  { intros m Hall k [v Hk]%elem_of_dom. unfold own in Hk. apply lookup_delete_Some in Hk as [_ Hk].
    rewrite forallb_forall in Hall. assert (k ∈ (map_to_list m).*1) as Hin%list_elem_of_In.
    { apply list_elem_of_fmap. exists (k, v). split; [done|by apply elem_of_map_to_list]. }
    apply Hall, andb_true_iff in Hin as [Hne Hc]. split; [|done]. by apply negb_true_iff, String.eqb_neq in Hne. }
  assert (keys_ok last_desired ∧ keys_ok now_desired) as [H1 H2] by (split; apply Hok; vm_compute; reflexivity).
  split; [exact H1|]. split; [exact H2|].
  pose proof (annotations_three_way (stampManagedAnnotations last_desired) last_desired edited now_desired H1 H2
    (or_introl eq_refl) ltac:(vm_compute; reflexivity)) as H.
  destruct (mergeManagedAnnotations edited now_desired) as [result changed]. destruct H as (Hr & Hc & Hs).
  split; [by rewrite (Hr "a")|]. split; [by rewrite (Hr "b")|]. split; [by rewrite (Hr "theirs")|]. done.
Defined.

(** *** Where the objects are not what the app asks for *)

Definition sourced (source : AppSource) (app : App) : App := with_App_Spec (with_AppSpec_Source source (App_Spec app)) app.
Definition stored (names : list string) (app : App) : App :=
  with_App_Spec (with_AppSpec_Storage
    ((λ name, {| VolumeSpec_Name := name; VolumeSpec_MountPath := "/data"; VolumeSpec_Size := "1Gi"; VolumeSpec_StorageClass := "";
                 VolumeSpec_AccessMode := "" |}) <$> names) (App_Spec app)) app.

Definition outside : AppSource :=
  {| AppSource_Type := "external"; AppSource_Repo := ""; AppSource_Branch := ""; AppSource_Path := ""; AppSource_WatchPaths := [];
     AppSource_Build := None; AppSource_ProviderRef := ""; AppSource_Image := ""; AppSource_PullSecretRef := "";
     AppSource_External := Some {| ExternalSource_Host := "db.example.com"; ExternalSource_Port := 5432 |} |}.

(** An app that leads to a host outside and then runs an image keeps the Service that leads outside. *)
Example service_stays_external :
  let w := (reconcileExternalNameService (sourced outside web) production "pj-shop-production" empty).1 in
  let '(w, r) := reconcileService web production "pj-shop-production" w in
  (r, (λ s, (svc_Type s, svc_ExternalName s)) <$> kstore (Obj := Service) w !! ("pj-shop-production", "web")) =
  (inr tt, Some ("ExternalName", "db.example.com")).
Proof. vm_compute. reflexivity. Qed.

(** A volume that is added to a running app is mounted, but the Deployment still rolls: the
    pod that comes waits for the claim of the one that stays. *)
Example strategy_stays :
  let deploy app := reconcileDeployment range_sorted_order app production "pj-shop-production" "nginx:1" "" true in
  let w := (deploy web empty).1 in
  let '(w, r) := deploy (stored ["data"] web) w in
  (r, (λ d, (Volume_Name <$> PodSpec_Volumes (PodTemplateSpec_Spec (dep_Template d)), dep_Strategy d)) <$>
        kstore (Obj := Deployment) w !! ("pj-shop-production", "web"), deploymentStrategy (stored ["data"] web)) =
  (inr tt, Some (["data"], ""), "Recreate").
Proof. vm_compute. reflexivity. Qed.

(** Two apps that get one claim: the second takes the labels of the first away. *)
Definition named_app (name : string) : App :=
  with_App_ObjectMeta (with_name name (with_namespace "pj-shop" ObjectMeta_zero)) App_zero.
Example claims_collide :
  let w := (reconcilePVCs (stored ["b-c"] (named_app "a")) "pj-shop-production" "production" empty).1 in
  let '(w, r) := reconcilePVCs (stored ["c"] (named_app "a-b")) "pj-shop-production" "production" w in
  (r, (λ c, (c.1.2, meta_Labels (pvc_meta c.2) !! AppNameLabel)) <$> map_to_list (kstore (Obj := PersistentVolumeClaim) w)) =
  (inr tt, [("a-b-c", Some "a-b")]).
Proof. vm_compute. reflexivity. Qed.

(** A Deployment of somebody else is an error and stays. *)
Example theirs_is_refused :
  let '(w, r) := reconcileService web production "pj-shop-production" with_theirs in
  (r, size (kstore (Obj := Service) w)) = (inl (resourceConflictError "Service" "web" "pj-shop-production"), 1%nat).
Proof. vm_compute. reflexivity. Qed.
End WorkloadRuns.
