(* ===== verification/AppLifecycleRuns.v ===== *)
(** * The life of an app: runs

    A world with a server for apps beside those of the garbage collection. *)

From S2P Require Import Prelude GoStrings Kube GoTime Core Api KubeStatus Effects Controller Constants BuildRun EnvStore EnvResolver EnvReconcile ProjectReconcile ApiServer AppGc AppWorkloads AppLifecycle AppLifecycleFacts Cluster.

(** * Garbage of apps: runs

    The collection on a world that has a server for each of the eight kinds. *)

Module GcRuns.
#[local] Existing Instances Sim.hist_preorder Sim.client Sim.client_ok Sim.deleter Sim.deleter_ok Sim.lister Sim.lister_ok.

(** An object of any kind. *)
Record thing := { th_meta : ObjectMeta }.
#[local] Instance thing_object : KubeObject thing := {| obj_meta := th_meta; set_meta m _ := {| th_meta := m |} |}.
#[local] Instance thing_object_ok : KubeObjectOk thing.
Proof. split; by intros []. Qed.

Local Abbreviation server := (Sim.world thing).
Record world := World { w1 : server; w2 : server; w3 : server; w4 : server; w5 : server; w6 : server; w7 : server; w8 : server;
                        spaces : Sim.world Namespace }.

Definition things (w : world) (k : gc_kind) : server :=
  match k with
  | GcDeployments => w1 w | GcCronJobs => w2 w | GcServices => w3 w | GcIngresses => w4 w | GcConfigMaps => w5 w
  | GcSecrets => w6 w | GcServiceAccounts => w7 w | GcPersistentVolumeClaims => w8 w
  end.
Definition set_things (k : gc_kind) (v : server) '(World a b c d e f g h n) : world :=
  match k with
  | GcDeployments => World v b c d e f g h n | GcCronJobs => World a v c d e f g h n | GcServices => World a b v d e f g h n
  | GcIngresses => World a b c v e f g h n | GcConfigMaps => World a b c d v f g h n | GcSecrets => World a b c d e v g h n
  | GcServiceAccounts => World a b c d e f v h n | GcPersistentVolumeClaims => World a b c d e f g v n
  end.

Definition kind_part (k : gc_kind) : Part world server := {| part w := things w k; set_part := set_things k |}.
Lemma kind_part_ok k : PartOk world server (P := kind_part k).
Proof. split; by intros; destruct k; repeat match goal with w : world |- _ => destruct w end. Qed.
#[local] Instance spaces_part : Part world (Sim.world Namespace) :=
  {| part := spaces; set_part v '(World a b c d e f g h _) := World a b c d e f g h v |}.
#[local] Instance spaces_part_ok : PartOk world (Sim.world Namespace).
Proof. split; by intros; repeat match goal with w : world |- _ => destruct w end. Qed.

(** The clients of the kinds. *)
Definition T (k : gc_kind) : Type := thing.
#[local] Instance kind_object k : KubeObject (T k) := thing_object.
#[local] Instance kind_client k : KubeClient world (T k) := lifted_client (kind_part k) Sim.client.
#[local] Instance kind_ok k : KubeClientOk world (T k) := lifted_ok (kind_part k) (POK := kind_part_ok k) Sim.client Sim.client_ok.
#[local] Instance kind_deleter k : KubeDelete world (T k) := lifted_deleter (kind_part k) Sim.deleter.
#[local] Instance kind_lister k : KubeListIn world (T k) := lifted_lister (kind_part k) Sim.lister.
#[local] Instance kind_deleter_ok k : KubeDeleteOk world (T k) :=
  lifted_deleter_ok (kind_part k) (POK := kind_part_ok k) Sim.client Sim.client_ok Sim.deleter Sim.deleter_ok.
#[local] Instance kind_lister_ok k : KubeListOk world (T k) :=
  lifted_lister_ok (kind_part k) (POK := kind_part_ok k) Sim.client Sim.client_ok Sim.lister Sim.lister_ok.
#[local] Instance ns_client : KubeClient world Namespace := lifted_client spaces_part Sim.client.
#[local] Instance ns_ok : KubeClientOk world Namespace := lifted_ok spaces_part Sim.client Sim.client_ok.
#[local] Instance ns_lister : KubeListIn world Namespace := lifted_lister spaces_part Sim.lister.
#[local] Instance ns_lister_ok : KubeListOk world Namespace :=
  lifted_lister_ok spaces_part Sim.client Sim.client_ok Sim.lister Sim.lister_ok.

Lemma other_things k k' v w : k ≠ k' → things (set_things k v w) k' = things w k'.
Proof. destruct w. by destruct k, k'. Qed.

Lemma over_kind {A} k k' (f : server → server * A) (w : world) :
  k ≠ k' → unaffected (T k') w (over (P := kind_part k) f w).1.
Proof.
  intros Hne. unfold unaffected, over. simpl. destruct (f (things w k)) as [v a]. simpl. by rewrite other_things.
Qed.
Lemma over_spaces {A} k (f : Sim.world Namespace → Sim.world Namespace * A) (w : world) : unaffected (T k) w (over f w).1.
Proof. unfold unaffected, over. simpl. destruct (f (spaces w)) as [v a]. destruct w. by destruct k. Qed.

(** *** A run *)

Definition web : App := with_App_ObjectMeta (with_name "web" (with_namespace "pj-shop" ObjectMeta_zero)) App_zero.

Definition labelled (ns name : string) (labels : gmap string string) : thing :=
  {| th_meta := with_labels labels (with_name name (with_namespace ns ObjectMeta_zero)) |}.
Definition mine (ns name : string) : thing := labelled ns name (app_selector "web" "shop").
Definition space (name project : string) : Namespace :=
  {| ns_meta := with_labels {[ProjectLabel := project]} (with_name name ObjectMeta_zero) |}.

Definition holding (l : list thing) : server := stored_now l.

Definition start : world :=
  World (holding [mine "pj-shop-production" "web"; labelled "pj-shop-production" "api" (app_selector "api" "shop")])
    nothing nothing nothing nothing
    (holding [mine "pj-shop-production" "web-env"; labelled "pj-shop" "deploy-token-web-ci" (token_selector "web")])
    nothing (holding [mine "pj-shop-dev" "web-data"]) (stored_now [space "pj-shop-production" "shop"; space "pj-blog" "blog"]).

Definition left_in (w : world) (k : gc_kind) : list string := (map_to_list (kstore (Obj := T k) w)).*1.*2.

(** The objects of another app stay, and so do those of the app in a namespace that does
    not carry the label of the project. *)
Example collected :
  let '(w, r) := gcAppAcrossEnvs web start in
  (r, left_in w GcDeployments, left_in w GcSecrets, left_in w GcPersistentVolumeClaims) = (inr tt, ["api"], [], ["web-data"]).
Proof. vm_compute. reflexivity. Qed.

Lemma gc_complete_witness :
  appProjectName web = inr "shop" ∧
  ∃ w', gcAppAcrossEnvs web start = (w', inr tt) ∧ shrinks start w' ∧
    (∀ ns k, meta_Labels (ns_meta ns) !! ProjectLabel = Some "shop" → kstore start !! obj_key ns = Some ns →
       clean k (app_selector (app_name_of web) "shop") (meta_Name (ns_meta ns)) w') ∧
    clean GcSecrets (token_selector (app_name_of web)) (meta_Namespace (App_ObjectMeta web)) w'.
Proof.
  split; [reflexivity|].
  apply (gc_complete (T := T) (λ k k' ns labels w, over_kind k k' _ w) (λ k k' key w, over_kind k k' _ w)
    (λ k ns labels w, over_spaces k _ w) web "shop" start).
  - by intros [].
  - reflexivity.
  - reflexivity.
Defined.

(** *** The moves *)

(** A Deployment of another app, in a namespace of the project. *)
Definition other_key : NamespacedName := ("pj-shop-production", "api").
Definition foreign (o : thing) : Prop := ¬ of_app "web" "shop" o.

Lemma foreign_rv rv o : foreign o → foreign (obj_with_rv rv o).
Proof. by destruct o as [[]]. Qed.

Definition world_moves (w w' : world) : Prop :=
  guarded foreign other_key (things w GcDeployments) (things w' GcDeployments) ∧
  ∀ k, Sim.hist (things w k) (things w' k).

#[local] Instance world_moves_preorder : PreOrder world_moves.
Proof.
  split; [intros w; split; [apply (guarded_preorder foreign other_key)|done]|]. intros w1 w2 w3 [H1 P1] [H2 P2].
  split; [by eapply (guarded_preorder foreign other_key)|]. intros k. etrans; [apply P1|apply P2].
Qed.

Lemma moves_kind {A} k (f : server → server * A) w :
  guarded foreign other_key (things w k) (f (things w k)).1 ∨
    k ≠ GcDeployments ∧ Sim.hist (things w k) (f (things w k)).1 →
  world_moves w (over (P := kind_part k) f w).1.
Proof.
  intros H. assert (Sim.hist (things w k) (f (things w k)).1) as Hh by (destruct H as [[H _]|[_ H]]; exact H).
  unfold over, world_moves. change (part (Part := kind_part k) w) with (things w k).
  destruct (f (things w k)) as [v a] eqn:E. cbn [fst] in *.
  change (set_part (Part := kind_part k) v w) with (set_things k v w). split.
  - destruct (decide (k = GcDeployments)) as [->|Hne].
    + destruct H as [H|[H _]]; [|done]. by destruct w.
    + by rewrite other_things.
  - intros k'. destruct (decide (k = k')) as [<-|Hne]; [|by rewrite other_things]. by destruct w, k.
Qed.

Lemma moves_spaces {A} (f : Sim.world Namespace → Sim.world Namespace * A) w : world_moves w (over f w).1.
Proof.
  unfold over, world_moves. simpl. destruct (f (spaces w)) as [v a]. destruct w. simpl.
  split; [apply (guarded_preorder foreign other_key)|]. by intros [].
Qed.

Lemma world_gc app project resolved :
  app_name_of app = "web" → appProjectName app = inr "shop" →
  GcMoves (goes_with app) world_moves ∧ GcMoves (leaves_with app project resolved) world_moves.
Proof.
  intros Hn Hp.
  assert (∀ may : ∀ k, T k → Prop, (∀ o, may GcDeployments o → of_app "web" "shop" o) → GcMoves may world_moves) as Hall.
  { intros may Hmay. split.
    - apply _.
    - by intros w w' [_ H].
    - intros k ns l w. apply moves_kind. left. apply list_guarded.
    - intros k0 w. apply moves_spaces.
    - intros ns l w. apply moves_spaces.
    - intros k o w Hr Hm. apply moves_kind. destruct (decide (k = GcDeployments)) as [->|Hne].
      + left. apply (remove_guarded foreign other_key foreign_rv o).
        * destruct Hr as (w0 & H0 & Hs). by exists (things w0 GcDeployments).
        * intros Hf. by apply Hf, Hmay.
      + right. split; [done|].
        apply (remove_guarded (λ _, False) ("", "") (λ _ _ H, H) o); [|by intros []].
        destruct Hr as (w0 & H0 & Hs). by exists (things w0 k). }
  split; apply Hall.
  - intros o (p & Hpp & [H|[H _]]); [|done]. rewrite Hn in H. rewrite Hp in Hpp. injection Hpp as <-. exact H.
  - intros o (p & env & Hpp & H & _). rewrite Hn in H. rewrite Hp in Hpp. injection Hpp as <-. exact H.
Qed.

Lemma gc_list_ok k ns labels (w w' : world) l :
  klist_in (Obj := T k) ns labels w = (w', inr l) → ∀ o, o ∈ l → read_ok (obj_key o) o w' ∧ selected ns labels o = true.
Proof.
  exact (lifted_list_ok (kind_part k) (POK := kind_part_ok k) ns labels w w' l).
Qed.

(** The app takes part in [production] only. *)
Definition two_envs : Project :=
  with_Project_Spec (with_ProjectSpec_Environments
    ((λ name, with_ProjectEnvironment_Name name ProjectEnvironment_zero) <$> ["dev"; "production"]) ProjectSpec_zero) Project_zero.
Definition in_production : list Environment := [with_Environment_Name "production" Environment_zero].

(** The Deployment of the other app is as before, if nobody else writes it. *)
Lemma gc_deletes_own_witness :
  GcMoves (goes_with web) world_moves ∧ GcMoves (leaves_with web two_envs in_production) world_moves ∧
  world_moves start (gcAppAcrossEnvs web start).1 ∧
  world_moves start (gcOptedOutEnvs web two_envs in_production start).1.
Proof.
  assert (GcMoves (goes_with web) world_moves ∧ GcMoves (leaves_with web two_envs in_production) world_moves) as [H1 H2]
    by by apply world_gc.
  split; [exact H1|]. split; [exact H2|].
  destruct (gc_deletes_own gc_list_ok web two_envs in_production world_moves start) as [G1 G2].
  split; [exact (G1 H1)|exact (G2 H2)].
Defined.

(** Leaving an environment keeps what the app stores there. *)
Example opted_out :
  let '(w, r) := gcOptedOutEnvs web two_envs []
    (World (holding [mine "pj-shop-dev" "web"; mine "pj-shop-production" "web"]) nothing nothing nothing nothing
       (holding [mine "pj-shop-dev" "web-env"]) nothing (holding [mine "pj-shop-dev" "web-data"]) nothing) in
  (r, left_in w GcDeployments, left_in w GcSecrets, left_in w GcPersistentVolumeClaims) =
  (inr tt, [], ["web-env"], ["web-data"]).
Proof. vm_compute. reflexivity. Qed.
End GcRuns.

Definition is_left {A B} (x : A + B) : bool := match x with inl _ => true | inr _ => false end.

Module LifecycleRuns.
Import GcRuns.
#[local] Existing Instances Sim.hist_preorder Sim.client Sim.client_ok Sim.deleter Sim.deleter_ok Sim.lister Sim.lister_ok
  GcRuns.thing_object GcRuns.thing_object_ok GcRuns.kind_object Finalizers.helpers Finalizers.finalizers_ok Meta.helpers Meta.helpers_ok
  SimStatus.updater.

Local Abbreviation server := (Sim.world thing).
Record world := World { objects : GcRuns.world; apps : Sim.world App }.

Definition kind_part k : Part world server :=
  {| part w := things (objects w) k; set_part v w := World (set_things k v (objects w)) (apps w) |}.
Lemma gc_part_ok k : PartOk world server (P := kind_part k).
Proof. split; intros; destruct k; repeat match goal with w : world |- _ => destruct w as [[] ?] end; done. Qed.
#[local] Instance spaces_part : Part world (Sim.world Namespace) :=
  {| part w := spaces (objects w);
     set_part v '(World (GcRuns.World a b c d e f g h _) x) := World (GcRuns.World a b c d e f g h v) x |}.
#[local] Instance spaces_part_ok : PartOk world (Sim.world Namespace).
Proof. split; intros; repeat match goal with w : world |- _ => destruct w as [[] ?] end; done. Qed.
#[local] Instance apps_part : Part world (Sim.world App) := {| part := apps; set_part v '(World x _) := World x v |}.
#[local] Instance apps_part_ok : PartOk world (Sim.world App).
Proof. split; intros; repeat match goal with w : world |- _ => destruct w end; done. Qed.

#[local] Instance kind_client k : KubeClient world (T k) := lifted_client (kind_part k) Sim.client.
#[local] Instance kind_ok k : KubeClientOk world (T k) := lifted_ok (kind_part k) (POK := gc_part_ok k) Sim.client Sim.client_ok.
#[local] Instance kind_deleter k : KubeDelete world (T k) := lifted_deleter (kind_part k) Sim.deleter.
#[local] Instance kind_lister k : KubeListIn world (T k) := lifted_lister (kind_part k) Sim.lister.
#[local] Instance kind_deleter_ok k : KubeDeleteOk world (T k) :=
  lifted_deleter_ok (kind_part k) (POK := gc_part_ok k) Sim.client Sim.client_ok Sim.deleter Sim.deleter_ok.
#[local] Instance kind_lister_ok k : KubeListOk world (T k) :=
  lifted_lister_ok (kind_part k) (POK := gc_part_ok k) Sim.client Sim.client_ok Sim.lister Sim.lister_ok.
#[local] Instance ns_client : KubeClient world Namespace := lifted_client spaces_part Sim.client.
#[local] Instance ns_ok : KubeClientOk world Namespace := lifted_ok spaces_part Sim.client Sim.client_ok.
#[local] Instance ns_lister : KubeListIn world Namespace := lifted_lister spaces_part Sim.lister.
#[local] Instance ns_lister_ok : KubeListOk world Namespace := lifted_lister_ok spaces_part Sim.client Sim.client_ok Sim.lister Sim.lister_ok.
#[local] Instance app_client : KubeClient world App := lifted_client apps_part Sim.client.
#[local] Instance app_ok : KubeClientOk world App := lifted_ok apps_part Sim.client Sim.client_ok.
#[local] Instance app_lister : KubeListIn world App := lifted_lister apps_part Sim.lister.
#[local] Instance app_lister_ok : KubeListOk world App := lifted_lister_ok apps_part Sim.client Sim.client_ok Sim.lister Sim.lister_ok.
#[local] Instance app_status : KubeStatus world App := lifted_status apps_part SimStatus.updater.
#[local] Instance app_status_ok : KubeStatusOk world App.
Proof. apply lifted_status_ok, SimStatus.updater_ok. Qed.
#[local] Instance world_retry : KubeRetry world := retry_loop default_retry_steps.
#[local] Instance world_retry_ok : KubeRetryOk world.
Proof. intros fn w. reflexivity. Qed.
#[local] Instance prune_retry : KubeRetry (world * (option App * bool)) := retry_loop default_retry_steps.
#[local] Instance prune_retry_ok : KubeRetryOk (world * (option App * bool)).
Proof. intros fn w. reflexivity. Qed.

(** Operations on one part leave the others alone. *)
Section apart.
Context {A : Type}.
Lemma kinds_apart k k' (f : server → server * A) w : k ≠ k' → unaffected (T k') w (over (P := kind_part k) f w).1.
Proof. intros Hne. unfold unaffected, over. simpl. destruct (f _) as [v a]. simpl. by rewrite other_things. Qed.
Lemma kind_app k (f : server → server * A) w : unaffected App w (over (P := kind_part k) f w).1.
Proof. unfold unaffected, over. simpl. by destruct (f _). Qed.
Lemma spaces_kind k (f : Sim.world Namespace → Sim.world Namespace * A) w : unaffected (T k) w (over f w).1.
Proof. unfold unaffected, over. simpl. destruct (f _). destruct w as [[] ?]. by destruct k. Qed.
Lemma spaces_app (f : Sim.world Namespace → Sim.world Namespace * A) w : unaffected App w (over f w).1.
Proof. unfold unaffected, over. simpl. destruct (f _). by destruct w as [[] ?]. Qed.
Lemma apps_kind k (f : Sim.world App → Sim.world App * A) w : unaffected (T k) w (over f w).1.
Proof. unfold unaffected, over. simpl. destruct (f _). by destruct w. Qed.
Lemma apps_spaces (f : Sim.world App → Sim.world App * A) w : unaffected Namespace w (over f w).1.
Proof. unfold unaffected, over. simpl. destruct (f _). by destruct w. Qed.
End apart.

Lemma apps_kind_apart k : KubeApart world App (T k).
Proof. split; intros; apply apps_kind. Qed.
Lemma spaces_read : KubeReads world Namespace (unaffected App).
Proof. intros key w. apply spaces_app. Qed.
Lemma apps_spaces_apart : KubeApart world App Namespace.
Proof. split; intros; apply apps_spaces. Qed.

(** *** A deletion *)

Definition binding (ref : string) : Binding := {| Binding_Ref := ref |}.
Definition consumer (name : string) (refs : list string) : App :=
  with_App_Spec (with_AppSpec_Environments [with_Environment_Bindings (binding <$> refs) (with_Environment_Name "production" Environment_zero)]
    AppSpec_zero) (with_App_ObjectMeta (with_name name (with_namespace "pj-shop" ObjectMeta_zero)) App_zero).

(** The database is deleted, with a Deployment; the shop uses it and a cache. *)
Definition going : App :=
  with_App_ObjectMeta
    {| meta_Name := "db"; meta_Namespace := "pj-shop"; meta_Labels := ∅; meta_Annotations := ∅; meta_UID := ""; meta_OwnerReferences := [];
       meta_ResourceVersion := "2"; meta_Generation := 1; meta_CreationTimestamp := 0; meta_DeletionTimestamp := Some 9%Z;
       meta_Finalizers := [AppFinalizer; "example.com/backup"] |} App_zero.
Definition start : world :=
  World (GcRuns.World (holding [labelled "pj-shop-production" "db" (app_selector "db" "shop"); labelled "pj-shop-production" "web" (app_selector "web" "shop")])
    nothing nothing nothing nothing nothing nothing nothing (stored_now [space "pj-shop-production" "shop"]))
    (stored_now [going; consumer "web" ["db"; "cache"]; consumer "cache" []]).

Definition refs_of (w : world) (name : string) : option (list string) := binding_refs <$> kstore (Obj := App) w !! ("pj-shop", name).

Example db_deleted :
  let '(w, r) := reconcile_deleted (T := T) going start in
  (r, refs_of w "web", refs_of w "cache", (λ a, meta_Finalizers (App_ObjectMeta a)) <$> kstore (Obj := App) w !! ("pj-shop", "db"),
   (map_to_list (kstore (Obj := T GcDeployments) w)).*1) =
  (inr Done, Some ["cache"], Some [], Some ["example.com/backup"], [("pj-shop-production", "web")]).
Proof. vm_compute. reflexivity. Qed.

Lemma app_deletion_ends_witness :
  appProjectName going = inr "shop" ∧ kstore (Obj := App) start !! obj_key going = Some going ∧
  ∃ w', reconcile_deleted (T := T) going start = (w', inr Done) ∧
    (∀ ns k, meta_Labels (ns_meta ns) !! ProjectLabel = Some "shop" → kstore start !! obj_key ns = Some ns →
       clean (T := T) k (app_selector "db" "shop") (meta_Name (ns_meta ns)) w') ∧
    clean (T := T) GcSecrets (token_selector "db") "pj-shop" w'.
Proof.
  assert (appProjectName going = inr "shop") as Hp by reflexivity.
  assert (kstore (Obj := App) start !! obj_key going = Some going) as Hs by (vm_compute; reflexivity).
  split; [exact Hp|]. split; [exact Hs|].
  destruct (app_deletion_ends (T := T) (λ k k' ns labels w, kinds_apart k k' _ w) (λ k k' key w, kinds_apart k k' _ w)
    (λ k ns labels w, spaces_kind k _ w) apps_kind_apart (λ k ns labels w, apps_kind k _ w) apps_spaces_apart
    (λ ns labels w, apps_spaces _ w) (λ k ns labels w, kind_app k _ w) (λ k key w, kind_app k _ w)
    (λ key w, spaces_app _ w) (λ ns labels w, spaces_app _ w) going "shop" start) as (w' & H1 & H2 & H3 & _).
  - exact Hp.
  - done.
  - done.
  - by left.
  - exact Hs.
  - reflexivity.
  - reflexivity.
  - by intros [].
  - exists w'. split; [exact H1|]. split; [exact H2|exact H3].
Defined.

(** *** Failures *)

Definition refused : error := KubeError Forbidden "secrets is forbidden".
Definition no_namespace : world := World (GcRuns.World nothing nothing nothing nothing nothing nothing nothing nothing nothing) (stored_now [consumer "web" []]).
Definition at_time (t : Time) : world → Time := λ _, t.
Definition stored_web (w : world) : App := default App_zero (kstore (Obj := App) w !! ("pj-shop", "web")).

(** A pass over the app as it is stored, at a time, while the namespace is missing. *)
Definition missing_pass (t : Time) (w : world) : world * (error + Result) :=
  envResourceError (at_time t) (stored_web w) "pj-shop-production" "production" "reconcile pvcs" refused w.

(** The namespace is waited for, from the first miss on, and after two minutes it is an error. *)
Example waits_two_minutes :
  let '(w1, r1) := missing_pass (5 * Minute) no_namespace in
  let '(w2, r2) := missing_pass (6 * Minute) w1 in
  let '(w3, r3) := missing_pass (7 * Minute) w2 in
  (r1, r2, AppStatus_Phase (App_Status (stored_web w2)), is_left r3, AppStatus_Phase (App_Status (stored_web w3))) =
  (inr {| RequeueAfter := 2 * Second |}, inr {| RequeueAfter := 2 * Second |}, "", true, "Failed").
Proof. vm_compute. reflexivity. Qed.

Lemma failures_reported_witness :
  let err := resourceConflictError "Service" "web" "pj-shop-production" in
  let web := stored_web no_namespace in
  ∃ w' b, envResourceError (at_time 1) web "pj-shop-production" "production" "reconcile service" err no_namespace =
      (w', inl (wrapped_error "reconcile service" "production" err)) ∧
    kstore w' !! obj_key web = Some b ∧ AppStatus_Phase (App_Status b) = AppPhaseFailed ∧
    ∃ c, FindStatusCondition (AppStatus_Conditions (App_Status b)) appResourceConflictCondition = Some c ∧ Condition_Status c = "True".
Proof.
  intros err web.
  destruct (failures_reported (at_time 1) (λ k w, eq_refl) spaces_read web "pj-shop-production" "production" "reconcile service"
    err no_namespace) as [_ H].
  destruct (H web) as (w' & b & H1 & H2 & [(c & H3 & H4 & _) H5] & _).
  - reflexivity.
  - reflexivity.
  - vm_compute. reflexivity.
  - exists w', b. split; [exact H1|]. split; [exact H2|]. split; [exact H5|]. exists c. split; [exact H3|exact H4].
Defined.

(** *** Bindings that mean nothing *)

(** The database is created after the app that uses it: the binding is gone by then, and
    does not come back. *)
Example binding_does_not_come_back :
  let w := World (GcRuns.World nothing nothing nothing nothing nothing nothing nothing nothing nothing) (stored_now [consumer "web" ["db"]]) in
  let w := (pruneMissingBindingsForConsumer range_sorted_order (stored_web w) w).1 in
  let w := (kcreate (consumer "db" []) w).1 in
  let '(w, r) := pruneMissingBindingsForConsumer range_sorted_order (stored_web w) w in
  (is_left r, refs_of w "web") = (false, Some []).
Proof. vm_compute. reflexivity. Qed.
End LifecycleRuns.
