(* ===== verification/BuildRunRuns.v ===== *)
(** * Build runs: runs

    The build run controller on a cluster: the relation its writes stay within, and the
    theorems on builds at concrete worlds. *)

From S2P Require Import Prelude GoStrings Sha256 GoNum Kube GoTime GoText Core Api KubeStatus Effects Controller Constants BuildRun BuildRunFacts AppBuild AppBuildFacts BuildTracker BuildRunReconcile BuildRunLogs ApiServer BuildRunFlow BuildRunSystem BuildRunEnds Cluster.

(** ** Writes of runs that stay within the attempts *)

Definition few_attempts (br : BuildRun) : Prop :=
  (BuildRunStatus_Attempt (BuildRun_Status br) ≤ maxBuildRunInterruptionAttempts)%Z.

Definition bounded_write (x : Sim.write BuildRun) : Prop :=
  match x with Sim.Put o => few_attempts o | Sim.Del _ => True end.

(** Everything that was written, and everything others will write. *)
Definition bounded (v : Sim.world BuildRun) : Prop :=
  Forall bounded_write (Sim.log v) ∧ ∀ x, Sim.External x ∈ Sim.pending v → bounded_write x.

Definition moved (v v' : Sim.world BuildRun) : Prop := Sim.hist v v' ∧ (bounded v → bounded v').

#[local] Existing Instances Sim.hist_preorder Sim.client Sim.client_ok.

#[export] Instance moved_preorder : PreOrder moved.
Proof.
  split; [by intros v; split|]. intros v1 v2 v3 [H1 H2] [H3 H4]. split; [by etrans|auto].
Qed.

Lemma tick_moved v v' r : Sim.tick v = (v', r) → moved v v'.
Proof.
  intros Ht. split; [by eapply Sim.tick_hist|]. unfold Sim.tick in Ht. intros [Hl Hp].
  destruct (Sim.pending v) as [|[|x|e] p] eqn:Ep; simplify_eq; (split; [simpl; try done|simpl; try (by rewrite Ep)]);
    try (intros y Hy; apply Hp; by right).
  constructor; [apply Hp; by left|done].
Qed.

Lemma write_moved v x : (bounded v → bounded_write x) → moved v (Sim.World (x :: Sim.log v) (Sim.pending v)).
Proof. intros Hx. split; [by exists [x]|]. intros [Hl Hp]. split; [constructor; [by apply Hx|done]|done]. Qed.

(** A stored run was written. *)
Lemma stored_written l k (o : BuildRun) : Sim.store l !! k = Some o → Forall bounded_write l → few_attempts o.
Proof.
  induction l as [|[p|d] l IH]; simpl; intros Hk Hl; [done| |]; inversion_clear Hl as [|? ? Hp Hrest].
  - apply lookup_insert_Some in Hk as [[_ <-]|[_ Hk]]; [exact Hp|by apply IH].
  - apply lookup_delete_Some in Hk as [_ Hk]. by apply IH.
Qed.

Lemma read_bounded k br (v : Sim.world BuildRun) : read_ok k br v → bounded v → few_attempts br.
Proof.
  intros (v0 & [l Hl] & Hs) [Hb _]. apply (stored_written (Sim.log v0) k); [exact Hs|].
  rewrite Hl in Hb. by apply Forall_app in Hb as [_ Hb].
Qed.

(** ** The moves of the controller on a cluster *)

Definition run_moves (w w' : cluster) : Prop := moved (cl_buildruns w) (cl_buildruns w').

#[export] Instance run_moves_preorder : PreOrder run_moves.
Proof. split; [by intros w; unfold run_moves|]. intros w1 w2 w3 H1 H2. unfold run_moves in *. by etrans. Qed.

(** Calls on other kinds. *)
Lemma over_apart {V A} {P : Part cluster V} {PA : PartApart cluster V (Sim.world BuildRun)} (f : V → V * A) w :
  run_moves w (over f w).1.
Proof.
  unfold over, run_moves. destruct (f (part w)) as [v a]. simpl.
  change (moved (part w) (part (V := Sim.world BuildRun) (set_part v w))). by rewrite part_apart.
Qed.

Lemma over_runs {A} (f : Sim.world BuildRun → Sim.world BuildRun * A) w :
  moved (cl_buildruns w) (f (cl_buildruns w)).1 → run_moves w (over f w).1.
Proof.
  unfold over, run_moves. change (part w) with (cl_buildruns w). destruct (f (cl_buildruns w)) as [v a].
  by destruct w.
Qed.

#[export] Instance cluster_on_error : KubeOnError cluster := SimStatus.on_error.
#[export] Instance cluster_on_error_ok : KubeOnErrorOk cluster.
Proof. apply SimStatus.on_error_ok. Qed.
#[export] Instance cluster_run_retry : KubeRetry (cluster * BuildRun) := retry_loop default_retry_steps.
#[export] Instance cluster_run_retry_ok : KubeRetryOk (cluster * BuildRun).
Proof. intros fn w. reflexivity. Qed.

Lemma get_moved k (v : Sim.world BuildRun) : moved v (Sim.get k v).1.
Proof. unfold Sim.get. destruct (Sim.tick v) as [v' [e|]] eqn:E; apply tick_moved in E; [done|]. by case_match. Qed.

Lemma list_moved ns labels (v : Sim.world BuildRun) : moved v (Sim.list_in ns labels v).1.
Proof. unfold Sim.list_in. destruct (Sim.tick v) as [v' [e|]] eqn:E; by apply tick_moved in E. Qed.

Lemma remove_moved k (v : Sim.world BuildRun) : moved v (Sim.remove k v).1.
Proof.
  unfold Sim.remove. destruct (Sim.tick v) as [v' [e|]] eqn:E; apply tick_moved in E; [done|].
  case_match; [|done]. simpl. etrans; [exact E|]. by apply write_moved.
Qed.

Lemma status_moved br (v : Sim.world BuildRun) : (bounded v → few_attempts br) → moved v (SimStatus.update br v).1.
Proof.
  intros Hb. unfold SimStatus.update. destruct (Sim.tick v) as [v' [e|]] eqn:E; [by apply tick_moved in E|].
  pose proof (Sim.tick_hist _ _ _ E) as Hh. apply tick_moved in E. case_match; [|done]. case_match; [|done]. simpl.
  split; [etrans; [exact Hh|by exists [Sim.Put (status_from br b)]]|]. intros Hv. destruct E as [_ Hv'].
  split; [|by apply Hv']. constructor; [|by apply Hv']. exact (Hb Hv).
Qed.

Section moves.
Context {CH : ConditionHelpers}.

#[export] Instance cluster_moves : ControllerMoves cluster (kget (Obj := BuildRun)) run_moves.
Proof.
  split.
  - apply _.
  - by intros w w' [H _].
  - intros k w. apply over_runs, get_moved.
  - intros k w. apply over_runs, get_moved.
  - intros ns labels w. apply over_runs, list_moved.
  - split; intros; apply over_apart.
  - intros k w. apply over_apart.
  - intros k w. apply over_apart.
  - intros k w. apply over_apart.
  - intros o w. apply over_apart.
  - intros br br' w (w0 & H0 & Hs) Hstep. apply over_runs, status_moved. intros Hb.
    apply run_step_facts in Hstep as (_ & _ & _ & Hle). apply Hle.
    apply (read_bounded (obj_key br) br (cl_buildruns w)); [|exact Hb]. by exists (cl_buildruns w0).
  - intros br w _ _. apply over_runs, remove_moved.
Qed.
End moves.

Lemma cluster_reader_ok : reader_ok (kget (W := cluster) (Obj := BuildRun)).
Proof. intros k w w' r Hg. exact (kget_spec _ _ _ _ Hg). Qed.

Lemma cluster_list_read ns labels (w w' : cluster) l :
  klist_in (Obj := BuildRun) ns labels w = (w', inr l) → ∀ br, br ∈ l → read_ok (obj_key br) br w'.
Proof.
  intros [Hl _]%(over_eq buildruns_part) br Hbr. unfold klist_in, Sim.lister, Sim.list_in in Hl.
  destruct (Sim.tick (part w)) as [v [e|]]; [done|]. injection Hl as Hv Hl. subst l.
  apply list_elem_of_In, filter_In in Hbr as [Hbr _]. apply list_elem_of_In, list_elem_of_fmap in Hbr as ([k o] & -> & Hk).
  apply elem_of_map_to_list in Hk. exists w'. split; [reflexivity|]. simpl.
  assert (kstore w' !! k = Some o) as Hs by (unfold kstore; simpl; by rewrite <-Hv).
  by rewrite (kstore_key _ _ _ Hs).
Qed.

(** Reading without a cache, in a calm world. *)
Lemma cluster_uncached k (w : cluster) : calm w → ∃ w', calm w' ∧ runs w' = runs w ∧
  match runs w !! k with
  | Some br => kget (Obj := BuildRun) k w = (w', inr br)
  | None => ∃ e, kget (Obj := BuildRun) k w = (w', inl e) ∧ IsNotFound e = true
  end.
Proof.
  intros (Hr & Hc & Hx). destruct (kget_quiet (Obj := BuildRun) k w Hr) as (w' & Hq & Hs & Hg).
  pose proof (kget_within (I := unaffected ConfigMap) (Obj := BuildRun) k w) as [_ H1].
  pose proof (kget_within (I := unaffected Secret) (Obj := BuildRun) k w) as [_ H2].
  exists w'. assert (∀ r : error + BuildRun, kget k w = (w', r) → calm w') as Hcalm.
  { intros r E. rewrite E in H1, H2. split_and!; auto. }
  unfold runs in *. destruct (kstore w !! k); [by eauto|]. destruct Hg as (e & Hg & Hn). by eauto 6.
Qed.

Lemma run_list_apart ns l (w : cluster) :
  unaffected ConfigMap w (klist_in (Obj := BuildRun) ns l w).1 ∧ unaffected App w (klist_in (Obj := BuildRun) ns l w).1.
Proof. split; apply cluster_list_apart. Qed.

(** ** A run *)

Module Runs.
#[local] Existing Instances range_sorted_order range_sorted_order_ok Meta.helpers.
Abbreviation R := range_sorted_order.

Definition owner_set (owner m : ObjectMeta) : error + ObjectMeta :=
  inr (with_owners [{| owner_APIVersion := "mortise.mortise.dev/v1alpha1"; owner_Kind := "BuildRun";
                       owner_Name := meta_Name owner; owner_UID := meta_UID owner;
                       owner_Controller := Some true; owner_BlockOwnerDeletion := Some true |}] m).

Definition start_time : Time := 1770000000000000000%Z.
Definition clock (t : Time) (w : cluster) : Time := t.

(** A registry without images. *)
Definition no_tag (w : cluster) (project app tag : string) : error + string * bool := inr ("", false).
(** A registry that has every tag. *)
Definition any_tag (w : cluster) (project app tag : string) : error + string * bool := inr ("sha256:abc", true).

Definition key : NamespacedName := ("pj-shop", "app-web-production").

Definition spec : BuildRunSpec :=
  {| BuildRunSpec_AppName := "web";
     BuildRunSpec_TargetRef := {| BuildRunTargetRef_Kind := BuildRunTargetAppEnvironment; BuildRunTargetRef_Name := "web";
                                  BuildRunTargetRef_Namespace := "" |};
     BuildRunSpec_Environment := "production"; BuildRunSpec_Trigger := "push"; BuildRunSpec_RequestID := "";
     BuildRunSpec_ProviderRef := "github"; BuildRunSpec_CreatedBy := ""; BuildRunSpec_TokenOwner := "";
     BuildRunSpec_Repo := "https://github.com/acme/web"; BuildRunSpec_Branch := "main";
     BuildRunSpec_Revision := "0123456789"; BuildRunSpec_SourcePath := ""; BuildRunSpec_Path := "";
     BuildRunSpec_BuildMode := ""; BuildRunSpec_DockerfilePath := ""; BuildRunSpec_Dockerfile := "";
     BuildRunSpec_BuildContext := ""; BuildRunSpec_BuildArgs := ∅;
     BuildRunSpec_PushTarget := "registry/mortise/shop-web:0123456-production"; BuildRunSpec_PushImage := "";
     BuildRunSpec_PullTarget := "registry/mortise/shop-web:0123456-production"; BuildRunSpec_PullImage := "";
     BuildRunSpec_NoCache := false; BuildRunSpec_InputHash := "";
     BuildRunSpec_TokenSecretRef :=
       Some {| SecretRef_Namespace := "pj-shop"; SecretRef_Name := "git"; SecretRef_Key := "token" |} |}.

Definition the_run (status : BuildRunStatus) : BuildRun :=
  with_BuildRun_Status status (with_BuildRun_Spec spec
    (with_BuildRun_ObjectMeta (with_name "app-web-production" (with_namespace "pj-shop" ObjectMeta_zero)) BuildRun_zero)).

Definition git_token : Secret :=
  {| sec_meta := with_name "git" (with_namespace "pj-shop" ObjectMeta_zero); sec_Type := ""; sec_Data := {["token" := "t0ken"]} |}.

Definition world (apps : Sim.world App) (status : BuildRunStatus) : cluster :=
  {| cl_projects := nothing; cl_members := nothing; cl_apps := apps; cl_previews := nothing;
     cl_secrets := stored_now [git_token]; cl_configmaps := nothing; cl_namespaces := nothing;
     cl_rolebindings := nothing; cl_buildruns := stored_now [the_run status] |}.

Definition idle (w : cluster) : RState := {| rs_world := w; rs_builds := no_builds; rs_spawned := []; rs_outcomes := [] |}.

Local Abbreviation reconcile tags t := (Reconcile R owner_set (clock t) (kget (Obj := BuildRun)) true (Some tags)).

Definition pending_run : RState := idle (world nothing BuildRunStatus_zero).

(** The first reconciliation starts a build. *)
Example first_build :
  (reconcile no_tag start_time key pending_run).2 = inr {| RequeueAfter := buildRunPollInterval |}.
Proof. vm_compute. reflexivity. Qed.

Lemma Reconcile_moves_witness :
  run_moves (rs_world pending_run) (rs_world (reconcile no_tag start_time key pending_run).1).
Proof.
  exact (Reconcile_moves R owner_set (clock start_time) (kget (Obj := BuildRun)) true (Some no_tag)
    run_moves cluster_reader_ok cluster_list_read key pending_run).
Defined.

(** *** One live build *)

(** A host on which the build writes a line and succeeds. *)
Definition host : build_host :=
  {| bh_MkdirTemp := inr "/tmp/clone"; bh_Clone _ _ _ _ := None; bh_CheckoutRevision _ _ := None;
     bh_fs := {| fs_Join a b := a +:+ "/" +:+ b; fs_Stat _ := StatDir |};
     bh_Submit _ := inr [EventLog "step 1"; EventSuccess "sha256:abc" 8080] |}.

Definition no_rest : gmap nat (NamespacedName * list tracker_op) := ∅.

Definition started : RState := (reconcile no_tag start_time key pending_run).1.

Definition with_build : system :=
  {| sys_ctl := started; sys_live := goroutines (λ _, host) (rs_spawned started) no_rest |}.

Lemma one_live_build_witness :
  live_build with_build key 1 ∧
  (∃ t, tracker_of key (rs_builds (sys_ctl with_build)) = Some t ∧ bt_phase t = buildPhaseRunning) ∧
  ∀ l', live_build with_build key l' → l' = 1.
Proof.
  assert (live_build with_build key 1) as Hl.
  { split; [|vm_compute; intros H; discriminate H].
    exists [OpLog "step 1"; OpSucceeded "registry/mortise/shop-web@sha256:abc" "sha256:abc" 8080].
    split; [vm_compute; reflexivity|done]. }
  split; [exact Hl|].
  refine (one_live_build R owner_set (clock start_time) (kget (Obj := BuildRun)) true (Some no_tag)
    (rs_world pending_run) with_build key 1 _ Hl).
  apply rtc_once. exact (step_reconcile R owner_set (clock start_time) (kget (Obj := BuildRun)) true (Some no_tag)
    (booted (rs_world pending_run)) key (λ _, host) (rs_spawned started) eq_refl).
Defined.

(** *** Outcomes *)

Definition running_status : BuildRunStatus :=
  with_BuildRunStatus_StartedAt (Some start_time) (with_BuildRunStatus_Attempt 1
    (with_BuildRunStatus_Phase BuildRunPhaseRunning BuildRunStatus_zero)).

Definition built : buildTracker :=
  tracker_do (OpSucceeded "registry/mortise/shop-web@sha256:abc" "sha256:abc" 8080) (new_tracker "0123456789" "").

Definition followed (w : cluster) : RState :=
  {| rs_world := w;
     rs_builds := {| bs_trackers := {[key := 1]}; bs_heap := {[1 := built]}; bs_cancelled := ∅ |};
     rs_spawned := []; rs_outcomes := [] |}.

Definition app_unreadable : Sim.world App := Sim.World [] [Sim.Calm; Sim.Fault (Errorf "timeout" [])].

Lemma outcome_not_lost_witness :
  let s := followed (world nothing running_status) in
  let s' := (reconcile no_tag start_time key s).1 in
  tracker_of key (rs_builds s') = Some built ∨ outcome_stored key built (rs_world s') ∨
  ∃ err, (kget (Obj := BuildRun) key (rs_world s)).2 = inl err ∧ IsNotFound err = true.
Proof.
  exact (outcome_not_lost R owner_set (clock start_time) (kget (Obj := BuildRun)) true (Some no_tag)
    run_moves cluster_reader_ok cluster_list_read key (followed (world nothing running_status)) built
    eq_refl (or_introl eq_refl)).
Defined.

(** The app cannot be read once: the outcome of the build is stored with the run, and the
    reconciliation fails.  The next one sees a finished run and leaves: the tracker, with
    the log of the build, stays in memory for good. *)
Example tracker_leaks :
  let s1 := (reconcile no_tag (start_time + Minute)%Z key (followed (world app_unreadable running_status))) in
  let s2 := reconcile no_tag (start_time + 2 * Minute)%Z key s1.1 in
  s1.2 = inl (Errorf "timeout" []) ∧ s2.2 = inr Done ∧ tracker_of key (rs_builds s2.1) = Some built.
Proof. vm_compute. split_and!; reflexivity. Qed.

(** *** Lost builds *)

Definition later : Time := (start_time + Minute)%Z.
Definition lost_world : cluster := world nothing running_status.

Lemma registry_empty resolve :
  Some no_tag = Some resolve → ∀ (w : cluster) project app tag, ∃ d, resolve w project app tag = inr (d, false).
Proof. intros [= <-] w project app tag. by exists "". Qed.

Lemma owner_set_total owner m : ∃ m', owner_set owner m = inr m' ∧ meta_Name m' = meta_Name m ∧ meta_Namespace m' = meta_Namespace m.
Proof. by eexists. Qed.

#[local] Existing Instance Meta.helpers_ok.
Local Abbreviation fails_in := (fails_within R owner_set (kget (Obj := BuildRun)) true (Some no_tag) key).

Definition lost_run : BuildRun := obj_with_rv "0" (the_run running_status).

Lemma interrupted_run_ends_witness :
  run_phase lost_run = BuildRunPhaseRunning ∧ fails_in 10 lost_world.
Proof.
  split; [reflexivity|].
  refine (interrupted_run_ends R owner_set (kget (Obj := BuildRun)) true (Some no_tag) cluster_uncached owner_set_total
    registry_empty key lost_world lost_run _ _ eq_refl _).
  - by split_and!.
  - vm_compute. reflexivity.
  - by exists start_time.
Defined.

(** The rounds of that run, minutes apart: it is told to wait, its second attempt starts, and
    so on; after the ninth it has failed. *)
Example lost_phases :
  let round n w := lost_round R owner_set (kget (Obj := BuildRun)) true (Some no_tag) key (later + n * Hour)%Z w in
  let attempt w := (λ run, (run_phase run, BuildRunStatus_Attempt (BuildRun_Status run))) <$> runs w !! key in
  attempt (round 1 (round 0 lost_world))%Z = Some (BuildRunPhaseRunning, 2%Z) ∧
  attempt (foldl (λ w n, round n w) lost_world [0; 1; 2; 3; 4; 5; 6; 7; 8]%Z) = Some (BuildRunPhaseFailed, 5%Z).
Proof. vm_compute. split_and!; reflexivity. Qed.

(** A run that lost its build, when the tag of its image is in the registry.  The tag names
    the revision and the environment only; it is there from an earlier run of the revision,
    with other build arguments, too.  Nothing is built, the old image is recorded as the
    result, and no outcome is counted. *)
Example adopts_other_image :
  let s' := (reconcile any_tag later key (idle lost_world)).1 in
  rs_spawned s' = [] ∧ rs_outcomes s' = [] ∧
  (λ run, (run_phase run, BuildRunStatus_Image (BuildRun_Status run))) <$> runs (rs_world s') !! key =
    Some (BuildRunPhaseSucceeded, "registry/mortise/shop-web@sha256:abc").
Proof. vm_compute. split_and!; reflexivity. Qed.

(** *** History *)

Definition finished_run (name : string) (t : Time) : BuildRun :=
  with_BuildRun_Status
    (with_BuildRunStatus_CompletedAt (Some t) (with_BuildRunStatus_Phase BuildRunPhaseSucceeded BuildRunStatus_zero))
    (with_BuildRun_Spec spec
      (with_BuildRun_ObjectMeta (with_labels (run_selector (the_run BuildRunStatus_zero))
         (with_name name (with_namespace "pj-shop" ObjectMeta_zero))) BuildRun_zero)).

Definition run_times : list (string * Time) :=
  [("r0", 1); ("r1", 2); ("r2", 3); ("r3", 4); ("r4", 5); ("r5", 6); ("r6", 7); ("r7", 8); ("r8", 9); ("r9", 10); ("r10", 11)]%Z.

Definition old_runs : list BuildRun := (λ '(name, t), finished_run name t) <$> run_times.

Definition history_world : cluster :=
  {| cl_projects := nothing; cl_members := nothing; cl_apps := nothing; cl_previews := nothing; cl_secrets := nothing;
     cl_configmaps := nothing; cl_namespaces := nothing; cl_rolebindings := nothing; cl_buildruns := stored_now old_runs |}.

Lemma gc_spec_witness :
  ∃ w' l, gcBuildRunHistory R (finished_run "r10" 11) history_world = (w', inr tt) ∧
    history_of (finished_run "r10" 11) history_world l ∧
    ∀ k run, kstore (Obj := BuildRun) history_world !! k = Some run →
      (kstore (Obj := BuildRun) w' !! k = None ↔
         outdated (protected_by (finished_run "r10" 11) history_world) (merge_sort retained_before l) run) ∧
      (kstore (Obj := BuildRun) w' !! k = None ∨ kstore w' !! k = Some run).
Proof.
  refine (gc_spec R cluster_delete_apart cluster_delete_apart run_list_apart (finished_run "r10" 11) history_world _ _ _ _ _);
    (reflexivity || discriminate || by split).
Defined.

(** Of eleven finished runs, the oldest goes. *)
Example the_oldest_goes :
  let w' := (gcBuildRunHistory R (finished_run "r10" 11) history_world).1 in
  (λ '(name, _), bool_decide (is_Some (runs w' !! ("pj-shop", name)))) <$> run_times =
    [false; true; true; true; true; true; true; true; true; true; true].
Proof. vm_compute. reflexivity. Qed.

(** *** Logs *)

Lemma persisted_log_stable_witness :
  let persisted := log_config_map "pj-shop" "buildrunlogs-r" ∅ (fit_lines (merge_lines ["clone"; "build"] ["build"; "push"])) in
  cm_Data (log_config_map "pj-shop" "buildrunlogs-r" ∅ (fit_lines (merge_lines (stored_lines persisted) ["build"; "push"]))) =
  cm_Data persisted.
Proof.
  apply (persisted_log_stable ["clone"; "build"] ["build"; "push"]).
  intros line Hl. repeat (apply elem_of_cons in Hl as [->|Hl]; [reflexivity|]). by apply elem_of_nil in Hl.
Defined.
End Runs.

(** * Builds of an app: runs

    The handlers of [AppBuild] on a cluster with one app. *)

Module BuildRuns.
#[local] Existing Instances range_sorted_order Meta.helpers.
Abbreviation R := range_sorted_order.

Definition owner_set (owner m : ObjectMeta) : error + ObjectMeta :=
  inr (with_owners [{| owner_APIVersion := "mortise.mortise.dev/v1alpha1"; owner_Kind := "App";
                       owner_Name := meta_Name owner; owner_UID := meta_UID owner;
                       owner_Controller := Some true; owner_BlockOwnerDeletion := Some true |}] m).

Lemma owner_set_keeps owner m m' :
  owner_set owner m = inr m' → meta_Name m' = meta_Name m ∧ meta_Namespace m' = meta_Namespace m.
Proof. by intros [= <-]. Qed.

Definition target (project app tag : string) : error + string :=
  inr ("registry/mortise/" +:+ project +:+ "/" +:+ app +:+ ":" +:+ tag).

Definition now (w : cluster) : Time := 1770000000000000000%Z.

Definition web (annotations : gmap string string) : App :=
  with_App_Spec (with_AppSpec_Source
      (with_AppSource_Repo "https://github.com/acme/web" (with_AppSource_Branch "main"
         (with_AppSource_Type SourceTypeGit AppSource_zero))) AppSpec_zero)
    (with_App_ObjectMeta (with_annotations annotations (with_name "web" (with_namespace "pj-shop" ObjectMeta_zero))) App_zero).

Definition world (app : App) : cluster :=
  {| cl_projects := nothing; cl_members := nothing; cl_apps := stored_now [app]; cl_previews := nothing;
     cl_secrets := nothing; cl_configmaps := nothing; cl_namespaces := nothing; cl_rolebindings := nothing;
     cl_buildruns := nothing |}.

Definition start (annotations : gmap string string) : St (W := cluster) :=
  (world (web annotations), web annotations, false).

Definition names : gset string := {["production"]}.
Definition order : list string := ["production"].

Local Abbreviation pass envName s := (reconcileEnvBuild R owner_set target target now order names envName "" "" s).

Lemma preview_build_isolated_witness :
  apart_from "pr-7" (start ∅) (pass "pr-7" (start ∅)).1.
Proof. apply preview_build_isolated; [set_solver|by apply not_elem_of_singleton]. Defined.

Definition requested : gmap string string := {[rebuildRequestedAtAnnotation := "2026-01-01T00:00:00Z"]}.

Lemma pass_requested : pass "production" (start requested) = ((pass "production" (start requested)).1, inr (in_flight true)).
Proof. apply injective_projections; cbn [fst snd]; [exact eq_refl|]. vm_compute. reflexivity. Qed.

Lemma rebuild_request_served_witness :
  let s' := (pass "production" (start requested)).1 in
  eb_shouldClearNoCache (in_flight true) = true ∧ App_ObjectMeta s'.1.2 = App_ObjectMeta (start requested).1.2 ∧
  ∃ es ref inputHash, envStatusFor s'.1.2 "production" = Some es ∧ EnvironmentStatus_CurrentBuildRunRef es = Some ref ∧
    buildRunName "app" (app_name (start requested).1.2) "production" (effective_source (start requested).1.2 "" "").2
      inputHash (request_id (start requested).1.2) = Some (BuildRunReference_Name ref).
Proof.
  intros s'. exact (rebuild_request_served R owner_set target target now owner_set_keeps order names
    "production" "" "" (start requested) s' (in_flight true) eq_refl pass_requested).
Defined.

Lemma pass_plain : pass "production" (start ∅) = ((pass "production" (start ∅)).1, inr (in_flight false)).
Proof. apply injective_projections; cbn [fst snd]; [exact eq_refl|]. vm_compute. reflexivity. Qed.

Lemma build_started_once_witness :
  let s := (pass "production" (start ∅)).1 in
  kstore (Obj := BuildRun) (pass "production" (s.1.1, s.1.2, false)).1.1.1 = kstore (Obj := BuildRun) s.1.1.
Proof.
  intros s. refine (build_started_once R owner_set target target now owner_set_keeps order names
    "production" "" "" (world (web ∅)) (web ∅) false s (in_flight false) s.1.1 false _ _ pass_plain _ _).
  - reflexivity.
  - reflexivity.
  - vm_compute. reflexivity.
  - exact (runs_grow_refl _).
Defined.

Lemma buildRunName_spec_witness :
  ∃ n, buildRunName "app" "web" "production" "0123456789abcdef" "hash" "" = Some n ∧ dns_label n = true ∧
  ∀ kind' target' env' revision' inputHash' requestID',
    buildRunName kind' target' env' revision' inputHash' requestID' = Some n →
    shortHash (firstNonEmpty requestID' inputHash') = shortHash (firstNonEmpty "" "hash").
Proof. apply buildRunName_spec; reflexivity. Defined.

Definition spec_of (args : gmap string string) : BuildRunSpec :=
  appBuildRunSpec R (with_App_Spec (with_AppSpec_Environments
    [with_Environment_BuildArgs args (with_Environment_Name "production" Environment_zero)] (App_Spec (web ∅))) (web ∅))
    "production" "main" "main" "push" "pull".

Definition args : gmap string string := {["A" := "1"]}.

Definition app_with_args : App :=
  with_App_Spec (with_AppSpec_Environments
    [with_Environment_BuildArgs args (with_Environment_Name "production" Environment_zero)] (App_Spec (web ∅))) (web ∅).

Definition run_with_args : BuildRun := with_BuildRun_Spec (spec_of args) BuildRun_zero.

Lemma args_spec_plain : plain_spec (selection_of (spec_of args)).
Proof.
  split; [|split].
  - intros p Hp. unfold field_lines in Hp. repeat (apply elem_of_cons in Hp as [->|Hp]; [reflexivity|]).
    by apply elem_of_nil in Hp.
  - intros k v Hk. change (args !! k = Some v) in Hk. unfold args in Hk.
    rewrite lookup_singleton in Hk. case_decide; simplify_eq. split_and!; reflexivity.
  - intros ref Hr. discriminate Hr.
Qed.

Lemma buildRunMatchesAppSpec_spec_witness :
  let spec := selection_of (appBuildRunSpec R app_with_args "production" "main" "main" "push" "pull") in
  let built := selection_of (BuildRun_Spec run_with_args) in
  (same_inputs built spec →
   buildRunMatchesAppSpec R run_with_args app_with_args "production"
     (appBuildRunSpec R app_with_args "production" "main" "main" "push" "pull") = true) ∧
  (buildRunMatchesAppSpec R run_with_args app_with_args "production"
     (appBuildRunSpec R app_with_args "production" "main" "main" "push" "pull") = true →
   same_inputs built spec ∨ collision (run_hash_input R built) (run_hash_input R spec)).
Proof.
  exact (buildRunMatchesAppSpec_spec R run_with_args app_with_args "production" "main" "main" "push" "pull"
    args_spec_plain args_spec_plain).
Defined.

Lemma envImageTag_valid_witness :
  let t := envImageTag "fix/#12 ä" "production" in
  sall tag_char t = true ∧ first_ok tag_start t = true ∧ 1 ≤ String.length t ≤ 128.
Proof. apply envImageTag_valid. vm_compute. lia. Defined.

(** Two different sets of build arguments with one hash: a value with a line break reads
    like a second argument, and the image is not built again. *)
Example build_args_collide :
  run_hash_input R (spec_of {["A" := "1"; "B" := "2"]}) =
  run_hash_input R (spec_of {["A" := "1" +:+ nl +:+ "arg:B=2"]}).
Proof. vm_compute. reflexivity. Qed.

(** A branch with a character that branches may have and object names may not: the run
    cannot be created. *)
Example branch_name_invalid :
  sanitizeK8sNameWithSuffix "app-web-production-fix#12" "0123456789" "buildrun" =
    Some "app-web-production-fix#12-0123456789".
Proof. vm_compute. reflexivity. Qed.

(** Every later pass leaves the app as the first application left it. *)
Lemma success_applied_once_witness :
  let s := (applyEnvBuildSuccess now ["production"] "production" "main" "img" "" 8080 true (start ∅)).1 in
  applyEnvBuildSuccess now ["production"] "production" "main" "img" "" 8080 true (world (web ∅), s.1.2, false)
    = ((world (web ∅), s.1.2, false), inr tt).
Proof.
  intros s. apply (success_applied_once now ["production"] "production" "main" "img" "" 8080 true
    (world (web ∅)) (web ∅) false s (world (web ∅))). reflexivity.
Defined.
End BuildRuns.
