(* ===== verification/ApiMembers.v ===== *)
(** * Project members: [internal/api/members.go]

    The handlers that list, add, change and remove the members of a project, and what they
    promise: members change only for those who may change them ([members_authorized]) and
    a project that has an owner keeps one ([owners_remain]). *)

From S2P Require Import Prelude GoStrings GoText GoTime Json JsonStruct Kube Core Api KubeStatus Constants Authz Auth ApiServer Cluster.

#[export] Instance member_status_object : KubeStatusObject ProjectMember :=
  λ new, with_ProjectMember_Status (ProjectMember_Status new).
#[export] Instance member_status_object_ok : KubeStatusObjectOk ProjectMember.
Proof. by intros new []. Qed.

(** ** Requests and answers *)

Record memberResponse := { mr_Email : string; mr_Role : string; mr_AddedAt : string; mr_AddedBy : string }.

Record addMemberRequest := { am_Email : string; am_Role : string }.
Definition decode_add : decoder addMemberRequest := struct
  [("email", string_field (λ v q, {| am_Email := v; am_Role := am_Role q |}));
   ("role", string_field (λ v q, {| am_Email := am_Email q; am_Role := v |}))].

(** [updateMemberRequest] *)
Definition decode_role : decoder string := struct [("role", string_field (λ v _, v))].

Inductive member_body :=
  | MembersBody (l : list memberResponse)
  | MemberBody (m : memberResponse)
  | NoBody.

Definition memberCRDName (email : string) : string := MemberCRDName email.

Definition validProjectRole (role : string) : bool :=
  existsb (String.eqb role) [ProjectRoleOwner; ProjectRoleDeveloper; ProjectRoleViewer].

Definition member_response (m : ProjectMember) : memberResponse :=
  {| mr_Email := ProjectMemberSpec_Email (ProjectMember_Spec m);
     mr_Role := ProjectMemberSpec_Role (ProjectMember_Spec m);
     mr_AddedAt := ProjectMemberStatus_AddedAt (ProjectMember_Status m);
     mr_AddedBy := ProjectMemberStatus_AddedBy (ProjectMember_Status m) |}.

Definition member_labels : gmap string string := {["mortise.dev/member" := "true"]}.

Definition new_member (ns projectName email role : string) : ProjectMember :=
  with_ProjectMember_Spec
    {| ProjectMemberSpec_Email := email; ProjectMemberSpec_Project := projectName; ProjectMemberSpec_Role := role |}
    (with_ProjectMember_ObjectMeta
       (with_labels {["mortise.dev/project" := projectName; "mortise.dev/member" := "true"]}
          (with_name (memberCRDName email) (with_namespace ns ObjectMeta_zero))) ProjectMember_zero).

(** The status after the creation. *)
Definition added (at_ : string) (by_ : option string) (m : ProjectMember) : ProjectMember :=
  with_ProjectMember_Status
    {| ProjectMemberStatus_AddedAt := at_;
       ProjectMemberStatus_AddedBy := default (ProjectMemberStatus_AddedBy (ProjectMember_Status m)) by_ |} m.

Definition with_role (role : ProjectRole) (m : ProjectMember) : ProjectMember :=
  with_ProjectMember_Spec (with_ProjectMemberSpec_Role role (ProjectMember_Spec m)) m.

Definition is_owner (m : ProjectMember) : bool :=
  String.eqb (ProjectMemberSpec_Role (ProjectMember_Spec m)) ProjectRoleOwner.
Definition owner_count (l : list ProjectMember) : nat := length (List.filter is_owner l).

Definition member_resource (kind projectName : string) : Resource :=
  {| Resource_Kind := kind; Resource_Namespace := ""; Resource_Name := "";
     Resource_Project := projectName; Resource_Environment := "" |}.

(** ** The handlers *)

Section handlers.
Context {W : Type} {CP : KubeClient W Project} {CM : KubeClient W ProjectMember} {CC : KubeClient W ConfigMap}
  {CS : KubeClient W Secret} {LM : KubeListIn W ProjectMember} {DM : KubeDelete W ProjectMember}
  {SM : KubeStatus W ProjectMember} {KRM : KubeRetry (W * (ProjectMember * bool))}.
(** The resource version that a creation writes into the object it was given. *)
Context (created_rv : NamespacedName → W → string).
Context (details : error → option (string * string)) (json_error : string → string)
  (now : W → Time) (ctx : nat → option error) (activityStore : bool).

Local Abbreviation handler := (H W member_body Empty_set).
Local Abbreviation record_ := (recordActivity now ctx activityStore).

Definition ListMembers (r : request) : handler :=
  '(_, projectName) ← resolveProject details r;
  _ ← authorize r (member_resource "project" projectName) ActionRead;
  members ← try_ details (klist_in (ControlNamespace projectName) member_labels);
  writeJSON StatusOK (MembersBody (member_response <$> members)).

(** [Status().Update] after [Create]; its error is dropped. *)
Definition set_added (r : request) (member : ProjectMember) (w : W) : W * unit :=
  let member := obj_with_rv (created_rv (obj_key member) w) member in
  ((kstatus_update (added (format_rfc3339 (now w)) (Principal_Email <$> rq_principal r) member) w).1, tt).

Definition create_member (r : request) (member : ProjectMember) : H W member_body unit :=
  _ ← do_ details (kcreate member);
  call (set_added r member).

Definition AddMember (r : request) : handler :=
  '(_, projectName) ← resolveProject details r;
  _ ← authorize r (member_resource "member" projectName) ActionCreate;
  req ← decode_body json_error r (body_of decode_add {| am_Email := ""; am_Role := "" |});
  _ ← require (negb (String.eqb (am_Email req) "")) StatusBadRequest "email is required";
  _ ← require (validProjectRole (am_Role req)) StatusBadRequest "role must be owner, developer, or viewer";
  user ← call (kget (Obj := Secret) ("mortise-system", "user-" +:+ hex_of (am_Email req)));
  _ ← (match user with
       | inl err => if IsNotFound err then fail StatusBadRequest ("user not found: " +:+ am_Email req)
                    else writeError details err
       | inr _ => mret tt
       end);
  let ns := ControlNamespace projectName in
  existing ← call (kget (Obj := ProjectMember) (ns, memberCRDName (am_Email req)));
  _ ← (match existing with
       | inr _ => fail StatusConflict "user is already a member of this project"
       | inl _ => mret tt
       end);
  let member := new_member ns projectName (am_Email req) (am_Role req) in
  _ ← create_member r member;
  _ ← record_ r projectName "invite" "member" (am_Email req)
        ("Added member " +:+ am_Email req +:+ " as " +:+ am_Role req) "";
  writeJSON StatusCreated
    (MemberBody {| mr_Email := am_Email req; mr_Role := am_Role req; mr_AddedAt := ""; mr_AddedBy := "" |}).

(** One attempt at a change of the role.  The state holds the member and whether the change
    would demote the last owner. *)
Definition update_role (ns name : string) (role : ProjectRole) (s : W * (ProjectMember * bool))
    : (W * (ProjectMember * bool)) * option error :=
  let '(w, (member, _)) := s in
  match kget (ns, name) w with
  | (w, inl err) => ((w, (member, false)), Some err)
  | (w, inr member) =>
    let write w :=
      let '(w, err) := kupdate (with_role role member) w in ((w, (with_role role member, false)), err) in
    if is_owner member && negb (String.eqb role ProjectRoleOwner) then
      match klist_in (Obj := ProjectMember) ns member_labels w with
      | (w, inl err) => ((w, (member, false)), Some err)
      | (w, inr all) => if (owner_count all <=? 1)%nat then ((w, (member, true)), None) else write w
      end
    else write w
  end.

Definition change_role (ns name : string) (role : ProjectRole) (w : W) : W * (option error * ProjectMember * bool) :=
  let '((w, (member, demoting)), err) := RetryOnConflict (update_role ns name role) (w, (ProjectMember_zero, false)) in
  (w, (err, member, demoting)).

Definition UpdateMember (r : request) : handler :=
  '(_, projectName) ← resolveProject details r;
  _ ← authorize r (member_resource "member" projectName) ActionUpdate;
  let email := URLParam r "email" in
  _ ← require (negb (String.eqb email "")) StatusBadRequest "email is required";
  role ← decode_body json_error r (body_of decode_role "");
  _ ← require (validProjectRole role) StatusBadRequest "role must be owner, developer, or viewer";
  res ← call (change_role (ControlNamespace projectName) (memberCRDName email) role);
  let '(err, member, demotingLastOwner) := res in
  _ ← (match err with Some err => writeError details err | None => mret tt end);
  _ ← require (negb demotingLastOwner) StatusBadRequest "cannot demote the last owner of a project";
  let email := ProjectMemberSpec_Email (ProjectMember_Spec member) in
  _ ← record_ r projectName "update" "member" email ("Updated member " +:+ email +:+ " role to " +:+ role) "";
  writeJSON StatusOK (MemberBody (member_response member)).

(** The guard of a removal. *)
Definition not_last_owner (ns : string) (member : ProjectMember) : H W member_body unit :=
  if is_owner member then
    all ← try_ details (klist_in (Obj := ProjectMember) ns member_labels);
    require (negb (owner_count all <=? 1)%nat) StatusBadRequest "cannot remove the last owner of a project"
  else mret tt.

Definition remove_member (key : NamespacedName) : H W member_body unit :=
  member ← try_ details (kget key);
  _ ← not_last_owner key.1 member;
  do_ details (kdelete ProjectMember (obj_key member)).

Definition RemoveMember (r : request) : handler :=
  '(_, projectName) ← resolveProject details r;
  _ ← authorize r (member_resource "member" projectName) ActionDelete;
  let email := URLParam r "email" in
  _ ← require (negb (String.eqb email "")) StatusBadRequest "email is required";
  let ns := ControlNamespace projectName in
  _ ← remove_member (ns, memberCRDName email);
  _ ← record_ r projectName "remove" "member" email ("Removed member " +:+ email) "";
  writeJSON StatusNoContent NoBody.
End handlers.

(** ** Access *)

Section access.
Context {W : Type} {CP : KubeClient W Project} {CM : KubeClient W ProjectMember} {CC : KubeClient W ConfigMap}
  {CS : KubeClient W Secret} {LM : KubeListIn W ProjectMember} {DM : KubeDelete W ProjectMember}
  {SM : KubeStatus W ProjectMember} {KRM : KubeRetry (W * (ProjectMember * bool))}.
Context (created_rv : NamespacedName → W → string).
Context (details : error → option (string * string)) (json_error : string → string)
  (now : W → Time) (ctx : nat → option error) (activityStore : bool).
Context (I : relation W) {HI : PreOrder I} {RP : KubeReads W Project I} {RM : KubeReads W ProjectMember I}
  {RLM : ListReads W ProjectMember I} {OKP : KubeClientOk W Project}.

(** Listing the members only reads, and members are added, changed and removed only by a
    principal whom the policy allows that. *)
Theorem members_authorized r :
  let project := URLParam r "project" in
  reads I (ListMembers details r) ∧
  gated I (granted I r "member" project "" ActionCreate)
    (AddMember created_rv details json_error now ctx activityStore r) ∧
  gated I (granted I r "member" project "" ActionUpdate)
    (UpdateMember details json_error now ctx activityStore r) ∧
  gated I (granted I r "member" project "" ActionDelete) (RemoveMember details now ctx activityStore r).
Proof.
  cbv zeta. repeat apply conj; [unfold ListMembers; reads|..].
  all: refine (gated_resolveProject _ _ _ _ _ _ _ _); intros ns name _;
    refine (gated_authorize I r (member_resource "member" name) _ _).
Qed.
End access.

(** ** A project keeps an owner *)

Abbreviation members := (gmap NamespacedName ProjectMember) (only parsing).

Definition has_owner (ns : string) (m : members) : Prop :=
  ∃ k o, m !! k = Some o ∧ selected ns member_labels o = true ∧ is_owner o = true.

(** If the member under the key is an owner, there is another one beside it. *)
Definition spare (k : NamespacedName) (m : members) : Prop :=
  ∀ ns o, m !! k = Some o → selected ns member_labels o = true → is_owner o = true →
    ∃ k' o', k' ≠ k ∧ m !! k' = Some o' ∧ selected ns member_labels o' = true ∧ is_owner o' = true.

Lemma spare_other k m ns :
  spare k m → has_owner ns m →
  ∃ k' o', k' ≠ k ∧ m !! k' = Some o' ∧ selected ns member_labels o' = true ∧ is_owner o' = true.
Proof.
  intros Hs (k' & o' & Hk & Hsel & Ho). destruct (decide (k' = k)) as [->|Hne]; [by eapply Hs|]. by exists k', o'.
Qed.

Lemma spare_delete k m ns : spare k m → has_owner ns m → has_owner ns (delete k m).
Proof.
  intros Hs Ho. destruct (spare_other _ _ _ Hs Ho) as (k' & o' & Hne & ? & ? & ?). exists k', o'. by rewrite lookup_delete_ne.
Qed.

Lemma spare_insert k o m ns : spare k m → has_owner ns m → has_owner ns (<[k := o]> m).
Proof.
  intros Hs Ho. destruct (spare_other _ _ _ Hs Ho) as (k' & o' & Hne & ? & ? & ?). exists k', o'. by rewrite lookup_insert_ne.
Qed.

Lemma owner_insert k cur new m ns :
  m !! k = Some cur → (is_owner cur = true → is_owner new = true) → obj_meta new = obj_meta cur →
  ∀ rv, has_owner ns m → has_owner ns (<[k := obj_with_rv rv new]> m).
Proof.
  intros Hk Ho Hm rv (k' & o' & Hk' & Hsel & Ho'). destruct (decide (k' = k)) as [->|Hne].
  - rewrite Hk in Hk'. injection Hk' as <-. exists k, (obj_with_rv rv new). rewrite lookup_insert_eq.
    split; [done|]. unfold selected in *. unfold obj_with_rv. rewrite obj_meta_set. rewrite Hm. split; [exact Hsel|].
    by apply Ho.
  - exists k', o'. by rewrite lookup_insert_ne.
Qed.

Lemma more_than_one {A} (l : list A) x : NoDup l → (1 < length l)%nat → x ∈ l → ∃ y, y ∈ l ∧ y ≠ x.
Proof.
  intros Hnd Hlen Hx. destruct l as [|a [|b l]]; simpl in Hlen; [lia..|].
  apply NoDup_cons in Hnd as [Hab _]. apply elem_of_cons in Hx as [->|Hin].
  - exists b. split; [by right; left|]. intros ->. apply Hab. by left.
  - exists a. split; [by left|]. by intros ->.
Qed.

Section owners.
Context {W : Type} {CP : KubeClient W Project} {CM : KubeClient W ProjectMember} {CC : KubeClient W ConfigMap}
  {CS : KubeClient W Secret} {LM : KubeListIn W ProjectMember} {DM : KubeDelete W ProjectMember}
  {SM : KubeStatus W ProjectMember} {KRM : KubeRetry (W * (ProjectMember * bool))}.
Context {OKM : KubeClientOk W ProjectMember} {LOKM : KubeListOk W ProjectMember} {DOKM : KubeDeleteOk W ProjectMember}
  {SOKM : KubeStatusOk W ProjectMember} {KROK : KubeRetryOk (W * (ProjectMember * bool))}.
(** Calls on the other kinds leave members alone. *)
Context {PA : KubeReads W Project (unaffected ProjectMember)} {SA : KubeReads W Secret (unaffected ProjectMember)}
  {CCA : KubeApart W ConfigMap ProjectMember}.
Context (created_rv : NamespacedName → W → string).
Context (details : error → option (string * string)) (json_error : string → string)
  (now : W → Time) (ctx : nat → option error) (activityStore : bool).
(** [Create] fills in what the server stored. *)
Context (created_rv_ok : ∀ k w (o : ProjectMember), kstore w !! k = Some o → created_rv k w = obj_rv o).

Local Abbreviation quiet w := (kquiet (Obj := ProjectMember) w).
Local Abbreviation stored w := (kstore (Obj := ProjectMember) w).

(** Without other writers, every namespace that has an owner keeps one. *)
Definition keeps_owners (w w' : W) : Prop :=
  quiet w → quiet w' ∧ ∀ ns, has_owner ns (stored w) → has_owner ns (stored w').

#[local] Instance keeps_owners_preorder : PreOrder keeps_owners.
Proof.
  split; [by intros w|]. intros w1 w2 w3 H1 H2 Hq. destruct (H1 Hq) as [Hq2 Hs2]. destruct (H2 Hq2) as [Hq3 Hs3]. auto.
Qed.

Lemma settled_keeps w w' : settled ProjectMember w w' → keeps_owners w w'.
Proof. intros H Hq. destruct (H Hq) as [Hq' Hs]. split; [done|]. intros ns. by rewrite Hs. Qed.

#[local] Instance keeps_reads {A} {CA : KubeClient W A} {R : KubeReads W A (settled ProjectMember)} : KubeReads W A keeps_owners.
Proof. intros k w. by apply settled_keeps, R. Qed.
#[local] Instance keeps_lists : ListReads W ProjectMember keeps_owners.
Proof. intros ns l w. by apply settled_keeps, (settled_lists ProjectMember). Qed.
#[local] Instance keeps_record : KubeWithin W ConfigMap keeps_owners.
Proof. split; intros; apply settled_keeps, unaffected_settled; [apply CCA|apply CCA|apply CCA]. Qed.

(** The guard of the last owner. *)
Lemma guard_spare m w w' l :
  quiet w → stored w !! obj_key m = Some m → is_owner m = true →
  klist_in (meta_Namespace (obj_meta m)) member_labels w = (w', inr l) → (1 < owner_count l)%nat →
  spare (obj_key m) (stored w).
Proof.
  intros Hq Hm Ho Hl Hc ns o Hk Hsel _. rewrite Hm in Hk. injection Hk as <-.
  destruct (klist_quiet (Obj := ProjectMember) (meta_Namespace (obj_meta m)) member_labels w Hq)
    as (w1 & l1 & _ & _ & Hl1 & Hnd & Hiff). rewrite Hl in Hl1. injection Hl1 as <- <-.
  unfold selected in Hsel. apply andb_true_iff in Hsel as [Hns Hlab].
  assert (m ∈ l) as Hin.
  { apply Hiff. split; [|done]. unfold selected. by rewrite String.eqb_refl, orb_true_r. }
  destruct (more_than_one (obj_key <$> List.filter is_owner l) (obj_key m)) as (k' & Hk' & Hne).
  - clear -Hnd. induction l as [|x l IH]; simpl; [constructor|].
    apply NoDup_cons in Hnd as [Hx Hnd]. destruct (is_owner x); simpl; [|by apply IH].
    constructor; [|by apply IH]. intros (y & Hy & Hyl)%list_elem_of_fmap. apply Hx, list_elem_of_fmap. exists y.
    split; [done|]. apply list_elem_of_In, List.filter_In in Hyl as [H _]. by apply list_elem_of_In.
  - by rewrite length_fmap.
  - apply list_elem_of_fmap. exists m. split; [done|]. by apply list_elem_of_In, List.filter_In; rewrite <-list_elem_of_In.
  - apply list_elem_of_fmap in Hk' as (o' & -> & Ho'). apply list_elem_of_In, List.filter_In in Ho' as [Hin' Ho'].
    apply list_elem_of_In, Hiff in Hin' as [Hsel' Hst']. exists (obj_key o'), o'. split_and!; try done.
    unfold selected in *. apply andb_true_iff in Hsel' as [Hns' ->]. rewrite andb_true_r.
    apply orb_true_iff in Hns as [Hns|Hns%String.eqb_eq]; [by rewrite Hns|]. by subst ns.
Qed.
Lemma write_keeps cur new w :
  quiet w → stored w !! obj_key cur = Some cur → obj_meta new = obj_meta cur →
  spare (obj_key cur) (stored w) ∨ (is_owner cur = true → is_owner new = true) →
  quiet (kupdate new w).1 ∧ ∀ ns, has_owner ns (stored w) → has_owner ns (stored (kupdate new w).1).
Proof.
  intros Hq Hk Hm Hor. assert (obj_key new = obj_key cur) as Hkey by (unfold obj_key; by rewrite Hm).
  destruct (kupdate_quiet new w cur Hq) as (w1 & rv & Hq1 & -> & Hs1); [by rewrite Hkey|unfold obj_rv; by rewrite Hm|].
  split; [done|]. simpl. rewrite Hs1, Hkey. intros ns. destruct Hor as [Hs|Ho]; [by apply spare_insert|].
  by apply (owner_insert _ cur).
Qed.

Lemma update_role_keeps ns name role s : keeps_owners s.1 (update_role ns name role s).1.1.
Proof.
  destruct s as [w [m0 d0]]. intros Hq. unfold update_role. simpl fst at 1.
  destruct (kget_quiet (Obj := ProjectMember) (ns, name) w Hq) as (w1 & Hq1 & Hs1 & Hg).
  destruct (stored w !! (ns, name)) as [cur|] eqn:Ek; [|destruct Hg as (e & -> & _); split; [done|]; intros ns'; simpl; by rewrite Hs1].
  rewrite Hg. pose proof (kstore_key _ _ _ Ek) as Hkey.
  assert (stored w1 !! obj_key cur = Some cur) as Hst by (by rewrite Hkey, Hs1).
  assert (∀ w2, quiet w2 → stored w2 = stored w →
    spare (obj_key cur) (stored w2) ∨ (is_owner cur = true → is_owner (with_role role cur) = true) →
    quiet (kupdate (with_role role cur) w2).1 ∧ ∀ ns, has_owner ns (stored w) →
      has_owner ns (stored (kupdate (with_role role cur) w2).1)) as Hw.
  { intros w2 Hq2 Hs2 Hor. rewrite <-Hs2. apply (write_keeps cur); [done| |done|done]. by rewrite Hs2, Hkey. }
  destruct (is_owner cur && negb (String.eqb role ProjectRoleOwner)) eqn:Eg.
  - apply andb_true_iff in Eg as [Ho _].
    destruct (klist_quiet (Obj := ProjectMember) ns member_labels w1 Hq1) as (w2 & l & Hq2 & Hs2 & Hl & _).
    rewrite Hl. destruct (Nat.leb_spec (owner_count l) 1) as [|Hc]; [split; [done|]; intros ns'; simpl; by rewrite Hs2, Hs1|].
    destruct (kupdate (with_role role cur) w2) as [w3 err] eqn:Eu.
    specialize (Hw w2 Hq2 ltac:(congruence)). rewrite Eu in Hw. apply Hw. left. rewrite Hs2.
    apply (guard_spare cur w1 w2 l); try done. by replace (meta_Namespace (obj_meta cur)) with ns by (by injection Hkey).
  - destruct (kupdate (with_role role cur) w1) as [w3 err] eqn:Eu.
    specialize (Hw w1 Hq1 Hs1). rewrite Eu in Hw. apply Hw. right. intros Ho. rewrite Ho in Eg. simpl in Eg.
    by apply negb_false_iff in Eg.
Qed.

#[local] Instance attempts_preorder : PreOrder (λ s s' : W * (ProjectMember * bool), keeps_owners s.1 s'.1).
Proof. split; [by intros s|]. intros s1 s2 s3 H1 H2. by etrans. Qed.

Lemma retry_keeps ns name role s : keeps_owners s.1 (RetryOnConflict (update_role ns name role) s).1.1.
Proof.
  rewrite retry_on_conflict_spec. destruct (retry_loop _ _ s) as [s' err] eqn:E. simpl.
  refine (retry_loop_hist (λ s s', keeps_owners s.1 s'.1) _ _ _ _ _ _ E). intros s1 s2 r H.
  pose proof (update_role_keeps ns name role s1) as Hu. by rewrite H in Hu.
Qed.

(** The status of a member that was just created. *)
Lemma set_added_keeps r ns name email role w :
  let m := new_member ns name email role in
  (∃ rv, stored w !! obj_key m = Some (obj_with_rv rv m)) → keeps_owners w (set_added created_rv now r m w).1.
Proof.
  intros m [rv Hk] Hq. unfold set_added. cbn [fst]. rewrite (created_rv_ok _ _ _ Hk), obj_rv_with_rv.
  set (new := added _ _ _).
  destruct (kstatus_quiet new w (obj_with_rv rv m) Hq) as (w1 & rv1 & Hq1 & -> & Hs1); [done|done|].
  split; [done|]. intros ns'. simpl fst. rewrite Hs1. by apply (owner_insert _ (obj_with_rv rv m)).
Qed.

(** A computation and what follows the runs that go on. *)
Lemma keeps_bind_run {B A C} (m : H W B A) (k : A → H W B C) w :
  keeps_owners w (m w).1 → (∀ w1 a, m w = (w1, inr a) → keeps_owners w1 (k a w1).1) →
  keeps_owners w ((m ≫= k) w).1.
Proof.
  intros Hm Hk. unfold mbind, H_bind. destruct (m w) as [w1 [rep|a]]; [done|]. simpl in Hm. etrans; [exact Hm|by apply Hk].
Qed.

Lemma record_keeps {B} r project action kind name msg actor :
  reads (B := B) keeps_owners (recordActivity now ctx activityStore r project action kind name msg actor).
Proof.
  intros w. destruct (recordActivity_frame (B := B) now ctx activityStore keeps_owners r project action kind name msg actor w)
    as (w' & -> & H). exact H.
Qed.

Lemma create_keeps r ns name email role w :
  let m := new_member ns name email role in
  keeps_owners w (create_member created_rv details now r m w).1.
Proof.
  intros m. unfold create_member, mbind, H_bind, call. rewrite do_eq. intros Hq. destruct (kcreate m w) as [w1 [err|]] eqn:Ec.
  - simpl. destruct (stored w !! obj_key m) as [cur|] eqn:Ek.
    + destruct (kcreate_exists m w cur Hq Ek) as (w2 & e & Hq2 & Hc & _ & Hs). rewrite Ec in Hc. injection Hc as <- _.
      split; [done|]. intros ns'. by rewrite Hs.
    + destruct (kcreate_quiet m w Hq Ek) as (w2 & rv & Hq2 & Hc & Hs). by rewrite Ec in Hc.
  - destruct (kcreate_inv ProjectMember m w w1 Hq Ec) as (Hq1 & Hn & rv & Hs). simpl.
    destruct (set_added_keeps r ns name email role w1) as [Hq2 Ho]; [exists rv; by rewrite Hs, lookup_insert_eq|done|].
    split; [exact Hq2|]. intros ns' Hh. apply Ho. rewrite Hs. apply spare_insert; [|done]. intros ? o. by rewrite Hn.
Qed.

Lemma removal_keeps ns name w :
  keeps_owners w (remove_member details (ns, name) w).1.
Proof.
  unfold remove_member, mbind at 1, H_bind at 1. rewrite try_eq. intros Hq.
  destruct (kget_quiet (Obj := ProjectMember) (ns, name) w Hq) as (w1 & Hq1 & Hs1 & Hg).
  destruct (stored w !! (ns, name)) as [cur|] eqn:Ek;
    [|destruct Hg as (e & -> & _); split; [done|]; intros ns'; cbn [fst]; by rewrite Hs1].
  rewrite Hg. pose proof (kstore_key _ _ _ Ek) as Hkey.
  assert (∀ w2, quiet w2 → stored w2 = stored w → spare (obj_key cur) (stored w2) →
    quiet (do_ (B := member_body) details (kdelete ProjectMember (obj_key cur)) w2).1 ∧
    ∀ ns, has_owner ns (stored w) →
      has_owner ns (stored (do_ (B := member_body) details (kdelete ProjectMember (obj_key cur)) w2).1)) as Hd.
  { intros w2 Hq2 Hs2 Hsp. rewrite do_eq.
    destruct (kdelete_quiet (Obj := ProjectMember) (obj_key cur) w2 Hq2) as (w3 & Hq3 & Hs3 & _).
    destruct (kdelete_quiet (Obj := ProjectMember) (obj_key cur) w2 Hq2) as (w4 & Hq4 & Hs4 & Hd).
    assert (∃ r, kdelete ProjectMember (obj_key cur) w2 = (w4, r)) as [r ->].
    { destruct (stored w2 !! obj_key cur); [by eexists|]. destruct Hd as (e & Hd & _). by eexists. }
    split; [done|]. intros ns'. simpl. rewrite Hs4, <-Hs2. by apply spare_delete. }
  change ((ns, name).1) with ns. unfold mbind, H_bind, not_last_owner. destruct (is_owner cur) eqn:Eo.
  - unfold mbind, H_bind. rewrite try_eq.
    destruct (klist_quiet (Obj := ProjectMember) ns member_labels w1 Hq1) as (w2 & l & Hq2 & Hs2 & Hl & _).
    rewrite Hl. unfold require. destruct (Nat.leb_spec (owner_count l) 1) as [|Hc];
      [split; [done|]; intros ns'; simpl; by rewrite Hs2, Hs1|].
    simpl. apply Hd; [done|congruence|]. rewrite Hs2. apply (guard_spare cur w1 w2 l); try done.
    + by rewrite Hs1, Hkey.
    + by replace (meta_Namespace (obj_meta cur)) with ns by (by injection Hkey).
  - simpl. apply Hd; [done|done|]. intros ns' o. rewrite Hs1, Hkey, Ek. intros [= <-]. congruence.
Qed.

Lemma change_role_keeps ns name role w : keeps_owners w (change_role ns name role w).1.
Proof.
  unfold change_role. pose proof (retry_keeps ns name role (w, (ProjectMember_zero, false))) as H.
  by destruct (RetryOnConflict _ _) as [[w1 [m d]] err].
Qed.

(** The handlers. *)
Local Abbreviation keeping h := (∀ w, keeps_owners w (h w).1).

(** C24: without other writers, a project that has an owner keeps one: whatever request the
    handlers serve, the last owner is neither removed nor demoted. *)
Theorem owners_remain r :
  keeping (ListMembers details r) ∧
  keeping (AddMember created_rv details json_error now ctx activityStore r) ∧
  keeping (UpdateMember details json_error now ctx activityStore r) ∧
  keeping (RemoveMember details now ctx activityStore r).
Proof.
  split_and!.
  - change (reads keeps_owners (ListMembers details r)). unfold ListMembers. reads.
  - change (reads keeps_owners (AddMember created_rv details json_error now ctx activityStore r)).
    unfold AddMember. repeat first [apply record_keeps|intros w; apply create_keeps|reads_step].
  - change (reads keeps_owners (UpdateMember details json_error now ctx activityStore r)).
    unfold UpdateMember. repeat first [apply record_keeps|apply change_role_keeps|reads_step].
  - change (reads keeps_owners (RemoveMember details now ctx activityStore r)).
    unfold RemoveMember. repeat first [apply record_keeps|intros w; apply removal_keeps|reads_step].
Qed.
End owners.

(** ** Runs *)

Module MemberRuns.
Definition details : error → option (string * string) := λ _, None.
Definition now : cluster → Time := λ _, 1770000000000000000%Z.
Definition ctx : nat → option error := λ _, None.
Definition created_rv (k : NamespacedName) (w : cluster) : string :=
  default "" (obj_rv <$> kstore (Obj := ProjectMember) w !! k).
#[local] Instance member_retry : KubeRetry (cluster * (ProjectMember * bool)) := retry_loop default_retry_steps.
#[local] Instance member_retry_ok : KubeRetryOk (cluster * (ProjectMember * bool)).
Proof. intros fn w. reflexivity. Qed.

Definition shop : Project := with_Project_ObjectMeta (with_name "shop" ObjectMeta_zero) Project_zero.
Definition member (email role : string) : ProjectMember := new_member "pj-shop" "shop" email role.
Definition ada : ProjectMember := member "ada@acme.io" ProjectRoleOwner.
Definition bob : ProjectMember := member "bob@acme.io" ProjectRoleOwner.

Definition world (l : list ProjectMember) (pending : list (Sim.event ProjectMember)) : cluster :=
  {| cl_projects := stored_now [shop]; cl_members := Sim.World (Sim.Put <$> l) pending; cl_apps := nothing;
     cl_previews := nothing; cl_secrets := stored_now [user_secret "eve@acme.io" "" RoleMember]; cl_configmaps := nothing;
     cl_namespaces := nothing; cl_rolebindings := nothing; cl_buildruns := nothing |}.

Definition request_of (email body : string) : request :=
  {| rq_principal := Some {| Principal_ID := "1"; Principal_Email := "root@acme.io";
                             Principal_Role := RoleAdmin; Principal_PasswordGen := 0 |};
     rq_params := {["project" := "shop"; "email" := email]}; rq_query := ∅; rq_header := ∅; rq_body := inr body |}.

Definition code {A} (r : reply member_body + A) : option Z :=
  match r with inl rep => Some (rp_code rep) | inr _ => None end.

(** JSON written with single quotes. *)
Definition json_text (s : string) : string := replace_all s "'" (String dquote "").

Definition remove (email : string) : H cluster member_body Empty_set :=
  RemoveMember details now ctx true (request_of email "").
Definition update (email role : string) : H cluster member_body Empty_set :=
  UpdateMember details id now ctx true (request_of email (json_text ("{'role':'" +:+ role +:+ "'}"))).
Definition add (email role : string) : H cluster member_body Empty_set :=
  AddMember created_rv details id now ctx true
    (request_of "" (json_text ("{'email':'" +:+ email +:+ "','role':'" +:+ role +:+ "'}"))).

Example member_answers :
  code (remove "ada@acme.io" (world [ada] [])).2 = Some 400%Z ∧
  code (remove "ada@acme.io" (world [ada; bob] [])).2 = Some 204%Z ∧
  code (update "ada@acme.io" "viewer" (world [ada] [])).2 = Some 400%Z ∧
  code (update "ada@acme.io" "admin" (world [ada] [])).2 = Some 400%Z ∧
  code (update "ada@acme.io" "viewer" (world [ada; bob] [])).2 = Some 200%Z ∧
  code (add "eve@acme.io" "developer" (world [ada] [])).2 = Some 201%Z ∧
  code (add "mallory@acme.io" "developer" (world [ada] [])).2 = Some 400%Z.
Proof. vm_compute. split_and!; reflexivity. Qed.

Lemma members_authorized_witness :
  gated cluster_elapsed (granted cluster_elapsed (request_of "ada@acme.io" "") "member" "shop" "" ActionDelete)
    (remove "ada@acme.io").
Proof.
  exact (proj2 (proj2 (proj2
    (members_authorized created_rv details id now ctx true cluster_elapsed (request_of "ada@acme.io" ""))))).
Defined.

Lemma one_owner : has_owner "pj-shop" (kstore (world [ada] [])).
Proof.
  exists ("pj-shop", memberCRDName "ada@acme.io"), (obj_with_rv (Sim.rv_of (Obj := ProjectMember) []) ada).
  split_and!; vm_compute; reflexivity.
Qed.

Lemma owners_remain_witness :
  has_owner "pj-shop" (kstore (world [ada] [])) ∧
  has_owner "pj-shop" (kstore (remove "ada@acme.io" (world [ada] [])).1).
Proof.
  split; [apply one_owner|].
  refine (proj2 (proj2 (proj2 (proj2 (owners_remain created_rv details id now ctx true _ (request_of "ada@acme.io" ""))))
    (world [ada] []) eq_refl) "pj-shop" one_owner).
  intros k w o Hk. unfold created_rv. by rewrite Hk.
Defined.

(** The removal of a member is not made on the version the guard saw: two owners who are
    removed at the same time both go. *)
Example both_owners_leave :
  let w := world [ada; bob] [Sim.Calm; Sim.Calm; Sim.External (Sim.Del (obj_key bob))] in
  code (remove "ada@acme.io" w).2 = Some 204%Z ∧
  map_to_list (kstore (Obj := ProjectMember) (remove "ada@acme.io" w).1) = [].
Proof. vm_compute. split; reflexivity. Qed.
End MemberRuns.
