(* ===== verification/ApiUsers.v ===== *)
(** * Users and sessions over REST: [internal/api/users.go], [auth.go], [middleware.go]

    The administration of users, the first-time setup, logging in, refreshing a session,
    exchanging it for an event-stream token, and the middleware that attaches the
    principal to a request.  The handlers work against the interface [AuthProvider]
    ([internal/auth/provider.go]); [native_provider] is the implementation of [Auth].

    Issuing and checking a session token may have to create the signing key, for which
    [Auth] has fuel: the handlers that do so return [None] when it runs out. *)

From S2P Require Import Prelude GoStrings GoText GoNum GoTime Json JsonStruct Kube Core Api Effects Authz SSETokens Auth LoginLimit ApiServer.

(** ** Requests and answers *)

Definition StatusNotImplemented : Z := 501.

Record userResponse := { ur_ID : string; ur_Email : string; ur_Role : string }.

Record createUserRequest := { cu_Email : string; cu_Password : string; cu_Role : string }.
Definition decode_create_user : decoder createUserRequest := struct
  [("email", string_field (λ v q, {| cu_Email := v; cu_Password := cu_Password q; cu_Role := cu_Role q |}));
   ("password", string_field (λ v q, {| cu_Email := cu_Email q; cu_Password := v; cu_Role := cu_Role q |}));
   ("role", string_field (λ v q, {| cu_Email := cu_Email q; cu_Password := cu_Password q; cu_Role := v |}))].

(** [updateUserRoleRequest] and [resetPasswordRequest] *)
Definition decode_user_role : decoder string := struct [("role", string_field (λ v _, v))].
Definition decode_password : decoder string := struct [("password", string_field (λ v _, v))].

Record changePasswordRequest := { cp_CurrentPassword : string; cp_NewPassword : string }.
Definition decode_change_password : decoder changePasswordRequest := struct
  [("current_password", string_field (λ v q, {| cp_CurrentPassword := v; cp_NewPassword := cp_NewPassword q |}));
   ("new_password", string_field (λ v q, {| cp_CurrentPassword := cp_CurrentPassword q; cp_NewPassword := v |}))].

(** [setupRequest] and [loginRequest] *)
Definition decode_credentials : decoder Credentials := struct
  [("email", string_field (λ v q, {| Credentials_Email := v; Credentials_Password := Credentials_Password q |}));
   ("password", string_field (λ v q, {| Credentials_Email := Credentials_Email q; Credentials_Password := v |}))].
Definition no_credentials : Credentials := {| Credentials_Email := ""; Credentials_Password := "" |}.

(** The refusal of the limiter comes with a [Retry-After] header. *)
Inductive user_body :=
  | SetupStatusBody (setupRequired : bool)
  | SessionBody (token : string) (user : Principal)
  | SSETokenBody (token : string) (expiresIn : Z)
  | UsersBody (l : list userResponse)
  | UserBody (u : userResponse)
  | DoneBody
  | EmptyBody
  | TooManyBody (msg : string) (retryAfter : Z).

Definition validPlatformRole (role : string) : bool :=
  existsb (String.eqb role) [RoleAdmin; RoleMember; RoleViewer].

Definition is_admin (u : User) : bool := String.eqb (User_Role u) RoleAdmin.
Definition admin_count (users : list User) : nat := length (List.filter is_admin users).

Definition user_resource : Resource :=
  {| Resource_Kind := "user"; Resource_Namespace := ""; Resource_Name := "";
     Resource_Project := ""; Resource_Environment := "" |}.

Definition errCurrentPrincipalUnavailable : error :=
  Sentinel "current principal unavailable for this auth provider".

(** ** The provider of accounts *)

(** [ap_native] says that it is the native one; [ap_CurrentPrincipal] is there when it
    implements [refreshPrincipalProvider]. *)
Record AuthProvider (W : Type) := {
  ap_native : bool;
  ap_Authenticate : Credentials → W → W * (error + Principal);
  ap_Principal : string → W → option (W * (error + Principal));
  ap_ListUsers : W → W * (error + list User);
  ap_RevokeUser : string → W → W * option error;
  ap_CurrentPrincipal : option (string → Z → W → W * (error + Principal));
}.
#[global] Arguments ap_native {W}.
#[global] Arguments ap_Authenticate {W}.
#[global] Arguments ap_Principal {W}.
#[global] Arguments ap_ListUsers {W}.
#[global] Arguments ap_RevokeUser {W}.
#[global] Arguments ap_CurrentPrincipal {W}.

Section handlers.
Context {W : Type} {C : KubeClient W Secret} {D : KubeDelete W Secret} {L : KubeListIn W Secret}
  {CC : KubeClient W ConfigMap} {DC : KubeDelete W ConfigMap} {CP : KubeClient W Project} {CM : KubeClient W ProjectMember}
  {KR : KubeRetry (W * bool)} {PL : Part W loginLimiter} {PT : Part W sseTokenStore}.
(** The native provider's reader past the cache, and the clientset's reads. *)
Context (uncached live : option (NamespacedName → W → W * (error + Secret))) (now : W → Time).
Context (bcrypt_generate : string → W → error + string) (bcrypt_compare : string → string → bool).
Context (jwt_sign : string → Claims → error + string)
  (jwt_parse : Z → string → string → W → error + (Claims * bool)) (rand_key : W → error + string) (fuel : nat).
(** 32 random bytes, and the conversion of a float out of range. *)
Context (rand_token : W → error + list N) (machine : float64 → Z).
Context (details : error → option (string * string)) (json_error : string → string).
Context (auth : AuthProvider W).

Definition native_provider : AuthProvider W :=
  {| ap_native := true;
     ap_Authenticate := Authenticate uncached bcrypt_compare;
     ap_Principal := Principal_of_session jwt_parse rand_key fuel;
     ap_ListUsers := Auth.ListUsers;
     ap_RevokeUser := RevokeUser;
     ap_CurrentPrincipal := Some CurrentPrincipal |}.

Local Abbreviation handler := (H W user_body Empty_set).

(** [writeJSON(w, code, errorResponse{err.Error()})] on an error. *)
Definition or_text {A B} (code : Z) (f : W → W * (error + A)) : H W B A :=
  r ← call f;
  match r with inl err => fail code (error_text err) | inr a => mret a end.

Definition revalidatePrincipal (email : string) (tokenGen : Z) (w : W) : W * (error + Principal) :=
  match ap_native auth, live with
  | true, Some read => CurrentPrincipalLive read email tokenGen w
  | _, _ =>
    match ap_CurrentPrincipal auth with
    | Some current => current email tokenGen w
    | None => (w, inl errCurrentPrincipalUnavailable)
    end
  end.

(** The answer to an error of [revalidatePrincipal]; [what] is what is not available. *)
Definition revalidation_failed {A} (what : string) (err : error) : H W user_body A :=
  if errors_Is "current principal unavailable for this auth provider" err
  then fail StatusUnauthorized (what +:+ " unavailable for this auth provider")
  else if errors_Is "session invalidated by password change" err
  then fail StatusUnauthorized "session invalidated by password change"
  else if errors_Is "user not found" err then fail StatusUnauthorized "user no longer exists"
  else fail StatusInternalServerError (error_text err).

(** *** Administration *)

Definition ListUsers (r : request) : handler :=
  _ ← authorize r user_resource ActionRead;
  users ← or_text StatusInternalServerError (ap_ListUsers auth);
  writeJSON StatusOK
    (UsersBody ((λ u, {| ur_ID := User_ID u; ur_Email := User_Email u; ur_Role := User_Role u |}) <$> users)).

Definition CreateUser (r : request) : handler :=
  _ ← authorize r user_resource ActionCreate;
  req ← decode_body json_error r (body_of decode_create_user {| cu_Email := ""; cu_Password := ""; cu_Role := "" |});
  _ ← require (negb (String.eqb (cu_Email req) "" || String.eqb (cu_Password req) "")) StatusBadRequest
        "email and password are required";
  _ ← require (validPlatformRole (cu_Role req)) StatusBadRequest "role must be admin, member, or viewer";
  _ ← require (ap_native auth) StatusNotImplemented "user management requires native auth provider";
  err ← call (Auth.CreateUser bcrypt_generate (cu_Email req) (cu_Password req) (cu_Role req));
  _ ← (match err with
       | Some err => if IsAlreadyExists err then fail StatusConflict "user already exists"
                     else fail StatusInternalServerError (error_text err)
       | None => mret tt
       end);
  writeJSON StatusCreated (UserBody {| ur_ID := cu_Email req; ur_Email := cu_Email req; ur_Role := cu_Role req |}).

(** [secret.Data["role"] = []byte(role)] *)
Definition with_user_role (role : string) (secret : Secret) : Secret :=
  with_data (<["role" := role]> (sec_Data secret)) secret.

(** One attempt at a change of the role; the state holds whether it would demote the last
    admin. *)
Definition update_user_role (key : NamespacedName) (role : string) (s : W * bool) : (W * bool) * option error :=
  match kget key s.1 with
  | (w, inl err) => ((w, false), Some err)
  | (w, inr secret) =>
    let write w := let '(w, err) := kupdate (with_user_role role secret) w in ((w, false), err) in
    if String.eqb (map_get (sec_Data secret) "role") RoleAdmin && negb (String.eqb role RoleAdmin) then
      match ap_ListUsers auth w with
      | (w, inl err) => ((w, false), Some err)
      | (w, inr users) => if (admin_count users <=? 1)%nat then ((w, true), None) else write w
      end
    else write w
  end.

Definition change_user_role (key : NamespacedName) (role : string) (w : W) : W * (option error * bool) :=
  let '((w, demoting), err) := RetryOnConflict (update_user_role key role) (w, false) in (w, (err, demoting)).

Definition UpdateUserRole (r : request) : handler :=
  _ ← authorize r user_resource ActionUpdate;
  let email := URLParam r "email" in
  _ ← require (negb (String.eqb email "")) StatusBadRequest "email is required";
  role ← decode_body json_error r (body_of decode_user_role "");
  _ ← require (validPlatformRole role) StatusBadRequest "role must be admin, member, or viewer";
  '(err, demotingLastAdmin) ← call (change_user_role (user_key email) role);
  _ ← (match err with Some err => writeError details err | None => mret tt end);
  _ ← require (negb demotingLastAdmin) StatusBadRequest "cannot demote the last platform admin";
  writeJSON StatusOK (UserBody {| ur_ID := email; ur_Email := email; ur_Role := role |}).

Definition is_target (email : string) (u : User) : bool := String.eqb (User_Email u) email || String.eqb (User_ID u) email.

Definition DeleteUser (r : request) : handler :=
  _ ← authorize r user_resource ActionDelete;
  let email := URLParam r "email" in
  _ ← require (negb (String.eqb email "")) StatusBadRequest "email is required";
  users ← or_text StatusInternalServerError (ap_ListUsers auth);
  let targetIsAdmin := existsb (λ u, is_admin u && is_target email u) users in
  _ ← require (negb (targetIsAdmin && (admin_count users <=? 1)%nat)) StatusBadRequest
        "cannot delete the last platform admin";
  err ← call (ap_RevokeUser auth email);
  _ ← (match err with Some err => fail StatusInternalServerError (error_text err) | None => mret tt end);
  writeJSON StatusNoContent EmptyBody.

Definition ResetUserPassword (r : request) : handler :=
  _ ← authorize r user_resource ActionUpdate;
  let email := URLParam r "email" in
  _ ← require (negb (String.eqb email "")) StatusBadRequest "email is required";
  _ ← require (ap_native auth) StatusNotImplemented "password management requires native auth provider";
  password ← decode_body json_error r (body_of decode_password "");
  _ ← require (negb (String.eqb password "")) StatusBadRequest "password is required";
  err ← call (UpdatePassword bcrypt_generate email password);
  _ ← (match err with Some err => fail StatusBadRequest (error_text err) | None => mret tt end);
  writeJSON StatusOK DoneBody.

Definition ChangePassword (r : request) : handler :=
  match rq_principal r with
  | None => fail StatusUnauthorized "not authenticated"
  | Some principal =>
    _ ← require (ap_native auth) StatusNotImplemented "password management requires native auth provider";
    req ← decode_body json_error r (body_of decode_change_password {| cp_CurrentPassword := ""; cp_NewPassword := "" |});
    _ ← require (negb (String.eqb (cp_CurrentPassword req) "" || String.eqb (cp_NewPassword req) "")) StatusBadRequest
          "current_password and new_password are required";
    verified ← call (VerifyPassword bcrypt_compare (Principal_Email principal) (cp_CurrentPassword req));
    _ ← (match verified with inl _ => fail StatusUnauthorized "current password is incorrect" | inr _ => mret tt end);
    err ← call (UpdatePassword bcrypt_generate (Principal_Email principal) (cp_NewPassword req));
    _ ← (match err with Some err => fail StatusBadRequest (error_text err) | None => mret tt end);
    writeJSON StatusOK DoneBody
  end.

(** *** Sessions *)

(** [GenerateToken] for the principal, and the answer with it. *)
Definition issue_session (code : Z) (m : H W user_body Principal) (w : W) : option (W * reply user_body) :=
  match m w with
  | (w, inl rep) => Some (w, rep)
  | (w, inr principal) =>
    '(w, token) ← GenerateToken now jwt_sign rand_key fuel principal w;
    Some (w, match token with
             | inl err => Reply StatusInternalServerError (inl (error_text err))
             | inr token => Reply code (inr (SessionBody token principal))
             end)
  end.

Definition Status (r : request) : handler :=
  users ← or_text StatusInternalServerError (ap_ListUsers auth);
  writeJSON StatusOK (SetupStatusBody (match users with [] => true | _ => false end)).

(** A body that does not decode is answered without the reason. *)
Definition decode_plain {A} (r : request) (dec : string → option A) : H W user_body A :=
  match rq_body r with
  | inl _ => fail StatusBadRequest "invalid JSON"
  | inr body => match dec body with Some a => mret a | None => fail StatusBadRequest "invalid JSON" end
  end.

(** The claim to the setup. *)
Definition sentinel : ConfigMap :=
  {| cm_meta := with_name "mortise-setup-complete" (with_namespace "mortise-system" ObjectMeta_zero); cm_Data := ∅ |}.

Definition setup_admin (creds : Credentials) : H W user_body Principal :=
  claimed ← call (kcreate sentinel);
  _ ← (match claimed with
       | Some err => if IsAlreadyExists err then fail StatusConflict "setup already complete"
                     else fail StatusInternalServerError (error_text err)
       | None => mret tt
       end);
  err ← call (Auth.CreateUser bcrypt_generate (Credentials_Email creds) (Credentials_Password creds) RoleAdmin);
  match err with
  | Some err =>
    _ ← call (kdelete ConfigMap (obj_key sentinel));
    if IsAlreadyExists err then fail StatusConflict "user already exists"
    else fail StatusInternalServerError (error_text err)
  | None => mret {| Principal_ID := Credentials_Email creds; Principal_Email := Credentials_Email creds;
                    Principal_Role := RoleAdmin; Principal_PasswordGen := 0 |}
  end.

Definition Setup (r : request) : W → option (W * reply user_body) :=
  issue_session StatusCreated (
    creds ← decode_plain r (body_of decode_credentials no_credentials);
    _ ← require (negb (String.eqb (Credentials_Email creds) "" || String.eqb (Credentials_Password creds) ""))
          StatusBadRequest "email and password required";
    _ ← require (negb (short_password (Credentials_Password creds))) StatusBadRequest
          "password must be at least 8 characters";
    _ ← require (ap_native auth) StatusNotImplemented "setup requires native auth provider";
    setup_admin creds).

Definition retry_after (d : Z) : Z := wrap64 (int_of_float machine (Seconds d) + 1).

(** [remoteAddr] is the peer of the connection. *)
Definition check_login (remoteAddr : string) (creds : Credentials) : H W user_body Principal :=
  let key := loginRateKey (Credentials_Email creds) remoteAddr in
  '(ok, retryAfter) ← call (λ w, over (allow machine (now w) key) w);
  _ ← (if (ok : bool) then mret tt
       else writeJSON StatusTooManyRequests
              (TooManyBody "too many login attempts; try again later" (retry_after retryAfter)));
  r ← call (ap_Authenticate auth creds);
  match r with
  | inl _ =>
    _ ← call (λ w, over (λ l, (recordFailure (now w) key l, tt)) w);
    fail StatusUnauthorized "invalid credentials"
  | inr principal =>
    _ ← call (over (λ l, (recordSuccess key l, tt)));
    mret principal
  end.

Definition Login (remoteAddr : string) (r : request) : W → option (W * reply user_body) :=
  issue_session StatusOK (
    creds ← decode_plain r (body_of decode_credentials no_credentials);
    check_login remoteAddr creds).

(** The bearer token of a request, as the middleware and [Refresh] take it. *)
Definition bearer_token (r : request) : string + string :=
  let header := map_get (rq_header r) "Authorization" in
  if String.eqb header "" || negb (has_prefix "Bearer " header) then inl "missing or invalid Authorization header"
  else
    let token := trim_prefix "Bearer " header in
    if String.eqb token "" then inl "empty bearer token" else inr token.

Definition Refresh (r : request) (w : W) : option (W * reply user_body) :=
  match bearer_token r with
  | inl msg => Some (w, Reply StatusUnauthorized (inl msg))
  | inr token =>
    '(w, res) ← ValidateTokenForRefresh jwt_parse rand_key fuel token w;
    match res with
    | inl _ => Some (w, Reply StatusUnauthorized (inl "token not eligible for refresh"))
    | inr (principal, tokenGen) =>
      issue_session StatusOK (
        res ← call (revalidatePrincipal (Principal_Email principal) tokenGen);
        match res with
        | inl err => revalidation_failed "token refresh" err
        | inr principal => mret principal
        end) w
    end
  end.

(** [sse_tokens.go] *)
Definition IssueSSEToken (r : request) : handler :=
  match rq_principal r with
  | None => fail StatusUnauthorized "authentication required"
  | Some p =>
    res ← call (revalidatePrincipal (Principal_Email p) (Principal_PasswordGen p));
    match res with
    | inl err => revalidation_failed "SSE token" err
    | inr revalidated =>
      issued ← call (λ w, over (Issue (rand_token w) revalidated) w);
      match issued with
      | inl _ => fail StatusInternalServerError "failed to generate SSE token"
      | inr token => writeJSON StatusOK (SSETokenBody token (int_of_float machine (Seconds sseTokenTTL)))
      end
    end
  end.

(** *** Middleware *)

Section middleware.
Context {B : Type} (next : request → W → option (W * reply B)).

Definition with_principal (p : Principal) (r : request) : request :=
  {| rq_principal := Some p; rq_params := rq_params r; rq_query := rq_query r; rq_header := rq_header r;
     rq_body := rq_body r |}.

(** The principal of a session token, for the handler behind. *)
Definition authenticated (token : string) (r : request) (w : W) : option (W * reply B) :=
  '(w, res) ← ap_Principal auth token w;
  match res with
  | inl _ => Some (w, Reply StatusUnauthorized (inl "invalid token"))
  | inr principal => next (with_principal principal r) w
  end.

Definition jwtAuthMiddleware (r : request) (w : W) : option (W * reply B) :=
  match rq_principal r with
  | Some _ => next r w
  | None =>
    match bearer_token r with
    | inl msg => Some (w, Reply StatusUnauthorized (inl msg))
    | inr token => authenticated token r w
    end
  end.

Definition optionalJWTMiddleware (r : request) (w : W) : option (W * reply B) :=
  match bearer_token r with
  | inr token => if has_prefix "mrt_" token then next r w else authenticated token r w
  | inl _ => next r w
  end.

Definition sseAuthMiddleware (r : request) (w : W) : option (W * reply B) :=
  let refused := Reply StatusUnauthorized (inl "invalid or expired SSE token") in
  let tok := map_get (rq_query r) "token" in
  if negb (String.eqb (map_get (rq_header r) "Authorization") "") then next r w
  else if String.eqb tok "" then next r w
  else if has_prefix sseTokenPrefix tok then
    match over (Redeem tok) w with
    | (w, None) => Some (w, refused)
    | (w, Some redeemed) =>
      match revalidatePrincipal (tp_email redeemed) (tp_passwordGen redeemed) w with
      | (w, inl _) => Some (w, refused)
      | (w, inr principal) => next (with_principal principal r) w
      end
    end
  else Some (w, refused).
End middleware.
End handlers.
