(* ===== verification/ApiUsersFacts.v ===== *)
(** * Users and sessions over REST: what the handlers promise

    The administration of users implements the abstract accounts of [Auth] with the rules
    of the handlers, among them that an admin is left; the setup happens once; a login is
    throttled and then decided by the account; an old session opens nothing. *)

From S2P Require Import Prelude GoStrings GoText GoNum GoTime Json JsonStruct Kube Core Api Effects Authz SSETokens Auth LoginLimit ApiServer ApiUsers.

(** ** Accounts and their Secrets *)

Definition admin_accounts (accts : accounts) : accounts := filter (λ '(_, a), ac_role a = RoleAdmin) accts.
Definition admins (accts : accounts) : nat := size (admin_accounts accts).

Definition user_of (email : string) (a : account) : User :=
  {| User_ID := email; User_Email := email; User_Role := ac_role a |}.

(** The Secrets that carry the label of users are those of the accounts. *)
Definition users (compare : string → string → bool) (accts : accounts) (m : gmap NamespacedName Secret) : Prop :=
  represents compare accts m ∧
  ∀ k s, m !! k = Some s →
    selected namespace {[userLabelKey := "true"]} s = true ↔ ∃ email, is_Some (accts !! email) ∧ k = user_key email.

Lemma NoDup_fmap_filter {A B} (f : A → B) (p : A → bool) l : NoDup (f <$> l) → NoDup (f <$> List.filter p l).
Proof.
  induction l as [|x l IH]; simpl; [done|]. intros [Hx Hnd]%NoDup_cons. destruct (p x); simpl; [|by apply IH].
  constructor; [|by apply IH]. intros (y & Hf & Hy)%list_elem_of_fmap. apply Hx, list_elem_of_fmap. exists y. split; [done|].
  apply list_elem_of_In, List.filter_In in Hy as [Hy _]. by apply list_elem_of_In.
Qed.

(** A list of users without repetition that holds the accounts. *)
Definition lists (l : list User) (accts : accounts) : Prop :=
  NoDup (User_Email <$> l) ∧ ∀ u, u ∈ l ↔ ∃ email a, accts !! email = Some a ∧ u = user_of email a.

Lemma admin_count_lists l accts : lists l accts → admin_count l = admins accts.
Proof.
  intros [Hnd Hl]. unfold admin_count, admins. rewrite <-size_dom.
  rewrite <-(length_fmap User_Email), <-(size_list_to_set (C := gset string)) by (by apply NoDup_fmap_filter).
  f_equal. apply set_eq. intros email. rewrite elem_of_list_to_set, list_elem_of_fmap, elem_of_dom. split.
  - intros (u & -> & Hu). apply list_elem_of_In, List.filter_In in Hu as [Hu Ha]. apply list_elem_of_In, Hl in Hu as (e & a & He & ->).
    exists a. apply map_lookup_filter_Some_2; [done|]. by apply String.eqb_eq in Ha.
  - intros [a [Ha Hr]%map_lookup_filter_Some]. exists (user_of email a). split; [done|].
    apply list_elem_of_In, List.filter_In. split; [apply list_elem_of_In, Hl; by exists email, a|]. by apply String.eqb_eq.
Qed.

Lemma target_lists l accts email :
  lists l accts →
  existsb (λ u, is_admin u && is_target email u) l =
  match accts !! email with Some a => String.eqb (ac_role a) RoleAdmin | None => false end.
Proof.
  intros [_ Hl]. apply eq_true_iff_eq. rewrite existsb_exists. split.
  - intros (u & Hu & Hb). apply list_elem_of_In, Hl in Hu as (e & a & He & ->).
    apply andb_true_iff in Hb as [Ha Ht]. unfold is_target in Ht. simpl in Ht. rewrite orb_diag in Ht.
    apply String.eqb_eq in Ht as ->. by rewrite He.
  - destruct (accts !! email) as [a|] eqn:Ea; [|done]. intros Ha. exists (user_of email a).
    split; [apply list_elem_of_In, Hl; by exists email, a|]. unfold is_target, is_admin. simpl. by rewrite Ha, String.eqb_refl.
Qed.

Section accounts.
Context {W : Type} {C : KubeClient W Secret} {OK : KubeClientOk W Secret} {D : KubeDelete W Secret}
  {DO : KubeDeleteOk W Secret} {L : KubeListIn W Secret} {LO : KubeListOk W Secret}.
Context (bcrypt_compare : string → string → bool).
Local Abbreviation stored w := (kstore (Obj := Secret) w).
Local Abbreviation quiet w := (kquiet (Obj := Secret) w).
Local Abbreviation users := (users bcrypt_compare).

Lemma ListUsers_quiet accts w :
  quiet w → users accts (stored w) →
  ∃ w' l, quiet w' ∧ stored w' = stored w ∧ Auth.ListUsers w = (w', inr l) ∧ lists l accts.
Proof.
  intros Hq [Hrep Hlab]. unfold Auth.ListUsers.
  destruct (klist_quiet (Obj := Secret) namespace {[userLabelKey := "true"]} w Hq) as (w1 & l & Hq1 & Hs1 & -> & Hnd & Hl).
  assert (∀ s, s ∈ l → ∃ email a, accts !! email = Some a ∧ obj_key s = user_key email ∧ holds bcrypt_compare email a s) as Hin.
  { intros s [Hsel Hst]%Hl. destruct (proj1 (Hlab _ _ Hst) Hsel) as (email & [a Ha] & Hk).
    specialize (Hrep email) as He. rewrite Ha in He. destruct He as (s' & Hs' & Hh). rewrite <-Hk, Hst in Hs'.
    injection Hs' as <-. by exists email, a. }
  set (user := λ s, {| User_ID := map_get (sec_Data s) "email"; User_Email := map_get (sec_Data s) "email";
                       User_Role := map_get (sec_Data s) "role" |}).
  assert (∀ email a s, holds bcrypt_compare email a s → user s = user_of email a) as Huser.
  { intros email a s (He & Hr & _). unfold user, user_of, map_get. by rewrite He, Hr. }
  eexists _, (user <$> l). split; [exact Hq1|]. split; [exact Hs1|]. split; [done|]. split.
  - clear Hl. induction l as [|s l IH]; simpl; [constructor|]. apply NoDup_cons in Hnd as [Hx Hnd].
    constructor; [|apply IH; [done|]; intros s' Hs'; apply Hin; by right].
    intros (u & Hu & (s' & -> & Hs')%list_elem_of_fmap)%list_elem_of_fmap. apply Hx, list_elem_of_fmap.
    destruct (Hin s ltac:(by left)) as (e & a & _ & Hk & Hh). destruct (Hin s' ltac:(by right)) as (e' & a' & _ & Hk' & Hh').
    change (User_Email (user s) = User_Email (user s')) in Hu. rewrite (Huser _ _ _ Hh), (Huser _ _ _ Hh') in Hu. simpl in Hu.
    exists s'. split; [congruence|done].
  - intros u. rewrite list_elem_of_fmap. split.
    + intros (s & -> & Hs). destruct (Hin s Hs) as (e & a & Ha & _ & Hh). exists e, a. split; [done|]. by apply Huser.
    + intros (e & a & Ha & ->). specialize (Hrep e) as He. rewrite Ha in He. destruct He as (s & Hs & Hh). exists s.
      split; [symmetry; by apply Huser|]. pose proof (kstore_key _ _ _ Hs) as Hk. apply Hl. rewrite Hk. split; [|done].
      apply (Hlab _ _ Hs). by exists e.
Qed.

(** The Secret of an account replaced by one of the same name and labels. *)
Lemma users_update accts m email a s s' b :
  users accts m → accts !! email = Some a → m !! user_key email = Some s →
  selected namespace {[userLabelKey := "true"]} s' = selected namespace {[userLabelKey := "true"]} s → holds bcrypt_compare email b s' → users (<[email := b]> accts) (<[user_key email := s']> m).
Proof.
  intros [Hrep Hlab] Ha Hs Hm Hh. split; [by apply represents_insert|]. intros k s0.
  destruct (decide (k = user_key email)) as [->|Hne].
  - rewrite lookup_insert_eq. intros [= <-]. rewrite Hm. split.
    + intros _. exists email. rewrite lookup_insert_eq. by split; [eexists|].
    + intros _. apply (Hlab _ _ Hs). by exists email.
  - rewrite lookup_insert_ne by done. intros Hk. rewrite (Hlab _ _ Hk). split; intros (e & He & ->); exists e; (split; [|done]);
      (rewrite lookup_insert_ne in * by (by intros ->)); done.
Qed.

Lemma users_create accts m email hash role rv b :
  users accts m → accts !! email = None → holds bcrypt_compare email b (obj_with_rv rv (user_secret email hash role)) →
  users (<[email := b]> accts) (<[user_key email := obj_with_rv rv (user_secret email hash role)]> m).
Proof.
  intros [Hrep Hlab] Ha Hh. split; [by apply represents_insert|]. intros k s0.
  destruct (decide (k = user_key email)) as [->|Hne].
  - rewrite lookup_insert_eq. intros [= <-]. split; [intros _|done]. exists email. rewrite lookup_insert_eq. by split; [eexists|].
  - rewrite lookup_insert_ne by done. intros Hk. rewrite (Hlab _ _ Hk). split; intros (e & He & ->); exists e; (split; [|done]);
      (rewrite lookup_insert_ne in * by (by intros ->)); done.
Qed.

Lemma users_delete accts m email :
  users accts m → users (delete email accts) (delete (user_key email) m).
Proof.
  intros [Hrep Hlab]. split; [by apply represents_delete|]. intros k s0 [Hne Hk]%lookup_delete_Some.
  rewrite (Hlab _ _ Hk). split; intros (e & He & ->); exists e; (split; [|done]);
    (rewrite lookup_delete_ne in * by (by intros ->)); done.
Qed.
End accounts.

(** ** What the administration of users does *)

Inductive admin_op :=
  | AddUser (email password role : string)
  | SetRole (email role : string)
  | DropUser (email : string)
  | ResetPassword (email password : string).

Definition with_ac_role (role : string) (a : account) : account :=
  {| ac_password := ac_password a; ac_role := role; ac_gen := ac_gen a |}.
Definition with_ac_password (password : string) (a : account) : account :=
  {| ac_password := password; ac_role := ac_role a; ac_gen := wrap64 (ac_gen a + 1) |}.

(** The account is the only admin. *)
Definition last_admin (a : account) (accts : accounts) : bool :=
  String.eqb (ac_role a) RoleAdmin && (admins accts <=? 1)%nat.

(** The status code and the accounts after an operation. *)
Definition admin_spec (op : admin_op) (accts : accounts) : Z * accounts :=
  match op with
  | AddUser email password role =>
    if String.eqb email "" || String.eqb password "" || negb (validPlatformRole role) then (StatusBadRequest, accts)
    else if negb (good_password password) then (StatusInternalServerError, accts)
    else match accts !! email with
         | Some _ => (StatusConflict, accts)
         | None => (StatusCreated, <[email := {| ac_password := password; ac_role := role; ac_gen := 0 |}]> accts)
         end
  | SetRole email role =>
    if String.eqb email "" || negb (validPlatformRole role) then (StatusBadRequest, accts)
    else match accts !! email with
         | Some a => if last_admin a accts && negb (String.eqb role RoleAdmin) then (StatusBadRequest, accts)
                     else (StatusOK, <[email := with_ac_role role a]> accts)
         | None => (StatusNotFound, accts)
         end
  | DropUser email =>
    if String.eqb email "" then (StatusBadRequest, accts)
    else match accts !! email with
         | Some a => if last_admin a accts then (StatusBadRequest, accts) else (StatusNoContent, delete email accts)
         | None => (StatusInternalServerError, accts)
         end
  | ResetPassword email password =>
    if String.eqb email "" || String.eqb password "" || negb (good_password password) then (StatusBadRequest, accts)
    else match accts !! email with
         | Some a => (StatusOK, <[email := with_ac_password password a]> accts)
         | None => (StatusBadRequest, accts)
         end
  end.

Lemma admins_insert email a accts :
  accts !! email = None → admins (<[email := a]> accts) = ((if String.eqb (ac_role a) RoleAdmin then 1 else 0) + admins accts)%nat.
Proof.
  intros Hn. unfold admins, admin_accounts. destruct (String.eqb_spec (ac_role a) RoleAdmin) as [Hr|Hr].
  - rewrite map_filter_insert_True by done. rewrite map_size_insert_None; [done|]. apply map_lookup_filter_None. by left.
  - rewrite map_filter_insert_False by done. by rewrite delete_id.
Qed.

Lemma admins_split email a accts :
  accts !! email = Some a →
  admins accts = ((if String.eqb (ac_role a) RoleAdmin then 1 else 0) + admins (delete email accts))%nat.
Proof.
  intros Ha. rewrite <-(insert_delete_id accts email a Ha) at 1. apply admins_insert, lookup_delete_eq.
Qed.

Lemma admins_replace email a b accts :
  accts !! email = Some a →
  (admins (<[email := b]> accts) + (if String.eqb (ac_role a) RoleAdmin then 1 else 0) =
   admins accts + (if String.eqb (ac_role b) RoleAdmin then 1 else 0))%nat.
Proof.
  intros Ha. rewrite (admins_split email a accts Ha), <-insert_delete_eq, admins_insert by apply lookup_delete_eq. lia.
Qed.

(** An admin is left. *)
Lemma admin_spec_keeps op accts : (0 < admins accts)%nat → (0 < admins (admin_spec op accts).2)%nat.
Proof.
  intros H. destruct op as [email password role|email role|email|email password]; simpl.
  - repeat (case_match; simpl; try done). by rewrite admins_insert; [lia|].
  - destruct (_ || _); [done|]. destruct (accts !! email) as [a|] eqn:Ea; [|done]. unfold last_admin.
    pose proof (admins_replace email a (with_ac_role role a) accts Ea) as Hr. simpl in Hr.
    destruct (String.eqb (ac_role a) RoleAdmin), (String.eqb role RoleAdmin), (Nat.leb_spec (admins accts) 1); simpl; lia.
  - destruct (String.eqb _ _); [done|]. destruct (accts !! email) as [a|] eqn:Ea; [|done]. unfold last_admin.
    pose proof (admins_split email a accts Ea) as Hr.
    destruct (String.eqb (ac_role a) RoleAdmin), (Nat.leb_spec (admins accts) 1); simpl; lia.
  - destruct (_ || _); [done|]. destruct (accts !! email) as [a|] eqn:Ea; [|done].
    pose proof (admins_replace email a (with_ac_password password a) accts Ea) as Hr. simpl in *.
    destruct (String.eqb (ac_role a) RoleAdmin); lia.
Qed.

Section refinement.
Context {W : Type} {C : KubeClient W Secret} {OK : KubeClientOk W Secret} {D : KubeDelete W Secret}
  {DO : KubeDeleteOk W Secret} {L : KubeListIn W Secret} {LO : KubeListOk W Secret}
  {CP : KubeClient W Project} {CM : KubeClient W ProjectMember} {KR : KubeRetry (W * bool)} {KRO : KubeRetryOk (W * bool)}.
Context (uncached live : option (NamespacedName → W → W * (error + Secret))).
Context (bcrypt_generate : string → W → error + string) (bcrypt_compare : string → string → bool).
Context {BO : BcryptOk bcrypt_generate bcrypt_compare}.
(** bcrypt's errors are not the API server's. *)
Context (bcrypt_error : ∀ p w err, bcrypt_generate p w = inl err → reason_of err = None).
Context (jwt_parse : Z → string → string → W → error + (Claims * bool)) (rand_key : W → error + string) (fuel : nat).
Context (details : error → option (string * string)) (json_error : string → string).
Local Abbreviation stored w := (kstore (Obj := Secret) w).
Local Abbreviation quiet w := (kquiet (Obj := Secret) w).
Local Abbreviation users := (users bcrypt_compare).
Local Abbreviation native := (native_provider uncached bcrypt_compare jwt_parse rand_key fuel).

(** The request asks for the operation. *)
Definition requests (op : admin_op) (r : request) : Prop :=
  match op with
  | AddUser email password role => ∃ body, rq_body r = inr body ∧
      body_of decode_create_user {| cu_Email := ""; cu_Password := ""; cu_Role := "" |} body =
        Some {| cu_Email := email; cu_Password := password; cu_Role := role |}
  | SetRole email role => URLParam r "email" = email ∧ ∃ body, rq_body r = inr body ∧
      body_of decode_user_role "" body = Some role
  | DropUser email => URLParam r "email" = email
  | ResetPassword email password => URLParam r "email" = email ∧ ∃ body, rq_body r = inr body ∧
      body_of decode_password "" body = Some password
  end.

Definition handle (op : admin_op) (r : request) : H W user_body Empty_set :=
  match op with
  | AddUser _ _ _ => CreateUser bcrypt_generate json_error native r
  | SetRole _ _ => UpdateUserRole details json_error native r
  | DropUser _ => DeleteUser native r
  | ResetPassword _ _ => ResetUserPassword bcrypt_generate json_error native r
  end.

Lemma authorize_admin {B} r p res act w :
  rq_principal r = Some p → Principal_Role p = RoleAdmin → authorize (B := B) r res act w = (w, inr tt).
Proof.
  intros Hp Hr. unfold authorize. rewrite Hp. unfold mbind, H_bind, call, Authorize. by rewrite Hr.
Qed.

Lemma decode_body_run {B A} r body (dec : string → option A) a w :
  rq_body r = inr body → dec body = Some a → decode_body (W := W) (B := B) json_error r dec w = (w, inr a).
Proof. intros Hb Hd. unfold decode_body. by rewrite Hb, Hd. Qed.

(** What a handler did: the status of its answer and the accounts. *)
Definition answers (res : W * (reply user_body + Empty_set)) (spec : Z * accounts) : Prop :=
  quiet res.1 ∧ users spec.2 (stored res.1) ∧ ∃ rep, res.2 = inl rep ∧ rp_code rep = spec.1.

Lemma answers_same accts w w' rep code :
  quiet w' → stored w' = stored w → users accts (stored w) → rp_code rep = code → answers (w', inl rep) (code, accts).
Proof. intros Hq Hs Hu Hc. unfold answers. simpl. rewrite Hs. split; [done|]. split; [done|]. by exists rep. Qed.

(** *** The operations of the provider *)

Lemma create_quiet accts email password role w :
  quiet w → users accts (stored w) →
  ∃ w' r, Auth.CreateUser bcrypt_generate email password role w = (w', r) ∧ quiet w' ∧
    (∀ k, k ≠ user_key email → stored w' !! k = stored w !! k) ∧
    if good_password password then
      match accts !! email with
      | Some _ => stored w' = stored w ∧ ∃ err, r = Some err ∧ IsAlreadyExists err = true
      | None => r = None ∧
          users (<[email := {| ac_password := password; ac_role := role; ac_gen := 0 |}]> accts) (stored w')
      end
    else stored w' = stored w ∧ ∃ err, r = Some err ∧ IsAlreadyExists err = false.
Proof.
  intros Hq Hu. pose proof Hu as [Hrep _]. unfold Auth.CreateUser.
  destruct (short_password password) eqn:Hs.
  { exists w. eexists. split; [done|]. split; [done|]. split; [done|]. unfold good_password. rewrite Hs. split; [done|]. by eexists. }
  rewrite good_password_split by done. pose proof (bcrypt_spec password w) as Hb.
  destruct (bcrypt_generate password w) as [err|hash] eqn:Eg.
  { exists w. eexists. split; [done|]. split; [done|]. split; [done|]. destruct (Nat.leb_spec (String.length password) 72); [lia|]. split; [done|].
    eexists. split; [done|]. unfold IsAlreadyExists, is_reason. simpl. by rewrite (bcrypt_error _ _ _ Eg). }
  destruct Hb as [Hlen Hcmp]. destruct (Nat.leb_spec (String.length password) 72); [|lia].
  specialize (Hrep email) as He. destruct (accts !! email) as [a|] eqn:Ea.
  - destruct He as (s & Hst & _).
    destruct (kcreate_exists (user_secret email hash role) w s) as (w' & e & Hq' & Hc & Hae & Hsame); [done|done|].
    rewrite Hc. eexists _, _. split; [done|]. split; [done|]. split; [by rewrite Hsame|]. split; [done|]. by eexists.
  - destruct (kcreate_quiet (user_secret email hash role) w) as (w' & rv & Hq' & Hc & Hst); [done|done|].
    rewrite Hc. eexists _, _. split; [done|]. split; [done|]. rewrite Hst. split; [intros k Hk; by rewrite lookup_insert_ne by done|]. split; [done|].
    apply users_create; [done|done|]. by apply holds_user_secret.
Qed.

Lemma password_quiet accts email password w :
  quiet w → users accts (stored w) →
  ∃ w' r, UpdatePassword bcrypt_generate email password w = (w', r) ∧ quiet w' ∧
    match (if good_password password then accts !! email else None) with
    | Some a => r = None ∧ users (<[email := with_ac_password password a]> accts) (stored w')
    | None => stored w' = stored w ∧ r ≠ None
    end.
Proof.
  intros Hq Hu. pose proof Hu as [Hrep _]. unfold UpdatePassword.
  destruct (short_password password) eqn:Hs.
  { exists w. eexists. split; [done|]. split; [done|]. unfold good_password. by rewrite Hs. }
  rewrite good_password_split by done. specialize (Hrep email) as He.
  destruct (kget_quiet (user_key email) w Hq) as (w1 & Hq1 & Hs1 & Hget).
  pose proof (bcrypt_spec password w1) as Hb.
  destruct (accts !! email) as [a|] eqn:Ea; [destruct He as (s & Hst & Hh)|];
    [rewrite Hst in Hget; rewrite Hget
    |rewrite He in Hget; destruct Hget as (e & -> & ->); eexists _, _; split; [done|]; split; [done|]; by destruct (_ <=? _)%nat].
  destruct (bcrypt_generate password w1) as [err|hash] eqn:Eg.
  { eexists _, _. split; [done|]. split; [done|]. by destruct (Nat.leb_spec (String.length password) 72); [lia|]. }
  destruct Hb as [Hlen Hcmp]. destruct (Nat.leb_spec (String.length password) 72); [|lia].
  assert (obj_key s = user_key email) as Hk by (by eapply kstore_key).
  destruct (kupdate_quiet (with_password hash s) w1 s) as (w2 & rv & Hq2 & Hup & Hs2);
    [done|by rewrite Hs1; change (obj_key (with_password hash s)) with (obj_key s); rewrite Hk|done|].
  rewrite Hup. eexists _, _. split; [done|]. split; [done|]. split; [done|]. rewrite Hs2, Hs1.
  change (obj_key (with_password hash s)) with (obj_key s). rewrite Hk.
  apply (users_update _ accts _ email a s); [done|done|done|done|]. by apply holds_with_password.
Qed.

Lemma revoke_quiet accts email w :
  quiet w → users accts (stored w) →
  ∃ w' r, RevokeUser email w = (w', r) ∧ quiet w' ∧
    match accts !! email with
    | Some _ => r = None ∧ users (delete email accts) (stored w')
    | None => r ≠ None ∧ stored w' = stored w
    end.
Proof.
  intros Hq Hu. pose proof Hu as [Hrep _]. unfold RevokeUser. specialize (Hrep email) as He.
  destruct (kdelete_quiet (user_key email) w Hq) as (w' & Hq' & Hs & Hd).
  destruct (accts !! email) as [a|] eqn:Ea.
  - destruct He as (s & Hst & _). rewrite Hst in Hd. rewrite Hd. eexists _, _. split; [done|]. split; [done|]. split; [done|].
    rewrite Hs. by apply users_delete.
  - rewrite He in Hd. destruct Hd as (e & -> & ->). eexists _, _. split; [done|]. split; [done|]. split; [done|].
    by rewrite Hs, delete_id.
Qed.

Lemma holds_role email a role s rv :
  holds bcrypt_compare email a s → holds bcrypt_compare email (with_ac_role role a) (obj_with_rv rv (with_user_role role s)).
Proof.
  intros (He & Hr & Hg & Hi & hash & Hh & Hc). unfold holds. rewrite sec_Data_with_rv. unfold with_user_role, with_data.
  cbn [sec_Data]. split; [by rewrite lookup_insert_ne|]. split; [by rewrite lookup_insert_eq|].
  split; [by rewrite lookup_insert_ne|]. split; [done|]. exists hash. by rewrite lookup_insert_ne.
Qed.

(** The attempt at a change of a role does not conflict. *)
Lemma role_quiet accts email role w d :
  quiet w → users accts (stored w) →
  ∃ w' d' r, update_user_role native (user_key email) role (w, d) = ((w', d'), r) ∧ quiet w' ∧
    match accts !! email with
    | Some a => r = None ∧
        if last_admin a accts && negb (String.eqb role RoleAdmin) then d' = true ∧ stored w' = stored w
        else d' = false ∧ users (<[email := with_ac_role role a]> accts) (stored w')
    | None => stored w' = stored w ∧ ∃ err, r = Some err ∧ IsNotFound err = true
    end.
Proof.
  intros Hq Hu. pose proof Hu as [Hrep _]. unfold update_user_role. cbn [fst ap_ListUsers native_provider].
  specialize (Hrep email) as He. destruct (kget_quiet (user_key email) w Hq) as (w1 & Hq1 & Hs1 & Hget).
  destruct (accts !! email) as [a|] eqn:Ea; [destruct He as (s & Hst & Hh)|];
    [rewrite Hst in Hget; rewrite Hget
    |rewrite He in Hget; destruct Hget as (e & -> & Hn); eexists _, _, _; split; [done|]; split; [done|]; split; [done|]; by exists e].
  assert (map_get (sec_Data s) "role" = ac_role a) as -> by (unfold map_get; by destruct Hh as (_ & -> & _)).
  assert (obj_key s = user_key email) as Hk by (by eapply kstore_key).
  assert (∀ w2, quiet w2 → stored w2 = stored w → ∃ w3, kupdate (with_user_role role s) w2 = (w3, None) ∧ quiet w3 ∧
    users (<[email := with_ac_role role a]> accts) (stored w3)) as Hw.
  { intros w2 Hq2 Hs2. destruct (kupdate_quiet (with_user_role role s) w2 s) as (w3 & rv & Hq3 & Hup & Hs3);
      [done|rewrite Hs2; change (obj_key (with_user_role role s)) with (obj_key s); by rewrite Hk|done|].
    exists w3. split; [done|]. split; [done|]. rewrite Hs3, Hs2. change (obj_key (with_user_role role s)) with (obj_key s).
    rewrite Hk. apply (users_update _ accts _ email a s); [done..|]. by apply holds_role. }
  unfold last_admin. destruct (String.eqb (ac_role a) RoleAdmin && negb (String.eqb role RoleAdmin)) eqn:Eg.
  - apply andb_true_iff in Eg as [-> ->].
    destruct (ListUsers_quiet bcrypt_compare accts w1) as (w2 & l & Hq2 & Hs2 & Hl & Hls); [done|by rewrite Hs1|].
    rewrite Hl, (admin_count_lists l accts Hls). simpl andb. destruct (admins accts <=? 1)%nat.
    + eexists _, _, _. split; [done|]. split; [done|]. simpl. split; [done|]. split; [done|congruence].
    + destruct (Hw w2 Hq2 ltac:(congruence)) as (w3 & -> & Hq3 & Hu3). eexists _, _, _. by split.
  - destruct (Hw w1 Hq1 Hs1) as (w3 & -> & Hq3 & Hu3). eexists _, _, _. split; [done|]. split; [done|]. split; [done|].
    replace (_ && _ && _) with false; [done|]. destruct (String.eqb (ac_role a) RoleAdmin), (String.eqb role RoleAdmin); simpl in *;
      by rewrite ?andb_false_r.
Qed.

Lemma change_role_quiet accts email role w :
  quiet w → users accts (stored w) →
  ∃ w' d r, change_user_role native (user_key email) role w = (w', (r, d)) ∧ quiet w' ∧
    match accts !! email with
    | Some a => r = None ∧
        if last_admin a accts && negb (String.eqb role RoleAdmin) then d = true ∧ stored w' = stored w
        else d = false ∧ users (<[email := with_ac_role role a]> accts) (stored w')
    | None => stored w' = stored w ∧ ∃ err, r = Some err ∧ IsNotFound err = true
    end.
Proof.
  intros Hq Hu. destruct (role_quiet accts email role w false Hq Hu) as (w' & d & r & He & Hq' & Hm).
  exists w', d, r. split; [|done]. unfold change_user_role. rewrite retry_on_conflict_spec.
  rewrite (retry_loop_once _ _ _ _ _ He); [done|]. intros err ->. destruct (accts !! email); [by destruct Hm|].
  destruct Hm as (_ & e & [= <-] & Hn). unfold IsNotFound, IsConflict, is_reason in *. case_bool_decide; [|done].
  apply bool_decide_eq_false. congruence.
Qed.

(** *** The handlers *)

(** The parts of the handlers after the authorization. *)
Local Ltac refused w := by apply (answers_same _ w).

Lemma create_answers email password role r body accts w :
  rq_body r = inr body →
  body_of decode_create_user {| cu_Email := ""; cu_Password := ""; cu_Role := "" |} body =
    Some {| cu_Email := email; cu_Password := password; cu_Role := role |} →
  (∀ w, authorize (B := user_body) r user_resource ActionCreate w = (w, inr tt)) →
  quiet w → users accts (stored w) →
  answers (CreateUser bcrypt_generate json_error native r w) (admin_spec (AddUser email password role) accts).
Proof.
  intros Hb Hd Hau Hq Hu. unfold CreateUser. rewrite (bind_run _ _ _ _ _ (Hau w)).
  rewrite (bind_run _ _ _ _ _ (decode_body_run r body _ _ w Hb Hd)). cbn [admin_spec cu_Email cu_Password cu_Role].
  destruct (String.eqb email "" || String.eqb password ""); [refused w|].
  destruct (validPlatformRole role); [|refused w]. cbn [orb negb require ap_native native_provider].
  destruct (create_quiet accts email password role w Hq Hu) as (w1 & err & Hc & Hq1 & _ & Hm).
  unfold mbind, H_bind, call. simpl. rewrite Hc. destruct (good_password password); simpl.
  - destruct (accts !! email); [destruct Hm as (Hs & err' & -> & ->); refused w|]. destruct Hm as [-> Hu1].
    split; [done|]. split; [done|]. by eexists.
  - destruct Hm as (Hs & err' & -> & ->). refused w.
Qed.

Lemma role_answers email role r body accts w :
  URLParam r "email" = email → rq_body r = inr body → body_of decode_user_role "" body = Some role →
  (∀ w, authorize (B := user_body) r user_resource ActionUpdate w = (w, inr tt)) →
  quiet w → users accts (stored w) →
  answers (UpdateUserRole details json_error native r w) (admin_spec (SetRole email role) accts).
Proof.
  intros He Hb Hd Hau Hq Hu. unfold UpdateUserRole. rewrite (bind_run _ _ _ _ _ (Hau w)). rewrite He. cbn [admin_spec].
  destruct (String.eqb email ""); [refused w|]. cbn [orb negb require]. unfold mbind at 1, H_bind at 1. cbn [mret H_ret].
  rewrite (bind_run _ _ _ _ _ (decode_body_run r body _ _ w Hb Hd)).
  destruct (validPlatformRole role); [|refused w]. cbn [negb].
  destruct (change_role_quiet accts email role w Hq Hu) as (w1 & d & err & Hc & Hq1 & Hm).
  unfold mbind, H_bind, call. simpl. rewrite Hc. destruct (accts !! email) as [a|].
  - destruct Hm as [-> Hm]. simpl. destruct (last_admin a accts && negb (String.eqb role RoleAdmin)); destruct Hm as [-> Hm]; simpl.
    + refused w.
    + split; [done|]. split; [done|]. by eexists.
  - destruct Hm as (Hs & err' & -> & Hn). simpl. apply (answers_same _ w); try done. unfold error_reply. simpl. by rewrite Hn.
Qed.

Lemma delete_answers email r accts w :
  URLParam r "email" = email →
  (∀ w, authorize (B := user_body) r user_resource ActionDelete w = (w, inr tt)) →
  quiet w → users accts (stored w) →
  answers (DeleteUser native r w) (admin_spec (DropUser email) accts).
Proof.
  intros He Hau Hq Hu. unfold DeleteUser. rewrite (bind_run _ _ _ _ _ (Hau w)). rewrite He. cbn [admin_spec].
  destruct (String.eqb email ""); [refused w|]. cbn [negb require].
  destruct (ListUsers_quiet bcrypt_compare accts w Hq Hu) as (w1 & l & Hq1 & Hs1 & Hl & Hls).
  unfold mbind, H_bind, or_text, mbind, H_bind, call. cbn [mret H_ret ap_ListUsers native_provider ap_RevokeUser]. rewrite Hl.
  cbn [mret H_ret].
  rewrite (target_lists l accts email Hls), (admin_count_lists l accts Hls). rewrite <-Hs1 in Hu.
  destruct (revoke_quiet accts email w1 Hq1 Hu) as (w2 & err & Hr & Hq2 & Hm).
  destruct (accts !! email) as [a|] eqn:Ea; unfold last_admin; simpl.
  - destruct (String.eqb (ac_role a) RoleAdmin && (admins accts <=? 1)%nat); simpl; [refused w1|]. rewrite Hr.
    destruct Hm as [-> Hu2]. split; [done|]. split; [done|]. by eexists.
  - rewrite Hr. destruct Hm as [Hr' Hs2]. destruct err; [|done]. refused w1.
Qed.

Lemma password_answers email password r body accts w :
  URLParam r "email" = email → rq_body r = inr body → body_of decode_password "" body = Some password →
  (∀ w, authorize (B := user_body) r user_resource ActionUpdate w = (w, inr tt)) →
  quiet w → users accts (stored w) →
  answers (ResetUserPassword bcrypt_generate json_error native r w) (admin_spec (ResetPassword email password) accts).
Proof.
  intros He Hb Hd Hau Hq Hu. unfold ResetUserPassword. rewrite (bind_run _ _ _ _ _ (Hau w)). rewrite He. cbn [admin_spec].
  destruct (String.eqb email ""); [refused w|]. cbn [orb negb require ap_native native_provider].
  unfold mbind at 1 2, H_bind at 1 2. cbn [mret H_ret].
  rewrite (bind_run _ _ _ _ _ (decode_body_run r body _ _ w Hb Hd)).
  destruct (String.eqb password ""); [refused w|]. cbn [orb negb].
  destruct (password_quiet accts email password w Hq Hu) as (w1 & err & Hc & Hq1 & Hm).
  unfold mbind, H_bind, call. simpl. rewrite Hc. destruct (good_password password); simpl.
  - destruct (accts !! email) as [a|].
    + destruct Hm as [-> Hu1]. split; [done|]. split; [done|]. by eexists.
    + destruct Hm as [Hs Hr]. destruct err; [|done]. refused w.
  - destruct Hm as [Hs Hr]. destruct err; [|done]. refused w.
Qed.

(** C16: without other writers, the handlers that create, change and remove users implement
    for an admin the abstract accounts with the answers of [admin_spec], and when there was
    an admin there is one after.  The guard of the last admin holds only in the absence of
    other writers: see [UserRuns.both_admins_leave]. *)
Theorem users_refine op r p accts w :
  rq_principal r = Some p → Principal_Role p = RoleAdmin → requests op r →
  quiet w → users accts (stored w) →
  answers (handle op r w) (admin_spec op accts) ∧
  ((0 < admins accts)%nat → (0 < admins (admin_spec op accts).2)%nat).
Proof.
  intros Hp Hadm Hop Hq Hu. split; [|apply admin_spec_keeps].
  pose proof (λ act w, authorize_admin (B := user_body) r p user_resource act w Hp Hadm) as Hau.
  destruct op as [email password role|email role|email|email password]; simpl in Hop; cbn [handle].
  - destruct Hop as (body & Hb & Hd). by apply (create_answers _ _ _ r body).
  - destruct Hop as (He & body & Hb & Hd). by apply (role_answers _ _ r body).
  - by apply delete_answers.
  - destruct Hop as (He & body & Hb & Hd). by apply (password_answers _ _ r body).
Qed.

(** Nobody but an admin touches users: the handlers answer 401 or 403 before anything
    else is read or written. *)
Theorem users_admin_only r w op :
  (∀ p, rq_principal r = Some p → Principal_Role p ≠ RoleAdmin) →
  ∃ code msg, handle op r w = (w, inl (Reply code (inl msg))) ∧
    (code = StatusUnauthorized ∨ code = StatusForbidden) ∧ ListUsers native r w = (w, inl (Reply code (inl msg))).
Proof.
  intros Hr.
  assert (∃ code msg, (code = StatusUnauthorized ∨ code = StatusForbidden) ∧
    ∀ act, authorize (B := user_body) r user_resource act w = (w, inl (Reply code (inl msg)))) as (code & msg & Hc & Hau).
  { unfold authorize. destruct (rq_principal r) as [p|]; [|by eexists _, _; split; [by left|]].
    specialize (Hr p eq_refl). apply String.eqb_neq in Hr. eexists _, _. split; [by right|]. intros act.
    unfold mbind, H_bind, call, Authorize. rewrite Hr. by destruct (String.eqb _ RoleViewer); simpl; rewrite ?andb_false_r. }
  exists code, msg. split; [|split; [done|]].
  - destruct op; cbn [handle]; unfold CreateUser, UpdateUserRole, DeleteUser, ResetUserPassword;
      by apply bind_answers.
  - by apply bind_answers.
Qed.
End refinement.

(** ** Setup, logins and sessions *)

Definition jwt_key : NamespacedName := (namespace, jwtSecretName).

(** The signing key is not there yet or is not empty. *)
Definition key_ready (m : gmap NamespacedName Secret) : Prop :=
  match m !! jwt_key with
  | Some s => ∃ key, sec_Data s !! jwtSecretKey = Some key ∧ (0 < String.length key)%nat
  | None => True
  end.

Lemma user_key_not_jwt email : user_key email ≠ jwt_key.
Proof. unfold user_key, jwt_key, userSecretName. intros [= H]. Qed.

Section sessions.
Context {W : Type} {C : KubeClient W Secret} {OK : KubeClientOk W Secret} {D : KubeDelete W Secret}
  {DO : KubeDeleteOk W Secret} {L : KubeListIn W Secret} {LO : KubeListOk W Secret}
  {CC : KubeClient W ConfigMap} {OKC : KubeClientOk W ConfigMap} {DC : KubeDelete W ConfigMap} {DOC : KubeDeleteOk W ConfigMap}
  {PL : Part W loginLimiter} {PLO : PartOk W loginLimiter} {PT : Part W sseTokenStore} {PTO : PartOk W sseTokenStore}.
(** Secrets, ConfigMaps, the limiter and the event-stream tokens are apart. *)
Context {SA : KubeApart W ConfigMap Secret} {AS : KubeApart W Secret ConfigMap}
  (delete_apart : ∀ k w, unaffected Secret w (kdelete ConfigMap k w).1)
  (limiter_apart : ∀ (l : loginLimiter) w, unaffected Secret w (set_part l w))
  (tokens_apart : ∀ (t : sseTokenStore) w, unaffected Secret w (set_part t w))
  {LW : KubeWithin W Secret (λ w w', part (V := loginLimiter) w' = part w)}.
Context (uncached live : option (NamespacedName → W → W * (error + Secret))) (now : W → Time).
Context (bcrypt_generate : string → W → error + string) (bcrypt_compare : string → string → bool).
Context {BO : BcryptOk bcrypt_generate bcrypt_compare}.
Context (bcrypt_error : ∀ p w err, bcrypt_generate p w = inl err → reason_of err = None).
Context (jwt_sign : string → Claims → error + string)
  (jwt_parse : Z → string → string → W → error + (Claims * bool)) (rand_key : W → error + string) (fuel : nat).
(** There is randomness for a key, and signing with it works. *)
Context (rand_ok : ∀ w, ∃ key, rand_key w = inr key ∧ (0 < String.length key)%nat)
  (sign_ok : ∀ key claims, ∃ token, jwt_sign key claims = inr token).
Context (machine : float64 → Z).
Local Abbreviation stored w := (kstore (Obj := Secret) w).
Local Abbreviation quiet w := (kquiet (Obj := Secret) w).
Local Abbreviation configs w := (kstore (Obj := ConfigMap) w).
Local Abbreviation cquiet w := (kquiet (Obj := ConfigMap) w).
Local Abbreviation users := (users bcrypt_compare).
Local Abbreviation native := (native_provider uncached bcrypt_compare jwt_parse rand_key (S fuel)).

Lemma users_jwt accts m s :
  m !! jwt_key = None → selected namespace {[userLabelKey := "true"]} s = false → users accts m →
  users accts (<[jwt_key := s]> m).
Proof.
  intros Hn Hs [Hrep Hlab]. split.
  - intros email. specialize (Hrep email). by rewrite lookup_insert_ne by (by intros ?%eq_sym%user_key_not_jwt).
  - intros k s'. destruct (decide (k = jwt_key)) as [->|Hne].
    + rewrite lookup_insert_eq. intros [= <-]. rewrite Hs. split; [done|]. by intros (e & _ & ?%eq_sym%user_key_not_jwt).
    + rewrite lookup_insert_ne by done. apply Hlab.
Qed.

(** Secrets stay as they are, but for the signing key. *)
Definition only_key (w w' : W) : Prop :=
  quiet w' ∧ key_ready (stored w') ∧ (∀ accts, users accts (stored w) → users accts (stored w')) ∧
  unaffected ConfigMap w w' ∧ part (V := loginLimiter) w' = part w.

(** The key in the store, which is the one of before, if there was one. *)
Definition signed_by (w w' : W) (key : string) : Prop :=
  (∃ s, stored w' !! jwt_key = Some s ∧ sec_Data s !! jwtSecretKey = Some key) ∧
  ∀ s, stored w !! jwt_key = Some s → sec_Data s !! jwtSecretKey = Some key.

Lemma signingKey_quiet w :
  quiet w → key_ready (stored w) →
  ∃ w' key, signingKey rand_key (S fuel) w = Some (w', inr key) ∧ only_key w w' ∧ signed_by w w' key.
Proof.
  intros Hq Hk. cbn [signingKey]. unfold key_ready in Hk. change (namespace, jwtSecretName) with jwt_key.
  pose proof (kget_within (I := unaffected ConfigMap) jwt_key w) as Hc.
  pose proof (kget_within (I := λ w w', part (V := loginLimiter) w' = part w) jwt_key w) as Hp.
  destruct (kget_quiet jwt_key w Hq) as (w1 & Hq1 & Hs1 & Hg).
  destruct (stored w !! jwt_key) as [s|] eqn:Es.
  - destruct Hk as (key & Hkey & Hlen). rewrite Hg in Hc, Hp. rewrite Hg, Hkey. apply Nat.ltb_lt in Hlen as Hlt. rewrite Hlt.
    exists w1, key. split; [done|]. split; [|split; [exists s; by rewrite Hs1|rewrite Es; by intros s' [= <-]]].
    split; [done|]. split; [|split; [by rewrite Hs1|by split]].
    unfold key_ready. rewrite Hs1, Es. by exists key.
  - destruct Hg as (e & Hg & Hn). rewrite Hg in Hc, Hp. rewrite Hg, Hn. simpl negb. cbv iota.
    destruct (rand_ok w1) as (key & Hr & Hlen). rewrite Hr.
    destruct (kcreate_quiet (jwt_secret key) w1 Hq1) as (w2 & rv & Hq2 & Hcr & Hs2); [by rewrite Hs1|].
    pose proof (kcreate_within (I := unaffected ConfigMap) (jwt_secret key) w1) as Hc2.
    pose proof (kcreate_within (I := λ w w', part (V := loginLimiter) w' = part w) (jwt_secret key) w1) as Hp2.
    rewrite Hcr in Hc2, Hp2. rewrite Hcr. exists w2, key. split; [done|]. split; [split; [done|split; [|split]]|].
    4:{ split; [|by rewrite Es]. exists (obj_with_rv rv (jwt_secret key)). rewrite Hs2, lookup_insert_eq. split; [done|].
        unfold jwt_secret. simpl. by rewrite lookup_singleton_eq. }
    + unfold key_ready. rewrite Hs2, lookup_insert_eq. by exists key.
    + intros accts Hu. rewrite Hs2, Hs1. by apply users_jwt.
    + simpl in *. split; [by etrans|congruence].
Qed.

Lemma token_quiet p w :
  quiet w → key_ready (stored w) →
  ∃ w' token, GenerateToken now jwt_sign rand_key (S fuel) p w = Some (w', inr token) ∧ only_key w w'.
Proof.
  intros Hq Hk. unfold GenerateToken. destruct (signingKey_quiet w Hq Hk) as (w1 & key & -> & Ho & _).
  cbn [mbind option_bind]. match goal with |- context [jwt_sign key ?c] => destruct (sign_ok key c) as [token ->] end.
  by exists w1, token.
Qed.

(** The answer with the session. *)
Lemma issue_quiet code m w w1 p :
  m w = (w1, inr p) → quiet w1 → key_ready (stored w1) →
  ∃ w' token, issue_session now jwt_sign rand_key (S fuel) code m w = Some (w', Reply code (inr (SessionBody token p))) ∧
    only_key w1 w'.
Proof.
  intros Hm Hq Hk. unfold issue_session. rewrite Hm. destruct (token_quiet p w1 Hq Hk) as (w' & token & -> & Ho).
  by exists w', token.
Qed.
(** *** The first admin *)

Definition asks (creds : Credentials) (r : request) : Prop :=
  ∃ body, rq_body r = inr body ∧ body_of decode_credentials no_credentials body = Some creds.

Definition first_admin (email password : string) : account :=
  {| ac_password := password; ac_role := RoleAdmin; ac_gen := 0 |}.

(** What a setup request does, [claimed] being whether the sentinel is there. *)
Definition setup_spec (creds : Credentials) (claimed : bool) (accts : accounts) : Z * bool * accounts :=
  let email := Credentials_Email creds in let password := Credentials_Password creds in
  if String.eqb email "" || String.eqb password "" || short_password password then (StatusBadRequest, claimed, accts)
  else if claimed then (StatusConflict, true, accts)
  else if negb (good_password password) then (StatusInternalServerError, false, accts)
  else match accts !! email with
       | Some _ => (StatusConflict, false, accts)
       | None => (StatusCreated, true, <[email := first_admin email password]> accts)
       end.

Definition claimed (w : W) : bool := bool_decide (is_Some (configs w !! obj_key sentinel)).

Lemma create_user_apart email password role w :
  unaffected ConfigMap w (Auth.CreateUser bcrypt_generate email password role w).1.
Proof.
  unfold Auth.CreateUser. destruct (short_password password); [done|]. destruct (bcrypt_generate password w) as [|hash]; [done|].
  pose proof (kcreate_within (I := unaffected ConfigMap) (user_secret email hash role) w) as H.
  by destruct (kcreate _ w) as [w1 [err|]].
Qed.

(** What a failed setup leaves. *)
Definition unchanged (accts : accounts) (w w' : W) : Prop :=
  quiet w' ∧ cquiet w' ∧ users accts (stored w') ∧ (key_ready (stored w) → key_ready (stored w')).

(** The claim is given back. *)
Lemma unclaim_quiet accts w w2 :
  quiet w2 → cquiet w2 → users accts (stored w2) → stored w2 = stored w →
  ∃ w3 r, kdelete ConfigMap (obj_key sentinel) w2 = (w3, r) ∧ unchanged accts w w3 ∧ claimed w3 = false.
Proof.
  intros Hq2 Hcq2 Hu Hs2. destruct (delete_apart (obj_key sentinel) w2) as [Hds Hdq].
  destruct (kdelete_quiet (Obj := ConfigMap) (obj_key sentinel) w2 Hcq2) as (w3 & Hcq3 & Hs3 & Hd).
  destruct (kdelete ConfigMap (obj_key sentinel) w2) as [w4 r] eqn:Ed.
  assert (w4 = w3) as ->. { destruct (configs w2 !! obj_key sentinel); [congruence|]. destruct Hd as (e & Hd & _). congruence. }
  simpl in Hds, Hdq. exists w3, r. split; [done|]. split.
  - split; [by apply Hdq|]. split; [done|]. rewrite Hds. split; [done|by rewrite Hs2].
  - unfold claimed. rewrite Hs3, lookup_delete_eq. by apply bool_decide_false; intros [].
Qed.

(** The claim and the account. *)
Lemma setup_admin_quiet creds accts w :
  quiet w → cquiet w → users accts (stored w) →
  String.eqb (Credentials_Email creds) "" || String.eqb (Credentials_Password creds) "" ||
    short_password (Credentials_Password creds) = false →
  let '(code, c, accts') := setup_spec creds (claimed w) accts in
  ∃ w', unchanged accts' w w' ∧ claimed w' = c ∧
    if Z.eqb code StatusCreated
    then setup_admin bcrypt_generate creds w = (w', inr (account_principal (Credentials_Email creds)
           (first_admin (Credentials_Email creds) (Credentials_Password creds))))
    else ∃ msg, setup_admin bcrypt_generate creds w = (w', inl (Reply code (inl msg))).
Proof.
  intros Hq Hcq Hu Hvalid. unfold setup_spec. rewrite Hvalid. unfold setup_admin, mbind, H_bind, call.
  unfold claimed at 1. pose proof (kcreate_within (I := unaffected Secret) sentinel w) as [Hss Hsq].
  destruct (configs w !! obj_key sentinel) as [cur|] eqn:Ek.
  - rewrite bool_decide_true by done.
    destruct (kcreate_exists sentinel w cur Hcq Ek) as (w1 & e & Hcq1 & Hc & He & Hs). rewrite Hc in Hss, Hsq |- *.
    simpl in Hss, Hsq. exists w1. rewrite He. split; [|split].
    + split; [by apply Hsq|]. split; [done|]. by rewrite Hss.
    + unfold claimed. rewrite Hs, Ek. by apply bool_decide_true.
    + by eexists.
  - rewrite bool_decide_false by (by intros []).
    destruct (kcreate_quiet sentinel w Hcq Ek) as (w1 & rv & Hcq1 & Hc & Hs). rewrite Hc in Hss, Hsq |- *.
    simpl in Hss, Hsq. specialize (Hsq Hq). cbn [mret H_ret]. rewrite <-Hss in Hu.
    destruct (create_quiet bcrypt_generate bcrypt_compare bcrypt_error accts (Credentials_Email creds)
      (Credentials_Password creds) RoleAdmin w1 Hsq Hu) as (w2 & err & Hcu & Hq2 & Hoth & Hm).
    pose proof (create_user_apart (Credentials_Email creds) (Credentials_Password creds) RoleAdmin w1) as [Hcs2 Hcq2].
    rewrite Hcu in Hcs2, Hcq2 |- *. simpl in Hcs2, Hcq2. specialize (Hcq2 Hcq1).
    assert (stored w2 = stored w1 → ∃ w3 r, kdelete ConfigMap (obj_key sentinel) w2 = (w3, r) ∧ unchanged accts w w3 ∧
      claimed w3 = false) as Hback.
    { intros Hs2. apply unclaim_quiet; [done|done|by rewrite Hs2|congruence]. }
    destruct (good_password (Credentials_Password creds)); [destruct (accts !! Credentials_Email creds) as [a|] eqn:Ea|].
    2: { destruct Hm as [-> Hu2]. exists w2. split; [split; [done|split; [done|split; [done|]]]|split; [|done]].
      - unfold key_ready. rewrite Hoth by (by intros ?%eq_sym%user_key_not_jwt). by rewrite Hss.
      - unfold claimed. rewrite Hcs2, Hs, lookup_insert_eq. by apply bool_decide_true. }
    all: destruct Hm as (Hs2 & e & -> & He); destruct (Hback Hs2) as (w3 & r & Hd & Hun & Hcl); rewrite Hd, He; exists w3;
      split; [done|]; split; [done|]; by eexists.
Qed.

(** The first admin is set up once.  A valid request is answered 201 and makes the
    admin exactly when the setup has not been claimed, the password is usable and there is
    no such account; then the claim stays and every later request is answered 409.  A
    request that fails otherwise leaves the accounts and gives the claim back. *)
Theorem setup_once creds r accts w :
  asks creds r → quiet w → cquiet w → users accts (stored w) → key_ready (stored w) →
  let '(code, c, accts') := setup_spec creds (claimed w) accts in
  ∃ w' rep, Setup now bcrypt_generate jwt_sign rand_key (S fuel) native r w = Some (w', rep) ∧ rp_code rep = code ∧
    quiet w' ∧ cquiet w' ∧ users accts' (stored w') ∧ claimed w' = c ∧
    (code = StatusCreated → ∃ token, rp_body rep = inr (SessionBody token
       (account_principal (Credentials_Email creds) (first_admin (Credentials_Email creds) (Credentials_Password creds))))) ∧
    (claimed w = true → code = StatusConflict ∨ code = StatusBadRequest).
Proof.
  intros (body & Hb & Hd) Hq Hcq Hu Hk. unfold Setup.
  set (m := decode_plain r _ ≫= _).
  assert (m w = (require (negb (String.eqb (Credentials_Email creds) "" || String.eqb (Credentials_Password creds) ""))
    StatusBadRequest "email and password required" ≫= λ _, require (negb (short_password (Credentials_Password creds)))
    StatusBadRequest "password must be at least 8 characters" ≫= λ _, setup_admin bcrypt_generate creds) w) as Em.
  { unfold m, mbind at 1, H_bind at 1, decode_plain. by rewrite Hb, Hd. }
  destruct (String.eqb (Credentials_Email creds) "" || String.eqb (Credentials_Password creds) "") eqn:E1.
  { unfold setup_spec. rewrite E1. simpl. unfold issue_session. rewrite Em. eexists _, _. split; [done|]. split_and!; try done.
    intros _. by right. }
  destruct (short_password (Credentials_Password creds)) eqn:E2.
  { unfold setup_spec. rewrite E1, E2. simpl. unfold issue_session. rewrite Em. eexists _, _. split; [done|]. split_and!; try done.
    intros _. by right. }
  assert (m w = setup_admin bcrypt_generate creds w) as Em' by (rewrite Em; done). clear Em.
  pose proof (setup_admin_quiet creds accts w Hq Hcq Hu ltac:(by rewrite E1, E2)) as Hset.
  assert (claimed w = true → (setup_spec creds (claimed w) accts).1.1 = StatusConflict) as Hcl.
  { intros ->. unfold setup_spec. by rewrite E1, E2. }
  destruct (setup_spec creds (claimed w) accts) as [[code c] accts'].
  destruct Hset as (w1 & (Hq1 & Hcq1 & Hu1 & Hk1) & Hc1 & Hrun). destruct (Z.eqb_spec code StatusCreated) as [->|Hne].
  - rewrite <-Em' in Hrun. destruct (issue_quiet StatusCreated m w w1 _ Hrun Hq1 (Hk1 Hk))
      as (w' & token & He & Hq' & _ & Hu' & [Hcs Hcq'] & _). exists w'. eexists. split; [exact He|].
    split_and!; try done; [by apply Hcq'|by apply Hu'|unfold claimed in *; by rewrite Hcs|by eexists|].
    intros H. by specialize (Hcl H).
  - destruct Hrun as [msg Hrun]. exists w1. eexists. unfold issue_session. rewrite Em', Hrun. split; [done|].
    split_and!; try done. intros H. left. by apply Hcl.
Qed.
(** *** Logging in *)

Lemma limiter_run {A} (f : loginLimiter → loginLimiter * A) w l a :
  f (part w) = (l, a) → over f w = (set_part l w, a).
Proof. unfold over. by intros ->. Qed.

Lemma set_limiter_quiet (l : loginLimiter) w :
  quiet w → quiet (set_part l w) ∧ stored (set_part l w) = stored w ∧ part (set_part l w) = l.
Proof. intros Hq. destruct (limiter_apart l w) as [Hs Hq']. split; [by apply Hq'|]. split; [done|apply part_set]. Qed.

Lemma Authenticate_limiter creds w :
  (∀ read k w, uncached = Some read → read k w = kget k w) →
  part (V := loginLimiter) (Authenticate uncached bcrypt_compare creds w).1 = part w.
Proof.
  intros Hun. unfold Authenticate.
  pose proof (kget_within (I := λ w w', part (V := loginLimiter) w' = part w) (user_key (Credentials_Email creds)) w) as H1.
  destruct (kget _ w) as [w1 [err|s]]; [|done]. destruct uncached as [read|] eqn:Eu; [|done].
  destruct (IsNotFound err); [|done]. rewrite (Hun read) by done.
  pose proof (kget_within (I := λ w w', part (V := loginLimiter) w' = part w) (user_key (Credentials_Email creds)) w1) as H2.
  destruct (kget _ w1) as [w2 r2]. simpl in *. congruence.
Qed.

(** The account the credentials open, if any. *)
Definition opens (creds : Credentials) (accts : accounts) : option Principal :=
  match accts !! Credentials_Email creds with
  | Some a => if String.eqb (Credentials_Password creds) (ac_password a)
              then Some (account_principal (Credentials_Email creds) a) else None
  | None => None
  end.

Lemma issue_session_ext code (m m' : H W user_body Principal) w :
  m w = m' w → issue_session now jwt_sign rand_key (S fuel) code m w = issue_session now jwt_sign rand_key (S fuel) code m' w.
Proof. unfold issue_session. by intros ->. Qed.

Lemma login_decoded creds addr r w :
  asks creds r →
  Login now jwt_sign rand_key (S fuel) machine native addr r w =
  issue_session now jwt_sign rand_key (S fuel) StatusOK (check_login now machine native addr creds) w.
Proof.
  intros (body & Hb & Hd). apply issue_session_ext. unfold mbind, H_bind, decode_plain. by rewrite Hb, Hd.
Qed.

Lemma check_login_quiet creds addr accts w :
  quiet w → users accts (stored w) → uncached_ok uncached → (String.length (Credentials_Password creds) ≤ 72)%nat →
  let key := loginRateKey (Credentials_Email creds) addr in
  let '(l, (ok, retry)) := allow machine (now w) key (part w) in
  if ok then
    ∃ w', quiet w' ∧ stored w' = stored w ∧
    match opens creds accts with
    | Some p => check_login now machine native addr creds w = (w', inr p) ∧ part w' = recordSuccess key l
    | None => check_login now machine native addr creds w = (w', inl (Reply StatusUnauthorized (inl "invalid credentials"))) ∧
                ∃ t, part w' = recordFailure t key l
    end
  else check_login now machine native addr creds w =
         (set_part l w, inl (Reply StatusTooManyRequests (inr (TooManyBody "too many login attempts; try again later" (retry_after machine retry))))).
Proof.
  intros Hq Hu Hun Hlen key. destruct (allow machine (now w) key (part w)) as [l [ok retry]] eqn:Ea.
  assert (over (allow machine (now w) key) w = (set_part l w, (ok, retry))) as Hov by (by apply limiter_run).
  unfold check_login, mbind, H_bind, call. fold key. rewrite Hov. destruct ok; [|done].
  destruct (set_limiter_quiet l w Hq) as (Hq1 & Hs1 & Hp1). rewrite <-Hs1 in Hu. destruct Hu as [Hrep Hlab].
  pose proof (Authenticate_limiter creds (set_part l w) Hun) as Hl. rewrite Hp1 in Hl.
  destruct (Authenticate_quiet uncached bcrypt_compare accts (Credentials_Email creds) (Credentials_Password creds) (set_part l w)
    Hun Hq1 Hrep Hlen) as (w2 & Hq2 & Hs2 & Hau).
  replace {| Credentials_Email := _; Credentials_Password := _ |} with creds in Hau by (by destruct creds).
  rewrite Hau in Hl. simpl in Hl. cbn [mret H_ret ap_Authenticate native_provider]. rewrite Hau. unfold opens.
  assert (∀ l' : loginLimiter, quiet (set_part l' w2) ∧ stored (set_part l' w2) = stored w ∧ part (set_part l' w2) = l') as Hset.
  { intros l'. destruct (set_limiter_quiet l' w2 Hq2) as (H1 & H2 & H3). split_and!; [done|congruence|done]. }
  destruct (accts !! Credentials_Email creds) as [a|]; [destruct (String.eqb _ _)|].
  - unfold over. rewrite Hl. exists (set_part (recordSuccess key l) w2). destruct (Hset (recordSuccess key l)) as (? & ? & ?). done.
  - unfold over. rewrite Hl. exists (set_part (recordFailure (now w2) key l) w2).
    destruct (Hset (recordFailure (now w2) key l)) as (? & ? & ?). split_and!; try done. by eexists.
  - unfold over. rewrite Hl. exists (set_part (recordFailure (now w2) key l) w2).
    destruct (Hset (recordFailure (now w2) key l)) as (? & ? & ?). split_and!; try done. by eexists.
Qed.

(** C23: a login is throttled, then decided by the account.  A request the limiter refuses is
    answered 429 and reads nothing else; otherwise the answer is a session of the account
    with its current role, and the key is cleared, exactly when the password is that of the
    account, and else it is the same for a wrong password and an unknown user, and the
    failure is counted. *)
Theorem login_spec creds addr r accts w :
  asks creds r → quiet w → users accts (stored w) → key_ready (stored w) →
  uncached_ok uncached → (String.length (Credentials_Password creds) ≤ 72)%nat →
  let key := loginRateKey (Credentials_Email creds) addr in
  let '(l, (ok, retry)) := allow machine (now w) key (part w) in
  if ok then
    match opens creds accts with
    | Some p => ∃ w' token, Login now jwt_sign rand_key (S fuel) machine native addr r w =
                  Some (w', Reply StatusOK (inr (SessionBody token p))) ∧ part w' = recordSuccess key l
    | None => ∃ w' t, Login now jwt_sign rand_key (S fuel) machine native addr r w =
                  Some (w', Reply StatusUnauthorized (inl "invalid credentials")) ∧ part w' = recordFailure t key l
    end
  else Login now jwt_sign rand_key (S fuel) machine native addr r w =
         Some (set_part l w, Reply StatusTooManyRequests (inr (TooManyBody "too many login attempts; try again later" (retry_after machine retry)))).
Proof.
  intros Hask Hq Hu Hk Hun Hlen key. rewrite (login_decoded creds addr r w Hask).
  pose proof (check_login_quiet creds addr accts w Hq Hu Hun Hlen) as Hc. cbv zeta in Hc. fold key in Hc.
  destruct (allow machine (now w) key (part w)) as [l [ok retry]]. destruct ok; [|unfold issue_session; by rewrite Hc].
  destruct Hc as (w1 & Hq1 & Hs1 & Hc). rewrite <-Hs1 in Hk. destruct (opens creds accts) as [p|].
  - destruct Hc as [Hc Hp]. destruct (issue_quiet StatusOK _ w w1 p Hc Hq1 Hk) as (w' & token & He & _ & _ & _ & _ & Hp').
    exists w', token. split; [done|congruence].
  - destruct Hc as [Hc [t Hp]]. exists w1, t. split; [unfold issue_session; by rewrite Hc|done].
Qed.

(** *** Sessions that are older than the password *)

(** What a session of [email] from the generation [gen] opens now. *)
Definition session_of (accts : accounts) (email : string) (gen : Z) : option Principal :=
  match accts !! email with
  | Some a => if (gen <? ac_gen a)%Z then None else Some (account_principal email a)
  | None => None
  end.

Lemma revalidate_quiet accts email gen w :
  uncached_ok live → quiet w → users accts (stored w) →
  ∃ w', quiet w' ∧ stored w' = stored w ∧
    match session_of accts email gen with
    | Some p => revalidatePrincipal live native email gen w = (w', inr p)
    | None => ∃ err, revalidatePrincipal live native email gen w = (w', inl err) ∧
        (err = ErrPasswordChangeInvalidated ∨ err = ErrUserNotFound)
    end.
Proof.
  intros Hlive Hq [Hrep _]. destruct (CurrentPrincipal_quiet bcrypt_compare accts email gen w Hq Hrep) as (w' & Hq' & Hs' & Hc).
  exists w'. split; [done|]. split; [done|].
  assert (revalidatePrincipal live native email gen w = CurrentPrincipal email gen w) as ->.
  { unfold revalidatePrincipal. cbn [ap_native native_provider ap_CurrentPrincipal]. destruct live as [read|] eqn:El; [|done].
    unfold CurrentPrincipalLive, CurrentPrincipal, current_principal. by rewrite (Hlive read). }
  rewrite Hc. unfold session_of. destruct (accts !! email) as [a|]; [|by eexists; split; [|right]].
  destruct (gen <? ac_gen a)%Z; [by eexists; split; [|left]|done].
Qed.
(** The principal a token stands for: it has to verify with the key, and the account has to
    be there with the password of the token. *)
Definition principal_of (leeway : Z) (key token : string) (accts : accounts) (w : W) : option Principal :=
  match jwt_parse leeway key token w with
  | inr (claims, true) => session_of accts (cl_email claims) (cl_pwd_gen claims)
  | _ => None
  end.

(** A token is verified with the signing key that is stored, at a time when the accounts are
    the same. *)
Definition verified_at (accts : accounts) (w w1 : W) (key : string) : Prop :=
  quiet w1 ∧ key_ready (stored w1) ∧ users accts (stored w1) ∧ signed_by w w1 key.

Lemma validate_quiet accts leeway fmt token w :
  quiet w → key_ready (stored w) → users accts (stored w) →
  ∃ w1 key, verified_at accts w w1 key ∧
    match jwt_parse leeway key token w1 with
    | inr (claims, true) => validate_token jwt_parse rand_key leeway fmt (S fuel) token w =
        Some (w1, inr (claims_principal claims, cl_pwd_gen claims))
    | _ => ∃ err, validate_token jwt_parse rand_key leeway fmt (S fuel) token w = Some (w1, inl err)
    end.
Proof.
  intros Hq Hk Hu. unfold validate_token. destruct (signingKey_quiet w Hq Hk) as (w1 & key & -> & (Hq1 & Hk1 & Hu1 & _) & Hs).
  exists w1, key. cbn [mbind option_bind]. split; [by split_and!; auto|].
  destruct (jwt_parse leeway key token w1) as [err|[claims []]]; simpl; by eauto.
Qed.

Lemma refresh_quiet accts r token w :
  uncached_ok live → quiet w → users accts (stored w) → key_ready (stored w) → bearer_token r = inr token →
  ∃ w1 key, verified_at accts w w1 key ∧
  match principal_of refreshWindow key token accts w1 with
  | Some p => ∃ w' t, Refresh live now jwt_sign jwt_parse rand_key (S fuel) native r w = Some (w', Reply StatusOK (inr (SessionBody t p)))
  | None => ∃ w' msg, Refresh live now jwt_sign jwt_parse rand_key (S fuel) native r w = Some (w', Reply StatusUnauthorized (inl msg))
  end.
Proof.
  intros Hlive Hq Hu Hk Hb. unfold Refresh. rewrite Hb.
  destruct (validate_quiet accts refreshWindow "token not eligible for refresh: %w" token w Hq Hk Hu) as (w1 & key & Hver & Hv).
  exists w1, key. split; [done|]. destruct Hver as (Hq1 & Hk1 & Hu1 & _). unfold ValidateTokenForRefresh, principal_of.
  destruct (jwt_parse refreshWindow key token w1) as [err|[claims []]].
  1,3: destruct Hv as [e ->]; by eexists _, _.
  rewrite Hv. cbn [mbind option_bind claims_principal Principal_Email].
  destruct (revalidate_quiet accts (cl_email claims) (cl_pwd_gen claims) w1 Hlive Hq1 Hu1) as (w2 & Hq2 & Hs2 & Hr).
  destruct (session_of accts (cl_email claims) (cl_pwd_gen claims)) as [p|].
  - match goal with |- context [issue_session _ _ _ _ _ ?m w1] => set (h := m) end.
    assert (h w1 = (w2, inr p)) as Hh by (unfold h, mbind, H_bind, call; by rewrite Hr).
    destruct (issue_quiet StatusOK h w1 w2 p Hh Hq2 ltac:(by rewrite Hs2)) as (w3 & t & He & _). by exists w3, t.
  - destruct Hr as (err & Hr & Herr). unfold issue_session. unfold mbind at 1, H_bind at 1, call. rewrite Hr.
    destruct Herr as [-> | ->]; by eexists _, _.
Qed.

Lemma jwt_quiet accts {B} (next : request → W → option (W * reply B)) r token w :
  quiet w → users accts (stored w) → key_ready (stored w) → rq_principal r = None → bearer_token r = inr token →
  ∃ w1 key w', verified_at accts w w1 key ∧ quiet w' ∧ users accts (stored w') ∧
    jwtAuthMiddleware native next r w =
    match principal_of 0 key token accts w1 with
    | Some p => next (with_principal p r) w'
    | None => Some (w', Reply StatusUnauthorized (inl "invalid token"))
    end.
Proof.
  intros Hq Hu Hk Hr Hb. unfold jwtAuthMiddleware, authenticated. rewrite Hr, Hb.
  cbn [ap_Principal native_provider]. unfold Principal_of_session, ValidateToken.
  destruct (validate_quiet accts 0 "invalid token: %w" token w Hq Hk Hu) as (w1 & key & Hver & Hv).
  exists w1, key. unfold principal_of. pose proof Hver as (Hq1 & Hk1 & Hu1 & _).
  destruct (jwt_parse 0 key token w1) as [err|[claims []]].
  1,3: destruct Hv as [e ->]; by exists w1.
  rewrite Hv. cbn [mbind option_bind claims_principal Principal_Email].
  destruct (CurrentPrincipal_quiet bcrypt_compare accts (cl_email claims) (cl_pwd_gen claims) w1 Hq1) as (w2 & Hq2 & Hs2 & Hc);
    [apply Hu1|]. exists w2. split; [done|]. split; [done|]. split; [by rewrite Hs2|]. rewrite Hc. unfold session_of.
  destruct (accts !! cl_email claims) as [a|]; [|done]. by destruct (cl_pwd_gen claims <? ac_gen a)%Z.
Qed.

Lemma sse_quiet accts {B} (next : request → W → option (W * reply B)) r tok t p w :
  uncached_ok live → quiet w → users accts (stored w) →
  map_get (rq_header r) "Authorization" = "" → map_get (rq_query r) "token" = tok → has_prefix sseTokenPrefix tok = true →
  Redeem tok (part w) = (t, Some p) →
  ∃ w', quiet w' ∧ users accts (stored w') ∧
    sseAuthMiddleware live native next r w =
    match session_of accts (tp_email p) (tp_passwordGen p) with
    | Some p => next (with_principal p r) w'
    | None => Some (w', Reply StatusUnauthorized (inl "invalid or expired SSE token"))
    end.
Proof.
  intros Hlive Hq Hu Hh Ht Hpre Hrd. unfold sseAuthMiddleware. rewrite Hh, Ht. cbn [String.eqb negb].
  destruct (String.eqb_spec tok "") as [->|_]; [done|]. rewrite Hpre. unfold over. rewrite Hrd.
  destruct (tokens_apart t w) as [Hs Hq']. specialize (Hq' Hq). rewrite <-Hs in Hu.
  destruct (revalidate_quiet accts (tp_email p) (tp_passwordGen p) (set_part t w) Hlive Hq' Hu) as (w2 & Hq2 & Hs2 & Hr).
  exists w2. split; [done|]. split; [by rewrite Hs2|]. destruct (session_of _ _ _) as [p'|]; [by rewrite Hr|].
  destruct Hr as (err & Hr & _). by rewrite Hr.
Qed.

(** C21: a session opens what its account is now, when nobody writes Secrets meanwhile.
    Refreshing it, a request with it, and the event-stream token made from it are refused
    when the token does not verify with the stored signing key, when the account is gone or
    when its password was changed since; otherwise they carry the current role of the
    account, whatever the token says. *)
Theorem sessions_revalidated accts w :
  uncached_ok live → quiet w → users accts (stored w) → key_ready (stored w) →
  (∀ r token, bearer_token r = inr token →
     ∃ w1 key, verified_at accts w w1 key ∧
     match principal_of refreshWindow key token accts w1 with
     | Some p => ∃ w' t, Refresh live now jwt_sign jwt_parse rand_key (S fuel) native r w = Some (w', Reply StatusOK (inr (SessionBody t p)))
     | None => ∃ w' msg, Refresh live now jwt_sign jwt_parse rand_key (S fuel) native r w = Some (w', Reply StatusUnauthorized (inl msg))
     end) ∧
  (∀ (next : request → W → option (W * reply user_body)) r token,
     rq_principal r = None → bearer_token r = inr token →
     ∃ w1 key w', verified_at accts w w1 key ∧ users accts (stored w') ∧ jwtAuthMiddleware native next r w =
       match principal_of 0 key token accts w1 with
       | Some p => next (with_principal p r) w'
       | None => Some (w', Reply StatusUnauthorized (inl "invalid token"))
       end) ∧
  (∀ (next : request → W → option (W * reply user_body)) r tok t p,
     map_get (rq_header r) "Authorization" = "" → map_get (rq_query r) "token" = tok → has_prefix sseTokenPrefix tok = true →
     Redeem tok (part w) = (t, Some p) →
     ∃ w', users accts (stored w') ∧ sseAuthMiddleware live native next r w =
       match session_of accts (tp_email p) (tp_passwordGen p) with
       | Some p => next (with_principal p r) w'
       | None => Some (w', Reply StatusUnauthorized (inl "invalid or expired SSE token"))
       end).
Proof.
  intros Hlive Hq Hu Hk. split_and!.
  - intros r token Hb. by apply (refresh_quiet accts r token).
  - intros next r token Hr Hb. destruct (jwt_quiet accts next r token w Hq Hu Hk Hr Hb) as (w1 & key & w' & Hv & _ & H). by exists w1, key, w'.
  - intros next r tok t p Hh Ht Hpre Hrd. destruct (sse_quiet accts next r tok t p w Hlive Hq Hu Hh Ht Hpre Hrd) as (w' & _ & H). by exists w'.
Qed.
End sessions.
