(* ===== verification/ApiUsersRuns.v ===== *)
(** * Users and sessions over REST: runs

    The handlers of [ApiUsers] on a concrete server with Secrets and ConfigMaps, beside the
    limiter and the event-stream tokens. *)

From S2P Require Import Prelude GoStrings GoText GoNum GoTime Json JsonStruct Kube Core Api Effects Authz SSETokens Auth LoginLimit ApiServer Cluster ApiUsers ApiUsersFacts.

Module UserRuns.
(** ** The world *)

Record world := World {
  wd_secrets : Sim.world Secret;
  wd_configmaps : Sim.world ConfigMap;
  wd_projects : Sim.world Project;
  wd_members : Sim.world ProjectMember;
  wd_limiter : loginLimiter;
  wd_tokens : sseTokenStore;
}.

#[local] Instance secrets_part : Part world (Sim.world Secret) :=
  {| part := wd_secrets; set_part v '(World _ c p m l t) := World v c p m l t |}.
#[local] Instance configmaps_part : Part world (Sim.world ConfigMap) :=
  {| part := wd_configmaps; set_part v '(World s _ p m l t) := World s v p m l t |}.
#[local] Instance projects_part : Part world (Sim.world Project) :=
  {| part := wd_projects; set_part v '(World s c _ m l t) := World s c v m l t |}.
#[local] Instance members_part : Part world (Sim.world ProjectMember) :=
  {| part := wd_members; set_part v '(World s c p _ l t) := World s c p v l t |}.
#[local] Instance limiter_part : Part world loginLimiter :=
  {| part := wd_limiter; set_part v '(World s c p m _ t) := World s c p m v t |}.
#[local] Instance tokens_part : Part world sseTokenStore :=
  {| part := wd_tokens; set_part v '(World s c p m l _) := World s c p m l v |}.

Ltac part_law := split; by intros; repeat match goal with w : world |- _ => destruct w end.
#[local] Instance secrets_part_ok : PartOk world (Sim.world Secret).
Proof. part_law. Qed.
#[local] Instance configmaps_part_ok : PartOk world (Sim.world ConfigMap).
Proof. part_law. Qed.
#[local] Instance projects_part_ok : PartOk world (Sim.world Project).
Proof. part_law. Qed.
#[local] Instance members_part_ok : PartOk world (Sim.world ProjectMember).
Proof. part_law. Qed.
#[local] Instance limiter_part_ok : PartOk world loginLimiter.
Proof. part_law. Qed.
#[local] Instance tokens_part_ok : PartOk world sseTokenStore.
Proof. part_law. Qed.

Section clients.
Context {Obj : Type} {O : KubeObject Obj} {OOK : KubeObjectOk Obj}
  {P : Part world (Sim.world Obj)} {POK : PartOk world (Sim.world Obj)}.
#[export] Instance client : KubeClient world Obj := lifted_client P Sim.client.
#[export] Instance client_ok : KubeClientOk world Obj := lifted_ok P Sim.client Sim.client_ok.
#[export] Instance deleter : KubeDelete world Obj := lifted_deleter P Sim.deleter.
#[export] Instance lister : KubeListIn world Obj := lifted_lister P Sim.lister.
#[export] Instance deleter_ok : KubeDeleteOk world Obj.
Proof. apply lifted_deleter_ok, Sim.deleter_ok. Qed.
#[export] Instance lister_ok : KubeListOk world Obj.
Proof. apply lifted_lister_ok, Sim.lister_ok. Qed.
End clients.
#[local] Instance role_retry : KubeRetry (world * bool) := retry_loop default_retry_steps.
#[local] Instance role_retry_ok : KubeRetryOk (world * bool).
Proof. intros fn w. reflexivity. Qed.

#[local] Hint Extern 0 (PartApart world _ _) => (by intros v []) : typeclass_instances.
#[local] Instance configmaps_apart : KubeApart world ConfigMap Secret.
Proof. apply lifted_apart. Qed.
#[local] Instance secrets_apart : KubeApart world Secret ConfigMap.
Proof. apply lifted_apart. Qed.
#[local] Instance limiter_kept : KubeWithin world Secret (λ w w', part (V := loginLimiter) w' = part w).
Proof.
  split; intros x [s c p m l t]; cbn [kget kcreate kupdate client lifted_client]; unfold over; cbn [part secrets_part wd_secrets];
    match goal with |- context [let '(_, _) := ?f in _] => by destruct f end.
Qed.
Lemma delete_apart k (w : world) : unaffected Secret w (kdelete ConfigMap k w).1.
Proof. destruct w as [s c p m l t]. unfold kdelete, deleter, lifted_deleter, over. by destruct (kdelete ConfigMap k _). Qed.
Lemma limiter_apart (l : loginLimiter) (w : world) : unaffected Secret w (set_part l w).
Proof. by destruct w. Qed.
Lemma tokens_apart (t : sseTokenStore) (w : world) : unaffected Secret w (set_part t w).
Proof. by destruct w. Qed.

(** ** The parameters *)

Definition now : world → Time := λ w, ts_now (wd_tokens w).
Definition details : error → option (string * string) := λ _, None.

(** A stand-in for bcrypt that keeps the password in the hash. *)
Definition generate (password : string) (_ : world) : error + string :=
  if (72 <? String.length password)%nat then inl (Errorf "bcrypt: password length exceeds 72 bytes" [])
  else inr ("$2a$" +:+ password).
Definition compare (hash password : string) : bool := String.eqb hash ("$2a$" +:+ password).

#[local] Instance bcrypt_ok : BcryptOk generate compare.
Proof.
  intros password w. unfold generate.
  destruct (Nat.ltb_spec 72 (String.length password)); [done|]. split; [lia|]. intros p _. unfold compare.
  destruct (String.eqb_spec p password) as [->|Hne]; [apply String.eqb_refl|].
  apply String.eqb_neq. intros E%str_app_inv_head. by subst.
Qed.
Lemma bcrypt_error p w err : generate p w = inl err → reason_of err = None.
Proof. unfold generate. destruct (_ <? _)%nat; [by intros [= <-]|done]. Qed.

(** Tokens that carry the claims of Ada in the open. *)
Definition sign (key : string) (c : Claims) : error + string := inr ("signed:" +:+ cl_email c).
Definition ada : string := "ada@acme.io".
Definition ada_claims (gen : Z) : Claims :=
  {| cl_sub := ada; cl_email := ada; cl_role := RoleViewer; cl_pwd_gen := gen; cl_iss := jwtIssuer; cl_aud := jwtAudience;
     cl_iat := 0; cl_exp := 0 |}.
Definition parse (leeway : Z) (key token : string) (w : world) : error + (Claims * bool) :=
  if negb (String.eqb key "a signing key") then inl (Errorf "token signature is invalid" [])
  else if String.eqb token "old" then inr (ada_claims (-1), true) else inr (ada_claims 0, true).
Definition rand_key (w : world) : error + string := inr "another key".
Lemma rand_ok w : ∃ key, rand_key w = inr key ∧ (0 < String.length key)%nat.
Proof. eexists. split; [reflexivity|]. apply Nat.ltb_lt. reflexivity. Qed.
Lemma sign_ok key claims : ∃ token, sign key claims = inr token.
Proof. by eexists. Qed.
Definition machine : float64 → Z := λ _, 0%Z.

Definition provider : AuthProvider world := native_provider None compare parse rand_key 1.

(** ** The start *)

Definition ada_account : account := {| ac_password := "correct horse"; ac_role := RoleAdmin; ac_gen := 0 |}.
Definition accts : gmap string account := {[ada := ada_account]}.
Definition start_with (secrets : list Secret) : world :=
  World (stored_now secrets) nothing nothing nothing (newLoginLimiter (λ _, "")) (newSSETokenStore 1770000000000000000).
Definition installed : world := start_with [user_secret ada "$2a$correct horse" RoleAdmin].
Definition fresh : world := start_with [].

(** With the key that sessions are signed with. *)
Definition running : world := start_with [user_secret ada "$2a$correct horse" RoleAdmin; jwt_secret "a signing key"].

Lemma no_users : users compare ∅ (kstore (Obj := Secret) fresh).
Proof. split; [by intros e|]. intros k s. change (kstore (Obj := Secret) fresh) with (∅ : gmap NamespacedName Secret). by rewrite lookup_empty. Qed.

Lemma ada_holds rv : holds compare ada ada_account (obj_with_rv rv (user_secret ada "$2a$correct horse" RoleAdmin)).
Proof.
  apply (holds_user_secret compare). intros p _. unfold compare.
  destruct (String.eqb_spec p "correct horse") as [->|Hne]; [done|].
  apply String.eqb_neq. intros E%(str_app_inv_head "$2a$"). by subst.
Qed.

Lemma one_user : users compare accts (kstore (Obj := Secret) installed).
Proof.
  unfold accts. rewrite <-insert_empty. apply (users_create compare ∅ ∅ ada "$2a$correct horse" RoleAdmin (Sim.rv_of (Obj := Secret) [])).
  - apply no_users.
  - done.
  - apply ada_holds.
Qed.

Lemma running_user : users compare accts (kstore (Obj := Secret) running).
Proof.
  assert (kstore (Obj := Secret) running =
    <[user_key ada := obj_with_rv (Sim.rv_of [Sim.Put (jwt_secret "a signing key")]) (user_secret ada "$2a$correct horse" RoleAdmin)]>
    (<[jwt_key := obj_with_rv (Sim.rv_of (Obj := Secret) []) (jwt_secret "a signing key")]> ∅)) as -> by (vm_compute; reflexivity).
  unfold accts. rewrite <-insert_empty. apply users_create.
  - apply users_jwt; [done|reflexivity|apply no_users].
  - done.
  - apply ada_holds.
Qed.
Lemma running_key : key_ready (kstore (Obj := Secret) running).
Proof. eexists. split; [vm_compute; reflexivity|]. apply Nat.ltb_lt. reflexivity. Qed.

Lemma no_key : key_ready (kstore (Obj := Secret) fresh).
Proof. done. Qed.
Lemma no_key_installed : key_ready (kstore (Obj := Secret) installed).
Proof. done. Qed.

Definition json_text (s : string) : string := replace_all s "'" (String dquote "").
Definition request_of (p : option Principal) (params header query : gmap string string) (body : string) : request :=
  {| rq_principal := p; rq_params := params; rq_query := query; rq_header := header; rq_body := inr (json_text body) |}.
Definition the_admin : Principal := account_principal ada ada_account.

(** ** The properties apply *)

Definition demote : request := request_of (Some the_admin) {["email" := ada]} ∅ ∅ "{'role':'viewer'}".

(** The only admin is not demoted. *)
Lemma users_refine_witness :
  admin_spec (SetRole ada RoleViewer) accts = (StatusBadRequest, accts) ∧
  answers compare (handle None generate compare parse rand_key 1 details id (SetRole ada RoleViewer) demote installed)
    (admin_spec (SetRole ada RoleViewer) accts).
Proof.
  split; [vm_compute; reflexivity|].
  refine (proj1 (users_refine None generate compare bcrypt_error parse rand_key 1 details id (SetRole ada RoleViewer) demote
    the_admin accts installed eq_refl eq_refl _ eq_refl one_user)).
  split; [reflexivity|]. eexists. split; [reflexivity|]. vm_compute. reflexivity.
Defined.

Definition a_member : Principal :=
  {| Principal_ID := "2"; Principal_Email := "bob@acme.io"; Principal_Role := RoleMember; Principal_PasswordGen := 0 |}.
Definition promote_self : request := request_of (Some a_member) {["email" := "bob@acme.io"]} ∅ ∅ "{'role':'admin'}".

Lemma users_admin_only_witness :
  ∃ code msg, handle None generate compare parse rand_key 1 details id (SetRole "bob@acme.io" RoleAdmin) promote_self installed =
    (installed, inl (Reply code (inl msg))) ∧ (code = StatusUnauthorized ∨ code = StatusForbidden) ∧
    ListUsers provider promote_self installed = (installed, inl (Reply code (inl msg))).
Proof.
  apply (users_admin_only None generate compare parse rand_key 1 details id promote_self installed (SetRole "bob@acme.io" RoleAdmin)).
  intros p [= <-]. discriminate.
Defined.

Definition ada_credentials : Credentials := {| Credentials_Email := ada; Credentials_Password := "correct horse" |}.
Definition credentials_body : string := "{'email':'ada@acme.io','password':'correct horse'}".
Definition ask : request := request_of None ∅ ∅ ∅ credentials_body.

Lemma asked : asks ada_credentials ask.
Proof. eexists. split; [reflexivity|]. vm_compute. reflexivity. Qed.

Lemma setup_once_witness :
  setup_spec ada_credentials false ∅ = (StatusCreated, true, <[ada := first_admin ada "correct horse"]> ∅) ∧
  ∃ w' rep, Setup now generate sign rand_key 1 provider ask fresh = Some (w', rep) ∧ rp_code rep = StatusCreated ∧
    users compare (<[ada := first_admin ada "correct horse"]> ∅) (kstore (Obj := Secret) w') ∧ claimed w' = true.
Proof.
  split; [vm_compute; reflexivity|].
  pose proof (setup_once delete_apart None now generate compare bcrypt_error sign parse rand_key 0 rand_ok sign_ok
    ada_credentials ask ∅ fresh asked eq_refl eq_refl no_users no_key) as H.
  destruct H as (w' & rep & H1 & H2 & _ & _ & H3 & H4 & _). exists w', rep. split; [exact H1|]. split; [exact H2|]. split; [exact H3|exact H4].
Defined.

Lemma native_uncached_ok : uncached_ok (W := world) None.
Proof. intros read k w H. discriminate H. Qed.

Definition peer : string := "10.0.0.7:51234".

Lemma login_spec_witness :
  ∃ w' token, Login now sign rand_key 1 machine provider peer ask installed =
    Some (w', Reply StatusOK (inr (SessionBody token the_admin))) ∧
    part w' = recordSuccess (loginRateKey ada peer) (allow machine (now installed) (loginRateKey ada peer) (part installed)).1.
Proof.
  refine (login_spec limiter_apart None now compare sign parse rand_key 0 rand_ok sign_ok machine
    ada_credentials peer ask accts installed asked eq_refl one_user no_key_installed native_uncached_ok _).
  apply Nat.leb_le. reflexivity.
Defined.

Definition with_token (token : string) : request := request_of None ∅ {["Authorization" := "Bearer " +:+ token]} ∅ "".

(** A session from before the last change of the password. *)
Lemma sessions_revalidated_witness :
  ∃ w' msg, Refresh None now sign parse rand_key 1 provider (with_token "old") running = Some (w', Reply StatusUnauthorized (inl msg)).
Proof.
  destruct (proj1 (sessions_revalidated tokens_apart None None now compare sign parse rand_key 0 rand_ok sign_ok
    accts running native_uncached_ok eq_refl running_user running_key) (with_token "old") "old" eq_refl) as (w1 & key & (_ & _ & _ & [_ Hkey]) & H).
  assert (key = "a signing key") as ->.
  { assert (kstore (Obj := Secret) running !! jwt_key = Some (obj_with_rv (Sim.rv_of (Obj := Secret) []) (jwt_secret "a signing key"))) as Hs
      by (vm_compute; reflexivity).
    specialize (Hkey _ Hs). vm_compute in Hkey. congruence. }
  exact H.
Defined.

(** ** Evaluation *)

Definition code {B} (r : option (world * reply B)) : option Z := (λ r, rp_code r.2) <$> r.
Definition answer_code {B A} (r : reply B + A) : option Z := match r with inl rep => Some (rp_code rep) | inr _ => None end.
Definition after {B} (w : world) (r : option (world * reply B)) : world := default w (fst <$> r).

(** The role of the session is that of the account, not of the token. *)
Example fresh_role :
  (λ r, rp_body r.2) <$> Refresh None now sign parse rand_key 1 provider (with_token "new") running =
  Some (inr (SessionBody ("signed:" +:+ ada) the_admin)).
Proof. vm_compute. reflexivity. Qed.

(** A reset of the password of a user that is not there is answered 400. *)
Example reset_unknown_user :
  answer_code (handle None generate compare parse rand_key 1 details id (ResetPassword "bob@acme.io" "correct horse")
    (request_of (Some the_admin) {["email" := "bob@acme.io"]} ∅ ∅ "{'password':'correct horse'}") installed).2 = Some 400%Z.
Proof. vm_compute. reflexivity. Qed.

Definition set_up (w : world) : option (world * reply user_body) := Setup now generate sign rand_key 1 provider ask w.
Example setup_twice : code (set_up fresh) = Some 201%Z ∧ code (set_up (after fresh (set_up fresh))) = Some 409%Z.
Proof. vm_compute. split; reflexivity. Qed.

(** When the account cannot be written and the claim cannot be given back, nobody can set
    the platform up: there is no user, and the setup is said to be complete. *)
Definition faulty : world :=
  World (Sim.World [] [Sim.Fault (Errorf "timeout" [])]) (Sim.World [] [Sim.Calm; Sim.Fault (Errorf "timeout" [])])
    nothing nothing (newLoginLimiter (λ _, "")) (newSSETokenStore 1770000000000000000).
Example setup_locked_out :
  let w := after faulty (set_up faulty) in
  code (set_up faulty) = Some 500%Z ∧ code (set_up w) = Some 409%Z ∧
  (Status provider ask w).2 = inl (Reply 200%Z (inr (SetupStatusBody true))).
Proof. vm_compute. split_and!; reflexivity. Qed.

(** The eleventh attempt of a burst is refused, with the right password too. *)
Definition wrong : request := request_of None ∅ ∅ ∅ "{'email':'ada@acme.io','password':'letmein!'}".
Definition log_in (r : request) (w : world) : option (world * reply user_body) := Login now sign rand_key 1 machine provider peer r w.
Fixpoint guess (n : nat) (w : world) : world := match n with O => w | S n => guess n (after w (log_in wrong w)) end.
Example throttled :
  code (log_in wrong installed) = Some 401%Z ∧ code (log_in ask (guess 9 installed)) = Some 200%Z ∧
  code (log_in ask (guess 10 installed)) = Some 429%Z.
Proof. vm_compute. split_and!; reflexivity. Qed.

(** The removal of a user is not made on the accounts the guard saw: two admins who are
    deleted at the same time both go. *)
Definition bob : Secret := user_secret "bob@acme.io" "" RoleAdmin.
Definition two_admins : world :=
  World (Sim.World (Sim.Put <$> [user_secret ada "" RoleAdmin; bob]) [Sim.Calm; Sim.External (Sim.Del (obj_key bob))])
    nothing nothing nothing (newLoginLimiter (λ _, "")) (newSSETokenStore 0).
Definition delete_ada : request := request_of (Some the_admin) {["email" := ada]} ∅ ∅ "".
Example both_admins_leave :
  let res := DeleteUser provider delete_ada two_admins in
  answer_code res.2 = Some 204%Z ∧ map_to_list (kstore (Obj := Secret) res.1) = [].
Proof. vm_compute. split; reflexivity. Qed.

(** The middleware. *)
Definition whoami (r : request) (w : world) : option (world * reply user_body) :=
  Some (w, match rq_principal r with Some p => Reply 200 (inl (Principal_Role p)) | None => Reply 200 (inl "nobody") end).
Example middleware :
  code (jwtAuthMiddleware provider whoami ask installed) = Some 401%Z ∧
  (λ r, rp_body r.2) <$> jwtAuthMiddleware provider whoami (with_token "new") running = Some (inl RoleAdmin) ∧
  code (jwtAuthMiddleware provider whoami (with_token "old") installed) = Some 401%Z ∧
  (λ r, rp_body r.2) <$> optionalJWTMiddleware provider whoami (with_token "mrt_x") installed = Some (inl "nobody") ∧
  code (sseAuthMiddleware None provider whoami (request_of None ∅ ∅ {["token" := "msse_unknown"]} "") installed) = Some 401%Z.
Proof. vm_compute. split_and!; reflexivity. Qed.
End UserRuns.
