(* ===== verification/ApiDomains.v ===== *)
(** * Domains: [internal/api/domains.go]

    The custom domains of an app in an environment: listing, adding and removing them, and
    the check whether a domain is taken.  Without other writers no two apps come to claim
    one domain, as it is written, through these handlers ([domains_stay_apart]); the
    handlers of apps do not look ([ApiAppsRuns.domain_taken_over]). *)

From S2P Require Import Prelude GoStrings GoText Json JsonStruct Kube Core Api Constants Authz ApiServer Cluster.

(** ** Requests and answers *)

Record domainsResponse := { do_Primary : string; do_Custom : list string; do_Auto : string }.

(** [addDomainRequest] *)
Definition decode_domain : decoder string := struct [("domain", string_field (λ v _, v))].

Record domainValidateRequest := { dv_Domain : string; dv_ExcludeApp : string; dv_ExcludeProject : string }.
Definition decode_validate : decoder domainValidateRequest := struct
  [("domain", string_field (λ v q, {| dv_Domain := v; dv_ExcludeApp := dv_ExcludeApp q; dv_ExcludeProject := dv_ExcludeProject q |}));
   ("exclude_app", string_field (λ v q, {| dv_Domain := dv_Domain q; dv_ExcludeApp := v; dv_ExcludeProject := dv_ExcludeProject q |}));
   ("exclude_project", string_field (λ v q, {| dv_Domain := dv_Domain q; dv_ExcludeApp := dv_ExcludeApp q; dv_ExcludeProject := v |}))].

Record domainConflict := { dc_Project : string; dc_App : string; dc_Environment : string }.

(** [domainValidateResponse] is valid when there is no conflict. *)
Inductive domain_body := DomainsBody (d : domainsResponse) | ValidBody (conflict : option domainConflict).

Definition is_alpha (c : ascii) : bool := is_lower c || is_upper c.
Definition is_alnum (c : ascii) : bool := is_alpha c || is_digit c.

(** A label of a hostname: [[a-zA-Z0-9]([a-zA-Z0-9-]{0,61}[a-zA-Z0-9])?] *)
Definition host_label (s : string) : bool :=
  negb (String.eqb s "") && (String.length s <=? 63)%nat && sall (λ c, is_alnum c || Ascii.eqb c "-"%char) s &&
  first_ok is_alnum s && last_ok is_alnum s.

(** [hostnameRegex]: labels with dots behind them, and two letters or more. *)
Definition hostnameRegex (s : string) : bool :=
  match rev (split "."%char s) with
  | tld :: (_ :: _) as labels => sall is_alpha tld && (2 <=? String.length tld)%nat && forallb host_label labels
  | _ => false
  end.

(** ** Domains of an app *)

Definition statusAutoDomain (app : App) (envName : string) : string :=
  match List.find (λ se, String.eqb (EnvironmentStatus_Name se) envName) (AppStatus_Environments (App_Status app)) with
  | Some se => EnvironmentStatus_AutoDomain se
  | None => ""
  end.

Definition has_domain (d : string) (l : list string) : bool := existsb (String.eqb d) l.

(** The environment of the specification that has the domain. *)
Definition spec_claims (d : string) (e : Environment) : bool :=
  String.eqb (Environment_Domain e) d || has_domain d (Environment_CustomDomains e).
Definition status_claims (d : string) (se : EnvironmentStatus) : bool :=
  String.eqb (EnvironmentStatus_Domain se) d || String.eqb (EnvironmentStatus_AutoDomain se) d.

(** The first environment of the app that claims the domain, those of the specification
    first. *)
Definition claiming_env (d : string) (app : App) : option string :=
  match List.find (spec_claims d) (AppSpec_Environments (App_Spec app)) with
  | Some e => Some (Environment_Name e)
  | None => EnvironmentStatus_Name <$> List.find (status_claims d) (AppStatus_Environments (App_Status app))
  end.

Definition same_app (a b : App) : bool :=
  String.eqb (meta_Namespace (App_ObjectMeta a)) (meta_Namespace (App_ObjectMeta b)) &&
  String.eqb (meta_Name (App_ObjectMeta a)) (meta_Name (App_ObjectMeta b)).

Definition app_project (app : App) : string := (ProjectFromControlNs (meta_Namespace (App_ObjectMeta app))).1.

(** The first app, of those not skipped, that claims the domain. *)
Fixpoint first_claim (skip : App → bool) (d : string) (apps : list App) : option (App * string) :=
  match apps with
  | [] => None
  | app :: apps =>
    match (if skip app then None else claiming_env d app) with
    | Some env => Some (app, env)
    | None => first_claim skip d apps
    end
  end.

(** [slices.Delete] of the first occurrence. *)
Fixpoint remove_first (d : string) (l : list string) : list string :=
  match l with
  | [] => []
  | x :: l => if String.eqb x d then l else x :: remove_first d l
  end.

Definition on_custom (f : list string → list string) (e : Environment) : Environment :=
  with_Environment_CustomDomains (f (Environment_CustomDomains e)) e.

(** The custom domains of the first environment of the name, [[]] if there is none. *)
Definition custom_of (app : App) (envName : string) : list string :=
  match findEnvironment app envName with Some e => Environment_CustomDomains e | None => [] end.

Definition domain_resource (projectName env : string) : Resource :=
  {| Resource_Kind := "app"; Resource_Namespace := ""; Resource_Name := "";
     Resource_Project := projectName; Resource_Environment := env |}.

(** ** The handlers *)

Section handlers.
Context {W : Type} {CP : KubeClient W Project} {CM : KubeClient W ProjectMember} {CC : KubeClient W ConfigMap}
  {CA : KubeClient W App} {LA : KubeListIn W App} {KRA : KubeRetry (W * list string)}.
Context (details : error → option (string * string)) (json_error : string → string)
  (now : W → Time) (ctx : nat → option error) (activityStore : bool).
Local Abbreviation handler := (H W domain_body Empty_set).
Local Abbreviation record_ := (recordActivity now ctx activityStore).

Definition ListDomains (r : request) : handler :=
  let projectName := URLParam r "project" in
  _ ← authorize r (domain_resource projectName "") ActionRead;
  '(app, envName) ← resolveAppEnv details r;
  match findEnvironment app envName with
  | None => writeJSON StatusOK (DomainsBody {| do_Primary := ""; do_Custom := []; do_Auto := statusAutoDomain app envName |})
  | Some env =>
    writeJSON StatusOK (DomainsBody {| do_Primary := Environment_Domain env; do_Custom := Environment_CustomDomains env;
                                       do_Auto := statusAutoDomain app envName |})
  end.

(** One attempt at adding; the state holds the custom domains for the answer. *)
Definition add_attempt (key : NamespacedName) (envName d : string) (s : W * list string) : (W * list string) * option error :=
  let '(w, custom) := s in
  match kget key w with
  | (w, inl err) => ((w, custom), Some err)
  | (w, inr fresh) =>
    let cur := custom_of fresh envName in
    if has_domain d cur then ((w, cur), None)
    else
      let '(w, err) := kupdate (ensureEnvironment envName (on_custom (λ l, l ++ [d])) fresh) w in
      ((w, cur ++ [d]), err)
  end.

Definition remove_attempt (key : NamespacedName) (envName d : string) (s : W * list string) : (W * list string) * option error :=
  let '(w, custom) := s in
  match kget key w with
  | (w, inl err) => ((w, custom), Some err)
  | (w, inr fresh) =>
    match findEnvironment fresh envName with
    | None => ((w, []), None)
    | Some fenv =>
      let cur := Environment_CustomDomains fenv in
      if has_domain d cur then
        let '(w, err) := kupdate (ensureEnvironment envName (on_custom (remove_first d)) fresh) w in
        ((w, remove_first d cur), err)
      else ((w, cur), None)
    end
  end.

(** The retried edit: the custom domains of the last attempt, or its error. *)
Definition edit_domains (attempt : W * list string → (W * list string) * option error) (w : W) : W * (error + list string) :=
  let '((w, custom), err) := RetryOnConflict attempt (w, []) in
  (w, match err with Some err => inl err | None => inr custom end).

Definition app_key (app : App) : NamespacedName := (meta_Namespace (App_ObjectMeta app), meta_Name (App_ObjectMeta app)).

Definition taken (d : string) (claim : option (App * string)) : H W domain_body unit :=
  match claim with
  | Some (other, env) =>
    fail StatusConflict (sprintf "domain %s is already used by %s in %s (%s)"
      [d; meta_Name (App_ObjectMeta other); app_project other; env])
  | None => mret tt
  end.

(** The check for collisions with other apps, and the edit. *)
Definition claim_domain (app : App) (envName d : string) : H W domain_body (list string) :=
  allApps ← try_ details (klist_in (Obj := App) "" ∅);
  _ ← taken d (first_claim (same_app app) d allApps);
  try_ details (edit_domains (add_attempt (app_key app) envName d)).

Definition AddDomain (r : request) : handler :=
  let projectName := URLParam r "project" in
  _ ← authorize r (domain_resource projectName (queryEnv r)) ActionUpdate;
  '(app, envName) ← resolveAppEnv details r;
  d ← decode_body json_error r (body_of decode_domain "");
  _ ← require (hostnameRegex d) StatusBadRequest "domain must be a valid hostname (e.g. app.example.com)";
  let primary := match findEnvironment app envName with Some e => Environment_Domain e | None => "" end in
  let autoDomain := statusAutoDomain app envName in
  _ ← require (negb (String.eqb d primary || String.eqb d autoDomain || has_domain d (custom_of app envName)))
        StatusConflict "domain already exists";
  custom ← claim_domain app envName d;
  _ ← record_ r projectName "update" "domain" d
        ("Added custom domain " +:+ d +:+ " to " +:+ meta_Name (App_ObjectMeta app) +:+ " in " +:+ envName) "";
  writeJSON StatusOK (DomainsBody {| do_Primary := primary; do_Custom := custom; do_Auto := autoDomain |}).

Definition RemoveDomain (r : request) : handler :=
  let projectName := URLParam r "project" in
  _ ← authorize r (domain_resource projectName (queryEnv r)) ActionUpdate;
  '(app, envName) ← resolveAppEnv details r;
  let d := URLParam r "domain" in
  match findEnvironment app envName with
  | None => fail StatusNotFound "domain not found"
  | Some env =>
    _ ← require (has_domain d (Environment_CustomDomains env)) StatusNotFound "domain not found";
    custom ← try_ details (edit_domains (remove_attempt (app_key app) envName d));
    _ ← record_ r projectName "update" "domain" d
          ("Removed custom domain " +:+ d +:+ " from " +:+ meta_Name (App_ObjectMeta app) +:+ " in " +:+ envName) "";
    writeJSON StatusOK (DomainsBody {| do_Primary := Environment_Domain env; do_Custom := custom;
                                       do_Auto := statusAutoDomain app envName |})
  end.

Definition excluded (req : domainValidateRequest) (app : App) : bool :=
  negb (String.eqb (dv_ExcludeApp req) "") && negb (String.eqb (dv_ExcludeProject req) "") &&
  String.eqb (meta_Name (App_ObjectMeta app)) (dv_ExcludeApp req) && String.eqb (app_project app) (dv_ExcludeProject req).

Definition ValidateDomain (r : request) : handler :=
  _ ← authorize r (domain_resource "" "") ActionRead;
  req ← decode_body json_error r (body_of decode_validate {| dv_Domain := ""; dv_ExcludeApp := ""; dv_ExcludeProject := "" |});
  _ ← require (negb (String.eqb (dv_Domain req) "")) StatusBadRequest "domain is required";
  _ ← require (hostnameRegex (dv_Domain req)) StatusBadRequest "domain must be a valid hostname";
  apps ← try_ details (klist_in (Obj := App) "" ∅);
  writeJSON StatusOK (ValidBody (match first_claim (excluded req) (dv_Domain req) apps with
    | Some (app, env) => Some {| dc_Project := app_project app; dc_App := meta_Name (App_ObjectMeta app); dc_Environment := env |}
    | None => None
    end)).
End handlers.

(** ** No domain is claimed twice *)

Abbreviation apps := (gmap NamespacedName App) (only parsing).

(** An environment of the app's specification has the domain. *)
Definition claims (d : string) (app : App) : bool := existsb (spec_claims d) (AppSpec_Environments (App_Spec app)).

Definition apart (m : apps) : Prop :=
  ∀ k1 k2 a1 a2 d, k1 ≠ k2 → m !! k1 = Some a1 → m !! k2 = Some a2 → d ≠ "" →
    claims d a1 = true → claims d a2 = false.

Lemma has_domain_spec d l : has_domain d l = true ↔ d ∈ l.
Proof.
  unfold has_domain. rewrite existsb_exists. split.
  - intros (x & Hx & ->%String.eqb_eq). by apply list_elem_of_In.
  - intros H. exists d. split; [by apply list_elem_of_In|apply String.eqb_refl].
Qed.

(** What an edit of the custom domains may add. *)
Lemma claims_ensure d envName f app :
  (∀ l, has_domain d (f l) = true → has_domain d l = true) →
  claims d (ensureEnvironment envName (on_custom f) app) = true → d ≠ "" → claims d app = true.
Proof.
  intros Hf Hc Hne. unfold claims, ensureEnvironment in *. change (AppSpec_Environments (App_Spec _)) with
    (ensure_env envName (on_custom f) (AppSpec_Environments (App_Spec app))) in Hc.
  induction (AppSpec_Environments (App_Spec app)) as [|e envs IH]; simpl in *.
  - rewrite orb_false_r in Hc. apply orb_true_iff in Hc as [Hc|Hc]; [by destruct d|by apply Hf in Hc].
  - destruct (String.eqb (Environment_Name e) envName); simpl in Hc.
    + apply orb_true_iff in Hc as [Hc|Hc]; [|by rewrite Hc, orb_true_r]. apply orb_true_iff. left.
      unfold spec_claims in *. simpl in Hc. apply orb_true_iff in Hc as [->|Hc]; [done|]. rewrite (Hf _ Hc). apply orb_true_r.
    + apply orb_true_iff in Hc as [->|Hc]; [done|]. rewrite (IH Hc). apply orb_true_r.
Qed.

Lemma has_domain_app d x l : has_domain d (l ++ [x]) = true → d = x ∨ has_domain d l = true.
Proof.
  rewrite !has_domain_spec, elem_of_app. intros [H|H]; [by right|]. left. by apply list_elem_of_singleton in H.
Qed.

Lemma has_domain_remove d x l : has_domain d (remove_first x l) = true → has_domain d l = true.
Proof.
  induction l as [|y l IH]; simpl; [done|]. destruct (String.eqb_spec y x) as [->|]; simpl.
  - intros ->. apply orb_true_r.
  - intros [->|H]%orb_true_iff; [done|]. by rewrite (IH H), orb_true_r.
Qed.

(** Replacing an app keeps claims apart when what it claims beyond before is free. *)
Lemma apart_insert k new m :
  apart m → (∀ d, d ≠ "" → claims d new = true → ∀ k' a, k' ≠ k → m !! k' = Some a → claims d a = false) →
  apart (<[k := new]> m).
Proof.
  intros Hm Hn k1 k2 a1 a2 d Hne H1 H2 Hd Hc. destruct (decide (k1 = k)) as [->|H1k].
  - rewrite lookup_insert_eq in H1. injection H1 as <-. rewrite lookup_insert_ne in H2 by done. by apply (Hn d Hd Hc k2).
  - rewrite lookup_insert_ne in H1 by done. destruct (decide (k2 = k)) as [->|H2k].
    + rewrite lookup_insert_eq in H2. injection H2 as <-. destruct (claims d new) eqn:En; [|done].
      by rewrite (Hn d Hd En k1 a1) in Hc.
    + rewrite lookup_insert_ne in H2 by done. by apply (Hm k1 k2 a1).
Qed.

(** A domain that no other app of the list claims. *)
Lemma first_claim_none skip d l :
  first_claim skip d l = None → ∀ a, a ∈ l → skip a = false → claims d a = false.
Proof.
  induction l as [|b l IH]; simpl; [by intros _ a ?%elem_of_nil|]. intros H a Ha Hs.
  apply elem_of_cons in Ha as [->|Ha].
  - rewrite Hs in H. destruct (claiming_env d b) eqn:Eb; [done|]. unfold claiming_env in Eb. unfold claims.
    destruct (List.find (spec_claims d) _) as [e|] eqn:Ef; [done|]. apply not_true_iff_false. rewrite existsb_exists.
    intros (e & He & Hc). rewrite (List.find_none _ _ Ef e He) in Hc. done.
  - destruct (if skip b then None else claiming_env d b); [done|]. by apply IH.
Qed.

Section apart.
Context {W : Type} {CP : KubeClient W Project} {CM : KubeClient W ProjectMember} {CC : KubeClient W ConfigMap}
  {CA : KubeClient W App} {LA : KubeListIn W App} {KRA : KubeRetry (W * list string)}.
Context {OKA : KubeClientOk W App} {LOKA : KubeListOk W App} {KROK : KubeRetryOk (W * list string)}.
(** Calls on the other kinds leave apps alone. *)
Context {PA : KubeReads W Project (unaffected App)} {MA : KubeReads W ProjectMember (unaffected App)}
  {CCA : KubeApart W ConfigMap App}.
Context (details : error → option (string * string)) (json_error : string → string)
  (now : W → Time) (ctx : nat → option error) (activityStore : bool).
Local Abbreviation quiet w := (kquiet (Obj := App) w).
Local Abbreviation stored w := (kstore (Obj := App) w).

(** Without other writers, claims that are apart stay so. *)
Definition keeps_apart (w w' : W) : Prop := quiet w → quiet w' ∧ (apart (stored w) → apart (stored w')).

#[local] Instance keeps_apart_preorder : PreOrder keeps_apart.
Proof.
  split; [by intros w|]. intros w1 w2 w3 H1 H2 Hq. destruct (H1 Hq) as [Hq2 Hs2]. destruct (H2 Hq2) as [Hq3 Hs3]. auto.
Qed.

Lemma settled_apart w w' : settled App w w' → keeps_apart w w'.
Proof. intros H Hq. destruct (H Hq) as [Hq' Hs]. split; [done|]. by rewrite Hs. Qed.

#[local] Instance apart_reads {A} {CA' : KubeClient W A} {R : KubeReads W A (settled App)} : KubeReads W A keeps_apart.
Proof. intros k w. by apply settled_apart, R. Qed.
#[local] Instance apart_lists : ListReads W App keeps_apart.
Proof. intros ns l w. by apply settled_apart, (settled_lists App). Qed.
#[local] Instance apart_record : KubeWithin W ConfigMap keeps_apart.
Proof. split; intros; apply settled_apart, unaffected_settled; apply CCA. Qed.

(** An attempt that replaces the app under its key by an edit of it. *)
Lemma write_apart k cur new w :
  quiet w → stored w !! k = Some cur → obj_meta new = obj_meta cur →
  (∀ d, d ≠ "" → claims d new = true → claims d cur = true ∨
     ∀ k' a, k' ≠ k → stored w !! k' = Some a → claims d a = false) →
  quiet (kupdate new w).1 ∧ (apart (stored w) → apart (stored (kupdate new w).1)) ∧
  (∀ e, (kupdate new w).2 = Some e → IsConflict e = false).
Proof.
  intros Hq Hk Hm Hn. pose proof (kstore_key _ _ _ Hk) as Hkey.
  assert (obj_key new = k) as Hnk by (unfold obj_key in *; by rewrite Hm).
  destruct (kupdate_quiet new w cur Hq) as (w1 & rv & Hq1 & -> & Hs1); [by rewrite Hnk|unfold obj_rv; by rewrite Hm|].
  split; [done|]. split; [|done]. simpl. rewrite Hs1, Hnk. intros Ha. apply apart_insert; [done|].
  intros d Hd Hc k' a Hne Hk'. destruct (Hn d Hd Hc) as [Hcur|Hfree]; [|by eapply Hfree].
  by apply (Ha k k' cur a d).
Qed.

Lemma attempts_keep (attempt : W * list string → (W * list string) * option error) w :
  (∀ s, s.1 = w → quiet w → quiet (attempt s).1.1 ∧ (apart (stored w) → apart (stored (attempt s).1.1)) ∧
     ∀ e, (attempt s).2 = Some e → IsConflict e = false) →
  keeps_apart w (edit_domains attempt w).1.
Proof.
  intros Hat Hq. unfold edit_domains. rewrite retry_on_conflict_spec. destruct (Hat (w, []) eq_refl Hq) as (Hq' & Ha & Hc).
  destruct (attempt (w, [])) as [[w1 custom] err] eqn:E.
  rewrite (retry_loop_once _ _ _ _ _ E) by (intros e ->; by apply Hc). done.
Qed.

Lemma add_keeps k envName d w :
  (∀ k' a, k' ≠ k → stored w !! k' = Some a → claims d a = false) →
  keeps_apart w (edit_domains (add_attempt k envName d) w).1.
Proof.
  intros Hfree. apply attempts_keep. intros [w0 c0] Hw Hq. simpl in Hw. subst w0. unfold add_attempt.
  destruct (kget_quiet (Obj := App) k w Hq) as (w1 & Hq1 & Hs1 & Hg).
  destruct (stored w !! k) as [cur|] eqn:Ek.
  2: { destruct Hg as (e & -> & He). simpl. rewrite Hs1. split; [done|]. split; [done|]. intros e' [= <-].
       unfold IsNotFound, IsConflict, is_reason in *. case_bool_decide; [|done]. apply bool_decide_eq_false. congruence. }
  rewrite Hg. cbv zeta. destruct (has_domain d (custom_of cur envName)); [simpl; by rewrite Hs1|].
  destruct (write_apart k cur (ensureEnvironment envName (on_custom (λ l, l ++ [d])) cur) w1 Hq1) as (Hq2 & Ha & Hc).
  - by rewrite Hs1.
  - done.
  - intros d' Hd' Hcl. rewrite Hs1. destruct (decide (d' = d)) as [->|Hne]; [by right|left].
    apply (claims_ensure d' envName (λ l, l ++ [d])); [|done|done]. intros l [->|H]%has_domain_app; done.
  - destruct (kupdate _ w1) as [w2 err]. simpl in *. rewrite Hs1 in Ha. done.
Qed.

Lemma remove_keeps k envName d w : keeps_apart w (edit_domains (remove_attempt k envName d) w).1.
Proof.
  apply attempts_keep. intros [w0 c0] Hw Hq. simpl in Hw. subst w0. unfold remove_attempt.
  destruct (kget_quiet (Obj := App) k w Hq) as (w1 & Hq1 & Hs1 & Hg).
  destruct (stored w !! k) as [cur|] eqn:Ek.
  2: { destruct Hg as (e & -> & He). simpl. rewrite Hs1. split; [done|]. split; [done|]. intros e' [= <-].
       unfold IsNotFound, IsConflict, is_reason in *. case_bool_decide; [|done]. apply bool_decide_eq_false. congruence. }
  rewrite Hg. cbv zeta. destruct (findEnvironment cur envName) as [e|]; [|simpl; by rewrite Hs1].
  destruct (has_domain d (Environment_CustomDomains e)); [|simpl; by rewrite Hs1].
  destruct (write_apart k cur (ensureEnvironment envName (on_custom (remove_first d)) cur) w1 Hq1) as (Hq2 & Ha & Hc).
  - by rewrite Hs1.
  - done.
  - intros d' Hd' Hcl. left. apply (claims_ensure d' envName (remove_first d)); [|done|done].
    intros l. apply has_domain_remove.
  - destruct (kupdate _ w1) as [w2 err]. simpl in *. rewrite Hs1 in Ha. done.
Qed.

Lemma claim_keeps app envName d w : keeps_apart w (claim_domain details app envName d w).1.
Proof.
  unfold claim_domain, mbind, H_bind. rewrite try_eq. intros Hq.
  destruct (klist_quiet (Obj := App) "" ∅ w Hq) as (w1 & l & Hq1 & Hs1 & Hl & _ & Hin). rewrite Hl.
  destruct (first_claim (same_app app) d l) as [[other e]|] eqn:Ef; cbn [taken]; [simpl; by rewrite Hs1|].
  cbn [mret H_ret]. rewrite try_eq.
  destruct (add_keeps (app_key app) envName d w1) as [Hq2 Ha]; [|done|].
  - rewrite Hs1. intros k' a Hne Hk'. pose proof (kstore_key _ _ _ Hk') as Hkey.
    apply (first_claim_none _ _ _ Ef a).
    { apply Hin. split; [|by rewrite Hkey]. unfold selected. simpl. apply bool_decide_eq_true, map_empty_subseteq. }
    unfold same_app. apply not_true_iff_false.
    intros [?%String.eqb_eq ?%String.eqb_eq]%andb_true_iff. apply Hne. rewrite <-Hkey. unfold app_key, obj_key. simpl. congruence.
  - rewrite Hs1 in Ha. by destruct (edit_domains _ w1).
Qed.

Lemma record_apart {B} r project action kind name msg actor :
  reads (B := B) keeps_apart (recordActivity now ctx activityStore r project action kind name msg actor).
Proof.
  intros w. destruct (recordActivity_frame (B := B) now ctx activityStore keeps_apart r project action kind name msg actor w)
    as (w' & -> & H). exact H.
Qed.

Local Abbreviation apart_h h := (∀ w, keeps_apart w (h w).1).

(** C26: Without other writers the four handlers of domains keep the domains of apps apart:
    if no two apps claim one domain, as it is written, in their specifications, none do
    after the request, whatever it asks for. *)
Theorem domains_stay_apart r :
  apart_h (ListDomains details r) ∧
  apart_h (AddDomain details json_error now ctx activityStore r) ∧
  apart_h (RemoveDomain details now ctx activityStore r) ∧
  apart_h (ValidateDomain details json_error r).
Proof.
  split_and!.
  - change (reads keeps_apart (ListDomains details r)). unfold ListDomains, resolveAppEnv, getProject. reads.
  - change (reads keeps_apart (AddDomain details json_error now ctx activityStore r)). unfold AddDomain, resolveAppEnv, getProject.
    repeat first [apply record_apart|intros w; apply claim_keeps|reads_step].
  - change (reads keeps_apart (RemoveDomain details now ctx activityStore r)). unfold RemoveDomain, resolveAppEnv, getProject.
    repeat first [apply record_apart|apply remove_keeps|reads_step].
  - change (reads keeps_apart (ValidateDomain details json_error r)). unfold ValidateDomain. reads.
Qed.
End apart.

(** ** Runs *)

Module DomainRuns.
Definition details : error → option (string * string) := λ _, None.
Definition now : cluster → Time := λ _, 1770000000000000000%Z.
Definition ctx : nat → option error := λ _, None.
#[local] Instance domain_retry : KubeRetry (cluster * list string) := retry_loop default_retry_steps.
#[local] Instance domain_retry_ok : KubeRetryOk (cluster * list string).
Proof. intros fn w. reflexivity. Qed.

Definition project_env (name : string) : ProjectEnvironment := with_ProjectEnvironment_Name name ProjectEnvironment_zero.
Definition shop : Project :=
  with_Project_Spec (with_ProjectSpec_Environments [project_env "production"; project_env "staging"] ProjectSpec_zero)
    (with_Project_ObjectMeta (with_name "shop" ObjectMeta_zero) Project_zero).

(** An app with custom domains in production. *)
Definition app (name : string) (domains : list string) : App :=
  with_App_Spec (with_AppSpec_Environments
      [with_Environment_CustomDomains domains (with_Environment_Name "production" Environment_zero)] AppSpec_zero)
    (with_App_ObjectMeta (with_name name (with_namespace "pj-shop" ObjectMeta_zero)) App_zero).

Definition world (l : list App) (pending : list (Sim.event App)) : cluster :=
  {| cl_projects := stored_now [shop]; cl_members := nothing; cl_apps := Sim.World (Sim.Put <$> l) pending;
     cl_previews := nothing; cl_secrets := nothing; cl_configmaps := nothing;
     cl_namespaces := nothing; cl_rolebindings := nothing; cl_buildruns := nothing |}.

Definition request_of (name env domain body : string) : request :=
  {| rq_principal := Some {| Principal_ID := "1"; Principal_Email := "root@acme.io";
                             Principal_Role := RoleAdmin; Principal_PasswordGen := 0 |};
     rq_params := {["project" := "shop"; "app" := name; "domain" := domain]}; rq_query := {["environment" := env]};
     rq_header := ∅; rq_body := inr body |}.

(** JSON written with single quotes. *)
Definition json_text (s : string) : string := replace_all s "'" (String dquote "").

Definition add_request (name env domain : string) : request :=
  request_of name env "" (json_text ("{'domain':'" +:+ domain +:+ "'}")).
Definition add (name env domain : string) : H cluster domain_body Empty_set :=
  AddDomain details id now ctx true (add_request name env domain).
Definition remove (name env domain : string) : H cluster domain_body Empty_set :=
  RemoveDomain details now ctx true (request_of name env domain "").

Definition answer {A} (r : reply domain_body + A) : option (Z * list string) :=
  match r with
  | inl rep => Some (rp_code rep, match rp_body rep with inr (DomainsBody d) => do_Custom d | _ => [] end)
  | inr _ => None
  end.

Definition of_apps (l : list App) : list (string * list string) :=
  (λ a, (meta_Name (App_ObjectMeta a), concat (Environment_CustomDomains <$> AppSpec_Environments (App_Spec a)))) <$> l.
Definition stored_apps (w : cluster) : list (string * list string) := of_apps ((map_to_list (kstore (Obj := App) w)).*2).

Definition two : list App := [app "web" ["a.io"]; app "api" ["b.io"]].

Example domain_answers :
  answer (add "web" "production" "c.io" (world two [])).2 = Some (200%Z, ["a.io"; "c.io"]) ∧
  answer (add "web" "production" "b.io" (world two [])).2 = Some (409%Z, []) ∧
  answer (add "web" "production" "a.io" (world two [])).2 = Some (409%Z, []) ∧
  answer (add "web" "production" "-a.io" (world two [])).2 = Some (400%Z, []) ∧
  answer (remove "web" "production" "a.io" (world two [])).2 = Some (200%Z, []) ∧
  answer (remove "web" "production" "b.io" (world two [])).2 = Some (404%Z, []).
Proof. vm_compute. split_and!; reflexivity. Qed.

(** The other environments of the app are not asked: a domain goes to two of them. *)
Example twice_in_one_app :
  answer (add "web" "staging" "a.io" (world two [])).2 = Some (200%Z, ["a.io"]).
Proof. vm_compute. reflexivity. Qed.

(** Domains are compared as written: a name in capitals counts as another one. *)
Example capitals_differ :
  answer (add "web" "production" "B.io" (world two [])).2 = Some (200%Z, ["a.io"; "B.io"]).
Proof. vm_compute. reflexivity. Qed.

(** The check for collisions is not repeated when the edit is: an app that comes to claim
    the domain in between shares it. *)
Example shared_domain :
  let w := world two [Sim.Calm; Sim.Calm; Sim.External (Sim.Put (app "api" ["b.io"; "c.io"]))] in
  stored_apps (add "web" "production" "c.io" w).1 = [("web", ["a.io"; "c.io"]); ("api", ["b.io"; "c.io"])].
Proof. vm_compute. reflexivity. Qed.

Definition env_domains (e : Environment) : list string := Environment_Domain e :: Environment_CustomDomains e.
Definition domains_of (a : App) : list string := concat (env_domains <$> AppSpec_Environments (App_Spec a)).

Lemma claims_domains d a : claims d a = true → d ∈ domains_of a.
Proof.
  unfold claims, domains_of. rewrite existsb_exists. intros (e & He & Hc). apply list_elem_of_In, in_concat.
  exists (env_domains e). split; [by apply (in_map env_domains)|]. apply list_elem_of_In. unfold env_domains.
  apply orb_true_iff in Hc as [->%String.eqb_eq|Hc%has_domain_spec]; [by left|by right].
Qed.

Lemma two_apart : apart (kstore (Obj := App) (world two [])).
Proof.
  set (m := kstore (Obj := App) _).
  assert (prod_map id domains_of <$> map_to_list m =
    [(("pj-shop", "web"), [""; "a.io"]); (("pj-shop", "api"), [""; "b.io"])]) as Hm by (vm_compute; reflexivity).
  assert (∀ k a, m !! k = Some a → (k, domains_of a) ∈ prod_map id domains_of <$> map_to_list m) as Hin.
  { intros k a H. apply list_elem_of_fmap. exists (k, a). split; [done|by apply elem_of_map_to_list]. }
  clearbody m. rewrite Hm in Hin. intros k1 k2 a1 a2 d Hne H1%Hin H2%Hin Hd Hc%claims_domains. apply not_true_iff_false.
  intros Hc'%claims_domains. rewrite !elem_of_cons, elem_of_nil in H1, H2.
  destruct H1 as [[= -> H1]|[[= -> H1]|[]]], H2 as [[= -> H2]|[[= -> H2]|[]]]; try done.
  all: rewrite H1, !elem_of_cons, elem_of_nil in Hc; rewrite H2, !elem_of_cons, elem_of_nil in Hc'; naive_solver.
Qed.

Lemma domains_stay_apart_witness :
  apart (kstore (Obj := App) (world two [])) ∧
  apart (kstore (Obj := App) (add "web" "production" "c.io" (world two [])).1).
Proof.
  split; [exact two_apart|].
  exact (proj2 (proj1 (proj2 (domains_stay_apart details id now ctx true (add_request "web" "production" "c.io")))
    (world two []) eq_refl) two_apart).
Defined.
End DomainRuns.
