(* ===== verification/ApiApps.v ===== *)
(** * Apps and deploy tokens: [internal/api/apps.go], [tokens.go] and [deploy.go]

    The handlers that make, change and delete apps, the deploy tokens of continuous
    integration, and the deploy webhook, which takes either a session or a token.  The
    decoding of the fields of an app specification by their tags is a parameter, a table of
    fields; an answer carries an object as it was sent. *)

From S2P Require Import Prelude GoStrings Sha256 GoTime GoText Json JsonStruct Kube Core Api Constants Authz ApiServer.

Definition deployTokenPrefix : string := "mrt_".
Definition projectDeployTokenPrefix : string := "mrt_pj_".
Definition maxAppNameLen : Z := 53.
Definition maxEnvNameLen : Z := 63.

(** ** Requests *)

Record createAppRequest := { ca_Name : string; ca_Spec : AppSpec }.
Record deployRequest := { dr_Environment : string; dr_Image : string }.
Record createTokenRequest := { ct_Environment : string; ct_Name : string }.
Record createProjectTokenRequest := { cp_Description : string }.
Record tokenResponse := { tr_Token : string; tr_Name : string; tr_Environment : string; tr_CreatedAt : string }.
Record projectTokenResponse := { pt_Name : string; pt_Description : string; pt_CreatedAt : string }.

Definition decode_deploy : decoder deployRequest := struct
  [("environment", string_field (λ v q, {| dr_Environment := v; dr_Image := dr_Image q |}));
   ("image", string_field (λ v q, {| dr_Environment := dr_Environment q; dr_Image := v |}))].

Definition decode_create_token : decoder createTokenRequest := struct
  [("environment", string_field (λ v q, {| ct_Environment := v; ct_Name := ct_Name q |}));
   ("name", string_field (λ v q, {| ct_Environment := ct_Environment q; ct_Name := v |}))].

Definition decode_project_token : decoder createProjectTokenRequest := struct
  [("description", string_field (λ v _, {| cp_Description := v |}))].

Section create_request.
(** The fields of an app specification by their names in JSON. *)
Context (AppSpec_fields : list (string * decoder AppSpec)).

Definition decode_spec : decoder AppSpec := struct AppSpec_fields.

Definition source_type (spec : AppSpec) : string := AppSource_Type (AppSpec_Source spec).

(** [{"name": ..., "spec": {...}}] *)
Definition decode_wrapped : decoder createAppRequest := struct
  [("name", string_field (λ v q, {| ca_Name := v; ca_Spec := ca_Spec q |}));
   ("spec", sub_field ca_Spec (λ v q, {| ca_Name := ca_Name q; ca_Spec := v |}) decode_spec)].

(** The flat form: the fields of the specification beside the name; a [spec] is read too. *)
Record flat_request := { fr_Name : string; fr_Spec : AppSpec; fr_AppSpec : AppSpec }.

Definition embedded (f : string * decoder AppSpec) : string * decoder flat_request :=
  (f.1, λ v q, s ← f.2 v (fr_AppSpec q); Some {| fr_Name := fr_Name q; fr_Spec := fr_Spec q; fr_AppSpec := s |}).

Definition decode_flat : decoder flat_request := struct
  ([("name", string_field (λ v q, {| fr_Name := v; fr_Spec := fr_Spec q; fr_AppSpec := fr_AppSpec q |}));
    ("spec", sub_field fr_Spec (λ v q, {| fr_Name := fr_Name q; fr_Spec := v; fr_AppSpec := fr_AppSpec q |}) decode_spec)]
   ++ (embedded <$> AppSpec_fields)).

(** [UnmarshalJSON]: the request decoded from a value. *)
Definition UnmarshalJSON (v : json) : option createAppRequest :=
  w ← decode_wrapped v {| ca_Name := ""; ca_Spec := AppSpec_zero |};
  if negb (String.eqb (source_type (ca_Spec w)) "") then Some w
  else
    flat ← decode_flat v {| fr_Name := ""; fr_Spec := AppSpec_zero; fr_AppSpec := AppSpec_zero |};
    Some {| ca_Name := fr_Name flat;
            ca_Spec := if negb (String.eqb (source_type (fr_AppSpec flat)) "") then fr_AppSpec flat else fr_Spec flat |}.
End create_request.

(** ** Answers *)

Inductive app_body :=
| AppBody (app : App)
| AppsBody (apps : list App)
| TokenBody (t : tokenResponse)
| TokensBody (l : list tokenResponse)
| ProjectTokensBody (l : list projectTokenResponse)
| StatusBody (l : list (string * string))
| NoContent.

(** ** Apps *)

(** What a deploy does to the app: the image of the environment, or that of the source. *)
Definition deployed (req : deployRequest) (app : App) : App :=
  if negb (String.eqb (dr_Environment req) "")
  then ensureEnvironment (dr_Environment req) (with_Environment_Image (dr_Image req)) app
  else with_App_Spec (with_AppSpec_Source (with_AppSource_Image (dr_Image req) (AppSpec_Source (App_Spec app)))
                        (App_Spec app)) app.

Definition not_enabled (app : App) (env : string) : string :=
  sprintf "app %q is not enabled in environment %q" [meta_Name (App_ObjectMeta app); env].

Fixpoint env_name_msgs (i : nat) (envs : list Environment) : list string :=
  match envs with
  | [] => []
  | env :: envs =>
    validateDNSLabel (sprintf "environments[%d].name" [itoa (Z.of_nat i)]) (Environment_Name env) maxEnvNameLen
      :: env_name_msgs (S i) envs
  end.

(** The first message, if any. *)
Definition first_msg (l : list string) : string := default "" (List.find (λ m, negb (String.eqb m "")) l).

Definition app_token_labels (appName env name : string) : gmap string string :=
  {["mortise.dev/deploy-token" := "true"; "mortise.dev/app" := appName; "mortise.dev/environment" := env;
    "mortise.dev/token-name" := name]}.

Definition project_token_labels (projectName : string) : gmap string string :=
  {["mortise.dev/deploy-token" := "true"; "mortise.dev/project" := projectName; "mortise.dev/project-token" := "true"]}.

(** The Secret of a token, which holds its hash. *)
Definition token_secret (ns name : string) (labels data : gmap string string) : Secret :=
  {| sec_meta := with_labels labels (with_name name (with_namespace ns ObjectMeta_zero));
     sec_Type := ""; sec_Data := data |}.

Definition app_token_name (appName tokenName : string) : string :=
  sprintf "deploy-token-%s-%s" [appName; tokenName].

Definition created_at (m : ObjectMeta) : string :=
  if (meta_CreationTimestamp m =? 0)%Z then "" else format_rfc3339 (meta_CreationTimestamp m).

Definition bearer (r : request) : option string :=
  let header := map_get (rq_header r) "Authorization" in
  if String.eqb header "" || negb (has_prefix "Bearer " header) then None else Some (trim_prefix "Bearer " header).

(** The project in a project token. *)
Definition token_project (token : string) : option string :=
  let rest := trim_prefix projectDeployTokenPrefix token in
  match last_index_char "_"%char rest with
  | Some (S i) => Some (str_take (S i) rest)
  | _ => None
  end.

(** The token whose hash is stored. *)
Definition matching (stored : Secret → string) (token : string) (secrets : list Secret) : option Secret :=
  List.find (λ sec, String.eqb (stored sec) (sha256_hex token)) secrets.

Definition stored_hash (sec : Secret) : string := map_get (sec_Data sec) "token-hash".
Definition stored_project_hash (sec : Secret) : string :=
  let stored := stored_hash sec in if String.eqb stored "" then map_get (sec_Data sec) "token_hash" else stored.

Section handlers.
Context {W : Type} {CP : KubeClient W Project} {CM : KubeClient W ProjectMember} {CC : KubeClient W ConfigMap}
  {CA : KubeClient W App} {CS : KubeClient W Secret} {CG : KubeClient W GitProvider}
  {LA : KubeListIn W App} {LS : KubeListIn W Secret} {LG : KubeListIn W GitProvider}
  {DA : KubeDelete W App} {DS : KubeDelete W Secret} {KR : KubeRetry W}.
Context (AppSpec_fields : list (string * decoder AppSpec)).
(** [rand.Read]: so many random bytes. *)
Context (rand_read : nat → W → W * (error + list N)).
(** The creation time in the answer of the API server to a creation. *)
Context (creation_time : NamespacedName → W → Time).
Context (details : error → option (string * string)) (json_error : string → string)
  (now : W → Time) (ctx : nat → option error) (activityStore : bool).

Local Abbreviation handler := (H W app_body Empty_set).
Local Abbreviation record_ := (recordActivity now ctx activityStore).

Definition app_resource (projectName env : string) (ns : string) : Resource :=
  {| Resource_Kind := "app"; Resource_Namespace := ns; Resource_Name := "";
     Resource_Project := projectName; Resource_Environment := env |}.
Definition token_resource (projectName ns : string) : Resource :=
  {| Resource_Kind := "token"; Resource_Namespace := ns; Resource_Name := "";
     Resource_Project := projectName; Resource_Environment := "" |}.

Definition provider_host (gp : GitProvider) : string :=
  trim_right (Ascii.eqb "/") (GitProviderSpec_Host (GitProvider_Spec gp)).

Definition normalizeRepoURL (providerRef repo : string) (w : W) : W * string :=
  if has_prefix "http://" repo || has_prefix "https://" repo then (w, repo)
  else
    let '(w, host) :=
      if negb (String.eqb providerRef "") then
        match kget (Obj := GitProvider) ("", providerRef) w with
        | (w, inr gp) => (w, provider_host gp)
        | (w, inl _) => (w, "https://github.com")
        end
      else
        match klist_in (Obj := GitProvider) "" ∅ w with
        | (w, inr (gp :: _)) => (w, provider_host gp)
        | (w, _) => (w, "https://github.com")
        end in
    let url := host +:+ "/" +:+ repo in
    (w, if has_suffix ".git" url then url else url +:+ ".git").

(** The repository of a git source is stored as a URL. *)
Definition normalized_spec (spec : AppSpec) : H W app_body AppSpec :=
  if String.eqb (source_type spec) SourceTypeGit then
    url ← call (normalizeRepoURL (AppSource_ProviderRef (AppSpec_Source spec)) (AppSource_Repo (AppSpec_Source spec)));
    mret (with_AppSpec_Source (with_AppSource_Repo url (AppSpec_Source spec)) spec)
  else mret spec.

Definition new_app (r : request) (ns name : string) (spec : AppSpec) : App :=
  let annotations : gmap string string :=
    match rq_principal r with Some p => {["mortise.dev/created-by" := Principal_Email p]} | None => ∅ end in
  with_App_Spec spec (with_App_ObjectMeta
    (with_finalizers [AppFinalizer] (with_annotations annotations (with_name name (with_namespace ns ObjectMeta_zero))))
    App_zero).

Definition CreateApp (r : request) : handler :=
  '(ns, projectName) ← resolveProject details r;
  _ ← authorize r (app_resource projectName "" ns) ActionCreate;
  req ← decode_body json_error r (λ body, v ← first_value body; UnmarshalJSON AppSpec_fields v);
  _ ← validate (validateDNSLabel "name" (ca_Name req) maxAppNameLen);
  _ ← validate (first_msg (env_name_msgs 0 (AppSpec_Environments (ca_Spec req))));
  spec ← normalized_spec (ca_Spec req);
  let app := new_app r ns (ca_Name req) spec in
  existing ← call (kget (Obj := App) (ns, ca_Name req));
  _ ← (match existing with
       | inr existing =>
         match meta_DeletionTimestamp (App_ObjectMeta existing) with
         | Some _ => fail StatusConflict
             (sprintf "app %q is still terminating; wait for deletion to complete before recreating it" [ca_Name req])
         | None => mret tt
         end
       | inl err => if IsNotFound err then mret tt else writeError details err
       end);
  _ ← do_ details (kcreate app);
  _ ← record_ r projectName "create" "app" (ca_Name req) ("Created app " +:+ ca_Name req) "";
  writeJSON StatusCreated (AppBody app).

Definition ListApps (r : request) : handler :=
  '(ns, projectName) ← resolveProject details r;
  _ ← authorize r (app_resource projectName "" ns) ActionRead;
  apps ← try_ details (klist_in ns ∅);
  writeJSON StatusOK (AppsBody apps).

Definition GetApp (r : request) : handler :=
  '(ns, projectName) ← resolveProject details r;
  _ ← authorize r (app_resource projectName "" ns) ActionRead;
  app ← try_ details (kget (ns, URLParam r "app"));
  writeJSON StatusOK (AppBody app).

(** Reads the app, edits it and writes it, again while it conflicts; the app that was
    written. *)
Definition edit_app {KRA : KubeRetry (W * App)} (key : NamespacedName) (edit : App → App) (w : W) : W * (error + App) :=
  let '((w, app), err) := RetryOnConflict (λ '(w, app),
    match kget key w with
    | (w, inl err) => ((w, app), Some err)
    | (w, inr app) => let '(w, err) := kupdate (edit app) w in ((w, edit app), err)
    end) (w, App_zero) in
  (w, match err with Some err => inl err | None => inr app end).

Definition UpdateApp {KRA : KubeRetry (W * App)} (r : request) : handler :=
  '(ns, projectName) ← resolveProject details r;
  _ ← authorize r (app_resource projectName "" ns) ActionUpdate;
  let name := URLParam r "app" in
  spec ← decode_body json_error r (body_of (decode_spec AppSpec_fields) AppSpec_zero);
  _ ← validate (first_msg (env_name_msgs 0 (AppSpec_Environments spec)));
  spec ← normalized_spec spec;
  app ← try_ details (edit_app (ns, name) (with_App_Spec spec));
  let name := meta_Name (App_ObjectMeta app) in
  _ ← record_ r projectName "update" "app" name ("Updated app " +:+ name) "";
  writeJSON StatusOK (AppBody app).

Definition ignore_not_found (f : W → W * option error) (w : W) : W * option error :=
  match f w with
  | (w, Some err) => if IsNotFound err then (w, None) else (w, Some err)
  | (w, None) => (w, None)
  end.

Definition deleteAppDeployTokens (ns appName : string) : W → W * option error :=
  err_of (
    tokens ← klist_in ns {["mortise.dev/deploy-token" := "true"; "mortise.dev/app" := appName]} : E W (list Secret);
    for_each (λ sec, run (ignore_not_found (kdelete Secret (obj_key sec)))) tokens).

Definition DeleteApp (r : request) : handler :=
  project ← getProject details r;
  let ns := projectNs project in
  let projectName := project_name project in
  _ ← authorize r (app_resource projectName "" ns) ActionDelete;
  app ← try_ details (kget (Obj := App) (ns, URLParam r "app"));
  let name := meta_Name (App_ObjectMeta app) in
  let firstDelete := negb (bool_decide (is_Some (meta_DeletionTimestamp (App_ObjectMeta app)))) in
  _ ← (if firstDelete then do_ details (kdelete App (obj_key app)) else mret tt);
  _ ← do_ details (deleteAppDeployTokens ns name);
  _ ← (if firstDelete then record_ r projectName "delete" "app" name ("Deleted app " +:+ name) "" else mret tt);
  writeJSON StatusAccepted (StatusBody [("status", "terminating"); ("app", name)]).

(** ** Tokens of an app *)

Definition CreateToken (r : request) : handler :=
  project ← getProject details r;
  let ns := projectNs project in
  let projectName := project_name project in
  _ ← authorize r (token_resource projectName ns) ActionCreate;
  let appName := URLParam r "app" in
  req ← decode_body json_error r (body_of decode_create_token {| ct_Environment := ""; ct_Name := "" |});
  _ ← require (negb (String.eqb (ct_Name req) "")) StatusBadRequest "name is required";
  _ ← validate (validateDNSLabel "name" (ct_Name req) 63);
  _ ← require (negb (String.eqb (ct_Environment req) "")) StatusBadRequest "environment is required";
  _ ← require (negb (indexOfEnv project (ct_Environment req) <? 0)%Z) StatusBadRequest
        (undeclared_env project (ct_Environment req));
  app ← try_ details (kget (Obj := App) (ns, appName));
  _ ← require (appParticipatesInEnv app (ct_Environment req)) StatusNotFound (not_enabled app (ct_Environment req));
  raw ← call (rand_read 32);
  match raw with
  | inl _ => fail StatusInternalServerError "failed to generate token"
  | inr raw =>
    let token := deployTokenPrefix +:+ Sha256.hex_encode raw in
    _ ← do_ details (kcreate (token_secret ns (app_token_name appName (ct_Name req))
          (app_token_labels appName (ct_Environment req) (ct_Name req)) {["token-hash" := sha256_hex token]}));
    _ ← record_ r projectName "create" "token" (ct_Name req)
          ("Created deploy token " +:+ ct_Name req +:+ " for " +:+ appName +:+ " in " +:+ ct_Environment req) "";
    writeJSON StatusCreated (TokenBody {| tr_Token := token; tr_Name := ct_Name req;
                                          tr_Environment := ct_Environment req; tr_CreatedAt := "" |})
  end.

Definition token_info (sec : Secret) : tokenResponse :=
  {| tr_Token := ""; tr_Name := map_get (sec_Labels sec) "mortise.dev/token-name";
     tr_Environment := map_get (sec_Labels sec) "mortise.dev/environment"; tr_CreatedAt := created_at (sec_meta sec) |}.

Definition ListTokens (r : request) : handler :=
  '(ns, projectName) ← resolveProject details r;
  _ ← authorize r (token_resource projectName ns) ActionRead;
  let appName := URLParam r "app" in
  _ ← try_ details (kget (Obj := App) (ns, appName));
  secrets ← try_ details (klist_in ns {["mortise.dev/deploy-token" := "true"; "mortise.dev/app" := appName]});
  writeJSON StatusOK (TokensBody (token_info <$> secrets)).

Definition DeleteToken (r : request) : handler :=
  '(ns, projectName) ← resolveProject details r;
  _ ← authorize r (token_resource projectName ns) ActionDelete;
  let appName := URLParam r "app" in
  let tokenName := URLParam r "tokenName" in
  secret ← try_ details (kget (Obj := Secret) (ns, app_token_name appName tokenName));
  _ ← require (String.eqb (map_get (sec_Labels secret) "mortise.dev/deploy-token") "true") StatusNotFound "token not found";
  _ ← do_ details (kdelete Secret (obj_key secret));
  _ ← record_ r projectName "delete" "token" tokenName ("Revoked deploy token " +:+ tokenName +:+ " for " +:+ appName) "";
  writeJSON StatusOK (StatusBody [("status", "revoked")]).

(** Whether the token of the request is valid for the app and the environment, and its
    name. *)
Definition validateDeployToken (r : request) (ns appName env : string) (w : W) : W * (bool * string) :=
  match bearer r with
  | None => (w, (false, ""))
  | Some token =>
    if negb (has_prefix deployTokenPrefix token) then (w, (false, ""))
    else
      match klist_in ns {["mortise.dev/deploy-token" := "true"; "mortise.dev/app" := appName;
                          "mortise.dev/environment" := env]} w with
      | (w, inl _) => (w, (false, ""))
      | (w, inr secrets) =>
        match matching stored_hash token secrets with
        | Some sec =>
          let name := map_get (sec_Labels sec) "mortise.dev/token-name" in
          (w, (true, if String.eqb name "" then meta_Name (sec_meta sec) else name))
        | None => (w, (false, ""))
        end
      end
  end.

(** ** Tokens of a project *)

Definition validateProjectDeployToken (r : request) (ns projectName : string) (w : W) : W * (bool * string) :=
  match bearer r with
  | None => (w, (false, ""))
  | Some token =>
    if negb (has_prefix projectDeployTokenPrefix token) then (w, (false, ""))
    else
      match token_project token with
      | None => (w, (false, ""))
      | Some tokenProject =>
        if negb (String.eqb tokenProject projectName) then (w, (false, ""))
        else
          match klist_in ns {["mortise.dev/deploy-token" := "true"; "mortise.dev/project-token" := "true"]} w with
          | (w, inl _) => (w, (false, ""))
          | (w, inr secrets) =>
            match matching stored_project_hash token secrets with
            | Some sec => (w, (true, meta_Name (sec_meta sec)))
            | None => (w, (false, ""))
            end
          end
      end
  end.

Definition CreateProjectToken (r : request) : handler :=
  '(ns, projectName) ← resolveProject details r;
  _ ← authorize r (token_resource projectName ns) ActionCreate;
  req ← decode_body json_error r (body_of decode_project_token {| cp_Description := "" |});
  raw ← call (rand_read 32);
  match raw with
  | inl _ => fail StatusInternalServerError "failed to generate token"
  | inr raw =>
    let token := projectDeployTokenPrefix +:+ projectName +:+ "_" +:+ Sha256.hex_encode raw in
    suffix ← call (rand_read 4);
    match suffix with
    | inl _ => fail StatusInternalServerError "failed to generate token"
    | inr suffix =>
      let secretName := sprintf "deploy-token-pj-%s" [Sha256.hex_encode suffix] in
      let secret := token_secret ns secretName (project_token_labels projectName)
        {["token-hash" := sha256_hex token; "description" := cp_Description req; "project" := projectName]} in
      _ ← do_ details (kcreate secret);
      t ← call (λ w, (w, creation_time (ns, secretName) w));
      _ ← record_ r projectName "create" "token" secretName ("Created project deploy token " +:+ secretName) "";
      writeJSON StatusCreated (TokenBody {| tr_Token := token; tr_Name := secretName; tr_Environment := "";
                                            tr_CreatedAt := format_rfc3339 t |})
    end
  end.

Definition project_token_info (sec : Secret) : projectTokenResponse :=
  {| pt_Name := meta_Name (sec_meta sec); pt_Description := map_get (sec_Data sec) "description";
     pt_CreatedAt := created_at (sec_meta sec) |}.

Definition ListProjectTokens (r : request) : handler :=
  '(ns, projectName) ← resolveProject details r;
  _ ← authorize r (token_resource projectName ns) ActionRead;
  secrets ← try_ details (klist_in ns {["mortise.dev/deploy-token" := "true"; "mortise.dev/project-token" := "true"]});
  writeJSON StatusOK (ProjectTokensBody (project_token_info <$> secrets)).

Definition DeleteProjectToken (r : request) : handler :=
  '(ns, projectName) ← resolveProject details r;
  _ ← authorize r (token_resource projectName ns) ActionDelete;
  let tokenName := URLParam r "tokenName" in
  secret ← try_ details (kget (Obj := Secret) (ns, tokenName));
  _ ← require (String.eqb (map_get (sec_Labels secret) "mortise.dev/project-token") "true")
        StatusNotFound "project token not found";
  _ ← do_ details (kdelete Secret (obj_key secret));
  _ ← record_ r projectName "delete" "token" tokenName ("Revoked project deploy token " +:+ tokenName) "";
  writeJSON StatusNoContent NoContent.

(** ** Deploying *)

(** Access by a session or by a token; the name the activity is recorded under. *)
Definition deploy_access (r : request) (ns projectName appName env : string) : H W app_body string :=
  match rq_principal r with
  | Some _ => _ ← authorize r (app_resource projectName env ns) ActionUpdate; mret ""
  | None =>
    let token := trim_prefix "Bearer " (map_get (rq_header r) "Authorization") in
    if negb (has_prefix deployTokenPrefix token) then fail StatusUnauthorized "missing or invalid authorization"
    else if has_prefix projectDeployTokenPrefix token then
      '(ok, tokenName) ← call (validateProjectDeployToken r ns projectName);
      if (ok : bool) then mret ("token:" +:+ tokenName) else fail StatusUnauthorized "invalid deploy token"
    else if String.eqb env "" then fail StatusBadRequest "environment is required when using a deploy token"
    else
      '(ok, tokenName) ← call (validateDeployToken r ns appName env);
      if (ok : bool) then mret ("token:" +:+ tokenName) else fail StatusUnauthorized "invalid deploy token"
  end.

(** Without an environment a session needs the right for each one the app is part of. *)
Fixpoint authorize_all (r : request) (ns projectName : string) (app : App) (envs : list ProjectEnvironment)
    : H W app_body unit :=
  match envs with
  | [] => mret tt
  | env :: envs =>
    _ ← (if appParticipatesInEnv app (ProjectEnvironment_Name env)
         then authorize r (app_resource projectName (ProjectEnvironment_Name env) ns) ActionUpdate else mret tt);
    authorize_all r ns projectName app envs
  end.

Definition check_env (project : Project) (env : string) : H W app_body unit :=
  if String.eqb env "" then mret tt
  else
    _ ← validate (validateDNSLabel "environment" env 63);
    require (negb (indexOfEnv project env <? 0)%Z) StatusBadRequest (undeclared_env project env).

Definition update_image (key : NamespacedName) (req : deployRequest) : W → W * option error :=
  RetryOnConflict (λ w,
    match kget key w with
    | (w, inl err) => (w, Some err)
    | (w, inr fresh) => kupdate (deployed req fresh) w
    end).

Definition Deploy (r : request) : handler :=
  '(ns, projectName) ← resolveProject details r;
  let appName := URLParam r "app" in
  req ← decode_body json_error r (body_of decode_deploy {| dr_Environment := ""; dr_Image := "" |});
  _ ← require (negb (String.eqb (dr_Image req) "")) StatusBadRequest "image is required";
  actor ← deploy_access r ns projectName appName (dr_Environment req);
  project ← getProject details r;
  _ ← check_env project (dr_Environment req);
  app ← try_ details (kget (Obj := App) (ns, appName));
  _ ← (match rq_principal r with
       | Some _ => if String.eqb (dr_Environment req) ""
                   then authorize_all r ns projectName app (ProjectSpec_Environments (Project_Spec project)) else mret tt
       | None => mret tt
       end);
  _ ← require (String.eqb (dr_Environment req) "" || appParticipatesInEnv app (dr_Environment req)) StatusNotFound
        (not_enabled app (dr_Environment req));
  _ ← do_ details (update_image (ns, appName) req);
  _ ← record_ r projectName "deploy" "app" appName
        (if String.eqb (dr_Environment req) "" then sprintf "Deployed %s" [appName]
         else sprintf "Deployed %s to %s" [appName; dr_Environment req]) actor;
  writeJSON StatusOK (StatusBody [("status", "deployed"); ("app", appName); ("image", dr_Image req)]).
End handlers.
