(* ===== verification/ApiAppsFacts.v ===== *)
(** * Apps and deploy tokens: what the handlers promise

    Who may change an app and deploy an image; what a deploy token opens; the two forms of
    a request that creates an app. *)

From S2P Require Import Prelude GoStrings Sha256 GoTime GoText Json JsonStruct Kube Core Api Constants Authz ApiServer ApiApps.

(** ** The two forms of a request *)

Section forms.
Context (AppSpec_fields : list (string * decoder AppSpec)).

(** A member that is a field of the specification and not of the request around it. *)
Definition spec_member (m : string * json) : Prop :=
  equal_fold m.1 "name" = false ∧ equal_fold m.1 "spec" = false.

Lemma field_named_embedded fields k :
  field_named (embedded <$> fields) k = (λ dec, (embedded (k, dec)).2) <$> field_named fields k.
Proof.
  unfold field_named. induction fields as [|[n dec] fields IH]; [done|]. simpl.
  destruct (equal_fold k n); [done|exact IH].
Qed.

Definition with_flat_spec (q : flat_request) (s : AppSpec) : flat_request :=
  {| fr_Name := fr_Name q; fr_Spec := fr_Spec q; fr_AppSpec := s |}.

(** The fields of the embedded specification are decoded as those of a specification. *)
Lemma decode_flat_members l q :
  Forall spec_member l →
  decode_members ([("name", string_field (λ v q, {| fr_Name := v; fr_Spec := fr_Spec q; fr_AppSpec := fr_AppSpec q |}));
    ("spec", sub_field fr_Spec (λ v q, {| fr_Name := fr_Name q; fr_Spec := v; fr_AppSpec := fr_AppSpec q |})
               (decode_spec AppSpec_fields))] ++ (embedded <$> AppSpec_fields)) l q =
  with_flat_spec q <$> decode_members AppSpec_fields l (fr_AppSpec q).
Proof.
  intros Hl. revert q. induction Hl as [|[k v] l [Hn Hs] Hl IH]; intros q; [by destruct q|].
  cbn [decode_members]. simpl in Hn, Hs.
  assert (field_named ([("name", string_field (λ v q, {| fr_Name := v; fr_Spec := fr_Spec q; fr_AppSpec := fr_AppSpec q |}));
    ("spec", sub_field fr_Spec (λ v q, {| fr_Name := fr_Name q; fr_Spec := v; fr_AppSpec := fr_AppSpec q |})
               (decode_spec AppSpec_fields))] ++ (embedded <$> AppSpec_fields)) k =
    field_named (embedded <$> AppSpec_fields) k) as ->.
  { unfold field_named. cbn [app List.find]. by rewrite Hn, Hs. }
  rewrite field_named_embedded. destruct (field_named AppSpec_fields k) as [dec|]; [|apply IH].
  simpl. destruct (dec v (fr_AppSpec q)) as [s|]; simpl; [|done]. rewrite IH. simpl. by destruct (decode_members _ _ _).
Qed.

(** An app may be created from a specification under [spec] and from one whose fields
    stand beside the name; both give the same request. *)
Theorem request_forms name members spec :
  Forall spec_member members →
  decode_spec AppSpec_fields (JObj members) AppSpec_zero = Some spec → source_type spec ≠ "" →
  UnmarshalJSON AppSpec_fields (JObj [("name", JStr name); ("spec", JObj members)]) =
    Some {| ca_Name := name; ca_Spec := spec |} ∧
  UnmarshalJSON AppSpec_fields (JObj (("name", JStr name) :: members)) =
    Some {| ca_Name := name; ca_Spec := spec |}.
Proof.
  intros Hm Hd Ht. apply String.eqb_neq in Ht. split.
  - unfold UnmarshalJSON, decode_wrapped. cbn [struct decode_members].
    change (field_named _ "name") with (Some (string_field (λ v q, {| ca_Name := v; ca_Spec := ca_Spec q |}))).
    cbn [string_field mbind option_bind ca_Spec].
    change (field_named _ "spec") with (Some (sub_field ca_Spec (λ v q, {| ca_Name := ca_Name q; ca_Spec := v |}) (decode_spec AppSpec_fields))).
    unfold sub_field. cbn [ca_Spec ca_Name]. rewrite Hd. cbn [mbind option_bind ca_Spec ca_Name]. by rewrite Ht.
  - assert (∀ l q, Forall spec_member l → decode_members
      [("name", string_field (λ v q, {| ca_Name := v; ca_Spec := ca_Spec q |}));
       ("spec", sub_field ca_Spec (λ v q, {| ca_Name := ca_Name q; ca_Spec := v |}) (decode_spec AppSpec_fields))] l q = Some q) as Hw.
    { intros l q Hl. induction Hl as [|[k v] l [Hn Hs] Hl IH]; [done|]. cbn [decode_members]. simpl in Hn, Hs.
      unfold field_named. cbn [List.find]. by rewrite Hn, Hs. }
    unfold UnmarshalJSON, decode_wrapped, decode_flat. cbn [struct decode_members].
    change (field_named (_ ++ _) "name") with
      (Some (string_field (λ v q, {| fr_Name := v; fr_Spec := fr_Spec q; fr_AppSpec := fr_AppSpec q |}))).
    change (field_named _ "name") with (Some (string_field (λ v q, {| ca_Name := v; ca_Spec := ca_Spec q |}))).
    cbn [string_field mbind option_bind ca_Spec fr_Spec fr_AppSpec]. rewrite Hw by done.
    change (negb (String.eqb (source_type (ca_Spec {| ca_Name := name; ca_Spec := AppSpec_zero |})) "")) with false.
    cbn [mbind option_bind]. rewrite decode_flat_members by done. cbn [fr_AppSpec].
    unfold decode_spec, struct in Hd. rewrite Hd. simpl. by rewrite Ht.
Qed.
End forms.

(** ** Access *)

Section access.
Context {W : Type} {CP : KubeClient W Project} {CM : KubeClient W ProjectMember} {CC : KubeClient W ConfigMap}
  {CA : KubeClient W App} {CS : KubeClient W Secret} {CG : KubeClient W GitProvider}
  {LA : KubeListIn W App} {LS : KubeListIn W Secret} {LG : KubeListIn W GitProvider}
  {DA : KubeDelete W App} {DS : KubeDelete W Secret} {KR : KubeRetry W} {KRA : KubeRetry (W * App)}.
Context (AppSpec_fields : list (string * decoder AppSpec)) (rand_read : nat → W → W * (error + list N))
  (creation_time : NamespacedName → W → Time).
Context (details : error → option (string * string)) (json_error : string → string)
  (now : W → Time) (ctx : nat → option error) (activityStore : bool).
Context (I : relation W) {HI : PreOrder I} {RP : KubeReads W Project I} {RM : KubeReads W ProjectMember I}
  {RA : KubeReads W App I} {RG : KubeReads W GitProvider I} {RS : KubeReads W Secret I} {RLA : ListReads W App I}
  {RLS : ListReads W Secret I} {RLG : ListReads W GitProvider I} {OKP : KubeClientOk W Project}.

Local Abbreviation granted := (granted I).

Lemma normalizeRepoURL_reads ref repo w : I w (normalizeRepoURL ref repo w).1.
Proof.
  unfold normalizeRepoURL. destruct (_ || _); [done|]. destruct (negb _).
  - pose proof (kget_reads (I := I) (Obj := GitProvider) ("", ref) w) as H. by destruct (kget ("", ref) w) as [w1 [e|gp]].
  - pose proof (klist_reads (I := I) (Obj := GitProvider) "" ∅ w) as H. by destruct (klist_in "" ∅ w) as [w1 [e|[|gp l]]].
Qed.

(** Listing apps and tokens and reading an app only read; an app is created, updated and
    deleted, and tokens are made and revoked, only by a principal whom the policy allows
    that. *)
Theorem app_changes_authorized r :
  let project := URLParam r "project" in
  reads I (ListApps details r) ∧ reads I (GetApp details r) ∧ reads I (ListTokens details r) ∧
  reads I (ListProjectTokens details r) ∧
  gated I (granted r "app" project "" ActionCreate)
    (CreateApp AppSpec_fields details json_error now ctx activityStore r) ∧
  gated I (granted r "app" project "" ActionUpdate)
    (UpdateApp AppSpec_fields details json_error now ctx activityStore r) ∧
  gated I (granted r "app" project "" ActionDelete) (DeleteApp details now ctx activityStore r) ∧
  gated I (granted r "token" project "" ActionCreate)
    (CreateToken rand_read details json_error now ctx activityStore r) ∧
  gated I (granted r "token" project "" ActionDelete) (DeleteToken details now ctx activityStore r) ∧
  gated I (granted r "token" project "" ActionCreate)
    (CreateProjectToken rand_read creation_time details json_error now ctx activityStore r) ∧
  gated I (granted r "token" project "" ActionDelete) (DeleteProjectToken details now ctx activityStore r).
Proof.
  cbv zeta. repeat apply conj.
  1-4: unfold ListApps, GetApp, ListTokens, ListProjectTokens; reads.
  all: first [ refine (gated_getProject _ _ _ _ _ _ _ _); intros ? _; refine (gated_authorize _ _ _ _ _)
             | refine (gated_resolveProject _ _ _ _ _ _ _ _); intros ns name _; refine (gated_authorize I r (_ name _ ns) _ _)
             | refine (gated_resolveProject _ _ _ _ _ _ _ _); intros ns name _; refine (gated_authorize I r (_ name ns) _ _) ].
Qed.

(** *** Deploying *)

Lemma reads_authorize_all r ns name app envs : reads I (authorize_all r ns name app envs).
Proof. induction envs as [|env envs IH]; [apply reads_ret; apply _|]. cbn [authorize_all].
  refine (reads_bind _ _ _ _ _); [reads|by intros ?].
Qed.

Lemma authorize_all_granted r ns name app envs w w1 :
  authorize_all r ns name app envs w = (w1, inr tt) →
  ∀ env, env ∈ envs → appParticipatesInEnv app (ProjectEnvironment_Name env) = true →
    granted r "app" name (ProjectEnvironment_Name env) ActionUpdate w.
Proof.
  revert w. induction envs as [|e envs IH]; intros w Hw env Henv Hp; [by apply elem_of_nil in Henv|].
  cbn [authorize_all] in Hw. unfold mbind, H_bind in Hw.
  destruct (appParticipatesInEnv app (ProjectEnvironment_Name e)) eqn:Ee.
  - destruct (authorize r (app_resource name (ProjectEnvironment_Name e) ns) ActionUpdate w) as [w2 [rep|[]]] eqn:Ea; [done|].
    apply elem_of_cons in Henv as [->|Henv]; [by eapply (authorize_granted I r (app_resource _ _ _))|].
    eapply granted_back; [apply _| |by eapply IH]. by eapply reads_run, reads_authorize.
  - simpl in Hw. apply elem_of_cons in Henv as [->|Henv]; [congruence|]. by eapply IH.
Qed.

(** What a listing of Secrets by labels answered, at some time after [w]. *)
Definition listed (ns : string) (labels : gmap string string) (sec : Secret) (w : W) : Prop :=
  ∃ w1 l, I w w1 ∧ (klist_in ns labels w1).2 = inr l ∧ sec ∈ l.

(** The token of the request is one that was made for the app and the environment. *)
Definition app_token (r : request) (ns appName env : string) (w : W) : Prop :=
  ∃ token sec, bearer r = Some token ∧ has_prefix deployTokenPrefix token = true ∧
    listed ns {["mortise.dev/deploy-token" := "true"; "mortise.dev/app" := appName; "mortise.dev/environment" := env]} sec w ∧
    stored_hash sec = sha256_hex token.

(** The token of the request is one of the project. *)
Definition project_token (r : request) (ns projectName : string) (w : W) : Prop :=
  ∃ token sec, bearer r = Some token ∧ has_prefix projectDeployTokenPrefix token = true ∧
    token_project token = Some projectName ∧
    listed ns {["mortise.dev/deploy-token" := "true"; "mortise.dev/project-token" := "true"]} sec w ∧
    stored_project_hash sec = sha256_hex token.

Lemma listed_back ns labels sec w w1 : I w w1 → listed ns labels sec w1 → listed ns labels sec w.
Proof. intros Hw (w2 & l & H & ?). exists w2, l. split; [by etrans|done]. Qed.

Lemma matching_spec stored token secrets sec :
  matching stored token secrets = Some sec → sec ∈ secrets ∧ stored sec = sha256_hex token.
Proof. intros [H1 H2]%List.find_some. apply String.eqb_eq in H2. split; [by apply list_elem_of_In|done]. Qed.

Lemma validateDeployToken_reads r ns appName env w : I w (validateDeployToken r ns appName env w).1.
Proof.
  unfold validateDeployToken. destruct (bearer r) as [token|]; [|done]. destruct (negb _); [done|].
  set (labels := <[_:=_]> _). pose proof (klist_reads (I := I) (Obj := Secret) ns labels w) as H.
  destruct (klist_in ns labels w) as [w1 [e|l]]; [done|]. by destruct (matching _ _ _).
Qed.

Lemma validateDeployToken_sound r ns appName env w w1 name :
  validateDeployToken r ns appName env w = (w1, (true, name)) → app_token r ns appName env w.
Proof.
  unfold validateDeployToken, app_token, listed. destruct (bearer r) as [token|]; [|done].
  destruct (has_prefix deployTokenPrefix token) eqn:Hp; simpl; [|done]. set (labels := <[_:=_]> _).
  destruct (klist_in ns labels w) as [w2 [e|l]] eqn:El; [done|].
  destruct (matching stored_hash token l) as [sec|] eqn:Em; [|done]. intros _. apply matching_spec in Em as [Hin Hs].
  exists token, sec. split_and!; [done|done| |done]. exists w, l. by rewrite El.
Qed.

Lemma validateProjectDeployToken_reads r ns name w : I w (validateProjectDeployToken r ns name w).1.
Proof.
  unfold validateProjectDeployToken. destruct (bearer r) as [token|]; [|done]. destruct (negb _); [done|].
  destruct (token_project token); [|done]. destruct (negb _); [done|].
  set (labels := <[_:=_]> _). pose proof (klist_reads (I := I) (Obj := Secret) ns labels w) as H.
  destruct (klist_in ns labels w) as [w1 [e|l]]; [done|]. by destruct (matching _ _ _).
Qed.

Lemma validateProjectDeployToken_sound r ns projectName w w1 name :
  validateProjectDeployToken r ns projectName w = (w1, (true, name)) → project_token r ns projectName w.
Proof.
  unfold validateProjectDeployToken, project_token, listed. destruct (bearer r) as [token|]; [|done].
  destruct (has_prefix projectDeployTokenPrefix token) eqn:Hp; simpl; [|done].
  destruct (token_project token) as [p|] eqn:Et; [|done]. destruct (String.eqb_spec p projectName) as [->|]; simpl; [|done].
  set (labels := <[_:=_]> _). destruct (klist_in ns labels w) as [w2 [e|l]] eqn:El; [done|].
  destruct (matching stored_project_hash token l) as [sec|] eqn:Em; [|done]. intros _. apply matching_spec in Em as [Hin Hs].
  exists token, sec. split_and!; [done|done|done| |done]. exists w, l. by rewrite El.
Qed.

Lemma deploy_access_reads r ns name appName env : reads I (deploy_access r ns name appName env).
Proof.
  unfold deploy_access. reads; [apply validateProjectDeployToken_reads|apply validateDeployToken_reads].
Qed.

Lemma deploy_access_sound r ns name appName env w w1 actor :
  deploy_access r ns name appName env w = (w1, inr actor) →
  match rq_principal r with
  | Some _ => granted r "app" name env ActionUpdate w
  | None => project_token r ns name w ∨ env ≠ "" ∧ app_token r ns appName env w
  end.
Proof.
  unfold deploy_access. destruct (rq_principal r) as [p|].
  - unfold mbind, H_bind. destruct (authorize r (app_resource name env ns) ActionUpdate w) as [w2 [rep|[]]] eqn:Ea; [done|].
    intros _. by apply (authorize_granted I r (app_resource name env ns)) in Ea.
  - destruct (negb _); [done|]. destruct (has_prefix projectDeployTokenPrefix _).
    + unfold mbind, H_bind, call.
      destruct (validateProjectDeployToken r ns name w) as [w2 [[] tn]] eqn:Ev; [|done]. intros _. left.
      by eapply validateProjectDeployToken_sound.
    + destruct (String.eqb_spec env "") as [->|Hne]; [done|]. unfold mbind, H_bind, call.
      destruct (validateDeployToken r ns appName env w) as [w2 [[] tn]] eqn:Ev; [|done]. intros _. right.
      split; [done|]. by eapply validateDeployToken_sound.
Qed.

(** What a read answered at some time after [w]. *)
Definition observed {Obj} {C : KubeClient W Obj} (k : NamespacedName) (o : Obj) (w : W) : Prop :=
  ∃ w1, I w w1 ∧ (kget k w1).2 = inr o.

(** A session with the right to update the app in the environment, and without one in
    every environment of the project that the app is part of; or a token of the project, or
    one of the app and the environment.  Tokens and app are looked up in the namespace of
    the project, as the project was read. *)
Definition may_deploy (r : request) (req : deployRequest) (w : W) : Prop :=
  let project := URLParam r "project" in
  ∃ own, observed ("", project) own w ∧
  let ns := projectNs own in
  match rq_principal r with
  | Some _ =>
    granted r "app" project (dr_Environment req) ActionUpdate w ∧
    (dr_Environment req = "" → ∃ pr app, observed ("", project) pr w ∧ observed (ns, URLParam r "app") app w ∧
       ∀ env, env ∈ ProjectSpec_Environments (Project_Spec pr) →
         appParticipatesInEnv app (ProjectEnvironment_Name env) = true →
         granted r "app" project (ProjectEnvironment_Name env) ActionUpdate w)
  | None =>
    project_token r ns project w ∨
    dr_Environment req ≠ "" ∧ app_token r ns (URLParam r "app") (dr_Environment req) w
  end.

(** C15: the image of an app is changed only for those who may deploy it there: whatever a
    deploy request does beyond reading, its session or its token was checked against the
    project, the app and the environment of the request before; a token is accepted only
    from the Secrets in the namespace of that project. *)
Theorem deploys_authorized r w :
  I w (Deploy details json_error now ctx activityStore r w).1 ∨
  ∃ body req, rq_body r = inr body ∧
    body_of decode_deploy {| dr_Environment := ""; dr_Image := "" |} body = Some req ∧ may_deploy r req w.
Proof.
  unfold Deploy. apply (run_gated I); [reads|]. intros w1 [ns name] E1 H1.
  assert (name = URLParam r "project" ∧ ∃ own, observed ("", URLParam r "project") own w ∧ ns = projectNs own) as (-> & own & Hown & ->).
  { unfold resolveProject, mbind at 1, H_bind in E1. destruct (lookupProject _ _ w) as [w0 [rp|p]] eqn:El; [done|].
    injection E1 as <- <- <-. split; [by eapply lookupProject_gives|]. exists p. split; [|done]. exists w. split; [done|].
    by eapply lookupProject_observed. }
  apply (run_gated I); [reads|]. intros w2 req (body & Hb & Hd)%decode_body_value H2.
  apply (run_gated I); [reads|]. intros w3 [] _ H3.
  apply (run_gated I); [apply deploy_access_reads|]. intros w4 actor E4 H4. apply deploy_access_sound in E4.
  apply (run_gated I); [unfold getProject; reads|]. intros w5 project E5%lookupProject_observed H5.
  apply (run_gated I); [unfold check_env; reads|]. intros w6 [] _ H6.
  apply (run_gated I); [reads|]. intros w7 app E7%try_kget_observed H7.
  apply (run_gated I).
  { destruct (rq_principal r); [|reads]. destruct (String.eqb _ _); [apply reads_authorize_all|reads]. }
  intros w8 [] E8 H8. right. exists body, req. split; [done|]. split; [done|]. exists own. split; [exact Hown|]. cbv zeta.
  assert (I w w3) as H03 by (etrans; [exact H1|]; etrans; [exact H2|exact H3]).
  assert (I w w6) as H06 by (etrans; [exact H03|]; etrans; [exact H4|]; etrans; [exact H5|exact H6]).
  destruct (rq_principal r) as [p|] eqn:Ep.
  - split; [eapply granted_back; [apply _|exact H03|exact E4]|]. intros He. rewrite He, String.eqb_refl in E8.
    exists project, app. split; [exists w4; split; [etrans; [exact H03|exact H4]|done]|]. split; [by exists w6|]. intros env Henv Hp.
    eapply granted_back; [apply _|etrans; [exact H06|exact H7]|]. by eapply authorize_all_granted.
  - destruct E4 as [(token & sec & Hbr & Hpre & Htp & Hl & Hs)|(Hne & token & sec & Hbr & Hpre & Hl & Hs)]; [left|right; split; [done|]].
    + exists token, sec. split_and!; try done. by apply (listed_back _ _ _ w w3).
    + exists token, sec. split_and!; try done. by apply (listed_back _ _ _ w w3).
Qed.
End access.

(** ** The tokens as a set of grants *)

Section grants.
Context {W : Type} {CP : KubeClient W Project} {CM : KubeClient W ProjectMember} {CC : KubeClient W ConfigMap}
  {CA : KubeClient W App} {CS : KubeClient W Secret} {LS : KubeListIn W Secret} {DS : KubeDelete W Secret}.
Context {OKP : KubeClientOk W Project} {OKS : KubeClientOk W Secret} {LOKS : KubeListOk W Secret} {DOKS : KubeDeleteOk W Secret}.
(** Calls on the other kinds leave Secrets alone. *)
Context {PS : KubeReads W Project (unaffected Secret)} {MS : KubeReads W ProjectMember (unaffected Secret)}
  {AS : KubeReads W App (unaffected Secret)} {CCS : KubeApart W ConfigMap Secret}.
Context (rand_read : nat → W → W * (error + list N)) (details : error → option (string * string))
  (json_error : string → string) (now : W → Time) (ctx : nat → option error) (activityStore : bool).
Context (rand_apart : ∀ n w, unaffected Secret w (rand_read n w).1).

Local Abbreviation secrets w := (kstore (Obj := Secret) w).
Local Abbreviation quiet w := (kquiet (Obj := Secret) w).

(** A stored token for the app and the environment with this hash. *)
Definition grants (ns appName env hash : string) (sec : Secret) (w : W) : Prop :=
  secrets w !! obj_key sec = Some sec ∧
  selected ns {["mortise.dev/deploy-token" := "true"; "mortise.dev/app" := appName;
                "mortise.dev/environment" := env]} sec = true ∧
  stored_hash sec = hash.

(** The token of a request is accepted exactly when it is granted. *)
Lemma validateDeployToken_spec r ns appName env token w :
  quiet w → bearer r = Some token → has_prefix deployTokenPrefix token = true →
  ((validateDeployToken r ns appName env w).2.1 = true ↔ ∃ sec, grants ns appName env (sha256_hex token) sec w).
Proof.
  intros Hq Hb Hp. unfold validateDeployToken, grants. rewrite Hb, Hp. cbn [negb]. set (labels := <[_:=_]> _).
  destruct (klist_quiet ns labels w Hq) as (w' & l & _ & _ & Hl & _ & Hel). rewrite Hl.
  destruct (matching stored_hash token l) as [sec|] eqn:Em.
  - apply matching_spec in Em as [Hin Hs]. split; [|done]. intros _. exists sec. apply Hel in Hin as [H1 H2]. done.
  - split; [done|]. intros (sec & Hk & Hsel & Hs). exfalso.
    assert (sec ∈ l) as Hin by by apply Hel. apply list_elem_of_In in Hin.
    pose proof (List.find_none _ _ Em sec Hin) as Hf. cbv beta in Hf. by rewrite Hs, String.eqb_refl in Hf.
Qed.

Lemma rand_settled n w : settled Secret w (rand_read n w).1.
Proof. apply (unaffected_settled Secret), rand_apart. Qed.

(** The labels of a token are selected for its app and its environment only. *)
Lemma app_labels_select appName env name a e :
  ({["mortise.dev/deploy-token" := "true"; "mortise.dev/app" := a; "mortise.dev/environment" := e]} : gmap string string)
    ⊆ app_token_labels appName env name ↔ a = appName ∧ e = env.
Proof.
  unfold app_token_labels. rewrite map_subseteq_spec. split.
  - intros H. split.
    + specialize (H "mortise.dev/app" a). rewrite !(lookup_insert_ne _ "mortise.dev/deploy-token"), !lookup_insert_eq in H by done.
      by injection (H eq_refl).
    + specialize (H "mortise.dev/environment" e).
      rewrite !(lookup_insert_ne _ "mortise.dev/deploy-token"), !(lookup_insert_ne _ "mortise.dev/app"), !lookup_insert_eq,
        lookup_singleton_eq in H by done. by injection (H eq_refl).
  - intros [-> ->] k v. rewrite !lookup_insert_Some, lookup_singleton_Some.
    intros [[<- <-]|[Hk1 [[<- <-]|[Hk2 [<- <-]]]]]; [by left|right..]; (split; [done|]); [by left|right]. split; [done|]. by left.
Qed.

Definition granted_to (ns appName env hash : string) (w : W) : Prop := ∃ sec, grants ns appName env hash sec w.

Lemma grants_created ns appName env name hash w w' ns' a e h :
  let o := token_secret ns (app_token_name appName name) (app_token_labels appName env name) {["token-hash" := hash]} in
  quiet w → kcreate o w = (w', None) →
  (granted_to ns' a e h w' ↔
   granted_to ns' a e h w ∨ (ns' = "" ∨ ns = ns') ∧ a = appName ∧ e = env ∧ h = hash).
Proof.
  intros o Hq Hc. destruct (kcreate_inv Secret o w w' Hq Hc) as (_ & Hn & rv & Hs). unfold granted_to, grants. rewrite Hs.
  assert (∀ a e, selected ns' {["mortise.dev/deploy-token" := "true"; "mortise.dev/app" := a; "mortise.dev/environment" := e]}
    (obj_with_rv rv o) = true ↔ (ns' = "" ∨ ns = ns') ∧ a = appName ∧ e = env) as Hsel.
  { intros a0 e0. unfold selected. rewrite andb_true_iff, orb_true_iff, !String.eqb_eq, bool_decide_eq_true.
    by rewrite <-(app_labels_select appName env name). }
  split.
  - intros (sec & Hk & Hse & Hh). destruct (decide (obj_key o = obj_key sec)) as [Heq|Hne].
    + right. rewrite <-Heq, lookup_insert_eq in Hk. simplify_eq. apply Hsel in Hse as (H1 & H2 & H3).
      split_and!; [done|done|done|]. unfold stored_hash, map_get. cbn. by rewrite lookup_singleton_eq.
    + left. exists sec. by rewrite lookup_insert_ne in Hk.
  - intros [(sec & Hk & Hse & Hh)|(H1 & -> & -> & ->)].
    + exists sec. rewrite lookup_insert_ne; [done|]. intros Heq. by rewrite Heq, Hk in Hn.
    + exists (obj_with_rv rv o). change (obj_key (obj_with_rv rv o)) with (obj_key o). rewrite lookup_insert_eq.
      split; [done|]. split; [by apply Hsel|]. unfold stored_hash, map_get. cbn. by rewrite lookup_singleton_eq.
Qed.

Lemma granted_settled w w' ns a e h : quiet w → settled Secret w w' → (granted_to ns a e h w' ↔ granted_to ns a e h w).
Proof. intros Hq Hs. destruct (Hs Hq) as [_ He]. unfold granted_to, grants. by rewrite He. Qed.

(** Without other writers: a token that is made is granted to the app and the environment
    it was asked for and to nothing else; no other token is touched. *)
Lemma CreateToken_spec r w w' t :
  quiet w →
  CreateToken rand_read details json_error now ctx activityStore r w = (w', inl (Reply StatusCreated (inr (TokenBody t)))) →
  quiet w' ∧ ∃ project, (kget ("", URLParam r "project") w).2 = inr project ∧
  has_prefix deployTokenPrefix (tr_Token t) = true ∧
  ∀ ns a e h, granted_to ns a e h w' ↔
    granted_to ns a e h w ∨
    (ns = "" ∨ projectNs project = ns) ∧ a = URLParam r "app" ∧ e = tr_Environment t ∧ h = sha256_hex (tr_Token t).
Proof.
  intros Hq H. unfold CreateToken in H.
  eapply value_bind in H as (w1 & project & Hp & H); [|unfold getProject; errs|reflexivity].
  assert (settled Secret w w1) as H1 by (eapply (reads_run (settled Secret) _ _ _ _ Hp); unfold getProject; reads).
  apply lookupProject_observed in Hp. cbv zeta in H.
  value_step (settled Secret) H w1. value_step (settled Secret) H w0. value_step (settled Secret) H w2. value_step (settled Secret) H w3.
  value_step (settled Secret) H w4. value_step (settled Secret) H w5. value_step (settled Secret) H w6. value_step (settled Secret) H w7.
  eapply value_bind in H as (w9 & raw & Hr & H); [|errs|reflexivity].
  assert (settled Secret w8 w9) as H9 by (unfold call in Hr; pose proof (rand_settled 32 w8); destruct (rand_read 32 w8); by simplify_eq).
  assert (settled Secret w w9) as Hs by (etrans; [exact H1|]; chain (settled Secret)).
  destruct raw as [err|raw]; [done|]. eapply do_inv in H as (w10 & Hc & H); [|reflexivity].
  apply (record_inv Secret) in H as (w11 & Hrec & H). injection H as <- <-.
  destruct (Hs Hq) as [Hq9 _]. destruct (kcreate_inv Secret _ _ _ Hq9 Hc) as (Hq10 & _). split; [by apply Hrec|].
  exists project. split; [done|]. split; [exact (prefix_app deployTokenPrefix (Sha256.hex_encode raw))|]. intros ns a' e h. cbn [tr_Environment tr_Token].
  rewrite (granted_settled w10 w11) by done. rewrite (grants_created _ _ _ _ _ _ _ ns a' e h Hq9 Hc).
  by rewrite (granted_settled w w9).
Qed.

Lemma DeleteToken_spec r w w' b :
  quiet w → DeleteToken details now ctx activityStore r w = (w', inl (Reply StatusOK (inr b))) →
  quiet w' ∧ ∃ project, (kget ("", URLParam r "project") w).2 = inr project ∧
  secrets w' = delete (projectNs project, app_token_name (URLParam r "app") (URLParam r "tokenName")) (secrets w).
Proof.
  intros Hq H. unfold DeleteToken in H.
  eapply value_bind in H as (w1 & [ns name] & Hp & H); [|errs|reflexivity].
  assert (settled Secret w w1) as H1 by (eapply (reads_run (settled Secret) _ _ _ _ Hp); reads).
  assert (∃ project, (kget ("", URLParam r "project") w).2 = inr project ∧ ns = projectNs project) as (project & Hpr & ->).
  { unfold resolveProject, mbind at 1, H_bind in Hp. destruct (lookupProject _ _ w) as [w0 [rp|p]] eqn:El; [done|].
    apply lookupProject_observed in El. exists p. injection Hp as _ <- _. done. }
  value_step (settled Secret) H w1. eapply value_bind in H as (w2 & sec & Hs & H); [|errs|reflexivity].
  assert (settled Secret w0 w2) as H2 by (eapply (reads_run (settled Secret) _ _ _ _ Hs); reads).
  apply try_kget_observed in Hs. value_step (settled Secret) H w2.
  eapply do_inv in H as (w4 & Hd & H); [|reflexivity]. apply (record_inv Secret) in H as (w5 & Hrec & H). injection H as <- <-.
  assert (settled Secret w w3) as H03 by (etrans; [exact H1|]; chain (settled Secret)). destruct (H03 Hq) as [Hq3 Hs3].
  set (k := (projectNs project, app_token_name (URLParam r "app") (URLParam r "tokenName"))) in *.
  assert (settled Secret w w0) as H00 by (etrans; [exact H1|]; chain (settled Secret)). destruct (H00 Hq) as [Hq0 _].
  assert (obj_key sec = k) as Hk by by eapply kstore_key, kget_inv.
  destruct (kdelete_quiet (obj_key sec) w3 Hq3) as (w7 & Hq7 & Hs7 & Hd7).
  assert (w7 = w4) as ->.
  { destruct (secrets w3 !! obj_key sec); [|destruct Hd7 as (e & Hd7 & _)]; rewrite Hd in Hd7; by simplify_eq. }
  destruct (Hrec Hq7) as [Hq5 Hs5]. split; [done|]. exists project. split; [done|]. by rewrite Hs5, Hs7, Hs3, Hk.
Qed.

(** C17: the tokens of apps are a set of grants, and the handlers are its operations.  When
    nobody else writes Secrets, the answer to a deploy token after one was created is that
    from before, and true besides for the new token with its own app and environment; after
    a revocation it is that of the stored tokens without the Secret named after the app and
    the token of the request.  (Two tokens whose app and name join to the same name would
    share that Secret; see [AppRuns.other_token_revoked].) *)
Theorem tokens_refine r w w' :
  quiet w →
  (∀ t, CreateToken rand_read details json_error now ctx activityStore r w =
          (w', inl (Reply StatusCreated (inr (TokenBody t)))) →
   ∃ project, (kget ("", URLParam r "project") w).2 = inr project ∧
   ∀ r' ns app env token, bearer r' = Some token → has_prefix deployTokenPrefix token = true →
     ((validateDeployToken r' ns app env w').2.1 = true ↔
      (validateDeployToken r' ns app env w).2.1 = true ∨
      (ns = "" ∨ projectNs project = ns) ∧ app = URLParam r "app" ∧ env = tr_Environment t ∧
      sha256_hex token = sha256_hex (tr_Token t))) ∧
  (∀ b, DeleteToken details now ctx activityStore r w = (w', inl (Reply StatusOK (inr b))) →
   ∃ project, (kget ("", URLParam r "project") w).2 = inr project ∧
   ∀ r' ns app env token, bearer r' = Some token → has_prefix deployTokenPrefix token = true →
     ((validateDeployToken r' ns app env w').2.1 = true ↔
      ∃ sec, grants ns app env (sha256_hex token) sec w ∧
        obj_key sec ≠ (projectNs project, app_token_name (URLParam r "app") (URLParam r "tokenName")))).
Proof.
  intros Hq. split.
  - intros t Hc. apply CreateToken_spec in Hc as (Hq' & project & Hp & _ & Hg); [|done]. exists project. split; [done|].
    intros r' ns app env token Hb Hpre. rewrite !(validateDeployToken_spec r' ns app env token) by done. apply Hg.
  - intros b Hd. apply DeleteToken_spec in Hd as (Hq' & project & Hp & Hs); [|done]. exists project. split; [done|].
    intros r' ns app env token Hb Hpre. rewrite (validateDeployToken_spec r' ns app env token) by done.
    unfold grants. rewrite Hs. split.
    + intros (sec & Hk & Hse & Hh). apply lookup_delete_Some in Hk as [Hne Hk]. exists sec. by split.
    + intros (sec & (Hk & Hse & Hh) & Hne). exists sec. by rewrite lookup_delete_ne by done.
Qed.
End grants.

(** ** What a deploy changes *)

Definition env_override (name : string) (app : App) : option Environment :=
  List.find (λ e, String.eqb (Environment_Name e) name) (AppSpec_Environments (App_Spec app)).

Lemma find_ensure_env name f envs e :
  (∀ env, Environment_Name (f env) = Environment_Name env) →
  List.find (λ env, String.eqb (Environment_Name env) e) (ensure_env name f envs) =
  if String.eqb name e
  then Some (f (default (with_Environment_Name name Environment_zero)
                  (List.find (λ env, String.eqb (Environment_Name env) e) envs)))
  else List.find (λ env, String.eqb (Environment_Name env) e) envs.
Proof.
  intros Hf. destruct (String.eqb_spec name e) as [->|Hne]; induction envs as [|env envs IH]; simpl.
  - rewrite Hf. simpl. by rewrite String.eqb_refl.
  - destruct (String.eqb_spec (Environment_Name env) e) as [He|He]; simpl.
    + rewrite Hf. by apply String.eqb_eq in He as ->.
    + apply String.eqb_neq in He. by rewrite He.
  - rewrite Hf. simpl. by apply String.eqb_neq in Hne as ->.
  - destruct (String.eqb_spec (Environment_Name env) name) as [He|He]; simpl.
    + rewrite Hf, He. by apply String.eqb_neq in Hne as ->.
    + by rewrite IH.
Qed.

(** The image of one environment, or that of the source, and nothing else. *)
Definition only_image (req : deployRequest) (before after : App) : Prop :=
  App_ObjectMeta after = App_ObjectMeta before ∧ App_Status after = App_Status before ∧
  if String.eqb (dr_Environment req) "" then
    App_Spec after = with_AppSpec_Source (with_AppSource_Image (dr_Image req) (AppSpec_Source (App_Spec before))) (App_Spec before)
  else
    with_AppSpec_Environments [] (App_Spec after) = with_AppSpec_Environments [] (App_Spec before) ∧
    ∀ e, env_override e after =
      if String.eqb (dr_Environment req) e
      then Some (with_Environment_Image (dr_Image req)
                   (default (with_Environment_Name (dr_Environment req) Environment_zero) (env_override e before)))
      else env_override e before.

Lemma deployed_only_image req app : only_image req app (deployed req app).
Proof.
  unfold only_image, deployed. destruct (String.eqb_spec (dr_Environment req) "") as [He|He]; cbn [negb]; [done|].
  split_and!; [done|done|done|]. intros e. unfold env_override, ensureEnvironment. cbn. by rewrite find_ensure_env.
Qed.

Lemma not_found_not_conflict e : IsNotFound e = true → IsConflict e = false.
Proof. unfold IsNotFound, IsConflict, is_reason. destruct (reason_of e) as [[]|]; by intros H%bool_decide_eq_true. Qed.

Section effect.
Context {W : Type} {CP : KubeClient W Project} {CM : KubeClient W ProjectMember} {CC : KubeClient W ConfigMap}
  {CA : KubeClient W App} {LS : KubeListIn W Secret} {KR : KubeRetry W}.
Context {OKP : KubeClientOk W Project} {OKA : KubeClientOk W App} {KOK : KubeRetryOk W}.
Context {PA : KubeReads W Project (unaffected App)} {MA : KubeReads W ProjectMember (unaffected App)}
  {SA : ListReads W Secret (unaffected App)} {CCA : KubeApart W ConfigMap App}.
Context (details : error → option (string * string)) (json_error : string → string) (now : W → Time)
  (ctx : nat → option error) (activityStore : bool).

Lemma update_image_inv key req w w' :
  kquiet (Obj := App) w → update_image key req w = (w', None) →
  kquiet (Obj := App) w' ∧ ∃ cur rv, kstore w !! key = Some cur ∧
    kstore w' = <[key := obj_with_rv rv (deployed req cur)]> (kstore w).
Proof.
  intros Hq. unfold update_image. rewrite retry_on_conflict_spec. set (fn := λ w : W, _).
  destruct (kget_quiet (Obj := App) key w Hq) as (w1 & Hq1 & Hs1 & Hg).
  destruct (kstore w !! key) as [cur|] eqn:Ek.
  - assert (obj_key (deployed req cur) = key) as Hk.
    { apply kstore_key in Ek as <-. unfold deployed. by destruct (negb _). }
    destruct (kupdate_quiet (deployed req cur) w1 cur Hq1) as (w2 & rv & Hq2 & Hu & Hs2).
    { by rewrite Hk, Hs1. }
    { unfold deployed. by destruct (negb _). }
    assert (fn w = (w2, None)) as Hf by (unfold fn; by rewrite Hg, Hu).
    rewrite (retry_loop_once _ fn w w2 None Hf) by done. intros [= <-]. split; [done|]. exists cur, rv.
    split; [done|]. by rewrite Hs2, Hs1, Hk.
  - destruct Hg as (e & Hg & Hn). assert (fn w = (w1, Some e)) as Hf by (unfold fn; by rewrite Hg).
    rewrite (retry_loop_once _ fn w w1 (Some e) Hf); [done|]. intros e' [= <-].
    by apply not_found_not_conflict.
Qed.

Lemma errs_deploy_access r ns name appName env : errs (deploy_access r ns name appName env).
Proof. unfold deploy_access. errs. Qed.
Lemma errs_check_env project env : errs (W := W) (check_env project env).
Proof. unfold check_env. errs. Qed.
Lemma errs_authorize_all r ns name app envs : errs (authorize_all r ns name app envs).
Proof. induction envs as [|env envs IH]; [apply errs_ret|]. cbn [authorize_all]. apply errs_bind; [errs|by intros ?]. Qed.
Lemma errs_getProject r : errs (B := app_body) (getProject details r).
Proof. unfold getProject. errs. Qed.
Lemma reads_getProject (I : relation W) `{!PreOrder I, !KubeReads W Project I} r : reads (B := app_body) I (getProject details r).
Proof. unfold getProject. reads. Qed.
Lemma reads_check_env (I : relation W) `{!PreOrder I} project env : reads (W := W) I (check_env project env).
Proof. unfold check_env. reads. Qed.
#[local] Hint Resolve errs_deploy_access errs_check_env errs_authorize_all errs_getProject deploy_access_reads
  reads_authorize_all reads_getProject reads_check_env : access.
#[local] Hint Extern 0 (ListReads _ _ _) => apply _ : access.

(** A deploy that is answered 200, when nobody else writes, changed the image of the app in
    the environment of the request, or that of its source when it names none, and no other
    field and no other app. *)
Theorem deploy_effect r w w' b :
  kquiet (Obj := App) w →
  Deploy details json_error now ctx activityStore r w = (w', inl (Reply StatusOK (inr b))) →
  ∃ body req ns before after rv, rq_body r = inr body ∧
    body_of decode_deploy {| dr_Environment := ""; dr_Image := "" |} body = Some req ∧ dr_Image req ≠ "" ∧
    kstore w !! (ns, URLParam r "app") = Some before ∧ only_image req before after ∧
    kstore w' = <[(ns, URLParam r "app") := obj_with_rv rv after]> (kstore w).
Proof.
  intros Hq H. unfold Deploy in H.
  eapply value_bind in H as (w1 & [ns name] & Hp & H); [|errs|reflexivity].
  assert (settled App w w1) as H1 by (eapply (reads_run (settled App) _ _ _ _ Hp); reads). cbv beta iota zeta in H.
  value_step (settled App) H w1. pose proof Hm as (body & Hb & Hd)%decode_body_value. rename a into req.
  value_step (settled App) H w0. value_step (settled App) H w2. value_step (settled App) H w3.
  value_step (settled App) H w4. value_step (settled App) H w5. value_step (settled App) H w6. value_step (settled App) H w7.
  assert (dr_Image req ≠ "") as Hne.
  { intros He. unfold require in Hm0. by rewrite He in Hm0. }
  eapply do_inv in H as (w9 & Hu & H); [|reflexivity]. apply (record_inv App) in H as (w10 & Hrec & H). injection H as <- _.
  assert (settled App w w8) as Hs by (etrans; [exact H1|]; chain (settled App)). destruct (Hs Hq) as [Hq8 Hs8].
  apply update_image_inv in Hu as (Hq9 & cur & rv & Hk & Hs9); [|done]. destruct (Hrec Hq9) as [_ Hs10].
  exists body, req, ns, cur, (deployed req cur), rv. rewrite <-Hs8. split_and!; try done; [apply deployed_only_image|].
  by rewrite Hs10.
Qed.
End effect.
