(* ===== verification/ApiAppsRuns.v ===== *)
(** * Apps and deploy tokens: runs

    The handlers of [ApiApps] on a cluster with one project, whose environment
    [production] is restricted, and one app. *)

From S2P Require Import Prelude GoStrings Sha256 GoText Json JsonStruct Kube Core Api Constants Authz ApiServer Cluster ApiDomains ApiApps ApiAppsFacts.

Module AppRuns.
#[local] Existing Instances range_sorted_order range_sorted_order_ok.

Definition details : error → option (string * string) := λ _, None.
Definition now : cluster → Time := λ _, 1770000000000000000%Z.
Definition ctx : nat → option error := λ _, None.
Definition created (k : NamespacedName) (w : cluster) : Time := 1770000000000000000%Z.
(** A source of random bytes. *)
Definition rand (n : nat) (w : cluster) : cluster * (error + list N) := (w, inr (List.repeat 7%N n)).

(** Some fields of an app specification. *)
Definition fields : list (string * decoder AppSpec) :=
  [("source", sub_field AppSpec_Source with_AppSpec_Source (struct
      [("type", string_field with_AppSource_Type); ("image", string_field with_AppSource_Image)]));
   ("environments", λ v spec,
      match v with
      | JArr l => envs ← mapM (λ x, struct [("name", string_field with_Environment_Name);
                                             ("domain", string_field with_Environment_Domain);
                                             ("image", string_field with_Environment_Image)] x Environment_zero) l;
                  Some (with_AppSpec_Environments envs spec)
      | _ => None
      end)].

(** No git provider is configured. *)
#[local] Instance no_providers : KubeClient cluster GitProvider :=
  {| kget k w := (w, inl (KubeError NotFound k.2)); kcreate o w := (w, None); kupdate o w := (w, None) |}.
#[local] Instance no_provider_list : KubeListIn cluster GitProvider := λ ns l w, (w, inr []).
#[local] Instance no_providers_read : KubeReads cluster GitProvider cluster_elapsed.
Proof. by intros k w. Qed.
#[local] Instance no_providers_list : ListReads cluster GitProvider cluster_elapsed.
Proof. by intros ns l w. Qed.
#[local] Instance app_retry : KubeRetry (cluster * App) := retry_loop default_retry_steps.
#[local] Instance domains_retry : KubeRetry (cluster * list string) := retry_loop default_retry_steps.

Definition shop : Project :=
  with_Project_Spec (with_ProjectSpec_Environments
    [{| ProjectEnvironment_Name := "production"; ProjectEnvironment_DisplayOrder := 0;
        ProjectEnvironment_Restricted := true; ProjectEnvironment_Preview := false |}] ProjectSpec_zero)
    (with_Project_ObjectMeta (with_name "shop" ObjectMeta_zero) Project_zero).

Definition web : App :=
  with_App_ObjectMeta (with_name "web" (with_namespace "pj-shop" ObjectMeta_zero)) App_zero.

Definition member (role : ProjectRole) : ProjectMember :=
  {| ProjectMember_ObjectMeta := with_name (MemberCRDName "dev@acme.io") (with_namespace "pj-shop" ObjectMeta_zero);
     ProjectMember_Spec :=
       {| ProjectMemberSpec_Email := "dev@acme.io"; ProjectMemberSpec_Project := "shop";
          ProjectMemberSpec_Role := role |};
     ProjectMember_Status := ProjectMemberStatus_zero |}.

Definition world (role : ProjectRole) (secrets : list Secret) : cluster :=
  {| cl_projects := stored_now [shop]; cl_members := stored_now [member role]; cl_apps := stored_now [web];
     cl_previews := nothing; cl_secrets := stored_now secrets; cl_configmaps := nothing;
     cl_namespaces := nothing; cl_rolebindings := nothing; cl_buildruns := nothing |}.

Definition request_of (params : gmap string string) (body : string) : request :=
  {| rq_principal := Some {| Principal_ID := "1"; Principal_Email := "dev@acme.io";
                             Principal_Role := RoleMember; Principal_PasswordGen := 0 |};
     rq_params := <["project" := "shop"]> (<["app" := "web"]> params); rq_query := ∅; rq_header := ∅; rq_body := inr body |}.

(** JSON written with single quotes. *)
Definition json_text (s : string) : string := replace_all s "'" (String dquote "").

(** *** The forms of a request *)

Definition members : list (string * json) :=
  [("source", JObj [("type", JStr "image"); ("image", JStr "nginx")])].

Definition image_spec : AppSpec :=
  with_AppSpec_Source (with_AppSource_Image "nginx" (with_AppSource_Type "image" AppSource_zero)) AppSpec_zero.

Lemma request_forms_witness :
  UnmarshalJSON fields (JObj [("name", JStr "web"); ("spec", JObj members)]) =
    Some {| ca_Name := "web"; ca_Spec := image_spec |} ∧
  UnmarshalJSON fields (JObj (("name", JStr "web") :: members)) =
    Some {| ca_Name := "web"; ca_Spec := image_spec |}.
Proof.
  apply (request_forms fields "web" members image_spec).
  - repeat constructor.
  - vm_compute. reflexivity.
  - discriminate.
Defined.

(** *** Access *)

Definition owner_world : cluster := world ProjectRoleOwner [].
Definition dev_world : cluster := world ProjectRoleDeveloper [].

Lemma app_changes_authorized_witness :
  gated cluster_elapsed (granted cluster_elapsed (request_of ∅ "") "token" (URLParam (request_of ∅ "") "project") "" ActionDelete)
    (DeleteToken details now ctx true (request_of ∅ "")).
Proof.
  exact (proj1 (proj2 (proj2 (proj2 (proj2 (proj2 (proj2 (proj2 (proj2
    (app_changes_authorized fields rand created details id now ctx true cluster_elapsed (request_of ∅ ""))))))))))).
Defined.

Definition deploy_body : string := json_text "{'environment':'production','image':'nginx:2'}".

Definition deploy (r : request) (w : cluster) : cluster * (reply app_body + Empty_set) := Deploy details id now ctx true r w.

Lemma deploys_authorized_witness :
  let r := request_of ∅ deploy_body in
  cluster_elapsed owner_world (deploy r owner_world).1 ∨
  ∃ body req, rq_body r = inr body ∧
    body_of decode_deploy {| dr_Environment := ""; dr_Image := "" |} body = Some req ∧
    may_deploy cluster_elapsed r req owner_world.
Proof. exact (deploys_authorized details id now ctx true cluster_elapsed (request_of ∅ deploy_body) owner_world). Defined.

Definition no_body : app_body := NoContent.
Definition deployed_body : app_body := StatusBody [("status", "deployed"); ("app", "web"); ("image", "nginx:2")].

Lemma deploy_effect_witness :
  let r := request_of ∅ deploy_body in
  ∃ body req ns before after rv, rq_body r = inr body ∧
    body_of decode_deploy {| dr_Environment := ""; dr_Image := "" |} body = Some req ∧ dr_Image req ≠ "" ∧
    kstore owner_world !! (ns, URLParam r "app") = Some before ∧ only_image req before after ∧
    kstore (deploy r owner_world).1 = <[(ns, URLParam r "app") := obj_with_rv rv after]> (kstore owner_world).
Proof.
  intros r. apply (deploy_effect details id now ctx true r owner_world (deploy r owner_world).1 deployed_body).
  - reflexivity.
  - apply injective_projections; [reflexivity|]. vm_compute. reflexivity.
Defined.

(** A developer may not deploy to a restricted environment, but the specification of the
    app, with the image for that environment, is open to her. *)
Definition spec_body : string :=
  json_text "{'source':{'type':'image','image':'nginx'},'environments':[{'name':'production','image':'evil:1'}]}".

Example restricted_environment_open :
  let update := UpdateApp fields details id now ctx true (request_of ∅ spec_body) dev_world in
  (match (deploy (request_of ∅ deploy_body) dev_world).2 with inl rep => Some (rp_code rep) | inr _ => None end) = Some 403%Z ∧
  (match update.2 with inl rep => Some (rp_code rep) | inr _ => None end) = Some 200%Z ∧
  (λ app, Environment_Image <$> env_override "production" app) <$> kstore (Obj := App) update.1 !! ("pj-shop", "web") = Some (Some "evil:1").
Proof. vm_compute. split_and!; reflexivity. Qed.

(** *** Domains *)

Definition domain_body : string :=
  json_text "{'source':{'type':'image','image':'nginx'},'environments':[{'name':'production','domain':'a.io'}]}".

(** Another app has the domain [a.io].  The handler of domains refuses it, and the handler
    that updates an app stores it: only the app controller, which asks the Ingresses, finds
    the collision. *)
Definition api : App :=
  with_App_Spec (with_AppSpec_Environments [with_Environment_Domain "a.io" (with_Environment_Name "production" Environment_zero)] AppSpec_zero)
    (with_App_ObjectMeta (with_name "api" (with_namespace "pj-shop" ObjectMeta_zero)) App_zero).
Definition taken_world : cluster :=
  {| cl_projects := stored_now [shop]; cl_members := stored_now [member ProjectRoleOwner]; cl_apps := stored_now [web; api];
     cl_previews := nothing; cl_secrets := nothing; cl_configmaps := nothing;
     cl_namespaces := nothing; cl_rolebindings := nothing; cl_buildruns := nothing |}.

Definition code {A : Type} (x : cluster * (reply A + Empty_set)) : option Z :=
  match x.2 with inl rep => Some (rp_code rep) | inr _ => None end.
Definition domains_stored (w : cluster) : list (string * list string) :=
  (λ x : NamespacedName * App, (x.1.2, Environment_Domain <$> AppSpec_Environments (App_Spec x.2))) <$>
    map_to_list (kstore (Obj := App) w).

Example domain_taken_over :
  let add := ApiDomains.AddDomain details id now ctx true (DomainRuns.add_request "web" "production" "a.io") taken_world in
  let update := UpdateApp fields details id now ctx true (request_of ∅ domain_body) taken_world in
  code add = Some 409%Z ∧ code update = Some 200%Z ∧ domains_stored update.1 = [("web", ["a.io"]); ("api", ["a.io"])].
Proof. vm_compute. split_and!; reflexivity. Qed.

(** *** Tokens *)

Definition token_request : request :=
  request_of ∅ (json_text "{'environment':'production','name':'ci'}").

Lemma tokens_refine_witness :
  kquiet (Obj := Secret) owner_world ∧
  ∀ t, CreateToken rand details id now ctx true token_request owner_world =
         ((CreateToken rand details id now ctx true token_request owner_world).1,
          inl (Reply StatusCreated (inr (TokenBody t)))) →
  ∃ project, (kget ("", URLParam token_request "project") owner_world).2 = inr project ∧
  ∀ r' ns app env token, bearer r' = Some token → has_prefix deployTokenPrefix token = true →
    ((validateDeployToken r' ns app env (CreateToken rand details id now ctx true token_request owner_world).1).2.1 = true ↔
     (validateDeployToken r' ns app env owner_world).2.1 = true ∨
     (ns = "" ∨ projectNs project = ns) ∧ app = URLParam token_request "app" ∧ env = tr_Environment t ∧
     sha256_hex token = sha256_hex (tr_Token t)).
Proof.
  split; [reflexivity|].
  refine (proj1 (tokens_refine rand details id now ctx true _ token_request owner_world
    (CreateToken rand details id now ctx true token_request owner_world).1 eq_refl)).
  intros n w. by split.
Defined.

(** The Secret of a token is named after the app and the token: the token [b-c] of the app
    [a] and the token [c] of the app [a-b] are one, and revoking the one revokes the
    other. *)
Example token_names_collide : app_token_name "a" "b-c" = app_token_name "a-b" "c".
Proof. reflexivity. Qed.

Definition other_token : Secret :=
  token_secret "pj-shop" (app_token_name "a-b" "c") (app_token_labels "a-b" "production" "c") ∅.

Example other_token_revoked :
  let w := world ProjectRoleOwner [other_token] in
  let r := request_of {["tokenName" := "b-c"]} "" in
  let r := {| rq_principal := rq_principal r; rq_params := <["app" := "a"]> (rq_params r); rq_query := ∅;
              rq_header := ∅; rq_body := inr "" |} in
  let res := DeleteToken details now ctx true r w in
  (match res.2 with inl rep => Some (rp_code rep) | inr _ => None end) = Some 200%Z ∧
  kstore (Obj := Secret) res.1 !! obj_key other_token = None.
Proof. vm_compute. split; reflexivity. Qed.
End AppRuns.
