(* ===== verification/ApiEnv.v ===== *)
(** * The handlers of environment variables: [internal/api/env.go]

    Reading and editing the variables of an app in one environment and the shared
    variables of a project, on top of the environment store.  Variables that a binding,
    a reference or the platform manages are reported but not editable. *)

From S2P Require Import Prelude GoStrings GoNum GoText Json JsonStruct Kube Core Api Constants Authz EnvStore Activity ApiServer.

Record envVarResponse := {
  ev_name : string;
  ev_value : string;
  ev_source : string;
  ev_redacted : bool;
  ev_bindingRef : string;
  ev_bindingKey : string;
  ev_secretRef : string;
}.

Definition envVarResponse_zero : envVarResponse :=
  {| ev_name := ""; ev_value := ""; ev_source := ""; ev_redacted := false;
     ev_bindingRef := ""; ev_bindingKey := ""; ev_secretRef := "" |}.

Record patchEnvRequest := { pe_Set : gmap string string; pe_Unset : list string }.

(** ** Decoding *)

Definition decode_env_var : decoder envVarResponse :=
  let put n v s r br bk sr :=
    {| ev_name := n; ev_value := v; ev_source := s; ev_redacted := r;
       ev_bindingRef := br; ev_bindingKey := bk; ev_secretRef := sr |} in
  struct
    [("name", string_field (λ x a, put x (ev_value a) (ev_source a) (ev_redacted a)
                                     (ev_bindingRef a) (ev_bindingKey a) (ev_secretRef a)));
     ("value", string_field (λ x a, put (ev_name a) x (ev_source a) (ev_redacted a)
                                      (ev_bindingRef a) (ev_bindingKey a) (ev_secretRef a)));
     ("source", string_field (λ x a, put (ev_name a) (ev_value a) x (ev_redacted a)
                                       (ev_bindingRef a) (ev_bindingKey a) (ev_secretRef a)));
     ("redacted", bool_field (λ x a, put (ev_name a) (ev_value a) (ev_source a) x
                                       (ev_bindingRef a) (ev_bindingKey a) (ev_secretRef a)));
     ("bindingRef", string_field (λ x a, put (ev_name a) (ev_value a) (ev_source a) (ev_redacted a)
                                           x (ev_bindingKey a) (ev_secretRef a)));
     ("bindingKey", string_field (λ x a, put (ev_name a) (ev_value a) (ev_source a) (ev_redacted a)
                                           (ev_bindingRef a) x (ev_secretRef a)));
     ("secretRef", string_field (λ x a, put (ev_name a) (ev_value a) (ev_source a) (ev_redacted a)
                                          (ev_bindingRef a) (ev_bindingKey a) x))].

(** [var vars []envVarResponse] *)
Definition decode_vars (body : string) : option (list envVarResponse) :=
  v ← first_value body;
  match v with
  | JNull => Some []
  | JArr l => mapM (λ x, decode_env_var x envVarResponse_zero) l
  | _ => None
  end.

Definition map_field {A} (get : A → gmap string string) (set : gmap string string → A → A) : decoder A :=
  λ v a, match v with
         | JNull => Some (set ∅ a)
         | JObj l => m ← string_members l (get a); Some (set m a)
         | _ => None
         end.

Definition decode_patch : decoder patchEnvRequest := struct
  [("set", map_field pe_Set (λ m a, {| pe_Set := m; pe_Unset := pe_Unset a |}));
   ("unset", slice_field "" string_elem (λ l a, {| pe_Set := pe_Set a; pe_Unset := default [] l |}))].

(** ** Managed variables *)

(** [envConflictError] *)
Definition envConflictError (msg : string) : error := Typed "envConflictError" msg.

Definition cannot_overwrite (name source : string) : error :=
  envConflictError (sprintf "cannot overwrite %q: managed by %s (only user-set vars can be modified)"
                      [name; source]).
Definition cannot_unset (name source : string) : error :=
  envConflictError (sprintf "cannot unset %q: managed by %s (only user-set vars can be removed)"
                      [name; source]).

(** The variables that the spec of the environment declares by reference: of the first
    environment with the name. *)
Definition declarativeEnvSources (app : App) (envName : string) : gmap string string :=
  match List.find (λ e, String.eqb (Environment_Name e) envName)
          (AppSpec_Environments (App_Spec app)) with
  | None => ∅
  | Some envSpec =>
    fold_left (λ sources ev,
      match EnvVar_ValueFrom ev with
      | None => sources
      | Some src =>
        match EnvVarSource_FromBinding src with
        | Some _ => <[EnvVar_Name ev := "binding"]> sources
        | None => if negb (String.eqb (EnvVarSource_SecretRef src) "")
                  then <[EnvVar_Name ev := "secret reference"]> sources else sources
        end
      end) (Environment_Env envSpec) ∅
  end.

Definition user_source (source : string) : bool := String.eqb source "user" || String.eqb source "".

Definition user_env (name value : string) : Env :=
  {| env_Name := name; env_Value := value; env_Source := "user" |}.

(** The stored variables by name: [existingSource] and [existingValue]. *)
Definition by_name (existing : list Env) : gmap string Env := env_map ∅ existing.

(** One assignment of a request: [true] is one to a managed variable that restates its
    value and is tolerated; changing one is a conflict. *)
Definition check_set (declarativeSource : gmap string string) (current : gmap string Env)
    (name value : string) : error + bool :=
  match declarativeSource !! name with
  | Some source =>
    match current !! name with
    | Some e => if String.eqb (env_Value e) value then inr true else inl (cannot_overwrite name source)
    | None => inl (cannot_overwrite name source)
    end
  | None =>
    match current !! name with
    | Some e =>
      if user_source (env_Source e) then inr false
      else if String.eqb (env_Value e) value then inr true
      else inl (cannot_overwrite name (env_Source e))
    | None => inr false
    end
  end.

(** The names tolerated, or the first conflict. *)
Fixpoint check_sets (declarativeSource : gmap string string) (current : gmap string Env)
    (sets : list (string * string)) (tolerated : gset string) : error + gset string :=
  match sets with
  | [] => inr tolerated
  | (name, value) :: rest =>
    match check_set declarativeSource current name value with
    | inl err => inl err
    | inr b => check_sets declarativeSource current rest (if b then {[name]} ∪ tolerated else tolerated)
    end
  end.

(** A variable a full replacement keeps: managed, or declared by reference. *)
Definition kept (declarativeSource : gmap string string) (e : Env) : bool :=
  negb (user_source (env_Source e)) || negb (String.eqb (map_get declarativeSource (env_Name e)) "").

(** The callback of [PutEnv]. *)
Definition put_env (declarativeSource : gmap string string) (vars : list envVarResponse)
    (existing : list Env) : error + list Env :=
  let sets := (λ v, (ev_name v, ev_value v)) <$> vars in
  match check_sets declarativeSource (by_name existing) sets ∅ with
  | inl err => inl err
  | inr tolerated =>
    inr (List.filter (kept declarativeSource) existing ++
         ((λ p, user_env p.1 p.2) <$> List.filter (λ p, bool_decide (p.1 ∉ tolerated)) sets))
  end.

(** The keys a replacement adds and removes, for the activity log. *)
Definition put_delta (declarativeSource : gmap string string) (vars : list envVarResponse)
    (existing : list Env) : list string * list string :=
  let incoming : gset string := list_to_set (ev_name <$> vars) in
  let existingNames : gset string := list_to_set (env_Name <$> existing) in
  (List.filter (λ n, bool_decide (n ∉ existingNames)) (ev_name <$> vars),
   env_Name <$> List.filter (λ e,
     user_source (env_Source e) && String.eqb (map_get declarativeSource (env_Name e)) "" &&
     bool_decide (env_Name e ∉ incoming)) existing).

(** The first variable with the name is assigned, or one is appended. *)
Fixpoint assign (name value : string) (vars : list Env) : list Env :=
  match vars with
  | [] => [user_env name value]
  | e :: rest =>
    if String.eqb (env_Name e) name then user_env name value :: rest
    else e :: assign name value rest
  end.

Fixpoint check_unsets (declarativeSource : gmap string string) (unset : list string) : option error :=
  match unset with
  | [] => None
  | k :: rest =>
    match declarativeSource !! k with
    | Some source => Some (cannot_unset k source)
    | None => check_unsets declarativeSource rest
    end
  end.

(** The callback of [PatchEnv]. *)
Definition patch_env (R : MapRange) (declarativeSource : gmap string string) (req : patchEnvRequest)
    (existing : list Env) : error + list Env :=
  match check_unsets declarativeSource (pe_Unset req) with
  | Some err => inl err
  | None =>
    let unset e := bool_decide (env_Name e ∈ pe_Unset req) in
    match List.find (λ e, unset e && negb (user_source (env_Source e))) existing with
    | Some e => inl (cannot_unset (env_Name e) (env_Source e))
    | None =>
      let result := List.filter (λ e, negb (unset e)) existing in
      match check_sets declarativeSource (by_name result) (range (pe_Set req)) ∅ with
      | inl err => inl err
      | inr tolerated =>
        inr (fold_left (λ l p, if bool_decide (p.1 ∈ tolerated) then l else assign p.1 p.2 l)
               (range (pe_Set req)) result)
      end
    end
  end.

(** ** [.env] files *)

(** The lines a [bufio.Scanner] yields: it stops for good at a line that does not fit its
    buffer of 64 KiB. *)
Definition max_scan_line : Z := 65535.

Fixpoint scanned (lines : list string) : list string :=
  match lines with
  | [] => []
  | line :: rest => if (len line <=? max_scan_line)%Z then line :: scanned rest else []
  end.

(** The quotes around a value, if both are there and the same. *)
Definition unquote_value (val : string) : string :=
  match val with
  | String q rest =>
    if (Ascii.eqb q dquote || Ascii.eqb q "'"%char) &&
       negb (String.eqb rest "") && last_ok (Ascii.eqb q) rest
    then str_take (String.length rest - 1) rest else val
  | EmptyString => val
  end.

Definition parse_line (result : gmap string string) (text : string) : gmap string string :=
  let line := trim_space text in
  if String.eqb line "" || has_prefix "#" line then result
  else match index_char "="%char line with
       | Some (S n) =>
         let key := trim_space (str_take (S n) line) in
         let val := trim_space (str_drop (S (S n)) line) in
         <[key := unquote_value val]> result
       | _ => result
       end.

Definition parseDotEnv (content : string) : gmap string string :=
  fold_left parse_line (scanned (split (chr 10) content)) ∅.

(** ** The handlers *)

(** What the handlers answer with. *)
Inductive env_body :=
  | EnvVars (vars : list envVarResponse)
  | EnvStatus (fields : list (string * string)).

Definition maxConflictRetries : nat := 5.

Definition envResponseVar (e : Env) (plaintext : bool) : envVarResponse :=
  {| ev_name := env_Name e; ev_value := if plaintext then env_Value e else "";
     ev_source := env_Source e; ev_redacted := negb plaintext;
     ev_bindingRef := ""; ev_bindingKey := ""; ev_secretRef := "" |}.

(** [fromBindingSpecs] and [secretRefSpecs], of the first environment with the name. *)
Definition from_binding_specs (app : App) (envName : string) : gmap string BindingVarSource :=
  match List.find (λ e, String.eqb (Environment_Name e) envName) (AppSpec_Environments (App_Spec app)) with
  | None => ∅
  | Some envSpec =>
    fold_left (λ m ev, match EnvVar_ValueFrom ev ≫= EnvVarSource_FromBinding with
                       | Some fb => <[EnvVar_Name ev := fb]> m
                       | None => m
                       end) (Environment_Env envSpec) ∅
  end.

Definition secret_ref_specs (app : App) (envName : string) : gmap string string :=
  match List.find (λ e, String.eqb (Environment_Name e) envName) (AppSpec_Environments (App_Spec app)) with
  | None => ∅
  | Some envSpec =>
    fold_left (λ m ev, match EnvVar_ValueFrom ev with
                       | Some src => if negb (String.eqb (EnvVarSource_SecretRef src) "")
                                     then <[EnvVar_Name ev := EnvVarSource_SecretRef src]> m else m
                       | None => m
                       end) (Environment_Env envSpec) ∅
  end.

(** The response for one variable, with where its value comes from. *)
Definition enriched (app : App) (envName : string) (plaintext : bool) (e : Env) : envVarResponse :=
  let ev := envResponseVar e plaintext in
  let fb := from_binding_specs app envName !! env_Name e in
  {| ev_name := ev_name ev; ev_value := ev_value ev; ev_source := ev_source ev;
     ev_redacted := ev_redacted ev;
     ev_bindingRef := match fb with Some b => BindingVarSource_Ref b | None => "" end;
     ev_bindingKey := match fb with Some b => BindingVarSource_Key b | None => "" end;
     ev_secretRef := default "" (secret_ref_specs app envName !! env_Name e) |}.

Definition env_labels (projectName envName appName : string) : gmap string string :=
  {[ProjectLabel := projectName; EnvironmentLabel := envName; AppNameLabel := appName]}.

Section handlers.
Context {W : Type} {CP : KubeClient W Project} {CM : KubeClient W ProjectMember}
  {CC : KubeClient W ConfigMap} {CA : KubeClient W App} {CS : KubeClient W Secret}
  {LA : KubeListIn W App} {KR : KubeRetry W} (R : MapRange).
Context (details : error → option (string * string)) (json_error : string → string)
  (now : W → Time) (ctx : nat → option error) (activityStore : bool).
(** The variables the callback of [PutEnv] read in the attempt that succeeded; only the
    text of the activity record depends on them. *)
Context (lastRead : W → list Env).

Local Abbreviation handler := (H W env_body Empty_set).

Definition writeEnvStoreError {A} (err : error) : H W env_body A :=
  match errors_As "envConflictError" err with
  | Some msg => fail StatusConflict msg
  | None => writeError details err
  end.

(** [time.Now().UnixMilli()] *)
Definition unix_milli (t : Time) : Z := (t / 1000000)%Z.

Definition with_env_updated (stamp : string) (app : App) : App :=
  with_App_ObjectMeta
    (with_annotations (<["mortise.dev/env-updated" := stamp]> (meta_Annotations (App_ObjectMeta app)))
       (App_ObjectMeta app)) app.

Fixpoint poke_loop (attempts : nat) (key : NamespacedName) (w : W) : W * option error :=
  match attempts with
  | O => (w, None)
  | S attempts =>
    match kget key w with
    | (w, inl err) => (w, Some err)
    | (w, inr latest) =>
      match kupdate (with_env_updated (itoa (unix_milli (now w))) latest) w with
      | (w, None) => (w, None)
      | (w, Some updateErr) =>
        if negb (IsConflict updateErr) || (attempts =? 0)%nat then (w, Some updateErr)
        else poke_loop attempts key w
      end
    end
  end.

Definition pokeAppForReconcile (app : App) : W → W * option error :=
  poke_loop maxConflictRetries (meta_Namespace (App_ObjectMeta app), meta_Name (App_ObjectMeta app)).

(** [envNs, err := envNamespace(app, envName)] *)
Definition need_namespace {A} (res : error + A) : H W env_body A :=
  match res with inl err => fail StatusInternalServerError (error_text err) | inr a => mret a end.

Definition need_project (app : App) : H W env_body string :=
  match ProjectFromControlNs (meta_Namespace (App_ObjectMeta app)) with
  | (projectName, true) => mret projectName
  | (_, false) =>
    fail StatusInternalServerError
      (sprintf "app %q not in a control namespace (%q)"
         [meta_Name (App_ObjectMeta app); meta_Namespace (App_ObjectMeta app)])
  end.

Definition check_plaintext (r : request) (res : Resource) : H W env_body bool :=
  ok ← call (canAuthorize r res ActionUpdate);
  match ok with
  | inl _ => fail StatusInternalServerError "authorization check failed"
  | inr b => mret b
  end.

Definition app_resource (projectName env : string) : Resource :=
  {| Resource_Kind := "app"; Resource_Namespace := ""; Resource_Name := "";
     Resource_Project := projectName; Resource_Environment := env |}.

Definition GetEnv (r : request) : handler :=
  let projectName := URLParam r "project" in
  _ ← authorize r (app_resource projectName "") ActionRead;
  '(app, envName) ← resolveAppEnv details r;
  envNs ← need_namespace (envNamespace app envName);
  envs ← try_ details (Get R envNs (meta_Name (App_ObjectMeta app)));
  plaintext ← check_plaintext r (app_resource projectName envName);
  writeJSON StatusOK (EnvVars (enriched app envName plaintext <$> envs)).

Definition updated : env_body := EnvStatus [("status", "updated")].

(** The end of the three editing handlers. *)
Definition env_changed (r : request) (app : App) (projectName msg : string) (body : env_body) : handler :=
  _ ← do_ details (pokeAppForReconcile app);
  _ ← recordActivity now ctx activityStore r projectName "update" "app"
        (meta_Name (App_ObjectMeta app)) msg "";
  writeJSON StatusOK body.

Definition PutEnv (r : request) : handler :=
  _ ← authorize r (app_resource (URLParam r "project") (queryEnv r)) ActionUpdate;
  '(app, envName) ← resolveAppEnv details r;
  vars ← decode_body json_error r decode_vars;
  envNs ← need_namespace (envNamespace app envName);
  projectName ← need_project app;
  let appName := meta_Name (App_ObjectMeta app) in
  let declarativeSource := declarativeEnvSources app envName in
  err ← call (Apply R envNs appName (env_labels projectName envName appName)
                (put_env declarativeSource vars));
  match err with
  | Some err => writeEnvStoreError err
  | None =>
    existing ← call (λ w, (w, lastRead w));
    let '(addedKeys, removedKeys) := put_delta declarativeSource vars existing in
    env_changed r app projectName
      ("Updated env vars for " +:+ appName +:+ " in " +:+ envName +:+ envKeyDelta addedKeys removedKeys)
      updated
  end.

Definition PatchEnv (r : request) : handler :=
  _ ← authorize r (app_resource (URLParam r "project") (queryEnv r)) ActionUpdate;
  '(app, envName) ← resolveAppEnv details r;
  req ← decode_body json_error r (body_of decode_patch {| pe_Set := ∅; pe_Unset := [] |});
  envNs ← need_namespace (envNamespace app envName);
  projectName ← need_project app;
  let appName := meta_Name (App_ObjectMeta app) in
  err ← call (Apply R envNs appName (env_labels projectName envName appName)
                (patch_env R (declarativeEnvSources app envName) req));
  match err with
  | Some err => writeEnvStoreError err
  | None =>
    env_changed r app projectName ("Patched env vars for " +:+ appName +:+ " in " +:+ envName) updated
  end.

Definition ImportEnv (r : request) : handler :=
  _ ← authorize r (app_resource (URLParam r "project") (queryEnv r)) ActionUpdate;
  '(app, envName) ← resolveAppEnv details r;
  body ← (match rq_body r with
          | inl _ => fail StatusBadRequest "failed to read body"
          | inr body => mret body
          end : H W env_body string);
  let parsed := parseDotEnv body in
  envNs ← need_namespace (envNamespace app envName);
  let vars := (λ p, user_env p.1 p.2) <$> range parsed in
  projectName ← need_project app;
  let appName := meta_Name (App_ObjectMeta app) in
  _ ← do_ details (Merge R envNs appName vars (env_labels projectName envName appName));
  env_changed r app projectName ("Imported env vars for " +:+ appName +:+ " in " +:+ envName)
    (EnvStatus [("status", "imported"); ("count", itoa (Z.of_nat (size parsed)))]).

Definition GetSharedVars (r : request) : handler :=
  let projectName := URLParam r "project" in
  _ ← authorize r (app_resource projectName "") ActionRead;
  project ← getProject details r;
  envs ← try_ details (GetSharedSource R (ControlNamespace (project_name project)));
  plaintext ← check_plaintext r (app_resource projectName "");
  writeJSON StatusOK (EnvVars ((λ e, envResponseVar e plaintext) <$> envs)).

Fixpoint poke_all (apps : list App) : H W env_body unit :=
  match apps with
  | [] => mret ()
  | app :: rest => _ ← do_ details (pokeAppForReconcile app); poke_all rest
  end.

Definition PutSharedVars (r : request) : handler :=
  _ ← authorize r (app_resource (URLParam r "project") "") ActionUpdate;
  project ← getProject details r;
  vars ← decode_body json_error r decode_vars;
  let controlNs := ControlNamespace (project_name project) in
  let envVars := (λ v, {| env_Name := ev_name v; env_Value := ev_value v; env_Source := "shared" |}) <$> vars in
  _ ← do_ details (SetSharedSource R controlNs envVars {[ProjectLabel := project_name project]});
  apps ← try_ details (klist_in controlNs ∅);
  _ ← poke_all apps;
  _ ← recordActivity now ctx activityStore r (project_name project) "update" "project"
        (project_name project) "Updated shared variables" "";
  writeJSON StatusOK updated.
End handlers.

(** ** Editing user variables *)

Section editing.
Context (declarative : gmap string string).
Implicit Types (e : Env) (existing : list Env).

(** The platform manages the variable: its source is not the user, or the spec declares
    it by reference. *)
Definition managed e : Prop :=
  user_source (env_Source e) = false ∨ is_Some (declarative !! env_Name e).

Context (Hdecl : ∀ name source, declarative !! name = Some source → source ≠ "").

Lemma kept_spec e : kept declarative e = true ↔ managed e.
Proof.
  unfold kept, managed, map_get. rewrite orb_true_iff, !negb_true_iff, String.eqb_neq.
  split; (intros [?|Hd]; [by left|right]).
  - by destruct (declarative !! _).
  - destruct Hd as [src Hs]. rewrite Hs. by eapply Hdecl.
Qed.

Lemma by_name_elem existing e :
  NoDup (env_Name <$> existing) → e ∈ existing → by_name existing !! env_Name e = Some e.
Proof. intros Hnd He. by apply (proj1 (env_map_lookup ∅ existing (env_Name e) Hnd)). Qed.

Lemma by_name_Some existing name e :
  by_name existing !! name = Some e → env_Name e = name ∧ e ∈ existing.
Proof.
  intros H. destruct (env_map_keys ∅ existing name e) as [? [?|Hn]]; [|done|done|].
  - intros k e'. by rewrite lookup_empty.
  - by rewrite lookup_empty in Hn.
Qed.

(** A request may say this of a variable: nothing managed changes its value. *)
Definition allowed existing (name value : string) : Prop :=
  (∀ e, e ∈ existing → env_Name e = name → managed e → env_Value e = value) ∧
  (is_Some (declarative !! name) → name ∈ env_Name <$> existing).

(** The variable restates the value of a managed one. *)
Definition restates existing (name : string) : Prop := ∃ e, e ∈ existing ∧ env_Name e = name ∧ managed e.

Lemma check_set_spec existing name value :
  NoDup (env_Name <$> existing) →
  match check_set declarative (by_name existing) name value with
  | inl err => ¬ allowed existing name value ∧ is_Some (errors_As "envConflictError" err)
  | inr b => allowed existing name value ∧ (b = true ↔ restates existing name)
  end.
Proof.
  intros Hnd. unfold check_set.
  assert (∀ e, by_name existing !! name = Some e → ∀ e', e' ∈ existing → env_Name e' = name → e' = e) as Huniq.
  { intros e He e' Hin <-. rewrite (by_name_elem existing e' Hnd Hin) in He. by simplify_eq. }
  destruct (by_name existing !! name) as [e|] eqn:Eb.
  - pose proof (by_name_Some _ _ _ Eb) as [Hname Hin].
    assert (∀ b : bool, (b = true ↔ managed e) → (managed e → env_Value e = value) →
      allowed existing name value ∧ (b = true ↔ restates existing name)) as Hok.
    { intros b Hb Hval. split.
      - split; [|intros _; apply list_elem_of_fmap; by exists e].
        intros e' He' Hn'. rewrite (Huniq e eq_refl e' He' Hn'). done.
      - rewrite Hb. split; [by exists e|]. intros (e' & He' & Hn' & Hm).
        by rewrite <-(Huniq e eq_refl e' He' Hn'). }
    assert (managed e → env_Value e ≠ value → ∀ err, is_Some (errors_As "envConflictError" err) →
      ¬ allowed existing name value ∧ is_Some (errors_As "envConflictError" err)) as Hbad.
    { intros Hm Hne err Herr. split; [|done]. intros [Hal _]. by apply Hne, (Hal e). }
    destruct (declarative !! name) as [src|] eqn:Ed.
    + assert (managed e) as Hm by (right; rewrite Hname, Ed; by eexists).
      destruct (String.eqb_spec (env_Value e) value); [by apply Hok; [split|]|by apply Hbad; [..|eexists]].
    + destruct (user_source (env_Source e)) eqn:Eu.
      * assert (¬ managed e) by (unfold managed; rewrite Eu, Hname, Ed; by intros [|[? ?]]).
        apply Hok; naive_solver.
      * assert (managed e) as Hm by by left.
        destruct (String.eqb_spec (env_Value e) value); [by apply Hok; [split|]|by apply Hbad; [..|eexists]].
  - assert (name ∉ env_Name <$> existing) as Hnin.
    { intros (e & -> & He)%list_elem_of_fmap. by rewrite (by_name_elem existing e Hnd He) in Eb. }
    assert (¬ restates existing name) as Hnr.
    { intros (e & He & <- & _). apply Hnin, list_elem_of_fmap. by exists e. }
    destruct (declarative !! name) as [src|] eqn:Ed.
    + split; [|by eexists]. intros [_ Hal]. rewrite Ed in Hal. by apply Hnin, Hal; eexists.
    + split; [|by split]. split; [|rewrite Ed; by intros []].
      intros e He <- _. destruct Hnin. apply list_elem_of_fmap. by exists e.
Qed.

Lemma check_sets_spec existing sets tolerated :
  NoDup (env_Name <$> existing) →
  match check_sets declarative (by_name existing) sets tolerated with
  | inl err => (∃ name value, (name, value) ∈ sets ∧ ¬ allowed existing name value) ∧
      is_Some (errors_As "envConflictError" err)
  | inr tolerated' => (∀ name value, (name, value) ∈ sets → allowed existing name value) ∧
      ∀ name, name ∈ tolerated' ↔ name ∈ tolerated ∨ name ∈ sets.*1 ∧ restates existing name
  end.
Proof.
  intros Hnd. revert tolerated. induction sets as [|[name value] sets IH]; intros tolerated; simpl.
  { split; [by intros ? ? ?%elem_of_nil|]. intros n. rewrite elem_of_nil. naive_solver. }
  pose proof (check_set_spec existing name value Hnd) as Hc.
  destruct (check_set _ _ name value) as [err|b].
  { destruct Hc as [Hn Herr]. split; [|done]. exists name, value. split; [by left|done]. }
  destruct Hc as [Hal Hb]. specialize (IH (if b then {[name]} ∪ tolerated else tolerated)).
  destruct (check_sets _ _ sets _) as [err|tolerated'].
  - destruct IH as [(n & v & Hin & Hn) Herr]. split; [|done]. exists n, v. split; [by right|done].
  - destruct IH as [Ha Ht]. split.
    + intros n v [[= -> ->]|Hin]%elem_of_cons; [done|by apply Ha].
    + intros n. rewrite Ht, elem_of_cons. destruct b.
      * rewrite elem_of_union, elem_of_singleton. destruct Hb as [Hb _]. naive_solver.
      * assert (¬ restates existing name) by naive_solver. naive_solver.
Qed.

(** What a variable is after [PutEnv]. *)
Definition after_put (vars : list envVarResponse) existing (name : string) : option string :=
  match List.find (λ e, String.eqb (env_Name e) name && kept declarative e) existing with
  | Some e => Some (env_Value e)
  | None => vars_data ((λ v, user_env (ev_name v) (ev_value v)) <$> vars) !! name
  end.

Lemma vars_data_snoc l e name :
  vars_data (l ++ [e]) !! name =
  if bool_decide (env_Name e = name) then Some (env_Value e) else vars_data l !! name.
Proof. unfold vars_data. rewrite fold_left_app. simpl. rewrite lookup_insert. by repeat case_decide. Qed.

(** Filtering by name does not matter to a name that passes. *)
Lemma vars_data_filter (f : string * string → bool) (sets : list (string * string)) name :
  (∀ p, p ∈ sets → p.1 = name → f p = true) →
  vars_data ((λ p, user_env p.1 p.2) <$> List.filter f sets) !! name =
  vars_data ((λ p, user_env p.1 p.2) <$> sets) !! name.
Proof.
  induction sets as [|p sets IH] using rev_ind; [done|]. intros Hf.
  rewrite List.filter_app, !fmap_app, vars_data_app. cbn [fmap list_fmap].
  rewrite vars_data_snoc. simpl.
  assert (vars_data ((λ p, user_env p.1 p.2) <$> List.filter f sets) !! name =
          vars_data ((λ p, user_env p.1 p.2) <$> sets) !! name) as IH'.
  { apply IH. intros q Hq. apply Hf, elem_of_app. by left. }
  rewrite IH'. clear IH IH'.
  case_bool_decide as Hn.
  - rewrite (Hf p) by (done || apply elem_of_app; right; by left). simpl. subst.
    unfold vars_data. simpl. by rewrite lookup_insert_eq.
  - destruct (f p); simpl; [|unfold vars_data; simpl; by rewrite lookup_empty].
    unfold vars_data at 1. simpl. by rewrite lookup_insert_ne, lookup_empty.
Qed.

Lemma vars_data_elem l e :
  NoDup (env_Name <$> l) → e ∈ l → vars_data l !! env_Name e = Some (env_Value e).
Proof.
  intros Hnd He. rewrite vars_data_list_to_map by done. apply elem_of_list_to_map_1.
  - rewrite <-list_fmap_compose. done.
  - apply list_elem_of_fmap. by exists e.
Qed.

Lemma put_env_cases vars existing :
  NoDup (env_Name <$> existing) →
  match put_env declarative vars existing with
  | inl err => (∃ v, v ∈ vars ∧ ¬ allowed existing (ev_name v) (ev_value v)) ∧
      is_Some (errors_As "envConflictError" err)
  | inr l => (∀ v, v ∈ vars → allowed existing (ev_name v) (ev_value v)) ∧
      (∀ e, e ∈ existing → managed e → e ∈ l) ∧
      ∀ name, vars_data l !! name = after_put vars existing name
  end.
Proof.
  intros Hnd. unfold put_env. set (sets := (λ v, (ev_name v, ev_value v)) <$> vars).
  pose proof (check_sets_spec existing sets ∅ Hnd) as Hc.
  destruct (check_sets _ _ sets ∅) as [err|tolerated].
  { destruct Hc as [(n & v & Hin & Hn) Herr]. split; [|done].
    apply list_elem_of_fmap in Hin as (x & [= -> ->] & Hx). by exists x. }
  destruct Hc as [Hal Htol]. split; [|split].
  - intros v Hv. apply Hal, list_elem_of_fmap. by exists v.
  - intros e He Hm. apply elem_of_app. left. apply elem_of_filter_bool.
    split; [done|by apply kept_spec].
  - intros name. rewrite vars_data_app. unfold after_put.
    destruct (List.find _ existing) as [e|] eqn:Ef.
    + apply find_some in Ef as [He%list_elem_of_In [Hn%String.eqb_eq Hk]%andb_true_iff].
      assert (restates existing name) as Hr by (exists e; by rewrite <-kept_spec).
      destruct (vars_data _ !! name) as [v|] eqn:Ev.
      * exfalso. assert (vars_data ((λ p, user_env p.1 p.2) <$>
          List.filter (λ p, bool_decide (p.1 ∉ tolerated)) sets) !! name ≠ None) as Hne by by rewrite Ev.
        apply Hne, vars_data_None. rewrite <-list_fmap_compose.
        intros (p & -> & [Hin Hp%bool_decide_eq_true]%elem_of_filter_bool)%list_elem_of_fmap.
        apply Hp, Htol. right. split; [|done]. apply list_elem_of_fmap. by exists p.
      * subst name. apply vars_data_elem; [by apply NoDup_fmap_filter_bool|].
        by apply elem_of_filter_bool.
    + assert (¬ restates existing name) as Hr.
      { intros (e & He & Hn & Hm%kept_spec). apply list_elem_of_In in He.
        pose proof (find_none _ _ Ef _ He) as H. cbn in H. rewrite Hm, andb_true_r in H.
        by apply String.eqb_neq in H. }
      rewrite vars_data_filter.
      * assert (vars_data (List.filter (kept declarative) existing) !! name = None) as ->.
        { apply vars_data_None. intros (e & -> & [He Hk]%elem_of_filter_bool)%list_elem_of_fmap.
          apply Hr. exists e. by rewrite <-kept_spec. }
        assert ((λ p, user_env p.1 p.2) <$> sets = (λ v, user_env (ev_name v) (ev_value v)) <$> vars) as ->
          by (unfold sets; by rewrite <-list_fmap_compose).
        by destruct (vars_data _ !! name).
      * intros p Hp <-. apply bool_decide_eq_true_2. rewrite Htol. set_solver.
Qed.

(** A full replacement leaves managed variables exactly as they are and replaces all
    others by those of the request; it is refused, with the error that becomes a 409,
    precisely when the request would change a managed variable. *)
Theorem put_env_spec vars existing :
  NoDup (env_Name <$> existing) →
  match put_env declarative vars existing with
  | inl err => (∃ v, v ∈ vars ∧ ¬ allowed existing (ev_name v) (ev_value v)) ∧
      is_Some (errors_As "envConflictError" err)
  | inr l => (∀ v, v ∈ vars → allowed existing (ev_name v) (ev_value v)) ∧
      (∀ e, e ∈ existing → managed e → e ∈ l) ∧
      ∀ name, vars_data l !! name = after_put vars existing name
  end.
Proof. apply put_env_cases. Qed.

(** A client that sends back what it was given. *)
Definition restated e : Env := if kept declarative e then e else user_env (env_Name e) (env_Value e).

(** C40: reading the variables and writing them back changes nothing: every variable
    keeps its value, and a managed one stays managed. *)
Theorem put_env_roundtrip existing :
  NoDup (env_Name <$> existing) →
  (∀ name, is_Some (declarative !! name) → name ∈ env_Name <$> existing) →
  ∃ l, put_env declarative ((λ e, envResponseVar e true) <$> existing) existing = inr l ∧
    l ≡ₚ restated <$> existing.
Proof.
  intros Hnd Hall. unfold put_env. rewrite <-list_fmap_compose.
  set (sets := _ <$> existing).
  assert (sets = (λ e, (env_Name e, env_Value e)) <$> existing) as Hsets by done.
  pose proof (check_sets_spec existing sets ∅ Hnd) as Hc.
  destruct (check_sets _ _ sets ∅) as [err|tolerated].
  { exfalso. destruct Hc as [(n & v & Hin & Hn) _]. apply Hn.
    rewrite Hsets in Hin. apply list_elem_of_fmap in Hin as (e & [= -> ->] & He). split.
    - intros e' He' Heq _. by rewrite (nodup_env e e' existing Hnd He He' (eq_sym Heq)).
    - intros _. apply list_elem_of_fmap. by exists e. }
  destruct Hc as [_ Htol]. eexists. split; [done|].
  assert (∀ l, (∀ e, e ∈ l → e ∈ existing) →
    List.filter (kept declarative) l ++ ((λ p, user_env p.1 p.2) <$>
      List.filter (λ p, bool_decide (p.1 ∉ tolerated)) ((λ e, (env_Name e, env_Value e)) <$> l)) ≡ₚ
    restated <$> l) as Hperm; [|by apply Hperm].
  induction l as [|e l IH]; intros Hl; [done|]. simpl.
  assert (e ∈ existing) as He by (apply Hl; by left).
  assert (bool_decide (env_Name e ∉ tolerated) = negb (kept declarative e)) as ->.
  { apply eq_true_iff_eq. rewrite bool_decide_eq_true, negb_true_iff, Htol, <-not_true_iff_false, kept_spec.
    split.
    - intros Hn Hm. apply Hn. right. split; [|by exists e].
      rewrite Hsets, <-list_fmap_compose. apply list_elem_of_fmap. by exists e.
    - intros Hm [?%elem_of_empty|[_ (e' & He' & Heq & Hm')]]; [done|].
      by rewrite (nodup_env e' e existing Hnd He' He Heq) in Hm'. }
  assert (List.filter (kept declarative) l ++ ((λ p, user_env p.1 p.2) <$>
      List.filter (λ p, bool_decide (p.1 ∉ tolerated)) ((λ e, (env_Name e, env_Value e)) <$> l)) ≡ₚ
    restated <$> l) as IH' by (apply IH; intros e' ?; apply Hl; by right).
  unfold restated at 1. destruct (kept declarative e); simpl.
  - by rewrite IH'.
  - rewrite <-IH'. by rewrite Permutation_middle.
Qed.

Lemma assign_names name value l :
  env_Name <$> assign name value l =
  if bool_decide (name ∈ env_Name <$> l) then env_Name <$> l else (env_Name <$> l) ++ [name].
Proof.
  induction l as [|e l IH]; [done|]. cbn [assign].
  destruct (String.eqb_spec (env_Name e) name) as [Hn|Hne]; rewrite !fmap_cons.
  - cbn [env_Name user_env]. rewrite Hn, bool_decide_true; [done|by left].
  - rewrite IH. assert (bool_decide (name ∈ env_Name e :: (env_Name <$> l)) =
                        bool_decide (name ∈ env_Name <$> l)) as ->.
    { apply bool_decide_ext. rewrite elem_of_cons. naive_solver. }
    by case_bool_decide.
Qed.

Lemma assign_nodup name value l :
  NoDup (env_Name <$> l) → NoDup (env_Name <$> assign name value l).
Proof.
  intros Hnd. rewrite assign_names. case_bool_decide as Hn; [done|].
  apply NoDup_app. split; [done|]. split; [by intros x Hx ->%list_elem_of_singleton|apply NoDup_singleton].
Qed.

Lemma elem_of_assign name value l e :
  NoDup (env_Name <$> l) →
  e ∈ assign name value l ↔ e = user_env name value ∨ e ∈ l ∧ env_Name e ≠ name.
Proof.
  induction l as [|x l IH]; intros Hnd; cbn [assign].
  - rewrite list_elem_of_singleton, elem_of_nil. naive_solver.
  - apply NoDup_cons in Hnd as [Hx Hnd].
    destruct (String.eqb_spec (env_Name x) name) as [Hn|Hn]; rewrite !elem_of_cons.
    + assert (e ∈ l → env_Name e ≠ name).
      { intros He Heq. apply Hx, list_elem_of_fmap. exists e. split; [congruence|done]. }
      naive_solver.
    + rewrite IH by done. naive_solver.
Qed.

(** The assignments of a patch, those to tolerated names left out. *)
Lemma assigns_spec (tolerated : gset string) sets l :
  NoDup sets.*1 → NoDup (env_Name <$> l) →
  let l' := fold_left (λ l p, if bool_decide (p.1 ∈ tolerated) then l else assign p.1 p.2 l) sets l in
  NoDup (env_Name <$> l') ∧
  ∀ e, e ∈ l' ↔
    (∃ value, (env_Name e, value) ∈ sets ∧ (env_Name e ∉ tolerated) ∧ e = user_env (env_Name e) value) ∨
    (e ∈ l ∧ (env_Name e ∉ sets.*1 ∨ env_Name e ∈ tolerated)).
Proof.
  revert l. induction sets as [|[name value] sets IH]; intros l Hs Hl; simpl.
  { split; [done|]. intros e. split; [intros He; right; split; [done|left; apply not_elem_of_nil]|].
    intros [(? & ?%elem_of_nil & _)|[? _]]; done. }
  apply NoDup_cons in Hs as [Hname Hs].
  destruct (IH (if bool_decide (name ∈ tolerated) then l else assign name value l) Hs) as [Hnd Hin].
  { case_bool_decide; [done|by apply assign_nodup]. }
  split; [done|]. intros e. rewrite Hin. clear IH Hin Hnd.
  assert (∀ v, (name, v) ∈ sets → False) as Hno.
  { intros v Hv. apply Hname, list_elem_of_fmap. by exists (name, v). }
  case_bool_decide as Ht.
  - split.
    + intros [(v & Hv & Hnt & ->)|[He Hc]]; [left; exists v; split; [by right|done]|].
      right. split; [done|]. rewrite elem_of_cons.
      destruct (decide (env_Name e = name)) as [->|]; [by right|]. naive_solver.
    + intros [(v & [[= ? ->]|Hv]%elem_of_cons & Hnt & He)|[He Hc]]; [congruence|left; by exists v|].
      right. split; [done|]. rewrite elem_of_cons in Hc. naive_solver.
  - rewrite elem_of_assign by done. split.
    + intros [(v & Hv & Hnt & He)|[[->|[He Hne]] Hc]].
      * left. exists v. split; [by right|done].
      * left. exists value. split; [by left|done].
      * right. split; [done|]. rewrite elem_of_cons. naive_solver.
    + intros [(v & [[= Hn ->]|Hv]%elem_of_cons & Hnt & He)|[He Hc]].
      * right. split; [left; congruence|]. rewrite Hn. by left.
      * left. by exists v.
      * right. rewrite elem_of_cons in Hc. split; [right; split; [done|]|]; naive_solver.
Qed.

Lemma check_unsets_spec unset :
  match check_unsets declarative unset with
  | Some err => (∃ k, k ∈ unset ∧ is_Some (declarative !! k)) ∧ is_Some (errors_As "envConflictError" err)
  | None => ∀ k, k ∈ unset → declarative !! k = None
  end.
Proof.
  induction unset as [|k unset IH]; simpl; [by intros k ?%elem_of_nil|].
  destruct (declarative !! k) as [src|] eqn:Ed.
  { split; [|by eexists]. exists k. split; [by left|by rewrite Ed]. }
  destruct (check_unsets _ unset).
  - destruct IH as [(k' & Hk & Hd) Herr]. split; [|done]. exists k'. split; [by right|done].
  - intros k' [->|Hk]%elem_of_cons; [done|by apply IH].
Qed.

(** Removing the variable is refused. *)
Definition protected existing (name : string) : Prop :=
  is_Some (declarative !! name) ∨
  ∃ e, e ∈ existing ∧ env_Name e = name ∧ user_source (env_Source e) = false.

(** A patch sets what it sets and removes what it unsets, the sets winning, and
    leaves every other variable alone; managed variables stay as they are; and it is
    refused precisely when it would remove or change a managed one. *)
Theorem patch_env_spec R `{!MapRangeOk R} req existing :
  NoDup (env_Name <$> existing) →
  match patch_env R declarative req existing with
  | inl err =>
    (((∃ k, k ∈ pe_Unset req ∧ protected existing k)) ∨
     (∃ name value, pe_Set req !! name = Some value ∧
        ¬ allowed (List.filter (λ e, bool_decide (env_Name e ∉ pe_Unset req)) existing) name value)) ∧
    is_Some (errors_As "envConflictError" err)
  | inr l =>
    NoDup (env_Name <$> l) ∧ (∀ e, e ∈ existing → managed e → e ∈ l) ∧
    (∀ k, k ∈ pe_Unset req → ¬ protected existing k) ∧
    ∀ name, vars_data l !! name =
      match pe_Set req !! name with
      | Some value => Some value
      | None => if bool_decide (name ∈ pe_Unset req) then None else vars_data existing !! name
      end
  end.
Proof.
  intros Hnd. unfold patch_env. pose proof (check_unsets_spec (pe_Unset req)) as Hu.
  destruct (check_unsets _ _) as [err|].
  { destruct Hu as [(k & Hk & Hd) Herr]. split; [|done]. left. exists k. split; [done|by left]. }
  destruct (List.find _ existing) as [e|] eqn:Ef.
  { apply find_some in Ef as [He%list_elem_of_In [Hun%bool_decide_eq_true Hsrc%negb_true_iff]%andb_true_iff].
    split; [|by eexists]. left. exists (env_Name e). split; [done|]. right. by exists e. }
  assert (∀ k, k ∈ pe_Unset req → ¬ protected existing k) as Hfree.
  { intros k Hk [Hd|(e & He & <- & Hsrc)]; [by rewrite Hu in Hd by done; destruct Hd|].
    apply list_elem_of_In in He. pose proof (find_none _ _ Ef _ He) as H. cbn in H.
    by rewrite Hsrc, bool_decide_true in H by done. }
  assert (List.filter (λ e, negb (bool_decide (env_Name e ∈ pe_Unset req))) existing =
          List.filter (λ e, bool_decide (env_Name e ∉ pe_Unset req)) existing) as ->.
  { apply filter_ext. intros e. by rewrite bool_decide_not. }
  set (result := List.filter _ existing).
  assert (NoDup (env_Name <$> result)) as Hndr by by apply NoDup_fmap_filter_bool.
  pose proof (check_sets_spec result (range (pe_Set req)) ∅ Hndr) as Hc.
  destruct (check_sets _ _ _ ∅) as [err|tolerated].
  { destruct Hc as [(n & v & Hin%elem_of_range & Hn) Herr]. split; [|done]. right. by exists n, v. }
  destruct Hc as [Hal Htol].
  destruct (assigns_spec tolerated (range (pe_Set req)) result (range_keys_nodup _) Hndr) as [Hndl Hin].
  set (l := fold_left _ _ result) in *.
  assert (∀ e, e ∈ result ↔ e ∈ existing ∧ env_Name e ∉ pe_Unset req) as Hres
    by (intros e; unfold result; by rewrite elem_of_filter_bool, bool_decide_eq_true).
  assert (∀ n, n ∈ (range (pe_Set req)).*1 ↔ is_Some (pe_Set req !! n)) as Hkeys.
  { intros n. rewrite list_elem_of_fmap. split.
    - intros ([k v] & -> & Hk%elem_of_range). by exists v.
    - intros [v Hv]. exists (n, v). split; [done|by apply elem_of_range]. }
  split; [done|]. split; [|split; [done|]].
  - intros e He Hm. apply Hin. right.
    assert (e ∈ result) as Her.
    { apply Hres. split; [done|]. intros Hun. apply (Hfree _ Hun).
      destruct Hm as [?|?]; [right; by exists e|by left]. }
    split; [done|]. destruct (decide (env_Name e ∈ (range (pe_Set req)).*1)); [right|by left].
    apply Htol. right. split; [done|]. by exists e.
  - intros name. destruct (pe_Set req !! name) as [value|] eqn:Es.
    + destruct (decide (name ∈ tolerated)) as [Ht|Ht].
      * assert (Ht' := Ht). apply Htol in Ht' as [?%elem_of_empty|[_ (e & He & <- & Hm)]]; [done|].
        assert (e ∈ l) as Hel by (apply Hin; right; split; [done|by right]).
        rewrite vars_data_elem by done. f_equal.
        apply (proj1 (Hal (env_Name e) value ltac:(by apply elem_of_range))); done.
      * assert (user_env name value ∈ l) as Hel.
        { apply Hin. left. exists value. simpl. split; [by apply elem_of_range|done]. }
        by apply (vars_data_elem l _ Hndl Hel).
    + assert (∀ e, env_Name e = name → (e ∈ l ↔ e ∈ existing ∧ name ∉ pe_Unset req)) as Hsame.
      { intros e <-. rewrite Hin, Hres. split.
        - intros [(v & Hv%elem_of_range & _)|[? _]]; [congruence|done].
        - intros He. right. split; [done|]. left. rewrite Hkeys, Es. by intros []. }
      destruct (vars_data l !! name) as [v|] eqn:Ev.
      * assert (name ∈ env_Name <$> l) as (e & -> & He)%list_elem_of_fmap.
        { destruct (decide (name ∈ env_Name <$> l)) as [|Hn]; [done|].
          apply vars_data_None in Hn. congruence. }
        rewrite (vars_data_elem l e Hndl He) in Ev. simplify_eq.
        apply Hsame in He as [He Hun]; [|done]. rewrite bool_decide_false by done.
        by rewrite vars_data_elem.
      * apply vars_data_None in Ev. case_bool_decide as Hun; [done|]. symmetry.
        apply vars_data_None. intros (e & -> & He)%list_elem_of_fmap. apply Ev, list_elem_of_fmap.
        exists e. split; [done|]. by apply Hsame.
Qed.
End editing.

(** The sources the program computes are not empty. *)
Lemma declarativeEnvSources_nonempty app envName name source :
  declarativeEnvSources app envName !! name = Some source → source ≠ "".
Proof.
  unfold declarativeEnvSources. destruct (List.find _ _) as [envSpec|]; [|by rewrite lookup_empty].
  assert (∀ m : gmap string string, (∀ n s, m !! n = Some s → s ≠ "") →
    ∀ l, fold_left (λ sources ev, match EnvVar_ValueFrom ev with
      | None => sources
      | Some src =>
        match EnvVarSource_FromBinding src with
        | Some _ => <[EnvVar_Name ev := "binding"]> sources
        | None => if negb (String.eqb (EnvVarSource_SecretRef src) "")
                  then <[EnvVar_Name ev := "secret reference"]> sources else sources
        end
      end) l m !! name = Some source → source ≠ "") as Hf; [|apply Hf; intros n s; by rewrite lookup_empty].
  intros m Hm l. revert m Hm. induction l as [|ev l IH]; intros m Hm; [apply Hm|]. simpl. apply IH.
  repeat case_match; try done; intros n s; rewrite lookup_insert; case_decide; (by intros [= <-]) || apply Hm.
Qed.
