(* ===== verification/ApiEnvHandlers.v ===== *)
(** * The handlers of environment variables: what they promise

    Access, redaction and the effect of the handlers of [ApiEnv], from the request to the
    stored Secret, and their evaluation on a cluster. *)

From S2P Require Import Prelude GoStrings GoNum GoText Json JsonStruct Kube Core Api Constants Authz EnvStore Activity ApiServer Cluster ApiEnv.

Section access.
Context {W : Type} {CP : KubeClient W Project} {CM : KubeClient W ProjectMember}
  {CC : KubeClient W ConfigMap} {CA : KubeClient W App} {CS : KubeClient W Secret}
  {LA : KubeListIn W App} {KR : KubeRetry W} (R : MapRange).
Context (details : error → option (string * string)) (json_error : string → string)
  (now : W → Time) (ctx : nat → option error) (activityStore : bool) (lastRead : W → list Env).
Context (I : relation W) {HI : PreOrder I} {RP : KubeReads W Project I}
  {RM : KubeReads W ProjectMember I} {RA : KubeReads W App I} {RS : KubeReads W Secret I}.

Local Abbreviation granted := (granted I).

Lemma reads_resolveAppEnv r : reads I (resolveAppEnv (B := env_body) details r).
Proof. unfold resolveAppEnv, getProject. reads. Qed.
#[local] Hint Resolve reads_resolveAppEnv : access.

Lemma reads_need_namespace {A} (res : error + A) : reads I (need_namespace res).
Proof. unfold need_namespace. reads. Qed.
Lemma reads_check_plaintext r res : reads I (check_plaintext r res).
Proof. unfold check_plaintext. reads. Qed.
Lemma getEnvs_reads ns name w : I w (getEnvs R ns name w).1.
Proof.
  unfold getEnvs, getSecret. pose proof (kget_reads (I := I) (Obj := Secret) (ns, name) w) as H.
  destruct (kget (ns, name) w) as [w1 [err|s]]; [|done]. simpl. by case_match.
Qed.
Lemma reads_Get ns app : reads (B := env_body) I (try_ details (Get R ns app)).
Proof. reads. apply getEnvs_reads. Qed.
Lemma reads_GetSharedSource ns : reads (B := env_body) I (try_ details (GetSharedSource R ns)).
Proof. reads. apply getEnvs_reads. Qed.
#[local] Hint Resolve reads_need_namespace reads_check_plaintext reads_Get reads_GetSharedSource : access.

Lemma errs_resolveAppEnv r : errs (resolveAppEnv (B := env_body) details r).
Proof. unfold resolveAppEnv, getProject. errs. Qed.
Lemma errs_need_namespace {A} (res : error + A) : errs (W := W) (need_namespace res).
Proof. unfold need_namespace. errs. Qed.
Lemma errs_check_plaintext r res : errs (check_plaintext r res).
Proof. unfold check_plaintext. errs. Qed.
#[local] Hint Resolve errs_resolveAppEnv errs_need_namespace errs_check_plaintext : access.

(** Nothing is written by a request that reads variables, and by one that edits them
    nothing unless the policy allows the principal to update apps of the project in the
    environment the request names. *)
Theorem env_edits_authorized r :
  reads I (GetEnv R details r) ∧ reads I (GetSharedVars R details r) ∧
  gated I (granted r "app" (URLParam r "project") (queryEnv r) ActionUpdate)
    (PutEnv R details json_error now ctx activityStore lastRead r) ∧
  gated I (granted r "app" (URLParam r "project") (queryEnv r) ActionUpdate)
    (PatchEnv R details json_error now ctx activityStore r) ∧
  gated I (granted r "app" (URLParam r "project") (queryEnv r) ActionUpdate)
    (ImportEnv R details now ctx activityStore r) ∧
  gated I (granted r "app" (URLParam r "project") "" ActionUpdate)
    (PutSharedVars R details json_error now ctx activityStore r).
Proof.
  repeat apply conj; try apply (gated_authorize I r (app_resource _ _) ActionUpdate).
  - unfold GetEnv. reads.
  - unfold GetSharedVars, getProject. reads.
Qed.

(** The value of a variable is in an answer only for a principal who may update it. *)
Definition shown_to_editors (r : request) (env : string) (w : W) (vars : list envVarResponse) : Prop :=
  ∀ v, v ∈ vars → (ev_value v = "" ∧ ev_redacted v = true) ∨
    granted r "app" (URLParam r "project") env ActionUpdate w.

Lemma resolveAppEnv_env r w w' app env :
  resolveAppEnv (B := env_body) details r w = (w', inr (app, env)) → env = queryEnv r.
Proof.
  unfold resolveAppEnv, mbind, H_bind, require.
  destruct (getProject _ _ w) as [w1 [?|p]]; [done|].
  repeat case_match; simplify_eq; by intros [= _ _ <-] || done.
Qed.

Lemma check_plaintext_granted r projectName env w w' :
  check_plaintext r (app_resource projectName env) w = (w', inr true) →
  granted r "app" projectName env ActionUpdate w.
Proof.
  unfold check_plaintext, mbind, H_bind, call, canAuthorize.
  destruct (rq_principal r) as [p|] eqn:Ep; [|by intros [= ]].
  destruct (Authorize p _ _ w) as [w1 [ok [err|]]] eqn:Ea; [done|].
  intros [= -> ->]. exists p, (app_resource projectName env), w. by rewrite Ea.
Qed.

(** C18: secret values never reach a principal who could not change them: what the two read
    endpoints answer hides the value of every variable, and says so, unless the policy
    allows the principal to update the apps of the environment. *)
Theorem values_need_update_right r w w' rep vars :
  rp_body rep = inr (EnvVars vars) →
  ((GetEnv R details r w = (w', inl rep) → shown_to_editors r (queryEnv r) w vars) ∧
   (GetSharedVars R details r w = (w', inl rep) → shown_to_editors r "" w vars)).
Proof.
  intros Hb. destruct rep as [code body]. simpl in Hb. subst body. split; intros H v Hv.
  - unfold GetEnv in H. value_step I H w. value_step I H w0. destruct a0 as [app envName].
    value_step I H w1. value_step I H w2. value_step I H w3.
    apply resolveAppEnv_env in Hm0 as ->. injection H as <- <- <-.
    destruct a2; [right|left].
    + apply (granted_back I r _ _ _ _ w w3); [chain I|].
      by eapply check_plaintext_granted.
    + apply list_elem_of_fmap in Hv as (e & -> & _). done.
  - unfold GetSharedVars, getProject in H. value_step I H w. value_step I H w0. value_step I H w1.
    value_step I H w2. injection H as <- <- <-. destruct a2; [right|left].
    + apply (granted_back I r _ _ _ _ w w2); [chain I|].
      by eapply check_plaintext_granted.
    + apply list_elem_of_fmap in Hv as (e & -> & _). done.
Qed.
End access.

Section effect.
Context {W : Type} {CP : KubeClient W Project} {CM : KubeClient W ProjectMember}
  {CC : KubeClient W ConfigMap} {CA : KubeClient W App} {CS : KubeClient W Secret}
  {OA : KubeClientOk W App} {OS : KubeClientOk W Secret}
  {KR : KubeRetry W} {KROK : KubeRetryOk W} (R : MapRange) {HR : MapRangeOk R}.
Context {AS : KubeApart W App Secret} {SA : KubeApart W Secret App}
  {CCS : KubeApart W ConfigMap Secret} {CCA : KubeApart W ConfigMap App}.
Context (details : error → option (string * string)) (json_error : string → string)
  (now : W → Time) (ctx : nat → option error) (activityStore : bool) (lastRead : W → list Env).

(** The controller is told to look at the app again. *)
Definition poked (key : NamespacedName) (w : W) : Prop :=
  ∃ app, kstore w !! key = Some app ∧
    is_Some (meta_Annotations (App_ObjectMeta app) !! "mortise.dev/env-updated").

Lemma poke_quiet app w :
  let key := (meta_Namespace (App_ObjectMeta app), meta_Name (App_ObjectMeta app)) in
  kquiet (Obj := App) w → is_Some (kstore (Obj := App) w !! key) →
  ∃ w', pokeAppForReconcile now app w = (w', None) ∧ unaffected Secret w w' ∧ poked key w'.
Proof.
  intros key Hq [cur Hcur]. unfold pokeAppForReconcile. fold key. simpl.
  destruct (kget_quiet key w Hq) as (w1 & Hq1 & Hs1 & Hg). rewrite Hcur in Hg.
  pose proof (kget_within (I := unaffected Secret) (Obj := App) key w) as A1.
  rewrite Hg in A1 |- *. simpl in A1.
  set (new := with_env_updated _ cur).
  assert (obj_key new = key) as Hk by (rewrite <-(kstore_key _ _ _ Hcur); done).
  destruct (kupdate_quiet new w1 cur Hq1) as (w2 & rv & Hq2 & Hu & Hs2);
    [by rewrite Hk, Hs1|done|].
  pose proof (kupdate_within (I := unaffected Secret) new w1) as A2. rewrite Hu in A2 |- *. simpl in A2.
  exists w2. split; [done|]. split; [by etrans|].
  eexists. rewrite Hs2, Hk, lookup_insert_eq. split; [done|]. simpl. rewrite lookup_insert_eq. by eexists.
Qed.

(** Replacing the variables of an app, when nobody else writes: the request that would
    change a managed variable is answered 409 and nothing is stored; any other one is
    answered 200, the Secret of the app in that environment holds the managed variables
    unchanged and exactly the request's otherwise, no other Secret changes, and the app is
    marked for the controller. *)
Theorem PutEnv_replaces r w w1 w2 w' rep app envName project body vars :
  authorize (B := env_body) r (app_resource (URLParam r "project") (queryEnv r)) ActionUpdate w = (w1, inr ()) →
  resolveAppEnv (B := env_body) details r w1 = (w2, inr (app, envName)) →
  ProjectFromControlNs (meta_Namespace (App_ObjectMeta app)) = (project, true) →
  rq_body r = inr body → decode_vars body = Some vars →
  kquiet (Obj := Secret) w2 → kquiet (Obj := App) w2 →
  let appKey := (meta_Namespace (App_ObjectMeta app), meta_Name (App_ObjectMeta app)) in
  is_Some (kstore (Obj := App) w2 !! appKey) →
  let key := (EnvNamespace project envName, AppEnvSecretName (meta_Name (App_ObjectMeta app))) in
  let old := envs_of R (kstore w2 !! key) in
  let declarative := declarativeEnvSources app envName in
  serve (PutEnv R details json_error now ctx activityStore lastRead r) w = (w', rep) →
  match put_env declarative vars old with
  | inl err => ∃ msg, errors_As "envConflictError" err = Some msg ∧
      rep = Reply StatusConflict (inl msg) ∧ kstore (Obj := Secret) w' = kstore w2
  | inr l => valid_names l →
      rep = Reply StatusOK (inr updated) ∧ poked appKey w' ∧
      ∃ s, kstore w' = <[key := s]> (kstore w2) ∧
        ∀ name, sec_Data s !! name = after_put declarative vars old name
  end.
Proof.
  intros Hauth Hres Hp Hb Hd HqS HqA appKey Happ key old declarative.
  assert (NoDup (env_Name <$> old)) as Hnd by (apply envs_of_nodup; apply _).
  pose proof (put_env_cases declarative (declarativeEnvSources_nonempty app envName) vars old Hnd) as Hput.
  unfold serve, PutEnv. rewrite (bind_run _ _ _ _ _ Hauth), (bind_run _ _ _ _ _ Hres).
  unfold decode_body, envNamespace, need_project. rewrite Hb, Hd, Hp.
  do 3 run_ret w2.
  set (mutate := put_env (declarativeEnvSources app envName) vars).
  fold declarative in mutate.
  destruct (put_env declarative vars old) as [err|l] eqn:Ep.
  - destruct Hput as [_ [msg Herr]].
    destruct (errors_As_plain _ _ _ Herr) as [Hreason Hskip].
    destruct (applySecret_refused R key.1 key.2
      (env_labels project envName (meta_Name (App_ObjectMeta app))) mutate w2 err) as (w3 & Ha & _ & Hs3);
      [done|done|apply Hskip|unfold IsConflict, is_reason; by rewrite Hreason|].
    rewrite (bind_run (call _) _ w2 w3 (Some err)) by (unfold call, Apply, key in *; cbn [fst snd] in Ha; by rewrite Ha).
    unfold writeEnvStoreError. rewrite Herr. intros [= <- <-]. by exists msg.
  - intros Hrun Hv. revert Hrun. destruct Hput as (_ & _ & Hafter).
    destruct (applySecret_quiet R key.1 key.2
      (env_labels project envName (meta_Name (App_ObjectMeta app))) mutate w2 l) as (w3 & s & Ha & _ & Hs3 & _ & Hdata & _);
      [done|done|done|].
    pose proof (applySecret_within R (unaffected App) key.1 key.2
      (env_labels project envName (meta_Name (App_ObjectMeta app))) mutate w2) as [HsA HqA3].
    rewrite Ha in HsA, HqA3. simpl in HsA, HqA3.
    rewrite (bind_run (call _) _ w2 w3 None) by (unfold call, Apply, key in *; cbn [fst snd] in Ha; by rewrite Ha).
    run_ret w3.
    destruct (put_delta _ _ _) as [added removed]. unfold env_changed.
    destruct (poke_quiet app w3) as (w4 & Hpoke & [Hs4 _] & Hpoked); [auto|by rewrite HsA|].
    rewrite (bind_run (do_ _ _) _ w3 w4 ()) by (unfold do_, mbind, H_bind, call; by rewrite Hpoke).
    edestruct (recordActivity_frame (B := env_body) now ctx activityStore (both (unaffected Secret) (unaffected App))) as (w5 & Hrec & [Hs5 _] & [Ha5 _]).
    rewrite (bind_run _ _ _ _ _ Hrec). intros [= <- <-]. split; [done|]. split; [unfold poked; by rewrite Ha5|].
    exists s. rewrite Hs5, Hs4, Hs3. split; [done|]. intros name. by rewrite Hdata.
Qed.
End effect.

(** ** The handlers on a cluster *)

Module EnvRuns.
#[local] Existing Instance range_sorted_order.
Abbreviation R := range_sorted_order.

Definition var (name value source : string) : Env :=
  {| env_Name := name; env_Value := value; env_Source := source |}.
Definition incoming (name value : string) : envVarResponse := envResponseVar (user_env name value) true.

(** The spec declares [DATABASE_URL] by a binding; the platform generated [PORT]. *)
Definition declared : gmap string string := {["DATABASE_URL" := "binding"]}.
Definition current : list Env :=
  [var "DATABASE_URL" "postgres://db" "binding"; var "MODE" "blue" "user"; var "PORT" "8080" "generated"].

Ltac distinct := apply (bool_decide_unpack _); vm_compute; exact I.
Lemma declared_sources name source : declared !! name = Some source → source ≠ "".
Proof. unfold declared. rewrite lookup_singleton. by case_decide; intros [= <-]. Qed.

Lemma put_env_spec_witness :
  match put_env declared [incoming "PORT" "8080"; incoming "COLOR" "red"] current with
  | inl _ => False
  | inr l => vars_data l !! "COLOR" = Some "red" ∧ vars_data l !! "MODE" = None
  end.
Proof.
  pose proof (put_env_spec declared declared_sources [incoming "PORT" "8080"; incoming "COLOR" "red"] current
    ltac:(distinct)) as H.
  destruct (put_env _ _ _) as [err|l] eqn:E; [vm_compute in E; discriminate|].
  destruct H as (_ & _ & H). split; rewrite H; vm_compute; reflexivity.
Defined.

Lemma put_env_roundtrip_witness :
  ∃ l, put_env declared ((λ e, envResponseVar e true) <$> current) current = inr l ∧
    l ≡ₚ restated declared <$> current.
Proof.
  apply (put_env_roundtrip declared declared_sources current); [distinct|].
  intros name H. unfold declared in H. apply lookup_singleton_is_Some in H as <-. by left.
Defined.

Definition patch : patchEnvRequest := {| pe_Set := {["COLOR" := "red"; "PORT" := "8080"]}; pe_Unset := ["MODE"] |}.

Lemma patch_env_spec_witness :
  match patch_env R declared patch current with
  | inl _ => False
  | inr l => vars_data l !! "COLOR" = Some "red" ∧ vars_data l !! "MODE" = None ∧ vars_data l !! "PORT" = Some "8080"
  end.
Proof.
  pose proof (patch_env_spec declared R patch current ltac:(distinct)) as H.
  destruct (patch_env _ _ _ _) as [err|l] eqn:E; [vm_compute in E; discriminate|].
  destruct H as (_ & _ & _ & H). repeat split; rewrite H; vm_compute; reflexivity.
Defined.

(** *** A cluster with one project and one app *)

Definition shop : Project :=
  with_Project_Spec (with_ProjectSpec_Environments
    [{| ProjectEnvironment_Name := "production"; ProjectEnvironment_DisplayOrder := 0;
        ProjectEnvironment_Restricted := false; ProjectEnvironment_Preview := false |}] ProjectSpec_zero)
    (with_Project_ObjectMeta (with_name "shop" ObjectMeta_zero) Project_zero).

Definition web : App :=
  with_App_ObjectMeta (with_name "web" (with_namespace "pj-shop" ObjectMeta_zero)) App_zero.

Definition member (role : ProjectRole) : ProjectMember :=
  {| ProjectMember_ObjectMeta := with_name (MemberCRDName "dev@acme.io") (with_namespace "pj-shop" ObjectMeta_zero);
     ProjectMember_Spec :=
       {| ProjectMemberSpec_Email := "dev@acme.io"; ProjectMemberSpec_Project := "shop";
          ProjectMemberSpec_Role := role |};
     ProjectMember_Status := ProjectMemberStatus_zero |}.

Definition web_env : Secret :=
  buildSecret R "pj-shop-production" "web-env" [var "MODE" "blue" "user"; var "PORT" "8080" "generated"] ∅.

Definition world (role : ProjectRole) : cluster :=
  {| cl_projects := stored_now [shop]; cl_members := stored_now [member role]; cl_apps := stored_now [web];
     cl_previews := nothing; cl_secrets := stored_now [web_env]; cl_configmaps := nothing;
     cl_namespaces := nothing; cl_rolebindings := nothing;
     cl_buildruns := nothing |}.

Definition req (body : string) : request :=
  {| rq_principal := Some {| Principal_ID := "1"; Principal_Email := "dev@acme.io";
                             Principal_Role := RoleMember; Principal_PasswordGen := 0 |};
     rq_params := {["project" := "shop"; "app" := "web"]}; rq_query := {["environment" := "production"]};
     rq_header := ∅; rq_body := inr body |}.

(** JSON written with single quotes. *)
Definition json_text (s : string) : string := replace_all s "'" (String dquote "").

Definition details : error → option (string * string) := λ _, None.
Definition now : cluster → Time := λ _, 1770000000000000000%Z.
Definition ctx : nat → option error := λ _, None.
Definition last : cluster → list Env := λ _, [].

Example viewer_sees_redacted :
  (serve (GetEnv R details (req "")) (world ProjectRoleViewer)).2.(rp_body) =
    inr (EnvVars [envResponseVar (var "MODE" "" "user") false; envResponseVar (var "PORT" "" "generated") false]).
Proof. vm_compute. reflexivity. Qed.

Definition body : string := json_text "[{'name':'COLOR','value':'red'}]".
Definition dev_world : cluster := world ProjectRoleDeveloper.
Definition put (r : request) : cluster * reply env_body :=
  serve (PutEnv R details id now ctx true last r) dev_world.

Definition sent : list envVarResponse :=
  [{| ev_name := "COLOR"; ev_value := "red"; ev_source := ""; ev_redacted := false;
      ev_bindingRef := ""; ev_bindingKey := ""; ev_secretRef := "" |}].
(** The app as the API server returns it. *)
Definition web0 : App := obj_with_rv "0" web.
Definition before : list Env :=
  envs_of R (kstore dev_world !! (EnvNamespace "shop" "production", AppEnvSecretName (meta_Name (App_ObjectMeta web0)))).

Lemma PutEnv_replaces_witness :
  (put (req body)).2 = Reply StatusOK (inr updated) ∧
  poked (W := cluster) ("pj-shop", "web") (put (req body)).1.
Proof.
  assert (put_env (declarativeEnvSources web0 "production") sent before =
    inr [var "PORT" "8080" "generated"; var "COLOR" "red" "user"]) as Hput by (vm_compute; reflexivity).
  destruct (put (req body)) as [w' rep] eqn:E.
  pose proof (PutEnv_replaces R details id now ctx true last (req body) dev_world dev_world dev_world w' rep web0
    "production" "shop" body sent) as H.
  cbv zeta in H. fold before in H. rewrite Hput in H.
  assert (valid_names [var "PORT" "8080" "generated"; var "COLOR" "red" "user"]) as Hv
    by (apply validateEnvVars_ok; vm_compute; reflexivity).
  assert (is_Some (kstore (Obj := App) dev_world !! ("pj-shop", "web"))) as Happ
    by (eexists; vm_compute; reflexivity).
  specialize (H ltac:(vm_compute; reflexivity) ltac:(vm_compute; reflexivity) ltac:(vm_compute; reflexivity)
    eq_refl ltac:(vm_compute; reflexivity) eq_refl eq_refl Happ E Hv).
  destruct H as (Hr & Hk & _). exact (conj Hr Hk).
Defined.

Lemma values_need_update_right_witness :
  shown_to_editors cluster_elapsed (req "") "production" (world ProjectRoleViewer)
    [envResponseVar (var "MODE" "" "user") false; envResponseVar (var "PORT" "" "generated") false].
Proof.
  apply (values_need_update_right R details cluster_elapsed (req "") (world ProjectRoleViewer) (world ProjectRoleViewer)
    (Reply StatusOK (inr (EnvVars [envResponseVar (var "MODE" "" "user") false;
                                   envResponseVar (var "PORT" "" "generated") false])))); vm_compute; reflexivity.
Defined.

Lemma env_edits_authorized_witness :
  gated cluster_elapsed (granted cluster_elapsed (req body) "app" (URLParam (req body) "project")
    (queryEnv (req body)) ActionUpdate) (PutEnv R details id now ctx true last (req body)).
Proof.
  exact (proj1 (proj2 (proj2 (env_edits_authorized R details id now ctx true last cluster_elapsed (req body))))).
Defined.

Example developer_replaces :
  let '(w, rep) := put (req body) in
  rp_code rep = 200%Z ∧
  sec_Data <$> (Sim.objects (cl_secrets w) !! ("pj-shop-production", "web-env")) =
    Some {["COLOR" := "red"; "PORT" := "8080"]}.
Proof. vm_compute. split; reflexivity. Qed.
End EnvRuns.
