(* ===== verification/ApiProjectEnvs.v ===== *)
(** * Environments of a project: [internal/api/project_envs.go]

    Listing, creating, renaming, cloning and deleting the environments of a project, with
    the namespaces, the overrides of the apps and the Secrets that follow them. *)

From S2P Require Import Prelude GoStrings GoNum GoText Json JsonStruct Kube Core Controller Api Constants Authz EnvStore Activity Nsrbac ApiServer ApiEnv.

Definition maxProjectEnvNameLen : Z := 63.

(** [previewProjectEnvNameRegex]: [^pr-[0-9]+$] *)
Definition previewProjectEnvNameRegex (name : string) : bool :=
  has_prefix "pr-" name && negb (String.eqb (str_drop 3 name) "") && sall is_digit (str_drop 3 name).

Abbreviation EnvHealth := string (only parsing).
Definition EnvHealthHealthy : EnvHealth := "healthy".
Definition EnvHealthWarning : EnvHealth := "warning".
Definition EnvHealthDanger : EnvHealth := "danger".
Definition EnvHealthUnknown : EnvHealth := "unknown".

Record projectEnvResponse := {
  pr_Name : string;
  pr_DisplayOrder : Z;
  pr_Health : EnvHealth;
  pr_Restricted : bool;
  pr_Preview : bool;
}.

Record createProjectEnvRequest := { cr_Name : string; cr_DisplayOrder : Z }.
Abbreviation cloneProjectEnvRequest := createProjectEnvRequest.

Record patchProjectEnvRequest := {
  pp_Name : option string;
  pp_DisplayOrder : option Z;
  pp_Restricted : option bool;
}.

Definition decode_create : decoder createProjectEnvRequest := struct
  [("name", string_field (λ s a, {| cr_Name := s; cr_DisplayOrder := cr_DisplayOrder a |}));
   ("displayOrder", int_field (λ n a, {| cr_Name := cr_Name a; cr_DisplayOrder := n |}))].

Definition decode_patch_env : decoder patchProjectEnvRequest := struct
  [("name", pointer_field "" string_elem (λ v a,
      {| pp_Name := v; pp_DisplayOrder := pp_DisplayOrder a; pp_Restricted := pp_Restricted a |}));
   ("displayOrder", pointer_field 0%Z int_elem (λ v a,
      {| pp_Name := pp_Name a; pp_DisplayOrder := v; pp_Restricted := pp_Restricted a |}));
   ("restricted", pointer_field false bool_elem (λ v a,
      {| pp_Name := pp_Name a; pp_DisplayOrder := pp_DisplayOrder a; pp_Restricted := v |}))].

Definition projectEnvExistsError (project name : string) : error :=
  Typed "projectEnvExistsError" (sprintf "environment %q already exists on project %q" [name; project]).

Definition validateProjectEnvName (name : string) : string :=
  if previewProjectEnvNameRegex name then "name uses reserved preview environment namespace pr-<number>" else "".

(** ** Health *)

(** The phase of the first status entry of the environment, or of the whole app. *)
Definition phaseForEnv (app : App) (envName : string) : AppPhase :=
  match List.find (λ es, String.eqb (EnvironmentStatus_Name es) envName)
          (AppStatus_Environments (App_Status app)) with
  | Some es => if negb (String.eqb (EnvironmentStatus_Phase es) "") then EnvironmentStatus_Phase es
               else AppStatus_Phase (App_Status app)
  | None => AppStatus_Phase (App_Status app)
  end.

(** [healthy, warn, danger, participating] *)
Definition count_health (envName : string) '(healthy, warn, danger, participating) (app : App)
    : nat * nat * nat * nat :=
  if negb (appParticipatesInEnv app envName) then (healthy, warn, danger, participating)
  else
    let phase := phaseForEnv app envName in
    let one_of l := existsb (String.eqb phase) l in
    if one_of [AppPhaseFailed; AppPhaseCrashLooping] then (healthy, warn, S danger, S participating)
    else if one_of [AppPhaseBuilding; AppPhaseDeploying; AppPhasePending; AppPhaseDegraded]
    then (healthy, S warn, danger, S participating)
    else if one_of [AppPhaseReady] then (S healthy, warn, danger, S participating)
    else (healthy, warn, danger, S participating).

Definition aggregateEnvHealth (envName : string) (apps : list App) : EnvHealth :=
  let '(healthy, warn, danger, participating) := fold_left (count_health envName) apps (0, 0, 0, 0) in
  if participating =? 0 then EnvHealthUnknown
  else if 0 <? danger then EnvHealthDanger
  else if 0 <? warn then EnvHealthWarning
  else if healthy =? participating then EnvHealthHealthy
  else EnvHealthUnknown.

(** ** Edits of the list of environments *)

Definition on_envs (f : list ProjectEnvironment → list ProjectEnvironment) (p : Project) : Project :=
  with_Project_Spec (with_ProjectSpec_Environments (f (ProjectSpec_Environments (Project_Spec p)))
                       (Project_Spec p)) p.

Definition declared (name : string) (envs : list ProjectEnvironment) : bool :=
  existsb (λ e, String.eqb (ProjectEnvironment_Name e) name) envs.

(** [append(l[:i], l[i+1:]...)] for the first element that is found. *)
Fixpoint without_first {A} (found : A → bool) (l : list A) : list A :=
  match l with
  | [] => []
  | x :: l => if found x then l else x :: without_first found l
  end.

Definition env_index (name : string) (envs : list ProjectEnvironment) : option nat :=
  fst <$> list_find (λ e, ProjectEnvironment_Name e = name) envs.

(** The first other environment with the display order. *)
Definition first_with_order (idx : nat) (order : Z) (envs : list ProjectEnvironment) : option nat :=
  fst <$> list_find (λ p, p.1 ≠ idx ∧ ProjectEnvironment_DisplayOrder p.2 = order) (imap pair envs).

(** Moves the environment to a display order and gives its old one to the environment
    that has it. *)
Definition reorder (idx : nat) (newOrder : Z) (envs : list ProjectEnvironment) : list ProjectEnvironment :=
  match envs !! idx with
  | None => envs
  | Some env =>
    let oldOrder := ProjectEnvironment_DisplayOrder env in
    if (oldOrder =? newOrder)%Z then envs
    else
      let envs := match first_with_order idx newOrder envs with
                  | Some i => alter (with_ProjectEnvironment_DisplayOrder oldOrder) i envs
                  | None => envs
                  end in
      alter (with_ProjectEnvironment_DisplayOrder newOrder) idx envs
  end.

Definition set_name (idx : nat) (name : option string) (envs : list ProjectEnvironment) :=
  match name with Some n => alter (with_ProjectEnvironment_Name n) idx envs | None => envs end.
Definition set_order (idx : nat) (order : option Z) (envs : list ProjectEnvironment) :=
  match order with Some n => reorder idx n envs | None => envs end.
Definition set_restricted (idx : nat) (restricted : option bool) (envs : list ProjectEnvironment) :=
  match restricted with Some b => alter (with_ProjectEnvironment_Restricted b) idx envs | None => envs end.

(** The edit of [updateProjectEnvironment]; the index of the environment is kept.  A name
    equal to the old one writes the same name. *)
Definition patched (project envName : string) (req : patchProjectEnvRequest)
    (envs : list ProjectEnvironment) : error + nat * list ProjectEnvironment :=
  match env_index envName envs with
  | None => inl (KubeError NotFound envName)
  | Some idx =>
    let taken := match pp_Name req with
                 | Some n => negb (String.eqb n envName) &&
                             match env_index n envs with Some i => negb (i =? idx) | None => false end
                 | None => false
                 end in
    if taken then inl (projectEnvExistsError project (default "" (pp_Name req)))
    else inr (idx, set_restricted idx (pp_Restricted req)
                     (set_order idx (pp_DisplayOrder req) (set_name idx (pp_Name req) envs)))
  end.

(** ** Cloning an environment of an app *)

Definition find_env (name : string) (envs : list Environment) : option Environment :=
  List.find (λ e, String.eqb (Environment_Name e) name) envs.

(** The variables of the clone: those of the Secret that are not bound, then those of the
    spec. *)
Definition clone_vars (secretVars : list Env) (source : option Environment) : gmap string EnvVar :=
  let m := fold_left (λ m ev,
    if String.eqb (env_Source ev) "binding" then m
    else <[env_Name ev := {| EnvVar_Name := env_Name ev; EnvVar_Value := env_Value ev;
                             EnvVar_ValueFrom := None |}]> m) secretVars ∅ in
  match source with
  | Some src => fold_left (λ m ev, <[EnvVar_Name ev := ev]> m) (Environment_Env src) m
  | None => m
  end.

Definition cloned_env (R : MapRange) (secretVars : list Env) (source : option Environment)
    (targetName : string) : Environment :=
  let cloned := with_Environment_Name targetName Environment_zero in
  let cloned := match source with
    | None => cloned
    | Some src =>
      with_Environment_Replicas (Environment_Replicas src)
      (with_Environment_Resources (Environment_Resources src)
      (with_Environment_LivenessProbe (Environment_LivenessProbe src)
      (with_Environment_ReadinessProbe (Environment_ReadinessProbe src)
      (with_Environment_StartupProbe (Environment_StartupProbe src)
      (with_Environment_Schedule (Environment_Schedule src)
      (with_Environment_ConcurrencyPolicy (Environment_ConcurrencyPolicy src)
      (with_Environment_Bindings (Environment_Bindings src)
      (with_Environment_Annotations (Environment_Annotations src)
      (with_Environment_BuildArgs (Environment_BuildArgs src) cloned)))))))))
    end in
  with_Environment_Env (sort_by EnvVar_Name (range (clone_vars secretVars source)).*2) cloned.

Definition on_app_envs (f : list Environment → list Environment) (app : App) : App :=
  with_App_Spec (with_AppSpec_Environments (f (AppSpec_Environments (App_Spec app))) (App_Spec app)) app.

(** The first override with the name. *)
Fixpoint rename_first (oldName newName : string) (envs : list Environment) : list Environment :=
  match envs with
  | [] => []
  | e :: envs => if String.eqb (Environment_Name e) oldName
                 then with_Environment_Name newName e :: envs
                 else e :: rename_first oldName newName envs
  end.

Definition overrides_env (name : string) (app : App) : bool :=
  existsb (λ e, String.eqb (Environment_Name e) name) (AppSpec_Environments (App_Spec app)).

(** What the handlers answer with. *)
Inductive project_env_body :=
  | ProjectEnvs (envs : list projectEnvResponse)
  | ProjectEnv (env : projectEnvResponse)
  | EnvDeleted (name : string).

Definition project_resource (projectName : string) : Resource :=
  {| Resource_Kind := "project"; Resource_Namespace := ""; Resource_Name := "";
     Resource_Project := projectName; Resource_Environment := "" |}.

Definition isInternalAppEnvSecret (appName : string) (secret : Secret) : bool :=
  String.eqb (meta_Name (sec_meta secret)) (appName +:+ "-env").

(** ** The operations *)

Section operations.
Context {W : Type} {CP : KubeClient W Project} {CA : KubeClient W App} {CS : KubeClient W Secret}
  {CN : KubeClient W Namespace} {CB : KubeClient W RoleBinding} {LA : KubeListIn W App}
  {LS : KubeListIn W Secret} {DN : KubeDelete W Namespace} {KR : KubeRetry W}
  {KRE : KubeRetry (W * ProjectEnvironment)} (R : MapRange).
(** The reader that bypasses the cache and the clientset, if they are wired. *)
Context (uncached : option (NamespacedName → E W Project)) (clientset : option (NamespacedName → E W Secret)).
(** The answer of the access review, [wait.PollUntilContextTimeout], the name of the
    service account and the namespace of the operator, the clock. *)
Context (accessReview : string → W → W * (error + bool))
  (PollUntilContextTimeout : (W → W * bool) → W → W * option error)
  (serviceAccountName operatorNamespace : string) (now : W → Time).

Definition getProjectFresh (name : string) : E W Project :=
  match uncached with
  | Some read => read ("", name)
  | None => kget ("", name)
  end.

Definition createProjectEnvironment (projectName : string) (req : createProjectEnvRequest)
    : W → W * option error :=
  RetryOnConflict (λ w,
    match getProjectFresh projectName w with
    | (w, inl err) => (w, Some err)
    | (w, inr current) =>
      if declared (cr_Name req) (ProjectSpec_Environments (Project_Spec current))
      then (w, Some (projectEnvExistsError (project_name current) (cr_Name req)))
      else kupdate (on_envs (λ envs, envs ++
             [{| ProjectEnvironment_Name := cr_Name req;
                 ProjectEnvironment_DisplayOrder := cr_DisplayOrder req;
                 ProjectEnvironment_Restricted := false; ProjectEnvironment_Preview := false |}]) current) w
    end).

(** The closure assigns the variable [updated] of the enclosing function, which is part of
    the state of the loop. *)
Definition updateProjectEnvironment (projectName envName : string) (req : patchProjectEnvRequest) (w : W)
    : W * (error + ProjectEnvironment) :=
  let '((w, updated), err) := RetryOnConflict (λ '(w, updated),
    match getProjectFresh projectName w with
    | (w, inl err) => ((w, updated), Some err)
    | (w, inr current) =>
      match patched (project_name current) envName req (ProjectSpec_Environments (Project_Spec current)) with
      | inl err => ((w, updated), Some err)
      | inr (idx, envs) =>
        match kupdate (on_envs (λ _, envs) current) w with
        | (w, Some err) => ((w, updated), Some err)
        | (w, None) => ((w, default updated (envs !! idx)), None)
        end
      end
    end) (w, ProjectEnvironment_zero) in
  match err with Some err => (w, inl err) | None => (w, inr updated) end.

Definition deleteProjectEnvironmentSpec (projectName envName : string) : W → W * option error :=
  RetryOnConflict (λ w,
    match getProjectFresh projectName w with
    | (w, inl err) => (w, Some err)
    | (w, inr current) =>
      if negb (declared envName (ProjectSpec_Environments (Project_Spec current)))
      then (w, Some (KubeError NotFound projectName))
      else kupdate (on_envs (without_first (λ e, String.eqb (ProjectEnvironment_Name e) envName)) current) w
    end).

Definition cloneProjectEnvironmentSpec (projectName : string) (req : cloneProjectEnvRequest)
    : W → W * option error :=
  RetryOnConflict (λ w,
    match getProjectFresh projectName w with
    | (w, inl err) => (w, Some err)
    | (w, inr current) =>
      if declared (cr_Name req) (ProjectSpec_Environments (Project_Spec current))
      then (w, Some (KubeError AlreadyExists (cr_Name req)))
      else kupdate (on_envs (λ envs, envs ++
             [{| ProjectEnvironment_Name := cr_Name req;
                 ProjectEnvironment_DisplayOrder := cr_DisplayOrder req;
                 ProjectEnvironment_Restricted := false; ProjectEnvironment_Preview := false |}]) current) w
    end).

(** *** Namespaces *)

Definition project_owner (project : Project) : OwnerReference :=
  {| owner_APIVersion := v1alpha1; owner_Kind := "Project"; owner_Name := project_name project;
     owner_UID := meta_UID (Project_ObjectMeta project);
     owner_Controller := Some true; owner_BlockOwnerDeletion := Some true |}.

Definition env_namespace (project : Project) (nsName : string) (labels : gmap string string) : Namespace :=
  {| ns_meta := with_owners [project_owner project] (with_labels labels (with_name nsName ObjectMeta_zero)) |}.

(** Whether the namespace is the project's, or the error. *)
Definition check_owner (project : Project) (nsName : string) (existing : Namespace) : option error :=
  let '(ownedByUs, ownedByOther) :=
    owner_scan (meta_UID (Project_ObjectMeta project)) (meta_OwnerReferences (ns_meta existing)) "" in
  let labels := meta_Labels (ns_meta existing) in
  if ownedByUs || (String.eqb (map_get labels ManagedByLabel) "mortise" &&
                   String.eqb (map_get labels ProjectLabel) (project_name project)) then None
  else if negb (String.eqb ownedByOther "")
  then Some (Errorf "namespace %q is already owned by Project %q" [nsName; ownedByOther])
  else Some (Errorf "namespace %q already exists and is not managed by mortise" [nsName]).

Definition ensureEnvNamespaceObject (project : Project) (nsName : string) (labels : gmap string string)
    : W → W * option error :=
  RetryOnConflict (λ w,
    match kget ("", nsName) w with
    | (w, inl err) =>
      if IsNotFound err then
        match kcreate (env_namespace project nsName labels) w with
        | (w, Some createErr) =>
          if IsAlreadyExists createErr then (w, Some (KubeError Conflict nsName)) else (w, Some createErr)
        | (w, None) => (w, None)
        end
      else (w, Some err)
    | (w, inr existing) =>
      match check_owner project nsName existing with
      | Some err => (w, Some err)
      | None =>
        match overlay R (meta_Labels (ns_meta existing)) labels false with
        | (_, false) => (w, None)
        | (labels, true) => kupdate (set_meta (with_labels labels (ns_meta existing)) existing) w
        end
      end
    end).

(** Polls until the access review allows writing Secrets; a failed review counts as a
    refusal. *)
Definition waitForNamespaceWriteAccess (ns : string) : W → W * option error :=
  PollUntilContextTimeout (λ w,
    match accessReview ns w with (w, inl _) => (w, false) | (w, inr allowed) => (w, allowed) end).

Definition env_ns_labels (project : Project) (envName : string) (active : bool) : gmap string string :=
  let labels : gmap string string := {[ManagedByLabel := "mortise"]} in
  if active then
    <[EnvironmentLabel := envName]> (<[NamespaceRoleLabel := NamespaceRoleEnv]>
      (<["mortise.dev/managed-by" := "project"]> (<[ProjectLabel := project_name project]> labels)))
  else labels.

Definition ensureProjectEnvNamespace (project : Project) (envName : string) (active : bool)
    : W → W * option error :=
  err_of (
    let nsName := EnvNamespace (project_name project) envName in
    _ ← run (ensureEnvNamespaceObject project nsName (env_ns_labels project envName active));
    if String.eqb serviceAccountName "" then mret tt
    else
      _ ← run (EnsureWriteBinding nsName serviceAccountName operatorNamespace);
      run (waitForNamespaceWriteAccess nsName)).

Definition deleteProjectEnvNamespace (project : Project) (envName : string) (w : W) : W * option error :=
  let nsName := EnvNamespace (project_name project) envName in
  match kget (Obj := Namespace) ("", nsName) w with
  | (w, inl err) => if IsNotFound err then (w, None) else (w, Some err)
  | (w, inr ns) => kdelete Namespace (obj_key ns) w
  end.

(** *** Secrets *)

Definition copied_secret (src : Secret) (targetEnvNs : string) : Secret :=
  {| sec_meta := with_annotations (meta_Annotations (sec_meta src))
       (with_labels (meta_Labels (sec_meta src))
          (with_name (meta_Name (sec_meta src)) (with_namespace targetEnvNs ObjectMeta_zero)));
     sec_Type := sec_Type src; sec_Data := sec_Data src |}.

(** The Secret is one a user made for an app. *)
Definition custom_secret (src : Secret) : bool :=
  let appName := map_get (sec_Labels src) AppNameLabel in
  negb (String.eqb appName "") && String.eqb (map_get (sec_Labels src) ManagedByLabel) "mortise" &&
  negb (isInternalAppEnvSecret appName src).

Definition clone_secret (targetEnvNs : string) (src : Secret) (w : W) : W * option error :=
  if negb (custom_secret src) then (w, None)
  else
    match kget (targetEnvNs, meta_Name (sec_meta src)) w with
    | (w, inl getErr) =>
      if IsNotFound getErr then
        match kcreate (copied_secret src targetEnvNs) w with
        | (w, Some err) => if IsAlreadyExists err then (w, None) else (w, Some err)
        | (w, None) => (w, None)
        end
      else (w, Some getErr)
    | (w, inr existing) =>
      kupdate {| sec_meta := with_annotations (meta_Annotations (sec_meta src))
                   (with_labels (meta_Labels (sec_meta src)) (sec_meta existing));
                 sec_Type := sec_Type src; sec_Data := sec_Data src |} w
    end.

Definition cloneCustomSecrets (sourceEnvNs targetEnvNs : string) : W → W * option error :=
  err_of (
    secrets ← klist_in sourceEnvNs ∅ : E W (list Secret);
    for_each (λ src, run (clone_secret targetEnvNs src)) secrets).

(** The variables of the app in the other environment, without the bound ones. *)
Definition cloneAppEnvSecret (appName sourceEnvNs targetEnvNs : string) : W → W * option error :=
  err_of (
    exists_ ← wrapping "check source env secret for app %q: %w" [appName] (SecretExists sourceEnvNs appName);
    if negb exists_ then mret tt
    else
      sourceVars ← wrapping "read source env vars for app %q: %w" [appName] (Get R sourceEnvNs appName);
      let cloned := List.filter (λ e, negb (String.eqb (env_Source e) "binding")) sourceVars in
      match cloned with
      | [] => mret tt
      | _ => wrapping "copy env secret for app %q to %q: %w" [appName; targetEnvNs]
               (run (Set_ R targetEnvNs appName cloned ∅))
      end).

(** *** Overrides of the apps *)

(** [for attempt := range maxConflictRetries]: reads the app, edits it, unless there is
    nothing to do, and writes it, again while it conflicts. *)
Fixpoint edit_loop (attempts : nat) (format : string) (ns appName : string) (edit : App → option App)
    (w : W) : W * option error :=
  match attempts with
  | O => (w, None)
  | S attempts =>
    match kget (ns, appName) w with
    | (w, inl err) => (w, Some (Wrapf "get app %q: %w" [appName] err))
    | (w, inr app) =>
      match edit app with
      | None => (w, None)
      | Some app =>
        match kupdate app w with
        | (w, None) => (w, None)
        | (w, Some updateErr) =>
          if negb (IsConflict updateErr) || (attempts =? 0)
          then (w, Some (Wrapf format [appName] updateErr))
          else edit_loop attempts format ns appName edit w
        end
      end
    end
  end.

(** The stored variables of the source: from the clientset unless it has no such Secret. *)
Definition source_vars (appName sourceEnvNs : string) : E W (list Env) :=
  let read := wrapping "read source env vars for app %q: %w" [appName] in
  match clientset with
  | Some get => λ w,
    match get (sourceEnvNs, AppEnvSecretName appName) w with
    | (w, inr secret) => (w, inr (secretToEnvs R secret))
    | (w, inl err) =>
      if IsNotFound err then read (Get R sourceEnvNs appName) w
      else (w, inl (Wrapf "read source env vars for app %q: %w" [appName] err))
    end
  | None => read (Get R sourceEnvNs appName)
  end.

Definition clone_edit (secretVars : list Env) (sourceName targetName : string) (app : App) : option App :=
  let envs := AppSpec_Environments (App_Spec app) in
  if overrides_env targetName app then None
  else Some (on_app_envs (λ envs, envs ++ [cloned_env R secretVars (find_env sourceName envs) targetName]) app).

Definition cloneEnvToApp (ns appName sourceName targetName sourceEnvNs : string) : W → W * option error :=
  err_of (
    secretVars ← source_vars appName sourceEnvNs;
    run (edit_loop maxConflictRetries "clone env overrides for app %q: %w" ns appName
           (clone_edit secretVars sourceName targetName))).

Definition cloneAppOverrides (projectName ns sourceName targetName : string) : W → W * option error :=
  let sourceEnvNs := EnvNamespace projectName sourceName in
  let targetEnvNs := EnvNamespace projectName targetName in
  err_of (
    apps ← klist_in ns ∅ : E W (list App);
    for_each (λ app,
      let appName := meta_Name (App_ObjectMeta app) in
      _ ← run (cloneEnvToApp ns appName sourceName targetName sourceEnvNs);
      run (cloneAppEnvSecret appName sourceEnvNs targetEnvNs)) apps).

Definition rename_edit (oldName newName : string) (app : App) : option App :=
  if negb (overrides_env oldName app) then None
  else Some (on_app_envs (rename_first oldName newName) app).

Definition renameEnvOnApp (ns appName oldName newName : string) : W → W * option error :=
  edit_loop maxConflictRetries "rename env override for app %q: %w" ns appName (rename_edit oldName newName).

Definition renameAppOverrides (projectName ns oldName newName : string) : W → W * option error :=
  let sourceEnvNs := EnvNamespace projectName oldName in
  let targetEnvNs := EnvNamespace projectName newName in
  err_of (
    apps ← klist_in ns ∅ : E W (list App);
    for_each (λ app,
      let appName := meta_Name (App_ObjectMeta app) in
      _ ← run (renameEnvOnApp ns appName oldName newName);
      run (cloneAppEnvSecret appName sourceEnvNs targetEnvNs)) apps).

Definition pokeProjectAppsForReconcile (ns : string) : W → W * option error :=
  err_of (
    apps ← wrapping "list apps for reconcile poke: %w" [] (klist_in ns ∅ : E W (list App));
    for_each (λ app, wrapping "poke app %q for reconcile: %w" [meta_Name (App_ObjectMeta app)]
                       (run (pokeAppForReconcile now app))) apps).

(** Removes the override from one app, read again. *)
Definition strip_one (envName : string) (app : App) : W → W * option error :=
  RetryOnConflict (λ w,
    match kget (obj_key app) w with
    | (w, inl err) => (w, Some err)
    | (w, inr fresh) =>
      if negb (overrides_env envName fresh) then (w, None)
      else kupdate (on_app_envs (without_first (λ e, String.eqb (Environment_Name e) envName)) fresh) w
    end).

(** The names of the apps stripped before the first error, and the error. *)
Fixpoint strip_loop (envName : string) (apps : list App) (stripped : list string) (w : W)
    : W * (list string * option error) :=
  match apps with
  | [] => (w, (stripped, None))
  | app :: apps =>
    let appName := meta_Name (App_ObjectMeta app) in
    if negb (overrides_env envName app) then strip_loop envName apps stripped w
    else
      match strip_one envName app w with
      | (w, Some err) => (w, (stripped, Some (Wrapf "strip env override from app %q: %w" [appName] err)))
      | (w, None) => strip_loop envName apps (stripped ++ [appName]) w
      end
  end.

Definition stripAppEnvOverrides (ns envName : string) (w : W) : W * (list string * option error) :=
  match klist_in ns ∅ w with
  | (w, inl err) => (w, ([], Some err))
  | (w, inr apps) => strip_loop envName apps [] w
  end.
End operations.

(** ** The handlers *)

Section handlers.
Context {W : Type} {CP : KubeClient W Project} {CM : KubeClient W ProjectMember} {CC : KubeClient W ConfigMap}
  {CA : KubeClient W App} {CS : KubeClient W Secret} {CN : KubeClient W Namespace} {CB : KubeClient W RoleBinding}
  {LA : KubeListIn W App} {LS : KubeListIn W Secret} {DN : KubeDelete W Namespace} {KR : KubeRetry W}
  {KRE : KubeRetry (W * ProjectEnvironment)} (R : MapRange).
Context (uncached : option (NamespacedName → E W Project)) (clientset : option (NamespacedName → E W Secret)).
Context (accessReview : string → W → W * (error + bool))
  (PollUntilContextTimeout : (W → W * bool) → W → W * option error)
  (serviceAccountName operatorNamespace : string).
Context (details : error → option (string * string)) (json_error : string → string)
  (now : W → Time) (ctx : nat → option error) (activityStore : bool).

Local Abbreviation handler := (H W project_env_body Empty_set).

Local Abbreviation ensure_namespace :=
  (ensureProjectEnvNamespace R accessReview PollUntilContextTimeout serviceAccountName operatorNamespace).

(** The call after which the error is answered, its own error being ignored. *)
Definition ignoring {B} (f : W → W * option error) : H W B unit := call (λ w, ((f w).1, tt)).

Definition env_response (health : EnvHealth) (env : ProjectEnvironment) : projectEnvResponse :=
  {| pr_Name := ProjectEnvironment_Name env; pr_DisplayOrder := ProjectEnvironment_DisplayOrder env;
     pr_Health := health; pr_Restricted := ProjectEnvironment_Restricted env;
     pr_Preview := ProjectEnvironment_Preview env |}.

Definition ListProjectEnvironments (r : request) : handler :=
  _ ← authorize r (project_resource (URLParam r "project")) ActionRead;
  project ← getProject details r;
  apps ← try_ details (klist_in (projectNs project) ∅);
  let envs := stable_sort ProjectEnvironment_DisplayOrder (ProjectSpec_Environments (Project_Spec project)) in
  writeJSON StatusOK (ProjectEnvs
    ((λ env, env_response (aggregateEnvHealth (ProjectEnvironment_Name env) apps) env) <$> envs)).

(** The checks of a new name. *)
Definition check_new_name (project : Project) (name : string) : H W project_env_body unit :=
  _ ← validate (validateDNSLabel "name" name maxProjectEnvNameLen);
  _ ← validate (validateProjectEnvName name);
  require (negb (declared name (ProjectSpec_Environments (Project_Spec project)))) StatusConflict
    (sprintf "environment %q already exists on project %q" [name; project_name project]).

Definition new_env (req : createProjectEnvRequest) : projectEnvResponse :=
  {| pr_Name := cr_Name req; pr_DisplayOrder := cr_DisplayOrder req; pr_Health := EnvHealthUnknown;
     pr_Restricted := false; pr_Preview := false |}.

Definition CreateProjectEnvironment (r : request) : handler :=
  let projectName := URLParam r "project" in
  _ ← authorize r (project_resource projectName) ActionCreate;
  project ← getProject details r;
  req ← decode_body json_error r (body_of decode_create {| cr_Name := ""; cr_DisplayOrder := 0 |});
  _ ← check_new_name project (cr_Name req);
  _ ← do_ details (ensure_namespace project (cr_Name req) false);
  err ← call (createProjectEnvironment uncached (project_name project) req);
  match err with
  | Some err =>
    match errors_As "projectEnvExistsError" err with
    | Some msg => fail StatusConflict msg
    | None => _ ← ignoring (deleteProjectEnvNamespace project (cr_Name req)); writeError details err
    end
  | None =>
    _ ← do_ details (ensure_namespace project (cr_Name req) true);
    _ ← recordActivity now ctx activityStore r projectName "create" "environment" (cr_Name req)
          ("Created project environment " +:+ cr_Name req) "";
    writeJSON StatusCreated (ProjectEnv (new_env req))
  end.

(** The name a patch gives to the environment, if it is another one. *)
Definition renaming (envName : string) (req : patchProjectEnvRequest) : option string :=
  n ← pp_Name req; if String.eqb n envName then None else Some n.

Definition before_rename (projectName : string) (project : Project) (envName newName : string)
    : H W project_env_body unit :=
  _ ← check_new_name project newName;
  _ ← do_ details (ensure_namespace project newName false);
  _ ← do_ details (cloneCustomSecrets (EnvNamespace (project_name project) envName)
                     (EnvNamespace (project_name project) newName));
  err ← call (renameAppOverrides R projectName (projectNs project) envName newName);
  match err with
  | Some err => _ ← ignoring (deleteProjectEnvNamespace project newName); writeError details err
  | None => mret tt
  end.

(** The handler also edits the project it read at first; nothing reads these edits. *)
Definition UpdateProjectEnvironment (r : request) : handler :=
  let projectName := URLParam r "project" in
  _ ← authorize r (project_resource projectName) ActionUpdate;
  project ← getProject details r;
  let envName := URLParam r "name" in
  req ← decode_body json_error r
    (body_of decode_patch_env {| pp_Name := None; pp_DisplayOrder := None; pp_Restricted := None |});
  _ ← require (negb (indexOfEnv project envName <? 0)%Z) StatusNotFound
        (sprintf "environment %q not found on project %q" [envName; project_name project]);
  _ ← (match renaming envName req with
       | Some newName => before_rename projectName project envName newName
       | None => mret tt
       end : H W project_env_body unit);
  res ← call (updateProjectEnvironment uncached (project_name project) envName req);
  match res with
  | inl err =>
    _ ← (match renaming envName req with
         | Some newName => ignoring (deleteProjectEnvNamespace project newName)
         | None => mret tt
         end : H W project_env_body unit);
    writeError details err
  | inr updated =>
    _ ← (match renaming envName req with
         | Some newName =>
           _ ← do_ details (ensure_namespace project newName true);
           do_ details (pokeProjectAppsForReconcile now (projectNs project))
         | None => mret tt
         end : H W project_env_body unit);
    let name := ProjectEnvironment_Name updated in
    let msg := match renaming envName req with
               | Some _ => "Renamed project environment " +:+ envName +:+ " to " +:+ name
               | None => "Updated project environment " +:+ name
               end in
    _ ← recordActivity now ctx activityStore r projectName "update" "environment" name msg "";
    writeJSON StatusOK (ProjectEnv
      {| pr_Name := name; pr_DisplayOrder := ProjectEnvironment_DisplayOrder updated;
         pr_Health := EnvHealthUnknown; pr_Restricted := ProjectEnvironment_Restricted updated;
         pr_Preview := false |})
  end.

Definition DeleteProjectEnvironment (r : request) : handler :=
  let projectName := URLParam r "project" in
  _ ← authorize r (project_resource projectName) ActionDelete;
  project ← getProject details r;
  let envName := URLParam r "name" in
  _ ← require (negb (indexOfEnv project envName <? 0)%Z) StatusNotFound
        (sprintf "environment %q not found on project %q" [envName; project_name project]);
  _ ← require (negb (length (ProjectSpec_Environments (Project_Spec project)) =? 1)) StatusBadRequest
        "cannot delete the last environment on a project — delete the project instead";
  res ← call (stripAppEnvOverrides (projectNs project) envName);
  match res with
  | (_, Some err) => writeError details err
  | (stripped, None) =>
    err ← call (deleteProjectEnvironmentSpec uncached (project_name project) envName);
    match err with
    | Some err => if IsForbidden err then fail StatusConflict (error_text err) else writeError details err
    | None =>
      let msg := "Deleted project environment " +:+ envName in
      let msg := match stripped with
                 | [] => msg
                 | _ => msg +:+ " (stripped overrides from [" +:+ join " " stripped +:+ "])"
                 end in
      _ ← recordActivity now ctx activityStore r projectName "delete" "environment" envName msg "";
      writeJSON StatusOK (EnvDeleted envName)
    end
  end.

Definition CloneProjectEnvironment (r : request) : handler :=
  let projectName := URLParam r "project" in
  _ ← authorize r (project_resource projectName) ActionCreate;
  project ← getProject details r;
  let sourceName := URLParam r "source" in
  _ ← require (negb (indexOfEnv project sourceName <? 0)%Z) StatusNotFound
        (sprintf "source environment %q not found on project %q" [sourceName; project_name project]);
  req ← decode_body json_error r (body_of decode_create {| cr_Name := ""; cr_DisplayOrder := 0 |});
  _ ← check_new_name project (cr_Name req);
  _ ← do_ details (ensure_namespace project (cr_Name req) false);
  err ← call (cloneProjectEnvironmentSpec uncached (project_name project) req);
  match err with
  | Some err => _ ← ignoring (deleteProjectEnvNamespace project (cr_Name req)); writeError details err
  | None =>
    _ ← do_ details (ensure_namespace project (cr_Name req) true);
    err ← call (cloneAppOverrides R clientset projectName (projectNs project) sourceName (cr_Name req));
    match err with
    | Some err =>
      if IsForbidden err && contains "being terminated" (error_text err)
      then fail StatusConflict
             (sprintf "environment %q's namespace is still terminating; retry shortly" [cr_Name req])
      else writeError details err
    | None =>
      _ ← do_ details (cloneCustomSecrets (EnvNamespace (project_name project) sourceName)
                         (EnvNamespace (project_name project) (cr_Name req)));
      _ ← recordActivity now ctx activityStore r projectName "create" "environment" (cr_Name req)
            (sprintf "Cloned environment %s from %s" [cr_Name req; sourceName]) "";
      writeJSON StatusCreated (ProjectEnv (new_env req))
    end
  end.
End handlers.
