(* ===== verification/ProjectEnvsSpec.v ===== *)
(** * Environments of a project: what the operations promise

    The edits of the list of environments are atomic and keep its names unique; a
    namespace of somebody else is never touched; overrides follow a rename and a
    deletion. *)

From S2P Require Import Prelude GoStrings Kube Core Controller Api Constants Authz EnvStore Activity Nsrbac ApiServer ApiEnv ApiProjectEnvs.

Abbreviation env_names := (fmap (M := list) ProjectEnvironment_Name).

(** ** The edits *)

Inductive env_op :=
  | OpCreate (req : createProjectEnvRequest)
  | OpClone (req : createProjectEnvRequest)
  | OpPatch (envName : string) (req : patchProjectEnvRequest)
  | OpRemove (envName : string).

Definition added (req : createProjectEnvRequest) : ProjectEnvironment :=
  {| ProjectEnvironment_Name := cr_Name req; ProjectEnvironment_DisplayOrder := cr_DisplayOrder req;
     ProjectEnvironment_Restricted := false; ProjectEnvironment_Preview := false |}.

(** What an operation does to the list, if it is allowed. *)
Definition edit (op : env_op) (envs : list ProjectEnvironment) : option (list ProjectEnvironment) :=
  match op with
  | OpCreate req | OpClone req => if declared (cr_Name req) envs then None else Some (envs ++ [added req])
  | OpPatch envName req => match patched "" envName req envs with inr (_, envs') => Some envs' | inl _ => None end
  | OpRemove envName =>
    if declared envName envs
    then Some (without_first (λ e, String.eqb (ProjectEnvironment_Name e) envName) envs) else None
  end.

Lemma declared_spec name envs : declared name envs = true ↔ name ∈ env_names envs.
Proof.
  unfold declared. rewrite existsb_elem, list_elem_of_fmap. split.
  - intros (e & He & Hn%String.eqb_eq). by exists e.
  - intros (e & -> & He). exists e. split; [done|apply String.eqb_refl].
Qed.

Lemma without_first_sublist {A} (f : A → bool) l : without_first f l `sublist_of` l.
Proof. induction l as [|x l IH]; simpl; [done|]. destruct (f x); by constructor. Qed.

Lemma env_index_Some name envs i :
  env_index name envs = Some i → ∃ e, envs !! i = Some e ∧ ProjectEnvironment_Name e = name.
Proof.
  unfold env_index. intros H. apply fmap_Some in H as ([j e] & (He & Hn & _)%list_find_Some & ->). by exists e.
Qed.

Lemma env_index_None name envs : env_index name envs = None ↔ name ∉ env_names envs.
Proof.
  unfold env_index. rewrite fmap_None, list_find_None, Forall_forall, list_elem_of_fmap. naive_solver.
Qed.

Lemma names_alter f i envs :
  (∀ e, ProjectEnvironment_Name (f e) = ProjectEnvironment_Name e) → env_names (alter f i envs) = env_names envs.
Proof.
  intros Hf. apply list_eq. intros j. rewrite !list_lookup_fmap. destruct (decide (i = j)) as [->|Hne].
  - rewrite list_lookup_alter_eq, <-option_fmap_compose. destruct (envs !! j); simpl; [by rewrite Hf|done].
  - by rewrite list_lookup_alter_ne.
Qed.

Lemma names_reorder i n envs : env_names (reorder i n envs) = env_names envs.
Proof.
  unfold reorder. destruct (envs !! i); [|done]. destruct (_ =? _)%Z; [done|].
  rewrite names_alter by done. destruct (first_with_order _ _ _); [by rewrite names_alter|done].
Qed.

Lemma names_patched project envName req envs i envs' :
  patched project envName req envs = inr (i, envs') →
  ∃ e, envs !! i = Some e ∧ ProjectEnvironment_Name e = envName ∧
    env_names envs' = <[i := default envName (pp_Name req)]> (env_names envs) ∧
    (default envName (pp_Name req) = envName ∨ default envName (pp_Name req) ∉ env_names envs).
Proof.
  unfold patched. destruct (env_index envName envs) as [j|] eqn:Ei; [|done].
  destruct (match pp_Name req with Some _ => _ | None => _ end) eqn:Et; [done|]. intros [= -> <-].
  apply env_index_Some in Ei as (e & He & Hn). exists e. split; [done|]. split; [done|].
  assert (env_names envs !! i = Some envName) as Hi by (rewrite list_lookup_fmap, He; simpl; congruence).
  split.
  - unfold set_restricted, set_order, set_name.
    assert (∀ l, env_names (match pp_Restricted req with
      | Some b => alter (with_ProjectEnvironment_Restricted b) i l | None => l end) = env_names l) as H1
      by (intros l; destruct (pp_Restricted req); [by rewrite names_alter|done]).
    assert (∀ l, env_names (match pp_DisplayOrder req with Some n => reorder i n l | None => l end) =
      env_names l) as H2 by (intros l; destruct (pp_DisplayOrder req); [by rewrite names_reorder|done]).
    rewrite H1, H2. destruct (pp_Name req) as [n|]; simpl; [|by rewrite list_insert_id].
    apply list_eq. intros k. rewrite list_lookup_fmap. destruct (decide (i = k)) as [<-|Hne].
    + rewrite list_lookup_alter_eq, He, list_lookup_insert_eq; [done|]. rewrite length_fmap.
      by eapply lookup_lt_Some.
    + by rewrite list_lookup_alter_ne, list_lookup_insert_ne, list_lookup_fmap.
  - destruct (pp_Name req) as [n|]; simpl; [|by left]. apply andb_false_iff in Et as [Et|Et].
    + left. by apply negb_false_iff, String.eqb_eq in Et.
    + destruct (env_index n envs) as [k|] eqn:Ek; [left|right; by apply env_index_None].
      apply negb_false_iff, Nat.eqb_eq in Et. apply env_index_Some in Ek as (e' & He' & <-).
      subst k. by simplify_eq.
Qed.

(** Every edit keeps the names of the environments distinct. *)
Lemma edit_names_unique op envs envs' :
  edit op envs = Some envs' → NoDup (env_names envs) → NoDup (env_names envs').
Proof.
  assert (∀ req, (if declared (cr_Name req) envs then None else Some (envs ++ [added req])) = Some envs' →
    NoDup (env_names envs) → NoDup (env_names envs')) as Hadd.
  { intros req. destruct (declared _ _) eqn:Ed; [done|]. intros [= <-] Hnd.
    rewrite fmap_app. apply NoDup_app. split; [done|]. split; [|apply NoDup_singleton].
    intros n Hn ->%list_elem_of_singleton. apply declared_spec in Hn. simpl in Hn. congruence. }
  destruct op as [req|req|envName req|envName]; simpl; [apply Hadd|apply Hadd| |].
  - destruct (patched _ _ _ _) as [|[i l]] eqn:Ep; [done|]. intros [= ->] Hnd.
    apply names_patched in Ep as (e & He & Hn & -> & Hfree).
    eapply NoDup_list_insert; [by rewrite list_lookup_fmap, He|done|]. by rewrite Hn.
  - destruct (declared _ _); [|done]. intros [= <-] Hnd.
    eapply sublist_NoDup; [done|apply fmap_sublist, without_first_sublist].
Qed.

(** ** Atomicity *)

Section atomic.
Context {W : Type} {CP : KubeClient W Project} {OP : KubeClientOk W Project} {KR : KubeRetry W}
  {KRE : KubeRetry (W * ProjectEnvironment)} {KROK : KubeRetryOk W} {KREOK : KubeRetryOk (W * ProjectEnvironment)}.
Context (uncached : option (NamespacedName → E W Project))
  (Hreader : ∀ read, uncached = Some read → reader_ok read).

Definition run_op (projectName : string) (op : env_op) : W → W * option error :=
  match op with
  | OpCreate req => createProjectEnvironment uncached projectName req
  | OpClone req => cloneProjectEnvironmentSpec uncached projectName req
  | OpPatch envName req => λ w,
    match updateProjectEnvironment uncached projectName envName req w with
    | (w, inl err) => (w, Some err)
    | (w, inr _) => (w, None)
    end
  | OpRemove envName => deleteProjectEnvironmentSpec uncached projectName envName
  end.


Lemma getProjectFresh_spec name w w' r :
  getProjectFresh uncached name w = (w', r) →
  khist w w' ∧ ∀ p, r = inr p → read_ok ("", name) p w'.
Proof.
  unfold getProjectFresh. destruct uncached as [read|]; [by apply Hreader|apply kget_reader_ok].
Qed.

(** The project was replaced by one with the edited list, in one step. *)
Definition edited (projectName : string) (op : env_op) (w w' : W) : Prop :=
  ∃ wu p envs' rv, khist w wu ∧ khist wu w' ∧ kstore wu !! ("", projectName) = Some p ∧
    edit op (ProjectSpec_Environments (Project_Spec p)) = Some envs' ∧
    kstore w' = <[("", projectName) := obj_with_rv rv (on_envs (λ _, envs') p)]> (kstore wu).

(** One attempt: reads, edits and writes. *)
Definition attempt (projectName : string) (change : Project → error + list ProjectEnvironment) (w : W)
    : W * option error :=
  match getProjectFresh uncached projectName w with
  | (w, inl err) => (w, Some err)
  | (w, inr current) =>
    match change current with
    | inl err => (w, Some err)
    | inr envs => kupdate (on_envs (λ _, envs) current) w
    end
  end.

Lemma attempt_hist projectName change w w' r : attempt projectName change w = (w', r) → khist w w'.
Proof.
  unfold attempt. destruct (getProjectFresh _ _ w) as [w1 [err|p]] eqn:Eg; apply getProjectFresh_spec in Eg as [? _].
  - by intros [= <- _].
  - destruct (change p); [by intros [= <- _]|]. intros ?%kupdate_hist. by etrans.
Qed.

Lemma attempt_edited projectName op change w w' :
  (∀ p envs, change p = inr envs → edit op (ProjectSpec_Environments (Project_Spec p)) = Some envs) →
  attempt projectName change w = (w', None) → edited projectName op w w'.
Proof.
  intros Hchange. unfold attempt.
  destruct (getProjectFresh _ _ w) as [w1 [err|p]] eqn:Eg; [done|]. apply getProjectFresh_spec in Eg as [Hh Hr].
  destruct (change p) as [err|envs] eqn:Ec; [done|]. intros Hu.
  destruct (rmw_read ("", projectName) p _ _ _ (Hr _ eq_refl) Hu eq_refl eq_refl) as (wu & rv & H1 & H2 & Hp & Hs).
  exists wu, p, envs, rv. split; [by etrans|]. split; [done|]. split; [done|]. split; [by apply Hchange|done].
Qed.

(** A function that retries such an attempt. *)
Lemma retried_edited projectName op change f w w' :
  (∀ p envs, change p = inr envs → edit op (ProjectSpec_Environments (Project_Spec p)) = Some envs) →
  (∀ w, f w = attempt projectName change w) →
  RetryOnConflict f w = (w', None) → edited projectName op w w'.
Proof.
  intros Hchange Hf. rewrite retry_on_conflict_spec, (retry_loop_ext _ _ _ _ Hf).
  intros (w1 & Hw & H)%(retry_loop_success khist); [|intros; by eapply attempt_hist].
  apply (attempt_edited _ op) in H as (wu & p & envs' & rv & H1 & H2); [|done].
  exists wu, p, envs', rv. split; [by etrans|done].
Qed.

Lemma patched_project project envName req envs r :
  patched project envName req envs = inr r → patched "" envName req envs = inr r.
Proof. unfold patched. by repeat case_match. Qed.

(** The history of the world next to a captured variable. *)
Definition fst_hist (p q : W * ProjectEnvironment) : Prop := khist p.1 q.1.
#[local] Instance fst_hist_preorder : PreOrder fst_hist.
Proof.
  split; [intros [w e]; by apply (reflexivity (R := khist))|].
  intros [w1 e1] [w2 e2] [w3 e3] H1 H2. by apply (transitivity (R := khist) H1).
Qed.

Lemma updateProjectEnvironment_edited projectName envName req w w' updated :
  updateProjectEnvironment uncached projectName envName req w = (w', inr updated) →
  edited projectName (OpPatch envName req) w w'.
Proof.
  unfold updateProjectEnvironment. rewrite retry_on_conflict_spec.
  destruct (retry_loop _ _ _) as [[w2 u] [err|]] eqn:El; [done|]. intros [= -> ->].
  apply (retry_loop_success fst_hist) in El as ([w1 u] & Hw & Ha).
  - assert (attempt projectName (λ p, match patched (project_name p) envName req
        (ProjectSpec_Environments (Project_Spec p)) with inl err => inl err | inr (_, envs) => inr envs end) w1
      = (w', None)) as Hat.
    { unfold attempt. destruct (getProjectFresh _ _ w1) as [w3 [?|p]]; [done|].
      destruct (patched _ _ _ _) as [?|[i envs]]; [done|].
      destruct (kupdate _ w3) as [w4 [?|]]; by simplify_eq. }
    apply (attempt_edited projectName (OpPatch envName req)) in Hat as (wu & p & envs' & rv & H1 & H2).
    + exists wu, p, envs', rv. split; [by etrans|done].
    + intros p envs. simpl. destruct (patched (project_name p) _ _ _) as [?|[i l]] eqn:Ep; [done|].
      intros [= ->]. by rewrite (patched_project _ _ _ _ _ Ep).
  - intros [w1 u1] [w3 u3] r Ha. unfold fst_hist. simpl.
    destruct (getProjectFresh _ _ w1) as [w4 [?|p]] eqn:Eg; apply getProjectFresh_spec in Eg as [? _]; [by simplify_eq|].
    destruct (patched _ _ _ _) as [?|[i envs]]; [by simplify_eq|].
    destruct (kupdate _ w4) as [w5 [?|]] eqn:Eu; apply kupdate_hist in Eu; simplify_eq; by etrans.
Qed.

(** The edit an attempt makes of the project it read. *)
Definition change_of (op : env_op) (err : Project → error) (p : Project) : error + list ProjectEnvironment :=
  match edit op (ProjectSpec_Environments (Project_Spec p)) with Some envs => inr envs | None => inl (err p) end.

Lemma change_of_edit op err p envs :
  change_of op err p = inr envs → edit op (ProjectSpec_Environments (Project_Spec p)) = Some envs.
Proof. unfold change_of. destruct (edit _ _); [congruence|done]. Qed.

(** C20: the environments of a project are edited atomically: when an operation succeeds, the
    project was replaced in one step by one whose list is the edit of the list at that
    moment, whatever other writers did in between and however stale the reads were; and
    the edit never gives two environments one name. *)
Theorem env_ops_atomic projectName op w w' :
  run_op projectName op w = (w', None) →
  edited projectName op w w' ∧
  ∀ envs envs', edit op envs = Some envs' → NoDup (env_names envs) → NoDup (env_names envs').
Proof.
  intros H. split; [|intros ? ?; apply edit_names_unique]. destruct op as [req|req|envName req|envName]; simpl in H.
  - eapply (retried_edited _ _ (change_of (OpCreate req) (λ p, projectEnvExistsError (project_name p) (cr_Name req))));
      [apply change_of_edit| |exact H].
    intros w0. unfold attempt, change_of. destruct (getProjectFresh _ _ w0) as [w1 [?|p]]; [done|].
    simpl. by destruct (declared _ _).
  - eapply (retried_edited _ _ (change_of (OpClone req) (λ p, KubeError AlreadyExists (cr_Name req))));
      [apply change_of_edit| |exact H].
    intros w0. unfold attempt, change_of. destruct (getProjectFresh _ _ w0) as [w1 [?|p]]; [done|].
    simpl. by destruct (declared _ _).
  - destruct (updateProjectEnvironment _ _ _ _ _) as [w1 [?|u]] eqn:Eu; [done|]. simplify_eq.
    by eapply updateProjectEnvironment_edited.
  - eapply (retried_edited _ _ (change_of (OpRemove envName) (λ p, KubeError NotFound projectName)));
      [apply change_of_edit| |exact H].
    intros w0. unfold attempt, change_of. destruct (getProjectFresh _ _ w0) as [w1 [?|p]]; [done|].
    simpl. by destruct (declared _ _).
Qed.
End atomic.

(** ** Namespaces *)

(** The project owns the namespace: an owner reference with its UID, or the labels. *)
Definition owned (project : Project) (ns : Namespace) : Prop :=
  (∃ ref, ref ∈ meta_OwnerReferences (ns_meta ns) ∧ owner_APIVersion ref = v1alpha1 ∧
     owner_Kind ref = "Project" ∧ owner_UID ref = meta_UID (Project_ObjectMeta project)) ∨
  (map_get (meta_Labels (ns_meta ns)) ManagedByLabel = "mortise" ∧
   map_get (meta_Labels (ns_meta ns)) ProjectLabel = project_name project).

Lemma check_owner_spec project nsName ns : check_owner project nsName ns = None ↔ owned project ns.
Proof.
  unfold check_owner, owned. pose proof (owner_scan_spec (meta_UID (Project_ObjectMeta project))
    (meta_OwnerReferences (ns_meta ns)) "") as Hscan.
  destruct (owner_scan _ _ _) as [b other]. simpl in Hscan.
  rewrite <-Hscan, <-!String.eqb_eq. destruct b; simpl; [naive_solver|].
  destruct (String.eqb _ "mortise"), (String.eqb _ (project_name project)); simpl; destruct (String.eqb other "");
    simpl; naive_solver.
Qed.

Section namespaces.
Context {W : Type} {CN : KubeClient W Namespace} {ON : KubeClientOk W Namespace}
  {KR : KubeRetry W} {KROK : KubeRetryOk W} (R : MapRange) {HR : MapRangeOk R}.

(** The namespace with the labels added. *)
Definition relabelled (labels : gmap string string) (ns ns' : Namespace) : Prop :=
  (∀ k, map_get (meta_Labels (ns_meta ns')) k = default (map_get (meta_Labels (ns_meta ns)) k) (labels !! k)) ∧
  ∃ rv, set_meta (with_labels (meta_Labels (ns_meta ns)) (ns_meta ns')) ns' = obj_with_rv rv ns.

(** A namespace of somebody else is never touched.  When nobody else writes: a missing
    namespace is created with the labels and the project as its owner; one the project
    owns gets the labels and nothing else changes; any other one is refused and left as
    it is. *)
Theorem ensureEnvNamespaceObject_spec project nsName labels w :
  kquiet w → ∃ w' r, ensureEnvNamespaceObject R project nsName labels w = (w', r) ∧ kquiet w' ∧
  match kstore w !! ("", nsName) with
  | None => r = None ∧ ∃ rv, kstore w' =
      <[("", nsName) := obj_with_rv rv (env_namespace project nsName labels)]> (kstore w)
  | Some ns =>
    (owned project ns ∧ r = None ∧ ∃ ns', relabelled labels ns ns' ∧
       kstore w' = <[("", nsName) := ns']> (kstore w)) ∨
    (¬ owned project ns ∧ is_Some r ∧ kstore w' = kstore w)
  end.
Proof.
  intros Hq. unfold ensureEnvNamespaceObject. rewrite retry_on_conflict_spec.
  destruct (kget_quiet ("", nsName) w Hq) as (w1 & Hq1 & Hs1 & Hg).
  destruct (kstore w !! ("", nsName)) as [ns|] eqn:Ens.
  - assert (Hkey := kstore_key _ _ _ Ens).
    destruct (check_owner project nsName ns) as [err|] eqn:Eo.
    + exists w1, (Some err). split.
      { apply retry_loop_once; [by rewrite Hg, Eo|]. intros e [= <-]. unfold check_owner in Eo.
        destruct (owner_scan _ _ _); by repeat case_match; simplify_eq. }
      split; [done|]. right. split; [|done]. intros Ho%(check_owner_spec _ nsName). congruence.
    + apply check_owner_spec in Eo as Ho. destruct (overlay R (meta_Labels (ns_meta ns)) labels false) as [m ch] eqn:Eov.
      pose proof (overlay_spec _ _ _ _ _ _ Eov) as (Hget & _ & Hsame). destruct ch.
      * set (new := set_meta (with_labels m (ns_meta ns)) ns).
        destruct (kupdate_quiet new w1 ns Hq1) as (w2 & rv & Hq2 & Hu & Hs2);
          [change (obj_key new) with (obj_key ns); by rewrite Hkey, Hs1|done|].
        exists w2, None. split; [apply retry_loop_once; [by rewrite Hg, Eo, Eov|done]|]. split; [done|]. left.
        split; [done|]. split; [done|]. exists (obj_with_rv rv new). split.
        -- split; [intros k; simpl; by rewrite Hget|]. exists rv. by destruct ns as [[]].
        -- rewrite Hs2, Hs1. change (obj_key new) with (obj_key ns). by rewrite Hkey.
      * exists w1, None. split; [apply retry_loop_once; [by rewrite Hg, Eo, Eov|done]|]. split; [done|]. left.
        split; [done|]. split; [done|]. exists ns. rewrite Hs1, insert_id by done. split; [|done].
        split; [intros k; by rewrite <-Hget, (Hsame eq_refl)|]. exists (obj_rv ns). by destruct ns as [[]].
  - destruct Hg as (e & Hg & He).
    destruct (kcreate_quiet (env_namespace project nsName labels) w1 Hq1) as (w2 & rv & Hq2 & Hc & Hs2);
      [by rewrite Hs1|].
    exists w2, None. split; [apply retry_loop_once; [by rewrite Hg, He, Hc|done]|]. split; [done|].
    split; [done|]. exists rv. by rewrite Hs2, Hs1.
Qed.
End namespaces.

(** ** Overrides of the apps *)

Section overrides.
Context {W : Type} {CA : KubeClient W App} {OA : KubeClientOk W App} {LA : KubeListIn W App}
  {LAOK : KubeListOk W App} {KR : KubeRetry W} {KROK : KubeRetryOk W}.

Definition drop_override (envName : string) : App → App :=
  on_app_envs (without_first (λ e, String.eqb (Environment_Name e) envName)).

(** The object at the key was replaced by the version without the override. *)
Definition dropped (envName : string) (w w' : W) (app : App) : Prop :=
  ∃ rv, kstore w' !! obj_key app = Some (obj_with_rv rv (drop_override envName app)).

Lemma strip_one_quiet envName app w :
  kquiet w → kstore w !! obj_key app = Some app → overrides_env envName app = true →
  ∃ w' rv, strip_one envName app w = (w', None) ∧ kquiet w' ∧
    kstore w' = <[obj_key app := obj_with_rv rv (drop_override envName app)]> (kstore w).
Proof.
  intros Hq Hs Ho. unfold strip_one. rewrite retry_on_conflict_spec.
  destruct (kget_quiet (obj_key app) w Hq) as (w1 & Hq1 & Hs1 & Hg). rewrite Hs in Hg.
  destruct (kupdate_quiet (drop_override envName app) w1 app Hq1) as (w2 & rv & Hq2 & Hu & Hs2); [by rewrite Hs1|done|].
  exists w2, rv. split; [apply retry_loop_once; [by rewrite Hg, Ho|done]|]. split; [done|]. by rewrite Hs2, Hs1.
Qed.

Lemma strip_loop_quiet envName apps : ∀ acc w,
  kquiet w → NoDup (obj_key <$> apps) → (∀ a, a ∈ apps → kstore w !! obj_key a = Some a) →
  let affected := filter (λ a, overrides_env envName a = true) apps in
  ∃ w', strip_loop envName apps acc w = (w', (acc ++ (meta_Name ∘ App_ObjectMeta <$> affected), None)) ∧ kquiet w' ∧
    (∀ k, k ∉ obj_key <$> affected → kstore w' !! k = kstore w !! k) ∧
    (∀ a, a ∈ affected → dropped envName w w' a).
Proof.
  induction apps as [|app apps IH]; intros acc w Hq Hnd Hin; simpl.
  { exists w. rewrite app_nil_r. split_and!; try done. by intros a ?%elem_of_nil. }
  rewrite fmap_cons in Hnd. apply NoDup_cons in Hnd as [Hni Hnd].
  destruct (overrides_env envName app) eqn:Eo; simpl.
  - rewrite filter_cons_True by done.
    destruct (strip_one_quiet envName app w Hq (Hin _ ltac:(by left)) Eo) as (w1 & rv & -> & Hq1 & Hs1).
    edestruct (IH (acc ++ [meta_Name (App_ObjectMeta app)]) w1 Hq1 Hnd) as (w' & -> & Hq' & Hframe & Hdrop).
    { intros a Ha. rewrite Hs1, lookup_insert_ne; [by apply Hin; right|]. intros Hk. apply Hni. rewrite Hk.
      by apply list_elem_of_fmap_2. }
    assert (obj_key app ∉ obj_key <$> filter (λ a, overrides_env envName a = true) apps) as Hna.
    { intros (a & Hk & [_ Ha]%list_elem_of_filter)%list_elem_of_fmap. apply Hni. rewrite Hk.
      by apply list_elem_of_fmap_2. }
    exists w'. rewrite fmap_cons, <-app_assoc. split_and!; [done|done| |].
    + intros k [? ?]%not_elem_of_cons. by rewrite Hframe, Hs1, lookup_insert_ne.
    + intros a [->|Ha]%elem_of_cons; [|by apply Hdrop].
      exists rv. by rewrite Hframe, Hs1, lookup_insert_eq.
  - rewrite filter_cons_False by (by rewrite Eo). apply IH; [done|done|]. intros a Ha. apply Hin. by right.
Qed.

(** Deleting an environment, when nobody else writes, takes from every app of the
    namespace that overrides it its first override of that name, leaves every other app,
    and every other field, as it was, and names exactly the apps it changed. *)
Theorem stripAppEnvOverrides_spec ns envName w :
  kquiet w → ∃ w' stripped, stripAppEnvOverrides ns envName w = (w', (stripped, None)) ∧ kquiet w' ∧
  (∀ k app, kstore w !! k = Some app →
     if selected ns ∅ app && overrides_env envName app
     then ∃ rv, kstore w' !! k = Some (obj_with_rv rv (drop_override envName app))
     else kstore w' !! k = Some app) ∧
  (∀ k, kstore w !! k = None → kstore w' !! k = None) ∧
  (∀ name, name ∈ stripped ↔ ∃ k app, kstore w !! k = Some app ∧ selected ns ∅ app = true ∧
     overrides_env envName app = true ∧ meta_Name (App_ObjectMeta app) = name).
Proof.
  intros Hq. unfold stripAppEnvOverrides.
  destruct (klist_quiet ns ∅ w Hq) as (w1 & apps & Hq1 & Hs1 & -> & Hnd & Hin).
  edestruct (strip_loop_quiet envName apps [] w1 Hq1 Hnd) as (w' & -> & Hq' & Hframe & Hdrop).
  { intros a [_ Ha]%Hin. by rewrite Hs1. }
  assert (∀ a, a ∈ filter (λ a, overrides_env envName a = true) apps ↔
    kstore w !! obj_key a = Some a ∧ selected ns ∅ a = true ∧ overrides_env envName a = true) as Haff.
  { intros a. rewrite list_elem_of_filter, Hin. naive_solver. }
  eexists w', _. split; [done|]. split; [done|]. split; [|split].
  - intros k app Hk. assert (obj_key app = k) as <- by by eapply kstore_key.
    destruct (_ && _) eqn:E.
    + apply andb_true_iff in E as [? ?]. by apply Hdrop, Haff.
    + rewrite Hframe, Hs1; [done|]. intros (a & Hk' & (Ha & Hsel & Ho)%Haff)%list_elem_of_fmap.
      rewrite <-Hk', Hk in Ha. simplify_eq. by rewrite Hsel, Ho in E.
  - intros k Hk. rewrite Hframe, Hs1; [done|]. intros (a & -> & (Ha & _)%Haff)%list_elem_of_fmap. congruence.
  - intros name. simpl. rewrite list_elem_of_fmap. split.
    + intros (a & -> & (Ha & ? & ?)%Haff). by exists (obj_key a), a.
    + intros (k & a & Hk & ? & ? & <-). exists a. split; [done|]. apply Haff. split; [|done].
      by rewrite (kstore_key _ _ _ Hk).
Qed.
End overrides.

Module ProjectEnvRuns.
#[local] Existing Instances range_sorted_order Sim.client Sim.client_ok Sim.retry Sim.retry_ok Sim.lister Sim.lister_ok.
Abbreviation R := range_sorted_order.

#[local] Instance captured_retry : KubeRetry (Sim.world Project * ProjectEnvironment) :=
  retry_loop default_retry_steps.
#[local] Instance captured_retry_ok : KubeRetryOk (Sim.world Project * ProjectEnvironment).
Proof. intros fn w. reflexivity. Qed.

Definition env_named (name : string) : ProjectEnvironment :=
  with_ProjectEnvironment_Name name ProjectEnvironment_zero.

Definition shop (envs : list string) : Project :=
  on_envs (λ _, env_named <$> envs) (with_Project_ObjectMeta (with_name "shop" ObjectMeta_zero) Project_zero).

(** Another writer adds an environment between the read and the write of the first attempt. *)
Definition contended : Sim.world Project :=
  Sim.World [Sim.Put (shop ["production"])]
    [Sim.Calm; Sim.External (Sim.Put (shop ["production"; "staging"]))].

Definition add_dev : env_op := OpCreate {| cr_Name := "dev"; cr_DisplayOrder := 2 |}.

Definition after (op : env_op) (w : Sim.world Project) : list string :=
  match kstore (run_op None "shop" op w).1 !! ("", "shop") with
  | Some p => env_names (ProjectSpec_Environments (Project_Spec p))
  | None => []
  end.

(** The environment of the other writer is kept. *)
Example create_under_contention : after add_dev contended = ["production"; "staging"; "dev"].
Proof. vm_compute. reflexivity. Qed.

Lemma env_ops_atomic_witness :
  edited "shop" add_dev contended (run_op None "shop" add_dev contended).1 ∧
  ∀ envs envs', edit add_dev envs = Some envs' → NoDup (env_names envs) → NoDup (env_names envs').
Proof. apply (env_ops_atomic None ltac:(discriminate) "shop" add_dev). vm_compute. reflexivity. Defined.

(** The handler refuses to delete the last environment before the retried edit, which
    does not look again: two deletions that both saw two environments leave none. *)
Example both_deletions_pass :
  after (OpRemove "staging")
    (Sim.World [Sim.Put (shop ["production"; "staging"])] [Sim.External (Sim.Put (shop ["staging"]))]) = [].
Proof. vm_compute. reflexivity. Qed.

(** A namespace that belongs to another project. *)
Definition foreign : Namespace :=
  {| ns_meta := with_owners
       [{| owner_APIVersion := v1alpha1; owner_Kind := "Project"; owner_Name := "blog"; owner_UID := "u2";
           owner_Controller := Some true; owner_BlockOwnerDeletion := Some true |}]
       (with_name "pj-shop-dev" ObjectMeta_zero) |}.

Lemma ensureEnvNamespaceObject_spec_witness :
  let w := Sim.World [Sim.Put foreign] [] in
  let labels := env_ns_labels (shop ["dev"]) "dev" true in
  ∃ w' r, ensureEnvNamespaceObject R (shop ["dev"]) "pj-shop-dev" labels w = (w', r) ∧ kquiet w' ∧
  match kstore w !! ("", "pj-shop-dev") with
  | None => r = None ∧ ∃ rv, kstore w' =
      <[("", "pj-shop-dev") := obj_with_rv rv (env_namespace (shop ["dev"]) "pj-shop-dev" labels)]> (kstore w)
  | Some ns =>
    (owned (shop ["dev"]) ns ∧ r = None ∧ ∃ ns', relabelled labels ns ns' ∧
       kstore w' = <[("", "pj-shop-dev") := ns']> (kstore w)) ∨
    (¬ owned (shop ["dev"]) ns ∧ is_Some r ∧ kstore w' = kstore w)
  end.
Proof. intros w labels. exact (ensureEnvNamespaceObject_spec R (shop ["dev"]) "pj-shop-dev" labels w eq_refl). Defined.

Definition override_of (env : string) : Environment := with_Environment_Name env Environment_zero.

Definition web (envs : list string) : App :=
  on_app_envs (λ _, override_of <$> envs)
    (with_App_ObjectMeta (with_name "web" (with_namespace "pj-shop" ObjectMeta_zero)) App_zero).

Lemma stripAppEnvOverrides_spec_witness :
  let w := Sim.World [Sim.Put (web ["dev"; "production"])] [] in
  ∃ w' stripped, stripAppEnvOverrides "pj-shop" "dev" w = (w', (stripped, None)) ∧ kquiet w' ∧
  (∀ k app, kstore w !! k = Some app →
     if selected "pj-shop" ∅ app && overrides_env "dev" app
     then ∃ rv, kstore w' !! k = Some (obj_with_rv rv (drop_override "dev" app))
     else kstore w' !! k = Some app) ∧
  (∀ k, kstore w !! k = None → kstore w' !! k = None) ∧
  (∀ name, name ∈ stripped ↔ ∃ k app, kstore w !! k = Some app ∧ selected "pj-shop" ∅ app = true ∧
     overrides_env "dev" app = true ∧ meta_Name (App_ObjectMeta app) = name).
Proof. intros w. by apply stripAppEnvOverrides_spec. Defined.

(** A variable held in a Secret is written out in the spec of the app that is cloned. *)
Example clone_writes_secret_values :
  (EnvVar_Value <$> Environment_Env (cloned_env R
     [{| env_Name := "DB_PASSWORD"; env_Value := "hunter2"; env_Source := "user" |}] None "dev"))
  = ["hunter2"].
Proof. vm_compute. reflexivity. Qed.
End ProjectEnvRuns.
