(* ===== verification/ProjectEnvsRuns.v ===== *)
(** * Environments of a project: runs of the handlers

    The handlers of [ApiProjectEnvs] on a cluster, with another request in between. *)

From S2P Require Import Prelude GoStrings GoText Json Kube Core Controller Api Constants Authz EnvStore ApiServer ApiProjectEnvs ProjectEnvsSpec Cluster.

Module CloneRuns.
#[local] Existing Instance range_sorted_order.
Abbreviation R := range_sorted_order.
Import ProjectEnvRuns.

#[local] Instance captured_retry : KubeRetry (cluster * ProjectEnvironment) := retry_loop default_retry_steps.

Definition admin : Principal :=
  {| Principal_ID := "1"; Principal_Email := "root@acme.io"; Principal_Role := RoleAdmin; Principal_PasswordGen := 0 |}.

Definition request_of (body : string) : request :=
  {| rq_principal := Some admin; rq_params := {["project" := "shop"; "source" := "production"; "name" := "production"]};
     rq_query := ∅; rq_header := ∅; rq_body := inr (replace_all body "'" (String dquote "")) |}.

Definition dev_namespace : Namespace := env_namespace (shop []) "pj-shop-dev" (env_ns_labels (shop []) "dev" true).

(** While the request runs, another one creates the environment [dev], namespace
    included; it is finished before the project is read again. *)
Definition crossed : cluster :=
  {| cl_projects := Sim.World [Sim.Put (shop ["production"])]
                      [Sim.Calm; Sim.External (Sim.Put (shop ["production"; "dev"]))];
     cl_members := nothing; cl_apps := nothing; cl_previews := nothing; cl_secrets := nothing;
     cl_configmaps := nothing; cl_namespaces := stored_now [dev_namespace]; cl_rolebindings := nothing;
     cl_buildruns := nothing |}.

Definition outcome (res : cluster * reply project_env_body) : Z * list string * list string :=
  let '(w, r) := res in
  (rp_code r,
   match Sim.objects (cl_projects w) !! ("", "shop") with
   | Some p => env_names (ProjectSpec_Environments (Project_Spec p)) | None => [] end,
   (map_to_list (Sim.objects (cl_namespaces w))).*1.*2).

Definition review (ns : string) (w : cluster) : cluster * (error + bool) := (w, inr true).
Definition poll (f : cluster → cluster * bool) (w : cluster) : cluster * option error := ((f w).1, None).

Definition clone : cluster * reply project_env_body :=
  serve (CloneProjectEnvironment R None None review poll "" "" (λ _, None) id (λ _, 0%Z) (λ _, None) false
           (request_of "{'name':'dev'}")) crossed.
Definition create : cluster * reply project_env_body :=
  serve (CreateProjectEnvironment R None review poll "" "" (λ _, None) id (λ _, 0%Z) (λ _, None) false
           (request_of "{'name':'dev'}")) crossed.
Definition rename : cluster * reply project_env_body :=
  serve (UpdateProjectEnvironment R None review poll "" "" (λ _, None) id (λ _, 0%Z) (λ _, None) false
           (request_of "{'name':'dev'}")) crossed.

(** Creating answers that the environment exists and leaves its namespace. *)
Example create_keeps_namespace : outcome create = (StatusConflict, ["production"; "dev"], ["pj-shop-dev"]).
Proof. vm_compute. reflexivity. Qed.

(** Cloning answers the same and deletes the namespace of the environment that the other
    request created, with everything in it. *)
Example clone_deletes_namespace : outcome clone = (StatusConflict, ["production"; "dev"], []).
Proof. vm_compute. reflexivity. Qed.

(** Renaming deletes it as well, and answers an internal error. *)
Example rename_deletes_namespace : outcome rename = (500%Z, ["production"; "dev"], []).
Proof. vm_compute. reflexivity. Qed.
End CloneRuns.
