(* ===== verification/WebhookEvents.v ===== *)
(** * Webhook payloads: [internal/webhook/handler.go] and [internal/git]

    The pure part of the webhook receiver: verifying a delivery's signature, parsing
    push and pull request payloads, and deciding which repositories, paths and
    environments they concern. *)

From S2P Require Import Prelude GoStrings Sha256 Json GoNum JsonStruct Kube Api Constants.

(** [http.Header.Get]: the first value of a header, the empty string without one. *)
Abbreviation Header := (string → string) (only parsing).

(** ** Signatures: [internal/git] *)

(** [GitHubAPI.VerifyWebhookSignature]; [None] is success. *)
Definition verify_github (secret body : string) (header : Header) : option error :=
  let sig := header "X-Hub-Signature-256" in
  if String.eqb sig "" then Some (Errorf "missing X-Hub-Signature-256 header" [])
  else
    let sig := trim_prefix "sha256=" sig in
    let expected := hmac_sha256_hex secret body in
    if negb (String.eqb sig expected) then Some (Errorf "signature mismatch" []) else None.

Definition verify_gitlab (secret : string) (header : Header) : option error :=
  let got := header "X-Gitlab-Token" in
  if String.eqb got "" then Some (Errorf "missing X-Gitlab-Token header" [])
  else if negb (String.eqb got secret) then Some (Errorf "token mismatch" []) else None.

Definition verify_gitea (secret body : string) (header : Header) : option error :=
  let sig := header "X-Gitea-Signature" in
  if String.eqb sig "" then Some (Errorf "missing X-Gitea-Signature header" [])
  else
    let expected := hmac_sha256_hex secret body in
    if negb (String.eqb sig expected) then Some (Errorf "signature mismatch" []) else None.

(** ** Payloads *)

Record payloadRepository := {
  repo_FullName : string;
  repo_HTMLURL : string;
}.
Definition payloadRepository_zero : payloadRepository :=
  {|
    repo_FullName := ""; repo_HTMLURL := "" |}.
Definition with_repo_FullName (v : string) (x : payloadRepository) : payloadRepository :=
  {|
    repo_FullName := v; repo_HTMLURL := repo_HTMLURL x |}.
Definition with_repo_HTMLURL (v : string) (x : payloadRepository) : payloadRepository :=
  {|
    repo_FullName := repo_FullName x; repo_HTMLURL := v |}.

Record pushCommit := {
  commit_Added : option (list string);
  commit_Modified : option (list string);
  commit_Removed : option (list string);
}.
Definition pushCommit_zero : pushCommit :=
  {|
    commit_Added := None; commit_Modified := None; commit_Removed := None |}.
Definition with_commit_Added (v : option (list string)) (x : pushCommit) : pushCommit :=
  {|
    commit_Added := v; commit_Modified := commit_Modified x;
    commit_Removed := commit_Removed x |}.
Definition with_commit_Modified (v : option (list string)) (x : pushCommit) : pushCommit :=
  {|
    commit_Added := commit_Added x; commit_Modified := v;
    commit_Removed := commit_Removed x |}.
Definition with_commit_Removed (v : option (list string)) (x : pushCommit) : pushCommit :=
  {|
    commit_Added := commit_Added x; commit_Modified := commit_Modified x;
    commit_Removed := v |}.

Record pushPayload := {
  push_Ref : string;
  push_SHA : string;
  push_Repo : payloadRepository;
  push_Commits : option (list pushCommit);
}.
Definition pushPayload_zero : pushPayload :=
  {|
    push_Ref := ""; push_SHA := ""; push_Repo := payloadRepository_zero;
    push_Commits := None |}.
Definition with_push_Ref (v : string) (x : pushPayload) : pushPayload :=
  {|
    push_Ref := v; push_SHA := push_SHA x; push_Repo := push_Repo x;
    push_Commits := push_Commits x |}.
Definition with_push_SHA (v : string) (x : pushPayload) : pushPayload :=
  {|
    push_Ref := push_Ref x; push_SHA := v; push_Repo := push_Repo x;
    push_Commits := push_Commits x |}.
Definition with_push_Repo (v : payloadRepository) (x : pushPayload) : pushPayload :=
  {|
    push_Ref := push_Ref x; push_SHA := push_SHA x; push_Repo := v;
    push_Commits := push_Commits x |}.
Definition with_push_Commits (v : option (list pushCommit)) (x : pushPayload) : pushPayload :=
  {|
    push_Ref := push_Ref x; push_SHA := push_SHA x; push_Repo := push_Repo x;
    push_Commits := v |}.

Record prHead := {
  head_Ref : string;
  head_SHA : string;
}.
Definition prHead_zero : prHead :=
  {|
    head_Ref := ""; head_SHA := "" |}.
Definition with_head_Ref (v : string) (x : prHead) : prHead :=
  {|
    head_Ref := v; head_SHA := head_SHA x |}.
Definition with_head_SHA (v : string) (x : prHead) : prHead :=
  {|
    head_Ref := head_Ref x; head_SHA := v |}.

Record prUser := {
  user_Login : string;
  user_Type : string;
}.
Definition prUser_zero : prUser :=
  {|
    user_Login := ""; user_Type := "" |}.
Definition with_user_Login (v : string) (x : prUser) : prUser :=
  {|
    user_Login := v; user_Type := user_Type x |}.
Definition with_user_Type (v : string) (x : prUser) : prUser :=
  {|
    user_Login := user_Login x; user_Type := v |}.

Record prPullRequest := {
  pull_Number : Z;
  pull_Head : prHead;
  pull_User : prUser;
}.
Definition prPullRequest_zero : prPullRequest :=
  {|
    pull_Number := 0%Z; pull_Head := prHead_zero; pull_User := prUser_zero |}.
Definition with_pull_Number (v : Z) (x : prPullRequest) : prPullRequest :=
  {|
    pull_Number := v; pull_Head := pull_Head x; pull_User := pull_User x |}.
Definition with_pull_Head (v : prHead) (x : prPullRequest) : prPullRequest :=
  {|
    pull_Number := pull_Number x; pull_Head := v; pull_User := pull_User x |}.
Definition with_pull_User (v : prUser) (x : prPullRequest) : prPullRequest :=
  {|
    pull_Number := pull_Number x; pull_Head := pull_Head x; pull_User := v |}.

Record prLastCommit := {
  last_ID : string;
}.
Definition prLastCommit_zero : prLastCommit :=
  {|
    last_ID := "" |}.
Definition with_last_ID (v : string) (x : prLastCommit) : prLastCommit :=
  {|
    last_ID := v |}.

Record prObjectAttributes := {
  attrs_Action : string;
  attrs_IID : Z;
  attrs_SourceBranch : string;
  attrs_LastCommit : prLastCommit;
  attrs_State : string;
}.
Definition prObjectAttributes_zero : prObjectAttributes :=
  {|
    attrs_Action := ""; attrs_IID := 0%Z; attrs_SourceBranch := "";
    attrs_LastCommit := prLastCommit_zero; attrs_State := "" |}.
Definition with_attrs_Action (v : string) (x : prObjectAttributes) : prObjectAttributes :=
  {|
    attrs_Action := v; attrs_IID := attrs_IID x;
    attrs_SourceBranch := attrs_SourceBranch x; attrs_LastCommit := attrs_LastCommit x;
    attrs_State := attrs_State x |}.
Definition with_attrs_IID (v : Z) (x : prObjectAttributes) : prObjectAttributes :=
  {|
    attrs_Action := attrs_Action x; attrs_IID := v;
    attrs_SourceBranch := attrs_SourceBranch x; attrs_LastCommit := attrs_LastCommit x;
    attrs_State := attrs_State x |}.
Definition with_attrs_SourceBranch (v : string) (x : prObjectAttributes) : prObjectAttributes :=
  {|
    attrs_Action := attrs_Action x; attrs_IID := attrs_IID x; attrs_SourceBranch := v;
    attrs_LastCommit := attrs_LastCommit x; attrs_State := attrs_State x |}.
Definition with_attrs_LastCommit (v : prLastCommit) (x : prObjectAttributes) : prObjectAttributes :=
  {|
    attrs_Action := attrs_Action x; attrs_IID := attrs_IID x;
    attrs_SourceBranch := attrs_SourceBranch x; attrs_LastCommit := v;
    attrs_State := attrs_State x |}.
Definition with_attrs_State (v : string) (x : prObjectAttributes) : prObjectAttributes :=
  {|
    attrs_Action := attrs_Action x; attrs_IID := attrs_IID x;
    attrs_SourceBranch := attrs_SourceBranch x; attrs_LastCommit := attrs_LastCommit x;
    attrs_State := v |}.

Record prPayload := {
  pr_Action : string;
  pr_Number : Z;
  pr_PullRequest : prPullRequest;
  pr_ObjectAttributes : prObjectAttributes;
  pr_Repo : payloadRepository;
}.
Definition prPayload_zero : prPayload :=
  {|
    pr_Action := ""; pr_Number := 0%Z; pr_PullRequest := prPullRequest_zero;
    pr_ObjectAttributes := prObjectAttributes_zero; pr_Repo := payloadRepository_zero |}.
Definition with_pr_Action (v : string) (x : prPayload) : prPayload :=
  {|
    pr_Action := v; pr_Number := pr_Number x; pr_PullRequest := pr_PullRequest x;
    pr_ObjectAttributes := pr_ObjectAttributes x; pr_Repo := pr_Repo x |}.
Definition with_pr_Number (v : Z) (x : prPayload) : prPayload :=
  {|
    pr_Action := pr_Action x; pr_Number := v; pr_PullRequest := pr_PullRequest x;
    pr_ObjectAttributes := pr_ObjectAttributes x; pr_Repo := pr_Repo x |}.
Definition with_pr_PullRequest (v : prPullRequest) (x : prPayload) : prPayload :=
  {|
    pr_Action := pr_Action x; pr_Number := pr_Number x; pr_PullRequest := v;
    pr_ObjectAttributes := pr_ObjectAttributes x; pr_Repo := pr_Repo x |}.
Definition with_pr_ObjectAttributes (v : prObjectAttributes) (x : prPayload) : prPayload :=
  {|
    pr_Action := pr_Action x; pr_Number := pr_Number x; pr_PullRequest := pr_PullRequest x;
    pr_ObjectAttributes := v; pr_Repo := pr_Repo x |}.
Definition with_pr_Repo (v : payloadRepository) (x : prPayload) : prPayload :=
  {|
    pr_Action := pr_Action x; pr_Number := pr_Number x; pr_PullRequest := pr_PullRequest x;
    pr_ObjectAttributes := pr_ObjectAttributes x; pr_Repo := v |}.

(** The JSON names of the fields. *)
Definition decode_repository : decoder payloadRepository := struct
  [("full_name", string_field with_repo_FullName); ("html_url", string_field with_repo_HTMLURL)].

Definition decode_commit : decoder pushCommit := struct
  [("added", slice_field "" string_elem with_commit_Added);
   ("modified", slice_field "" string_elem with_commit_Modified);
   ("removed", slice_field "" string_elem with_commit_Removed)].

Definition decode_push : decoder pushPayload := struct
  [("ref", string_field with_push_Ref); ("after", string_field with_push_SHA);
   ("repository", sub_field push_Repo with_push_Repo decode_repository);
   ("commits", slice_field pushCommit_zero decode_commit with_push_Commits)].

Definition decode_pull_request : decoder prPullRequest := struct
  [("number", int_field with_pull_Number);
   ("head", sub_field pull_Head with_pull_Head
      (struct [("ref", string_field with_head_Ref); ("sha", string_field with_head_SHA)]));
   ("user", sub_field pull_User with_pull_User
      (struct [("login", string_field with_user_Login); ("type", string_field with_user_Type)]))].

Definition decode_attributes : decoder prObjectAttributes := struct
  [("action", string_field with_attrs_Action); ("iid", int_field with_attrs_IID);
   ("source_branch", string_field with_attrs_SourceBranch);
   ("last_commit", sub_field attrs_LastCommit with_attrs_LastCommit
      (struct [("id", string_field with_last_ID)]));
   ("state", string_field with_attrs_State)].

Definition decode_pr : decoder prPayload := struct
  [("action", string_field with_pr_Action); ("number", int_field with_pr_Number);
   ("pull_request", sub_field pr_PullRequest with_pr_PullRequest decode_pull_request);
   ("object_attributes",
      sub_field pr_ObjectAttributes with_pr_ObjectAttributes decode_attributes);
   ("repository", sub_field pr_Repo with_pr_Repo decode_repository)].

Record BuildRequest := {
  BuildRequest_Provider : string;
  BuildRequest_Repo : string;
  BuildRequest_Ref : string;
  BuildRequest_SHA : string;
  BuildRequest_ChangedPaths : option (list string);
}.
Definition with_BuildRequest_Provider (v : string) (x : BuildRequest) : BuildRequest :=
  {| BuildRequest_Provider := v; BuildRequest_Repo := BuildRequest_Repo x;
     BuildRequest_Ref := BuildRequest_Ref x; BuildRequest_SHA := BuildRequest_SHA x;
     BuildRequest_ChangedPaths := BuildRequest_ChangedPaths x |}.

Record PREvent := {
  PREvent_Provider : string;
  PREvent_Repo : string;
  PREvent_Number : Z;
  PREvent_Action : string;
  PREvent_Branch : string;
  PREvent_SHA : string;
  PREvent_AuthorIsBot : bool;
}.
Definition with_PREvent_Provider (v : string) (x : PREvent) : PREvent :=
  {| PREvent_Provider := v; PREvent_Repo := PREvent_Repo x; PREvent_Number := PREvent_Number x;
     PREvent_Action := PREvent_Action x; PREvent_Branch := PREvent_Branch x;
     PREvent_SHA := PREvent_SHA x; PREvent_AuthorIsBot := PREvent_AuthorIsBot x |}.

(** [if s == "" { s = other }] *)
Definition or_else (s other : string) : string := if String.eqb s "" then other else s.

Definition repository_name (r : payloadRepository) : string := or_else (repo_FullName r) (repo_HTMLURL r).

Definition payloadAuthorIsBot (p : prPayload) : bool :=
  let user := pull_User (pr_PullRequest p) in
  if equal_fold (user_Type user) "Bot" then true
  else has_suffix "[bot]" (to_lower (user_Login user)).

Definition zero_sha : string := "0000000000000000000000000000000000000000".

(** The paths of a push, each once, in the order they first appear. *)
Definition add_path (changed : list string) (path : string) : list string :=
  if String.eqb path "" then changed
  else if bool_decide (path ∈ changed) then changed
  else changed ++ [path].

Definition commit_paths (c : pushCommit) : list string :=
  default [] (commit_Added c) ++ default [] (commit_Modified c) ++ default [] (commit_Removed c).

Definition changed_paths (commits : list pushCommit) : list string :=
  fold_left add_path (c ← commits; commit_paths c) [].

(** [None] is the false result. *)
Definition parsePushEvent (providerType : GitProviderType) (body : string) : option BuildRequest :=
  raw ← v ← parse body; raw_members v;
  match raw_get raw "pull_request" with
  | Some _ => None
  | None =>
    p ← unmarshal decode_push pushPayload_zero body;
    if String.eqb (push_Ref p) "" then None
    else
      let sha :=
        if String.eqb providerType GitProviderTypeGitLab then
          match raw_get raw "checkout_sha" with
          | Some (JStr s) => s
          | _ => push_SHA p
          end
        else push_SHA p in
      if String.eqb sha "" || String.eqb sha zero_sha then None
      else
        Some {| BuildRequest_Provider := ""; BuildRequest_Repo := repository_name (push_Repo p);
                BuildRequest_Ref := push_Ref p; BuildRequest_SHA := sha;
                BuildRequest_ChangedPaths := changed_paths <$> push_Commits p |}
  end.

Definition normalizeAction (action : string) : string :=
  if String.eqb action "opened" || String.eqb action "reopened" then "opened"
  else if String.eqb action "synchronize" || String.eqb action "synchronized" then "synchronize"
  else if String.eqb action "closed" || String.eqb action "merged" then "closed"
  else "".

Definition normalizeGitLabAction (action state : string) : string :=
  if String.eqb action "open" then "opened"
  else if String.eqb action "update" then "synchronize"
  else if String.eqb action "close" || String.eqb action "merge" then "closed"
  else if String.eqb state "opened" then "opened"
  else if String.eqb state "closed" || String.eqb state "merged" then "closed"
  else "".

(** The event of a GitHub or Gitea payload of type [pull_request]. *)
Definition forge_pr_event (body : string) : option PREvent :=
  p ← unmarshal decode_pr prPayload_zero body;
  let action := normalizeAction (pr_Action p) in
  if String.eqb action "" then None
  else
    let pull := pr_PullRequest p in
    Some {| PREvent_Provider := ""; PREvent_Repo := repository_name (pr_Repo p);
            PREvent_Number := (if (pull_Number pull =? 0)%Z then pr_Number p else pull_Number pull);
            PREvent_Action := action; PREvent_Branch := head_Ref (pull_Head pull);
            PREvent_SHA := head_SHA (pull_Head pull);
            PREvent_AuthorIsBot := payloadAuthorIsBot p |}.

Definition parseGitHubPREvent (body : string) (header : Header) : option PREvent :=
  if negb (String.eqb (header "X-GitHub-Event") "pull_request") then None
  else forge_pr_event body.

Definition parseGiteaPREvent (body : string) (header : Header) : option PREvent :=
  let eventType := or_else (header "X-Gitea-Event") (header "X-GitHub-Event") in
  if negb (String.eqb eventType "pull_request") then None else forge_pr_event body.

Definition parseGitLabPREvent (body : string) (header : Header) : option PREvent :=
  if negb (String.eqb (header "X-Gitlab-Event") "Merge Request Hook") then None
  else
    p ← unmarshal decode_pr prPayload_zero body;
    let attrs := pr_ObjectAttributes p in
    let action := normalizeGitLabAction (attrs_Action attrs) (attrs_State attrs) in
    if String.eqb action "" then None
    else
      Some {| PREvent_Provider := ""; PREvent_Repo := repository_name (pr_Repo p);
              PREvent_Number := attrs_IID attrs; PREvent_Action := action;
              PREvent_Branch := attrs_SourceBranch attrs;
              PREvent_SHA := last_ID (attrs_LastCommit attrs); PREvent_AuthorIsBot := false |}.

Definition parsePREvent (providerType : GitProviderType) (body : string) (header : Header)
    : option PREvent :=
  if String.eqb providerType GitProviderTypeGitHub then parseGitHubPREvent body header
  else if String.eqb providerType GitProviderTypeGitea then parseGiteaPREvent body header
  else if String.eqb providerType GitProviderTypeGitLab then parseGitLabPREvent body header
  else None.

(** ** Matching *)

Definition providerMatches (ref delivering : string) (soleProvider : bool) : bool :=
  if negb (String.eqb ref "") then String.eqb ref delivering else soleProvider.

Definition branchFromRef (ref : string) : string := trim_prefix "refs/heads/" ref.

Definition normalizeRepo (raw : string) : string := CanonicalRepoKey raw.

Definition ownerRepo (normalized : string) : string :=
  match rev (split "/"%char normalized) with
  | name :: owner :: _ => owner +:+ "/" +:+ name
  | _ => ""
  end.

Definition repoMatches (appRepo eventRepo : string) : bool :=
  if String.eqb appRepo "" || String.eqb eventRepo "" then false
  else String.eqb (ownerRepo (normalizeRepo appRepo)) (ownerRepo (normalizeRepo eventRepo)).

(** [None] stands for nil changed paths: the payload has no commits. *)
Definition matchesWatchPaths (watchPaths : list string) (changedPaths : option (list string)) : bool :=
  match watchPaths, changedPaths with
  | [], _ => true
  | _, None => true
  | _, Some changed =>
    existsb (λ wp,
      let wp := trim_prefix "/" wp in
      negb (String.eqb wp "") && existsb (λ cp, has_prefix wp cp) changed) watchPaths
  end.

Definition previewEnvName (repo : string) (prNumber : Z) (multiRepo : bool) : string :=
  PreviewEnvironmentName repo prNumber multiRepo.

Definition app_source (app : App) : AppSource := AppSpec_Source (App_Spec app).

Definition repo_key (src : AppSource) : string :=
  AppSource_ProviderRef src +:+ String (Ascii.ascii_of_nat 0) (CanonicalRepoKey (AppSource_Repo src)).

(** The loop stops at the second key. *)
Fixpoint multiple_repos (controlNs : string) (seen : gset string) (apps : list App) : bool :=
  match apps with
  | [] => false
  | app :: rest =>
    let src := app_source app in
    if negb (String.eqb (meta_Namespace (App_ObjectMeta app)) controlNs)
       || negb (String.eqb (AppSource_Type src) SourceTypeGit)
       || String.eqb (AppSource_Repo src) ""
    then multiple_repos controlNs seen rest
    else
      let seen := {[repo_key src]} ∪ seen in
      if (1 <? size seen)%nat then true else multiple_repos controlNs seen rest
  end.

Definition projectHasMultipleGitRepos (apps : list App) (projectName : string) : bool :=
  multiple_repos (ControlNamespace projectName) ∅ apps.

(** The loop over the environments: [staging] at once, else the first that is neither
    [production] nor a preview. *)
Fixpoint source_env_loop (firstNonProd : string) (envs : list ProjectEnvironment) : string :=
  match envs with
  | [] => firstNonProd
  | env :: rest =>
    if ProjectEnvironment_Preview env then source_env_loop firstNonProd rest
    else if String.eqb (ProjectEnvironment_Name env) "staging" then "staging"
    else if negb (String.eqb (ProjectEnvironment_Name env) "production") && String.eqb firstNonProd ""
    then source_env_loop (ProjectEnvironment_Name env) rest
    else source_env_loop firstNonProd rest
  end.

Definition resolveSourceEnv (project : Project) : string :=
  let spec := Project_Spec project in
  match ProjectSpec_Preview spec with
  | Some preview =>
    if negb (String.eqb (PreviewConfig_SourceEnvironment preview) "")
    then PreviewConfig_SourceEnvironment preview
    else source_env_loop "" (ProjectSpec_Environments spec)
  | None => source_env_loop "" (ProjectSpec_Environments spec)
  end.

(** ** Correctness *)

Lemma add_path_spec changed path :
  NoDup changed →
  NoDup (add_path changed path) ∧
  ∀ x, x ∈ add_path changed path ↔ x ∈ changed ∨ (x = path ∧ path ≠ "").
Proof.
  intros Hnd. unfold add_path. destruct (String.eqb_spec path "") as [->|Hne].
  { split; [done|]. intros x. split; [by left|]. by intros [?|[-> ?]]. }
  case_bool_decide as Hin.
  { split; [done|]. intros x. split; [by left|]. by intros [?|[-> ?]]. }
  split.
  - apply NoDup_app. split; [done|]. split; [|apply NoDup_singleton].
    intros x Hx ->%list_elem_of_singleton. done.
  - intros x. rewrite elem_of_app, list_elem_of_singleton. naive_solver.
Qed.

Lemma add_paths_spec paths changed :
  NoDup changed →
  NoDup (fold_left add_path paths changed) ∧
  ∀ x, x ∈ fold_left add_path paths changed ↔ x ∈ changed ∨ (x ∈ paths ∧ x ≠ "").
Proof.
  revert changed. induction paths as [|p paths IH]; intros changed Hnd; simpl.
  { split; [done|]. intros x. rewrite elem_of_nil. tauto. }
  destruct (add_path_spec changed p Hnd) as [Hnd' Hin].
  destruct (IH _ Hnd') as [H1 H2]. split; [done|].
  intros x. rewrite H2, Hin, elem_of_cons. naive_solver.
Qed.

(** The changed paths of a push are the non-empty paths any of its commits added,
    modified or removed, each listed once. *)
Theorem changed_paths_spec commits :
  NoDup (changed_paths commits) ∧
  ∀ path, path ∈ changed_paths commits ↔
    path ≠ "" ∧ ∃ c ps, c ∈ commits ∧ path ∈ ps ∧
      (commit_Added c = Some ps ∨ commit_Modified c = Some ps ∨ commit_Removed c = Some ps).
Proof.
  destruct (add_paths_spec (c ← commits; commit_paths c) []) as [Hnd Hin]; [constructor|].
  split; [done|]. intros path. unfold changed_paths. rewrite Hin, elem_of_nil.
  rewrite list_elem_of_bind. unfold commit_paths. setoid_rewrite elem_of_app.
  setoid_rewrite elem_of_app. split.
  - intros [[]|[(c & Hp & Hc) Hne]]. split; [done|].
    destruct Hp as [Hp|[Hp|Hp]].
    + destruct (commit_Added c) eqn:E; [|by apply elem_of_nil in Hp]. naive_solver.
    + destruct (commit_Modified c) eqn:E; [|by apply elem_of_nil in Hp]. naive_solver.
    + destruct (commit_Removed c) eqn:E; [|by apply elem_of_nil in Hp]. naive_solver.
  - intros [Hne (c & ps & Hc & Hp & Hps)]. right. split; [|done]. exists c. split; [|done].
    destruct Hps as [->|[->| ->]]; simpl; auto.
Qed.

(** The environments a preview may clone from. *)
Definition cloneable (env : ProjectEnvironment) : bool :=
  negb (ProjectEnvironment_Preview env) &&
  negb (String.eqb (ProjectEnvironment_Name env) "production").

Lemma source_env_loop_spec first envs :
  let names := ProjectEnvironment_Name <$> List.filter cloneable envs in
  source_env_loop first envs =
  (if bool_decide ("staging" ∈ names) then "staging"
   else default "" (head (List.filter (λ n, negb (String.eqb n "")) (first :: names)))).
Proof.
  cbv zeta. unfold cloneable. revert first.
  induction envs as [|env envs IH]; intros first.
  { simpl. destruct (String.eqb_spec first "") as [->|]; done. }
  cbn [source_env_loop List.filter].
  destruct (ProjectEnvironment_Preview env); cbn [negb andb]; [apply IH|].
  set (name := ProjectEnvironment_Name env).
  destruct (String.eqb_spec name "staging") as [Hs|Hs].
  { rewrite Hs. simpl negb. cbv iota. cbn [fmap list_fmap]. fold name. rewrite Hs.
    by rewrite bool_decide_true by by left. }
  destruct (String.eqb_spec name "production") as [Hp|Hp]; cbn [negb andb].
  { apply IH. }
  cbn [fmap list_fmap]. fold name.
  set (names := ProjectEnvironment_Name <$> List.filter _ envs) in *.
  assert (bool_decide ("staging" ∈ name :: names) = bool_decide ("staging" ∈ names)) as ->.
  { apply bool_decide_ext. rewrite elem_of_cons. naive_solver. }
  destruct (String.eqb_spec first "") as [->|Hne].
  - rewrite IH. by case_bool_decide.
  - rewrite IH. fold names. case_bool_decide; [done|]. cbn [List.filter].
    destruct (String.eqb_spec first ""); [done|]. done.
Qed.

(** The environment a preview clones from is never production and never another
    preview unless the project names it: [staging] if there is one, else the first
    environment that is neither. *)
Theorem resolveSourceEnv_spec project :
  resolveSourceEnv project =
  (let explicit := from_option PreviewConfig_SourceEnvironment ""
                     (ProjectSpec_Preview (Project_Spec project)) in
   let names := ProjectEnvironment_Name <$>
                  List.filter cloneable (ProjectSpec_Environments (Project_Spec project)) in
   if negb (String.eqb explicit "") then explicit
   else if bool_decide ("staging" ∈ names) then "staging"
   else default "" (head (List.filter (λ n, negb (String.eqb n "")) names))).
Proof.
  unfold resolveSourceEnv. rewrite source_env_loop_spec. cbv zeta. cbn [List.filter].
  simpl String.eqb. cbn [negb]. cbv iota.
  destruct (ProjectSpec_Preview (Project_Spec project)) as [preview|]; done.
Qed.

(** ** Concrete runs *)

(** Two repositories without an owner match whatever they are called. *)
Lemma repo_without_owner_matches : repoMatches "web" "billing" = true.
Proof. vm_compute. reflexivity. Qed.

Example same_repository :
  repoMatches "git@github.com:Acme/Web.git" "https://github.com/acme/web" = true.
Proof. vm_compute. reflexivity. Qed.

(** A delivery signed with an empty secret verifies under an empty secret. *)
Lemma empty_secret_verifies body :
  verify_github "" body (λ _, "sha256=" +:+ hmac_sha256_hex "" body) = None.
Proof.
  unfold verify_github.
  destruct (String.eqb_spec ("sha256=" +:+ hmac_sha256_hex "" body) "") as [E|_];
    [by destruct (hmac_sha256_hex "" body)|].
  by rewrite trim_prefix_app, String.eqb_refl.
Qed.
