(* ===== verification/Webhook.v ===== *)
(** * The webhook receiver: [internal/webhook]

    [handleWebhook] verifies a delivery and dispatches it: a push patches the revision
    of the apps built from the repository, a pull request event creates, updates or
    deletes one preview environment per project.  The receiver sees the cluster through
    the interface [K8sReader]; [k8s.go] implements it with client calls.  Log lines are
    not modelled. *)

From S2P Require Import Prelude GoStrings Sha256 Json GoTime Kube Core Api Constants WebhookEvents.

(** The interface [k8sReader] of [handler.go]. *)
Class K8sReader (W : Type) := {
  getGitProvider : string → W → W * (error + GitProvider);
  countGitProviders : W → W * (error + Z);
  getSecret : string → string → string → W → W * (error + string);
  getProject : string → W → W * (error + Project);
  listGitApps : W → W * (error + list App);
  patchAppRevision : App → string → W → W * option error;
  getPreviewEnvironment : string → string → W → W * (error + PreviewEnvironment);
  createPreviewEnvironment : PreviewEnvironment → W → W * option error;
  updatePreviewEnvironment : PreviewEnvironment → W → W * option error;
  deletePreviewEnvironment : string → string → W → W * option error;
  setWebhookSignatureCondition : string → bool → Time → W → W * option error;
}.

Definition signatureWriteInterval : Z := Minute.

(** An HTTP response: the status code and the text of [http.Error]. *)
Record response := { resp_code : Z; resp_text : string }.

Definition Unauthorized : response := {| resp_code := 401; resp_text := "unauthorized" |}.
Definition InternalError : response := {| resp_code := 500; resp_text := "internal error" |}.
Definition BadBody : response := {| resp_code := 400; resp_text := "read body" |}.
Definition Accepted : response := {| resp_code := 202; resp_text := "" |}.

(** The state of a [Handler]: when an outcome was last written, per provider. *)
Abbreviation Handler := (gmap string Time) (only parsing).

(** A delivery: the name in the path, the body as it was read (the first 10 MiB, or the
    error of reading), and the headers. *)
Record delivery := { dl_provider : string; dl_body : error + string; dl_header : Header }.

(** The key of an outcome in [lastSignatureWrite]. *)
Definition outcome_key (providerName : string) (mismatch : bool) : string :=
  if mismatch then providerName +:+ "/mismatch" else providerName.

(** Whether an outcome at [now] is written, and what is remembered. *)
Definition record_outcome (now : Time) (providerName : string) (mismatch : bool) (h : Handler)
    : Handler * bool :=
  let key := outcome_key providerName mismatch in
  match h !! key with
  | Some last => if (now - last <? signatureWriteInterval)%Z then (h, false)
                 else (<[key := now]> h, true)
  | None => (<[key := now]> h, true)
  end.

Section handler.
Context {W : Type} {K : K8sReader W} (R : MapRange) (now : W → Time).
(** The error, if any, of building the forge's SDK client in [NewGitHubAPI],
    [NewGitLabAPI] or [NewGiteaAPI]. *)
Context (sdk_client : GitProvider → option error).

Definition recordSignatureOutcome (providerName : string) (mismatch : bool) (h : Handler) (w : W)
    : Handler * W :=
  let t := now w in
  match record_outcome t providerName mismatch h with
  | (h, false) => (h, w)
  | (h, true) => (h, (setWebhookSignatureCondition providerName mismatch t w).1)
  end.

(** [NewGitAPIFromProvider]: the verifier of the provider's forge. *)
Definition NewGitAPIFromProvider (gp : GitProvider) (webhookSecret : string)
    : error + (string → Header → option error) :=
  let type := GitProviderSpec_Type (GitProvider_Spec gp) in
  let api (verify : string → Header → option error) :=
    match sdk_client gp with Some err => inl err | None => inr verify end in
  if String.eqb type GitProviderTypeGitHub then api (verify_github webhookSecret)
  else if String.eqb type GitProviderTypeGitLab then api (λ _, verify_gitlab webhookSecret)
  else if String.eqb type GitProviderTypeGitea then api (verify_gitea webhookSecret)
  else inl (Errorf "unsupported git provider type: %q" [type]).

Definition soleProvider (w : W) : W * bool :=
  match countGitProviders w with
  | (w, inl _) => (w, false)
  | (w, inr n) => (w, (n =? 1)%Z)
  end.

(** ** Push events *)

Definition app_branch (src : AppSource) : string := or_else (AppSource_Branch src) "main".

Fixpoint dispatch_apps (br : BuildRequest) (sole : bool) (pushedBranch : string)
    (apps : list App) (w : W) : W :=
  match apps with
  | [] => w
  | app :: rest =>
    let src := app_source app in
    let continue := dispatch_apps br sole pushedBranch rest in
    if negb (String.eqb (AppSource_Type src) SourceTypeGit) then continue w
    else if negb (providerMatches (AppSource_ProviderRef src) (BuildRequest_Provider br) sole)
    then continue w
    else if negb (repoMatches (AppSource_Repo src) (BuildRequest_Repo br)) then continue w
    else if negb (String.eqb (app_branch src) pushedBranch) then continue w
    else if negb (matchesWatchPaths (AppSource_WatchPaths src) (BuildRequest_ChangedPaths br))
    then continue w
    else continue (patchAppRevision app (BuildRequest_SHA br) w).1
  end.

Definition dispatchToApps (br : BuildRequest) (w : W) : W :=
  match listGitApps w with
  | (w, inl _) => w
  | (w, inr apps) =>
    let '(w, sole) := soleProvider w in
    dispatch_apps br sole (branchFromRef (BuildRequest_Ref br)) apps w
  end.

(** ** Pull request events *)

(** [projectCache], [projectKnown] and [projectMultiRepo]. *)
Record project_maps := {
  projectCache : gmap string Project;
  projectKnown : gset string;
  projectMultiRepo : gmap string bool;
}.

Definition no_projects : project_maps :=
  {| projectCache := ∅; projectKnown := ∅; projectMultiRepo := ∅ |}.

(** The first loop: the projects with an app of the repository. *)
Fixpoint collect_projects (pr : PREvent) (sole : bool) (all apps : list App) (m : project_maps) (w : W)
    : project_maps * W :=
  match apps with
  | [] => (m, w)
  | app :: rest =>
    let src := app_source app in
    let continue := collect_projects pr sole all rest in
    if negb (String.eqb (AppSource_Type src) SourceTypeGit) then continue m w
    else if negb (providerMatches (AppSource_ProviderRef src) (PREvent_Provider pr) sole)
    then continue m w
    else if negb (repoMatches (AppSource_Repo src) (PREvent_Repo pr)) then continue m w
    else
      let '(projectName, ok) := ProjectFromControlNs (meta_Namespace (App_ObjectMeta app)) in
      if negb ok then continue m w
      else
        let multi := <[projectName := projectHasMultipleGitRepos all projectName]> (projectMultiRepo m) in
        if bool_decide (projectName ∈ projectKnown m)
        then continue {| projectCache := projectCache m; projectKnown := projectKnown m;
                         projectMultiRepo := multi |} w
        else
          let known := {[projectName]} ∪ projectKnown m in
          match getProject projectName w with
          | (w, inl _) =>
            continue {| projectCache := projectCache m; projectKnown := known;
                        projectMultiRepo := multi |} w
          | (w, inr fetched) =>
            continue {| projectCache := <[projectName := fetched]> (projectCache m);
                        projectKnown := known; projectMultiRepo := multi |} w
          end
  end.

Definition new_preview (projectName sourceEnv controlNs peName : string) (pr : PREvent)
    : PreviewEnvironment :=
  {| PreviewEnvironment_ObjectMeta := with_name peName (with_namespace controlNs ObjectMeta_zero);
     PreviewEnvironment_Spec :=
       {| PreviewEnvironmentSpec_ProjectRef := projectName;
          PreviewEnvironmentSpec_SourceEnv := sourceEnv;
          PreviewEnvironmentSpec_PullRequest :=
            {| PullRequestRef_Number := PREvent_Number pr;
               PullRequestRef_Branch := PREvent_Branch pr;
               PullRequestRef_SHA := PREvent_SHA pr;
               PullRequestRef_Repo := PREvent_Repo pr |} |};
     PreviewEnvironment_Status := PreviewEnvironmentStatus_zero |}.

Definition preview_pr (pe : PreviewEnvironment) : PullRequestRef :=
  PreviewEnvironmentSpec_PullRequest (PreviewEnvironment_Spec pe).

(** Nothing to update. *)
Definition same_head (existing : PreviewEnvironment) (pr : PREvent) : bool :=
  String.eqb (PullRequestRef_SHA (preview_pr existing)) (PREvent_SHA pr) &&
  String.eqb (PullRequestRef_Branch (preview_pr existing)) (PREvent_Branch pr) &&
  String.eqb (CanonicalRepoKey (PullRequestRef_Repo (preview_pr existing)))
             (CanonicalRepoKey (PREvent_Repo pr)).

(** The copy with the head of the pull request; its number stays. *)
Definition updated_preview (existing : PreviewEnvironment) (pr : PREvent) : PreviewEnvironment :=
  let ref := preview_pr existing in
  {| PreviewEnvironment_ObjectMeta := PreviewEnvironment_ObjectMeta existing;
     PreviewEnvironment_Spec := with_PreviewEnvironmentSpec_PullRequest
       {| PullRequestRef_Number := PullRequestRef_Number ref;
          PullRequestRef_Branch := PREvent_Branch pr; PullRequestRef_SHA := PREvent_SHA pr;
          PullRequestRef_Repo := PREvent_Repo pr |} (PreviewEnvironment_Spec existing);
     PreviewEnvironment_Status := PreviewEnvironment_Status existing |}.

(** Whether the project takes a preview of this pull request, and from which
    environment. *)
Definition wants_preview (project : Project) (pr : PREvent) : option string :=
  match ProjectSpec_Preview (Project_Spec project) with
  | None => None
  | Some preview =>
    if negb (PreviewConfig_Enabled preview) then None
    else
      let botPR := match PreviewConfig_BotPR preview with None => true | Some b => b end in
      if negb botPR && PREvent_AuthorIsBot pr then None
      else
        let sourceEnv := resolveSourceEnv project in
        if String.eqb sourceEnv "" then None else Some sourceEnv
  end.

(** The body of the second loop. *)
Definition dispatch_project (pr : PREvent) (multi : gmap string bool)
    '((projectName, project) : string * Project) (w : W) : W :=
  let controlNs := ControlNamespace projectName in
  let peName := previewEnvName (PREvent_Repo pr) (PREvent_Number pr)
                  (default false (multi !! projectName)) in
  if String.eqb (PREvent_Action pr) "closed"
  then (deletePreviewEnvironment controlNs peName w).1
  else
    match wants_preview project pr with
    | None => w
    | Some sourceEnv =>
      match getPreviewEnvironment controlNs peName w with
      | (w, inl err) =>
        if negb (IsNotFound err) then w
        else (createPreviewEnvironment (new_preview projectName sourceEnv controlNs peName pr) w).1
      | (w, inr existing) =>
        if same_head existing pr then w
        else (updatePreviewEnvironment (updated_preview existing pr) w).1
      end
    end.

Definition dispatchPREvent (pr : PREvent) (w : W) : W :=
  match listGitApps w with
  | (w, inl _) => w
  | (w, inr apps) =>
    let '(w, sole) := soleProvider w in
    let '(m, w) := collect_projects pr sole apps apps no_projects w in
    fold_left (λ w p, dispatch_project pr (projectMultiRepo m) p w) (range (projectCache m)) w
  end.

(** ** The handler *)

Definition handleWebhook (d : delivery) (h : Handler) (w : W) : Handler * W * response :=
  let providerName := dl_provider d in
  match dl_body d with
  | inl _ => (h, w, BadBody)
  | inr body =>
    match getGitProvider providerName w with
    | (w, inl err) => (h, w, if IsNotFound err then Unauthorized else InternalError)
    | (w, inr gp) =>
      match GitProviderSpec_WebhookSecretRef (GitProvider_Spec gp) with
      | None => (h, w, Unauthorized)
      | Some ref =>
        match getSecret (SecretRef_Namespace ref) (SecretRef_Name ref) (SecretRef_Key ref) w with
        | (w, inl _) => (h, w, InternalError)
        | (w, inr webhookSecret) =>
          match NewGitAPIFromProvider gp webhookSecret with
          | inl _ => (h, w, InternalError)
          | inr verify =>
            match verify body (dl_header d) with
            | Some _ =>
              let '(h, w) := recordSignatureOutcome providerName true h w in
              (h, w, Unauthorized)
            | None =>
              let '(h, w) := recordSignatureOutcome providerName false h w in
              let type := GitProviderSpec_Type (GitProvider_Spec gp) in
              match parsePREvent type body (dl_header d) with
              | Some pr => (h, dispatchPREvent (with_PREvent_Provider providerName pr) w, Accepted)
              | None =>
                match parsePushEvent type body with
                | Some br =>
                  (h, dispatchToApps (with_BuildRequest_Provider providerName br) w, Accepted)
                | None => (h, w, Accepted)
                end
              end
            end
          end
        end
      end
    end
  end.
End handler.

(** ** The client behind the interface: [k8s.go] *)

Definition WebhookSignatureCondition : string := "WebhookSignature".

Definition revision_patch (sha : string) : string :=
  print (JObj [("metadata", JObj [("annotations",
    JObj [("mortise.dev/revision", JStr sha)])])]).

Section k8s.
Context {W : Type} {CG : KubeClient W GitProvider} {LG : KubeList W GitProvider}
  {SG : KubeStatus W GitProvider} {CP : KubeClient W Project} {CS : KubeClient W Secret}
  {LA : KubeList W App} {PA : KubePatch W App} {CE : KubeClient W PreviewEnvironment}
  {DE : KubeDelete W PreviewEnvironment} {KR : KubeRetry W}.
(** The helpers of [apimachinery/pkg/api/meta] on conditions; setting one reads the
    clock. *)
Context (FindStatusCondition : list Condition → string → option Condition)
  (RemoveStatusCondition : list Condition → string → list Condition)
  (SetStatusCondition : W → list Condition → Condition → list Condition).

Definition client_getGitProvider (name : string) (w : W) : W * (error + GitProvider) :=
  match kget ("", name) w with
  | (w, inl err) => (w, inl (Wrapf "get GitProvider %q: %w" [name] err))
  | (w, inr gp) => (w, inr gp)
  end.

Definition client_countGitProviders (w : W) : W * (error + Z) :=
  match klist (Obj := GitProvider) w with
  | (w, inl err) => (w, inl (Wrapf "list GitProviders: %w" [] err))
  | (w, inr items) => (w, inr (Z.of_nat (length items)))
  end.

Definition client_getProject (name : string) (w : W) : W * (error + Project) :=
  match kget ("", name) w with
  | (w, inl err) => (w, inl (Wrapf "get Project %q: %w" [name] err))
  | (w, inr project) => (w, inr project)
  end.

Definition client_getSecret (namespace name key : string) (w : W) : W * (error + string) :=
  match kget (Obj := Secret) (namespace, name) w with
  | (w, inl err) => (w, inl (Wrapf "get secret %s/%s: %w" [namespace; name] err))
  | (w, inr s) =>
    match sec_Data s !! key with
    | None => (w, inl (Errorf "key %q not found in secret %s/%s" [key; namespace; name]))
    | Some v => (w, inr v)
    end
  end.

Definition client_listGitApps (w : W) : W * (error + list App) :=
  match klist (Obj := App) w with
  | (w, inl err) => (w, inl (Wrapf "list apps: %w" [] err))
  | (w, inr all) =>
    (w, inr (List.filter (λ a, String.eqb (AppSource_Type (app_source a)) SourceTypeGit) all))
  end.

Definition client_patchAppRevision (app : App) (sha : string) : W → W * option error :=
  kmerge_patch App (obj_key app) (revision_patch sha).

Definition client_getPreviewEnvironment (namespace name : string) : W → W * (error + PreviewEnvironment) :=
  kget (namespace, name).
Definition client_createPreviewEnvironment (pe : PreviewEnvironment) : W → W * option error :=
  kcreate pe.
Definition client_updatePreviewEnvironment (pe : PreviewEnvironment) : W → W * option error :=
  kupdate pe.

Definition client_deletePreviewEnvironment (namespace name : string) (w : W) : W * option error :=
  match kdelete PreviewEnvironment (namespace, name) w with
  | (w, Some err) => (w, if IsNotFound err then None else Some err)
  | (w, None) => (w, None)
  end.

Definition with_conditions (c : list Condition) (gp : GitProvider) : GitProvider :=
  {| GitProvider_ObjectMeta := GitProvider_ObjectMeta gp; GitProvider_Spec := GitProvider_Spec gp;
     GitProvider_Status :=
       {| GitProviderStatus_Phase := GitProviderStatus_Phase (GitProvider_Status gp);
          GitProviderStatus_Conditions := c |} |}.

Definition mismatch_condition (providerName : string) (gp : GitProvider) (now : Time) : Condition :=
  {| Condition_Type := WebhookSignatureCondition; Condition_Status := "False";
     Condition_ObservedGeneration := meta_Generation (GitProvider_ObjectMeta gp);
     Condition_LastTransitionTime := 0;
     Condition_Reason := "SignatureMismatch";
     Condition_Message :=
       "a delivery to /api/webhooks/" +:+ providerName +:+ " at " +:+ format_rfc3339 now +:+
       " failed HMAC verification: the hook's secret on the git host does not match webhookSecretRef, so pushes are not deploying. Delete the hook on the git host (the operator re-registers it on the App's next reconcile), or restore the Secret the hook was registered with" |}.

Definition client_setWebhookSignatureCondition (providerName : string) (mismatch : bool) (now : Time)
    : W → W * option error :=
  RetryOnConflict (λ w,
    match kget ("", providerName) w with
    | (w, inl err) => (w, Some err)
    | (w, inr gp) =>
      let conditions := GitProviderStatus_Conditions (GitProvider_Status gp) in
      if negb mismatch then
        match FindStatusCondition conditions WebhookSignatureCondition with
        | None => (w, None)
        | Some _ =>
          kstatus_update (with_conditions (RemoveStatusCondition conditions WebhookSignatureCondition) gp) w
        end
      else
        kstatus_update
          (with_conditions (SetStatusCondition w conditions (mismatch_condition providerName gp now)) gp) w
    end).

#[export] Instance K8sReader_client : K8sReader W :=
  {| getGitProvider := client_getGitProvider;
     countGitProviders := client_countGitProviders;
     getSecret := client_getSecret;
     getProject := client_getProject;
     listGitApps := client_listGitApps;
     patchAppRevision := client_patchAppRevision;
     getPreviewEnvironment := client_getPreviewEnvironment;
     createPreviewEnvironment := client_createPreviewEnvironment;
     updatePreviewEnvironment := client_updatePreviewEnvironment;
     deletePreviewEnvironment := client_deletePreviewEnvironment;
     setWebhookSignatureCondition := client_setWebhookSignatureCondition |}.
End k8s.

(** ** Correctness *)

(** What an unverified delivery may do to the world: read, and record the outcome. *)
Class OutcomeFrame {W} (K : K8sReader W) (I : W → W → Prop) : Prop := {
  frame_preorder :: PreOrder I;
  frame_provider n w : I w (getGitProvider n w).1;
  frame_secret ns n k w : I w (getSecret ns n k w).1;
  frame_condition n b t w : I w (setWebhookSignatureCondition n b t w).1;
}.

Section safety.
Context {W : Type} {K : K8sReader W} (R : MapRange) (now : W → Time).
Context (sdk_client : GitProvider → option error).

Lemma record_frame I `{!OutcomeFrame K I} n b h w h' w' :
  recordSignatureOutcome now n b h w = (h', w') → I w w'.
Proof.
  unfold recordSignatureOutcome. destruct (record_outcome (now w) n b h) as [h1 []];
    intros [= <- <-]; [apply frame_condition|done].
Qed.

(** The delivery verifies under the provider's type and secret. *)
Definition verified (d : delivery) (w : W) : Prop :=
  ∃ body w1 gp ref w2 secret verify,
    dl_body d = inr body ∧ getGitProvider (dl_provider d) w = (w1, inr gp) ∧
    GitProviderSpec_WebhookSecretRef (GitProvider_Spec gp) = Some ref ∧
    getSecret (SecretRef_Namespace ref) (SecretRef_Name ref) (SecretRef_Key ref) w1 = (w2, inr secret) ∧
    NewGitAPIFromProvider sdk_client gp secret = inr verify ∧ verify body (dl_header d) = None.

(** C14: nothing happens for a delivery that does not verify.  A response of 202 means
    that the signature verified under the provider's secret; any other response is one
    of three fixed ones and the world is changed at most by the outcome written to the
    provider's status. *)
Theorem unverified_changes_nothing I `{!OutcomeFrame K I} d h w h' w' resp :
  handleWebhook R now sdk_client d h w = (h', w', resp) →
  (verified d w ∧ resp = Accepted) ∨
  (I w w' ∧ resp ∈ [Unauthorized; InternalError; BadBody]).
Proof.
  assert (Unauthorized ∈ [Unauthorized; InternalError; BadBody]) as HU by left.
  assert (InternalError ∈ [Unauthorized; InternalError; BadBody]) as HI by (right; left).
  assert (BadBody ∈ [Unauthorized; InternalError; BadBody]) as HB by (do 2 right; left).
  unfold handleWebhook. destruct (dl_body d) as [|body] eqn:Eb; [intros [= <- <- <-]; by right|].
  pose proof (frame_provider (dl_provider d) w) as F1.
  destruct (getGitProvider (dl_provider d) w) as [w1 [err|gp]] eqn:Eg; simpl in F1.
  { intros [= <- <- <-]. right. split; [done|]. by destruct (IsNotFound err). }
  destruct (GitProviderSpec_WebhookSecretRef _) as [ref|] eqn:Er; [|intros [= <- <- <-]; by right].
  set (sr := getSecret _ _ _ w1). pose proof (frame_secret (SecretRef_Namespace ref)
    (SecretRef_Name ref) (SecretRef_Key ref) w1) as F2. fold sr in F2.
  assert (I w sr.1) as F3 by (by etrans).
  destruct sr as [w2 [|secret]] eqn:Es; simpl in F3; [intros [= <- <- <-]; by right|].
  destruct (NewGitAPIFromProvider sdk_client gp secret) as [|verify] eqn:Ev;
    [intros [= <- <- <-]; by right|].
  destruct (verify body (dl_header d)) as [e|] eqn:Ever.
  - destruct (recordSignatureOutcome _ _ true h w2) as [h3 w3] eqn:Erec.
    intros [= <- <- <-]. right. split; [|done]. etrans; [done|]. by eapply record_frame.
  - intros H. left. split; [by exists body, w1, gp, ref, w2, secret, verify|].
    destruct (recordSignatureOutcome _ _ false h w2) as [h3 w3].
    destruct (parsePREvent _ body _); [by injection H|].
    by destruct (parsePushEvent _ body); injection H.
Qed.

End safety.

(** ** Push dispatch *)

Section dispatch.
Context {W : Type} {K : K8sReader W}.

(** The apps a push concerns. *)
Definition push_concerns (br : BuildRequest) (sole : bool) (app : App) : Prop :=
  let src := app_source app in
  AppSource_Type src = SourceTypeGit ∧
  (AppSource_ProviderRef src = BuildRequest_Provider br ∧ AppSource_ProviderRef src ≠ "" ∨
   AppSource_ProviderRef src = "" ∧ sole = true) ∧
  repoMatches (AppSource_Repo src) (BuildRequest_Repo br) = true ∧
  app_branch src = branchFromRef (BuildRequest_Ref br) ∧
  (AppSource_WatchPaths src = [] ∨ BuildRequest_ChangedPaths br = None ∨
   ∃ wp changed cp rest, wp ∈ AppSource_WatchPaths src ∧
     BuildRequest_ChangedPaths br = Some changed ∧ cp ∈ changed ∧
     trim_prefix "/" wp ≠ "" ∧ cp = trim_prefix "/" wp +:+ rest).

Definition push_matches (br : BuildRequest) (sole : bool) (app : App) : bool :=
  let src := app_source app in
  String.eqb (AppSource_Type src) SourceTypeGit &&
  providerMatches (AppSource_ProviderRef src) (BuildRequest_Provider br) sole &&
  repoMatches (AppSource_Repo src) (BuildRequest_Repo br) &&
  String.eqb (app_branch src) (branchFromRef (BuildRequest_Ref br)) &&
  matchesWatchPaths (AppSource_WatchPaths src) (BuildRequest_ChangedPaths br).

Lemma matchesWatchPaths_spec watch changed :
  matchesWatchPaths watch changed = true ↔
  watch = [] ∨ changed = None ∨
  ∃ wp paths cp rest, wp ∈ watch ∧ changed = Some paths ∧ cp ∈ paths ∧
    trim_prefix "/" wp ≠ "" ∧ cp = trim_prefix "/" wp +:+ rest.
Proof.
  unfold matchesWatchPaths. destruct watch as [|w0 watch]; [by split; [left|]|].
  destruct changed as [paths|]; [|split; [by right; left|done]].
  rewrite existsb_elem. split.
  - intros (wp & Hwp & H). rewrite andb_true_iff, existsb_elem in H.
    destruct H as [Hne (cp & Hcp & Hpre)]. apply has_prefix_spec in Hpre as [rest ->].
    right. right. exists wp, paths, (trim_prefix "/" wp +:+ rest), rest.
    split; [done|]. split; [done|]. split; [done|]. split; [|done].
    intros E. by rewrite E in Hne.
  - intros [?|[?|(wp & paths' & cp & rest & Hwp & [= <-] & Hcp & Hne & ->)]]; [done..|].
    exists wp. split; [done|]. rewrite andb_true_iff, existsb_elem. split.
    + by destruct (String.eqb_spec (trim_prefix "/" wp) "").
    + eexists. split; [exact Hcp|]. apply has_prefix_spec. by exists rest.
Qed.

Lemma push_matches_spec br sole app :
  push_matches br sole app = true ↔ push_concerns br sole app.
Proof.
  unfold push_matches, push_concerns, providerMatches. cbv zeta.
  rewrite !andb_true_iff, !String.eqb_eq, matchesWatchPaths_spec.
  destruct (String.eqb_spec (AppSource_ProviderRef (app_source app)) "") as [->|Hne]; simpl;
    rewrite ?String.eqb_eq; naive_solver.
Qed.

Lemma dispatch_apps_filter br sole apps w :
  dispatch_apps br sole (branchFromRef (BuildRequest_Ref br)) apps w =
  fold_left (λ w app, (patchAppRevision app (BuildRequest_SHA br) w).1)
    (List.filter (push_matches br sole) apps) w.
Proof.
  revert w. induction apps as [|app apps IH]; intros w; [done|].
  cbn [dispatch_apps List.filter]. unfold push_matches at 1.
  destruct (String.eqb _ SourceTypeGit); simpl; [|apply IH].
  destruct (providerMatches _ _ _); simpl; [|apply IH].
  destruct (repoMatches _ _); simpl; [|apply IH].
  destruct (String.eqb (app_branch _) _); simpl; [|apply IH].
  destruct (matchesWatchPaths _ _); simpl; apply IH.
Qed.

(** A push patches exactly the apps it concerns, each once and in order, with the
    pushed revision: apps built from git, from the provider the delivery came through (an
    app without a provider only when there is a single one), from the same repository
    and branch, and watching a changed path or none. *)
Theorem dispatchToApps_patches br w w1 w2 apps sole :
  listGitApps w = (w1, inr apps) → soleProvider w1 = (w2, sole) →
  ∃ concerned, (∀ app, concerned app = true ↔ push_concerns br sole app) ∧
    dispatchToApps br w =
    fold_left (λ w app, (patchAppRevision app (BuildRequest_SHA br) w).1)
      (List.filter concerned apps) w2.
Proof.
  intros Hl Hs. exists (push_matches br sole). split; [apply push_matches_spec|].
  unfold dispatchToApps. rewrite Hl, Hs. apply dispatch_apps_filter.
Qed.

(** ** Pull request dispatch *)

Definition pr_matches (pr : PREvent) (sole : bool) (app : App) : bool :=
  let src := app_source app in
  String.eqb (AppSource_Type src) SourceTypeGit &&
  providerMatches (AppSource_ProviderRef src) (PREvent_Provider pr) sole &&
  repoMatches (AppSource_Repo src) (PREvent_Repo pr).

Definition in_project (name : string) (app : App) : Prop :=
  ProjectFromControlNs (meta_Namespace (App_ObjectMeta app)) = (name, true).

Context (view : string → error + Project) (Hview : ∀ n w, getProject n w = (w, view n)).

(** What the first loop has found after some apps. *)
Definition collected (pr : PREvent) (sole : bool) (all done : list App) (m : project_maps) : Prop :=
  (∀ n, n ∈ projectKnown m ↔ ∃ app, app ∈ done ∧ pr_matches pr sole app = true ∧ in_project n app) ∧
  (∀ n p, projectCache m !! n = Some p ↔ n ∈ projectKnown m ∧ view n = inr p) ∧
  (∀ n, projectMultiRepo m !! n =
     if bool_decide (n ∈ projectKnown m) then Some (projectHasMultipleGitRepos all n) else None).

Lemma collected_skip pr sole all done app m :
  collected pr sole all done m →
  (pr_matches pr sole app = true → ∀ n, ¬ in_project n app) →
  collected pr sole all (done ++ [app]) m.
Proof.
  intros (H1 & H2 & H3) Hskip. split; [|done]. intros n. rewrite H1. split.
  - intros (a & Ha & Hm). exists a. rewrite elem_of_app. auto.
  - intros (a & [Ha|Ha%list_elem_of_singleton]%elem_of_app & Hm & Hin); [by exists a|].
    subst. by destruct (Hskip Hm n).
Qed.

Lemma collected_project pr sole all done app m n cache :
  collected pr sole all done m → pr_matches pr sole app = true → in_project n app →
  cache = (if bool_decide (n ∈ projectKnown m) then projectCache m
           else match view n with inr p => <[n := p]> (projectCache m) | inl _ => projectCache m end) →
  collected pr sole all (done ++ [app])
    {| projectCache := cache; projectKnown := {[n]} ∪ projectKnown m;
       projectMultiRepo := <[n := projectHasMultipleGitRepos all n]> (projectMultiRepo m) |}.
Proof.
  intros (H1 & H2 & H3) Hm Hn ->. split; [|split]; cbn [projectCache projectKnown projectMultiRepo].
  - intros k. rewrite elem_of_union, elem_of_singleton, H1. split.
    + intros [->|(a & Ha & Hma)].
      * exists app. rewrite elem_of_app, list_elem_of_singleton. auto.
      * exists a. rewrite elem_of_app. auto.
    + intros (a & [Ha|Ha%list_elem_of_singleton]%elem_of_app & Hma & Hin); [right; by exists a|].
      left. subst. unfold in_project in *. congruence.
  - intros k p. rewrite elem_of_union, elem_of_singleton.
    case_bool_decide as Hk.
    { rewrite H2. split; [by intros [? ?]; auto|]. by intros [[->|?] ?]. }
    destruct (view n) as [err|q] eqn:Ev.
    { rewrite H2. split; [by intros [? ?]; auto|]. intros [[->|?] ?]; [congruence|done]. }
    destruct (decide (k = n)) as [->|Hne].
    + rewrite lookup_insert_eq, Ev. split; [intros [= ->]; auto|]. intros [_ [= ->]]. done.
    + rewrite lookup_insert_ne, H2 by done. split; [by intros [? ?]; auto|]. by intros [[->|?] ?].
  - intros k. destruct (decide (k = n)) as [->|Hne].
    + rewrite lookup_insert_eq, bool_decide_true by set_solver. done.
    + rewrite lookup_insert_ne, H3 by done.
      by rewrite (bool_decide_ext (k ∈ {[n]} ∪ projectKnown m) (k ∈ projectKnown m)) by set_solver.
Qed.

Lemma collect_loop pr sole all apps done m w :
  collected pr sole all done m →
  ∃ m', collect_projects pr sole all apps m w = (m', w) ∧
    collected pr sole all (done ++ apps) m'.
Proof.
  revert done m. induction apps as [|app apps IH]; intros done m Hc.
  { exists m. rewrite app_nil_r. done. }
  replace (done ++ app :: apps) with ((done ++ [app]) ++ apps) by (by rewrite <- app_assoc).
  cbn [collect_projects]. assert (pr_matches pr sole app = pr_matches pr sole app) as Hpm by done.
  unfold pr_matches at 1 in Hpm.
  destruct (String.eqb _ SourceTypeGit); simpl in Hpm |- *;
    [|apply IH, collected_skip; [done|by rewrite <- Hpm]].
  destruct (providerMatches _ _ _); simpl in Hpm |- *;
    [|apply IH, collected_skip; [done|by rewrite <- Hpm]].
  destruct (repoMatches _ _); simpl in Hpm |- *;
    [|apply IH, collected_skip; [done|by rewrite <- Hpm]].
  destruct (ProjectFromControlNs (meta_Namespace (App_ObjectMeta app))) as [n ok] eqn:Ens.
  destruct ok; simpl;
    [|apply IH, collected_skip; [done|intros _ k Hk; unfold in_project in Hk; congruence]].
  assert (in_project n app) as Hn by done.
  case_bool_decide as Hk.
  - apply IH. replace (projectKnown m) with ({[n]} ∪ projectKnown m) at 1 by set_solver.
    eapply collected_project; [done|done|done|]. by rewrite bool_decide_true.
  - rewrite Hview. destruct (view n) as [err|p] eqn:Ev; apply IH;
      (eapply collected_project; [done|done|done|]); by rewrite bool_decide_false, Ev by done.
Qed.

(** The projects a pull request event is dispatched to are exactly those that exist
    and have an app built from the repository through the delivering provider, and for
    each the receiver knows whether the project builds from several repositories. *)
Theorem collect_projects_spec pr sole apps w :
  ∃ m, collect_projects pr sole apps apps no_projects w = (m, w) ∧
    (∀ n p, projectCache m !! n = Some p ↔
       view n = inr p ∧ ∃ app, app ∈ apps ∧ pr_matches pr sole app = true ∧ in_project n app) ∧
    ∀ n p, projectCache m !! n = Some p →
      projectMultiRepo m !! n = Some (projectHasMultipleGitRepos apps n).
Proof.
  destruct (collect_loop pr sole apps apps [] no_projects w) as (m & Hm & H1 & H2 & H3).
  { split; [|split]; simpl.
    - intros n. split; [set_solver|]. intros (a & Ha & _). by apply elem_of_nil in Ha.
    - intros n p. rewrite lookup_empty. set_solver.
    - intros n. rewrite lookup_empty. by rewrite bool_decide_false by set_solver. }
  exists m. split; [done|]. split.
  - intros n p. rewrite H2, H1. naive_solver.
  - intros n p [Hn _]%H2. by rewrite H3, bool_decide_true.
Qed.
End dispatch.

(** ** A preview follows its pull request *)

(** The receiver's previews are objects of a Kubernetes client. *)
Class PreviewClient {W} (K : K8sReader W) {C : KubeClient W PreviewEnvironment}
    {OK : KubeClientOk W PreviewEnvironment} : Prop := {
  pe_get ns n w : getPreviewEnvironment ns n w = kget (ns, n) w;
  pe_create pe w : createPreviewEnvironment pe w = kcreate pe w;
  pe_update pe w : updatePreviewEnvironment pe w = kupdate pe w;
  pe_delete ns n w :
    kquiet w → ∃ w' o', deletePreviewEnvironment ns n w = (w', None) ∧ kquiet w' ∧
      kstore w' = partial_alter (λ _, o') (ns, n) (kstore w) ∧ asked_to_go (kstore w !! (ns, n)) o';
}.

Lemma K8sReader_client_previews {W} {CG : KubeClient W GitProvider} {LG : KubeList W GitProvider}
    {SG : KubeStatus W GitProvider} {CP : KubeClient W Project} {CS : KubeClient W Secret}
    {LA : KubeList W App} {PA : KubePatch W App} {CE : KubeClient W PreviewEnvironment}
    {OE : KubeClientOk W PreviewEnvironment} {DE : KubeDelete W PreviewEnvironment}
    {DO : KubeDeleteAsks W PreviewEnvironment} {KR : KubeRetry W} F Rm S :
  PreviewClient (K8sReader_client F Rm S).
Proof.
  split; [done..|]. intros ns n w Hq. simpl. unfold client_deletePreviewEnvironment.
  destruct (kdelete_asks (ns, n) w Hq) as (w' & o' & Hq' & Hs & Ha & Hd). exists w', o'.
  destruct (kstore w !! (ns, n)); [by rewrite Hd|]. destruct Hd as (e & -> & ->). done.
Qed.

(** The preview is at the head of the pull request. *)
Definition at_head (pe : PreviewEnvironment) (pr : PREvent) : Prop :=
  PullRequestRef_SHA (preview_pr pe) = PREvent_SHA pr ∧
  PullRequestRef_Branch (preview_pr pe) = PREvent_Branch pr ∧
  CanonicalRepoKey (PullRequestRef_Repo (preview_pr pe)) = CanonicalRepoKey (PREvent_Repo pr).

Lemma same_head_spec pe pr : same_head pe pr = true ↔ at_head pe pr.
Proof. unfold same_head, at_head. rewrite !andb_true_iff, !String.eqb_eq. tauto. Qed.

Section lifecycle.
Context {W : Type} {K : K8sReader W} {C : KubeClient W PreviewEnvironment}
  {OK : KubeClientOk W PreviewEnvironment} {PC : PreviewClient K}.
Context (multi : gmap string bool) (projectName : string) (project : Project).

(** The preview of a pull request. *)
Definition preview_key (pr : PREvent) : NamespacedName :=
  (ControlNamespace projectName,
   previewEnvName (PREvent_Repo pr) (PREvent_Number pr) (default false (multi !! projectName))).

(** A preview that is asked to go stays, for its finalizer, until its controller has taken
    its namespace down. *)
Definition terminating (pe : PreviewEnvironment) : Prop :=
  is_Some (meta_DeletionTimestamp (PreviewEnvironment_ObjectMeta pe)).

(** What the store holds before and after an event. *)
Definition follows (pr : PREvent) (before after : option PreviewEnvironment) : Prop :=
  if String.eqb (PREvent_Action pr) "closed" then asked_to_go before after
  else ∃ pe, after = Some pe ∧ at_head pe pr ∧ (terminating pe ↔ ∃ old, before = Some old ∧ terminating old).

(** What becomes of a preview between two events: its controller writes its finalizers and its
    status, and lets it go when it was asked to. *)
Definition tended (o o' : option PreviewEnvironment) : Prop :=
  match o, o' with
  | Some pe, Some pe' =>
    PreviewEnvironment_Spec pe' = PreviewEnvironment_Spec pe ∧
    meta_DeletionTimestamp (PreviewEnvironment_ObjectMeta pe') = meta_DeletionTimestamp (PreviewEnvironment_ObjectMeta pe)
  | Some pe, None => terminating pe
  | None, None => True
  | None, Some _ => False
  end.

#[export] Instance tended_preorder : PreOrder tended.
Proof.
  split; [by intros [?|]|]. intros [p1|] [p2|] [p3|]; simpl; unfold terminating; try done.
  - intros [-> ->] [-> ->]. done.
  - by intros [_ ->].
Qed.

Definition tended_world (w w' : W) : Prop := kquiet w' ∧ ∀ k, tended (kstore w !! k) (kstore w' !! k).

(** The events are dispatched one after the other, and the controller works in between. *)
Local Abbreviation dispatch e := (dispatch_project e multi (projectName, project)).
Inductive delivered (w : W) : list PREvent → W → Prop :=
| none_yet w' : tended_world w w' → delivered w [] w'
| one_more events e w1 w2 :
    delivered w events w1 → tended_world (dispatch e w1) w2 → delivered w (events ++ [e]) w2.

Lemma dispatch_project_step pr w :
  kquiet w → (PREvent_Action pr ≠ "closed" → is_Some (wants_preview project pr)) →
  let w' := dispatch pr w in
  kquiet w' ∧ (∀ k, k ≠ preview_key pr → kstore w' !! k = kstore w !! k) ∧
  follows pr (kstore w !! preview_key pr) (kstore w' !! preview_key pr).
Proof.
  intros Hq Hwants. unfold dispatch_project, follows. fold (preview_key pr).
  destruct (String.eqb_spec (PREvent_Action pr) "closed") as [_|Hne].
  { destruct (pe_delete (preview_key pr).1 (preview_key pr).2 w Hq) as (w' & o' & Hd & Hq' & Hs & Ha).
    simpl in Hd. rewrite Hd. cbn [fst]. split; [done|]. rewrite Hs. split.
    - intros k Hk. by apply lookup_partial_alter_ne.
    - rewrite lookup_partial_alter_eq. exact Ha. }
  destruct (Hwants Hne) as [sourceEnv ->]. rewrite pe_get.
  destruct (kget_quiet (preview_key pr) w Hq) as (w1 & Hq1 & Hs1 & Hget).
  change (ControlNamespace projectName, _) with (preview_key pr).
  destruct (kstore w !! preview_key pr) as [existing|] eqn:E.
  - assert (∀ pe, meta_DeletionTimestamp (PreviewEnvironment_ObjectMeta pe) =
        meta_DeletionTimestamp (PreviewEnvironment_ObjectMeta existing) →
      terminating pe ↔ ∃ old, Some existing = Some old ∧ terminating old) as Ht.
    { intros pe Hpe. unfold terminating. rewrite Hpe. split; [by eauto|]. by intros (? & [= <-] & ?). }
    rewrite Hget. destruct (same_head existing pr) eqn:Hh.
    { rewrite Hs1. split; [done|]. split; [done|]. exists existing. split; [done|]. split; [by apply same_head_spec|].
      by apply Ht. }
    rewrite pe_update. pose proof (kstore_key _ _ _ E) as Hk. rewrite <- Hs1 in E.
    rewrite <- Hk in E. destruct (kupdate_quiet (updated_preview existing pr) w1 existing)
      as (w2 & rv & Hq2 & -> & Hs2); [done|exact E|done|]. cbn [fst].
    rewrite Hs2, <- Hk. change (obj_key (updated_preview existing pr)) with (obj_key existing).
    split; [done|]. split; [intros k Hne'; by rewrite lookup_insert_ne, Hs1|].
    rewrite lookup_insert_eq. eexists. split; [done|]. split; [done|]. by apply Ht.
  - destruct Hget as (e & -> & ->). simpl negb. cbv iota. rewrite pe_create.
    set (pe := new_preview _ _ _ _ pr).
    assert (obj_key pe = preview_key pr) as Hk by done.
    destruct (kcreate_quiet pe w1) as (w2 & rv & Hq2 & -> & Hs2); [done|by rewrite Hk, Hs1|].
    cbn [fst]. rewrite Hs2, Hk. split; [done|].
    split; [intros k Hne'; by rewrite lookup_insert_ne, Hs1|].
    rewrite lookup_insert_eq. eexists. split; [done|]. split; [done|]. split; [by intros []|by intros (? & ? & _)].
Qed.

Lemma delivered_frame key events w w1 :
  kquiet w → delivered w events w1 →
  (∀ e, e ∈ events → preview_key e = key ∧ (PREvent_Action e ≠ "closed" → is_Some (wants_preview project e))) →
  kquiet w1 ∧ (∀ k, k ≠ key → tended (kstore w !! k) (kstore w1 !! k)) ∧
  ((∀ e, e ∈ events → PREvent_Action e ≠ "closed") → (∀ pe, kstore w !! key = Some pe → ¬ terminating pe) →
   ∀ pe, kstore w1 !! key = Some pe → ¬ terminating pe).
Proof.
  intros Hq Hd Hall.
  assert (∀ w2 w3, tended_world w2 w3 → (∀ pe, kstore w2 !! key = Some pe → ¬ terminating pe) →
    ∀ pe, kstore w3 !! key = Some pe → ¬ terminating pe) as Hlive.
  { intros w2 w3 [_ Ht] Hl pe Hpe. specialize (Ht key). rewrite Hpe in Ht.
    destruct (kstore w2 !! key) as [old|]; [|done]. destruct Ht as [_ Ht]. unfold terminating. rewrite Ht. by apply Hl. }
  induction Hd as [w1 Ht|events e w1 w2 Hd IH Ht].
  - split; [apply Ht|]. split; [by intros k _; apply Ht|]. intros _. by apply Hlive.
  - destruct IH as (Hq1 & Hf1 & Hl1); [intros e' He'; apply Hall, elem_of_app; by left|].
    destruct (Hall e) as [Hk Hw]; [by apply elem_of_app; right; left|].
    destruct (dispatch_project_step e w1 Hq1 Hw) as (_ & Hf2 & Hfol). split; [apply Ht|]. split.
    + intros k Hne. etrans; [by apply Hf1|]. rewrite <-Hf2 by by rewrite Hk. apply Ht.
    + intros Hopen Hstart. apply (Hlive _ _ Ht). intros pe Hpe. unfold follows in Hfol. rewrite Hk in Hfol.
      rewrite (proj2 (String.eqb_neq _ _) (Hopen e ltac:(by apply elem_of_app; right; left))) in Hfol.
      destruct Hfol as (pe' & Hpe' & _ & Hiff). rewrite Hpe in Hpe'. injection Hpe' as <-. intros (old & Hold & Hterm)%Hiff.
      revert Hterm. apply Hl1; [|done|done]. intros e' He'. apply Hopen, elem_of_app. by left.
Qed.

(** C34: a preview follows its pull request.  In a project that takes previews of it, whose
    previews keep their names (it goes on building from one repository, or from several),
    when only the receiver and the controller of the preview write: after an event that
    closed the pull request the preview is gone or asked to go; after any other event there
    is a preview at the commit, branch and repository of the event.  It is not terminating,
    unless the one the event found was, which takes an earlier event that closed the pull
    request.  No other preview is touched. *)
Theorem preview_follows_pr events pr w w1 :
  kquiet w → delivered w events w1 →
  (∀ e, e ∈ events ++ [pr] → preview_key e = preview_key pr) →
  (∀ e, e ∈ events ++ [pr] → PREvent_Action e ≠ "closed" → is_Some (wants_preview project e)) →
  let w' := dispatch pr w1 in
  kquiet w' ∧ (∀ k, k ≠ preview_key pr → tended (kstore w !! k) (kstore w' !! k)) ∧
  follows pr (kstore w1 !! preview_key pr) (kstore w' !! preview_key pr) ∧
  ((∀ e, e ∈ events → PREvent_Action e ≠ "closed") →
   (∀ pe, kstore w !! preview_key pr = Some pe → ¬ terminating pe) →
   ∀ pe, kstore w1 !! preview_key pr = Some pe → ¬ terminating pe).
Proof.
  intros Hq Hd Hkey Hwants. cbv zeta.
  destruct (delivered_frame (preview_key pr) events w w1 Hq Hd) as (Hq1 & Hf & Hlive).
  { intros e He. split; [apply Hkey|apply Hwants]; apply elem_of_app; by left. }
  destruct (dispatch_project_step pr w1 Hq1) as (H1 & H2 & H3).
  { apply Hwants, elem_of_app. right. by left. }
  split; [done|]. split; [|done]. intros k Hne. rewrite H2 by done. by apply Hf.
Qed.
End lifecycle.

(** ** Recording outcomes *)

(** The outcomes of a sequence of deliveries that are written: their times, providers
    and whether they were mismatches. *)
Fixpoint written (h : Handler) (outcomes : list (Time * string * bool)) : list (Time * string * bool) :=
  match outcomes with
  | [] => []
  | (t, n, b) :: rest =>
    match record_outcome t n b h with
    | (h, true) => (t, n, b) :: written h rest
    | (h, false) => written h rest
    end
  end.

Lemma written_after h outcomes n b last t :
  h !! outcome_key n b = Some last → (t, n, b) ∈ written h outcomes →
  (last + signatureWriteInterval ≤ t)%Z.
Proof.
  revert h last. induction outcomes as [|[[t1 n1] b1] rest IH]; intros h last Hl; simpl.
  { intros H. by apply elem_of_nil in H. }
  unfold record_outcome. cbv zeta. destruct (decide (outcome_key n1 b1 = outcome_key n b)) as [Hk|Hk].
  - rewrite Hk, Hl. destruct (Z.ltb_spec (t1 - last) signatureWriteInterval); [by apply IH|].
    intros [[= -> -> ->]|Hin]%elem_of_cons; [lia|].
    assert (t1 + signatureWriteInterval ≤ t)%Z; [|unfold signatureWriteInterval, Minute, Second in *; lia].
    apply (IH (<[outcome_key n b := t1]> h)); [by rewrite lookup_insert_eq|done].
  - destruct (h !! outcome_key n1 b1) as [last1|].
    + destruct (Z.ltb_spec (t1 - last1) signatureWriteInterval); [by apply IH|].
      intros [[= -> -> ->]|Hin]%elem_of_cons; [done|]. eapply IH; [|exact Hin].
      by rewrite lookup_insert_ne.
    + intros [[= -> -> ->]|Hin]%elem_of_cons; [done|]. eapply IH; [|exact Hin].
      by rewrite lookup_insert_ne.
Qed.

Lemma record_outcome_written h t n b :
  match record_outcome t n b h with
  | (h', true) => h' = <[outcome_key n b := t]> h
  | (h', false) => h' = h ∧ is_Some (h !! outcome_key n b)
  end.
Proof.
  unfold record_outcome. cbv zeta. destruct (h !! outcome_key n b) as [last|]; [|done].
  destruct (t - last <? signatureWriteInterval)%Z; [|done]. split; [done|by eexists].
Qed.

Lemma written_apart h outcomes before n b t1 between t2 after :
  written h outcomes = before ++ (t1, n, b) :: between ++ (t2, n, b) :: after →
  (t1 + signatureWriteInterval ≤ t2)%Z.
Proof.
  revert h before. induction outcomes as [|[[t0 n0] b0] rest IH]; intros h before; simpl.
  { by destruct before. }
  pose proof (record_outcome_written h t0 n0 b0) as Hr.
  destruct (record_outcome t0 n0 b0 h) as [h' []]; [|by apply IH].
  destruct before as [|x before]; intros H.
  - injection H as -> -> -> Hrest. apply (written_after h' rest n b); [by rewrite Hr, lookup_insert_eq|].
    rewrite Hrest. apply elem_of_app. right. by left.
  - injection H as _ Hrest. by apply (IH h' before).
Qed.

Lemma written_once h outcomes t n b :
  (t, n, b) ∈ outcomes →
  is_Some (h !! outcome_key n b) ∨
  ∃ t' n' b', (t', n', b') ∈ written h outcomes ∧ outcome_key n' b' = outcome_key n b.
Proof.
  revert h. induction outcomes as [|[[t0 n0] b0] rest IH]; intros h; [intros H; by apply elem_of_nil in H|].
  intros Hin. cbn [written]. pose proof (record_outcome_written h t0 n0 b0) as Hr.
  destruct (record_outcome t0 n0 b0 h) as [h' []].
  - destruct (decide (outcome_key n0 b0 = outcome_key n b)) as [Hk|Hk].
    { right. exists t0, n0, b0. split; [by left|done]. }
    apply elem_of_cons in Hin as [[= -> -> ->]|Hin]; [done|].
    destruct (IH h' Hin) as [Hs|(t' & n' & b' & Hw & Hk')].
    + left. by rewrite Hr, lookup_insert_ne in Hs.
    + right. exists t', n', b'. split; [by right|done].
  - destruct Hr as [-> Hs]. apply elem_of_cons in Hin as [[= -> -> ->]|Hin]; [by left|by apply IH].
Qed.

(** The endpoint is open to anyone, yet a provider's status is written at most once
    a minute for each kind of outcome, however many deliveries arrive; and an outcome is
    dropped only when one of its kind was written before. *)
Theorem signature_writes_rate_limited outcomes :
  (∀ before n b t1 between t2 after,
    written ∅ outcomes = before ++ (t1, n, b) :: between ++ (t2, n, b) :: after →
    (t1 + signatureWriteInterval ≤ t2)%Z) ∧
  (∀ t n b, (t, n, b) ∈ outcomes →
    ∃ t' n' b', (t', n', b') ∈ written ∅ outcomes ∧ outcome_key n' b' = outcome_key n b).
Proof.
  split.
  - intros before n b t1 between t2 after. apply written_apart.
  - intros t n b [H|?]%(written_once ∅); [|done]. rewrite lookup_empty in H. by destruct H.
Qed.

(** ** Concrete runs *)

Module WebhookRuns.

(** A cluster as the receiver sees it, which remembers the revisions it patched, the
    previews it was asked for and the outcomes it recorded. *)
Record cluster := {
  cl_secret : string;
  cl_apps : list App;
  cl_project : Project;
  cl_patched : list (string * string);
  cl_previews : list string;
  cl_outcomes : list (string * bool);
}.

Definition provider : GitProvider :=
  {| GitProvider_ObjectMeta := with_name "github" ObjectMeta_zero;
     GitProvider_Spec :=
       {| GitProviderSpec_Type := GitProviderTypeGitHub; GitProviderSpec_Host := "https://github.com";
          GitProviderSpec_ClientID := ""; GitProviderSpec_ClientSecretRef := None;
          GitProviderSpec_WebhookSecretRef :=
            Some {| SecretRef_Namespace := "mortise-system"; SecretRef_Name := "hook";
                    SecretRef_Key := "secret" |} |};
     GitProvider_Status := GitProviderStatus_zero |}.

Definition not_found {A} : error + A := inl (KubeError NotFound "").

#[export] Instance fake : K8sReader cluster :=
  {| getGitProvider n w := (w, if String.eqb n "github" then inr provider else not_found);
     countGitProviders w := (w, inr 1%Z);
     getSecret _ _ _ w := (w, inr (cl_secret w));
     getProject n w := (w, if String.eqb n "shop" then inr (cl_project w) else not_found);
     listGitApps w := (w, inr (cl_apps w));
     patchAppRevision app sha w :=
       ({| cl_secret := cl_secret w; cl_apps := cl_apps w; cl_project := cl_project w;
           cl_patched := cl_patched w ++ [(meta_Name (App_ObjectMeta app), sha)];
           cl_previews := cl_previews w; cl_outcomes := cl_outcomes w |}, None);
     getPreviewEnvironment _ _ w := (w, not_found);
     createPreviewEnvironment pe w :=
       ({| cl_secret := cl_secret w; cl_apps := cl_apps w; cl_project := cl_project w;
           cl_patched := cl_patched w;
           cl_previews := cl_previews w ++ [meta_Name (PreviewEnvironment_ObjectMeta pe)];
           cl_outcomes := cl_outcomes w |}, None);
     updatePreviewEnvironment _ w := (w, None);
     deletePreviewEnvironment _ _ w := (w, None);
     setWebhookSignatureCondition n b _ w :=
       ({| cl_secret := cl_secret w; cl_apps := cl_apps w; cl_project := cl_project w;
           cl_patched := cl_patched w; cl_previews := cl_previews w;
           cl_outcomes := cl_outcomes w ++ [(n, b)] |}, None) |}.

(** Nothing but outcomes. *)
Definition same_but_outcomes (w w' : cluster) : Prop :=
  cl_secret w = cl_secret w' ∧ cl_apps w = cl_apps w' ∧ cl_project w = cl_project w' ∧
  cl_patched w = cl_patched w' ∧ cl_previews w = cl_previews w'.

#[export] Instance fake_frame : OutcomeFrame fake same_but_outcomes.
Proof.
  split; try done. split; [done|]. intros a b c (?&?&?&?&?) (?&?&?&?&?).
  unfold same_but_outcomes. repeat split; congruence.
Qed.

Definition app (name repo branch : string) (watch : list string) : App :=
  with_App_Spec (with_AppSpec_Source
    {| AppSource_Type := SourceTypeGit; AppSource_Repo := repo; AppSource_Branch := branch;
       AppSource_Path := ""; AppSource_WatchPaths := watch; AppSource_Build := None;
       AppSource_ProviderRef := "github"; AppSource_Image := ""; AppSource_PullSecretRef := "";
       AppSource_External := None |}
    AppSpec_zero)
    (with_App_ObjectMeta (with_name name (with_namespace "pj-shop" ObjectMeta_zero)) App_zero).

Definition web : App := app "web" "https://github.com/acme/shop" "" ["web/"].
Definition jobs : App := app "jobs" "https://github.com/acme/shop" "main" ["jobs/"].
Definition docs : App := app "docs" "https://github.com/acme/docs" "" [].

Definition env (name : string) (preview : bool) : ProjectEnvironment :=
  {| ProjectEnvironment_Name := name; ProjectEnvironment_DisplayOrder := 0;
     ProjectEnvironment_Restricted := false; ProjectEnvironment_Preview := preview |}.

Definition shop : Project :=
  {| Project_ObjectMeta := with_name "shop" ObjectMeta_zero;
     Project_Spec :=
       {| ProjectSpec_Description := "";
          ProjectSpec_Environments := [env "production" false; env "dev" false];
          ProjectSpec_Preview := Some {| PreviewConfig_Enabled := true;
            PreviewConfig_SourceEnvironment := ""; PreviewConfig_BotPR := Some false |};
          ProjectSpec_AutoRedeploy := false |};
     Project_Status := ProjectStatus_zero |}.

Definition start : cluster :=
  {| cl_secret := "s3cret"; cl_apps := [web; jobs; docs]; cl_project := shop; cl_patched := [];
     cl_previews := []; cl_outcomes := [] |}.

Definition q (s : string) : json := JStr s.
Definition push_body : string := print (JObj
  [("ref", q "refs/heads/main"); ("after", q "abc123");
   ("repository", JObj [("full_name", q "acme/shop")]);
   ("commits", JArr [JObj [("added", JArr [q "web/app.js"]); ("modified", JArr [q "README.md"])];
                     JObj [("removed", JArr [q "web/app.js"])]])]).

Definition pr_body (action sha login : string) : string := print (JObj
  [("action", q action); ("number", JNum "7");
   ("pull_request", JObj [("head", JObj [("ref", q "feature"); ("sha", q sha)]);
                          ("user", JObj [("login", q login)])]);
   ("repository", JObj [("full_name", q "acme/shop")])]).

Definition signed (secret body : string) (event name : string) : string :=
  if String.eqb name "X-Hub-Signature-256" then "sha256=" +:+ hmac_sha256_hex secret body
  else if String.eqb name "X-GitHub-Event" then event else "".

Definition deliver (secret body event : string) : delivery :=
  {| dl_provider := "github"; dl_body := inr body; dl_header := signed secret body event |}.

Definition now : cluster → Time := λ _, 0%Z.
Definition sdk_client : GitProvider → option error := λ _, None.
Definition handle (d : delivery) : gmap string Time * cluster * response :=
  handleWebhook range_sorted_order now sdk_client d ∅ start.

(** A signed push patches the one app that watches a changed path. *)
Example push_patches :
  let '(_, w, resp) := handle (deliver "s3cret" push_body "push") in
  cl_patched w = [("web", "abc123")] ∧ cl_outcomes w = [("github", false)] ∧ resp = Accepted.
Proof. vm_compute. done. Qed.

(** A pull request opens a preview, named after the repository as the project has two;
    one opened by a bot does not. *)
Example pr_previews :
  let '(_, w1, _) := handle (deliver "s3cret" (pr_body "opened" "abc" "dev") "pull_request") in
  let '(_, w2, _) := handle (deliver "s3cret" (pr_body "opened" "abc" "x[bot]") "pull_request") in
  cl_previews w1 = ["preview-shop-d21b2cdf-pr-7"] ∧ cl_previews w2 = [].
Proof. vm_compute. done. Qed.

Lemma unverified_changes_nothing_witness :
  ∃ h' w' resp,
    handleWebhook range_sorted_order now sdk_client (deliver "guess" push_body "push") ∅ start =
      (h', w', resp) ∧
    ((verified sdk_client (deliver "guess" push_body "push") start ∧ resp = Accepted) ∨
     (same_but_outcomes start w' ∧ resp ∈ [Unauthorized; InternalError; BadBody])).
Proof.
  destruct (handleWebhook range_sorted_order now sdk_client (deliver "guess" push_body "push") ∅ start)
    as [[h' w'] resp] eqn:E.
  exists h', w', resp. split; [reflexivity|].
  exact (unverified_changes_nothing range_sorted_order now sdk_client same_but_outcomes
    (deliver "guess" push_body "push") ∅ start h' w' resp E).
Defined.

(** The response to the forged delivery, and what it left behind. *)
Example forged :
  let '(_, w, resp) := handle (deliver "guess" push_body "push") in
  resp = Unauthorized ∧ cl_patched w = [] ∧ cl_outcomes w = [("github", true)].
Proof. vm_compute. done. Qed.

Definition push : BuildRequest :=
  {| BuildRequest_Provider := "github"; BuildRequest_Repo := "acme/shop";
     BuildRequest_Ref := "refs/heads/main"; BuildRequest_SHA := "abc123";
     BuildRequest_ChangedPaths := Some ["web/app.js"] |}.

Lemma dispatchToApps_patches_witness :
  ∃ concerned, (∀ app, concerned app = true ↔ push_concerns push true app) ∧
    dispatchToApps push start =
    fold_left (λ w app, (patchAppRevision app "abc123" w).1)
      (List.filter concerned [web; jobs; docs]) start.
Proof. apply (dispatchToApps_patches push start start start [web; jobs; docs] true); reflexivity. Defined.

Definition pr (action sha : string) : PREvent :=
  {| PREvent_Provider := "github"; PREvent_Repo := "acme/shop"; PREvent_Number := 7;
     PREvent_Action := action; PREvent_Branch := "feature"; PREvent_SHA := sha;
     PREvent_AuthorIsBot := false |}.

Definition projects (n : string) : error + Project :=
  if String.eqb n "shop" then inr shop else not_found.

(** A cluster of projects alone. *)
Definition project_reader : K8sReader unit :=
  {| getGitProvider _ w := (w, not_found); countGitProviders w := (w, inr 1%Z);
     getSecret _ _ _ w := (w, not_found); getProject n w := (w, projects n);
     listGitApps w := (w, inr []); patchAppRevision _ _ w := (w, None);
     getPreviewEnvironment _ _ w := (w, not_found); createPreviewEnvironment _ w := (w, None);
     updatePreviewEnvironment _ w := (w, None); deletePreviewEnvironment _ _ w := (w, None);
     setWebhookSignatureCondition _ _ _ w := (w, None) |}.

Lemma collect_projects_spec_witness :
  ∃ m, collect_projects (K := project_reader) (pr "opened" "abc") true [web; jobs; docs]
         [web; jobs; docs] no_projects tt = (m, tt) ∧
    (∀ n p, projectCache m !! n = Some p ↔
       projects n = inr p ∧ ∃ app, app ∈ [web; jobs; docs] ∧
         pr_matches (pr "opened" "abc") true app = true ∧ in_project n app) ∧
    ∀ n p, projectCache m !! n = Some p →
      projectMultiRepo m !! n = Some (projectHasMultipleGitRepos [web; jobs; docs] n).
Proof.
  apply (collect_projects_spec (K := project_reader) projects); reflexivity.
Defined.

Section previews.
#[local] Existing Instances Sim.client Sim.client_ok Sim.retry.
(** A preview that is deleted stays, marked. *)
#[local] Instance preview_marker : KubeDelete (Sim.world PreviewEnvironment) PreviewEnvironment := Sim.mark (λ _, true) 5%Z.
#[local] Instance preview_marker_asks : KubeDeleteAsks (Sim.world PreviewEnvironment) PreviewEnvironment := Sim.mark_asks _ _.
#[local] Instance no_providers : KubeClient (Sim.world PreviewEnvironment) GitProvider := read_only (map_view ∅).
#[local] Instance no_projects_client : KubeClient (Sim.world PreviewEnvironment) Project := read_only (map_view ∅).
#[local] Instance no_secrets : KubeClient (Sim.world PreviewEnvironment) Secret := read_only (map_view ∅).
#[local] Instance provider_list : KubeList (Sim.world PreviewEnvironment) GitProvider := λ w, (w, inr []).
#[local] Instance provider_status : KubeStatus (Sim.world PreviewEnvironment) GitProvider := λ _ w, (w, None).
#[local] Instance app_list : KubeList (Sim.world PreviewEnvironment) App := λ w, (w, inr []).
#[local] Instance app_patch : KubePatch (Sim.world PreviewEnvironment) App := λ _ _ w, (w, None).

Definition reader : K8sReader (Sim.world PreviewEnvironment) :=
  K8sReader_client (λ _ _, None) (λ c _, c) (λ _ c _, c).
#[local] Instance reader_previews : PreviewClient reader := K8sReader_client_previews _ _ _.

Definition quiet_start : Sim.world PreviewEnvironment := Sim.World [] [].

(** The pull request is opened, closed and opened again at the same commit. *)
Abbreviation dispatch e := (dispatch_project (K := reader) e ∅ ("shop", shop)).
Definition closed_start : Sim.world PreviewEnvironment := dispatch (pr "closed" "abc") (dispatch (pr "opened" "abc") quiet_start).

Lemma tended_now w : kquiet w → tended_world (W := Sim.world PreviewEnvironment) w w.
Proof. intros Hq. split; [done|]. by intros k. Qed.

Lemma closed_delivered :
  delivered (K := reader) ∅ "shop" shop quiet_start [pr "opened" "abc"; pr "closed" "abc"] closed_start.
Proof.
  apply (one_more (K := reader) ∅ "shop" shop quiet_start [pr "opened" "abc"] (pr "closed" "abc") (dispatch (pr "opened" "abc") quiet_start));
    [|by apply tended_now].
  apply (one_more (K := reader) ∅ "shop" shop quiet_start [] (pr "opened" "abc") quiet_start); [|by apply tended_now].
  by apply none_yet, tended_now.
Qed.

Lemma preview_follows_pr_witness :
  let last := pr "opened" "abc" in let k := preview_key ∅ "shop" last in
  kquiet (dispatch last closed_start) ∧
  (∀ k', k' ≠ k → tended (kstore quiet_start !! k') (kstore (dispatch last closed_start) !! k')) ∧
  follows last (kstore closed_start !! k) (kstore (dispatch last closed_start) !! k).
Proof.
  cbv zeta. refine (match preview_follows_pr (K := reader) ∅ "shop" shop [pr "opened" "abc"; pr "closed" "abc"]
    (pr "opened" "abc") quiet_start closed_start (eq_refl : Sim.quiet quiet_start) closed_delivered _ _ with
    conj H1 (conj H2 (conj H3 _)) => conj H1 (conj H2 H3) end).
  - intros e He. simpl in He. rewrite !elem_of_cons in He.
    destruct He as [->|[->|[->|He]]]; [reflexivity..|by apply elem_of_nil in He].
  - intros e He _. exists "dev". simpl in He. rewrite !elem_of_cons in He.
    destruct He as [->|[->|[->|He]]]; [reflexivity..|by apply elem_of_nil in He].
Defined.

(** The preview that was found is the one that is terminating, and nothing is done: when
    its controller has let it go, the open pull request has no preview until the next
    event or the next round of [PreviewConverges]. *)
Example reopened_in_vain :
  dispatch (pr "opened" "abc") closed_start = closed_start ∧
  (λ pe, meta_DeletionTimestamp (PreviewEnvironment_ObjectMeta pe)) <$>
    (map_to_list (Sim.objects closed_start)).*2 = [Some 5%Z].
Proof. vm_compute. split; reflexivity. Qed.
End previews.

Definition burst : list (Time * string * bool) :=
  [(0, "github", true); (30 * Second, "github", true); (31 * Second, "github", false);
   (61 * Second, "github", true)]%Z.

Lemma signature_writes_rate_limited_witness :
  written ∅ burst =
    [] ++ (0%Z, "github", true) :: [((31 * Second)%Z, "github", false)] ++
    ((61 * Second)%Z, "github", true) :: [] ∧
  (0 + signatureWriteInterval ≤ 61 * Second)%Z.
Proof.
  assert (written ∅ burst =
    [] ++ (0%Z, "github", true) :: [((31 * Second)%Z, "github", false)] ++
    ((61 * Second)%Z, "github", true) :: []) as E by (vm_compute; reflexivity).
  split; [exact E|]. exact (proj1 (signature_writes_rate_limited burst) _ _ _ _ _ _ _ E).
Defined.
End WebhookRuns.
