(* ===== verification/PreviewReconcile.v ===== *)
(** * The preview environment controller: [internal/controller/previewenvironment_controller.go]

    A [PreviewEnvironment] gets an entry among the environments of its project, an override
    in every app of it, and copies of the Secrets of the environment it is cloned from.
    The convergence makes the previews of a project those of the open pull requests. *)

From S2P Require Import Prelude GoStrings GoTime GoText Kube Core Api KubeStatus Effects Controller Constants BuildRun AppBuild EnvStore ApiServer GitTokens ProjectReconcile ApiProjectEnvs.

#[export] Instance preview_status_object : KubeStatusObject PreviewEnvironment :=
  λ new, with_PreviewEnvironment_Status (PreviewEnvironment_Status new).
#[export] Instance preview_status_object_ok : KubeStatusObjectOk PreviewEnvironment.
Proof. by intros new []. Qed.

Definition previewFinalizer : string := "mortise.dev/preview-finalizer".
Definition convergenceGracePeriod : Z := 15 * Minute.
Definition previewNamespaceReadyRequeue : Z := 2 * Second.

(** An error of a copy: the [previewNamespaceNotReadyError], which is looked for without
    unwrapping, or any other one. *)
Inductive copy_error :=
  | previewNamespaceNotReadyError (project env : string)
  | copy_failed (err : error).

(** [git.PullRequestSnapshot] *)
Record PullRequestAuthor := { pra_Login : string; pra_Type : string; pra_IsBot : bool }.
Record PullRequestSnapshot := { prs_Number : Z; prs_Branch : string; prs_SHA : string; prs_Author : PullRequestAuthor }.

Definition pe_name (pe : PreviewEnvironment) : string := meta_Name (PreviewEnvironment_ObjectMeta pe).
Definition pe_namespace (pe : PreviewEnvironment) : string := meta_Namespace (PreviewEnvironment_ObjectMeta pe).
Definition pe_project (pe : PreviewEnvironment) : string := PreviewEnvironmentSpec_ProjectRef (PreviewEnvironment_Spec pe).
Definition pe_pr (pe : PreviewEnvironment) : PullRequestRef := PreviewEnvironmentSpec_PullRequest (PreviewEnvironment_Spec pe).

(** [fmt.Sprintf("pr-%d", number)] *)
Definition pr_env (number : Z) : string := "pr-" +:+ itoa number.
Definition pe_env (pe : PreviewEnvironment) : string := pr_env (PullRequestRef_Number (pe_pr pe)).

(** *** Edits *)

(** The first element that is found. *)
Fixpoint edit_first {A} (found : A → bool) (f : A → A) (l : list A) : list A :=
  match l with
  | [] => []
  | x :: l => if found x then f x :: l else x :: edit_first found f l
  end.

Definition env_is (envName : string) (e : ProjectEnvironment) : bool := String.eqb (ProjectEnvironment_Name e) envName.
Definition override_is (envName : string) (e : Environment) : bool := String.eqb (Environment_Name e) envName.

Definition as_preview (e : ProjectEnvironment) : ProjectEnvironment :=
  {| ProjectEnvironment_Name := ProjectEnvironment_Name e; ProjectEnvironment_DisplayOrder := ProjectEnvironment_DisplayOrder e;
     ProjectEnvironment_Restricted := ProjectEnvironment_Restricted e; ProjectEnvironment_Preview := true |}.

(** The project with the environment, [None] if it has it already. *)
Definition with_preview_env (envName : string) (p : Project) : option Project :=
  match List.find (env_is envName) (project_envs p) with
  | Some e => if ProjectEnvironment_Preview e then None else Some (on_envs (edit_first (env_is envName) as_preview) p)
  | None => Some (on_envs (λ l, l ++ [as_preview (with_ProjectEnvironment_Name envName ProjectEnvironment_zero)]) p)
  end.

Definition without_preview_env (envName : string) (p : Project) : option Project :=
  if declared envName (project_envs p) then Some (on_envs (without_first (env_is envName)) p) else None.

(** What a preview takes over from the environment it is cloned from. *)
Definition cloneEnvironment (sourceName targetName : string) (app : App) : Environment :=
  let cloned := with_Environment_Name targetName Environment_zero in
  match List.find (override_is sourceName) (AppSpec_Environments (App_Spec app)) with
  | None => cloned
  | Some source =>
    with_Environment_Env (Environment_Env source)
    (with_Environment_BuildArgs (Environment_BuildArgs source)
    (with_Environment_Annotations (Environment_Annotations source)
    (with_Environment_Bindings (Environment_Bindings source)
    (with_Environment_ConcurrencyPolicy (Environment_ConcurrencyPolicy source)
    (with_Environment_Schedule (Environment_Schedule source)
    (with_Environment_StartupProbe (Environment_StartupProbe source)
    (with_Environment_ReadinessProbe (Environment_ReadinessProbe source)
    (with_Environment_LivenessProbe (Environment_LivenessProbe source)
    (with_Environment_Resources (Environment_Resources source)
    (with_Environment_Replicas (Environment_Replicas source) cloned))))))))))
  end.

(** The app with the override of the preview, [None] if it is as it should be. *)
Definition with_preview_override (sourceEnv envName : string) (pe : PreviewEnvironment) (app : App) : option App :=
  let branch := PullRequestRef_Branch (pe_pr pe) in
  match List.find (override_is envName) (AppSpec_Environments (App_Spec app)) with
  | Some e =>
    if negb (previewTargetsAppRepo pe app) || String.eqb (Environment_Branch e) branch then None
    else Some (on_app_envs (edit_first (override_is envName) (with_Environment_Branch branch)) app)
  | None =>
    let cloned := cloneEnvironment sourceEnv envName app in
    let cloned := if String.eqb (AppSource_Type (app_source app)) SourceTypeGit && previewTargetsAppRepo pe app
                  then with_Environment_Branch branch cloned else cloned in
    Some (on_app_envs (λ l, l ++ [cloned]) app)
  end.

Definition without_override (envName : string) (app : App) : option App :=
  if existsb (override_is envName) (AppSpec_Environments (App_Spec app))
  then Some (on_app_envs (without_first (override_is envName)) app) else None.

Definition copySourceAnnotations (src : gmap string string) : gmap string string :=
  fold_left (λ out k, match src !! k with Some v => <[k := v]> out | None => out end)
    [AnnotationBindingKeys; AnnotationGeneratedKeys; AnnotationSharedKeys] ∅.

Definition shared_copy_labels (projectName envName : string) : gmap string string :=
  {[ProjectLabel := projectName; EnvironmentLabel := envName; "app.kubernetes.io/managed-by" := "mortise"]}.
Definition app_copy_labels (projectName appName envName : string) : gmap string string :=
  {[ProjectLabel := projectName; AppNameLabel := appName; EnvironmentLabel := envName;
    "app.kubernetes.io/managed-by" := "mortise"]}.

Definition secret_copy (targetNs secretName : string) (labels : gmap string string) (source : Secret) : Secret :=
  {| sec_meta := with_annotations (copySourceAnnotations (meta_Annotations (sec_meta source)))
       (with_labels labels (with_name secretName (with_namespace targetNs ObjectMeta_zero)));
     sec_Type := ""; sec_Data := sec_Data source |}.

(** The data, labels and annotations of the copy in a Secret that is there. *)
Definition filled (labels : gmap string string) (source existing : Secret) : Secret :=
  {| sec_meta := with_annotations (copySourceAnnotations (meta_Annotations (sec_meta source)))
       (with_labels labels (sec_meta existing));
     sec_Type := sec_Type existing; sec_Data := sec_Data source |}.

Definition previewNamespaceOwnedByProject (ns : Namespace) (projectName : string) : bool :=
  let labels := meta_Labels (ns_meta ns) in
  String.eqb (map_get labels "app.kubernetes.io/managed-by") "mortise" &&
    String.eqb (map_get labels ProjectLabel) projectName ||
  existsb (λ ref, String.eqb (owner_APIVersion ref) v1alpha1 && String.eqb (owner_Kind ref) "Project" &&
                  String.eqb (owner_Name ref) projectName) (meta_OwnerReferences (ns_meta ns)).

(** *** Names and repositories *)

Definition convergencePEName (repo : string) (number : Z) (multiRepo : bool) : string :=
  PreviewEnvironmentName repo number multiRepo.
Definition convergencePEPrefix (repo : string) (multiRepo : bool) : string := PreviewEnvironmentPrefix repo multiRepo.

Fixpoint first_non_prod (firstNonProd : string) (envs : list ProjectEnvironment) : string :=
  match envs with
  | [] => firstNonProd
  | env :: envs =>
    let name := ProjectEnvironment_Name env in
    if ProjectEnvironment_Preview env then first_non_prod firstNonProd envs
    else if String.eqb name "staging" then "staging"
    else first_non_prod (if negb (String.eqb name "production") && String.eqb firstNonProd "" then name else firstNonProd) envs
  end.

Definition resolveSourceEnvFromProject (project : Project) : string :=
  match ProjectSpec_Preview (Project_Spec project) with
  | Some preview =>
    if negb (String.eqb (PreviewConfig_SourceEnvironment preview) "") then PreviewConfig_SourceEnvironment preview
    else first_non_prod "" (project_envs project)
  | None => first_non_prod "" (project_envs project)
  end.

(** The repositories of the apps with their providers, each once; [seen] holds the keys. *)
Fixpoint unique_repos (seen : gset (string * string)) (apps : list App) : list (string * string) :=
  match apps with
  | [] => []
  | app :: apps =>
    let src := app_source app in
    if negb (String.eqb (AppSource_Type src) SourceTypeGit) || String.eqb (AppSource_Repo src) ""
    then unique_repos seen apps
    else
      let k := (CanonicalRepoKey (AppSource_Repo src), AppSource_ProviderRef src) in
      if bool_decide (k ∈ seen) then unique_repos seen apps
      else (AppSource_Repo src, AppSource_ProviderRef src) :: unique_repos ({[k]} ∪ seen) apps
  end.

Definition protectRepoPreviewEnvironments (protectedPEs : gset string) (existingByPR : gmap string PreviewEnvironment)
    (repo : string) (multiRepo : bool) : gset string :=
  if multiRepo
  then protectedPEs ∪ dom (filter (λ kv, has_prefix (convergencePEPrefix repo true) kv.1 = true) existingByPR)
  else protectedPEs ∪ dom existingByPR.

Definition new_preview (project : Project) (sourceEnv : string) (repo peName : string) (pr : PullRequestSnapshot)
    : PreviewEnvironment :=
  with_PreviewEnvironment_Spec
    {| PreviewEnvironmentSpec_ProjectRef := project_name project; PreviewEnvironmentSpec_SourceEnv := sourceEnv;
       PreviewEnvironmentSpec_PullRequest :=
         {| PullRequestRef_Number := prs_Number pr; PullRequestRef_Branch := prs_Branch pr;
            PullRequestRef_SHA := prs_SHA pr; PullRequestRef_Repo := repo |} |}
    (with_PreviewEnvironment_ObjectMeta
       (with_name peName (with_namespace (ControlNamespace (project_name project)) ObjectMeta_zero)) PreviewEnvironment_zero).

(** ** The controller *)

Section controller.
Context {W : Type} {CE : KubeClient W PreviewEnvironment} {SE : KubeStatus W PreviewEnvironment}
  {LE : KubeListIn W PreviewEnvironment} {DE : KubeDelete W PreviewEnvironment}
  {CP : KubeClient W Project} {CA : KubeClient W App} {LA : KubeListIn W App}
  {CS : KubeClient W Secret} {LM : KubeListIn W ProjectMember}
  {CN : KubeClient W Namespace} {DN : KubeDelete W Namespace} {CB : KubeClient W BuildRun} {CG : KubeClient W GitProvider}
  {CR : KubeRetry W} {CH : ConditionHelpers} {FH : FinalizerHelpers} (R : MapRange).
(** The clock, and the client of the forge that a provider and a token make. *)
Context (now : W → Time)
  (GitAPIFactory : option (GitProvider → string → error + (string → W → W * (error + list PullRequestSnapshot)))).

(** *** Retried edits

    A read, an edit ([None]: nothing to do) and a write, again after a conflict; [missing]
    is what an object that is not there comes to. *)
Definition edit_retried {Obj} {C : KubeClient W Obj} (missing : error → option error) (edit : Obj → option Obj)
    (k : NamespacedName) : W → W * option error :=
  RetryOnConflict (λ w,
    match kget (Obj := Obj) k w with
    | (w, inl err) => (w, if IsNotFound err then missing err else Some err)
    | (w, inr o) => match edit o with Some new => kupdate new w | None => (w, None) end
    end).

Definition ensureProjectEnv (projectName envName : string) : W → W * option error :=
  edit_retried Some (with_preview_env envName) ("", projectName).
Definition removeProjectEnv (projectName envName : string) : W → W * option error :=
  edit_retried (λ _, None) (without_preview_env envName) ("", projectName).
Definition ensureAppEnvOverride (app : App) (sourceEnv envName : string) (pe : PreviewEnvironment) : W → W * option error :=
  edit_retried Some (with_preview_override sourceEnv envName pe) (obj_key app).
Definition removeAppEnvOverride (app : App) (envName : string) : W → W * option error :=
  edit_retried (λ _, None) (without_override envName) (obj_key app).

(** *** Status *)

(** The change is given the time at which it is made. *)
Definition updateStatus (pe : PreviewEnvironment) (mutate : Time → PreviewEnvironmentStatus → PreviewEnvironmentStatus)
    : W → W * option error :=
  RetryOnConflict (λ w,
    match kget (obj_key pe) w with
    | (w, inl err) => (w, Some err)
    | (w, inr fresh) =>
      kstatus_update (with_PreviewEnvironment_Status (mutate (now w) (PreviewEnvironment_Status fresh)) fresh) w
    end).

Definition preview_condition (status reason message : string) (t : Time) : Condition :=
  {| Condition_Type := "Ready"; Condition_Status := status; Condition_ObservedGeneration := 0;
     Condition_LastTransitionTime := t; Condition_Reason := reason; Condition_Message := message |}.

Definition status_of_failure (reason message : string) (t : Time) (s : PreviewEnvironmentStatus) : PreviewEnvironmentStatus :=
  with_PreviewEnvironmentStatus_Conditions
    (SetStatusCondition (preview_condition "False" reason message t) (PreviewEnvironmentStatus_Conditions s))
    (with_PreviewEnvironmentStatus_Phase PreviewPhaseFailed s).

Definition status_of_ready (envName : string) (t : Time) (s : PreviewEnvironmentStatus) : PreviewEnvironmentStatus :=
  with_PreviewEnvironmentStatus_Conditions
    (SetStatusCondition (preview_condition "True" "EnvironmentReady" "preview environment created" t)
       (PreviewEnvironmentStatus_Conditions s))
    (with_PreviewEnvironmentStatus_EnvironmentName envName (with_PreviewEnvironmentStatus_Phase PreviewPhaseReady s)).

Definition setFailed (pe : PreviewEnvironment) (reason msg : string) : E W unit :=
  run (updateStatus pe (status_of_failure reason msg)).

Definition setReady (pe : PreviewEnvironment) (envName : string) : E W unit :=
  run (updateStatus pe (status_of_ready envName)).

(** *** Copies of Secrets *)

Definition ensurePreviewNamespaceReady (targetNs projectName envName : string) (w : W) : W * option copy_error :=
  match kget (Obj := Namespace) ("", targetNs) w with
  | (w, inl err) =>
    (w, Some (if IsNotFound err then previewNamespaceNotReadyError projectName envName else copy_failed err))
  | (w, inr _) => (w, None)
  end.

(** The copy when the source and the namespace are there: [existing] handles a Secret of
    the name. *)
Definition copy_secret (targetNs secretName : string) (labels : gmap string string) (source : Secret)
    (existing : Secret → W → W * option error) (w : W) : W * option copy_error :=
  match kget (targetNs, secretName) w with
  | (w, inr s) => let '(w, err) := existing s w in (w, copy_failed <$> err)
  | (w, inl err) =>
    if IsNotFound err then
      match kcreate (secret_copy targetNs secretName labels source) w with
      | (w, Some err) => (w, if IsAlreadyExists err then None else Some (copy_failed err))
      | (w, None) => (w, None)
      end
    else (w, Some (copy_failed err))
  end.

Definition copy_source (sourceNs targetNs secretName projectName envName : string)
    (copy : Secret → W → W * option copy_error) (w : W) : W * option copy_error :=
  match kget (Obj := Secret) (sourceNs, secretName) w with
  | (w, inl err) => (w, if IsNotFound err then None else Some (copy_failed err))
  | (w, inr source) =>
    match ensurePreviewNamespaceReady targetNs projectName envName w with
    | (w, Some err) => (w, Some err)
    | (w, None) => copy source w
    end
  end.

Definition copySharedEnvSecret (projectName sourceEnv envName : string) : W → W * option copy_error :=
  let targetNs := EnvNamespace projectName envName in
  copy_source (EnvNamespace projectName sourceEnv) targetNs SharedEnvName projectName envName (λ source,
    copy_secret targetNs SharedEnvName (shared_copy_labels projectName envName) source (λ _ w, (w, None))).

Definition copyAppEnvSecret (projectName sourceEnv envName appName : string) : W → W * option copy_error :=
  let targetNs := EnvNamespace projectName envName in
  let labels := app_copy_labels projectName appName envName in
  copy_source (EnvNamespace projectName sourceEnv) targetNs (AppEnvSecretName appName) projectName envName (λ source,
    copy_secret targetNs (AppEnvSecretName appName) labels source (λ existing w,
      if negb (bool_decide (sec_Data existing = ∅)) then (w, None) else kupdate (filled labels source existing) w)).

(** *** Cleanup *)

Definition envInUseByAnotherPreview (pe : PreviewEnvironment) (envName : string) : E W bool :=
  l ← klist_in (Obj := PreviewEnvironment) (pe_namespace pe) ∅;
  mret (existsb (λ other, negb (String.eqb (pe_name other) (pe_name pe) || deleting (PreviewEnvironment_ObjectMeta other)) &&
                          String.eqb (pe_env other) envName) l).

Definition deletePreviewNamespace (projectName envName : string) (w : W) : W * option error :=
  let previewNS := ("", EnvNamespace projectName envName) in
  match kget (Obj := Namespace) previewNS w with
  | (w, inl err) => (w, if IsNotFound err then None else Some err)
  | (w, inr ns) =>
    if negb (previewNamespaceOwnedByProject ns projectName) then
      (w, Some (Errorf "refusing to delete namespace %q: not clearly managed by project %q" [previewNS.2; projectName]))
    else if deleting (ns_meta ns) then (w, None)
    else
      match kdelete Namespace (obj_key ns) w with
      | (w, Some err) => (w, if IsNotFound err then None else Some err)
      | (w, None) => (w, None)
      end
  end.

Definition cleanupPreview (pe : PreviewEnvironment) (projectName envName : string) : E W unit :=
  inUse ← envInUseByAnotherPreview pe envName;
  if (inUse : bool) then mret tt
  else
    _ ← run (removeProjectEnv projectName envName);
    apps ← klist_in (Obj := App) (ControlNamespace projectName) ∅;
    _ ← for_each (λ app, run (removeAppEnvOverride app envName)) apps;
    run (deletePreviewNamespace projectName envName).

(** *** Builds that failed *)

Fixpoint previewBuildFailure (apps : list App) (envName : string) : E W (option (string * string)) :=
  match apps with
  | [] => mret None
  | app :: apps =>
    match envStatusFor app envName with
    | Some es =>
      match EnvironmentStatus_CurrentBuildRunRef es with
      | Some ref =>
        if negb (String.eqb (BuildRunReference_Phase ref) BuildRunPhaseFailed) then previewBuildFailure apps envName
        else
          let reason := "BuildFailed" in
          let msg := sprintf "preview build failed for app %q" [meta_Name (App_ObjectMeta app)] in
          if String.eqb (BuildRunReference_Name ref) "" then mret (Some (reason, msg))
          else λ w,
            match kget (meta_Namespace (App_ObjectMeta app), BuildRunReference_Name ref) w with
            | (w, inl err) => if IsNotFound err then (w, inr (Some (reason, msg))) else (w, inl err)
            | (w, inr run) =>
              let status := BuildRun_Status run in
              if String.eqb (BuildRunStatus_FailureReason status) "BuildInterrupted"
              then previewBuildFailure apps envName w
              else (w, inr (Some (firstNonEmpty (BuildRunStatus_FailureReason status) reason,
                                  firstNonEmpty (BuildRunStatus_FailureMessage status) msg)))
            end
      | None => previewBuildFailure apps envName
      end
    | None => previewBuildFailure apps envName
    end
  end.

(** *** Reconcile *)

(** A copy, after which the reconciliation goes on or is done with a result. *)
Definition copied (previewNs : string) (f : W → W * option copy_error) : E W (option Result) := λ w,
  match f w with
  | (w, None) => (w, inr None)
  | (w, Some (previewNamespaceNotReadyError _ _)) => (w, inr (Some {| RequeueAfter := previewNamespaceReadyRequeue |}))
  | (w, Some (copy_failed err)) =>
    match forbiddenFastRequeue now previewNs err w with
    | (w, Some res) => (w, inr (Some res))
    | (w, None) => (w, inl err)
    end
  end.

Fixpoint copy_apps (previewNs projectName sourceEnv envName : string) (apps : list App) : E W (option Result) :=
  match apps with
  | [] => mret None
  | app :: apps =>
    early ← copied previewNs (copyAppEnvSecret projectName sourceEnv envName (meta_Name (App_ObjectMeta app)));
    match early with
    | Some res => mret (Some res)
    | None => copy_apps previewNs projectName sourceEnv envName apps
    end
  end.

Definition teardown_preview (pe : PreviewEnvironment) : E W Result :=
  let m := PreviewEnvironment_ObjectMeta pe in
  if ContainsFinalizer m previewFinalizer then
    _ ← wrapping "cleanup preview: %w" [] (cleanupPreview pe (pe_project pe) (pe_env pe));
    _ ← run (kupdate (with_PreviewEnvironment_ObjectMeta (RemoveFinalizer m previewFinalizer) pe));
    mret Done
  else mret Done.

(** Why the project has no previews, if so. *)
Definition refused_preview (project : Project) (projectName sourceEnv : string) : option (string * string) :=
  match ProjectSpec_Preview (Project_Spec project) with
  | Some preview =>
    if negb (PreviewConfig_Enabled preview) then Some ("PreviewDisabled", sprintf "previews not enabled on project %q" [projectName])
    else if existsb (λ env, env_is sourceEnv env && ProjectEnvironment_Restricted env) (project_envs project)
    then Some ("RestrictedSourceEnv", sprintf "source environment %q is restricted" [sourceEnv])
    else None
  | None => Some ("PreviewDisabled", sprintf "previews not enabled on project %q" [projectName])
  end.

(** From the copies on. *)
Definition furnish (pe : PreviewEnvironment) (apps : list App) : E W Result :=
  let projectName := pe_project pe in
  let envName := pe_env pe in
  let sourceEnv := PreviewEnvironmentSpec_SourceEnv (PreviewEnvironment_Spec pe) in
  let previewNs := EnvNamespace projectName envName in
  early ← copied previewNs (copySharedEnvSecret projectName sourceEnv envName);
  match early with
  | Some res => mret res
  | None =>
    early ← copy_apps previewNs projectName sourceEnv envName apps;
    match early with
    | Some res => mret res
    | None =>
      failed ← wrapping "detect preview build failure: %w" [] (previewBuildFailure apps envName);
      _ ← match failed with
          | Some (reason, msg) => setFailed pe reason msg
          | None => setReady pe envName
          end;
      mret Done
    end
  end.

Definition provide (pe : PreviewEnvironment) : E W Result :=
  let projectName := pe_project pe in
  let envName := pe_env pe in
  let sourceEnv := PreviewEnvironmentSpec_SourceEnv (PreviewEnvironment_Spec pe) in
  _ ← wrapping "ensure project env: %w" [] (run (ensureProjectEnv projectName envName));
  apps ← wrapping "list apps: %w" [] (klist_in (Obj := App) (ControlNamespace projectName) ∅);
  _ ← for_each (λ app, run (ensureAppEnvOverride app sourceEnv envName pe)) apps;
  furnish pe apps.

(** From the lookup of the project on. *)
Definition maintain (pe : PreviewEnvironment) : E W Result := λ w,
  let projectName := pe_project pe in
  match kget (Obj := Project) ("", projectName) w with
  | (w, inl err) =>
    if IsNotFound err
    then (_ ← setFailed pe "ProjectNotFound" (sprintf "project %q not found" [projectName]); mret Done) w
    else (w, inl err)
  | (w, inr project) =>
    match refused_preview project projectName (PreviewEnvironmentSpec_SourceEnv (PreviewEnvironment_Spec pe)) with
    | Some (reason, msg) => (_ ← setFailed pe reason msg; mret Done) w
    | None => provide pe w
    end
  end.

Definition reconcile_preview (pe : PreviewEnvironment) : E W Result :=
  let m := PreviewEnvironment_ObjectMeta pe in
  if deleting m then teardown_preview pe
  else if ContainsFinalizer m previewFinalizer then maintain pe
  else
    _ ← run (kupdate (with_PreviewEnvironment_ObjectMeta (AddFinalizer m previewFinalizer).1 pe));
    maintain pe.

Definition Reconcile (key : NamespacedName) : E W Result := λ w,
  match kget (Obj := PreviewEnvironment) key w with
  | (w, inl err) => if IsNotFound err then (w, inr Done) else (w, inl err)
  | (w, inr pe) => reconcile_preview pe w
  end.

(** *** Convergence *)

Definition listProjectPreviews (controlNs : string) : E W (gmap string PreviewEnvironment) :=
  l ← wrapping "list preview environments: %w" [] (klist_in (Obj := PreviewEnvironment) controlNs ∅);
  mret (fold_left (λ m pe, <[pe_name pe := pe]> m) l ∅).

(** The previews that go, in the order of the map; the first error is returned at the end. *)
Fixpoint delete_stale (openPEs protectedPEs : gset string) (l : list (string * PreviewEnvironment))
    (deleteErr : option error) (w : W) : W * option error :=
  match l with
  | [] => (w, deleteErr)
  | (peName, pe) :: l =>
    if bool_decide (peName ∈ openPEs) || bool_decide (peName ∈ protectedPEs) ||
       (time_sub (now w) (meta_CreationTimestamp (PreviewEnvironment_ObjectMeta pe)) <? convergenceGracePeriod)%Z
    then delete_stale openPEs protectedPEs l deleteErr w
    else
      match kdelete PreviewEnvironment (obj_key pe) w with
      | (w, Some err) =>
        delete_stale openPEs protectedPEs l
          (if IsNotFound err then deleteErr
           else match deleteErr with Some e => Some e | None => Some (Wrapf "delete stale PE %q: %w" [peName] err) end) w
      | (w, None) => delete_stale openPEs protectedPEs l deleteErr w
      end
  end.

Definition deleteStalePreviews (existingByPR : gmap string PreviewEnvironment) (openPEs protectedPEs : gset string)
    : W → W * option error :=
  delete_stale openPEs protectedPEs (R _ existingByPR) None.

(** The open pull requests of one repository. *)
Fixpoint converge_prs (project : Project) (existingByPR : gmap string PreviewEnvironment) (sourceEnv : string)
    (botPR multiRepo : bool) (repo : string) (prs : list PullRequestSnapshot) (openPEs : gset string) : E W (gset string) :=
  match prs with
  | [] => mret openPEs
  | pr :: prs =>
    if negb botPR && pra_IsBot (prs_Author pr)
    then converge_prs project existingByPR sourceEnv botPR multiRepo repo prs openPEs
    else
      let peName := convergencePEName repo (prs_Number pr) multiRepo in
      let openPEs := {[peName]} ∪ openPEs in
      if bool_decide (is_Some (existingByPR !! peName)) || String.eqb sourceEnv ""
      then converge_prs project existingByPR sourceEnv botPR multiRepo repo prs openPEs
      else λ w,
        match kcreate (new_preview project sourceEnv repo peName pr) w with
        | (w, Some err) =>
          if IsAlreadyExists err then converge_prs project existingByPR sourceEnv botPR multiRepo repo prs openPEs w
          else (w, inl (Wrapf "create PE for PR #%d (%s): %w" [itoa (prs_Number pr); repo] err))
        | (w, None) => converge_prs project existingByPR sourceEnv botPR multiRepo repo prs openPEs w
        end
  end.

(** The open pull requests of a repository, [None] when they cannot be listed. *)
Definition open_prs (factory : GitProvider → string → error + (string → W → W * (error + list PullRequestSnapshot)))
    (controlNs repo providerRef : string) : E W (option (list PullRequestSnapshot)) := λ w,
  if String.eqb providerRef "" then (w, inr None)
  else
    match kget (Obj := GitProvider) ("", providerRef) w with
    | (w, inl err) => if IsNotFound err then (w, inr None) else (w, inl (Wrapf "get GitProvider %q: %w" [providerRef] err))
    | (w, inr gp) =>
      match ResolveGitTokenForApp providerRef controlNs "" "" w with
      | (w, inl _) => (w, inr None)
      | (w, inr token) =>
        match factory gp (tr_result_Token token) with
        | inl _ => (w, inr None)
        | inr ListOpenPullRequests =>
          match ListOpenPullRequests repo w with
          | (w, inl _) => (w, inr None)
          | (w, inr prs) => (w, inr (Some prs))
          end
        end
      end
    end.

Fixpoint converge_repos (factory : GitProvider → string → error + (string → W → W * (error + list PullRequestSnapshot)))
    (project : Project) (existingByPR : gmap string PreviewEnvironment) (sourceEnv : string) (botPR multiRepo : bool)
    (repos : list (string * string)) (openPEs protectedPEs : gset string) : E W (gset string * gset string) :=
  match repos with
  | [] => mret (openPEs, protectedPEs)
  | (repo, providerRef) :: repos =>
    prs ← open_prs factory (ControlNamespace (project_name project)) repo providerRef;
    match prs with
    | None =>
      converge_repos factory project existingByPR sourceEnv botPR multiRepo repos openPEs
        (protectRepoPreviewEnvironments protectedPEs existingByPR repo multiRepo)
    | Some prs =>
      openPEs ← converge_prs project existingByPR sourceEnv botPR multiRepo repo prs openPEs;
      converge_repos factory project existingByPR sourceEnv botPR multiRepo repos openPEs protectedPEs
    end
  end.

Definition previews_enabled (project : Project) : bool :=
  match ProjectSpec_Preview (Project_Spec project) with Some preview => PreviewConfig_Enabled preview | None => false end.

(** A pull request of a bot counts unless the project says otherwise. *)
Definition counts_bots (project : Project) : bool :=
  match ProjectSpec_Preview (Project_Spec project) with
  | Some preview => default true (PreviewConfig_BotPR preview)
  | None => true
  end.

Definition ConvergeProjectPreviews (project : Project) : E W unit :=
  let controlNs := ControlNamespace (project_name project) in
  if negb (previews_enabled project) then
    existingByPR ← listProjectPreviews controlNs;
    run (deleteStalePreviews existingByPR ∅ ∅)
  else
    match GitAPIFactory with
    | None => mret tt
    | Some factory =>
      apps ← wrapping "list apps: %w" [] (klist_in (Obj := App) controlNs ∅);
      let repos := unique_repos ∅ apps in
      existingByPR ← listProjectPreviews controlNs;
      res ← converge_repos factory project existingByPR (resolveSourceEnvFromProject project) (counts_bots project)
              (1 <? length repos)%nat repos ∅ ∅;
      run (deleteStalePreviews existingByPR res.1 res.2)
    end.

Definition reconcileProjectConvergence (name : string) : E W Result := λ w,
  match kget (Obj := Project) ("", name) w with
  | (w, inl err) => if IsNotFound err then (w, inr Done) else (w, inl err)
  | (w, inr project) => (_ ← ConvergeProjectPreviews project; mret {| RequeueAfter := 10 * Minute |}) w
  end.

(** *** Events *)

Definition enqueuePreviewsFromApp (app : App) (w : W) : W * list NamespacedName :=
  match klist_in (Obj := PreviewEnvironment) (meta_Namespace (App_ObjectMeta app)) ∅ w with
  | (w, inl _) => (w, [])
  | (w, inr l) => (w, obj_key <$> l)
  end.

Definition enqueuePreviewsFromSecret (secret : Secret) (w : W) : W * list NamespacedName :=
  let projectName := map_get (meta_Labels (sec_meta secret)) ProjectLabel in
  let envName := map_get (meta_Labels (sec_meta secret)) EnvironmentLabel in
  if String.eqb projectName "" || String.eqb envName "" || negb (has_prefix "pr-" envName) then (w, [])
  else
    match klist_in (Obj := PreviewEnvironment) (ControlNamespace projectName) ∅ w with
    | (w, inl _) => (w, [])
    | (w, inr l) => (w, obj_key <$> List.filter (λ pe, String.eqb (pe_env pe) envName) l)
    end.
End controller.
