(* ===== verification/PreviewFacts.v ===== *)
(** * The preview environment controller: what it touches, and the convergence

    Whatever others write meanwhile, the controller changes the one environment of its
    preview in the project and in the apps, puts Secrets into its namespace only, and
    deletes that namespace only when the preview goes.  Without other writers the
    convergence leaves the previews of the open pull requests. *)

From S2P Require Import Prelude GoStrings GoTime Kube Core Api KubeStatus Effects Controller Constants BuildRun AppBuild EnvStore ApiServer GitTokens ProjectReconcile ApiProjectEnvs WebhookEvents PreviewReconcile.

(** ** Edits of one environment *)

Definition others {A} (found : A → bool) (l : list A) : list A := List.filter (λ x, negb (found x)) l.

Lemma others_edit {A} (found : A → bool) f l :
  (∀ x, found x = true → found (f x) = true) → others found (edit_first found f l) = others found l.
Proof.
  intros Hf. unfold others. induction l as [|x l IH]; [done|]. simpl. destruct (found x) eqn:E; simpl.
  - by rewrite (Hf x E).
  - by rewrite E, IH.
Qed.

Lemma others_without {A} (found : A → bool) l : others found (without_first found l) = others found l.
Proof.
  unfold others. induction l as [|x l IH]; [done|]. simpl. destruct (found x) eqn:E; simpl; [done|]. by rewrite E, IH.
Qed.

Lemma others_app {A} (found : A → bool) l x : found x = true → others found (l ++ [x]) = others found l.
Proof. intros Hx. unfold others. rewrite List.filter_app. simpl. rewrite Hx. apply app_nil_r. Qed.

(** The project with other entries of one environment. *)
Definition only_env (envName : string) (p q : Project) : Prop :=
  ∃ l, q = on_envs (λ _, l) p ∧ others (env_is envName) l = others (env_is envName) (project_envs p).

Definition only_override (envName : string) (a b : App) : Prop :=
  ∃ l, b = on_app_envs (λ _, l) a ∧
    others (override_is envName) l = others (override_is envName) (AppSpec_Environments (App_Spec a)).

Lemma declared_edit envName f l :
  (∀ x, ProjectEnvironment_Name (f x) = ProjectEnvironment_Name x) →
  declared envName (edit_first (env_is envName) f l) = declared envName l.
Proof.
  intros Hf. unfold declared. induction l as [|x l IH]; [done|]. simpl. unfold env_is at 1.
  destruct (String.eqb _ _) eqn:E; simpl; [by rewrite Hf, E|by rewrite E, IH].
Qed.

Lemma with_preview_env_spec envName p q :
  with_preview_env envName p = Some q → only_env envName p q ∧ declared envName (project_envs q) = true.
Proof.
  unfold with_preview_env. destruct (List.find _ _) as [e|] eqn:Ef.
  - destruct (ProjectEnvironment_Preview e); [done|]. intros [= <-]. split.
    + eexists. split; [done|]. by apply others_edit.
    + unfold project_envs, on_envs. simpl. rewrite declared_edit by done. apply List.find_some in Ef as [Hin He].
      unfold declared. apply existsb_elem. exists e. split; [by apply list_elem_of_In|done].
  - intros [= <-]. split.
    + eexists. split; [done|]. apply others_app. unfold env_is. simpl. apply String.eqb_refl.
    + unfold project_envs, on_envs, declared. simpl. rewrite existsb_app. simpl. by rewrite String.eqb_refl, !orb_true_r.
Qed.

Lemma without_preview_env_spec envName p q : without_preview_env envName p = Some q → only_env envName p q.
Proof.
  unfold without_preview_env. destruct (declared _ _); [|done]. intros [= <-]. eexists. split; [done|]. apply others_without.
Qed.

Lemma with_override_spec sourceEnv envName pe a b :
  with_preview_override sourceEnv envName pe a = Some b → only_override envName a b.
Proof.
  unfold with_preview_override. destruct (List.find _ _) as [e|] eqn:Ef.
  - destruct (_ || _); [done|]. intros [= <-]. eexists. split; [done|]. by apply others_edit.
  - intros [= <-]. eexists. split; [done|]. apply others_app. unfold override_is.
    assert (∀ x, Environment_Name (cloneEnvironment sourceEnv envName x) = envName) as H.
    { intros x. unfold cloneEnvironment. cbv zeta. destruct (List.find (override_is sourceEnv) _); reflexivity. }
    destruct (_ && _); simpl; rewrite H; apply String.eqb_refl.
Qed.

Lemma without_override_spec envName a b : without_override envName a = Some b → only_override envName a b.
Proof.
  unfold without_override. destruct (existsb _ _); [|done]. intros [= <-]. eexists. split; [done|]. apply others_without.
Qed.

Lemma find_edit_first {A} (found : A → bool) f l x :
  (∀ y, found y = true → found (f y) = true) → List.find found l = Some x →
  List.find found (edit_first found f l) = Some (f x).
Proof.
  intros Hf. induction l as [|y l IH]; [done|]. simpl. destruct (found y) eqn:E.
  - intros [= <-]. simpl. by rewrite (Hf y E).
  - intros H. simpl. rewrite E. by apply IH.
Qed.

Lemma find_app_last {A} (found : A → bool) l x :
  List.find found l = None → found x = true → List.find found (l ++ [x]) = Some x.
Proof.
  intros Hl Hx. induction l as [|y l IH]; simpl in *; [by rewrite Hx|]. destruct (found y); [done|]. by apply IH.
Qed.

Lemma clone_name sourceEnv envName app : Environment_Name (cloneEnvironment sourceEnv envName app) = envName.
Proof. unfold cloneEnvironment. cbv zeta. destruct (List.find (override_is sourceEnv) _); reflexivity. Qed.

(** The app after a pass of a preview. *)
Definition passed (sourceEnv envName : string) (pe : PreviewEnvironment) (app : App) : App :=
  default app (with_preview_override sourceEnv envName pe app).

Lemma passed_override sourceEnv envName pe app :
  previewTargetsAppRepo pe app = true →
  ∃ e, List.find (override_is envName) (AppSpec_Environments (App_Spec (passed sourceEnv envName pe app))) = Some e ∧
    Environment_Branch e = PullRequestRef_Branch (pe_pr pe) ∧ BuildRun.app_source (passed sourceEnv envName pe app) = BuildRun.app_source app.
Proof.
  intros Ht. unfold passed, with_preview_override. cbv zeta.
  destruct (List.find (override_is envName) (AppSpec_Environments (App_Spec app))) as [e|] eqn:Ef.
  - rewrite Ht. cbn [negb orb]. destruct (String.eqb_spec (Environment_Branch e) (PullRequestRef_Branch (pe_pr pe))) as [E|E].
    + exists e. by split_and!.
    + eexists. split; [by apply (find_edit_first (override_is envName) (with_Environment_Branch _)); [|exact Ef]|by split].
  - assert (String.eqb (AppSource_Type (BuildRun.app_source app)) SourceTypeGit = true) as ->.
    { revert Ht. unfold previewTargetsAppRepo. cbv zeta. by destruct (String.eqb (AppSource_Type _) _). }
    rewrite Ht. cbn [andb]. eexists. split; [apply find_app_last; [exact Ef|]|by split].
    unfold override_is. rewrite <-(clone_name sourceEnv envName app) at 2. apply String.eqb_refl.
Qed.

(** C35: Two previews of equal number in different repositories share an environment, and
    every change of an app has all previews reconciled.  After one pass of the preview
    whose repository the app has, neither it nor the other one writes the app again. *)
Theorem overrides_settle source1 source2 envName pe1 pe2 app :
  previewTargetsAppRepo pe1 app = true → previewTargetsAppRepo pe2 app = false →
  with_preview_override source1 envName pe1 (passed source1 envName pe1 app) = None ∧
  with_preview_override source2 envName pe2 (passed source1 envName pe1 app) = None.
Proof.
  intros H1 H2. destruct (passed_override source1 envName pe1 app H1) as (e & He & Hb & Hs).
  assert (∀ pe, previewTargetsAppRepo pe (passed source1 envName pe1 app) = previewTargetsAppRepo pe app) as Ht.
  { intros pe. unfold previewTargetsAppRepo. by rewrite Hs. }
  unfold with_preview_override. cbv zeta. rewrite He, !Ht, H1, H2. cbn [negb orb]. by rewrite Hb, String.eqb_refl.
Qed.

(** The convergence and the webhook receiver take the same environment to clone. *)
Lemma source_envs_agree project : resolveSourceEnvFromProject project = resolveSourceEnv project.
Proof.
  assert (∀ envs first, first_non_prod first envs = source_env_loop first envs) as H.
  { induction envs as [|env envs IH]; intros first; [done|]. simpl. destruct (ProjectEnvironment_Preview env); [apply IH|].
    destruct (String.eqb _ "staging"); [done|]. destruct (_ && _); apply IH. }
  unfold resolveSourceEnvFromProject, resolveSourceEnv. cbv zeta. destruct (ProjectSpec_Preview _); [|apply H].
  destruct (negb _); [done|apply H].
Qed.

(** ** What a reconciliation touches *)

Section moves.
Context {W : Type} {CE : KubeClient W PreviewEnvironment} {SE : KubeStatus W PreviewEnvironment}
  {LE : KubeListIn W PreviewEnvironment} {CP : KubeClient W Project} {CA : KubeClient W App} {LA : KubeListIn W App}
  {CS : KubeClient W Secret} {CN : KubeClient W Namespace} {DN : KubeDelete W Namespace} {CB : KubeClient W BuildRun}
  {CR : KubeRetry W} {RO : KubeRetryOk W} {CH : ConditionHelpers} {FH : FinalizerHelpers}.
Context {OE : KubeClientOk W PreviewEnvironment} {OP : KubeClientOk W Project} {OA : KubeClientOk W App}
  {OS : KubeClientOk W Secret} {ON : KubeClientOk W Namespace}.
Context (now : W → Time).

Definition preview_namespace (pe : PreviewEnvironment) : string := EnvNamespace (pe_project pe) (pe_env pe).

(** Moves of a world that a reconciliation of the preview, and everybody else between its
    calls, stays within. *)
Class PreviewMoves (key : NamespacedName) (I : relation W) : Prop := {
  pv_preorder :: PreOrder I;
  pv_hist w w' : I w w' →
    khist (Obj := PreviewEnvironment) w w' ∧ khist (Obj := Project) w w' ∧ khist (Obj := App) w w' ∧
    khist (Obj := Secret) w w' ∧ khist (Obj := Namespace) w w';
  (** Reads, and the preview itself. *)
  pv_previews :: KubeWithin W PreviewEnvironment I;
  pv_previews_status :: KubeStatusWithin W PreviewEnvironment I;
  pv_previews_list :: ListReads W PreviewEnvironment I;
  pv_projects :: KubeReads W Project I;
  pv_apps :: KubeReads W App I;
  pv_apps_list :: ListReads W App I;
  pv_secrets :: KubeReads W Secret I;
  pv_namespaces :: KubeReads W Namespace I;
  pv_buildruns :: KubeReads W BuildRun I;
  (** One environment of the project and of its apps; while the preview lives it stays declared. *)
  pv_project pe (p q : Project) w :
    read_ok key pe w → read_ok ("", pe_project pe) p w → only_env (pe_env pe) p q →
    (deleting (PreviewEnvironment_ObjectMeta pe) = false → declared (pe_env pe) (project_envs q) = true) →
    I w (kupdate q w).1;
  pv_app pe (a b : App) w :
    read_ok key pe w → read_ok (obj_key a) a w → only_override (pe_env pe) a b → I w (kupdate b w).1;
  (** Secrets of its namespace, where there is none or an empty one. *)
  pv_secret_create pe (s : Secret) w :
    read_ok key pe w → deleting (PreviewEnvironment_ObjectMeta pe) = false →
    meta_Namespace (sec_meta s) = preview_namespace pe → I w (kcreate s w).1;
  pv_secret_update pe (s s' : Secret) w :
    read_ok key pe w → deleting (PreviewEnvironment_ObjectMeta pe) = false → read_ok (obj_key s) s w →
    sec_Data s = ∅ → obj_key s' = obj_key s → meta_Namespace (sec_meta s) = preview_namespace pe → I w (kupdate s' w).1;
  (** Its namespace, when it goes. *)
  pv_delete pe (ns : Namespace) w :
    read_ok key pe w → deleting (PreviewEnvironment_ObjectMeta pe) = true →
    read_ok (obj_key ns) ns w → obj_key ns = ("", preview_namespace pe) →
    previewNamespaceOwnedByProject ns (pe_project pe) = true → I w (kdelete Namespace (obj_key ns) w).1;
}.

Context (key : NamespacedName) (I : relation W) {M : PreviewMoves key I}.

(** The preview that was read. *)
Definition read_preview (pe : PreviewEnvironment) (w : W) : Prop := read_ok key pe w.

Lemma read_preview_stable pe w w' : I w w' → read_preview pe w → read_preview pe w'.
Proof. intros H (w0 & H0 & Hs). exists w0. split; [|done]. etrans; [done|by apply (pv_hist (I := I))]. Qed.

Lemma edit_within {Obj} {O : KubeObject Obj} {C : KubeClient W Obj} {OK : KubeClientOk W Obj} {KR : KubeReads W Obj I}
    pe missing (edit : Obj → option Obj) k :
  (∀ o new w, read_preview pe w → read_ok k o w → edit o = Some new → I w (kupdate new w).1) →
  within I (read_preview pe) (run (edit_retried (W := W) missing edit k)) (λ _ _, True).
Proof.
  intros He. apply within_run. unfold edit_retried. intros w Hp. rewrite retry_on_conflict_spec.
  apply (within_retry I _ (read_preview pe)); [apply read_preview_stable| |exact Hp]. clear w Hp. intros w Hp.
  pose proof (kget_reads (I := I) (Obj := Obj) k w) as Hg. destruct (kget k w) as [w1 [err|o]] eqn:Eg; [by destruct (IsNotFound err)|].
  destruct (edit o) as [new|] eqn:En; [|done]. etrans; [exact Hg|]. apply (He o); [by eapply read_preview_stable| |done].
  by eapply kget_reader_ok.
Qed.

Lemma status_update_keeps pe mutate : keeps I (run (updateStatus (W := W) now pe mutate)).
Proof.
  apply keeps_run. intros w. unfold updateStatus. rewrite retry_on_conflict_spec. apply keeps_retry; [apply _|].
  intros w1. pose proof (kget_within (I := I) (Obj := PreviewEnvironment) (obj_key pe) w1) as Hg.
  destruct (kget (obj_key pe) w1) as [w2 [err|fresh]]; [done|]. etrans; [exact Hg|apply kstatus_within].
Qed.

(** *** The project and the apps *)

Lemma project_env_within pe :
  deleting (PreviewEnvironment_ObjectMeta pe) = false →
  within I (read_preview pe) (run (ensureProjectEnv (W := W) (pe_project pe) (pe_env pe))) (λ _ _, True).
Proof.
  intros Hd. apply edit_within. intros p q w Hp Hr [Ho Hq]%with_preview_env_spec. by apply (pv_project (I := I) pe p q).
Qed.

Lemma project_env_removed_within pe :
  deleting (PreviewEnvironment_ObjectMeta pe) = true →
  within I (read_preview pe) (run (removeProjectEnv (W := W) (pe_project pe) (pe_env pe))) (λ _ _, True).
Proof.
  intros Hd. apply edit_within. intros p q w Hp Hr Ho%without_preview_env_spec. apply (pv_project (I := I) pe p q); [done..|].
  by rewrite Hd.
Qed.

Lemma read_at_key {Obj} {O : KubeObject Obj} {C : KubeClient W Obj} {OK : KubeClientOk W Obj} k (o : Obj) (w : W) :
  read_ok k o w → read_ok (obj_key o) o w ∧ obj_key o = k.
Proof. intros (w0 & H & Hk). pose proof (kstore_key _ _ _ Hk) as E. split; [exists w0; by rewrite E|done]. Qed.

Lemma override_within pe app sourceEnv :
  within I (read_preview pe) (run (ensureAppEnvOverride (W := W) app sourceEnv (pe_env pe) pe)) (λ _ _, True).
Proof.
  apply edit_within. intros a b w Hp [Hr _]%read_at_key Ho%with_override_spec. by apply (pv_app (I := I) pe a b).
Qed.

Lemma override_removed_within pe app :
  within I (read_preview pe) (run (removeAppEnvOverride (W := W) app (pe_env pe))) (λ _ _, True).
Proof.
  apply edit_within. intros a b w Hp [Hr _]%read_at_key Ho%without_override_spec. by apply (pv_app (I := I) pe a b).
Qed.

(** *** Secrets *)

Definition fills (pe : PreviewEnvironment) (f : W → W * option copy_error) : Prop :=
  ∀ w, read_preview pe w → I w (f w).1.

Lemma copy_secret_fills pe secretName labels source existing :
  deleting (PreviewEnvironment_ObjectMeta pe) = false →
  (∀ s w, read_preview pe w → read_ok (preview_namespace pe, secretName) s w → I w (existing s w).1) →
  fills pe (copy_secret (preview_namespace pe) secretName labels source existing).
Proof.
  intros Hd He w Hp. unfold copy_secret. set (k := (_, _)). pose proof (kget_reads (I := I) (Obj := Secret) k w) as Hg.
  destruct (kget k w) as [w1 [err|s]] eqn:Eg; cbn [fst] in Hg.
  - destruct (IsNotFound err); [|done]. set (copy := secret_copy _ _ _ _).
    assert (I w1 (kcreate copy w1).1) as Hc by (apply (pv_secret_create (I := I) pe); [by eapply read_preview_stable|done|done]).
    destruct (kcreate copy w1) as [w2 [e|]]; cbn [fst] in *; by etrans.
  - assert (I w1 (existing s w1).1) as Hx.
    { apply He; [by eapply read_preview_stable|]. by eapply kget_reader_ok. }
    destruct (existing s w1) as [w2 err]. by etrans.
Qed.

Lemma copy_source_fills pe sourceNs secretName copy :
  (∀ source, fills pe (copy source)) →
  fills pe (copy_source sourceNs (preview_namespace pe) secretName (pe_project pe) (pe_env pe) copy).
Proof.
  intros Hc w Hp. unfold copy_source. pose proof (kget_reads (I := I) (Obj := Secret) (sourceNs, secretName) w) as Hg.
  destruct (kget (sourceNs, secretName) w) as [w1 [err|source]]; cbn [fst] in Hg; [done|].
  unfold ensurePreviewNamespaceReady.
  pose proof (kget_reads (I := I) (Obj := Namespace) ("", preview_namespace pe) w1) as Hn.
  destruct (kget ("", preview_namespace pe) w1) as [w2 [err|ns]]; cbn [fst] in *; [by etrans|].
  etrans; [exact Hg|]. etrans; [exact Hn|]. apply Hc. by eapply read_preview_stable, read_preview_stable.
Qed.

Lemma copied_within pe previewNs f :
  fills pe f → within I (read_preview pe) (copied now previewNs f) (λ _ _, True).
Proof.
  intros Hf w Hp. specialize (Hf w Hp). unfold copied. destruct (f w) as [w1 [[|err]|]]; cbn [fst] in *; try done.
  unfold forbiddenFastRequeue. destruct (negb _); [done|].
  pose proof (kget_reads (I := I) (Obj := Namespace) ("", previewNs) w1) as Hg.
  destruct (kget ("", previewNs) w1) as [w2 [e|ns]]; cbn [fst] in *; (split; [|done]);
    case_match; by etrans.
Qed.

Lemma shared_within pe previewNs sourceEnv :
  deleting (PreviewEnvironment_ObjectMeta pe) = false →
  within I (read_preview pe) (copied now previewNs (copySharedEnvSecret (pe_project pe) sourceEnv (pe_env pe))) (λ _ _, True).
Proof.
  intros Hd. apply copied_within, copy_source_fills. intros source. apply copy_secret_fills; [done|]. by intros s w _ _.
Qed.

Lemma app_copy_within pe previewNs sourceEnv appName :
  deleting (PreviewEnvironment_ObjectMeta pe) = false →
  within I (read_preview pe) (copied now previewNs (copyAppEnvSecret (pe_project pe) sourceEnv (pe_env pe) appName)) (λ _ _, True).
Proof.
  intros Hd. apply copied_within, copy_source_fills. intros source. apply copy_secret_fills; [done|].
  intros s w Hp [Hs Hk]%read_at_key. case_bool_decide as He; [|done]. cbn [negb].
  apply (pv_secret_update (I := I) pe s); try done. unfold obj_key in Hk. by injection Hk.
Qed.

(** *** Cleanup and the rest *)

Lemma delete_within pe :
  deleting (PreviewEnvironment_ObjectMeta pe) = true →
  within I (read_preview pe) (run (deletePreviewNamespace (W := W) (pe_project pe) (pe_env pe))) (λ _ _, True).
Proof.
  intros Hd. apply within_run. intros w Hp. unfold deletePreviewNamespace. cbv zeta. set (k := (_, _)).
  pose proof (kget_reads (I := I) (Obj := Namespace) k w) as Hg.
  destruct (kget k w) as [w1 [err|ns]] eqn:Eg; cbn [fst] in Hg; [done|].
  destruct (previewNamespaceOwnedByProject ns (pe_project pe)) eqn:Eo; [|done]. cbn [negb].
  destruct (deleting (ns_meta ns)); [done|]. apply kget_reader_ok in Eg as [_ Hr].
  destruct (read_at_key _ _ _ (Hr ns eq_refl)) as [Hn Hk].
  assert (I w1 (kdelete Namespace (obj_key ns) w1).1) as Hx.
  { apply (pv_delete (I := I) pe); [by eapply read_preview_stable|done|done|done|done]. }
  destruct (kdelete Namespace _ w1) as [w2 [e|]]; cbn [fst] in *; by etrans.
Qed.

Lemma list_keeps_preview {Obj} {L : KubeListIn W Obj} {LR : ListReads W Obj I} ns : keeps I (klist_in (Obj := Obj) ns ∅).
Proof. intros w. apply klist_reads. Qed.

Lemma then_within {A B} pe (m : E W A) (k : A → E W B) :
  within I (read_preview pe) m (λ _ _, True) → (∀ a, within I (read_preview pe) (k a) (λ _ _, True)) →
  within I (read_preview pe) (m ≫= k) (λ _ _, True).
Proof.
  intros Hm Hk. apply (within_bind I _ _ (λ _, read_preview pe)); [|exact Hk].
  intros w Hp. destruct (Hm w Hp) as [H _]. split; [done|]. intros a _. by eapply read_preview_stable.
Qed.

Lemma keeps_pre {A} P (m : E W A) : keeps I m → within I P m (λ _ _, True).
Proof. intros Hm w _. split; [apply Hm|done]. Qed.

Lemma wrapped_within {A} fmt args P (m : E W A) : within I P m (λ _ _, True) → within I P (wrapping fmt args m) (λ _ _, True).
Proof. intros Hm w Hp. destruct (Hm w Hp) as [H _]. unfold wrapping. by destruct (m w) as [w1 [err|a]]. Qed.

Lemma cleanup_within pe :
  deleting (PreviewEnvironment_ObjectMeta pe) = true →
  within I (read_preview pe) (cleanupPreview pe (pe_project pe) (pe_env pe)) (λ _ _, True).
Proof.
  intros Hd. unfold cleanupPreview. apply then_within.
  { apply keeps_pre. unfold envInUseByAnotherPreview. apply keeps_bind; [apply _|apply list_keeps_preview|].
    intros l. apply keeps_ret; apply _. }
  intros []; [by apply within_ret; try apply _|].
  apply then_within; [by apply project_env_removed_within|intros _].
  apply then_within; [apply keeps_pre, list_keeps_preview|intros apps].
  apply then_within; [|intros _; by apply delete_within].
  apply within_for_each; [apply _|apply read_preview_stable|]. intros app _. apply override_removed_within.
Qed.

Lemma failure_keeps apps envName : keeps I (previewBuildFailure (W := W) apps envName).
Proof.
  induction apps as [|app apps IH]; [by apply keeps_ret; try apply _|]. cbn [previewBuildFailure].
  destruct (envStatusFor app envName) as [es|]; [|exact IH].
  destruct (EnvironmentStatus_CurrentBuildRunRef es) as [ref|]; [|exact IH].
  destruct (negb _); [exact IH|]. destruct (String.eqb _ ""); [by apply keeps_ret; try apply _|]. intros w.
  set (k := (_, _)). pose proof (kget_reads (I := I) (Obj := BuildRun) k w) as Hg.
  destruct (kget k w) as [w1 [err|run]]; cbn [fst] in Hg; [by destruct (IsNotFound err)|].
  destruct (String.eqb _ "BuildInterrupted"); [|done]. etrans; [exact Hg|apply IH].
Qed.

Lemma copy_apps_within pe previewNs sourceEnv apps :
  deleting (PreviewEnvironment_ObjectMeta pe) = false →
  within I (read_preview pe) (copy_apps now previewNs (pe_project pe) sourceEnv (pe_env pe) apps) (λ _ _, True).
Proof.
  intros Hd. induction apps as [|app apps IH]; [by apply within_ret; try apply _|]. cbn [copy_apps].
  apply then_within; [by apply app_copy_within|]. intros [res|]; [by apply within_ret; try apply _|exact IH].
Qed.

Lemma provide_within pe :
  deleting (PreviewEnvironment_ObjectMeta pe) = false → within I (read_preview pe) (provide now pe) (λ _ _, True).
Proof.
  intros Hd. unfold provide. cbv zeta. apply then_within; [by apply wrapped_within, project_env_within|intros _].
  apply then_within; [apply wrapped_within, keeps_pre, list_keeps_preview|intros apps].
  apply then_within; [apply within_for_each; [apply _|apply read_preview_stable|intros app _; apply override_within]|intros _].
  unfold furnish. cbv zeta. apply then_within; [by apply shared_within|].
  intros [res|]; [by apply within_ret; try apply _|]. apply then_within; [by apply copy_apps_within|].
  intros [res|]; [by apply within_ret; try apply _|].
  apply then_within; [apply wrapped_within, keeps_pre, failure_keeps|]. intros failed.
  apply then_within; [|intros _; by apply within_ret; try apply _]. apply keeps_pre.
  destruct failed as [[reason msg]|]; apply status_update_keeps.
Qed.

Lemma maintain_within pe :
  deleting (PreviewEnvironment_ObjectMeta pe) = false → within I (read_preview pe) (maintain now pe) (λ _ _, True).
Proof.
  intros Hd w Hp. unfold maintain. cbv zeta.
  assert (∀ reason msg, keeps I (_ ← setFailed now pe reason msg; mret Done)) as Hf.
  { intros reason msg. apply keeps_bind; [apply _|apply status_update_keeps|]. intros _. apply keeps_ret; apply _. }
  pose proof (kget_reads (I := I) (Obj := Project) ("", pe_project pe) w) as Hg.
  destruct (kget ("", pe_project pe) w) as [w1 [err|project]]; cbn [fst] in Hg.
  - destruct (IsNotFound err); [|done]. split; [|done]. etrans; [exact Hg|apply Hf].
  - destruct (refused_preview _ _ _) as [[reason msg]|]; [split; [etrans; [exact Hg|apply Hf]|done]|].
    destruct (provide_within pe Hd w1) as [H _]; [by eapply read_preview_stable|]. split; [by etrans|done].
Qed.

Lemma reconcile_preview_within pe : within I (read_preview pe) (reconcile_preview now pe) (λ _ _, True).
Proof.
  unfold reconcile_preview. cbv zeta. destruct (deleting _) eqn:Ed.
  - unfold teardown_preview. cbv zeta. destruct (ContainsFinalizer _ _); [|by apply within_ret; try apply _].
    apply then_within; [by apply wrapped_within, cleanup_within|intros _].
    apply then_within; [apply keeps_pre, keeps_run; intros w; apply kupdate_within|intros _].
    by apply within_ret; try apply _.
  - destruct (ContainsFinalizer _ _); [by apply maintain_within|].
    apply then_within; [apply keeps_pre, keeps_run; intros w; apply kupdate_within|intros _]. by apply maintain_within.
Qed.

(** C12: Whatever others write between its calls, and however stale its reads are, the
    reconciliation of a preview changes nothing of the project and of the apps but their
    entries for the environment of the preview, which stays declared while the preview
    lives; it creates Secrets in the namespace of the preview only and overwrites empty
    ones only; and it deletes no other namespace, and that one only if the preview is
    being deleted and the namespace is the project's. *)
Theorem preview_touches_own (w : W) : I w (Reconcile now key w).1.
Proof.
  unfold Reconcile. pose proof (kget_within (I := I) (Obj := PreviewEnvironment) key w) as Hg.
  destruct (kget key w) as [w1 [err|pe]] eqn:Eg; cbn [fst] in Hg; [by destruct (IsNotFound err)|].
  etrans; [exact Hg|]. apply (reconcile_preview_within pe). by eapply kget_reader_ok.
Qed.
End moves.
