(* ===== verification/PreviewConverges.v ===== *)
(** * The convergence of previews: what it comes to

    Without other writers a convergence that ends leaves, of the previews of a project,
    those named for open pull requests, those named for repositories that could not be
    asked, and those that are young, and has created the missing ones. *)

From S2P Require Import Prelude GoStrings GoTime Kube Core Api KubeStatus Effects Controller Constants BuildRun AppBuild EnvStore ApiServer GitTokens ProjectReconcile ApiProjectEnvs PreviewReconcile.

Abbreviation previews := (gmap NamespacedName PreviewEnvironment) (only parsing).
Abbreviation listing := (option (list PullRequestSnapshot)) (only parsing).

(** ** Specification *)

Section spec.
Context (project : Project) (multiRepo : bool).

Definition counted (pr : PullRequestSnapshot) : bool := counts_bots project || negb (pra_IsBot (prs_Author pr)).

(** The previews of the pull requests of one repository. *)
Definition named (repo : string) (pr : PullRequestSnapshot) : string * PreviewEnvironment :=
  let name := convergencePEName repo (prs_Number pr) multiRepo in
  (name, new_preview project (resolveSourceEnvFromProject project) repo name pr).
Definition repo_previews (repo : string) (prs : list PullRequestSnapshot) : list (string * PreviewEnvironment) :=
  named repo <$> List.filter counted prs.

(** The previews that the answers of the forges ask for, by name; the first one of a name
    counts. *)
Definition wanted_previews (answers : list (string * listing)) : gmap string PreviewEnvironment :=
  list_to_map (flat_map (λ a, repo_previews a.1 (default [] a.2)) answers).

(** The name is that of a preview of a repository that could not be asked.  It is told by
    its prefix, which only previews have that were named when the project had several
    repositories; with a single repository every name is. *)
Definition spared (answers : list (string * listing)) (name : string) : bool :=
  existsb (λ a, bool_decide (a.2 = None) && (negb multiRepo || has_prefix (convergencePEPrefix a.1 true) name)) answers.

Lemma spared_named answers repo n :
  (repo, None) ∈ answers → spared answers (convergencePEName repo n multiRepo) = true.
Proof.
  intros Hin. unfold spared. apply existsb_elem. exists (repo, None). split; [done|]. simpl.
  unfold convergencePEName, PreviewEnvironmentName. destruct multiRepo; [|done]. apply has_prefix_spec. by eexists.
Qed.

Definition aged (t : Time) (pe : PreviewEnvironment) : bool :=
  (convergenceGracePeriod <=? time_sub t (meta_CreationTimestamp (PreviewEnvironment_ObjectMeta pe)))%Z.

(** What becomes of a preview that is there. *)
Definition goes (t : Time) (open : gmap string PreviewEnvironment) (kept : string → bool) (name : string)
    (pe : PreviewEnvironment) : bool :=
  negb (bool_decide (is_Some (open !! name))) && negb (kept name) && aged t pe.

(** The previews before and after.  One that goes is gone, or marked until its controller lets
    it go. *)
Definition converged (t : Time) (open : gmap string PreviewEnvironment) (kept : string → bool) (E E' : previews) : Prop :=
  let controlNs := ControlNamespace (project_name project) in
  (∀ k, k.1 ≠ controlNs → E' !! k = E !! k) ∧
  ∀ name,
    match E !! (controlNs, name) with
    | Some pe => if goes t open kept name pe then asked_to_go (Some pe) (E' !! (controlNs, name))
                 else E' !! (controlNs, name) = Some pe
    | None =>
      match open !! name with
      | Some new => if String.eqb (resolveSourceEnvFromProject project) "" then E' !! (controlNs, name) = None
                    else ∃ rv, E' !! (controlNs, name) = Some (obj_with_rv rv new)
      | None => E' !! (controlNs, name) = None
      end
    end.

(** The store while previews are created for [done]. *)
Definition created_for (open : gmap string PreviewEnvironment) (E E' : previews) : Prop :=
  let controlNs := ControlNamespace (project_name project) in
  (∀ k, k.1 ≠ controlNs → E' !! k = E !! k) ∧
  ∀ name,
    match E !! (controlNs, name), open !! name with
    | None, Some new => if String.eqb (resolveSourceEnvFromProject project) "" then E' !! (controlNs, name) = None
                        else ∃ rv, E' !! (controlNs, name) = Some (obj_with_rv rv new)
    | _, _ => E' !! (controlNs, name) = E !! (controlNs, name)
    end.
End spec.

(** ** Indexing by name *)

Lemma index_lookup (l : list PreviewEnvironment) (m : gmap string PreviewEnvironment) name :
  NoDup (pe_name <$> l) →
  ∀ pe, fold_left (λ m pe, <[pe_name pe := pe]> m) l m !! name = Some pe ↔
    (pe ∈ l ∧ pe_name pe = name) ∨ ((name ∉ pe_name <$> l) ∧ m !! name = Some pe).
Proof.
  revert m. induction l as [|x l IH]; intros m Hnd pe; cbn [fold_left fmap list_fmap].
  { split; [intros H; right; split; [apply not_elem_of_nil|done]|]. intros [[H%elem_of_nil _]|[_ H]]; done. }
  apply NoDup_cons in Hnd as [Hx Hnd]. rewrite IH by done. rewrite !elem_of_cons.
  destruct (decide (pe_name x = name)) as [<-|Hne].
  - rewrite lookup_insert_eq. split; [intros [[? ?]|[? [= <-]]]; [left; by split; [right|]|left; by split; [left|]]|].
    intros [[[->|Hin] Hn]|[Hn _]]; [by right|by left|]. exfalso. apply Hn. by left.
  - rewrite lookup_insert_ne by done. naive_solver.
Qed.


(** ** Without other writers *)

Section quiet.
Context {W : Type} {CE : KubeClient W PreviewEnvironment} {LE : KubeListIn W PreviewEnvironment}
  {DE : KubeDelete W PreviewEnvironment} {LA : KubeListIn W App} {CS : KubeClient W Secret}
  {LM : KubeListIn W ProjectMember} {CG : KubeClient W GitProvider} (R : MapRange) {HR : MapRangeOk R}.
Context {OE : KubeClientOk W PreviewEnvironment} {LOE : KubeListOk W PreviewEnvironment} {DOE : KubeDeleteAsks W PreviewEnvironment}.
Context (now : W → Time) (t : Time) (Hnow : ∀ w, now w = t)
  (factory : GitProvider → string → error + (string → W → W * (error + list PullRequestSnapshot))).
(** Reads of other kinds and the forge leave the previews alone. *)
Context {EA : ListReads W App (unaffected PreviewEnvironment)} {ES : KubeReads W Secret (unaffected PreviewEnvironment)}
  {EM : ListReads W ProjectMember (unaffected PreviewEnvironment)} {EG : KubeReads W GitProvider (unaffected PreviewEnvironment)}
  (EF : ∀ gp token f repo w, factory gp token = inr f → unaffected PreviewEnvironment w (f repo w).1).

Definition stands (E : previews) (w : W) : Prop := kquiet (Obj := PreviewEnvironment) w ∧ kstore w = E.

Lemma stands_unaffected E w w' : unaffected PreviewEnvironment w w' → stands E w → stands E w'.
Proof. intros [Hs Hq] [H1 H2]. split; [by apply Hq|by rewrite Hs]. Qed.

(** *** Listing *)

Lemma list_previews_quiet controlNs E w :
  controlNs ≠ "" → stands E w →
  ∃ w' existing, listProjectPreviews controlNs w = (w', inr existing) ∧ stands E w' ∧
    ∀ name, existing !! name = E !! (controlNs, name).
Proof.
  intros Hne [Hq Hs]. destruct (klist_quiet (Obj := PreviewEnvironment) controlNs ∅ w Hq) as (w' & l & Hq' & Hs' & Hl & Hnd & Hin).
  unfold listProjectPreviews, mbind, E_bind, wrapping. rewrite Hl. eexists _, _. split; [done|]. split; [by split; [|rewrite Hs']|].
  assert (∀ pe, pe ∈ l → obj_key pe = (controlNs, pe_name pe)) as Hkey.
  { intros pe [Hsel _]%Hin. unfold selected in Hsel. rewrite (proj2 (String.eqb_neq _ _) Hne) in Hsel.
    apply andb_true_iff in Hsel as [Hns%String.eqb_eq _]. unfold obj_key. f_equal. exact Hns. }
  intros name. apply option_eq. intros pe. rewrite index_lookup.
  - rewrite lookup_empty. split.
    + intros [[Hpe <-]|[_ ?]]; [|done]. rewrite <-(Hkey pe Hpe), <-Hs. by apply Hin.
    + intros Hk. left. rewrite <-Hs in Hk. pose proof (kstore_key _ _ _ Hk) as Hkk. split; [|by injection Hkk].
      apply Hin. rewrite Hkk. split; [|done]. unfold selected. injection Hkk as Hns _.
      assert (meta_Namespace (obj_meta pe) = controlNs) as -> by exact Hns.
      rewrite String.eqb_refl, orb_true_r. simpl. apply bool_decide_eq_true. apply map_empty_subseteq.
  - clear -Hnd Hkey. induction l as [|x l IH]; [constructor|]. cbn [fmap list_fmap] in *. apply NoDup_cons in Hnd as [Hx Hnd].
    apply NoDup_cons. split.
    + intros (y & Hy & Hyl)%list_elem_of_fmap. apply Hx. apply list_elem_of_fmap. exists y. split; [|done].
      rewrite (Hkey x), (Hkey y) by (by left || by right). by rewrite Hy.
    + apply IH; [done|]. intros pe Hpe. apply Hkey. by right.
Qed.

(** *** Asking the forges *)

Lemma open_prs_quiet controlNs repo providerRef E w w' r :
  stands E w → open_prs factory controlNs repo providerRef w = (w', r) → stands E w'.
Proof.
  intros Hw. unfold open_prs. destruct (String.eqb providerRef ""); [by intros [= <- <-]|].
  pose proof (kget_reads (I := unaffected PreviewEnvironment) (Obj := GitProvider) ("", providerRef) w) as Hg.
  destruct (kget ("", providerRef) w) as [w1 [err|gp]]; cbn [fst] in Hg.
  { destruct (IsNotFound err); intros [= <- <-]; by eapply stands_unaffected. }
  assert (unaffected PreviewEnvironment w1 (ResolveGitTokenForApp providerRef controlNs "" "" w1).1) as Ht.
  { apply (token_reads (unaffected PreviewEnvironment)). }
  destruct (ResolveGitTokenForApp _ _ _ _ w1) as [w2 [err|token]]; cbn [fst] in Ht.
  { intros [= <- <-]. by eapply stands_unaffected, stands_unaffected. }
  destruct (factory gp (tr_result_Token token)) as [err|f] eqn:Ef.
  { intros [= <- <-]. by eapply stands_unaffected, stands_unaffected. }
  pose proof (EF gp (tr_result_Token token) f repo w2 Ef) as Hl. destruct (f repo w2) as [w3 [err|prs]]; cbn [fst] in Hl;
    intros [= <- <-]; by eapply stands_unaffected, stands_unaffected, stands_unaffected.
Qed.

(** *** Creating *)

Lemma snoc_lookup (l : list (string * PreviewEnvironment)) n new name :
  (list_to_map (l ++ [(n, new)]) : gmap string PreviewEnvironment) !! name =
  match (list_to_map l : gmap string PreviewEnvironment) !! name with
  | Some x => Some x
  | None => if decide (n = name) then Some new else None
  end.
Proof.
  rewrite list_to_map_app, lookup_union. destruct (list_to_map l !! name); [by rewrite union_Some_l|].
  rewrite (left_id None _). cbn. case_decide as H; [subst; by rewrite lookup_insert_eq|by rewrite lookup_insert_ne, lookup_empty].
Qed.

Section project.
Context (project : Project) (multiRepo : bool) (E : previews) (existing : gmap string PreviewEnvironment).
Local Abbreviation controlNs := (ControlNamespace (project_name project)).
Local Abbreviation sourceEnv := (resolveSourceEnvFromProject project).
Context (Hex : ∀ name, existing !! name = E !! (controlNs, name)).

Lemma created_skip l n new E1 :
  is_Some (E !! (controlNs, n)) ∨ sourceEnv = "" ∨ is_Some ((list_to_map l : gmap string PreviewEnvironment) !! n) →
  created_for project (list_to_map l) E E1 → created_for project (list_to_map (l ++ [(n, new)])) E E1.
Proof.
  intros Hn [Hoff Hc]. split; [exact Hoff|]. intros name. specialize (Hc name). rewrite snoc_lookup.
  destruct (E !! (controlNs, name)) eqn:Ek; [done|]. destruct (list_to_map l !! name) eqn:El; [done|].
  case_decide as H; [subst n|done]. destruct Hn as [[x Hx]|[->|[x Hx]]]; [congruence|done|congruence].
Qed.

Lemma created_new l n new rv E1 :
  E !! (controlNs, n) = None → sourceEnv ≠ "" → (list_to_map l : gmap string PreviewEnvironment) !! n = None →
  created_for project (list_to_map l) E E1 →
  created_for project (list_to_map (l ++ [(n, new)])) E (<[(controlNs, n) := obj_with_rv rv new]> E1).
Proof.
  intros Hn Hs Hl [Hoff Hc]. split.
  { intros k Hk. rewrite lookup_insert_ne; [by apply Hoff|]. intros <-. by apply Hk. }
  intros name. specialize (Hc name). rewrite snoc_lookup. destruct (decide (n = name)) as [<-|Hne].
  - rewrite Hn, Hl, (proj2 (String.eqb_neq _ _) Hs). exists rv. apply lookup_insert_eq.
  - rewrite lookup_insert_ne by congruence. destruct (E !! (controlNs, name)); [done|].
    by destruct (list_to_map l !! name).
Qed.

Lemma snoc_dom (l : list (string * PreviewEnvironment)) n new :
  ({[n]} ∪ dom (list_to_map l : gmap string PreviewEnvironment) : gset string) =
  dom (list_to_map (l ++ [(n, new)]) : gmap string PreviewEnvironment).
Proof.
  rewrite list_to_map_app, dom_union_L. cbn. rewrite dom_insert_L, dom_empty_L. set_solver.
Qed.

Lemma converge_prs_quiet repo prs l E1 w w' openPEs :
  stands E1 w → created_for project (list_to_map l) E E1 →
  converge_prs project existing sourceEnv (counts_bots project) multiRepo repo prs
    (dom (list_to_map l : gmap string PreviewEnvironment)) w = (w', inr openPEs) →
  ∃ E2, stands E2 w' ∧ created_for project (list_to_map (l ++ repo_previews project multiRepo repo prs)) E E2 ∧
    openPEs = dom (list_to_map (l ++ repo_previews project multiRepo repo prs) : gmap string PreviewEnvironment).
Proof.
  revert l E1 w. induction prs as [|pr prs IH]; intros l E1 w Hw Hc.
  { intros [= <- <-]. exists E1. by rewrite app_nil_r. }
  cbn [converge_prs]. unfold repo_previews. cbn [List.filter].
  assert (negb (counts_bots project) && pra_IsBot (prs_Author pr) = negb (counted project pr)) as ->.
  { unfold counted. by destruct (counts_bots project), (pra_IsBot _). }
  destruct (counted project pr); cbn [negb]; [|by apply (IH l E1)]. cbv zeta.
  set (n := convergencePEName repo (prs_Number pr) multiRepo).
  set (new := new_preview project sourceEnv repo n pr). cbn [fmap list_fmap].
  change (named project multiRepo repo pr) with (n, new). rewrite (snoc_dom l n new).
  assert (∀ r, l ++ (n, new) :: r = (l ++ [(n, new)]) ++ r) as Hsplit by (intros r; by rewrite <-app_assoc).
  fold (repo_previews project multiRepo repo prs). rewrite (Hsplit (repo_previews project multiRepo repo prs)).
  destruct (_ || _) eqn:Eskip.
  - apply (IH _ E1); [done|]. apply created_skip; [|done]. rewrite Hex in Eskip.
    apply orb_true_iff in Eskip as [H%bool_decide_eq_true|H%String.eqb_eq]; auto.
  - apply orb_false_iff in Eskip as [Hx%bool_decide_eq_false Hs%String.eqb_neq]. rewrite Hex in Hx.
    apply eq_None_not_Some in Hx. destruct Hw as [Hq Hst].
    destruct (E1 !! (controlNs, n)) as [cur|] eqn:Ecur.
    + destruct (kcreate_exists new w cur Hq) as (w1 & e & Hq1 & -> & -> & Hs1); [by rewrite Hst|].
      apply (IH _ E1); [by split; [|rewrite Hs1]|]. apply created_skip; [|done]. right. right.
      destruct Hc as [_ Hc]. specialize (Hc n). rewrite Hx in Hc. destruct (list_to_map l !! n); [done|congruence].
    + destruct (kcreate_quiet new w Hq) as (w1 & rv & Hq1 & -> & Hs1); [by rewrite Hst|].
      apply (IH _ (<[(controlNs, n) := obj_with_rv rv new]> E1)); [split; [done|by rewrite Hs1, Hst]|].
      apply created_new; [done|done| |done]. destruct Hc as [_ Hc]. specialize (Hc n). rewrite Hx in Hc.
      destruct (list_to_map l !! n); [|done]. rewrite (proj2 (String.eqb_neq _ _) Hs) in Hc. destruct Hc as [rv' Hc]. congruence.
Qed.

(** What a forge answered at some time of the pass. *)
Definition asked (rp : string * string) (a : string * listing) : Prop :=
  a.1 = rp.1 ∧ ∃ w1 w2, open_prs factory controlNs rp.1 rp.2 w1 = (w2, inr a.2).

Lemma spared_cons a answers name :
  spared multiRepo (a :: answers) name =
  (bool_decide (a.2 = None) && (negb multiRepo || has_prefix (convergencePEPrefix a.1 true) name)) || spared multiRepo answers name.
Proof. done. Qed.

Lemma protect_elem protectedPEs repo name :
  is_Some (existing !! name) →
  name ∈ protectRepoPreviewEnvironments protectedPEs existing repo multiRepo ↔
  name ∈ protectedPEs ∨ (negb multiRepo || has_prefix (convergencePEPrefix repo true) name) = true.
Proof.
  intros [pe Hpe]. unfold protectRepoPreviewEnvironments. destruct multiRepo; cbn [negb orb];
    rewrite elem_of_union, elem_of_dom.
  - split.
    + intros [?|[x [_ Hx]%map_lookup_filter_Some]]; [by left|by right].
    + intros [?|Hp]; [by left|right]. exists pe. by apply map_lookup_filter_Some.
  - split; [intros [?|_]; [by left|by right]|]. intros [?|_]; [by left|right; by exists pe].
Qed.

Lemma converge_repos_quiet repos l protectedPEs E1 w w' res :
  stands E1 w → created_for project (list_to_map l) E E1 →
  converge_repos factory project existing sourceEnv (counts_bots project) multiRepo repos
    (dom (list_to_map l : gmap string PreviewEnvironment)) protectedPEs w = (w', inr res) →
  ∃ answers E2, Forall2 asked repos answers ∧ stands E2 w' ∧
    let l' := l ++ flat_map (λ a, repo_previews project multiRepo a.1 (default [] a.2)) answers in
    created_for project (list_to_map l') E E2 ∧ res.1 = dom (list_to_map l' : gmap string PreviewEnvironment) ∧
    ∀ name, is_Some (existing !! name) → name ∈ res.2 ↔ name ∈ protectedPEs ∨ spared multiRepo answers name = true.
Proof.
  cbv zeta. revert l protectedPEs E1 w. induction repos as [|[repo providerRef] repos IH]; intros l protectedPEs E1 w Hw Hc.
  { intros [= <- <-]. exists [], E1. simpl. rewrite app_nil_r. split_and!; try done. intros name _. split; [by left|by intros [?|[=]]]. }
  cbn [converge_repos]. intros (w1 & answer & Ha & H)%bind_inr. pose proof (open_prs_quiet _ _ _ _ _ _ _ Hw Ha) as Hw1.
  assert (asked (repo, providerRef) (repo, answer)) as Hask by (split; [done|by exists w, w1]).
  destruct answer as [prs|].
  - apply bind_inr in H as (w2 & openPEs & Hp & H).
    destruct (converge_prs_quiet repo prs l E1 w1 w2 openPEs Hw1 Hc Hp) as (E2 & Hw2 & Hc2 & ->).
    destruct (IH _ _ _ _ Hw2 Hc2 H) as (answers & E3 & Hall & Hw3 & Hc3 & Hd & Hsp).
    exists ((repo, Some prs) :: answers), E3. cbn [flat_map]. rewrite app_assoc. split; [by constructor|].
    split; [done|]. split; [done|]. split; [done|]. intros name Hn. rewrite spared_cons. simpl. by apply Hsp.
  - destruct (IH _ _ _ _ Hw1 Hc H) as (answers & E3 & Hall & Hw3 & Hc3 & Hd & Hsp).
    exists ((repo, None) :: answers), E3. cbn [flat_map]. split; [by constructor|]. split; [done|].
    split; [done|]. split; [done|]. intros name Hn. rewrite spared_cons, Hsp, protect_elem by done. cbn [fst snd].
    rewrite (bool_decide_eq_true_2 (None = None)) by done. cbn [andb]. rewrite (orb_true_iff _ (spared multiRepo answers name)). tauto.
Qed.

(** *** Deleting *)

Definition stale_preview (openPEs protectedPEs : gset string) (name : string) (pe : PreviewEnvironment) : bool :=
  negb (bool_decide (name ∈ openPEs)) && negb (bool_decide (name ∈ protectedPEs)) && aged t pe.

Definition removed (openPEs protectedPEs : gset string) (l : list (string * PreviewEnvironment)) (k : NamespacedName) : bool :=
  existsb (λ x, bool_decide ((controlNs, x.1) = k) && stale_preview openPEs protectedPEs x.1 x.2) l.

Lemma delete_stale_quiet openPEs protectedPEs l err E1 w :
  (∀ x, x ∈ l → obj_key x.2 = (controlNs, x.1)) → stands E1 w →
  ∃ w' E2, delete_stale now openPEs protectedPEs l err w = (w', err) ∧ stands E2 w' ∧
    ∀ k, if removed openPEs protectedPEs l k then asked_to_go (E1 !! k) (E2 !! k) else E2 !! k = E1 !! k.
Proof.
  revert E1 w. induction l as [|[n pe] l IH]; intros E1 w Hk Hw; [by exists w, E1|]. cbn [delete_stale].
  assert (∀ x, x ∈ l → obj_key x.2 = (controlNs, x.1)) as Hk' by (intros x Hx; apply Hk; by right).
  assert ((bool_decide (n ∈ openPEs) || bool_decide (n ∈ protectedPEs) ||
    (time_sub (now w) (meta_CreationTimestamp (PreviewEnvironment_ObjectMeta pe)) <? convergenceGracePeriod)%Z) =
    negb (stale_preview openPEs protectedPEs n pe)) as ->.
  { unfold stale_preview, aged. rewrite Hnow, !negb_andb, !negb_involutive. f_equal. by rewrite Z.ltb_antisym. }
  destruct (stale_preview openPEs protectedPEs n pe) eqn:Es; cbn [negb].
  - destruct Hw as [Hq Hs]. destruct (kdelete_asks (Obj := PreviewEnvironment) (obj_key pe) w Hq) as (w1 & o' & Hq1 & Hs1 & Hgo & Hd).
    assert (∃ r, kdelete PreviewEnvironment (obj_key pe) w = (w1, r) ∧ ∀ e, r = Some e → IsNotFound e = true) as (r & -> & Hr).
    { destruct (kstore w !! obj_key pe); [by exists None|]. destruct Hd as (e & Hd & He). exists (Some e).
      split; [done|]. by intros e' [= <-]. }
    destruct (IH (partial_alter (λ _, o') (obj_key pe) E1) w1 Hk') as (w' & E2 & Hdel & Hw' & HE); [by split; [|rewrite Hs1, Hs]|].
    exists w', E2. split.
    { destruct r as [e|]; [by rewrite (Hr e eq_refl)|done]. }
    split; [done|]. intros k. generalize (HE k). unfold removed. cbn [existsb fst snd]. rewrite Es, andb_true_r.
    pose proof (Hk (n, pe) ltac:(by left)) as Hkey. cbn [fst snd] in Hkey. rewrite Hkey in Hgo |- *.
    case_bool_decide as Hd'; cbn [orb]; [|by rewrite lookup_partial_alter_ne].
    rewrite Hs in Hgo. rewrite <-Hd', lookup_partial_alter_eq. destruct (existsb _ l); [by etrans|by intros ->].
  - destruct (IH E1 w Hk' Hw) as (w' & E2 & Hdel & Hw' & HE). exists w', E2. split; [done|]. split; [done|].
    intros k. generalize (HE k). unfold removed. cbn [existsb fst snd]. by rewrite Es, andb_false_r.
Qed.

Lemma delete_all_quiet openPEs protectedPEs E1 w :
  (∀ name pe, E !! (controlNs, name) = Some pe → obj_key pe = (controlNs, name)) → stands E1 w →
  ∃ w' E2, deleteStalePreviews R now existing openPEs protectedPEs w = (w', None) ∧ stands E2 w' ∧
    ∀ k, match (if decide (k.1 = controlNs) then E !! k else None) with
         | Some pe => if stale_preview openPEs protectedPEs k.2 pe then asked_to_go (E1 !! k) (E2 !! k) else E2 !! k = E1 !! k
         | None => E2 !! k = E1 !! k
         end.
Proof.
  intros Hkeys Hw. assert (∀ x, x ∈ R _ existing ↔ existing !! x.1 = Some x.2) as Hin.
  { intros [n pe]. pose proof (range_perm (R := R) existing) as Hp. rewrite <-elem_of_map_to_list. by rewrite Hp. }
  destruct (delete_stale_quiet openPEs protectedPEs (R _ existing) None E1 w) as (w' & E2 & Hd & Hw' & HE); [|done|].
  { intros x Hx%Hin. rewrite Hex in Hx. by apply Hkeys. }
  exists w', E2. split; [exact Hd|]. split; [done|]. intros [ns name]. generalize (HE (ns, name)). cbn [fst snd].
  assert (removed openPEs protectedPEs (R _ existing) (ns, name) = true ↔
    ns = controlNs ∧ ∃ pe, E !! (controlNs, name) = Some pe ∧ stale_preview openPEs protectedPEs name pe = true) as Hrem.
  { unfold removed. rewrite existsb_elem. split.
    - intros ([n pe] & Hx%Hin & [Hk%bool_decide_eq_true Hst]%andb_true_iff). cbn [fst snd] in *. injection Hk as <- <-.
      rewrite Hex in Hx. split; [done|]. by exists pe.
    - intros (-> & pe & Hpe & Hst). exists (name, pe). cbn [fst snd]. rewrite bool_decide_eq_true_2, Hst by done.
      split; [|done]. apply Hin. by rewrite Hex. }
  destruct (removed _ _ _ _) eqn:Er.
  - destruct (proj1 Hrem eq_refl) as (-> & pe & Hpe & Hst). rewrite decide_True by done. by rewrite Hpe, Hst.
  - case_decide as Hns; [subst ns|done]. destruct (E !! (controlNs, name)) as [pe|] eqn:Hpe; [|done].
    destruct (stale_preview openPEs protectedPEs name pe) eqn:Hst; [|done]. exfalso.
    assert (false = true) by (apply Hrem; split; [done|by exists pe]). done.
Qed.

Lemma created_none : created_for project ∅ E E.
Proof. split; [done|]. intros name. rewrite lookup_empty. by destruct (E !! _). Qed.

(** Creating and then deleting. *)
Lemma converged_after (open : gmap string PreviewEnvironment) (kept : string → bool) openPEs protectedPEs E1 E2 :
  created_for project open E E1 →
  (∀ name pe, E !! (controlNs, name) = Some pe →
     stale_preview openPEs protectedPEs name pe = goes t open kept name pe) →
  (∀ k, match (if decide (k.1 = controlNs) then E !! k else None) with
        | Some pe => if stale_preview openPEs protectedPEs k.2 pe then asked_to_go (E1 !! k) (E2 !! k) else E2 !! k = E1 !! k
        | None => E2 !! k = E1 !! k
        end) →
  converged project t open kept E E2.
Proof.
  intros [Hoff Hc] Hgo HE. split.
  - intros k Hk. specialize (HE k). rewrite decide_False in HE by done. rewrite HE. by apply Hoff.
  - intros name. specialize (Hc name). specialize (HE (controlNs, name)). cbn [fst snd] in HE. rewrite decide_True in HE by done.
    destruct (E !! (controlNs, name)) as [pe|] eqn:Ek.
    + rewrite (Hgo name pe Ek), Hc in HE. by destruct (goes _ _ _ _ _).
    + destruct (open !! name) as [new|]; [|by rewrite HE]. destruct (String.eqb _ ""); [by rewrite HE|].
      destruct Hc as [rv Hc]. exists rv. by rewrite HE.
Qed.
End project.

(** C13: Without other writers a convergence that ends has asked to go, of the previews of
    the project, exactly those that are aged, do not have the name of a counted open pull
    request, and do not have the prefix of a repository that could not be asked; and it has
    created one for each counted open pull request that had none.  A preview is told by its
    name: one that is named, as the project is now, for a repository that could not be
    asked stays.  When previews are disabled, all aged ones are asked to go. *)
Theorem convergence_spec project E w w' :
  stands E w → ConvergeProjectPreviews R now (Some factory) project w = (w', inr tt) →
  ∃ E', stands E' w' ∧
    if previews_enabled project then
      ∃ apps w1 answers, klist_in (Obj := App) (ControlNamespace (project_name project)) ∅ w = (w1, inr apps) ∧
        let repos := unique_repos ∅ apps in
        let multiRepo := (1 <? length repos)%nat in
        Forall2 (asked project) repos answers ∧
        converged project t (wanted_previews project multiRepo answers) (spared multiRepo answers) E E' ∧
        ∀ repo n, (repo, None) ∈ answers → spared multiRepo answers (convergencePEName repo n multiRepo) = true
    else converged project t ∅ (λ _, false) E E'.
Proof.
  intros Hw. unfold ConvergeProjectPreviews. cbv zeta.
  assert (ControlNamespace (project_name project) ≠ "") as Hne by done.
  assert (∀ name pe, E !! (ControlNamespace (project_name project), name) = Some pe →
    obj_key pe = (ControlNamespace (project_name project), name)) as Hkeys.
  { intros name pe Hk. destruct Hw as [_ <-]. by apply kstore_key in Hk. }
  destruct (previews_enabled project); cbn [negb].
  - intros (w1 & apps & Hl & H)%bind_inr. unfold wrapping in Hl.
    pose proof (klist_reads (I := unaffected PreviewEnvironment) (Obj := App) (ControlNamespace (project_name project)) ∅ w) as Ha.
    destruct (klist_in _ ∅ w) as [w1' [err|l]] eqn:El; [done|]. injection Hl as <- <-. cbn [fst] in Ha.
    apply (stands_unaffected _ _ _ Ha) in Hw as Hw1. clear Ha.
    apply bind_inr in H as (w2 & existing & Hx & H).
    destruct (list_previews_quiet _ E w1' Hne Hw1) as (w2' & ex & Hx' & Hw2 & Hex). rewrite Hx' in Hx. injection Hx as <- <-.
    apply bind_inr in H as (w3 & res & Hr & H).
    destruct (converge_repos_quiet project _ E ex Hex _ [] ∅ E w2' w3 res Hw2 (created_none project E) Hr)
      as (answers & E3 & Hall & Hw3 & Hc & Hopen & Hsp).
    destruct (delete_all_quiet project E ex Hex res.1 res.2 E3 w3 Hkeys Hw3) as (w4 & E4 & Hd & Hw4 & HE4).
    unfold run in H. rewrite Hd in H. injection H as <-. exists E4. split; [done|].
    exists l, w1', answers. split; [done|]. split; [done|]. split; [|intros repo n; apply spared_named].
    eapply converged_after; [exact Hc| |exact HE4].
    intros name pe Hpe. unfold stale_preview, goes. f_equal. f_equal; f_equal.
    + apply bool_decide_ext. rewrite Hopen, elem_of_dom. done.
    + apply eq_bool_prop_intro. rewrite bool_decide_spec. rewrite Hsp by (rewrite Hex, Hpe; by eexists).
      rewrite elem_of_empty. split; [intros [[]|Hs]; by rewrite Hs|]. intros Hs. right. by apply Is_true_eq_true.
  - intros (w2 & existing & Hx & H)%bind_inr.
    destruct (list_previews_quiet _ E w Hne Hw) as (w2' & ex & Hx' & Hw2 & Hex). rewrite Hx' in Hx. injection Hx as <- <-.
    destruct (delete_all_quiet project E ex Hex ∅ ∅ E w2' Hkeys Hw2) as (w4 & E4 & Hd & Hw4 & HE4).
    unfold run in H. rewrite Hd in H. injection H as <-. exists E4. split; [done|].
    eapply converged_after; [exact (created_none project E)| |exact HE4].
    intros name pe _. unfold stale_preview, goes. rewrite lookup_empty. reflexivity.
Qed.
End quiet.
