(* ===== verification/PreviewRuns.v ===== *)
(** * The preview environment controller: runs

    The controller on a cluster: the moves of [PreviewFacts] at the relation that keeps a
    namespace of somebody else as it is, and the theorems on previews at concrete worlds. *)

From S2P Require Import Prelude GoStrings GoTime GoText Kube Core Api KubeStatus Effects Controller Constants BuildRun AppBuild EnvStore ApiServer GitTokens ProjectReconcile ApiProjectEnvs PreviewReconcile PreviewFacts PreviewConverges Cluster ProjectRuns.

#[local] Existing Instances Sim.hist_preorder Sim.client Sim.client_ok.

(** ** The moves of the controller on a cluster *)

Section moves.
Context (k : NamespacedName).

Definition preview_moves (w w' : cluster) : Prop :=
  guarded plain k (cl_namespaces w) (cl_namespaces w') ∧ Sim.hist (cl_previews w) (cl_previews w') ∧
  Sim.hist (cl_projects w) (cl_projects w') ∧ Sim.hist (cl_apps w) (cl_apps w') ∧
  Sim.hist (cl_secrets w) (cl_secrets w').

#[export] Instance preview_moves_preorder : PreOrder preview_moves.
Proof.
  split; [by intros w; split_and!|]. intros w1 w2 w3 H1 H2. unfold preview_moves in *. destruct_and!. split_and!; by etrans.
Qed.

Lemma over_pe {A} (f : Sim.world PreviewEnvironment → Sim.world PreviewEnvironment * A) w :
  Sim.hist (cl_previews w) (f (cl_previews w)).1 → preview_moves w (over f w).1.
Proof.
  unfold over, preview_moves. change (part w) with (cl_previews w). destruct (f (cl_previews w)) as [v a].
  by destruct w.
Qed.
Lemma over_project {A} (f : Sim.world Project → Sim.world Project * A) w :
  Sim.hist (cl_projects w) (f (cl_projects w)).1 → preview_moves w (over f w).1.
Proof.
  unfold over, preview_moves. change (part w) with (cl_projects w). destruct (f (cl_projects w)) as [v a].
  by destruct w.
Qed.
Lemma over_app {A} (f : Sim.world App → Sim.world App * A) w :
  Sim.hist (cl_apps w) (f (cl_apps w)).1 → preview_moves w (over f w).1.
Proof.
  unfold over, preview_moves. change (part w) with (cl_apps w). destruct (f (cl_apps w)) as [v a].
  by destruct w.
Qed.
Lemma over_secret {A} (f : Sim.world Secret → Sim.world Secret * A) w :
  Sim.hist (cl_secrets w) (f (cl_secrets w)).1 → preview_moves w (over f w).1.
Proof.
  unfold over, preview_moves. change (part w) with (cl_secrets w). destruct (f (cl_secrets w)) as [v a].
  by destruct w.
Qed.
Lemma over_namespace {A} (f : Sim.world Namespace → Sim.world Namespace * A) w :
  guarded plain k (cl_namespaces w) (f (cl_namespaces w)).1 → preview_moves w (over f w).1.
Proof.
  unfold over, preview_moves. change (part w) with (cl_namespaces w). destruct (f (cl_namespaces w)) as [v a].
  by destruct w.
Qed.
Lemma over_run_of {A} (f : Sim.world BuildRun → Sim.world BuildRun * A) w : preview_moves w (over f w).1.
Proof.
  unfold over, preview_moves. change (part w) with (cl_buildruns w). destruct (f (cl_buildruns w)) as [v a].
  by destruct w.
Qed.

(** Calls only add to the log. *)
Section logs.
Context {Obj : Type} {O : KubeObject Obj} {OOK : KubeObjectOk Obj}.
Lemma get_log k0 (v : Sim.world Obj) : Sim.hist v (Sim.get k0 v).1.
Proof. exact (proj1 (Sim.get_spec _ _ _ _ (surjective_pairing _))). Qed.
Lemma create_log o (v : Sim.world Obj) : Sim.hist v (Sim.create o v).1.
Proof. exact (proj1 (Sim.create_spec _ _ _ _ (surjective_pairing _))). Qed.
Lemma update_log o (v : Sim.world Obj) : Sim.hist v (Sim.update o v).1.
Proof. exact (proj1 (Sim.update_spec _ _ _ _ (surjective_pairing _))). Qed.
Lemma list_log ns labels (v : Sim.world Obj) : Sim.hist v (Sim.list_in ns labels v).1.
Proof. unfold Sim.list_in. destruct (Sim.tick v) as [v' [e|]] eqn:E; by apply Sim.tick_hist in E. Qed.
Context {SO : KubeStatusObject Obj} {SOK : KubeStatusObjectOk Obj}.
Lemma status_log o (v : Sim.world Obj) : Sim.hist v (SimStatus.update o v).1.
Proof.
  destruct (SimStatus.update o v) as [v' r] eqn:E. pose proof (SimStatus.updater_ok (Obj := Obj)) as H.
  exact (proj1 (kstatus_spec (KubeStatusOk := H) o v v' r E)).
Qed.
End logs.

Lemma owned_by_project_not_plain ns projectName : previewNamespaceOwnedByProject ns projectName = true → ¬ plain ns.
Proof.
  intros H [Ho Hl]. unfold previewNamespaceOwnedByProject in H. rewrite Ho, Hl in H. discriminate H.
Qed.

Lemma cluster_preview_moves key : PreviewMoves (W := cluster) key preview_moves.
Proof.
  split.
  - apply _.
  - intros w w' ([H _] & H1 & H2 & H3 & H4). by split_and!.
  - split; intros; apply over_pe; [apply get_log|apply create_log|apply update_log].
  - intros o w. apply over_pe, status_log.
  - intros ns l w. apply over_pe, list_log.
  - intros k0 w. apply over_project, get_log.
  - intros k0 w. apply over_app, get_log.
  - intros ns l w. apply over_app, list_log.
  - intros k0 w. apply over_secret, get_log.
  - intros k0 w. apply over_namespace, get_guarded.
  - intros k0 w. apply over_run_of.
  - intros pe p q w _ _ _ _. apply over_project, update_log.
  - intros pe a b w _ _ _. apply over_app, update_log.
  - intros pe s w _ _ _. apply over_secret, create_log.
  - intros pe s s' w _ _ _ _ _ _. apply over_secret, update_log.
  - intros pe ns w _ _ Hr _ Ho. apply over_namespace. apply (remove_guarded plain k plain_rv ns); [by apply read_part|].
    intros Hp. by eapply owned_by_project_not_plain.
Qed.
End moves.

(** ** Runs *)

Module PreviewRuns.
#[local] Existing Instances range_sorted_order range_sorted_order_ok Meta.helpers Finalizers.helpers Finalizers.finalizers_ok.
Abbreviation R := range_sorted_order.

Definition start_time : Time := 1770000000000000000%Z.
Definition now (w : cluster) : Time := start_time.

Definition env_of (name : string) : ProjectEnvironment := with_ProjectEnvironment_Name name ProjectEnvironment_zero.
Definition shop : Project :=
  with_Project_Spec (with_ProjectSpec_Environments [env_of "production"; env_of "staging"]
    (with_ProjectSpec_Preview (Some {| PreviewConfig_Enabled := true; PreviewConfig_SourceEnvironment := ""; PreviewConfig_BotPR := Some false |})
       ProjectSpec_zero))
    (with_Project_ObjectMeta (with_name "shop" ObjectMeta_zero) Project_zero).

Definition git_source (repo : string) : AppSource :=
  {| AppSource_Type := SourceTypeGit; AppSource_Repo := repo; AppSource_Branch := ""; AppSource_Path := "";
     AppSource_WatchPaths := []; AppSource_Build := None; AppSource_ProviderRef := "github"; AppSource_Image := "";
     AppSource_PullSecretRef := ""; AppSource_External := None |}.
Definition app_from (name repo : string) : App :=
  with_App_Spec (with_AppSpec_Source (git_source repo) AppSpec_zero)
    (with_App_ObjectMeta (with_name name (with_namespace "pj-shop" ObjectMeta_zero)) App_zero).
Definition web_repo : string := "https://github.com/acme/web".
Definition api_repo : string := "https://github.com/acme/api".

Definition preview_at (created : Time) (name : string) (number : Z) (repo : string) : PreviewEnvironment :=
  with_PreviewEnvironment_Spec
    {| PreviewEnvironmentSpec_ProjectRef := "shop"; PreviewEnvironmentSpec_SourceEnv := "staging";
       PreviewEnvironmentSpec_PullRequest :=
         {| PullRequestRef_Number := number; PullRequestRef_Branch := "feature"; PullRequestRef_SHA := "abc"; PullRequestRef_Repo := repo |} |}
    (with_PreviewEnvironment_ObjectMeta
       {| meta_Name := name; meta_Namespace := "pj-shop"; meta_Labels := ∅; meta_Annotations := ∅; meta_UID := name;
          meta_OwnerReferences := []; meta_ResourceVersion := ""; meta_Generation := 1; meta_CreationTimestamp := created;
          meta_DeletionTimestamp := None; meta_Finalizers := [] |} PreviewEnvironment_zero).

Definition shared_vars : Secret :=
  {| sec_meta := with_name SharedEnvName (with_namespace "pj-shop-staging" ObjectMeta_zero); sec_Type := ""; sec_Data := {["DB" := "pg"]} |}.
Definition token_secret : Secret :=
  {| sec_meta := with_name (UserTokenSecretName "github" "dev@acme.io") (with_namespace TokenSecretNamespace ObjectMeta_zero);
     sec_Type := ""; sec_Data := {["token" := "t0ken"]} |}.
Definition member : ProjectMember :=
  with_ProjectMember_Spec {| ProjectMemberSpec_Email := "dev@acme.io"; ProjectMemberSpec_Project := "shop"; ProjectMemberSpec_Role := ProjectRoleOwner |}
    (with_ProjectMember_ObjectMeta (with_name "member-1" (with_namespace "pj-shop" ObjectMeta_zero)) ProjectMember_zero).

Definition ns_named (name : string) : Namespace := {| ns_meta := with_name name ObjectMeta_zero |}.

Definition world (pes : Sim.world PreviewEnvironment) (apps : list App) (nss : list Namespace) : cluster :=
  {| cl_projects := stored_now [shop]; cl_members := stored_now [member]; cl_apps := stored_now apps; cl_previews := pes;
     cl_secrets := stored_now [shared_vars; token_secret]; cl_configmaps := nothing; cl_namespaces := stored_now nss;
     cl_rolebindings := nothing; cl_buildruns := nothing |}.

Definition key : NamespacedName := ("pj-shop", "preview-pr-7").
Definition pr7 : PreviewEnvironment := preview_at 0 "preview-pr-7" 7 web_repo.

(** *** One preview *)

Definition before : cluster := world (stored_now [pr7]) [app_from "web" web_repo] [ns_named "pj-shop-pr-7"].

Definition overrides (w : cluster) : list (string * list (string * string)) :=
  (λ x : NamespacedName * App, (x.1.2, (λ e, (Environment_Name e, Environment_Branch e)) <$> AppSpec_Environments (App_Spec x.2)))
    <$> map_to_list (kstore (Obj := App) w).

Example first_preview :
  let '(w, r) := Reconcile now key before in
  (r, (λ p, specEnvNames p) <$> kstore w !! ("", "shop"), overrides w,
   sec_Data <$> kstore w !! ("pj-shop-pr-7", SharedEnvName),
   (λ pe, PreviewEnvironmentStatus_Phase (PreviewEnvironment_Status pe)) <$> kstore w !! key) =
  (inr Done, Some ["production"; "staging"; "pr-7"], [("web", [("pr-7", "feature")])], Some {["DB" := "pg"]}, Some PreviewPhaseReady).
Proof. vm_compute. reflexivity. Qed.

Lemma preview_touches_own_witness : preview_moves ("", "pj-shop-pr-7") before (Reconcile now key before).1.
Proof.
  exact (preview_touches_own now key (preview_moves ("", "pj-shop-pr-7"))
    (M := cluster_preview_moves ("", "pj-shop-pr-7") key) before).
Defined.

Lemma overrides_settle_witness :
  let pe1 := pr7 in
  let pe2 := preview_at 0 "preview-other-pr-7" 7 api_repo in
  let app := app_from "web" web_repo in
  with_preview_override "staging" "pr-7" pe1 (passed "staging" "pr-7" pe1 app) = None ∧
  with_preview_override "staging" "pr-7" pe2 (passed "staging" "pr-7" pe1 app) = None.
Proof. intros pe1 pe2 app. apply (overrides_settle "staging" "staging" "pr-7" pe1 pe2 app); vm_compute; reflexivity. Defined.

Lemma ResolveGitTokenForApp_spec_witness :
  ∃ w' r l, ResolveGitTokenForApp "github" "pj-shop" "" "" before = (w', r) ∧
    (∀ m, m ∈ l ↔ selected "pj-shop" ∅ m = true ∧ kstore before !! obj_key m = Some m) ∧
    match first_token (kstore before) "github" ("" :: "" :: (member_email <$> l)) with
    | Some t => r = inr t
    | None => ∃ err, r = inl err
    end.
Proof. exact (ResolveGitTokenForApp_spec "github" "pj-shop" "" "" before eq_refl eq_refl). Defined.

(** *** Convergence *)

(** There is one provider, [github]. *)
Definition provider : GitProvider := with_GitProvider_ObjectMeta (with_name "github" ObjectMeta_zero) GitProvider_zero.
#[local] Instance providers : KubeClient cluster GitProvider :=
  {| kget k w := (w, if String.eqb k.2 "github" then inr provider else inl (KubeError NotFound k.2));
     kcreate o w := (w, None); kupdate o w := (w, None) |}.
#[local] Instance providers_read : KubeReads cluster GitProvider (unaffected PreviewEnvironment).
Proof. by intros k w. Qed.

Definition opened (bot : bool) (number : Z) : PullRequestSnapshot :=
  {| prs_Number := number; prs_Branch := "feature"; prs_SHA := "abc";
     prs_Author := {| pra_Login := "dev"; pra_Type := ""; pra_IsBot := bot |} |}.

(** A forge that has pull requests of one repository, and answers for no other one. *)
Definition forge (open : list PullRequestSnapshot) (gp : GitProvider) (token : string)
    : error + (string → cluster → cluster * (error + list PullRequestSnapshot)) :=
  inr (λ repo w, (w, if String.eqb repo web_repo then inr open else inl (Errorf "timeout" []))).

Lemma forge_reads open gp token f repo w :
  forge open gp token = inr f → unaffected PreviewEnvironment w (f repo w).1.
Proof. intros [= <-]. reflexivity. Qed.

Definition previews_of (w : cluster) : list string := (map_to_list (kstore (Obj := PreviewEnvironment) w)).*1.*2.

(** Number 7 is open, 8 is new, 9 is of a bot; 3 is closed, 4 is closed and young. *)
Definition several : cluster :=
  world (stored_now [pr7; preview_at 0 "preview-pr-3" 3 web_repo; preview_at (start_time - Minute) "preview-pr-4" 4 web_repo])
    [app_from "web" web_repo] [].
Definition open_now : list PullRequestSnapshot := [opened false 7; opened false 8; opened true 9].

Local Abbreviation converge open := (ConvergeProjectPreviews R now (Some (forge open)) shop).

Example converges :
  let '(w, r) := converge open_now several in
  (r, previews_of w) = (inr tt, ["preview-pr-7"; "preview-pr-4"; "preview-pr-8"]).
Proof. vm_compute. reflexivity. Qed.

Lemma convergence_spec_witness :
  ∃ E', stands E' (converge open_now several).1 ∧
    if previews_enabled shop then
      ∃ apps w1 answers, klist_in (Obj := App) (ControlNamespace (project_name shop)) ∅ several = (w1, inr apps) ∧
        let repos := unique_repos ∅ apps in
        let multiRepo := (1 <? length repos)%nat in
        Forall2 (asked (forge open_now) shop) repos answers ∧
        converged shop start_time (wanted_previews shop multiRepo answers) (spared multiRepo answers) (kstore several) E' ∧
        ∀ repo n, (repo, None) ∈ answers → spared multiRepo answers (convergencePEName repo n multiRepo) = true
    else converged shop start_time ∅ (λ _, false) (kstore several) E'.
Proof.
  apply (convergence_spec R now start_time (λ _, eq_refl) (forge open_now) (forge_reads open_now) shop (kstore several) several).
  - by split.
  - apply ends_with. vm_compute. reflexivity.
Defined.

(** A second repository is added to the project.  The forge does not answer for the first
    one, whose preview has the name of the time when it was the only one: it is not found
    by the prefix of its repository, and deleted, although its pull request may be open. *)
Definition second_repo : cluster :=
  world (stored_now [preview_at 0 "preview-pr-3" 3 api_repo]) [app_from "api" api_repo; app_from "web" web_repo] [].

Example unanswered_preview_deleted : let '(w, r) := converge [] second_repo in (r, previews_of w) = (inr tt, []).
Proof. vm_compute. reflexivity. Qed.

(** With one repository it is kept. *)
Example unanswered_preview_kept :
  let '(w, r) := converge [] (world (stored_now [preview_at 0 "preview-pr-3" 3 api_repo]) [app_from "api" api_repo] []) in
  (r, previews_of w) = (inr tt, ["preview-pr-3"]).
Proof. vm_compute. reflexivity. Qed.
End PreviewRuns.
